(* ===== verification/_CoqProject ===== *)
-Q . S2P
Prelude.v
Bits.v
Chains.v
IpaTable.v
IpaTableSize.v
IpaMemDesc.v
IpaDma.v
IpaTableWalk.v
IpaTableWf.v
IpaTableAdd.v
IpaTableDel.v
IpaTableMark.v
IpaTableInit.v
IpaIpv6ctEntry.v
IpaIpv6ct.v
IpaIpv6ctSpec.v
IpaIpv6ctApi.v
IpaNatEntry.v
IpaNatDrv.v
IpaNatCalls.v
IpaNatSpec.v
IpaNatApi.v
IpaNatRefine.v
IpaNatPdn.v
IpaNatThms.v
IpaNatMap.v
IpaNatSm.v
IpaNatSmRun.v
IpaNatSmSpec.v
IpaNatSmMove.v
IpaNatSmCalls.v
IpaNatSmCreate.v
IpaNatSmRefine.v
IpaNatSmThms.v
IpaTableThms.v
IpaClk.v
IpaPm.v
IpaPmApi.v
IpaPmThroughput.v
IpaPmInv.v
IpaPmSteps.v
IpaPmMachine.v
IpaPmWindows.v
IpaPmThms.v
IpaPmExceptions.v
IpaPmScaling.v
VidcQueue.v
VidcQueueSpec.v
VidcQueueThms.v
VidcMem.v
VidcHfi.v
VidcHfiInv.v
VidcHfiThms.v
VidcPacket.v
VidcPacketSpec.v
VidcBuffer.v
VidcPacketThms.v
VidcBufferThms.v
VidcSession.v
VidcCore.v
VidcPower.v
VidcPowerSpec.v
VidcVenus.v
VidcCmds.v
VidcScale.v
VidcFlow.v
VidcResponse.v
VidcReply.v
VidcBufSpec.v
VidcSessionInv.v
VidcVenusSpec.v
VidcVenusInv.v
VidcLifeSpec.v
VidcCoreSpec.v
VidcCoreInv.v
VidcFlowInv.v
VidcDriverInv.v
VidcCoreThms.v
VidcSessionThms.v
VidcCmdThms.v
