(* ===== verification/Prelude.v ===== *)
(** * IPA NAT, IPv6 connection tracking and power management, video core

    A model and its correctness proofs of three parts of the modules: of the
    software of the Qualcomm IP Accelerator (IPA), the userspace NAT library
    qcom/opensource/dataipa/ipanat, together with the kernel path of the
    commands it issues (dataipa/drivers/platform/msm/ipa/ipa_v3/ipa_nat.c),
    and the power manager of the kernel driver (ipa_v3/ipa_pm.c) with the
    reference count of the clocks it works on (ipa_v3/ipa.c); of the video
    driver (qcom/opensource/video-driver/driver), the queues it shares with its
    firmware (vidc/src/venus_hfi_queue.c) and the memory behind them
    (msm_vidc_memory_ext.c, msm_vidc_memory.c), the packets in them
    (hfi_packet.c, venus_hfi_response.c), and the core: its states and those
    of its sessions (msm_vidc_state.c, msm_vidc_driver.c), its firmware and
    commands (firmware.c, venus_hfi.c), its power (resources.c,
    resources_ext.c, variant/common, variant/iris2), and its sessions: their
    commands, sequences and replies (venus_hfi.c, msm_vidc.c, msm_vidc_vb2.c,
    msm_vidc_v4l2.c, venus_hfi_response.c) and the votes for clock and buses
    (msm_vidc_power.c).  File names of the first
    two parts are relative to src/qcom/opensource/dataipa.

    ** The program

    The library keeps rules in tables the hardware reads.  A table
    (ipanat/src/ipa_table.c) is a base part indexed by a hash and an expansion
    part for collisions; the records of a bucket are a doubly linked list.
    Records are prepared by plain stores, but every change the hardware must
    see atomically (enabling a record, linking and unlinking it) is a 16-bit
    write in a list of commands, which an ioctl passes to the kernel and the
    kernel, once it has validated all of them, to the hardware.  Three kinds
    of tables share this code through a structure of callbacks: IPv6
    connection tracking (ipa_ipv6ct.c), the IPv4 NAT rules and the index of
    NAT rules by private address (ipa_nat_drvi.c).  A head of a bucket that
    has followers cannot be unlinked: it is marked dead by its protocol field
    and goes with its last follower.

    Above the NAT library's calls on one table sits a state machine
    (ipanat/src/ipa_nat_statemach.c): tables live in DDR, in SRAM, or in both
    (the hybrid states), and every call is a trigger whose callback depends on
    the state.  In the hybrid states a switch moves the rules one by one from
    the memory left to the memory entered; the handles of the rules change
    with it, so the library keeps, in two maps per memory
    (ipanat/src/ipa_nat_map.cpp), which handle of the client stands for which
    handle of the table.

    The power manager decides when the clocks of the hardware run and how
    fast.  Its clients (drivers) register, activate and deactivate; an active
    client that votes holds a reference to the clocks, the first reference
    turns them on, the last one gates them, and the throughputs of the active
    clients determine the clock plan.  Activation from atomic context is put
    off to a work item when the clocks are off, deactivation can be put off
    to a timer, and gating to work items of its own, so all of it is a state
    machine in which calls, work items and timers interleave.

    The video driver and its firmware exchange packets through three rings of
    words in one allocation: commands, messages and debug messages.  Each ring
    has a header with a read and a write index that both sides can write.  An
    initialisation allocates the rings and further buffers, maps register
    ranges for the firmware and writes down for it where they are; a
    deinitialisation gives all of it back.

    A message is a header and packets behind it, both with their sizes; the
    driver builds messages in buffers of 4096 bytes and walks over those it
    receives.  The core of the driver is a state machine (DEINIT, INIT_WAIT,
    INIT, ERROR) under one lock.  A start allocates the queues, powers the
    hardware, loads the firmware and sends it commands; its answer makes the
    state INIT.  While nothing happens the power is collapsed, and any command
    resumes the core first; the resume itself sends commands.  After a failure
    (a system error of the firmware, a watchdog interrupt, no answer) the core
    is deinitialised and its sessions end in their error states.  A session
    has a state by the ports that stream, a set of sub-states (drain, dynamic
    resolution change, paused ports) and a handler of its state's events.
    A client starts, stops, drains and resumes its ports; the driver sends the
    commands, and waits for the answer of a stop and of a close with the lock
    of the session free, so that the firmware's messages, which change the
    sub-states and signal the answers, can be handled meanwhile.

    ** Conventions

    A C function is a definition of the same name; it returns what the C
    function returns, what it writes through out pointers, and the new state,
    in the monad [exec]: [Done], [Fault] (an access outside an object or
    through NULL) or [Timeout] (fuel exhausted).  Integers are Z, wrapped
    where the C type wraps ([u8], [u16], [u32]); a hardware record is the
    integer its bytes spell and its bit-fields are read and written by [fget]
    and [fset].  A pointer to a record is the index of the record.  Results of
    the kernel, of libc and of the locks are parameters, collected in classes
    ([ipa_os], [ct_env], [nat_env], [sm_env], [VidcKernel]); the hardware's
    reaction to an accepted command list is the parameter [IpaHw] with the
    documented behaviour [IpaHwSpec].  Logging is left out, except that the
    arguments of error messages are evaluated.

    ** Files

    - Prelude: results, machine integers, indexed stores, tactics.
    - Bits: bit-fields.   Chains: doubly linked lists in an indexed store and
      what link updates do to them ([chains_ok]).
    - IpaTable: ipa_table.c without sizing.   IpaTableSize: the dimensions a
      requested number of entries gets, float arithmetic included.
    - IpaMemDesc: ipa_mem_descriptor.c.
    - IpaDma: ipa3_table_dma_cmd and its validation, and the hardware's side.
    - IpaTableWf: the interface [EntryLaws] a client of the table promises,
      and the invariant [table_ok] it gets.   IpaTableAdd, IpaTableDel:
      insertion (prepared, committed, undone) and deletion.   IpaTableMark:
      dead heads ([DeadLaws], [marked_ok], [live]).   IpaTableWalk,
      IpaTableInit: walking; clearing and handles.
    - IpaIpv6ctEntry, IpaIpv6ct: records, callbacks and functions of
      ipa_ipv6ct.c.   IpaIpv6ctSpec, IpaIpv6ctApi: the table as a map of live
      rules, the contract of each call, runs of calls.
    - IpaNatEntry, IpaNatDrv, IpaNatCalls: records, checksum differences and
      hashes; caches, creation and the locked parts of adding and deleting;
      the API, statistics and the PDN configuration (with the wrappers of
      ipa_nat_drv.c).   IpaNatSpec: the pair of tables, every live rule and
      its index record naming each other ([nat_ok]).   IpaNatApi: contracts
      of the calls.   IpaNatRefine: the map from handles to rules as abstract
      specification, and the simulation.   IpaNatPdn: lemmas of
      the PDN entries and of the statistics.
    - IpaNatMap: the maps of handles (ipa_nat_map.cpp).   IpaNatSm: the state
      machine of the memories, all states, triggers and callbacks, with the
      callers in ipa_nat_drv.c.   IpaNatSmRun: how deep callbacks run the
      machine again.   IpaNatSmSpec: the invariant [hybrid] of the hybrid
      states.   IpaNatSmMove: the migration of the rules ([moved]).
      IpaNatSmCalls, IpaNatSmCreate: the contract of each call.
      IpaNatSmRefine: the map from the client's handles to rules as abstract
      specification, and the simulation.   IpaNatSmThms: the properties.
    - IpaNatThms, IpaTableThms: the properties of the NAT library and of the
      shared parts, with instances on concrete tables.  The properties of the
      sizing and of connection tracking are at the end of their files.

    - IpaClk: the reference count of the clocks (ipa.c) as operations and as
      a transition system [clk_step] with its invariant [clk_ok]; the
      power manager is its listener ([ClkListener]).
    - IpaPm, IpaPmApi: data, throughput and thresholds; work items and API of
      ipa_pm.c, as whole calls and as the parts between which the lock of the
      client is free.   IpaPmThroughput: the reference definition of the
      aggregated throughput.   IpaPmInv: the invariant [sys_ok].   IpaPmSteps:
      every operation keeps it.   IpaPmMachine: the transition system [pm_step]
      of whole calls, for what does not depend on the order inside a call, and
      that a call is the sequence of its parts.   IpaPmWindows: the transition
      system [w_step] of the parts, with everything that can come in between,
      and its invariant.   IpaPmThms: its reachable states, progress, and the
      windows.   IpaPmExceptions: names, exceptions and registration.
      IpaPmScaling: the clock plan, and the window of a synchronous activation.

    - VidcQueue: a ring and its header, __write_queue, __read_queue.
      VidcQueueSpec: the ring as a list of packets ([queue_holds]), the
      abstract queue ([fifo_step]) and its simulation ([q_step_refines]).
      VidcQueueThms: the properties of one queue, also when the firmware does
      not keep the protocol.   VidcMem: dma-bufs, register and page ranges.
      VidcHfi: the core's queues: commands, messages, (de)initialisation.
      VidcHfiInv: what the core holds of the kernel ([holds_ok]), part by part
      of the initialisation, and with buffers left behind ([forget]).
      VidcHfiThms: its properties.
    - VidcPacket: headers and packets byte by byte, messages of the system,
      the checks of received messages (hfi_packet.c, venus_hfi_response.c).
      VidcBuffer: types and ports of buffers, buffer packets.
      VidcPacketSpec: what a buffer holds.   VidcPacketThms, VidcBufferThms:
      the properties.
    - VidcSession: states, sub-states and events of a session.   VidcCore:
      the core with what is held of kernel and secure world, the operations on
      it and how they compose, its state machine.   VidcPower: registers,
      resources and the power sequences.   VidcVenus: firmware, commands,
      resume and power collapse, start, stop and failures.   VidcResponse:
      messages for the core, interrupts.
    - VidcCmds: the commands of a session, the messages kept back while it
      serves a request, batches.   VidcScale: the votes for clock and buses.
      VidcFlow: drain, resume, start and stop of ports, the waits, close, kill,
      the client's calls.   VidcReply: messages for a session.
    - VidcCore also has the rules for operations ([wp], [does]).
      VidcPowerSpec, VidcBufSpec, VidcVenusSpec, VidcVenusInv, VidcLifeSpec,
      VidcCoreSpec: one relation between the core before and after per level:
      hardware only ([hw_only]), commands ([cmd_only], [on_only]), load and
      unload ([life_only]), recovery ([recovered]).  VidcCoreInv: the
      invariant [core_inv] between calls, the calls ([core_call]) and
      reachable states.  VidcCoreThms: the properties.
    - VidcSessionInv: the invariant of a session ([inst_ok]) and of the
      sessions of a core ([sessions_ok]), and that every change keeps it.
      VidcFlowInv: every command and sequence keeps [core_inv], with the locked
      and the known sessions as parameters (the hints [flow]).   VidcDriverInv:
      the same for messages and the client's calls; everything the driver does
      ([driver_call]), nested where it waits, and the reachable states.
      VidcSessionThms, VidcCmdThms: the properties.

    ** What is shown

    - Tables: an insertion either prepares a record and commands that append
      it to its bucket when executed and are undone by erasing it, or has no
      effect; a deletion unlinks one record; handles name their records;
      walks, clearing; dimensions and their bounds; the search for the number
      of entries that fit an SRAM, and when it does not end.
    - Kernel: a command list is executed as a whole or not at all, inside the
      tables; the one byte by which the check is too generous.
    - Connection tracking: the contract of every call on every branch; an
      invariant over all runs, whatever the environment answers; progress.
    - NAT: adding and deleting rules refine the map from handles to rules for
      every answer of the kernel, up to and including the first deletion it
      refuses; creation, clearing, deletion, queries,
      statistics and PDN entries; and, as theorems, the cases in which the
      code does not do what it means to: a handle used twice, a refused
      deletion, a refused table deletion, the PDN index bounds.
    - Memories: the creation of the hybrid tables; every run of rule calls and
      switches refines the map from the client's handles to rules, which a
      switch leaves as it is unless it is counted as failed; the
      machine nests at most three deep and gives the mutex back; and what goes
      wrong: results the unlock overwrites, a handle given out twice after a
      switch, a rule the maps forget though its deletion was refused.

    - Clocks: in every interleaving the counter is the number of references,
      wherever they are held, and the clocks are on exactly while it is not
      zero.
    - Power manager: the same with the references of the clients, from the
      time an activation has taken the clocks until a deactivation releases
      them; the state of a client determines its timer, work item, bit and
      wake source, once what is done without the lock is done; put-off
      activations and deactivations are carried out; the aggregated throughput
      equals its definition on multisets; the clock plan; when an exception is
      in force; registration and its inverse; and, again as theorems, what goes
      wrong: exceptions of several clients, the window of a synchronous
      activation, a second call on a client while another has released its
      lock (the case the first two leave out).

    - Video queues: both sides keeping the protocol, a queue is a
      first-in-first-out list of packets that is never read or written outside
      its memory; what remains of this with any contents of the shared memory;
      the layout and contents after an initialisation; in every state the core
      holds what its areas record, and gives it back, apart from one buffer at
      most for each attachment that was refused; and the failures: a refused
      command reported as written, a message lost when the firmware waits for
      room, a second initialisation after a failed one, a buffer left behind.
    - Video packets: a message of any requests is read back as these requests;
      the check of a received message keeps walks inside its buffer, with one
      exception; buffers survive the way to the firmware and back.
    - Video core: its invariant holds between calls in any order but one (a
      stop while the start is waited for, which breaks it), and every call
      returns; a resume needs two levels at most, whatever its fuel; what a
      failure leaves, also what it wrongly leaves; switching the power; which
      packets of a message are handled; a power on that leaks, and a stop
      that leaves the core in the wrong state.
    - Video sessions: the invariant of core and sessions under everything the
      driver does, also while a client waits, on the condition that the parts
      that are not modelled respect it (vidc_driver_invariant); the states and
      how they follow each other; how a drain goes, what a resume leaves; in
      which order the packets of a message are handled; the messages kept back
      that are merged into the next one, and when that writes behind the
      buffer; the clock that is voted for; a settings change the code's own
      table refuses.

    ** Bounds and fuel

    Loops that follow a chain get one unit of fuel more than the table has
    records, which is enough on a well-formed table (part of the statements
    that the calls return).  Get2PowerTightUpperBound gets as many rounds as
    its 16-bit argument has bits plus one; ipa_calc_num_sram_table_entries is
    parametrised by its fuel, as it need not end.  The hash loop over 64 bits
    has at most four rounds.  The loop of the throughput aggregation is
    structural in the number of elements, which each round decreases; the
    aggregated throughput is exact for loads whose sum is below 2^32.
    The memory state machine is parametrised by the depth its callbacks may
    nest; three levels are enough for every state and trigger (proved).  The
    search for the entries that fit the SRAM gets 40000 rounds there, more
    than a 16-bit request has steps.
    The message loop of the video core gets one unit more than there are
    messages.  Its queues have between 1024 and 2^28 words (the driver's have
    204800); 1024 words is the longest packet its buffers take.
    A walk over a message gets its size / 32 + 2 rounds, as a packet has 32
    bytes at least.  The loops that empty the debug queue and the message
    queue get 204801 rounds, one more than the queue has words (enough for the
    first: [flush_ok]).  __resume gets two levels; more change nothing
    (vidc_resume_correct).  The driver's own bounds are kept: 1000 attempts to
    acquire a reset line, 1000 reads of the boot status.

    ** Not modelled

    Printing of tables and of the maps; the contracts of the hybrid states
    suppose that the locks, the clock votes and the change of the hardware's
    table succeed and that the kernel accepts deletions (their failures are
    modelled, and are the subject of theorems of their own); what follows a
    refused deletion in the tables of one memory; the kernel's handling of
    table allocation and initialisation, which is a parameter; interleavings
    of threads in the NAT library (its API functions hold one mutex, except
    ipa_ipv6ct_add_tbl and the PDN functions, which take none); the increment
    of the hash token beyond the int range.

    Of the power manager: statistics and the dummy clients of its debugfs
    file; bandwidth votes and the clock hardware; in [w_step] the regions the
    locks protect are steps, and left out are two synchronous calls on one
    client at the same time and any second call on a client, or its timer,
    while a call, the timer or the activation work of that client is in the
    part it does without the lock (releasing the clocks and the wake source,
    changing the bit; pm_release_windows shows what goes wrong then).  The
    exceptions in force (pm_exception_correct) and the timer
    (pm_timer_correct) are shown for [pm_step], whose steps are whole calls.
    The IPA
    resource manager (ipa_rm.c) is not modelled: nothing in the repository
    creates its resources.

    Of the video core: the interrupt's message loop in the reachability result
    (it is a definition; its messages are calls of their own there); the rest
    of the V4L2 glue, controls and capabilities, formats, buffer lists and
    internal buffers - what the sequences and the replies call of these is any
    operation of the classes [VidcDriver] and [VidcReplies] that comes back
    and keeps the invariant ([driver_ok], [replies_ok]); the rates and
    bandwidths a session needs ([VidcNeeds]); sending buffers in the
    reachability result; the freeing of sessions; the resources of other
    platforms (power domains, OPP tables); the failure reason buffer, which is
    printed.  A stop of the core while its start is waited for is left out of
    the reachable states, and is the subject of a theorem.

    Of the video queues: changes the firmware makes to a queue while one of
    the driver's calls works on it; the address of the core in the table
    header; logging.  The dma-buf, SMMU and DMA functions of the kernel are
    answers, of which only errors being non-zero and allocations having the
    requested size are assumed.

    The other drivers of the repository program hardware or talk to firmware
    that is not part of it; candidates for further work are the hardware
    fences of mm-drivers, and cam_sync.*)
From Stdlib Require Export String ZArith Lia.
From stdpp Require Export base numbers list option sets relations.

Create HintDb ipa discriminated.
Declare Scope ipa_scope.
Delimit Scope ipa_scope with ipa.
#[global] Open Scope Z_scope.

(** ** Results of C code

    A computation returns a value ([Done]), reads or writes outside an object
    it was given ([Fault]: undefined behaviour in C), or does not come back
    within the fuel it was given ([Timeout]). *)
Inductive exec (A : Type) : Type :=
| Done (a : A)
| Fault
| Timeout.
Arguments Done {A} _.
Arguments Fault {A}.
Arguments Timeout {A}.

#[global] Instance exec_ret : MRet exec := fun A a => Done a.
#[global] Instance exec_bind : MBind exec :=
  fun A B k m => match m with Done a => k a | Fault => Fault | Timeout => Timeout end.

(** A pointer that must not be NULL. *)
Definition deref {A} (o : option A) : exec A :=
  match o with Some a => Done a | None => Fault end.

(** ** Machine integers: conversions to unsigned widths *)
Definition u8 (x : Z) : Z := x mod 2 ^ 8.
Definition u16 (x : Z) : Z := x mod 2 ^ 16.
Definition u32 (x : Z) : Z := x mod 2 ^ 32.

(** ** errno values *)
Definition EPERM : Z := 1.
Definition EIO : Z := 5.
Definition ENOMEM : Z := 12.
Definition EFAULT : Z := 14.
Definition EINVAL : Z := 22.

(** ** Lists indexed by C integers *)
Definition zlookup {A} (l : list A) (i : Z) : option A :=
  if 0 <=? i then l !! Z.to_nat i else None.
Definition zinsert {A} (i : Z) (x : A) (l : list A) : list A :=
  if 0 <=? i then <[Z.to_nat i := x]> l else l.
Definition zlength {A} (l : list A) : Z := Z.of_nat (length l).

Notation "l .[ i ]" := (zlookup l i)
  (at level 1, left associativity, format "l .[ i ]") : ipa_scope.
#[global] Open Scope ipa_scope.

(** A store through an index: outside the array it is a fault. *)
Definition zstore {A} (i : Z) (x : A) (l : list A) : exec (list A) :=
  match zlookup l i with Some _ => Done (zinsert i x l) | None => Fault end.

(** ** Tactics *)

(** Boolean tests in the context and the goal as propositions. *)
Ltac zb :=
  repeat match goal with
  | H : (_ && _)%bool = true |- _ => apply andb_true_iff in H; destruct H
  | H : (_ || _)%bool = false |- _ => apply orb_false_iff in H; destruct H
  | H : negb _ = true |- _ => apply negb_true_iff in H
  | H : negb _ = false |- _ => apply negb_false_iff in H
  | H : (_ =? _) = true |- _ => apply Z.eqb_eq in H
  | H : (_ =? _) = false |- _ => apply Z.eqb_neq in H
  | H : (_ <? _) = true |- _ => apply Z.ltb_lt in H
  | H : (_ <? _) = false |- _ => apply Z.ltb_ge in H
  | H : (_ <=? _) = true |- _ => apply Z.leb_le in H
  | H : (_ <=? _) = false |- _ => apply Z.leb_gt in H
  | H : (_ >? _) = true |- _ => rewrite Z.gtb_ltb in H; apply Z.ltb_lt in H
  | H : (_ >? _) = false |- _ => rewrite Z.gtb_ltb in H; apply Z.ltb_ge in H
  | H : (_ >=? _) = true |- _ => rewrite Z.geb_leb in H; apply Z.leb_le in H
  | H : (_ >=? _) = false |- _ => rewrite Z.geb_leb in H; apply Z.leb_gt in H
  | |- negb _ = true => apply negb_true_iff
  | |- negb _ = false => apply negb_false_iff
  | |- (_ =? _) = true => apply Z.eqb_eq
  | |- (_ =? _) = false => apply Z.eqb_neq
  | |- (_ <? _) = true => apply Z.ltb_lt
  | |- (_ <? _) = false => apply Z.ltb_ge
  | |- (_ <=? _) = true => apply Z.leb_le
  | |- (_ <=? _) = false => apply Z.leb_gt
  end.

(** Case analysis on the innermost test of the goal, keeping the equation. *)
Ltac case_test :=
  match goal with
  | |- context [if ?b then _ else _] =>
      let E := fresh "E" in destruct b eqn:E; zb
  end.
Ltac case_test_in H :=
  match type of H with
  | context [if ?b then _ else _] =>
      let E := fresh "E" in destruct b eqn:E; zb
  end.

(** Resolves the boolean tests of the goal (or of [H]) that linear
    arithmetic decides. *)
Ltac test_true b := replace b with true by (symmetry; zb; (lia || assumption)).
Ltac test_false b := replace b with false by (symmetry; zb; (lia || assumption)).
Ltac tests :=
  repeat match goal with
  | |- context [if ?b then _ else _] => first [test_true b | test_false b]; cbv iota
  end.

(** ** Lemmas on results *)
Lemma bind_Done {A B} (m : exec A) (k : A -> exec B) b :
  (x ← m; k x) = Done b <-> exists a, m = Done a /\ k a = Done b.
Proof.
  split; [|intros (a & -> & H); exact H].
  destruct m as [a| |]; cbn; [eauto|discriminate..].
Qed.

(** Runs backwards through a computation known to have returned. *)
Ltac exec_inv :=
  repeat match goal with
  | H : Done _ = Done _ |- _ => injection H; clear H; intros; subst
  | H : mret _ = Done _ |- _ => unfold mret, exec_ret in H
  | H : Fault = Done _ |- _ => discriminate H
  | H : Timeout = Done _ |- _ => discriminate H
  | H : mbind _ _ = Done _ |- _ =>
      apply bind_Done in H; let a := fresh "a" in let E := fresh "E" in
      destruct H as (a & E & H)
  end.

(** Splits a computation known to have returned into its branches. *)
Ltac branches :=
  repeat (first
    [ progress exec_inv
    | match goal with
      | H : match ?b with _ => _ end = _ |- _ =>
          lazymatch b with
          | context [match ?c with _ => _ end] => destruct c eqn:? | _ => destruct b eqn:? end
      | H : (let '(_, _) := ?b in _) = _ |- _ => destruct b eqn:?
      end ]).

(** ** Lemmas on machine integers *)
Lemma u16_small x : 0 <= x < 65536 -> u16 x = x.
Proof. intros. unfold u16. now apply Z.mod_small. Qed.
Lemma u32_small x : 0 <= x < 4294967296 -> u32 x = x.
Proof. intros. unfold u32. now apply Z.mod_small. Qed.
Lemma u8_small x : 0 <= x < 256 -> u8 x = x.
Proof. intros. unfold u8. now apply Z.mod_small. Qed.
Lemma u16_range x : 0 <= u16 x < 65536.
Proof. unfold u16. apply Z.mod_pos_bound. reflexivity. Qed.
Lemma u16_u16 x : u16 (u16 x) = u16 x.
Proof. unfold u16. now rewrite Z.mod_mod. Qed.
Lemma u8_range x : 0 <= u8 x < 256.
Proof. unfold u8. apply Z.mod_pos_bound. reflexivity. Qed.

(** ** Lemmas on indexed lists *)
Section ZList.
Context {A : Type}.
Implicit Types (l : list A) (i j : Z).

Lemma zlookup_lt l i x : zlookup l i = Some x -> 0 <= i < zlength l.
Proof.
  unfold zlookup, zlength. destruct (0 <=? i) eqn:E; [|discriminate]. zb.
  intros H%lookup_lt_Some. lia.
Qed.
Lemma zlookup_None l i : zlength l <= i -> zlookup l i = None.
Proof.
  intros H. destruct (zlookup l i) eqn:E; [|done]. apply zlookup_lt in E. lia.
Qed.
Lemma zlookup_is_Some l i : 0 <= i < zlength l -> exists x, zlookup l i = Some x.
Proof.
  unfold zlookup, zlength. intros H. rewrite (proj2 (Z.leb_le 0 i)) by lia.
  apply lookup_lt_is_Some. lia.
Qed.
Lemma zlength_insert i x l : zlength (zinsert i x l) = zlength l.
Proof. unfold zlength, zinsert. destruct (0 <=? i); [now rewrite length_insert|done]. Qed.
Lemma zlookup_insert_eq i x l : 0 <= i < zlength l -> zlookup (zinsert i x l) i = Some x.
Proof.
  unfold zlookup, zlength, zinsert. intros H. rewrite (proj2 (Z.leb_le 0 i)) by lia.
  apply list_lookup_insert_eq. lia.
Qed.
Lemma zlookup_insert_ne i j x l : i <> j -> zlookup (zinsert i x l) j = zlookup l j.
Proof.
  unfold zlookup, zinsert. intros H.
  destruct (0 <=? i) eqn:Ei; destruct (0 <=? j) eqn:Ej; zb; auto.
  apply list_lookup_insert_ne. lia.
Qed.
Lemma zlookup_insert_cases i j x l :
  0 <= i < zlength l ->
  zlookup (zinsert i x l) j = if i =? j then Some x else zlookup l j.
Proof.
  intros H. destruct (i =? j) eqn:E; zb.
  - subst. now apply zlookup_insert_eq.
  - now apply zlookup_insert_ne.
Qed.
Lemma zlist_eq l1 l2 :
  zlength l1 = zlength l2 ->
  (forall i, 0 <= i < zlength l1 -> zlookup l1 i = zlookup l2 i) -> l1 = l2.
Proof.
  unfold zlength, zlookup. intros Hlen H. apply list_eq. intros n.
  destruct (decide (n < length l1)%nat) as [Hn|Hn].
  - specialize (H (Z.of_nat n) ltac:(lia)).
    rewrite (proj2 (Z.leb_le 0 _)), Nat2Z.id in H by lia. exact H.
  - rewrite !lookup_ge_None_2 by lia. done.
Qed.
Lemma zstore_ok i x l : 0 <= i < zlength l -> zstore i x l = Done (zinsert i x l).
Proof. intros H. unfold zstore. now destruct (zlookup_is_Some l i H) as [y ->]. Qed.
Lemma zstore_Done i x l l' :
  zstore i x l = Done l' -> 0 <= i < zlength l /\ l' = zinsert i x l.
Proof.
  unfold zstore. destruct (zlookup l i) eqn:E; [|discriminate].
  intros [= <-]. split; [exact (zlookup_lt _ _ _ E)|done].
Qed.
Lemma zinsert_insert i x y l : zinsert i x (zinsert i y l) = zinsert i x l.
Proof. unfold zinsert. destruct (0 <=? i); [apply list_insert_insert_eq|done]. Qed.
Lemma zinsert_id i x l : zlookup l i = Some x -> zinsert i x l = l.
Proof. unfold zinsert, zlookup. destruct (0 <=? i); [apply list_insert_id|done]. Qed.
End ZList.

Lemma zlength_app {A} (l1 l2 : list A) : zlength (l1 ++ l2) = zlength l1 + zlength l2.
Proof. unfold zlength. rewrite length_app. lia. Qed.
Lemma zlength_nonneg {A} (l : list A) : 0 <= zlength l.
Proof. unfold zlength. lia. Qed.
Lemma zlookup_app {A} (l1 l2 : list A) i :
  0 <= i -> (l1 ++ l2).[i] = if i <? zlength l1 then l1.[i] else l2.[i - zlength l1].
Proof.
  intros Hi. unfold zlookup, zlength. rewrite (proj2 (Z.leb_le 0 i)) by lia. case_test.
  - apply lookup_app_l. lia.
  - rewrite (proj2 (Z.leb_le 0 _)), lookup_app_r by lia. f_equal. lia.
Qed.
Lemma zlookup_take {A} (l : list A) n i :
  0 <= i < n -> (take (Z.to_nat n) l).[i] = l.[i].
Proof.
  intros Hi. unfold zlookup. rewrite (proj2 (Z.leb_le 0 i)) by lia.
  apply lookup_take_lt. lia.
Qed.
Lemma zlength_take {A} (l : list A) n :
  0 <= n <= zlength l -> zlength (take (Z.to_nat n) l) = n.
Proof. unfold zlength. intros H. rewrite length_take. lia. Qed.

Lemma zlength_pos {A} (l : list A) : 0 < zlength l -> exists x l', l = x :: l'.
Proof. destruct l as [|x l]; [unfold zlength; cbn; lia|eauto]. Qed.

Lemma Forall_elem {A} (P : A -> Prop) (l : list A) : Forall P l <-> forall x, x ∈ l -> P x.
Proof.
  rewrite List.Forall_forall. split; intros H x Hx; apply H; now apply list_elem_of_In.
Qed.

(** An invariant of a step relation holds in every reachable state. *)
Lemma rtc_preserve {A} (I : A -> Prop) (R : A -> A -> Prop) x y :
  rtc R x y -> I x -> (forall a b, I a -> R a b -> I b) -> I y.
Proof. induction 1; eauto. Qed.

(** Checking a predicate on every integer of a range. *)
Fixpoint zall (p : Z -> bool) (lo : Z) (n : nat) : bool :=
  match n with O => true | S n' => if p lo then zall p (lo + 1) n' else false end.

Lemma zall_spec p n : forall lo,
  zall p lo n = true -> forall k, lo <= k < lo + Z.of_nat n -> p k = true.
Proof.
  induction n as [|n IH]; intros lo H k Hk; [lia|]. cbn [zall] in H.
  destruct (p lo) eqn:E; [|discriminate].
  destruct (decide (k = lo)) as [->|]; [done|]. apply (IH (lo + 1)); [done|lia].
Qed.

#[export] Hint Resolve u16_range u8_range : ipa.
