(* ===== verification/Bits.v ===== *)
(** Bit-fields of little-endian records.

    A hardware record (a struct of C bit-fields) is the integer its bytes
    spell in little-endian order; a C bit-field is a [field]: its first bit
    and its width.  The file defines reading and writing a field, and the
    lemmas by which every component reasons about them. *)
From S2P Require Import Prelude.

Record field := Fld { f_off : Z; f_width : Z }.

(** Reading and assigning a bit-field. *)
Definition fget (f : field) (e : Z) : Z :=
  Z.land (Z.shiftr e (f_off f)) (Z.ones (f_width f)).
Definition fset (f : field) (v : Z) (e : Z) : Z :=
  Z.lor (Z.ldiff e (Z.shiftl (Z.ones (f_width f)) (f_off f)))
        (Z.shiftl (Z.land v (Z.ones (f_width f))) (f_off f)).

(** The 16 bits at a byte offset, the unit of a table DMA write. *)
Definition half (byte_off : Z) : field := Fld (8 * byte_off) 16.

Definition field_ok (f : field) : bool := (0 <=? f_off f) && (0 <? f_width f).
Definition fdisjoint (f g : field) : bool :=
  (f_off f + f_width f <=? f_off g) || (f_off g + f_width g <=? f_off f).
(** [g] lies inside [f]. *)
Definition fwithin (g f : field) : bool :=
  (f_off f <=? f_off g) && (f_off g + f_width g <=? f_off f + f_width f).

(** ** Lemmas *)
Lemma fget_spec f e n :
  field_ok f = true -> 0 <= n ->
  Z.testbit (fget f e) n = (n <? f_width f) && Z.testbit e (n + f_off f).
Proof.
  unfold field_ok, fget. intros Hf Hn. zb.
  rewrite Z.land_spec, Z.shiftr_spec, andb_comm by lia. f_equal.
  destruct (n <? f_width f) eqn:E; zb.
  - apply Z.ones_spec_low. lia.
  - apply Z.ones_spec_high. lia.
Qed.

Lemma fset_spec f v e n :
  field_ok f = true -> 0 <= n ->
  Z.testbit (fset f v e) n =
  if (f_off f <=? n) && (n <? f_off f + f_width f)
  then Z.testbit v (n - f_off f) else Z.testbit e n.
Proof.
  unfold field_ok, fset. intros Hf Hn. zb.
  rewrite Z.lor_spec, Z.ldiff_spec, !Z.shiftl_spec, Z.land_spec by lia.
  destruct ((f_off f <=? n) && (n <? f_off f + f_width f)) eqn:E.
  - zb. rewrite Z.ones_spec_low by lia. cbn. now rewrite andb_false_r, andb_true_r.
  - apply andb_false_iff in E.
    assert (Z.testbit (Z.ones (f_width f)) (n - f_off f) = false) as ->.
    { destruct E as [E|E]; zb.
      - apply Z.testbit_neg_r. lia.
      - apply Z.ones_spec_high. lia. }
    cbn. now rewrite andb_true_r, andb_false_r, orb_false_r.
Qed.

Lemma fget_range f e : field_ok f = true -> 0 <= fget f e < 2 ^ f_width f.
Proof.
  unfold field_ok, fget. intros Hf. zb. rewrite Z.land_ones by lia.
  apply Z.mod_pos_bound. apply Z.pow_pos_nonneg; lia.
Qed.

(** A write reads back, truncated to the field's width. *)
Lemma fget_fset_eq f v e :
  field_ok f = true -> fget f (fset f v e) = v mod 2 ^ f_width f.
Proof.
  intros Hf. pose proof Hf as Hf'. unfold field_ok in Hf'. zb.
  rewrite <- Z.land_ones by lia. apply Z.bits_inj'. intros n Hn.
  rewrite fget_spec, fset_spec, Z.land_spec by (auto; lia).
  destruct (n <? f_width f) eqn:E; zb.
  - rewrite (proj2 (Z.leb_le _ _)), (proj2 (Z.ltb_lt _ _)) by lia. cbn.
    rewrite Z.ones_spec_low by lia. rewrite andb_true_r. f_equal. lia.
  - rewrite Z.ones_spec_high by lia. now rewrite andb_false_r.
Qed.

Lemma fget_fset_small f v e :
  field_ok f = true -> 0 <= v < 2 ^ f_width f -> fget f (fset f v e) = v.
Proof. intros Hf Hv. rewrite fget_fset_eq by done. now apply Z.mod_small. Qed.

(** Writing one field leaves a disjoint one alone. *)
Lemma fget_fset_ne f g v e :
  field_ok f = true -> field_ok g = true -> fdisjoint f g = true ->
  fget g (fset f v e) = fget g e.
Proof.
  intros Hf Hg Hd. pose proof Hf as Hf'. pose proof Hg as Hg'.
  unfold field_ok in Hf', Hg'. unfold fdisjoint in Hd. zb.
  apply orb_true_iff in Hd. apply Z.bits_inj'. intros n Hn.
  rewrite !fget_spec by (auto; lia). destruct (n <? f_width g) eqn:E; [|done]. zb. cbn.
  rewrite fset_spec by (auto; lia).
  assert ((f_off f <=? n + f_off g) && (n + f_off g <? f_off f + f_width f) = false) as ->;
    [|done].
  apply andb_false_iff. destruct Hd; zb; [right|left]; zb; lia.
Qed.

(** Reading a sub-field of a field just written. *)
Lemma fget_fset_within f g v e :
  field_ok f = true -> field_ok g = true -> fwithin g f = true ->
  fget g (fset f v e) = fget (Fld (f_off g - f_off f) (f_width g)) v.
Proof.
  intros Hf Hg Hw. pose proof Hf as Hf'. pose proof Hg as Hg'.
  unfold field_ok in Hf', Hg'. unfold fwithin in Hw. zb.
  apply Z.bits_inj'. intros n Hn.
  rewrite fget_spec by (auto; lia).
  rewrite (fget_spec (Fld _ _)); [|unfold field_ok; cbn; apply andb_true_iff; split; zb; lia|lia].
  cbn. destruct (n <? f_width g) eqn:E; [|done]. zb. cbn.
  rewrite fset_spec by (auto; lia).
  rewrite (proj2 (Z.leb_le _ _)), (proj2 (Z.ltb_lt _ _)) by lia. cbn. f_equal. lia.
Qed.

Lemma fget_low w v : 0 <= w -> fget (Fld 0 w) v = v mod 2 ^ w.
Proof. intros Hw. unfold fget. cbn [f_off f_width]. now rewrite Z.shiftr_0_r, Z.land_ones. Qed.

Lemma fget_0 f : fget f 0 = 0.
Proof. unfold fget. now rewrite Z.shiftr_0_l, Z.land_0_l. Qed.

Lemma land_upper a b : 0 <= b -> 0 <= Z.land a b <= b.
Proof.
  intros Hb. assert (H0 : 0 <= Z.land a b) by (apply Z.land_nonneg; lia). split; [done|].
  apply Z.ldiff_le; [done|]. apply Z.bits_inj'. intros n Hn.
  rewrite Z.ldiff_spec, Z.land_spec, Z.bits_0. now destruct (Z.testbit a n), (Z.testbit b n).
Qed.

Lemma land_ffff a : Z.land a 0xFFFF = a mod 65536.
Proof. change (Z.land a 0xFFFF) with (Z.land a (Z.ones 16)). now rewrite Z.land_ones. Qed.

(** A write inside [n] bits stays inside. *)
Lemma fset_bound n f v e :
  field_ok f = true -> f_off f + f_width f <= n -> 0 <= e < 2 ^ n -> 0 <= fset f v e < 2 ^ n.
Proof.
  intros Hf Hn He. pose proof Hf as Hf'. unfold field_ok in Hf'. zb.
  assert (Hm : fset f v e = fset f v e mod 2 ^ n).
  { apply Z.bits_inj'. intros m Hm. destruct (decide (m < n)) as [Hlt|Hge].
    - now rewrite Z.mod_pow2_bits_low by lia.
    - rewrite Z.mod_pow2_bits_high by lia. rewrite fset_spec by (auto; lia).
      rewrite (proj2 (Z.ltb_ge m _)), andb_false_r by lia.
      rewrite <- (Z.mod_small e (2 ^ n)) by lia. now apply Z.mod_pow2_bits_high; lia. }
  rewrite Hm. apply Z.mod_pos_bound. lia.
Qed.

(** Rewrites every read of a field after writes to fields whose layout is
    concrete. *)
Ltac fld :=
  repeat first
    [ rewrite fget_0
    | rewrite fget_fset_ne by reflexivity
    | rewrite fget_fset_small by first [reflexivity | assumption | (cbn; lia)]
    | rewrite fget_fset_within by reflexivity
    | rewrite fget_fset_eq by reflexivity ].

#[export] Hint Resolve fget_range : ipa.
