(* ===== verification/Chains.v ===== *)
(** Doubly linked chains in an indexed store.

    [L i] is the pair (previous, next) of links of an occupied slot, [None]
    for a free one.  Buckets are the slots 1 .. B-1, overflow slots are
    B .. N-1; [chains_ok] says that the links spell, for every bucket, the
    list [ch] gives.  The lemmas are the effect on the chains of the link
    updates that the table operations make; they are shared by every kind of
    table. *)
From S2P Require Import Prelude.

Definition links := Z -> option (Z * Z).
Definition chain_map := Z -> list Z.

Definition upd {A} (f : Z -> A) (i : Z) (v : A) : Z -> A :=
  fun j => if j =? i then v else f j.

Fixpoint dseg (L : links) (p : Z) (l : list Z) (n : Z) : Prop :=
  match l with
  | [] => True
  | i :: l' => L i = Some (p, List.hd n l') /\ dseg L i l' n
  end.

(** The last element of [l], or [p] when there is none. *)
Fixpoint lst (p : Z) (l : list Z) : Z :=
  match l with [] => p | i :: l' => lst i l' end.

Record chains_ok (B N : Z) (L : links) (ch : chain_map) : Prop := {
  ck_head : forall b, 0 < b < B ->
    match ch b with [] => L b = None | h :: tl => h = b /\ Forall (fun i => B <= i < N) tl end;
  ck_none : forall b, ~ 0 < b < B -> ch b = [];
  ck_zero : L 0 = None;
  ck_dseg : forall b, dseg L 0 (ch b) 0;
  ck_nodup : forall b, NoDup (ch b);
  ck_disj : forall b b' i, i ∈ ch b -> i ∈ ch b' -> b = b';
  ck_cover : forall i, B <= i < N -> L i <> None -> exists b, i ∈ ch b }.

(** ** Updates *)
Lemma upd_eq {A} (f : Z -> A) i v : upd f i v i = v.
Proof. unfold upd. now rewrite Z.eqb_refl. Qed.
Lemma upd_ne {A} (f : Z -> A) i j v : j <> i -> upd f i v j = f j.
Proof. unfold upd. intros H. now rewrite (proj2 (Z.eqb_neq j i)). Qed.

Lemma upd_cong {A} (f g : Z -> A) i v j :
  (forall k, f k = g k) -> upd f i v j = upd g i v j.
Proof. intros H. unfold upd. now rewrite H. Qed.

Ltac upd_cases :=
  repeat match goal with
  | |- context [upd ?f ?i ?v ?i] => rewrite (upd_eq f i v)
  | H : ?j <> ?i |- context [upd ?f ?i ?v ?j] => rewrite (upd_ne f i j v H)
  | |- context [upd _ ?i _ ?j] => destruct (Z.eq_dec j i); [subst|]
  | H : context [upd ?f ?i ?v ?i] |- _ => rewrite (upd_eq f i v) in H
  | Hn : ?j <> ?i, H : context [upd ?f ?i ?v ?j] |- _ => rewrite (upd_ne f i j v Hn) in H
  | H : context [upd _ ?i _ ?j] |- _ => destruct (Z.eq_dec j i); [subst|]
  end.

(** ** Segments *)
Lemma dseg_app L p l1 l2 n :
  dseg L p (l1 ++ l2) n <-> dseg L p l1 (List.hd n l2) /\ dseg L (lst p l1) l2 n.
Proof.
  revert p. induction l1 as [|i l1 IH]; intros p; cbn [app dseg].
  - cbn. tauto.
  - rewrite IH. destruct l1; tauto.
Qed.

Lemma dseg_frame (L L' : links) p l n :
  (forall i, i ∈ l -> L' i = L i) -> dseg L p l n -> dseg L' p l n.
Proof.
  revert p. induction l as [|i l IH]; intros p H; cbn; [done|].
  intros [H1 H2]. split.
  - rewrite H; [done|left].
  - apply IH; [|done]. intros j Hj. apply H. now right.
Qed.

Lemma last_snoc (l : list Z) x p : lst p (l ++ [x]) = x.
Proof. revert p. induction l; cbn; auto. Qed.

Lemma dseg_last L p l x n : dseg L p (l ++ [x]) n -> L x = Some (lst p l, n).
Proof. intros [_ H]%dseg_app. cbn in H. tauto. Qed.

(** ** Facts about well-formed chains *)
Section Facts.
Context {B N : Z} {L : links} {ch : chain_map} (OK : chains_ok B N L ch).

Lemma ck_bucket b i : i ∈ ch b -> 0 < b < B.
Proof.
  intros H. destruct (decide (0 < b < B)) as [|Hn]; [done|].
  rewrite (ck_none _ _ _ _ OK b Hn) in H. now apply not_elem_of_nil in H.
Qed.

Lemma ck_cons b i : i ∈ ch b -> exists tl, ch b = b :: tl /\ Forall (fun i => B <= i < N) tl.
Proof.
  intros H. pose proof (ck_head _ _ _ _ OK b (ck_bucket b i H)) as Hh.
  destruct (ch b) as [|h tl]; [now apply not_elem_of_nil in H|].
  destruct Hh as [-> Hf]. eauto.
Qed.

Lemma ck_range b i : B <= N -> i ∈ ch b -> 0 < i < N.
Proof.
  intros HBN H. pose proof (ck_bucket b i H). destruct (ck_cons b i H) as (tl & E & Hf).
  rewrite E in H. apply elem_of_cons in H as [->|H]; [lia|].
  rewrite Forall_elem in Hf. specialize (Hf i H). lia.
Qed.

Lemma ck_linked b i : i ∈ ch b -> L i <> None.
Proof.
  intros H. apply list_elem_of_split in H as (l1 & l2 & E).
  pose proof (ck_dseg _ _ _ _ OK b) as Hd. rewrite E in Hd.
  apply dseg_app in Hd as [_ [Hd _]]. congruence.
Qed.

(** Every occupied slot lies in a chain, between its two links. *)
Lemma ck_locate i p n :
  0 < i < N -> L i = Some (p, n) ->
  exists b l r, ch b = l ++ i :: r /\ p = lst 0 l /\ n = List.hd 0 r.
Proof.
  intros Hi HL.
  assert (exists b, i ∈ ch b) as [b Hb].
  { destruct (decide (B <= i)) as [HB|HB].
    - apply (ck_cover _ _ _ _ OK); [lia|congruence].
    - exists i. pose proof (ck_head _ _ _ _ OK i ltac:(lia)) as Hh.
      destruct (ch i) as [|h tl]; [congruence|]. destruct Hh as [-> _]. left. }
  apply list_elem_of_split in Hb as (l & r & E). exists b, l, r. split; [done|].
  pose proof (ck_dseg _ _ _ _ OK b) as Hd. rewrite E in Hd.
  apply dseg_app in Hd as [_ [Hd _]]. rewrite HL in Hd. now injection Hd.
Qed.

(** Only heads have no predecessor, and heads are the base slots. *)
Lemma ck_no_prev b l i r : ch b = l ++ i :: r -> lst 0 l = 0 -> l = [] /\ i = b.
Proof.
  intros E Hl. assert (Hi : i ∈ ch b) by (rewrite E; set_solver).
  destruct (ck_cons b i Hi) as (tl & E' & Hf).
  destruct l as [|x l _] using rev_ind.
  - split; [done|]. rewrite E in E'. now injection E'.
  - rewrite last_snoc in Hl. subst x. exfalso.
    apply (ck_linked b 0); [rewrite E; set_solver|]. apply OK.
Qed.

Lemma ck_expn b l x r : ch b = l ++ x :: r -> l <> [] -> B <= x < N.
Proof.
  intros E Hl. destruct (ck_cons b x) as (tl & E' & Hf); [rewrite E; set_solver|].
  destruct l as [|y l]; [done|]. rewrite E in E'. injection E' as -> <-.
  rewrite Forall_elem in Hf. apply Hf. set_solver.
Qed.

Lemma ck_length b : B <= N -> Z.of_nat (length (ch b)) <= Z.max 0 (N - 1).
Proof.
  intros HBN.
  assert (ch b ⊆+ seqZ 1 (N - 1)) as Hs%submseteq_length.
  { apply NoDup_submseteq; [apply OK|]. intros i Hi. apply elem_of_seqZ.
    pose proof (ck_range b i HBN Hi). lia. }
  rewrite length_seqZ in Hs. lia.
Qed.
End Facts.

(** ** The updates of the table operations *)
Section Updates.
Context {B N : Z} {L : links} {ch : chain_map}.
Context (HBN : B <= N) (OK : chains_ok B N L ch).

(** A chain whose slots keep their links is unaffected by an update that
    changes another bucket's chain. *)
Lemma chains_replace b (l : list Z) (L' : links) :
  0 < b < B ->
  match l with [] => L' b = None | h :: tl => h = b /\ Forall (fun i => B <= i < N) tl end ->
  dseg L' 0 l 0 -> NoDup l ->
  (forall i, i ∈ l -> i ∈ ch b \/ L i = None) ->
  (forall b' i, b' <> b -> i ∈ ch b' -> L' i = L i) ->
  (forall i, i <> b -> L' i <> None -> L i = None -> i ∈ l) ->
  (forall i, i ∈ ch b -> i ∉ l -> L' i = None) ->
  L' 0 = None ->
  chains_ok B N L' (upd ch b l).
Proof.
  intros Hb Hl Hd Hnd Hin Hfr Hnew Hdel H0. split.
  - intros b' Hb'. upd_cases; [done|].
    pose proof (ck_head _ _ _ _ OK b' Hb') as Hh.
    destruct (ch b') as [|h tl] eqn:E; [|done].
    destruct (L' b') eqn:EL; [|done]. exfalso.
    assert (b' ∈ l) as Hbl by (apply Hnew; congruence).
    destruct l as [|h tl]; [now apply not_elem_of_nil in Hbl|]. destruct Hl as [-> Hf].
    apply elem_of_cons in Hbl as [->|Hbl]; [done|].
    rewrite Forall_elem in Hf. specialize (Hf b' Hbl). lia.
  - intros b' Hb'. upd_cases; [lia|]. now apply OK.
  - done.
  - intros b'. upd_cases; [done|].
    apply (dseg_frame L); [|apply OK]. intros i Hi. now apply (Hfr b').
  - intros b'. upd_cases; [done|]. apply OK.
  - assert (Hx : forall b' i, b' <> b -> i ∈ ch b' -> i ∈ l -> False).
    { intros b' i Hne Hi Hil. destruct (Hin i Hil) as [Hib|HLi].
      - apply Hne. eapply (ck_disj _ _ _ _ OK); eauto.
      - now apply (ck_linked OK b' i). }
    intros b1 b2 i H1 H2. upd_cases; try done.
    + exfalso. eauto.
    + exfalso. eauto.
    + eapply (ck_disj _ _ _ _ OK); eauto.
  - intros i Hi HL'. destruct (decide (i ∈ l)) as [Hil|Hil].
    + exists b. now rewrite upd_eq.
    + destruct (L i) eqn:E.
      * destruct (ck_cover _ _ _ _ OK i Hi ltac:(congruence)) as [b' Hb'].
        exists b'. destruct (decide (b' = b)) as [->|Hne].
        -- exfalso. apply HL'. now apply Hdel.
        -- now rewrite upd_ne.
      * exists b. rewrite upd_eq. apply Hnew; [lia|done|done].
Qed.

(** A record is put into an empty bucket. *)
Lemma chains_add_head b :
  0 < b < B -> L b = None -> chains_ok B N (upd L b (Some (0, 0))) (upd ch b [b]).
Proof.
  intros Hb HL. apply chains_replace; auto.
  - cbn. rewrite upd_eq. done.
  - apply NoDup_singleton.
  - intros i Hi. apply list_elem_of_singleton in Hi as ->. auto.
  - intros b' i Hne Hi. apply upd_ne. intros ->. now apply (ck_linked OK b' b).
  - intros i Hi. rewrite upd_ne by done. congruence.
  - intros i Hi Hil. exfalso. destruct (ck_cons OK b i Hi) as (tl & E & _).
    apply (ck_linked OK b b); [|done]. rewrite E. left.
  - rewrite upd_ne by lia. apply OK.
Qed.

(** A record is appended to a chain, in a free overflow slot. *)
Lemma chains_add_tail b l x c p :
  ch b = l ++ [x] -> L x = Some (p, 0) -> B <= c < N -> L c = None ->
  chains_ok B N (upd (upd L x (Some (p, c))) c (Some (x, 0))) (upd ch b (l ++ [x; c])).
Proof.
  intros E Hx Hc Lc.
  assert (Hb : 0 < b < B) by (apply (ck_bucket OK b x); rewrite E; set_solver).
  pose proof (ck_nodup _ _ _ _ OK b) as Hnd. rewrite E in Hnd.
  pose proof (ck_dseg _ _ _ _ OK b) as Hd. rewrite E in Hd.
  assert (Hcl : forall b', c ∉ ch b') by (intros b' Hi; now apply (ck_linked OK b' c)).
  assert (Hcx : c <> x) by congruence.
  assert (Hxl : x ∉ l).
  { apply NoDup_app in Hnd as (_ & Hnd & _). intros Hi. apply (Hnd x Hi). set_solver. }
  assert (Hcl' : c ∉ l ++ [x]) by (rewrite <- E; apply Hcl).
  apply chains_replace; auto.
  - pose proof (ck_head _ _ _ _ OK b Hb) as Hh. rewrite E in Hh.
    destruct l as [|h l]; cbn in Hh |- *; destruct Hh as [-> Hf]; split; try done.
    + repeat constructor; lia.
    + change [x; c] with ([x] ++ [c]). rewrite (app_assoc l).
      apply Forall_app_2; [exact Hf|]. constructor; [lia|constructor].
  - apply dseg_app in Hd as [Hd1 [Hd2 _]]. apply dseg_app. cbn. cbn in Hd1, Hd2. split.
    + eapply dseg_frame; [|exact Hd1]. intros i Hi.
      rewrite !upd_ne by (intros ->; set_solver). done.
    + rewrite upd_ne, !upd_eq by done. split; [|auto]. congruence.
  - change [x; c] with ([x] ++ [c]). rewrite (app_assoc l). apply NoDup_app.
    split_and!; [done| |apply NoDup_singleton]. intros y Hy Hyc. set_solver.
  - intros i Hi. rewrite E. destruct (decide (i = c)) as [->|]; [auto|set_solver].
  - intros b' i Hne Hi. rewrite !upd_ne; [done|intros ->|intros ->].
    + apply Hne. apply (ck_disj _ _ _ _ OK b' b x Hi). rewrite E. set_solver.
    + now apply (Hcl b').
  - intros i Hi. destruct (decide (i = c)) as [->|Hic]; [set_solver|].
    rewrite (upd_ne _ c) by done. upd_cases; [set_solver|congruence].
  - intros i Hi. rewrite E in Hi. set_solver.
  - rewrite !upd_ne; [apply OK|intros Hx0; rewrite <- Hx0, (ck_zero _ _ _ _ OK) in Hx; done|lia].
Qed.

(** The only record of a bucket is removed. *)
Lemma chains_del_alone b :
  ch b = [b] -> chains_ok B N (upd L b None) (upd ch b []).
Proof.
  intros E.
  assert (Hb : 0 < b < B) by (apply (ck_bucket OK b b); rewrite E; set_solver).
  apply chains_replace; auto.
  - now rewrite upd_eq.
  - done.
  - constructor.
  - intros i Hi. now apply not_elem_of_nil in Hi.
  - intros b' i Hne Hi. apply upd_ne. intros ->. apply Hne.
    apply (ck_disj _ _ _ _ OK b' b b Hi). rewrite E. set_solver.
  - intros i Hi. rewrite upd_ne by done. congruence.
  - intros i Hi _. rewrite E in Hi. apply list_elem_of_singleton in Hi as ->. apply upd_eq.
  - rewrite upd_ne by lia. apply OK.
Qed.

(** The head and its only follower are removed together. *)
Lemma chains_del_pair b c :
  ch b = [b; c] -> chains_ok B N (upd (upd L b None) c None) (upd ch b []).
Proof.
  intros E.
  assert (Hb : 0 < b < B) by (apply (ck_bucket OK b b); rewrite E; set_solver).
  assert (Hc : B <= c < N) by (apply (ck_expn OK b [b] c []); [now rewrite E|done]).
  apply chains_replace; auto.
  - rewrite upd_ne by lia. now rewrite upd_eq.
  - done.
  - constructor.
  - intros i Hi. now apply not_elem_of_nil in Hi.
  - intros b' i Hne Hi. rewrite !upd_ne; [done|intros ->; apply Hne..];
      eapply (ck_disj _ _ _ _ OK); [exact Hi| |exact Hi|]; rewrite E; set_solver.
  - intros i Hi. upd_cases; congruence.
  - intros i Hi _. rewrite E in Hi. upd_cases; try done. set_solver.
  - rewrite !upd_ne by lia. apply OK.
Qed.

(** The links after the record [c] that follows [x] is taken out; [r] are
    the records after [c]. *)
Definition unlink (p x c : Z) (r : list Z) : links :=
  match r with
  | [] => upd (upd L x (Some (p, 0))) c None
  | n :: r' => upd (upd (upd L x (Some (p, n))) n (Some (x, List.hd 0 r'))) c None
  end.

Lemma unlink_other p x c r i :
  i <> x -> i <> c -> i ∉ r -> unlink p x c r i = L i.
Proof.
  intros Hx Hc Hr. destruct r as [|n r]; cbn; rewrite !upd_ne; auto.
  intros ->. apply Hr. left.
Qed.

(** The chain's links without [c]. *)
Lemma dseg_unlink p l x c r :
  dseg L p (l ++ x :: c :: r) 0 -> NoDup (l ++ x :: c :: r) ->
  dseg (unlink (lst p l) x c r) p (l ++ x :: r) 0.
Proof.
  intros Hd Hnd. apply dseg_app in Hd as [Hd1 [Hd2 [Hd3 Hd4]]].
  apply NoDup_app in Hnd as (Hn1 & Hn2 & Hn3).
  apply NoDup_cons in Hn3 as [Hn3 Hn4]. apply NoDup_cons in Hn4 as [Hn4 Hn5].
  apply not_elem_of_cons in Hn3 as [Hxc Hxr].
  apply dseg_app. split.
  - eapply dseg_frame; [|exact Hd1]. intros i Hi. specialize (Hn2 i Hi).
    apply unlink_other; clear -Hn2; set_solver.
  - cbn [dseg]. destruct r as [|n r]; cbn [unlink List.hd dseg].
    + rewrite upd_ne by done. now rewrite upd_eq.
    + apply not_elem_of_cons in Hxr as [Hxn Hxr]. apply not_elem_of_cons in Hn4 as [Hcn Hcr].
      apply NoDup_cons in Hn5 as [Hnr _].
      split; [|split].
      * rewrite !upd_ne by done. apply upd_eq.
      * rewrite upd_ne by done. apply upd_eq.
      * eapply dseg_frame; [|apply Hd4]. intros i Hi.
        rewrite !upd_ne by (intros ->; done). done.
Qed.

Lemma chains_unlink b l x c r :
  ch b = l ++ x :: c :: r ->
  chains_ok B N (unlink (lst 0 l) x c r) (upd ch b (l ++ x :: r)).
Proof.
  intros E.
  assert (Hb : 0 < b < B) by (apply (ck_bucket OK b x); rewrite E; set_solver).
  pose proof (ck_nodup _ _ _ _ OK b) as Hnd. rewrite E in Hnd.
  pose proof (ck_dseg _ _ _ _ OK b) as Hd. rewrite E in Hd.
  assert (Hnd' : NoDup (l ++ x :: r)).
  { eapply sublist_NoDup; [exact Hnd|]. apply sublist_app; [done|].
    apply sublist_skip, sublist_cons. done. }
  assert (Hx0 : L 0 = None) by apply OK.
  apply chains_replace; auto.
  - pose proof (ck_head _ _ _ _ OK b Hb) as Hh. rewrite E in Hh.
    destruct l as [|h l]; cbn in Hh |- *; destruct Hh as [-> Hf]; split; try done;
      rewrite Forall_elem in Hf |- *; intros i Hi; apply Hf; clear -Hi; set_solver.
  - now apply dseg_unlink.
  - intros i Hi. left. rewrite E. clear -Hi. set_solver.
  - intros b' i Hne Hi.
    assert (i ∉ ch b) as Hi'
      by (intros Hi'; apply Hne; eapply (ck_disj _ _ _ _ OK); eauto).
    rewrite E in Hi'. clear -Hi'. apply unlink_other; set_solver.
  - intros i Hi HL' HLi. exfalso. apply HL'.
    destruct (decide (i = c)) as [->|Hic]; [now destruct r; cbn; rewrite upd_eq|].
    assert (i ∉ ch b) as Hi'.
    { intros Hi'. now apply (ck_linked OK b i). }
    rewrite E in Hi'. rewrite unlink_other; [done|clear -Hi'; set_solver..].
  - intros i Hi Hil. rewrite E in Hi. assert (i = c) as -> by (clear -Hi Hil; set_solver).
    destruct r; cbn; apply upd_eq.
  - assert (0 ∉ ch b) as H0 by (intros H0; now apply (ck_linked OK b 0)).
    rewrite E in H0. rewrite unlink_other; [done|clear -H0; set_solver..].
Qed.
End Updates.
Arguments unlink : clear implicits.

(** ** Extensionality and counting *)
Lemma chains_ok_ext B N (L L' : links) ch :
  (forall i, L' i = L i) -> chains_ok B N L ch -> chains_ok B N L' ch.
Proof.
  intros H OK. split.
  - intros b Hb. rewrite H. now apply OK.
  - apply OK.
  - rewrite H. apply OK.
  - intros b. eapply dseg_frame; [intros; apply H|apply OK].
  - apply OK.
  - apply OK.
  - intros i Hi. rewrite H. now apply OK.
Qed.

Definition occupied (o : option (Z * Z)) : Z := match o with Some _ => 1 | None => 0 end.

(** The number of occupied slots among the [n] from [lo] on. *)
Fixpoint occ (L : links) (lo : Z) (n : nat) : Z :=
  match n with O => 0 | S n' => occupied (L lo) + occ L (lo + 1) n' end.

Lemma occ_ext (L L' : links) lo n : (forall i, L' i = L i) -> occ L' lo n = occ L lo n.
Proof. intros H. revert lo. induction n as [|n IH]; intros lo; cbn; [done|]. now rewrite H, IH. Qed.

Lemma occ_bounds L lo n : 0 <= occ L lo n <= Z.of_nat n.
Proof.
  revert lo. induction n as [|n IH]; intros lo; cbn [occ]; [lia|].
  specialize (IH (lo + 1)). destruct (L lo); cbn; lia.
Qed.

Lemma occ_upd_out L i v lo n :
  ~ lo <= i < lo + Z.of_nat n -> occ (upd L i v) lo n = occ L lo n.
Proof.
  revert lo. induction n as [|n IH]; intros lo H; cbn [occ]; [done|].
  rewrite upd_ne by lia. rewrite IH by lia. done.
Qed.

Lemma occ_upd_in L i v lo n :
  lo <= i < lo + Z.of_nat n ->
  occ (upd L i v) lo n = occ L lo n - occupied (L i) + occupied v.
Proof.
  revert lo. induction n as [|n IH]; intros lo H; cbn [occ]; [lia|].
  destruct (decide (lo = i)) as [->|Hne].
  - rewrite upd_eq, occ_upd_out by lia. lia.
  - rewrite upd_ne by done. rewrite IH by lia. lia.
Qed.

Lemma occ_upd_same L i v lo n :
  occupied v = occupied (L i) -> occ (upd L i v) lo n = occ L lo n.
Proof.
  intros H. destruct (decide (lo <= i < lo + Z.of_nat n)).
  - rewrite occ_upd_in by done. lia.
  - now apply occ_upd_out.
Qed.

(** Taking the record [c] out of a chain changes the count at [c] only. *)
Lemma occ_unlink B N L ch b l x c r lo n :
  chains_ok B N L ch -> ch b = l ++ x :: c :: r ->
  occ (unlink L (lst 0 l) x c r) lo n = occ (upd L c None) lo n.
Proof.
  intros OK E.
  pose proof (ck_dseg _ _ _ _ OK b) as Hd. pose proof (ck_nodup _ _ _ _ OK b) as Hn.
  rewrite E in Hd, Hn. apply dseg_app in Hd as [_ [Hx [Hc Hd]]].
  apply NoDup_app in Hn as (_ & _ & Hn). apply NoDup_cons in Hn as [Hxc Hn].
  apply NoDup_cons in Hn as [Hcr Hn].
  assert (forall M M' : links, (forall k m, occ M k m = occ M' k m) -> M c = M' c ->
            occ (upd M c None) lo n = occ (upd M' c None) lo n) as Hup.
  { intros M M' HM Hc'. destruct (decide (lo <= c < lo + Z.of_nat n)).
    - rewrite !occ_upd_in by done. now rewrite HM, Hc'.
    - rewrite !occ_upd_out by done. apply HM. }
  destruct r as [|y r]; cbn [unlink]; apply Hup.
  - intros k m. apply occ_upd_same. now rewrite Hx.
  - rewrite upd_ne; [done|]. intros ->. apply Hxc. left.
  - intros k m. rewrite !occ_upd_same; [done|now rewrite Hx|].
    rewrite upd_ne by (intros ->; apply Hxc; right; left).
    cbn in Hd. now rewrite (proj1 Hd).
  - rewrite !upd_ne; [done|intros ->; apply Hxc; left|intros ->; apply Hcr; left].
Qed.

(** A free slot exists below a bound exactly when not all are occupied. *)
Lemma occ_full L lo n :
  occ L lo n = Z.of_nat n <-> forall i, lo <= i < lo + Z.of_nat n -> L i <> None.
Proof.
  revert lo. induction n as [|n IH]; intros lo; cbn [occ]; [split; [lia|done]|].
  pose proof (occ_bounds L (lo + 1) n). specialize (IH (lo + 1)). split.
  - intros E i Hi. destruct (decide (i = lo)) as [->|].
    + destruct (L lo); [done|cbn in E; lia].
    + apply IH; [destruct (L lo); cbn in E; lia|lia].
  - intros Hall. rewrite (proj2 IH) by (intros i Hi; apply Hall; lia).
    specialize (Hall lo ltac:(lia)). destruct (L lo); [cbn; lia|done].
Qed.
