(* ===== verification/IpaTable.v ===== *)
(** The generic rule table of the IPA NAT library
    (dataipa/ipanat/src/ipa_table.c, inc/ipa_table.h).

    A table is a base part, indexed by a hash, and an expansion part holding
    the collisions; records of one bucket form a doubly linked list through
    their next and previous indexes.  Records are changed partly by the
    library's own stores and partly by 16-bit writes it asks the hardware to
    do (the DMA command list).  Every function below is the C function of the
    same name; [recs] is the memory the table's addresses point at, and a
    pointer to a record is [Some] of its index (NULL is [None]). *)
From S2P Require Import Prelude.
From S2P Require Import Bits.

(** ** Constants (ipa_table.h) *)
Definition IPA_TABLE_MAX_ENTRIES : Z := 5120.
Definition IPA_TABLE_INVALID_ENTRY : Z := 0.
Definition VALID_INDEX (idx : Z) : bool := negb (idx =? IPA_TABLE_INVALID_ENTRY).
Definition IPA_RESOURCE_NAME_MAX : nat := 32%nat.

Definition IPA_NAT_BASE_TBL : Z := 0.
Definition IPA_NAT_EXPN_TBL : Z := 1.
Definition IPA_NAT_INDX_TBL : Z := 2.
Definition IPA_NAT_INDEX_EXPN_TBL : Z := 3.
Definition IPA_IPV6CT_BASE_TBL : Z := 4.
Definition IPA_IPV6CT_EXPN_TBL : Z := 5.

(** enum ipa3_nat_mem_in (msm_ipa.h) *)
Definition IPA_NAT_MEM_IN_DDR : Z := 0.
Definition IPA_NAT_MEM_IN_SRAM : Z := 1.
Definition IPA_NAT_MEM_IN_MAX : Z := 2.

Definition IPA_TABLE_TYPE_BITS : Z := 1.
Definition IPA_TABLE_TYPE_MASK : Z := 1.
Definition IPA_TABLE_INDX_MASK : Z := 0xFFF.
Definition IPA_TABLE_TYPE_MEM_SHIFT : Z := 15.

(** ** Data *)

(** struct ipa_ioc_nat_dma_one and struct ipa_ioc_nat_dma_cmd; [dma] lists
    the used elements of the flexible array. *)
Record nat_dma_one := {
  table_index : Z;
  base_addr : Z;
  offset : Z;
  data : Z }.

Record nat_dma_cmd := {
  entries : Z;
  mem_type : Z;
  dma : list nat_dma_one }.

(** A zeroed command buffer (memset, entries = 0). *)
Definition empty_cmd : nat_dma_cmd := {| entries := 0; mem_type := 0; dma := [] |}.

Record ipa_table_dma_cmd_helper := {
  help_offset : Z;
  table_type : Z;
  expn_table_type : Z;
  table_indx : Z }.

Inductive dma_help_type := HELP_UPDATE_HEAD | HELP_UPDATE_ENTRY | HELP_DELETE_HEAD.

Inductive When2Callback := WHEN_SLOT_EMPTY | WHEN_SLOT_FILLED.

(** The array dma_help[HELP_UPDATE_MAX] of helper pointers. *)
Record dma_helpers := {
  help_update_head : option ipa_table_dma_cmd_helper;
  help_update_entry : option ipa_table_dma_cmd_helper;
  help_delete_head : option ipa_table_dma_cmd_helper }.

Definition dma_help_at (hs : dma_helpers) (ht : dma_help_type) :
    option ipa_table_dma_cmd_helper :=
  match ht with
  | HELP_UPDATE_HEAD => help_update_head hs
  | HELP_UPDATE_ENTRY => help_update_entry hs
  | HELP_DELETE_HEAD => help_delete_head hs
  end.

Definition no_helpers : dma_helpers :=
  {| help_update_head := None; help_update_entry := None; help_delete_head := None |}.

(** ipa_table, without the callback table entry_interface (the type class
    below) and with the memory behind table_addr. *)
Record ipa_table := {
  name : string;
  nmi : Z;
  entry_size : Z;
  table_entries : Z;
  expn_table_entries : Z;
  tot_tbl_ents : Z;
  table_addr : Z;
  expn_table_addr : Z;
  cur_tbl_cnt : Z;
  cur_expn_tbl_cnt : Z;
  dma_help : dma_helpers;
  meta : option (list Z);
  meta_entry_size : Z;
  recs : list Z }.

Definition set_recs (r : list Z) (t : ipa_table) : ipa_table :=
  {| name := name t; nmi := nmi t; entry_size := entry_size t;
     table_entries := table_entries t; expn_table_entries := expn_table_entries t;
     tot_tbl_ents := tot_tbl_ents t; table_addr := table_addr t;
     expn_table_addr := expn_table_addr t; cur_tbl_cnt := cur_tbl_cnt t;
     cur_expn_tbl_cnt := cur_expn_tbl_cnt t; dma_help := dma_help t; meta := meta t;
     meta_entry_size := meta_entry_size t; recs := r |}.
Definition set_meta (m : option (list Z)) (t : ipa_table) : ipa_table :=
  {| name := name t; nmi := nmi t; entry_size := entry_size t;
     table_entries := table_entries t; expn_table_entries := expn_table_entries t;
     tot_tbl_ents := tot_tbl_ents t; table_addr := table_addr t;
     expn_table_addr := expn_table_addr t; cur_tbl_cnt := cur_tbl_cnt t;
     cur_expn_tbl_cnt := cur_expn_tbl_cnt t; dma_help := dma_help t; meta := m;
     meta_entry_size := meta_entry_size t; recs := recs t |}.
Definition set_cnts (c ce : Z) (t : ipa_table) : ipa_table :=
  {| name := name t; nmi := nmi t; entry_size := entry_size t;
     table_entries := table_entries t; expn_table_entries := expn_table_entries t;
     tot_tbl_ents := tot_tbl_ents t; table_addr := table_addr t;
     expn_table_addr := expn_table_addr t; cur_tbl_cnt := c;
     cur_expn_tbl_cnt := ce; dma_help := dma_help t; meta := meta t;
     meta_entry_size := meta_entry_size t; recs := recs t |}.
Definition set_dims (b e tot : Z) (t : ipa_table) : ipa_table :=
  {| name := name t; nmi := nmi t; entry_size := entry_size t;
     table_entries := b; expn_table_entries := e;
     tot_tbl_ents := tot; table_addr := table_addr t;
     expn_table_addr := expn_table_addr t; cur_tbl_cnt := cur_tbl_cnt t;
     cur_expn_tbl_cnt := cur_expn_tbl_cnt t; dma_help := dma_help t; meta := meta t;
     meta_entry_size := meta_entry_size t; recs := recs t |}.
Definition set_addrs (a ea : Z) (t : ipa_table) : ipa_table :=
  {| name := name t; nmi := nmi t; entry_size := entry_size t;
     table_entries := table_entries t; expn_table_entries := expn_table_entries t;
     tot_tbl_ents := tot_tbl_ents t; table_addr := a;
     expn_table_addr := ea; cur_tbl_cnt := cur_tbl_cnt t;
     cur_expn_tbl_cnt := cur_expn_tbl_cnt t; dma_help := dma_help t; meta := meta t;
     meta_entry_size := meta_entry_size t; recs := recs t |}.
Definition set_dma_help (h : dma_helpers) (t : ipa_table) : ipa_table :=
  {| name := name t; nmi := nmi t; entry_size := entry_size t;
     table_entries := table_entries t; expn_table_entries := expn_table_entries t;
     tot_tbl_ents := tot_tbl_ents t; table_addr := table_addr t;
     expn_table_addr := expn_table_addr t; cur_tbl_cnt := cur_tbl_cnt t;
     cur_expn_tbl_cnt := cur_expn_tbl_cnt t; dma_help := h; meta := meta t;
     meta_entry_size := meta_entry_size t; recs := recs t |}.

(** GOTO_REC and the accesses through a record pointer. *)
Definition GOTO_REC (t : ipa_table) (i : Z) : option Z := Some i.
Definition rec_addr (t : ipa_table) (i : Z) : Z := table_addr t + i * entry_size t.
Definition load_rec (t : ipa_table) (p : option Z) : exec Z :=
  i ← deref p; deref (zlookup (recs t) i).
Definition store_rec (t : ipa_table) (p : option Z) (e : Z) : exec ipa_table :=
  i ← deref p; r ← zstore i e (recs t); Done (set_recs r t).

(** ipa_table_entry_interface: the callbacks a client supplies.  [U] is what
    user_data points at; [m] is the meta array. *)
Class EntryInterface (U : Type) := {
  entry_is_valid : Z -> bool;
  entry_get_next_index : Z -> Z;
  entry_get_prev_index : Z -> Z -> option (list Z) -> Z -> exec Z;
  entry_set_prev_index : Z -> Z -> Z -> option (list Z) -> Z ->
                         exec (Z * option (list Z));
  entry_head_insert : Z -> U -> exec (Z * Z * Z);
  entry_tail_insert : Z -> U -> exec (Z * Z);
  entry_get_delete_head_dma_command_data : Z -> Z -> Z }.

Record ipa_table_iterator := {
  prev_index : Z; prev_entry : option Z;
  curr_index : Z; curr_entry : option Z;
  next_index : Z; next_entry : option Z }.

Definition zero_iterator : ipa_table_iterator :=
  {| prev_index := 0; prev_entry := None; curr_index := 0; curr_entry := None;
     next_index := 0; next_entry := None |}.

(** ** Handles *)
Definition MakeEntryHdl (t : ipa_table) (tbl_entry : Z) : Z :=
  let entry_hdl :=
    if tbl_entry >=? table_entries t then
      Z.lor (u16 (Z.shiftl (u16 (tbl_entry - table_entries t)) IPA_TABLE_TYPE_BITS))
            IPA_TABLE_TYPE_MASK
    else u16 (Z.shiftl tbl_entry IPA_TABLE_TYPE_BITS) in
  u16 (Z.lor entry_hdl (Z.shiftl (nmi t) IPA_TABLE_TYPE_MEM_SHIFT)).

(** BREAK_RULE_HDL: (memory type, expansion bit, index). *)
Definition BREAK_RULE_HDL (t : ipa_table) (hdl : Z) : Z * Z * Z :=
  let mt := Z.land (Z.shiftr hdl IPA_TABLE_TYPE_MEM_SHIFT) IPA_TABLE_TYPE_MASK in
  let iet := Z.land hdl IPA_TABLE_TYPE_MASK in
  let indx := Z.land (Z.shiftr hdl IPA_TABLE_TYPE_BITS) IPA_TABLE_INDX_MASK in
  (mt, iet, u16 (indx + (if negb (iet =? 0) then table_entries t else 0))).

(** ** Creation *)
Definition ipa_table_init (table_name : string) (nmi0 entry_size0 : Z)
    (meta0 : option (list Z)) (meta_entry_size0 : Z) : ipa_table :=
  {| name := String.substring 0 (IPA_RESOURCE_NAME_MAX - 1) table_name;
     nmi := nmi0; entry_size := entry_size0;
     table_entries := 0; expn_table_entries := 0; tot_tbl_ents := 0;
     table_addr := 0; expn_table_addr := 0;
     cur_tbl_cnt := 0; cur_expn_tbl_cnt := 0; dma_help := no_helpers;
     meta := meta0; meta_entry_size := meta_entry_size0; recs := [] |}.

(** The product is an int: it does not overflow for records of up to 8192
    bytes (the library's have at most 64), as both parts have fewer than 2^16
    records. *)
Definition ipa_table_calculate_size (t : ipa_table) : Z :=
  entry_size t * (table_entries t + expn_table_entries t).

(** Sets the addresses and returns the first address after the table;
    [mapped] is the memory found at base_addr. *)
Definition ipa_table_calculate_addresses (t : ipa_table) (base : Z) (mapped : list Z) :
    ipa_table * Z :=
  let expn := base + entry_size t * table_entries t in
  (set_recs mapped (set_addrs base expn t), expn + entry_size t * expn_table_entries t).

(** Clears [n] records from record [i] on, one after the other. *)
Fixpoint clear_recs (n : nat) (i : Z) (r : list Z) : exec (list Z) :=
  match n with
  | O => Done r
  | S n' => r' ← zstore i 0 r; clear_recs n' (i + 1) r'
  end.

Definition ipa_table_reset (t : ipa_table) : exec ipa_table :=
  r ← clear_recs (Z.to_nat (table_entries t)) 0 (recs t);
  r' ← clear_recs (Z.to_nat (expn_table_entries t)) (table_entries t) r;
  Done (set_recs r' t).

(** ** DMA commands *)
Definition ipa_table_dma_cmd_helper_init (tbl_indx ttype etype off : Z) :
    ipa_table_dma_cmd_helper :=
  {| help_offset := off; table_type := ttype; expn_table_type := etype;
     table_indx := tbl_indx |}.

Definition ipa_table_dma_cmd_generate (h : ipa_table_dma_cmd_helper) (is_expn : bool)
    (entry_offset dat : Z) (cmd : nat_dma_cmd) : nat_dma_cmd :=
  let one :=
    {| table_index := table_indx h;
       base_addr := if is_expn then expn_table_type h else table_type h;
       offset := u32 (help_offset h + entry_offset);
       data := dat |} in
  {| entries := u8 (entries cmd + 1); mem_type := mem_type cmd;
     dma := dma cmd ++ [one] |}.

Definition ipa_table_add_dma_cmd (t : ipa_table) (ht : dma_help_type)
    (rec_ptr : option Z) (rec_index dat : Z) (cmd : nat_dma_cmd) :
    exec (Z * nat_dma_cmd) :=
  match rec_ptr with
  | None => Done (- EINVAL, cmd)
  | Some p =>
      if rec_index >=? table_entries t + expn_table_entries t
      then Done (- EINVAL, cmd)
      else
        let is_expn := rec_index >=? table_entries t in
        let entry_offset :=
          u32 (rec_addr t p - (if is_expn then expn_table_addr t else table_addr t)) in
        h ← deref (dma_help_at (dma_help t) ht);
        Done (0, ipa_table_dma_cmd_generate h is_expn entry_offset dat cmd)
  end.

(** ** Lookup by handle and by index *)
Definition ipa_table_get_entry (t : ipa_table) (entry_handle : Z) : Z * option (option Z * Z) :=
  let '(_, _, rec_index) := BREAK_RULE_HDL t entry_handle in
  if rec_index >=? tot_tbl_ents t then (- EINVAL, None)
  else (0, Some (GOTO_REC t rec_index, rec_index)).

Definition ipa_table_get_entry_by_index (t : ipa_table) (rec_index : Z) : option Z :=
  if (rec_index =? 0) || (rec_index >=? tot_tbl_ents t) then None
  else GOTO_REC t rec_index.

Section Operations.
Context {U : Type} `{EI : EntryInterface U}.

(** ** Iterators *)
Definition ipa_table_iterator_init (t : ipa_table) (cur : option Z) (cidx : Z) :
    exec (Z * ipa_table_iterator) :=
  e ← load_rec t cur;
  if negb (entry_is_valid e) then Done (- EINVAL, zero_iterator)
  else
    pidx ← entry_get_prev_index e cidx (meta t) (table_entries t);
    let nidx := entry_get_next_index e in
    let pent := if VALID_INDEX pidx then ipa_table_get_entry_by_index t pidx else None in
    let it nent := {| prev_index := pidx; prev_entry := pent; curr_index := cidx;
                      curr_entry := cur; next_index := nidx; next_entry := nent |} in
    if VALID_INDEX pidx && negb (bool_decide (is_Some pent)) then Done (- EPERM, it None)
    else
      let nent := if VALID_INDEX nidx then ipa_table_get_entry_by_index t nidx else None in
      if VALID_INDEX nidx && negb (bool_decide (is_Some nent)) then Done (- EPERM, it nent)
      else Done (0, it nent).

Definition ipa_table_iterator_next (it : ipa_table_iterator) (t : ipa_table) :
    exec (Z * ipa_table_iterator) :=
  e ← load_rec t (next_entry it);
  let nidx := entry_get_next_index e in
  let nent := if VALID_INDEX nidx then ipa_table_get_entry_by_index t nidx else None in
  let it' := {| prev_index := curr_index it; prev_entry := curr_entry it;
                curr_index := next_index it; curr_entry := next_entry it;
                next_index := nidx; next_entry := nent |} in
  if VALID_INDEX nidx && negb (bool_decide (is_Some nent)) then Done (- EPERM, it')
  else Done (0, it').

(** The while (1) of ipa_table_iterator_end: whether the end was found and
    the last record reached. *)
Fixpoint iterator_end_loop (fuel : nat) (t : ipa_table) (pidx : Z) (pent : option Z) :
    exec (bool * Z * option Z) :=
  match fuel with
  | O => Timeout
  | S fuel' =>
      e ← load_rec t pent;
      let nidx := entry_get_next_index e in
      if negb (VALID_INDEX nidx) then Done (true, pidx, pent)
      else if nidx =? pidx then Done (false, pidx, pent)
      else iterator_end_loop fuel' t nidx (GOTO_REC t nidx)
  end.

Definition ipa_table_iterator_end (t : ipa_table) (rec_index : Z) (rec_ptr : option Z) :
    exec (Z * ipa_table_iterator) :=
  match rec_ptr with
  | None => Done (-1, zero_iterator)
  | Some _ =>
      r ← iterator_end_loop (S (List.length (recs t))) t rec_index rec_ptr;
      let '(found_end, pidx, pent) := r in
      let it := {| prev_index := pidx; prev_entry := pent; curr_index := 0;
                   curr_entry := None; next_index := 0; next_entry := None |} in
      Done (if found_end : bool then 0 else -1, it)
  end.

Definition ipa_table_iterator_is_head_with_tail (it : ipa_table_iterator) : bool :=
  VALID_INDEX (next_index it) && negb (VALID_INDEX (prev_index it)).

(** ** Walk: calls back on every empty (or filled) slot from [start_index]
    on until the callback returns non-zero.  The callback gets the rule
    handle, the record pointer and index, the meta record's index (when
    the slot has one), and its own state. *)
Definition walk_cb (S : Type) :=
  ipa_table -> Z -> option Z -> Z -> option Z -> S -> Z * S.

Fixpoint walk_loop {S} (fuel : nat) (t : ipa_table) (tot i : Z) (w : When2Callback)
    (cb : walk_cb S) (s : S) : exec (Z * S) :=
  match fuel with
  | O => Timeout
  | Datatypes.S fuel' =>
      if i <? tot then
        e ← load_rec t (GOTO_REC t i);
        let call_back :=
          match w with
          | WHEN_SLOT_FILLED => entry_is_valid e
          | WHEN_SLOT_EMPTY => negb (entry_is_valid e)
          end in
        if call_back then
          let meta_rec :=
            if (i >=? table_entries t) && bool_decide (is_Some (meta t))
            then Some (u16 (i - table_entries t)) else None in
          let '(ret, s') := cb t (MakeEntryHdl t i) (GOTO_REC t i) i meta_rec s in
          if negb (ret =? 0) then Done (ret, s')
          else walk_loop fuel' t tot (u16 (i + 1)) w cb s'
        else walk_loop fuel' t tot (u16 (i + 1)) w cb s
      else Done (0, s)
  end.

Definition ipa_table_walk {S} (t : ipa_table) (start_index : Z) (w : When2Callback)
    (cb : walk_cb S) (s : S) : exec (Z * S) :=
  let tot := table_entries t + expn_table_entries t in
  if start_index >=? tot then Done (- EINVAL, s)
  else walk_loop (Datatypes.S (Z.to_nat (tot - start_index))) t tot start_index w cb s.

Definition mt_slot : walk_cb unit :=
  fun _ _ _ record_index _ s => (record_index, s).

(** The first free expansion slot: (ret, pointer, index). *)
Definition FindExpnTblFreeEntry (t : ipa_table) : exec (Z * option Z * Z) :=
  r ← ipa_table_walk t (table_entries t) WHEN_SLOT_EMPTY mt_slot tt;
  if fst r >? 0 then
    let entry_index := u16 (fst r) in
    Done (0, GOTO_REC t entry_index, entry_index)
  else Done (-1, None, 0).

(** ** Insertion *)
Definition InsertHead (t : ipa_table) (rec_ptr : option Z) (rec_index : Z)
    (user_data : U) (cmd : nat_dma_cmd) : exec (Z * ipa_table * nat_dma_cmd) :=
  e ← load_rec t rec_ptr;
  h ← entry_head_insert e user_data;
  let '(ret, e', enable_data) := h in
  t' ← store_rec t rec_ptr e';
  if negb (ret =? 0) then Done (ret, t', cmd)
  else
    r ← ipa_table_add_dma_cmd t' HELP_UPDATE_HEAD rec_ptr rec_index enable_data cmd;
    Done (0, set_cnts (u16 (cur_tbl_cnt t' + 1)) (cur_expn_tbl_cnt t') t', snd r).

Definition InsertTail (t : ipa_table) (rec_ptr : option Z) (rec_index : Z)
    (user_data : U) (cmd : nat_dma_cmd) : exec (Z * ipa_table * Z * nat_dma_cmd) :=
  let is_index_tbl := bool_decide (is_Some (meta t)) in
  r ← ipa_table_iterator_end t rec_index rec_ptr;
  let '(ret, it) := r in
  if negb (ret =? 0) then Done (ret, t, rec_index, cmd)
  else
    f ← FindExpnTblFreeEntry t;
    let '(ret, cent, cidx) := f in
    if negb (ret =? 0) then Done (ret, t, rec_index, cmd)
    else
      e ← load_rec t cent;
      i ← (if is_index_tbl then
             r ← entry_tail_insert e user_data;
             Done (fst r, snd r, 0)
           else entry_head_insert e user_data);
      let '(ret, e1, enable_data) := i in
      t1 ← store_rec t cent e1;
      if negb (ret =? 0) then Done (ret, t1, rec_index, cmd)
      else
        s ← entry_set_prev_index e1 cidx (prev_index it) (meta t1) (table_entries t1);
        t2 ← store_rec (set_meta (snd s) t1) cent (fst s);
        cmd1 ← (if is_index_tbl then Done cmd
                else
                  r ← ipa_table_add_dma_cmd t2 HELP_UPDATE_HEAD cent cidx enable_data cmd;
                  Done (snd r));
        r ← ipa_table_add_dma_cmd t2 HELP_UPDATE_ENTRY (prev_entry it) (prev_index it)
              cidx cmd1;
        Done (0, set_cnts (cur_tbl_cnt t2) (u16 (cur_expn_tbl_cnt t2 + 1)) t2, cidx, snd r).

(** [rule_hdl] is None for a NULL pointer; the index and the handle are
    returned as the code leaves them. *)
Definition ipa_table_add_entry (t : ipa_table) (user_data : U) (rec_index : Z)
    (rule_hdl : option Z) (cmd : nat_dma_cmd) :
    exec (Z * ipa_table * Z * option Z * nat_dma_cmd) :=
  let rec_ptr := GOTO_REC t rec_index in
  e ← load_rec t rec_ptr;
  r ← (if negb (entry_is_valid e) then
         r ← InsertHead t rec_ptr rec_index user_data cmd;
         let '(ret, t', cmd') := r in Done (ret, t', rec_index, cmd')
       else InsertTail t rec_ptr rec_index user_data cmd);
  let '(ret, t', idx, cmd') := r in
  if negb (ret =? 0) then Done (ret, t', idx, rule_hdl, cmd')
  else
    Done (ret, t', idx,
          match rule_hdl with Some _ => Some (MakeEntryHdl t' idx) | None => None end,
          cmd').

(** ** Deletion *)
Definition ipa_table_create_delete_command (t : ipa_table) (cmd : nat_dma_cmd)
    (it : ipa_table_iterator) : exec nat_dma_cmd :=
  if negb (VALID_INDEX (prev_index it)) then
    r ← (if VALID_INDEX (next_index it) then
           c ← load_rec t (curr_entry it);
           n ← load_rec t (next_entry it);
           Done (entry_get_delete_head_dma_command_data c n, HELP_DELETE_HEAD)
         else Done (0, HELP_UPDATE_HEAD));
    let '(dat, ht) := r in
    r ← ipa_table_add_dma_cmd t ht (curr_entry it) (curr_index it) dat cmd;
    Done (snd r)
  else
    r ← ipa_table_add_dma_cmd t HELP_UPDATE_ENTRY (prev_entry it) (prev_index it)
          (next_index it) cmd;
    Done (snd r).

Definition ipa_table_erase_entry (t : ipa_table) (index : Z) : exec ipa_table :=
  t' ← store_rec t (GOTO_REC t index) 0;
  Done (if index <? table_entries t
        then set_cnts (u16 (cur_tbl_cnt t' - 1)) (cur_expn_tbl_cnt t') t'
        else set_cnts (cur_tbl_cnt t') (u16 (cur_expn_tbl_cnt t' - 1)) t').

Definition ipa_table_delete_entry (t : ipa_table) (it : ipa_table_iterator)
    (is_prev_empty : bool) : exec ipa_table :=
  t1 ← (if VALID_INDEX (next_index it) then
          n ← load_rec t (next_entry it);
          s ← entry_set_prev_index n (next_index it) (prev_index it) (meta t)
                (table_entries t);
          store_rec (set_meta (snd s) t) (next_entry it) (fst s)
        else if is_prev_empty then
          match prev_entry it with
          | None => Done t
          | Some _ =>
              t' ← store_rec t (prev_entry it) 0;
              Done (set_cnts (u16 (cur_tbl_cnt t' - 1)) (cur_expn_tbl_cnt t') t')
          end
        else Done t);
  ipa_table_erase_entry t1 (curr_index it).
End Operations.
