(* ===== verification/IpaTableSize.v ===== *)
(** Dimensions of the IPA tables (dataipa/ipanat/src/ipa_table.c): how many
    base and expansion records a requested number of entries gets, in the
    code's floating-point and 16-bit arithmetic, and the search for the
    number of entries that fits a given SRAM size. *)
From S2P Require Import Prelude.
From S2P Require Import Bits.
From S2P Require Import IpaTable.

(** ** Floating-point products

    [fmul_trunc prec n m e] is the integer part of the IEEE product (rounded
    to nearest, ties to even, on [prec] bits) of the integer [n] and the
    floating-point constant m * 2^-e: what C computes for n * constant
    converted back to an integer type. *)
Definition fmul_trunc (prec n m e : Z) : Z :=
  let p := n * m in
  let len := Z.log2 p + 1 in
  if (p =? 0) || (len <=? prec) then Z.shiftr p e
  else
    let s := len - prec in
    let q := Z.shiftr p s in
    let r := Z.land p (Z.ones s) in
    let half := Z.shiftl 1 (s - 1) in
    let up := (half <? r) || ((r =? half) && Z.odd q) in
    Z.shiftr (Z.shiftl (if up then q + 1 else q) s) e.

(** IPA_BASE_TABLE_PERCENTAGE, IPA_EXPANSION_TABLE_PERCENTAGE and the SRAM
    pair, as the single-precision values of the locals btp and etp... *)
Definition f32_mul (n : Z) (c : Z * Z) : Z := fmul_trunc 24 n (fst c) (snd c).
Definition IPA_BASE_TABLE_PERCENTAGE : Z * Z := (13421773, 24).
Definition IPA_EXPANSION_TABLE_PERCENTAGE : Z * Z := (13421773, 26).
Definition IPA_BASE_TABLE_PCNT_4SRAM : Z * Z := (1, 0).
Definition IPA_EXPANSION_TABLE_PCNT_4SRAM : Z * Z := (14428406, 25).
(** ... and the double-precision value ipa_calc_num_sram_table_entries uses. *)
Definition f64_mul (n : Z) (c : Z * Z) : Z := fmul_trunc 53 n (fst c) (snd c).
Definition IPA_EXPANSION_TABLE_PCNT_4SRAM_f64 : Z * Z := (7746191359077253, 54).

(** ** Bounds *)
Fixpoint tight_loop (fuel : nat) (tmp prev curr : Z) : exec (Z * Z) :=
  match fuel with
  | O => Timeout
  | S fuel' =>
      if tmp =? 1 then Done (prev, curr)
      else tight_loop fuel' (Z.shiftr tmp 1) curr (u16 (Z.shiftl curr 1))
  end.

Definition Get2PowerTightUpperBound (num : Z) : exec Z :=
  if num =? 0 then Done 2
  else
    pc ← tight_loop 17 num 0 2;
    Done (if num =? fst pc then fst pc else snd pc).

Definition GetEvenTightUpperBound (num : Z) : Z :=
  if num =? 0 then 2 else if negb (num mod 2 =? 0) then num + 1 else num.

Definition ipa_table_calculate_entries_num (t : ipa_table) (number_of_entries nmi0 : Z) :
    exec (Z * ipa_table) :=
  if number_of_entries >? IPA_TABLE_MAX_ENTRIES then Done (- EINVAL, t)
  else
    let '(btp, etp) :=
      if nmi0 =? IPA_NAT_MEM_IN_SRAM
      then (IPA_BASE_TABLE_PCNT_4SRAM, IPA_EXPANSION_TABLE_PCNT_4SRAM)
      else (IPA_BASE_TABLE_PERCENTAGE, IPA_EXPANSION_TABLE_PERCENTAGE) in
    b ← Get2PowerTightUpperBound (u16 (f32_mul number_of_entries btp));
    let table_entries' := u16 b in
    let expn_table_entries' :=
      u16 (GetEvenTightUpperBound (u16 (f32_mul number_of_entries etp))) in
    let tot := table_entries' + expn_table_entries' in
    if tot >? IPA_TABLE_MAX_ENTRIES
    then Done (- EINVAL, set_dims (table_entries t) (expn_table_entries t) tot t)
    else Done (0, set_dims table_entries' expn_table_entries' tot t).

(** The bytes two tables of [tot] entries take in SRAM. *)
Definition sram_tables_size (tot table1_ent_size table2_ent_size : Z) : exec Z :=
  b ← Get2PowerTightUpperBound (u16 (f64_mul tot IPA_BASE_TABLE_PCNT_4SRAM));
  let e := u16 (GetEvenTightUpperBound (u16 (f64_mul tot IPA_EXPANSION_TABLE_PCNT_4SRAM_f64))) in
  let dims sz := set_dims (u16 b) e 0
                   (ipa_table_init "tmp_sram_table1" IPA_NAT_MEM_IN_DDR sz None 0) in
  Done (ipa_table_calculate_size (dims table1_ent_size) +
        ipa_table_calculate_size (dims table2_ent_size)).

Fixpoint sram_loop (fuel : nat) (sram_size e1 e2 tot num : Z) : exec Z :=
  match fuel with
  | O => Timeout
  | S fuel' =>
      size ← sram_tables_size tot e1 e2;
      if size >? sram_size then Done num
      else sram_loop fuel' sram_size e1 e2 (u16 (tot + 1)) tot
  end.

(** (ret, *num_entries_ptr) *)
Definition ipa_calc_num_sram_table_entries (fuel : nat) (sram_size e1 e2 : Z) : exec (Z * Z) :=
  n ← sram_loop fuel sram_size e1 e2 1 0;
  Done (if negb (n =? 0) then 0 else -1, n).

(** ** Powers of two *)
Lemma u16_double x : u16 (Z.shiftl (u16 x) 1) = u16 (2 * x).
Proof.
  unfold u16. rewrite Z.shiftl_mul_pow2 by lia. rewrite Z.mul_comm.
  now rewrite Z.mul_mod_idemp_r by lia.
Qed.

Lemma tight_loop_ok fuel : forall tmp prev c,
  1 <= tmp -> Z.log2 tmp < Z.of_nat fuel ->
  tight_loop fuel tmp prev (u16 c) =
  Done (if Z.log2 tmp =? 0 then prev else u16 (c * 2 ^ (Z.log2 tmp - 1)),
        u16 (c * 2 ^ Z.log2 tmp)).
Proof.
  induction fuel as [|fuel IH]; intros tmp prev c Ht Hf.
  { pose proof (Z.log2_nonneg tmp). lia. }
  cbn [tight_loop]. destruct (tmp =? 1) eqn:E; zb.
  { subst tmp. cbn. now rewrite Z.mul_1_r. }
  assert (Hl : Z.log2 (Z.shiftr tmp 1) = Z.log2 tmp - 1)
    by (rewrite Z.log2_shiftr by lia; pose proof (Z.log2_le_mono 2 tmp); cbn in *; lia).
  assert (Hl1 : 1 <= Z.log2 tmp) by (apply (Z.log2_le_mono 2); lia).
  rewrite u16_double, IH.
  - rewrite Hl, (proj2 (Z.eqb_neq (Z.log2 tmp) 0)) by lia. f_equal. f_equal.
    + case_test.
      * now rewrite E0, Z.mul_1_r.
      * f_equal. rewrite (Z.mul_comm 2), <- Z.mul_assoc, <- Z.pow_succ_r by lia.
        do 2 f_equal. lia.
    + f_equal. rewrite (Z.mul_comm 2), <- Z.mul_assoc, <- Z.pow_succ_r by lia.
      do 2 f_equal. lia.
  - rewrite Z.shiftr_div_pow2 by lia. apply Z.div_le_lower_bound; lia.
  - lia.
Qed.

(** The least power of two, from 2 on, that is not below [num]; cut to 16
    bits, so 0 above 32768. *)
Lemma get2power_ok num :
  0 <= num < 65536 ->
  Get2PowerTightUpperBound num = Done (if num <=? 1 then 2 else u16 (2 ^ Z.log2_up num)).
Proof.
  intros H. unfold Get2PowerTightUpperBound. destruct (num =? 0) eqn:E0; zb.
  { now subst num. }
  change 2 with (u16 2) at 1.
  assert (Hk : Z.log2 num <= 15) by (apply (Z.log2_le_mono num 65535); lia).
  rewrite tight_loop_ok by lia. cbn [mbind exec_bind fst snd]. f_equal.
  destruct (num <=? 1) eqn:E1; zb.
  { assert (num = 1) as -> by lia. done. }
  assert (Hl1 : 1 <= Z.log2 num) by (apply (Z.log2_le_mono 2); lia).
  rewrite (proj2 (Z.eqb_neq (Z.log2 num) 0)) by lia.
  rewrite <- !Z.pow_succ_r by lia. replace (Z.succ (Z.log2 num - 1)) with (Z.log2 num) by lia.
  assert (Hp : u16 (2 ^ Z.log2 num) = 2 ^ Z.log2 num).
  { apply u16_small. split; [apply Z.pow_nonneg; lia|].
    apply Z.le_lt_trans with (2 ^ 15); [apply Z.pow_le_mono_r; lia|done]. }
  rewrite Hp. destruct (num =? 2 ^ Z.log2 num) eqn:E; zb.
  - replace (Z.log2_up num) with (Z.log2 num); [now rewrite Hp|].
    rewrite E at 2. now rewrite Z.log2_up_pow2 by lia.
  - f_equal. f_equal. pose proof (Z.le_log2_log2_up num). pose proof (Z.le_log2_up_succ_log2 num).
    destruct (Z.eq_dec (Z.log2 num) (Z.log2_up num)) as [He|]; [|lia].
    apply Z.log2_log2_up_exact in He as [b ->]; [|lia]. exfalso. apply E.
    destruct (decide (0 <= b)); [now rewrite Z.log2_pow2|].
    rewrite Z.pow_neg_r in E0 by lia. lia.
Qed.

(** ** Dimensions *)

(** The dimensions computed for [n] entries. *)
Definition dims (n nmi0 : Z) : Z * Z :=
  let '(btp, etp) :=
    if nmi0 =? IPA_NAT_MEM_IN_SRAM
    then (IPA_BASE_TABLE_PCNT_4SRAM, IPA_EXPANSION_TABLE_PCNT_4SRAM)
    else (IPA_BASE_TABLE_PERCENTAGE, IPA_EXPANSION_TABLE_PERCENTAGE) in
  let b := u16 (f32_mul n btp) in
  (u16 (if b <=? 1 then 2 else u16 (2 ^ Z.log2_up b)),
   u16 (GetEvenTightUpperBound (u16 (f32_mul n etp)))).

Lemma entries_num_dims t n nmi0 :
  ipa_table_calculate_entries_num t n nmi0 =
  Done (if n >? IPA_TABLE_MAX_ENTRIES then (- EINVAL, t)
        else let '(b, e) := dims n nmi0 in
             if b + e >? IPA_TABLE_MAX_ENTRIES
             then (- EINVAL, set_dims (table_entries t) (expn_table_entries t) (b + e) t)
             else (0, set_dims b e (b + e) t)).
Proof.
  unfold ipa_table_calculate_entries_num, dims. destruct (n >? _); [done|].
  destruct (nmi0 =? _); rewrite get2power_ok by apply u16_range; cbn [mbind exec_bind];
    now destruct (_ >? IPA_TABLE_MAX_ENTRIES).
Qed.

(** What dimensions of an accepted request satisfy. *)
Definition dims_fit (b e : Z) : bool :=
  (b + e <=? IPA_TABLE_MAX_ENTRIES) && (2 <=? b) && (b <=? 4096) &&
  (2 <=? e) && (e <=? 4096) && Z.even e && (b =? 2 ^ Z.log2 b).

(** The largest request whose SRAM dimensions stay within the maximum. *)
Definition SRAM_MAX_ENTRIES : Z := 2383.

Lemma dims_ddr n :
  0 <= n <= IPA_TABLE_MAX_ENTRIES ->
  let '(b, e) := dims n IPA_NAT_MEM_IN_DDR in
  dims_fit b e = true /\ n - 1 <= b + e /\ 4 * n <= 5 * b + 4.
Proof.
  intros Hn.
  assert (H : zall (fun n => let '(b, e) := dims n IPA_NAT_MEM_IN_DDR in
              dims_fit b e && (n - 1 <=? b + e) && (4 * n <=? 5 * b + 4)) 0 (Z.to_nat 5121) = true)
    by (vm_compute; reflexivity).
  pose proof (zall_spec _ _ _ H n) as H'. cbn beta in H'.
  unfold IPA_TABLE_MAX_ENTRIES in Hn. specialize (H' ltac:(lia)). clear H.
  destruct (dims n IPA_NAT_MEM_IN_DDR) as [b e]. zb. done.
Qed.

Lemma dims_sram n :
  0 <= n <= IPA_TABLE_MAX_ENTRIES ->
  let '(b, e) := dims n IPA_NAT_MEM_IN_SRAM in
  (n <= SRAM_MAX_ENTRIES -> dims_fit b e = true /\ n <= b) /\
  (SRAM_MAX_ENTRIES < n -> IPA_TABLE_MAX_ENTRIES < b + e).
Proof.
  intros Hn.
  assert (H : zall (fun n => let '(b, e) := dims n IPA_NAT_MEM_IN_SRAM in
              if n <=? SRAM_MAX_ENTRIES then dims_fit b e && (n <=? b)
              else IPA_TABLE_MAX_ENTRIES <? b + e) 0 (Z.to_nat 5121) = true)
    by (vm_compute; reflexivity).
  pose proof (zall_spec _ _ _ H n) as H'. cbn beta in H'.
  unfold IPA_TABLE_MAX_ENTRIES in Hn. specialize (H' ltac:(lia)). clear H.
  destruct (dims n IPA_NAT_MEM_IN_SRAM) as [b e].
  destruct (n <=? SRAM_MAX_ENTRIES) eqn:E; zb; (split; [intros ?|intros ?]); try lia; done.
Qed.

Lemma entries_num_ok t n nmi0 :
  0 <= n < 65536 -> nmi0 = IPA_NAT_MEM_IN_DDR \/ nmi0 = IPA_NAT_MEM_IN_SRAM ->
  exists ret t', ipa_table_calculate_entries_num t n nmi0 = Done (ret, t') /\
    (ret = 0 <-> n <= if nmi0 =? IPA_NAT_MEM_IN_SRAM then SRAM_MAX_ENTRIES else IPA_TABLE_MAX_ENTRIES) /\
    (ret <> 0 -> ret = - EINVAL /\ table_entries t' = table_entries t /\
                 expn_table_entries t' = expn_table_entries t) /\
    (ret = 0 -> exists k e, t' = set_dims (2 ^ k) e (2 ^ k + e) t /\ 1 <= k <= 12 /\
                 2 <= e <= 4096 /\ Z.even e = true /\ 2 ^ k + e <= IPA_TABLE_MAX_ENTRIES /\ n - 1 <= 2 ^ k + e).
Proof.
  intros Hn Hm. rewrite entries_num_dims.
  destruct (n >? IPA_TABLE_MAX_ENTRIES) eqn:E; zb.
  { eexists _, _. split; [reflexivity|]. unfold IPA_TABLE_MAX_ENTRIES, SRAM_MAX_ENTRIES, EINVAL in *.
    split_and!; try done; try (destruct Hm as [-> | ->]; cbn; lia). }
  destruct (dims n nmi0) as [b e] eqn:Ed.
  assert (Hd : (n <= (if nmi0 =? IPA_NAT_MEM_IN_SRAM then SRAM_MAX_ENTRIES else IPA_TABLE_MAX_ENTRIES) ->
                dims_fit b e = true /\ n - 1 <= b + e) /\
               ((if nmi0 =? IPA_NAT_MEM_IN_SRAM then SRAM_MAX_ENTRIES else IPA_TABLE_MAX_ENTRIES) < n ->
                IPA_TABLE_MAX_ENTRIES < b + e)).
  { destruct Hm as [-> | ->]; cbn [Z.eqb IPA_NAT_MEM_IN_DDR IPA_NAT_MEM_IN_SRAM Pos.eqb].
    - pose proof (dims_ddr n ltac:(lia)) as H. rewrite Ed in H. split; [intros _; split; apply H|lia].
    - pose proof (dims_sram n ltac:(lia)) as H. rewrite Ed in H. destruct H as [H1 H2].
      split; [|done]. intros H. destruct (H1 H) as [Hf Hb]. split; [done|].
      unfold dims_fit in Hf. zb. lia. }
  set (lim := if nmi0 =? _ then _ else _) in *. destruct Hd as [Hd1 Hd2].
  destruct (b + e >? IPA_TABLE_MAX_ENTRIES) eqn:Es; zb.
  - eexists _, _. split; [reflexivity|]. split_and!; try done.
    split; [done|]. intros H. destruct (Hd1 H) as [Hf _]. unfold dims_fit in Hf. zb. lia.
  - assert (Hl : n <= lim) by (destruct (decide (n <= lim)); [done|specialize (Hd2 ltac:(lia)); lia]).
    destruct (Hd1 Hl) as [Hf Hb]. unfold dims_fit in Hf. zb.
    eexists _, _. split; [reflexivity|]. split_and!; [done|done|]. intros _.
    exists (Z.log2 b), e. replace (2 ^ Z.log2 b) with b by lia.
    assert (1 <= Z.log2 b) by (apply (Z.log2_le_mono 2); lia).
    assert (Z.log2 b <= 12) by (apply (Z.log2_le_mono b 4096); lia).
    split_and!; done || lia.
Qed.

(** ** The SRAM search *)

(** The size of two tables of [n] entries. *)
Definition sram_size_of (n e1 e2 : Z) : Z :=
  let b := u16 n in
  ((if b <=? 1 then 2 else u16 (2 ^ Z.log2_up b)) +
   u16 (GetEvenTightUpperBound (u16 (f64_mul n IPA_EXPANSION_TABLE_PCNT_4SRAM_f64)))) * (e1 + e2).

Lemma u16_base b : u16 (if b <=? 1 then 2 else u16 (2 ^ Z.log2_up b)) =
  if b <=? 1 then 2 else u16 (2 ^ Z.log2_up b).
Proof. destruct (b <=? 1); [done|apply u16_u16]. Qed.

Lemma f64_one n : 0 <= n < 2 ^ 52 -> f64_mul n IPA_BASE_TABLE_PCNT_4SRAM = n.
Proof.
  intros Hn. unfold f64_mul, fmul_trunc, IPA_BASE_TABLE_PCNT_4SRAM. cbn [fst snd].
  rewrite Z.mul_1_r. destruct (n =? 0) eqn:E; zb; [now subst|]. cbn [orb].
  assert (Z.log2 n < 52) by (apply Z.log2_lt_pow2; lia).
  rewrite (proj2 (Z.leb_le _ _)) by lia. apply Z.shiftr_0_r.
Qed.

Lemma sram_tables_size_ok n e1 e2 :
  0 <= n < 65536 -> sram_tables_size n e1 e2 = Done (sram_size_of n e1 e2).
Proof.
  intros Hn. unfold sram_tables_size, sram_size_of. rewrite f64_one by lia.
  rewrite get2power_ok by apply u16_range. cbn [mbind exec_bind]. f_equal.
  unfold ipa_table_calculate_size. cbn [entry_size table_entries expn_table_entries set_dims ipa_table_init].
  rewrite u16_base. lia.
Qed.

(** When some number of entries does not fit, the search ends at the one
    before the first that does not. *)
Lemma sram_loop_ok sram e1 e2 m :
  0 <= m < 65535 -> (forall k, 1 <= k <= m -> sram_size_of k e1 e2 <= sram) ->
  sram < sram_size_of (m + 1) e1 e2 ->
  forall n fuel tot, tot + Z.of_nat n = m + 1 -> 1 <= tot -> (n < fuel)%nat ->
  sram_loop fuel sram e1 e2 tot (tot - 1) = Done m.
Proof.
  intros Hm Hle Hgt. induction n as [|n IH]; intros fuel tot Hn Ht Hf;
    (destruct fuel as [|fuel]; [lia|]); cbn [sram_loop];
    rewrite sram_tables_size_ok by lia; cbn [mbind exec_bind].
  - assert (tot = m + 1) as -> by lia. destruct (_ >? sram) eqn:E; zb; [f_equal; lia|lia].
  - destruct (_ >? sram) eqn:E; zb.
    + specialize (Hle tot). lia.
    + rewrite u16_small by lia. replace tot with (tot + 1 - 1) at 2 by lia. apply IH; lia.
Qed.

(** A search that never finds too large a number does not end. *)
Lemma sram_loop_diverges sram e1 e2 :
  (forall k, 0 <= k < 65536 -> sram_size_of k e1 e2 <= sram) ->
  forall fuel tot num, 0 <= tot < 65536 -> sram_loop fuel sram e1 e2 tot num = Timeout.
Proof.
  intros H. induction fuel as [|fuel IH]; intros tot num Ht; cbn [sram_loop]; [done|].
  rewrite sram_tables_size_ok by lia. cbn [mbind exec_bind]. specialize (H tot Ht).
  destruct (_ >? sram) eqn:E; zb; [lia|]. apply IH. apply u16_range.
Qed.

(** The first number from [k] on, within [n], that does not fit. *)
Lemma first_misfit sram e1 e2 n : forall k,
  sram < sram_size_of (k + Z.of_nat n) e1 e2 ->
  exists m, k <= m + 1 <= k + Z.of_nat n /\ sram < sram_size_of (m + 1) e1 e2 /\
    forall j, k <= j <= m -> sram_size_of j e1 e2 <= sram.
Proof.
  induction n as [|n IH]; intros k H.
  - exists (k - 1). replace (k - 1 + 1) with (k + Z.of_nat 0) by lia. split_and!; lia.
  - destruct (decide (sram < sram_size_of k e1 e2)) as [Hk|Hk].
    + exists (k - 1). replace (k - 1 + 1) with k by lia. split_and!; lia.
    + destruct (IH (k + 1)) as (m & Hm & Hgt & Hle).
      { replace (k + 1 + Z.of_nat n) with (k + Z.of_nat (S n)) by lia. done. }
      exists m. split_and!; [lia..|]. intros j Hj.
      destruct (decide (j = k)) as [->|]; [lia|]. apply Hle. lia.
Qed.

(** C38: a request for [n] entries is accepted exactly up to 5120
    entries in DDR and 2383 in SRAM; an accepted one gets a power-of-two base
    part of at most 4096 records, an expansion part of an even number of 2 to
    4096 records, at most 5120 records in all and at least n - 1; a refused one is -EINVAL and changes
    no dimension. *)
Theorem calculate_entries_num_spec t n nmi0 :
  0 <= n < 65536 -> nmi0 = IPA_NAT_MEM_IN_DDR \/ nmi0 = IPA_NAT_MEM_IN_SRAM ->
  exists ret t', ipa_table_calculate_entries_num t n nmi0 = Done (ret, t') /\
    (ret = 0 <-> n <= if nmi0 =? IPA_NAT_MEM_IN_SRAM then SRAM_MAX_ENTRIES else IPA_TABLE_MAX_ENTRIES) /\
    (ret <> 0 -> ret = - EINVAL /\ table_entries t' = table_entries t /\
                 expn_table_entries t' = expn_table_entries t) /\
    (ret = 0 -> exists k e, t' = set_dims (2 ^ k) e (2 ^ k + e) t /\ 1 <= k <= 12 /\
                 2 <= e <= 4096 /\ Z.even e = true /\ 2 ^ k + e <= IPA_TABLE_MAX_ENTRIES /\ n - 1 <= 2 ^ k + e).
Proof. exact (entries_num_ok t n nmi0). Qed.
Lemma calculate_entries_num_spec_witness :
  exists ret t', ipa_table_calculate_entries_num (ipa_table_init "t" 0 64 None 0) 100 0 = Done (ret, t') /\
    (ret = 0 <-> 100 <= 5120) /\ ret = 0.
Proof.
  destruct (calculate_entries_num_spec (ipa_table_init "t" 0 64 None 0) 100 0 ltac:(lia) (or_introl eq_refl))
    as (ret & t' & H & Hr & _).
  exists ret, t'. split; [exact H|]. split; [exact Hr|]. apply Hr. vm_compute. discriminate.
Defined.

Lemma calc_num_sram_ok sram e1 e2 fuel :
  sram < sram_size_of 32768 e1 e2 -> 32768 < Z.of_nat fuel ->
  exists n, ipa_calc_num_sram_table_entries fuel sram e1 e2 = Done (if n =? 0 then -1 else 0, n) /\
    0 <= n < 32768 /\ sram < sram_size_of (n + 1) e1 e2 /\
    forall k, 1 <= k <= n -> sram_size_of k e1 e2 <= sram.
Proof.
  intros Hs Hf. destruct (first_misfit sram e1 e2 (Z.to_nat 32767) 1) as (m & Hm & Hgt & Hle).
  { rewrite Z2Nat.id by lia. exact Hs. }
  rewrite Z2Nat.id in Hm by lia. exists m. unfold ipa_calc_num_sram_table_entries.
  rewrite (sram_loop_ok sram e1 e2 m) with (tot := 1) (n := Z.to_nat m) by (auto; lia).
  cbn [mbind exec_bind]. split_and!; try lia; [now destruct (m =? 0)|exact Hle].
Qed.

(** C39: for two record sizes and a size of SRAM that 32768 entries do
    not fit in, the search for the number of entries terminates with the
    largest number up to which all fit (and fails when not even one does);
    for an SRAM larger than any 16-bit table pair it never terminates. *)
Theorem calc_num_sram_spec sram e1 e2 :
  0 <= e1 + e2 ->
  (sram < sram_size_of 32768 e1 e2 ->
   forall fuel, 32768 < Z.of_nat fuel ->
   exists n, ipa_calc_num_sram_table_entries fuel sram e1 e2 =
               Done (if n =? 0 then -1 else 0, n) /\
     0 <= n < 32768 /\ sram < sram_size_of (n + 1) e1 e2 /\
     forall k, 1 <= k <= n -> sram_size_of k e1 e2 <= sram) /\
  (131070 * (e1 + e2) <= sram -> forall fuel, ipa_calc_num_sram_table_entries fuel sram e1 e2 = Timeout).
Proof.
  intros He. split.
  - intros Hs fuel Hf. now apply calc_num_sram_ok.
  - intros Hs fuel. unfold ipa_calc_num_sram_table_entries.
    rewrite sram_loop_diverges; [done| |lia]. intros k Hk. etransitivity; [|exact Hs].
    unfold sram_size_of. apply Z.mul_le_mono_nonneg_r; [done|].
    pose proof (u16_range (GetEvenTightUpperBound
      (u16 (f64_mul k IPA_EXPANSION_TABLE_PCNT_4SRAM_f64)))).
    pose proof (u16_range (2 ^ Z.log2_up (u16 k))). case_test; lia.
Qed.
Lemma calc_num_sram_spec_witness :
  exists n, ipa_calc_num_sram_table_entries (Z.to_nat 40000) 100000 32 4 = Done (if n =? 0 then -1 else 0, n).
Proof.
  destruct (calc_num_sram_spec 100000 32 4 ltac:(lia)) as [H _].
  destruct (H ltac:(vm_compute; reflexivity) (Z.to_nat 40000) ltac:(lia)) as (n & Hn & _). exists n. exact Hn.
Defined.
