(* ===== verification/IpaMemDesc.v ===== *)
(** Memory descriptors of the IPA NAT library
    (dataipa/ipanat/src/ipa_mem_descriptor.c, inc/ipa_mem_descriptor.h; the
    build without IPA_ON_R3PC): allocation of a table by ioctl, its mapping
    into the process, and its release.

    The kernel and libc calls are the parameters of [ipa_os]: the results the
    functions get back. *)
From S2P Require Import Prelude.
From S2P Require Import IpaTable.

(** struct ipa_nat_in_sram_info *)
Record ipa_nat_in_sram_info := {
  sram_mem_available_for_nat : Z;
  nat_table_offset_into_mmap : Z;
  best_nat_in_sram_size_rqst : Z }.

Definition zero_sram_info : ipa_nat_in_sram_info :=
  {| sram_mem_available_for_nat := 0; nat_table_offset_into_mmap := 0;
     best_nat_in_sram_size_rqst := 0 |}.

(** The calls a descriptor makes: the SRAM information, allocation (from
    ioctl number and size, the result and the offset left in the command),
    open of a device path, mmap of a size (an address or MAP_FAILED), close,
    and deletion (from ioctl number, table index and memory type). *)
Class ipa_os := {
  os_sram_info : Z * ipa_nat_in_sram_info;
  os_alloc : Z -> Z -> Z * Z;
  os_open : string -> Z;
  os_mmap : Z -> option Z;
  os_close : Z;
  os_delete : Z -> Z -> Z -> Z }.

Definition MAP_FAILED : Z := -1.

Record ipa_mem_descriptor := {
  orig_rqst_size : Z;
  mmap_size : Z;
  md_base_addr : Z;
  mmap_addr : Z;
  addr_offset : Z;
  allocate_ioctl_num : Z;
  delete_ioctl_num : Z;
  md_name : string;
  md_table_index : Z;
  valid : bool;
  consider_using_sram : bool;
  sram_available : bool;
  sram_to_be_used : bool;
  nat_sram_info : ipa_nat_in_sram_info }.

(** A descriptor of zeroed memory. *)
Definition zero_desc : ipa_mem_descriptor :=
  {| orig_rqst_size := 0; mmap_size := 0; md_base_addr := 0; mmap_addr := 0; addr_offset := 0;
     allocate_ioctl_num := 0; delete_ioctl_num := 0; md_name := ""; md_table_index := 0;
     valid := false; consider_using_sram := false; sram_available := false;
     sram_to_be_used := false; nat_sram_info := zero_sram_info |}.

Definition set_sram (avail used : bool) (info : ipa_nat_in_sram_info)
    (d : ipa_mem_descriptor) : ipa_mem_descriptor :=
  {| orig_rqst_size := orig_rqst_size d; mmap_size := mmap_size d;
     md_base_addr := md_base_addr d; mmap_addr := mmap_addr d; addr_offset := addr_offset d;
     allocate_ioctl_num := allocate_ioctl_num d; delete_ioctl_num := delete_ioctl_num d;
     md_name := md_name d; md_table_index := md_table_index d; valid := valid d;
     consider_using_sram := consider_using_sram d; sram_available := avail;
     sram_to_be_used := used; nat_sram_info := info |}.
Definition set_offset (off : Z) (d : ipa_mem_descriptor) : ipa_mem_descriptor :=
  {| orig_rqst_size := orig_rqst_size d; mmap_size := mmap_size d;
     md_base_addr := md_base_addr d; mmap_addr := mmap_addr d; addr_offset := off;
     allocate_ioctl_num := allocate_ioctl_num d; delete_ioctl_num := delete_ioctl_num d;
     md_name := md_name d; md_table_index := md_table_index d; valid := valid d;
     consider_using_sram := consider_using_sram d; sram_available := sram_available d;
     sram_to_be_used := sram_to_be_used d; nat_sram_info := nat_sram_info d |}.
Definition set_map (size base mapped : Z) (d : ipa_mem_descriptor) : ipa_mem_descriptor :=
  {| orig_rqst_size := orig_rqst_size d; mmap_size := size;
     md_base_addr := base; mmap_addr := mapped; addr_offset := addr_offset d;
     allocate_ioctl_num := allocate_ioctl_num d; delete_ioctl_num := delete_ioctl_num d;
     md_name := md_name d; md_table_index := md_table_index d; valid := valid d;
     consider_using_sram := consider_using_sram d; sram_available := sram_available d;
     sram_to_be_used := sram_to_be_used d; nat_sram_info := nat_sram_info d |}.
Definition set_valid (v : bool) (d : ipa_mem_descriptor) : ipa_mem_descriptor :=
  {| orig_rqst_size := orig_rqst_size d; mmap_size := mmap_size d;
     md_base_addr := md_base_addr d; mmap_addr := mmap_addr d; addr_offset := addr_offset d;
     allocate_ioctl_num := allocate_ioctl_num d; delete_ioctl_num := delete_ioctl_num d;
     md_name := md_name d; md_table_index := md_table_index d; valid := v;
     consider_using_sram := consider_using_sram d; sram_available := sram_available d;
     sram_to_be_used := sram_to_be_used d; nat_sram_info := nat_sram_info d |}.

(** strlcpy: what the buffer of [size] > 0 bytes holds afterwards, and the
    length of the source. *)
Definition strlcpy (src : string) (size : Z) : string * Z :=
  (String.substring 0 (Z.to_nat (size - 1)) src, Z.of_nat (String.length src)).

Definition IPA_DEV_DIR : string := "/dev/".

(** The descriptor of the driver's device (ipa_nat_utils.h). *)
Record ipa_descriptor := { fd : Z; ver : Z }.

(** _IOWR(IPA_IOC_MAGIC, nr, a 64-bit pointer). *)
Definition IPA_IOWR (nr : Z) : Z := Z.lor 0xC0080000 (Z.lor (Z.shiftl 0xCF 8) nr).
Definition IPA_IOC_ALLOC_NAT_TABLE : Z := IPA_IOWR 52.
Definition IPA_IOC_ALLOC_IPV6CT_TABLE : Z := IPA_IOWR 53.
Definition IPA_IOC_DEL_NAT_TABLE : Z := IPA_IOWR 54.
Definition IPA_IOC_DEL_IPV6CT_TABLE : Z := IPA_IOWR 55.

(** A table of zeroed memory. *)
Definition zero_table : ipa_table := ipa_table_init "" 0 0 None 0.

(** The records of [size] bytes, [cnt] at most, that a descriptor's mapping
    holds from an address on. *)
Definition mapped_recs (mem : Z -> Z) (d : ipa_mem_descriptor) (addr size cnt : Z) : list Z :=
  List.map (fun i => mem (addr + i * size))
    (seqZ 0 (Z.min cnt ((mmap_addr d + mmap_size d - addr) / size))).

Lemma mapped_recs_length mem d addr size cnt :
  0 <= cnt -> 0 < size -> addr + cnt * size <= mmap_addr d + mmap_size d ->
  zlength (mapped_recs mem d addr size cnt) = cnt.
Proof.
  intros Hc Hs Hm. unfold zlength, mapped_recs. rewrite length_map, length_seqZ.
  assert (cnt <= (mmap_addr d + mmap_size d - addr) / size) by (apply Z.div_le_lower_bound; lia). lia.
Qed.

(** A buffer for [n] DMA commands: writing more is outside of it. *)
Definition in_buffer (n : Z) (cmd : nat_dma_cmd) : exec nat_dma_cmd :=
  if zlength (dma cmd) <=? n then Done cmd else Fault.

Lemma in_buffer_ok n cmd : zlength (dma cmd) <= n -> in_buffer n cmd = Done cmd.
Proof. intros H. unfold in_buffer. now rewrite (proj2 (Z.leb_le _ _)). Qed.

Section Descriptor.
Context {OS : ipa_os}.

Definition AllocateMemory (desc : ipa_mem_descriptor) : Z * ipa_mem_descriptor :=
  let '(r, info) := os_sram_info in
  let desc :=
    if r =? 0 then
      set_sram true
        (consider_using_sram desc && (orig_rqst_size desc <=? sram_mem_available_for_nat info))
        info desc
    else set_sram false false info desc in
  let '(ret, off) := os_alloc (allocate_ioctl_num desc) (orig_rqst_size desc) in
  if negb (ret =? 0) then (ret, desc) else (0, set_offset off desc).

Definition MapMemory (desc : ipa_mem_descriptor) : Z * ipa_mem_descriptor :=
  let '(dir, ipa_dev_dir_path_len) := strlcpy IPA_DEV_DIR (Z.of_nat IPA_RESOURCE_NAME_MAX) in
  if ipa_dev_dir_path_len >=? Z.of_nat IPA_RESOURCE_NAME_MAX then (- EINVAL, desc)
  else
    let device_full_path :=
      (dir ++ fst (strlcpy (md_name desc)
                     (Z.of_nat IPA_RESOURCE_NAME_MAX - ipa_dev_dir_path_len)))%string in
    if os_open device_full_path <? 0 then (- EIO, desc)
    else
      let size := if sram_to_be_used desc then best_nat_in_sram_size_rqst (nat_sram_info desc)
                  else orig_rqst_size desc in
      let '(ret, desc) :=
        match os_mmap size with
        | None => (- EINVAL, set_map size MAP_FAILED MAP_FAILED desc)
        | Some a =>
            let base := if sram_to_be_used desc
                        then a + nat_table_offset_into_mmap (nat_sram_info desc) else a in
            (0, set_map size base a desc)
        end in
      (if negb (os_close =? 0) then - EINVAL else ret, desc).

Definition DeallocateMemory (desc : ipa_mem_descriptor) : Z :=
  os_delete (delete_ioctl_num desc) (md_table_index desc)
    (if sram_to_be_used desc then IPA_NAT_MEM_IN_SRAM else IPA_NAT_MEM_IN_DDR).

Definition ipa_mem_descriptor_init (desc : ipa_mem_descriptor) (device_name : string)
    (size table_index alloc_num del_num : Z) (sram : bool) : ipa_mem_descriptor :=
  {| orig_rqst_size := size; mmap_size := size;
     md_base_addr := md_base_addr desc; mmap_addr := mmap_addr desc;
     addr_offset := addr_offset desc;
     allocate_ioctl_num := alloc_num; delete_ioctl_num := del_num;
     md_name := fst (strlcpy device_name (Z.of_nat IPA_RESOURCE_NAME_MAX));
     md_table_index := table_index; valid := valid desc;
     consider_using_sram := sram; sram_available := sram_available desc;
     sram_to_be_used := sram_to_be_used desc; nat_sram_info := nat_sram_info desc |}.

(** Failure to map releases the allocation (the result of the release is
    ignored). *)
Definition ipa_mem_descriptor_allocate_memory (desc : ipa_mem_descriptor) :
    Z * ipa_mem_descriptor :=
  let '(ret, desc) := AllocateMemory desc in
  if negb (ret =? 0) then (ret, desc)
  else
    let '(ret, desc) := MapMemory desc in
    if negb (ret =? 0) then (ret, desc)
    else (0, set_valid true desc).

Definition ipa_mem_descriptor_delete (desc : ipa_mem_descriptor) : Z * ipa_mem_descriptor :=
  if negb (valid desc) then (- EINVAL, desc)
  else
    let desc := set_valid false desc in
    (DeallocateMemory desc, desc).

(** ** What a successful allocation gives *)
Lemma allocate_ok desc ret d :
  ipa_mem_descriptor_allocate_memory desc = (ret, d) ->
  (ret = 0 -> valid d = true /\ addr_offset d = snd (os_alloc (allocate_ioctl_num desc)
                                                      (orig_rqst_size desc)) /\
     exists a, os_mmap (mmap_size d) = Some a /\ mmap_addr d = a /\
       md_base_addr d = a + (if sram_to_be_used d
                             then nat_table_offset_into_mmap (nat_sram_info d) else 0)) /\
  (ret = 0 -> consider_using_sram desc = false ->
     sram_to_be_used d = false /\ mmap_size d = orig_rqst_size desc) /\
  (ret <> 0 -> valid d = valid desc).
Proof.
  unfold ipa_mem_descriptor_allocate_memory, AllocateMemory, MapMemory.
  destruct os_sram_info as [r info]. cbn [allocate_ioctl_num orig_rqst_size set_sram].
  set (d1 := if r =? 0 then _ else _).
  assert (Hd1 : allocate_ioctl_num d1 = allocate_ioctl_num desc /\
                orig_rqst_size d1 = orig_rqst_size desc /\ valid d1 = valid desc)
    by (unfold d1; now destruct (r =? 0)).
  destruct Hd1 as (Ha & Hs & Hv). rewrite Ha, Hs.
  destruct (os_alloc _ _) as [ra off]. destruct (ra =? 0) eqn:Er; zb; cbn [negb].
  2:{ rewrite (proj2 (Z.eqb_neq ra 0)) by done. intros [= <- <-]. split_and!; done. }
  cbn [Z.eqb negb strlcpy]. cbn [Z.geb Z.compare Z.of_nat IPA_RESOURCE_NAME_MAX].
  destruct (os_open _ <? 0); [intros [= <- <-]; split_and!; [done..|now rewrite <- Hv]|].
  cbn [sram_to_be_used set_offset nat_sram_info orig_rqst_size].
  destruct (os_mmap _) as [a|] eqn:Em; destruct (os_close =? 0) eqn:Ec; cbn;
    intros [= <- <-]; (split; [|split; [|try done; now rewrite <- Hv]]); try done.
  2:{ intros _ Hc. unfold d1. rewrite Hc. destruct (r =? 0); done. }
  intros _. split_and!; [done..|]. exists a. split_and!; [exact Em|done|].
  cbn. now destruct (sram_to_be_used d1); rewrite ?Z.add_0_r.
Qed.

(** A mapping of the SRAM is as large as its offset into the mapped pages
    and the memory it offers. *)
Definition sram_info_ok : Prop :=
  let info := snd os_sram_info in
  nat_table_offset_into_mmap info + sram_mem_available_for_nat info
    <= best_nat_in_sram_size_rqst info.

Lemma allocate_fits desc d :
  sram_info_ok -> ipa_mem_descriptor_allocate_memory desc = (0, d) ->
  md_base_addr d + orig_rqst_size desc <= mmap_addr d + mmap_size d.
Proof.
  unfold sram_info_ok, ipa_mem_descriptor_allocate_memory, AllocateMemory, MapMemory.
  destruct os_sram_info as [r info]. cbn [snd]. intros Hinfo.
  set (d1 := if r =? 0 then _ else _).
  assert (Hd1 : orig_rqst_size d1 = orig_rqst_size desc /\
                (sram_to_be_used d1 = true -> nat_sram_info d1 = info /\
                   orig_rqst_size desc <= sram_mem_available_for_nat info)).
  { unfold d1. destruct (r =? 0); cbn; (split; [done|]); [|done].
    intros H. zb. auto. }
  destruct Hd1 as (Hs & Hu). destruct (os_alloc _ _) as [ra off]. destruct (ra =? 0) eqn:Er; zb; cbn [negb].
  2:{ rewrite (proj2 (Z.eqb_neq ra 0)) by done. now intros [= -> _]. }
  cbn [Z.eqb negb strlcpy]. cbn [Z.geb Z.compare Z.of_nat IPA_RESOURCE_NAME_MAX].
  destruct (os_open _ <? 0); [intros [= ]|].
  cbn [sram_to_be_used set_offset nat_sram_info orig_rqst_size].
  destruct (os_mmap _) as [a|] eqn:Em; destruct (os_close =? 0) eqn:Ec; cbn;
    try (intros H; discriminate H).
  intros [= <-]. cbn. destruct (sram_to_be_used d1) eqn:Eu; [|lia].
  destruct (Hu eq_refl) as [-> ?]. lia.
Qed.
End Descriptor.
