(* ===== verification/IpaDma.v ===== *)
(** The table DMA path: from the IPA_IOC_TABLE_DMA_CMD ioctl to the hardware
    (dataipa/drivers/platform/msm/ipa/ipa_v3/ipa_nat.c).

    The kernel validates a command list against the dimensions it was given
    when the table was initialised and sends it as immediate commands.  What
    the hardware does with an immediate command is not in the sources: it is
    the parameter [hw_table_dma], assumed ([IpaHwSpec]) to do what the driver
    documents ("offset in bytes from base addr to write 'data' to"). *)
From S2P Require Import Prelude.
From S2P Require Import Bits.
From S2P Require Import IpaTable.

(** ** The documented effect of one TABLE_DMA command on the memory of a
    table: a 16-bit store at a byte offset from the start of the base or of
    the expansion part, as base_addr tells. *)
Definition dma_part (t : ipa_table) (ty : Z) : option Z :=
  match help_update_head (dma_help t) with
  | None => None
  | Some h =>
      if ty =? table_type h then Some 0
      else if ty =? expn_table_type h then Some (table_entries t) else None
  end.

Definition table_dma_write (d : nat_dma_one) (t : ipa_table) : ipa_table :=
  match dma_part t (base_addr d) with
  | None => t
  | Some first =>
      let r := first + offset d / entry_size t in
      match zlookup (recs t) r with
      | None => t
      | Some e =>
          set_recs (zinsert r (fset (half (offset d mod entry_size t)) (data d) e) (recs t)) t
      end
  end.

Class IpaHw := {
  hw_table_dma : nat_dma_one -> ipa_table -> ipa_table;
  (** the result of ipa3_send_cmd *)
  hw_send_cmd : list nat_dma_one -> Z }.

Class IpaHwSpec `{IpaHw} := {
  hw_table_dma_doc : forall d t, hw_table_dma d t = table_dma_write d t }.

(** The hardware of the documentation, when every immediate command
    succeeds. *)
#[export] Instance doc_hw : IpaHw :=
  {| hw_table_dma := table_dma_write; hw_send_cmd := fun _ => 0 |}.
#[export] Instance doc_hw_spec : IpaHwSpec.
Proof. now split. Qed.

(** The effect of a command list on a table: its commands in order. *)
Definition dma_apply `{IpaHw} (ds : list nat_dma_one) (t : ipa_table) : ipa_table :=
  foldl (fun t d => hw_table_dma d t) t ds.

(** ** The driver *)
Definition IPA_HW_v4_0 : Z := 14.
Definition IPA_MAX_NUM_OF_TABLE_DMA_CMD_DESC : Z := 5.
Definition IPA_VALID_NAT_MEM_IN (t : Z) : bool :=
  (t >=? IPA_NAT_MEM_IN_DDR) && (t <? IPA_NAT_MEM_IN_MAX).

(** ipahal_nat_entry_size for NAT, NAT index and IPv6CT records. *)
Definition IPAHAL_NAT_IPV4_size : Z := 32.
Definition IPAHAL_NAT_IPV4_INDEX_size : Z := 4.
Definition IPAHAL_NAT_IPV6CT_size : Z := 64.

(** The part of ipa3_ctx the command path reads: device states, table
    dimensions recorded by the init commands (table_entries is one less than
    the number of base records), and whether the coalescing pipe is mapped.
    [imm_cmd_ok i] is whether the i-th ipahal_construct_*imm_cmd succeeds. *)
Record ipa3_context := {
  nat_is_dev_init : bool;
  nat_is_hw_init : bool;
  ipv6ct_is_hw_init : bool;
  ipa_hw_type : Z;
  sram_compatible : bool;
  coal_ep_mapped : bool;
  ulso_wa : bool;
  nat_loc_entries : Z -> Z;
  nat_loc_expn_entries : Z -> Z;
  ipv6ct_entries : Z;
  ipv6ct_expn_entries : Z;
  imm_cmd_ok : nat -> bool }.

Definition ipa3_nat_ipv6ct_calculate_table_size (k : ipa3_context) (nmi0 base : Z) : Z :=
  if base =? IPA_NAT_BASE_TBL then
    u32 (IPAHAL_NAT_IPV4_size * (nat_loc_entries k nmi0 + 1))
  else if base =? IPA_NAT_EXPN_TBL then
    u32 (IPAHAL_NAT_IPV4_size * nat_loc_expn_entries k nmi0)
  else if base =? IPA_NAT_INDX_TBL then
    u32 (IPAHAL_NAT_IPV4_INDEX_size * (nat_loc_entries k nmi0 + 1))
  else if base =? IPA_NAT_INDEX_EXPN_TBL then
    u32 (IPAHAL_NAT_IPV4_INDEX_size * nat_loc_expn_entries k nmi0)
  else if base =? IPA_IPV6CT_BASE_TBL then
    u32 (IPAHAL_NAT_IPV6CT_size * (ipv6ct_entries k + 1))
  else if base =? IPA_IPV6CT_EXPN_TBL then
    u32 (IPAHAL_NAT_IPV6CT_size * ipv6ct_expn_entries k)
  else 0.

Definition ipa3_table_validate_table_dma_one (k : ipa3_context) (nmi0 : Z)
    (param : nat_dma_one) : Z :=
  if table_index param >=? 1 then - EPERM
  else
    let dev_ret :=
      if (IPA_NAT_BASE_TBL <=? base_addr param) && (base_addr param <=? IPA_NAT_INDEX_EXPN_TBL)
      then if nat_is_hw_init k then 0 else - EPERM
      else if (base_addr param =? IPA_IPV6CT_BASE_TBL) || (base_addr param =? IPA_IPV6CT_EXPN_TBL)
      then if ipa_hw_type k <? IPA_HW_v4_0 then - EPERM
           else if ipv6ct_is_hw_init k then 0 else - EPERM
      else - EPERM in
    if negb (dev_ret =? 0) then dev_ret
    else
      let table_size := ipa3_nat_ipv6ct_calculate_table_size k nmi0 (base_addr param) in
      if table_size =? 0 then - EPERM
      else if offset param >=? table_size then - EPERM else 0.

(** The first failing command's result, or 0. *)
Fixpoint validate_all (k : ipa3_context) (nmi0 : Z) (ds : list nat_dma_one) : Z :=
  match ds with
  | [] => 0
  | d :: ds' =>
      let r := ipa3_table_validate_table_dma_one k nmi0 d in
      if negb (r =? 0) then r else validate_all k nmi0 ds'
  end.

(** ipa3_table_dma_cmd: its result and the commands handed to the hardware
    (the first [entries] elements of the array, or none). *)
Definition ipa3_table_dma_cmd `{IpaHw} (k : ipa3_context) (cmd : nat_dma_cmd) :
    Z * list nat_dma_one :=
  let mem := if sram_compatible k then mem_type cmd else 0 in
  if negb (nat_is_dev_init k) then (- EPERM, [])
  else if negb (IPA_VALID_NAT_MEM_IN mem) then (- EPERM, [])
  else
    let max_dma_table_cmds :=
      IPA_MAX_NUM_OF_TABLE_DMA_CMD_DESC - (if coal_ep_mapped k then 1 else 0) in
    if (entries cmd =? 0) || (entries cmd >? max_dma_table_cmds - 1) then (- EPERM, [])
    else
      let ds := take (Z.to_nat (entries cmd)) (dma cmd) in
      let r := validate_all k mem ds in
      if negb (r =? 0) then (r, [])
      else
        let num_cmd :=
          ((if coal_ep_mapped k && negb (ulso_wa k) then 1 else 0) + 1 + length ds)%nat in
        if negb (forallb (imm_cmd_ok k) (seq 0 num_cmd)) then (- ENOMEM, [])
        else
          let result := hw_send_cmd ds in
          (result, if result =? 0 then ds else []).

(** The IPA_IOC_TABLE_DMA_CMD ioctl as the library sees it: any failure of
    ipa3_table_dma_cmd is -EFAULT. *)
Definition ioctl_table_dma_cmd `{IpaHw} (k : ipa3_context) (cmd : nat_dma_cmd) :
    Z * list nat_dma_one :=
  let '(r, ds) := ipa3_table_dma_cmd k cmd in
  (if negb (r =? 0) then - EFAULT else 0, ds).

(** ** A command list is executed as a whole or not at all *)
Lemma table_dma_all_or_none `{IpaHw} k cmd :
  ipa3_table_dma_cmd k cmd = (0, take (Z.to_nat (entries cmd)) (dma cmd)) \/
  exists r, r <> 0 /\ ipa3_table_dma_cmd k cmd = (r, []).
Proof.
  unfold ipa3_table_dma_cmd. set (mem := if sram_compatible k then _ else _).
  set (ds := take _ _).
  destruct (negb (nat_is_dev_init k)); [right; now exists (- EPERM)|].
  destruct (negb (IPA_VALID_NAT_MEM_IN mem)); [right; now exists (- EPERM)|].
  destruct (_ || _); [right; now exists (- EPERM)|].
  destruct (validate_all k mem ds =? 0) eqn:E1; zb; cbn [negb];
    [|right; exists (validate_all k mem ds); now split].
  destruct (negb (forallb _ _)); [right; now exists (- ENOMEM)|].
  destruct (hw_send_cmd ds =? 0) eqn:E2; zb; [left; now rewrite E2|right].
  now exists (hw_send_cmd ds).
Qed.
