(* ===== verification/IpaTableWalk.v ===== *)
(** ipa_table_walk: the callback is applied to the selected records in index
    order, until it returns non-zero. *)
From S2P Require Import Prelude.
From S2P Require Import Bits.
From S2P Require Import Chains.
From S2P Require Import IpaTable.

Section Walk.
Context {U : Type} {EI : EntryInterface U}.

(** The records a walk selects, from [start] on. *)
Definition selected (t : ipa_table) (w : When2Callback) (i : Z) : bool :=
  match zlookup (recs t) i with
  | Some e => match w with
              | WHEN_SLOT_FILLED => entry_is_valid e
              | WHEN_SLOT_EMPTY => negb (entry_is_valid e)
              end
  | None => false
  end.
Definition selection (t : ipa_table) (w : When2Callback) (start : Z) : list Z :=
  List.filter (selected t w) (seqZ start (table_entries t + expn_table_entries t - start)).

(** The meta record a callback is given. *)
Definition meta_record (t : ipa_table) (i : Z) : option Z :=
  if (i >=? table_entries t) && bool_decide (is_Some (meta t))
  then Some (i - table_entries t) else None.

Fixpoint visit {S} (t : ipa_table) (cb : walk_cb S) (l : list Z) (s : S) : Z * S :=
  match l with
  | [] => (0, s)
  | i :: l' =>
      let '(ret, s') := cb t (MakeEntryHdl t i) (Some i) i (meta_record t i) s in
      if negb (ret =? 0) then (ret, s') else visit t cb l' s'
  end.

Lemma walk_loop_ok {S} t w (cb : walk_cb S) :
  let tot := table_entries t + expn_table_entries t in
  zlength (recs t) = tot -> tot <= 65535 -> 0 <= table_entries t ->
  forall fuel i s, 0 <= i <= tot -> tot - i < Z.of_nat fuel ->
  walk_loop fuel t tot i w cb s =
  Done (visit t cb (List.filter (selected t w) (seqZ i (tot - i))) s).
Proof.
  intros tot Hl Ht Hb. induction fuel as [|fuel IH]; intros i s Hi Hf; [lia|].
  cbn [walk_loop]. destruct (i <? tot) eqn:E; zb.
  2:{ replace (tot - i) with 0 by lia. done. }
  rewrite (seqZ_cons i (tot - i)) by lia. cbn [List.filter].
  unfold load_rec, GOTO_REC. cbn [mbind exec_bind deref].
  destruct (zlookup_is_Some (recs t) i) as [e Ee]; [lia|]. rewrite Ee. cbn [mbind exec_bind deref].
  assert (Hsel : selected t w i = match w with
            | WHEN_SLOT_FILLED => entry_is_valid e
            | WHEN_SLOT_EMPTY => negb (entry_is_valid e) end)
    by (unfold selected; now rewrite Ee).
  rewrite <- Hsel. rewrite (u16_small (i + 1)) by lia.
  replace (Z.pred (tot - i)) with (tot - (i + 1)) by lia. replace (Z.succ i) with (i + 1) by lia.
  destruct (selected t w i); [|apply IH; lia]. cbn [visit].
  assert (Hm : (if (i >=? table_entries t) && bool_decide (is_Some (meta t))
                then Some (u16 (i - table_entries t)) else None) = meta_record t i).
  { unfold meta_record. destruct (i >=? table_entries t) eqn:Eb; [|done]. zb.
    destruct (bool_decide _); [|done]. cbn [andb]. now rewrite u16_small by lia. }
  rewrite Hm. destruct (cb _ _ _ _ _ _) as [ret s']. destruct (ret =? 0); [|done]. cbn [negb].
  apply IH; lia.
Qed.

Lemma walk_ok {S} t start w (cb : walk_cb S) s :
  zlength (recs t) = table_entries t + expn_table_entries t ->
  table_entries t + expn_table_entries t <= 65535 -> 0 <= table_entries t ->
  0 <= start < table_entries t + expn_table_entries t ->
  ipa_table_walk t start w cb s = Done (visit t cb (selection t w start) s).
Proof.
  intros Hl Ht Hb Hs. unfold ipa_table_walk. rewrite Z.geb_leb, (proj2 (Z.leb_gt _ _)) by lia.
  apply walk_loop_ok; lia || done.
Qed.
End Walk.
