(* ===== verification/IpaTableWf.v ===== *)
(** What a client of the generic table promises ([EntryLaws]: the laws of the
    callbacks and of the fields the DMA commands write) and what the table
    gives back: the invariant [table_ok] and the effect of insertion and
    deletion on the chains and on the contents.

    Insertion and deletion prepare commands; the statements describe the
    memory after the hardware has executed them. *)
From S2P Require Import Prelude.
From S2P Require Import Bits.
From S2P Require Import Chains.
From S2P Require Import IpaTable.
From S2P Require Import IpaDma.
From S2P Require Import IpaTableWalk.

(** ** The interface *)
Class EntryLaws (U : Type) {EI : EntryInterface U} := {
  (** Record size, and the byte offsets of the 16-bit fields written by
      HELP_UPDATE_HEAD, HELP_UPDATE_ENTRY and HELP_DELETE_HEAD. *)
  lw_size : Z;
  lw_head : Z;
  lw_next : Z;
  lw_del : Z;
  (** Admissible user data, contents of a free record, a meta array that
      fits [x] expansion records, and the head data that enable a record. *)
  lw_user : U -> Prop;
  lw_free : Z -> Prop;
  lw_meta : option (list Z) -> Z -> Prop;
  lw_enabling : Z -> bool;
  (** The client's view of a record, of the user data, and of a record after
      a head write. *)
  lw_V : Type;
  lw_view : Z -> lw_V;
  lw_img : U -> lw_V;
  lw_headview : Z -> lw_V -> lw_V;

  lw_offs : 0 <= lw_head /\ 0 <= lw_next /\ 0 <= lw_del /\
            lw_head + 2 <= lw_size /\ lw_next + 2 <= lw_size /\ lw_del + 2 <= lw_size;
  lw_next_range e : 0 <= entry_get_next_index e < 65536;
  lw_next_next e v : 0 <= v < 65536 -> entry_get_next_index (fset (half lw_next) v e) = v;
  lw_next_valid e v : entry_is_valid (fset (half lw_next) v e) = entry_is_valid e;
  lw_next_prev e v i m b :
    entry_get_prev_index (fset (half lw_next) v e) i m b = entry_get_prev_index e i m b;
  lw_next_view e v : lw_view (fset (half lw_next) v e) = lw_view e;
  lw_head_valid e v : 0 <= v < 65536 -> entry_is_valid (fset (half lw_head) v e) = lw_enabling v;
  lw_head_next e v : entry_get_next_index (fset (half lw_head) v e) = entry_get_next_index e;
  lw_head_prev e v i m b :
    entry_get_prev_index (fset (half lw_head) v e) i m b = entry_get_prev_index e i m b;
  lw_head_view e v : 0 <= v < 65536 ->
    lw_view (fset (half lw_head) v e) = lw_headview v (lw_view e);
  lw_off : lw_enabling 0 = false;
  lw_del_valid c n :
    entry_is_valid c = true -> entry_is_valid n = true ->
    entry_is_valid (fset (half lw_del) (entry_get_delete_head_dma_command_data c n) c) = true;
  lw_del_next e v : entry_get_next_index (fset (half lw_del) v e) = entry_get_next_index e;
  lw_del_prev e v i m b :
    entry_get_prev_index (fset (half lw_del) v e) i m b = entry_get_prev_index e i m b;
  lw_prev_total e i m b x :
    lw_meta m x -> 0 <= b -> 0 <= i < b + x ->
    exists p, entry_get_prev_index e i m b = Done p /\ 0 <= p < 65536;
  lw_free_0 : lw_free 0;
  lw_free_valid e : lw_free e -> entry_is_valid e = false;
  lw_free_next e : lw_free e -> entry_get_next_index e = 0;
  lw_free_prev e i m b : lw_free e -> i < b -> entry_get_prev_index e i m b = Done 0;
  lw_head_insert e u :
    lw_free e -> lw_user u ->
    exists r e' d, entry_head_insert e u = Done (r, e', d) /\
      (r <> 0 -> lw_free e') /\
      (r = 0 -> entry_is_valid e' = false /\ entry_get_next_index e' = 0 /\
         (forall i m b, entry_get_prev_index e' i m b = entry_get_prev_index e i m b) /\
         0 <= d < 65536 /\ lw_enabling d = true /\ lw_headview d (lw_view e') = lw_img u);
  lw_tail_insert e u :
    lw_free e -> lw_user u ->
    exists r e', entry_tail_insert e u = Done (r, e') /\
      (r <> 0 -> lw_free e') /\
      (r = 0 -> entry_is_valid e' = true /\ entry_get_next_index e' = 0 /\
         lw_view e' = lw_img u);
  lw_set_prev e i p m b x :
    lw_meta m x -> b <= i < b + x -> 0 <= p < 65536 ->
    exists e' m', entry_set_prev_index e i p m b = Done (e', m') /\
      lw_meta m' x /\ (is_Some m' <-> is_Some m) /\
      entry_get_prev_index e' i m' b = Done p /\
      entry_is_valid e' = entry_is_valid e /\
      entry_get_next_index e' = entry_get_next_index e /\
      lw_view e' = lw_view e /\
      (forall j y, j <> i -> entry_get_prev_index y j m' b = entry_get_prev_index y j m b) }.

(** Tables of the same shape: everything but memory, counts and meta. *)
Definition same_shape (t t' : ipa_table) : Prop :=
  table_entries t' = table_entries t /\ expn_table_entries t' = expn_table_entries t /\
  tot_tbl_ents t' = tot_tbl_ents t /\ entry_size t' = entry_size t /\
  table_addr t' = table_addr t /\ expn_table_addr t' = expn_table_addr t /\
  dma_help t' = dma_help t /\ nmi t' = nmi t.

#[export] Instance same_shape_equiv : Equivalence same_shape.
Proof. split; red; unfold same_shape; intuition congruence. Qed.

Lemma same_shape_trans t t' t'' : same_shape t t' -> same_shape t' t'' -> same_shape t t''.
Proof. apply transitivity. Qed.

Section Table.
Context {U : Type} {EI : EntryInterface U} {EL : EntryLaws U} {HW : IpaHw} {HWS : IpaHwSpec}.
(** The table's DMA types and its index. *)
Context (bt et ti : Z).

(** ** The invariant *)
Definition rlink (m : option (list Z)) (b i e : Z) : option (Z * Z) :=
  if entry_is_valid e then
    match entry_get_prev_index e i m b with
    | Done p => Some (p, entry_get_next_index e)
    | _ => None
    end
  else None.
Definition links_of (m : option (list Z)) (b : Z) (r : list Z) : links := fun i =>
  match zlookup r i with Some e => rlink m b i e | None => None end.
Definition link (t : ipa_table) : links := links_of (meta t) (table_entries t) (recs t).

(** What the client reads in each occupied slot. *)
Definition rview (e : Z) : option lw_V :=
  if entry_is_valid e then Some (lw_view e) else None.
Definition content (t : ipa_table) (i : Z) : option lw_V :=
  match zlookup (recs t) i with Some e => rview e | None => None end.

Definition helper (off : Z) : option ipa_table_dma_cmd_helper :=
  Some {| help_offset := off; table_type := bt; expn_table_type := et; table_indx := ti |}.

Definition tot (t : ipa_table) : Z := table_entries t + expn_table_entries t.

Record table_geom (t : ipa_table) : Prop := {
  g_types : bt <> et;
  g_base : 1 < table_entries t;
  g_expn : 0 <= expn_table_entries t;
  g_tot : tot_tbl_ents t = tot t;
  g_max : tot t <= 65535;
  g_len : zlength (recs t) = tot t;
  g_size : entry_size t = lw_size;
  g_bytes : lw_size * tot t < 2 ^ 32;
  g_addr : expn_table_addr t = table_addr t + lw_size * table_entries t;
  g_meta : lw_meta (meta t) (expn_table_entries t);
  g_help : dma_help t = {| help_update_head := helper lw_head;
                           help_update_entry := helper lw_next;
                           help_delete_head := helper lw_del |} }.

Record table_ok (t : ipa_table) (ch : chain_map) : Prop := {
  ok_geom : table_geom t;
  ok_chains : chains_ok (table_entries t) (tot t) (link t) ch;
  ok_free : forall i e, zlookup (recs t) i = Some e -> entry_is_valid e = false -> lw_free e;
  ok_cnt : cur_tbl_cnt t = occ (link t) 0 (Z.to_nat (table_entries t));
  ok_ecnt : cur_expn_tbl_cnt t =
            occ (link t) (table_entries t) (Z.to_nat (expn_table_entries t)) }.

(** The command the library builds for a field of record [i]. *)
Definition one_at (t : ipa_table) (off i v : Z) : nat_dma_one :=
  {| table_index := ti;
     base_addr := if i >=? table_entries t then et else bt;
     offset := off + (if i >=? table_entries t then i - table_entries t else i) * lw_size;
     data := v |}.

(** A 16-bit write at offset [off] of record [i]. *)
Definition write_at (off i v : Z) (t : ipa_table) : ipa_table :=
  match zlookup (recs t) i with
  | Some e => set_recs (zinsert i (fset (half off) v e) (recs t)) t
  | None => t
  end.

Definition off_of (ht : dma_help_type) : Z :=
  match ht with
  | HELP_UPDATE_HEAD => lw_head
  | HELP_UPDATE_ENTRY => lw_next
  | HELP_DELETE_HEAD => lw_del
  end.

(** ** Commands *)
Lemma off_of_bounds ht : 0 <= off_of ht /\ off_of ht + 2 <= lw_size.
Proof. pose proof lw_offs. destruct ht; cbn; lia. Qed.

Lemma add_dma_cmd_ok t ht i v cmd :
  table_geom t -> 0 <= i < tot t ->
  ipa_table_add_dma_cmd t ht (Some i) i v cmd =
  Done (0, {| entries := u8 (entries cmd + 1); mem_type := mem_type cmd;
              dma := dma cmd ++ [one_at t (off_of ht) i v] |}).
Proof.
  intros G Hi. pose proof (off_of_bounds ht) as Ho.
  pose proof (g_base _ G). pose proof (g_expn _ G). pose proof (g_bytes _ G).
  unfold tot in *. unfold ipa_table_add_dma_cmd.
  destruct (i >=? table_entries t + expn_table_entries t) eqn:E; zb; [lia|].
  assert (Hh : dma_help_at (dma_help t) ht = helper (off_of ht))
    by (rewrite (g_help _ G); now destruct ht).
  rewrite Hh. cbn. do 4 f_equal. unfold one_at, ipa_table_dma_cmd_generate, rec_addr. cbn.
  rewrite (g_size _ G), (g_addr _ G).
  destruct (i >=? table_entries t) eqn:E1; zb; f_equal.
  - replace (table_addr t + i * lw_size - (table_addr t + lw_size * table_entries t))
      with ((i - table_entries t) * lw_size) by lia.
    rewrite (u32_small (_ * _)) by nia. now rewrite (u32_small (off_of ht + _)) by nia.
  - replace (table_addr t + i * lw_size - table_addr t) with (i * lw_size) by lia.
    rewrite (u32_small (_ * _)) by nia. now rewrite (u32_small (off_of ht + _)) by nia.
Qed.

Lemma dma_write_ok t ht i v :
  table_geom t -> 0 <= i < tot t -> 0 <= v < 65536 ->
  hw_table_dma (one_at t (off_of ht) i v) t = write_at (off_of ht) i v t.
Proof.
  intros G Hi Hv. pose proof (off_of_bounds ht) as Ho. rewrite hw_table_dma_doc.
  unfold table_dma_write, dma_part, one_at, write_at. cbn [base_addr offset data].
  rewrite (g_help _ G), (g_size _ G). cbn [help_update_head helper].
  pose proof (g_types _ G) as Ht.
  assert (Hdiv : forall k, (off_of ht + k * lw_size) / lw_size = k /\
                      (off_of ht + k * lw_size) mod lw_size = off_of ht).
  { intros k. rewrite Z.div_add, Z.mod_add, Z.div_small, Z.mod_small by lia. lia. }
  destruct (i >=? table_entries t) eqn:E; zb; cbn [table_type expn_table_type].
  - rewrite (proj2 (Z.eqb_neq et bt)) by congruence. rewrite Z.eqb_refl.
    destruct (Hdiv (i - table_entries t)) as [-> ->].
    now replace (table_entries t + (i - table_entries t)) with i by lia.
  - rewrite Z.eqb_refl. destruct (Hdiv i) as [-> ->]. done.
Qed.

Lemma one_at_shape t t' off i v :
  table_entries t' = table_entries t -> one_at t' off i v = one_at t off i v.
Proof. unfold one_at. now intros ->. Qed.

(** ** Links and contents after a store *)
Lemma links_of_insert m b r i e j :
  0 <= i < zlength r -> links_of m b (zinsert i e r) j = upd (links_of m b r) i (rlink m b i e) j.
Proof.
  intros Hi. unfold links_of, upd. rewrite zlookup_insert_cases by done.
  rewrite (Z.eqb_sym j i). destruct (i =? j) eqn:E; zb; [now subst|done].
Qed.

Lemma links_of_meta m m' b r i j :
  (forall k y, k <> i -> entry_get_prev_index y k m' b = entry_get_prev_index y k m b) ->
  j <> i -> links_of m' b r j = links_of m b r j.
Proof.
  intros H Hj. unfold links_of, rlink. destruct (zlookup r j); [|done]. now rewrite H.
Qed.

Lemma content_insert t t' i e j :
  recs t' = zinsert i e (recs t) -> 0 <= i < zlength (recs t) ->
  content t' j = upd (content t) i (rview e) j.
Proof.
  intros E Hi. unfold content, upd. rewrite E, zlookup_insert_cases by done.
  rewrite (Z.eqb_sym j i). destruct (i =? j) eqn:E'; zb; [now subst|done].
Qed.

Lemma link_Some t i p n :
  link t i = Some (p, n) ->
  exists e, zlookup (recs t) i = Some e /\ entry_is_valid e = true /\
    entry_get_prev_index e i (meta t) (table_entries t) = Done p /\
    entry_get_next_index e = n.
Proof.
  unfold link, links_of, rlink. destruct (zlookup (recs t) i) as [e|]; [|done].
  destruct (entry_is_valid e) eqn:Ev; [|done].
  destruct (entry_get_prev_index _ _ _ _) eqn:Ep; [|done..].
  intros [= <- <-]. eauto.
Qed.

Lemma link_range t i : table_geom t -> link t i <> None -> 0 <= i < tot t.
Proof.
  intros G H. unfold link, links_of in H. destruct (zlookup (recs t) i) eqn:E; [|done].
  rewrite <- (g_len _ G). exact (zlookup_lt _ _ _ E).
Qed.

Lemma slot_read t i :
  table_geom t -> 0 <= i < tot t -> exists e, zlookup (recs t) i = Some e.
Proof. intros G Hi. apply zlookup_is_Some. now rewrite (g_len _ G). Qed.

Lemma link_valid t i e :
  table_geom t -> zlookup (recs t) i = Some e ->
  (entry_is_valid e = true <-> link t i <> None).
Proof.
  intros G E. pose proof (zlookup_lt _ _ _ E) as Hi. rewrite (g_len _ G) in Hi.
  unfold link, links_of, rlink. rewrite E. destruct (entry_is_valid e); [|done].
  pose proof (g_base _ G). unfold tot in Hi.
  destruct (lw_prev_total e i (meta t) (table_entries t) _ (g_meta _ G)) as (p & -> & _);
    [lia..|done].
Qed.

(** The free slots are the ones without content. *)
Lemma content_link t i : table_geom t -> (content t i = None <-> link t i = None).
Proof.
  intros G. unfold content, rview. destruct (zlookup (recs t) i) as [e|] eqn:E.
  - pose proof (link_valid t i e G E) as H. destruct (entry_is_valid e).
    + split; [done|]. intros HL. now destruct (proj1 H eq_refl).
    + split; [|done]. intros _. destruct (link t i); [|done]. discriminate (proj2 H ltac:(done)).
  - split; [|done]. intros _. unfold link, links_of. now rewrite E.
Qed.

Lemma slot_free t ch i :
  table_ok t ch -> 0 <= i < tot t -> link t i = None ->
  exists e, zlookup (recs t) i = Some e /\ entry_is_valid e = false /\ lw_free e.
Proof.
  intros OK Hi HL. destruct (slot_read t i (ok_geom _ _ OK) Hi) as [e E].
  destruct (entry_is_valid e) eqn:Ev.
  - apply (link_valid t i e (ok_geom _ _ OK) E) in Ev. congruence.
  - exists e. split_and!; [done..|]. now apply (ok_free _ _ OK i).
Qed.

Lemma slot_used t ch i p n :
  table_ok t ch -> link t i = Some (p, n) ->
  exists b l r, ch b = l ++ i :: r /\ p = lst 0 l /\ n = List.hd 0 r.
Proof.
  intros OK HL. pose proof (link_range t i (ok_geom _ _ OK) ltac:(congruence)) as Hi.
  apply (ck_locate (ok_chains _ _ OK)); [|done].
  destruct (decide (i = 0)) as [->|]; [|lia].
  rewrite (ck_zero _ _ _ _ (ok_chains _ _ OK)) in HL. done.
Qed.

(** The slots of a chain are in range, and their links are the list's. *)
Lemma chain_slot t ch b l i r :
  table_ok t ch -> ch b = l ++ i :: r ->
  0 < i < tot t /\ link t i = Some (lst 0 l, List.hd 0 r).
Proof.
  intros OK E. pose proof (g_expn _ (ok_geom _ _ OK)) as Hx. split.
  - apply (ck_range (ok_chains _ _ OK) b); [unfold tot; lia|]. rewrite E.
    apply elem_of_app. right. left.
  - pose proof (ck_dseg _ _ _ _ (ok_chains _ _ OK) b) as Hd. rewrite E in Hd.
    apply dseg_app in Hd as [_ [Hd _]]. done.
Qed.

Lemma bucket_nil t ch b :
  table_ok t ch -> 0 < b < table_entries t -> (ch b = [] <-> link t b = None).
Proof.
  intros OK Hb. pose proof (ck_head _ _ _ _ (ok_chains _ _ OK) b Hb) as Hh.
  destruct (ch b) as [|h tl] eqn:E; [done|]. destruct Hh as [-> _].
  destruct (chain_slot t ch b [] b tl OK E) as [_ ->]. done.
Qed.

(** ** The invariant, rebuilt after a change of memory, meta and counts *)
Lemma geom_update t t' :
  table_geom t -> same_shape t t' -> zlength (recs t') = zlength (recs t) ->
  lw_meta (meta t') (expn_table_entries t) -> table_geom t'.
Proof.
  intros [] (Hb & He & Ht & Hs & Ha & Hx & Hd & _) Hl Hm. unfold tot in *.
  split; unfold tot; rewrite ?Hb, ?He, ?Ht, ?Hs, ?Ha, ?Hx, ?Hd, ?Hl; done.
Qed.

Lemma table_ok_update t ch t' ch' L :
  table_ok t ch -> same_shape t t' -> zlength (recs t') = zlength (recs t) ->
  lw_meta (meta t') (expn_table_entries t) ->
  (forall i, link t' i = L i) ->
  chains_ok (table_entries t) (tot t) L ch' ->
  (forall i e, zlookup (recs t') i = Some e -> entry_is_valid e = false -> lw_free e) ->
  cur_tbl_cnt t' = occ L 0 (Z.to_nat (table_entries t)) ->
  cur_expn_tbl_cnt t' = occ L (table_entries t) (Z.to_nat (expn_table_entries t)) ->
  table_ok t' ch'.
Proof.
  intros OK Hs Hl Hm HL Hc Hf Hn He.
  assert (G : table_geom t') by (eapply geom_update; eauto using ok_geom).
  destruct Hs as (Hb & Hx & _). unfold tot in *. split; auto.
  - unfold tot. rewrite Hb, Hx. eapply chains_ok_ext; [|exact Hc]. exact HL.
  - rewrite Hn, Hb. symmetry. now apply occ_ext.
  - rewrite He, Hb, Hx. symmetry. now apply occ_ext.
Qed.

(** ** Searching the expansion part *)
Lemma selected_empty t i :
  table_geom t -> 0 <= i < tot t -> (selected t WHEN_SLOT_EMPTY i = true <-> link t i = None).
Proof.
  intros G Hi. destruct (slot_read t i G Hi) as [e He]. unfold selected. rewrite He.
  pose proof (link_valid t i e G He) as Hv. destruct (entry_is_valid e); cbn.
  - split; [done|]. intros HL. now destruct (proj1 Hv eq_refl).
  - split; [|done]. intros _. destruct (link t i) eqn:E; [|done].
    discriminate (proj2 Hv ltac:(done)).
Qed.

(** The first free expansion slot, or failure when there is none. *)
Lemma FindExpn_ok t :
  table_geom t ->
  (exists c, table_entries t <= c < tot t /\ link t c = None /\
     FindExpnTblFreeEntry t = Done (0, Some c, c)) \/
  ((forall c, table_entries t <= c < tot t -> link t c <> None) /\
     FindExpnTblFreeEntry t = Done (-1, None, 0)).
Proof.
  intros G. pose proof (g_base _ G). pose proof (g_expn _ G). pose proof (g_max _ G).
  unfold FindExpnTblFreeEntry.
  destruct (decide (expn_table_entries t = 0)) as [Hz|Hz].
  { right. split; [unfold tot; lia|]. unfold ipa_table_walk.
    destruct (_ >=? _) eqn:E; zb; [done|lia]. }
  pose proof (g_len _ G). unfold tot in *. rewrite walk_ok by lia. cbn [mbind exec_bind fst].
  unfold selection. destruct (List.filter _ _) as [|c l] eqn:El; cbn.
  - right. split; [|done]. intros c Hc HL.
    assert (Hin : List.In c (List.filter (selected t WHEN_SLOT_EMPTY)
                               (seqZ (table_entries t) (table_entries t + expn_table_entries t - table_entries t)))).
    { apply List.filter_In. split.
      - apply list_elem_of_In, elem_of_seqZ. lia.
      - now apply selected_empty; [|unfold tot; lia|]. }
    rewrite El in Hin. done.
  - left. assert (Hin : List.In c (c :: l)) by now left.
    rewrite <- El in Hin. apply List.filter_In in Hin as [Hin Hs].
    apply list_elem_of_In, elem_of_seqZ in Hin.
    exists c. rewrite (proj2 (Z.eqb_neq c 0)) by lia. cbn.
    destruct (c >? 0) eqn:E; zb; [|lia]. rewrite u16_small by lia.
    split_and!; [lia..| |done]. apply selected_empty; auto; unfold tot; lia.
Qed.

(** ** Walking a chain *)
Lemma iterator_end_loop_ok t ch b : table_ok t ch ->
  forall r l x fuel, ch b = l ++ x :: r -> (length r < fuel)%nat ->
  iterator_end_loop fuel t x (Some x) = Done (true, lst x r, Some (lst x r)).
Proof.
  intros OK. induction r as [|y r IH]; intros l x fuel E Hf;
    (destruct fuel as [|fuel]; [cbn in Hf; lia|]); cbn [iterator_end_loop].
  all: destruct (chain_slot t ch b l x _ OK E) as [Hx HL].
  all: destruct (link_Some t x _ _ HL) as (e & He & _ & _ & Hn).
  all: unfold load_rec; cbn; rewrite He; cbn; rewrite Hn; cbn [List.hd].
  - done.
  - destruct (chain_slot t ch b (l ++ [x]) y r OK) as [Hy _]; [now rewrite <- app_assoc|].
    unfold VALID_INDEX, IPA_TABLE_INVALID_ENTRY. rewrite (proj2 (Z.eqb_neq y 0)) by lia. cbn.
    assert (y <> x).
    { pose proof (ck_nodup _ _ _ _ (ok_chains _ _ OK) b) as Hnd. rewrite E in Hnd.
      apply NoDup_app in Hnd as (_ & _ & Hnd). apply NoDup_cons in Hnd as [Hnd _].
      intros ->. apply Hnd. left. }
    rewrite (proj2 (Z.eqb_neq y x)) by done. apply (IH (l ++ [x])); [|cbn in Hf; lia].
    rewrite E. now rewrite <- app_assoc.
Qed.

Lemma iterator_end_ok t ch b r :
  table_ok t ch -> ch b = b :: r ->
  ipa_table_iterator_end t b (Some b) =
  Done (0, {| prev_index := lst b r; prev_entry := Some (lst b r); curr_index := 0;
              curr_entry := None; next_index := 0; next_entry := None |}).
Proof.
  intros OK E. unfold ipa_table_iterator_end.
  pose proof (ok_geom _ _ OK) as G. pose proof (g_expn _ G). pose proof (g_base _ G).
  assert (table_entries t <= tot t) by (unfold tot; lia).
  pose proof (ck_length (ok_chains _ _ OK) b ltac:(lia)) as Hlen. rewrite E in Hlen.
  pose proof (g_len _ G) as Hl. unfold zlength in Hl. cbn [length] in Hlen.
  rewrite (iterator_end_loop_ok t ch b OK r []); [done|exact E|lia].
Qed.
End Table.
