(* ===== verification/IpaTableAdd.v ===== *)
(** Insertion into an IPA table: what ipa_table_add_entry leaves in memory and
    in the command list ([pending]), that executing the commands completes
    the insertion, and that erasing the new record instead undoes it. *)
From S2P Require Import Prelude.
From S2P Require Import Bits.
From S2P Require Import Chains.
From S2P Require Import IpaTable.
From S2P Require Import IpaDma.
From S2P Require Import IpaTableWf.

(** A command list with commands appended. *)
Definition cmd_app (cmd : nat_dma_cmd) (ds : list nat_dma_one) : nat_dma_cmd :=
  {| entries := foldl (fun n _ => u8 (n + 1)) (entries cmd) ds;
     mem_type := mem_type cmd; dma := dma cmd ++ ds |}.

Section Add.
Context {U : Type} {EI : EntryInterface U} {EL : EntryLaws U} {HW : IpaHw} {HWS : IpaHwSpec}.
Context (bt et ti : Z).
Abbreviation table_geom := (table_geom bt et ti).
Abbreviation table_ok := (table_ok bt et ti).
Abbreviation one_at := (one_at bt et ti).

(** An insertion in bucket [b] that waits for its commands [ds]: the new
    record [idx] is written, not yet linked. *)
Definition pending (t : ipa_table) (ch : chain_map) (w : lw_V) (b idx : Z) (t' : ipa_table)
    (ds : list nat_dma_one) : Prop :=
  exists e' hd,
    0 < b < table_entries t /\ 0 < idx < tot t /\ link t idx = None /\
    (ch b = [] -> idx = b) /\ (ch b <> [] -> table_entries t <= idx) /\
    same_shape t t' /\ recs t' = zinsert idx e' (recs t) /\
    lw_meta (meta t') (expn_table_entries t) /\ (is_Some (meta t') <-> is_Some (meta t)) /\
    (forall j y, j <> idx -> entry_get_prev_index y j (meta t') (table_entries t) =
                             entry_get_prev_index y j (meta t) (table_entries t)) /\
    entry_get_next_index e' = 0 /\
    entry_get_prev_index e' idx (meta t') (table_entries t) = Done (lst 0 (ch b)) /\
    cur_tbl_cnt t' = u16 (cur_tbl_cnt t + (if idx <? table_entries t then 1 else 0)) /\
    cur_expn_tbl_cnt t' = u16 (cur_expn_tbl_cnt t + (if idx <? table_entries t then 0 else 1)) /\
    match hd with
    | Some d => 0 <= d < 65536 /\ lw_enabling d = true /\
                lw_headview d (lw_view e') = w
    | None => is_Some (meta t) /\ ch b <> [] /\ entry_is_valid e' = true /\
              lw_view e' = w
    end /\
    ds = (match hd with Some d => [one_at t lw_head idx d] | None => [] end) ++
         (match ch b with [] => [] | _ => [one_at t lw_next (lst 0 (ch b)) idx] end).

(** A store into the new record that keeps its links and changes its view
    by [f]. *)
Definition touched (f : lw_V -> lw_V) (idx : Z) (t' t'' : ipa_table) : Prop :=
  exists e' e'',
    zlookup (recs t') idx = Some e' /\ t'' = set_recs (zinsert idx e'' (recs t')) t' /\
    entry_get_next_index e'' = entry_get_next_index e' /\
    (forall i m b, entry_get_prev_index e'' i m b = entry_get_prev_index e' i m b) /\
    lw_view e'' = f (lw_view e') /\
    (is_Some (meta t') -> entry_is_valid e'' = entry_is_valid e').

Lemma cnt_bounds t ch : table_ok t ch ->
  0 <= cur_tbl_cnt t <= table_entries t /\ 0 <= cur_expn_tbl_cnt t <= expn_table_entries t.
Proof.
  intros OK. rewrite (ok_cnt _ _ _ _ _ OK), (ok_ecnt _ _ _ _ _ OK).
  pose proof (g_base _ _ _ _ (ok_geom _ _ _ _ _ OK)).
  pose proof (g_expn _ _ _ _ (ok_geom _ _ _ _ _ OK)).
  pose proof (occ_bounds (link t) 0 (Z.to_nat (table_entries t))).
  pose proof (occ_bounds (link t) (table_entries t) (Z.to_nat (expn_table_entries t))). lia.
Qed.

(** Writing a free record in a free slot changes nothing. *)
Lemma store_free_ok t ch i e :
  table_ok t ch -> 0 <= i < tot t -> link t i = None -> lw_free e ->
  table_ok (set_recs (zinsert i e (recs t)) t) ch /\
  (forall j, content (set_recs (zinsert i e (recs t)) t) j = content t j).
Proof.
  intros OK Hi HL Hf. pose proof (ok_geom _ _ _ _ _ OK) as G.
  assert (Hlen : 0 <= i < zlength (recs t)) by now rewrite (g_len _ _ _ _ G).
  pose proof (lw_free_valid e Hf) as Hv. split.
  - apply (table_ok_update bt et ti t ch _ ch (link t)); auto; cbn.
    + now unfold same_shape.
    + apply zlength_insert.
    + apply G.
    + intros j. unfold link. cbn. rewrite links_of_insert by done.
      unfold rlink. rewrite Hv. upd_cases; [|done]. symmetry. exact HL.
    + apply OK.
    + intros j x. rewrite zlookup_insert_cases by done. case_test; [congruence|]. apply OK.
    + apply OK.
    + apply OK.
  - intros j. rewrite (content_insert t _ i e) by done. unfold rview. rewrite Hv.
    upd_cases; [|done]. destruct (slot_free bt et ti t ch i OK Hi HL) as (x & E & Hx & _).
    unfold content, rview. now rewrite E, Hx.
Qed.

Lemma touched_pending f g t ch w b idx t' t'' ds :
  zlength (recs t) = tot t ->
  (forall d v, lw_headview d (f v) = g (lw_headview d v)) -> (is_Some (meta t) -> f w = g w) ->
  pending t ch w b idx t' ds -> touched f idx t' t'' -> pending t ch (g w) b idx t'' ds.
Proof.
  intros Hlen Hfg Hfm (e' & hd & Hb & Hi & HL & Hh1 & Hh2 & Hs & Hr & Hm & Hms & Hp & Hn & Hpr & Hc
    & He & Hd & Hds) (x & e'' & E & -> & Hn' & Hp' & Hv & Hval).
  rewrite Hr, zlookup_insert_eq in E by lia. injection E as <-.
  exists e'', hd. split_and!; try done; try lia; try exact Hs; try exact Hp.
  - cbn. now rewrite Hr, zinsert_insert.
  - cbn. now rewrite Hp'.
  - destruct hd; rewrite Hv.
    + destruct Hd as (Hd1 & Hd2 & <-). now rewrite Hfg.
    + destruct Hd as (Hd1 & Hd2 & Hd3 & <-).
      split_and!; auto. rewrite Hval; [done|]. now apply Hms.
Qed.

Lemma pending_geom t ch w b idx t' ds :
  table_geom t -> pending t ch w b idx t' ds -> table_geom t'.
Proof.
  intros G (e' & hd & Hb & Hi & HL & Hh1 & Hh2 & Hs & Hr & Hm & _).
  eapply geom_update; eauto. rewrite Hr. apply zlength_insert.
Qed.

Lemma write_at_eq off i v t e :
  zlookup (recs t) i = Some e ->
  write_at off i v t = set_recs (zinsert i (fset (half off) v e) (recs t)) t.
Proof. unfold write_at. now intros ->. Qed.

(** Executing one command of the list, on a table of the same shape. *)
Lemma dma_one_ok t t' ht i v ds e :
  table_geom t' -> same_shape t t' -> 0 <= i < tot t -> 0 <= v < 65536 ->
  zlookup (recs t') i = Some e ->
  dma_apply (one_at t (off_of ht) i v :: ds) t' =
  dma_apply ds (set_recs (zinsert i (fset (half (off_of ht)) v e) (recs t')) t').
Proof.
  intros G Hs Hi Hv E. unfold dma_apply. cbn [foldl].
  rewrite <- (one_at_shape bt et ti t t') by apply Hs.
  rewrite (dma_write_ok bt et ti t' ht i v G); [|destruct Hs as (Hb & Hx & _);
    unfold tot in *; rewrite Hb, Hx; lia|done].
  now rewrite (write_at_eq _ _ _ _ e).
Qed.

(** The head command, when there is one, leaves an enabled record. *)
Lemma pending_filled t ch w b idx t' ds :
  table_geom t -> pending t ch w b idx t' ds ->
  exists ef ds2,
    dma_apply ds t' = dma_apply ds2 (set_recs (zinsert idx ef (recs t)) t') /\
    ds2 = (match ch b with [] => [] | _ => [one_at t lw_next (lst 0 (ch b)) idx] end) /\
    entry_is_valid ef = true /\ entry_get_next_index ef = 0 /\
    entry_get_prev_index ef idx (meta t') (table_entries t) = Done (lst 0 (ch b)) /\
    lw_view ef = w.
Proof.
  intros G P. pose proof (pending_geom _ _ _ _ _ _ _ G P) as G'.
  destruct P as (e' & hd & Hb & Hi & HL & Hh1 & Hh2 & Hs & Hr & Hm & Hms & Hp & Hn & Hpr & Hc
    & He & Hd & ->).
  assert (Hlen : 0 <= idx < zlength (recs t)) by (rewrite (g_len _ _ _ _ G); lia).
  assert (E : zlookup (recs t') idx = Some e') by (rewrite Hr; now apply zlookup_insert_eq).
  destruct hd as [d|].
  - destruct Hd as (Hd1 & Hd2 & Hd3). exists (fset (half lw_head) d e'). eexists.
    split_and!; [|reflexivity|..].
    + cbn [app]. rewrite (dma_one_ok t t' HELP_UPDATE_HEAD idx d _ e') by (auto; lia).
      now rewrite Hr, zinsert_insert.
    + now rewrite lw_head_valid.
    + now rewrite lw_head_next.
    + now rewrite lw_head_prev.
    + now rewrite lw_head_view.
  - destruct Hd as (Hd1 & Hd2 & Hd3 & Hd4). exists e'. eexists.
    split_and!; [|reflexivity|done..]. cbn [app]. rewrite <- Hr. now destruct t'.
Qed.

Lemma lst_split l : l <> [] -> exists l', l = l' ++ [lst 0 l].
Proof.
  destruct l as [|x l _] using rev_ind; [done|]. intros _. exists l. now rewrite last_snoc.
Qed.

Lemma rlink_filled m b i e p :
  entry_is_valid e = true -> entry_get_prev_index e i m b = Done p ->
  rlink m b i e = Some (p, entry_get_next_index e).
Proof. intros Hv Hp. unfold rlink. now rewrite Hv, Hp. Qed.

(** Links, free slots and contents once the new record is filled in. *)
Lemma filled_links t m idx ef pr i :
  0 <= idx < zlength (recs t) ->
  (forall j y, j <> idx -> entry_get_prev_index y j m (table_entries t) =
                           entry_get_prev_index y j (meta t) (table_entries t)) ->
  entry_is_valid ef = true -> entry_get_next_index ef = 0 ->
  entry_get_prev_index ef idx m (table_entries t) = Done pr ->
  links_of m (table_entries t) (zinsert idx ef (recs t)) i = upd (link t) idx (Some (pr, 0)) i.
Proof.
  intros Hlen Hp Hv Hn Hpr. rewrite links_of_insert by done.
  rewrite (rlink_filled _ _ _ _ pr) by done. rewrite Hn.
  upd_cases; [done|]. now apply links_of_meta with idx.
Qed.

Lemma store_used_free t idx e :
  (forall i x, zlookup (recs t) i = Some x -> entry_is_valid x = false -> lw_free x) ->
  entry_is_valid e = true ->
  forall i x, zlookup (zinsert idx e (recs t)) i = Some x -> entry_is_valid x = false -> lw_free x.
Proof.
  intros H He i x E Hx. destruct (decide (0 <= idx < zlength (recs t))) as [Hi|Hi].
  - rewrite zlookup_insert_cases in E by done. case_test_in E; [congruence|eauto].
  - apply (H i); [|done]. destruct (decide (i = idx)) as [->|Hne].
    + apply zlookup_lt in E. rewrite zlength_insert in E. lia.
    + now rewrite zlookup_insert_ne in E by congruence.
Qed.

Lemma commit_head t ch w b t' ds :
  table_ok t ch -> ch b = [] -> pending t ch w b b t' ds ->
  table_ok (dma_apply ds t') (upd ch b [b]) /\
  forall i, content (dma_apply ds t') i = upd (content t) b (Some (w)) i.
Proof.
  intros OK Hch P. pose proof (ok_geom _ _ _ _ _ OK) as G.
  destruct (pending_filled _ _ _ _ _ _ _ G P) as (ef & ds2 & -> & Hds2 & Hv & Hn & Hpr & Hw).
  rewrite Hch in *. subst ds2. unfold dma_apply. cbn [foldl lst] in *.
  destruct P as (_ & _ & Hb & Hi & HL & _ & _ & Hs & _ & Hm & _ & Hp & _ & _ & Hc & He & _).
  assert (Hlen : 0 <= b < zlength (recs t)) by (rewrite (g_len _ _ _ _ G); lia).
  pose proof (cnt_bounds _ _ OK). pose proof (g_expn _ _ _ _ G). pose proof (g_max _ _ _ _ G).
  rewrite (proj2 (Z.ltb_lt _ _)) in Hc, He by lia.
  pose proof (occ_upd_in (link t) b (Some (0, 0)) 0 (Z.to_nat (table_entries t)) ltac:(lia)) as Ho.
  pose proof (occ_bounds (upd (link t) b (Some (0, 0))) 0 (Z.to_nat (table_entries t))) as Hob.
  rewrite HL, <- (ok_cnt _ _ _ _ _ OK) in Ho. cbn [occupied] in Ho.
  unfold tot in *. split.
  - apply (table_ok_update bt et ti t ch _ _ (upd (link t) b (Some (0, 0)))); auto; cbn.
    + apply zlength_insert.
    + intros i. unfold link at 1. cbn. rewrite (proj1 Hs). now apply filled_links.
    + apply chains_add_head; first [done | apply OK].
    + apply store_used_free; [apply OK|done].
    + rewrite Hc, u16_small; lia.
    + rewrite He, occ_upd_out, <- (ok_ecnt _ _ _ _ _ OK) by lia. rewrite u16_small; lia.
  - intros i. rewrite (content_insert t _ b ef) by done. unfold rview. now rewrite Hv, Hw.
Qed.

(** The counts once the free expansion slot [c] follows the record [x]. *)
Lemma append_counts t ch x p c :
  table_ok t ch -> link t x = Some (p, 0) -> table_entries t <= c < tot t -> link t c = None ->
  let L' := upd (upd (link t) x (Some (p, c))) c (Some (x, 0)) in
  cur_tbl_cnt t = occ L' 0 (Z.to_nat (table_entries t)) /\
  cur_expn_tbl_cnt t + 1 = occ L' (table_entries t) (Z.to_nat (expn_table_entries t)).
Proof.
  intros OK HLx Hc HL L'. pose proof (ok_geom _ _ _ _ _ OK) as G. pose proof (g_base _ _ _ _ G).
  pose proof (g_expn _ _ _ _ G). assert (Hxc : x <> c) by congruence. unfold tot in *.
  assert (Hsame : forall lo n, occ (upd (link t) x (Some (p, c))) lo n = occ (link t) lo n).
  { intros lo n. apply occ_upd_same. now rewrite HLx. }
  split; [unfold L'; rewrite occ_upd_out, Hsame, <- (ok_cnt _ _ _ _ _ OK) by lia; done|].
  pose proof (occ_upd_in (upd (link t) x (Some (p, c))) c (Some (x, 0))
                (table_entries t) (Z.to_nat (expn_table_entries t)) ltac:(lia)) as Ho.
  rewrite Hsame, upd_ne, HL, <- (ok_ecnt _ _ _ _ _ OK) in Ho by done. cbn [occupied] in Ho.
  fold L' in Ho. lia.
Qed.

(** Linking the filled-in record [ef] at [idx] behind the last record [x]. *)
Lemma append_linked t ch b l x idx ef ex t2 :
  table_ok t ch -> ch b = l ++ [x] -> table_entries t <= idx < tot t -> link t idx = None ->
  zlookup (recs t) x = Some ex -> lw_meta (meta t2) (expn_table_entries t) ->
  (forall j y, j <> idx -> entry_get_prev_index y j (meta t2) (table_entries t) =
                           entry_get_prev_index y j (meta t) (table_entries t)) ->
  entry_is_valid ef = true -> entry_get_next_index ef = 0 ->
  entry_get_prev_index ef idx (meta t2) (table_entries t) = Done x -> same_shape t t2 ->
  recs t2 = zinsert x (fset (half lw_next) idx ex) (zinsert idx ef (recs t)) ->
  cur_tbl_cnt t2 = u16 (cur_tbl_cnt t + 0) -> cur_expn_tbl_cnt t2 = u16 (cur_expn_tbl_cnt t + 1) ->
  table_ok t2 (upd ch b (ch b ++ [idx])) /\
  forall i, content t2 i = upd (content t) idx (Some (lw_view ef)) i.
Proof.
  intros OK El Hi HL Ex Hm Hp Hv Hn Hpr Hs Hr Hc He. pose proof (ok_geom _ _ _ _ _ OK) as G.
  pose proof (cnt_bounds _ _ OK). pose proof (g_expn _ _ _ _ G). pose proof (g_max _ _ _ _ G).
  pose proof (g_base _ _ _ _ G). pose proof (g_len _ _ _ _ G) as Hlen.
  destruct (chain_slot bt et ti t ch b l x [] OK El) as [Hxr HLx]. cbn in HLx.
  destruct (link_Some t x _ _ HLx) as (ex' & Ex' & Evx & Epx & Enx).
  rewrite Ex in Ex'. injection Ex' as <-.
  destruct (append_counts t ch x (lst 0 l) idx OK HLx Hi HL) as [Hoc Hoe].
  set (L' := upd (upd (link t) x (Some (lst 0 l, idx))) idx (Some (x, 0))) in *.
  pose proof (occ_bounds L' (table_entries t) (Z.to_nat (expn_table_entries t))) as Hob.
  assert (Hxl : 0 <= x < zlength (zinsert idx ef (recs t))) by (rewrite zlength_insert; lia).
  assert (Hil : 0 <= idx < zlength (recs t)) by lia. split.
  - apply (table_ok_update bt et ti t ch _ _ L'); auto.
    + rewrite Hr. now rewrite !zlength_insert.
    + intros i. unfold link at 1. rewrite Hr, (proj1 Hs), links_of_insert by done.
      rewrite (rlink_filled _ _ _ _ (lst 0 l));
        [|now rewrite lw_next_valid|rewrite lw_next_prev, Hp by congruence; exact Epx].
      rewrite lw_next_next by lia. unfold L'.
      pose proof (filled_links t (meta t2) idx ef x i Hil Hp Hv Hn Hpr) as Hfl.
      upd_cases; congruence.
    + rewrite El, <- app_assoc. apply chains_add_tail; first [done | apply OK | lia].
    + rewrite Hr. apply (store_used_free (set_recs (zinsert idx ef (recs t)) t));
        [|now rewrite lw_next_valid]. cbn. apply store_used_free; [apply OK|done].
    + rewrite Hc, u16_small; unfold tot in *; lia.
    + rewrite He, u16_small; unfold tot in *; lia.
  - intros i. rewrite (content_insert (set_recs (zinsert idx ef (recs t)) t) t2 x
      (fset (half lw_next) idx ex)) by done.
    unfold rview. rewrite lw_next_valid, Evx, lw_next_view.
    pose proof (content_insert t (set_recs (zinsert idx ef (recs t)) t) idx ef i eq_refl Hil) as Hci.
    unfold rview in Hci. rewrite Hv in Hci.
    assert (Hcx : content t x = Some (lw_view ex)) by (unfold content, rview; now rewrite Ex, Evx).
    upd_cases; congruence.
Qed.

Lemma commit_tail t ch w b idx t' ds :
  table_ok t ch -> ch b <> [] -> pending t ch w b idx t' ds ->
  table_ok (dma_apply ds t') (upd ch b (ch b ++ [idx])) /\
  forall i, content (dma_apply ds t') i = upd (content t) idx (Some (w)) i.
Proof.
  intros OK Hch P. pose proof (ok_geom _ _ _ _ _ OK) as G. pose proof (g_max _ _ _ _ G).
  destruct (lst_split (ch b) Hch) as [l El]. set (x := lst 0 (ch b)) in *.
  destruct (pending_filled _ _ _ _ _ _ _ G P) as (ef & ds2 & -> & Hds2 & Hv & Hn & Hpr & Hw).
  assert (Hds : ds2 = [one_at t lw_next x idx]) by (now destruct (ch b)). clear Hds2. subst ds2.
  pose proof (pending_geom _ _ _ _ _ _ _ G P) as G'.
  destruct P as (_ & _ & Hb & Hi & HL & _ & Hx & Hs & _ & Hm & _ & Hp & _ & _ & Hc & He & _).
  specialize (Hx Hch). fold x in Hpr.
  destruct (chain_slot bt et ti t ch b l x [] OK El) as [Hxr HLx]. cbn in HLx.
  assert (Hxi : x <> idx) by congruence.
  destruct (link_Some t x _ _ HLx) as (ex & Ex & _).
  change (one_at t lw_next x idx) with (one_at t (off_of HELP_UPDATE_ENTRY) x idx).
  rewrite (dma_one_ok t _ HELP_UPDATE_ENTRY x idx [] ex); [|..|lia|].
  2:{ apply (geom_update bt et ti t'); auto; [now unfold same_shape|cbn|].
      - rewrite zlength_insert, (g_len _ _ _ _ G), (g_len _ _ _ _ G').
        unfold tot. destruct Hs as (-> & -> & _). done.
      - destruct Hs as (_ & -> & _). done. }
  2: exact Hs. 2: lia. 2: cbn; now rewrite zlookup_insert_ne.
  unfold dma_apply. cbn [foldl recs set_recs off_of].
  rewrite (proj2 (Z.ltb_ge _ _)) in Hc, He by lia. rewrite <- Hw.
  eapply (append_linked t ch b l x idx ef ex); eauto. lia.
Qed.

(** Executing the commands completes the insertion: the record is the last
    of its bucket's chain and holds what the client gave. *)
Lemma pending_commit t ch w b idx t' ds :
  table_ok t ch -> pending t ch w b idx t' ds ->
  table_ok (dma_apply ds t') (upd ch b (ch b ++ [idx])) /\
  forall i, content (dma_apply ds t') i = upd (content t) idx (Some (w)) i.
Proof.
  intros OK P. destruct (decide (ch b = [])) as [E|E]; [|eapply commit_tail; eauto].
  assert (idx = b) as -> by (destruct P as (? & ? & _ & _ & _ & H & _); auto).
  rewrite E. cbn [app]. eapply commit_head; eauto.
Qed.

(** Erasing the new record instead restores the table. *)
Lemma pending_abort t ch w b idx t' ds :
  table_ok t ch -> pending t ch w b idx t' ds ->
  exists t3, ipa_table_erase_entry t' idx = Done t3 /\ table_ok t3 ch /\ same_shape t t3 /\
    forall i, content t3 i = content t i.
Proof.
  intros OK P. pose proof (ok_geom _ _ _ _ _ OK) as G.
  destruct P as (e' & hd & Hb & Hi & HL & Hh1 & Hh2 & Hs & Hr & Hm & _ & Hp & _ & _ & Hc & He & _).
  assert (Hlen : 0 <= idx < zlength (recs t)) by (rewrite (g_len _ _ _ _ G); lia).
  destruct (store_free_ok t ch idx 0 OK ltac:(lia) HL lw_free_0) as [OK0 Hct].
  pose proof (cnt_bounds _ _ OK) as [Hc1 Hc2]. pose proof (g_base _ _ _ _ G).
  pose proof (g_expn _ _ _ _ G). pose proof (g_max _ _ _ _ G). unfold tot in *.
  unfold ipa_table_erase_entry, store_rec, GOTO_REC. cbn [mbind exec_bind deref].
  rewrite zstore_ok by (rewrite Hr, zlength_insert; lia). cbn [mbind exec_bind].
  rewrite Hr, zinsert_insert.
  set (t3 := if idx <? table_entries t' then _ else _).
  assert (Hs3 : same_shape t t3 /\ recs t3 = zinsert idx 0 (recs t) /\ meta t3 = meta t' /\
                cur_tbl_cnt t3 = cur_tbl_cnt t /\ cur_expn_tbl_cnt t3 = cur_expn_tbl_cnt t).
  { subst t3. rewrite (proj1 Hs). destruct (idx <? table_entries t) eqn:E; zb;
      cbn; rewrite Hc, He; (split; [exact Hs|]); split_and!; try done; rewrite ?Z.add_0_r;
      unfold u16; rewrite ?Zminus_mod_idemp_l; rewrite Z.mod_small; lia. }
  exists t3. split; [done|]. destruct Hs3 as (Hs3 & Hr3 & Hm3 & Hc3 & He3).
  split; [|split; [exact Hs3|]].
  - apply (table_ok_update bt et ti t ch _ ch (link t)); auto.
    + rewrite Hr3. apply zlength_insert.
    + now rewrite Hm3.
    + intros i. pose proof (lw_free_valid 0 lw_free_0) as Hv0.
      unfold link at 1. rewrite Hr3, Hm3, (proj1 Hs3), links_of_insert by done.
      unfold rlink. rewrite Hv0. upd_cases; [done|]. now apply links_of_meta with idx.
    + apply OK.
    + rewrite Hr3. apply (ok_free _ _ _ _ _ OK0).
    + rewrite Hc3. apply OK.
    + rewrite He3. apply OK.
  - intros i. rewrite <- Hct. unfold content. now rewrite Hr3.
Qed.

(** ** ipa_table_add_entry *)

(** A client callback that refuses the data in an acceptable record. *)
Definition refused (u : U) (ret : Z) : Prop :=
  exists e e', lw_free e /\
    ((exists d, entry_head_insert e u = Done (ret, e', d)) \/
     entry_tail_insert e u = Done (ret, e')).

Lemma insert_head_spec t ch b u cmd :
  table_ok t ch -> 0 < b < table_entries t -> link t b = None -> lw_user u ->
  exists ret t' cmd', InsertHead t (Some b) b u cmd = Done (ret, t', cmd') /\
    ((ret = 0 /\ exists ds, pending t ch (lw_img u) b b t' ds /\ cmd' = cmd_app cmd ds) \/
     (ret <> 0 /\ cmd' = cmd /\ table_ok t' ch /\ same_shape t t' /\
      (forall i, content t' i = content t i) /\ refused u ret)).
Proof.
  intros OK Hb HL Hu. pose proof (ok_geom _ _ _ _ _ OK) as G. pose proof (g_expn _ _ _ _ G).
  assert (Hbt : 0 <= b < tot t) by (unfold tot; lia).
  destruct (slot_free bt et ti t ch b OK Hbt HL) as (e & E & Hv & Hf).
  destruct (lw_head_insert e u Hf Hu) as (r & e' & d & Hi & Hbad & Hgood).
  unfold InsertHead, load_rec, store_rec. cbn [mbind exec_bind deref]. rewrite E.
  cbn [mbind exec_bind deref]. rewrite Hi. cbn [mbind exec_bind].
  rewrite zstore_ok by (rewrite (g_len _ _ _ _ G); lia). cbn [mbind exec_bind].
  destruct (r =? 0) eqn:Er; zb; cbn [negb].
  - subst r. destruct (Hgood eq_refl) as (_ & Hn & Hp & Hd & Hen & Hw). clear Hbad Hgood.
    set (t1 := set_recs _ t).
    assert (G1 : table_geom t1).
    { eapply geom_update; [exact G|now unfold same_shape|apply zlength_insert|apply G]. }
    rewrite (add_dma_cmd_ok bt et ti t1 HELP_UPDATE_HEAD b d cmd G1 Hbt).
    cbn [mbind exec_bind snd]. eexists _, _, _. split; [reflexivity|]. left. split; [done|].
    assert (Hch : ch b = []) by (eapply bucket_nil; eauto).
    exists [one_at t lw_head b d]. split; [|done].
    exists e', (Some d). rewrite (proj2 (Z.ltb_lt b _)) by lia. rewrite Hch. cbn.
    split_and!; try done; try lia; try (exact (g_meta _ _ _ _ G)).
    + rewrite Hp. apply lw_free_prev; [done|lia].
    + unfold u16. rewrite Z.add_0_r, Z.mod_small; [done|].
      pose proof (cnt_bounds _ _ OK). pose proof (g_max _ _ _ _ G). unfold tot in *. lia.
  - eexists _, _, _. split; [reflexivity|]. right.
    destruct (store_free_ok t ch b e' OK Hbt HL (Hbad Er)) as [OK' Hct].
    split_and!; auto; [now unfold same_shape|]. exists e, e'. eauto.
Qed.

(** The callback's part of InsertTail: the new record before its previous
    index is set, and the head data when there is a head command. *)
Lemma tail_callback t ch c u :
  table_ok t ch -> table_entries t <= c < tot t -> link t c = None -> lw_user u ->
  exists e ret e1 d, zlookup (recs t) c = Some e /\
    (if bool_decide (is_Some (meta t)) then
       r ← entry_tail_insert e u; Done (fst r, snd r, 0)
     else entry_head_insert e u) = Done (ret, e1, d) /\
    (ret <> 0 -> lw_free e1 /\ refused u ret) /\
    (ret = 0 -> entry_get_next_index e1 = 0 /\
      if bool_decide (is_Some (meta t))
      then entry_is_valid e1 = true /\ lw_view e1 = lw_img u
      else 0 <= d < 65536 /\ lw_enabling d = true /\ lw_headview d (lw_view e1) = lw_img u).
Proof.
  intros OK Hc HL Hu. pose proof (g_base _ _ _ _ (ok_geom _ _ _ _ _ OK)).
  destruct (slot_free bt et ti t ch c OK ltac:(lia) HL) as (e & E & Hv & Hf).
  exists e. case_bool_decide.
  - destruct (lw_tail_insert e u Hf Hu) as (r & e1 & Hi & Hbad & Hgood).
    exists r, e1, 0. rewrite Hi. cbn. split_and!; auto.
    + intros Hr. split; [auto|]. exists e, e1. eauto.
    + intros Hr. destruct (Hgood Hr) as (? & ? & ?). auto.
  - destruct (lw_head_insert e u Hf Hu) as (r & e1 & d & Hi & Hbad & Hgood).
    exists r, e1, d. rewrite Hi. split_and!; auto.
    + intros Hr. split; [auto|]. exists e, e1. eauto.
    + intros Hr. destruct (Hgood Hr) as (? & ? & ? & ? & ? & ?). auto.
Qed.

(** The walk to the end of an occupied bucket finds the last record. *)
Lemma last_of_bucket t ch b :
  table_ok t ch -> 0 < b < table_entries t -> link t b <> None ->
  exists l x, ch b = l ++ [x] /\ 0 < x < tot t /\
    ipa_table_iterator_end t b (Some b) =
    Done (0, {| prev_index := x; prev_entry := Some x; curr_index := 0; curr_entry := None;
                next_index := 0; next_entry := None |}).
Proof.
  intros OK Hb HL. pose proof (ck_head _ _ _ _ (ok_chains _ _ _ _ _ OK) b Hb) as Hh.
  destruct (ch b) as [|h tl] eqn:Ech; [done|]. destruct Hh as [-> _].
  destruct (lst_split (b :: tl)) as [l El]; [done|]. exists l, (lst b tl).
  split; [exact El|]. split; [|now apply (iterator_end_ok bt et ti t ch)].
  refine (proj1 (chain_slot bt et ti t ch b l (lst b tl) [] OK _)). now rewrite Ech.
Qed.

(** The new record [e2] holds the client's data, with the head command that
    is still to enable it, if any. *)
Definition filled_with (t : ipa_table) (ch : chain_map) (b : Z) (u : U) (e2 : Z) (hd : option Z) : Prop :=
  match hd with
  | Some d => 0 <= d < 65536 /\ lw_enabling d = true /\ lw_headview d (lw_view e2) = lw_img u
  | None => is_Some (meta t) /\ ch b <> [] /\ entry_is_valid e2 = true /\ lw_view e2 = lw_img u
  end.

(** A filled expansion record [c] is pending behind the last record [x]. *)
Lemma tail_pending t ch b l x c u e2 m' hd :
  table_ok t ch -> 0 < b < table_entries t -> ch b = l ++ [x] ->
  table_entries t <= c < tot t -> link t c = None -> lw_meta m' (expn_table_entries t) ->
  (is_Some m' <-> is_Some (meta t)) ->
  (forall j y, j <> c -> entry_get_prev_index y j m' (table_entries t) =
                         entry_get_prev_index y j (meta t) (table_entries t)) ->
  entry_get_next_index e2 = 0 -> entry_get_prev_index e2 c m' (table_entries t) = Done x ->
  filled_with t ch b u e2 hd ->
  pending t ch (lw_img u) b c
    (set_cnts (cur_tbl_cnt t) (u16 (cur_expn_tbl_cnt t + 1)) (set_recs (zinsert c e2 (recs t)) (set_meta m' t)))
    ((match hd with Some d => [one_at t lw_head c d] | None => [] end) ++ [one_at t lw_next x c]).
Proof.
  intros OK Hb El Hc HL Hm' Hms Hoth Hn Hpr Hhd. pose proof (cnt_bounds _ _ OK).
  pose proof (ok_geom _ _ _ _ _ OK) as G. pose proof (g_expn _ _ _ _ G). pose proof (g_base _ _ _ _ G).
  pose proof (g_max _ _ _ _ G). unfold tot in *.
  assert (Hlst : lst 0 (ch b) = x) by (rewrite El; apply last_snoc).
  assert (Hne : ch b <> []) by (rewrite El; now destruct l).
  exists e2, hd. rewrite (proj2 (Z.ltb_ge c _)), Hlst by lia. unfold tot.
  cbn [set_cnts recs meta set_recs set_meta cur_tbl_cnt cur_expn_tbl_cnt].
  split_and!; try done; try lia.
  - rewrite Z.add_0_r, u16_small by lia. done.
  - now destruct (ch b).
Qed.

Lemma insert_tail_spec t ch b u cmd :
  table_ok t ch -> 0 < b < table_entries t -> link t b <> None -> lw_user u ->
  exists ret t' idx cmd', InsertTail t (Some b) b u cmd = Done (ret, t', idx, cmd') /\
    ((ret = 0 /\ exists ds, pending t ch (lw_img u) b idx t' ds /\ cmd' = cmd_app cmd ds) \/
     (ret <> 0 /\ idx = b /\ cmd' = cmd /\ table_ok t' ch /\ same_shape t t' /\
      (forall i, content t' i = content t i) /\
      (refused u ret \/ ret = -1 /\ forall c, table_entries t <= c < tot t -> link t c <> None))).
Proof.
  intros OK Hb HL Hu. pose proof (ok_geom _ _ _ _ _ OK) as G.
  pose proof (g_base _ _ _ _ G). pose proof (g_max _ _ _ _ G).
  destruct (last_of_bucket t ch b OK Hb HL) as (l & x & El & Hxr & Hend).
  unfold InsertTail. rewrite Hend. cbn [mbind exec_bind Z.eqb negb prev_index prev_entry].
  destruct (FindExpn_ok bt et ti t G) as [(c & Hc & HLc & ->)|(Hfull & ->)]; cbn [mbind exec_bind].
  2:{ cbn [Z.eqb negb]. eexists _, _, _, _. split; [reflexivity|]. right.
      split_and!; auto. now unfold same_shape. }
  cbn [Z.eqb negb].
  destruct (tail_callback t ch c u OK Hc HLc Hu) as (e & ret & e1 & d & E & Hcb & Hbad & Hgood).
  unfold load_rec, store_rec. cbn [mbind exec_bind deref]. rewrite E. cbn [mbind exec_bind deref].
  cbn [mbind exec_bind] in Hcb. rewrite Hcb. cbn [mbind exec_bind].
  assert (Hcl : 0 <= c < zlength (recs t)) by (rewrite (g_len _ _ _ _ G); lia).
  rewrite zstore_ok by done. cbn [mbind exec_bind].
  destruct (ret =? 0) eqn:Er; zb; cbn [negb].
  2:{ destruct (Hbad Er) as [Hf Hr]. eexists _, _, _, _. split; [reflexivity|]. right.
      destruct (store_free_ok t ch c e1 OK ltac:(lia) HLc Hf). split_and!; auto.
      now unfold same_shape. }
  subst ret. destruct (Hgood eq_refl) as [Hn Hd]. clear Hgood Hbad Hcb.
  cbn [meta table_entries set_recs].
  destruct (lw_set_prev e1 c x (meta t) (table_entries t) (expn_table_entries t))
    as (e2 & m' & Hsp & Hm' & Hms & Hpr & Hv2 & Hn2 & Hw2 & Hoth);
    [apply G|unfold tot in Hc; lia|lia|].
  rewrite Hsp. cbn [mbind exec_bind fst snd recs set_meta set_recs].
  rewrite zstore_ok by now rewrite zlength_insert. cbn [mbind exec_bind].
  rewrite zinsert_insert. set (t2 := set_recs _ _).
  assert (G2 : table_geom t2).
  { eapply geom_update; [exact G|now unfold same_shape|apply zlength_insert|exact Hm']. }
  assert (Htot : tot t2 = tot t) by done.
  assert (Hpend : forall hd, filled_with t ch b u e2 hd ->
    pending t ch (lw_img u) b c (set_cnts (cur_tbl_cnt t2) (u16 (cur_expn_tbl_cnt t2 + 1)) t2)
      ((match hd with Some d => [one_at t lw_head c d] | None => [] end) ++ [one_at t lw_next x c]))
    by (intros hd Hhd; apply (tail_pending t ch b l x c u e2 m' hd); auto; congruence).
  case_bool_decide; cbn [mbind exec_bind].
  - rewrite (add_dma_cmd_ok bt et ti t2 HELP_UPDATE_ENTRY x c cmd G2) by (rewrite Htot; lia).
    cbn [mbind exec_bind snd]. eexists _, _, _, _. split; [reflexivity|]. left. split; [done|].
    exists [one_at t lw_next x c]. split; [|done]. apply (Hpend None).
    unfold filled_with. rewrite Hv2, Hw2, El. split_and!; try apply Hd; [done|now destruct l].
  - rewrite (add_dma_cmd_ok bt et ti t2 HELP_UPDATE_HEAD c d cmd G2) by (rewrite Htot; lia).
    cbn [mbind exec_bind snd].
    rewrite (add_dma_cmd_ok bt et ti t2 HELP_UPDATE_ENTRY x c _ G2) by (rewrite Htot; lia).
    cbn [mbind exec_bind snd]. eexists _, _, _, _. split; [reflexivity|]. left. split; [done|].
    exists [one_at t lw_head c d; one_at t lw_next x c]. split.
    + apply (Hpend (Some d)). unfold filled_with. now rewrite Hw2.
    + unfold cmd_app. cbn. f_equal. now rewrite <- (app_assoc (dma cmd)).
Qed.

(** The whole of ipa_table_add_entry in a bucket: either the insertion is
    pending and the new record's handle is returned, or nothing changed
    and the reason is that the client refused or that no expansion record
    is left for a collision. *)
Lemma add_entry_spec t ch b u hdl cmd :
  table_ok t ch -> 0 < b < table_entries t -> lw_user u ->
  exists ret t' idx hdl' cmd', ipa_table_add_entry t u b hdl cmd = Done (ret, t', idx, hdl', cmd') /\
    ((ret = 0 /\ exists ds, pending t ch (lw_img u) b idx t' ds /\ cmd' = cmd_app cmd ds /\
        hdl' = match hdl with Some _ => Some (MakeEntryHdl t idx) | None => None end) \/
     (ret <> 0 /\ hdl' = hdl /\ cmd' = cmd /\ table_ok t' ch /\ same_shape t t' /\
      (forall i, content t' i = content t i) /\
      (refused u ret \/
       ret = -1 /\ ch b <> [] /\ forall c, table_entries t <= c < tot t -> link t c <> None))).
Proof.
  intros OK Hb Hu. pose proof (ok_geom _ _ _ _ _ OK) as G. pose proof (g_expn _ _ _ _ G).
  destruct (slot_read bt et ti t b G) as [e E]; [unfold tot; lia|].
  pose proof (link_valid bt et ti t b e G E) as Hv.
  unfold ipa_table_add_entry, load_rec, GOTO_REC. cbn [mbind exec_bind deref]. rewrite E.
  cbn [mbind exec_bind deref].
  destruct (entry_is_valid e) eqn:Ev; cbn [negb].
  - pose proof (proj1 Hv eq_refl) as HL.
    destruct (insert_tail_spec t ch b u cmd OK Hb HL Hu) as (ret & t' & idx & cmd' & -> & Hr).
    cbn [mbind exec_bind].
    destruct Hr as [(-> & ds & P & ->)|(Hr & -> & -> & Hok & Hsh & Hct & Hwhy)].
    + cbn [Z.eqb negb]. eexists _, _, _, _, _. split; [reflexivity|]. left. split; [done|].
      exists ds. split_and!; [done..|]. destruct hdl; [|done]. f_equal.
      destruct P as (e' & hd & _ & _ & _ & _ & _ & Hs & _). unfold MakeEntryHdl.
      destruct Hs as (-> & _ & _ & _ & _ & _ & _ & ->). done.
    + rewrite (proj2 (Z.eqb_neq ret 0)) by done. cbn [negb].
      eexists _, _, _, _, _. split; [reflexivity|]. right. split_and!; auto.
      destruct Hwhy as [|[-> Hfull]]; [auto|]. right. split_and!; auto.
      rewrite (bucket_nil bt et ti t ch b OK Hb). done.
  - assert (HL : link t b = None)
      by (destruct (link t b) eqn:Elk; [discriminate (proj2 Hv ltac:(done))|done]).
    destruct (insert_head_spec t ch b u cmd OK Hb HL Hu) as (ret & t' & cmd' & -> & Hr).
    cbn [mbind exec_bind].
    destruct Hr as [(-> & ds & P & ->)|(Hr & -> & Hok & Hsh & Hct & Hwhy)].
    + cbn [Z.eqb negb]. eexists _, _, _, _, _. split; [reflexivity|]. left. split; [done|].
      exists ds. split_and!; [done..|]. destruct hdl; [|done]. f_equal.
      destruct P as (e' & hd & _ & _ & _ & _ & _ & Hs & _). unfold MakeEntryHdl.
      destruct Hs as (-> & _ & _ & _ & _ & _ & _ & ->). done.
    + rewrite (proj2 (Z.eqb_neq ret 0)) by done. cbn [negb].
      eexists _, _, _, _, _. split; [reflexivity|]. right. split_and!; auto.
Qed.
End Add.
