(* ===== verification/IpaTableDel.v ===== *)
(** Deletion from an IPA table: the iterator, the delete command, and what
    ipa_table_delete_entry does to the memory the hardware left. *)
From S2P Require Import Prelude.
From S2P Require Import Bits.
From S2P Require Import Chains.
From S2P Require Import IpaTable.
From S2P Require Import IpaDma.
From S2P Require Import IpaTableWf.
From S2P Require Import IpaTableAdd.

(** The iterator on record [c] of a chain l ++ c :: r. *)
Definition iter_at (l : list Z) (c : Z) (r : list Z) : ipa_table_iterator :=
  {| prev_index := lst 0 l;
     prev_entry := match l with [] => None | _ => Some (lst 0 l) end;
     curr_index := c; curr_entry := Some c;
     next_index := List.hd 0 r;
     next_entry := match r with [] => None | y :: _ => Some y end |}.

Section Del.
Context {U : Type} {EI : EntryInterface U} {EL : EntryLaws U} {HW : IpaHw} {HWS : IpaHwSpec}.
Context (bt et ti : Z).
Abbreviation table_geom := (table_geom bt et ti).
Abbreviation table_ok := (table_ok bt et ti).
Abbreviation one_at := (one_at bt et ti).

Lemma get_entry_by_index_ok t i :
  table_geom t -> 0 < i < tot t -> ipa_table_get_entry_by_index t i = Some i.
Proof.
  intros G Hi. unfold ipa_table_get_entry_by_index. rewrite (g_tot _ _ _ _ G).
  rewrite (proj2 (Z.eqb_neq i 0)) by lia. destruct (i >=? tot t) eqn:E; zb; [lia|done].
Qed.

(** Either neighbour of a chain's record, as the iterator finds it. *)
Lemma neighbours t ch b l c r :
  table_ok t ch -> ch b = l ++ c :: r ->
  (lst 0 l = 0 /\ l = [] \/ 0 < lst 0 l < tot t /\ l <> []) /\
  (r = [] \/ exists y r', r = y :: r' /\ 0 < y < tot t).
Proof.
  intros OK E. split.
  - destruct l as [|x l _] using rev_ind; [auto|]. right. rewrite last_snoc.
    rewrite <- app_assoc in E. destruct (chain_slot bt et ti t ch b l x (c :: r) OK E).
    split; [done|]. now destruct l.
  - destruct r as [|y r]; [auto|]. right. exists y, r. split; [done|].
    replace (l ++ c :: y :: r) with ((l ++ [c]) ++ y :: r) in E by now rewrite <- app_assoc.
    now destruct (chain_slot bt et ti t ch b _ y r OK E).
Qed.

Lemma iterator_init_ok t ch b l c r :
  table_ok t ch -> ch b = l ++ c :: r ->
  ipa_table_iterator_init t (Some c) c = Done (0, iter_at l c r).
Proof.
  intros OK E. destruct (chain_slot bt et ti t ch b l c r OK E) as [Hc HL].
  destruct (link_Some t c _ _ HL) as (e & Ee & Ev & Ep & En).
  destruct (neighbours t ch b l c r OK E) as [Hl Hr].
  pose proof (ok_geom _ _ _ _ _ OK) as G.
  unfold ipa_table_iterator_init, load_rec. cbn [mbind exec_bind deref]. rewrite Ee.
  cbn [mbind exec_bind deref]. rewrite Ev, Ep, En. cbn [mbind exec_bind negb].
  unfold VALID_INDEX, IPA_TABLE_INVALID_ENTRY, iter_at.
  destruct Hl as [[-> ->]|[Hl Hne]], Hr as [->|(y & r' & -> & Hy)];
    cbn [lst List.hd];
    rewrite ?Z.eqb_refl, ?(proj2 (Z.eqb_neq (lst 0 l) 0)), ?(proj2 (Z.eqb_neq y 0)) by lia;
    cbn [negb andb]; rewrite ?get_entry_by_index_ok by first [done | now unfold same_shape | lia]; cbn; try done;
    now destruct l.
Qed.

Lemma iterator_init_free t c e :
  zlookup (recs t) c = Some e -> entry_is_valid e = false ->
  ipa_table_iterator_init t (Some c) c = Done (- EINVAL, zero_iterator).
Proof.
  intros E Ev. unfold ipa_table_iterator_init, load_rec. cbn [mbind exec_bind deref]. rewrite E.
  cbn [mbind exec_bind deref]. now rewrite Ev.
Qed.

(** The commands of a deletion. *)
Definition delete_cmds (t : ipa_table) (l : list Z) (c : Z) (r : list Z) : list nat_dma_one :=
  match l, r with
  | [], [] => [one_at t lw_head c 0]
  | [], y :: _ =>
      [one_at t lw_del c
         (match zlookup (recs t) c, zlookup (recs t) y with
          | Some ec, Some ey => entry_get_delete_head_dma_command_data ec ey
          | _, _ => 0
          end)]
  | _, _ => [one_at t lw_next (lst 0 l) (List.hd 0 r)]
  end.

Lemma create_delete_command_ok t ch b l c r cmd :
  table_ok t ch -> ch b = l ++ c :: r ->
  ipa_table_create_delete_command t cmd (iter_at l c r) =
  Done (cmd_app cmd (delete_cmds t l c r)).
Proof.
  intros OK E. destruct (chain_slot bt et ti t ch b l c r OK E) as [Hc HL].
  destruct (neighbours t ch b l c r OK E) as [Hl Hr].
  pose proof (ok_geom _ _ _ _ _ OK) as G.
  destruct (slot_read bt et ti t c G) as [ec Ec]; [lia|].
  unfold ipa_table_create_delete_command, VALID_INDEX, IPA_TABLE_INVALID_ENTRY, load_rec.
  destruct Hl as [[Hl0 ->]|[Hl Hne]].
  - cbn [iter_at prev_index lst Z.eqb negb curr_entry curr_index next_index next_entry].
    destruct Hr as [->|(y & r' & -> & Hy)]; cbn [List.hd Z.eqb negb].
    + cbn [mbind exec_bind].
      rewrite (add_dma_cmd_ok bt et ti t HELP_UPDATE_HEAD c 0 cmd G) by lia. done.
    + rewrite (proj2 (Z.eqb_neq y 0)) by lia. cbn [negb mbind exec_bind deref].
      destruct (slot_read bt et ti t y G) as [ey Ey]; [lia|]. rewrite Ec, Ey.
      cbn [mbind exec_bind deref].
      rewrite (add_dma_cmd_ok bt et ti t HELP_DELETE_HEAD c _ cmd G) by lia.
      cbn. now rewrite Ec, Ey.
  - cbn [iter_at prev_index]. rewrite (proj2 (Z.eqb_neq (lst 0 l) 0)) by lia. cbn [negb].
    destruct l as [|h l]; [done|]. cbn [prev_entry iter_at next_index].
    rewrite (add_dma_cmd_ok bt et ti t HELP_UPDATE_ENTRY (lst 0 (h :: l)) _ cmd G) by lia. done.
Qed.

(** A write that keeps validity and links keeps the table well formed. *)
Lemma store_keep_ok t ch i e e' :
  table_ok t ch -> zlookup (recs t) i = Some e ->
  entry_is_valid e = true -> entry_is_valid e' = true ->
  entry_get_next_index e' = entry_get_next_index e ->
  (forall m b, entry_get_prev_index e' i m b = entry_get_prev_index e i m b) ->
  let t' := set_recs (zinsert i e' (recs t)) t in
  table_ok t' ch /\ (forall j, link t' j = link t j) /\
  (forall j, content t' j = upd (content t) i (Some (lw_view e')) j).
Proof.
  intros OK E Hv Hv' Hn Hp t'. pose proof (zlookup_lt _ _ _ E) as Hlen.
  assert (HL : forall j, link t' j = link t j).
  { intros j. unfold link, t'. cbn. rewrite links_of_insert by done. upd_cases; [|done].
    unfold rlink, links_of. rewrite E. unfold rlink. now rewrite Hv, Hv', Hp, Hn. }
  split; [|split; [done|]].
  - apply (table_ok_update bt et ti t ch _ ch (link t)); auto; try apply OK.
    + now unfold same_shape.
    + apply zlength_insert.
    + intros j x. unfold t'. cbn. rewrite zlookup_insert_cases by done.
      case_test; [congruence|]. apply OK.
  - intros j. rewrite (content_insert t t' i e') by done. unfold rview. now rewrite Hv'.
Qed.

(** A head with followers is only marked by its delete command. *)
Lemma delete_head_marked t ch b c y r ec ey :
  table_ok t ch -> ch b = c :: y :: r ->
  zlookup (recs t) c = Some ec -> zlookup (recs t) y = Some ey ->
  0 <= entry_get_delete_head_dma_command_data ec ey < 65536 ->
  let ec' := fset (half lw_del) (entry_get_delete_head_dma_command_data ec ey) ec in
  dma_apply (delete_cmds t [] c (y :: r)) t = set_recs (zinsert c ec' (recs t)) t /\
  table_ok (dma_apply (delete_cmds t [] c (y :: r)) t) ch /\
  forall j, content (dma_apply (delete_cmds t [] c (y :: r)) t) j =
            upd (content t) c (Some (lw_view ec')) j.
Proof.
  intros OK E Ec Ey Hd ec'. pose proof (ok_geom _ _ _ _ _ OK) as G.
  destruct (chain_slot bt et ti t ch b [] c (y :: r) OK E) as [Hc HLc].
  destruct (chain_slot bt et ti t ch b [c] y r OK E) as [Hy HLy].
  destruct (link_Some t c _ _ HLc) as (x & Ex & Evc & _). rewrite Ec in Ex. injection Ex as <-.
  destruct (link_Some t y _ _ HLy) as (x & Ex & Evy & _). rewrite Ey in Ex. injection Ex as <-.
  assert (Hap : dma_apply (delete_cmds t [] c (y :: r)) t =
                set_recs (zinsert c ec' (recs t)) t).
  { cbn [delete_cmds]. rewrite Ec, Ey. change lw_del with (off_of HELP_DELETE_HEAD).
    now rewrite (dma_one_ok bt et ti t t HELP_DELETE_HEAD c _ [] ec) by first [done | now unfold same_shape | lia]. }
  rewrite Hap. split; [done|].
  destruct (store_keep_ok t ch c ec ec' OK Ec Evc) as (Hok & _ & Hct); auto.
  - now apply lw_del_valid.
  - apply lw_del_next.
  - intros. apply lw_del_prev.
Qed.

(** ** ipa_table_delete_entry, after the commands of the deletion *)

(** Erasing one record: memory and counts. *)
Lemma erase_ok t i :
  0 <= i < zlength (recs t) ->
  exists t', ipa_table_erase_entry t i = Done t' /\ same_shape t t' /\
    recs t' = zinsert i 0 (recs t) /\ meta t' = meta t /\
    cur_tbl_cnt t' = (if i <? table_entries t then u16 (cur_tbl_cnt t - 1) else cur_tbl_cnt t) /\
    cur_expn_tbl_cnt t' =
      (if i <? table_entries t then cur_expn_tbl_cnt t else u16 (cur_expn_tbl_cnt t - 1)).
Proof.
  intros Hi. unfold ipa_table_erase_entry, store_rec, GOTO_REC. cbn [mbind exec_bind deref].
  rewrite zstore_ok by done. cbn [mbind exec_bind]. eexists. split; [reflexivity|].
  destruct (i <? table_entries t); now unfold same_shape.
Qed.

(** What the commands leave when the predecessor [x] of [c] skips it. *)
Lemma delete_cmd_skip t ch b l x c r :
  table_ok t ch -> ch b = l ++ x :: c :: r ->
  exists ex, zlookup (recs t) x = Some ex /\ entry_is_valid ex = true /\
    entry_get_prev_index ex x (meta t) (table_entries t) = Done (lst 0 l) /\
    0 <= List.hd 0 r < 65536 /\
    dma_apply (delete_cmds t (l ++ [x]) c r) t =
    set_recs (zinsert x (fset (half lw_next) (List.hd 0 r) ex) (recs t)) t.
Proof.
  intros OK E. pose proof (ok_geom _ _ _ _ _ OK) as G. pose proof (g_max _ _ _ _ G).
  destruct (chain_slot bt et ti t ch b l x (c :: r) OK E) as [Hx HLx].
  assert (Ec : ch b = (l ++ [x]) ++ c :: r) by (rewrite E; now rewrite <- app_assoc).
  destruct (link_Some t x _ _ HLx) as (ex & Ex & Evx & Epx & _). exists ex.
  assert (Hnx : 0 <= List.hd 0 r < 65536).
  { destruct (neighbours t ch b (l ++ [x]) c r OK Ec) as [_ [->|(y & r' & -> & Hy)]];
      cbn; lia. }
  split_and!; [done..|lia|lia|].
  assert (Hcmd : delete_cmds t (l ++ [x]) c r = [one_at t lw_next x (List.hd 0 r)]).
  { unfold delete_cmds. rewrite last_snoc. destruct l; destruct r; reflexivity. }
  rewrite Hcmd. change lw_next with (off_of HELP_UPDATE_ENTRY).
  rewrite (dma_one_ok bt et ti t t HELP_UPDATE_ENTRY x _ [] ex)
    by first [done | now unfold same_shape | lia]. done.
Qed.

(** The predecessor's record [ex'] once the command is executed. *)
Lemma delete_skip t ch b l x c r :
  table_ok t ch -> ch b = l ++ x :: c :: r ->
  exists ex', dma_apply (delete_cmds t (l ++ [x]) c r) t = set_recs (zinsert x ex' (recs t)) t /\
    0 <= x < zlength (recs t) /\ entry_is_valid ex' = true /\
    (forall i e, zlookup (zinsert x ex' (recs t)) i = Some e -> entry_is_valid e = false -> lw_free e) /\
    (forall i, match zlookup (zinsert x ex' (recs t)) i with
               | Some e => rview e | None => None end = content t i) /\
    (forall m, (forall j y, j <> List.hd 0 r -> entry_get_prev_index y j m (table_entries t) =
                  entry_get_prev_index y j (meta t) (table_entries t)) -> x <> List.hd 0 r ->
       rlink m (table_entries t) x ex' = Some (lst 0 l, List.hd 0 r)).
Proof.
  intros OK E. destruct (delete_cmd_skip t ch b l x c r OK E) as (ex & Ex & Evx & Epx & Hnx & Ht1).
  pose proof (zlookup_lt _ _ _ Ex) as Hxl.
  exists (fset (half lw_next) (List.hd 0 r) ex). set (ex' := fset _ _ ex) in *.
  assert (Hv' : entry_is_valid ex' = true) by (unfold ex'; now rewrite lw_next_valid).
  split_and!; try done; try lia.
  - apply store_used_free; [apply OK|done].
  - intros i. rewrite zlookup_insert_cases by done. case_test; [subst i|done].
    unfold content, rview. rewrite Ex, Hv', Evx. unfold ex'. now rewrite lw_next_view.
  - intros m Hm Hne. rewrite (rlink_filled _ _ _ _ (lst 0 l)); [|done|].
    + unfold ex'. now rewrite lw_next_next.
    + unfold ex'. rewrite lw_next_prev, Hm by done. done.
Qed.

Lemma rlink_zero m n i : rlink m n i 0 = None.
Proof. unfold rlink. now rewrite (lw_free_valid 0 lw_free_0). Qed.

(** The part of the deletion before the record [c] is erased, from the table
    [t1] the commands left: its links are gone once it is. *)
Definition relinked (t t1 : ipa_table) (l : list Z) (x c : Z) (r : list Z) (pe : bool) : Prop :=
  exists m' rs,
    ipa_table_delete_entry t1 (iter_at (l ++ [x]) c r) pe =
      ipa_table_erase_entry (set_recs rs (set_meta m' t)) c /\
    zlength rs = zlength (recs t) /\ lw_meta m' (expn_table_entries t) /\
    (forall i, links_of m' (table_entries t) (zinsert c 0 rs) i = unlink (link t) (lst 0 l) x c r i) /\
    (forall i e, zlookup rs i = Some e -> entry_is_valid e = false -> lw_free e) /\
    (forall i, match zlookup rs i with Some e => rview e | None => None end = content t i) /\
    (forall i, i <> x -> i ∉ r -> zlookup rs i = zlookup (recs t) i).

(** The last of its chain. *)
Lemma relink_last t ch b l x c pe :
  table_ok t ch -> ch b = l ++ [x; c] -> pe = false ->
  relinked t (dma_apply (delete_cmds t (l ++ [x]) c []) t) l x c [] pe.
Proof.
  intros OK E ->. pose proof (ok_geom _ _ _ _ _ OK) as G. pose proof (g_len _ _ _ _ G) as Hlen.
  destruct (delete_skip t ch b l x c [] OK E) as (ex' & -> & Hxl & Hv' & Hfr & Hct & Hrx).
  destruct (chain_slot bt et ti t ch b (l ++ [x]) c []) as [Hc _];
    [done|rewrite E; now rewrite <- app_assoc|].
  destruct (chain_slot bt et ti t ch b l x _ OK E) as [Hx _].
  cbn [List.hd] in *. exists (meta t), (zinsert x ex' (recs t)). split.
  { unfold ipa_table_delete_entry. cbn [iter_at next_index List.hd Z.eqb VALID_INDEX
      IPA_TABLE_INVALID_ENTRY negb]. now destruct t. }
  split_and!; [apply zlength_insert|apply G| |done..|intros; now apply zlookup_insert_ne].
  intros i. rewrite links_of_insert, rlink_zero by (rewrite zlength_insert; lia). cbn [unlink].
  rewrite upd_cong with (g := upd (link t) x (Some (lst 0 l, 0))); [done|].
  intros j. now rewrite links_of_insert, Hrx by (auto; lia).
Qed.

(** With a successor [y], which gets its new predecessor. *)
Lemma relink_next t ch b l x c y r pe :
  table_ok t ch -> ch b = l ++ x :: c :: y :: r ->
  relinked t (dma_apply (delete_cmds t (l ++ [x]) c (y :: r)) t) l x c (y :: r) pe.
Proof.
  intros OK E. pose proof (ok_geom _ _ _ _ _ OK) as G. pose proof (g_len _ _ _ _ G) as Hlen.
  pose proof (g_base _ _ _ _ G). pose proof (g_expn _ _ _ _ G). pose proof (g_max _ _ _ _ G).
  destruct (delete_skip t ch b l x c (y :: r) OK E) as (ex' & -> & Hxl & Hv' & Hfr & Hct & Hrx).
  destruct (chain_slot bt et ti t ch b (l ++ [x]) c (y :: r)) as [Hc _];
    [done|rewrite E; now rewrite <- app_assoc|].
  destruct (chain_slot bt et ti t ch b l x _ OK E) as [Hx _].
  assert (Ey : ch b = (l ++ [x; c]) ++ y :: r) by (rewrite E; now rewrite <- app_assoc).
  destruct (chain_slot bt et ti t ch b _ y r OK Ey) as [Hy HLy].
  destruct (link_Some t y _ _ HLy) as (ey & Eey & Evy & Epy & Eny).
  assert (Hxy : x <> y).
  { pose proof (ck_nodup _ _ _ _ (ok_chains _ _ _ _ _ OK) b) as Hnd. rewrite E in Hnd.
    apply NoDup_app in Hnd as (_ & _ & Hnd). apply NoDup_cons in Hnd as [Hxc _].
    intros ->. apply Hxc. right; left. }
  assert (Hye : table_entries t <= y < tot t)
    by (apply (ck_expn (ok_chains _ _ _ _ _ OK) b _ y r Ey); now destruct l).
  unfold relinked, ipa_table_delete_entry, VALID_INDEX, IPA_TABLE_INVALID_ENTRY.
  cbn [iter_at next_index List.hd next_entry prev_index] in *.
  rewrite (proj2 (Z.eqb_neq y 0)) by lia. cbn [negb].
  unfold load_rec at 1. cbn [mbind exec_bind deref recs set_recs].
  rewrite zlookup_insert_ne, Eey by done. cbn [mbind exec_bind deref]. rewrite last_snoc.
  destruct (lw_set_prev ey y x (meta t) (table_entries t) (expn_table_entries t))
    as (ey' & m' & Hsp & Hm' & Hms & Hpr & Hv2 & Hn2 & Hw2 & Hoth);
    [apply G|unfold tot in Hye; lia|lia|].
  cbn [meta set_recs table_entries]. rewrite Hsp. cbn [mbind exec_bind fst snd].
  unfold store_rec at 1. cbn [mbind exec_bind deref recs set_recs set_meta].
  assert (Hyl : 0 <= y < zlength (zinsert x ex' (recs t))) by (rewrite zlength_insert; lia).
  rewrite zstore_ok by done. cbn [mbind exec_bind curr_index].
  exists m', (zinsert y ey' (zinsert x ex' (recs t))). split; [done|].
  split_and!; [now rewrite !zlength_insert|done|..].
  - intros i. rewrite links_of_insert, rlink_zero by (rewrite !zlength_insert; lia). cbn [unlink].
    apply upd_cong. intros j. rewrite links_of_insert by done.
    rewrite (rlink_filled _ _ _ _ x) by (auto; congruence). rewrite Hn2, Eny.
    destruct (Z.eq_dec j y) as [->|Hjy]; [now rewrite !upd_eq|]. rewrite !(upd_ne _ y) by done.
    rewrite links_of_insert, Hrx by (auto; lia).
    destruct (Z.eq_dec j x) as [->|Hjx]; [now rewrite !upd_eq|]. rewrite !(upd_ne _ x) by done.
    now apply links_of_meta with y.
  - apply (store_used_free (set_recs (zinsert x ex' (recs t)) t)); [done|congruence].
  - intros i. rewrite zlookup_insert_cases by done. case_test; [subst i|done].
    unfold content, rview. now rewrite Eey, Evy, Hv2, Evy, Hw2.
  - intros i Hix Hir. apply not_elem_of_cons in Hir as [Hiy _].
    now rewrite !zlookup_insert_ne.
Qed.

Lemma delete_relink t ch b l x c r pe :
  table_ok t ch -> ch b = l ++ x :: c :: r -> (pe = true -> r <> []) ->
  relinked t (dma_apply (delete_cmds t (l ++ [x]) c r) t) l x c r pe.
Proof.
  intros OK E Hpe. destruct r as [|y r]; [|now apply relink_next with ch b].
  apply relink_last with ch b; [done|done|]. destruct pe; [now destruct Hpe|done].
Qed.

(** Counting when occupied slot [c] becomes free. *)
Lemma occ_free (L : links) c lo n cnt :
  cnt = occ L lo n -> cnt <= 65535 -> L c <> None ->
  occ (upd L c None) lo n = if (lo <=? c) && (c <? lo + Z.of_nat n) then u16 (cnt - 1) else cnt.
Proof.
  intros -> Hb HL. pose proof (occ_bounds (upd L c None) lo n).
  destruct (_ && _) eqn:E.
  - zb. rewrite occ_upd_in in * by lia. destruct (L c); [|done]. cbn [occupied] in *.
    rewrite u16_small; lia.
  - apply andb_false_iff in E. apply occ_upd_out. destruct E; zb; lia.
Qed.

Lemma delete_linked t ch b l x c r pe :
  table_ok t ch -> ch b = l ++ x :: c :: r -> (pe = true -> r <> []) ->
  exists t2,
    ipa_table_delete_entry (dma_apply (delete_cmds t (l ++ [x]) c r) t) (iter_at (l ++ [x]) c r) pe
      = Done t2 /\
    table_ok t2 (upd ch b (l ++ x :: r)) /\ same_shape t t2 /\
    (forall i, content t2 i = upd (content t) c None i) /\
    (forall i, i <> x -> i <> c -> i ∉ r -> zlookup (recs t2) i = zlookup (recs t) i).
Proof.
  intros OK E Hpe. pose proof (ok_geom _ _ _ _ _ OK) as G. pose proof (g_max _ _ _ _ G).
  pose proof (g_base _ _ _ _ G). pose proof (g_len _ _ _ _ G) as Hlen.
  destruct (delete_relink t ch b l x c r pe OK E Hpe)
    as (m' & rs & -> & Hrl & Hm' & HL2 & Hfree & Hview & Hsame).
  assert (Ec : ch b = (l ++ [x]) ++ c :: r) by (rewrite E; now rewrite <- app_assoc).
  destruct (chain_slot bt et ti t ch b (l ++ [x]) c r OK Ec) as [Hc HLc].
  assert (Hce : table_entries t <= c < tot t)
    by (apply (ck_expn (ok_chains _ _ _ _ _ OK) b (l ++ [x]) c r Ec); now destruct l).
  destruct (erase_ok (set_recs rs (set_meta m' t)) c) as (t2 & -> & Hs & Hr & Hmt & Hcn & Hcx);
    [cbn; lia|].
  cbn [recs set_recs meta set_meta table_entries cur_tbl_cnt cur_expn_tbl_cnt] in *.
  rewrite (proj2 (Z.ltb_ge c _)) in Hcn, Hcx by lia.
  exists t2. split_and!; [done| |done|..].
  - pose proof (cnt_bounds bt et ti _ _ OK). unfold tot in *.
    apply (table_ok_update bt et ti t ch _ _ (unlink (link t) (lst 0 l) x c r)); auto.
    + rewrite Hr, zlength_insert. lia.
    + now rewrite Hmt.
    + intros i. unfold link at 1. rewrite Hr, Hmt, (proj1 Hs). apply HL2.
    + apply chains_unlink; [unfold tot; lia|apply OK|done].
    + intros i e. rewrite Hr. rewrite zlookup_insert_cases by lia. case_test; [|apply Hfree].
      intros [= <-] _. apply lw_free_0.
    + rewrite (occ_unlink _ _ _ _ b l x c r _ _ (ok_chains _ _ _ _ _ OK) E), Hcn.
      rewrite (occ_free _ c _ _ _ (ok_cnt _ _ _ _ _ OK)) by (lia || congruence).
      rewrite (proj2 (Z.ltb_ge c _)) by lia. now rewrite andb_false_r.
    + rewrite (occ_unlink _ _ _ _ b l x c r _ _ (ok_chains _ _ _ _ _ OK) E), Hcx.
      rewrite (occ_free _ c _ _ _ (ok_ecnt _ _ _ _ _ OK)) by (lia || congruence).
      rewrite (proj2 (Z.leb_le _ c)), (proj2 (Z.ltb_lt c _)) by lia. done.
  - intros i. unfold content at 1. rewrite Hr, zlookup_insert_cases by lia.
    unfold upd. rewrite (Z.eqb_sym i c). case_test; [|apply Hview].
    unfold rview. now rewrite (lw_free_valid 0 lw_free_0).
  - intros i Hix Hic Hir. rewrite Hr, zlookup_insert_ne by done. now apply Hsame.
Qed.

(** A chain of one record: the bucket becomes empty. *)
Lemma delete_alone t ch b pe :
  table_ok t ch -> ch b = [b] ->
  exists t2,
    ipa_table_delete_entry (dma_apply (delete_cmds t [] b []) t) (iter_at [] b []) pe = Done t2 /\
    table_ok t2 (upd ch b []) /\ same_shape t t2 /\
    (forall i, content t2 i = upd (content t) b None i) /\
    (forall i, i <> b -> zlookup (recs t2) i = zlookup (recs t) i).
Proof.
  intros OK E. pose proof (ok_geom _ _ _ _ _ OK) as G. pose proof (g_max _ _ _ _ G).
  pose proof (g_base _ _ _ _ G). pose proof (g_expn _ _ _ _ G).
  pose proof (g_len _ _ _ _ G) as Hlen. pose proof (cnt_bounds bt et ti _ _ OK).
  destruct (chain_slot bt et ti t ch b [] b [] OK E) as [Hb HL].
  assert (Hbt : 0 < b < table_entries t)
    by (apply (ck_bucket (ok_chains _ _ _ _ _ OK) b b); rewrite E; left).
  destruct (slot_read bt et ti t b G) as [e Ee]; [lia|].
  cbn [delete_cmds]. change lw_head with (off_of HELP_UPDATE_HEAD).
  rewrite (dma_one_ok bt et ti t t HELP_UPDATE_HEAD b 0 [] e)
    by first [done | now unfold same_shape | lia].
  unfold dma_apply, ipa_table_delete_entry, iter_at. cbn [foldl off_of next_index prev_entry curr_index List.hd].
  cbn [VALID_INDEX IPA_TABLE_INVALID_ENTRY Z.eqb negb].
  set (t1 := set_recs _ t).
  replace (if pe then Done t1 else Done t1) with (Done t1) by now destruct pe.
  cbn [mbind exec_bind].
  destruct (erase_ok t1 b) as (t2 & -> & Hs & Hr & Hmt & Hcn & Hcx);
    [cbn; rewrite zlength_insert; lia|].
  unfold t1 in *. cbn [recs set_recs meta table_entries cur_tbl_cnt cur_expn_tbl_cnt] in *.
  rewrite zinsert_insert in Hr. rewrite (proj2 (Z.ltb_lt b _)) in Hcn, Hcx by lia.
  exists t2. unfold tot in *. split_and!; [done| |done|..].
  - apply (table_ok_update bt et ti t ch _ _ (upd (link t) b None)); auto.
    + rewrite Hr. apply zlength_insert.
    + rewrite Hmt. apply G.
    + intros i. unfold link at 1. rewrite Hr, Hmt, (proj1 Hs), links_of_insert by lia.
      unfold rlink. now rewrite (lw_free_valid 0 lw_free_0).
    + apply chains_del_alone; [unfold tot; lia|apply OK|done].
    + intros i x. rewrite Hr, zlookup_insert_cases by lia. case_test; [|apply OK].
      intros [= <-] _. apply lw_free_0.
    + rewrite Hcn, (occ_free _ b _ _ _ (ok_cnt _ _ _ _ _ OK)) by (lia || congruence).
      rewrite (proj2 (Z.leb_le _ b)), (proj2 (Z.ltb_lt b _)) by lia. done.
    + rewrite Hcx, (occ_free _ b _ _ _ (ok_ecnt _ _ _ _ _ OK)) by (lia || congruence).
      rewrite (proj2 (Z.leb_gt _ b)) by lia. done.
  - intros i. rewrite (content_insert t t2 b 0) by (auto; lia).
    unfold rview. now rewrite (lw_free_valid 0 lw_free_0).
  - intros i Hi. rewrite Hr. now apply zlookup_insert_ne.
Qed.

(** A head [b] and its only follower [c] zeroed: the chain is empty. *)
Lemma pair_freed t t2 ch b c :
  table_ok t ch -> ch b = [b; c] -> same_shape t t2 ->
  recs t2 = zinsert c 0 (zinsert b 0 (recs t)) -> meta t2 = meta t ->
  cur_tbl_cnt t2 = u16 (cur_tbl_cnt t - 1) -> cur_expn_tbl_cnt t2 = u16 (cur_expn_tbl_cnt t - 1) ->
  table_ok t2 (upd ch b []) /\ (forall i, content t2 i = upd (upd (content t) b None) c None i) /\
  forall i, i <> b -> i <> c -> zlookup (recs t2) i = zlookup (recs t) i.
Proof.
  intros OK E Hs Hr Hmt Hcn Hcx. pose proof (ok_geom _ _ _ _ _ OK) as G.
  pose proof (g_len _ _ _ _ G) as Hlen. pose proof (cnt_bounds bt et ti _ _ OK).
  pose proof (g_base _ _ _ _ G). pose proof (g_expn _ _ _ _ G). pose proof (g_max _ _ _ _ G).
  destruct (chain_slot bt et ti t ch b [] b [c] OK E) as [Hb HLb].
  destruct (chain_slot bt et ti t ch b [b] c [] OK E) as [Hc HLc].
  assert (Hbt : 0 < b < table_entries t)
    by (apply (ck_bucket (ok_chains _ _ _ _ _ OK) b b); rewrite E; left).
  assert (Hce : table_entries t <= c < tot t)
    by (now apply (ck_expn (ok_chains _ _ _ _ _ OK) b [b] c [] E)).
  unfold tot in *. split_and!.
  - apply (table_ok_update bt et ti t ch _ _ (upd (upd (link t) b None) c None)); auto.
    + rewrite Hr. now rewrite !zlength_insert.
    + rewrite Hmt. apply G.
    + intros i. unfold link at 1. rewrite Hr, Hmt, (proj1 Hs).
      rewrite links_of_insert, rlink_zero by (rewrite zlength_insert; lia). apply upd_cong. intros j.
      rewrite links_of_insert by lia. now rewrite rlink_zero.
    + apply chains_del_pair; [unfold tot; lia|apply OK|done].
    + intros i x. rewrite Hr, zlookup_insert_cases by (rewrite zlength_insert; lia).
      case_test; [intros [= <-] _; apply lw_free_0|].
      rewrite zlookup_insert_cases by lia. case_test; [|apply OK].
      intros [= <-] _. apply lw_free_0.
    + rewrite Hcn, occ_upd_out by lia.
      rewrite (occ_free _ b _ _ _ (ok_cnt _ _ _ _ _ OK)) by (lia || congruence).
      rewrite (proj2 (Z.leb_le _ b)), (proj2 (Z.ltb_lt b _)) by lia. done.
    + rewrite Hcx, (occ_free _ c _ _ (cur_expn_tbl_cnt t)) by
        (rewrite ?occ_upd_out, ?upd_ne by lia; first [apply OK | lia | congruence]).
      rewrite (proj2 (Z.leb_le _ c)), (proj2 (Z.ltb_lt c _)) by lia. done.
  - intros i. rewrite (content_insert (set_recs (zinsert b 0 (recs t)) t) t2 c 0)
      by (rewrite ?zlength_insert; auto; cbn; rewrite ?zlength_insert; lia).
    unfold rview. rewrite (lw_free_valid 0 lw_free_0). apply upd_cong. intros j.
    rewrite (content_insert t _ b 0) by (auto; lia).
    unfold rview. now rewrite (lw_free_valid 0 lw_free_0).
  - intros i Hi Hi'. rewrite Hr, !zlookup_insert_ne by done. done.
Qed.

(** The last follower of a head that was marked dead: both are freed. *)
Lemma delete_pair t ch b c :
  table_ok t ch -> ch b = [b; c] ->
  exists t2,
    ipa_table_delete_entry (dma_apply (delete_cmds t [b] c []) t) (iter_at [b] c []) true = Done t2 /\
    table_ok t2 (upd ch b []) /\ same_shape t t2 /\
    (forall i, content t2 i = upd (upd (content t) b None) c None i) /\
    (forall i, i <> b -> i <> c -> zlookup (recs t2) i = zlookup (recs t) i).
Proof.
  intros OK E. pose proof (ok_geom _ _ _ _ _ OK) as G. pose proof (g_len _ _ _ _ G) as Hlen.
  destruct (chain_slot bt et ti t ch b [] b [c] OK E) as [Hb HLb].
  destruct (chain_slot bt et ti t ch b [b] c [] OK E) as [Hc HLc].
  assert (Hce : table_entries t <= c < tot t)
    by (now apply (ck_expn (ok_chains _ _ _ _ _ OK) b [b] c [] E)).
  destruct (delete_skip t ch b [] b c [] OK E) as (eb & Ht1 & _).
  cbn [app] in Ht1. rewrite Ht1. cbn [List.hd].
  unfold ipa_table_delete_entry, iter_at. cbn [next_index prev_entry curr_index List.hd lst].
  cbn [VALID_INDEX IPA_TABLE_INVALID_ENTRY Z.eqb negb].
  unfold store_rec at 1. cbn [mbind exec_bind deref recs set_recs].
  rewrite zstore_ok by (rewrite zlength_insert; lia). cbn [mbind exec_bind].
  rewrite zinsert_insert. set (t1 := set_cnts _ _ _).
  destruct (erase_ok t1 c) as (t2 & -> & Hs & Hr & Hmt & Hcn & Hcx);
    [cbn; rewrite zlength_insert; lia|].
  unfold t1 in *. cbn [recs set_recs set_cnts meta table_entries cur_tbl_cnt cur_expn_tbl_cnt] in *.
  rewrite (proj2 (Z.ltb_ge c _)) in Hcn, Hcx by lia.
  destruct (pair_freed t t2 ch b c OK E Hs Hr Hmt Hcn Hcx) as (OK2 & Hct & Ho). now exists t2.
Qed.

(** A head with followers whose second record's data were copied into it
    (the index table): the second record is taken out instead. *)
Lemma delete_head_shift t ch b c y r ec ey :
  table_ok t ch -> ch b = c :: y :: r ->
  zlookup (recs t) c = Some ec -> zlookup (recs t) y = Some ey ->
  0 <= entry_get_delete_head_dma_command_data ec ey < 65536 ->
  let ec' := fset (half lw_del) (entry_get_delete_head_dma_command_data ec ey) ec in
  exists t2,
    ipa_table_delete_entry
      (dma_apply (delete_cmds t [] c (y :: r) ++ delete_cmds t [c] y r) t) (iter_at [c] y r) false
      = Done t2 /\
    table_ok t2 (upd ch b (c :: r)) /\ same_shape t t2 /\
    (forall i, content t2 i = upd (upd (content t) c (Some (lw_view ec'))) y None i).
Proof.
  intros OK E Ec Ey Hd ec'.
  destruct (delete_head_marked t ch b c y r ec ey OK E Ec Ey Hd) as (Hap & OK1 & Hct1).
  fold ec' in Hap, Hct1. rewrite Hap in OK1, Hct1.
  set (t1 := set_recs (zinsert c ec' (recs t)) t) in *.
  destruct (delete_linked t1 ch b [] c y r false OK1 E) as (t2 & Hdel & OK2 & Hs2 & Hct2 & _);
    [done|].
  exists t2. unfold dma_apply. rewrite foldl_app. fold (dma_apply (delete_cmds t [] c (y :: r)) t).
  rewrite Hap. split_and!; [exact Hdel|exact OK2|exact Hs2|].
  intros i. rewrite Hct2. now apply upd_cong.
Qed.
End Del.
