(* ===== verification/IpaTableMark.v ===== *)
(** Deletion as the IPA clients do it: a head that has followers stays in its
    bucket as a record marked dead, and goes when its last follower does.
    [marked_ok] is the invariant of such a table, [live] what it holds, and
    [mark_delete] what deleting a record does once the commands have run. *)
From S2P Require Import Prelude.
From S2P Require Import Bits.
From S2P Require Import Chains.
From S2P Require Import IpaTable.
From S2P Require Import IpaDma.
From S2P Require Import IpaTableWf.
From S2P Require Import IpaTableAdd.
From S2P Require Import IpaTableDel.

(** ** What the client promises: dead records are told by their view, and the
    delete command makes any record dead. *)
Class DeadLaws (U : Type) {EI : EntryInterface U} {EL : EntryLaws U} := {
  lw_dead : lw_V -> bool;
  lw_mark_range c n : 0 <= entry_get_delete_head_dma_command_data c n < 65536;
  lw_mark_dead c n e :
    lw_dead (lw_view (fset (half lw_del) (entry_get_delete_head_dma_command_data c n) e)) = true }.

(** ** Command lists *)

(** The counter of a list of at most 255 commands is its length. *)
Lemma cmd_app_entries cmd ds :
  0 <= entries cmd -> entries cmd + zlength ds < 256 ->
  entries (cmd_app cmd ds) = entries cmd + zlength ds.
Proof.
  unfold cmd_app, zlength. cbn [entries]. generalize (entries cmd). clear cmd.
  induction ds as [|d ds IH]; intros n Hn Hl; cbn [foldl length] in *; [lia|].
  unfold u8 at 2. rewrite Z.mod_small by lia. rewrite IH; lia.
Qed.

(** Commands for other tables leave a table alone. *)
Lemma dma_other {HW : IpaHw} {HWS : IpaHwSpec} ds t :
  Forall (fun d => dma_part t (base_addr d) = None) ds -> dma_apply ds t = t.
Proof.
  unfold dma_apply. induction 1 as [|d ds Hd _ IH]; [done|]. cbn [foldl].
  rewrite hw_table_dma_doc. unfold table_dma_write. now rewrite Hd.
Qed.

Lemma dma_apply_app {HW : IpaHw} ds1 ds2 t :
  dma_apply (ds1 ++ ds2) t = dma_apply ds2 (dma_apply ds1 t).
Proof. unfold dma_apply. apply foldl_app. Qed.

(** ** Executing commands keeps a table's shape *)
Lemma dma_apply_shape {HW : IpaHw} {HWS : IpaHwSpec} ds t :
  same_shape t (dma_apply ds t) /\ meta (dma_apply ds t) = meta t.
Proof.
  unfold dma_apply. revert t. induction ds as [|d ds IH]; intros t; cbn [foldl];
    [now unfold same_shape|].
  assert (H : same_shape t (hw_table_dma d t) /\ meta (hw_table_dma d t) = meta t).
  { rewrite hw_table_dma_doc. unfold table_dma_write.
    destruct (dma_part t (base_addr d)); [|now unfold same_shape].
    destruct (zlookup _ _); now unfold same_shape. }
  destruct (IH (hw_table_dma d t)) as [IH1 IH2]. destruct H as [H1 H2].
  split; [|congruence]. unfold same_shape in *. intuition congruence.
Qed.

Section Mark.
Context {U : Type} {EI : EntryInterface U} {EL : EntryLaws U} {DL : DeadLaws U}.
Context {HW : IpaHw} {HWS : IpaHwSpec}.
Context (bt et ti : Z).
Abbreviation table_ok := (table_ok bt et ti).

Definition live (t : ipa_table) (i : Z) : option lw_V :=
  match content t i with
  | Some v => if lw_dead v then None else Some v
  | None => None
  end.

Record marked_ok (t : ipa_table) (ch : chain_map) : Prop := {
  mk_tbl : table_ok t ch;
  mk_dead : forall i v, content t i = Some v -> lw_dead v = true ->
    exists c r, ch i = i :: c :: r }.

(** The protocol test of the predecessor. *)
Definition prev_dead (t : ipa_table) (it : ipa_table_iterator) : exec bool :=
  match prev_entry it with
  | None => Done false
  | Some _ => e ← load_rec t (prev_entry it); Done (lw_dead (lw_view e))
  end.

(** ** Live records *)
Lemma live_removed t t' i :
  (forall j, content t' j = upd (content t) i None j) ->
  forall j, live t' j = upd (live t) i None j.
Proof. intros H j. unfold live at 1. rewrite H. now upd_cases. Qed.

Lemma live_marked t t' i v :
  (forall j, content t' j = upd (content t) i (Some v) j) -> lw_dead v = true ->
  forall j, live t' j = upd (live t) i None j.
Proof. intros H Hv j. unfold live at 1. rewrite H. upd_cases; [now rewrite Hv|done]. Qed.

Lemma live_set t t' i v :
  (forall j, content t' j = upd (content t) i (Some v) j) -> lw_dead v = false ->
  forall j, live t' j = upd (live t) i (Some v) j.
Proof. intros H Hv j. unfold live at 1. rewrite H. upd_cases; [now rewrite Hv|done]. Qed.

Lemma live_same t t' : (forall j, content t' j = content t j) -> forall j, live t' j = live t j.
Proof. intros H j. unfold live. now rewrite H. Qed.

Lemma live_Some t i v : live t i = Some v <-> content t i = Some v /\ lw_dead v = false.
Proof.
  unfold live. destruct (content t i) as [w|]; [|split; [done|now intros [H _]]].
  destruct (lw_dead w) eqn:E.
  - split; [done|]. intros [[= ->] H]. congruence.
  - split; [intros [= ->]; done|]. now intros [[= ->] _].
Qed.

Lemma live_dead t i v : content t i = Some v -> lw_dead v = true -> live t i = None.
Proof. unfold live. intros -> ->. done. Qed.

(** ** Insertion *)
Lemma marked_commit t ch w b idx t' ds :
  marked_ok t ch -> lw_dead w = false -> pending bt et ti t ch w b idx t' ds ->
  marked_ok (dma_apply ds t') (upd ch b (ch b ++ [idx])) /\
  forall i, content (dma_apply ds t') i = upd (content t) idx (Some w) i.
Proof.
  intros [T D] Hw P. destruct (pending_commit _ _ _ _ _ _ _ _ _ _ T P) as [T' Hc].
  split; [|exact Hc]. split; [exact T'|]. intros j v Hj Hd. rewrite Hc in Hj.
  destruct (Z.eq_dec j idx) as [->|Hji]; [rewrite upd_eq in Hj; congruence|].
  rewrite upd_ne in Hj by done. destruct (D j v Hj Hd) as (c & r & E).
  exists c. destruct (Z.eq_dec j b) as [->|Hjb].
  - rewrite upd_eq, E. now exists (r ++ [idx]).
  - rewrite upd_ne by done. now exists r.
Qed.

Lemma marked_same t t' ch :
  marked_ok t ch -> table_ok t' ch -> (forall j, content t' j = content t j) -> marked_ok t' ch.
Proof. intros [T D] T' Hc. split; [exact T'|]. intros j v. rewrite Hc. apply D. Qed.

(** ** Deletion *)

(** The test on the predecessor, after the commands. *)
Lemma prev_empty_ok t ch b l x i r :
  table_ok t ch -> ch b = l ++ x :: i :: r ->
  exists v, content t x = Some v /\
    prev_dead (dma_apply (delete_cmds bt et ti t
                                (l ++ [x]) i r) t) (iter_at (l ++ [x]) i r) = Done (lw_dead v).
Proof.
  intros T E.
  destruct (delete_cmd_skip _ _ _ t ch b l x i r T E) as (ex & Ex & Evx & _ & _ & ->).
  exists (lw_view ex). split; [unfold content, rview; rewrite Ex, Evx; done|].
  unfold prev_dead. replace (prev_entry (iter_at (l ++ [x]) i r)) with (Some x);
    [|unfold iter_at; cbn; rewrite last_snoc; now destruct l].
  unfold load_rec. cbn [mbind exec_bind deref recs set_recs].
  rewrite zlookup_insert_eq by (eapply zlookup_lt; eauto). cbn [mbind exec_bind deref].
  now rewrite lw_next_view.
Qed.

(** Dead records stay heads with followers when the chain [b] loses the
    record [i], a record other than its head, and keeps a follower. *)
Lemma mark_shrink t t' ch b l x i r :
  marked_ok t ch -> ch b = l ++ x :: i :: r ->
  (forall j, content t' j = upd (content t) i None j) ->
  (forall v, content t x = Some v -> lw_dead v = true -> r <> []) ->
  forall j v, content t' j = Some v -> lw_dead v = true ->
  exists c r', upd ch b (l ++ x :: r) j = j :: c :: r'.
Proof.
  intros OK E Hc Hx j v Hj Hd. rewrite Hc in Hj.
  destruct (Z.eq_dec j i) as [->|Hji]; [now rewrite upd_eq in Hj|]. rewrite upd_ne in Hj by done.
  destruct (mk_dead _ _ OK j v Hj Hd) as (c & r' & Ej).
  destruct (Z.eq_dec j b) as [->|Hjb]; [|rewrite upd_ne by done; eauto]. rewrite upd_eq.
  rewrite E in Ej. destruct l as [|y l]; cbn in Ej |- *; injection Ej as -> Ej.
  - specialize (Hx v Hj Hd). destruct r as [|z r]; [done|]. eauto.
  - destruct l as [|z l]; cbn; eauto.
Qed.

(** What the rest of a deletion does, once the commands are executed: [t1]
    is the table they left and [it] the iterator at the record [i]. *)
Definition mark_deleted (t t1 : ipa_table) (it : ipa_table_iterator) (i : Z) : Prop :=
  exists t',
    (if ipa_table_iterator_is_head_with_tail it then Done (0, t1)
     else pe ← prev_dead t1 it; t2 ← ipa_table_delete_entry t1 it pe; Done (0, t2))
      = Done (0, t') /\
    (exists ch', marked_ok t' ch') /\ same_shape t t' /\
    forall j, live t' j = upd (live t) i None j.

(** The first record of a chain is its head. *)
Lemma chain_head_eq t ch b i r : table_ok t ch -> ch b = i :: r -> b = i.
Proof.
  intros T E. destruct (ck_cons (ok_chains _ _ _ _ _ T) b i) as (tl & E' & _);
    [rewrite E; left|]. rewrite E in E'. now injection E'.
Qed.

(** A record alone in its chain. *)
Lemma mark_delete_alone t ch i :
  marked_ok t ch -> ch i = [i] ->
  mark_deleted t (dma_apply (delete_cmds bt et ti t [] i []) t) (iter_at [] i []) i.
Proof.
  intros OK E. pose proof (mk_tbl _ _ OK) as T.
  destruct (delete_alone _ _ _ t ch i false T E) as (t2 & Hdel & T2 & Hs & Hc & _).
  exists t2. change (ipa_table_iterator_is_head_with_tail (iter_at [] i [])) with false.
  change (prev_dead _ (iter_at [] i [])) with (Done false : exec bool). cbn [mbind exec_bind].
  rewrite Hdel. split; [done|]. split; [|split; [exact Hs|now apply live_removed]].
  eexists. split; [exact T2|]. intros j v Hj Hd. rewrite Hc in Hj.
  destruct (Z.eq_dec j i) as [->|Hji]; [now rewrite upd_eq in Hj|].
  rewrite upd_ne in Hj by done. rewrite upd_ne by done. now apply (mk_dead _ _ OK j v).
Qed.

(** A head with followers keeps its slot and is marked. *)
Lemma mark_delete_head t ch i y r :
  marked_ok t ch -> ch i = i :: y :: r ->
  mark_deleted t (dma_apply (delete_cmds bt et ti t [] i (y :: r)) t) (iter_at [] i (y :: r)) i.
Proof.
  intros OK E. pose proof (mk_tbl _ _ OK) as T.
  destruct (chain_slot _ _ _ t ch i [] i (y :: r) T E) as [Hi _].
  destruct (neighbours _ _ _ t ch i [] i (y :: r) T E) as [_ [|(y' & r' & [= <- <-] & Hy)]]; [done|].
  destruct (slot_read _ _ _ t i (ok_geom _ _ _ _ _ T)) as [ei Ei]; [lia|].
  destruct (slot_read _ _ _ t y (ok_geom _ _ _ _ _ T)) as [ey Ey]; [lia|].
  destruct (delete_head_marked _ _ _ t ch i i y r ei ey T E Ei Ey) as (_ & T1 & Hc);
    [apply lw_mark_range|].
  set (ds := delete_cmds bt et ti t [] i (y :: r)) in *.
  exists (dma_apply ds t). unfold ipa_table_iterator_is_head_with_tail, iter_at.
  cbn [next_index prev_index lst List.hd]. unfold VALID_INDEX, IPA_TABLE_INVALID_ENTRY.
  rewrite (proj2 (Z.eqb_neq y 0)) by lia. cbn [Z.eqb negb andb].
  split; [done|]. split; [|split; [apply (dma_apply_shape ds t)|]].
  - exists ch. split; [exact T1|]. intros j v Hj Hd. rewrite Hc in Hj.
    destruct (Z.eq_dec j i) as [->|Hji]; [eauto|].
    rewrite upd_ne in Hj by done. now apply (mk_dead _ _ OK j v).
  - apply (live_marked t (dma_apply ds t) i _ Hc). apply lw_mark_dead.
Qed.

(** The last record of a chain behind a dead one: a dead record is the head
    of its chain, and both slots are freed. *)
Lemma mark_delete_pair t ch b l x i v :
  marked_ok t ch -> ch b = l ++ [x; i] -> content t x = Some v -> lw_dead v = true ->
  exists t', ipa_table_delete_entry (dma_apply (delete_cmds bt et ti t (l ++ [x]) i []) t)
               (iter_at (l ++ [x]) i []) true = Done t' /\
    (exists ch', marked_ok t' ch') /\ same_shape t t' /\
    forall j, live t' j = upd (live t) i None j.
Proof.
  intros OK E Hv Hd. pose proof (mk_tbl _ _ OK) as T.
  destruct (mk_dead _ _ OK x v Hv Hd) as (c & r' & Ex).
  assert (x = b) as -> by (apply (ck_disj _ _ _ _ (ok_chains _ _ _ _ _ T) x b x);
    [rewrite Ex; left|rewrite E; apply elem_of_app; right; left]).
  assert (l = []) as ->.
  { destruct l as [|z l]; [done|]. rewrite Ex in E. injection E as -> E.
    pose proof (ck_nodup _ _ _ _ (ok_chains _ _ _ _ _ T) z) as Hnd. rewrite Ex in Hnd.
    apply NoDup_cons in Hnd as [Hnd _]. exfalso. apply Hnd. rewrite E.
    apply elem_of_app. right. left. }
  cbn [app] in *. destruct (delete_pair _ _ _ t ch b i T E) as (t2 & Hdel & T2 & Hs & Hc & _).
  exists t2. split; [exact Hdel|]. split; [|split; [exact Hs|]].
  - eexists. split; [exact T2|]. intros j w Hj Hdw. rewrite Hc in Hj.
    destruct (Z.eq_dec j i) as [->|Hji]; [now rewrite upd_eq in Hj|]. rewrite upd_ne in Hj by done.
    destruct (Z.eq_dec j b) as [->|Hjb]; [now rewrite upd_eq in Hj|]. rewrite upd_ne in Hj by done.
    rewrite upd_ne by done. now apply (mk_dead _ _ OK j w).
  - intros j. unfold live at 1. rewrite Hc. upd_cases; [done| |done].
    symmetry. now apply (live_dead t b v).
Qed.

(** Any other record behind another one is taken out of its chain. *)
Lemma mark_delete_linked t ch b l x i r v :
  marked_ok t ch -> ch b = l ++ x :: i :: r -> content t x = Some v ->
  (lw_dead v = true -> r <> []) ->
  exists t', ipa_table_delete_entry (dma_apply (delete_cmds bt et ti t (l ++ [x]) i r) t)
               (iter_at (l ++ [x]) i r) (lw_dead v) = Done t' /\
    (exists ch', marked_ok t' ch') /\ same_shape t t' /\
    forall j, live t' j = upd (live t) i None j.
Proof.
  intros OK E Hv Hd. pose proof (mk_tbl _ _ OK) as T.
  destruct (delete_linked _ _ _ t ch b l x i r (lw_dead v) T E Hd)
    as (t2 & Hdel & T2 & Hs & Hc & _).
  exists t2. split; [exact Hdel|]. split; [|split; [exact Hs|now apply live_removed]].
  eexists. split; [exact T2|]. apply (mark_shrink t t2 ch b l x i r); try done.
  intros w Hw. rewrite Hv in Hw. now injection Hw as <-.
Qed.

(** The rest of a deletion, once the commands are executed. *)
Lemma mark_delete t ch b l i r :
  marked_ok t ch -> ch b = l ++ i :: r ->
  mark_deleted t (dma_apply (delete_cmds bt et ti t l i r) t) (iter_at l i r) i.
Proof.
  intros OK E. pose proof (mk_tbl _ _ OK) as T.
  destruct l as [|x l _] using rev_ind.
  { assert (b = i) as -> by (eapply chain_head_eq; eauto).
    destruct r; [now apply mark_delete_alone with ch|now apply mark_delete_head with ch]. }
  rewrite <- app_assoc in E. cbn [app] in E.
  destruct (chain_slot _ _ _ t ch b l x (i :: r) T E) as [Hx _].
  destruct (prev_empty_ok t ch b l x i r T E) as (v & Hv & Hpe).
  assert (Hh : ipa_table_iterator_is_head_with_tail (iter_at (l ++ [x]) i r) = false).
  { unfold ipa_table_iterator_is_head_with_tail, iter_at. cbn [next_index prev_index].
    rewrite last_snoc. unfold VALID_INDEX, IPA_TABLE_INVALID_ENTRY.
    rewrite (proj2 (Z.eqb_neq x 0)) by lia. now rewrite andb_false_r. }
  unfold mark_deleted. rewrite Hh, Hpe. cbn [mbind exec_bind].
  assert (Hcase : (lw_dead v = true /\ r = []) \/ (lw_dead v = true -> r <> []))
    by (destruct (lw_dead v), r; auto).
  destruct Hcase as [[Hd ->]|Hd].
  - rewrite Hd. destruct (mark_delete_pair t ch b l x i v OK E Hv Hd) as (t2 & -> & H). eauto.
  - destruct (mark_delete_linked t ch b l x i r v OK E Hv Hd) as (t2 & -> & H). eauto.
Qed.

(** The same, as the code that has no result of its own writes it. *)
Lemma mark_delete_table t ch b l i r :
  marked_ok t ch -> ch b = l ++ i :: r ->
  let t1 := dma_apply (delete_cmds bt et ti t l i r) t in
  let it := iter_at l i r in
  exists t',
    (if ipa_table_iterator_is_head_with_tail it then Done t1
     else pe ← prev_dead t1 it; ipa_table_delete_entry t1 it pe) = Done t' /\
    (exists ch', marked_ok t' ch') /\ same_shape t t' /\
    forall j, live t' j = upd (live t) i None j.
Proof.
  intros OK E t1 it. destruct (mark_delete t ch b l i r OK E) as (t' & Hf & H). fold t1 it in Hf.
  exists t'. split; [|exact H].
  destruct (ipa_table_iterator_is_head_with_tail it); [congruence|].
  apply bind_Done in Hf as (pe & -> & Hf). apply bind_Done in Hf as (t2 & Hd & Hf).
  cbn [mbind exec_bind]. congruence.
Qed.

(** The commands of insertions and deletions name the table's two parts. *)
Definition own (d : nat_dma_one) : Prop := base_addr d = bt \/ base_addr d = et.

Lemma one_at_own t off i v : own (one_at bt et ti t off i v).
Proof. unfold own, one_at. cbn. destruct (_ >=? _); auto. Qed.

Lemma pending_own t ch w b idx t' ds :
  pending bt et ti t ch w b idx t' ds -> Forall own ds /\ (0 < length ds <= 2)%nat.
Proof.
  intros (e' & hd & _ & _ & _ & _ & _ & _ & _ & _ & _ & _ & _ & _ & _ & _ & Hd & ->). split.
  - apply Forall_app. split; [destruct hd|destruct (ch b)];
      repeat (apply Forall_cons_2; [apply one_at_own|]); apply Forall_nil_2.
  - destruct hd, (ch b); cbn; try lia. now destruct Hd as (_ & Hd & _).
Qed.

Lemma delete_own t l c r :
  Forall own (delete_cmds bt et ti t l c r) /\ length (delete_cmds bt et ti t l c r) = 1%nat.
Proof.
  destruct l, r; (split; [|done]);
    (apply Forall_cons_2; [apply one_at_own|apply Forall_nil_2]).
Qed.
End Mark.

(** ** What the hardware walks: the records reached from a bucket by their
    next indexes. *)
Section Walk.
Context {U : Type} {EI : EntryInterface U}.

Fixpoint follow (fuel : nat) (t : ipa_table) (i : Z) : list Z :=
  match fuel with
  | O => []
  | S fuel' =>
      if i =? 0 then []
      else i :: match zlookup (recs t) i with
                | Some e => follow fuel' t (entry_get_next_index e)
                | None => []
                end
  end.

Definition chain_of (t : ipa_table) (b : Z) : list Z := follow (S (length (recs t))) t b.

Context {EL : EntryLaws U} (bt et ti : Z).

Lemma follow_chain t ch b r : forall l fuel,
  table_ok bt et ti t ch -> ch b = l ++ r -> (length r < fuel)%nat ->
  follow fuel t (List.hd 0 r) = r.
Proof.
  induction r as [|i r IH]; intros l fuel T E Hf.
  - destruct fuel; [|done]. cbn in Hf. lia.
  - destruct fuel as [|fuel]; [cbn in Hf; lia|]. cbn [follow List.hd].
    destruct (chain_slot _ _ _ t ch b l i r T E) as [Hi HL].
    destruct (link_Some t i _ _ HL) as (e & Ee & _ & _ & En).
    rewrite (proj2 (Z.eqb_neq i 0)) by lia. rewrite Ee, En. f_equal.
    apply (IH (l ++ [i])); [exact T|now rewrite <- app_assoc|cbn in Hf; lia].
Qed.

Lemma chain_length t ch b : table_ok bt et ti t ch -> (length (ch b) <= length (recs t))%nat.
Proof.
  intros T. pose proof (ok_geom _ _ _ _ _ T) as G. pose proof (g_expn _ _ _ _ G).
  pose proof (g_len _ _ _ _ G) as Hl. unfold zlength in Hl.
  replace (length (recs t)) with (length (seqZ 0 (tot t))) by (rewrite length_seqZ; lia).
  apply submseteq_length, NoDup_submseteq.
  - apply (ck_nodup _ _ _ _ (ok_chains _ _ _ _ _ T)).
  - intros i Hi. apply elem_of_seqZ.
    pose proof (ck_range (ok_chains _ _ _ _ _ T) b i) as Hr. unfold tot in *.
    specialize (Hr ltac:(lia) Hi). lia.
Qed.

(** The chains of the invariant are the ones the hardware walks. *)
Lemma chain_of_ok t ch b : table_ok bt et ti t ch -> ch b <> [] -> chain_of t b = ch b.
Proof.
  intros T Hb. unfold chain_of. pose proof (chain_length t ch b T) as Hl.
  destruct (ch b) as [|h r] eqn:E; [done|].
  destruct (ck_cons (ok_chains _ _ _ _ _ T) b h) as (tl & E' & _); [rewrite E; left|].
  rewrite E in E'. injection E' as -> <-.
  apply (follow_chain t ch b (b :: r) [] _ T E). cbn in *. lia.
Qed.
End Walk.

(** A table ignores the commands of a table with other part types. *)
Lemma own_other {U} {EI : EntryInterface U} {EL : EntryLaws U} {HW : IpaHw} {HWS : IpaHwSpec}
    bt et ti bt' et' t t' ds :
  table_geom bt et ti t -> same_shape t t' ->
  bt' <> bt -> bt' <> et -> et' <> bt -> et' <> et ->
  Forall (own bt' et') ds -> dma_apply ds t' = t'.
Proof.
  intros G (Hb & _ & _ & _ & _ & _ & Hh & _) H1 H2 H3 H4 Ho. apply dma_other.
  eapply Forall_impl; [exact Ho|]. intros d Hd. unfold dma_part.
  rewrite Hh, Hb, (g_help _ _ _ _ G). cbn [help_update_head helper table_type expn_table_type].
  destruct Hd as [-> | ->]; rewrite !(proj2 (Z.eqb_neq _ _)) by congruence; done.
Qed.
