(* ===== verification/IpaTableInit.v ===== *)
(** Creation of an IPA table and rule handles: clearing the records gives an
    empty well-formed table, and the handle of a record names that record. *)
From S2P Require Import Prelude.
From S2P Require Import Bits.
From S2P Require Import Chains.
From S2P Require Import IpaTable.
From S2P Require Import IpaTableWf.

(** ** Handles *)
Definition handle_of (x m n : Z) : Z :=
  u16 (Z.lor (Z.lor (u16 (Z.shiftl (u16 x) 1)) m) (Z.shiftl n 15)).

Lemma handle_bits x m n :
  0 <= x < 4096 -> 0 <= m < 2 -> 0 <= n < 2 ->
  Z.land (Z.shiftr (handle_of x m n) 15) 1 = n /\ Z.land (handle_of x m n) 1 = m /\
  Z.land (Z.shiftr (handle_of x m n) 1) 0xFFF = x.
Proof.
  intros Hx Hm Hn.
  assert (H : zall (fun n => zall (fun m => zall (fun x =>
                (Z.land (Z.shiftr (handle_of x m n) 15) 1 =? n) &&
                (Z.land (handle_of x m n) 1 =? m) &&
                (Z.land (Z.shiftr (handle_of x m n) 1) 0xFFF =? x))
              0 (Z.to_nat 4096)) 0 2) 0 2 = true) by (vm_compute; reflexivity).
  pose proof (zall_spec _ _ _ H n ltac:(lia)) as H1. clear H. cbn beta in H1.
  pose proof (zall_spec _ _ _ H1 m ltac:(lia)) as H2. clear H1. cbn beta in H2.
  pose proof (zall_spec _ _ _ H2 x ltac:(lia)) as H3. clear H2. cbn beta in H3. zb. done.
Qed.

Lemma make_handle t i :
  MakeEntryHdl t i =
  handle_of (if i >=? table_entries t then i - table_entries t else u16 i)
    (if i >=? table_entries t then 1 else 0) (nmi t) \/ ~ 0 <= i < 65536.
Proof.
  destruct (decide (0 <= i < 65536)) as [Hi|]; [left|auto].
  unfold MakeEntryHdl, handle_of, IPA_TABLE_TYPE_BITS, IPA_TABLE_TYPE_MASK, IPA_TABLE_TYPE_MEM_SHIFT.
  destruct (i >=? table_entries t); [done|]. now rewrite Z.lor_0_r, !(u16_small i) by lia.
Qed.

Lemma break_make t i :
  0 <= table_entries t <= 4096 -> 0 <= expn_table_entries t <= 4096 -> 0 <= nmi t < 2 ->
  0 <= i < table_entries t + expn_table_entries t ->
  BREAK_RULE_HDL t (MakeEntryHdl t i) = (nmi t, if i >=? table_entries t then 1 else 0, i).
Proof.
  intros Hb He Hn Hi. destruct (make_handle t i) as [->|]; [|lia].
  unfold BREAK_RULE_HDL, IPA_TABLE_TYPE_MASK, IPA_TABLE_TYPE_MEM_SHIFT, IPA_TABLE_TYPE_BITS,
    IPA_TABLE_INDX_MASK.
  destruct (handle_bits (if i >=? table_entries t then i - table_entries t else u16 i)
              (if i >=? table_entries t then 1 else 0) (nmi t)) as (-> & -> & ->).
  - destruct (i >=? table_entries t) eqn:E; zb; [lia|]. rewrite u16_small; lia.
  - destruct (i >=? table_entries t); lia.
  - done.
  - destruct (i >=? table_entries t) eqn:E; zb; cbn [Z.eqb negb]; f_equal.
    + rewrite u16_small; lia.
    + rewrite Z.add_0_r, u16_u16, u16_small; lia.
Qed.

Lemma get_entry_handle t i :
  0 <= table_entries t <= 4096 -> 0 <= expn_table_entries t <= 4096 -> 0 <= nmi t < 2 ->
  tot_tbl_ents t = table_entries t + expn_table_entries t ->
  0 <= i < table_entries t + expn_table_entries t ->
  ipa_table_get_entry t (MakeEntryHdl t i) = (0, Some (Some i, i)).
Proof.
  intros Hb He Hn Ht Hi. unfold ipa_table_get_entry. rewrite break_make by done.
  destruct (i >=? tot_tbl_ents t) eqn:E; zb; [lia|done].
Qed.

(** A handle names a record of the table or is refused. *)
Lemma get_entry_total t h :
  0 <= table_entries t -> 0 <= fst (fst (BREAK_RULE_HDL t h)) /\
  (ipa_table_get_entry t h = (- EINVAL, None) \/
   exists i, ipa_table_get_entry t h = (0, Some (Some i, i)) /\ 0 <= i < tot_tbl_ents t).
Proof.
  intros Hb. unfold ipa_table_get_entry.
  destruct (BREAK_RULE_HDL t h) as [[mt iet] i] eqn:E. unfold BREAK_RULE_HDL in E.
  injection E as <- <- <-. split.
  { cbn. apply Z.land_nonneg. right. unfold IPA_TABLE_TYPE_MASK. lia. }
  set (idx := u16 _). pose proof (u16_range (Z.land (Z.shiftr h IPA_TABLE_TYPE_BITS) IPA_TABLE_INDX_MASK +
    (if negb (Z.land h IPA_TABLE_TYPE_MASK =? 0) then table_entries t else 0))) as Hi. fold idx in Hi.
  destruct (idx >=? tot_tbl_ents t) eqn:E; zb; [auto|]. right. exists idx. split; [done|lia].
Qed.

(** ** Clearing *)
Lemma clear_recs_ok n : forall i r,
  0 <= i -> i + Z.of_nat n <= zlength r ->
  exists r', clear_recs n i r = Done r' /\ zlength r' = zlength r /\
    forall j, zlookup r' j = if (i <=? j) && (j <? i + Z.of_nat n) then Some 0 else zlookup r j.
Proof.
  induction n as [|n IH]; intros i r Hi Hn; cbn [clear_recs].
  - exists r. split_and!; [done..|]. intros j. destruct (_ && _) eqn:E; [zb; lia|done].
  - rewrite zstore_ok by lia. cbn [mbind exec_bind].
    destruct (IH (i + 1) (zinsert i 0 r)) as (r' & -> & Hl & Hr);
      [lia|rewrite zlength_insert; lia|].
    exists r'. rewrite zlength_insert in Hl. split_and!; [done..|]. intros j. rewrite Hr.
    rewrite zlookup_insert_cases by lia.
    destruct (i =? j) eqn:Eij, ((i + 1 <=? j) && (j <? i + 1 + Z.of_nat n)) eqn:E1,
      ((i <=? j) && (j <? i + Z.of_nat (S n))) eqn:E2; try done; exfalso;
      rewrite ?andb_false_iff in *; zb; repeat match goal with H : _ \/ _ |- _ => destruct H end;
      zb; lia.
Qed.

Lemma reset_ok t :
  0 <= table_entries t -> 0 <= expn_table_entries t ->
  zlength (recs t) = table_entries t + expn_table_entries t ->
  exists r, ipa_table_reset t = Done (set_recs r t) /\ zlength r = zlength (recs t) /\
    forall j e, zlookup r j = Some e -> e = 0.
Proof.
  intros Hb He Hl. unfold ipa_table_reset.
  destruct (clear_recs_ok (Z.to_nat (table_entries t)) 0 (recs t)) as (r & -> & Hl1 & Hr1); [lia..|].
  cbn [mbind exec_bind].
  destruct (clear_recs_ok (Z.to_nat (expn_table_entries t)) (table_entries t) r)
    as (r' & -> & Hl2 & Hr2); [lia..|].
  cbn [mbind exec_bind]. exists r'. split_and!; [done|lia|]. intros j e Hj.
  pose proof (zlookup_lt _ _ _ Hj) as Hjl. rewrite Hr2 in Hj.
  destruct (_ && _) eqn:E; [now injection Hj|]. rewrite Hr1 in Hj.
  destruct ((0 <=? j) && _) eqn:E2; [now injection Hj|].
  apply andb_false_iff in E, E2. destruct E, E2; zb; lia.
Qed.

Section Empty.
Context {U : Type} {EI : EntryInterface U} {EL : EntryLaws U}.
Context (bt et ti : Z).

Definition no_chains : chain_map := fun _ => [].

Lemma occ_none L lo n : (forall i, L i = None) -> occ L lo n = 0.
Proof. intros H. revert lo. induction n as [|n IH]; intros lo; cbn [occ]; [done|]. now rewrite H, IH. Qed.

(** A table of cleared records is well formed and empty. *)
Lemma empty_ok t :
  table_geom bt et ti t -> (forall j e, zlookup (recs t) j = Some e -> e = 0) ->
  cur_tbl_cnt t = 0 -> cur_expn_tbl_cnt t = 0 ->
  table_ok bt et ti t no_chains /\ forall i, content t i = None.
Proof.
  intros G Hz Hc He. pose proof (lw_free_valid 0 lw_free_0) as H0.
  assert (HL : forall i, link t i = None).
  { intros i. unfold link, links_of. destruct (zlookup (recs t) i) as [e|] eqn:E; [|done].
    rewrite (Hz i e E). unfold rlink. now rewrite H0. }
  split.
  - split; auto.
    + split; unfold no_chains; intros; try done; try apply HL.
      * constructor.
      * now match goal with H : _ ∈ [] |- _ => apply not_elem_of_nil in H end.
      * now rewrite HL in *.
    + intros i e E _. rewrite (Hz i e E). apply lw_free_0.
    + now rewrite occ_none.
    + now rewrite occ_none.
  - intros i. unfold content. destruct (zlookup (recs t) i) as [e|] eqn:E; [|done].
    rewrite (Hz i e E). unfold rview. now rewrite H0.
Qed.
End Empty.
