(* ===== verification/IpaIpv6ctEntry.v ===== *)
(** The IPv6 connection tracking record and the callbacks of its table
    (dataipa/ipanat/inc/ipa_ipv6cti.h, src/ipa_ipv6ct.c): layout, hash, and the
    proof that the callbacks keep the promises of [EntryLaws]. *)
From S2P Require Import Prelude.
From S2P Require Import Bits.
From S2P Require Import IpaTable.
From S2P Require Import IpaTableWf.

(** ** Constants *)
Definition IPA_IPV6CT_RULE_FLAG_FIELD_OFFSET : Z := 34.
Definition IPA_IPV6CT_RULE_NEXT_FIELD_OFFSET : Z := 40.
Definition IPA_IPV6CT_RULE_PROTO_FIELD_OFFSET : Z := 38.
Definition IPA_IPV6CT_FLAG_ENABLE_BIT : Z := 1.
Definition IPA_IPV6CT_DIRECTION_ALLOW_BIT : Z := 1.
Definition IPA_IPV6CT_INVALID_PROTO_FIELD_VALUE : Z := 0xFF00.
Definition IPA_IPV6CT_INVALID_PROTO_FIELD_CMP : Z := 0xFF.
Definition sizeof_ipa_ipv6ct_hw_entry : Z := 64.

(** ** ipa_ipv6ct_hw_entry: bit offset and width of each field *)
Definition src_ipv6_lsb : field := Fld 0 64.
Definition src_ipv6_msb : field := Fld 64 64.
Definition dest_ipv6_lsb : field := Fld 128 64.
Definition dest_ipv6_msb : field := Fld 192 64.
Definition uc_activation_index : field := Fld 256 13.
Definition s_bit : field := Fld 269 1.
Definition redirect : field := Fld 286 1.
Definition enable : field := Fld 287 1.
Definition time_stamp : field := Fld 288 24.
Definition protocol : field := Fld 312 8.
Definition next_index_f : field := Fld 320 16.
Definition dest_port : field := Fld 336 16.
Definition src_port : field := Fld 352 16.
Definition ucp : field := Fld 368 1.
Definition out_allowed : field := Fld 374 1.
Definition in_allowed : field := Fld 375 1.
Definition prev_index_f : field := Fld 432 16.

(** ipa_ipv6ct_flags: the 16-bit word at the flags offset. *)
Definition flags_enable : field := Fld 15 1.
Definition flags_redirect : field := Fld 14 1.

(** ** The user's rule *)
(** ipa_ipv6_ct_direction_settings_type; [DIRECTION_OTHER] is any other value
    of the C enum. *)
Inductive direction :=
| IPA_IPV6CT_DIRECTION_DENY_ALL
| IPA_IPV6CT_DIRECTION_ALLOW_OUT
| IPA_IPV6CT_DIRECTION_ALLOW_IN
| IPA_IPV6CT_DIRECTION_ALLOW_ALL
| DIRECTION_OTHER (value : Z).

Record ipa_ipv6ct_rule := {
  u_src_ipv6_lsb : Z;
  u_src_ipv6_msb : Z;
  u_dest_ipv6_lsb : Z;
  u_dest_ipv6_msb : Z;
  u_direction_settings : direction;
  u_ucp : bool;
  u_s : bool;
  u_uc_activation_index : Z;
  u_src_port : Z;
  u_dest_port : Z;
  u_protocol : Z }.

(** The ranges of the C types. *)
Definition rule_typed (u : ipa_ipv6ct_rule) : Prop :=
  0 <= u_src_ipv6_lsb u < 2 ^ 64 /\ 0 <= u_src_ipv6_msb u < 2 ^ 64 /\
  0 <= u_dest_ipv6_lsb u < 2 ^ 64 /\ 0 <= u_dest_ipv6_msb u < 2 ^ 64 /\
  0 <= u_uc_activation_index u < 2 ^ 16 /\ 0 <= u_src_port u < 2 ^ 16 /\
  0 <= u_dest_port u < 2 ^ 16 /\ 0 <= u_protocol u < 2 ^ 8.

(** ** Hash *)

(** The loop of ipa_ipv6ct_xor_segments on a 64-bit number: four rounds. *)
Fixpoint xor_segments_loop (fuel : nat) (num ret : Z) : exec Z :=
  match fuel with
  | O => Timeout
  | S fuel' =>
      if num =? 0 then Done ret
      else xor_segments_loop fuel' (Z.shiftr num 16) (Z.lxor ret (Z.land num 0xFFFF))
  end.
Definition ipa_ipv6ct_xor_segments (num : Z) : exec Z := xor_segments_loop 5 num 0.

Definition ipa_ipv6ct_hash (rule : ipa_ipv6ct_rule) (size : Z) : exec Z :=
  h1 ← ipa_ipv6ct_xor_segments (u_src_ipv6_lsb rule);
  h2 ← ipa_ipv6ct_xor_segments (u_src_ipv6_msb rule);
  h3 ← ipa_ipv6ct_xor_segments (u_dest_ipv6_lsb rule);
  h4 ← ipa_ipv6ct_xor_segments (u_dest_ipv6_msb rule);
  let hash := Z.lxor (Z.lxor (Z.lxor (Z.lxor 0 h1) h2) h3) h4 in
  let hash := Z.lxor (Z.lxor (Z.lxor hash (u_src_port rule)) (u_dest_port rule))
                (u_protocol rule) in
  let hash := Z.land hash size in
  Done (if hash =? 0 then size else hash).

(** ** Callbacks *)
Definition table_entry_is_valid (e : Z) : bool := negb (fget enable e =? 0).
Definition table_entry_get_next_index (e : Z) : Z := fget next_index_f e.
Definition table_entry_get_prev_index (e : Z) (_ : Z) (_ : option (list Z)) (_ : Z) : exec Z :=
  Done (fget prev_index_f e).
Definition table_entry_set_prev_index (e : Z) (_ : Z) (p : Z) (m : option (list Z)) (_ : Z) :
    exec (Z * option (list Z)) :=
  Done (fset prev_index_f p e, m).

Definition table_entry_copy_from_user (e : Z) (u : ipa_ipv6ct_rule) : Z * Z :=
  let e := fset src_ipv6_lsb (u_src_ipv6_lsb u) e in
  let e := fset src_ipv6_msb (u_src_ipv6_msb u) e in
  let e := fset dest_ipv6_lsb (u_dest_ipv6_lsb u) e in
  let e := fset dest_ipv6_msb (u_dest_ipv6_msb u) e in
  let e := fset protocol (u_protocol u) e in
  let e := fset src_port (u_src_port u) e in
  let e := fset dest_port (u_dest_port u) e in
  let e := fset ucp (Z.b2z (u_ucp u)) e in
  let e := fset uc_activation_index (u_uc_activation_index u) e in
  let e := fset s_bit (Z.b2z (u_s u)) e in
  match u_direction_settings u with
  | IPA_IPV6CT_DIRECTION_DENY_ALL => (0, e)
  | IPA_IPV6CT_DIRECTION_ALLOW_OUT =>
      (0, fset out_allowed IPA_IPV6CT_DIRECTION_ALLOW_BIT e)
  | IPA_IPV6CT_DIRECTION_ALLOW_IN =>
      (0, fset in_allowed IPA_IPV6CT_DIRECTION_ALLOW_BIT e)
  | IPA_IPV6CT_DIRECTION_ALLOW_ALL =>
      (0, fset in_allowed IPA_IPV6CT_DIRECTION_ALLOW_BIT
            (fset out_allowed IPA_IPV6CT_DIRECTION_ALLOW_BIT e))
  | DIRECTION_OTHER _ => (- EINVAL, e)
  end.

(** (ret, record, DMA data); the data are untouched (0 here) on failure. *)
Definition table_entry_head_insert (e : Z) (u : ipa_ipv6ct_rule) : exec (Z * Z * Z) :=
  let '(ret, e) := table_entry_copy_from_user e u in
  if negb (ret =? 0) then Done (ret, e, 0)
  else Done (0, e, fset flags_enable IPA_IPV6CT_FLAG_ENABLE_BIT 0).

Definition table_entry_tail_insert (e : Z) (u : ipa_ipv6ct_rule) : exec (Z * Z) :=
  let '(ret, e) := table_entry_copy_from_user e u in
  if negb (ret =? 0) then Done (ret, e)
  else Done (0, fset enable IPA_IPV6CT_FLAG_ENABLE_BIT e).

Definition table_entry_get_delete_head_dma_command_data (_ _ : Z) : Z :=
  IPA_IPV6CT_INVALID_PROTO_FIELD_VALUE.

#[export] Instance ct_interface : EntryInterface ipa_ipv6ct_rule := {|
  entry_is_valid := table_entry_is_valid;
  entry_get_next_index := table_entry_get_next_index;
  entry_get_prev_index := table_entry_get_prev_index;
  entry_set_prev_index := table_entry_set_prev_index;
  entry_head_insert := table_entry_head_insert;
  entry_tail_insert := table_entry_tail_insert;
  entry_get_delete_head_dma_command_data := table_entry_get_delete_head_dma_command_data |}.

(** ** What a record says *)
Record ct_view := {
  v_src_lsb : Z; v_src_msb : Z; v_dest_lsb : Z; v_dest_msb : Z;
  v_uc : Z; v_s : Z; v_redirect : Z; v_time_stamp : Z; v_protocol : Z;
  v_dest_port : Z; v_src_port : Z; v_ucp : Z; v_out : Z; v_in : Z }.

Definition ct_read (e : Z) : ct_view :=
  {| v_src_lsb := fget src_ipv6_lsb e; v_src_msb := fget src_ipv6_msb e;
     v_dest_lsb := fget dest_ipv6_lsb e; v_dest_msb := fget dest_ipv6_msb e;
     v_uc := fget uc_activation_index e; v_s := fget s_bit e;
     v_redirect := fget redirect e; v_time_stamp := fget time_stamp e;
     v_protocol := fget protocol e; v_dest_port := fget dest_port e;
     v_src_port := fget src_port e; v_ucp := fget ucp e;
     v_out := fget out_allowed e; v_in := fget in_allowed e |}.

Definition allows_out (d : direction) : Z :=
  match d with
  | IPA_IPV6CT_DIRECTION_ALLOW_OUT | IPA_IPV6CT_DIRECTION_ALLOW_ALL => 1 | _ => 0 end.
Definition allows_in (d : direction) : Z :=
  match d with
  | IPA_IPV6CT_DIRECTION_ALLOW_IN | IPA_IPV6CT_DIRECTION_ALLOW_ALL => 1 | _ => 0 end.

(** The record a rule asks for: its own data (the activation index cut to 13
    bits), no redirection, time stamp zero. *)
Definition ct_wanted (u : ipa_ipv6ct_rule) : ct_view :=
  {| v_src_lsb := u_src_ipv6_lsb u; v_src_msb := u_src_ipv6_msb u;
     v_dest_lsb := u_dest_ipv6_lsb u; v_dest_msb := u_dest_ipv6_msb u;
     v_uc := u_uc_activation_index u mod 2 ^ 13; v_s := Z.b2z (u_s u);
     v_redirect := 0; v_time_stamp := 0; v_protocol := u_protocol u;
     v_dest_port := u_dest_port u; v_src_port := u_src_port u; v_ucp := Z.b2z (u_ucp u);
     v_out := allows_out (u_direction_settings u); v_in := allows_in (u_direction_settings u) |}.

Definition ct_set_redirect (r : Z) (v : ct_view) : ct_view :=
  {| v_src_lsb := v_src_lsb v; v_src_msb := v_src_msb v; v_dest_lsb := v_dest_lsb v;
     v_dest_msb := v_dest_msb v; v_uc := v_uc v; v_s := v_s v; v_redirect := r;
     v_time_stamp := v_time_stamp v; v_protocol := v_protocol v; v_dest_port := v_dest_port v;
     v_src_port := v_src_port v; v_ucp := v_ucp v; v_out := v_out v; v_in := v_in v |}.

(** A free record: disabled, unlinked, and with the fields that copying a
    rule does not write at zero. *)
Definition ct_free (e : Z) : Prop :=
  fget enable e = 0 /\ fget next_index_f e = 0 /\ fget prev_index_f e = 0 /\
  fget redirect e = 0 /\ fget time_stamp e = 0 /\ fget out_allowed e = 0 /\
  fget in_allowed e = 0.

(** ** Lemmas *)
Lemma ct_b2z_bit b : 0 <= Z.b2z b < 2 ^ 1.
Proof. destruct b; cbn; lia. Qed.

(** Copying leaves the fields it does not name. *)
Lemma copy_frame e u g :
  field_ok g = true ->
  forallb (fun f => fdisjoint f g)
    [src_ipv6_lsb; src_ipv6_msb; dest_ipv6_lsb; dest_ipv6_msb; protocol; src_port; dest_port;
     ucp; uc_activation_index; s_bit; out_allowed; in_allowed] = true ->
  fget g (snd (table_entry_copy_from_user e u)) = fget g e.
Proof.
  intros Hg H. cbn [forallb] in H. repeat apply andb_true_iff in H as [? H].
  unfold table_entry_copy_from_user.
  destruct (u_direction_settings u); cbn [snd];
    repeat (rewrite fget_fset_ne by first [reflexivity | assumption]); reflexivity.
Qed.

(** A refused rule leaves a free record free; an accepted one is copied. *)
Lemma copy_refused e u :
  ct_free e -> fst (table_entry_copy_from_user e u) <> 0 ->
  ct_free (snd (table_entry_copy_from_user e u)).
Proof.
  intros (H1 & H2 & H3 & H4 & H5 & H6 & H7) Hr. unfold ct_free.
  rewrite !copy_frame by reflexivity. split_and!; try done.
  all: unfold table_entry_copy_from_user in *;
    destruct (u_direction_settings u); try done; cbn [snd]; now fld.
Qed.

Lemma copy_reads e u :
  ct_free e -> rule_typed u -> fst (table_entry_copy_from_user e u) = 0 ->
  ct_read (snd (table_entry_copy_from_user e u)) = ct_wanted u.
Proof.
  intros (H1 & H2 & H3 & H4 & H5 & H6 & H7) (T1 & T2 & T3 & T4 & T5 & T6 & T7 & T8) Hr.
  pose proof (ct_b2z_bit (u_ucp u)). pose proof (ct_b2z_bit (u_s u)).
  unfold ct_read, ct_wanted. rewrite !(copy_frame e u redirect), !(copy_frame e u time_stamp) by reflexivity.
  unfold table_entry_copy_from_user, IPA_IPV6CT_DIRECTION_ALLOW_BIT in *.
  destruct (u_direction_settings u); try discriminate Hr; cbn [snd allows_out allows_in];
    f_equal; fld; first [done | now apply fget_low].
Qed.

(** The callbacks keep the table's rules. *)
#[export] Program Instance ct_laws : EntryLaws ipa_ipv6ct_rule := {|
  lw_size := sizeof_ipa_ipv6ct_hw_entry;
  lw_head := IPA_IPV6CT_RULE_FLAG_FIELD_OFFSET;
  lw_next := IPA_IPV6CT_RULE_NEXT_FIELD_OFFSET;
  lw_del := IPA_IPV6CT_RULE_PROTO_FIELD_OFFSET;
  lw_user := rule_typed;
  lw_free := ct_free;
  lw_meta := fun m _ => m = None;
  lw_enabling := fun d => negb (fget flags_enable d =? 0);
  lw_V := ct_view;
  lw_view := ct_read;
  lw_img := ct_wanted;
  lw_headview := fun d v => ct_set_redirect (fget flags_redirect d) v |}.
Next Obligation. cbn. unfold sizeof_ipa_ipv6ct_hw_entry, IPA_IPV6CT_RULE_FLAG_FIELD_OFFSET, IPA_IPV6CT_RULE_NEXT_FIELD_OFFSET, IPA_IPV6CT_RULE_PROTO_FIELD_OFFSET. lia. Qed.
Next Obligation. intros e. apply (fget_range next_index_f). reflexivity. Qed.
Next Obligation. intros e v Hv. cbn. unfold table_entry_get_next_index. now fld. Qed.
Next Obligation. intros e v. cbn. unfold table_entry_is_valid. now fld. Qed.
Next Obligation. intros e v i m b. cbn. unfold table_entry_get_prev_index. now fld. Qed.
Next Obligation. intros e v. cbn. unfold ct_read. now fld. Qed.
Next Obligation. intros e v Hv. cbn. unfold table_entry_is_valid. now fld. Qed.
Next Obligation. intros e v. cbn. unfold table_entry_get_next_index. now fld. Qed.
Next Obligation. intros e v i m b. cbn. unfold table_entry_get_prev_index. now fld. Qed.
Next Obligation. intros e v Hv. cbn. unfold ct_read, ct_set_redirect. cbn. now fld. Qed.
Next Obligation. reflexivity. Qed.
Next Obligation. intros c n Hc Hn. cbn in *. unfold table_entry_is_valid in *. now fld. Qed.
Next Obligation. intros e v. cbn. unfold table_entry_get_next_index. now fld. Qed.
Next Obligation. intros e v i m b. cbn. unfold table_entry_get_prev_index. now fld. Qed.
Next Obligation.
  intros e i m b x Hm Hb Hi. eexists. split; [reflexivity|]. now apply (fget_range prev_index_f).
Qed.
Next Obligation. unfold ct_free. now rewrite !fget_0. Qed.
Next Obligation. intros e (H & _). cbn. unfold table_entry_is_valid. now rewrite H. Qed.
Next Obligation. intros e (_ & H & _). exact H. Qed.
Next Obligation.
  intros e i m b (_ & _ & H & _) _. cbn. unfold table_entry_get_prev_index. now rewrite H.
Qed.
Next Obligation.
  intros e u Hf Hu. cbn. unfold table_entry_head_insert.
  pose proof (copy_refused e u Hf) as Hbad. pose proof (copy_reads e u Hf Hu) as Hgood.
  pose proof (copy_frame e u) as Hfr.
  destruct (table_entry_copy_from_user e u) as [ret e']. cbn [fst snd] in *.
  destruct (ret =? 0) eqn:E; zb; cbn [negb]; do 3 eexists; (split; [reflexivity|]); [|now auto].
  split; [done|]. intros _. unfold table_entry_is_valid, table_entry_get_next_index,
    table_entry_get_prev_index. rewrite !Hfr by reflexivity.
  destruct Hf as (H1 & H2 & H3 & H4 & _). rewrite H1, H2. split_and!; try done.
  rewrite <- (Hgood E). unfold ct_set_redirect, ct_read. cbn. f_equal.
  rewrite Hfr by reflexivity. now rewrite H4.
Qed.
Next Obligation.
  intros e u Hf Hu. cbn. unfold table_entry_tail_insert.
  pose proof (copy_refused e u Hf) as Hbad. pose proof (copy_reads e u Hf Hu) as Hgood.
  pose proof (copy_frame e u) as Hfr.
  destruct (table_entry_copy_from_user e u) as [ret e']. cbn [fst snd] in *.
  destruct (ret =? 0) eqn:E; zb; cbn [negb]; do 2 eexists; (split; [reflexivity|]); [|now auto].
  split; [done|]. intros _. unfold table_entry_is_valid, table_entry_get_next_index, ct_read.
  fld. rewrite (Hfr next_index_f) by reflexivity. destruct Hf as (H1 & H2 & H3 & _).
  split_and!; [done..|]. now rewrite <- (Hgood E).
Qed.
Next Obligation.
  intros e i p m b x Hm Hi Hp. cbn. do 2 eexists. split; [reflexivity|].
  unfold table_entry_get_prev_index, table_entry_is_valid, table_entry_get_next_index, ct_read.
  split_and!; try done; now fld.
Qed.

(** ** The hash *)

(** The exclusive or of the first [n] 16-bit segments. *)
Fixpoint xor_fold (n : nat) (num : Z) : Z :=
  match n with
  | O => 0
  | S n' => Z.lxor (Z.land num 0xFFFF) (xor_fold n' (Z.shiftr num 16))
  end.

Lemma xor_fold_0 n : xor_fold n 0 = 0.
Proof. induction n as [|n IH]; cbn [xor_fold]; [done|]. now rewrite Z.shiftr_0_l, IH. Qed.

Lemma xor_segments_loop_ok n : forall num ret,
  0 <= num < 2 ^ (16 * Z.of_nat n) ->
  xor_segments_loop (S n) num ret = Done (Z.lxor ret (xor_fold n num)).
Proof.
  induction n as [|n IH]; intros num ret H.
  - cbn in H. assert (num = 0) as -> by lia. cbn. now rewrite Z.lxor_0_r.
  - remember (S n) as m. cbn [xor_segments_loop]. destruct (num =? 0) eqn:E; zb.
    + subst num. rewrite xor_fold_0. now rewrite Z.lxor_0_r.
    + subst m. rewrite IH.
      * cbn [xor_fold]. now rewrite Z.lxor_assoc.
      * rewrite Z.shiftr_div_pow2 by lia. split; [apply Z.div_pos; lia|].
        apply Z.div_lt_upper_bound; [lia|]. rewrite <- Z.pow_add_r by lia.
        replace (16 + 16 * Z.of_nat n) with (16 * Z.of_nat (S n)) by lia. lia.
Qed.

Lemma xor_segments_ok num :
  0 <= num < 2 ^ 64 -> ipa_ipv6ct_xor_segments num = Done (xor_fold 4 num).
Proof. intros H. unfold ipa_ipv6ct_xor_segments. rewrite xor_segments_loop_ok; [|exact H]. done. Qed.

(** The segments the hash combines. *)
Definition ct_mix (u : ipa_ipv6ct_rule) : Z :=
  foldl Z.lxor 0 [xor_fold 4 (u_src_ipv6_lsb u); xor_fold 4 (u_src_ipv6_msb u);
                  xor_fold 4 (u_dest_ipv6_lsb u); xor_fold 4 (u_dest_ipv6_msb u);
                  u_src_port u; u_dest_port u; u_protocol u].

Lemma hash_ok u size :
  rule_typed u -> 0 < size ->
  exists h, ipa_ipv6ct_hash u size = Done h /\ 0 < h <= size /\
    h = if Z.land (ct_mix u) size =? 0 then size else Z.land (ct_mix u) size.
Proof.
  intros (T1 & T2 & T3 & T4 & _) Hs. unfold ipa_ipv6ct_hash.
  rewrite !xor_segments_ok by assumption. cbn [mbind exec_bind].
  eexists. split; [reflexivity|]. unfold ct_mix. cbn [foldl].
  set (m := Z.land _ size). pose proof (land_upper (Z.lxor (Z.lxor (Z.lxor (Z.lxor (Z.lxor
    (Z.lxor (Z.lxor 0 (xor_fold 4 (u_src_ipv6_lsb u))) (xor_fold 4 (u_src_ipv6_msb u)))
    (xor_fold 4 (u_dest_ipv6_lsb u))) (xor_fold 4 (u_dest_ipv6_msb u))) (u_src_port u))
    (u_dest_port u)) (u_protocol u)) size) as Hm. fold m in Hm.
  split; [|done]. case_test; lia.
Qed.
