(* ===== verification/IpaIpv6ct.v ===== *)
(** The IPv6 connection tracking API of the IPA library
    (dataipa/ipanat/src/ipa_ipv6ct.c): creation and deletion of the table,
    adding, deleting and querying rules.

    A NULL dereference or an access outside the tables is [Fault].  The state
    a function leaves is returned with its result; [env_...] are the results
    of the calls that leave the library. *)
From S2P Require Import Prelude.
From S2P Require Import Bits.
From S2P Require Import Chains.
From S2P Require Import IpaTable.
From S2P Require Import IpaTableSize.
From S2P Require Import IpaMemDesc.
From S2P Require Import IpaDma.
From S2P Require Import IpaTableWf.
From S2P Require Import IpaIpv6ctEntry.

Definition IPA_IPV6CT_MAX_TBLS : Z := 1.
Definition IPA_IPV6CT_TABLE_NAME : string := "IPA IPv6CT table".
Definition IPA_IPV6CT_DEV_NAME : string := "ipaIpv6CTTable".
Definition IPA_MAX_DMA_ENTRIES_FOR_ADD : Z := 2.
Definition IPA_MAX_DMA_ENTRIES_FOR_DEL : Z := 2.
Record ipa_ipv6ct_table := {
  mem_desc : ipa_mem_descriptor;
  table : ipa_table }.

Definition zero_ct_table : ipa_ipv6ct_table := {| mem_desc := zero_desc; table := zero_table |}.

Record ipa_ipv6ct := {
  ipa_desc : option ipa_descriptor;
  tables : list ipa_ipv6ct_table;
  table_cnt : Z }.

(** The static variable before any call. *)
Definition ipv6ct_start : ipa_ipv6ct :=
  {| ipa_desc := None; tables := [zero_ct_table]; table_cnt := 0 |}.

(** struct ipa_ioc_ipv6ct_init *)
Record ipa_ioc_ipv6ct_init := {
  base_table_offset : Z;
  expn_table_offset : Z;
  ct_tbl_index : Z;
  ct_table_entries : Z;
  ct_expn_table_entries : Z }.

(** What the functions get from outside: the mutex calls' success, the
    driver's descriptor, the memory of a fresh mapping (a record per
    address), the init ioctl, the kernel's context for the DMA ioctl and the
    uC activation ioctls. *)
Class ct_env := {
  env_os :: ipa_os;
  env_hw :: IpaHw;
  env_lock : bool;
  env_unlock : bool;
  env_open : option ipa_descriptor;
  env_mem : Z -> Z;
  env_init : ipa_ioc_ipv6ct_init -> Z;
  env_kernel : ipa3_context;
  env_uc_add : Z;
  env_uc_del : Z -> Z }.

Section Ipv6ct.
Context {ENV : ct_env}.

Definition set_table (st : ipa_ipv6ct) (i : Z) (x : ipa_ipv6ct_table) : exec ipa_ipv6ct :=
  ts ← zstore i x (tables st);
  Done {| ipa_desc := ipa_desc st; tables := ts; table_cnt := table_cnt st |}.

Definition ipa_ipv6ct_create_table_dma_cmd_helpers (d : ipa_mem_descriptor) (t : ipa_table)
    (table_indx : Z) : ipa_table :=
  let h off := Some (ipa_table_dma_cmd_helper_init table_indx IPA_IPV6CT_BASE_TBL
                       IPA_IPV6CT_EXPN_TBL (u32 (addr_offset d + off))) in
  set_dma_help {| help_update_head := h IPA_IPV6CT_RULE_FLAG_FIELD_OFFSET;
                  help_update_entry := h IPA_IPV6CT_RULE_NEXT_FIELD_OFFSET;
                  help_delete_head := h IPA_IPV6CT_RULE_PROTO_FIELD_OFFSET |} t.

Definition ipa_ipv6ct_create_table (x : ipa_ipv6ct_table) (number_of_entries table_index0 : Z) :
    exec (Z * ipa_ipv6ct_table) :=
  let t := ipa_table_init IPA_IPV6CT_TABLE_NAME IPA_NAT_MEM_IN_DDR
             sizeof_ipa_ipv6ct_hw_entry None 0 in
  r ← ipa_table_calculate_entries_num t number_of_entries IPA_NAT_MEM_IN_DDR;
  let '(ret, t) := r in
  if negb (ret =? 0) then Done (ret, {| mem_desc := mem_desc x; table := t |})
  else
    let d := ipa_mem_descriptor_init (mem_desc x) IPA_IPV6CT_DEV_NAME
               (ipa_table_calculate_size t) table_index0
               IPA_IOC_ALLOC_IPV6CT_TABLE IPA_IOC_DEL_IPV6CT_TABLE false in
    let '(ret, d) := ipa_mem_descriptor_allocate_memory d in
    if negb (ret =? 0) then Done (ret, zero_ct_table)
    else
      let '(t, _) := ipa_table_calculate_addresses t (md_base_addr d)
                       (mapped_recs env_mem d (md_base_addr d) (entry_size t) (tot_tbl_ents t)) in
      t ← ipa_table_reset t;
      Done (0, {| mem_desc := d;
                  table := ipa_ipv6ct_create_table_dma_cmd_helpers d t table_index0 |}).

(** The table is zeroed whatever the kernel answers. *)
Definition ipa_ipv6ct_destroy_table (x : ipa_ipv6ct_table) : Z * ipa_ipv6ct_table :=
  (fst (ipa_mem_descriptor_delete (mem_desc x)), zero_ct_table).

Definition ipa_ipv6ct_post_init_cmd (x : ipa_ipv6ct_table) (tbl_index0 : Z) : Z :=
  let off := addr_offset (mem_desc x) in
  env_init {| base_table_offset := off;
              expn_table_offset :=
                u32 (off + table_entries (table x) * sizeof_ipa_ipv6ct_hw_entry);
              ct_tbl_index := tbl_index0;
              ct_table_entries := u16 (table_entries (table x) - 1);
              ct_expn_table_entries := expn_table_entries (table x) |}.

(** The result, and the commands the hardware was given. *)
Definition ipa_ipv6ct_post_dma_cmd (cmd : nat_dma_cmd) : Z * list nat_dma_one :=
  let cmd := {| entries := entries cmd; mem_type := IPA_NAT_MEM_IN_DDR; dma := dma cmd |} in
  let '(r, ds) := ioctl_table_dma_cmd env_kernel cmd in
  (if negb (r =? 0) then - EIO else 0, ds).

Definition close_if_unused (st : ipa_ipv6ct) : ipa_ipv6ct :=
  if table_cnt st =? 0 then {| ipa_desc := None; tables := tables st; table_cnt := 0 |} else st.

(** [handle] is None for a NULL table_handle, else its old value. *)
Definition ipa_ipv6ct_add_tbl (st : ipa_ipv6ct) (number_of_entries : Z) (handle : option Z) :
    exec (Z * option Z * ipa_ipv6ct) :=
  match handle with
  | None => Done (- EINVAL, None, st)
  | Some h0 =>
      if number_of_entries =? 0 then Done (- EINVAL, Some h0, st)
      else if table_cnt st >=? IPA_IPV6CT_MAX_TBLS then Done (- EINVAL, Some 0, st)
      else
        match (match ipa_desc st with Some d => Some d | None => env_open end) with
        | None => Done (- EIO, Some 0, st)
        | Some d =>
            let st := {| ipa_desc := Some d; tables := tables st; table_cnt := table_cnt st |} in
            if ver d <? IPA_HW_v4_0 then Done (- EPERM, Some 0, close_if_unused st)
            else
              x ← deref (zlookup (tables st) (table_cnt st));
              r ← ipa_ipv6ct_create_table x number_of_entries (table_cnt st);
              let '(ret, x) := r in
              st1 ← set_table st (table_cnt st) x;
              if negb (ret =? 0) then Done (ret, Some 0, close_if_unused st1)
              else
                let ret := ipa_ipv6ct_post_init_cmd x (table_cnt st) in
                if negb (ret =? 0) then
                  let '(_, x) := ipa_ipv6ct_destroy_table x in
                  st2 ← set_table st1 (table_cnt st) x;
                  Done (ret, Some 0, close_if_unused st2)
                else
                  let cnt := u8 (table_cnt st + 1) in
                  Done (0, Some cnt,
                        {| ipa_desc := Some d; tables := tables st1; table_cnt := cnt |})
        end
  end.

(** What pthread_mutex_unlock adds to a function's result. *)
Definition after_unlock (ret : Z) : Z :=
  if env_unlock then ret else if negb (ret =? 0) then ret else - EPERM.

Definition ipa_ipv6ct_del_tbl (st : ipa_ipv6ct) (table_handle : Z) : exec (Z * ipa_ipv6ct) :=
  d ← deref (ipa_desc st);
  if ver d <? IPA_HW_v4_0 then Done (- EINVAL, st)
  else if (table_handle =? IPA_TABLE_INVALID_ENTRY) || (table_handle >? IPA_IPV6CT_MAX_TBLS)
  then Done (- EINVAL, st)
  else if negb env_lock then Done (- EINVAL, st)
  else
    x ← deref (zlookup (tables st) (table_handle - 1));
    if negb (valid (mem_desc x)) then Done (after_unlock (- EINVAL), st)
    else
      let '(ret, x) := ipa_ipv6ct_destroy_table x in
      st1 ← set_table st (table_handle - 1) x;
      if negb (ret =? 0) then Done (after_unlock ret, st1)
      else
        let st2 := {| ipa_desc := ipa_desc st1; tables := tables st1;
                      table_cnt := u8 (table_cnt st1 - 1) |} in
        Done (after_unlock 0, close_if_unused st2).

(** The part of ipa_ipv6ct_add_rule under the lock, on the table: result,
    table and new handle. *)
Definition add_rule_locked (t : ipa_table) (user_rule : ipa_ipv6ct_rule) :
    exec (Z * ipa_table * Z) :=
  new_entry_index ← ipa_ipv6ct_hash user_rule (u16 (table_entries t - 1));
  r ← ipa_table_add_entry t user_rule new_entry_index (Some 0) empty_cmd;
  let '(ret, t, new_entry_index, hdl, cmd) := r in
  cmd ← in_buffer IPA_MAX_DMA_ENTRIES_FOR_ADD cmd;
  if negb (ret =? 0) then Done (ret, t, 0)
  else
    h ← deref hdl;
    let '(ret, ds) := ipa_ipv6ct_post_dma_cmd cmd in
    let t := dma_apply ds t in
    if negb (ret =? 0) then
      t ← ipa_table_erase_entry t new_entry_index; Done (ret, t, 0)
    else Done (0, t, h).

Definition ipa_ipv6ct_add_rule (st : ipa_ipv6ct) (table_handle : Z)
    (user_rule : option ipa_ipv6ct_rule) (rule_handle : option Z) :
    exec (Z * option Z * ipa_ipv6ct) :=
  d ← deref (ipa_desc st);
  if ver d <? IPA_HW_v4_0 then Done (- EINVAL, rule_handle, st)
  else if (table_handle =? IPA_TABLE_INVALID_ENTRY) || (table_handle >? IPA_IPV6CT_MAX_TBLS)
  then Done (- EINVAL, rule_handle, st)
  else
    match rule_handle, user_rule with
    | Some rh, Some u =>
        if u_protocol u =? IPA_IPV6CT_INVALID_PROTO_FIELD_CMP
        then Done (- EINVAL, rule_handle, st)
        else if negb env_lock then Done (- EINVAL, rule_handle, st)
        else
          x ← deref (zlookup (tables st) (table_handle - 1));
          if negb (valid (mem_desc x)) then Done (- EINVAL, rule_handle, st)
          else
            r ← add_rule_locked (table x) u;
            let '(ret, t, h) := r in
            st1 ← set_table st (table_handle - 1) {| mem_desc := mem_desc x; table := t |};
            if negb (ret =? 0) then Done (ret, rule_handle, st1)
            else if negb env_unlock then Done (- EPERM, rule_handle, st1)
            else Done (0, Some h, st1)
    | _, _ => Done (- EINVAL, rule_handle, st)
    end.

(** The protocol test of the predecessor. *)
Definition is_prev_empty (t : ipa_table) (it : ipa_table_iterator) : exec bool :=
  match prev_entry it with
  | None => Done false
  | Some _ =>
      e ← load_rec t (prev_entry it);
      Done (fget protocol e =? IPA_IPV6CT_INVALID_PROTO_FIELD_CMP)
  end.

(** The part of ipa_ipv6ct_del_rule under the lock. *)
Definition del_rule_locked (t : ipa_table) (rule_handle : Z) : exec (Z * ipa_table) :=
  match ipa_table_get_entry t rule_handle with
  | (ret, Some (entry, index)) =>
      r ← ipa_table_iterator_init t entry index;
      let '(ret, it) := r in
      if negb (ret =? 0) then Done (ret, t)
      else
        cmd ← ipa_table_create_delete_command t empty_cmd it;
        cmd ← in_buffer IPA_MAX_DMA_ENTRIES_FOR_DEL cmd;
        let '(ret, ds) := ipa_ipv6ct_post_dma_cmd cmd in
        let t := dma_apply ds t in
        if negb (ret =? 0) then Done (ret, t)
        else if ipa_table_iterator_is_head_with_tail it then Done (0, t)
        else
          pe ← is_prev_empty t it;
          t ← ipa_table_delete_entry t it pe;
          Done (0, t)
  | (ret, None) => Done (ret, t)
  end.

Definition ipa_ipv6ct_del_rule (st : ipa_ipv6ct) (table_handle rule_handle : Z) :
    exec (Z * ipa_ipv6ct) :=
  d ← deref (ipa_desc st);
  if ver d <? IPA_HW_v4_0 then Done (- EINVAL, st)
  else if (table_handle =? IPA_TABLE_INVALID_ENTRY) || (table_handle >? IPA_IPV6CT_MAX_TBLS)
       || (rule_handle =? IPA_TABLE_INVALID_ENTRY)
  then Done (- EINVAL, st)
  else if negb env_lock then Done (- EINVAL, st)
  else
    x ← deref (zlookup (tables st) (table_handle - 1));
    if negb (valid (mem_desc x)) then Done (after_unlock (- EINVAL), st)
    else
      r ← del_rule_locked (table x) rule_handle;
      let '(ret, t) := r in
      st1 ← set_table st (table_handle - 1) {| mem_desc := mem_desc x; table := t |};
      Done (after_unlock ret, st1).

(** Result and what *time_stamp was set to, if it was. *)
Definition ipa_ipv6ct_query_timestamp (st : ipa_ipv6ct) (table_handle rule_handle : Z)
    (time_stamp_ok : bool) : exec (Z * option Z) :=
  d ← deref (ipa_desc st);
  if ver d <? IPA_HW_v4_0 then Done (- EINVAL, None)
  else if (table_handle =? IPA_TABLE_INVALID_ENTRY) || (table_handle >? IPA_IPV6CT_MAX_TBLS)
       || (rule_handle =? IPA_TABLE_INVALID_ENTRY) || negb time_stamp_ok
  then Done (- EINVAL, None)
  else if negb env_lock then Done (- EINVAL, None)
  else
    x ← deref (zlookup (tables st) (table_handle - 1));
    if negb (valid (mem_desc x)) then Done (after_unlock (- EINVAL), None)
    else
      match ipa_table_get_entry (table x) rule_handle with
      | (ret, None) => Done (after_unlock ret, None)
      | (ret, Some (entry, _)) =>
          e ← load_rec (table x) entry;
          Done (after_unlock 0, Some (fget time_stamp e))
      end.

Definition ipa_ipv6ct_add_uc_act_entry (st : ipa_ipv6ct) : exec Z :=
  _ ← deref (ipa_desc st);
  Done (if negb (env_uc_add =? 0) then - EIO else 0).
Definition ipa_ipv6ct_del_uc_act_entry (st : ipa_ipv6ct) (index : Z) : exec Z :=
  _ ← deref (ipa_desc st);
  Done (if negb (env_uc_del index =? 0) then - EIO else 0).
End Ipv6ct.
