(* ===== verification/IpaIpv6ctSpec.v ===== *)
(** Correctness of the IPv6 connection tracking API: its table as a map from
    record indexes to live rules, and what every call does to that map. *)
From S2P Require Import Prelude.
From S2P Require Import Bits.
From S2P Require Import Chains.
From S2P Require Import IpaTable.
From S2P Require Import IpaTableSize.
From S2P Require Import IpaMemDesc.
From S2P Require Import IpaDma.
From S2P Require Import IpaTableWf.
From S2P Require Import IpaTableAdd.
From S2P Require Import IpaTableDel.
From S2P Require Import IpaTableMark.
From S2P Require Import IpaTableInit.
From S2P Require Import IpaIpv6ctEntry.
From S2P Require Import IpaIpv6ct.

(** ** The invariant and the abstraction *)
Abbreviation ct_table_ok t ch := (table_ok IPA_IPV6CT_BASE_TBL IPA_IPV6CT_EXPN_TBL 0 t ch).

(** A record is dead when it is marked with the invalid protocol: it is kept
    as the head of its chain but matches no packet. *)
Definition dead (v : ct_view) : bool := v_protocol v =? IPA_IPV6CT_INVALID_PROTO_FIELD_CMP.

#[export] Program Instance ct_dead_laws : DeadLaws ipa_ipv6ct_rule := {| lw_dead := dead |}.
Next Obligation. intros c n. change (0 <= 0xFF00 < 65536). lia. Qed.
Next Obligation.
  intros c n e. cbn. unfold dead, ct_read, table_entry_get_delete_head_dma_command_data.
  cbn [v_protocol]. rewrite fget_fset_within by reflexivity. reflexivity.
Qed.

(** The rules in force. *)
Abbreviation live := (live (U := ipa_ipv6ct_rule)).

Record ct_ok (t : ipa_table) (ch : chain_map) : Prop := {
  ct_tbl : ct_table_ok t ch;
  ct_nmi : nmi t = IPA_NAT_MEM_IN_DDR;
  ct_dims : exists k, 1 <= k <= 12 /\ table_entries t = 2 ^ k;
  ct_expn : 2 <= expn_table_entries t <= 4096;
  ct_dead : forall i v, content t i = Some v -> dead v = true ->
    exists c r, ch i = i :: c :: r }.

Section Spec.
Context {ENV : ct_env} {HWS : IpaHwSpec}.

(** ** The commands are executed all or none *)
Lemma ct_post_all_or_none ds :
  (length ds <= 2)%nat ->
  ipa_ipv6ct_post_dma_cmd (cmd_app empty_cmd ds) = (0, ds) \/
  ipa_ipv6ct_post_dma_cmd (cmd_app empty_cmd ds) = (- EIO, []).
Proof.
  intros Hl. unfold ipa_ipv6ct_post_dma_cmd, ioctl_table_dma_cmd. cbn [entries dma cmd_app empty_cmd app].
  set (cmd := {| entries := _; mem_type := _; dma := _ |}).
  assert (He : Z.to_nat (entries cmd) = length ds).
  { unfold cmd. destruct ds as [|d1 [|d2 [|d3 ds]]]; cbn in *; try reflexivity; lia. }
  destruct (table_dma_all_or_none env_kernel cmd) as [-> | (r & Hr & ->)].
  - left. rewrite He. unfold cmd. cbn [dma]. now rewrite firstn_all.
  - right. now rewrite (proj2 (Z.eqb_neq r 0)).
Qed.

(** A command of the library's: a 16-bit field of one of the table's
    records. *)
Definition addressed (t : ipa_table) (d : nat_dma_one) : Prop :=
  exists off i v, d = one_at IPA_IPV6CT_BASE_TBL IPA_IPV6CT_EXPN_TBL 0 t off i v /\
    0 <= off /\ off + 2 <= sizeof_ipa_ipv6ct_hw_entry /\ 0 <= i < tot t.
(** The kernel refused a list of such commands. *)
Definition dma_refused (t : ipa_table) : Prop :=
  exists ds, (0 < length ds <= 2)%nat /\ Forall (addressed t) ds /\
    ipa_ipv6ct_post_dma_cmd (cmd_app empty_cmd ds) = (- EIO, []).

(** A kernel that was told the table's dimensions, is up, and whose
    hardware executes what it is sent. *)
Record ct_kernel_ready (t : ipa_table) : Prop := {
  kr_dev : nat_is_dev_init env_kernel = true;
  kr_hw : ipv6ct_is_hw_init env_kernel = true;
  kr_ver : IPA_HW_v4_0 <= ipa_hw_type env_kernel;
  kr_base : ipv6ct_entries env_kernel = table_entries t - 1;
  kr_expn : ipv6ct_expn_entries env_kernel = expn_table_entries t;
  kr_imm : forall i, imm_cmd_ok env_kernel i = true;
  kr_send : forall ds, hw_send_cmd ds = 0 }.

(** The kernel's validation accepts every such command. *)
Lemma validate_addressed t m d :
  ct_kernel_ready t -> table_geom IPA_IPV6CT_BASE_TBL IPA_IPV6CT_EXPN_TBL 0 t -> addressed t d ->
  ipa3_table_validate_table_dma_one env_kernel m d = 0.
Proof.
  intros K G (off & i & v & -> & Ho & Ho2 & Hi). unfold ipa3_table_validate_table_dma_one.
  pose proof (g_base _ _ _ _ G). pose proof (g_expn _ _ _ _ G). pose proof (g_bytes _ _ _ _ G) as Hb.
  change lw_size with 64 in Hb. change sizeof_ipa_ipv6ct_hw_entry with 64 in Ho2. unfold tot in *.
  cbn [one_at table_index base_addr offset lw_size ct_laws]. change (0 >=? 1) with false.
  change sizeof_ipa_ipv6ct_hw_entry with 64. cbn iota.
  pose proof (kr_hw _ K) as Hw. pose proof (kr_ver _ K).
  destruct (i >=? table_entries t) eqn:E; zb;
    (cbn [IPA_NAT_BASE_TBL IPA_NAT_INDEX_EXPN_TBL IPA_IPV6CT_BASE_TBL IPA_IPV6CT_EXPN_TBL Z.leb
      Z.compare Pos.compare Pos.compare_cont andb orb Z.eqb Pos.eqb];
     rewrite (proj2 (Z.ltb_ge _ _)) by done; rewrite Hw; cbn [negb Z.eqb];
     unfold ipa3_nat_ipv6ct_calculate_table_size;
     cbn [IPA_NAT_BASE_TBL IPA_NAT_EXPN_TBL IPA_NAT_INDX_TBL IPA_NAT_INDEX_EXPN_TBL
       IPA_IPV6CT_BASE_TBL IPA_IPV6CT_EXPN_TBL Z.eqb Pos.eqb];
     rewrite ?(kr_base _ K), ?(kr_expn _ K); unfold IPAHAL_NAT_IPV6CT_size;
     rewrite u32_small by lia).
  - rewrite (proj2 (Z.eqb_neq _ 0)) by lia. rewrite Z.geb_leb, (proj2 (Z.leb_gt _ _)) by lia. done.
  - rewrite (proj2 (Z.eqb_neq _ 0)) by lia. rewrite Z.geb_leb, (proj2 (Z.leb_gt _ _)) by lia. done.
Qed.

Lemma ready_not_refused t :
  ct_kernel_ready t -> table_geom IPA_IPV6CT_BASE_TBL IPA_IPV6CT_EXPN_TBL 0 t -> ~ dma_refused t.
Proof.
  intros K G (ds & Hl & Ha & Hp).
  assert (Hv : forall m, validate_all env_kernel m ds = 0).
  { intros m. clear Hl Hp. induction Ha as [|d ds Hd _ IH]; [done|]. cbn [validate_all].
    now rewrite (validate_addressed t m d K G Hd). }
  unfold ipa_ipv6ct_post_dma_cmd, ioctl_table_dma_cmd, ipa3_table_dma_cmd in Hp.
  cbn [entries mem_type dma cmd_app empty_cmd app] in Hp.
  set (n := foldl _ _ ds) in Hp.
  assert (Hn : n = Z.of_nat (length ds) /\ 1 <= n <= 2).
  { unfold n. destruct ds as [|d1 [|d2 [|d3 ds]]]; cbn in Hl; try lia; cbn; now split. }
  destruct Hn as [Hn1 Hn2]. rewrite Hn1, Nat2Z.id, firstn_all, Hv in Hp.
  rewrite (kr_dev _ K) in Hp. cbn [negb Z.eqb] in Hp.
  assert (Hm : IPA_VALID_NAT_MEM_IN (if sram_compatible env_kernel then IPA_NAT_MEM_IN_DDR else 0) = true)
    by now destruct (sram_compatible env_kernel).
  rewrite Hm in Hp. cbn [negb] in Hp. rewrite <- Hn1 in Hp.
  assert (Hmax : (n =? 0) || (n >? IPA_MAX_NUM_OF_TABLE_DMA_CMD_DESC -
             (if coal_ep_mapped env_kernel then 1 else 0) - 1) = false).
  { unfold IPA_MAX_NUM_OF_TABLE_DMA_CMD_DESC. rewrite Z.gtb_ltb. apply orb_false_iff.
    split; [zb; lia|]. zb. destruct (coal_ep_mapped env_kernel); lia. }
  rewrite Hmax in Hp.
  assert (Himm : forall l, forallb (imm_cmd_ok env_kernel) l = true)
    by (intros l; apply forallb_forall; intros; apply K).
  rewrite Himm, (kr_send _ K) in Hp. cbn in Hp. discriminate Hp.
Qed.

Lemma ct_shape t t' ch ch' :
  ct_ok t ch -> same_shape t t' -> ct_table_ok t' ch' ->
  (forall i v, content t' i = Some v -> dead v = true -> exists c r, ch' i = i :: c :: r) ->
  ct_ok t' ch'.
Proof.
  intros [Ht Hn Hd He _] (Hb & Hx & _ & _ & _ & _ & _ & Hnm) Ht' Hde. split; auto.
  - now rewrite Hnm.
  - now rewrite Hb.
  - now rewrite Hx.
Qed.

(** ** Adding a rule *)

(** The outcome of adding a rule to a table: a new live rule at an unused
    index, or nothing changed. *)
Definition added (t : ipa_table) (u : ipa_ipv6ct_rule) (t' : ipa_table) (h : Z) : Prop :=
  exists i, 0 < i < tot t /\ h = MakeEntryHdl t i /\ content t i = None /\
    forall j, content t' j = upd (content t) i (Some (ct_wanted u)) j.
Definition unchanged (t t' : ipa_table) : Prop := forall j, content t' j = content t j.

Lemma pending_length t ch (w : ct_view) b i t' ds :
  ct_table_ok t ch ->
  pending IPA_IPV6CT_BASE_TBL IPA_IPV6CT_EXPN_TBL 0 t ch w b i t' ds ->
  (0 < length ds <= 2)%nat /\ Forall (addressed t) ds /\ same_shape t t' /\
    content t i = None /\ 0 < i < tot t.
Proof.
  intros T (e' & hd & _ & Hi & HL & _ & _ & Hs & _ & _ & _ & _ & _ & _ & _ & _ & Hd & ->).
  split_and!; try done; try apply Hi.
  - destruct hd; destruct (ch b); cbn; try lia. now destruct Hd as (_ & Hd & _).
  - destruct hd; destruct (ch b); cbn; lia.
  - apply Forall_app. split.
    + destruct hd; repeat constructor. exists lw_head, i, z. split; [done|].
      change (0 <= 34 /\ 34 + 2 <= 64 /\ 0 <= i < tot t). lia.
    + destruct (ch b) as [|h tl] eqn:E; repeat constructor. rewrite <- E in *.
      destruct (lst_split (ch b)) as [l El]; [now rewrite E|].
      destruct (chain_slot _ _ _ t ch b l _ [] T El) as [Hx _].
      exists lw_next, (lst 0 (ch b)), i. split; [done|].
      change (0 <= 40 /\ 40 + 2 <= 64 /\ 0 <= lst 0 (ch b) < tot t). lia.
  - unfold content. unfold link, links_of, rlink in HL.
    destruct (zlookup (recs t) i); [|done]. unfold rview. cbn in *.
    now destruct (table_entry_is_valid z).
Qed.

Lemma refused_direction u ret :
  refused u ret -> ret <> 0 -> ret = - EINVAL /\ exists x, u_direction_settings u = DIRECTION_OTHER x.
Proof.
  intros (e & e' & _ & H) Hr.
  assert (Hf : fst (table_entry_copy_from_user e u) = ret).
  { unfold entry_head_insert, entry_tail_insert, ct_interface, table_entry_head_insert,
      table_entry_tail_insert in H.
    destruct (table_entry_copy_from_user e u) as [r e1]. cbn [fst].
    destruct H as [[d H]|H]; destruct (negb (r =? 0)); congruence. }
  unfold table_entry_copy_from_user in Hf.
  destruct (u_direction_settings u); cbn [fst] in Hf; try congruence.
  split; [done|]. now exists value.
Qed.

(** The commands executed: the rule's record is linked in. *)
Lemma add_committed t ch u b i t1 ds :
  ct_ok t ch -> u_protocol u <> IPA_IPV6CT_INVALID_PROTO_FIELD_CMP ->
  pending IPA_IPV6CT_BASE_TBL IPA_IPV6CT_EXPN_TBL 0 t ch (lw_img u) b i t1 ds ->
  ct_ok (dma_apply ds t1) (upd ch b (ch b ++ [i])) /\ same_shape t (dma_apply ds t1) /\
  forall j, content (dma_apply ds t1) j = upd (content t) i (Some (lw_img u)) j.
Proof.
  intros OK Hp P. pose proof (Build_marked_ok _ _ _ t ch (ct_tbl _ _ OK) (ct_dead _ _ OK)) as M.
  destruct (pending_length _ _ _ _ _ _ _ (ct_tbl _ _ OK) P) as (_ & _ & Hs & _).
  destruct (dma_apply_shape ds t1) as [Hs1 _].
  destruct (marked_commit _ _ _ t ch (lw_img u) b i t1 ds M) as [M' Hc]; [|exact P|].
  { cbn. unfold dead. cbn. zb. exact Hp. }
  assert (Hs2 : same_shape t (dma_apply ds t1)) by (eapply same_shape_trans; eauto).
  split; [|done]. apply (ct_shape t _ ch _ OK Hs2); apply M'.
Qed.

Lemma add_rule_locked_spec t ch u :
  ct_ok t ch -> rule_typed u -> u_protocol u <> IPA_IPV6CT_INVALID_PROTO_FIELD_CMP ->
  exists ret t' h, add_rule_locked t u = Done (ret, t', h) /\
    (exists ch', ct_ok t' ch') /\ same_shape t t' /\
    ((ret = 0 /\ added t u t' h) \/
     (ret = - EIO /\ unchanged t t' /\ dma_refused t) \/
     (ret = - EINVAL /\ unchanged t t' /\ exists x, u_direction_settings u = DIRECTION_OTHER x) \/
     (ret = -1 /\ unchanged t t' /\ exists b, 0 < b < table_entries t /\ content t b <> None /\
        forall c, table_entries t <= c < tot t -> content t c <> None)).
Proof.
  intros OK Hu Hp. pose proof (ct_tbl _ _ OK) as T. pose proof (ok_geom _ _ _ _ _ T) as G.
  pose proof (g_base _ _ _ _ G). destruct (ct_dims _ _ OK) as (k & Hk & Hb).
  assert (2 ^ k <= 4096) by (apply (Z.pow_le_mono_r 2 k 12); lia).
  unfold add_rule_locked. rewrite (u16_small (table_entries t - 1)) by lia.
  destruct (hash_ok u (table_entries t - 1) Hu ltac:(lia)) as (b & -> & Hbr & _).
  cbn [mbind exec_bind].
  destruct (add_entry_spec IPA_IPV6CT_BASE_TBL IPA_IPV6CT_EXPN_TBL 0 t ch b u (Some 0) empty_cmd T)
    as (ret & t1 & i & hdl & cmd & -> & Hr); [lia|exact Hu|].
  cbn [mbind exec_bind].
  destruct Hr as [(-> & ds & P & -> & ->)|(Hr & -> & -> & T1 & Hs & Hc & Hwhy)].
  - destruct (pending_length _ _ _ _ _ _ _ T P) as (Hl & Haddr & Hs & Hci & Hi).
    rewrite in_buffer_ok by (unfold zlength, IPA_MAX_DMA_ENTRIES_FOR_ADD; cbn; lia).
    cbn [mbind exec_bind Z.eqb negb deref].
    destruct (ct_post_all_or_none ds (proj2 Hl)) as [-> | Hpost]; [|rewrite Hpost]; cbn [Z.eqb negb].
    + destruct (add_committed t ch u b i t1 ds OK Hp P) as (OK2 & Hs2 & Hc2).
      do 3 eexists. split; [reflexivity|]. split_and!; [eauto|exact Hs2|].
      left. split; [done|]. exists i.
      split; [exact Hi|split; [done|split; [exact Hci|exact Hc2]]].
    + destruct (pending_abort _ _ _ _ _ _ _ _ _ _ T P) as (t3 & He & T3 & Hs3 & Hc3).
      unfold dma_apply. cbn [foldl]. rewrite He. cbn [mbind exec_bind].
      do 3 eexists. split; [reflexivity|]. split_and!; [|exact Hs3|].
      2:{ right. left. split; [done|]. split; [exact Hc3|]. now exists ds. }
      exists ch. apply (ct_shape t _ ch _ OK Hs3 T3). intros j v. rewrite Hc3. apply OK.
  - rewrite in_buffer_ok by done. cbn [mbind exec_bind].
    rewrite (proj2 (Z.eqb_neq ret 0)) by done. cbn [negb].
    do 3 eexists. split; [reflexivity|]. split_and!; [|exact Hs|].
    + exists ch. apply (ct_shape t _ ch _ OK Hs T1). intros j v. rewrite Hc. apply OK.
    + destruct Hwhy as [Href|(-> & Hch & Hfull)].
      * destruct (refused_direction u ret Href Hr) as [-> Hd].
        right. right. left. split; [done|split; [exact Hc|exact Hd]].
      * right. right. right. split_and!; try done. exists b. split_and!; [lia..| |].
        -- intros Hcb. apply Hch. apply (bucket_nil _ _ _ _ _ b T ltac:(lia)).
           exact (proj1 (content_link _ _ _ t b G) Hcb).
        -- intros c Hcr Hcc. apply (Hfull c Hcr). exact (proj1 (content_link _ _ _ t c G) Hcc).
Qed.

(** ** Deleting a rule *)
(** What ipa_ipv6ct_del_rule does once the commands are executed. *)
Lemma del_finish t ch b l i r :
  ct_ok t ch -> ch b = l ++ i :: r ->
  let t1 := dma_apply (delete_cmds IPA_IPV6CT_BASE_TBL IPA_IPV6CT_EXPN_TBL 0 t l i r) t in
  let it := iter_at l i r in
  exists t',
    (if ipa_table_iterator_is_head_with_tail it then Done (0, t1)
     else pe ← is_prev_empty t1 it; t2 ← ipa_table_delete_entry t1 it pe; Done (0, t2))
      = Done (0, t') /\
    (exists ch', ct_ok t' ch') /\ same_shape t t' /\
    forall j, live t' j = upd (live t) i None j.
Proof.
  intros OK E. pose proof (Build_marked_ok _ _ _ t ch (ct_tbl _ _ OK) (ct_dead _ _ OK)) as M.
  destruct (mark_delete _ _ _ t ch b l i r M E) as (t' & Hf & (ch' & M') & Hs & Hlv).
  exists t'. split; [exact Hf|]. split; [|split; [exact Hs|exact Hlv]].
  exists ch'. apply (ct_shape t t' ch ch' OK Hs); apply M'.
Qed.

Lemma delete_cmds_length (t : ipa_table) l i r :
  length (delete_cmds IPA_IPV6CT_BASE_TBL IPA_IPV6CT_EXPN_TBL 0 t l i r) = 1%nat.
Proof. now destruct l, r. Qed.

Lemma del_rule_locked_spec t ch h i :
  ct_ok t ch -> ipa_table_get_entry t h = (0, Some (Some i, i)) -> 0 <= i < tot t ->
  exists ret t', del_rule_locked t h = Done (ret, t') /\
    (exists ch', ct_ok t' ch') /\ same_shape t t' /\
    ((ret = 0 /\ content t i <> None /\ forall j, live t' j = upd (live t) i None j) \/
     (ret = - EIO /\ content t i <> None /\ t' = t) \/
     (ret = - EINVAL /\ content t i = None /\ t' = t)).
Proof.
  intros OK Hh Hi. pose proof (ct_tbl _ _ OK) as T. pose proof (ok_geom _ _ _ _ _ T) as G.
  unfold del_rule_locked. rewrite Hh.
  destruct (link t i) as [[p n]|] eqn:HL.
  - destruct (slot_used _ _ _ t ch i p n T HL) as (b & l & r & E & _ & _).
    rewrite (iterator_init_ok _ _ _ t ch b l i r T E). cbn [mbind exec_bind Z.eqb negb].
    rewrite (create_delete_command_ok _ _ _ t ch b l i r empty_cmd T E). cbn [mbind exec_bind].
    pose proof (delete_cmds_length t l i r) as Hl.
    rewrite in_buffer_ok by (unfold zlength, IPA_MAX_DMA_ENTRIES_FOR_DEL; cbn; rewrite Hl; lia).
    cbn [mbind exec_bind].
    assert (Hc : content t i <> None).
    { intros Hc. apply (content_link _ _ _ t i G) in Hc. congruence. }
    destruct (ct_post_all_or_none (delete_cmds IPA_IPV6CT_BASE_TBL IPA_IPV6CT_EXPN_TBL 0 t l i r))
      as [-> | ->]; [lia| |]; cbn [Z.eqb negb].
    + destruct (del_finish t ch b l i r OK E) as (t' & Hf & OK' & Hs & Hlv).
      cbn [mbind exec_bind] in Hf. rewrite Hf. eauto 10.
    + eexists _, _. split; [reflexivity|]. split; [eauto|]. split; [now unfold same_shape|].
      right. left. done.
  - destruct (slot_free _ _ _ t ch i T Hi HL) as (e & E & Ev & _).
    rewrite (iterator_init_free t i e E Ev). cbn [mbind exec_bind]. eexists _, _.
    split; [reflexivity|]. split; [eauto|]. split; [now unfold same_shape|]. right. right.
    split; [done|]. split; [now apply (content_link _ _ _ t i G)|done].
Qed.

(** A table's handles name its records. *)
Lemma ct_handle t ch i :
  ct_ok t ch -> 0 <= i < tot t -> ipa_table_get_entry t (MakeEntryHdl t i) = (0, Some (Some i, i)).
Proof.
  intros OK Hi. destruct (ct_dims _ _ OK) as (k & Hk & Hb). pose proof (ct_expn _ _ OK).
  assert (0 <= 2 ^ k <= 4096).
  { split; [apply Z.pow_nonneg; lia|]. apply (Z.pow_le_mono_r 2 k 12); lia. }
  apply get_entry_handle; try lia.
  - rewrite (ct_nmi _ _ OK). unfold IPA_NAT_MEM_IN_DDR. lia.
  - apply (g_tot _ _ _ _ (ok_geom _ _ _ _ _ (ct_tbl _ _ OK))).
  - exact Hi.
Qed.

(** ** The states of the library *)

(** One table in use, well formed. *)
Inductive ct_open (st : ipa_ipv6ct) (t : ipa_table) : Prop :=
| CtOpen d x ch :
    ipa_desc st = Some d -> IPA_HW_v4_0 <= ver d -> tables st = [x] -> table_cnt st = 1 ->
    valid (mem_desc x) = true -> table x = t -> ct_ok t ch -> ct_open st t.

(** No table: before any, after a failed creation and after deletion. *)
Inductive ct_closed (st : ipa_ipv6ct) : Prop :=
| CtClosed x :
    ipa_desc st = None -> tables st = [x] -> table_cnt st = 0 ->
    valid (mem_desc x) = false -> ct_closed st.

(** Deletion failed in the kernel: the table is zeroed but still counted. *)
Inductive ct_stuck (st : ipa_ipv6ct) : Prop :=
| CtStuck d :
    ipa_desc st = Some d -> IPA_HW_v4_0 <= ver d -> tables st = [zero_ct_table] ->
    table_cnt st = 1 -> ct_stuck st.

Lemma start_closed : ct_closed ipv6ct_start.
Proof. now apply (CtClosed _ zero_ct_table). Qed.

Lemma set_table_one st x y :
  tables st = [x] ->
  set_table st 0 y = Done {| ipa_desc := ipa_desc st; tables := [y]; table_cnt := table_cnt st |}.
Proof. intros H. unfold set_table. now rewrite H. Qed.
End Spec.
