(* ===== verification/IpaIpv6ctApi.v ===== *)
(** The contract of the IPv6 connection tracking API, call by call, for any
    answers of the kernel and of libc, and for any sequence of calls. *)
From S2P Require Import Prelude.
From S2P Require Import Bits.
From S2P Require Import Chains.
From S2P Require Import IpaTable.
From S2P Require Import IpaTableSize.
From S2P Require Import IpaMemDesc.
From S2P Require Import IpaDma.
From S2P Require Import IpaTableWf.
From S2P Require Import IpaTableAdd.
From S2P Require Import IpaTableDel.
From S2P Require Import IpaTableMark.
From S2P Require Import IpaTableInit.
From S2P Require Import IpaIpv6ctEntry.
From S2P Require Import IpaIpv6ct.
From S2P Require Import IpaIpv6ctSpec.

(** The allocation ioctl leaves the offset of the (zeroed) command alone, as
    the driver does: tables start at offset 0 of their memory. *)
Definition offsets_zero `{ct_env} : Prop :=
  forall size, snd (os_alloc IPA_IOC_ALLOC_IPV6CT_TABLE size) = 0.

Section Create.
Context {ENV : ct_env} {HWS : IpaHwSpec}.

(** The geometry of a table of 2^k base and e expansion records. *)
Lemma ct_geom d r addr k e :
  1 <= k <= 12 -> 2 <= e <= 4096 -> 2 ^ k + e <= IPA_TABLE_MAX_ENTRIES ->
  addr_offset d = 0 -> zlength r = 2 ^ k + e ->
  table_geom IPA_IPV6CT_BASE_TBL IPA_IPV6CT_EXPN_TBL 0
    (ipa_ipv6ct_create_table_dma_cmd_helpers d
       (set_recs r (set_addrs addr (addr + sizeof_ipa_ipv6ct_hw_entry * 2 ^ k)
          (set_dims (2 ^ k) e (2 ^ k + e)
             (ipa_table_init IPA_IPV6CT_TABLE_NAME IPA_NAT_MEM_IN_DDR
                sizeof_ipa_ipv6ct_hw_entry None 0)))) 0).
Proof.
  intros Hk He Ht Ho Hl.
  assert (2 <= 2 ^ k) by (apply (Z.pow_le_mono_r 2 1 k); lia).
  unfold IPA_TABLE_MAX_ENTRIES in Ht.
  split; unfold tot; cbn [ipa_ipv6ct_create_table_dma_cmd_helpers set_dma_help set_recs set_addrs
    set_dims ipa_table_init table_entries expn_table_entries tot_tbl_ents entry_size recs meta
    table_addr expn_table_addr dma_help lw_size ct_laws]; try done; try lia.
  - unfold sizeof_ipa_ipv6ct_hw_entry. lia.
  - rewrite Ho. reflexivity.
Qed.

Lemma create_table_spec x n :
  offsets_zero -> valid (mem_desc x) = false -> 0 <= n < 65536 ->
  exists ret x', ipa_ipv6ct_create_table x n 0 = Done (ret, x') /\
    (ret <> 0 -> valid (mem_desc x') = false) /\
    (IPA_TABLE_MAX_ENTRIES < n -> ret = - EINVAL) /\
    (ret = 0 -> valid (mem_desc x') = true /\ ct_ok (table x') no_chains /\
                n - 1 <= tot (table x') /\ forall i, content (table x') i = None).
Proof.
  intros Hoff Hv Hn. unfold ipa_ipv6ct_create_table. set (t0 := ipa_table_init _ _ _ _ _).
  destruct (entries_num_ok t0 n IPA_NAT_MEM_IN_DDR Hn) as (ret & t & -> & Hr & Hbad & Hgood);
    [now left|]. cbn [mbind exec_bind]. destruct (ret =? 0) eqn:Er; zb; cbn [negb].
  2:{ destruct (Hbad Er) as (-> & _). do 2 eexists. split; [reflexivity|]. split; [done|].
      split; done. }
  subst ret. destruct (Hgood eq_refl) as (k & e & -> & Hk & He & _ & Ht & Hcap).
  assert (2 <= 2 ^ k) by (apply (Z.pow_le_mono_r 2 1 k); lia).
  set (size := ipa_table_calculate_size _).
  assert (Hsize : size = 64 * (2 ^ k + e)) by done.
  set (d0 := ipa_mem_descriptor_init _ _ _ _ _ _ _).
  destruct (ipa_mem_descriptor_allocate_memory d0) as [ra d] eqn:Ea.
  destruct (allocate_ok d0 ra d Ea) as (Hok & Hns & _).
  destruct (ra =? 0) eqn:Era; zb; cbn [negb].
  2:{ do 2 eexists. split; [reflexivity|]. split; [done|]. split; [|done].
      intros Hgt. pose proof (proj1 Hr eq_refl) as Hle. cbn in Hle. lia. }
  destruct (Hok Era) as (Hvd & Ho & a & _ & Hma & Hba).
  destruct (Hns Era eq_refl) as [Hsr Hms]. rewrite Hsr in Hba.
  change (orig_rqst_size d0) with size in Hms. change (allocate_ioctl_num d0) with
    IPA_IOC_ALLOC_IPV6CT_TABLE in Ho. rewrite Hoff in Ho.
  unfold ipa_table_calculate_addresses. cbn [entry_size set_dims t0 ipa_table_init table_entries].
  set (r0 := mapped_recs _ _ _ _ _).
  assert (Hr0 : zlength r0 = 2 ^ k + e).
  { unfold r0. rewrite mapped_recs_length; [done|cbn; lia|done|].
    cbn [tot_tbl_ents set_dims]. change sizeof_ipa_ipv6ct_hw_entry with 64. lia. }
  edestruct (reset_ok (set_recs r0 (set_addrs (md_base_addr d)
    (md_base_addr d + sizeof_ipa_ipv6ct_hw_entry * 2 ^ k) (set_dims (2 ^ k) e (2 ^ k + e) t0))))
    as (r & -> & Hrl & Hz); [cbn; lia..|exact Hr0|].
  cbn [mbind exec_bind recs set_recs] in *. do 2 eexists. split; [reflexivity|].
  split; [done|]. split; [intros Hgt; pose proof (proj1 Hr eq_refl) as Hle; cbn in Hle; lia|]. intros _.
  cbn [mem_desc table]. split; [done|].
  pose proof (ct_geom d r (md_base_addr d) k e Hk He Ht Ho ltac:(lia)) as G.
  destruct (empty_ok _ _ _ _ G Hz eq_refl eq_refl) as [T Hc]. split; [|split; [exact Hcap|exact Hc]].
  split; [exact T|done|now exists k|exact He|]. intros i v Hi. rewrite Hc in Hi. discriminate Hi.
Qed.
End Create.

(** ** The calls on a table in use *)
Section Calls.
Context {ENV : ct_env} {HWS : IpaHwSpec}.

Lemma handle_nonzero t ch i :
  ct_ok t ch -> 0 < i < tot t -> MakeEntryHdl t i <> 0.
Proof.
  intros OK Hi H0. pose proof (ct_handle t ch i OK ltac:(lia)) as H. rewrite H0 in H.
  unfold ipa_table_get_entry in H. change (BREAK_RULE_HDL t 0) with (0, 0, 0) in H.
  cbn iota in H. destruct (_ >=? _); [discriminate H|]. unfold GOTO_REC in H.
  injection H as H _. lia.
Qed.

Lemma wanted_live u :
  u_protocol u <> IPA_IPV6CT_INVALID_PROTO_FIELD_CMP -> dead (ct_wanted u) = false.
Proof. intros H. unfold dead. cbn. now zb. Qed.

(** Storing back a changed table leaves the library with it. *)
Lemma ct_open_update st t t' ch' d x :
  ipa_desc st = Some d -> IPA_HW_v4_0 <= ver d -> tables st = [x] -> table_cnt st = 1 ->
  valid (mem_desc x) = true -> table x = t -> ct_ok t' ch' ->
  exists st', set_table st 0 {| mem_desc := mem_desc x; table := t' |} = Done st' /\ ct_open st' t'.
Proof.
  intros Hd Hv Ht Hc Hva Hx OK. rewrite (set_table_one st x) by done. eexists. split; [reflexivity|].
  now apply (CtOpen _ _ d {| mem_desc := mem_desc x; table := t' |} ch').
Qed.

(** What adding a rule may do to the table. *)
Definition rule_added (t : ipa_table) (u : ipa_ipv6ct_rule) (t' : ipa_table) (h : Z) : Prop :=
  exists i, ipa_table_get_entry t' h = (0, Some (Some i, i)) /\ h <> 0 /\ 0 < i < tot t' /\
    live t i = None /\ forall j, live t' j = upd (live t) i (Some (ct_wanted u)) j.
Definition same_rules (t t' : ipa_table) : Prop := forall j, live t' j = live t j.

(** Why adding a rule may be refused. *)
Definition direction_bad (u : ipa_ipv6ct_rule) : Prop :=
  exists x, u_direction_settings u = DIRECTION_OTHER x.
Definition chain_full (t : ipa_table) : Prop :=
  (exists b, 0 < b < table_entries t /\ content t b <> None) /\
  forall c, table_entries t <= c < tot t -> content t c <> None.

Lemma add_rule_open st t u h0 :
  ct_open st t -> rule_typed u ->
  exists ret h st' t', ipa_ipv6ct_add_rule st 1 (Some u) (Some h0) = Done (ret, Some h, st') /\
    ct_open st' t' /\
    ((ret = 0 /\ rule_added t u t' h) \/
     (ret = - EPERM /\ env_unlock = false /\ h = h0 /\ exists h', rule_added t u t' h') \/
     (h = h0 /\ same_rules t t' /\
      (ret = - EIO /\ dma_refused t \/
       ret = - EINVAL /\ (u_protocol u = 0xFF \/ env_lock = false \/ direction_bad u) \/
       ret = -1 /\ chain_full t))).
Proof.
  intros O Hu. pose proof O as [d x ch Hd Hv Ht Hc Hva Hx OK]. unfold ipa_ipv6ct_add_rule.
  rewrite Hd. cbn [mbind exec_bind deref]. rewrite (proj2 (Z.ltb_ge _ _) Hv).
  change ((1 =? IPA_TABLE_INVALID_ENTRY) || (1 >? IPA_IPV6CT_MAX_TBLS))%bool with false. cbn [orb].
  destruct (u_protocol u =? IPA_IPV6CT_INVALID_PROTO_FIELD_CMP) eqn:Ep; zb.
  { exists (- EINVAL), h0, st, t. split; [done|]. split; [done|]. right. right. split; [done|].
    split; [done|]. right. left. split; [done|]. now left. }
  destruct env_lock eqn:El; cbn [negb].
  2:{ exists (- EINVAL), h0, st, t. split; [done|]. split; [done|]. right. right. split; [done|].
      split; [done|]. right. left. split; [done|]. right. now left. }
  rewrite Ht. cbn [zlookup Z.sub Z.add Z.opp Z.pos_sub Z.leb Z.compare Z.to_nat lookup list_lookup
    mbind exec_bind deref]. change (zlookup [x] (1 - 1)) with (Some x).
  cbn [mbind exec_bind deref]. rewrite Hva. cbn [negb]. rewrite Hx.
  destruct (add_rule_locked_spec t ch u OK Hu Ep) as (ret & t' & h & -> & [ch' OK'] & Hs & Hr).
  cbn [mbind exec_bind]. change (1 - 1) with 0.
  destruct (ct_open_update st t t' ch' d x Hd Hv Ht Hc Hva Hx OK') as (st' & -> & O').
  cbn [mbind exec_bind].
  assert (Hadd : added t u t' h -> rule_added t u t' h).
  { intros (i & Hi & -> & Hci & Hct). assert (Htot : tot t' = tot t)
      by (unfold tot; destruct Hs as (-> & -> & _); done).
    assert (Hm : MakeEntryHdl t' i = MakeEntryHdl t i).
    { unfold MakeEntryHdl. destruct Hs as (-> & _ & _ & _ & _ & _ & _ & ->). done. }
    exists i. rewrite <- Hm. split; [apply (ct_handle t' ch' i OK'); lia|].
    split; [apply (handle_nonzero t' ch' i OK'); lia|]. split; [lia|].
    split; [unfold IpaTableMark.live; now rewrite Hci|]. refine (live_set t t' i (ct_wanted u) Hct _). now apply wanted_live. }
  destruct (ret =? 0) eqn:Er; zb; cbn [negb].
  - assert (Ha : added t u t' h) by (destruct Hr as [[_ Ha]|[[? _]|[[? _]|[? _]]]]; [done|subst ret; discriminate..]).
    destruct env_unlock eqn:Eu; cbn [negb].
    + exists 0, h, st', t'. split; [done|]. split; [done|]. left. auto.
    + exists (- EPERM), h0, st', t'. split; [done|]. split; [done|]. right. left.
      split; [done|]. split; [done|]. split; [done|]. exists h. auto.
  - exists ret, h0, st', t'. split; [done|]. split; [done|]. right. right. split; [done|].
    destruct Hr as [[? _]|[(-> & Hun & Href)|[(-> & Hun & Hdir)|(-> & Hun & b & Hb & Hcb & Hfull)]]];
      [done|..]; (split; [exact (live_same t t' Hun)|]).
    + now left.
    + right. left. split; [done|]. right. now right.
    + right. right. split; [done|]. split; [now exists b|exact Hfull].
Qed.

Lemma del_rule_open st t h :
  ct_open st t -> h <> 0 ->
  exists ret st' t', ipa_ipv6ct_del_rule st 1 h = Done (ret, st') /\ ct_open st' t' /\
    ((exists i, ipa_table_get_entry t h = (0, Some (Some i, i)) /\ content t i <> None /\
        (forall j, live t' j = upd (live t) i None j) /\ ret = after_unlock 0) \/
     (t' = t /\ ret <> 0 /\
      (env_lock = false \/
       exists r, ret = after_unlock r /\
       (r = - EIO \/
        r = - EINVAL /\ (ipa_table_get_entry t h = (- EINVAL, None) \/
          exists i, ipa_table_get_entry t h = (0, Some (Some i, i)) /\ content t i = None))))).
Proof.
  intros O Hh. pose proof O as [d x ch Hd Hv Ht Hc Hva Hx OK]. unfold ipa_ipv6ct_del_rule.
  rewrite Hd. cbn [mbind exec_bind deref]. rewrite (proj2 (Z.ltb_ge _ _) Hv).
  change ((1 =? IPA_TABLE_INVALID_ENTRY) || (1 >? IPA_IPV6CT_MAX_TBLS))%bool with false. cbn [orb].
  change (h =? IPA_TABLE_INVALID_ENTRY) with (h =? 0). rewrite (proj2 (Z.eqb_neq h 0)) by done.
  destruct env_lock eqn:El; cbn [negb].
  2:{ exists (- EINVAL), st, t. split; [done|]. split; [done|]. right. split; [done|]. split; [done|]. now left. }
  rewrite Ht. change (zlookup [x] (1 - 1)) with (Some x). cbn [mbind exec_bind deref].
  rewrite Hva. cbn [negb]. rewrite Hx. change (1 - 1) with 0.
  assert (Hau : forall r, r <> 0 -> after_unlock r <> 0).
  { intros r Hr. unfold after_unlock. destruct env_unlock; [done|].
    now rewrite (proj2 (Z.eqb_neq r 0)). }
  assert (Hun : forall r, r <> 0 -> del_rule_locked t h = Done (r, t) ->
    exists ret st' t', (r0 ← del_rule_locked t h; let '(ret, t0) := r0 in
        st1 ← set_table st 0 {| mem_desc := mem_desc x; table := t0 |}; Done (after_unlock ret, st1))
      = Done (ret, st') /\ ct_open st' t' /\ t' = t /\ ret = after_unlock r /\ ret <> 0).
  { intros r Hr ->. cbn [mbind exec_bind].
    destruct (ct_open_update st t t ch d x Hd Hv Ht Hc Hva Hx OK) as (st' & -> & O').
    cbn [mbind exec_bind]. exists (after_unlock r), st', t. split_and!; auto. }
  pose proof (g_base _ _ _ _ (ok_geom _ _ _ _ _ (ct_tbl _ _ OK))) as Hbase.
  destruct (get_entry_total t h ltac:(lia)) as [_ [Hg|(i & Hg & Hi)]].
  - destruct (Hun (- EINVAL)) as (ret & st' & t' & -> & O' & -> & -> & Hr); [done| |].
    { unfold del_rule_locked. now rewrite Hg. }
    do 3 eexists. split; [reflexivity|]. split; [done|]. right. split; [done|]. split; [done|].
    right. exists (- EINVAL). auto.
  - rewrite (g_tot _ _ _ _ (ok_geom _ _ _ _ _ (ct_tbl _ _ OK))) in Hi.
    destruct (del_rule_locked_spec t ch h i OK Hg Hi) as (ret & t' & Hdel & [ch' OK'] & Hs & Hr).
    destruct Hr as [(-> & Hci & Hl)|[(-> & Hci & ->)|(-> & Hci & ->)]].
    + rewrite Hdel. cbn [mbind exec_bind].
      destruct (ct_open_update st t t' ch' d x Hd Hv Ht Hc Hva Hx OK') as (st' & -> & O').
      cbn [mbind exec_bind]. exists (after_unlock 0), st', t'. split; [done|]. split; [done|]. left.
      exists i. auto.
    + destruct (Hun (- EIO)) as (ret & st' & t' & -> & O' & -> & -> & Hr'); [done|done|].
      do 3 eexists. split; [reflexivity|]. split; [done|]. right. split; [done|]. split; [done|].
      right. exists (- EIO). auto.
    + destruct (Hun (- EINVAL)) as (ret & st' & t' & -> & O' & -> & -> & Hr'); [done|done|].
      do 3 eexists. split; [reflexivity|]. split; [done|]. right. split; [done|]. split; [done|].
      right. exists (- EINVAL). split; [done|]. right. split; [done|]. right. eauto.
Qed.

Lemma close_closed st x :
  tables st = [x] -> table_cnt st = 0 -> valid (mem_desc x) = false -> ct_closed (close_if_unused st).
Proof. intros Ht Hc Hv. unfold close_if_unused. rewrite Hc. now apply (CtClosed _ x). Qed.

Lemma add_tbl_closed st n h0 :
  ct_closed st -> offsets_zero -> 0 <= n < 65536 ->
  exists ret h st', ipa_ipv6ct_add_tbl st n (Some h0) = Done (ret, Some h, st') /\
    ((ret = 0 /\ h = 1 /\ n <= IPA_TABLE_MAX_ENTRIES /\
      exists t, ct_open st' t /\ n - 1 <= tot t /\ forall i, live t i = None) \/
     (ret <> 0 /\ ct_closed st')).
Proof.
  intros [x Hd Ht Hc Hv] Hoff Hn. unfold ipa_ipv6ct_add_tbl.
  assert (Hcl : ct_closed st) by now apply (CtClosed _ x).
  destruct (n =? 0) eqn:En; zb.
  { exists (- EINVAL), h0, st. split; [done|]. now right. }
  rewrite Hc, Hd. change (0 >=? IPA_IPV6CT_MAX_TBLS) with false. cbn iota.
  destruct env_open as [d|].
  2:{ exists (- EIO), 0, st. split; [done|]. now right. }
  destruct (ver d <? IPA_HW_v4_0) eqn:Ev; zb.
  { eexists (- EPERM), 0, _. split; [reflexivity|]. right. split; [done|]. now apply close_closed with x. }
  cbn [tables table_cnt]. rewrite Ht. change (zlookup [x] 0) with (Some x). cbn [mbind exec_bind deref].
  destruct (create_table_spec x n Hoff Hv Hn) as (ret & x' & -> & Hbad & Hbig & Hgood).
  cbn [mbind exec_bind]. rewrite (set_table_one _ x x') by done. cbn [mbind exec_bind].
  destruct (ret =? 0) eqn:Er; zb; cbn [negb].
  2:{ eexists ret, 0, _. split; [reflexivity|]. right. split; [done|].
      apply close_closed with x'; [done|done|now apply Hbad]. }
  destruct (Hgood Er) as (Hva & OK & Hcap & Hct).
  destruct (ipa_ipv6ct_post_init_cmd x' 0 =? 0) eqn:Ei; zb; cbn [negb].
  - change (u8 (0 + 1)) with 1. eexists 0, 1, _. split; [reflexivity|]. left. split; [done|].
    split; [done|]. split; [destruct (decide (n <= IPA_TABLE_MAX_ENTRIES)); [done|];
      rewrite Hbig in Er by lia; done|].
    exists (table x'). split; [now apply (CtOpen _ _ d x' no_chains)|]. split; [done|].
    intros i. unfold IpaTableMark.live. now rewrite Hct.
  - unfold ipa_ipv6ct_destroy_table.
    rewrite (set_table_one _ x' zero_ct_table) by done. cbn [mbind exec_bind].
    eexists _, 0, _. split; [reflexivity|]. right. split; [done|].
    now apply close_closed with zero_ct_table.
Qed.

Lemma del_tbl_open st t :
  ct_open st t ->
  exists ret st', ipa_ipv6ct_del_tbl st 1 = Done (ret, st') /\
    ((ret = after_unlock 0 /\ ct_closed st') \/ (ret <> 0 /\ ct_stuck st') \/
     (ret = - EINVAL /\ env_lock = false /\ st' = st)).
Proof.
  intros [d x ch Hd Hv Ht Hc Hva Hx OK]. unfold ipa_ipv6ct_del_tbl.
  rewrite Hd. cbn [mbind exec_bind deref]. rewrite (proj2 (Z.ltb_ge _ _) Hv).
  change ((1 =? IPA_TABLE_INVALID_ENTRY) || (1 >? IPA_IPV6CT_MAX_TBLS))%bool with false.
  destruct env_lock eqn:El; cbn [negb].
  2:{ exists (- EINVAL), st. split; [done|]. right. right. auto. }
  rewrite Ht. change (zlookup [x] (1 - 1)) with (Some x). cbn [mbind exec_bind deref].
  rewrite Hva. cbn [negb]. unfold ipa_ipv6ct_destroy_table. change (1 - 1) with 0.
  set (ret := fst _). rewrite (set_table_one _ x zero_ct_table) by done. cbn [mbind exec_bind].
  destruct (ret =? 0) eqn:Er; zb; cbn [negb].
  - eexists _, _. split; [reflexivity|]. left. split; [done|]. cbn [table_cnt]. rewrite Hc.
    change (u8 (1 - 1)) with 0. apply close_closed with zero_ct_table; done.
  - eexists _, _. split; [reflexivity|]. right. left. split.
    + unfold after_unlock. destruct env_unlock; [done|]. now rewrite (proj2 (Z.eqb_neq ret 0)).
    + now apply (CtStuck _ d).
Qed.

(** In the stuck state every call is refused and changes nothing. *)
Lemma stuck_calls st :
  ct_stuck st ->
  (forall n h, exists ret h', ipa_ipv6ct_add_tbl st n h = Done (ret, h', st) /\ ret <> 0) /\
  (forall th, th <= 1 -> 0 <= th -> exists ret, ipa_ipv6ct_del_tbl st th = Done (ret, st) /\ ret <> 0) /\
  (forall u h, exists ret, ipa_ipv6ct_add_rule st 1 u h = Done (ret, h, st) /\ ret <> 0) /\
  (forall h, exists ret, ipa_ipv6ct_del_rule st 1 h = Done (ret, st) /\ ret <> 0).
Proof.
  intros [d Hd Hv Ht Hc].
  assert (Hau : after_unlock (- EINVAL) <> 0) by (unfold after_unlock; now destruct env_unlock).
  split_and!.
  - intros n [h|]; unfold ipa_ipv6ct_add_tbl; [|now eexists _, _].
    destruct (n =? 0); [now eexists _, _|]. rewrite Hc. now eexists _, _.
  - intros th H1 H0. unfold ipa_ipv6ct_del_tbl. rewrite Hd. cbn [mbind exec_bind deref].
    rewrite (proj2 (Z.ltb_ge _ _) Hv). assert (th = 0 \/ th = 1) as [-> | ->] by lia; [now eexists|].
    change ((1 =? IPA_TABLE_INVALID_ENTRY) || (1 >? IPA_IPV6CT_MAX_TBLS))%bool with false.
    destruct env_lock; cbn [negb]; [|now eexists]. rewrite Ht. now eexists.
  - intros u h. unfold ipa_ipv6ct_add_rule. rewrite Hd. cbn [mbind exec_bind deref].
    rewrite (proj2 (Z.ltb_ge _ _) Hv).
    change ((1 =? IPA_TABLE_INVALID_ENTRY) || (1 >? IPA_IPV6CT_MAX_TBLS))%bool with false. cbn iota.
    destruct h as [h|], u as [u|]; try now eexists. destruct (_ =? _); [now eexists|].
    destruct env_lock; cbn [negb]; [|now eexists]. rewrite Ht. now eexists.
  - intros h. unfold ipa_ipv6ct_del_rule. rewrite Hd. cbn [mbind exec_bind deref].
    rewrite (proj2 (Z.ltb_ge _ _) Hv).
    change ((1 =? IPA_TABLE_INVALID_ENTRY) || (1 >? IPA_IPV6CT_MAX_TBLS))%bool with false. cbn [orb].
    destruct (h =? _); [now eexists|].
    destruct env_lock; cbn [negb]; [|now eexists]. rewrite Ht. now eexists.
Qed.
End Calls.

(** ** Sequences of calls *)

(** One call, in any environment whose hardware does what is documented. *)
Inductive ct_call (st st' : ipa_ipv6ct) : Prop :=
| call_add_tbl (E : ct_env) (H : IpaHwSpec) n h0 ret h :
    offsets_zero -> 0 <= n < 65536 ->
    ipa_ipv6ct_add_tbl st n (Some h0) = Done (ret, h, st') -> ct_call st st'
| call_del_tbl (E : ct_env) (H : IpaHwSpec) ret :
    ipa_ipv6ct_del_tbl st 1 = Done (ret, st') -> ct_call st st'
| call_add_rule (E : ct_env) (H : IpaHwSpec) u h0 ret h :
    rule_typed u ->
    ipa_ipv6ct_add_rule st 1 (Some u) (Some h0) = Done (ret, h, st') -> ct_call st st'
| call_del_rule (E : ct_env) (H : IpaHwSpec) rh ret :
    rh <> 0 -> ipa_ipv6ct_del_rule st 1 rh = Done (ret, st') -> ct_call st st'.

Definition ct_known (st : ipa_ipv6ct) : Prop :=
  ct_closed st \/ (exists t, ct_open st t) \/ ct_stuck st.

(** Calls on rules before there is a table dereference the NULL descriptor. *)
Lemma closed_calls `{ct_env} st :
  ct_closed st ->
  (forall th, ipa_ipv6ct_del_tbl st th = Fault) /\
  (forall th u h, ipa_ipv6ct_add_rule st th u h = Fault) /\
  (forall th h, ipa_ipv6ct_del_rule st th h = Fault) /\
  (forall th h p, ipa_ipv6ct_query_timestamp st th h p = Fault).
Proof.
  intros [x Hd _ _ _]. unfold ipa_ipv6ct_del_tbl, ipa_ipv6ct_add_rule, ipa_ipv6ct_del_rule,
    ipa_ipv6ct_query_timestamp. now rewrite Hd.
Qed.

Lemma open_add_tbl `{ct_env} st t n h0 :
  ct_open st t -> exists h, ipa_ipv6ct_add_tbl st n (Some h0) = Done (- EINVAL, Some h, st).
Proof.
  intros [d x ch Hd Hv Ht Hc Hva Hx OK]. unfold ipa_ipv6ct_add_tbl. rewrite Hc.
  destruct (n =? 0); eauto.
Qed.

Lemma ct_call_known st st' : ct_known st -> ct_call st st' -> ct_known st'.
Proof.
  intros [C|[[t O]|K]] [E H n h0 ret h Ho Hn Hr|E H ret Hr|E H u h0 ret h Hu Hr|E H rh ret Hh Hr].
  - destruct (add_tbl_closed st n h0 C Ho Hn) as (r & h' & st1 & Hr' & Hs).
    rewrite Hr in Hr'. injection Hr' as -> -> ->.
    destruct Hs as [(_ & _ & _ & t & O & _)|[_ C']]; [right; left; eauto|now left].
  - rewrite (proj1 (closed_calls st C)) in Hr. discriminate Hr.
  - rewrite (proj1 (proj2 (closed_calls st C))) in Hr. discriminate Hr.
  - rewrite (proj1 (proj2 (proj2 (closed_calls st C)))) in Hr. discriminate Hr.
  - destruct (open_add_tbl st t n h0 O) as [h' Hr']. rewrite Hr in Hr'. injection Hr' as _ _ ->.
    right. left. eauto.
  - destruct (del_tbl_open st t O) as (r & st1 & Hr' & Hs). rewrite Hr in Hr'. injection Hr' as -> ->.
    destruct Hs as [[_ C]|[[_ K]|(_ & _ & ->)]]; [now left|right; now right|right; left; eauto].
  - destruct (add_rule_open st t u h0 O Hu) as (r & h' & st1 & t1 & Hr' & O' & _).
    rewrite Hr in Hr'. injection Hr' as -> -> ->. right. left. eauto.
  - destruct (del_rule_open st t rh O Hh) as (r & st1 & t1 & Hr' & O' & _).
    rewrite Hr in Hr'. injection Hr' as -> ->. right. left. eauto.
  - destruct (stuck_calls st K) as (Hs & _). destruct (Hs n (Some h0)) as (r & h' & Hr' & _).
    rewrite Hr in Hr'. injection Hr' as _ _ ->. right. now right.
  - destruct (stuck_calls st K) as (_ & Hs & _). destruct (Hs 1 ltac:(lia) ltac:(lia)) as (r & Hr' & _).
    rewrite Hr in Hr'. injection Hr' as _ ->. right. now right.
  - destruct (stuck_calls st K) as (_ & _ & Hs & _). destruct (Hs (Some u) (Some h0)) as (r & Hr' & _).
    rewrite Hr in Hr'. injection Hr' as _ _ ->. right. now right.
  - destruct (stuck_calls st K) as (_ & _ & _ & Hs). destruct (Hs rh) as (r & Hr' & _).
    rewrite Hr in Hr'. injection Hr' as _ ->. right. now right.
Qed.

Lemma ct_calls_known st : rtc ct_call ipv6ct_start st -> ct_known st.
Proof.
  intros H. assert (Hk : ct_known ipv6ct_start) by (left; apply start_closed).
  induction H as [st|st1 st2 st3 Hc _ IH]; [done|]. apply IH. now apply (ct_call_known st1).
Qed.

(** ** A concrete environment, used in the examples *)
Definition demo_kernel : ipa3_context :=
  {| nat_is_dev_init := true; nat_is_hw_init := true; ipv6ct_is_hw_init := true;
     ipa_hw_type := 14; sram_compatible := true; coal_ep_mapped := true; ulso_wa := false;
     nat_loc_entries := fun _ => 15; nat_loc_expn_entries := fun _ => 4;
     ipv6ct_entries := 15; ipv6ct_expn_entries := 4; imm_cmd_ok := fun _ => true |}.

#[export] Instance demo_os : ipa_os :=
  {| os_sram_info := (-1, zero_sram_info); os_alloc := fun _ _ => (0, 0); os_open := fun _ => 3;
     os_mmap := fun _ => Some 4096; os_close := 0; os_delete := fun _ _ _ => 0 |}.

#[export] Instance demo_env : ct_env :=
  {| env_os := demo_os; env_hw := doc_hw; env_lock := true; env_unlock := true;
     env_open := Some {| fd := 3; ver := 14 |}; env_mem := fun a => a; env_init := fun _ => 0;
     env_kernel := demo_kernel; env_uc_add := 0; env_uc_del := fun _ => 0 |}.

Definition demo_rule (p : Z) : ipa_ipv6ct_rule :=
  {| u_src_ipv6_lsb := 1; u_src_ipv6_msb := 2; u_dest_ipv6_lsb := 3; u_dest_ipv6_msb := 4;
     u_direction_settings := IPA_IPV6CT_DIRECTION_ALLOW_ALL; u_ucp := true; u_s := false;
     u_uc_activation_index := 5; u_src_port := p; u_dest_port := 80; u_protocol := 6 |}.

Lemma demo_typed p : 0 <= p < 2 ^ 16 -> rule_typed (demo_rule p).
Proof. unfold rule_typed. cbn. lia. Qed.

(** The library after creating a table, after adding a rule, and after
    deleting it again. *)
Definition demo_st : ipa_ipv6ct :=
  match ipa_ipv6ct_add_tbl ipv6ct_start 20 (Some 0) with Done (_, _, st) => st | _ => ipv6ct_start end.
Definition demo_st1 : ipa_ipv6ct :=
  match ipa_ipv6ct_add_rule demo_st 1 (Some (demo_rule 7)) (Some 0) with
  | Done (_, _, st) => st | _ => ipv6ct_start end.
Definition demo_st2 : ipa_ipv6ct :=
  match ipa_ipv6ct_del_rule demo_st1 1 10 with Done (_, st) => st | _ => ipv6ct_start end.
Definition table_of (st : ipa_ipv6ct) : ipa_table :=
  match tables st with [x] => table x | _ => zero_table end.

Lemma open_table st t : ct_open st t -> t = table_of st.
Proof. intros [d x ch _ _ Ht _ _ <- _]. unfold table_of. now rewrite Ht. Qed.

Lemma demo_open : ct_open demo_st (table_of demo_st).
Proof.
  destruct (add_tbl_closed ipv6ct_start 20 0 start_closed) as (r & h & st & E & H);
    [intros size; reflexivity|lia|].
  assert (Hst : demo_st = st) by (unfold demo_st; now rewrite E). rewrite Hst.
  destruct H as [(-> & -> & _ & t & O & _)|[Hr _]].
  - now rewrite <- (open_table st t O).
  - exfalso. apply Hr. assert (Hx : match ipa_ipv6ct_add_tbl ipv6ct_start 20 (Some 0) with
      | Done (r, _, _) => r | _ => 1 end = 0) by (vm_compute; reflexivity).
    rewrite E in Hx. exact Hx.
Qed.

Lemma demo_open1 : ct_open demo_st1 (table_of demo_st1).
Proof.
  destruct (add_rule_open demo_st _ (demo_rule 7) 0 demo_open (demo_typed 7 ltac:(lia)))
    as (r & h & st & t & E & O & _).
  assert (Hst : demo_st1 = st) by (unfold demo_st1; now rewrite E). rewrite Hst.
  now rewrite <- (open_table st t O).
Qed.

Lemma demo_open2 : ct_open demo_st2 (table_of demo_st2).
Proof.
  destruct (del_rule_open demo_st1 _ 10 demo_open1 ltac:(lia)) as (r & st & t & E & O & _).
  assert (Hst : demo_st2 = st) by (unfold demo_st2; now rewrite E). rewrite Hst.
  now rewrite <- (open_table st t O).
Qed.

(** ** Properties *)

(** Adding a rule to a table in use always returns, and leaves a
    well-formed table whose live rules are the old ones plus the new rule at
    an index that held none (result 0, the handle returned names it), or
    exactly the old ones (a negative result, the handle untouched) for one of
    the reasons listed: the kernel refused the commands, the protocol or the
    direction is invalid, the lock failed, or the bucket collides and no
    expansion record is free.  When only unlocking fails the rule is added
    and -EPERM returned without its handle. *)
Theorem ct_add_rule_correct (E : ct_env) (HWS : IpaHwSpec) st t u h0 :
  ct_open st t -> rule_typed u ->
  exists ret h st' t', ipa_ipv6ct_add_rule st 1 (Some u) (Some h0) = Done (ret, Some h, st') /\
    ct_open st' t' /\
    ((ret = 0 /\ rule_added t u t' h) \/
     (ret = - EPERM /\ env_unlock = false /\ h = h0 /\ exists h', rule_added t u t' h') \/
     (h = h0 /\ same_rules t t' /\
      (ret = - EIO /\ dma_refused t \/
       ret = - EINVAL /\ (u_protocol u = 0xFF \/ env_lock = false \/ direction_bad u) \/
       ret = -1 /\ chain_full t))).
Proof. exact (add_rule_open st t u h0). Qed.
Lemma ct_add_rule_correct_witness :
  exists ret h st' t', ipa_ipv6ct_add_rule demo_st 1 (Some (demo_rule 7)) (Some 0) = Done (ret, Some h, st') /\ ct_open st' t'.
Proof.
    destruct (ct_add_rule_correct demo_env doc_hw_spec demo_st _ (demo_rule 7) 0 demo_open
              (demo_typed 7 ltac:(lia))) as (ret & h & st' & t' & Hr & O' & _).
  exists ret, h, st', t'. auto.
Defined.

(** Deleting by a non-zero handle always returns.  Either the
    handle named an occupied record, whose rule (alone) is in force no more,
    and the result is 0 unless unlocking fails; or the table is exactly what
    it was, because the lock or the kernel refused or the handle names no
    record in use. *)
Theorem ct_del_rule_correct (E : ct_env) (HWS : IpaHwSpec) st t h :
  ct_open st t -> h <> 0 ->
  exists ret st' t', ipa_ipv6ct_del_rule st 1 h = Done (ret, st') /\ ct_open st' t' /\
    ((exists i, ipa_table_get_entry t h = (0, Some (Some i, i)) /\ content t i <> None /\
        (forall j, live t' j = upd (live t) i None j) /\ ret = after_unlock 0) \/
     (t' = t /\ ret <> 0 /\
      (env_lock = false \/
       exists r, ret = after_unlock r /\
       (r = - EIO \/
        r = - EINVAL /\ (ipa_table_get_entry t h = (- EINVAL, None) \/
          exists i, ipa_table_get_entry t h = (0, Some (Some i, i)) /\ content t i = None))))).
Proof. exact (del_rule_open st t h). Qed.
Lemma ct_del_rule_correct_witness :
  exists ret st' t', ipa_ipv6ct_del_rule demo_st1 1 10 = Done (ret, st') /\ ct_open st' t'.
Proof.
    destruct (ct_del_rule_correct demo_env doc_hw_spec demo_st1 _ 10 demo_open1 ltac:(lia))
    as (ret & st' & t' & Hr & O' & _).
  exists ret, st', t'. auto.
Defined.

(** Deleting the rule just added, when both calls return 0,
    restores the rules in force. *)
Theorem ct_add_del_roundtrip (E : ct_env) (HWS : IpaHwSpec) st t u h0 h st1 t1 st2 t2 :
  ct_open st t -> ct_open st1 t1 -> ct_open st2 t2 -> rule_typed u ->
  ipa_ipv6ct_add_rule st 1 (Some u) (Some h0) = Done (0, Some h, st1) ->
  ipa_ipv6ct_del_rule st1 1 h = Done (0, st2) ->
  forall i, live t2 i = live t i.
Proof.
  assert (Hun : forall s x y, ct_open s x -> ct_open s y -> x = y).
  { intros s x y [d a c _ _ Ha _ _ <- _] [d' a' c' _ _ Ha' _ _ <- _]. congruence. }
  intros O O1 O2 Hu Hadd Hdel.
  destruct (add_rule_open st t u h0 O Hu) as (r & h' & s1 & t1' & Ha & O1' & Hr).
  rewrite Hadd in Ha. injection Ha as <- <- <-. rewrite (Hun _ _ _ O1' O1) in Hr.
  destruct Hr as [[_ (i & Hg & Hh & Hi & Hfree & Hl)]|[(Hr & _)|(_ & _ & [[Hr _]|[[Hr _]|[Hr _]]])]];
    try discriminate Hr.
  destruct (del_rule_open st1 t1 h O1 Hh) as (r & s2 & t2' & Hd & O2' & Hr).
  rewrite Hdel in Hd. injection Hd as <- <-. rewrite (Hun _ _ _ O2' O2) in Hr.
  destruct Hr as [(i' & Hg' & _ & Hl' & _)|(_ & Hr & _)]; [|done].
  rewrite Hg in Hg'. injection Hg' as <-. intros j. rewrite Hl'.
  destruct (Z.eq_dec j i) as [->|Hj]; [now rewrite upd_eq, Hfree|]. rewrite upd_ne, Hl, upd_ne by done. done.
Qed.
Lemma ct_add_del_roundtrip_witness :
  live (table_of demo_st2) 5 = live (table_of demo_st) 5.
Proof.
  apply (ct_add_del_roundtrip demo_env doc_hw_spec demo_st _ (demo_rule 7) 0 10 demo_st1 _ demo_st2 _
           demo_open demo_open1 demo_open2 (demo_typed 7 ltac:(lia))); vm_compute; reflexivity.
Defined.

(** C22: whatever calls are made from the start, and whatever the
    kernel, libc and the locks answer, the library is in one of three states:
    no table, one well-formed table (its chains sound, its counters exact,
    dead records only as heads with followers), or a table whose deletion the
    kernel refused. *)
Theorem ct_reachable_known st : rtc ct_call ipv6ct_start st -> ct_known st.
Proof. exact (ct_calls_known st). Qed.
Lemma ct_reachable_known_witness : ct_known demo_st1.
Proof.
  apply ct_reachable_known. apply rtc_l with demo_st.
  - apply (call_add_tbl _ _ demo_env doc_hw_spec 20 0 0 (Some 1));
      [intros size; reflexivity|lia|vm_compute; reflexivity].
  - apply rtc_once. apply (call_add_rule _ _ demo_env doc_hw_spec (demo_rule 7) 0 0 (Some 10));
      [apply demo_typed; lia|vm_compute; reflexivity].
Defined.

(** Creating a table from a state without one returns 0 with
    handle 1, for at most 5120 entries, and then holds a well-formed table of
    at least n - 1 records with no rule; or fails and leaves no table. *)
Theorem ct_add_tbl_correct (E : ct_env) st n h0 :
  ct_closed st -> offsets_zero -> 0 <= n < 65536 ->
  exists ret h st', ipa_ipv6ct_add_tbl st n (Some h0) = Done (ret, Some h, st') /\
    ((ret = 0 /\ h = 1 /\ n <= IPA_TABLE_MAX_ENTRIES /\
      exists t, ct_open st' t /\ n - 1 <= tot t /\ forall i, live t i = None) \/
     (ret <> 0 /\ ct_closed st')).
Proof. exact (add_tbl_closed st n h0). Qed.
Lemma ct_add_tbl_correct_witness :
  exists ret h st', ipa_ipv6ct_add_tbl ipv6ct_start 20 (Some 0) = Done (ret, Some h, st').
Proof.
  destruct (ct_add_tbl_correct demo_env ipv6ct_start 20 0 start_closed (fun _ => eq_refl) ltac:(lia))
    as (ret & h & st' & Hr & _). exists ret, h, st'. exact Hr.
Defined.

(** With a kernel that knows the table and executes what it
    accepts, and locks that work, a valid rule is refused only when its
    bucket collides and every expansion record is in use. *)
Theorem ct_add_rule_progress (E : ct_env) (HWS : IpaHwSpec) st t u h0 :
  ct_open st t -> rule_typed u -> ct_kernel_ready t -> env_lock = true -> env_unlock = true ->
  u_protocol u <> 0xFF -> ~ direction_bad u ->
  exists ret h st', ipa_ipv6ct_add_rule st 1 (Some u) (Some h0) = Done (ret, Some h, st') /\
    (ret = 0 \/ ret = -1 /\ chain_full t).
Proof.
  intros O Hu K Hl Hul Hp Hd. destruct (add_rule_open st t u h0 O Hu) as (r & h & s & t' & Ha & _ & Hr).
  exists r, h, s. split; [exact Ha|].
  destruct Hr as [[-> _]|[(_ & Hx & _)|(_ & _ & [[_ Hx]|[[_ Hx]|Hx]])]]; auto.
  - congruence.
  - destruct O as [d x ch _ _ _ _ _ _ OK].
    destruct (ready_not_refused t K (ok_geom _ _ _ _ _ (ct_tbl _ _ OK)) Hx).
  - destruct Hx as [Hx|[Hx|Hx]]; [done|congruence|done].
Qed.
Lemma ct_add_rule_progress_witness :
  exists ret h st', ipa_ipv6ct_add_rule demo_st 1 (Some (demo_rule 7)) (Some 0) = Done (ret, Some h, st') /\
    (ret = 0 \/ ret = -1 /\ chain_full (table_of demo_st)).
Proof.
  apply (ct_add_rule_progress demo_env doc_hw_spec demo_st _ (demo_rule 7) 0 demo_open
           (demo_typed 7 ltac:(lia))); try reflexivity.
  - split; try reflexivity; vm_compute; congruence.
  - discriminate.
  - intros [x Hx]. discriminate Hx.
Defined.

(** The time stamp of a rule in force is returned as the record
    holds it, and the table is not changed. *)
Theorem ct_query_timestamp_correct (E : ct_env) st t h i v :
  ct_open st t -> h <> 0 -> env_lock = true ->
  ipa_table_get_entry t h = (0, Some (Some i, i)) -> live t i = Some v ->
  ipa_ipv6ct_query_timestamp st 1 h true = Done (after_unlock 0, Some (v_time_stamp v)).
Proof.
  intros [d x ch Hd Hv Ht Hc Hva Hx OK] Hh Hl Hg Hlv. unfold ipa_ipv6ct_query_timestamp.
  rewrite Hd. cbn [mbind exec_bind deref]. rewrite (proj2 (Z.ltb_ge _ _) Hv).
  change ((1 =? IPA_TABLE_INVALID_ENTRY) || (1 >? IPA_IPV6CT_MAX_TBLS))%bool with false. cbn [orb].
  change (h =? IPA_TABLE_INVALID_ENTRY) with (h =? 0). rewrite (proj2 (Z.eqb_neq h 0)) by done.
  cbn [orb negb]. rewrite Hl. cbn [negb]. rewrite Ht. change (zlookup [x] (1 - 1)) with (Some x).
  cbn [mbind exec_bind deref]. rewrite Hva. cbn [negb]. rewrite Hx, Hg.
  unfold IpaTableMark.live, content, rview in Hlv. unfold load_rec. cbn [mbind exec_bind deref].
  destruct (zlookup (recs t) i) as [e|]; [|done]. cbn [mbind exec_bind deref].
  destruct (entry_is_valid e); [|done]. destruct (lw_dead _); [done|]. injection Hlv as <-. done.
Qed.
Lemma ct_query_timestamp_correct_witness :
  exists v, ipa_ipv6ct_query_timestamp demo_st1 1 10 true = Done (0, Some (v_time_stamp v)).
Proof.
  exists (ct_wanted (demo_rule 7)).
  apply (ct_query_timestamp_correct demo_env demo_st1 _ 10 5 (ct_wanted (demo_rule 7)) demo_open1);
    [lia|reflexivity|vm_compute; reflexivity..].
Defined.

(** Before a table exists (and after its deletion) every call on
    rules and on the table but its creation dereferences a NULL descriptor. *)
Theorem ct_null_descriptor (E : ct_env) st :
  ct_closed st ->
  (forall th, ipa_ipv6ct_del_tbl st th = Fault) /\
  (forall th u h, ipa_ipv6ct_add_rule st th u h = Fault) /\
  (forall th h, ipa_ipv6ct_del_rule st th h = Fault) /\
  (forall th h p, ipa_ipv6ct_query_timestamp st th h p = Fault).
Proof. exact (closed_calls st). Qed.
Lemma ct_null_descriptor_witness : ipa_ipv6ct_del_rule ipv6ct_start 1 4 = Fault.
Proof. exact (proj1 (proj2 (proj2 (ct_null_descriptor demo_env ipv6ct_start start_closed))) 1 4). Defined.

(** Deleting the table in use zeroes it; when the kernel
    refuses, the library still counts it and refuses every later call, so no
    table can be made again. *)
Theorem ct_del_tbl_correct (E : ct_env) st t :
  ct_open st t ->
  exists ret st', ipa_ipv6ct_del_tbl st 1 = Done (ret, st') /\
    ((ret = after_unlock 0 /\ ct_closed st') \/
     (ret = - EINVAL /\ env_lock = false /\ st' = st) \/
     (ret <> 0 /\ forall E' : ct_env,
        (forall n h, exists r h', ipa_ipv6ct_add_tbl st' n h = Done (r, h', st') /\ r <> 0) /\
        (forall u h, exists r, ipa_ipv6ct_add_rule st' 1 u h = Done (r, h, st') /\ r <> 0) /\
        (exists r, ipa_ipv6ct_del_tbl st' 1 = Done (r, st') /\ r <> 0))).
Proof.
  intros O. destruct (del_tbl_open st t O) as (r & st' & Hr & [H|[[Hne K]|H]]);
    exists r, st'; (split; [exact Hr|]); auto. right. right. split; [done|]. intros E'.
  destruct (@stuck_calls E' st' K) as (H1 & H2 & H3 & _). split; [exact H1|]. split; [exact H3|].
  apply H2; lia.
Qed.
Lemma ct_del_tbl_correct_witness : exists ret st', ipa_ipv6ct_del_tbl demo_st 1 = Done (ret, st').
Proof.
  destruct (ct_del_tbl_correct demo_env demo_st _ demo_open) as (ret & st' & Hr & _). eauto.
Defined.
