(* ===== verification/IpaNatEntry.v ===== *)
(** The records of the IPv4 NAT table and of its index table, and their
    callbacks (dataipa/ipanat/inc/ipa_nat_drvi.h, src/ipa_nat_drvi.c):
    layouts, checksum differences, hashes, and the proof that both sets of
    callbacks keep the promises of [EntryLaws]. *)
From S2P Require Import Prelude.
From S2P Require Import Bits.
From S2P Require Import IpaTable.
From S2P Require Import IpaTableWf.

(** ** Constants *)
Definition IPA_NAT_RULE_FLAG_FIELD_OFFSET : Z := 18.
Definition IPA_NAT_RULE_NEXT_FIELD_OFFSET : Z := 8.
Definition IPA_NAT_RULE_PROTO_FIELD_OFFSET : Z := 22.
Definition IPA_NAT_INDEX_RULE_NEXT_FIELD_OFFSET : Z := 2.
Definition IPA_NAT_INDEX_RULE_NAT_INDEX_FIELD_OFFSET : Z := 0.
Definition IPA_NAT_FLAG_ENABLE_BIT : Z := 1.
Definition IPA_NAT_INVALID_PROTO_FIELD_VALUE : Z := 0xFF00.
Definition IPAHAL_NAT_INVALID_PROTOCOL : Z := 0xFF.
Definition sizeof_ipa_nat_rule : Z := 32.
Definition sizeof_ipa_nat_indx_tbl_rule : Z := 4.
Definition IPA_MAX_PDN_NUM : Z := 16.
Definition IPPROTO_TCP : Z := 6.
Definition IPPROTO_UDP : Z := 17.

(** ** struct ipa_nat_rule: bit offset and width of each field *)
Definition private_ip : field := Fld 0 32.
Definition target_ip : field := Fld 32 32.
Definition next_index_f : field := Fld 64 16.
Definition public_port : field := Fld 80 16.
Definition private_port : field := Fld 96 16.
Definition target_port : field := Fld 112 16.
Definition ip_chksum : field := Fld 128 16.
Definition uc_activation_index : field := Fld 144 13.
Definition s_bit : field := Fld 157 1.
Definition redirect : field := Fld 158 1.
Definition enable : field := Fld 159 1.
Definition time_stamp : field := Fld 160 24.
Definition protocol : field := Fld 184 8.
Definition prev_index_f : field := Fld 192 16.
Definition indx_tbl_entry : field := Fld 208 16.
Definition dst_only : field := Fld 233 1.
Definition src_only : field := Fld 234 1.
Definition ucp : field := Fld 235 1.
Definition pdn_index : field := Fld 236 4.
Definition tcp_udp_chksum : field := Fld 240 16.

(** ipa_nat_flags, within the 16 bits of the DMA data *)
Definition fl_uc_activation_index : field := Fld 0 13.
Definition fl_s : field := Fld 13 1.
Definition fl_redirect : field := Fld 14 1.
Definition fl_enable : field := Fld 15 1.

(** struct ipa_nat_indx_tbl_rule *)
Definition tbl_entry : field := Fld 0 16.
Definition index_next : field := Fld 16 16.

(** ** User data *)
Record ipa_nat_pdn_entry := { public_ip : Z; src_metadata : Z; dst_metadata : Z }.
Definition zero_pdn : ipa_nat_pdn_entry := {| public_ip := 0; src_metadata := 0; dst_metadata := 0 |}.

Record ipa_nat_ipv4_rule := {
  u_target_ip : Z; u_private_ip : Z; u_target_port : Z; u_private_port : Z; u_public_port : Z;
  u_protocol : Z; u_pdn_index : Z; u_redirect : Z; u_enable : Z; u_time_stamp : Z;
  u_uc_activation_index : Z; u_s : bool; u_ucp : bool; u_dst_only : bool; u_src_only : bool }.

Definition rule_typed (u : ipa_nat_ipv4_rule) : Prop :=
  0 <= u_target_ip u < 2 ^ 32 /\ 0 <= u_private_ip u < 2 ^ 32 /\ 0 <= u_target_port u < 2 ^ 16 /\
  0 <= u_private_port u < 2 ^ 16 /\ 0 <= u_public_port u < 2 ^ 16 /\ 0 <= u_protocol u < 2 ^ 8 /\
  0 <= u_pdn_index u < 2 ^ 8 /\ 0 <= u_redirect u < 2 ^ 8 /\ 0 <= u_enable u < 2 ^ 8 /\
  0 <= u_time_stamp u < 2 ^ 32 /\ 0 <= u_uc_activation_index u < 2 ^ 16.

(** What the callbacks of the NAT table read: the rule, and the library's PDN
    array. *)
Definition nat_user : Type := list ipa_nat_pdn_entry * ipa_nat_ipv4_rule.

(** ** Checksum differences *)

(** cksum += x; if there is a carry out of 16 bits, drop it and add one. *)
Definition fold_carry (c : Z) : Z :=
  if negb (Z.shiftr c 16 =? 0) then u32 (Z.land c 0xFFFF + 1) else c.
Definition cksum_add (c x : Z) : Z := fold_carry (u32 (c + x)).

(** ~x on 32 and on 16 bits. *)
Definition not32 (x : Z) : Z := 0xFFFFFFFF - x.
Definition not16 (x : Z) : Z := 0xFFFF - x.

Definition ipa_nati_calc_ip_cksum (pub_ip_addr priv_ip_addr : Z) : Z :=
  let cksum := Z.land pub_ip_addr 0xFFFF in
  let cksum := cksum_add cksum (Z.shiftr pub_ip_addr 16) in
  let priv := not32 priv_ip_addr in
  let cksum := cksum_add cksum (Z.land priv 0xFFFF) in
  let cksum := cksum_add cksum (Z.shiftr priv 16) in
  u16 cksum.

Definition ipa_nati_calc_tcp_udp_cksum (pub_ip_addr pub_port priv_ip_addr priv_port : Z) : Z :=
  let cksum := Z.land pub_ip_addr 0xFFFF in
  let cksum := cksum_add cksum (Z.shiftr pub_ip_addr 16) in
  let cksum := cksum_add cksum pub_port in
  let priv := not32 priv_ip_addr in
  let cksum := cksum_add cksum (Z.land priv 0xFFFF) in
  let cksum := cksum_add cksum (Z.shiftr priv 16) in
  let cksum := cksum_add cksum (not16 priv_port) in
  u16 cksum.

(** ** Callbacks of the NAT table *)
Definition table_entry_is_valid (e : Z) : bool := negb (fget enable e =? 0).
Definition table_entry_get_next_index (e : Z) : Z := fget next_index_f e.
Definition table_entry_get_prev_index (e : Z) (_ : Z) (_ : option (list Z)) (_ : Z) : exec Z :=
  Done (fget prev_index_f e).
Definition table_entry_set_prev_index (e : Z) (_ : Z) (p : Z) (m : option (list Z)) (_ : Z) :
    exec (Z * option (list Z)) :=
  Done (fset prev_index_f p e, m).

Definition is_tcp_udp (p : Z) : bool := (IPPROTO_TCP =? p) || (IPPROTO_UDP =? p).

Definition table_entry_copy_from_user (e : Z) (ud : nat_user) : exec (Z * Z) :=
  let '(pdns, u) := ud in
  pdn ← deref (zlookup pdns (u_pdn_index u));
  let pub_ip_addr := public_ip pdn in
  let e := fset private_ip (u_private_ip u) e in
  let e := fset private_port (u_private_port u) e in
  let e := fset protocol (u_protocol u) e in
  let e := fset public_port (u_public_port u) e in
  let e := fset target_ip (u_target_ip u) e in
  let e := fset target_port (u_target_port u) e in
  let e := fset pdn_index (u_pdn_index u) e in
  let e := fset uc_activation_index (u_uc_activation_index u) e in
  let e := fset s_bit (Z.b2z (u_s u)) e in
  let e := fset ucp (Z.b2z (u_ucp u)) e in
  let e := fset dst_only (Z.b2z (u_dst_only u)) e in
  let e := fset src_only (Z.b2z (u_src_only u)) e in
  let e := fset ip_chksum (ipa_nati_calc_ip_cksum pub_ip_addr (u_private_ip u)) e in
  Done (0,
    if is_tcp_udp (fget protocol e) then
      fset tcp_udp_chksum
        (ipa_nati_calc_tcp_udp_cksum pub_ip_addr (u_public_port u) (u_private_ip u)
           (u_private_port u)) e
    else e).

Definition table_entry_head_insert (e : Z) (ud : nat_user) : exec (Z * Z * Z) :=
  r ← table_entry_copy_from_user e ud;
  let '(ret, e) := r in
  if negb (ret =? 0) then Done (ret, e, 0)
  else
    let d := fset fl_enable IPA_NAT_FLAG_ENABLE_BIT 0 in
    let d := fset fl_uc_activation_index (fget uc_activation_index e) d in
    let d := fset fl_s (fget s_bit e) d in
    Done (ret, e, d).

Definition table_entry_tail_insert (e : Z) (ud : nat_user) : exec (Z * Z) :=
  r ← table_entry_copy_from_user e ud;
  let '(ret, e) := r in
  if negb (ret =? 0) then Done (ret, e)
  else Done (ret, fset enable IPA_NAT_FLAG_ENABLE_BIT e).

Definition table_entry_get_delete_head_dma_command_data (_ _ : Z) : Z :=
  IPA_NAT_INVALID_PROTO_FIELD_VALUE.

#[export] Instance nat_interface : EntryInterface nat_user := {|
  entry_is_valid := table_entry_is_valid;
  entry_get_next_index := table_entry_get_next_index;
  entry_get_prev_index := table_entry_get_prev_index;
  entry_set_prev_index := table_entry_set_prev_index;
  entry_head_insert := table_entry_head_insert;
  entry_tail_insert := table_entry_tail_insert;
  entry_get_delete_head_dma_command_data := table_entry_get_delete_head_dma_command_data |}.

(** ** Callbacks of the index table: a record is 32 bits, its previous index
    is in the meta array, for expansion records only.  The user data are the
    16-bit index of the NAT record. *)
Record nat_index := NatIndex { index_of : Z }.

Definition index_table_entry_is_valid (e : Z) : bool := negb (fget tbl_entry e =? 0).
Definition index_table_entry_get_next_index (e : Z) : Z := fget index_next e.
Definition index_table_entry_get_prev_index (_ i : Z) (m : option (list Z)) (base : Z) : exec Z :=
  if i >=? base then l ← deref m; deref (zlookup l (i - base)) else Done 0.
Definition index_table_entry_set_prev_index (e i p : Z) (m : option (list Z)) (base : Z) :
    exec (Z * option (list Z)) :=
  if i >=? base then l ← deref m; l' ← zstore (i - base) p l; Done (e, Some l')
  else Done (e, m).
Definition index_table_entry_head_insert (e : Z) (u : nat_index) : exec (Z * Z * Z) :=
  Done (0, e, index_of u).
Definition index_table_entry_tail_insert (e : Z) (u : nat_index) : exec (Z * Z) :=
  Done (0, fset tbl_entry (index_of u) e).
Definition index_table_entry_get_delete_head_dma_command_data (_ next_entry0 : Z) : Z :=
  fget tbl_entry next_entry0.

#[export] Instance index_interface : EntryInterface nat_index := {|
  entry_is_valid := index_table_entry_is_valid;
  entry_get_next_index := index_table_entry_get_next_index;
  entry_get_prev_index := index_table_entry_get_prev_index;
  entry_set_prev_index := index_table_entry_set_prev_index;
  entry_head_insert := index_table_entry_head_insert;
  entry_tail_insert := index_table_entry_tail_insert;
  entry_get_delete_head_dma_command_data := index_table_entry_get_delete_head_dma_command_data |}.

(** ** Hashes *)
Definition dst_hash (ver0 public_ip0 trgt_ip trgt_port public_port0 proto size : Z) : Z :=
  let hash := Z.lxor (Z.lxor (Z.lxor (Z.lxor (u16 trgt_ip) (u16 (Z.shiftr trgt_ip 16)))
                trgt_port) public_port0) proto in
  let hash := if ver0 >=? 14
              then Z.lxor hash (Z.lxor (u16 public_ip0) (u16 (Z.shiftr public_ip0 16))) else hash in
  let hash := Z.land hash size in
  if hash =? 0 then size else hash.

Definition src_hash (priv_ip priv_port trgt_ip trgt_port proto size : Z) : Z :=
  let hash := Z.lxor (Z.lxor (Z.lxor (Z.lxor (Z.lxor (Z.lxor (u16 priv_ip)
                (u16 (Z.shiftr priv_ip 16))) priv_port) (u16 trgt_ip))
                (u16 (Z.shiftr trgt_ip 16))) trgt_port) proto in
  let hash := Z.land hash size in
  if hash =? 0 then size else hash.

(** ** What a NAT record says *)
Record nat_view := {
  v_private_ip : Z; v_target_ip : Z; v_public_port : Z; v_private_port : Z; v_target_port : Z;
  v_ip_chksum : Z; v_uc : Z; v_s : Z; v_redirect : Z; v_time_stamp : Z; v_protocol : Z;
  v_indx : Z; v_dst_only : Z; v_src_only : Z; v_ucp : Z; v_pdn : Z; v_tcp_udp_chksum : Z }.

Definition nat_read (e : Z) : nat_view :=
  {| v_private_ip := fget private_ip e; v_target_ip := fget target_ip e;
     v_public_port := fget public_port e; v_private_port := fget private_port e;
     v_target_port := fget target_port e; v_ip_chksum := fget ip_chksum e;
     v_uc := fget uc_activation_index e; v_s := fget s_bit e; v_redirect := fget redirect e;
     v_time_stamp := fget time_stamp e; v_protocol := fget protocol e;
     v_indx := fget indx_tbl_entry e; v_dst_only := fget dst_only e;
     v_src_only := fget src_only e; v_ucp := fget ucp e; v_pdn := fget pdn_index e;
     v_tcp_udp_chksum := fget tcp_udp_chksum e |}.

(** The record of a rule before its index record, redirection and time stamp
    are filled in. *)
Definition nat_wanted (ud : nat_user) : nat_view :=
  let '(pdns, u) := ud in
  let pub := match zlookup pdns (u_pdn_index u) with Some p => public_ip p | None => 0 end in
  {| v_private_ip := u_private_ip u; v_target_ip := u_target_ip u;
     v_public_port := u_public_port u; v_private_port := u_private_port u;
     v_target_port := u_target_port u;
     v_ip_chksum := ipa_nati_calc_ip_cksum pub (u_private_ip u);
     v_uc := u_uc_activation_index u mod 2 ^ 13; v_s := Z.b2z (u_s u); v_redirect := 0;
     v_time_stamp := 0; v_protocol := u_protocol u; v_indx := 0;
     v_dst_only := Z.b2z (u_dst_only u); v_src_only := Z.b2z (u_src_only u);
     v_ucp := Z.b2z (u_ucp u); v_pdn := u_pdn_index u;
     v_tcp_udp_chksum :=
       if is_tcp_udp (u_protocol u)
       then ipa_nati_calc_tcp_udp_cksum pub (u_public_port u) (u_private_ip u) (u_private_port u)
       else 0 |}.

Definition nat_set_flags (uc s r : Z) (v : nat_view) : nat_view :=
  {| v_private_ip := v_private_ip v; v_target_ip := v_target_ip v; v_public_port := v_public_port v;
     v_private_port := v_private_port v; v_target_port := v_target_port v;
     v_ip_chksum := v_ip_chksum v; v_uc := uc; v_s := s; v_redirect := r;
     v_time_stamp := v_time_stamp v; v_protocol := v_protocol v; v_indx := v_indx v;
     v_dst_only := v_dst_only v; v_src_only := v_src_only v; v_ucp := v_ucp v; v_pdn := v_pdn v;
     v_tcp_udp_chksum := v_tcp_udp_chksum v |}.

(** Admissible user data: a PDN index within the array. *)
Definition nat_user_ok (ud : nat_user) : Prop :=
  let '(pdns, u) := ud in
  rule_typed u /\ zlength pdns = IPA_MAX_PDN_NUM /\ u_pdn_index u < IPA_MAX_PDN_NUM.

(** ** Checksum differences are one's-complement differences *)
Lemma fold_carry_ok c : 0 <= c <= 131070 ->
  0 <= fold_carry c <= 65535 /\ fold_carry c mod 65535 = c mod 65535.
Proof.
  intros Hc. unfold fold_carry. rewrite Z.shiftr_div_pow2 by lia. change (2 ^ 16) with 65536.
  destruct (c / 65536 =? 0) eqn:E; cbn [negb]; zb.
  - split; [|done]. assert (c < 65536) by (apply Z.div_small_iff in E; lia). lia.
  - assert (c / 65536 = 1).
    { assert (c / 65536 < 2) by (apply Z.div_lt_upper_bound; lia).
      assert (0 <= c / 65536) by (apply Z.div_pos; lia). lia. }
    rewrite land_ffff. pose proof (Z.div_mod c 65536 ltac:(lia)). pose proof (Z.mod_pos_bound c 65536 ltac:(lia)). rewrite u32_small by lia. split; [lia|].
    replace (c mod 65536 + 1) with (c + (-1) * 65535) by lia. now rewrite Z.mod_add by lia.
Qed.

Lemma cksum_add_ok c x : 0 <= c <= 65535 -> 0 <= x <= 65535 ->
  0 <= cksum_add c x <= 65535 /\ cksum_add c x mod 65535 = (c + x) mod 65535.
Proof.
  intros Hc Hx. unfold cksum_add. rewrite u32_small by lia. apply fold_carry_ok. lia.
Qed.

(** The 16-bit halves of an address, and their sum. *)
Definition halves (a : Z) : Z := Z.land a 0xFFFF + Z.shiftr a 16.

Lemma half_bounds a : 0 <= a < 2 ^ 32 -> 0 <= Z.land a 0xFFFF <= 65535 /\ 0 <= Z.shiftr a 16 <= 65535.
Proof.
  intros Ha. rewrite land_ffff, Z.shiftr_div_pow2 by lia. change (2 ^ 16) with 65536. change (2 ^ 32) with 4294967296 in Ha.
  pose proof (Z.mod_pos_bound a 65536 ltac:(lia)). split; [lia|].
  split; [apply Z.div_pos; lia|]. assert (a / 65536 < 65536) by (apply Z.div_lt_upper_bound; lia). lia.
Qed.

Lemma not32_halves a : 0 <= a < 2 ^ 32 -> halves (not32 a) = 131070 - halves a.
Proof.
  intros Ha. unfold halves, not32. rewrite !land_ffff, !Z.shiftr_div_pow2 by lia. change (2 ^ 16) with 65536.
  pose proof (Z.div_mod a 65536 ltac:(lia)). pose proof (Z.mod_pos_bound a 65536 ltac:(lia)).
  assert (H1 : (4294967295 - a) / 65536 = 65535 - a / 65536).
  { symmetry. apply Z.div_unique with (65535 - a mod 65536); lia. }
  assert (H2 : (4294967295 - a) mod 65536 = 65535 - a mod 65536).
  { symmetry. apply Z.mod_unique with (65535 - a / 65536); lia. }
  rewrite H1, H2. lia.
Qed.

Lemma mod_eq a b c d : a mod 65535 = c mod 65535 -> b mod 65535 = d mod 65535 ->
  (a + b) mod 65535 = (c + d) mod 65535.
Proof. intros H1 H2. now rewrite Z.add_mod, H1, H2, <- Z.add_mod by lia. Qed.

Ltac cksum_step c x H :=
  let H1 := fresh in let H2 := fresh in
  destruct (cksum_add_ok c x) as [H1 H2]; [lia|lia|];
  revert H1 H2; generalize (cksum_add c x); intros ? ? H.

Lemma ip_cksum_ok p q : 0 <= p < 2 ^ 32 -> 0 <= q < 2 ^ 32 ->
  0 <= ipa_nati_calc_ip_cksum p q <= 65535 /\
  ipa_nati_calc_ip_cksum p q mod 65535 = (halves p - halves q) mod 65535.
Proof.
  intros Hp Hq. pose proof (half_bounds p Hp).
  pose proof (half_bounds (not32 q) ltac:(unfold not32; lia)). pose proof (not32_halves q Hq).
  unfold ipa_nati_calc_ip_cksum. unfold halves at 1 in H1.
  cksum_step (Z.land p 0xFFFF) (Z.shiftr p 16) E1.
  cksum_step z (Z.land (not32 q) 0xFFFF) E2. cksum_step z0 (Z.shiftr (not32 q) 16) E3.
  rewrite u16_small by lia. split; [lia|]. rewrite E3.
  rewrite (mod_eq z0 _ (z + Z.land (not32 q) 65535) _ E2 eq_refl).
  rewrite <- Z.add_assoc, (mod_eq z _ _ _ E1 eq_refl), H1. unfold halves at 2.
  replace (_ + _ + _) with (halves p - halves q + 2 * 65535) by (unfold halves; lia).
  now rewrite Z.mod_add by lia.
Qed.

Lemma tcp_udp_cksum_ok p pp q qp :
  0 <= p < 2 ^ 32 -> 0 <= q < 2 ^ 32 -> 0 <= pp < 65536 -> 0 <= qp < 65536 ->
  0 <= ipa_nati_calc_tcp_udp_cksum p pp q qp <= 65535 /\
  ipa_nati_calc_tcp_udp_cksum p pp q qp mod 65535 = ((halves p + pp) - (halves q + qp)) mod 65535.
Proof.
  intros Hp Hq Hpp Hqp. pose proof (half_bounds p Hp).
  pose proof (half_bounds (not32 q) ltac:(unfold not32; lia)). pose proof (not32_halves q Hq) as Hh.
  unfold ipa_nati_calc_tcp_udp_cksum. unfold halves at 1 in Hh.
  assert (Hn : 0 <= not16 qp <= 65535) by (unfold not16; lia).
  cksum_step (Z.land p 0xFFFF) (Z.shiftr p 16) E1. cksum_step z pp E2.
  cksum_step z0 (Z.land (not32 q) 0xFFFF) E3. cksum_step z1 (Z.shiftr (not32 q) 16) E4.
  cksum_step z2 (not16 qp) E5.
  rewrite u16_small by lia. split; [lia|]. rewrite E5.
  rewrite (mod_eq z2 _ _ _ E4 eq_refl).
  rewrite (mod_eq (z1 + _) _ _ _ (mod_eq _ _ _ _ E3 eq_refl) eq_refl).
  replace (z0 + Z.land (not32 q) 65535 + Z.shiftr (not32 q) 16 + not16 qp)
    with (z0 + (Z.land (not32 q) 65535 + Z.shiftr (not32 q) 16 + not16 qp)) by lia.
  rewrite (mod_eq z0 _ _ _ E2 eq_refl), Hh.
  replace (z + pp + (131070 - halves q + not16 qp)) with (z + (pp + (131070 - halves q + not16 qp))) by lia.
  rewrite (mod_eq z _ _ _ E1 eq_refl).
  replace (_ + _ + _) with (halves p + pp - (halves q + qp) + 3 * 65535)
    by (unfold halves, not16; lia).
  now rewrite Z.mod_add by lia.
Qed.

(** ** The hashes give base indexes *)
Lemma dst_hash_range v p ti tp pp pr size : 0 < size -> 0 < dst_hash v p ti tp pp pr size <= size.
Proof.
  intros Hs. unfold dst_hash. set (h := if v >=? 14 then _ else _).
  pose proof (land_upper h size ltac:(lia)). case_test; lia.
Qed.
Lemma src_hash_range pi pp ti tp pr size : 0 < size -> 0 < src_hash pi pp ti tp pr size <= size.
Proof.
  intros Hs. unfold src_hash. set (h := Z.lxor _ pr).
  pose proof (land_upper h size ltac:(lia)). case_test; lia.
Qed.

(** ** The callbacks keep the table's rules *)
Lemma b2z_bit b : 0 <= Z.b2z b < 2 ^ 1.
Proof. destruct b; cbn; lia. Qed.

Lemma copy_ok ud : nat_user_ok ud ->
  exists e, table_entry_copy_from_user 0 ud = Done (0, e) /\ nat_read e = nat_wanted ud /\
    fget enable e = 0 /\ fget next_index_f e = 0 /\ fget prev_index_f e = 0.
Proof.
  destruct ud as [pdns u].
  intros ((T1 & T2 & T3 & T4 & T5 & T6 & T7 & T8 & T9 & T10 & T11) & Hl & Hp).
  destruct (zlookup_is_Some pdns (u_pdn_index u)) as [pdn Epdn]; [lia|].
  unfold table_entry_copy_from_user. rewrite Epdn. cbn [mbind exec_bind deref].
  set (ck := ipa_nati_calc_ip_cksum _ _). set (tk := ipa_nati_calc_tcp_udp_cksum _ _ _ _).
  assert (Hck : 0 <= ck < 2 ^ 16) by (apply u16_range).
  assert (Htk : 0 <= tk < 2 ^ 16) by (apply u16_range).
  assert (Hp4 : 0 <= u_pdn_index u < 2 ^ 4) by (unfold IPA_MAX_PDN_NUM in Hp; lia).
  pose proof (b2z_bit (u_ucp u)). pose proof (b2z_bit (u_s u)).
  pose proof (b2z_bit (u_dst_only u)). pose proof (b2z_bit (u_src_only u)).
  eexists. split; [reflexivity|].
  assert (Hproto : forall c, fget protocol (fset ip_chksum ck c) = fget protocol c) by (intros; now fld).
  rewrite Hproto. fld. unfold nat_read, nat_wanted. rewrite Epdn. fold ck tk.
  clearbody ck tk. clear Hproto Epdn Hl Hp T7 T8 T9 T10 T11. destruct (is_tcp_udp (u_protocol u)).
  - split; [|now fld]. f_equal; fld; first [reflexivity | now apply fget_low].
  - split; [|now fld]. f_equal; fld; first [reflexivity | now apply fget_low].
Qed.

#[export] Program Instance nat_laws : EntryLaws nat_user := {|
  lw_size := sizeof_ipa_nat_rule;
  lw_head := IPA_NAT_RULE_FLAG_FIELD_OFFSET;
  lw_next := IPA_NAT_RULE_NEXT_FIELD_OFFSET;
  lw_del := IPA_NAT_RULE_PROTO_FIELD_OFFSET;
  lw_user := nat_user_ok;
  lw_free := fun e => e = 0;
  lw_meta := fun m _ => m = None;
  lw_enabling := fun d => negb (fget fl_enable d =? 0);
  lw_V := nat_view;
  lw_view := nat_read;
  lw_img := nat_wanted;
  lw_headview := fun d v =>
    nat_set_flags (fget fl_uc_activation_index d) (fget fl_s d) (fget fl_redirect d) v |}.
Next Obligation. split_and!; discriminate. Qed.
Next Obligation. intros e. apply (fget_range next_index_f). reflexivity. Qed.
Next Obligation. intros e v Hv. cbn. unfold table_entry_get_next_index. now fld. Qed.
Next Obligation. intros e v. cbn. unfold table_entry_is_valid. now fld. Qed.
Next Obligation. intros e v i m b. cbn. unfold table_entry_get_prev_index. now fld. Qed.
Next Obligation. intros e v. cbn. unfold nat_read. now fld. Qed.
Next Obligation. intros e v Hv. cbn. unfold table_entry_is_valid. now fld. Qed.
Next Obligation. intros e v. cbn. unfold table_entry_get_next_index. now fld. Qed.
Next Obligation. intros e v i m b. cbn. unfold table_entry_get_prev_index. now fld. Qed.
Next Obligation. intros e v Hv. cbn. unfold nat_read, nat_set_flags. cbn. now fld. Qed.
Next Obligation. reflexivity. Qed.
Next Obligation. intros c n Hc Hn. cbn in *. unfold table_entry_is_valid in *. now fld. Qed.
Next Obligation. intros e v. cbn. unfold table_entry_get_next_index. now fld. Qed.
Next Obligation. intros e v i m b. cbn. unfold table_entry_get_prev_index. now fld. Qed.
Next Obligation.
  intros e i m b x Hm Hb Hi. eexists. split; [reflexivity|]. now apply (fget_range prev_index_f).
Qed.
Next Obligation. reflexivity. Qed.
Next Obligation. intros e ->. reflexivity. Qed.
Next Obligation. intros e ->. reflexivity. Qed.
Next Obligation. intros e i m b -> _. reflexivity. Qed.
Next Obligation.
  intros e u -> Hu. cbn. unfold table_entry_head_insert.
  destruct (copy_ok u Hu) as (e' & -> & Hr & He & Hn & Hp). cbn [mbind exec_bind Z.eqb negb].
  do 3 eexists. split; [reflexivity|]. split; [done|]. intros _.
  unfold table_entry_is_valid, table_entry_get_next_index, table_entry_get_prev_index.
  rewrite He, Hn, Hp. split; [done|]. split; [done|]. split; [done|].
  assert (Hs : 0 <= fget s_bit e' < 2 ^ 1) by now apply (fget_range s_bit).
  assert (Huc : 0 <= fget uc_activation_index e' < 2 ^ 13)
    by now apply (fget_range uc_activation_index).
  split; [|split].
  - change 65536 with (2 ^ 16).
    do 3 (apply fset_bound; [reflexivity|cbn; lia|]). lia.
  - now fld.
  - assert (Hrd : fget redirect e' = 0)
      by (destruct u; exact (f_equal v_redirect Hr)).
    rewrite <- Hr. unfold nat_set_flags, nat_read. cbn. f_equal; fld; done.
Qed.
Next Obligation.
  intros e u -> Hu. cbn. unfold table_entry_tail_insert.
  destruct (copy_ok u Hu) as (e' & -> & Hr & He & Hn & Hp). cbn [mbind exec_bind Z.eqb negb].
  do 2 eexists. split; [reflexivity|]. split; [done|]. intros _.
  unfold table_entry_is_valid, table_entry_get_next_index, nat_read. fld. rewrite Hn.
  split; [done|]. split; [done|]. exact Hr.
Qed.
Next Obligation.
  intros e i p m b x Hm Hi Hp. cbn. do 2 eexists. split; [reflexivity|].
  unfold table_entry_get_prev_index, table_entry_is_valid, table_entry_get_next_index, nat_read.
  split_and!; try done; now fld.
Qed.

(** The meta array of an index table with [x] expansion records. *)
Definition index_meta (m : option (list Z)) (x : Z) : Prop :=
  exists l, m = Some l /\ zlength l = x /\ forall i p, zlookup l i = Some p -> 0 <= p < 65536.

Lemma index_meta_store m x i p :
  index_meta m x -> 0 <= i < x -> 0 <= p < 65536 ->
  exists l l', m = Some l /\ zstore i p l = Done l' /\ index_meta (Some l') x /\
    zlookup l' i = Some p /\ forall j, j <> i -> zlookup l' j = zlookup l j.
Proof.
  intros (l & -> & Hl & Hr) Hi Hp. exists l, (zinsert i p l). rewrite zstore_ok by lia.
  split_and!; try done.
  - exists (zinsert i p l). rewrite zlength_insert. split_and!; try done. intros j q.
    rewrite zlookup_insert_cases by lia. case_test; [now intros [= <-]|apply Hr].
  - apply zlookup_insert_eq. lia.
  - intros j Hj. now apply zlookup_insert_ne.
Qed.

#[export] Program Instance index_laws : EntryLaws nat_index := {|
  lw_size := sizeof_ipa_nat_indx_tbl_rule;
  lw_head := IPA_NAT_INDEX_RULE_NAT_INDEX_FIELD_OFFSET;
  lw_next := IPA_NAT_INDEX_RULE_NEXT_FIELD_OFFSET;
  lw_del := IPA_NAT_INDEX_RULE_NAT_INDEX_FIELD_OFFSET;
  lw_user := fun u => 0 < index_of u < 65536;
  lw_free := fun e => e = 0;
  lw_meta := index_meta;
  lw_enabling := fun d => negb (d =? 0);
  lw_V := Z;
  lw_view := fget tbl_entry;
  lw_img := index_of;
  lw_headview := fun d _ => d |}.
Next Obligation. split_and!; discriminate. Qed.
Next Obligation. intros e. apply (fget_range index_next). reflexivity. Qed.
Next Obligation. intros e v Hv. cbn. unfold index_table_entry_get_next_index. now fld. Qed.
Next Obligation. intros e v. cbn. unfold index_table_entry_is_valid. now fld. Qed.
Next Obligation. reflexivity. Qed.
Next Obligation. intros e v. cbn. now fld. Qed.
Next Obligation. intros e v Hv. cbn. unfold index_table_entry_is_valid. now fld. Qed.
Next Obligation. intros e v. cbn. unfold index_table_entry_get_next_index. now fld. Qed.
Next Obligation. reflexivity. Qed.
Next Obligation. intros e v Hv. cbn. now fld. Qed.
Next Obligation. reflexivity. Qed.
Next Obligation.
  intros c n Hc Hn. cbn in *. unfold index_table_entry_is_valid,
    index_table_entry_get_delete_head_dma_command_data in *.
  pose proof (fget_range tbl_entry n eq_refl). change (2 ^ f_width tbl_entry) with 65536 in *.
  change (half IPA_NAT_INDEX_RULE_NAT_INDEX_FIELD_OFFSET) with tbl_entry. now fld.
Qed.
Next Obligation. intros e v. cbn. unfold index_table_entry_get_next_index. now fld. Qed.
Next Obligation. reflexivity. Qed.
Next Obligation.
  intros e i m b x (l & -> & Hl & Hr) Hb Hi. cbn. unfold index_table_entry_get_prev_index.
  destruct (i >=? b) eqn:E; zb; [|exists 0; split; [done|lia]]. cbn [mbind exec_bind deref].
  destruct (zlookup_is_Some l (i - b)) as [p Ep]; [lia|]. rewrite Ep. exists p. eauto.
Qed.
Next Obligation. reflexivity. Qed.
Next Obligation. intros e ->. reflexivity. Qed.
Next Obligation. intros e ->. reflexivity. Qed.
Next Obligation.
  intros e i m b -> Hi. cbn. unfold index_table_entry_get_prev_index.
  destruct (i >=? b) eqn:E; zb; [lia|done].
Qed.
Next Obligation.
  intros e u -> Hu. do 3 eexists. split; [reflexivity|]. split; [done|]. intros _. cbn.
  split_and!; try done; lia.
Qed.
Next Obligation.
  intros e u -> Hu. do 2 eexists. split; [reflexivity|]. split; [done|]. intros _. cbn.
  assert (Hu' : 0 <= index_of u < 2 ^ 16) by lia.
  unfold index_table_entry_is_valid, index_table_entry_get_next_index. fld.
  split_and!; try done; lia.
Qed.
Next Obligation.
  intros e i p m b x Hm Hi Hp. cbn.
  destruct (index_meta_store m x (i - b) p Hm) as (l & l' & -> & E & Hm' & Hp' & Hoth); [lia|done|].
  unfold index_table_entry_set_prev_index, index_table_entry_get_prev_index.
  rewrite Z.geb_leb, (proj2 (Z.leb_le b i)) by lia. cbn [mbind exec_bind deref]. rewrite E.
  do 2 eexists. split; [reflexivity|]. cbn [mbind exec_bind deref]. rewrite Hp'.
  split_and!; try done. intros j y Hj. destruct (j >=? b) eqn:Ej; [|done].
  cbn [mbind exec_bind deref]. now rewrite Hoth by lia.
Qed.
