(* ===== verification/IpaNatDrv.v ===== *)
(** The IPv4 NAT library of IPA (dataipa/ipanat/src/ipa_nat_drvi.c): the
    caches, creation and deletion of the table pair (rules and index), and
    what adding and deleting a rule do under the lock.  The calls of the API
    and the PDN functions are in IpaNatCalls.v.

    The C globals are the fields of [nat_state]; [hw_focus] is not in the
    library: it is the cache whose tables the hardware was last told of by
    IPA_IOC_V4_INIT_NAT, the one DMA commands change.  [nat_mutex] is
    recursive and its calls succeed or fail as the environment says. *)
From S2P Require Import Prelude.
From S2P Require Import Bits.
From S2P Require Import IpaTable.
From S2P Require Import IpaTableSize.
From S2P Require Import IpaMemDesc.
From S2P Require Import IpaDma.
From S2P Require Import IpaTableWf.
From S2P Require Import IpaNatEntry.

Definition IPA_NAT_MAX_IP4_TBLS : Z := 1.
Definition IPA_NAT_TABLE_NAME : string := "IPA NAT table".
Definition IPA_NAT_INDEX_TABLE_NAME : string := "IPA NAT index table".
Definition IPA_NAT_DEV_NAME : string := "ipaNatTable".
Definition MAX_DMA_ENTRIES_FOR_ADD : Z := 4.
Definition MAX_DMA_ENTRIES_FOR_DEL : Z := 3.

(** ** Table handles *)
Definition MAKE_TBL_HDL (hdl mt : Z) : Z := u32 (Z.lor (Z.shiftl mt 31) hdl).
(** (memory type, index part) *)
Definition BREAK_TBL_HDL (hdl : Z) : Z * Z := (Z.land (Z.shiftr hdl 31) 1, Z.land hdl 0xFF).
Definition VALID_TBL_HDL (h : Z) : bool := Z.land h 0xFF =? IPA_NAT_MAX_IP4_TBLS.

(** ** State *)

(** struct ipa_nat_ip4_table_cache; index_expn_table_meta is the meta array
    of the index table, which points at it. *)
Record ipa_nat_ip4_table_cache := {
  public_addr : Z;
  mem_desc : ipa_mem_descriptor;
  table : ipa_table;
  index_table : ipa_table }.

Definition zero_nat_table : ipa_nat_ip4_table_cache :=
  {| public_addr := 0; mem_desc := zero_desc; table := zero_table; index_table := zero_table |}.

Definition set_tables (t i : ipa_table) (x : ipa_nat_ip4_table_cache) : ipa_nat_ip4_table_cache :=
  {| public_addr := public_addr x; mem_desc := mem_desc x; table := t; index_table := i |}.

Record ipa_nat_cache := {
  ipa_desc : option ipa_descriptor;
  ip4_tbl : list ipa_nat_ip4_table_cache;
  table_cnt : Z;
  cache_nmi : Z }.

Definition start_cache : ipa_nat_cache :=
  {| ipa_desc := None; ip4_tbl := [zero_nat_table]; table_cnt := 0; cache_nmi := 0 |}.

Record nat_state := {
  ipv4_nat_cache : list ipa_nat_cache;
  active_nat_cache : option Z;
  pdns : list ipa_nat_pdn_entry;
  num_pdns : Z;
  Hash_token : Z;
  hw_focus : option Z }.

Definition nat_start : nat_state :=
  {| ipv4_nat_cache := [start_cache; start_cache]; active_nat_cache := None;
     pdns := replicate 16 zero_pdn; num_pdns := 0; Hash_token := 69; hw_focus := None |}.

(** struct ipa_ioc_v4_nat_init *)
Record ipa_ioc_v4_nat_init := {
  init_tbl_index : Z; init_focus_change : bool; init_mem_type : Z;
  ipv4_rules_offset : Z; expn_rules_offset : Z; index_offset : Z; index_expn_offset : Z;
  init_table_entries : Z; init_expn_table_entries : Z; init_ip_addr : Z }.

(** struct ipa_ioc_nat_pdn_entry *)
Record ipa_ioc_nat_pdn_entry := { ioc_pdn_index : Z; ioc_pdn : ipa_nat_pdn_entry }.

Class nat_env := {
  env_os :: ipa_os;
  env_hw :: IpaHw;
  env_lock : bool;
  env_unlock : bool;
  env_open : option ipa_descriptor;
  env_calloc : bool;
  env_mem : Z -> Z;
  env_init : ipa_ioc_v4_nat_init -> Z;
  env_modify_pdn : ipa_ioc_nat_pdn_entry -> Z;
  env_vote : Z -> Z;
  env_sram_info : Z * Z;
  env_kernel : ipa3_context }.

(** ** State updates *)
Definition set_caches (c : list ipa_nat_cache) (st : nat_state) : nat_state :=
  {| ipv4_nat_cache := c; active_nat_cache := active_nat_cache st; pdns := pdns st;
     num_pdns := num_pdns st; Hash_token := Hash_token st; hw_focus := hw_focus st |}.
Definition set_active (a : option Z) (st : nat_state) : nat_state :=
  {| ipv4_nat_cache := ipv4_nat_cache st; active_nat_cache := a; pdns := pdns st;
     num_pdns := num_pdns st; Hash_token := Hash_token st; hw_focus := hw_focus st |}.
Definition set_pdns (p : list ipa_nat_pdn_entry) (n : Z) (st : nat_state) : nat_state :=
  {| ipv4_nat_cache := ipv4_nat_cache st; active_nat_cache := active_nat_cache st; pdns := p;
     num_pdns := n; Hash_token := Hash_token st; hw_focus := hw_focus st |}.
Definition set_token (t : Z) (st : nat_state) : nat_state :=
  {| ipv4_nat_cache := ipv4_nat_cache st; active_nat_cache := active_nat_cache st; pdns := pdns st;
     num_pdns := num_pdns st; Hash_token := t; hw_focus := hw_focus st |}.
Definition set_focus (f : option Z) (st : nat_state) : nat_state :=
  {| ipv4_nat_cache := ipv4_nat_cache st; active_nat_cache := active_nat_cache st; pdns := pdns st;
     num_pdns := num_pdns st; Hash_token := Hash_token st; hw_focus := f |}.

Definition set_cache (nmi0 : Z) (c : ipa_nat_cache) (st : nat_state) : exec nat_state :=
  l ← zstore nmi0 c (ipv4_nat_cache st); Done (set_caches l st).
Definition get_cache (nmi0 : Z) (st : nat_state) : exec ipa_nat_cache :=
  deref (zlookup (ipv4_nat_cache st) nmi0).
Definition set_desc (d : option ipa_descriptor) (c : ipa_nat_cache) : ipa_nat_cache :=
  {| ipa_desc := d; ip4_tbl := ip4_tbl c; table_cnt := table_cnt c; cache_nmi := cache_nmi c |}.
Definition set_tbls (l : list ipa_nat_ip4_table_cache) (c : ipa_nat_cache) : ipa_nat_cache :=
  {| ipa_desc := ipa_desc c; ip4_tbl := l; table_cnt := table_cnt c; cache_nmi := cache_nmi c |}.
Definition set_cnt (n : Z) (c : ipa_nat_cache) : ipa_nat_cache :=
  {| ipa_desc := ipa_desc c; ip4_tbl := ip4_tbl c; table_cnt := n; cache_nmi := cache_nmi c |}.
Definition set_nmi (n : Z) (c : ipa_nat_cache) : ipa_nat_cache :=
  {| ipa_desc := ipa_desc c; ip4_tbl := ip4_tbl c; table_cnt := table_cnt c; cache_nmi := n |}.
Definition set_tbl (i : Z) (x : ipa_nat_ip4_table_cache) (c : ipa_nat_cache) : exec ipa_nat_cache :=
  l ← zstore i x (ip4_tbl c); Done (set_tbls l c).

Section Nat.
Context {ENV : nat_env}.

(** ** Creation *)
Definition ipa_nati_create_table_dma_cmd_helpers (x : ipa_nat_ip4_table_cache) (table_indx0 : Z) :
    ipa_nat_ip4_table_cache :=
  let off := addr_offset (mem_desc x) in
  let h b e o := Some (ipa_table_dma_cmd_helper_init table_indx0 b e (u32 (off + o))) in
  set_tables
    (set_dma_help
       {| help_update_head := h IPA_NAT_BASE_TBL IPA_NAT_EXPN_TBL IPA_NAT_RULE_FLAG_FIELD_OFFSET;
          help_update_entry := h IPA_NAT_BASE_TBL IPA_NAT_EXPN_TBL IPA_NAT_RULE_NEXT_FIELD_OFFSET;
          help_delete_head := h IPA_NAT_BASE_TBL IPA_NAT_EXPN_TBL IPA_NAT_RULE_PROTO_FIELD_OFFSET |}
       (table x))
    (set_dma_help
       {| help_update_head := h IPA_NAT_INDX_TBL IPA_NAT_INDEX_EXPN_TBL
                                IPA_NAT_INDEX_RULE_NAT_INDEX_FIELD_OFFSET;
          help_update_entry := h IPA_NAT_INDX_TBL IPA_NAT_INDEX_EXPN_TBL
                                 IPA_NAT_INDEX_RULE_NEXT_FIELD_OFFSET;
          help_delete_head := h IPA_NAT_INDX_TBL IPA_NAT_INDEX_EXPN_TBL
                                IPA_NAT_INDEX_RULE_NAT_INDEX_FIELD_OFFSET |}
       (index_table x))
    x.

Definition ipa_nati_create_table (nmi0 : Z) (x : ipa_nat_ip4_table_cache)
    (public_ip_addr number_of_entries table_index0 : Z) : exec (Z * ipa_nat_ip4_table_cache) :=
  let t := ipa_table_init IPA_NAT_TABLE_NAME nmi0 sizeof_ipa_nat_rule None 0 in
  r ← ipa_table_calculate_entries_num t number_of_entries nmi0;
  let '(ret, t) := r in
  let x := {| public_addr := public_ip_addr; mem_desc := mem_desc x; table := t;
              index_table := index_table x |} in
  if negb (ret =? 0) then Done (ret, x)
  else if negb env_calloc then Done (- ENOMEM, x)
  else
    let i := ipa_table_init IPA_NAT_INDEX_TABLE_NAME nmi0 sizeof_ipa_nat_indx_tbl_rule
               (Some (replicate (Z.to_nat (expn_table_entries t)) 0)) 2 in
    let i := set_dims (table_entries t) (expn_table_entries t) (tot_tbl_ents t) i in
    let size := ipa_table_calculate_size t + ipa_table_calculate_size i in
    let d := ipa_mem_descriptor_init (mem_desc x) IPA_NAT_DEV_NAME size table_index0
               IPA_IOC_ALLOC_NAT_TABLE IPA_IOC_DEL_NAT_TABLE true in
    let '(ret, d) := ipa_mem_descriptor_allocate_memory d in
    if negb (ret =? 0) then Done (ret, zero_nat_table)
    else
      let '(t, addr) := ipa_table_calculate_addresses t (md_base_addr d)
        (mapped_recs env_mem d (md_base_addr d) (entry_size t) (tot_tbl_ents t)) in
      let '(i, _) := ipa_table_calculate_addresses i addr
        (mapped_recs env_mem d addr (entry_size i) (tot_tbl_ents i)) in
      t ← ipa_table_reset t;
      i ← ipa_table_reset i;
      Done (0, ipa_nati_create_table_dma_cmd_helpers
                 {| public_addr := public_ip_addr; mem_desc := d; table := t; index_table := i |}
                 table_index0).

Definition ipa_nati_destroy_table (x : ipa_nat_ip4_table_cache) : Z * ipa_nat_ip4_table_cache :=
  (fst (ipa_mem_descriptor_delete (mem_desc x)), zero_nat_table).

Definition ipa_nati_post_ipv4_init_cmd (nmi0 : Z) (x : ipa_nat_ip4_table_cache) (tbl_index0 : Z)
    (focus_change : bool) : Z :=
  let o1 := addr_offset (mem_desc x) in
  let o2 := u32 (o1 + table_entries (table x) * sizeof_ipa_nat_rule) in
  let o3 := u32 (o2 + expn_table_entries (table x) * sizeof_ipa_nat_rule) in
  let o4 := u32 (o3 + table_entries (index_table x) * sizeof_ipa_nat_indx_tbl_rule) in
  env_init {| init_tbl_index := u8 tbl_index0; init_focus_change := focus_change;
              init_mem_type := nmi0; ipv4_rules_offset := o1; expn_rules_offset := o2;
              index_offset := o3; index_expn_offset := o4;
              init_table_entries := u16 (table_entries (table x) - 1);
              init_expn_table_entries := expn_table_entries (table x);
              init_ip_addr := public_addr x |}.

(** ** Posting commands: the result, and what the hardware executed; [d] is
    the cache's descriptor, whose fd the ioctl is made on. *)
Definition ipa_nati_post_ipv4_dma_cmd (d : option ipa_descriptor) (nmi0 : Z)
    (cmd : nat_dma_cmd) : exec (Z * list nat_dma_one) :=
  let cmd := {| entries := entries cmd; mem_type := nmi0; dma := dma cmd |} in
  _ ← deref d;
  let '(r, ds) := ioctl_table_dma_cmd env_kernel cmd in
  Done (if negb (r =? 0) then - EIO else 0, ds).

(** The hardware's effect on a pair of tables, if it is their cache it is
    focused on. *)
Definition pair_dma (focused : bool) (ds : list nat_dma_one) (x : ipa_nat_ip4_table_cache) :
    ipa_nat_ip4_table_cache :=
  if focused then set_tables (dma_apply ds (table x)) (dma_apply ds (index_table x)) x else x.

(** ** Rules *)

(** rule->indx_tbl_entry = ..., redirect, enable and time_stamp. *)
Definition fill_rule (u : ipa_nat_ipv4_rule) (idx e : Z) : Z :=
  fset time_stamp (u_time_stamp u)
    (fset enable (u_enable u) (fset redirect (u_redirect u) (fset indx_tbl_entry idx e))).

(** A hash spread by the token: masked into the table, never 0. *)
Definition token_index (h token size : Z) : Z :=
  let i := Z.land (u16 (h + token)) size in
  if i =? 0 then size else i.

(** The failure paths of ipa_NATI_add_ipv4_rule: the records prepared so far
    are erased. *)
Definition nat_add_fail_index (ret : Z) (x : ipa_nat_ip4_table_cache) (token idx : Z) :
    exec (Z * ipa_nat_ip4_table_cache * Z * Z * list nat_dma_one) :=
  t ← ipa_table_erase_entry (table x) idx;
  Done (ret, set_tables t (index_table x) x, token, 0, []).

Definition nat_add_bail (ret : Z) (x : ipa_nat_ip4_table_cache) (token idx iidx : Z) :
    exec (Z * ipa_nat_ip4_table_cache * Z * Z * list nat_dma_one) :=
  i ← ipa_table_erase_entry (index_table x) iidx;
  nat_add_fail_index ret (set_tables (table x) i x) token idx.

(** The rule's fields filled in and the commands posted, once the record
    [idx] and its index record [iidx] are prepared. *)
Definition nat_add_post (d : option ipa_descriptor) (nmi0 : Z) (focused : bool)
    (x : ipa_nat_ip4_table_cache) (u : ipa_nat_ipv4_rule) (token idx iidx hdl : Z)
    (cmd : nat_dma_cmd) : exec (Z * ipa_nat_ip4_table_cache * Z * Z * list nat_dma_one) :=
  match ipa_table_get_entry_by_index (table x) idx with
  | None => nat_add_bail (- EPERM) x token idx iidx
  | Some _ =>
      e ← load_rec (table x) (Some idx);
      t ← store_rec (table x) (Some idx) (fill_rule u iidx e);
      let x := set_tables t (index_table x) x in
      p ← ipa_nati_post_ipv4_dma_cmd d nmi0 cmd;
      let '(ret, ds) := p in
      let x := pair_dma focused ds x in
      if negb (ret =? 0) then nat_add_bail ret x token idx iidx
      else Done (0, x, token, hdl, ds)
  end.

(** The index record, once the rule's record [idx] is prepared. *)
Definition nat_add_index (d : option ipa_descriptor) (nmi0 : Z) (focused : bool)
    (x : ipa_nat_ip4_table_cache) (u : ipa_nat_ipv4_rule) (size token idx hdl : Z)
    (cmd : nat_dma_cmd) : exec (Z * ipa_nat_ip4_table_cache * Z * Z * list nat_dma_one) :=
  let h := src_hash (u_private_ip u) (u_private_port u) (u_target_ip u) (u_target_port u)
             (u_protocol u) size in
  let '(new_index_tbl_entry_index, token) :=
    if u_dst_only u then (token_index h token size, token + 1) else (h, token) in
  r ← ipa_table_add_entry (index_table x) (NatIndex idx) new_index_tbl_entry_index None cmd;
  let '(ret, i, new_index_tbl_entry_index, _, cmd) := r in
  cmd ← in_buffer MAX_DMA_ENTRIES_FOR_ADD cmd;
  let x := set_tables (table x) i x in
  if negb (ret =? 0) then nat_add_fail_index ret x token idx
  else nat_add_post d nmi0 focused x u token idx new_index_tbl_entry_index hdl cmd.

(** ipa_NATI_add_ipv4_rule under the lock: result, tables, token, handle and
    the commands the hardware was given. *)
Definition nat_add_locked (d : option ipa_descriptor) (nmi0 : Z) (focused : bool) (pd : list ipa_nat_pdn_entry)
    (token : Z) (x : ipa_nat_ip4_table_cache) (u : ipa_nat_ipv4_rule) :
    exec (Z * ipa_nat_ip4_table_cache * Z * Z * list nat_dma_one) :=
  pdn ← deref (zlookup pd (u_pdn_index u));
  desc ← deref d;
  let size := u16 (table_entries (table x) - 1) in
  let h := dst_hash (ver desc) (public_ip pdn) (u_target_ip u) (u_target_port u) (u_public_port u)
             (u_protocol u) size in
  let '(new_entry_index, token) :=
    if u_src_only u then (token_index h token size, token + 1) else (h, token) in
  r ← ipa_table_add_entry (table x) ((pd, u) : nat_user) new_entry_index (Some 0) empty_cmd;
  let '(ret, t, new_entry_index, hdl, cmd) := r in
  cmd ← in_buffer MAX_DMA_ENTRIES_FOR_ADD cmd;
  let x := set_tables t (index_table x) x in
  if negb (ret =? 0) then Done (ret, x, token, 0, [])
  else
    new_entry_handle ← deref hdl;
    nat_add_index d nmi0 focused x u size token new_entry_index new_entry_handle cmd.

Definition ipa_nati_copy_second_index_entry_to_head (x : ipa_nat_ip4_table_cache)
    (it : ipa_table_iterator) (cmd : nat_dma_cmd) :
    exec (ipa_nat_ip4_table_cache * nat_dma_cmd) :=
  e ← load_rec (index_table x) (next_entry it);
  r ← ipa_table_add_dma_cmd (index_table x) HELP_UPDATE_ENTRY (curr_entry it) (curr_index it)
        (fget index_next e) cmd;
  let rule := Some (fget tbl_entry e) in
  e' ← load_rec (table x) rule;
  t ← store_rec (table x) rule (fset indx_tbl_entry (curr_index it) e');
  Done (set_tables t (index_table x) x, snd r).

(** Whether the predecessor's protocol is the invalid one. *)
Definition is_prev_empty (t : ipa_table) (it : ipa_table_iterator) : exec bool :=
  match prev_entry it with
  | None => Done false
  | Some _ =>
      e ← load_rec t (prev_entry it);
      Done (fget protocol e =? IPAHAL_NAT_INVALID_PROTOCOL)
  end.

(** index_expn_table_meta[...].prev_index = IPA_TABLE_INVALID_ENTRY *)
Definition clear_meta (i : ipa_table) (idx : Z) : exec ipa_table :=
  if idx >=? table_entries i then
    l ← deref (meta i);
    l' ← zstore (idx - table_entries i) IPA_TABLE_INVALID_ENTRY l;
    Done (set_meta (Some l') i)
  else Done i.

(** The end of ipa_NATI_del_ipv4_rule: the table's command, the posting and
    the deletions, [it] and [iit] at the records to go. *)
Definition nat_del_post (d : option ipa_descriptor) (nmi0 : Z) (focused : bool)
    (x : ipa_nat_ip4_table_cache) (cmd : nat_dma_cmd) (it iit : ipa_table_iterator) :
    exec (Z * ipa_nat_ip4_table_cache * list nat_dma_one) :=
  cmd ← ipa_table_create_delete_command (U := nat_user) (table x) cmd it;
  cmd ← in_buffer MAX_DMA_ENTRIES_FOR_DEL cmd;
  p ← ipa_nati_post_ipv4_dma_cmd d nmi0 cmd;
  let '(ret, ds) := p in
  let x := pair_dma focused ds x in
  if negb (ret =? 0) then Done (ret, x, [])
  else
    t ← (if ipa_table_iterator_is_head_with_tail it then Done (table x)
         else pe ← is_prev_empty (table x) it;
              ipa_table_delete_entry (U := nat_user) (table x) it pe);
    i ← ipa_table_delete_entry (U := nat_index) (index_table x) iit false;
    i ← clear_meta i (curr_index iit);
    Done (0, set_tables t i x, ds).

(** The index record's commands: at a head with followers the second record
    is copied over it and goes instead. *)
Definition nat_del_index (d : option ipa_descriptor) (nmi0 : Z) (focused : bool)
    (x : ipa_nat_ip4_table_cache) (it iit : ipa_table_iterator) :
    exec (Z * ipa_nat_ip4_table_cache * list nat_dma_one) :=
  cmd ← ipa_table_create_delete_command (U := nat_index) (index_table x) empty_cmd iit;
  r ← (if ipa_table_iterator_is_head_with_tail iit then
         c ← ipa_nati_copy_second_index_entry_to_head x iit cmd;
         n ← ipa_table_iterator_next (U := nat_index) iit (index_table (fst c));
         Done (fst n, snd n, fst c, snd c)
       else Done (0, iit, x, cmd));
  let '(ret, iit, x, cmd) := r in
  cmd ← in_buffer MAX_DMA_ENTRIES_FOR_DEL cmd;
  if negb (ret =? 0) then Done (ret, x, [])
  else nat_del_post d nmi0 focused x cmd it iit.

(** ipa_NATI_del_ipv4_rule under the lock. *)
Definition nat_del_locked (d : option ipa_descriptor) (nmi0 : Z) (focused : bool)
    (x : ipa_nat_ip4_table_cache) (rule_hdl : Z) :
    exec (Z * ipa_nat_ip4_table_cache * list nat_dma_one) :=
  match ipa_table_get_entry (table x) rule_hdl with
  | (ret, None) => Done (ret, x, [])
  | (_, Some (table_rule, index)) =>
      r ← ipa_table_iterator_init (U := nat_user) (table x) table_rule index;
      let '(ret, it) := r in
      if negb (ret =? 0) then Done (ret, x, [])
      else
        e ← load_rec (table x) table_rule;
        let index := fget indx_tbl_entry e in
        match ipa_table_get_entry_by_index (index_table x) index with
        | None => Done (- EPERM, x, [])
        | Some index_table_rule =>
            r ← ipa_table_iterator_init (U := nat_index) (index_table x) (Some index_table_rule) index;
            let '(ret, iit) := r in
            if negb (ret =? 0) then Done (ret, x, [])
            else
              nat_del_index d nmi0 focused x it iit
        end
  end.
End Nat.
