(* ===== verification/IpaNatCalls.v ===== *)
(** The calls of the IPv4 NAT library (dataipa/ipanat/src/ipa_nat_drvi.c,
    the ipa_NATI and ipa_nati functions): tables, rules, time stamps, clearing, copying,
    walking and statistics, and the PDN configuration with the wrappers of
    ipa_nat_drv.c around it.

    Every call takes the library's state and returns the C result, what it
    wrote through its out pointers, and the new state.  Log output is not
    modelled, except that the arguments of IPAERR are evaluated. *)
From S2P Require Import Prelude.
From S2P Require Import Bits.
From S2P Require Import IpaTable.
From S2P Require Import IpaTableSize.
From S2P Require Import IpaMemDesc.
From S2P Require Import IpaDma.
From S2P Require Import IpaTableWf.
From S2P Require Import IpaNatEntry.
From S2P Require Import IpaNatDrv.

(** WhichTbl2Use *)
Definition USE_NAT_TABLE : Z := 0.
Definition USE_INDEX_TABLE : Z := 1.
Definition VALID_WHICHTBL2USE (w : Z) : bool := (USE_NAT_TABLE <=? w) && (w <? 2).

(** enum ipa_app_clock_vote_type *)
Definition IPA_APP_CLK_DEVOTE : Z := 0.
Definition IPA_APP_CLK_RESET_VOTE : Z := 2.

(** ipa_nati_tbl_stats; avg_chain_len is the float quotient of the two
    numbers kept here, or None where it keeps the 0.0 of the memset. *)
Record ipa_nati_tbl_stats := {
  stat_nmi : Z; tot_ents : Z; tot_base_ents : Z; tot_base_ents_filled : Z; tot_expn_ents : Z;
  tot_expn_ents_filled : Z; tot_chains : Z; min_chain_len : Z; max_chain_len : Z;
  avg_chain_len : option (Z * Z) }.
Definition zero_stats : ipa_nati_tbl_stats :=
  {| stat_nmi := 0; tot_ents := 0; tot_base_ents := 0; tot_base_ents_filled := 0;
     tot_expn_ents := 0; tot_expn_ents_filled := 0; tot_chains := 0; min_chain_len := 0;
     max_chain_len := 0; avg_chain_len := None |}.

(** The part of chain_stat_help and of the statistics gen_chain_stats
    updates. *)
Record chain_stat_help := { csh_tot_for_avg : Z; csh_chains : Z; csh_min : Z; csh_max : Z }.
Definition zero_csh : chain_stat_help :=
  {| csh_tot_for_avg := 0; csh_chains := 0; csh_min := 0; csh_max := 0 |}.

Section Stats.
Context {U : Type} `{EI : EntryInterface U}.

(** The while loop: the length of the chain from [e] on, [len] so far. *)
Fixpoint chain_len_loop (fuel : nat) (t : ipa_table) (e len : Z) : exec Z :=
  match fuel with
  | O => Timeout
  | S fuel' =>
      if entry_get_next_index e =? 0 then Done len
      else
        e' ← load_rec t (GOTO_REC t (entry_get_next_index e));
        chain_len_loop fuel' t e' (u32 (len + 1))
  end.

(** The callback; a fault of its own is kept in the state. *)
Definition gen_chain_stats : walk_cb (exec chain_stat_help) :=
  fun t rule_hdl record_ptr _ _ s =>
    let '(_, is_expn_tbl, _) := BREAK_RULE_HDL t rule_hdl in
    if negb (is_expn_tbl =? 0) then (1, s)
    else
      let r :=
        csh ← s;
        e ← load_rec t record_ptr;
        chain_len ←
          (if negb (entry_get_next_index e =? 0)
           then chain_len_loop (S (List.length (recs t))) t e 1 else Done 0);
        Done
          (if negb (chain_len =? 0) then
             {| csh_tot_for_avg := u32 (csh_tot_for_avg csh + chain_len);
                csh_chains := u32 (csh_chains csh + 1);
                csh_min := if csh_min csh =? 0 then chain_len else Z.min (csh_min csh) chain_len;
                csh_max := Z.max (csh_max csh) chain_len |}
           else csh) in
      (match r with Done _ => 0 | _ => 1 end, r).

(** One half of ipa_NATI_ipv4_tbl_stats: ret of the walk and the numbers. *)
Definition tbl_stats (nmi0 : Z) (t : ipa_table) : exec (Z * ipa_nati_tbl_stats) :=
  r ← ipa_table_walk t 0 WHEN_SLOT_FILLED gen_chain_stats (Done zero_csh);
  csh ← snd r;
  Done (fst r,
    {| stat_nmi := nmi0; tot_ents := table_entries t + expn_table_entries t;
       tot_base_ents := table_entries t; tot_base_ents_filled := cur_tbl_cnt t;
       tot_expn_ents := expn_table_entries t; tot_expn_ents_filled := cur_expn_tbl_cnt t;
       tot_chains := csh_chains csh; min_chain_len := csh_min csh;
       max_chain_len := csh_max csh;
       avg_chain_len :=
         if negb (csh_tot_for_avg csh =? 0) && negb (csh_chains csh =? 0)
         then Some (csh_tot_for_avg csh, csh_chains csh) else None |}).
End Stats.

Section Calls.
Context {ENV : nat_env}.

(** What pthread_mutex_unlock adds to a function's result. *)
Definition after_unlock (ret : Z) : Z :=
  if env_unlock then ret else if negb (ret =? 0) then ret else - EPERM.

Definition close_if_unused (c : ipa_nat_cache) : ipa_nat_cache :=
  if table_cnt c =? 0 then set_desc None c else c.

(** The cache and the table an API handle names. *)
Definition get_tbl (c : ipa_nat_cache) (tbl_hdl : Z) : exec ipa_nat_ip4_table_cache :=
  deref (zlookup (ip4_tbl c) (tbl_hdl - 1)).
Definition put_tbl (nmi0 tbl_hdl : Z) (x : ipa_nat_ip4_table_cache) (c : ipa_nat_cache)
    (st : nat_state) : exec nat_state :=
  c ← set_tbl (tbl_hdl - 1) x c; set_cache nmi0 c st.

(** ** Tables *)
Definition ipa_NATI_post_ipv4_init_cmd (st : nat_state) (tbl_hdl0 : Z) : exec (Z * nat_state) :=
  let '(nmi0, tbl_hdl) := BREAK_TBL_HDL tbl_hdl0 in
  if negb (IPA_VALID_NAT_MEM_IN nmi0) then Done (- EINVAL, st)
  else
    c ← get_cache nmi0 st;
    if negb env_lock then Done (- EINVAL, st)
    else if table_cnt c =? 0 then Done (after_unlock (- EINVAL), st)
    else
      x ← get_tbl c tbl_hdl;
      _ ← deref (ipa_desc c);
      let ret := ipa_nati_post_ipv4_init_cmd (cache_nmi c) x (tbl_hdl - 1) true in
      if negb (ret =? 0) then Done (after_unlock ret, st)
      else Done (after_unlock 0, set_active (Some nmi0) (set_focus (Some nmi0) st)).

(** [tbl_hdl] is None for a NULL pointer, which is not checked. *)
Definition ipa_NATI_add_ipv4_tbl (st : nat_state) (nmi0 public_ip_addr number_of_entries : Z)
    (tbl_hdl : option Z) : exec (Z * Z * nat_state) :=
  _ ← deref tbl_hdl;
  let unlock ret := if env_unlock then ret else - EPERM in
  if negb (IPA_VALID_NAT_MEM_IN nmi0) then Done (- EINVAL, 0, st)
  else
    c ← get_cache nmi0 st;
    if negb env_lock then Done (- EINVAL, 0, st)
    else
      let c := set_nmi nmi0 c in
      if table_cnt c >=? IPA_NAT_MAX_IP4_TBLS then
        st ← set_cache nmi0 c st; Done (unlock (- EINVAL), 0, st)
      else
        match (match ipa_desc c with Some d => Some d | None => env_open end) with
        | None => st ← set_cache nmi0 c st; Done (unlock (- EIO), 0, st)
        | Some d =>
            let c := set_desc (Some d) c in
            x ← deref (zlookup (ip4_tbl c) (table_cnt c));
            r ← ipa_nati_create_table nmi0 x public_ip_addr number_of_entries (table_cnt c);
            let '(ret, x) := r in
            c ← set_tbl (table_cnt c) x c;
            if negb (ret =? 0) then
              st ← set_cache nmi0 (close_if_unused c) st; Done (unlock ret, 0, st)
            else
              let ret := ipa_nati_post_ipv4_init_cmd nmi0 x (table_cnt c) false in
              if negb (ret =? 0) then
                let '(_, x) := ipa_nati_destroy_table x in
                c ← set_tbl (table_cnt c) x c;
                st ← set_cache nmi0 (close_if_unused c) st; Done (unlock ret, 0, st)
              else
                let st := set_active (Some nmi0) (set_focus (Some nmi0) st) in
                p0 ← deref (zlookup (pdns st) 0);
                pd ← zstore 0 {| public_ip := public_ip_addr; src_metadata := src_metadata p0;
                                 dst_metadata := dst_metadata p0 |} (pdns st);
                let st := set_pdns pd 1 st in
                let c := set_cnt (u8 (table_cnt c + 1)) c in
                st ← set_cache nmi0 c st;
                Done (unlock 0, MAKE_TBL_HDL (table_cnt c) nmi0, st)
        end.

(** The table is zeroed whatever the kernel answers. *)
Definition ipa_NATI_del_ipv4_table (st : nat_state) (tbl_hdl0 : Z) : exec (Z * nat_state) :=
  let '(nmi0, tbl_hdl) := BREAK_TBL_HDL tbl_hdl0 in
  if negb (IPA_VALID_NAT_MEM_IN nmi0) then Done (- EINVAL, st)
  else
    c ← get_cache nmi0 st;
    if negb env_lock then Done (- EINVAL, st)
    else
      x ← get_tbl c tbl_hdl;
      if negb (valid (mem_desc x)) then Done (after_unlock (- EINVAL), st)
      else
        let '(ret, x) := ipa_nati_destroy_table x in
        c ← set_tbl (tbl_hdl - 1) x c;
        let c := if negb (ret =? 0) then c
                 else close_if_unused (set_cnt (u8 (table_cnt c - 1)) c) in
        st ← set_cache nmi0 c st;
        Done (after_unlock ret, st).

(** [time_stamp] is None for a NULL pointer, which is not checked. *)
Definition ipa_NATI_query_timestamp (st : nat_state) (tbl_hdl0 rule_hdl : Z)
    (time_stamp0 : option Z) : exec (Z * option Z) :=
  let '(nmi0, tbl_hdl) := BREAK_TBL_HDL tbl_hdl0 in
  if negb (IPA_VALID_NAT_MEM_IN nmi0) then Done (- EINVAL, time_stamp0)
  else
    c ← get_cache nmi0 st;
    if negb env_lock then Done (- EINVAL, time_stamp0)
    else
      x ← get_tbl c tbl_hdl;
      if negb (valid (mem_desc x)) then Done (after_unlock (- EINVAL), time_stamp0)
      else
        match ipa_table_get_entry (table x) rule_hdl with
        | (ret, None) => Done (after_unlock ret, time_stamp0)
        | (ret, Some (rule_ptr, _)) =>
            e ← load_rec (table x) rule_ptr;
            _ ← deref time_stamp0;
            Done (after_unlock 0, Some (fget time_stamp e))
        end.

(** ** Rules *)

(** [clnt_rule] and [rule_hdl] are None for NULL pointers; a PDN index
    beyond the array is refused, but the log line reads its entry first. *)
Definition ipa_NATI_add_ipv4_rule (st : nat_state) (tbl_hdl0 : Z)
    (clnt_rule : option ipa_nat_ipv4_rule) (rule_hdl : option Z) :
    exec (Z * option Z * nat_state) :=
  match clnt_rule, rule_hdl with
  | Some u, Some _ =>
      if negb (VALID_TBL_HDL tbl_hdl0) then Done (- EINVAL, rule_hdl, st)
      else
        let '(nmi0, tbl_hdl) := BREAK_TBL_HDL tbl_hdl0 in
        if negb (IPA_VALID_NAT_MEM_IN nmi0) then Done (- EINVAL, Some 0, st)
        else
          c ← get_cache nmi0 st;
          if u_protocol u =? IPAHAL_NAT_INVALID_PROTOCOL then Done (- EINVAL, Some 0, st)
          else
            bad ← (if u_pdn_index u >=? IPA_MAX_PDN_NUM then Done true
                   else p ← deref (zlookup (pdns st) (u_pdn_index u));
                        Done (public_ip p =? 0));
            if bad : bool then
              _ ← deref (zlookup (pdns st) (u_pdn_index u)); Done (- EINVAL, Some 0, st)
            else if negb env_lock then Done (- EINVAL, Some 0, st)
            else
              x ← get_tbl c tbl_hdl;
              if negb (valid (mem_desc x)) then Done (- EINVAL, Some 0, st)
              else
                r ← nat_add_locked (ipa_desc c) (cache_nmi c)
                      (bool_decide (hw_focus st = Some nmi0)) (pdns st) (Hash_token st) x u;
                let '(ret, x, token, h, _) := r in
                st ← put_tbl nmi0 tbl_hdl x c (set_token token st);
                if negb (ret =? 0) then Done (ret, Some 0, st)
                else if negb env_unlock then Done (- EPERM, Some 0, st)
                else Done (0, Some h, st)
  | _, _ => Done (- EINVAL, rule_hdl, st)
  end.

Definition ipa_NATI_del_ipv4_rule (st : nat_state) (tbl_hdl0 rule_hdl : Z) :
    exec (Z * nat_state) :=
  let '(nmi0, tbl_hdl) := BREAK_TBL_HDL tbl_hdl0 in
  if negb (IPA_VALID_NAT_MEM_IN nmi0) then Done (- EINVAL, st)
  else
    c ← get_cache nmi0 st;
    if negb env_lock then Done (- EINVAL, st)
    else
      x ← get_tbl c tbl_hdl;
      if negb (valid (mem_desc x)) then Done (after_unlock (- EINVAL), st)
      else
        r ← nat_del_locked (ipa_desc c) (cache_nmi c) (bool_decide (hw_focus st = Some nmi0)) x
              rule_hdl;
        let '(ret, x, _) := r in
        st ← put_tbl nmi0 tbl_hdl x c st;
        Done (after_unlock ret, st).

(** ** SRAM, clock votes *)
Definition open_sram (st : nat_state) : exec (option (ipa_descriptor * nat_state)) :=
  c ← get_cache IPA_NAT_MEM_IN_SRAM st;
  match (match ipa_desc c with Some d => Some d | None => env_open end) with
  | None => Done None
  | Some d => st ← set_cache IPA_NAT_MEM_IN_SRAM (set_desc (Some d) c) st; Done (Some (d, st))
  end.

Definition ipa_nati_get_sram_size (st : nat_state) (size_ptr : option Z) :
    exec (Z * option Z * nat_state) :=
  if negb env_lock then Done (- EINVAL, size_ptr, st)
  else
    o ← open_sram st;
    match o with
    | None => Done (after_unlock (- EIO), size_ptr, st)
    | Some (_, st) =>
        let '(ret, avail) := env_sram_info in
        if negb (ret =? 0) then Done (after_unlock ret, size_ptr, st)
        else
          _ ← deref size_ptr;
          Done (after_unlock (if avail =? 0 then - EINVAL else 0), Some avail, st)
    end.

Definition ipa_nati_vote_clock (st : nat_state) (vote_type : Z) : exec (Z * nat_state) :=
  o ← open_sram st;
  match o with
  | None => Done (- EIO, st)
  | Some (_, st) => Done (env_vote vote_type, st)
  end.

Definition ipa_nat_vote_clock (st : nat_state) (vote_type : Z) : exec (Z * nat_state) :=
  if negb ((vote_type >=? IPA_APP_CLK_DEVOTE) && (vote_type <=? IPA_APP_CLK_RESET_VOTE))
  then Done (- EINVAL, st) else ipa_nati_vote_clock st vote_type.

(** ** Clearing, walking, copying, statistics *)
Definition ipa_NATI_clear_ipv4_tbl (st : nat_state) (tbl_hdl0 : Z) : exec (Z * nat_state) :=
  let '(nmi0, tbl_hdl) := BREAK_TBL_HDL tbl_hdl0 in
  if negb (IPA_VALID_NAT_MEM_IN nmi0) then Done (- EINVAL, st)
  else
    c ← get_cache nmi0 st;
    if negb env_lock then Done (- EINVAL, st)
    else if table_cnt c =? 0 then Done (after_unlock (- EINVAL), st)
    else
      x ← get_tbl c tbl_hdl;
      t ← ipa_table_reset (table x);
      i ← ipa_table_reset (index_table x);
      st ← put_tbl nmi0 tbl_hdl (set_tables (set_cnts 0 0 t) (set_cnts 0 0 i) x) c st;
      Done (after_unlock 0, st).

(** The callback sees the table and changes its own state only: one that
    calls the library keeps the library's state in it. *)
Definition ipa_NATI_walk_ipv4_tbl {S} (st : nat_state) (tbl_hdl0 which : Z)
    (cb : option (walk_cb S)) (s : S) : exec (Z * S) :=
  match cb with
  | None => Done (- EINVAL, s)
  | Some cb =>
      if negb (VALID_TBL_HDL tbl_hdl0) || negb (VALID_WHICHTBL2USE which)
      then Done (- EINVAL, s)
      else if negb env_lock then Done (- EINVAL, s)
      else
        let '(nmi0, tbl_hdl) := BREAK_TBL_HDL tbl_hdl0 in
        if negb (IPA_VALID_NAT_MEM_IN nmi0) then Done (after_unlock (- EINVAL), s)
        else
          c ← get_cache nmi0 st;
          if table_cnt c =? 0 then Done (after_unlock (- EINVAL), s)
          else
            x ← get_tbl c tbl_hdl;
            r ← (if which =? USE_NAT_TABLE
                 then ipa_table_walk (U := nat_user) (table x) 0 WHEN_SLOT_FILLED cb s
                 else ipa_table_walk (U := nat_index) (index_table x) 0 WHEN_SLOT_FILLED cb s);
            Done (after_unlock (fst r), snd r)
  end.

(** [s] is the callback's state, given the library's when the walk starts. *)
Definition ipa_nati_copy_ipv4_tbl {S} (st : nat_state) (src_tbl_hdl dst_tbl_hdl : Z)
    (copy_cb : option (walk_cb S)) (s : nat_state -> S) : exec (Z * S) :=
  match copy_cb with
  | None => Done (- EINVAL, s st)
  | Some _ =>
      if negb env_lock then Done (- EINVAL, s st)
      else
        r ← ipa_NATI_clear_ipv4_tbl st dst_tbl_hdl;
        let '(ret, st) := r in
        if negb (ret =? 0) then Done (after_unlock ret, s st)
        else
          r ← ipa_NATI_walk_ipv4_tbl st src_tbl_hdl USE_NAT_TABLE copy_cb (s st);
          Done (after_unlock (fst r), snd r)
  end.

(** The two statistics are None where their memory was not written; [ok]
    says that the two pointers are not NULL. *)
Definition ipa_NATI_ipv4_tbl_stats (st : nat_state) (tbl_hdl0 : Z) (nat_ok idx_ok : bool) :
    exec (Z * option (ipa_nati_tbl_stats * ipa_nati_tbl_stats)) :=
  if negb (VALID_TBL_HDL tbl_hdl0) || negb nat_ok || negb idx_ok then Done (- EINVAL, None)
  else if negb env_lock then Done (- EINVAL, None)
  else
    let '(nmi0, tbl_hdl) := BREAK_TBL_HDL tbl_hdl0 in
    if negb (IPA_VALID_NAT_MEM_IN nmi0)
    then Done (after_unlock (- EINVAL), Some (zero_stats, zero_stats))
    else
      c ← get_cache nmi0 st;
      if table_cnt c =? 0 then Done (after_unlock (- EINVAL), Some (zero_stats, zero_stats))
      else
        x ← get_tbl c tbl_hdl;
        r ← tbl_stats (U := nat_user) nmi0 (table x);
        if fst r <? 0 then Done (after_unlock (- EINVAL), Some (snd r, zero_stats))
        else
          r' ← tbl_stats (U := nat_index) nmi0 (index_table x);
          if fst r' <? 0 then Done (after_unlock (- EINVAL), Some (snd r, snd r'))
          else Done (after_unlock 0, Some (snd r, snd r')).

(** ** PDN configuration *)
Definition ipa_nati_modify_pdn (st : nat_state) (entry : ipa_ioc_nat_pdn_entry) :
    exec (Z * nat_state) :=
  ddr ← get_cache IPA_NAT_MEM_IN_DDR st;
  c ← (match ipa_desc ddr with Some _ => Done ddr | None => get_cache IPA_NAT_MEM_IN_SRAM st end);
  match ipa_desc c with
  | None => Done (- EIO, st)
  | Some _ =>
      let ret := env_modify_pdn entry in
      if negb (ret =? 0) then Done (ret, st)
      else
        pd ← zstore (ioc_pdn_index entry) (ioc_pdn entry) (pdns st);
        Done (0, set_pdns pd (num_pdns st) st)
  end.

(** The first index in [lo, lo + n) whose entry satisfies [p]. *)
Fixpoint find_pdn (n : nat) (lo : Z) (p : ipa_nat_pdn_entry -> bool)
    (pd : list ipa_nat_pdn_entry) : exec (option Z) :=
  match n with
  | O => Done None
  | S n' =>
      e ← deref (zlookup pd lo);
      if p e then Done (Some lo) else find_pdn n' (lo + 1) p pd
  end.

(** The loops look at the entries below IPA_MAX_PDN_NUM - 1. *)
Definition ipa_nati_get_pdn_index (st : nat_state) (public_ip0 : Z) (pdn_index0 : Z) :
    exec (Z * Z) :=
  r ← find_pdn (Z.to_nat (IPA_MAX_PDN_NUM - 1)) 0 (fun e => public_ip e =? public_ip0) (pdns st);
  Done (match r with Some i => (0, i) | None => (- EIO, pdn_index0) end).

Definition pdn_is_zero (e : ipa_nat_pdn_entry) : bool :=
  (public_ip e =? 0) && (src_metadata e =? 0) && (dst_metadata e =? 0).

Definition ipa_nati_alloc_pdn (st : nat_state) (pdn_info : ipa_nat_pdn_entry) (pdn_index0 : Z) :
    exec (Z * Z * nat_state) :=
  if num_pdns st >=? IPA_MAX_PDN_NUM - 1 then Done (- EIO, pdn_index0, st)
  else
    r ← find_pdn (Z.to_nat (IPA_MAX_PDN_NUM - 1)) 0
          (fun e => (public_ip e =? public_ip pdn_info) || pdn_is_zero e) (pdns st);
    match r with
    | None => Done (- EIO, pdn_index0, st)
    | Some i =>
        e ← deref (zlookup (pdns st) i);
        if public_ip e =? public_ip pdn_info then Done (0, i, st)
        else
          r ← ipa_nati_modify_pdn st {| ioc_pdn_index := i; ioc_pdn := pdn_info |};
          let '(ret, st) := r in
          if negb (ret =? 0) then Done (ret, pdn_index0, st)
          else Done (0, i, set_pdns (pdns st) (num_pdns st + 1) st)
    end.

Definition ipa_nati_get_pdn_cnt (st : nat_state) : Z := num_pdns st.

Definition ipa_nati_dealloc_pdn (st : nat_state) (pdn_index0 : Z) : exec (Z * nat_state) :=
  if num_pdns st =? 0 then Done (- EIO, st)
  else
    e ← deref (zlookup (pdns st) pdn_index0);
    if pdn_is_zero e then Done (- EIO, st)
    else
      r ← ipa_nati_modify_pdn st {| ioc_pdn_index := pdn_index0; ioc_pdn := zero_pdn |};
      let '(ret, st) := r in
      if negb (ret =? 0) then Done (- EIO, st)
      else
        pd ← zstore pdn_index0 zero_pdn (pdns st);
        Done (0, set_pdns pd (num_pdns st - 1) st).

(** The wrappers of ipa_nat_drv.c; None is a NULL pointer. *)
Definition ipa_nat_modify_pdn (st : nat_state) (tbl_hdl pdn_index0 : Z)
    (pdn_info : option ipa_nat_pdn_entry) : exec (Z * nat_state) :=
  match pdn_info with
  | None => Done (- EINVAL, st)
  | Some p =>
      if negb (VALID_TBL_HDL tbl_hdl) then Done (- EINVAL, st)
      else if pdn_index0 >? IPA_MAX_PDN_NUM then Done (- EINVAL, st)
      else ipa_nati_modify_pdn st {| ioc_pdn_index := pdn_index0; ioc_pdn := p |}
  end.

Definition ipa_nat_get_pdn_index (st : nat_state) (public_ip0 : Z) (pdn_index0 : option Z) :
    exec (Z * option Z) :=
  match pdn_index0 with
  | None => Done (- EINVAL, None)
  | Some i0 => r ← ipa_nati_get_pdn_index st public_ip0 i0; Done (fst r, Some (snd r))
  end.

Definition ipa_nat_alloc_pdn (st : nat_state) (pdn_info : option ipa_nat_pdn_entry)
    (pdn_index0 : option Z) : exec (Z * option Z * nat_state) :=
  match pdn_info, pdn_index0 with
  | Some p, Some i0 =>
      r ← ipa_nati_alloc_pdn st p i0; Done (fst (fst r), Some (snd (fst r)), snd r)
  | _, _ => Done (- EINVAL, pdn_index0, st)
  end.

Definition ipa_nat_get_pdn_count (st : nat_state) (pdn_cnt : option Z) : Z * option Z :=
  match pdn_cnt with
  | None => (- EINVAL, None)
  | Some _ => (0, Some (u8 (ipa_nati_get_pdn_cnt st)))
  end.

Definition ipa_nat_dealloc_pdn (st : nat_state) (pdn_index0 : Z) : exec (Z * nat_state) :=
  if pdn_index0 >? IPA_MAX_PDN_NUM then Done (- EINVAL, st)
  else ipa_nati_dealloc_pdn st pdn_index0.
End Calls.
