(* ===== verification/IpaNatSpec.v ===== *)
(** Correctness of the IPv4 NAT rule operations under the lock: the pair of
    tables as a map from record indexes to rules in force, every live rule
    and its index record pointing at each other. *)
From S2P Require Import Prelude.
From S2P Require Import Bits.
From S2P Require Import Chains.
From S2P Require Import IpaTable.
From S2P Require Import IpaTableSize.
From S2P Require Import IpaMemDesc.
From S2P Require Import IpaDma.
From S2P Require Import IpaTableWf.
From S2P Require Import IpaTableAdd.
From S2P Require Import IpaTableDel.
From S2P Require Import IpaTableMark.
From S2P Require Import IpaTableInit.
From S2P Require Import IpaNatEntry.
From S2P Require Import IpaNatDrv.

(** ** The invariant and the abstraction *)

(** Marked by the delete command: kept as the head of its chain, matching no
    packet. *)
Definition dead (v : nat_view) : bool := v_protocol v =? IPAHAL_NAT_INVALID_PROTOCOL.

#[export] Program Instance nat_dead_laws : DeadLaws nat_user := {| lw_dead := dead |}.
Next Obligation. intros c n. change (0 <= 0xFF00 < 65536). lia. Qed.
Next Obligation.
  intros c n e. cbn. unfold dead, nat_read, table_entry_get_delete_head_dma_command_data.
  cbn [v_protocol]. rewrite fget_fset_within by reflexivity. reflexivity.
Qed.

Abbreviation nat_marked t ch :=
  (marked_ok (U := nat_user) IPA_NAT_BASE_TBL IPA_NAT_EXPN_TBL 0 t ch).
Abbreviation index_ok t ch :=
  (table_ok (U := nat_index) IPA_NAT_INDX_TBL IPA_NAT_INDEX_EXPN_TBL 0 t ch).

Abbreviation nat_pending t ch w b i t' ds :=
  (pending (U := nat_user) IPA_NAT_BASE_TBL IPA_NAT_EXPN_TBL 0 t ch w b i t' ds).
Abbreviation index_pending t ch w b i t' ds :=
  (pending (U := nat_index) IPA_NAT_INDX_TBL IPA_NAT_INDEX_EXPN_TBL 0 t ch w b i t' ds).

(** The live records of the rule table, and the rule each index record
    names. *)
Definition live (t : ipa_table) : Z -> option nat_view := IpaTableMark.live (U := nat_user) t.
Definition names (t : ipa_table) : Z -> option Z := content (U := nat_index) t.

Record nat_ok (x : ipa_nat_ip4_table_cache) (ch chi : chain_map) : Prop := {
  n_tbl : nat_marked (table x) ch;
  n_idx : index_ok (index_table x) chi;
  n_nmi : 0 <= nmi (table x) < 2;
  n_nmi2 : 0 <= nmi (index_table x) < 2;
  n_dims : exists k, 1 <= k <= 12 /\ table_entries (table x) = 2 ^ k;
  n_expn : 0 <= expn_table_entries (table x) <= 4096;
  n_base2 : table_entries (index_table x) = table_entries (table x);
  n_expn2 : expn_table_entries (index_table x) = expn_table_entries (table x);
  n_ref : forall i v, live (table x) i = Some v -> names (index_table x) (v_indx v) = Some i;
  n_back : forall j i, names (index_table x) j = Some i ->
    exists v, live (table x) i = Some v /\ v_indx v = j }.

(** A rule, without the place of its index record. *)
Definition set_indx (j : Z) (v : nat_view) : nat_view :=
  {| v_private_ip := v_private_ip v; v_target_ip := v_target_ip v; v_public_port := v_public_port v;
     v_private_port := v_private_port v; v_target_port := v_target_port v;
     v_ip_chksum := v_ip_chksum v; v_uc := v_uc v; v_s := v_s v; v_redirect := v_redirect v;
     v_time_stamp := v_time_stamp v; v_protocol := v_protocol v; v_indx := j;
     v_dst_only := v_dst_only v; v_src_only := v_src_only v; v_ucp := v_ucp v; v_pdn := v_pdn v;
     v_tcp_udp_chksum := v_tcp_udp_chksum v |}.
Definition set_stamp (ts : Z) (v : nat_view) : nat_view :=
  {| v_private_ip := v_private_ip v; v_target_ip := v_target_ip v; v_public_port := v_public_port v;
     v_private_port := v_private_port v; v_target_port := v_target_port v;
     v_ip_chksum := v_ip_chksum v; v_uc := v_uc v; v_s := v_s v; v_redirect := v_redirect v;
     v_time_stamp := ts; v_protocol := v_protocol v; v_indx := v_indx v;
     v_dst_only := v_dst_only v; v_src_only := v_src_only v; v_ucp := v_ucp v; v_pdn := v_pdn v;
     v_tcp_udp_chksum := v_tcp_udp_chksum v |}.

Definition rules (x : ipa_nat_ip4_table_cache) (i : Z) : option nat_view :=
  set_indx 0 <$> live (table x) i.

(** The rule a client asks for: its redirect and enable are not in it, see
    [nat_add_locked_spec]. *)
Definition rule_of (pd : list ipa_nat_pdn_entry) (u : ipa_nat_ipv4_rule) : nat_view :=
  set_stamp (u_time_stamp u mod 2 ^ 24) (nat_wanted (pd, u)).

(** The buckets of a rule in the two tables. *)
Definition nat_bucket (ver0 : Z) (pd : list ipa_nat_pdn_entry) (token size : Z)
    (u : ipa_nat_ipv4_rule) : Z :=
  let pub := match zlookup pd (u_pdn_index u) with Some p => public_ip p | None => 0 end in
  let h := dst_hash ver0 pub (u_target_ip u) (u_target_port u) (u_public_port u) (u_protocol u)
             size in
  if u_src_only u then token_index h token size else h.
Definition index_bucket (token size : Z) (u : ipa_nat_ipv4_rule) : Z :=
  let h := src_hash (u_private_ip u) (u_private_port u) (u_target_ip u) (u_target_port u)
             (u_protocol u) size in
  if u_dst_only u then token_index h token size else h.

Definition same_pair (x x' : ipa_nat_ip4_table_cache) : Prop :=
  same_shape (table x) (table x') /\ same_shape (index_table x) (index_table x') /\
  mem_desc x' = mem_desc x /\ public_addr x' = public_addr x.

Lemma token_index_range h token size : 0 < size -> 0 < token_index h token size <= size.
Proof.
  intros Hs. unfold token_index. pose proof (land_upper (u16 (h + token)) size ltac:(lia)).
  case_test; lia.
Qed.

Lemma nat_bucket_range ver0 pd token size u : 0 < size -> 0 < nat_bucket ver0 pd token size u <= size.
Proof.
  intros Hs. unfold nat_bucket. destruct (u_src_only u);
    [now apply token_index_range|now apply dst_hash_range].
Qed.

Lemma index_bucket_range token size u : 0 < size -> 0 < index_bucket token size u <= size.
Proof.
  intros Hs. unfold index_bucket. destruct (u_dst_only u);
    [now apply token_index_range|now apply src_hash_range].
Qed.

Section Spec.
Context {ENV : nat_env} {HWS : IpaHwSpec}.

Lemma nat_dims x ch chi : nat_ok x ch chi ->
  1 < table_entries (table x) <= 4096 /\ tot (index_table x) = tot (table x) /\
  tot_tbl_ents (table x) = tot (table x) /\ tot_tbl_ents (index_table x) = tot (table x) /\
  meta (table x) = None.
Proof.
  intros OK. destruct (n_dims _ _ _ OK) as (k & Hk & Hb).
  pose proof (ok_geom _ _ _ _ _ (mk_tbl _ _ _ _ _ (n_tbl _ _ _ OK))) as G.
  pose proof (ok_geom _ _ _ _ _ (n_idx _ _ _ OK)) as Gi.
  assert (Ht : tot (index_table x) = tot (table x))
    by (unfold tot; now rewrite (n_base2 _ _ _ OK), (n_expn2 _ _ _ OK)).
  assert (2 ^ k <= 2 ^ 12) by (apply Z.pow_le_mono_r; lia).
  pose proof (g_base _ _ _ _ G). split_and!; [lia|lia|done|apply G|rewrite <- Ht; apply Gi|].
  exact (g_meta _ _ _ _ G).
Qed.

(** ** Posting: all the commands or none *)
Lemma post_all_or_none d nmi0 cmd :
  entries cmd = zlength (dma cmd) ->
  ipa_nati_post_ipv4_dma_cmd (Some d) nmi0 cmd = Done (0, dma cmd) \/
  ipa_nati_post_ipv4_dma_cmd (Some d) nmi0 cmd = Done (- EIO, []).
Proof.
  intros Hl. unfold ipa_nati_post_ipv4_dma_cmd, ioctl_table_dma_cmd. cbn [mbind exec_bind deref].
  set (c := {| entries := _; mem_type := _; dma := _ |}).
  destruct (table_dma_all_or_none env_kernel c) as [-> | (r & Hr & ->)].
  - left. cbn [entries dma c]. rewrite Hl. unfold zlength. now rewrite Nat2Z.id, firstn_all.
  - right. now rewrite (proj2 (Z.eqb_neq r 0)).
Qed.

Lemma two_lists_entries ds1 ds2 :
  (length ds1 + length ds2 < 256)%nat ->
  let cmd := cmd_app (cmd_app empty_cmd ds1) ds2 in
  entries cmd = zlength (dma cmd) /\ dma cmd = ds1 ++ ds2.
Proof.
  intros Hl cmd. split; [|done]. unfold cmd.
  pose proof (cmd_app_entries empty_cmd ds1) as H1. cbn [entries empty_cmd] in H1.
  assert (E1 : entries (cmd_app empty_cmd ds1) = zlength ds1)
    by (rewrite H1; unfold zlength; lia).
  rewrite cmd_app_entries; rewrite E1; cbn [dma cmd_app empty_cmd app];
    unfold zlength in *; rewrite ?length_app; lia.
Qed.

(** The focused hardware executes each table's own commands on it. *)
Lemma pair_dma_own x x' ch chi ds1 ds2 :
  nat_ok x ch chi -> same_pair x x' ->
  Forall (own IPA_NAT_BASE_TBL IPA_NAT_EXPN_TBL) ds1 ->
  Forall (own IPA_NAT_INDX_TBL IPA_NAT_INDEX_EXPN_TBL) ds2 ->
  pair_dma true (ds1 ++ ds2) x' =
    set_tables (dma_apply ds1 (table x')) (dma_apply ds2 (index_table x')) x' /\
  pair_dma true (ds2 ++ ds1) x' =
    set_tables (dma_apply ds1 (table x')) (dma_apply ds2 (index_table x')) x'.
Proof.
  intros OK (Hs & Hsi & _) H1 H2. unfold pair_dma. rewrite !dma_apply_app.
  pose proof (ok_geom _ _ _ _ _ (mk_tbl _ _ _ _ _ (n_tbl _ _ _ OK))) as G.
  pose proof (ok_geom _ _ _ _ _ (n_idx _ _ _ OK)) as Gi.
  assert (A : forall t, same_shape (table x) t -> dma_apply ds2 t = t)
    by (intros t Ht; now apply (own_other _ _ _ _ _ _ _ _ G Ht) in H2).
  assert (B : forall t, same_shape (index_table x) t -> dma_apply ds1 t = t)
    by (intros t Ht; now apply (own_other _ _ _ _ _ _ _ _ Gi Ht) in H1).
  pose proof (proj1 (dma_apply_shape ds1 (table x'))) as S1.
  pose proof (proj1 (dma_apply_shape ds2 (index_table x'))) as S2.
  rewrite (A (table x')), (B (index_table x')) by done.
  rewrite (A (dma_apply ds1 (table x'))) by (eapply same_shape_trans; eauto).
  now rewrite (B (dma_apply ds2 (index_table x'))) by (eapply same_shape_trans; eauto).
Qed.

(** ** Rebuilding the invariant *)
Lemma nat_ok_update x ch chi x' ch' chi' :
  nat_ok x ch chi -> same_pair x x' -> nat_marked (table x') ch' -> index_ok (index_table x') chi' ->
  (forall i v, live (table x') i = Some v -> names (index_table x') (v_indx v) = Some i) ->
  (forall j i, names (index_table x') j = Some i ->
     exists v, live (table x') i = Some v /\ v_indx v = j) ->
  nat_ok x' ch' chi'.
Proof.
  intros OK ((Hb & Hx & _ & _ & _ & _ & _ & Hn) & (Hbi & Hxi & _ & _ & _ & _ & _ & Hni) & _) T I R B.
  split; auto; rewrite ?Hb, ?Hx, ?Hbi, ?Hxi, ?Hn, ?Hni; apply OK.
Qed.

Lemma nat_ok_same x ch chi x' :
  nat_ok x ch chi -> same_pair x x' ->
  table_ok (U := nat_user) IPA_NAT_BASE_TBL IPA_NAT_EXPN_TBL 0 (table x') ch ->
  index_ok (index_table x') chi ->
  (forall i, content (U := nat_user) (table x') i = content (U := nat_user) (table x) i) ->
  (forall j, names (index_table x') j = names (index_table x) j) ->
  nat_ok x' ch chi /\ forall i, rules x' i = rules x i.
Proof.
  intros OK Hs T I Hc Hn.
  assert (Hl : forall i, live (table x') i = live (table x) i) by exact (live_same (table x) (table x') Hc).
  split; [|intros i; unfold rules; now rewrite Hl].
  apply (nat_ok_update x ch chi); auto.
  - exact (marked_same _ _ _ _ _ _ (n_tbl _ _ _ OK) T Hc).
  - intros i v. rewrite Hl, Hn. apply OK.
  - intros j i. rewrite Hn. intros H. destruct (n_back _ _ _ OK j i H) as (v & Hv & Hj).
    exists v. now rewrite Hl.
Qed.

Lemma nat_ok_added x ch chi x' ch' chi' i j v :
  nat_ok x ch chi -> same_pair x x' -> nat_marked (table x') ch' -> index_ok (index_table x') chi' ->
  live (table x) i = None -> names (index_table x) j = None -> v_indx v = j ->
  (forall k, live (table x') k = upd (live (table x)) i (Some v) k) ->
  (forall k, names (index_table x') k = upd (names (index_table x)) j (Some i) k) ->
  nat_ok x' ch' chi'.
Proof.
  intros OK Hs T I Hi Hj Hv Hl Hn. apply (nat_ok_update x ch chi); auto.
  - intros k w. rewrite Hl, Hn. destruct (Z.eq_dec k i) as [->|Hk].
    + rewrite upd_eq. intros [= <-]. now rewrite Hv, upd_eq.
    + rewrite upd_ne by done. intros Hw. pose proof (n_ref _ _ _ OK k w Hw).
      rewrite upd_ne by congruence. done.
  - intros k m. rewrite Hn. destruct (Z.eq_dec k j) as [->|Hk].
    + rewrite upd_eq. intros [= <-]. exists v. now rewrite Hl, upd_eq.
    + rewrite upd_ne by done. intros Hm. destruct (n_back _ _ _ OK k m Hm) as (w & Hw & Hwk).
      exists w. split; [|done]. rewrite Hl, upd_ne by congruence. done.
Qed.

(** ** Adding a rule *)

(** Filling in the new rule's record while it waits for its commands. *)
Lemma fill_pending t ch (w : nat_view) b i t' ds u j :
  table_ok (U := nat_user) IPA_NAT_BASE_TBL IPA_NAT_EXPN_TBL 0 t ch ->
  nat_pending t ch w b i t' ds -> 0 <= j < 65536 ->
  exists e t'', load_rec t' (Some i) = Done e /\
    store_rec t' (Some i) (fill_rule u j e) = Done t'' /\ same_shape t t'' /\
    nat_pending t ch
      (set_stamp (u_time_stamp u mod 2 ^ 24) (set_indx j w)) b i t'' ds.
Proof.
  intros T P Hj. pose proof (ok_geom _ _ _ _ _ T) as G.
  pose proof (g_meta _ _ _ _ G) as Hm. cbn in Hm.
  pose proof (g_len _ _ _ _ (pending_geom _ _ _ _ _ _ _ _ _ _ G P)) as Hlen.
  assert (Hs : same_shape t t' /\ 0 < i < tot t).
  { destruct P as (e' & hd & _ & Hi & _ & _ & _ & Hs & _). done. }
  destruct Hs as [Hs Hi]. assert (Htot : tot t' = tot t)
    by (unfold tot; destruct Hs as (-> & -> & _); done).
  destruct (zlookup_is_Some (recs t') i) as [e E]; [lia|]. exists e.
  set (t'' := set_recs (zinsert i (fill_rule u j e) (recs t')) t'). exists t''.
  split; [unfold load_rec; cbn [mbind exec_bind deref]; now rewrite E|].
  split.
  { unfold store_rec. cbn [mbind exec_bind deref]. now rewrite zstore_ok by lia. }
  split; [exact Hs|].
  set (g := fun v : nat_view => set_stamp (u_time_stamp u mod 2 ^ 24) (set_indx j v)).
  set (f := fun v : nat_view => g (nat_set_flags (v_uc v) (v_s v) (u_redirect u mod 2 ^ 1) v)).
  apply (touched_pending (U := nat_user) (EL := nat_laws) _ _ _ f g t ch w b i t' t'' ds);
    [apply G|reflexivity|rewrite Hm; now intros [? ?]|exact P|].
  exists e, (fill_rule u j e). split; [exact E|]. split; [done|].
  unfold fill_rule. split_and!.
  - cbn. unfold table_entry_get_next_index. now fld.
  - intros k m b'. cbn. unfold table_entry_get_prev_index. now fld.
  - cbn. unfold f, g, nat_read, set_stamp, set_indx, nat_set_flags. cbn.
    assert (0 <= j < 2 ^ 16) by lia. f_equal; fld; first [reflexivity | now apply fget_low].
  - intros [m' Hm']. destruct P as (e' & hd & _ & _ & _ & _ & _ & _ & _ & _ & Hms & _).
    destruct (proj1 Hms) as [? Hms1]; [eauto|]. congruence.
Qed.
(** No room: the bucket is taken and every expansion record too. *)
Definition full {U} {EI : EntryInterface U} {EL : EntryLaws U} (t : ipa_table) (b : Z) : Prop :=
  content t b <> None /\ forall c, table_entries t <= c < tot t -> content t c <> None.

Lemma full_intro {U} {EI : EntryInterface U} {EL : EntryLaws U} bt et ti t ch b :
  table_ok bt et ti t ch -> 0 < b < table_entries t -> ch b <> [] ->
  (forall c, table_entries t <= c < tot t -> link t c <> None) -> full t b.
Proof.
  intros T Hb Hch Hf. pose proof (ok_geom _ _ _ _ _ T) as G. split.
  - intros Hc. apply Hch. apply (bucket_nil _ _ _ _ _ b T Hb).
    exact (proj1 (content_link _ _ _ t b G) Hc).
  - intros c Hc Hn. apply (Hf c Hc). exact (proj1 (content_link _ _ _ t c G) Hn).
Qed.

(** The callbacks accept every admissible rule and index. *)
Lemma nat_not_refused ud ret : nat_user_ok ud -> refused (U := nat_user) ud ret -> ret = 0.
Proof.
  intros Hu (e & e' & He & H). cbn in He. subst e. destruct (copy_ok ud Hu) as (e1 & Ec & _).
  cbn in H. unfold table_entry_head_insert, table_entry_tail_insert in H. rewrite Ec in H.
  destruct H as [[d H]|H]; cbn in H; congruence.
Qed.

Lemma index_not_refused i ret : refused (U := nat_index) i ret -> ret = 0.
Proof.
  intros (e & e' & _ & [[d H]|H]); cbn in H;
    unfold index_table_entry_head_insert, index_table_entry_tail_insert in H; congruence.
Qed.

(** Nothing was added. *)
Definition add_failed (x x' : ipa_nat_ip4_table_cache) (ret b bi : Z) : Prop :=
  (forall i, rules x' i = rules x i) /\
  (ret = - EIO \/ ret = -1 /\ (full (U := nat_user) (table x) b \/
                             full (U := nat_index) (index_table x) bi)).

(** The rule is in force at an unused record [i], last in its bucket's
    chain; its index record likewise. *)
Definition add_done (x x' : ipa_nat_ip4_table_cache) (ch chi : chain_map) (b bi h : Z)
    (v : nat_view) : Prop :=
  exists i j, 0 < i < tot (table x) /\ h = MakeEntryHdl (table x) i /\
    content (U := nat_user) (table x) i = None /\
    nat_ok x' (upd ch b (ch b ++ [i])) (upd chi bi (chi bi ++ [j])) /\
    forall k, rules x' k = upd (rules x) i (Some v) k.

Lemma pending_facts {U} {EI : EntryInterface U} {EL : EntryLaws U} bt et ti t ch (w : lw_V) b i t' ds :
  table_ok bt et ti t ch -> pending bt et ti t ch w b i t' ds ->
  Forall (own bt et) ds /\ (length ds <= 2)%nat /\ same_shape t t' /\ content t i = None /\
  0 < i < tot t.
Proof.
  intros T P. destruct (pending_own _ _ _ _ _ _ _ _ _ _ P) as [Ho Hl].
  destruct P as (e' & hd & _ & Hi & HL & _ & _ & Hs & _). split_and!; try done; try lia; try apply Hi.
  apply (content_link _ _ _ _ _ (ok_geom _ _ _ _ _ T)). exact HL.
Qed.

Lemma erase_pair x ch chi x' i (w : nat_view) b ds :
  nat_ok x ch chi -> nat_pending (table x) ch w b i (table x') ds ->
  same_pair x x' -> index_ok (index_table x') chi ->
  (forall j, names (index_table x') j = names (index_table x) j) ->
  exists t, ipa_table_erase_entry (table x') i = Done t /\
    nat_ok (set_tables t (index_table x') x') ch chi /\
    same_pair x (set_tables t (index_table x') x') /\
    forall k, rules (set_tables t (index_table x') x') k = rules x k.
Proof.
  intros OK P Hs I Hn. pose proof (mk_tbl _ _ _ _ _ (n_tbl _ _ _ OK)) as T.
  destruct (pending_abort _ _ _ _ _ _ _ _ _ _ T P) as (t & He & T' & Hst & Hct).
  exists t. split; [done|].
  assert (Hs' : same_pair x (set_tables t (index_table x') x'))
    by (destruct Hs as (_ & Hs2 & Hs3); split; done).
  destruct (nat_ok_same x ch chi _ OK Hs' T' I Hct Hn) as [OK' Hr]. done.
Qed.
(** The commands executed: both records are linked in. *)
Lemma add_commit x ch chi x' b i bi j ds1 ds2 v :
  nat_ok x ch chi -> same_pair x x' ->
  nat_pending (table x) ch (set_indx j v) b i (table x') ds1 ->
  index_pending (index_table x) chi i bi j (index_table x') ds2 ->
  dead v = false -> v_indx v = 0 ->
  let x2 := pair_dma true (ds1 ++ ds2) x' in
  same_pair x x2 /\ nat_ok x2 (upd ch b (ch b ++ [i])) (upd chi bi (chi bi ++ [j])) /\
  forall k, rules x2 k = upd (rules x) i (Some v) k.
Proof.
  intros OK Hs P Q Hv Hvi x2. pose proof (n_tbl _ _ _ OK) as M. pose proof (n_idx _ _ _ OK) as I.
  destruct (pending_facts _ _ _ _ _ _ _ _ _ _ (mk_tbl _ _ _ _ _ M) P) as (Ho1 & _ & _ & Hi & _).
  destruct (pending_facts _ _ _ _ _ _ _ _ _ _ I Q) as (Ho2 & _ & _ & Hj & _).
  destruct (pair_dma_own x x' ch chi ds1 ds2 OK Hs Ho1 Ho2) as [Hx2 _]. subst x2. rewrite Hx2.
  destruct (marked_commit (EL := nat_laws) _ _ _ _ _ (set_indx j v) _ _ _ _ M Hv P) as [M' Hct].
  destruct (pending_commit _ _ _ _ _ _ _ _ _ _ I Q) as [I' Hcti].
  assert (Hs2 : same_pair x (set_tables (dma_apply ds1 (table x')) (dma_apply ds2 (index_table x')) x')).
  { destruct Hs as (H1 & H2 & H3). split_and!; try apply H3.
    - eapply same_shape_trans; [exact H1|apply dma_apply_shape].
    - eapply same_shape_trans; [exact H2|apply dma_apply_shape]. }
  assert (Hl : forall k, live (dma_apply ds1 (table x')) k =
                         upd (live (table x)) i (Some (set_indx j v)) k)
    by exact (live_set (EL := nat_laws) _ _ i (set_indx j v) Hct Hv).
  split; [exact Hs2|]. split.
  - apply (nat_ok_added x ch chi _ _ _ i j (set_indx j v)); auto.
    unfold live, IpaTableMark.live. now rewrite Hi.
  - intros k. unfold rules. cbn [table set_tables]. rewrite Hl. upd_cases; [|done].
    cbn. destruct v; cbn in *. now subst.
Qed.

(** The kernel refused: both records are erased. *)
Lemma add_rollback x ch chi x' b i bi j ds1 ds2 (v : nat_view) :
  nat_ok x ch chi -> same_pair x x' ->
  nat_pending (table x) ch v b i (table x') ds1 ->
  index_pending (index_table x) chi i bi j (index_table x') ds2 ->
  exists it t, ipa_table_erase_entry (index_table x') j = Done it /\
    ipa_table_erase_entry (table x') i = Done t /\
    nat_ok (set_tables t it x') ch chi /\ same_pair x (set_tables t it x') /\
    forall k, rules (set_tables t it x') k = rules x k.
Proof.
  intros OK Hs P Q. pose proof (n_idx _ _ _ OK) as I.
  destruct (pending_abort _ _ _ _ _ _ _ _ _ _ I Q) as (it & Hei & I' & Hsi & Hcti).
  set (x1 := set_tables (table x') it x').
  assert (Hs1 : same_pair x x1) by (destruct Hs as (H1 & _ & H3); split_and!; try apply H3; done).
  destruct (erase_pair x ch chi x1 i v b ds1 OK P Hs1 I' Hcti) as (t & He & OK' & Hs' & Hr).
  exists it, t. done.
Qed.

(** Once both records are prepared, only the kernel can refuse. *)
Lemma nat_add_post_spec d nmi0 x ch chi x1 (u : ipa_nat_ipv4_rule) token b i bi j hdl pd ds1 ds2 :
  nat_ok x ch chi -> same_pair x x1 -> u_protocol u <> IPAHAL_NAT_INVALID_PROTOCOL ->
  nat_pending (table x) ch (lw_img (pd, u)) b i (table x1) ds1 ->
  index_pending (index_table x) chi i bi j (index_table x1) ds2 ->
  exists ret x' h ds,
    nat_add_post (Some d) nmi0 true x1 u token i j hdl (cmd_app (cmd_app empty_cmd ds1) ds2)
      = Done (ret, x', token, h, ds) /\ same_pair x x' /\
    (ret = 0 /\ h = hdl /\ nat_ok x' (upd ch b (ch b ++ [i])) (upd chi bi (chi bi ++ [j])) /\
       (forall k, rules x' k = upd (rules x) i (Some (rule_of pd u)) k) \/
     ret = - EIO /\ h = 0 /\ nat_ok x' ch chi /\ forall k, rules x' k = rules x k).
Proof.
  intros OK Hs Hp P Q. pose proof (mk_tbl _ _ _ _ _ (n_tbl _ _ _ OK)) as T.
  pose proof (n_idx _ _ _ OK) as I. pose proof (nat_dims x ch chi OK) as (_ & _ & Htt & Htti & Hm).
  pose proof (g_max _ _ _ _ (ok_geom _ _ _ _ _ I)) as Hmax.
  destruct (pending_facts _ _ _ _ _ _ _ _ _ _ T P) as (_ & Hl1 & Hs1 & _ & Hi).
  destruct (pending_facts _ _ _ _ _ _ _ _ _ _ I Q) as (_ & Hl2 & Hs2 & _ & Hj).
  unfold nat_add_post, ipa_table_get_entry_by_index.
  rewrite (proj1 (proj2 (proj2 Hs1))), Htt, (proj2 (Z.eqb_neq i 0)) by lia.
  rewrite Z.geb_leb, (proj2 (Z.leb_gt _ _)) by lia. cbn [orb GOTO_REC].
  destruct (fill_pending _ _ _ _ _ _ _ u j T P ltac:(lia)) as (e & t2 & -> & Hst & Hs1' & P').
  cbn [mbind exec_bind]. rewrite Hst. cbn [mbind exec_bind].
  set (x2 := set_tables t2 _ _).
  assert (Hs' : same_pair x x2) by (destruct Hs as (_ & H2 & H3); split_and!; [done|done|apply H3..]).
  destruct (two_lists_entries ds1 ds2) as [Hent Hdma]; [lia|].
  destruct (post_all_or_none d nmi0 _ Hent) as [-> | ->]; cbn [mbind exec_bind Z.eqb negb].
  - rewrite Hdma.
    destruct (add_commit x ch chi x2 b i bi j ds1 ds2 (rule_of pd u) OK Hs' P' Q)
      as (Hs3 & OK3 & Hr3); [|done|].
    { unfold dead, rule_of. cbn. zb. exact Hp. }
    do 4 eexists. split; [reflexivity|]. split; [exact Hs3|]. left. done.
  - destruct (add_rollback x ch chi x2 b i bi j ds1 ds2 _ OK Hs' P' Q)
      as (it & t & Hei & Het & OK3 & Hs3 & Hr3).
    unfold pair_dma, dma_apply, nat_add_bail, nat_add_fail_index.
    cbn [foldl table index_table set_tables x2] in *. rewrite Hei.
    cbn [mbind exec_bind set_tables table index_table]. rewrite Het. cbn [mbind exec_bind].
    do 4 eexists. split; [reflexivity|]. split; [exact Hs3|]. right. done.
Qed.

(** Once the rule's record is prepared, the index record follows or the
    rule's record is erased. *)
Lemma nat_add_index_spec d nmi0 x ch chi t1 (u : ipa_nat_ipv4_rule) token b i pd ds1 :
  nat_ok x ch chi -> u_protocol u <> IPAHAL_NAT_INVALID_PROTOCOL ->
  nat_pending (table x) ch (lw_img (pd, u)) b i t1 ds1 ->
  let size := table_entries (table x) - 1 in
  let bi := index_bucket token size u in
  exists ret x' token' h ds,
    nat_add_index (Some d) nmi0 true (set_tables t1 (index_table x) x) u size token i
      (MakeEntryHdl (table x) i) (cmd_app empty_cmd ds1) = Done (ret, x', token', h, ds) /\
    same_pair x x' /\
    (ret = 0 /\ add_done x x' ch chi b bi h (rule_of pd u) \/
     ret <> 0 /\ h = 0 /\ nat_ok x' ch chi /\ add_failed x x' ret b bi).
Proof.
  intros OK Hp P size bi. pose proof (nat_dims x ch chi OK) as (Hb & Hti & Htt & Htti & Hm).
  pose proof (mk_tbl _ _ _ _ _ (n_tbl _ _ _ OK)) as T. pose proof (n_idx _ _ _ OK) as I.
  pose proof (g_max _ _ _ _ (ok_geom _ _ _ _ _ T)) as Hmax.
  destruct (pending_facts _ _ _ _ _ _ _ _ _ _ T P) as (Ho1 & Hl1 & Hs1 & Hci & Hi).
  assert (Hbir : 0 < bi <= size) by (apply index_bucket_range; unfold size; lia).
  unfold nat_add_index.
  replace (if u_dst_only u then _ else _) with (bi, if u_dst_only u then token + 1 else token)
    by (unfold bi, index_bucket; now destruct (u_dst_only u)).
  cbn [index_table set_tables table].
  destruct (add_entry_spec (U := nat_index) _ _ _ (index_table x) chi bi (NatIndex i) None
              (cmd_app empty_cmd ds1) I) as (ret & i1 & j & hdl & cmd & -> & Hr);
    [rewrite (n_base2 _ _ _ OK); unfold size in *; lia|cbn; lia|].
  cbn [mbind exec_bind].
  destruct Hr as [(-> & ds2 & Q & -> & ->)|(Hr & -> & -> & I1 & Hsi & Hcix & Hwhy)].
  - destruct (pending_facts _ _ _ _ _ _ _ _ _ _ I Q) as (_ & Hl2 & Hs2 & _ & _).
    rewrite in_buffer_ok by
      (unfold zlength, MAX_DMA_ENTRIES_FOR_ADD; cbn; rewrite length_app; lia).
    cbn [mbind exec_bind Z.eqb negb].
    destruct (nat_add_post_spec d nmi0 x ch chi (set_tables t1 i1 (set_tables t1 (index_table x) x))
                u (if u_dst_only u then token + 1 else token) b i bi j (MakeEntryHdl (table x) i) pd ds1 ds2 OK ltac:(done) Hp P Q)
      as (ret & x' & h & ds & -> & Hs' & Hout).
    do 5 eexists. split; [reflexivity|]. split; [exact Hs'|].
    destruct Hout as [(-> & -> & OK' & Hr)|(-> & -> & OK' & Hr)].
    + left. split; [done|]. exists i, j. done.
    + right. split; [done|]. split; [done|]. split; [exact OK'|]. split; [exact Hr|]. now left.
  - rewrite in_buffer_ok by (unfold zlength, MAX_DMA_ENTRIES_FOR_ADD; cbn; lia).
    cbn [mbind exec_bind]. rewrite (proj2 (Z.eqb_neq ret 0)) by done. cbn [negb].
    destruct (erase_pair x ch chi (set_tables t1 i1 (set_tables t1 (index_table x) x)) i _ b ds1
                OK P ltac:(done) I1 Hcix) as (t & He & OK' & Hs' & Hru).
    unfold nat_add_fail_index. cbn [table set_tables index_table] in He |- *. rewrite He.
    cbn [mbind exec_bind].
    do 5 eexists. split; [reflexivity|]. split; [exact Hs'|]. right.
    split; [done|]. split; [done|]. split; [exact OK'|]. split; [exact Hru|]. right.
    destruct Hwhy as [Href|(-> & Hch & Hf)]; [destruct Hr; eapply index_not_refused; eauto|].
    split; [done|]. right. apply (full_intro _ _ _ _ _ _ I); auto.
    rewrite (n_base2 _ _ _ OK). unfold size in *. lia.
Qed.

Lemma nat_add_locked_spec d nmi0 pd token x u ch chi :
  nat_ok x ch chi -> rule_typed u -> zlength pd = IPA_MAX_PDN_NUM ->
  u_pdn_index u < IPA_MAX_PDN_NUM -> u_protocol u <> IPAHAL_NAT_INVALID_PROTOCOL ->
  let size := table_entries (table x) - 1 in
  let b := nat_bucket (ver d) pd token size u in
  let bi := index_bucket (if u_src_only u then token + 1 else token) size u in
  exists ret x' token' h ds,
    nat_add_locked (Some d) nmi0 true pd token x u = Done (ret, x', token', h, ds) /\
    same_pair x x' /\
    (ret = 0 /\ add_done x x' ch chi b bi h (rule_of pd u) \/
     ret <> 0 /\ h = 0 /\ nat_ok x' ch chi /\ add_failed x x' ret b bi).
Proof.
  intros OK Hu Hpd Hpi Hp size b bi. pose proof (nat_dims x ch chi OK) as (Hb & Hti & Htt & Htti & Hm).
  pose proof (mk_tbl _ _ _ _ _ (n_tbl _ _ _ OK)) as T.
  assert (Huok : nat_user_ok (pd, u)) by exact (conj Hu (conj Hpd Hpi)).
  unfold nat_add_locked. destruct (zlookup_is_Some pd (u_pdn_index u)) as [pdn Epdn];
    [destruct Hu as (_ & _ & _ & _ & _ & _ & Hx & _); lia|].
  rewrite Epdn. cbn [mbind exec_bind deref].
  rewrite (u16_small (table_entries (table x) - 1)) by lia. fold size.
  set (tok1 := if u_src_only u then token + 1 else token) in *.
  replace (if u_src_only u then _ else _) with (b, tok1)
    by (unfold b, nat_bucket, tok1; rewrite Epdn; now destruct (u_src_only u)).
  assert (Hbr : 0 < b <= size) by (apply nat_bucket_range; unfold size; lia).
  destruct (add_entry_spec (U := nat_user) _ _ _ (table x) ch b (pd, u) (Some 0) empty_cmd T)
    as (ret & t1 & i & hdl & cmd & -> & Hr); [unfold size in *; lia|exact Huok|].
  cbn [mbind exec_bind].
  destruct Hr as [(-> & ds1 & P & -> & ->)|(Hr & -> & -> & T1 & Hs & Hc & Hwhy)].
  - destruct (pending_facts _ _ _ _ _ _ _ _ _ _ T P) as (_ & Hl1 & _).
    rewrite in_buffer_ok by (unfold zlength, MAX_DMA_ENTRIES_FOR_ADD; cbn; lia).
    cbn [mbind exec_bind Z.eqb negb deref].
    now apply nat_add_index_spec.
  - rewrite in_buffer_ok by done. cbn [mbind exec_bind].
    rewrite (proj2 (Z.eqb_neq ret 0)) by done. cbn [negb].
    assert (Hs' : same_pair x (set_tables t1 (index_table x) x)) by done.
    do 5 eexists. split; [reflexivity|]. split; [exact Hs'|]. right.
    destruct (nat_ok_same x ch chi _ OK Hs' T1 (n_idx _ _ _ OK) Hc ltac:(done)) as [OK' Hru].
    split; [done|]. split; [done|]. split; [exact OK'|]. split; [exact Hru|]. right.
    destruct Hwhy as [Href|(-> & Hch & Hf)]; [destruct Hr; eapply nat_not_refused; eauto|].
    split; [done|]. left. apply (full_intro _ _ _ _ _ _ T); auto. unfold size in *. lia.
Qed.

(** ** Deleting a rule *)

(** Forgetting the previous index of a free expansion record. *)
Lemma clear_meta_ok t ch y :
  index_ok t ch -> 0 <= y < tot t -> names t y = None ->
  exists t', clear_meta t y = Done t' /\ index_ok t' ch /\ same_shape t t' /\
    forall k, names t' k = names t k.
Proof.
  intros T Hy Hn. unfold clear_meta. destruct (y >=? table_entries t) eqn:E; zb.
  2:{ exists t. split_and!; try done. }
  pose proof (ok_geom _ _ _ _ _ T) as G. unfold tot in Hy.
  destruct (index_meta_store (meta t) (expn_table_entries t) (y - table_entries t) 0)
    as (l & l' & Hm & Hst & Hm' & _ & Hoth); [exact (g_meta _ _ _ _ G)|lia|lia|].
  rewrite Hm. cbn [mbind exec_bind deref]. unfold IPA_TABLE_INVALID_ENTRY. rewrite Hst.
  cbn [mbind exec_bind]. eexists. split; [reflexivity|]. split; [|done].
  apply (table_ok_update _ _ _ t ch _ ch (link t)); auto; try apply T; [done|].
  intros k. unfold link, links_of. cbn. destruct (zlookup (recs t) k) as [e|] eqn:Ek; [|done].
  unfold rlink. cbn. destruct (index_table_entry_is_valid e) eqn:Ev; [|done].
  assert (Hk : k <> y).
  { intros ->. unfold names, content, rview in Hn. rewrite Ek in Hn. cbn in Hn.
    now rewrite Ev in Hn. }
  unfold index_table_entry_get_prev_index. rewrite Hm. cbn [mbind exec_bind deref].
  destruct (k >=? table_entries t) eqn:Ek2; [|done]. now rewrite Hoth by lia.
Qed.

(** The index record [j] goes. *)
Lemma index_delete t ch b l j r :
  index_ok t ch -> ch b = l ++ j :: r -> (l = [] -> r = []) ->
  exists t2 t3,
    ipa_table_delete_entry (dma_apply (delete_cmds (U := nat_index) IPA_NAT_INDX_TBL
      IPA_NAT_INDEX_EXPN_TBL 0 t l j r) t) (iter_at l j r) false = Done t2 /\
    clear_meta t2 j = Done t3 /\ (exists ch', index_ok t3 ch') /\ same_shape t t3 /\
    forall k, names t3 k = upd (names t) j None k.
Proof.
  intros T E Hlr. destruct (chain_slot _ _ _ t ch b l j r T E) as [Hj _].
  assert (H : exists t2 ch', ipa_table_delete_entry (dma_apply (delete_cmds (U := nat_index)
      IPA_NAT_INDX_TBL IPA_NAT_INDEX_EXPN_TBL 0 t l j r) t) (iter_at l j r) false = Done t2 /\
      index_ok t2 ch' /\ same_shape t t2 /\ forall k, names t2 k = upd (names t) j None k).
  { destruct l as [|x l _] using rev_ind.
    - rewrite (Hlr eq_refl) in *. cbn [app] in E.
      assert (b = j) as -> by (destruct (ck_cons (ok_chains _ _ _ _ _ T) b j) as (tl & E' & _);
        [rewrite E; left|rewrite E in E'; now injection E']).
      destruct (delete_alone _ _ _ t ch j false T E) as (t2 & Hd & T2 & Hs & Hc & _). eauto 10.
    - assert (E' : ch b = l ++ x :: j :: r) by (rewrite E; now rewrite <- app_assoc).
      destruct (delete_linked _ _ _ t ch b l x j r false T E') as (t2 & Hd & T2 & Hs & Hc & _);
        [done|]. eauto 10. }
  destruct H as (t2 & ch' & Hd & T2 & Hs & Hc). exists t2.
  destruct (clear_meta_ok t2 ch' j T2) as (t3 & Hcm & T3 & Hs3 & Hc3).
  - unfold tot in *. destruct Hs as (-> & -> & _). lia.
  - now rewrite Hc, upd_eq.
  - exists t3. split_and!; [done|done|eauto| |].
    + eapply same_shape_trans; eauto.
    + intros k. rewrite Hc3. apply Hc.
Qed.

(** A head's successor [y] goes instead, its rule now named by the head. *)
Lemma index_shift t ch b j y r i :
  index_ok t ch -> ch b = j :: y :: r -> names t y = Some i ->
  exists t2 t3,
    ipa_table_delete_entry (dma_apply (delete_cmds (U := nat_index) IPA_NAT_INDX_TBL
      IPA_NAT_INDEX_EXPN_TBL 0 t [] j (y :: r) ++ delete_cmds (U := nat_index) IPA_NAT_INDX_TBL
      IPA_NAT_INDEX_EXPN_TBL 0 t [j] y r) t) (iter_at [j] y r) false = Done t2 /\
    clear_meta t2 y = Done t3 /\ (exists ch', index_ok t3 ch') /\ same_shape t t3 /\
    forall k, names t3 k = upd (upd (names t) j (Some i)) y None k.
Proof.
  intros T E Hy. destruct (chain_slot _ _ _ t ch b [] j (y :: r) T E) as [Hj _].
  destruct (chain_slot _ _ _ t ch b [j] y r T E) as [Hyr _].
  destruct (slot_read _ _ _ t j (ok_geom _ _ _ _ _ T)) as [ej Ej]; [lia|].
  destruct (slot_read _ _ _ t y (ok_geom _ _ _ _ _ T)) as [ey Ey]; [lia|].
  assert (Hi : fget tbl_entry ey = i).
  { unfold names, content, rview in Hy. rewrite Ey in Hy. cbn in Hy.
    destruct (index_table_entry_is_valid ey); congruence. }
  assert (Hr : 0 <= fget tbl_entry ey < 65536) by now apply (fget_range tbl_entry).
  destruct (delete_head_shift _ _ _ t ch b j y r ej ey T E Ej Ey Hr) as (t2 & Hd & T2 & Hs & Hc).
  exists t2. destruct (clear_meta_ok t2 _ y T2) as (t3 & Hcm & T3 & Hs3 & Hc3).
  - unfold tot in *. destruct Hs as (-> & -> & _). lia.
  - unfold names. now rewrite Hc, upd_eq.
  - exists t3. split_and!; [done|done|eauto| |].
    + eapply same_shape_trans; eauto.
    + intros k. rewrite Hc3. unfold names at 1. rewrite Hc. apply upd_cong. intros k'.
      unfold upd. destruct (k' =? j); [|done]. f_equal.
      cbn. unfold index_table_entry_get_delete_head_dma_command_data.
      change (half IPA_NAT_INDEX_RULE_NAT_INDEX_FIELD_OFFSET) with tbl_entry.
      rewrite fget_fset_small; [exact Hi|reflexivity|exact Hr].
Qed.
(** An occupied record's place in its chain. *)
Lemma locate {U} {EI : EntryInterface U} {EL : EntryLaws U} bt et ti t ch i :
  table_ok bt et ti t ch -> content t i <> None ->
  exists b l r, ch b = l ++ i :: r /\ 0 < i < tot t.
Proof.
  intros T Hc. destruct (link t i) as [[p n]|] eqn:HL.
  - destruct (slot_used _ _ _ t ch i p n T HL) as (b & l & r & E & _).
    exists b, l, r. split; [exact E|]. exact (proj1 (chain_slot _ _ _ t ch b l i r T E)).
  - destruct Hc. exact (proj2 (content_link _ _ _ t i (ok_geom _ _ _ _ _ T)) HL).
Qed.

Lemma live_read t i v :
  live t i = Some v ->
  exists e, zlookup (recs t) i = Some e /\ table_entry_is_valid e = true /\ nat_read e = v.
Proof.
  intros H. destruct (proj1 (live_Some (EL := nat_laws) t i v) H) as [Hc _]. clear H.
  rename Hc into H. unfold content, rview in H.
  destruct (zlookup (recs t) i) as [e|]; [|done]. exists e. cbn in H.
  destruct (table_entry_is_valid e); [|done]. injection H as <-. done.
Qed.

(** Telling a rule that its index record is now [j]. *)
Lemma relabel t ch k w j :
  nat_marked t ch -> live t k = Some w -> 0 <= j < 65536 ->
  exists e, load_rec t (Some k) = Done e /\
  exists t1, store_rec t (Some k) (fset indx_tbl_entry j e) = Done t1 /\
    nat_marked t1 ch /\ same_shape t t1 /\
    forall m, live t1 m = upd (live t) k (Some (set_indx j w)) m.
Proof.
  intros M Hw Hj. destruct (live_read t k w Hw) as (e & E & Ev & Er). exists e.
  split; [unfold load_rec; cbn [mbind exec_bind deref]; now rewrite E|].
  unfold store_rec. cbn [mbind exec_bind deref].
  rewrite zstore_ok by (eapply zlookup_lt; eauto). cbn [mbind exec_bind].
  eexists. split; [reflexivity|].
  assert (Hrd : nat_read (fset indx_tbl_entry j e) = set_indx j w).
  { rewrite <- Er. unfold nat_read, set_indx. cbn. assert (0 <= j < 2 ^ 16) by lia.
    f_equal; fld; done. }
  destruct (store_keep_ok (U := nat_user) _ _ _ t ch k e (fset indx_tbl_entry j e)
              (mk_tbl _ _ _ _ _ M) E) as (T1 & _ & Hc1); cbn.
  - exact Ev.
  - unfold table_entry_is_valid in *. now fld.
  - unfold table_entry_get_next_index. now fld.
  - intros m b. unfold table_entry_get_prev_index. now fld.
  - cbn in Hc1. rewrite Hrd in Hc1.
    destruct (proj1 (live_Some (EL := nat_laws) t k w) Hw) as [Hcw Hdw].
    assert (Hd : lw_dead (U := nat_user) (EL := nat_laws) (set_indx j w) = false) by exact Hdw.
    split; [|split; [now unfold same_shape|exact (live_set (EL := nat_laws) _ _ k _ Hc1 Hd)]].
    split; [exact T1|]. intros m v Hm Hdm. rewrite Hc1 in Hm.
    destruct (Z.eq_dec m k) as [->|Hmk]; [rewrite upd_eq in Hm; congruence|].
    rewrite upd_ne in Hm by done. exact (mk_dead _ _ _ _ _ M m v Hm Hdm).
Qed.

(** The rest of the table part, on a table whose rule [i] is to go. *)
Lemma table_delete t ch b l i r :
  nat_marked t ch -> ch b = l ++ i :: r ->
  let t1 := dma_apply (delete_cmds (U := nat_user) IPA_NAT_BASE_TBL IPA_NAT_EXPN_TBL 0 t l i r) t in
  let it := iter_at l i r in
  exists t',
    (if ipa_table_iterator_is_head_with_tail it then Done t1
     else pe ← is_prev_empty t1 it; ipa_table_delete_entry (U := nat_user) t1 it pe) = Done t' /\
    (exists ch', nat_marked t' ch') /\ same_shape t t' /\
    forall j, live t' j = upd (live t) i None j.
Proof. exact (mark_delete_table (U := nat_user) _ _ _ t ch b l i r). Qed.

(** What is left once rule [i] and its index record are gone. *)
Lemma nat_ok_removed x ch chi x' ch' chi' i v :
  nat_ok x ch chi -> same_pair x x' -> nat_marked (table x') ch' -> index_ok (index_table x') chi' ->
  live (table x) i = Some v ->
  (forall k, live (table x') k = upd (live (table x)) i None k) ->
  (forall k, names (index_table x') k = upd (names (index_table x)) (v_indx v) None k) ->
  nat_ok x' ch' chi' /\ forall k, rules x' k = upd (rules x) i None k.
Proof.
  intros OK Hs T I Hv Hl Hn. pose proof (n_ref _ _ _ OK i v Hv) as Hi. split.
  - apply (nat_ok_update x ch chi); auto.
    + intros k w. rewrite Hl, Hn. destruct (Z.eq_dec k i) as [->|Hk]; [now rewrite upd_eq|].
      rewrite upd_ne by done. intros Hw. pose proof (n_ref _ _ _ OK k w Hw).
      rewrite upd_ne by congruence. done.
    + intros k m. rewrite Hn. destruct (Z.eq_dec k (v_indx v)) as [->|Hk]; [now rewrite upd_eq|].
      rewrite upd_ne by done. intros Hm. destruct (n_back _ _ _ OK k m Hm) as (w & Hw & Hwk).
      exists w. split; [|done]. rewrite Hl, upd_ne by congruence. done.
  - intros k. unfold rules. rewrite Hl. now upd_cases.
Qed.

Lemma nat_ok_shifted x ch chi x' ch' chi' i v k w :
  nat_ok x ch chi -> same_pair x x' -> nat_marked (table x') ch' -> index_ok (index_table x') chi' ->
  live (table x) i = Some v -> live (table x) k = Some w -> k <> i ->
  (forall m, live (table x') m =
    upd (upd (live (table x)) k (Some (set_indx (v_indx v) w))) i None m) ->
  (forall m, names (index_table x') m =
    upd (upd (names (index_table x)) (v_indx v) (Some k)) (v_indx w) None m) ->
  nat_ok x' ch' chi' /\ forall m, rules x' m = upd (rules x) i None m.
Proof.
  intros OK Hs T I Hv Hw Hki Hl Hn. pose proof (n_ref _ _ _ OK i v Hv) as Hi.
  pose proof (n_ref _ _ _ OK k w Hw) as Hk. split.
  - apply (nat_ok_update x ch chi); auto.
    + intros m u. rewrite Hl, Hn. unfold upd at 1. destruct (m =? i) eqn:Em; [done|]. zb.
      unfold upd at 1. destruct (m =? k) eqn:Emk; zb.
      * subst m. intros [= <-]. cbn [v_indx set_indx].
        rewrite upd_ne by congruence. now rewrite upd_eq.
      * intros Hu. pose proof (n_ref _ _ _ OK m u Hu). now rewrite !upd_ne by congruence.
    + intros m n. rewrite Hn. unfold upd at 1. destruct (m =? v_indx w) eqn:Em; [done|]. zb.
      unfold upd at 1. destruct (m =? v_indx v) eqn:Emv; zb.
      * subst m. intros [= <-]. exists (set_indx (v_indx v) w). split; [|done].
        rewrite Hl. rewrite upd_ne by done. now rewrite upd_eq.
      * intros Hm. destruct (n_back _ _ _ OK m n Hm) as (u & Hu & Hum).
        exists u. split; [|done]. rewrite Hl, !upd_ne by congruence. done.
  - intros m. unfold rules. rewrite Hl. unfold upd. destruct (m =? i); [done|].
    destruct (m =? k) eqn:Emk; [|done]. zb. subst m. rewrite Hw. done.
Qed.
(** The rule that gets the index record of [i] learns of it before the
    kernel is asked: what a refusal leaves behind. *)
Definition relabelled (x x' : ipa_nat_ip4_table_cache) (i : Z) (v : nat_view) : Prop :=
  exists k w, k <> i /\ live (table x) k = Some w /\
    live (table x') k = Some (set_indx (v_indx v) w) /\
    index_table x' = index_table x.

Lemma rules_relabelled x x' k w j :
  live (table x) k = Some w ->
  (forall m, live (table x') m = upd (live (table x)) k (Some (set_indx j w)) m) ->
  forall m, rules x' m = rules x m.
Proof.
  intros Hw Hl m. unfold rules. rewrite Hl. unfold upd. destruct (m =? k) eqn:E; [|done].
  zb. subst m. now rewrite Hw.
Qed.

(** The posting and the deletions, once the index commands [dsi] are in the
    list and the iterators stand at the records to go. *)
Lemma del_post_spec d nmi0 x ch chi x1 b l i r iit dsi (N : Z -> option Z) :
  nat_ok x ch chi -> same_pair x x1 -> nat_marked (table x1) ch -> ch b = l ++ i :: r ->
  Forall (own IPA_NAT_INDX_TBL IPA_NAT_INDEX_EXPN_TBL) dsi -> (length dsi <= 2)%nat ->
  (exists i2 i3,
    ipa_table_delete_entry (U := nat_index) (dma_apply dsi (index_table x1)) iit false = Done i2 /\
    clear_meta i2 (curr_index iit) = Done i3 /\ (exists chi', index_ok i3 chi') /\
    same_shape (index_table x1) i3 /\ forall k, names i3 k = N k) ->
  exists ret x' ds,
    nat_del_post (Some d) nmi0 true x1 (cmd_app empty_cmd dsi) (iter_at l i r) iit
      = Done (ret, x', ds) /\
    (ret = - EIO /\ x' = x1 \/
     ret = 0 /\ same_pair x x' /\ (exists ch', nat_marked (table x') ch') /\
       (exists chi', index_ok (index_table x') chi') /\
       (forall k, live (table x') k = upd (live (table x1)) i None k) /\
       (forall k, names (index_table x') k = N k)).
Proof.
  intros OK Hs M E Ho Hl (i2 & i3 & Hi2 & Hi3 & I3 & Hs3 & Hn3). unfold nat_del_post.
  rewrite (create_delete_command_ok (U := nat_user) _ _ _ (table x1) ch b l i r _ (mk_tbl _ _ _ _ _ M) E).
  cbn [mbind exec_bind].
  destruct (delete_own (U := nat_user) IPA_NAT_BASE_TBL IPA_NAT_EXPN_TBL 0 (table x1) l i r)
    as [Hot Hlt].
  set (dst := delete_cmds _ _ _ _ _ _ _) in *.
  rewrite in_buffer_ok by
    (unfold zlength, MAX_DMA_ENTRIES_FOR_DEL; cbn; rewrite length_app; lia).
  cbn [mbind exec_bind]. destruct (two_lists_entries dsi dst) as [Hent Hdma]; [lia|].
  destruct (post_all_or_none d nmi0 _ Hent) as [-> | ->]; cbn [mbind exec_bind Z.eqb negb].
  - rewrite Hdma. destruct (pair_dma_own x x1 ch chi dst dsi OK Hs Hot Ho) as [_ ->].
    destruct (table_delete (table x1) ch b l i r M E) as (t & Ht & Mt & Hst & Hlv).
    fold dst in Ht. cbn [table index_table set_tables]. rewrite Ht. cbn [mbind exec_bind].
    rewrite Hi2. cbn [mbind exec_bind]. rewrite Hi3. cbn [mbind exec_bind].
    do 3 eexists. split; [reflexivity|]. right. split; [done|].
    destruct Hs as (H1 & H2 & H3). split; [|split; [exact Mt|split; [exact I3|split; [exact Hlv|exact Hn3]]]].
    split; [eapply same_shape_trans; eauto|]. split; [eapply same_shape_trans; eauto|exact H3].
  - do 3 eexists. split; [reflexivity|]. left. split; [done|].
    unfold pair_dma, dma_apply. cbn [foldl]. now destruct x1.
Qed.
(** The records in front of and behind a record of a chain. *)
Lemma head_with_tail {U} {EI : EntryInterface U} {EL : EntryLaws U} bt et ti t ch b l i r :
  table_ok bt et ti t ch -> ch b = l ++ i :: r ->
  ipa_table_iterator_is_head_with_tail (iter_at l i r) =
  match l, r with [], _ :: _ => true | _, _ => false end.
Proof.
  intros T E. destruct (neighbours _ _ _ t ch b l i r T E) as [Hl Hr].
  unfold ipa_table_iterator_is_head_with_tail, iter_at, VALID_INDEX, IPA_TABLE_INVALID_ENTRY.
  cbn [next_index prev_index].
  destruct Hl as [[_ ->]|[Hl Hne]]; [|destruct l; [done|]].
  - destruct Hr as [->|(y & r' & -> & Hy)]; [done|]. cbn [List.hd].
    now rewrite (proj2 (Z.eqb_neq y 0)) by lia.
  - rewrite (proj2 (Z.eqb_neq (lst 0 _) 0)) by lia. apply andb_false_r.
Qed.

(** The head of an index chain: the second record takes its place. *)
Lemma shift_prepared x ch chi bi j y ri k w :
  nat_ok x ch chi -> chi bi = j :: y :: ri ->
  names (index_table x) y = Some k -> live (table x) k = Some w ->
  exists x1,
    ipa_nati_copy_second_index_entry_to_head x (iter_at [] j (y :: ri))
      (cmd_app empty_cmd (delete_cmds (U := nat_index) IPA_NAT_INDX_TBL IPA_NAT_INDEX_EXPN_TBL 0
                            (index_table x) [] j (y :: ri)))
    = Done (x1, cmd_app empty_cmd
              (delete_cmds (U := nat_index) IPA_NAT_INDX_TBL IPA_NAT_INDEX_EXPN_TBL 0
                 (index_table x) [] j (y :: ri) ++
               delete_cmds (U := nat_index) IPA_NAT_INDX_TBL IPA_NAT_INDEX_EXPN_TBL 0
                 (index_table x) [j] y ri)) /\
    ipa_table_iterator_next (U := nat_index) (iter_at [] j (y :: ri)) (index_table x1)
    = Done (0, iter_at [j] y ri) /\
    same_pair x x1 /\ index_table x1 = index_table x /\ nat_marked (table x1) ch /\
    forall m, live (table x1) m = upd (live (table x)) k (Some (set_indx j w)) m.
Proof.
  intros OK E Hy Hw. pose proof (n_idx _ _ _ OK) as I.
  pose proof (ok_geom _ _ _ _ _ I) as G.
  destruct (chain_slot _ _ _ _ chi bi [] j (y :: ri) I E) as [Hj _].
  destruct (chain_slot _ _ _ _ chi bi [j] y ri I E) as [Hyr HLy].
  destruct (link_Some _ y _ _ HLy) as (ey & Ey & Evy & _ & Eny).
  destruct (neighbours _ _ _ _ chi bi [j] y ri I E) as [_ Hr].
  assert (Hk : fget tbl_entry ey = k).
  { unfold names, content, rview in Hy. rewrite Ey, Evy in Hy. now injection Hy. }
  pose proof (g_max _ _ _ _ G).
  destruct (relabel (table x) ch k w j (n_tbl _ _ _ OK) Hw ltac:(lia))
    as (e & He & t1 & Hst & M1 & Hs1 & Hl1).
  exists (set_tables t1 (index_table x) x).
  assert (Hny : load_rec (index_table x) (Some y) = Done ey)
    by (unfold load_rec; cbn [mbind exec_bind deref]; now rewrite Ey).
  split.
  { unfold ipa_nati_copy_second_index_entry_to_head. cbn [next_entry curr_entry curr_index iter_at].
    rewrite Hny. cbn [mbind exec_bind].
    rewrite (add_dma_cmd_ok (U := nat_index) _ _ _ _ HELP_UPDATE_ENTRY j (fget index_next ey) _ G)
      by lia.
    cbn [mbind exec_bind]. rewrite Hk, He. cbn [mbind exec_bind]. rewrite Hst.
    cbn [mbind exec_bind snd]. change (fget index_next ey) with (entry_get_next_index ey).
    rewrite Eny. done. }
  split.
  { unfold ipa_table_iterator_next. cbn [next_entry curr_entry curr_index next_index iter_at index_table
      set_tables List.hd]. rewrite Hny. cbn [mbind exec_bind]. rewrite Eny.
    unfold VALID_INDEX, IPA_TABLE_INVALID_ENTRY, iter_at.
    destruct Hr as [->|(z & r' & -> & Hz)]; cbn [List.hd lst]; [done|].
    rewrite (proj2 (Z.eqb_neq z 0)) by lia. cbn [negb andb].
    now rewrite (get_entry_by_index_ok (U := nat_index) _ _ _ _ z G Hz). }
  split; [split; [exact Hs1|split; [now unfold same_shape|done]]|]. done.
Qed.

(** The commands of two deletions of the index table. *)
Lemma two_deletions t l1 i1 r1 l2 i2 r2 :
  let ds := delete_cmds (U := nat_index) IPA_NAT_INDX_TBL IPA_NAT_INDEX_EXPN_TBL 0 t l1 i1 r1 ++
            delete_cmds (U := nat_index) IPA_NAT_INDX_TBL IPA_NAT_INDEX_EXPN_TBL 0 t l2 i2 r2 in
  Forall (own IPA_NAT_INDX_TBL IPA_NAT_INDEX_EXPN_TBL) ds /\ length ds = 2%nat.
Proof.
  intros ds. subst ds. rewrite length_app.
  destruct (delete_own (U := nat_index) IPA_NAT_INDX_TBL IPA_NAT_INDEX_EXPN_TBL 0 t l1 i1 r1) as [H1 H2].
  destruct (delete_own (U := nat_index) IPA_NAT_INDX_TBL IPA_NAT_INDEX_EXPN_TBL 0 t l2 i2 r2) as [H3 H4].
  split; [now apply Forall_app|lia].
Qed.

(** What a deletion of the live rule [v] at [i] does: the rule is gone, or
    the kernel refused and at most one other rule was relabelled. *)
Definition nat_deleted (x x' : ipa_nat_ip4_table_cache) (ret i : Z) (v : nat_view) : Prop :=
  same_pair x x' /\
  (ret = 0 /\ (exists ch' chi', nat_ok x' ch' chi') /\
     (forall k, rules x' k = upd (rules x) i None k) \/
   ret = - EIO /\ (forall k, rules x' k = rules x k) /\ (x' = x \/ relabelled x x' i v)).

(** The rule's index record is the head of a chain with followers: the
    second record [y] takes its place. *)
Lemma nat_del_shift d nmi0 x ch chi b l i r bi y ri v :
  nat_ok x ch chi -> ch b = l ++ i :: r -> live (table x) i = Some v ->
  chi bi = v_indx v :: y :: ri ->
  exists ret x' ds,
    nat_del_index (Some d) nmi0 true x (iter_at l i r) (iter_at [] (v_indx v) (y :: ri))
      = Done (ret, x', ds) /\ nat_deleted x x' ret i v.
Proof.
  intros OK E Hv Ei. pose proof (n_idx _ _ _ OK) as I. pose proof (n_ref _ _ _ OK i v Hv) as Hj.
  destruct (chain_slot _ _ _ _ chi bi [v_indx v] y ri I Ei) as [Hyr HLy].
  destruct (names (index_table x) y) as [k|] eqn:Hy.
  2:{ apply (content_link (U := nat_index) _ _ _ _ y (ok_geom _ _ _ _ _ I)) in Hy. congruence. }
  destruct (n_back _ _ _ OK y k Hy) as (w & Hw & Hwy).
  assert (Hyv : y <> v_indx v).
  { intros ->. pose proof (ck_nodup _ _ _ _ (ok_chains _ _ _ _ _ I) bi) as Hnd.
    rewrite Ei in Hnd. apply NoDup_cons in Hnd as [Hnd _]. apply Hnd. left. }
  assert (Hki : k <> i) by congruence.
  destruct (shift_prepared x ch chi bi _ y ri k w OK Ei Hy Hw)
    as (x1 & Hcp & Hnx & Hs1 & Hi1 & M1 & Hl1).
  unfold nat_del_index.
  rewrite (create_delete_command_ok (U := nat_index) _ _ _ _ chi bi [] _ (y :: ri) _ I Ei).
  cbn [mbind exec_bind]. rewrite (head_with_tail (U := nat_index) _ _ _ _ chi bi [] _ (y :: ri) I Ei).
  rewrite Hcp. cbn [mbind exec_bind fst snd]. rewrite Hnx. cbn [mbind exec_bind fst snd].
  pose proof (two_deletions (index_table x) [] (v_indx v) (y :: ri) [v_indx v] y ri) as [Hdo Hdl].
  set (dsi := delete_cmds _ _ _ _ _ _ _ ++ delete_cmds _ _ _ _ _ _ _) in *.
  rewrite in_buffer_ok by (unfold zlength, MAX_DMA_ENTRIES_FOR_DEL; cbn [dma cmd_app empty_cmd app]; lia).
  cbn [mbind exec_bind Z.eqb negb].
  destruct (index_shift (index_table x) chi bi (v_indx v) y ri k I Ei Hy)
    as (i2 & i3 & Hi2 & Hi3 & I3 & Hs3 & Hn3).
  destruct (del_post_spec d nmi0 x ch chi x1 b l i r (iter_at [v_indx v] y ri) dsi
              (upd (upd (names (index_table x)) (v_indx v) (Some k)) y None) OK Hs1 M1 E Hdo ltac:(lia))
    as (ret & x' & ds & -> & Hout); [rewrite Hi1; exists i2, i3; done|].
  do 3 eexists. split; [reflexivity|].
  destruct Hout as [[-> ->]|(-> & Hs' & (ch' & M') & (chi' & I') & Hl' & Hn')].
  - split; [exact Hs1|]. right. split; [done|].
    split; [exact (rules_relabelled x x1 k w _ Hw Hl1)|]. right. exists k, w.
    split_and!; [done|done|rewrite Hl1; now rewrite upd_eq|done].
  - split; [exact Hs'|]. left. split; [done|].
    destruct (nat_ok_shifted x ch chi x' ch' chi' i v k w OK Hs' M' I' Hv Hw Hki) as [OK' Hr'].
    + intros m. rewrite Hl'. apply upd_cong. apply Hl1.
    + intros m. rewrite Hn'. now rewrite Hwy.
    + split; [eauto|exact Hr'].
Qed.

(** Otherwise the index record itself goes. *)
Lemma nat_del_plain d nmi0 x ch chi b l i r bi li ri v :
  nat_ok x ch chi -> ch b = l ++ i :: r -> live (table x) i = Some v ->
  chi bi = li ++ v_indx v :: ri -> (li = [] -> ri = []) ->
  exists ret x' ds,
    nat_del_index (Some d) nmi0 true x (iter_at l i r) (iter_at li (v_indx v) ri)
      = Done (ret, x', ds) /\ nat_deleted x x' ret i v.
Proof.
  intros OK E Hv Ei Hno. pose proof (n_idx _ _ _ OK) as I.
  pose proof (n_tbl _ _ _ OK) as M.
  unfold nat_del_index.
  rewrite (create_delete_command_ok (U := nat_index) _ _ _ _ chi bi li _ ri _ I Ei).
  cbn [mbind exec_bind]. rewrite (head_with_tail (U := nat_index) _ _ _ _ chi bi li _ ri I Ei).
  replace (match li, ri with [], _ :: _ => true | _, _ => false end) with false
    by (destruct li; [now rewrite Hno|done]).
  cbn [mbind exec_bind].
  destruct (delete_own (U := nat_index) IPA_NAT_INDX_TBL IPA_NAT_INDEX_EXPN_TBL 0
              (index_table x) li (v_indx v) ri) as [Hdo Hdl].
  rewrite in_buffer_ok by (unfold zlength, MAX_DMA_ENTRIES_FOR_DEL; cbn [dma cmd_app empty_cmd app]; lia).
  cbn [mbind exec_bind Z.eqb negb].
  destruct (index_delete (index_table x) chi bi li (v_indx v) ri I Ei Hno)
    as (i2 & i3 & Hi2 & Hi3 & I3 & Hs3 & Hn3).
  destruct (del_post_spec d nmi0 x ch chi x b l i r (iter_at li (v_indx v) ri) _
              (upd (names (index_table x)) (v_indx v) None) OK
              ltac:(split_and!; now unfold same_shape) M E Hdo ltac:(lia))
    as (ret & x' & ds & -> & Hout); [exists i2, i3; done|].
  do 3 eexists. split; [reflexivity|].
  destruct Hout as [[-> ->]|(-> & Hs' & (ch' & M') & (chi' & I') & Hl' & Hn')].
  - split; [split_and!; now unfold same_shape|]. right. split; [done|]. split; [done|]. now left.
  - split; [exact Hs'|]. left. split; [done|].
    destruct (nat_ok_removed x ch chi x' ch' chi' i v OK Hs' M' I' Hv Hl' Hn') as [OK' Hr'].
    split; [eauto|exact Hr'].
Qed.

Lemma nat_del_locked_spec d nmi0 x ch chi h i v :
  nat_ok x ch chi -> ipa_table_get_entry (table x) h = (0, Some (Some i, i)) ->
  live (table x) i = Some v ->
  exists ret x' ds, nat_del_locked (Some d) nmi0 true x h = Done (ret, x', ds) /\
    nat_deleted x x' ret i v.
Proof.
  intros OK Hh Hv. pose proof (mk_tbl _ _ _ _ _ (n_tbl _ _ _ OK)) as T.
  pose proof (n_idx _ _ _ OK) as I. pose proof (n_ref _ _ _ OK i v Hv) as Hj.
  destruct (proj1 (live_Some (EL := nat_laws) _ _ _) Hv) as [Hcv _].
  destruct (locate _ _ _ _ ch i T) as (b & l & r & E & Hi); [congruence|].
  destruct (locate _ _ _ _ chi (v_indx v) I) as (bi & li & ri & Ei & Hji);
    [unfold names in Hj; congruence|].
  destruct (live_read _ i v Hv) as (e & Ee & _ & Er).
  unfold nat_del_locked. rewrite Hh.
  rewrite (iterator_init_ok (U := nat_user) _ _ _ _ ch b l i r T E). cbn [mbind exec_bind Z.eqb negb].
  unfold load_rec at 1. cbn [mbind exec_bind deref]. rewrite Ee. cbn [mbind exec_bind deref].
  replace (fget indx_tbl_entry e) with (v_indx v) by (now rewrite <- Er).
  rewrite (get_entry_by_index_ok (U := nat_index) _ _ _ _ (v_indx v) (ok_geom _ _ _ _ _ I) Hji).
  rewrite (iterator_init_ok (U := nat_index) _ _ _ _ chi bi li _ ri I Ei).
  cbn [mbind exec_bind Z.eqb negb].
  destruct li as [|z li]; [destruct ri as [|y ri]|].
  - now apply nat_del_plain with ch chi b bi.
  - now apply nat_del_shift with ch chi b bi.
  - now apply nat_del_plain with ch chi b bi.
Qed.
End Spec.
