(* ===== verification/IpaNatApi.v ===== *)
(** The contract of the IPv4 NAT API, call by call, for any answers of the
    kernel and of libc: creating and deleting the tables, adding, deleting
    and querying rules, clearing. *)
From S2P Require Import Prelude.
From S2P Require Import Bits.
From S2P Require Import Chains.
From S2P Require Import IpaTable.
From S2P Require Import IpaTableSize.
From S2P Require Import IpaMemDesc.
From S2P Require Import IpaDma.
From S2P Require Import IpaTableWf.
From S2P Require Import IpaTableAdd.
From S2P Require Import IpaTableDel.
From S2P Require Import IpaTableMark.
From S2P Require Import IpaTableInit.
From S2P Require Import IpaNatEntry.
From S2P Require Import IpaNatDrv.
From S2P Require Import IpaNatCalls.
From S2P Require Import IpaNatSpec.

(** The allocation ioctl leaves the offset of the (zeroed) command alone: the
    tables start at offset 0 of their memory. *)
Definition nat_offsets_zero `{nat_env} : Prop :=
  forall size, snd (os_alloc IPA_IOC_ALLOC_NAT_TABLE size) = 0.

Definition valid_mem (m : Z) : Prop := m = IPA_NAT_MEM_IN_DDR \/ m = IPA_NAT_MEM_IN_SRAM.

Lemma valid_mem_ok m : valid_mem m -> IPA_VALID_NAT_MEM_IN m = true /\ 0 <= m < 2.
Proof. intros [-> | ->]; done. Qed.

Lemma break_handle m : valid_mem m -> BREAK_TBL_HDL (MAKE_TBL_HDL 1 m) = (m, 1).
Proof. intros [-> | ->]; reflexivity. Qed.

Lemma valid_handle m : valid_mem m -> VALID_TBL_HDL (MAKE_TBL_HDL 1 m) = true.
Proof. intros [-> | ->]; reflexivity. Qed.

(** ** States of one cache *)

(** A table pair in use, well formed. *)
Inductive nat_open (m : Z) (st : nat_state) (x : ipa_nat_ip4_table_cache) : Prop :=
| NatOpen c d ch chi :
    zlookup (ipv4_nat_cache st) m = Some c -> ipa_desc c = Some d -> ip4_tbl c = [x] ->
    table_cnt c = 1 -> cache_nmi c = m -> valid (mem_desc x) = true -> nmi (table x) = m ->
    nat_ok x ch chi -> zlength (pdns st) = IPA_MAX_PDN_NUM -> nat_open m st x.

(** The table pair of the cache of memory type [m], well formed or not. *)
Definition nat_holds (m : Z) (st : nat_state) (x : ipa_nat_ip4_table_cache) : Prop :=
  exists c, zlookup (ipv4_nat_cache st) m = Some c /\ ip4_tbl c = [x].

(** No table. *)
Inductive nat_closed (m : Z) (st : nat_state) : Prop :=
| NatClosed c x :
    zlookup (ipv4_nat_cache st) m = Some c -> ip4_tbl c = [x] -> table_cnt c = 0 ->
    valid (mem_desc x) = false -> zlength (pdns st) = IPA_MAX_PDN_NUM -> nat_closed m st.

Lemma start_nat_closed m : valid_mem m -> nat_closed m nat_start.
Proof. intros [-> | ->]; now apply (NatClosed _ _ start_cache zero_nat_table). Qed.

(** ** Creating the tables *)
Section Create.
Context {ENV : nat_env} {HWS : IpaHwSpec}.

(** The geometry of the rule table and of the index table. *)
Lemma nat_geom t k e addr r m :
  1 <= k <= 12 -> 2 <= e <= 4096 -> 2 ^ k + e <= IPA_TABLE_MAX_ENTRIES ->
  table_entries t = 2 ^ k -> expn_table_entries t = e -> tot_tbl_ents t = 2 ^ k + e ->
  recs t = r -> zlength r = 2 ^ k + e -> entry_size t = sizeof_ipa_nat_rule ->
  table_addr t = addr -> expn_table_addr t = addr + sizeof_ipa_nat_rule * 2 ^ k -> meta t = m ->
  m = None ->
  dma_help t =
    {| help_update_head := helper IPA_NAT_BASE_TBL IPA_NAT_EXPN_TBL 0 IPA_NAT_RULE_FLAG_FIELD_OFFSET;
       help_update_entry := helper IPA_NAT_BASE_TBL IPA_NAT_EXPN_TBL 0 IPA_NAT_RULE_NEXT_FIELD_OFFSET;
       help_delete_head := helper IPA_NAT_BASE_TBL IPA_NAT_EXPN_TBL 0 IPA_NAT_RULE_PROTO_FIELD_OFFSET |} ->
  table_geom (U := nat_user) IPA_NAT_BASE_TBL IPA_NAT_EXPN_TBL 0 t.
Proof.
  intros Hk He Ht H1 H2 H3 H4 H5 H6 H7 H8 H9 H10 H11. subst r m addr.
  assert (2 <= 2 ^ k) by (apply (Z.pow_le_mono_r 2 1 k); lia).
  unfold IPA_TABLE_MAX_ENTRIES in Ht.
  split; unfold tot; rewrite ?H1, ?H2; try done; try lia.
  - change lw_size with 32. lia.
Qed.

Lemma index_geom t k e addr l r :
  1 <= k <= 12 -> 2 <= e <= 4096 -> 2 ^ k + e <= IPA_TABLE_MAX_ENTRIES ->
  table_entries t = 2 ^ k -> expn_table_entries t = e -> tot_tbl_ents t = 2 ^ k + e ->
  recs t = r -> zlength r = 2 ^ k + e -> entry_size t = sizeof_ipa_nat_indx_tbl_rule ->
  table_addr t = addr -> expn_table_addr t = addr + sizeof_ipa_nat_indx_tbl_rule * 2 ^ k ->
  meta t = Some l -> l = replicate (Z.to_nat e) 0 ->
  dma_help t =
    {| help_update_head := helper IPA_NAT_INDX_TBL IPA_NAT_INDEX_EXPN_TBL 0
                             IPA_NAT_INDEX_RULE_NAT_INDEX_FIELD_OFFSET;
       help_update_entry := helper IPA_NAT_INDX_TBL IPA_NAT_INDEX_EXPN_TBL 0
                              IPA_NAT_INDEX_RULE_NEXT_FIELD_OFFSET;
       help_delete_head := helper IPA_NAT_INDX_TBL IPA_NAT_INDEX_EXPN_TBL 0
                             IPA_NAT_INDEX_RULE_NAT_INDEX_FIELD_OFFSET |} ->
  table_geom (U := nat_index) IPA_NAT_INDX_TBL IPA_NAT_INDEX_EXPN_TBL 0 t.
Proof.
  intros Hk He Ht H1 H2 H3 H4 H5 H6 H7 H8 H9 H10 H11. subst r addr.
  assert (2 <= 2 ^ k) by (apply (Z.pow_le_mono_r 2 1 k); lia).
  unfold IPA_TABLE_MAX_ENTRIES in Ht.
  split; unfold tot; rewrite ?H1, ?H2; try done; try lia.
  - change lw_size with 4. lia.
  - rewrite H9, H10. exists (replicate (Z.to_nat e) 0). split; [done|]. split.
    + unfold zlength. rewrite length_replicate. lia.
    + intros i p Hp. unfold zlookup in Hp. destruct (0 <=? i); [|done].
      apply lookup_replicate in Hp as [-> _]. lia.
Qed.
(** A pair of zeroed tables holds no rule. *)
Lemma nat_empty x m k e :
  valid_mem m ->
  table_geom (U := nat_user) IPA_NAT_BASE_TBL IPA_NAT_EXPN_TBL 0 (table x) ->
  table_geom (U := nat_index) IPA_NAT_INDX_TBL IPA_NAT_INDEX_EXPN_TBL 0 (index_table x) ->
  (forall j r, zlookup (recs (table x)) j = Some r -> r = 0) ->
  (forall j r, zlookup (recs (index_table x)) j = Some r -> r = 0) ->
  cur_tbl_cnt (table x) = 0 -> cur_expn_tbl_cnt (table x) = 0 ->
  cur_tbl_cnt (index_table x) = 0 -> cur_expn_tbl_cnt (index_table x) = 0 ->
  nmi (table x) = m -> nmi (index_table x) = m -> 1 <= k <= 12 -> table_entries (table x) = 2 ^ k ->
  0 <= e <= 4096 -> expn_table_entries (table x) = e ->
  table_entries (index_table x) = 2 ^ k -> expn_table_entries (index_table x) = e ->
  nat_ok x no_chains no_chains /\ forall i, rules x i = None.
Proof.
  intros Hm G Gi Hz Hz' H1 H2 H3 H4 Hn Hn' Hk Hb He Hx Hb' Hx'.
  destruct (empty_ok _ _ _ _ G Hz H1 H2) as [T Hc].
  destruct (empty_ok _ _ _ _ Gi Hz' H3 H4) as [Ti Hci].
  assert (Hl : forall i, live (table x) i = None)
    by (intros i; unfold live, IpaTableMark.live; now rewrite Hc).
  split; [|intros i; unfold rules; now rewrite Hl].
  split; [|exact Ti|..].
  - split; [exact T|]. intros i v Hi. rewrite Hc in Hi. discriminate Hi.
  - rewrite Hn. exact (proj2 (valid_mem_ok m Hm)).
  - rewrite Hn'. exact (proj2 (valid_mem_ok m Hm)).
  - now exists k.
  - lia.
  - congruence.
  - congruence.
  - intros i v Hi. rewrite Hl in Hi. discriminate Hi.
  - intros j i Hi. unfold names in Hi. rewrite Hci in Hi. discriminate Hi.
Qed.

Lemma nat_create_spec m x ip n :
  valid_mem m -> nat_offsets_zero -> sram_info_ok -> valid (mem_desc x) = false -> 0 <= n < 65536 ->
  exists ret x', ipa_nati_create_table m x ip n 0 = Done (ret, x') /\
    (ret <> 0 -> valid (mem_desc x') = false) /\
    (ret = 0 -> valid (mem_desc x') = true /\ nat_ok x' no_chains no_chains /\
                nmi (table x') = m /\ public_addr x' = ip /\ n - 1 <= tot (table x') /\
                forall i, rules x' i = None).
Proof.
  intros Hm Hoff Hsr Hv Hn. unfold ipa_nati_create_table. set (t0 := ipa_table_init _ _ _ _ _).
  destruct (entries_num_ok t0 n m Hn) as (ret & t & -> & _ & _ & Hgood); [exact Hm|].
  cbn [mbind exec_bind]. destruct (ret =? 0) eqn:Er; zb; cbn [negb].
  2:{ do 2 eexists. split; [reflexivity|]. split; done. }
  subst ret. destruct (Hgood eq_refl) as (k & e & -> & Hk & He & _ & Ht & Hcap).
  assert (2 <= 2 ^ k) by (apply (Z.pow_le_mono_r 2 1 k); lia).
  destruct env_calloc; cbn [negb].
  2:{ do 2 eexists. split; [reflexivity|]. split; done. }
  cbn [mem_desc]. set (d0 := ipa_mem_descriptor_init _ _ _ _ _ _ _).
  destruct (ipa_mem_descriptor_allocate_memory d0) as [ra d] eqn:Ea.
  destruct (ra =? 0) eqn:Era; zb; cbn [negb].
  2:{ do 2 eexists. split; [reflexivity|]. split; done. }
  subst ra. destruct (allocate_ok d0 0 d Ea) as (Hok & _ & _).
  destruct (Hok eq_refl) as (Hvd & Ho & _).
  change (allocate_ioctl_num d0) with IPA_IOC_ALLOC_NAT_TABLE in Ho. rewrite Hoff in Ho.
  pose proof (allocate_fits d0 d Hsr Ea) as Hfit.
  assert (Hsize : orig_rqst_size d0 = 32 * (2 ^ k + e) + 4 * (2 ^ k + e)) by done.
  unfold ipa_table_calculate_addresses. cbn [entry_size set_dims t0 ipa_table_init table_entries
    expn_table_entries tot_tbl_ents].
  change sizeof_ipa_nat_rule with 32. change sizeof_ipa_nat_indx_tbl_rule with 4.
  match goal with |- context [mapped_recs env_mem d ?a 32 ?c] =>
    set (rt := mapped_recs env_mem d a 32 c) end.
  match goal with |- context [mapped_recs env_mem d ?a 4 ?c] =>
    set (ri := mapped_recs env_mem d a 4 c) end.
  assert (Hrt : zlength rt = 2 ^ k + e) by (unfold rt; apply mapped_recs_length; lia).
  assert (Hri : zlength ri = 2 ^ k + e) by (unfold ri; apply mapped_recs_length; lia).
  edestruct (reset_ok (set_recs rt (set_addrs (md_base_addr d) (md_base_addr d + 32 * 2 ^ k)
                        (set_dims (2 ^ k) e (2 ^ k + e) t0)))) as (r & -> & Hrl & Hz);
    [cbn; lia..|exact Hrt|].
  cbn [mbind exec_bind].
  match goal with |- context [ipa_table_reset (set_recs ri ?t)] => set (ti := set_recs ri t) end.
  destruct (reset_ok ti) as (r' & -> & Hrl' & Hz'); [cbn; lia..|exact Hri|].
  cbn [mbind exec_bind]. do 2 eexists. split; [reflexivity|]. split; [done|].
  intros _. cbn [recs set_recs] in Hrl.
  match goal with |- context [nat_ok ?x' _ _] => set (x2 := x') end.
  set (tt := table x2). set (tti := index_table x2).
  assert (G : table_geom (U := nat_user) IPA_NAT_BASE_TBL IPA_NAT_EXPN_TBL 0 tt).
  { apply (nat_geom tt k e (md_base_addr d) r None); try done; [lia|].
    unfold tt, x2. cbn. rewrite Ho. reflexivity. }
  assert (Gi : table_geom (U := nat_index) IPA_NAT_INDX_TBL IPA_NAT_INDEX_EXPN_TBL 0 tti).
  { apply (index_geom tti k e (md_base_addr d + 32 * 2 ^ k + 32 * e)
             (replicate (Z.to_nat e) 0) r'); try done.
    - unfold ti in Hrl'. cbn in Hrl'. lia.
    - unfold tti, x2. cbn. rewrite Ho. reflexivity. }
  destruct (nat_empty x2 m k e Hm G Gi Hz Hz') as [OK Hru]; try done; lia.
Qed.
End Create.

(** ** Adding and deleting rules *)
Section Rules.
Context {ENV : nat_env} {HWS : IpaHwSpec}.

(** What a call on the rules of one cache leaves alone. *)
Definition rest_same (m : Z) (st st' : nat_state) : Prop :=
  pdns st' = pdns st /\ num_pdns st' = num_pdns st /\ hw_focus st' = hw_focus st /\
  active_nat_cache st' = active_nat_cache st /\
  forall m', m' <> m -> zlookup (ipv4_nat_cache st') m' = zlookup (ipv4_nat_cache st) m'.

Lemma open_update m st x x' c d ch' chi' :
  valid_mem m -> zlookup (ipv4_nat_cache st) m = Some c -> ipa_desc c = Some d ->
  ip4_tbl c = [x] -> table_cnt c = 1 -> cache_nmi c = m -> valid (mem_desc x) = true ->
  nmi (table x) = m -> zlength (pdns st) = IPA_MAX_PDN_NUM ->
  same_pair x x' -> nat_ok x' ch' chi' ->
  exists st', put_tbl m 1 x' c st = Done st' /\ nat_open m st' x' /\ rest_same m st st' /\
    Hash_token st' = Hash_token st.
Proof.
  intros Hm Hc Hd Hx Hn Hcm Hv Hnm Hp Hs OK. unfold put_tbl, set_tbl, set_cache.
  rewrite Hx. change (zstore (1 - 1) x' [x]) with (Done [x'] : exec _). cbn [mbind exec_bind].
  pose proof (zlookup_lt _ _ _ Hc). rewrite zstore_ok by done. cbn [mbind exec_bind].
  eexists. split; [reflexivity|].
  destruct Hs as (Hs1 & _ & Hmd & _). assert (Hnm' : nmi (table x') = m)
    by (destruct Hs1 as (_ & _ & _ & _ & _ & _ & _ & ->); done).
  split; [|split; [|done]].
  - apply (NatOpen _ _ _ (set_tbls [x'] c) d ch' chi'); cbn; try done.
    + now apply zlookup_insert_eq.
    + now rewrite Hmd.
  - split_and!; try done. intros m' Hm'. cbn. now apply zlookup_insert_ne.
Qed.

(** A rule of the tables after an addition. *)
Definition rule_added (x x' : ipa_nat_ip4_table_cache) (b h : Z) (v : nat_view) : Prop :=
  exists i, h = MakeEntryHdl (table x') i /\
    ipa_table_get_entry (table x') h = (0, Some (Some i, i)) /\ 0 < i < tot (table x') /\
    rules x i = None /\ (forall k, rules x' k = upd (rules x) i (Some v) k) /\
    i ∈ chain_of (U := nat_user) (table x') b.

Lemma nat_handle x ch chi i :
  nat_ok x ch chi -> 0 <= i < tot (table x) ->
  ipa_table_get_entry (table x) (MakeEntryHdl (table x) i) = (0, Some (Some i, i)).
Proof.
  intros OK Hi. destruct (nat_dims x ch chi OK) as (Hb & _ & Ht & _). pose proof (n_expn _ _ _ OK).
  apply get_entry_handle; try lia; try exact Hi; [exact (n_nmi _ _ _ OK)|exact Ht].
Qed.

Lemma add_done_added x x' ch chi b bi h v :
  same_pair x x' -> add_done x x' ch chi b bi h v -> rule_added x x' b h v.
Proof.
  intros (Hs & _) (i & j & Hi & -> & Hc & OK & Hr).
  assert (Htot : tot (table x') = tot (table x))
    by (unfold tot; destruct Hs as (-> & -> & _); done).
  assert (Hh : MakeEntryHdl (table x') i = MakeEntryHdl (table x) i)
    by (unfold MakeEntryHdl; destruct Hs as (-> & _ & _ & _ & _ & _ & _ & ->); done).
  exists i. rewrite <- Hh. split; [done|]. split; [apply (nat_handle _ _ _ _ OK); lia|]. split; [lia|].
  split.
  { unfold rules, live, IpaTableMark.live. now rewrite Hc. }
  split; [exact Hr|].
  pose proof (mk_tbl _ _ _ _ _ (n_tbl _ _ _ OK)) as T.
  rewrite (chain_of_ok _ _ _ _ _ b T); rewrite upd_eq.
  - apply elem_of_app. right. left.
  - intros H. symmetry in H. now apply app_cons_not_nil in H.
Qed.

Lemma nat_add_open m st x u h0 p :
  valid_mem m -> nat_open m st x -> hw_focus st = Some m -> rule_typed u ->
  u_protocol u <> IPAHAL_NAT_INVALID_PROTOCOL ->
  zlookup (pdns st) (u_pdn_index u) = Some p -> public_ip p <> 0 -> env_lock = true ->
  exists d c, zlookup (ipv4_nat_cache st) m = Some c /\ ipa_desc c = Some d /\
  let size := table_entries (table x) - 1 in
  let b := nat_bucket (ver d) (pdns st) (Hash_token st) size u in
  let bi := index_bucket (if u_src_only u then Hash_token st + 1 else Hash_token st) size u in
  exists ret h st' x',
    ipa_NATI_add_ipv4_rule st (MAKE_TBL_HDL 1 m) (Some u) (Some h0) = Done (ret, Some h, st') /\
    nat_open m st' x' /\ rest_same m st st' /\ same_pair x x' /\
    (ret = 0 /\ rule_added x x' b h (rule_of (pdns st) u) \/
     ret = - EPERM /\ env_unlock = false /\ h = 0 /\
       (exists h', rule_added x x' b h' (rule_of (pdns st) u)) \/
     h = 0 /\ (forall i, rules x' i = rules x i) /\
       (ret = - EIO \/ ret = -1 /\ (full (U := nat_user) (table x) b \/
                                    full (U := nat_index) (index_table x) bi))).
Proof.
  intros Hm [c d ch chi Hc Hd Hx Hcnt Hcm Hv Hnm OK Hpd] Hf Hu Hp Hpdn Hip Hl.
  exists d, c. split; [exact Hc|]. split; [exact Hd|]. intros size b bi.
  pose proof (zlookup_lt _ _ _ Hpdn) as Hpi. rewrite Hpd in Hpi.
  unfold ipa_NATI_add_ipv4_rule. rewrite (valid_handle m Hm), (break_handle m Hm). cbn [negb].
  rewrite (proj1 (valid_mem_ok m Hm)). cbn [negb]. unfold get_cache. rewrite Hc.
  cbn [mbind exec_bind deref]. rewrite (proj2 (Z.eqb_neq _ _) Hp).
  rewrite Z.geb_leb, (proj2 (Z.leb_gt _ _)) by lia. rewrite Hpdn. cbn [mbind exec_bind deref].
  rewrite (proj2 (Z.eqb_neq _ _) Hip), Hl. cbn [negb]. unfold get_tbl. rewrite Hx.
  change (zlookup [x] (1 - 1)) with (Some x). cbn [mbind exec_bind deref]. rewrite Hv. cbn [negb].
  rewrite Hd, bool_decide_eq_true_2 by done.
  destruct (nat_add_locked_spec d (cache_nmi c) (pdns st) (Hash_token st) x u ch chi OK Hu Hpd
              ltac:(lia) Hp) as (ret & x' & tok & h & ds & -> & Hs & Hr).
  cbn [mbind exec_bind]. fold size b bi in Hr.
  assert (OK' : exists ch' chi', nat_ok x' ch' chi').
  { destruct Hr as [[_ (i & j & _ & _ & _ & OK' & _)]|(_ & _ & OK' & _)]; eauto. }
  destruct OK' as (ch' & chi' & OK').
  destruct (open_update m (set_token tok st) x x' c d ch' chi' Hm Hc Hd Hx Hcnt Hcm Hv Hnm Hpd Hs OK')
    as (st' & -> & O & Hrest & _).
  cbn [mbind exec_bind].
  destruct Hr as [[-> Hdone]|(Hne & -> & _ & Hfail)].
  - cbn [Z.eqb negb]. apply (add_done_added _ _ _ _ _ _ _ _ Hs) in Hdone.
    destruct env_unlock eqn:Eu; cbn [negb]; do 4 eexists; (split; [reflexivity|]);
      (split; [exact O|]); (split; [exact Hrest|]); (split; [exact Hs|]); [now left|].
    right. left. eauto.
  - rewrite (proj2 (Z.eqb_neq ret 0)) by done. cbn [negb]. do 4 eexists. split; [reflexivity|].
    split; [exact O|]. split; [exact Hrest|]. split; [exact Hs|]. right. right. split; [done|].
    exact Hfail.
Qed.
Lemma put_same m st x c :
  zlookup (ipv4_nat_cache st) m = Some c -> ip4_tbl c = [x] -> put_tbl m 1 x c st = Done st.
Proof.
  intros Hc Hx. pose proof (zlookup_lt _ _ _ Hc) as Hm. unfold put_tbl, set_tbl, set_cache.
  rewrite Hx. change (zstore (1 - 1) x [x]) with (Done [x] : exec _). cbn [mbind exec_bind].
  assert (Hset : set_tbls [x] c = c) by (destruct c; cbn in *; now subst).
  rewrite Hset. unfold zstore. rewrite Hc. cbn [mbind exec_bind]. do 2 f_equal.
  assert (Hl : zinsert m c (ipv4_nat_cache st) = ipv4_nat_cache st).
  { unfold zinsert, zlookup in *. destruct (0 <=? m); [now apply list_insert_id|done]. }
  rewrite Hl. now destruct st.
Qed.

(** What a call on an open cache reads first. *)
Lemma nat_del_start m st x c d h :
  valid_mem m -> zlookup (ipv4_nat_cache st) m = Some c -> ipa_desc c = Some d ->
  ip4_tbl c = [x] -> valid (mem_desc x) = true -> hw_focus st = Some m -> env_lock = true ->
  ipa_NATI_del_ipv4_rule st (MAKE_TBL_HDL 1 m) h =
    (r ← nat_del_locked (Some d) (cache_nmi c) true x h;
     let '(ret, x, _) := r in st ← put_tbl m 1 x c st; Done (after_unlock ret, st)).
Proof.
  intros Hm Hc Hd Hx Hv Hf Hl. unfold ipa_NATI_del_ipv4_rule. rewrite (break_handle m Hm).
  rewrite (proj1 (valid_mem_ok m Hm)). cbn [negb]. unfold get_cache. rewrite Hc.
  cbn [mbind exec_bind deref]. rewrite Hl. cbn [negb]. unfold get_tbl. rewrite Hx.
  change (zlookup [x] (1 - 1)) with (Some x). cbn [mbind exec_bind deref]. rewrite Hv. cbn [negb].
  now rewrite Hd, bool_decide_eq_true_2 by done.
Qed.

Lemma nat_del_open m st x h i v :
  valid_mem m -> nat_open m st x -> hw_focus st = Some m -> env_lock = true ->
  ipa_table_get_entry (table x) h = (0, Some (Some i, i)) -> live (table x) i = Some v ->
  exists ret st' x', ipa_NATI_del_ipv4_rule st (MAKE_TBL_HDL 1 m) h = Done (ret, st') /\
    (ret = after_unlock 0 /\ nat_open m st' x' /\ rest_same m st st' /\ same_pair x x' /\
       (forall k, rules x' k = upd (rules x) i None k) \/
     ret = after_unlock (- EIO) /\ (forall k, rules x' k = rules x k) /\
       (st' = st /\ x' = x \/ relabelled x x' i v) /\ same_pair x x' /\ nat_holds m st' x').
Proof.
  intros Hm [c d ch chi Hc Hd Hx Hcnt Hcm Hv Hnm OK Hpd] Hf Hl Hh Hlv.
  rewrite (nat_del_start m st x c d h) by done.
  destruct (nat_del_locked_spec d (cache_nmi c) x ch chi h i v OK Hh Hlv)
    as (ret & x' & ds & -> & Hs & Hr). cbn [mbind exec_bind].
  destruct Hr as [(-> & (ch' & chi' & OK') & Hr)|(-> & Hr & Hx')].
  - destruct (open_update m st x x' c d ch' chi' Hm Hc Hd Hx Hcnt Hcm Hv Hnm Hpd Hs OK')
      as (st' & -> & O & Hrest & _).
    cbn [mbind exec_bind]. exists (after_unlock 0), st', x'. split; [done|]. now left.
  - destruct Hx' as [->|Hrel].
    + rewrite (put_same m st x c Hc Hx). cbn [mbind exec_bind].
      exists (after_unlock (- EIO)), st, x. split; [done|]. right.
      split_and!; try done; [now left|now exists c].
    + assert (Hput : exists st', put_tbl m 1 x' c st = Done st' /\ nat_holds m st' x').
      { unfold put_tbl, set_tbl, set_cache. rewrite Hx.
        change (zstore (1 - 1) x' [x]) with (Done [x'] : exec _). cbn [mbind exec_bind].
        pose proof (zlookup_lt _ _ _ Hc). rewrite zstore_ok by done. cbn. eexists. split; [done|].
        eexists. split; [now apply zlookup_insert_eq|done]. }
      destruct Hput as (st' & -> & Hst'). cbn [mbind exec_bind].
      exists (after_unlock (- EIO)), st', x'. split; [done|]. right. split_and!; try done. now right.
Qed.

(** A handle of no record in use changes nothing. *)
Lemma nat_del_unused m st x h :
  valid_mem m -> nat_open m st x -> hw_focus st = Some m -> env_lock = true ->
  (ipa_table_get_entry (table x) h = (- EINVAL, None) \/
   exists i, ipa_table_get_entry (table x) h = (0, Some (Some i, i)) /\
             content (U := nat_user) (table x) i = None) ->
  ipa_NATI_del_ipv4_rule st (MAKE_TBL_HDL 1 m) h = Done (after_unlock (- EINVAL), st).
Proof.
  intros Hm [c d ch chi Hc Hd Hx Hcnt Hcm Hv Hnm OK Hpd] Hf Hl Hh.
  rewrite (nat_del_start m st x c d h) by done.
  assert (Hdel : nat_del_locked (Some d) (cache_nmi c) true x h = Done (- EINVAL, x, [])).
  { unfold nat_del_locked. destruct Hh as [->|(i & Hh & Hi)]; [done|].
    pose proof (mk_tbl _ _ _ _ _ (n_tbl _ _ _ OK)) as T. pose proof (ok_geom _ _ _ _ _ T) as G.
    destruct (nat_dims x ch chi OK) as (_ & _ & Htt & _).
    assert (Hir : 0 <= i < tot (table x)).
    { destruct (get_entry_total (table x) h) as [_ [Hg|(k & Hg & Hk)]];
        [pose proof (g_base _ _ _ _ G); lia|rewrite Hh in Hg; discriminate Hg|].
      rewrite Hh in Hg. injection Hg as <-. lia. }
    destruct (slot_free _ _ _ _ ch i T Hir) as (e & Ee & Ev & _);
      [exact (proj1 (content_link _ _ _ _ i G) Hi)|].
    rewrite Hh, (iterator_init_free (U := nat_user) _ i e Ee Ev). done. }
  rewrite Hdel. cbn [mbind exec_bind]. now rewrite (put_same m st x c Hc Hx).
Qed.

(** ** Time stamps *)
Lemma nat_query_open m st x h i v ts :
  valid_mem m -> nat_open m st x -> env_lock = true ->
  ipa_table_get_entry (table x) h = (0, Some (Some i, i)) -> live (table x) i = Some v ->
  ipa_NATI_query_timestamp st (MAKE_TBL_HDL 1 m) h (Some ts) =
    Done (after_unlock 0, Some (v_time_stamp v)).
Proof.
  intros Hm [c d ch chi Hc Hd Hx Hcnt Hcm Hv Hnm OK Hpd] Hl Hh Hlv.
  unfold ipa_NATI_query_timestamp. rewrite (break_handle m Hm).
  rewrite (proj1 (valid_mem_ok m Hm)). cbn [negb]. unfold get_cache. rewrite Hc.
  cbn [mbind exec_bind deref]. rewrite Hl. cbn [negb]. unfold get_tbl. rewrite Hx.
  change (zlookup [x] (1 - 1)) with (Some x). cbn [mbind exec_bind deref]. rewrite Hv. cbn [negb].
  rewrite Hh. destruct (live_read _ i v Hlv) as (e & Ee & _ & <-).
  unfold load_rec. cbn [mbind exec_bind deref]. rewrite Ee. done.
Qed.
End Rules.

(** ** Creating, clearing and deleting the tables *)
Section Tables.
Context {ENV : nat_env} {HWS : IpaHwSpec}.

(** The result a caller of ipa_NATI_add_ipv4_tbl sees. *)
Definition unlock_or_eperm (ret : Z) : Z := if env_unlock then ret else - EPERM.

Definition set_pdn0 (ip : Z) (pd pd' : list ipa_nat_pdn_entry) : Prop :=
  exists p0, zlookup pd 0 = Some p0 /\
    zlookup pd' 0 = Some {| public_ip := ip; src_metadata := src_metadata p0;
                            dst_metadata := dst_metadata p0 |} /\
    forall i, i <> 0 -> zlookup pd' i = zlookup pd i.

Lemma closed_update m st c x :
  valid_mem m -> is_Some (zlookup (ipv4_nat_cache st) m) -> ip4_tbl c = [x] -> table_cnt c = 0 ->
  valid (mem_desc x) = false -> zlength (pdns st) = IPA_MAX_PDN_NUM ->
  exists st', set_cache m (close_if_unused c) st = Done st' /\ nat_closed m st' /\ rest_same m st st'.
Proof.
  intros Hm [c0 Hc0] Hx Hcnt Hv Hp. pose proof (zlookup_lt _ _ _ Hc0) as Hl.
  unfold set_cache, close_if_unused. rewrite Hcnt. cbn [Z.eqb]. rewrite zstore_ok by done.
  cbn [mbind exec_bind]. eexists. split; [reflexivity|]. split.
  - apply (NatClosed _ _ (set_desc None c) x); cbn; try done. now apply zlookup_insert_eq.
  - split_and!; try done. intros m' Hm'. cbn. now apply zlookup_insert_ne.
Qed.

Lemma opened_update m st c d x ch chi :
  is_Some (zlookup (ipv4_nat_cache st) m) -> ipa_desc c = Some d -> ip4_tbl c = [x] ->
  table_cnt c = 1 -> cache_nmi c = m -> valid (mem_desc x) = true -> nmi (table x) = m ->
  nat_ok x ch chi -> zlength (pdns st) = IPA_MAX_PDN_NUM ->
  exists st', set_cache m c st = Done st' /\ nat_open m st' x /\ pdns st' = pdns st /\
    hw_focus st' = hw_focus st /\ active_nat_cache st' = active_nat_cache st /\
    num_pdns st' = num_pdns st.
Proof.
  intros [c0 Hc0] Hd Hx Hcnt Hcm Hv Hnm OK Hp. pose proof (zlookup_lt _ _ _ Hc0) as Hl.
  unfold set_cache. rewrite zstore_ok by done. cbn [mbind exec_bind].
  eexists. split; [reflexivity|]. split; [|done].
  apply (NatOpen _ _ _ c d ch chi); try done. cbn. now apply zlookup_insert_eq.
Qed.

Lemma nat_add_tbl_closed m st ip n h0 :
  valid_mem m -> nat_closed m st -> nat_offsets_zero -> sram_info_ok -> 0 <= n < 65536 ->
  env_lock = true ->
  exists ret h st', ipa_NATI_add_ipv4_tbl st m ip n (Some h0) = Done (ret, h, st') /\
    (h = MAKE_TBL_HDL 1 m /\ ret = unlock_or_eperm 0 /\
       (exists x, nat_open m st' x /\ n - 1 <= tot (table x) /\ public_addr x = ip /\
                  forall i, rules x i = None) /\
       hw_focus st' = Some m /\ active_nat_cache st' = Some m /\ num_pdns st' = 1 /\
       set_pdn0 ip (pdns st) (pdns st') \/
     h = 0 /\ (exists r, r <> 0 /\ ret = unlock_or_eperm r) /\ nat_closed m st' /\
       rest_same m st st').
Proof.
  intros Hm [c x Hc Hx Hcnt Hv Hp] Hoff Hsr Hn Hl. unfold ipa_NATI_add_ipv4_tbl.
  cbn [mbind exec_bind deref]. rewrite (proj1 (valid_mem_ok m Hm)). cbn [negb].
  unfold get_cache. rewrite Hc. cbn [mbind exec_bind deref]. rewrite Hl. cbn [negb].
  pose proof (zlookup_lt _ _ _ Hc) as Hml. fold unlock_or_eperm.
  cbn [set_nmi table_cnt ipa_desc]. rewrite Hcnt. change (0 >=? IPA_NAT_MAX_IP4_TBLS) with false.
  cbn iota. destruct (match ipa_desc c with Some d => Some d | None => env_open end) as [d|].
  2:{ unfold set_cache. rewrite zstore_ok by done. cbn [mbind exec_bind]. do 3 eexists.
      split; [reflexivity|]. right. split; [done|]. split; [now exists (- EIO)|]. split.
      - apply (NatClosed _ _ (set_nmi m c) x); cbn; try done. now apply zlookup_insert_eq.
      - split_and!; try done. intros m' Hm'. cbn. now apply zlookup_insert_ne. }
  cbn [set_desc set_nmi ip4_tbl table_cnt]. rewrite Hx, Hcnt. change (zlookup [x] 0) with (Some x).
  cbn [mbind exec_bind deref].
  destruct (nat_create_spec m x ip n Hm Hoff Hsr Hv Hn) as (ret & x' & -> & Hbad & Hgood).
  cbn [mbind exec_bind]. unfold set_tbl. cbn [set_desc set_nmi ip4_tbl set_tbls]. rewrite ?Hx.
  change (zstore 0 x' [x]) with (Done [x'] : exec _). cbn [mbind exec_bind].
  destruct (ret =? 0) eqn:Er; zb; cbn [negb].
  2:{ match goal with |- context [close_if_unused ?c'] => set (c1 := c') end.
      destruct (closed_update m st c1 x' Hm) as (st' & -> & C & Hrest);
        [rewrite Hc; eauto|done|done|now apply Hbad|done|].
      cbn [mbind exec_bind]. do 3 eexists. split; [reflexivity|]. right. split; [done|].
      split; [now exists ret|]. done. }
  destruct (Hgood Er) as (Hva & OK & Hnm & Hip & Hcap & Hru).
  cbn [table_cnt set_tbls set_desc set_nmi]. rewrite ?Hcnt.
  destruct (ipa_nati_post_ipv4_init_cmd m x' 0 false =? 0) eqn:Ei; zb; cbn [negb].
  2:{ unfold ipa_nati_destroy_table. cbn [ip4_tbl set_tbls].
      change (zstore 0 zero_nat_table [x']) with (Done [zero_nat_table] : exec _).
      cbn [mbind exec_bind].
      match goal with |- context [close_if_unused ?c'] => set (c1 := c') end.
      destruct (closed_update m st c1 zero_nat_table Hm) as (st' & -> & C & Hrest);
        [rewrite Hc; eauto|done..|].
      cbn [mbind exec_bind]. do 3 eexists. split; [reflexivity|]. right. split; [done|].
      split; [eexists; split; [exact Ei|reflexivity]|]. done. }
  cbn [pdns set_active set_focus]. change IPA_MAX_PDN_NUM with 16 in Hp.
  destruct (zlookup_is_Some (pdns st) 0) as [p0 Hp0]; [lia|]. rewrite Hp0.
  cbn [mbind exec_bind deref]. rewrite zstore_ok by lia. cbn [mbind exec_bind].
  change (u8 (0 + 1)) with 1.
  match goal with |- context [set_cache m ?c' ?s'] =>
    destruct (opened_update m s' c' d x' no_chains no_chains)
      as (st' & -> & O & Hpd & Hf & Ha & Hnp); try done end.
  { cbn [pdns set_pdns]. now rewrite zlength_insert. }
  cbn [mbind exec_bind table_cnt set_cnt]. do 3 eexists. split; [reflexivity|]. left.
  split_and!; try done; [now exists x'|]. rewrite Hpd. exists p0. split; [done|]. cbn [pdns set_pdns].
  split; [apply zlookup_insert_eq; lia|]. intros i Hi. now apply zlookup_insert_ne.
Qed.

(** ** Clearing *)
Lemma reset_empty {U} {EI : EntryInterface U} {EL : EntryLaws U} bt et ti t ch :
  table_ok bt et ti t ch ->
  exists t', ipa_table_reset t = Done t' /\ same_shape t (set_cnts 0 0 t') /\
    table_ok bt et ti (set_cnts 0 0 t') no_chains /\ forall i, content (set_cnts 0 0 t') i = None.
Proof.
  intros T. pose proof (ok_geom _ _ _ _ _ T) as G.
  pose proof (g_base _ _ _ _ G). pose proof (g_expn _ _ _ _ G).
  destruct (reset_ok t) as (r & -> & Hl & Hz); [lia|lia|exact (g_len _ _ _ _ G)|].
  eexists. split; [reflexivity|]. split; [now unfold same_shape|].
  apply empty_ok; try done.
  apply (geom_update bt et ti t); [exact G|now unfold same_shape|exact Hl|exact (g_meta _ _ _ _ G)].
Qed.

Lemma nat_clear_open m st x :
  valid_mem m -> nat_open m st x -> env_lock = true ->
  exists st' x', ipa_NATI_clear_ipv4_tbl st (MAKE_TBL_HDL 1 m) = Done (after_unlock 0, st') /\
    nat_open m st' x' /\ rest_same m st st' /\ same_pair x x' /\ forall i, rules x' i = None.
Proof.
  intros Hm [c d ch chi Hc Hd Hx Hcnt Hcm Hv Hnm OK Hpd] Hl. unfold ipa_NATI_clear_ipv4_tbl.
  rewrite (break_handle m Hm), (proj1 (valid_mem_ok m Hm)). cbn [negb]. unfold get_cache. rewrite Hc.
  cbn [mbind exec_bind deref]. rewrite Hl, Hcnt. cbn [negb Z.eqb]. unfold get_tbl. rewrite Hx.
  change (zlookup [x] (1 - 1)) with (Some x). cbn [mbind exec_bind deref].
  destruct (reset_empty _ _ _ _ ch (mk_tbl _ _ _ _ _ (n_tbl _ _ _ OK))) as (t & -> & Hs & T & Hct).
  cbn [mbind exec_bind].
  destruct (reset_empty _ _ _ _ chi (n_idx _ _ _ OK)) as (i & -> & Hsi & Ti & Hci).
  cbn [mbind exec_bind]. set (x' := set_tables _ _ x).
  assert (Hsp : same_pair x x') by done.
  assert (Hlv : forall k, live (table x') k = None)
    by (intros k; unfold live, IpaTableMark.live; cbn [x' table set_tables]; now rewrite Hct).
  assert (OK' : nat_ok x' no_chains no_chains).
  { apply (nat_ok_update x ch chi); auto.
    - split; [exact T|]. intros k v Hk. cbn [x' table set_tables] in Hk. rewrite Hct in Hk. discriminate Hk.
    - intros k v Hk. rewrite Hlv in Hk. discriminate Hk.
    - intros j k Hk. unfold names in Hk. cbn [x' index_table set_tables] in Hk.
      rewrite Hci in Hk. discriminate Hk. }
  destruct (open_update m st x x' c d _ _ Hm Hc Hd Hx Hcnt Hcm Hv Hnm Hpd Hsp OK')
    as (st' & -> & O & Hrest & _).
  cbn [mbind exec_bind]. exists st', x'. split_and!; try done; try apply Hrest.
  intros k. unfold rules. now rewrite Hlv.
Qed.

(** ** Deleting the tables *)

(** Deletion failed in the kernel: zeroed tables, still counted. *)
Inductive nat_stuck (m : Z) (st : nat_state) : Prop :=
| NatStuck c :
    zlookup (ipv4_nat_cache st) m = Some c -> ip4_tbl c = [zero_nat_table] -> table_cnt c = 1 ->
    nat_stuck m st.

Lemma nat_del_tbl_open m st x :
  valid_mem m -> nat_open m st x -> env_lock = true ->
  exists ret st', ipa_NATI_del_ipv4_table st (MAKE_TBL_HDL 1 m) = Done (ret, st') /\
    (ret = after_unlock 0 /\ nat_closed m st' \/ ret <> 0 /\ nat_stuck m st') /\ rest_same m st st'.
Proof.
  intros Hm [c d ch chi Hc Hd Hx Hcnt Hcm Hv Hnm OK Hpd] Hl. unfold ipa_NATI_del_ipv4_table.
  rewrite (break_handle m Hm), (proj1 (valid_mem_ok m Hm)). cbn [negb]. unfold get_cache. rewrite Hc.
  cbn [mbind exec_bind deref]. rewrite Hl. cbn [negb]. unfold get_tbl. rewrite Hx.
  change (zlookup [x] (1 - 1)) with (Some x). cbn [mbind exec_bind deref]. rewrite Hv. cbn [negb].
  unfold ipa_nati_destroy_table. set (ret := fst _). unfold set_tbl. rewrite Hx.
  change (zstore (1 - 1) zero_nat_table [x]) with (Done [zero_nat_table] : exec _).
  cbn [mbind exec_bind]. pose proof (zlookup_lt _ _ _ Hc) as Hml.
  unfold set_cache. rewrite zstore_ok by done. cbn [mbind exec_bind].
  do 2 eexists. split; [reflexivity|].
  assert (Hrest : forall c', rest_same m st (set_caches (zinsert m c' (ipv4_nat_cache st)) st)).
  { intros c'. split_and!; try done. intros m' Hm'. cbn. now apply zlookup_insert_ne. }
  split; [|apply Hrest].
  destruct (ret =? 0) eqn:Er; zb; cbn [negb].
  - left. rewrite Er. split; [done|]. cbn [table_cnt set_tbls]. rewrite Hcnt.
    change (u8 (1 - 1)) with 0.
    apply (NatClosed _ _ (set_desc None (set_cnt 0 (set_tbls [zero_nat_table] c))) zero_nat_table);
      cbn; try done. now apply zlookup_insert_eq.
  - right. split.
    + unfold after_unlock. destruct env_unlock; [done|]. now rewrite (proj2 (Z.eqb_neq ret 0)).
    + apply (NatStuck _ _ (set_tbls [zero_nat_table] c)); cbn; try done. now apply zlookup_insert_eq.
Qed.
End Tables.
