(* ===== verification/IpaNatRefine.v ===== *)
(** The abstract specification of the NAT rule API, a finite map from the
    handles given out to the rules in force, and the simulation: every run of
    calls on the active tables is a run of the specification. *)
From S2P Require Import Prelude.
From S2P Require Import Bits.
From S2P Require Import Chains.
From S2P Require Import IpaTable.
From S2P Require Import IpaTableSize.
From S2P Require Import IpaMemDesc.
From S2P Require Import IpaDma.
From S2P Require Import IpaTableWf.
From S2P Require Import IpaTableAdd.
From S2P Require Import IpaTableDel.
From S2P Require Import IpaTableMark.
From S2P Require Import IpaTableInit.
From S2P Require Import IpaNatEntry.
From S2P Require Import IpaNatDrv.
From S2P Require Import IpaNatCalls.
From S2P Require Import IpaNatSpec.
From S2P Require Import IpaNatApi.

(** ** The specification *)

(** A call as the client sees it: arguments and results. *)
Inductive nat_event :=
| EvAdd (u : ipa_nat_ipv4_rule) (ret h : Z)
| EvDel (h ret : Z)
| EvQuery (h ret ts : Z)
| EvClear (ret : Z).

Definition rule_map : Type := Z -> option nat_view.
Definition no_rules : rule_map := fun _ => None.

(** What each call may do to the map; [pd] are the public addresses. *)
Inductive spec_step (pd : list ipa_nat_pdn_entry) : rule_map -> nat_event -> rule_map -> Prop :=
| spec_add R R' u h :
    R h = None -> (forall k, R' k = upd R h (Some (rule_of pd u)) k) ->
    spec_step pd R (EvAdd u 0 h) R'
| spec_add_refused R R' u ret :
    ret = - EIO \/ ret = -1 -> (forall k, R' k = R k) -> spec_step pd R (EvAdd u ret 0) R'
| spec_del R R' h v :
    R h = Some v -> (forall k, R' k = upd R h None k) -> spec_step pd R (EvDel h 0) R'
| spec_del_refused R R' h v :
    R h = Some v -> (forall k, R' k = R k) -> spec_step pd R (EvDel h (- EIO)) R'
| spec_query R R' h v :
    R h = Some v -> (forall k, R' k = R k) -> spec_step pd R (EvQuery h 0 (v_time_stamp v)) R'
| spec_clear R R' : (forall k, R' k = None) -> spec_step pd R (EvClear 0) R'.

Inductive spec_run (pd : list ipa_nat_pdn_entry) : rule_map -> list nat_event -> rule_map -> Prop :=
| spec_done R R' : (forall k, R' k = R k) -> spec_run pd R [] R'
| spec_more R R1 R2 e es : spec_step pd R e R1 -> spec_run pd R1 es R2 -> spec_run pd R (e :: es) R2.

(** What the client must respect: rules with a valid protocol and a PDN that
    is set up, and handles of rules in force. *)
Definition legal (pd : list ipa_nat_pdn_entry) (R : rule_map) (e : nat_event) : Prop :=
  match e with
  | EvAdd u _ _ =>
      rule_typed u /\ u_protocol u <> IPAHAL_NAT_INVALID_PROTOCOL /\
      exists p, zlookup pd (u_pdn_index u) = Some p /\ public_ip p <> 0
  | EvDel h _ => R h <> None
  | EvQuery h _ _ => R h <> None
  | EvClear _ => True
  end.

(** A deletion the kernel refused: one rule can now name the index record of
    another, so the contract ends here. *)
Definition refused_del (e : nat_event) : bool :=
  match e with EvDel _ ret => negb (ret =? 0) | _ => false end.

Inductive legal_run (pd : list ipa_nat_pdn_entry) : rule_map -> list nat_event -> Prop :=
| legal_done R : legal_run pd R []
| legal_more R e es :
    legal pd R e -> (refused_del e = true -> es = []) ->
    (forall R1, spec_step pd R e R1 -> legal_run pd R1 es) ->
    legal_run pd R (e :: es).

(** ** The calls *)

(** One call on the tables of memory type [m], in any environment whose locks
    work and whose hardware does what is documented. *)
Inductive nat_call (m : Z) (st : nat_state) : nat_event -> nat_state -> Prop :=
| call_add (E : nat_env) (H : IpaHwSpec) u h0 ret h st' :
    env_lock = true -> env_unlock = true ->
    ipa_NATI_add_ipv4_rule st (MAKE_TBL_HDL 1 m) (Some u) (Some h0) = Done (ret, Some h, st') ->
    nat_call m st (EvAdd u ret h) st'
| call_del (E : nat_env) (H : IpaHwSpec) h ret st' :
    env_lock = true -> env_unlock = true ->
    ipa_NATI_del_ipv4_rule st (MAKE_TBL_HDL 1 m) h = Done (ret, st') ->
    nat_call m st (EvDel h ret) st'
| call_query (E : nat_env) h ret ts ts0 :
    env_lock = true -> env_unlock = true ->
    ipa_NATI_query_timestamp st (MAKE_TBL_HDL 1 m) h (Some ts0) = Done (ret, Some ts) ->
    nat_call m st (EvQuery h ret ts) st
| call_clear (E : nat_env) ret st' :
    env_lock = true -> env_unlock = true ->
    ipa_NATI_clear_ipv4_tbl st (MAKE_TBL_HDL 1 m) = Done (ret, st') ->
    nat_call m st (EvClear ret) st'.

Inductive nat_run (m : Z) : nat_state -> list nat_event -> nat_state -> Prop :=
| run_done st : nat_run m st [] st
| run_more st st1 st2 e es :
    nat_call m st e st1 -> nat_run m st1 es st2 -> nat_run m st (e :: es) st2.

(** ** The abstraction *)

(** The record a handle that was given out names. *)
Definition index_of_handle (t : ipa_table) (h : Z) : option Z :=
  match ipa_table_get_entry t h with
  | (_, Some (_, i)) => if MakeEntryHdl t i =? h then Some i else None
  | _ => None
  end.

Definition client (x : ipa_nat_ip4_table_cache) : rule_map := fun h =>
  match index_of_handle (table x) h with Some i => rules x i | None => None end.

Definition related (m : Z) (pd : list ipa_nat_pdn_entry) (st : nat_state) (R : rule_map) : Prop :=
  exists x, nat_open m st x /\ hw_focus st = Some m /\ pdns st = pd /\ forall h, R h = client x h.

(** The rules of the tables are those of the map; the tables need not be well
    formed. *)
Definition in_force (m : Z) (st : nat_state) (R : rule_map) : Prop :=
  exists x, nat_holds m st x /\ forall h, R h = client x h.

Lemma related_in_force m pd st R : related m pd st R -> in_force m st R.
Proof.
  intros (x & [c d ch chi Hc _ Hx _ _ _ _ _ _] & _ & _ & HR). exists x. split; [now exists c|done].
Qed.

Lemma index_of_handle_shape t t' h : same_shape t t' -> index_of_handle t' h = index_of_handle t h.
Proof.
  intros (H1 & _ & H2 & _ & _ & _ & _ & H3).
  unfold index_of_handle, ipa_table_get_entry, BREAK_RULE_HDL, MakeEntryHdl. now rewrite H1, H2, H3.
Qed.

Lemma index_of_handle_Some t h i :
  index_of_handle t h = Some i <->
  exists r p, ipa_table_get_entry t h = (r, Some (p, i)) /\ MakeEntryHdl t i = h.
Proof.
  unfold index_of_handle. destruct (ipa_table_get_entry t h) as [r [[p j]|]].
  - destruct (MakeEntryHdl t j =? h) eqn:E; zb.
    + split; [intros [= <-]; eauto|]. intros (r' & p' & [= _ _ <-] & _). done.
    + split; [done|]. intros (r' & p' & [= _ _ <-] & H). congruence.
  - split; [done|]. intros (r' & p' & [= ] & _).
Qed.

Lemma client_same x x' :
  same_pair x x' -> (forall i, rules x' i = rules x i) -> forall h, client x' h = client x h.
Proof.
  intros (Hs & _) Hr h. unfold client. rewrite (index_of_handle_shape _ _ h Hs).
  destruct (index_of_handle _ _); [apply Hr|done].
Qed.

Lemma client_upd x x' h i v :
  same_pair x x' -> index_of_handle (table x) h = Some i ->
  (forall k, rules x' k = upd (rules x) i v k) -> forall k, client x' k = upd (client x) h v k.
Proof.
  intros (Hs & _) Hi Hr k. unfold client at 1. rewrite (index_of_handle_shape _ _ k Hs).
  destruct (Z.eq_dec k h) as [->|Hk].
  - now rewrite Hi, upd_eq, Hr, upd_eq.
  - rewrite upd_ne by done. unfold client. destruct (index_of_handle (table x) k) as [j|] eqn:Ej; [|done].
    rewrite Hr, upd_ne; [done|]. intros ->.
    apply index_of_handle_Some in Hi as (_ & _ & _ & Hi).
    apply index_of_handle_Some in Ej as (_ & _ & _ & Ej). congruence.
Qed.

Lemma client_live x h v :
  client x h = Some v ->
  exists i w, ipa_table_get_entry (table x) h = (0, Some (Some i, i)) /\
    index_of_handle (table x) h = Some i /\ live (table x) i = Some w /\ v = set_indx 0 w.
Proof.
  unfold client. destruct (index_of_handle (table x) h) as [i|] eqn:Ei; [|done]. intros Hr.
  unfold rules in Hr. destruct (live (table x) i) as [w|] eqn:Ew; [|done]. injection Hr as <-.
  exists i, w. split; [|done].
  apply index_of_handle_Some in Ei as (r & p & Hg & _).
  unfold ipa_table_get_entry, GOTO_REC in Hg |- *. destruct (BREAK_RULE_HDL (table x) h) as [[mt iet] k].
  destruct (k >=? _); [done|]. injection Hg as _ _ <-. done.
Qed.

(** ** The simulation *)
Lemma open_unique m st x y : nat_open m st x -> nat_open m st y -> x = y.
Proof.
  intros [c d ch chi Hc _ Hx _ _ _ _ _ _] [c' d' ch' chi' Hc' _ Hy _ _ _ _ _ _]. congruence.
Qed.

Section Simulation.
Context (m : Z) (Hm : valid_mem m) (pd : list ipa_nat_pdn_entry).

Lemma simulate_add {E : nat_env} {H : IpaHwSpec} st R u h0 ret h st' :
  related m pd st R -> legal pd R (EvAdd u ret h) -> env_lock = true -> env_unlock = true ->
  ipa_NATI_add_ipv4_rule st (MAKE_TBL_HDL 1 m) (Some u) (Some h0) = Done (ret, Some h, st') ->
  exists R', spec_step pd R (EvAdd u ret h) R' /\ related m pd st' R'.
Proof.
  intros (x & O & Hf & Hpd & HR) (Hu & Hp & p & Hpn & Hip) Hl Hul Hcall.
  rewrite <- Hpd in Hpn.
  destruct (nat_add_open m st x u h0 p Hm O Hf Hu Hp Hpn Hip Hl)
    as (d & c & _ & _ & r & h' & s & x' & Hc & O' & Hrest & Hs & Hr).
  rewrite Hcall in Hc. injection Hc as <- <- <-.
  destruct Hrest as (Hpd' & _ & Hf' & _).
  destruct Hr as [[-> (i & Hh & Hg & _ & Hfree & Hru & _)]|[(_ & Hx & _)|(-> & Hru & Hwhy)]].
  - assert (Hih : index_of_handle (table x) h = Some i).
    { rewrite <- (index_of_handle_shape _ _ h (proj1 Hs)). apply index_of_handle_Some. eauto. }
    exists (client x'). split.
    + apply spec_add.
      * rewrite HR. unfold client. now rewrite Hih.
      * intros k. rewrite (client_upd x x' h i _ Hs Hih Hru k), Hpd. now apply upd_cong.
    + exists x'. split_and!; try done; congruence.
  - congruence.
  - exists (client x'). split.
    + apply spec_add_refused; [destruct Hwhy as [->|[-> _]]; auto|].
      intros k. now rewrite HR, (client_same x x' Hs Hru).
    + exists x'. split_and!; try done; congruence.
Qed.

Lemma simulate_deletion {E : nat_env} {H : IpaHwSpec} st R h ret st' :
  related m pd st R -> legal pd R (EvDel h ret) -> env_lock = true -> env_unlock = true ->
  ipa_NATI_del_ipv4_rule st (MAKE_TBL_HDL 1 m) h = Done (ret, st') ->
  exists R', spec_step pd R (EvDel h ret) R' /\ in_force m st' R' /\
    (ret = 0 -> related m pd st' R').
Proof.
  intros (x & O & Hf & Hpd & HR) Hh Hl Hul Hc. cbn in Hh. rewrite HR in Hh.
  destruct (client x h) as [v|] eqn:Ev; [clear Hh|done].
  destruct (client_live x h v Ev) as (i & w & Hg & Hih & Hw & ->).
  destruct (nat_del_open m st x h i w Hm O Hf Hl Hg Hw) as (r & s & x' & Hd & Hr).
  rewrite Hc in Hd. injection Hd as <- <-. unfold after_unlock in Hr. rewrite Hul in Hr.
  exists (client x'). destruct Hr as [(-> & O' & (Hpd' & _ & Hf' & _) & Hs & Hru)|(-> & Hru & _ & Hs & Hh)].
  - assert (HR' : related m pd st' (client x')) by (exists x'; split_and!; try done; congruence).
    split; [|split; [exact (related_in_force _ _ _ _ HR')|done]].
    apply (spec_del _ _ _ _ (set_indx 0 w)); [congruence|]. intros k.
    rewrite (client_upd x x' h i None Hs Hih Hru k). now apply upd_cong.
  - split; [|split; [now exists x'|discriminate]].
    apply (spec_del_refused _ _ _ _ (set_indx 0 w)); [congruence|].
    intros k. now rewrite HR, (client_same x x' Hs Hru).
Qed.

Lemma simulate st R e st' :
  related m pd st R -> legal pd R e -> nat_call m st e st' ->
  exists R', spec_step pd R e R' /\ in_force m st' R' /\
    (refused_del e = false -> related m pd st' R').
Proof.
  assert (Hok : forall st' R', related m pd st' R' ->
            in_force m st' R' /\ (refused_del e = false -> related m pd st' R'))
    by (intros s0 R0 H0; split; [exact (related_in_force _ _ _ _ H0)|done]).
  intros HRel HL HC. destruct HC as [E H u h0 ret h st' Hl Hul Hc|E H h ret st' Hl Hul Hc
    |E h ret ts ts0 Hl Hul Hc|E ret st' Hl Hul Hc].
  - destruct (simulate_add st R u h0 ret h st' HRel HL Hl Hul Hc) as (R' & Hs & HR').
    exists R'. split; [exact Hs|exact (Hok _ _ HR')].
  - destruct (simulate_deletion st R h ret st' HRel HL Hl Hul Hc) as (R' & Hs & Hin & HR').
    exists R'. split_and!; [exact Hs|exact Hin|]. cbn. intros Hr. apply HR'. now zb.
  - pose proof HRel as (x & O & Hf & Hpd & HR). cbn in HL.
    rewrite HR in HL. destruct (client x h) as [v|] eqn:Ev; [clear HL|done].
    destruct (client_live x h v Ev) as (i & w & Hg & Hih & Hw & ->).
    rewrite (nat_query_open m st x h i w ts0 Hm O Hl Hg Hw) in Hc.
    unfold after_unlock in Hc. rewrite Hul in Hc. injection Hc as <- <-.
    exists R. split; [|exact (Hok _ _ HRel)].
    change (v_time_stamp w) with (v_time_stamp (set_indx 0 w)).
    apply (spec_query _ _ _ h (set_indx 0 w)); [congruence|done].
  - destruct HRel as (x & O & Hf & Hpd & HR).
    destruct (nat_clear_open m st x Hm O Hl) as (s & x' & Hcl & O' & (Hpd' & _ & Hf' & _) & Hs & Hru).
    rewrite Hc in Hcl. injection Hcl as -> <-. unfold after_unlock. rewrite Hul.
    exists (client x'). split.
    + apply spec_clear. intros k. unfold client. destruct (index_of_handle _ _); [apply Hru|done].
    + apply Hok. exists x'. split_and!; try done; congruence.
Qed.

Lemma simulate_run st es st' : nat_run m st es st' ->
  forall R, related m pd st R -> legal_run pd R es ->
  exists R', spec_run pd R es R' /\ in_force m st' R' /\
    (existsb refused_del es = false -> related m pd st' R').
Proof.
  induction 1 as [st|st st1 st2 e es Hc Hrun IH]; intros R HR HL.
  - exists R. split_and!; [now apply spec_done|exact (related_in_force _ _ _ _ HR)|done].
  - inversion HL as [|R0 e0 es0 He Hlast Hes]; subst.
    destruct (simulate st R e st1 HR He Hc) as (R1 & Hs & Hin & HR1). cbn [existsb].
    destruct (refused_del e) eqn:Er.
    + specialize (Hlast eq_refl) as ->. inversion Hrun; subst. exists R1.
      split_and!; [apply (spec_more _ _ R1); [exact Hs|now apply spec_done]|exact Hin|done].
    + destruct (IH R1 (HR1 eq_refl) (Hes R1 Hs)) as (R2 & Hr & Hin2 & HR2).
      exists R2. split_and!; [now apply spec_more with R1|exact Hin2|exact HR2].
Qed.
End Simulation.
