(* ===== verification/IpaNatPdn.v ===== *)
(** The PDN configuration of the NAT library (ipa_nati_alloc_pdn and its
    companions in ipa_nat_drvi.c, their wrappers in ipa_nat_drv.c): searching,
    allocating and releasing entries, and the bounds of the PDN index.
    Chain statistics of the tables (gen_chain_stats and
    ipa_NATI_ipv4_tbl_stats there): on a well-formed table they are the
    number, total, shortest and longest length of the bucket chains of at
    least two records. *)
From S2P Require Import Prelude.
From S2P Require Import Bits.
From S2P Require Import Chains.
From S2P Require Import IpaTable.
From S2P Require Import IpaMemDesc.
From S2P Require Import IpaDma.
From S2P Require Import IpaTableWf.
From S2P Require Import IpaTableAdd.
From S2P Require Import IpaTableDel.
From S2P Require Import IpaTableMark.
From S2P Require Import IpaTableWalk.
From S2P Require Import IpaTableInit.
From S2P Require Import IpaNatEntry.
From S2P Require Import IpaNatDrv.
From S2P Require Import IpaNatCalls.

(** * The PDN configuration *)
(** ** The searches *)
Lemma find_pdn_ok n : forall lo p pd,
  0 <= lo -> lo + Z.of_nat n <= zlength pd ->
  exists r, find_pdn n lo p pd = Done r /\
    match r with
    | Some i => lo <= i < lo + Z.of_nat n /\
        (exists e, zlookup pd i = Some e /\ p e = true) /\
        forall j e, lo <= j < i -> zlookup pd j = Some e -> p e = false
    | None => forall j e, lo <= j < lo + Z.of_nat n -> zlookup pd j = Some e -> p e = false
    end.
Proof.
  induction n as [|n IH]; intros lo p pd Hlo Hl.
  - exists None. split; [done|]. intros. lia.
  - cbn [find_pdn]. destruct (zlookup_is_Some pd lo) as [e E]; [lia|]. rewrite E.
    cbn [mbind exec_bind deref]. destruct (p e) eqn:Ep.
    + exists (Some lo). split; [done|]. split; [lia|]. split; [eauto|]. intros. lia.
    + destruct (IH (lo + 1) p pd) as (r & -> & Hr); [lia|lia|]. exists r. split; [done|].
      destruct r as [i|].
      * destruct Hr as (Hi & He & Hf). split; [lia|]. split; [exact He|].
        intros j e' Hj Ej. destruct (Z.eq_dec j lo) as [->|]; [congruence|]. apply (Hf j); [lia|done].
      * intros j e' Hj Ej. destruct (Z.eq_dec j lo) as [->|]; [congruence|]. apply (Hr j); [lia|done].
Qed.

(** Searches that agree up to a hit find the same entry. *)
Lemma find_pdn_first n lo p pd i e :
  0 <= lo -> lo + Z.of_nat n <= zlength pd -> lo <= i < lo + Z.of_nat n ->
  zlookup pd i = Some e -> p e = true ->
  (forall j e', lo <= j < i -> zlookup pd j = Some e' -> p e' = false) ->
  find_pdn n lo p pd = Done (Some i).
Proof.
  intros Hlo Hl Hi Ei Hp Hf. destruct (find_pdn_ok n lo p pd Hlo Hl) as (r & -> & Hr).
  destruct r as [k|].
  - destruct Hr as (Hk & (e' & Ek & Hpk) & Hfk). f_equal. f_equal.
    destruct (Z.lt_trichotomy k i) as [Hlt|[->|Hgt]]; [|done|].
    + rewrite (Hf k e') in Hpk by (lia || done). done.
    + rewrite (Hfk i e) in Hp by (lia || done). done.
  - rewrite (Hr i e) in Hp by (lia || done). done.
Qed.

Section Pdn.
Context {ENV : nat_env}.

Definition pdn_state (st : nat_state) : Prop :=
  zlength (pdns st) = IPA_MAX_PDN_NUM /\ zlength (ipv4_nat_cache st) = 2.

(** Whether the driver's device is open in either cache. *)
Definition dev_open (st : nat_state) : bool :=
  existsb (fun c => bool_decide (is_Some (ipa_desc c))) (ipv4_nat_cache st).

Lemma modify_pdn_ok st i p :
  pdn_state st -> 0 <= i < IPA_MAX_PDN_NUM ->
  exists ret st', ipa_nati_modify_pdn st {| ioc_pdn_index := i; ioc_pdn := p |} = Done (ret, st') /\
    (ret = 0 /\ st' = set_pdns (zinsert i p (pdns st)) (num_pdns st) st /\
       env_modify_pdn {| ioc_pdn_index := i; ioc_pdn := p |} = 0 \/
     ret <> 0 /\ st' = st /\
       (dev_open st = false \/ ret = env_modify_pdn {| ioc_pdn_index := i; ioc_pdn := p |})).
Proof.
  intros [Hp Hc] Hi. unfold ipa_nati_modify_pdn, get_cache, dev_open.
  destruct (ipv4_nat_cache st) as [|ddr [|sram [|? ?]]]; try (unfold zlength in Hc; cbn in Hc; lia).
  change (zlookup [ddr; sram] IPA_NAT_MEM_IN_DDR) with (Some ddr).
  change (zlookup [ddr; sram] IPA_NAT_MEM_IN_SRAM) with (Some sram). cbn [mbind exec_bind deref].
  assert (H : exists c, (match ipa_desc ddr with Some _ => Done ddr | None => Done sram end) = Done c /\
            (ipa_desc c = None -> existsb (fun c => bool_decide (is_Some (ipa_desc c))) [ddr; sram] = false)).
  { destruct (ipa_desc ddr) eqn:Ed; [exists ddr|exists sram]; (split; [done|]).
    - congruence.
    - cbn [existsb]. rewrite Ed. intros ->. done. }
  destruct H as (c & -> & Hcd). cbn [mbind exec_bind].
  destruct (ipa_desc c) as [d|].
  2:{ do 2 eexists. split; [reflexivity|]. right. split; [done|]. split; [done|]. left. now apply Hcd. }
  set (ret := env_modify_pdn _). destruct (ret =? 0) eqn:Er; zb; cbn [negb].
  - cbn [ioc_pdn_index ioc_pdn]. rewrite zstore_ok by lia. cbn [mbind exec_bind].
    do 2 eexists. split; [reflexivity|]. now left.
  - do 2 eexists. split; [reflexivity|]. right. auto.
Qed.

(** What a successful allocation found or made. *)
Definition pdn_allocated (st st' : nat_state) (info : ipa_nat_pdn_entry) (i : Z) : Prop :=
  0 <= i < IPA_MAX_PDN_NUM - 1 /\
  (forall j e, 0 <= j < i -> zlookup (pdns st) j = Some e ->
     public_ip e <> public_ip info /\ e <> zero_pdn) /\
  ((exists e, zlookup (pdns st) i = Some e /\ public_ip e = public_ip info) /\ st' = st \/
   zlookup (pdns st) i = Some zero_pdn /\ public_ip info <> 0 /\
   st' = set_pdns (zinsert i info (pdns st)) (num_pdns st + 1) st).

Lemma pdn_is_zero_ok e : pdn_is_zero e = true <-> e = zero_pdn.
Proof.
  unfold pdn_is_zero, zero_pdn. destruct e as [a b c]. cbn. split.
  - intros H. zb. now subst.
  - intros [= -> -> ->]. done.
Qed.

Lemma alloc_pdn_ok st info i0 :
  pdn_state st ->
  exists ret i st', ipa_nati_alloc_pdn st info i0 = Done (ret, i, st') /\
    (ret = 0 /\ pdn_allocated st st' info i \/
     ret <> 0 /\ i = i0 /\ st' = st /\
       (IPA_MAX_PDN_NUM - 1 <= num_pdns st \/
        (forall j e, 0 <= j < IPA_MAX_PDN_NUM - 1 -> zlookup (pdns st) j = Some e ->
           public_ip e <> public_ip info /\ e <> zero_pdn) \/
        dev_open st = false \/
        exists k, ret = env_modify_pdn {| ioc_pdn_index := k; ioc_pdn := info |})).
Proof.
  intros Hst. pose proof (proj1 Hst) as Hp. unfold ipa_nati_alloc_pdn.
  destruct (num_pdns st >=? IPA_MAX_PDN_NUM - 1) eqn:En; zb.
  { do 3 eexists. split; [reflexivity|]. right. split_and!; [done..|]. now left. }
  set (p := fun e => _ || _).
  assert (Hpf : forall e, p e = false -> public_ip e <> public_ip info /\ e <> zero_pdn).
  { intros e He. unfold p in He. apply orb_false_iff in He as [H1 H2]. zb. split; [done|].
    intros ->. now rewrite (proj2 (pdn_is_zero_ok zero_pdn)) in H2. }
  destruct (find_pdn_ok (Z.to_nat (IPA_MAX_PDN_NUM - 1)) 0 p (pdns st)) as (r & -> & Hr);
    [lia|rewrite Hp; unfold IPA_MAX_PDN_NUM; lia|].
  cbn [mbind exec_bind]. destruct r as [i|].
  2:{ do 3 eexists. split; [reflexivity|]. right. split_and!; [done..|]. right. left.
      intros j e Hj Ej. apply Hpf, (Hr j); [unfold IPA_MAX_PDN_NUM in *; lia|done]. }
  destruct Hr as (Hi & (e & Ei & Hpe) & Hf). rewrite Ei. cbn [mbind exec_bind deref].
  assert (Hir : 0 <= i < IPA_MAX_PDN_NUM - 1) by (unfold IPA_MAX_PDN_NUM in *; lia).
  assert (Hbefore : forall j e, 0 <= j < i -> zlookup (pdns st) j = Some e ->
     public_ip e <> public_ip info /\ e <> zero_pdn)
    by (intros j e' Hj Ej; apply Hpf; now apply (Hf j)).
  destruct (public_ip e =? public_ip info) eqn:Eip; zb.
  { do 3 eexists. split; [reflexivity|]. left. split; [done|]. split; [exact Hir|].
    split; [exact Hbefore|]. left. split; [eauto|done]. }
  unfold p in Hpe. rewrite (proj2 (Z.eqb_neq _ _) Eip) in Hpe. cbn [orb] in Hpe.
  apply pdn_is_zero_ok in Hpe as ->.
  destruct (modify_pdn_ok st i info Hst) as (ret & st' & -> & Hm); [lia|].
  cbn [mbind exec_bind]. destruct Hm as [(-> & -> & _)|(Hne & -> & Hwhy)].
  - cbn [Z.eqb negb]. do 3 eexists. split; [reflexivity|]. left. split; [done|].
    split; [exact Hir|]. split; [exact Hbefore|]. right. split; [done|]. split; [|done].
    cbn in Eip. congruence.
  - rewrite (proj2 (Z.eqb_neq ret 0)) by done. cbn [negb]. do 3 eexists. split; [reflexivity|].
    right. split_and!; [done..|]. right. right. destruct Hwhy; eauto.
Qed.

(** The allocated entry is the one looked up. *)
Lemma get_index_after_alloc st info i st' j0 :
  pdn_state st -> pdn_allocated st st' info i ->
  ipa_nati_get_pdn_index st' (public_ip info) j0 = Done (0, i).
Proof.
  intros [Hp _] (Hi & Hf & Hcase). unfold ipa_nati_get_pdn_index. unfold IPA_MAX_PDN_NUM in *.
  assert (Hl : zlength (pdns st') = 16 /\ (exists e, zlookup (pdns st') i = Some e /\
            public_ip e = public_ip info) /\
            forall j, j <> i -> zlookup (pdns st') j = zlookup (pdns st) j).
  { destruct Hcase as [[He ->]|(Hz & _ & ->)]; [done|]. cbn [pdns set_pdns].
    split; [rewrite zlength_insert; exact Hp|]. split.
    - exists info. split; [apply zlookup_insert_eq; lia|done].
    - intros j Hj. now apply zlookup_insert_ne. }
  destruct Hl as (Hl & (e & Ei & Hip) & Hoth).
  rewrite (find_pdn_first (Z.to_nat (16 - 1)) 0 _ (pdns st') i e ltac:(lia) ltac:(lia) ltac:(lia) Ei); [done|now zb|].
  intros j e' Hj Ej. rewrite Hoth in Ej by lia. zb. now apply (Hf j).
Qed.

Lemma dealloc_pdn_ok st i :
  pdn_state st -> 0 <= i < IPA_MAX_PDN_NUM ->
  exists ret st', ipa_nati_dealloc_pdn st i = Done (ret, st') /\
    (ret = 0 /\ num_pdns st <> 0 /\ zlookup (pdns st) i <> Some zero_pdn /\
       st' = set_pdns (zinsert i zero_pdn (pdns st)) (num_pdns st - 1) st \/
     ret = - EIO /\ st' = st /\
       (num_pdns st = 0 \/ zlookup (pdns st) i = Some zero_pdn \/ dev_open st = false \/
        env_modify_pdn {| ioc_pdn_index := i; ioc_pdn := zero_pdn |} <> 0)).
Proof.
  intros Hst Hi. pose proof (proj1 Hst) as Hp. unfold ipa_nati_dealloc_pdn.
  destruct (num_pdns st =? 0) eqn:En; zb.
  { do 2 eexists. split; [reflexivity|]. right. auto. }
  destruct (zlookup_is_Some (pdns st) i) as [e Ei]; [lia|]. rewrite Ei. cbn [mbind exec_bind deref].
  destruct (pdn_is_zero e) eqn:Ez.
  { apply pdn_is_zero_ok in Ez as ->. do 2 eexists. split; [reflexivity|]. right. auto. }
  assert (Hez : e <> zero_pdn) by (intros ->; now rewrite (proj2 (pdn_is_zero_ok zero_pdn)) in Ez).
  destruct (modify_pdn_ok st i zero_pdn Hst Hi) as (ret & st' & -> & Hm). cbn [mbind exec_bind].
  destruct Hm as [(-> & -> & _)|(Hne & -> & Hwhy)].
  - cbn [Z.eqb negb pdns set_pdns num_pdns]. rewrite zstore_ok by (rewrite zlength_insert; lia).
    cbn [mbind exec_bind]. rewrite zinsert_insert. do 2 eexists. split; [reflexivity|]. left.
    split_and!; try done. congruence.
  - rewrite (proj2 (Z.eqb_neq ret 0)) by done. cbn [negb]. do 2 eexists. split; [reflexivity|].
    right. split; [done|]. split; [done|]. right. right. destruct Hwhy as [|Hw]; [auto|].
    right. congruence.
Qed.
End Pdn.

(** * Statistics *)
(** ** The reference: the lengths of the chains that collide *)
Definition sum_of (l : list Z) : Z := foldr Z.add 0 l.
Definition min_of (l : list Z) : Z :=
  match l with [] => 0 | x :: l' => fold_left Z.min l' x end.
Definition max_of (l : list Z) : Z := fold_left Z.max l 0.

Definition summary (l : list Z) : chain_stat_help :=
  {| csh_tot_for_avg := sum_of l; csh_chains := zlength l; csh_min := min_of l; csh_max := max_of l |}.

Definition csh_add (csh : chain_stat_help) (n : Z) : chain_stat_help :=
  {| csh_tot_for_avg := u32 (csh_tot_for_avg csh + n); csh_chains := u32 (csh_chains csh + 1);
     csh_min := if csh_min csh =? 0 then n else Z.min (csh_min csh) n;
     csh_max := Z.max (csh_max csh) n |}.

Lemma sum_of_app l n : sum_of (l ++ [n]) = sum_of l + n.
Proof. unfold sum_of. induction l as [|x l IH]; cbn in *; lia. Qed.

Lemma sum_of_bound l b : Forall (fun n => 0 <= n <= b) l -> 0 <= sum_of l <= b * zlength l.
Proof.
  unfold sum_of, zlength. induction 1 as [|n l Hn _ IH]; cbn [foldr length]; lia.
Qed.

Lemma min_of_pos l : Forall (fun n => 2 <= n) l -> l <> [] -> 2 <= min_of l.
Proof.
  destruct l as [|x l]; [done|]. intros H _. apply Forall_cons in H as [Hx H]. cbn.
  revert x Hx. induction H as [|y l Hy _ IH]; intros x Hx; cbn; [done|]. apply IH. lia.
Qed.

Lemma min_of_app l n :
  Forall (fun n => 2 <= n) l -> min_of (l ++ [n]) = if min_of l =? 0 then n else Z.min (min_of l) n.
Proof.
  intros H. destruct l as [|x l]; [done|].
  pose proof (min_of_pos (x :: l) H ltac:(done)) as Hm. rewrite (proj2 (Z.eqb_neq _ 0)) by lia.
  cbn [app min_of]. now rewrite fold_left_app.
Qed.

Lemma summary_add l n :
  Forall (fun n => 2 <= n <= 65535) l -> 0 <= n <= 65535 -> zlength l < 65535 ->
  csh_add (summary l) n = summary (l ++ [n]).
Proof.
  intros Hl Hn Hc. unfold csh_add, summary.
  cbn [csh_tot_for_avg csh_chains csh_min csh_max].
  assert (H2 : Forall (fun n => 2 <= n) l) by (eapply Forall_impl; [exact Hl|]; cbn; lia).
  assert (H0 : Forall (fun n => 0 <= n <= 65535) l) by (eapply Forall_impl; [exact Hl|]; cbn; lia).
  pose proof (sum_of_bound l 65535 H0).
  assert (Hz : 0 <= zlength l) by (unfold zlength; lia).
  rewrite min_of_app by done. f_equal.
  - rewrite sum_of_app. apply u32_small. lia.
  - unfold zlength in *. rewrite length_app. cbn [length]. rewrite u32_small by lia. lia.
  - unfold max_of. now rewrite fold_left_app.
Qed.

Section Stats.
Context {U : Type} {EI : EntryInterface U} {EL : EntryLaws U}.
Context (bt et ti : Z).

(** The colliding chains of a table, in bucket order. *)
Definition long_chains (t : ipa_table) : list Z :=
  List.filter (fun n => 2 <=? n)
    (List.map (fun b => zlength (chain_of t b)) (seqZ 0 (table_entries t))).

(** What the statistics of a table should be; an average over no chain is
    left 0 ([None]). *)
Definition expected_stats (m : Z) (t : ipa_table) : ipa_nati_tbl_stats :=
  {| stat_nmi := m; tot_ents := tot t; tot_base_ents := table_entries t;
     tot_base_ents_filled := occ (link t) 0 (Z.to_nat (table_entries t));
     tot_expn_ents := expn_table_entries t;
     tot_expn_ents_filled := occ (link t) (table_entries t) (Z.to_nat (expn_table_entries t));
     tot_chains := zlength (long_chains t); min_chain_len := min_of (long_chains t);
     max_chain_len := max_of (long_chains t);
     avg_chain_len := if decide (long_chains t = []) then None
                      else Some (sum_of (long_chains t), zlength (long_chains t)) |}.

Lemma chain_len_ok t ch b r : forall l i e fuel n,
  table_ok bt et ti t ch -> ch b = l ++ i :: r -> zlookup (recs t) i = Some e ->
  (length r < fuel)%nat -> 0 <= n -> n + zlength r < 2 ^ 32 ->
  chain_len_loop fuel t e n = Done (n + zlength r).
Proof.
  induction r as [|y r IH]; intros l i e fuel n T E Ee Hf Hn Hb;
    (destruct fuel as [|fuel]; [cbn in Hf; lia|]); cbn [chain_len_loop];
    destruct (chain_slot _ _ _ t ch b l i _ T E) as [_ HL];
    destruct (link_Some t i _ _ HL) as (e' & Ee' & _ & _ & En); rewrite Ee in Ee';
    injection Ee' as <-; rewrite En; cbn [List.hd].
  - unfold zlength. cbn. f_equal. lia.
  - assert (Ey : ch b = (l ++ [i]) ++ y :: r) by (rewrite E; now rewrite <- app_assoc).
    destruct (chain_slot _ _ _ t ch b _ y r T Ey) as [Hy HLy].
    destruct (link_Some t y _ _ HLy) as (ey & Eey & _).
    rewrite (proj2 (Z.eqb_neq y 0)) by lia. unfold load_rec, GOTO_REC.
    cbn [mbind exec_bind deref]. rewrite Eey. cbn [mbind exec_bind deref].
    unfold zlength in *. cbn [length] in *. rewrite u32_small by lia.
    rewrite (IH _ y ey fuel (n + 1) T Ey Eey) by (unfold zlength; lia). f_equal. unfold zlength. lia.
Qed.

(** A bucket's chain as the walk sees it: 0 for one that does not collide. *)
Lemma bucket_length t ch b e :
  table_ok bt et ti t ch -> 0 < b < table_entries t -> zlookup (recs t) b = Some e ->
  entry_is_valid e = true ->
  (if negb (entry_get_next_index e =? 0)
   then chain_len_loop (S (length (recs t))) t e 1 else Done 0) =
  Done (if 2 <=? zlength (chain_of t b) then zlength (chain_of t b) else 0) /\
  zlength (chain_of t b) <= 65535.
Proof.
  intros T Hb Ee Ev. pose proof (ok_geom _ _ _ _ _ T) as G.
  assert (Hne : ch b <> []).
  { intros H. apply (bucket_nil _ _ _ t ch b T Hb) in H.
    apply (link_valid _ _ _ t b e G Ee) in Ev. congruence. }
  rewrite (chain_of_ok _ _ _ t ch b T Hne). pose proof (chain_length _ _ _ t ch b T) as Hl.
  pose proof (g_len _ _ _ _ G) as Hlen. pose proof (g_max _ _ _ _ G) as Hmax.
  unfold zlength in Hlen. split; [|unfold zlength; lia].
  destruct (ch b) as [|h r] eqn:E; [done|].
  destruct (ck_cons (ok_chains _ _ _ _ _ T) b h) as (tl & E' & _); [rewrite E; left|].
  rewrite E in E'. injection E' as -> <-.
  destruct (chain_slot _ _ _ t ch b [] b r T E) as [_ HL].
  destruct (link_Some t b _ _ HL) as (e' & Ee' & _ & _ & En). rewrite Ee in Ee'.
  injection Ee' as <-. destruct r as [|y r]; cbn [List.hd] in En; rewrite En; [done|].
  destruct (chain_slot _ _ _ t ch b [b] y r T E) as [Hy _].
  rewrite (proj2 (Z.eqb_neq y 0)) by lia. cbn [negb].
  rewrite (chain_len_ok t ch b (y :: r) [] b e _ 1 T E Ee); unfold zlength in *; cbn [length] in *; try lia.
  rewrite (proj2 (Z.leb_le _ _)) by lia. f_equal. lia.
Qed.

(** Base records without a colliding chain: free ones are not visited. *)
Lemma free_short t ch b :
  table_ok bt et ti t ch -> 0 <= b < table_entries t -> link t b = None ->
  zlength (chain_of t b) < 2.
Proof.
  intros T Hb HL. pose proof (ok_geom _ _ _ _ _ T) as G. pose proof (g_expn _ _ _ _ G).
  destruct (slot_free _ _ _ t ch b T) as (e & Ee & _ & Hf); [unfold tot; lia|done|].
  unfold chain_of. cbn [follow]. destruct (b =? 0); [done|]. rewrite Ee, (lw_free_next e Hf).
  destruct (length (recs t)); done.
Qed.
Context (t : ipa_table) (ch : chain_map) (T : table_ok bt et ti t ch).
Context (Hbase : table_entries t <= 4096) (Hexpn : expn_table_entries t <= 4096)
  (Hnmi : 0 <= nmi t < 2).

Lemma stats_base_step b lens :
  0 <= b < table_entries t -> Forall (fun n => 2 <= n <= 65535) lens -> zlength lens <= b ->
  selected t WHEN_SLOT_FILLED b = true ->
  gen_chain_stats t (MakeEntryHdl t b) (Some b) b (meta_record t b) (Done (summary lens)) =
  (0, Done (summary (lens ++ List.filter (fun n => 2 <=? n) [zlength (chain_of t b)]))) /\
  zlength (chain_of t b) <= 65535.
Proof.
  intros Hb Hl Hlen Hsel. pose proof (ok_geom _ _ _ _ _ T) as G.
  pose proof (g_expn _ _ _ _ G). pose proof (g_base _ _ _ _ G).
  unfold selected in Hsel. destruct (zlookup (recs t) b) as [e|] eqn:Ee; [|done].
  assert (Hb0 : 0 < b).
  { destruct (decide (b = 0)) as [->|]; [|lia]. apply (link_valid _ _ _ t 0 e G Ee) in Hsel.
    destruct Hsel. apply (ck_zero _ _ _ _ (ok_chains _ _ _ _ _ T)). }
  unfold gen_chain_stats. rewrite break_make by lia.
  rewrite Z.geb_leb, (proj2 (Z.leb_gt _ _)) by lia. cbn [Z.eqb negb].
  unfold load_rec. cbn [mbind exec_bind deref]. rewrite Ee. cbn [mbind exec_bind deref].
  destruct (bucket_length t ch b e T) as [-> Hmax]; [lia|done|done|]. cbn [mbind exec_bind].
  split; [|exact Hmax]. cbn [List.filter]. set (n := zlength (chain_of t b)) in *.
  destruct (2 <=? n) eqn:E2; zb; [|now rewrite app_nil_r].
  rewrite (proj2 (Z.eqb_neq n 0)) by lia. cbn [negb]. f_equal. f_equal.
  apply (summary_add lens n Hl); lia.
Qed.

Lemma stats_base n : forall b lens rest,
  0 <= b -> b + Z.of_nat n <= table_entries t -> Forall (fun n => 2 <= n <= 65535) lens ->
  zlength lens <= b ->
  visit t gen_chain_stats
    (List.filter (selected t WHEN_SLOT_FILLED) (seqZ b (Z.of_nat n)) ++ rest) (Done (summary lens)) =
  visit t gen_chain_stats rest
    (Done (summary (lens ++ List.filter (fun n => 2 <=? n)
             (List.map (fun b => zlength (chain_of t b)) (seqZ b (Z.of_nat n)))))).
Proof.
  induction n as [|n IH]; intros b lens rest Hb Hn Hl Hlen; [now rewrite app_nil_r|].
  rewrite (seqZ_cons b (Z.of_nat (S n))) by lia.
  replace (Z.pred (Z.of_nat (S n))) with (Z.of_nat n) by lia. replace (Z.succ b) with (b + 1) by lia.
  cbn [List.filter List.map].
  destruct (selected t WHEN_SLOT_FILLED b) eqn:Hsel.
  - cbn [app visit]. destruct (stats_base_step b lens) as [-> Hmax]; [lia|done|done|done|].
    cbn [Z.eqb negb].
    assert (Hl' : Forall (fun n => 2 <= n <= 65535)
              (lens ++ List.filter (fun n => 2 <=? n) [zlength (chain_of t b)])).
    { apply Forall_app. split; [done|]. cbn [List.filter]. destruct (2 <=? _) eqn:E2; zb; [|done].
      apply Forall_cons. split; [lia|done]. }
    rewrite IH; [|lia|lia|exact Hl'|].
    + rewrite <- app_assoc. do 4 f_equal. cbn [List.filter]. now destruct (2 <=? _).
    + unfold zlength in *. rewrite length_app. cbn [List.filter].
      destruct (2 <=? _); cbn [length]; lia.
  - assert (HL : link t b = None).
    { pose proof (ok_geom _ _ _ _ _ T) as G. pose proof (g_expn _ _ _ _ G).
      unfold selected in Hsel.
      destruct (zlookup (recs t) b) as [e|] eqn:Ee;
        [|unfold link, links_of; now rewrite Ee].
      destruct (link t b) eqn:HL; [|done].
      assert (Hv : entry_is_valid e = true) by (apply (link_valid _ _ _ t b e G Ee); congruence).
      congruence. }
    pose proof (free_short t ch b T ltac:(lia) HL) as Hs.
    rewrite (proj2 (Z.leb_gt _ _)) by lia. apply IH; auto; lia.
Qed.

(** The walk ends at the first filled expansion record, with result 1. *)
Lemma stats_expn l s :
  Forall (fun i => table_entries t <= i < tot t) l ->
  visit t gen_chain_stats l s = (if decide (l = []) then 0 else 1, s).
Proof.
  intros H. destruct l as [|i l]; [done|]. apply Forall_cons in H as [Hi _]. cbn [visit].
  pose proof (ok_geom _ _ _ _ _ T) as G. pose proof (g_expn _ _ _ _ G).
  pose proof (g_base _ _ _ _ G). unfold tot in Hi.
  unfold gen_chain_stats. rewrite break_make by lia.
  rewrite Z.geb_leb, (proj2 (Z.leb_le _ _)) by lia. done.
Qed.

Lemma tbl_stats_ok m :
  exists ret, 0 <= ret /\ tbl_stats m t = Done (ret, expected_stats m t).
Proof.
  pose proof (ok_geom _ _ _ _ _ T) as G. pose proof (g_expn _ _ _ _ G).
  pose proof (g_base _ _ _ _ G). pose proof (g_max _ _ _ _ G). pose proof (g_len _ _ _ _ G).
  unfold tbl_stats, expected_stats, tot in *. rewrite walk_ok by lia. cbn [mbind exec_bind].
  unfold selection. rewrite Z.sub_0_r, (seqZ_app _ (table_entries t)), List.filter_app by lia.
  pose proof (stats_base (Z.to_nat (table_entries t)) 0 []) as Hs.
  rewrite Z2Nat.id in Hs by lia. change (summary []) with zero_csh in Hs.
  rewrite Hs by (done || lia). clear Hs. cbn [app].
  rewrite stats_expn.
  2:{ apply Forall_forall. intros i Hi. apply list_elem_of_In, filter_In in Hi as [Hi _].
      apply list_elem_of_In, elem_of_seqZ in Hi. unfold tot. lia. }
  eexists. split; [|cbn [snd fst mbind exec_bind csh_tot_for_avg csh_chains csh_min csh_max summary]].
  2:{ fold (long_chains t). rewrite (ok_cnt _ _ _ _ _ T), (ok_ecnt _ _ _ _ _ T).
      do 3 f_equal. destruct (long_chains t) as [|n l] eqn:E; [done|].
      destruct (decide (n :: l = [])); [done|].
      assert (Hn : 2 <= n).
      { assert (Hin : List.In n (long_chains t)) by (rewrite E; now left).
        unfold long_chains in Hin. apply filter_In in Hin as [_ Hin]. now zb. }
      assert (Hpos : 0 < sum_of (n :: l)).
      { assert (Hall : forall l, (forall x, List.In x l -> 2 <= x) -> 0 <= sum_of l).
        { intros l0. unfold sum_of. induction l0 as [|y l0 IH]; intros Hy; cbn; [lia|].
          specialize (Hy y ltac:(now left)) as Hy1. specialize (IH ltac:(intros; apply Hy; now right)).
          unfold sum_of in IH. lia. }
        specialize (Hall l). unfold sum_of in *. cbn [foldr].
        assert (0 <= foldr Z.add 0 l); [|lia]. apply Hall. intros x Hx.
        assert (Hin : List.In x (long_chains t)) by (rewrite E; now right).
        unfold long_chains in Hin. apply filter_In in Hin as [_ Hin]. now zb. }
      rewrite (proj2 (Z.eqb_neq (sum_of (n :: l)) 0)) by lia.
      rewrite (proj2 (Z.eqb_neq (zlength (n :: l)) 0)) by (unfold zlength; cbn; lia). done. }
  cbn. destruct (decide _); lia.
Qed.
End Stats.
