(* ===== verification/IpaNatThms.v ===== *)
(** The properties of the IPv4 NAT library: the refinement of the rule map,
    the contract of each call, the PDN configuration and the statistics,
    each with an instance on a small table. *)
From S2P Require Import Prelude.
From S2P Require Import Bits.
From S2P Require Import Chains.
From S2P Require Import IpaTable.
From S2P Require Import IpaTableSize.
From S2P Require Import IpaMemDesc.
From S2P Require Import IpaDma.
From S2P Require Import IpaTableWf.
From S2P Require Import IpaTableAdd.
From S2P Require Import IpaTableDel.
From S2P Require Import IpaTableMark.
From S2P Require Import IpaTableWalk.
From S2P Require Import IpaTableInit.
From S2P Require Import IpaNatEntry.
From S2P Require Import IpaNatDrv.
From S2P Require Import IpaNatCalls.
From S2P Require Import IpaNatSpec.
From S2P Require Import IpaNatApi.
From S2P Require Import IpaNatRefine.
From S2P Require Import IpaNatPdn.

(** ** A concrete environment, used in the instances *)
Definition nat_demo_kernel (up : bool) : ipa3_context :=
  {| nat_is_dev_init := true; nat_is_hw_init := up; ipv6ct_is_hw_init := true;
     ipa_hw_type := 14; sram_compatible := true; coal_ep_mapped := true; ulso_wa := false;
     nat_loc_entries := fun _ => 15; nat_loc_expn_entries := fun _ => 4;
     ipv6ct_entries := 15; ipv6ct_expn_entries := 4; imm_cmd_ok := fun _ => true |}.

Definition nat_demo_os : ipa_os :=
  {| os_sram_info := (-1, zero_sram_info); os_alloc := fun _ _ => (0, 0); os_open := fun _ => 3;
     os_mmap := fun _ => Some 4096; os_close := 0; os_delete := fun _ _ _ => 0 |}.

(** The driver up, or down and refusing every command. *)
Definition nat_demo (up : bool) : nat_env :=
  {| env_os := nat_demo_os; env_hw := doc_hw; env_lock := true; env_unlock := true;
     env_open := Some {| fd := 3; ver := 14 |}; env_calloc := true; env_mem := fun a => a;
     env_init := fun _ => 0; env_modify_pdn := fun _ => 0; env_vote := fun _ => 0;
     env_sram_info := (0, 0); env_kernel := nat_demo_kernel up |}.

Definition nat_demo_rule (p : Z) : ipa_nat_ipv4_rule :=
  {| u_target_ip := 0x08080808; u_private_ip := 0xC0A80002; u_target_port := 80;
     u_private_port := p; u_public_port := p; u_protocol := 6; u_pdn_index := 0; u_redirect := 1;
     u_enable := 0; u_time_stamp := 77; u_uc_activation_index := 5; u_s := true; u_ucp := false;
     u_dst_only := false; u_src_only := false |}.

Lemma nat_demo_typed p : 0 <= p < 2 ^ 16 -> rule_typed (nat_demo_rule p).
Proof. unfold rule_typed. cbn. lia. Qed.

Definition demo_hdl : Z := MAKE_TBL_HDL 1 IPA_NAT_MEM_IN_DDR.
Definition demo_state {A} (r : exec (A * nat_state)) : nat_state :=
  match r with Done (_, st) => st | _ => nat_start end.
Definition demo_add (st : nat_state) (p : Z) : exec (Z * option Z * nat_state) :=
  ipa_NATI_add_ipv4_rule (ENV := nat_demo true) st demo_hdl (Some (nat_demo_rule p)) (Some 0).
Definition demo_del (up : bool) (st : nat_state) (h : Z) : exec (Z * nat_state) :=
  ipa_NATI_del_ipv4_rule (ENV := nat_demo up) st demo_hdl h.

(** The tables of 20 entries just made, with one rule, and with a second
    whose records collide with the first's in both tables. *)
Definition nat_demo0 : nat_state :=
  demo_state (ipa_NATI_add_ipv4_tbl (ENV := nat_demo true) nat_start IPA_NAT_MEM_IN_DDR 0x0A000001 20 (Some 0)).
Definition nat_demo1 : nat_state := demo_state (demo_add nat_demo0 1000).
Definition nat_demo2 : nat_state := demo_state (demo_add nat_demo1 1016).

Definition pair_of (st : nat_state) : ipa_nat_ip4_table_cache :=
  match ipv4_nat_cache st with
  | c :: _ => match ip4_tbl c with [x] => x | _ => zero_nat_table end
  | _ => zero_nat_table
  end.

Lemma pair_of_open st x : nat_open IPA_NAT_MEM_IN_DDR st x -> x = pair_of st.
Proof.
  intros [c d ch chi Hc _ Hx _ _ _ _ _ _]. unfold pair_of.
  destruct (ipv4_nat_cache st) as [|c' l]; [discriminate Hc|]. injection Hc as ->. now rewrite Hx.
Qed.

Lemma ddr_valid : valid_mem IPA_NAT_MEM_IN_DDR.
Proof. now left. Qed.

Lemma nat_demo_sram up : sram_info_ok (OS := env_os (nat_env := nat_demo up)).
Proof. unfold sram_info_ok. cbn. lia. Qed.

Lemma nat_demo_open0 : nat_open IPA_NAT_MEM_IN_DDR nat_demo0 (pair_of nat_demo0).
Proof.
  destruct (nat_add_tbl_closed (ENV := nat_demo true) IPA_NAT_MEM_IN_DDR nat_start 0x0A000001 20 0
    ddr_valid (start_nat_closed _ ddr_valid) (fun _ => eq_refl) (nat_demo_sram true) ltac:(lia) eq_refl)
    as (r & h & st & E & H).
  assert (Hst : nat_demo0 = st) by (unfold nat_demo0, demo_state; now rewrite E). rewrite Hst.
  destruct H as [(_ & _ & (x & O & _) & _)|(Hh & _)].
  - now rewrite <- (pair_of_open st x O).
  - exfalso. assert (Hx : match ipa_NATI_add_ipv4_tbl (ENV := nat_demo true) nat_start IPA_NAT_MEM_IN_DDR
      0x0A000001 20 (Some 0) with Done (_, h, _) => h | _ => 0 end = 1) by (vm_compute; reflexivity).
    rewrite E in Hx. congruence.
Qed.

Lemma nat_demo_add st p :
  nat_open IPA_NAT_MEM_IN_DDR st (pair_of st) -> hw_focus st = Some IPA_NAT_MEM_IN_DDR ->
  zlookup (pdns st) 0 = Some {| public_ip := 0x0A000001; src_metadata := 0; dst_metadata := 0 |} ->
  0 <= p < 2 ^ 16 ->
  nat_open IPA_NAT_MEM_IN_DDR (demo_state (demo_add st p)) (pair_of (demo_state (demo_add st p))).
Proof.
  intros O Hf Hp Hr.
  destruct (nat_add_open (ENV := nat_demo true) (HWS := doc_hw_spec) IPA_NAT_MEM_IN_DDR st _
    (nat_demo_rule p) 0 _ ddr_valid O Hf (nat_demo_typed p Hr) ltac:(discriminate) Hp ltac:(discriminate) eq_refl)
    as (d & c & _ & _ & r & h & st' & x' & E & O' & _).
  unfold demo_add, demo_hdl. rewrite E. cbn [demo_state]. now rewrite <- (pair_of_open st' x' O').
Qed.

Lemma nat_demo_open1 : nat_open IPA_NAT_MEM_IN_DDR nat_demo1 (pair_of nat_demo1).
Proof. apply (nat_demo_add nat_demo0 1000 nat_demo_open0); [vm_compute; reflexivity..|lia]. Qed.

Lemma nat_demo_open2 : nat_open IPA_NAT_MEM_IN_DDR nat_demo2 (pair_of nat_demo2).
Proof. apply (nat_demo_add nat_demo1 1016 nat_demo_open1); [vm_compute; reflexivity..|lia]. Qed.

Lemma demo_related st :
  nat_open IPA_NAT_MEM_IN_DDR st (pair_of st) -> hw_focus st = Some IPA_NAT_MEM_IN_DDR ->
  related IPA_NAT_MEM_IN_DDR (pdns st) st (client (pair_of st)).
Proof. intros O Hf. now exists (pair_of st). Qed.

(** ** Properties *)

(** C1: the calls on the active tables implement the map from
    handles to rules.  Any run of additions, deletions, time stamp queries and
    clearings that respects the map (rules with a valid protocol and PDN,
    handles of rules in force), whatever the kernel answers, has results the
    specification allows, and leaves tables whose rules in force are the map.
    The tables are also well formed, so that any such run may follow, unless
    the kernel refused a deletion: a refused deletion leaves the map as it was
    but can leave a rule with the index record of another
    (nat_del_rule_correct), and is the last call of the runs considered. *)
Theorem nat_refines_spec m pd st es st' R :
  valid_mem m -> related m pd st R -> nat_run m st es st' -> legal_run pd R es ->
  exists R', spec_run pd R es R' /\ in_force m st' R' /\
    (existsb refused_del es = false -> related m pd st' R').
Proof. intros Hm HR Hrun HL. exact (simulate_run m Hm pd st es st' Hrun R HR HL). Qed.
Lemma nat_refines_spec_witness :
  exists R', spec_run (pdns nat_demo0) (client (pair_of nat_demo0))
               [EvAdd (nat_demo_rule 1000) 0 30; EvAdd (nat_demo_rule 1016) 0 1] R' /\
    related IPA_NAT_MEM_IN_DDR (pdns nat_demo0) nat_demo2 R'.
Proof.
  assert (Hl : forall p, 0 <= p < 2 ^ 16 -> forall h R, legal (pdns nat_demo0) R (EvAdd (nat_demo_rule p) 0 h)).
  { intros p Hp h R. split; [now apply nat_demo_typed|]. split; [discriminate|].
    exists {| public_ip := 0x0A000001; src_metadata := 0; dst_metadata := 0 |}.
    split; [vm_compute; reflexivity|discriminate]. }
  destruct (nat_refines_spec IPA_NAT_MEM_IN_DDR (pdns nat_demo0) nat_demo0
    [EvAdd (nat_demo_rule 1000) 0 30; EvAdd (nat_demo_rule 1016) 0 1] nat_demo2
    (client (pair_of nat_demo0))) as (R' & Hs & _ & HR').
  - exact ddr_valid.
  - apply (demo_related nat_demo0 nat_demo_open0). vm_compute; reflexivity.
  - apply run_more with nat_demo1; [|apply run_more with nat_demo2; [|apply run_done]].
    + apply (call_add _ _ (nat_demo true) doc_hw_spec _ 0); [reflexivity..|vm_compute; reflexivity].
    + apply (call_add _ _ (nat_demo true) doc_hw_spec _ 0); [reflexivity..|vm_compute; reflexivity].
  - constructor; [apply Hl; lia|done|]. intros R1 _.
    constructor; [apply Hl; lia|done|]. intros R2 _. constructor.
  - exists R'. split; [exact Hs|]. apply HR'. reflexivity.
Defined.

(** C18: adding a rule to the active tables always returns and leaves
    well-formed tables, each live rule and its index record naming each other.
    With result 0 the handle names an unused record, which alone has changed
    and now holds the rule, reachable from the rule's hash bucket; its
    redirection is always off whatever the client asked for.  Otherwise the
    rules are the same and the handle 0, because the kernel refused or the
    bucket collides and no expansion record is free; when only unlocking
    fails, the rule is added but its handle lost. *)
Theorem nat_add_rule_correct (E : nat_env) (HWS : IpaHwSpec) m st x u h0 p :
  valid_mem m -> nat_open m st x -> hw_focus st = Some m -> rule_typed u ->
  u_protocol u <> 0xFF -> zlookup (pdns st) (u_pdn_index u) = Some p -> public_ip p <> 0 ->
  env_lock = true ->
  exists b ret h st' x',
    ipa_NATI_add_ipv4_rule st (MAKE_TBL_HDL 1 m) (Some u) (Some h0) = Done (ret, Some h, st') /\
    0 < b < table_entries (table x) /\ nat_open m st' x' /\ rest_same m st st' /\
    v_redirect (rule_of (pdns st) u) = 0 /\
    (ret = 0 /\ rule_added x x' b h (rule_of (pdns st) u) \/
     ret = - EPERM /\ env_unlock = false /\ h = 0 /\
       (exists h', rule_added x x' b h' (rule_of (pdns st) u)) \/
     h = 0 /\ (forall i, rules x' i = rules x i) /\
       (ret = - EIO \/ ret = -1 /\ (full (U := nat_user) (table x) b \/
                                    exists bi, full (U := nat_index) (index_table x) bi))).
Proof.
  intros Hm O Hf Hu Hp Hpdn Hip Hl. pose proof O as [c0 d0 ch chi _ _ _ _ _ _ _ OK _].
  pose proof (nat_dims x ch chi OK) as (Hb & _).
  destruct (nat_add_open m st x u h0 p Hm O Hf Hu Hp Hpdn Hip Hl)
    as (d & c & _ & _ & ret & h & st' & x' & E' & O' & Hr & _ & H).
  eexists _, ret, h, st', x'. split; [exact E'|].
  split; [|split; [exact O'|split; [exact Hr|split; [reflexivity|]]]].
  2:{ destruct H as [H|[H|(H1 & H2 & [H3|(H3 & [H4|H4])])]]; [now left|right; now left|..];
        right; right; (split; [done|split; [done|]]); [now left|right; eauto|right; eauto]. }
  pose proof (nat_bucket_range (ver d) (pdns st) (Hash_token st) (table_entries (table x) - 1) u
                ltac:(lia)). lia.
Qed.
Lemma nat_add_rule_correct_witness :
  exists ret h st', ipa_NATI_add_ipv4_rule (ENV := nat_demo true) nat_demo0 demo_hdl
    (Some (nat_demo_rule 1000)) (Some 7) = Done (ret, Some h, st').
Proof.
  destruct (nat_add_rule_correct (nat_demo true) doc_hw_spec IPA_NAT_MEM_IN_DDR nat_demo0 _
    (nat_demo_rule 1000) 7 {| public_ip := 0x0A000001; src_metadata := 0; dst_metadata := 0 |}
    ddr_valid nat_demo_open0 ltac:(vm_compute; reflexivity) (nat_demo_typed 1000 ltac:(lia))
    ltac:(discriminate) ltac:(vm_compute; reflexivity) ltac:(discriminate) eq_refl)
    as (b & ret & h & st' & x' & H & _). exists ret, h, st'. exact H.
Defined.

(** C19: deleting a live rule of the active tables always returns.
    Either that rule alone is gone (also when its index record was a chain
    head and the second record took its place), with well-formed tables; or
    the kernel refused, the rules in force are the same and so are the tables
    except that one other rule may already have been told that its index
    record is the one of the rule to be deleted. *)
Theorem nat_del_rule_correct (E : nat_env) (HWS : IpaHwSpec) m st x h i v :
  valid_mem m -> nat_open m st x -> hw_focus st = Some m -> env_lock = true ->
  ipa_table_get_entry (table x) h = (0, Some (Some i, i)) -> live (table x) i = Some v ->
  exists ret st' x', ipa_NATI_del_ipv4_rule st (MAKE_TBL_HDL 1 m) h = Done (ret, st') /\
    (ret = after_unlock 0 /\ nat_open m st' x' /\ rest_same m st st' /\
       (forall k, rules x' k = upd (rules x) i None k) \/
     ret = after_unlock (- EIO) /\ (forall k, rules x' k = rules x k) /\
       (st' = st /\ x' = x \/ relabelled x x' i v)).
Proof.
  intros Hm O Hf Hl Hh Hv. destruct (nat_del_open m st x h i v Hm O Hf Hl Hh Hv) as (ret & st' & x' & E' & H).
  exists ret, st', x'. split; [exact E'|]. destruct H as [(H1 & H2 & H3 & _ & H4)|(H1 & H2 & H3 & _)]; [left|right]; done.
Qed.
Lemma nat_del_rule_correct_witness :
  exists ret st', ipa_NATI_del_ipv4_rule (ENV := nat_demo true) nat_demo2 demo_hdl 30 = Done (ret, st').
Proof.
  destruct (live (table (pair_of nat_demo2)) 15) as [v|] eqn:Ev; [|exfalso; vm_compute in Ev; discriminate Ev].
  destruct (nat_del_rule_correct (nat_demo true) doc_hw_spec IPA_NAT_MEM_IN_DDR nat_demo2 _ 30 15 v
    ddr_valid nat_demo_open2 ltac:(vm_compute; reflexivity) eq_refl ltac:(vm_compute; reflexivity) Ev)
    as (ret & st' & x' & H & _). exists ret, st'. exact H.
Defined.

(** A handle that names no record of the active tables, or
    a free one, is refused with -EINVAL and nothing changes. *)
Theorem nat_del_unused_correct (E : nat_env) (HWS : IpaHwSpec) m st x h :
  valid_mem m -> nat_open m st x -> hw_focus st = Some m -> env_lock = true ->
  (ipa_table_get_entry (table x) h = (- EINVAL, None) \/
   exists i, ipa_table_get_entry (table x) h = (0, Some (Some i, i)) /\
             content (U := nat_user) (table x) i = None) ->
  ipa_NATI_del_ipv4_rule st (MAKE_TBL_HDL 1 m) h = Done (after_unlock (- EINVAL), st).
Proof. exact (nat_del_unused m st x h). Qed.
Lemma nat_del_unused_correct_witness :
  ipa_NATI_del_ipv4_rule (ENV := nat_demo true) nat_demo1 demo_hdl 4 = Done (- EINVAL, nat_demo1).
Proof.
  apply (nat_del_unused_correct (nat_demo true) doc_hw_spec IPA_NAT_MEM_IN_DDR nat_demo1 _ 4
           ddr_valid nat_demo_open1 ltac:(vm_compute; reflexivity) eq_refl).
  right. exists 2. split; vm_compute; reflexivity.
Defined.

(** Creating the tables from a cache without any either
    returns handle 1 of that memory type with well-formed tables of at least
    n - 1 records each without rules, the hardware told of them and the
    public address stored in PDN 0 with the PDN count reset to 1; or returns
    handle 0 with a failure and leaves the cache without tables. *)
Theorem nat_add_tbl_correct (E : nat_env) (HWS : IpaHwSpec) m st ip n h0 :
  valid_mem m -> nat_closed m st -> nat_offsets_zero -> sram_info_ok -> 0 <= n < 65536 ->
  env_lock = true ->
  exists ret h st', ipa_NATI_add_ipv4_tbl st m ip n (Some h0) = Done (ret, h, st') /\
    (h = MAKE_TBL_HDL 1 m /\ ret = unlock_or_eperm 0 /\
       (exists x, nat_open m st' x /\ n - 1 <= tot (table x) /\ public_addr x = ip /\
                  forall i, rules x i = None) /\
       hw_focus st' = Some m /\ active_nat_cache st' = Some m /\ num_pdns st' = 1 /\
       set_pdn0 ip (pdns st) (pdns st') \/
     h = 0 /\ (exists r, r <> 0 /\ ret = unlock_or_eperm r) /\ nat_closed m st' /\
       rest_same m st st').
Proof. exact (nat_add_tbl_closed m st ip n h0). Qed.
Lemma nat_add_tbl_correct_witness :
  exists ret h st', ipa_NATI_add_ipv4_tbl (ENV := nat_demo true) nat_start IPA_NAT_MEM_IN_DDR
    0x0A000001 20 (Some 0) = Done (ret, h, st').
Proof.
  destruct (nat_add_tbl_correct (nat_demo true) doc_hw_spec IPA_NAT_MEM_IN_DDR nat_start 0x0A000001 20 0
    ddr_valid (start_nat_closed _ ddr_valid) (fun _ => eq_refl) (nat_demo_sram true) ltac:(lia) eq_refl)
    as (ret & h & st' & H & _). exists ret, h, st'. exact H.
Defined.

(** Clearing empties both tables, keeps them well formed and
    touches nothing else. *)
Theorem nat_clear_correct (E : nat_env) m st x :
  valid_mem m -> nat_open m st x -> env_lock = true ->
  exists st' x', ipa_NATI_clear_ipv4_tbl st (MAKE_TBL_HDL 1 m) = Done (after_unlock 0, st') /\
    nat_open m st' x' /\ rest_same m st st' /\ same_pair x x' /\ forall i, rules x' i = None.
Proof. exact (nat_clear_open m st x). Qed.
Lemma nat_clear_correct_witness :
  exists st', ipa_NATI_clear_ipv4_tbl (ENV := nat_demo true) nat_demo2 demo_hdl = Done (0, st').
Proof.
  destruct (nat_clear_correct (nat_demo true) IPA_NAT_MEM_IN_DDR nat_demo2 _ ddr_valid nat_demo_open2 eq_refl)
    as (st' & x' & H & _). exists st'. exact H.
Defined.

(** Deleting the tables zeroes them; when the kernel refuses,
    the cache still counts them and refuses to make new ones. *)
Theorem nat_del_tbl_correct (E : nat_env) m st x :
  valid_mem m -> nat_open m st x -> env_lock = true ->
  exists ret st', ipa_NATI_del_ipv4_table st (MAKE_TBL_HDL 1 m) = Done (ret, st') /\
    rest_same m st st' /\
    (ret = after_unlock 0 /\ nat_closed m st' \/
     ret <> 0 /\ forall (E' : nat_env) ip n h0, exists r st2,
       ipa_NATI_add_ipv4_tbl st' m ip n (Some h0) = Done (r, 0, st2) /\ r <> 0 /\
       exists r', ipa_NATI_del_ipv4_table st' (MAKE_TBL_HDL 1 m) = Done (r', st') /\ r' <> 0).
Proof.
  intros Hm O Hl. destruct (nat_del_tbl_open m st x Hm O Hl) as (ret & st' & Hd & H & Hr).
  exists ret, st'. split; [exact Hd|]. split; [exact Hr|].
  destruct H as [H|(Hne & K)]; [now left|]. right. split; [done|].
  intros E' ip n h0. destruct K as [c Hc Hx Hcnt]. pose proof (zlookup_lt _ _ _ Hc) as Hml.
  unfold ipa_NATI_add_ipv4_tbl, ipa_NATI_del_ipv4_table, get_cache.
  rewrite (break_handle m Hm), (proj1 (valid_mem_ok m Hm)). cbn [negb mbind exec_bind deref]. rewrite Hc.
  cbn [mbind exec_bind deref set_nmi table_cnt]. rewrite Hcnt. unfold get_tbl. rewrite Hx.
  change (1 >=? IPA_NAT_MAX_IP4_TBLS) with true. cbn iota. unfold set_cache. rewrite zstore_ok by done.
  assert (Ha : after_unlock (ENV := E') (- EINVAL) <> 0)
    by (unfold after_unlock; now destruct (env_unlock (nat_env := E'))).
  destruct (env_lock (nat_env := E')); cbn [negb mbind exec_bind].
  - do 2 eexists. split; [reflexivity|]. split; [now destruct (env_unlock (nat_env := E'))|].
    change (zlookup [zero_nat_table] (1 - 1)) with (Some zero_nat_table).
    cbn [mbind exec_bind deref zero_nat_table mem_desc zero_desc valid negb]. eauto.
  - do 2 eexists. split; [reflexivity|]. split; [done|]. now exists (- EINVAL).
Qed.
Lemma nat_del_tbl_correct_witness :
  exists ret st', ipa_NATI_del_ipv4_table (ENV := nat_demo true) nat_demo0 demo_hdl = Done (ret, st').
Proof.
  destruct (nat_del_tbl_correct (nat_demo true) IPA_NAT_MEM_IN_DDR nat_demo0 _ ddr_valid nat_demo_open0 eq_refl)
    as (ret & st' & H & _). exists ret, st'. exact H.
Defined.

(** A handle used twice.  The record of a deleted head with
    followers stays valid and keeps the place of its old index record, so a
    second deletion with its handle returns 0 and takes away the index record
    of another rule, which stays in force without one. *)
Theorem nat_stale_handle :
  let st1 := demo_state (demo_del true nat_demo2 30) in
  let st2 := demo_state (demo_del true st1 30) in
  demo_del true nat_demo2 30 = Done (0, st1) /\ demo_del true st1 30 = Done (0, st2) /\
  exists v, live (table (pair_of st1)) 16 = Some v /\ live (table (pair_of st2)) 16 = Some v /\
    names (index_table (pair_of st1)) (v_indx v) = Some 16 /\
    names (index_table (pair_of st2)) (v_indx v) = None.
Proof.
  cbn zeta. split; [vm_compute; reflexivity|]. split; [vm_compute; reflexivity|].
  eexists. split; [vm_compute; reflexivity|]. split; [vm_compute; reflexivity|].
  split; vm_compute; reflexivity.
Qed.

(** When the kernel refuses the deletion of a rule whose
    index record heads a chain, the next rule of that chain has already been
    given the head's place, although the head still names the first rule. *)
Theorem nat_refused_deletion_relabels :
  let st := demo_state (demo_del false nat_demo2 30) in
  demo_del false nat_demo2 30 = Done (- EIO, st) /\
  exists v w, live (table (pair_of st)) 15 = Some v /\ live (table (pair_of st)) 16 = Some w /\
    v_indx w = v_indx v /\ names (index_table (pair_of st)) (v_indx w) = Some 15.
Proof.
  cbn zeta. split; [vm_compute; reflexivity|].
  do 2 eexists. split; [vm_compute; reflexivity|]. split; [vm_compute; reflexivity|].
  split; vm_compute; reflexivity.
Qed.

(** ** Queries and statistics *)

(** Querying a live rule's time stamp reads the stamp of that
    rule and changes nothing. *)
Theorem nat_query_correct (E : nat_env) m st x h i v ts :
  valid_mem m -> nat_open m st x -> env_lock = true ->
  ipa_table_get_entry (table x) h = (0, Some (Some i, i)) -> live (table x) i = Some v ->
  ipa_NATI_query_timestamp st (MAKE_TBL_HDL 1 m) h (Some ts) =
    Done (after_unlock 0, Some (v_time_stamp v)).
Proof. exact (nat_query_open m st x h i v ts). Qed.
Lemma nat_query_correct_witness :
  exists ts, ipa_NATI_query_timestamp (ENV := nat_demo true) nat_demo2 demo_hdl 30 (Some 9) =
    Done (0, Some ts).
Proof.
  destruct (live (table (pair_of nat_demo2)) 15) as [v|] eqn:Ev; [|exfalso; vm_compute in Ev; discriminate Ev].
  exists (v_time_stamp v).
  apply (nat_query_correct (nat_demo true) IPA_NAT_MEM_IN_DDR nat_demo2 _ 30 15 v 9
    ddr_valid nat_demo_open2 eq_refl ltac:(vm_compute; reflexivity) Ev).
Defined.

(** The statistics of open tables are those of their chains:
    the sizes, the filled records of the base and of the expansion part, and
    the number, total, shortest and longest length of the bucket chains with
    a collision, for the rule table and for the index table. *)
Theorem nat_stats_correct (E : nat_env) m st x :
  valid_mem m -> nat_open m st x -> env_lock = true ->
  ipa_NATI_ipv4_tbl_stats st (MAKE_TBL_HDL 1 m) true true =
    Done (after_unlock 0, Some (expected_stats (U := nat_user) m (table x),
                                expected_stats (U := nat_index) m (index_table x))).
Proof.
  intros Hm [c d ch chi Hc Hd Hx Hcnt Hcm Hv Hnm OK Hpd] Hl.
  pose proof (nat_dims x ch chi OK) as (Hb & _). pose proof (n_expn _ _ _ OK).
  unfold ipa_NATI_ipv4_tbl_stats. rewrite Hl, (break_handle m Hm), (proj1 (valid_mem_ok m Hm)).
  replace (VALID_TBL_HDL (MAKE_TBL_HDL 1 m)) with true by (now destruct Hm as [-> | ->]).
  unfold get_cache, get_tbl. cbn [negb orb]. rewrite Hc. cbn [mbind exec_bind deref].
  rewrite Hcnt, Hx. change (zlookup [x] (1 - 1)) with (Some x). cbn [Z.eqb mbind exec_bind deref].
  destruct (tbl_stats_ok (EL := nat_laws) _ _ _ _ _ (mk_tbl _ _ _ _ _ (n_tbl _ _ _ OK))
    ltac:(lia) ltac:(lia) (n_nmi _ _ _ OK) m) as (r & Hr & ->).
  cbn [mbind exec_bind fst snd]. rewrite (proj2 (Z.ltb_ge _ _)) by lia.
  pose proof (n_base2 _ _ _ OK). pose proof (n_expn2 _ _ _ OK).
  destruct (tbl_stats_ok (EL := index_laws) _ _ _ _ _ (n_idx _ _ _ OK)
    ltac:(lia) ltac:(lia) (n_nmi2 _ _ _ OK) m) as (r' & Hr' & ->).
  cbn [mbind exec_bind fst snd]. now rewrite (proj2 (Z.ltb_ge _ _)) by lia.
Qed.
Lemma nat_stats_correct_witness :
  ipa_NATI_ipv4_tbl_stats (ENV := nat_demo true) nat_demo2 demo_hdl true true =
    Done (0, Some (expected_stats (U := nat_user) IPA_NAT_MEM_IN_DDR (table (pair_of nat_demo2)),
                   expected_stats (U := nat_index) IPA_NAT_MEM_IN_DDR (index_table (pair_of nat_demo2)))).
Proof.
  apply (nat_stats_correct (nat_demo true) IPA_NAT_MEM_IN_DDR nat_demo2 _ ddr_valid nat_demo_open2 eq_refl).
Defined.

(** ** The PDN configuration *)

Definition demo_pdn : ipa_nat_pdn_entry := {| public_ip := 0x0A000002; src_metadata := 1; dst_metadata := 2 |}.

Lemma demo_pdn_state : pdn_state nat_demo0.
Proof. split; vm_compute; reflexivity. Qed.

(** Allocating a PDN entry returns the first of the entries 0 to
    14 that has the public address or is free, stores the entry there when it
    was free and counts it; or fails without effect, because 15 are counted,
    none fits, no device is open, or the kernel refused. *)
Theorem pdn_alloc_correct (E : nat_env) st info i0 :
  pdn_state st ->
  exists ret i st', ipa_nat_alloc_pdn st (Some info) (Some i0) = Done (ret, Some i, st') /\
    (ret = 0 /\ pdn_allocated st st' info i \/
     ret <> 0 /\ i = i0 /\ st' = st /\
       (IPA_MAX_PDN_NUM - 1 <= num_pdns st \/
        (forall j e, 0 <= j < IPA_MAX_PDN_NUM - 1 -> zlookup (pdns st) j = Some e ->
           public_ip e <> public_ip info /\ e <> zero_pdn) \/
        dev_open st = false \/
        exists k, ret = env_modify_pdn {| ioc_pdn_index := k; ioc_pdn := info |})).
Proof.
  intros H. destruct (alloc_pdn_ok st info i0 H) as (ret & i & st' & E' & Hr).
  exists ret, i, st'. unfold ipa_nat_alloc_pdn. now rewrite E'.
Qed.
Lemma pdn_alloc_correct_witness :
  exists ret i st', ipa_nat_alloc_pdn (ENV := nat_demo true) nat_demo0 (Some demo_pdn) (Some 99) =
    Done (ret, Some i, st').
Proof.
  destruct (pdn_alloc_correct (nat_demo true) nat_demo0 demo_pdn 99 demo_pdn_state) as (r & i & st & H & _).
  exists r, i, st. exact H.
Defined.

(** The index an allocation returned is found again by its
    public address, and releasing it (with the kernel's agreement) clears the
    entry and takes one off the count. *)
Theorem pdn_roundtrip (E : nat_env) st info i0 i st' j0 :
  pdn_state st -> ipa_nat_alloc_pdn st (Some info) (Some i0) = Done (0, Some i, st') ->
  ipa_nat_get_pdn_index st' (public_ip info) (Some j0) = Done (0, Some i) /\
  exists ret st2, ipa_nat_dealloc_pdn st' i = Done (ret, st2) /\
    (ret = 0 /\ zlookup (pdns st2) i = Some zero_pdn /\ num_pdns st2 = num_pdns st' - 1 /\
       (forall j, j <> i -> zlookup (pdns st2) j = zlookup (pdns st') j) \/
     ret = - EIO /\ st2 = st' /\
       (num_pdns st' = 0 \/ zlookup (pdns st') i = Some zero_pdn \/ dev_open st' = false \/
        env_modify_pdn {| ioc_pdn_index := i; ioc_pdn := zero_pdn |} <> 0)).
Proof.
  intros H Ha. destruct (alloc_pdn_ok st info i0 H) as (ret & i1 & st1 & E' & Hr).
  unfold ipa_nat_alloc_pdn in Ha. rewrite E' in Ha. cbn in Ha. injection Ha as -> -> ->.
  destruct Hr as [[_ Hal]|(Hne & _)]; [|done].
  assert (H' : pdn_state st').
  { destruct Hal as (_ & _ & [[_ ->]|(_ & _ & ->)]); [done|]. destruct H as [Hp Hc].
    split; [|exact Hc]. cbn [pdns set_pdns]. now rewrite zlength_insert. }
  assert (Hi : 0 <= i < IPA_MAX_PDN_NUM) by (destruct Hal as (Hi & _); lia).
  split. { unfold ipa_nat_get_pdn_index. now rewrite (get_index_after_alloc st info i st' j0 H Hal). }
  destruct (dealloc_pdn_ok st' i H' Hi) as (ret & st2 & Ed & Hd). exists ret, st2.
  unfold ipa_nat_dealloc_pdn. rewrite Z.gtb_ltb, (proj2 (Z.ltb_ge _ _)) by lia. split; [exact Ed|].
  destruct Hd as [(-> & _ & _ & ->)|Hd]; [left|now right]. cbn [pdns num_pdns set_pdns].
  split_and!; [done| |done|].
  - apply zlookup_insert_eq. rewrite (proj1 H'). exact Hi.
  - intros j Hj. now apply zlookup_insert_ne.
Qed.
Lemma pdn_roundtrip_witness :
  ipa_nat_get_pdn_index (demo_state (ipa_nat_alloc_pdn (ENV := nat_demo true) nat_demo0 (Some demo_pdn) (Some 99)))
    (public_ip demo_pdn) (Some 7) = Done (0, Some 1).
Proof.
  apply (pdn_roundtrip (nat_demo true) nat_demo0 demo_pdn 99 1 _ 7 demo_pdn_state ltac:(vm_compute; reflexivity)).
Defined.

(** The index checks accept 16, one more than the last entry:
    releasing entry 16 reads outside the array, and so does storing at 16
    once the kernel accepts; larger ones are refused.  A rule to add whose PDN
    index is 16 or more is refused by a log line that reads its entry outside
    the array. *)
Theorem pdn_index_bounds (E : nat_env) st tbl p d :
  zlength (pdns st) = IPA_MAX_PDN_NUM ->
  (num_pdns st <> 0 -> ipa_nat_dealloc_pdn st IPA_MAX_PDN_NUM = Fault) /\
    (VALID_TBL_HDL tbl = true -> zlookup (ipv4_nat_cache st) IPA_NAT_MEM_IN_DDR = Some d ->
     ipa_desc d <> None -> env_modify_pdn {| ioc_pdn_index := IPA_MAX_PDN_NUM; ioc_pdn := p |} = 0 ->
     ipa_nat_modify_pdn st tbl IPA_MAX_PDN_NUM (Some p) = Fault) /\
  (forall u h, valid_mem (fst (BREAK_TBL_HDL tbl)) -> VALID_TBL_HDL tbl = true ->
     is_Some (zlookup (ipv4_nat_cache st) (fst (BREAK_TBL_HDL tbl))) ->
     u_protocol u <> IPAHAL_NAT_INVALID_PROTOCOL -> IPA_MAX_PDN_NUM <= u_pdn_index u ->
     ipa_NATI_add_ipv4_rule st tbl (Some u) (Some h) = Fault) /\
    (forall i, IPA_MAX_PDN_NUM < i -> ipa_nat_dealloc_pdn st i = Done (- EINVAL, st) /\
    ipa_nat_modify_pdn st tbl i (Some p) = Done (- EINVAL, st)).
Proof.
  intros Hl. split_and!.
  - intros Hn. unfold ipa_nat_dealloc_pdn, ipa_nati_dealloc_pdn.
    cbn [Z.gtb Z.compare IPA_MAX_PDN_NUM Pos.compare Pos.compare_cont].
    rewrite (proj2 (Z.eqb_neq _ _)) by done.
    now rewrite (zlookup_None (pdns st) IPA_MAX_PDN_NUM) by lia.
  - intros Ht Hd Hdesc Hk. unfold ipa_nat_modify_pdn, ipa_nati_modify_pdn, get_cache. rewrite Ht.
    cbn [negb]. change (IPA_MAX_PDN_NUM >? IPA_MAX_PDN_NUM) with false. cbn iota.
    rewrite Hd. cbn [mbind exec_bind deref]. destruct (ipa_desc d) eqn:Ed; [|done].
    cbn [mbind exec_bind]. rewrite Ed, Hk. cbn [Z.eqb negb ioc_pdn_index].
    unfold zstore. now rewrite (zlookup_None (pdns st) IPA_MAX_PDN_NUM) by lia.
  - intros u h Hm Ht [c Hc] Hpr Hi. unfold ipa_NATI_add_ipv4_rule, get_cache. rewrite Ht.
    destruct (BREAK_TBL_HDL tbl) as [m t]. cbn [fst] in *. cbn [negb].
    rewrite (proj1 (valid_mem_ok m Hm)), Hc. cbn [negb mbind exec_bind deref].
    rewrite (proj2 (Z.eqb_neq _ _)), Z.geb_leb, (proj2 (Z.leb_le _ _)) by done.
    cbn [mbind exec_bind]. now rewrite (zlookup_None (pdns st) (u_pdn_index u)) by lia.
  - intros i Hi. unfold ipa_nat_dealloc_pdn, ipa_nat_modify_pdn.
    rewrite Z.gtb_ltb, (proj2 (Z.ltb_lt _ _)) by done. split; [done|].
    destruct (VALID_TBL_HDL tbl); done.
Qed.
Lemma pdn_index_bounds_witness :
  ipa_nat_dealloc_pdn (ENV := nat_demo true) nat_demo0 IPA_MAX_PDN_NUM = Fault.
Proof.
  apply (proj1 (pdn_index_bounds (nat_demo true) nat_demo0 demo_hdl demo_pdn start_cache
    ltac:(vm_compute; reflexivity))). vm_compute. discriminate.
Defined.
