(* ===== verification/IpaNatMap.v ===== *)
(** The maps of rule handles (dataipa/ipanat/src/ipa_nat_map.cpp,
    inc/ipa_nat_map.h): an array of five std::map from 32-bit keys to 32-bit
    values, and which of them belongs to which memory. *)
From stdpp Require Import gmap.
From S2P Require Import Prelude.

(** ipa_which_map *)
Inductive ipa_which_map := MAP_NUM_00 | MAP_NUM_01 | MAP_NUM_02 | MAP_NUM_03 | MAP_NUM_99.
#[global] Instance ipa_which_map_dec : EqDecision ipa_which_map.
Proof. solve_decision. Defined.


(** map_array *)
Record map_array := {
  map_00 : gmap Z Z; map_01 : gmap Z Z; map_02 : gmap Z Z; map_03 : gmap Z Z; map_99 : gmap Z Z }.
Definition no_maps : map_array :=
  {| map_00 := ∅; map_01 := ∅; map_02 := ∅; map_03 := ∅; map_99 := ∅ |}.

Definition get_map (which : ipa_which_map) (a : map_array) : gmap Z Z :=
  match which with
  | MAP_NUM_00 => map_00 a | MAP_NUM_01 => map_01 a | MAP_NUM_02 => map_02 a
  | MAP_NUM_03 => map_03 a | MAP_NUM_99 => map_99 a
  end.
Definition set_map (which : ipa_which_map) (m : gmap Z Z) (a : map_array) : map_array :=
  {| map_00 := if bool_decide (which = MAP_NUM_00) then m else map_00 a;
     map_01 := if bool_decide (which = MAP_NUM_01) then m else map_01 a;
     map_02 := if bool_decide (which = MAP_NUM_02) then m else map_02 a;
     map_03 := if bool_decide (which = MAP_NUM_03) then m else map_03 a;
     map_99 := if bool_decide (which = MAP_NUM_99) then m else map_99 a |}.

Lemma get_set_map w m a : get_map w (set_map w m a) = m.
Proof. now destruct w. Qed.
Lemma get_set_map_ne w w' m a : w <> w' -> get_map w (set_map w' m a) = get_map w a.
Proof. destruct w, w'; done. Qed.
#[export] Hint Rewrite get_set_map : nat_map.
#[export] Hint Rewrite get_set_map_ne using done : nat_map.

(** ** Operations: the C result, what was written through val_ptr, the maps *)
Definition ipa_nat_map_add (a : map_array) (which : ipa_which_map) (key val : Z) : Z * map_array :=
  match get_map which a !! key with
  | Some _ => (-1, a)
  | None => (0, set_map which (<[key := val]> (get_map which a)) a)
  end.

Definition ipa_nat_map_find (a : map_array) (which : ipa_which_map) (key val0 : Z) : Z * Z :=
  match get_map which a !! key with
  | Some val => (0, val)
  | None => (-1, val0)
  end.

Definition ipa_nat_map_del (a : map_array) (which : ipa_which_map) (key val0 : Z) :
    Z * Z * map_array :=
  match get_map which a !! key with
  | Some val => (0, val, set_map which (delete key (get_map which a)) a)
  | None => (-1, val0, a)
  end.

Definition ipa_nat_map_clear (a : map_array) (which : ipa_which_map) : map_array :=
  set_map which ∅ a.

(** ** Memories *)

(** DDR_SUB and SRAM_SUB, the subscripts of arrays of two. *)
Inductive mem_sub := DDR_SUB | SRAM_SUB.
#[global] Instance mem_sub_dec : EqDecision mem_sub.
Proof. solve_decision. Defined.
Record two (A : Type) := Two { at_ddr : A; at_sram : A }.
Arguments Two {A} _ _.
Arguments at_ddr {A} _.
Arguments at_sram {A} _.
Definition at_sub {A} (s : mem_sub) (p : two A) : A :=
  match s with DDR_SUB => at_ddr p | SRAM_SUB => at_sram p end.
Definition set_sub {A} (s : mem_sub) (x : A) (p : two A) : two A :=
  match s with DDR_SUB => Two x (at_sram p) | SRAM_SUB => Two (at_ddr p) x end.

Lemma at_set_sub {A} s (x : A) p : at_sub s (set_sub s x p) = x.
Proof. now destruct s. Qed.
Lemma at_set_sub_ne {A} s s' (x : A) p : s <> s' -> at_sub s (set_sub s' x p) = at_sub s p.
Proof. now destruct s, s'. Qed.

(** nati_map_pair and the pairs of nati_obj, which never change. *)
Record nati_map_pair := { orig2new_map : ipa_which_map; new2orig_map : ipa_which_map }.
Definition map_pairs : two nati_map_pair :=
  Two {| orig2new_map := MAP_NUM_00; new2orig_map := MAP_NUM_01 |}
      {| orig2new_map := MAP_NUM_02; new2orig_map := MAP_NUM_03 |}.
Definition o2n (s : mem_sub) : ipa_which_map := orig2new_map (at_sub s map_pairs).
Definition n2o (s : mem_sub) : ipa_which_map := new2orig_map (at_sub s map_pairs).

Lemma o2n_n2o s s' : o2n s <> n2o s'.
Proof. now destruct s, s'. Qed.
Lemma o2n_inj s s' : s <> s' -> o2n s <> o2n s'.
Proof. now destruct s, s'. Qed.
Lemma n2o_inj s s' : s <> s' -> n2o s <> n2o s'.
Proof. now destruct s, s'. Qed.
