(* ===== verification/IpaNatSm.v ===== *)
(** The memory state machine of the IPv4 NAT library
    (dataipa/ipanat/src/ipa_nat_statemach.c, inc/ipa_nat_statemach.h) and the
    functions of ipa_nat_drv.c that call it.

    The library's functions on one table (IpaNatCalls.v) are called through
    a table of callbacks, one per state and trigger, so that rules can live in
    DDR, in SRAM or move between both.  A callback can run the machine again:
    [ipa_nati_statemach] takes the depth of such calls that is allowed.

    The argument arrays are an inductive type with a constructor per shape.
    Their pointers are options (None for NULL) of what they point to; a
    call returns the arguments as the callback leaves the memory.  The
    machine's object is the static nati_obj throughout. *)
From stdpp Require Import gmap.
From Stdlib Require Import Ascii.
From S2P Require Import Prelude.
From S2P Require Import Bits.
From S2P Require Import IpaTable.
From S2P Require Import IpaTableSize.
From S2P Require Import IpaMemDesc.
From S2P Require Import IpaDma.
From S2P Require Import IpaNatEntry.
From S2P Require Import IpaNatDrv.
From S2P Require Import IpaNatCalls.
From S2P Require Import IpaNatMap.

(** ipa_nati_state *)
Inductive ipa_nati_state :=
| NATI_STATE_NULL | NATI_STATE_DDR_ONLY | NATI_STATE_SRAM_ONLY | NATI_STATE_HYBRID
| NATI_STATE_HYBRID_DDR | NATI_STATE_LAST.
#[global] Instance ipa_nati_state_dec : EqDecision ipa_nati_state.
Proof. solve_decision. Defined.

(** ipa_nati_trigger *)
Inductive ipa_nati_trigger :=
| NATI_TRIG_NULL | NATI_TRIG_ADD_TABLE | NATI_TRIG_DEL_TABLE | NATI_TRIG_CLR_TABLE
| NATI_TRIG_WLK_TABLE | NATI_TRIG_TBL_STATS | NATI_TRIG_ADD_RULE | NATI_TRIG_DEL_RULE
| NATI_TRIG_TBL_SWITCH | NATI_TRIG_GOTO_DDR | NATI_TRIG_GOTO_SRAM | NATI_TRIG_GET_TSTAMP
| NATI_TRIG_LAST.
#[global] Instance ipa_nati_trigger_dec : EqDecision ipa_nati_trigger.
Proof. solve_decision. Defined.

(** strcasecmp *)
Definition ascii_lower (c : ascii) : ascii :=
  let n := N_of_ascii c in
  if (65 <=? n)%N && (n <=? 90)%N then ascii_of_N (n + 32) else c.
Fixpoint string_lower (s : string) : string :=
  match s with
  | EmptyString => EmptyString
  | String c s' => String (ascii_lower c) (string_lower s')
  end.
Definition strcasesame (a b : string) : bool := String.eqb (string_lower a) (string_lower b).

Definition mem_type_str_to_ipa_nati_state (str : option string) : ipa_nati_state :=
  match str with
  | Some s =>
      if strcasesame s "HYBRID" then NATI_STATE_HYBRID
      else if strcasesame s "SRAM" then NATI_STATE_SRAM_ONLY
      else NATI_STATE_DDR_ONLY
  | None => NATI_STATE_DDR_ONLY
  end.

(** nati_switch_stats *)
Record nati_switch_stats := { sw_pass : Z; sw_fail : Z }.

(** ipa_nati_obj, without the map pairs, which are constant. *)
Record ipa_nati_obj := {
  prev_state : ipa_nati_state;
  curr_state : ipa_nati_state;
  hold_state : bool;
  state_to_hold : ipa_nati_state;
  ddr_tbl_hdl : Z;
  sram_tbl_hdl : Z;
  tot_slots_in_sram : Z;
  back_to_sram_thresh : Z;
  tot_rules_in_table : two Z;
  sw_stats : two nati_switch_stats }.

(** The statics of the file, the maps, and the library below. *)
Record sm_state := {
  nati_obj : ipa_nati_obj;
  nat_mutex_init : bool;
  sm_maps : map_array;
  sm_nat : nat_state }.

Definition start_obj : ipa_nati_obj :=
  {| prev_state := NATI_STATE_NULL; curr_state := NATI_STATE_NULL; hold_state := false;
     state_to_hold := NATI_STATE_NULL; ddr_tbl_hdl := 0; sram_tbl_hdl := 0;
     tot_slots_in_sram := 0; back_to_sram_thresh := 0; tot_rules_in_table := Two 0 0;
     sw_stats := Two {| sw_pass := 0; sw_fail := 0 |} {| sw_pass := 0; sw_fail := 0 |} |}.
Definition sm_start : sm_state :=
  {| nati_obj := start_obj; nat_mutex_init := false; sm_maps := no_maps; sm_nat := nat_start |}.

(** ** Updates *)
Definition set_obj (o : ipa_nati_obj) (s : sm_state) : sm_state :=
  {| nati_obj := o; nat_mutex_init := nat_mutex_init s; sm_maps := sm_maps s; sm_nat := sm_nat s |}.
Definition set_maps (a : map_array) (s : sm_state) : sm_state :=
  {| nati_obj := nati_obj s; nat_mutex_init := nat_mutex_init s; sm_maps := a; sm_nat := sm_nat s |}.
Definition set_nat (n : nat_state) (s : sm_state) : sm_state :=
  {| nati_obj := nati_obj s; nat_mutex_init := nat_mutex_init s; sm_maps := sm_maps s; sm_nat := n |}.
Definition set_mutex_init (s : sm_state) : sm_state :=
  {| nati_obj := nati_obj s; nat_mutex_init := true; sm_maps := sm_maps s; sm_nat := sm_nat s |}.

Definition set_states (p c : ipa_nati_state) (o : ipa_nati_obj) : ipa_nati_obj :=
  {| prev_state := p; curr_state := c; hold_state := hold_state o;
     state_to_hold := state_to_hold o; ddr_tbl_hdl := ddr_tbl_hdl o;
     sram_tbl_hdl := sram_tbl_hdl o; tot_slots_in_sram := tot_slots_in_sram o;
     back_to_sram_thresh := back_to_sram_thresh o; tot_rules_in_table := tot_rules_in_table o;
     sw_stats := sw_stats o |}.
Definition set_hold (h : bool) (t : ipa_nati_state) (o : ipa_nati_obj) : ipa_nati_obj :=
  {| prev_state := prev_state o; curr_state := curr_state o; hold_state := h;
     state_to_hold := t; ddr_tbl_hdl := ddr_tbl_hdl o; sram_tbl_hdl := sram_tbl_hdl o;
     tot_slots_in_sram := tot_slots_in_sram o; back_to_sram_thresh := back_to_sram_thresh o;
     tot_rules_in_table := tot_rules_in_table o; sw_stats := sw_stats o |}.
Definition set_hdls (d r : Z) (o : ipa_nati_obj) : ipa_nati_obj :=
  {| prev_state := prev_state o; curr_state := curr_state o; hold_state := hold_state o;
     state_to_hold := state_to_hold o; ddr_tbl_hdl := d; sram_tbl_hdl := r;
     tot_slots_in_sram := tot_slots_in_sram o; back_to_sram_thresh := back_to_sram_thresh o;
     tot_rules_in_table := tot_rules_in_table o; sw_stats := sw_stats o |}.
Definition set_slots (n t : Z) (o : ipa_nati_obj) : ipa_nati_obj :=
  {| prev_state := prev_state o; curr_state := curr_state o; hold_state := hold_state o;
     state_to_hold := state_to_hold o; ddr_tbl_hdl := ddr_tbl_hdl o;
     sram_tbl_hdl := sram_tbl_hdl o; tot_slots_in_sram := n; back_to_sram_thresh := t;
     tot_rules_in_table := tot_rules_in_table o; sw_stats := sw_stats o |}.
Definition set_tot (p : two Z) (o : ipa_nati_obj) : ipa_nati_obj :=
  {| prev_state := prev_state o; curr_state := curr_state o; hold_state := hold_state o;
     state_to_hold := state_to_hold o; ddr_tbl_hdl := ddr_tbl_hdl o;
     sram_tbl_hdl := sram_tbl_hdl o; tot_slots_in_sram := tot_slots_in_sram o;
     back_to_sram_thresh := back_to_sram_thresh o; tot_rules_in_table := p;
     sw_stats := sw_stats o |}.
Definition set_sw (p : two nati_switch_stats) (o : ipa_nati_obj) : ipa_nati_obj :=
  {| prev_state := prev_state o; curr_state := curr_state o; hold_state := hold_state o;
     state_to_hold := state_to_hold o; ddr_tbl_hdl := ddr_tbl_hdl o;
     sram_tbl_hdl := sram_tbl_hdl o; tot_slots_in_sram := tot_slots_in_sram o;
     back_to_sram_thresh := back_to_sram_thresh o; tot_rules_in_table := tot_rules_in_table o;
     sw_stats := p |}.

(** Applied to the object inside the state. *)
Definition on_obj (f : ipa_nati_obj -> ipa_nati_obj) (s : sm_state) : sm_state :=
  set_obj (f (nati_obj s)) s.

(** ** Macros *)
Definition BACK2_UNSTARTED_STATE (s : sm_state) : sm_state :=
  on_obj (set_states NATI_STATE_NULL NATI_STATE_NULL) s.
Definition IN_UNSTARTED_STATE (o : ipa_nati_obj) : bool :=
  bool_decide (prev_state o = NATI_STATE_NULL).
Definition IN_HYBRID_STATE (o : ipa_nati_obj) : bool :=
  bool_decide (curr_state o = NATI_STATE_HYBRID) || bool_decide (curr_state o = NATI_STATE_HYBRID_DDR).
Definition COMPATIBLE_NMI_4SWITCH (o : ipa_nati_obj) (n : Z) : bool :=
  (n =? IPA_NAT_MEM_IN_SRAM) && bool_decide (curr_state o = NATI_STATE_HYBRID_DDR) ||
  (n =? IPA_NAT_MEM_IN_DDR) && bool_decide (curr_state o = NATI_STATE_HYBRID) ||
  (n =? IPA_NAT_MEM_IN_DDR) && bool_decide (curr_state o = NATI_STATE_DDR_ONLY) ||
  (n =? IPA_NAT_MEM_IN_SRAM) && bool_decide (curr_state o = NATI_STATE_SRAM_ONLY).
Definition GEN_HOLD_STATE (o : ipa_nati_obj) : ipa_nati_state :=
  if negb (IN_HYBRID_STATE o) then curr_state o
  else if bool_decide (curr_state o = NATI_STATE_HYBRID) then NATI_STATE_SRAM_ONLY
  else NATI_STATE_DDR_ONLY.
Definition SRAM_CURRENTLY_ACTIVE (o : ipa_nati_obj) : bool :=
  bool_decide (curr_state o = NATI_STATE_SRAM_ONLY) || bool_decide (curr_state o = NATI_STATE_HYBRID).
Definition SRAM_TO_BE_ACCESSED (o : ipa_nati_obj) (t : ipa_nati_trigger) : bool :=
  SRAM_CURRENTLY_ACTIVE o || bool_decide (t = NATI_TRIG_GOTO_SRAM) ||
  bool_decide (t = NATI_TRIG_TBL_SWITCH).
Definition VOTE_REQUIRED (o : ipa_nati_obj) (t : ipa_nati_trigger) : bool :=
  SRAM_TO_BE_ACCESSED o t && negb (bool_decide (t = NATI_TRIG_GET_TSTAMP)) &&
  negb (bool_decide (t = NATI_TRIG_ADD_TABLE)).
Definition SET_NATIOBJ_STATE (st : ipa_nati_state) (s : sm_state) : sm_state :=
  on_obj (fun o => set_states (curr_state o) st o) s.
Definition CHOOSE_MEM_SUB (o : ipa_nati_obj) : mem_sub :=
  if bool_decide (curr_state o = NATI_STATE_HYBRID) then SRAM_SUB else DDR_SUB.
(** ( * cnt_ptr)++ and --, on 32 bits *)
Definition add_cnt (sub : mem_sub) (d : Z) (s : sm_state) : sm_state :=
  on_obj (fun o => set_tot (set_sub sub (u32 (at_sub sub (tot_rules_in_table o) + d))
                              (tot_rules_in_table o)) o) s.
Definition clear_cnt (sub : mem_sub) (s : sm_state) : sm_state :=
  on_obj (fun o => set_tot (set_sub sub 0 (tot_rules_in_table o)) o) s.
(** (.25) * v, truncated *)
Definition PRCNT_OF (v : Z) : Z := v / 4.

Definition clear_maps (sub : mem_sub) (s : sm_state) : sm_state :=
  set_maps (ipa_nat_map_clear (ipa_nat_map_clear (sm_maps s) (o2n sub)) (n2o sub)) s.

(** ** Arguments *)
Inductive sm_args :=
| ArgsNull
| ArgsAddTbl (public_ip_addr number_of_entries : Z) (tbl_hdl : option Z) (mem_type : option string)
| ArgsTbl (tbl_hdl : Z)
| ArgsWalk (T : Type) (tbl_hdl which : Z) (cb : option (walk_cb T)) (s : T)
| ArgsStats (tbl_hdl : Z) (nat_ok idx_ok : bool)
    (stats : option (ipa_nati_tbl_stats * ipa_nati_tbl_stats))
| ArgsAddRule (tbl_hdl : Z) (clnt_rule : option ipa_nat_ipv4_rule) (rule_hdl : option Z)
| ArgsDelRule (tbl_hdl rule_hdl : Z)
| ArgsStamp (tbl_hdl rule_hdl : Z) (time_stamp : option Z).

(** What the mutex and its attributes answer; locking and unlocking succeed
    when env_lock and env_unlock say so, with these results otherwise. *)
Class sm_env := {
  sm_nat_env :: nat_env;
  env_attr_init : Z;
  env_attr_settype : Z;
  env_mutex_create : Z;
  env_lock_err : Z;
  env_unlock_err : Z }.

Definition IPA_APP_CLK_VOTE : Z := 1.

Section Machine.
Context {ENV : sm_env}.

(** ** The mutex *)
Definition mutex_init (s : sm_state) : Z * sm_state :=
  if negb (env_attr_init =? 0) then (env_attr_init, s)
  else if negb (env_attr_settype =? 0) then (env_attr_settype, s)
  else if negb (env_mutex_create =? 0) then (env_mutex_create, s)
  else (0, set_mutex_init s).

Definition lock_result : Z := if env_lock then 0 else env_lock_err.
Definition unlock_result : Z := if env_unlock then 0 else env_unlock_err.

Definition take_mutex (s : sm_state) : Z * sm_state :=
  if nat_mutex_init s then (lock_result, s)
  else
    let '(ret, s) := mutex_init s in
    if ret =? 0 then (lock_result, s) else (ret, s).

Definition give_mutex (s : sm_state) : Z :=
  if nat_mutex_init s then unlock_result else -1.

(** ** Migration of one rule to the table [dst_tbl_hdl] *)

(** The rule a record was made from. *)
Definition record_rule (e : Z) : ipa_nat_ipv4_rule :=
  {| u_target_ip := fget target_ip e; u_private_ip := fget private_ip e;
     u_target_port := fget target_port e; u_private_port := fget private_port e;
     u_public_port := fget public_port e; u_protocol := fget protocol e;
     u_pdn_index := fget pdn_index e; u_redirect := fget redirect e; u_enable := fget enable e;
     u_time_stamp := fget time_stamp e;
     u_uc_activation_index := fget uc_activation_index e;
     u_s := negb (fget s_bit e =? 0); u_ucp := negb (fget ucp e =? 0);
     u_dst_only := negb (fget dst_only e =? 0); u_src_only := negb (fget src_only e =? 0) |}.

Definition migrate_one (dst_tbl_hdl : Z) (t : ipa_table) (tbl_rule_hdl : Z)
    (record_ptr : option Z) (s : sm_state) : exec (Z * sm_state) :=
  let '(src, dst) :=
    if nmi t =? IPA_NAT_MEM_IN_SRAM then (SRAM_SUB, DDR_SUB) else (DDR_SUB, SRAM_SUB) in
  e ← load_rec t record_ptr;
  if fget protocol e =? IPAHAL_NAT_INVALID_PROTOCOL then Done (0, s)
  else
    let '(ret, orig_rule_hdl) := ipa_nat_map_find (sm_maps s) (n2o src) tbl_rule_hdl 0 in
    if negb (ret =? 0) then Done (ret, s)
    else
      r ← ipa_NATI_add_ipv4_rule (sm_nat s) dst_tbl_hdl (Some (record_rule e)) (Some 0);
      let '(ret, hdl, nat) := r in
      let s := set_nat nat s in
      if negb (ret =? 0) then Done (ret, s)
      else
        new_rule_hdl ← deref hdl;
        let s := add_cnt dst 1 s in
        let '(ret, maps) := ipa_nat_map_add (sm_maps s) (o2n dst) orig_rule_hdl new_rule_hdl in
        let s := set_maps maps s in
        if negb (ret =? 0) then Done (ret, s)
        else
          let '(ret, maps) := ipa_nat_map_add (sm_maps s) (n2o dst) new_rule_hdl orig_rule_hdl in
          Done (ret, set_maps maps s).

(** The callback: a fault of its own is kept in the state. *)
Definition migrate_rule (dst_tbl_hdl : Z) : walk_cb (exec sm_state) :=
  fun t tbl_rule_hdl record_ptr _ _ s =>
    match (s ← s; migrate_one dst_tbl_hdl t tbl_rule_hdl record_ptr s) with
    | Done (ret, s) => (ret, Done s)
    | Fault => (1, Fault)
    | Timeout => (1, Timeout)
    end.

Definition copy_rules (src_tbl_hdl dst_tbl_hdl : Z) (s : sm_state) : exec (Z * sm_state) :=
  r ← ipa_nati_copy_ipv4_tbl (sm_nat s) src_tbl_hdl dst_tbl_hdl (Some (migrate_rule dst_tbl_hdl))
        (fun nat => Done (set_nat nat s));
  s ← snd r;
  Done (fst r, s).
End Machine.

(** A run of the machine on a trigger: the C result, the arguments' memory and
    the state after it. *)
Definition sm_run : Type :=
  sm_state -> ipa_nati_trigger -> sm_args -> exec (Z * sm_args * sm_state).

(** ** Callbacks *)
Section Callbacks.
Context {ENV : sm_env}.
Context (ipa_nati_statemach : sm_run).

Definition _smUndef : sm_run := fun s _ args => Done (-1, args, s).

Definition _smDelTbl : sm_run := fun s _ args =>
  match args with
  | ArgsTbl tbl_hdl =>
      r ← ipa_NATI_del_ipv4_table (sm_nat s) tbl_hdl;
      let s := set_nat (snd r) s in
      Done (fst r, args,
        if (fst r =? 0) && negb (IN_HYBRID_STATE (nati_obj s)) then BACK2_UNSTARTED_STATE s else s)
  | _ => Fault
  end.

Definition _smFirstTbl : sm_run := fun s _ args =>
  match args with
  | ArgsAddTbl _ _ _ mem_type =>
      let o := nati_obj s in
      let s := SET_NATIOBJ_STATE
                 (if hold_state o && negb (bool_decide (state_to_hold o = NATI_STATE_NULL))
                  then state_to_hold o else mem_type_str_to_ipa_nati_state mem_type) s in
      ipa_nati_statemach s NATI_TRIG_ADD_TABLE args
  | _ => Fault
  end.

Definition _smAddDdrTbl : sm_run := fun s _ args =>
  match args with
  | ArgsAddTbl public_ip_addr number_of_entries tbl_hdl_ptr mem_type =>
      let o := nati_obj s in
      r ← ipa_NATI_add_ipv4_tbl (sm_nat s) IPA_NAT_MEM_IN_DDR public_ip_addr number_of_entries
            (Some (ddr_tbl_hdl o));
      let '(ret, hdl, nat) := r in
      let s := on_obj (set_hdls hdl (sram_tbl_hdl o)) (set_nat nat s) in
      if ret =? 0 then
        _ ← deref tbl_hdl_ptr;
        Done (ret, ArgsAddTbl public_ip_addr number_of_entries (Some hdl) mem_type, s)
      else Done (ret, args, s)
  | _ => Fault
  end.

(** The tight loop of ipa_calc_num_sram_table_entries runs at most 32768
    times for an SRAM that a table pair can fill. *)
Definition sram_fuel : nat := Z.to_nat 40000.

Definition _smAddSramTbl : sm_run := fun s _ args =>
  match args with
  | ArgsAddTbl public_ip_addr number_of_entries tbl_hdl_ptr mem_type =>
      r ← ipa_nati_get_sram_size (sm_nat s) (Some 0);
      let '(ret, sz, nat) := r in
      let s := set_nat nat s in
      if negb (ret =? 0) then Done (ret, args, s)
      else
        sram_size ← deref sz;
        n ← ipa_calc_num_sram_table_entries sram_fuel sram_size sizeof_ipa_nat_rule
              sizeof_ipa_nat_indx_tbl_rule;
        let '(ret, slots) := n in
        if negb (ret =? 0)
        then Done (ret, args, on_obj (set_slots slots (back_to_sram_thresh (nati_obj s))) s)
        else
          let s := on_obj (set_slots slots (PRCNT_OF slots)) s in
          v ← ipa_nat_vote_clock (sm_nat s) IPA_APP_CLK_VOTE;
          let s := set_nat (snd v) s in
          if negb (fst v =? 0) then Done (fst v, args, s)
          else
            r ← ipa_NATI_add_ipv4_tbl (sm_nat s) IPA_NAT_MEM_IN_SRAM public_ip_addr (u16 slots)
                  (Some (sram_tbl_hdl (nati_obj s)));
            let '(ret, hdl, nat) := r in
            let s := on_obj (set_hdls (ddr_tbl_hdl (nati_obj s)) hdl) (set_nat nat s) in
            v ← ipa_nat_vote_clock (sm_nat s) IPA_APP_CLK_DEVOTE;
            let s := set_nat (snd v) s in
            if ret =? 0 then
              _ ← deref tbl_hdl_ptr;
              Done (ret, ArgsAddTbl public_ip_addr number_of_entries (Some hdl) mem_type, s)
            else Done (ret, args, s)
  | _ => Fault
  end.

Definition clear_both (s : sm_state) : sm_state :=
  clear_maps DDR_SUB (clear_maps SRAM_SUB (clear_cnt DDR_SUB (clear_cnt SRAM_SUB s))).

Definition _smAddSramAndDdrTbl : sm_run := fun s trigger args =>
  match args with
  | ArgsAddTbl public_ip_addr number_of_entries tbl_hdl_ptr mem_type =>
      r ← _smAddSramTbl (clear_both s) trigger args;
      let '(ret, args, s) := r in
      if ret =? 0 then
        if tot_slots_in_sram (nati_obj s) >=? number_of_entries
        then Done (0, args, SET_NATIOBJ_STATE NATI_STATE_SRAM_ONLY s)
        else
          r ← _smAddDdrTbl s trigger
                (ArgsAddTbl public_ip_addr number_of_entries (Some 0) None);
          let '(ret, _, s) := r in
          if ret =? 0 then
            g ← ipa_nati_statemach s NATI_TRIG_GOTO_SRAM ArgsNull;
            Done (fst (fst g), args, snd g)
          else Done (ret, args, s)
      else
        r ← _smAddDdrTbl s trigger args;
        let '(ret, args, s) := r in
        Done (ret, args, if ret =? 0 then SET_NATIOBJ_STATE NATI_STATE_DDR_ONLY s else s)
  | _ => Fault
  end.

Definition _smDelSramAndDdrTbl : sm_run := fun s trigger args =>
  r ← _smDelTbl (clear_both s) trigger args;
  let '(ret, _, s) := r in
  r ← (if ret =? 0 then _smDelTbl s trigger (ArgsTbl (ddr_tbl_hdl (nati_obj s)))
       else Done (ret, args, s));
  let '(ret, _, s) := r in
  Done (ret, args, if ret =? 0 then BACK2_UNSTARTED_STATE s else s).

Definition _smClrTbl : sm_run := fun s _ args =>
  match args with
  | ArgsTbl tbl_hdl =>
      let '(nmi0, _) := BREAK_TBL_HDL tbl_hdl in
      if negb (IPA_VALID_NAT_MEM_IN nmi0) then Done (- EINVAL, args, s)
      else
        let sub := if nmi0 =? IPA_NAT_MEM_IN_SRAM then SRAM_SUB else DDR_SUB in
        let s := clear_maps sub (clear_cnt sub s) in
        r ← ipa_NATI_clear_ipv4_tbl (sm_nat s) tbl_hdl;
        Done (fst r, args, set_nat (snd r) s)
  | _ => Fault
  end.

(** The table handle of the memory in use, in the two hybrid states. *)
Definition hybrid_hdl (s : sm_state) (tbl_hdl : Z) : Z :=
  if bool_decide (curr_state (nati_obj s) = NATI_STATE_HYBRID) then tbl_hdl
  else ddr_tbl_hdl (nati_obj s).

Definition _smClrTblHybrid : sm_run := fun s trigger args =>
  match args with
  | ArgsTbl tbl_hdl =>
      r ← _smClrTbl s trigger (ArgsTbl (hybrid_hdl s tbl_hdl));
      Done (fst (fst r), args, snd r)
  | _ => Fault
  end.

Definition _smWalkTbl : sm_run := fun s _ args =>
  match args with
  | ArgsWalk T tbl_hdl which cb w =>
      r ← ipa_NATI_walk_ipv4_tbl (sm_nat s) tbl_hdl which cb w;
      Done (fst r, ArgsWalk T tbl_hdl which cb (snd r), s)
  | _ => Fault
  end.

(** The walk of _smWalkTbl is repeated here for the callback's type. *)
Definition _smWalkTblHybrid : sm_run := fun s _ args =>
  match args with
  | ArgsWalk T tbl_hdl which cb w =>
      r ← ipa_NATI_walk_ipv4_tbl (sm_nat s) (hybrid_hdl s tbl_hdl) which cb w;
      Done (fst r, ArgsWalk T tbl_hdl which cb (snd r), s)
  | _ => Fault
  end.

Definition _smStatTbl : sm_run := fun s _ args =>
  match args with
  | ArgsStats tbl_hdl nat_ok idx_ok st0 =>
      r ← ipa_NATI_ipv4_tbl_stats (sm_nat s) tbl_hdl nat_ok idx_ok;
      Done (fst r, ArgsStats tbl_hdl nat_ok idx_ok
                     (match snd r with Some st => Some st | None => st0 end), s)
  | _ => Fault
  end.

Definition _smStatTblHybrid : sm_run := fun s trigger args =>
  match args with
  | ArgsStats tbl_hdl nat_ok idx_ok st0 =>
      r ← _smStatTbl s trigger (ArgsStats (hybrid_hdl s tbl_hdl) nat_ok idx_ok st0);
      let '(ret, new_args, s) := r in
      Done (ret, match new_args with
                 | ArgsStats _ _ _ st => ArgsStats tbl_hdl nat_ok idx_ok st
                 | _ => args
                 end, s)
  | _ => Fault
  end.

(** clnt_rule->redirect = clnt_rule->enable = clnt_rule->time_stamp = 0 *)
Definition clear_fields (u : ipa_nat_ipv4_rule) : ipa_nat_ipv4_rule :=
  {| u_target_ip := u_target_ip u; u_private_ip := u_private_ip u;
     u_target_port := u_target_port u; u_private_port := u_private_port u;
     u_public_port := u_public_port u; u_protocol := u_protocol u; u_pdn_index := u_pdn_index u;
     u_redirect := 0; u_enable := 0; u_time_stamp := 0;
     u_uc_activation_index := u_uc_activation_index u; u_s := u_s u; u_ucp := u_ucp u;
     u_dst_only := u_dst_only u; u_src_only := u_src_only u |}.

Definition _smAddRuleToTbl : sm_run := fun s _ args =>
  match args with
  | ArgsAddRule tbl_hdl clnt_rule rule_hdl =>
      u ← deref clnt_rule;
      let u := clear_fields u in
      r ← ipa_NATI_add_ipv4_rule (sm_nat s) tbl_hdl (Some u) rule_hdl;
      let '(ret, hdl, nat) := r in
      let s := set_nat nat s in
      Done (ret, ArgsAddRule tbl_hdl (Some u) hdl,
        if ret =? 0 then add_cnt (CHOOSE_MEM_SUB (nati_obj s)) 1 s else s)
  | _ => Fault
  end.

Definition _smDelRuleFromTbl : sm_run := fun s _ args =>
  match args with
  | ArgsDelRule tbl_hdl rule_hdl =>
      r ← ipa_NATI_del_ipv4_rule (sm_nat s) tbl_hdl rule_hdl;
      let s := set_nat (snd r) s in
      Done (fst r, args,
        if fst r =? 0 then add_cnt (CHOOSE_MEM_SUB (nati_obj s)) (-1) s else s)
  | _ => Fault
  end.

Definition _smAddRuleHybrid : sm_run := fun s trigger args =>
  match args with
  | ArgsAddRule tbl_hdl clnt_rule rule_hdl =>
      r ← _smAddRuleToTbl s trigger (ArgsAddRule (hybrid_hdl s tbl_hdl) clnt_rule rule_hdl);
      let '(ret, new_args, s) := r in
      let args := match new_args with
                  | ArgsAddRule _ u h => ArgsAddRule tbl_hdl u h
                  | _ => args
                  end in
      if ret =? 0 then
        match args with
        | ArgsAddRule _ _ (Some h) =>
            let sub := CHOOSE_MEM_SUB (nati_obj s) in
            let '(ret, maps) := ipa_nat_map_add (sm_maps s) (o2n sub) h h in
            if negb (ret =? 0) then Done (ret, args, set_maps maps s)
            else
              let '(ret, maps) := ipa_nat_map_add maps (n2o sub) h h in
              Done (ret, args, set_maps maps s)
        | _ => Fault
        end
      else if bool_decide (curr_state (nati_obj s) = NATI_STATE_HYBRID) && negb (hold_state (nati_obj s))
      then
        g ← ipa_nati_statemach s NATI_TRIG_TBL_SWITCH ArgsNull;
        let '(ret, _, s) := g in
        if ret =? 0 then ipa_nati_statemach (SET_NATIOBJ_STATE NATI_STATE_HYBRID_DDR s) trigger args
        else Done (ret, args, s)
      else Done (ret, args, s)
  | _ => Fault
  end.

(** The check for a way back to SRAM after a deletion. *)
Definition back_to_sram (s : sm_state) : exec sm_state :=
  let o := nati_obj s in
  if bool_decide (curr_state o = NATI_STATE_HYBRID_DDR) &&
     (at_sub (CHOOSE_MEM_SUB o) (tot_rules_in_table o) <=? back_to_sram_thresh o) &&
     negb (hold_state o)
  then
    g ← ipa_nati_statemach s NATI_TRIG_TBL_SWITCH ArgsNull;
    let '(ret, _, s) := g in
    Done (if ret =? 0 then SET_NATIOBJ_STATE NATI_STATE_HYBRID s else s)
  else Done s.

Definition _smDelRuleHybrid : sm_run := fun s trigger args =>
  match args with
  | ArgsDelRule tbl_hdl orig_rule_hdl =>
      let sub := CHOOSE_MEM_SUB (nati_obj s) in
      let '(ret, new_rule_hdl, maps) := ipa_nat_map_del (sm_maps s) (o2n sub) orig_rule_hdl 0 in
      if negb (ret =? 0) then Done (ret, args, s)
      else
        let '(_, _, maps) := ipa_nat_map_del maps (n2o sub) new_rule_hdl 0 in
        let s := set_maps maps s in
        r ← _smDelRuleFromTbl s trigger (ArgsDelRule (hybrid_hdl s tbl_hdl) new_rule_hdl);
        let '(ret, _, s) := r in
        if ret =? 0 then s ← back_to_sram s; Done (0, args, s) else Done (ret, args, s)
  | _ => Fault
  end.

Definition _smGoToDdr : sm_run := fun s _ args =>
  r ← ipa_NATI_post_ipv4_init_cmd (sm_nat s) (ddr_tbl_hdl (nati_obj s));
  let s := set_nat (snd r) s in
  Done (fst r, args, if fst r =? 0 then SET_NATIOBJ_STATE NATI_STATE_HYBRID_DDR s else s).

Definition _smGoToSram : sm_run := fun s _ args =>
  r ← ipa_NATI_post_ipv4_init_cmd (sm_nat s) (sram_tbl_hdl (nati_obj s));
  let s := set_nat (snd r) s in
  Done (fst r, args, if fst r =? 0 then SET_NATIOBJ_STATE NATI_STATE_HYBRID s else s).

(** collect_stats: the statistics of the source table are only logged. *)
Definition collect_stats (s : sm_state) (tbl_hdl : Z) (args : sm_args) : exec unit :=
  match args with
  | ArgsNull => Done tt
  | _ => _ ← ipa_NATI_ipv4_tbl_stats (sm_nat s) tbl_hdl true true; Done tt
  end.

Definition count_switch (sub : mem_sub) (ret : Z) (s : sm_state) : sm_state :=
  on_obj (fun o =>
    let w := at_sub sub (sw_stats o) in
    set_sw (set_sub sub
      (if ret =? 0 then {| sw_pass := u32 (sw_pass w + 1); sw_fail := sw_fail w |}
       else {| sw_pass := sw_pass w; sw_fail := u32 (sw_fail w + 1) |}) (sw_stats o)) o) s.

Definition _smSwitchFromDdrToSram : sm_run := fun s _ args =>
  let sub := CHOOSE_MEM_SUB (nati_obj s) in
  _ ← collect_stats s (ddr_tbl_hdl (nati_obj s)) args;
  g ← ipa_nati_statemach s NATI_TRIG_GOTO_SRAM ArgsNull;
  let '(ret, _, s) := g in
  if negb (ret =? 0) then Done (ret, args, s)
  else
    let s := clear_maps SRAM_SUB (clear_cnt SRAM_SUB s) in
    r ← copy_rules (ddr_tbl_hdl (nati_obj s)) (sram_tbl_hdl (nati_obj s)) s;
    Done (fst r, args, count_switch sub (fst r) (snd r)).

Definition _smSwitchFromSramToDdr : sm_run := fun s _ args =>
  let sub := CHOOSE_MEM_SUB (nati_obj s) in
  _ ← collect_stats s (sram_tbl_hdl (nati_obj s)) args;
  g ← ipa_nati_statemach s NATI_TRIG_GOTO_DDR ArgsNull;
  let '(ret, _, s) := g in
  if negb (ret =? 0) then Done (ret, args, s)
  else
    let s := clear_maps DDR_SUB (clear_cnt DDR_SUB s) in
    r ← copy_rules (sram_tbl_hdl (nati_obj s)) (ddr_tbl_hdl (nati_obj s)) s;
    Done (fst r, args, count_switch sub (fst r) (snd r)).

Definition _smGetTmStmp : sm_run := fun s _ args =>
  match args with
  | ArgsStamp tbl_hdl rule_hdl time_stamp =>
      r ← ipa_NATI_query_timestamp (sm_nat s) tbl_hdl rule_hdl time_stamp;
      Done (fst r, ArgsStamp tbl_hdl rule_hdl (snd r), s)
  | _ => Fault
  end.

Definition _smGetTmStmpHybrid : sm_run := fun s trigger args =>
  match args with
  | ArgsStamp tbl_hdl orig_rule_hdl time_stamp =>
      let sub := CHOOSE_MEM_SUB (nati_obj s) in
      let '(ret, new_rule_hdl) := ipa_nat_map_find (sm_maps s) (o2n sub) orig_rule_hdl 0 in
      if negb (ret =? 0) then Done (ret, args, s)
      else
        r ← ipa_NATI_query_timestamp (sm_nat s) (hybrid_hdl s tbl_hdl) new_rule_hdl time_stamp;
        Done (fst r, ArgsStamp tbl_hdl orig_rule_hdl (snd r), s)
  | _ => Fault
  end.

(** ** The table of callbacks *)
Definition _state_mach_tbl (state : ipa_nati_state) (trigger : ipa_nati_trigger) : sm_run :=
  match state, trigger with
  | NATI_STATE_NULL, NATI_TRIG_ADD_TABLE => _smFirstTbl
  | NATI_STATE_DDR_ONLY, NATI_TRIG_ADD_TABLE => _smAddDdrTbl
  | NATI_STATE_SRAM_ONLY, NATI_TRIG_ADD_TABLE => _smAddSramTbl
  | (NATI_STATE_DDR_ONLY | NATI_STATE_SRAM_ONLY), NATI_TRIG_DEL_TABLE => _smDelTbl
  | (NATI_STATE_DDR_ONLY | NATI_STATE_SRAM_ONLY), NATI_TRIG_CLR_TABLE => _smClrTbl
  | (NATI_STATE_DDR_ONLY | NATI_STATE_SRAM_ONLY), NATI_TRIG_WLK_TABLE => _smWalkTbl
  | (NATI_STATE_DDR_ONLY | NATI_STATE_SRAM_ONLY), NATI_TRIG_TBL_STATS => _smStatTbl
  | (NATI_STATE_DDR_ONLY | NATI_STATE_SRAM_ONLY), NATI_TRIG_ADD_RULE => _smAddRuleToTbl
  | (NATI_STATE_DDR_ONLY | NATI_STATE_SRAM_ONLY), NATI_TRIG_DEL_RULE => _smDelRuleFromTbl
  | (NATI_STATE_DDR_ONLY | NATI_STATE_SRAM_ONLY), NATI_TRIG_GET_TSTAMP => _smGetTmStmp
  | NATI_STATE_HYBRID, NATI_TRIG_ADD_TABLE => _smAddSramAndDdrTbl
  | NATI_STATE_HYBRID, NATI_TRIG_TBL_SWITCH => _smSwitchFromSramToDdr
  | NATI_STATE_HYBRID_DDR, NATI_TRIG_TBL_SWITCH => _smSwitchFromDdrToSram
  | (NATI_STATE_HYBRID | NATI_STATE_HYBRID_DDR), NATI_TRIG_DEL_TABLE => _smDelSramAndDdrTbl
  | (NATI_STATE_HYBRID | NATI_STATE_HYBRID_DDR), NATI_TRIG_CLR_TABLE => _smClrTblHybrid
  | (NATI_STATE_HYBRID | NATI_STATE_HYBRID_DDR), NATI_TRIG_WLK_TABLE => _smWalkTblHybrid
  | (NATI_STATE_HYBRID | NATI_STATE_HYBRID_DDR), NATI_TRIG_TBL_STATS => _smStatTblHybrid
  | (NATI_STATE_HYBRID | NATI_STATE_HYBRID_DDR), NATI_TRIG_ADD_RULE => _smAddRuleHybrid
  | (NATI_STATE_HYBRID | NATI_STATE_HYBRID_DDR), NATI_TRIG_DEL_RULE => _smDelRuleHybrid
  | (NATI_STATE_HYBRID | NATI_STATE_HYBRID_DDR), NATI_TRIG_GOTO_DDR => _smGoToDdr
  | (NATI_STATE_HYBRID | NATI_STATE_HYBRID_DDR), NATI_TRIG_GOTO_SRAM => _smGoToSram
  | (NATI_STATE_HYBRID | NATI_STATE_HYBRID_DDR), NATI_TRIG_GET_TSTAMP => _smGetTmStmpHybrid
  | _, _ => _smUndef
  end.

(** One run of the machine, given how the callbacks run it again.  Whatever
    happened under the mutex, the result is that of giving it back. *)
Definition statemach_body : sm_run := fun s trigger args =>
  let '(ret, s) := take_mutex s in
  if negb (ret =? 0) then Done (ret, args, s)
  else
    let vote := VOTE_REQUIRED (nati_obj s) trigger in
    v ← (if vote then ipa_nat_vote_clock (sm_nat s) IPA_APP_CLK_VOTE else Done (0, sm_nat s));
    let s := set_nat (snd v) s in
    if negb (fst v =? 0) then Done (give_mutex s, args, s)
    else
      r ← _state_mach_tbl (curr_state (nati_obj s)) trigger s trigger args;
      let '(_, args, s) := r in
      d ← (if vote then ipa_nat_vote_clock (sm_nat s) IPA_APP_CLK_DEVOTE else Done (0, sm_nat s));
      let s := set_nat (snd d) s in
      Done (give_mutex s, args, s).
End Callbacks.

Section Api.
Context {ENV : sm_env}.

Fixpoint ipa_nati_statemach (depth : nat) : sm_run :=
  match depth with
  | O => fun _ _ _ => Timeout
  | S depth' => statemach_body (ipa_nati_statemach depth')
  end.

(** A call runs the machine at most three deep (nat_sm_returns). *)
Definition run_sm : sm_run := ipa_nati_statemach 3.

(** ** ipa_nati functions *)
Definition ipa_nati_add_ipv4_tbl (s : sm_state) (public_ip_addr : Z) (mem_type : option string)
    (number_of_entries : Z) (tbl_hdl : option Z) : exec (Z * sm_args * sm_state) :=
  run_sm s NATI_TRIG_ADD_TABLE (ArgsAddTbl public_ip_addr number_of_entries tbl_hdl mem_type).
Definition ipa_nati_del_ipv4_table (s : sm_state) (tbl_hdl : Z) : exec (Z * sm_args * sm_state) :=
  run_sm s NATI_TRIG_DEL_TABLE (ArgsTbl tbl_hdl).
Definition ipa_nati_clear_ipv4_tbl (s : sm_state) (tbl_hdl : Z) : exec (Z * sm_args * sm_state) :=
  run_sm s NATI_TRIG_CLR_TABLE (ArgsTbl tbl_hdl).
Definition ipa_nati_walk_ipv4_tbl {T} (s : sm_state) (tbl_hdl which : Z) (cb : option (walk_cb T))
    (w : T) : exec (Z * sm_args * sm_state) :=
  run_sm s NATI_TRIG_WLK_TABLE (ArgsWalk T tbl_hdl which cb w).
Definition ipa_nati_ipv4_tbl_stats (s : sm_state) (tbl_hdl : Z) (nat_ok idx_ok : bool) :
    exec (Z * sm_args * sm_state) :=
  run_sm s NATI_TRIG_TBL_STATS (ArgsStats tbl_hdl nat_ok idx_ok None).
Definition ipa_nati_add_ipv4_rule (s : sm_state) (tbl_hdl : Z) (clnt_rule : option ipa_nat_ipv4_rule)
    (rule_hdl : option Z) : exec (Z * sm_args * sm_state) :=
  run_sm s NATI_TRIG_ADD_RULE (ArgsAddRule tbl_hdl clnt_rule rule_hdl).
Definition ipa_nati_del_ipv4_rule (s : sm_state) (tbl_hdl rule_hdl : Z) :
    exec (Z * sm_args * sm_state) :=
  run_sm s NATI_TRIG_DEL_RULE (ArgsDelRule tbl_hdl rule_hdl).
Definition ipa_nati_query_timestamp (s : sm_state) (tbl_hdl rule_hdl : Z) (time_stamp : option Z) :
    exec (Z * sm_args * sm_state) :=
  run_sm s NATI_TRIG_GET_TSTAMP (ArgsStamp tbl_hdl rule_hdl time_stamp).

(** ** Switching by hand *)

(** Under the mutex; the result computed there is overwritten. *)
Definition switch_locked (s : sm_state) (nmi0 : Z) (hold : bool) : exec sm_state :=
  let o := nati_obj s in
  if IN_UNSTARTED_STATE o then
    Done (on_obj (set_hold hold (if nmi0 =? IPA_NAT_MEM_IN_DDR then NATI_STATE_DDR_ONLY
                                 else NATI_STATE_SRAM_ONLY)) s)
  else if IN_HYBRID_STATE o then
    g ← (if COMPATIBLE_NMI_4SWITCH o nmi0 then run_sm s NATI_TRIG_TBL_SWITCH ArgsNull
         else Done (0, ArgsNull, s));
    let '(ret, _, s) := g in
    let o := nati_obj s in
    Done (if ret =? 0
          then on_obj (set_hold hold (if hold then GEN_HOLD_STATE o else state_to_hold o)) s else s)
  else if hold then
    Done (if COMPATIBLE_NMI_4SWITCH o nmi0 then on_obj (set_hold hold (GEN_HOLD_STATE o)) s else s)
  else Done (on_obj (set_hold hold NATI_STATE_NULL) s).

Definition ipa_nat_switch_to (s : sm_state) (nmi0 : Z) (hold : bool) : exec (Z * sm_state) :=
  if negb (IPA_VALID_NAT_MEM_IN nmi0) then Done (-1, s)
  else
    let '(ret, s) := take_mutex s in
    if negb (ret =? 0) then Done (ret, s)
    else s ← switch_locked s nmi0 hold; Done (give_mutex s, s).

Definition ipa_nat_is_sram_supported (s : sm_state) : bool :=
  VALID_TBL_HDL (sram_tbl_hdl (nati_obj s)).

(** ** ipa_nat_drv.c *)
Definition ipa_nat_add_ipv4_tbl (s : sm_state) (public_ip_addr : Z) (mem_type : option string)
    (number_of_entries : Z) (tbl_hdl : option Z) : exec (Z * option Z * sm_state) :=
  match tbl_hdl, mem_type with
  | Some _, Some _ =>
      if number_of_entries =? 0 then Done (- EINVAL, tbl_hdl, s)
      else
        r ← ipa_nati_add_ipv4_tbl s public_ip_addr mem_type number_of_entries (Some 0);
        Done (fst (fst r), match snd (fst r) with ArgsAddTbl _ _ h _ => h | _ => None end, snd r)
  | _, _ => Done (- EINVAL, tbl_hdl, s)
  end.

Definition ipa_nat_del_ipv4_tbl (s : sm_state) (tbl_hdl : Z) : exec (Z * sm_state) :=
  if negb (VALID_TBL_HDL tbl_hdl) then Done (- EINVAL, s)
  else r ← ipa_nati_del_ipv4_table s tbl_hdl; Done (fst (fst r), snd r).

(** What is left in the rule's and the handle's memory comes with the
    result. *)
Definition ipa_nat_add_ipv4_rule (s : sm_state) (tbl_hdl : Z)
    (clnt_rule : option ipa_nat_ipv4_rule) (rule_hdl : option Z) :
    exec (Z * option ipa_nat_ipv4_rule * option Z * sm_state) :=
  match clnt_rule, rule_hdl with
  | Some _, Some _ =>
      if negb (VALID_TBL_HDL tbl_hdl) then Done (- EINVAL, clnt_rule, rule_hdl, s)
      else
        r ← ipa_nati_add_ipv4_rule s tbl_hdl clnt_rule rule_hdl;
        let '(ret, args, s) := r in
        let '(u, h) := match args with ArgsAddRule _ u h => (u, h) | _ => (None, None) end in
        Done (if negb (ret =? 0) then - EINVAL else 0, u, h, s)
  | _, _ => Done (- EINVAL, clnt_rule, rule_hdl, s)
  end.

Definition VALID_RULE_HDL (hdl : Z) : bool := negb (hdl =? IPA_TABLE_INVALID_ENTRY).

Definition ipa_nat_del_ipv4_rule (s : sm_state) (tbl_hdl rule_hdl : Z) : exec (Z * sm_state) :=
  if negb (VALID_TBL_HDL tbl_hdl) || negb (VALID_RULE_HDL rule_hdl) then Done (- EINVAL, s)
  else r ← ipa_nati_del_ipv4_rule s tbl_hdl rule_hdl; Done (fst (fst r), snd r).

Definition ipa_nat_query_timestamp (s : sm_state) (tbl_hdl rule_hdl : Z) (time_stamp : option Z) :
    exec (Z * option Z * sm_state) :=
  match time_stamp with
  | Some _ =>
      if negb (VALID_TBL_HDL tbl_hdl) || negb (VALID_RULE_HDL rule_hdl)
      then Done (- EINVAL, time_stamp, s)
      else
        r ← ipa_nati_query_timestamp s tbl_hdl rule_hdl time_stamp;
        Done (fst (fst r), match snd (fst r) with ArgsStamp _ _ t => t | _ => None end, snd r)
  | None => Done (- EINVAL, time_stamp, s)
  end.
End Api.
