(* ===== verification/IpaNatSmRun.v ===== *)
(** How the memory state machine runs: how deep its callbacks run it again,
    what the mutex makes of the results, and a run of one callback. *)
From stdpp Require Import gmap.
From S2P Require Import Prelude.
From S2P Require Import Bits.
From S2P Require Import IpaTable.
From S2P Require Import IpaTableSize.
From S2P Require Import IpaMemDesc.
From S2P Require Import IpaDma.
From S2P Require Import IpaNatEntry.
From S2P Require Import IpaNatDrv.
From S2P Require Import IpaNatCalls.
From S2P Require Import IpaNatMap.
From S2P Require Import IpaNatSm.

(** ** Nesting *)

(** How deep a run on trigger [t] in state [c] goes. *)
Definition nesting (c : ipa_nati_state) (t : ipa_nati_trigger) : nat :=
  match t, c with
  | NATI_TRIG_ADD_TABLE, NATI_STATE_NULL => 3
  | NATI_TRIG_ADD_TABLE, NATI_STATE_HYBRID => 2
  | NATI_TRIG_ADD_RULE, NATI_STATE_HYBRID => 3
  | NATI_TRIG_DEL_RULE, NATI_STATE_HYBRID_DDR => 3
  | NATI_TRIG_TBL_SWITCH, _ => 2
  | _, _ => 1
  end.

Lemma nesting_bounds c t : (1 <= nesting c t <= 3)%nat.
Proof. destruct c, t; cbn; lia. Qed.

Lemma mem_type_state o : mem_type_str_to_ipa_nati_state o <> NATI_STATE_NULL.
Proof. unfold mem_type_str_to_ipa_nati_state. destruct o; [|done]. now repeat case_match. Qed.

Lemma bind_ext {A B} (m : exec A) (k k' : A -> exec B) :
  (forall x, m = Done x -> k x = k' x) -> (x ← m; k x) = (x ← m; k' x).
Proof. destruct m; cbn; auto. Qed.

Section Nesting.
Context {ENV : sm_env}.

Lemma take_mutex_obj s r s' : take_mutex s = (r, s') -> nati_obj s' = nati_obj s.
Proof.
  unfold take_mutex, mutex_init. repeat case_match; intros; simplify_eq; done.
Qed.

(** Two ways of running the machine again that agree on the runs less deep
    than one on [t] in state [c]. *)
Definition agree_below (n : nat) (R R' : sm_run) : Prop :=
  forall s t args, (nesting (curr_state (nati_obj s)) t < n)%nat -> R s t args = R' s t args.

Lemma goto_agrees n R R' s t :
  agree_below n R R' -> (2 <= n)%nat -> t = NATI_TRIG_GOTO_DDR \/ t = NATI_TRIG_GOTO_SRAM ->
  R s t ArgsNull = R' s t ArgsNull.
Proof. intros H Hn [-> | ->]; apply H; destruct (curr_state _); cbn; lia. Qed.

Lemma switch_ext R R' s t args :
  agree_below 2 R R' ->
  _smSwitchFromSramToDdr R s t args = _smSwitchFromSramToDdr R' s t args /\
  _smSwitchFromDdrToSram R s t args = _smSwitchFromDdrToSram R' s t args.
Proof.
  intros H. unfold _smSwitchFromSramToDdr, _smSwitchFromDdrToSram.
  split; apply bind_ext; intros [] _; now rewrite (goto_agrees 2 R R' s _ H ltac:(lia)) by auto.
Qed.

Lemma add_table_ext R R' s t args :
  agree_below 2 R R' -> _smAddSramAndDdrTbl R s t args = _smAddSramAndDdrTbl R' s t args.
Proof.
  intros H. unfold _smAddSramAndDdrTbl. destruct args; try done.
  apply bind_ext. intros [[r a] s1] _. destruct (r =? 0); [|done]. destruct (_ >=? _); [done|].
  apply bind_ext. intros [[r' a'] s2] _. destruct (r' =? 0); [|done].
  now rewrite (goto_agrees 2 R R' s2 _ H ltac:(lia)) by auto.
Qed.

Lemma first_table_ext R R' s t args :
  agree_below 3 R R' -> _smFirstTbl R s t args = _smFirstTbl R' s t args.
Proof.
  intros H. unfold _smFirstTbl. destruct args; try done. apply H. cbn [nati_obj set_obj
    SET_NATIOBJ_STATE on_obj set_states curr_state].
  destruct (hold_state _ && _) eqn:E.
  - destruct (state_to_hold _); cbn; try lia. rewrite andb_comm in E. discriminate E.
  - pose proof (mem_type_state mem_type) as Hm.
    destruct (mem_type_str_to_ipa_nati_state _); cbn; lia || done.
Qed.

Lemma add_rule_ext R R' s args :
  agree_below 3 R R' ->
  _smAddRuleHybrid R s NATI_TRIG_ADD_RULE args = _smAddRuleHybrid R' s NATI_TRIG_ADD_RULE args.
Proof.
  intros H. unfold _smAddRuleHybrid. destruct args; try done.
  apply bind_ext. intros [[r a] s1] _. destruct (r =? 0); [done|].
  destruct (bool_decide _ && _); [|done].
  rewrite (H s1 NATI_TRIG_TBL_SWITCH) by (destruct (curr_state _); cbn; lia).
  apply bind_ext. intros [[r' a'] s2] _. destruct (r' =? 0); [|done]. apply H. cbn. lia.
Qed.

Lemma del_rule_ext R R' s t args :
  agree_below 3 R R' -> _smDelRuleHybrid R s t args = _smDelRuleHybrid R' s t args.
Proof.
  intros H. unfold _smDelRuleHybrid. destruct args; try done.
  destruct (ipa_nat_map_del _ _ _ _) as [[r n] maps]. destruct (negb _); [done|].
  destruct (ipa_nat_map_del _ _ _ _) as [[r' n'] maps'].
  apply bind_ext. intros [[r2 a2] s2] _. destruct (r2 =? 0); [|done]. unfold back_to_sram.
  destruct (bool_decide _ && _ && _); [|done].
  now rewrite (H s2 NATI_TRIG_TBL_SWITCH) by (destruct (curr_state _); cbn; lia).
Qed.

Lemma add_to_tbl_state s t args r args' s' :
  _smAddRuleToTbl s t args = Done (r, args', s') -> curr_state (nati_obj s') = curr_state (nati_obj s).
Proof.
  unfold _smAddRuleToTbl. destruct args; try done. intros H. exec_inv.
  destruct a0 as [[r0 h] n]. cbn in H. injection H as <- _ <-. now case_match.
Qed.

Lemma del_from_tbl_state s t args r args' s' :
  _smDelRuleFromTbl s t args = Done (r, args', s') -> curr_state (nati_obj s') = curr_state (nati_obj s).
Proof.
  unfold _smDelRuleFromTbl. destruct args; try done. intros H. exec_inv. now case_match.
Qed.

Lemma callback_ext R R' s t args :
  agree_below (nesting (curr_state (nati_obj s)) t) R R' ->
  _state_mach_tbl R (curr_state (nati_obj s)) t s t args =
  _state_mach_tbl R' (curr_state (nati_obj s)) t s t args.
Proof.
  destruct (curr_state (nati_obj s)) eqn:Ec, t; try done; cbn [nesting _state_mach_tbl]; intros H.
  - now apply first_table_ext.
  - now apply add_table_ext.
  - now apply add_rule_ext.
  - unfold _smDelRuleHybrid, back_to_sram. destruct args; try done.
    destruct (ipa_nat_map_del _ _ _ _) as [[r n] maps]. destruct (negb _); [done|].
    destruct (ipa_nat_map_del _ _ _ _) as [[r' n'] maps'].
    apply bind_ext. intros [[r2 a2] s2] Hd. destruct (r2 =? 0) eqn:E; [|done].
    apply del_from_tbl_state in Hd as Hc. cbn [nati_obj set_maps] in Hc. rewrite Ec in Hc.
    now rewrite Hc.
  - now apply switch_ext.
  - unfold _smAddRuleHybrid. destruct args; try done.
    apply bind_ext. intros [[r a] s1] Hd. destruct (r =? 0); [done|].
    apply add_to_tbl_state in Hd as Hc. rewrite Ec in Hc.
    now rewrite Hc.
  - now apply del_rule_ext.
  - now apply switch_ext.
Qed.

Lemma body_ext R R' s t args :
  agree_below (nesting (curr_state (nati_obj s)) t) R R' ->
  statemach_body R s t args = statemach_body R' s t args.
Proof.
  intros H. unfold statemach_body. destruct (take_mutex s) as [r s1] eqn:Et.
  apply take_mutex_obj in Et. destruct (negb _); [done|]. apply bind_ext. intros v _.
  destruct (negb _); [done|]. rewrite callback_ext with (R' := R'); [done|].
  cbn [nati_obj set_nat]. now rewrite Et.
Qed.

(** The machine with [depth] runs inside each other at most and [bottom] in
    the place of one more. *)
Fixpoint statemach_over (bottom : sm_run) (depth : nat) : sm_run :=
  match depth with
  | O => bottom
  | S depth' => statemach_body (statemach_over bottom depth')
  end.

Lemma statemach_timeout d : ipa_nati_statemach d = statemach_over (fun _ _ _ => Timeout) d.
Proof. induction d as [|d IH]; cbn; [done|]. now rewrite IH. Qed.

(** From the nesting on, neither the depth nor what is at the bottom
    matters: the bottom is never reached. *)
Lemma statemach_depth b b' d : forall d' s t args,
  (nesting (curr_state (nati_obj s)) t <= d)%nat -> (nesting (curr_state (nati_obj s)) t <= d')%nat ->
  statemach_over b d s t args = statemach_over b' d' s t args.
Proof.
  induction d as [|d IH]; intros [|d'] s t args Hd Hd';
    try (pose proof (nesting_bounds (curr_state (nati_obj s)) t); lia).
  cbn [statemach_over]. apply body_ext. intros s1 t1 a1 Hn. apply IH; lia.
Qed.
End Nesting.

(** ** The mutex *)

(** A walk keeps what its callback keeps. *)
Lemma walk_loop_keeps {U} {EI : EntryInterface U} {S} (P : S -> Prop) t (cb : walk_cb S) w tot :
  (forall h p i m s, P s -> P (snd (cb t h p i m s))) ->
  forall fuel i s r, P s -> walk_loop fuel t tot i w cb s = Done r -> P (snd r).
Proof.
  intros Hcb. induction fuel as [|fuel IH]; intros i s r Hs; cbn [walk_loop]; [done|].
  destruct (i <? tot); [|now intros [= <-]]. intros H. exec_inv.
  destruct (match w with WHEN_SLOT_FILLED => _ | WHEN_SLOT_EMPTY => _ end); [|now eapply IH; eauto].
  match type of H with context [cb t ?h ?p ?i ?m s] =>
    pose proof (Hcb h p i m s Hs) as Hk; destruct (cb t h p i m s) as [ret s'] end.
  destruct (ret =? 0); cbn [negb] in H; [now eapply IH; eauto|now injection H as <-].
Qed.

Create HintDb sm_callbacks.
Section Mutex.
Context {ENV : sm_env}.

Definition has_mutex (s : sm_state) : Prop := nat_mutex_init s = true.
Definition keeps_mutex (R : sm_run) : Prop := forall s t args x,
  has_mutex s -> R s t args = Done x -> has_mutex (snd x).

(** The same of the state a walk's callback leaves. *)
Definition mutex_left (e : exec sm_state) : Prop := forall s, e = Done s -> has_mutex s.

Lemma migrate_mutex dst t h p i m s :
  mutex_left s -> mutex_left (snd (migrate_rule dst t h p i m s)).
Proof.
  intros Hs x. unfold migrate_rule. destruct s as [s| |]; cbn [mbind exec_bind snd]; try done.
  destruct (migrate_one _ _ _ _ s) as [[r s']| |] eqn:E; cbn [snd]; try done. intros [= ->].
  assert (Hm : has_mutex s) by now apply Hs.
  revert E. unfold migrate_one, ipa_nat_map_find, ipa_nat_map_add. intros E. branches; exact Hm.
Qed.

Lemma walk_mutex st h w dst e r :
  mutex_left e -> ipa_NATI_walk_ipv4_tbl st h w (Some (migrate_rule dst)) e = Done r ->
  mutex_left (snd r).
Proof.
  intros He. unfold ipa_NATI_walk_ipv4_tbl. intros H. branches; try exact He.
  all: cbn [snd]; match goal with H : ipa_table_walk _ _ _ _ _ = _ |- _ => revert H end.
  all: unfold ipa_table_walk; case_match; [now intros [= <-]|].
  all: apply (walk_loop_keeps mutex_left); [intros; now apply migrate_mutex|exact He].
Qed.

Lemma copy_mutex src dst s r s' :
  has_mutex s -> copy_rules src dst s = Done (r, s') -> has_mutex s'.
Proof.
  intros Hs. unfold copy_rules, ipa_nati_copy_ipv4_tbl. intros H.
  assert (Hn : forall n, mutex_left (Done (set_nat n s))) by (intros n x [= <-]; exact Hs).
  branches; cbn [fst snd] in *; try (now apply (Hn _ _ E0)).
  match goal with H : ipa_NATI_walk_ipv4_tbl _ _ _ _ _ = Done ?a |- _ =>
    now apply (walk_mutex _ _ _ _ _ _ (Hn _) H) end.
Qed.

Context (R : sm_run) (HR : keeps_mutex R).

#[local] Hint Unfold _smUndef _smDelTbl _smAddDdrTbl _smAddSramTbl _smClrTbl _smWalkTbl
  _smWalkTblHybrid _smStatTbl _smAddRuleToTbl _smDelRuleFromTbl _smGoToDdr _smGoToSram _smGetTmStmp
  _smGetTmStmpHybrid : sm_callbacks.

(** The callbacks that do not run the machine again. *)
Definition leaves : list sm_run := [_smUndef; _smDelTbl; _smAddDdrTbl; _smAddSramTbl; _smClrTbl;
  _smWalkTbl; _smWalkTblHybrid; _smStatTbl; _smAddRuleToTbl; _smDelRuleFromTbl; _smGoToDdr;
  _smGoToSram; _smGetTmStmp; _smGetTmStmpHybrid].

Lemma leaf_mutex f : In f leaves -> keeps_mutex f.
Proof.
  revert f. apply List.Forall_forall.
  repeat constructor; intros s t args x Hs H; autounfold with sm_callbacks in H;
    branches; repeat case_match; exact Hs.
Qed.

(** Follows the runs and copies known to have returned. *)
Ltac follow :=
  repeat match goal with
  | H : R ?s ?t ?a = Done ?x |- _ =>
      let K := fresh "K" in
      assert (K : has_mutex (snd x)) by (apply (HR s t a x); [repeat case_match; assumption|exact H]); clear H; cbn [snd] in K
  | H : copy_rules _ _ _ = Done ?r |- _ =>
      destruct r as [? ?]; apply copy_mutex in H; [|assumption]
  end.
#[local] Hint Unfold _smFirstTbl _smAddSramAndDdrTbl _smDelSramAndDdrTbl _smClrTblHybrid
  _smStatTblHybrid _smAddRuleHybrid _smDelRuleHybrid back_to_sram _smSwitchFromDdrToSram
  _smSwitchFromSramToDdr : sm_callbacks.

Lemma inner_mutex f : In f [_smFirstTbl R; _smAddSramAndDdrTbl R; _smDelSramAndDdrTbl; _smClrTblHybrid;
    _smStatTblHybrid; _smAddRuleHybrid R; _smDelRuleHybrid R; _smSwitchFromDdrToSram R;
    _smSwitchFromSramToDdr R] -> keeps_mutex f.
Proof.
  revert f. apply List.Forall_forall.
  repeat constructor; intros s t args x Hs H; autounfold with sm_callbacks in H;
    branches; follow; try (repeat case_match; assumption).
Qed.

Lemma table_mutex c t : keeps_mutex (_state_mach_tbl R c t).
Proof.
  destruct c, t; (apply leaf_mutex; cbn; tauto) || (apply inner_mutex; cbn; tauto).
Qed.

(** A run under a working mutex: it is created, and the result is 0. *)
Definition mutex_works (s : sm_state) : Prop :=
  env_lock = true /\ env_unlock = true /\
  (nat_mutex_init s = false -> env_attr_init = 0 /\ env_attr_settype = 0 /\ env_mutex_create = 0).

Lemma take_mutex_works s :
  mutex_works s -> exists s', take_mutex s = (0, s') /\ has_mutex s' /\ nati_obj s' = nati_obj s /\
    sm_maps s' = sm_maps s /\ sm_nat s' = sm_nat s.
Proof.
  intros (Hl & _ & Hi). unfold take_mutex, mutex_init, lock_result. rewrite Hl.
  destruct (nat_mutex_init s) eqn:E; [now exists s|]. destruct (Hi eq_refl) as (-> & -> & ->).
  cbn. now eexists.
Qed.

Lemma give_mutex_works s s' : mutex_works s -> has_mutex s' -> give_mutex s' = 0.
Proof. intros (_ & Hu & _) Hm. unfold give_mutex, unlock_result. now rewrite Hm, Hu. Qed.

Lemma body_result s t args ret args' s' :
  mutex_works s -> statemach_body R s t args = Done (ret, args', s') -> ret = 0 /\ has_mutex s'.
Proof.
  intros Hw. destruct (take_mutex_works s Hw) as (s1 & Ht & Hm & _).
  unfold statemach_body. rewrite Ht. cbn [Z.eqb negb]. intros H.
  apply bind_Done in H as (v & _ & H). destruct (negb (fst v =? 0)).
  - exec_inv. split; [now apply (give_mutex_works s)|exact Hm].
  - apply bind_Done in H as ([[r a] s2] & Hr & H). apply bind_Done in H as (d & _ & H). exec_inv.
    apply table_mutex in Hr; [|exact Hm]. cbn [snd] in Hr.
    split; [now apply (give_mutex_works s)|exact Hr].
Qed.
End Mutex.

Lemma statemach_mutex {ENV : sm_env} d : keeps_mutex (ipa_nati_statemach d).
Proof.
  induction d as [|d IH]; intros s t args x Hs; [done|]. cbn [ipa_nati_statemach].
  unfold statemach_body, take_mutex. rewrite Hs. intros H. destruct (negb _); [now exec_inv|].
  apply bind_Done in H as (v & _ & H). destruct (negb (fst v =? 0)); [now exec_inv|].
  apply bind_Done in H as ([[r a] s2] & Hr & H). apply bind_Done in H as (d' & _ & H). exec_inv.
  now apply (table_mutex _ IH) in Hr.
Qed.
