(* ===== verification/IpaNatSmSpec.v ===== *)
(** Hybrid operation of the NAT memory state machine: what the library holds
    while rules may move between SRAM and DDR, and the migration of the rules
    from one memory to the other. *)
From stdpp Require Import gmap.
From S2P Require Import Prelude.
From S2P Require Import Bits.
From S2P Require Import Chains.
From S2P Require Import IpaTable.
From S2P Require Import IpaTableSize.
From S2P Require Import IpaMemDesc.
From S2P Require Import IpaDma.
From S2P Require Import IpaTableWalk.
From S2P Require Import IpaTableWf.
From S2P Require Import IpaTableMark.
From S2P Require Import IpaTableInit.
From S2P Require Import IpaNatEntry.
From S2P Require Import IpaNatDrv.
From S2P Require Import IpaNatCalls.
From S2P Require Import IpaNatSpec.
From S2P Require Import IpaNatApi.
From S2P Require Import IpaNatRefine.
From S2P Require Import IpaNatMap.
From S2P Require Import IpaNatSm.
From S2P Require Import IpaNatSmRun.

(** The memory of a subscript and the other one. *)
Definition mem_of (sub : mem_sub) : Z :=
  match sub with DDR_SUB => IPA_NAT_MEM_IN_DDR | SRAM_SUB => IPA_NAT_MEM_IN_SRAM end.
Definition other (sub : mem_sub) : mem_sub :=
  match sub with DDR_SUB => SRAM_SUB | SRAM_SUB => DDR_SUB end.
Definition hdl_of (sub : mem_sub) : Z := MAKE_TBL_HDL 1 (mem_of sub).

Lemma mem_valid sub : valid_mem (mem_of sub).
Proof. destruct sub; [left|right]; reflexivity. Qed.
Lemma mem_other sub : mem_of (other sub) <> mem_of sub.
Proof. now destruct sub. Qed.
Lemma other_other sub : other (other sub) = sub.
Proof. now destruct sub. Qed.
Lemma other_ne sub : other sub <> sub.
Proof. now destruct sub. Qed.

(** ** Rules *)

(** A rule the library accepts, with the public addresses [pd]. *)
Definition rule_ok (pd : list ipa_nat_pdn_entry) (u : ipa_nat_ipv4_rule) : Prop :=
  rule_typed u /\ u_protocol u <> IPAHAL_NAT_INVALID_PROTOCOL /\
  exists p, zlookup pd (u_pdn_index u) = Some p /\ public_ip p <> 0.

(** Every rule of the tables was made from an accepted one. *)
Definition made (pd : list ipa_nat_pdn_entry) (x : ipa_nat_ip4_table_cache) : Prop :=
  forall h v, client x h = Some v -> exists u, rule_ok pd u /\ v = rule_of pd u.

Lemma clear_fields_ok pd u : rule_ok pd u -> rule_ok pd (clear_fields u).
Proof.
  intros (Hu & Hp & Hpd). split; [|split; [exact Hp|exact Hpd]].
  unfold rule_typed in *. cbn. lia.
Qed.

(** The rule read back from a record is the rule the record was made from,
    up to what the record does not hold. *)
Lemma record_rule_typed e : rule_typed (record_rule e).
Proof.
  assert (H : forall f n, field_ok f = true -> f_width f <= n -> 0 <= fget f e < 2 ^ n).
  { intros f n Hf Hn. pose proof (fget_range f e Hf).
    pose proof (Z.pow_le_mono_r 2 (f_width f) n). lia. }
  unfold rule_typed, record_rule. cbn -[Z.pow]. repeat match goal with |- (_ <= _ < _) /\ _ => split end;
    apply H; (reflexivity || (cbn; lia)).
Qed.

Lemma negb_b2z b : negb (Z.b2z b =? 0) = b.
Proof. now destruct b. Qed.

Lemma record_rule_ok pd u e :
  rule_ok pd u -> set_indx 0 (nat_read e) = rule_of pd u ->
  rule_ok pd (record_rule e) /\ rule_of pd (record_rule e) = rule_of pd u.
Proof.
  intros (Hu & Hp & Hpd) He.
  assert (F : forall A (f : nat_view -> A), f (set_indx 0 (nat_read e)) = f (rule_of pd u))
    by (intros; now rewrite He).
  pose proof (F _ v_private_ip : fget private_ip e = u_private_ip u) as E1.
  pose proof (F _ v_target_ip : fget target_ip e = u_target_ip u) as E2.
  pose proof (F _ v_public_port : fget public_port e = u_public_port u) as E3.
  pose proof (F _ v_private_port : fget private_port e = u_private_port u) as E4.
  pose proof (F _ v_target_port : fget target_port e = u_target_port u) as E5.
  pose proof (F _ v_uc : fget uc_activation_index e = u_uc_activation_index u mod 2 ^ 13) as E6.
  pose proof (F _ v_s : fget s_bit e = Z.b2z (u_s u)) as E7.
  pose proof (F _ v_time_stamp : fget time_stamp e = u_time_stamp u mod 2 ^ 24) as E8.
  pose proof (F _ v_protocol : fget protocol e = u_protocol u) as E9.
  pose proof (F _ v_dst_only : fget dst_only e = Z.b2z (u_dst_only u)) as E10.
  pose proof (F _ v_src_only : fget src_only e = Z.b2z (u_src_only u)) as E11.
  pose proof (F _ v_ucp : fget ucp e = Z.b2z (u_ucp u)) as E12.
  pose proof (F _ v_pdn : fget pdn_index e = u_pdn_index u) as E13.
  assert (Hr : rule_of pd (record_rule e) = rule_of pd u).
  { unfold rule_of, nat_wanted, record_rule.
    cbn [u_target_ip u_private_ip u_target_port u_private_port u_public_port u_protocol u_pdn_index
      u_time_stamp u_uc_activation_index u_s u_ucp u_dst_only u_src_only].
    rewrite E1, E2, E3, E4, E5, E6, E7, E8, E9, E10, E11, E12, E13, !negb_b2z.
    now rewrite !Z.mod_mod by done. }
  split; [|exact Hr]. split; [apply record_rule_typed|].
  unfold record_rule. cbn [u_protocol u_pdn_index]. rewrite E9, E13. split; assumption.
Qed.

(** ** The library's calls, on the client's handles *)
Section Calls.
Context {ENV : nat_env} {HWS : IpaHwSpec}.

Lemma open_caches m st st' x :
  nat_open m st x -> zlookup (ipv4_nat_cache st') m = zlookup (ipv4_nat_cache st) m ->
  pdns st' = pdns st -> nat_open m st' x.
Proof.
  intros [c d ch chi Hc Hd Hx Hcnt Hcm Hv Hnm OK Hpd] H1 H2.
  apply (NatOpen _ _ _ c d ch chi); congruence.
Qed.

Lemma open_rest m m' st st' x : nat_open m st x -> rest_same m' st st' -> m <> m' -> nat_open m st' x.
Proof. intros O (H1 & _ & _ & _ & H2) Hm. apply (open_caches m st); auto. Qed.

Lemma open_nat_ok m st x : nat_open m st x -> exists ch chi, nat_ok x ch chi.
Proof. intros [c d ch chi _ _ _ _ _ _ _ OK _]. eauto. Qed.

Lemma client_handle m st x i :
  nat_open m st x -> 0 <= i < tot (table x) -> client x (MakeEntryHdl (table x) i) = rules x i.
Proof.
  intros O Hi. destruct (open_nat_ok m st x O) as (ch & chi & OK).
  assert (Hh : index_of_handle (table x) (MakeEntryHdl (table x) i) = Some i).
  { apply index_of_handle_Some. exists 0, (Some i). split; [|done]. now apply (nat_handle x ch chi). }
  unfold client. now rewrite Hh.
Qed.

(** A rule's handle is that of a record in use. *)
Lemma client_record m st x h v :
  nat_open m st x -> client x h = Some v ->
  exists i, 0 <= i < tot (table x) /\ h = MakeEntryHdl (table x) i /\ rules x i = Some v.
Proof.
  intros O Hc. destruct (open_nat_ok m st x O) as (ch & chi & OK).
  destruct (client_live x h v Hc) as (i & w & Hg & Hih & Hw & ->).
  apply index_of_handle_Some in Hih as (_ & _ & _ & <-).
  destruct (live_read _ i w Hw) as (e & He & _). apply zlookup_lt in He.
  pose proof (g_len _ _ _ _ (ok_geom _ _ _ _ _ (mk_tbl _ _ _ _ _ (n_tbl _ _ _ OK)))) as Hl.
  rewrite Hl in He. exists i. split; [exact He|]. split; [done|]. unfold rules. now rewrite Hw.
Qed.

Lemma nat_add_client m st x u h0 :
  valid_mem m -> nat_open m st x -> hw_focus st = Some m -> rule_ok (pdns st) u ->
  env_lock = true -> env_unlock = true ->
  exists ret h st' x',
    ipa_NATI_add_ipv4_rule st (MAKE_TBL_HDL 1 m) (Some u) (Some h0) = Done (ret, Some h, st') /\
    nat_open m st' x' /\ rest_same m st st' /\
    (ret = 0 /\ client x h = None /\
       (forall k, client x' k = upd (client x) h (Some (rule_of (pdns st) u)) k) \/
     ret <> 0 /\ h = 0 /\ forall k, client x' k = client x k).
Proof.
  intros Hm O Hf (Hu & Hp & p & Hpn & Hip) Hl Hul.
  destruct (nat_add_open m st x u h0 p Hm O Hf Hu Hp Hpn Hip Hl)
    as (d & c & _ & _ & r & h & st' & x' & Hc & O' & Hrest & Hs & Hr).
  exists r, h, st', x'. split; [exact Hc|]. split; [exact O'|]. split; [exact Hrest|].
  destruct Hr as [[-> (i & Hh & Hg & _ & Hfree & Hru & _)]|[(_ & Hx & _)|(-> & Hru & Hwhy)]].
  - left. split; [done|].
    assert (Hih : index_of_handle (table x) h = Some i).
    { rewrite <- (index_of_handle_shape _ _ h (proj1 Hs)). apply index_of_handle_Some. eauto. }
    split; [unfold client; now rewrite Hih|]. exact (client_upd x x' h i _ Hs Hih Hru).
  - congruence.
  - right. split_and!; [destruct Hwhy as [->|[-> _]]; done|done|].
    exact (client_same x x' Hs Hru).
Qed.

Lemma nat_del_client m st x h v :
  valid_mem m -> nat_open m st x -> hw_focus st = Some m -> env_lock = true -> env_unlock = true ->
  client x h = Some v ->
  exists ret st', ipa_NATI_del_ipv4_rule st (MAKE_TBL_HDL 1 m) h = Done (ret, st') /\
    (ret = 0 -> exists x', nat_open m st' x' /\ rest_same m st st' /\
       forall k, client x' k = upd (client x) h None k).
Proof.
  intros Hm O Hf Hl Hul Hv. destruct (client_live x h v Hv) as (i & w & Hg & Hih & Hw & _).
  destruct (nat_del_open m st x h i w Hm O Hf Hl Hg Hw) as (r & s & x' & Hd & Hr).
  exists r, s. split; [exact Hd|]. unfold after_unlock in Hr. rewrite Hul in Hr. intros ->.
  destruct Hr as [(_ & O' & Hrest & Hs & Hru)|(Hx & _)]; [|discriminate Hx].
  exists x'. split; [exact O'|]. split; [exact Hrest|]. exact (client_upd x x' h i None Hs Hih Hru).
Qed.

Lemma nat_clear_client m st x :
  valid_mem m -> nat_open m st x -> env_lock = true -> env_unlock = true ->
  exists st' x', ipa_NATI_clear_ipv4_tbl st (MAKE_TBL_HDL 1 m) = Done (0, st') /\
    nat_open m st' x' /\ rest_same m st st' /\ forall h, client x' h = None.
Proof.
  intros Hm O Hl Hul. destruct (nat_clear_open m st x Hm O Hl) as (s & x' & Hc & O' & Hrest & _ & Hru).
  unfold after_unlock in Hc. rewrite Hul in Hc. exists s, x'. split_and!; try done; try apply Hrest.
  intros h. unfold client. destruct (index_of_handle _ _); [apply Hru|done].
Qed.

(** Turning the hardware to a memory. *)
Lemma nat_goto_open m st x :
  valid_mem m -> nat_open m st x -> env_lock = true -> env_unlock = true ->
  (forall i, init_focus_change i = true -> env_init i = 0) ->
  ipa_NATI_post_ipv4_init_cmd st (MAKE_TBL_HDL 1 m) =
    Done (0, set_active (Some m) (set_focus (Some m) st)).
Proof.
  intros Hm [c d ch chi Hc Hd Hx Hcnt Hcm Hv Hnm OK Hpd] Hl Hul Hi.
  unfold ipa_NATI_post_ipv4_init_cmd. rewrite (break_handle m Hm), (proj1 (valid_mem_ok m Hm)).
  cbn [negb]. unfold get_cache. rewrite Hc. cbn [mbind exec_bind deref].
  rewrite Hl, Hcnt. cbn [negb Z.eqb]. unfold get_tbl. rewrite Hx.
  change (zlookup [x] (1 - 1)) with (Some x). cbn [mbind exec_bind deref]. rewrite Hd.
  cbn [mbind exec_bind deref]. unfold ipa_nati_post_ipv4_init_cmd. rewrite Hi by done.
  cbn [Z.eqb negb]. unfold after_unlock. now rewrite Hul.
Qed.

(** A vote, when SRAM's device is open. *)
Lemma nat_vote_open st x v :
  nat_open IPA_NAT_MEM_IN_SRAM st x -> 0 <= v <= 2 ->
  ipa_nat_vote_clock st v = Done (env_vote v, st).
Proof.
  intros [c d ch chi Hc Hd Hx Hcnt Hcm Hv Hnm OK Hpd] Hr. unfold ipa_nat_vote_clock.
  unfold IPA_APP_CLK_DEVOTE, IPA_APP_CLK_RESET_VOTE. rewrite !Z.geb_leb.
  rewrite (proj2 (Z.leb_le 0 v)), (proj2 (Z.leb_le v 2)) by lia. cbn [negb andb].
  unfold ipa_nati_vote_clock, open_sram, get_cache. rewrite Hc. cbn [mbind exec_bind deref]. rewrite Hd.
  assert (Hs : set_desc (Some d) c = c) by (destruct c; cbn in *; now subst). rewrite Hs.
  unfold set_cache. rewrite zstore_ok by exact (zlookup_lt _ _ _ Hc). cbn [mbind exec_bind].
  assert (Hl : zinsert IPA_NAT_MEM_IN_SRAM c (ipv4_nat_cache st) = ipv4_nat_cache st).
  { unfold zinsert, zlookup in *. destruct (0 <=? _); [now apply list_insert_id|done]. }
  rewrite Hl. now destruct st.
Qed.

(** Walking the rules. *)
Lemma nat_walk_open {T} m st x (cb : walk_cb T) s :
  valid_mem m -> nat_open m st x -> env_lock = true -> env_unlock = true ->
  ipa_NATI_walk_ipv4_tbl st (MAKE_TBL_HDL 1 m) USE_NAT_TABLE (Some cb) s =
    Done (visit (table x) cb
            (selection (U := nat_user) (table x) WHEN_SLOT_FILLED 0) s).
Proof.
  intros Hm O Hl Hul. destruct (open_nat_ok m st x O) as (ch & chi & OK).
  destruct O as [c d _ _ Hc Hd Hx Hcnt Hcm Hv Hnm _ Hpd].
  unfold ipa_NATI_walk_ipv4_tbl. rewrite (valid_handle m Hm), (break_handle m Hm), Hl.
  change (VALID_WHICHTBL2USE USE_NAT_TABLE) with true. cbn [negb orb].
  rewrite (proj1 (valid_mem_ok m Hm)). cbn [negb]. unfold get_cache. rewrite Hc.
  cbn [mbind exec_bind deref]. rewrite Hcnt. cbn [Z.eqb]. unfold get_tbl. rewrite Hx.
  change (zlookup [x] (1 - 1)) with (Some x). cbn [mbind exec_bind deref].
  change (USE_NAT_TABLE =? USE_NAT_TABLE) with true. cbn iota.
  pose proof (ok_geom _ _ _ _ _ (mk_tbl _ _ _ _ _ (n_tbl _ _ _ OK))) as G.
  pose proof (g_base _ _ _ _ G). pose proof (g_expn _ _ _ _ G).
  pose proof (g_max _ _ _ _ G) as Hmax. unfold tot in Hmax.
  rewrite walk_ok; [|exact (g_len _ _ _ _ G)|lia..].
  cbn [mbind exec_bind]. unfold after_unlock. rewrite Hul. now destruct (visit _ _ _ _).
Qed.
End Calls.

(** ** The maps of handles *)

(** The two maps of a memory are inverse to each other, and every handle of
    the library they know is that of a rule. *)
Record maps_ok (a : map_array) (sub : mem_sub) (x : ipa_nat_ip4_table_cache) : Prop := {
  mo_inv : forall o n, get_map (o2n sub) a !! o = Some n <-> get_map (n2o sub) a !! n = Some o;
  mo_live : forall n o, get_map (n2o sub) a !! n = Some o -> client x n <> None }.

(** The rules under the handles the client was given. *)
Definition view (a : map_array) (sub : mem_sub) (x : ipa_nat_ip4_table_cache) : rule_map := fun o =>
  match get_map (o2n sub) a !! o with Some n => client x n | None => None end.

Definition put_pair (sub : mem_sub) (o n : Z) (a : map_array) : map_array :=
  let a := set_map (o2n sub) (<[o := n]> (get_map (o2n sub) a)) a in
  set_map (n2o sub) (<[n := o]> (get_map (n2o sub) a)) a.
Definition drop_pair (sub : mem_sub) (o n : Z) (a : map_array) : map_array :=
  let a := set_map (o2n sub) (delete o (get_map (o2n sub) a)) a in
  set_map (n2o sub) (delete n (get_map (n2o sub) a)) a.

Lemma n2o_o2n s s' : n2o s <> o2n s'.
Proof. now destruct s, s'. Qed.
Create HintDb map_ne.
#[local] Hint Resolve n2o_o2n o2n_n2o : map_ne.
#[local] Hint Rewrite get_set_map_ne using (solve [auto with map_ne]) : nat_map.

Lemma put_pair_maps sub o n a :
  get_map (o2n sub) (put_pair sub o n a) = <[o := n]> (get_map (o2n sub) a) /\
  get_map (n2o sub) (put_pair sub o n a) = <[n := o]> (get_map (n2o sub) a).
Proof. unfold put_pair. now autorewrite with nat_map. Qed.
Lemma drop_pair_maps sub o n a :
  get_map (o2n sub) (drop_pair sub o n a) = delete o (get_map (o2n sub) a) /\
  get_map (n2o sub) (drop_pair sub o n a) = delete n (get_map (n2o sub) a).
Proof. unfold drop_pair. now autorewrite with nat_map. Qed.

(** The maps of the other memory. *)
Definition same_maps (sub : mem_sub) (a a' : map_array) : Prop :=
  get_map (o2n sub) a' = get_map (o2n sub) a /\ get_map (n2o sub) a' = get_map (n2o sub) a.

Lemma put_pair_other sub o n a : same_maps (other sub) a (put_pair sub o n a).
Proof. now destruct sub. Qed.

Section Maps.
Context (a : map_array) (sub : mem_sub) (x x' : ipa_nat_ip4_table_cache).

Lemma maps_same : maps_ok a sub x -> (forall k, client x' k = client x k) ->
  maps_ok a sub x' /\ forall k, view a sub x' k = view a sub x k.
Proof.
  intros [Hi Hl] Hc. split; [split; [exact Hi|]|].
  - intros n o Hn. rewrite Hc. eauto.
  - intros k. unfold view. case_match; auto.
Qed.

Lemma map_added o n v : maps_ok a sub x -> client x n = None ->
  (forall k, client x' k = upd (client x) n (Some v) k) -> get_map (o2n sub) a !! o = None ->
  exists a1, ipa_nat_map_add a (o2n sub) o n = (0, a1) /\
    ipa_nat_map_add a1 (n2o sub) n o = (0, put_pair sub o n a) /\
    maps_ok (put_pair sub o n a) sub x' /\
    forall k, view (put_pair sub o n a) sub x' k = upd (view a sub x) o (Some v) k.
Proof.
  intros [Hi Hl] Hn Hc Ho. destruct (put_pair_maps sub o n a) as [E1 E2].
  assert (Hno : get_map (n2o sub) a !! n = None).
  { destruct (get_map (n2o sub) a !! n) eqn:E; [|done]. now apply Hl in E. }
  unfold ipa_nat_map_add at 1. rewrite Ho. eexists. split; [reflexivity|].
  split; [unfold ipa_nat_map_add, put_pair; autorewrite with nat_map; now rewrite Hno|].
  split; [split|].
  - intros o' n'. rewrite E1, E2, !lookup_insert_Some, <- Hi. split.
    + intros [[<- <-]|[Hne H]]; [now left|]. right. split; [|done]. intros <-.
      apply Hi in H. congruence.
    + intros [[<- <-]|[Hne H]]; [now left|]. right. split; [|done]. intros <-. congruence.
  - intros n' o'. rewrite E2, lookup_insert_Some, Hc. intros [[<- _]|[Hne H]].
    + now rewrite upd_eq.
    + rewrite upd_ne by congruence. eauto.
  - intros k. unfold view. rewrite E1. destruct (Z.eq_dec k o) as [->|Hk].
    + now rewrite lookup_insert_eq, Hc, !upd_eq.
    + rewrite lookup_insert_ne, upd_ne by auto. destruct (get_map (o2n sub) a !! k) as [n'|] eqn:E; [|done].
      rewrite Hc, upd_ne; [done|]. intros ->. apply Hi in E. congruence.
Qed.

(** The handle is the client's for another rule. *)
Lemma map_taken o n v : maps_ok a sub x -> client x n = None ->
  (forall k, client x' k = upd (client x) n (Some v) k) -> is_Some (get_map (o2n sub) a !! o) ->
  ipa_nat_map_add a (o2n sub) o n = (-1, a) /\ maps_ok a sub x' /\
  forall k, view a sub x' k = view a sub x k.
Proof.
  intros [Hi Hl] Hn Hc [n0 Ho].
  assert (Hk : forall k, get_map (n2o sub) a !! k <> None -> client x' k = client x k).
  { intros k Hk. rewrite Hc. apply upd_ne. intros ->.
    destruct (get_map (n2o sub) a !! n) eqn:E; [|done]. now apply Hl in E. }
  split; [unfold ipa_nat_map_add; now rewrite Ho|]. split; [split; [exact Hi|]|].
  - intros k o' H. rewrite Hk by congruence. eauto.
  - intros k. unfold view. destruct (get_map (o2n sub) a !! k) eqn:E; [|done].
    apply Hk. apply Hi in E. congruence.
Qed.

Lemma map_deleted o n : maps_ok a sub x -> get_map (o2n sub) a !! o = Some n ->
  exists a1 w, ipa_nat_map_del a (o2n sub) o 0 = (0, n, a1) /\
    ipa_nat_map_del a1 (n2o sub) n 0 = (0, w, drop_pair sub o n a) /\
    ((forall k, client x' k = upd (client x) n None k) ->
     maps_ok (drop_pair sub o n a) sub x' /\
     forall k, view (drop_pair sub o n a) sub x' k = upd (view a sub x) o None k).
Proof.
  intros [Hi Hl] Ho. destruct (drop_pair_maps sub o n a) as [E1 E2].
  pose proof (proj1 (Hi o n) Ho) as Hn.
  unfold ipa_nat_map_del at 1. rewrite Ho. do 2 eexists. split; [reflexivity|].
  split; [unfold ipa_nat_map_del, drop_pair; autorewrite with nat_map; rewrite Hn; reflexivity|].
  intros Hc. split; [split|].
  - intros o' n'. rewrite E1, E2, !lookup_delete_Some, <- Hi. split; intros [Hne H]; (split; [|done]).
    + intros <-. apply Hi in H. congruence.
    + intros <-. congruence.
  - intros n' o'. rewrite E2, lookup_delete_Some, Hc. intros [Hne H]. rewrite upd_ne by congruence. eauto.
  - intros k. unfold view. rewrite E1. destruct (Z.eq_dec k o) as [->|Hk].
    + now rewrite lookup_delete_eq, upd_eq.
    + rewrite lookup_delete_ne, upd_ne by auto. destruct (get_map (o2n sub) a !! k) as [n'|] eqn:E; [|done].
      rewrite Hc, upd_ne; [done|]. intros ->. apply Hi in E. congruence.
Qed.
End Maps.

(** ** The hybrid states *)
Section Hybrid.
Context {ENV : sm_env} {HWS : IpaHwSpec}.

(** Locks, votes and switches of the hardware's focus succeed. *)
Record sm_ready : Prop := {
  rd_lock : env_lock = true;
  rd_unlock : env_unlock = true;
  rd_vote : env_vote IPA_APP_CLK_VOTE = 0;
  rd_focus : forall i, init_focus_change i = true -> env_init i = 0 }.

Definition hybrid_state (sub : mem_sub) : ipa_nati_state :=
  match sub with SRAM_SUB => NATI_STATE_HYBRID | DDR_SUB => NATI_STATE_HYBRID_DDR end.

(** Both tables exist; [x] is the one in use, [y] the other. *)
Record hybrid (pd : list ipa_nat_pdn_entry) (sub : mem_sub) (s : sm_state)
    (x y : ipa_nat_ip4_table_cache) : Prop := {
  hy_mutex : has_mutex s;
  hy_state : curr_state (nati_obj s) = hybrid_state sub;
  hy_ddr : ddr_tbl_hdl (nati_obj s) = hdl_of DDR_SUB;
  hy_sram : sram_tbl_hdl (nati_obj s) = hdl_of SRAM_SUB;
  hy_x : nat_open (mem_of sub) (sm_nat s) x;
  hy_y : nat_open (mem_of (other sub)) (sm_nat s) y;
  hy_focus : hw_focus (sm_nat s) = Some (mem_of sub);
  hy_pd : pdns (sm_nat s) = pd;
  hy_made : made pd x;
  hy_maps : maps_ok (sm_maps s) sub x }.

Lemma hybrid_sram pd sub s x y : hybrid pd sub s x y ->
  exists z, nat_open IPA_NAT_MEM_IN_SRAM (sm_nat s) z.
Proof. intros H. destruct sub; [exists y; exact (hy_y _ _ _ _ _ H)|exists x; exact (hy_x _ _ _ _ _ H)]. Qed.

Lemma hybrid_handle pd sub s x y : hybrid pd sub s x y -> hybrid_hdl s (hdl_of SRAM_SUB) = hdl_of sub.
Proof.
  intros H. unfold hybrid_hdl. rewrite (hy_state _ _ _ _ _ H), (hy_ddr _ _ _ _ _ H). now destruct sub.
Qed.

Lemma hybrid_choose pd sub s x y : hybrid pd sub s x y -> CHOOSE_MEM_SUB (nati_obj s) = sub.
Proof. intros H. unfold CHOOSE_MEM_SUB. rewrite (hy_state _ _ _ _ _ H). now destruct sub. Qed.

(** What the object keeps when only counters change. *)
Definition same_obj (o o' : ipa_nati_obj) : Prop := set_tot (Two 0 0) o' = set_tot (Two 0 0) o.
#[global] Instance same_obj_equiv : Equivalence same_obj.
Proof.
  split; unfold same_obj; [intros o; done|intros o o' H; done|intros o1 o2 o3 H H'; congruence].
Qed.

Lemma same_obj_fields o o' : same_obj o o' ->
  curr_state o' = curr_state o /\ ddr_tbl_hdl o' = ddr_tbl_hdl o /\ sram_tbl_hdl o' = sram_tbl_hdl o /\
  hold_state o' = hold_state o /\ sw_stats o' = sw_stats o.
Proof.
  intros H. split_and!.
  - exact (f_equal curr_state H).
  - exact (f_equal ddr_tbl_hdl H).
  - exact (f_equal sram_tbl_hdl H).
  - exact (f_equal hold_state H).
  - exact (f_equal sw_stats H).
Qed.

Lemma set_nat_id s : set_nat (sm_nat s) s = s.
Proof. now destruct s. Qed.

(** A run of the machine is its callback, with SRAM's device open. *)
Lemma body_runs R s t args r args' s' z z' :
  sm_ready -> has_mutex s -> nat_open IPA_NAT_MEM_IN_SRAM (sm_nat s) z ->
  _state_mach_tbl R (curr_state (nati_obj s)) t s t args = Done (r, args', s') ->
  has_mutex s' -> nat_open IPA_NAT_MEM_IN_SRAM (sm_nat s') z' ->
  statemach_body R s t args = Done (0, args', s').
Proof.
  intros [Hl Hu Hv _] Hm O Hc Hm' O'.
  assert (Hw : mutex_works s) by (split; [done|]; split; [done|]; congruence).
  unfold statemach_body, take_mutex, lock_result. rewrite Hm, Hl. cbn [Z.eqb negb].
  assert (Hvote : forall b : bool, (if b then ipa_nat_vote_clock (sm_nat s) IPA_APP_CLK_VOTE
                             else Done (0, sm_nat s)) = Done (0, sm_nat s)).
  { intros []; [|done]. rewrite (nat_vote_open _ z) by (done || (unfold IPA_APP_CLK_VOTE; lia)).
    now rewrite Hv. }
  rewrite Hvote. cbn [mbind exec_bind fst snd Z.eqb negb]. rewrite set_nat_id, Hc.
  cbn [mbind exec_bind].
  assert (Hdev : forall b : bool, exists d, (if b then ipa_nat_vote_clock (sm_nat s') IPA_APP_CLK_DEVOTE
                             else Done (0, sm_nat s')) = Done (d, sm_nat s')).
  { intros []; [|eauto]. rewrite (nat_vote_open _ z') by (done || (unfold IPA_APP_CLK_DEVOTE; lia)).
    eauto. }
  destruct (Hdev (VOTE_REQUIRED (nati_obj s) t)) as [d ->]. cbn [mbind exec_bind snd].
  now rewrite set_nat_id, (give_mutex_works s).
Qed.
End Hybrid.
