(* ===== verification/IpaNatSmMove.v ===== *)
(** The migration of the rules of the hybrid states from one memory to the
    other: what the walk over the old table has moved so far, and what a
    switch leaves behind. *)
From stdpp Require Import gmap.
From S2P Require Import Prelude.
From S2P Require Import Bits.
From S2P Require Import Chains.
From S2P Require Import IpaTable.
From S2P Require Import IpaTableSize.
From S2P Require Import IpaMemDesc.
From S2P Require Import IpaDma.
From S2P Require Import IpaTableWalk.
From S2P Require Import IpaTableWf.
From S2P Require Import IpaTableMark.
From S2P Require Import IpaTableInit.
From S2P Require Import IpaNatEntry.
From S2P Require Import IpaNatDrv.
From S2P Require Import IpaNatCalls.
From S2P Require Import IpaNatSpec.
From S2P Require Import IpaNatApi.
From S2P Require Import IpaNatRefine.
From S2P Require Import IpaNatMap.
From S2P Require Import IpaNatSm.
From S2P Require Import IpaNatSmRun.
From S2P Require Import IpaNatSmSpec.

Section Move.
Context {ENV : sm_env} {HWS : IpaHwSpec}.
Context (RD : sm_ready) (pd : list ipa_nat_pdn_entry).

(** The walk over [x], the table of the memory other than [dst], started in
    [s0]; it has reached [s], where the new table is [z], and has moved the
    rules at the records [done]. *)
Record moved (dst : mem_sub) (x : ipa_nat_ip4_table_cache) (s0 s : sm_state)
    (z : ipa_nat_ip4_table_cache) (done : list Z) : Prop := {
  mv_mutex : has_mutex s;
  mv_obj : same_obj (nati_obj s0) (nati_obj s);
  mv_x : nat_open (mem_of (other dst)) (sm_nat s) x;
  mv_z : nat_open (mem_of dst) (sm_nat s) z;
  mv_focus : hw_focus (sm_nat s) = Some (mem_of dst);
  mv_pd : pdns (sm_nat s) = pd;
  mv_made : made pd z;
  mv_src : same_maps (other dst) (sm_maps s0) (sm_maps s);
  mv_maps : maps_ok (sm_maps s) dst z;
  mv_done : forall i, i ∈ done -> 0 <= i < tot (table x);
  mv_sub : forall o n, get_map (o2n dst) (sm_maps s) !! o = Some n ->
    exists i, i ∈ done /\ get_map (n2o (other dst)) (sm_maps s0) !! MakeEntryHdl (table x) i = Some o /\
      client z n = rules x i;
  mv_all : forall i v, i ∈ done -> rules x i = Some v ->
    exists o, get_map (n2o (other dst)) (sm_maps s0) !! MakeEntryHdl (table x) i = Some o /\
      is_Some (get_map (o2n dst) (sm_maps s) !! o) }.

Section Steps.
Context (dst : mem_sub) (x : ipa_nat_ip4_table_cache) (s0 : sm_state).
Context (Hx : made pd x) (Hmaps : maps_ok (sm_maps s0) (other dst) x).

(** A record passed over, for it holds no rule. *)
Lemma moved_skip s z done i :
  moved dst x s0 s z done -> 0 <= i < tot (table x) -> rules x i = None ->
  moved dst x s0 s z (i :: done).
Proof.
  intros [] Hr Hi. split; try assumption.
  - intros k Hk. apply elem_of_cons in Hk as [->|Hk]; auto.
  - intros o n Ho. destruct (mv_sub0 o n Ho) as (k & Hk & H). exists k. split; [now right|exact H].
  - intros k v Hk Hv. apply elem_of_cons in Hk as [->|Hk]; [congruence|eauto].
Qed.

(** What a record in use says. *)
Lemma record_cases st m i :
  nat_open m st x -> selected (U := nat_user) (table x) WHEN_SLOT_FILLED i = true ->
  exists e, load_rec (table x) (Some i) = Done e /\ 0 <= i < tot (table x) /\
    ((fget protocol e =? IPAHAL_NAT_INVALID_PROTOCOL) = true /\ rules x i = None \/
     (fget protocol e =? IPAHAL_NAT_INVALID_PROTOCOL) = false /\
       rules x i = Some (set_indx 0 (nat_read e))).
Proof.
  intros O. unfold selected. destruct (zlookup (recs (table x)) i) as [e|] eqn:E; [|done]. intros Hv.
  destruct (open_nat_ok m st x O) as (ch & chi & OK).
  pose proof (g_len _ _ _ _ (ok_geom _ _ _ _ _ (mk_tbl _ _ _ _ _ (n_tbl _ _ _ OK)))) as Hl.
  exists e. split; [unfold load_rec; cbn [mbind exec_bind deref]; now rewrite E|].
  split; [apply zlookup_lt in E; lia|].
  assert (Hc : content (U := nat_user) (table x) i = Some (nat_read e)).
  { unfold content, rview. rewrite E. now rewrite Hv. }
  unfold rules, live, IpaTableMark.live. rewrite Hc. cbn [lw_dead nat_dead_laws]. unfold dead.
  change (v_protocol (nat_read e)) with (fget protocol e).
  destruct (fget protocol e =? _); [now left|now right].
Qed.

Lemma handle_inj st m i k :
  nat_open m st x -> 0 <= i < tot (table x) -> 0 <= k < tot (table x) ->
  MakeEntryHdl (table x) k = MakeEntryHdl (table x) i -> k = i.
Proof.
  intros O Hi Hk E. destruct (open_nat_ok m st x O) as (ch & chi & OK).
  pose proof (nat_handle x ch chi k OK Hk) as H. rewrite E, (nat_handle x ch chi i OK Hi) in H.
  congruence.
Qed.

(** No rule is moved twice. *)
Lemma moved_fresh s z done i o :
  moved dst x s0 s z done -> i ∉ done -> 0 <= i < tot (table x) ->
  get_map (n2o (other dst)) (sm_maps s0) !! MakeEntryHdl (table x) i = Some o ->
  get_map (o2n dst) (sm_maps s) !! o = None.
Proof.
  intros M Hi Hr Ho. destruct (get_map (o2n dst) (sm_maps s) !! o) as [n|] eqn:En; [|done].
  destruct (mv_sub _ _ _ _ _ _ M o n En) as (k & Hk & Hko & _).
  destruct Hmaps as [Hinv _]. apply Hinv in Ho, Hko.
  assert (k = i) as ->; [|contradiction].
  apply (handle_inj _ _ i k (mv_x _ _ _ _ _ _ M)); [done|exact (mv_done _ _ _ _ _ _ M k Hk)|congruence].
Qed.

(** The object after the rule is counted and its handles are recorded. *)
Lemma moved_add s z done i o n v nat z' :
  moved dst x s0 s z done -> i ∉ done -> 0 <= i < tot (table x) -> rules x i = Some v ->
  (exists u, rule_ok pd u /\ v = rule_of pd u) ->
  get_map (n2o (other dst)) (sm_maps s0) !! MakeEntryHdl (table x) i = Some o ->
  nat_open (mem_of dst) nat z' -> rest_same (mem_of dst) (sm_nat s) nat -> client z n = None ->
  (forall k, client z' k = upd (client z) n (Some v) k) ->
  exists a1, ipa_nat_map_add (sm_maps s) (o2n dst) o n = (0, a1) /\
    ipa_nat_map_add a1 (n2o dst) n o = (0, put_pair dst o n (sm_maps s)) /\
    moved dst x s0 (set_maps (put_pair dst o n (sm_maps s)) (add_cnt dst 1 (set_nat nat s))) z'
      (i :: done).
Proof.
  intros M Hi Hr Hv Hu Ho O' Hrest Hn Hc.
  pose proof (moved_fresh s z done i o M Hi Hr Ho) as Hfresh.
  destruct M as [Hm Hobj Mx Mz Mf Mp Mm Ms Mmaps Md Msub Mall].
  destruct (map_added (sm_maps s) dst z z' o n v Mmaps Hn Hc Hfresh) as (a1 & H1 & H2 & H3 & _).
  exists a1. split; [exact H1|]. split; [exact H2|].
  destruct (put_pair_maps dst o n (sm_maps s)) as [E1 E2].
  destruct Hrest as (Hpd & Hnp & Hf & Ha & Hcs).
  split; cbn [nati_obj nat_mutex_init sm_maps sm_nat set_maps add_cnt on_obj set_obj set_nat].
  - exact Hm.
  - rewrite Hobj. now destruct (nati_obj s).
  - apply (open_caches _ (sm_nat s)); [done|apply Hcs; apply mem_other|exact Hpd].
  - exact O'.
  - congruence.
  - congruence.
  - intros h w. rewrite Hc. destruct (Z.eq_dec h n) as [->|Hne].
    + rewrite upd_eq. intros [= <-]. exact Hu.
    + rewrite upd_ne by done. apply Mm.
  - destruct Ms as [M1 M2], (put_pair_other dst o n (sm_maps s)) as [P1 P2].
    split; [now rewrite P1|now rewrite P2].
  - exact H3.
  - intros k Hk. apply elem_of_cons in Hk as [->|Hk]; auto.
  - intros o' n'. rewrite E1, lookup_insert_Some. intros [[<- <-]|[Hne H]].
    + exists i. split; [now left|]. split; [exact Ho|]. now rewrite Hc, upd_eq.
    + destruct (Msub o' n' H) as (k & Hk & Hko & Hkn). exists k. split; [now right|].
      split; [exact Hko|]. rewrite Hc, upd_ne; [exact Hkn|]. intros ->.
      apply (mo_inv _ _ _ Mmaps) in H. exact (mo_live _ _ _ Mmaps _ _ H Hn).
  - intros k w Hk Hw. rewrite E1. apply elem_of_cons in Hk as [->|Hk].
    + exists o. split; [exact Ho|]. rewrite lookup_insert_eq. eauto.
    + destruct (Mall k w Hk Hw) as (o' & Ho' & Hs). exists o'. split; [exact Ho'|].
      destruct (Z.eq_dec o o') as [<-|Hne]; [rewrite lookup_insert_eq; eauto|].
      now rewrite lookup_insert_ne.
Qed.

(** The new table refused the rule. *)
Lemma moved_refused s z done nat z' :
  moved dst x s0 s z done -> nat_open (mem_of dst) nat z' -> rest_same (mem_of dst) (sm_nat s) nat ->
  (forall k, client z' k = client z k) -> moved dst x s0 (set_nat nat s) z' done.
Proof.
  intros [Hm Hobj Mx Mz Mf Mp Mm Ms Mmaps Md Msub Mall] O' (Hpd & _ & Hf & _ & Hcs) Hc.
  split; cbn [nati_obj nat_mutex_init sm_maps sm_nat set_nat]; try assumption.
  - apply (open_caches _ (sm_nat s)); [done|apply Hcs; apply mem_other|exact Hpd].
  - congruence.
  - congruence.
  - intros h w. rewrite Hc. apply Mm.
  - exact (proj1 (maps_same _ _ _ _ Mmaps Hc)).
  - intros o n Ho. destruct (Msub o n Ho) as (k & Hk & Hko & Hkn). exists k. now rewrite Hc.
Qed.

(** One call of the callback. *)
Lemma migrate_step s z done i m :
  moved dst x s0 s z done -> i ∉ done ->
  selected (U := nat_user) (table x) WHEN_SLOT_FILLED i = true ->
  exists ret s' z', migrate_rule (hdl_of dst) (table x) (MakeEntryHdl (table x) i) (Some i) i m (Done s)
      = (ret, Done s') /\
    moved dst x s0 s' z' (if ret =? 0 then i :: done else done).
Proof.
  intros M Hi Hsel. destruct (record_cases _ _ i (mv_x _ _ _ _ _ _ M) Hsel) as (e & He & Hr & Hcase).
  assert (Hnmi : (if nmi (table x) =? IPA_NAT_MEM_IN_SRAM then (SRAM_SUB, DDR_SUB)
                  else (DDR_SUB, SRAM_SUB)) = (other dst, dst)).
  { destruct (mv_x _ _ _ _ _ _ M) as [? ? ? ? _ _ _ _ _ _ -> _ _]. now destruct dst. }
  unfold migrate_rule, migrate_one. cbn [mbind exec_bind]. rewrite Hnmi, He. cbn [mbind exec_bind].
  destruct Hcase as [[-> Hn]|[-> Hv]].
  { exists 0, s, z. split; [done|]. now apply moved_skip. }
  unfold ipa_nat_map_find. destruct (mv_src _ _ _ _ _ _ M) as [_ ->].
  destruct (get_map (n2o (other dst)) (sm_maps s0) !! MakeEntryHdl (table x) i) as [o|] eqn:Ho.
  2:{ exists (-1), s, z. split; [done|exact M]. }
  cbn [Z.eqb negb].
  assert (Hu : exists u, rule_ok pd u /\ set_indx 0 (nat_read e) = rule_of pd u).
  { apply (Hx (MakeEntryHdl (table x) i)). now rewrite (client_handle _ _ _ _ (mv_x _ _ _ _ _ _ M) Hr). }
  destruct Hu as (u & Hu & Hue). destruct (record_rule_ok pd u e Hu Hue) as [Hok Heq].
  destruct RD as [Hl Hul _ _]. pose proof (mv_pd _ _ _ _ _ _ M) as Hp. rewrite <- Hp in Hok.
  destruct (nat_add_client (mem_of dst) (sm_nat s) z (record_rule e) 0 (mem_valid dst)
    (mv_z _ _ _ _ _ _ M) (mv_focus _ _ _ _ _ _ M) Hok Hl Hul) as (ret & h & nat & z' & Hadd & O' & Hrest & Hres).
  unfold hdl_of. rewrite Hadd. cbn [mbind exec_bind].
  destruct Hres as [(-> & Hn & Hc)|(Hret & -> & Hc)].
  - cbn [Z.eqb negb deref mbind exec_bind]. rewrite Hp, Heq in Hc.
    destruct (moved_add s z done i o h (rule_of pd u) nat z' M Hi Hr) as (a1 & E1 & E2 & M'); try done.
    { now rewrite Hv, Hue. }
    { eauto. }
    cbn [sm_maps set_maps add_cnt on_obj set_obj set_nat]. rewrite E1. cbn [Z.eqb negb].
    cbn [sm_maps set_maps]. rewrite E2. eexists 0, _, z'. split; [reflexivity|exact M'].
  - rewrite (proj2 (Z.eqb_neq ret 0)) by done. cbn [negb]. eexists ret, _, z'. split; [reflexivity|].
    rewrite (proj2 (Z.eqb_neq ret 0)) by done. now apply (moved_refused s z).
Qed.

(** The walk over the records [l]. *)
Lemma migrate_visit l : forall s z done,
  moved dst x s0 s z done -> NoDup l ->
  (forall i, i ∈ l -> (i ∉ done) /\ selected (U := nat_user) (table x) WHEN_SLOT_FILLED i = true) ->
  exists ret s' z' done', visit (table x) (migrate_rule (hdl_of dst)) l (Done s) = (ret, Done s') /\
    moved dst x s0 s' z' done' /\ (ret = 0 -> forall i, i ∈ l \/ i ∈ done -> i ∈ done').
Proof.
  induction l as [|i l IH]; intros s z done M Hnd Hl.
  { exists 0, s, z, done. split_and!; try done. intros _ i [Hi|Hi]; [|done]. now apply elem_of_nil in Hi. }
  apply NoDup_cons in Hnd as [Hil Hnd]. destruct (Hl i ltac:(left)) as [Hid Hsel].
  destruct (migrate_step s z done i (meta_record (table x) i) M Hid Hsel) as (ret & s1 & z1 & Hs & M1).
  cbn [visit]. rewrite Hs. destruct (ret =? 0) eqn:E; zb; cbn [negb].
  2:{ exists ret, s1, z1, done. split_and!; done. }
  destruct (IH s1 z1 (i :: done) M1 Hnd) as (ret' & s2 & z2 & done' & Hv & M2 & Hall).
  { intros k Hk. destruct (Hl k ltac:(now right)) as [Hkd Hks]. split; [|exact Hks].
    intros [->|?]%elem_of_cons; contradiction. }
  exists ret', s2, z2, done'. split; [exact Hv|]. split; [exact M2|]. intros Hr k Hk. apply (Hall Hr).
  destruct Hk as [[->|Hk]%elem_of_cons|Hk]; [right; left|now left|right; now right].
Qed.

(** Every rule is at a record of the walk. *)
Lemma rules_selected st m i v :
  nat_open m st x -> rules x i = Some v -> i ∈ selection (U := nat_user) (table x) WHEN_SLOT_FILLED 0.
Proof.
  intros O Hv. destruct (open_nat_ok m st x O) as (ch & chi & OK).
  pose proof (g_len _ _ _ _ (ok_geom _ _ _ _ _ (mk_tbl _ _ _ _ _ (n_tbl _ _ _ OK)))) as Hl.
  unfold rules in Hv. destruct (live (table x) i) as [w|] eqn:Ew; [|done].
  destruct (live_read _ i w Ew) as (e & He & Hval & _). pose proof (zlookup_lt _ _ _ He) as Hi.
  unfold selection. apply list_elem_of_In, filter_In. split.
  - apply list_elem_of_In, elem_of_seqZ. unfold tot in Hl. lia.
  - unfold selected. now rewrite He.
Qed.

Lemma selection_facts :
  NoDup (selection (U := nat_user) (table x) WHEN_SLOT_FILLED 0) /\
  forall i, i ∈ selection (U := nat_user) (table x) WHEN_SLOT_FILLED 0 ->
    selected (U := nat_user) (table x) WHEN_SLOT_FILLED i = true.
Proof.
  unfold selection. split.
  - apply NoDup_ListNoDup, List.NoDup_filter, NoDup_ListNoDup, NoDup_seqZ.
  - intros i Hi. now apply list_elem_of_In, filter_In in Hi.
Qed.

(** What the client sees of the rules moved so far. *)
Lemma moved_view s z done :
  moved dst x s0 s z done ->
  (forall o v, view (sm_maps s) dst z o = Some v -> view (sm_maps s0) (other dst) x o = Some v) /\
  ((forall i v, rules x i = Some v -> i ∈ done) ->
   forall o, view (sm_maps s) dst z o = view (sm_maps s0) (other dst) x o).
Proof.
  intros M. pose proof (mv_x _ _ _ _ _ _ M) as Ox. destruct Hmaps as [Hinv Hlive].
  assert (Hsub : forall o v, view (sm_maps s) dst z o = Some v ->
                   view (sm_maps s0) (other dst) x o = Some v).
  { unfold view. intros o v. destruct (get_map (o2n dst) (sm_maps s) !! o) as [n|] eqn:En; [|done].
    destruct (mv_sub _ _ _ _ _ _ M o n En) as (i & Hi & Hio & ->). apply Hinv in Hio. rewrite Hio.
    now rewrite (client_handle _ _ _ _ Ox (mv_done _ _ _ _ _ _ M i Hi)). }
  split; [exact Hsub|]. intros Hall o. destruct (view (sm_maps s) dst z o) as [v|] eqn:Ev.
  { symmetry. now apply Hsub. }
  destruct (view (sm_maps s0) (other dst) x o) as [v|] eqn:Ev'; [exfalso|done].
  unfold view in Ev, Ev'. destruct (get_map (o2n (other dst)) (sm_maps s0) !! o) as [n|] eqn:En; [|done].
  destruct (client_record _ _ x n v Ox Ev') as (i & Hi & -> & Hv).
  destruct (mv_all _ _ _ _ _ _ M i v (Hall i v Hv) Hv) as (o' & Ho' & [n' Hn']).
  apply Hinv in En. assert (o' = o) as -> by congruence. rewrite Hn' in Ev.
  exact (mo_live _ _ _ (mv_maps _ _ _ _ _ _ M) n' o (proj1 (mo_inv _ _ _ (mv_maps _ _ _ _ _ _ M) o n') Hn') Ev).
Qed.
End Steps.

(** ** Copying all the rules *)
Lemma copy_rules_ok dst s x z :
  has_mutex s -> nat_open (mem_of (other dst)) (sm_nat s) x -> nat_open (mem_of dst) (sm_nat s) z ->
  hw_focus (sm_nat s) = Some (mem_of dst) -> pdns (sm_nat s) = pd -> made pd x ->
  maps_ok (sm_maps s) (other dst) x ->
  get_map (o2n dst) (sm_maps s) = ∅ -> get_map (n2o dst) (sm_maps s) = ∅ ->
  exists ret s' z' done, copy_rules (hdl_of (other dst)) (hdl_of dst) s = Done (ret, s') /\
    moved dst x s s' z' done /\
    (forall o v, view (sm_maps s') dst z' o = Some v -> view (sm_maps s) (other dst) x o = Some v) /\
    (ret = 0 -> forall o, view (sm_maps s') dst z' o = view (sm_maps s) (other dst) x o).
Proof.
  intros Hm Ox Oz Hf Hp Hmade Hmaps E1 E2. destruct RD as [Hl Hul _ _].
  destruct (nat_clear_client _ _ _ (mem_valid dst) Oz Hl Hul) as (st & z1 & Hclr & Oz1 & Hrest & Hno).
  unfold copy_rules, ipa_nati_copy_ipv4_tbl. rewrite Hl. cbn [negb].
  rewrite (Hclr : ipa_NATI_clear_ipv4_tbl _ (hdl_of dst) = _).
  cbn [mbind exec_bind Z.eqb negb].
  pose proof (open_rest _ _ _ _ _ Ox Hrest (mem_other dst)) as Ox1.
  destruct Hrest as (Hpd & _ & Hfo & _).
  assert (M0 : moved dst x s (set_nat st s) z1 []).
  { split; cbn [nati_obj nat_mutex_init sm_maps sm_nat set_nat]; try assumption; try congruence.
    - done.
    - split; rewrite ?E1, ?E2; [intros; now rewrite !lookup_empty|].
      intros n o. now rewrite lookup_empty.
    - intros i Hi. now apply elem_of_nil in Hi.
    - intros o n. now rewrite E1, lookup_empty.
    - intros i v Hi. now apply elem_of_nil in Hi. }
  unfold hdl_of at 1. rewrite (nat_walk_open _ _ x) by (done || apply mem_valid).
  cbn [mbind exec_bind].
  destruct (selection_facts x) as [Hnd Hsel].
  destruct (migrate_visit dst x s Hmade Hmaps _ _ _ [] M0 Hnd) as (ret & s' & z' & done & -> & M & Hall).
  { intros i Hi. split; [apply not_elem_of_nil|now apply Hsel]. }
  cbn [mbind exec_bind fst snd]. exists ret, s', z', done.
  split; [unfold after_unlock; now rewrite Hul|]. split; [exact M|].
  destruct (moved_view dst x s Hmaps s' z' done M) as [Hsub Heq]. split; [exact Hsub|].
  intros Hr. apply Heq. intros i v Hv. apply (Hall Hr). left. exact (rules_selected x _ _ i v Ox Hv).
Qed.
End Move.
