(* ===== verification/IpaNatSmCalls.v ===== *)
(** The calls of the memory state machine in the hybrid states: switching,
    adding, deleting and querying rules, clearing; what each does to the rules
    the client sees. *)
From stdpp Require Import gmap.
From S2P Require Import Prelude.
From S2P Require Import Bits.
From S2P Require Import Chains.
From S2P Require Import IpaTable.
From S2P Require Import IpaTableSize.
From S2P Require Import IpaMemDesc.
From S2P Require Import IpaDma.
From S2P Require Import IpaTableWalk.
From S2P Require Import IpaTableWf.
From S2P Require Import IpaTableMark.
From S2P Require Import IpaTableInit.
From S2P Require Import IpaNatEntry.
From S2P Require Import IpaNatDrv.
From S2P Require Import IpaNatCalls.
From S2P Require Import IpaNatSpec.
From S2P Require Import IpaNatApi.
From S2P Require Import IpaNatRefine.
From S2P Require Import IpaNatMap.
From S2P Require Import IpaNatSm.
From S2P Require Import IpaNatSmRun.
From S2P Require Import IpaNatSmSpec.
From S2P Require Import IpaNatSmMove.

(** The failed switches counted so far. *)
Definition failures (s : sm_state) : Z * Z :=
  (sw_fail (at_ddr (sw_stats (nati_obj s))), sw_fail (at_sram (sw_stats (nati_obj s)))).

(** From [s] to [s'] no rule appeared or changed, and none was lost unless a
    failed switch was counted. *)
Definition kept (s s' : sm_state) (R R' : rule_map) : Prop :=
  (forall o v, R' o = Some v -> R o = Some v) /\
  (failures s' = failures s -> forall o, R' o = R o).

Lemma kept_same s s' R R' : (forall o, R' o = R o) -> kept s s' R R'.
Proof. intros H. split; [|done]. intros o v. now rewrite H. Qed.

Lemma u32_succ f : u32 (f + 1) <> f.
Proof.
  unfold u32. intros E. pose proof (Z.div_mod (f + 1) (2 ^ 32) ltac:(done)).
  rewrite E in *. lia.
Qed.

Section Calls.
Context {ENV : sm_env} {HWS : IpaHwSpec}.
Context (RD : sm_ready) (pd : list ipa_nat_pdn_entry).

(** ** Switching *)
Definition goto_trigger (dst : mem_sub) : ipa_nati_trigger :=
  match dst with DDR_SUB => NATI_TRIG_GOTO_DDR | SRAM_SUB => NATI_TRIG_GOTO_SRAM end.
Definition turned (dst : mem_sub) (s : sm_state) : sm_state :=
  SET_NATIOBJ_STATE (hybrid_state dst)
    (set_nat (set_active (Some (mem_of dst)) (set_focus (Some (mem_of dst)) (sm_nat s))) s).

Lemma goto_runs n dst sub s x y :
  hybrid pd sub s x y -> dst = other sub ->
  ipa_nati_statemach (S n) s (goto_trigger dst) ArgsNull = Done (0, ArgsNull, turned dst s).
Proof.
  intros H ->. destruct (hybrid_sram _ _ _ _ _ H) as [z O].
  destruct H as [Hm Hst Hd Hs Hx Hy Hf Hp Hmd Hmp]. pose proof RD as [Hl Hul _ Hfoc].
  pose proof (nat_goto_open _ _ _ (mem_valid (other sub)) Hy Hl Hul Hfoc) as Hgo.
  cbn [ipa_nati_statemach]. apply (body_runs _ _ _ _ 0 _ _ z z RD Hm O); [|exact Hm|].
  - rewrite Hst. destruct sub; cbn [hybrid_state other goto_trigger _state_mach_tbl].
    + unfold _smGoToSram. rewrite Hs. unfold hdl_of. cbn [other] in Hgo. now rewrite Hgo.
    + unfold _smGoToDdr. rewrite Hd. unfold hdl_of. cbn [other] in Hgo. now rewrite Hgo.
  - now apply (open_caches _ (sm_nat s)).
Qed.

(** The copy after the hardware was turned to [dst]. *)
Definition move_to (dst : mem_sub) (s : sm_state) : exec (Z * sm_args * sm_state) :=
  r ← copy_rules (hdl_of (other dst)) (hdl_of dst) (clear_maps dst (clear_cnt dst (turned dst s)));
  Done (fst r, ArgsNull, count_switch (other dst) (fst r) (snd r)).

Lemma clear_maps_get dst s :
  get_map (o2n dst) (sm_maps (clear_maps dst s)) = ∅ /\
  get_map (n2o dst) (sm_maps (clear_maps dst s)) = ∅ /\
  same_maps (other dst) (sm_maps s) (sm_maps (clear_maps dst s)).
Proof. now destruct dst. Qed.

Lemma switch_is_move n dst s x y :
  hybrid pd (other dst) s x y ->
  _state_mach_tbl (ipa_nati_statemach (S n)) (hybrid_state (other dst)) NATI_TRIG_TBL_SWITCH s
    NATI_TRIG_TBL_SWITCH ArgsNull = move_to dst s.
Proof.
  intros H. pose proof (goto_runs n dst _ s x y H ltac:(now destruct dst)) as Hg.
  pose proof (hybrid_choose _ _ _ _ _ H) as Hc. destruct H as [_ _ Hd Hs _ _ _ _ _ _].
  destruct dst; cbn [other hybrid_state _state_mach_tbl goto_trigger] in *.
  - unfold _smSwitchFromSramToDdr. cbn [collect_stats mbind exec_bind]. rewrite Hg, Hc.
    cbn [mbind exec_bind Z.eqb negb]. unfold move_to. cbn. now rewrite Hd, Hs.
  - unfold _smSwitchFromDdrToSram. cbn [collect_stats mbind exec_bind]. rewrite Hg, Hc.
    cbn [mbind exec_bind Z.eqb negb]. unfold move_to. cbn. now rewrite Hd, Hs.
Qed.

Lemma move_ok dst s x y :
  hybrid pd (other dst) s x y ->
  exists ret s' z, move_to dst s = Done (ret, ArgsNull, s') /\ hybrid pd dst s' z x /\
    hold_state (nati_obj s') = hold_state (nati_obj s) /\
    kept s s' (view (sm_maps s) (other dst) x) (view (sm_maps s') dst z).
Proof.
  intros [Hm Hst Hd Hs Hx Hy Hf Hp Hmd Hmp]. unfold move_to.
  set (s1 := clear_maps dst (clear_cnt dst (turned dst s))).
  destruct (clear_maps_get dst (clear_cnt dst (turned dst s))) as (E1 & E2 & E3).
  fold s1 in E1, E2, E3.
  assert (Hcaches : forall m z, nat_open m (sm_nat s) z -> nat_open m (sm_nat s1) z)
    by (intros m z Hz; now apply (open_caches _ (sm_nat s))).
  rewrite other_other in Hy.
  assert (Hmp1 : maps_ok (sm_maps s1) (other dst) x).
  { destruct E3 as [E3 E4]. destruct Hmp as [Hi Hl]. split; rewrite ?E3, ?E4; assumption. }
  destruct (copy_rules_ok RD pd dst s1 x y) as (ret & s' & z & done & Hcp & M & Hsub & Heq);
    try (apply Hcaches; assumption); try assumption; try done.
  { reflexivity. }
  rewrite Hcp. cbn [mbind exec_bind fst snd].
  destruct M as [Mm Mo Mx Mz Mf Mp Mmd _ Mmaps _ _ _].
  destruct (same_obj_fields _ _ Mo) as (F1 & F2 & F3 & F4 & F5).
  eexists ret, _, z. split; [reflexivity|].
  assert (Hview : forall o, view (sm_maps s1) (other dst) x o = view (sm_maps s) (other dst) x o).
  { intros o. unfold view. destruct E3 as [E3 _]. now rewrite E3. }
  split; [|split; [cbn; rewrite F4; now destruct dst|]].
  - split; cbn [nati_obj nat_mutex_init sm_maps sm_nat count_switch on_obj set_obj set_sw
      curr_state ddr_tbl_hdl sram_tbl_hdl]; try assumption.
    + rewrite F2. now destruct dst.
    + rewrite F3. now destruct dst.
  - split.
    + intros o v Ho. rewrite <- Hview. now apply Hsub.
    + intros Hfail o. rewrite <- Hview. apply Heq. destruct (ret =? 0) eqn:Er; zb; [exact Er|exfalso].
      unfold failures, count_switch in Hfail. cbn [nati_obj on_obj set_obj set_sw sw_stats] in Hfail.
      rewrite F5, (proj2 (Z.eqb_neq ret 0)) in Hfail by done. unfold s1 in Hfail.
      destruct dst; cbn in Hfail; [apply (f_equal snd) in Hfail|apply (f_equal fst) in Hfail];
        cbn in Hfail; exact (u32_succ _ Hfail).
Qed.

Lemma switch_runs n sub s x y :
  hybrid pd sub s x y ->
  exists s' z, ipa_nati_statemach (S (S n)) s NATI_TRIG_TBL_SWITCH ArgsNull = Done (0, ArgsNull, s') /\
    hybrid pd (other sub) s' z x /\ hold_state (nati_obj s') = hold_state (nati_obj s) /\
    kept s s' (view (sm_maps s) sub x) (view (sm_maps s') (other sub) z).
Proof.
  intros H. destruct (hybrid_sram _ _ _ _ _ H) as [w O]. rewrite <- (other_other sub) in H.
  destruct (move_ok (other sub) s x y H) as (ret & s' & z & Hmv & H' & Hh & Hk).
  rewrite other_other in Hk. exists s', z. split; [|done].
  destruct (hybrid_sram _ _ _ _ _ H') as [w' O']. change (ipa_nati_statemach (S (S n)))
    with (statemach_body (ipa_nati_statemach (S n))).
  apply (body_runs _ _ _ _ ret _ _ w w' RD (hy_mutex _ _ _ _ _ H) O); [|exact (hy_mutex _ _ _ _ _ H')|done].
  rewrite (hy_state _ _ _ _ _ H). now rewrite (switch_is_move n _ s x y H).
Qed.

(** ** Adding a rule *)

(** The rules [R] the client sees in [s]. *)
Definition sees (s : sm_state) (R : rule_map) : Prop :=
  exists sub x y, hybrid pd sub s x y /\ forall o, R o = view (sm_maps s) sub x o.

Lemma sees_view sub s x y : hybrid pd sub s x y -> sees s (view (sm_maps s) sub x).
Proof. intros H. now exists sub, x, y. Qed.

Lemma sees_eq s R R' : sees s R -> (forall o, R' o = R o) -> sees s R'.
Proof. intros (sub & x & y & H & HR) HR'. exists sub, x, y. split; [exact H|]. intros o. now rewrite HR'. Qed.

(** The outcomes of an addition that does not switch, among the rules [R]:
    the rule [v] is in force under the handle [h], which was free; or [h] was
    taken or is 0 and nothing changes. *)
Definition add_outcome (s' : sm_state) (R : rule_map) (h : Z) (v : nat_view) : Prop :=
  R h = None /\ sees s' (upd R h (Some v)) \/ (R h <> None \/ h = 0) /\ sees s' R.

(** What an addition may do: it may switch first. *)
Definition added (s s' : sm_state) (R : rule_map) (h : Z) (v : nat_view) : Prop :=
  exists R1, kept s s' R R1 /\ add_outcome s' R1 h v.

Lemma added_through s s1 s2 s' R R1 R2 h v :
  failures s1 = failures s -> (forall o, R1 o = R o) -> kept s1 s2 R1 R2 -> failures s' = failures s2 ->
  add_outcome s' R2 h v -> added s s' R h v.
Proof.
  intros H1 HR [K1 K2] H2 Hr. exists R2. split; [|exact Hr]. split.
  - intros o w Ho. rewrite <- HR. now apply K1.
  - intros Hf o. rewrite <- HR. apply K2. congruence.
Qed.

(** Only the library's state and the counters change. *)
Lemma hybrid_nat sub s x y x' nat o' :
  hybrid pd sub s x y -> nat_open (mem_of sub) nat x' -> rest_same (mem_of sub) (sm_nat s) nat ->
  made pd x' -> maps_ok (sm_maps s) sub x' -> same_obj (nati_obj s) o' ->
  hybrid pd sub (set_obj o' (set_nat nat s)) x' y.
Proof.
  intros [Hm Hst Hd Hs Hx Hy Hf Hp Hmd Hmp] O (Hpd & _ & Hfo & _ & Hcs) Hmd' Hmp' Ho.
  destruct (same_obj_fields _ _ Ho) as (F1 & F2 & F3 & _).
  split; cbn [nati_obj nat_mutex_init sm_maps sm_nat set_obj set_nat]; try assumption; try congruence.
  apply (open_caches _ (sm_nat s)); [exact Hy| |exact Hpd]. apply Hcs. apply mem_other.
Qed.

Lemma hybrid_maps sub s x y a : hybrid pd sub s x y -> maps_ok a sub x -> hybrid pd sub (set_maps a s) x y.
Proof. intros [] Ha. now split. Qed.

Lemma made_added x x' h u :
  made pd x -> rule_ok pd u -> (forall k, client x' k = upd (client x) h (Some (rule_of pd u)) k) ->
  made pd x'.
Proof.
  intros Hx Hu Hc k v. rewrite Hc. unfold upd. destruct (k =? h); [intros [= <-]; eauto|apply Hx].
Qed.

(** The rule goes into the table in use. *)
Lemma add_to_table sub s x y u h0 t :
  hybrid pd sub s x y -> rule_ok pd u ->
  exists ret h s1 x1,
    _smAddRuleToTbl s t (ArgsAddRule (hdl_of sub) (Some u) (Some h0)) =
      Done (ret, ArgsAddRule (hdl_of sub) (Some (clear_fields u)) (Some h), s1) /\
    hybrid pd sub s1 x1 y /\ sm_maps s1 = sm_maps s /\ failures s1 = failures s /\
    hold_state (nati_obj s1) = hold_state (nati_obj s) /\
    (ret = 0 /\ client x h = None /\
       (forall k, client x1 k = upd (client x) h (Some (rule_of pd (clear_fields u))) k) \/
     ret <> 0 /\ h = 0 /\ forall k, client x1 k = client x k).
Proof.
  intros H Hu. apply clear_fields_ok in Hu. pose proof H as [Hm Hst Hd Hs Hx Hy Hf Hp Hmd Hmp].
  pose proof RD as [Hl Hul _ _]. rewrite <- Hp in Hu.
  destruct (nat_add_client _ _ _ (clear_fields u) h0 (mem_valid sub) Hx Hf Hu Hl Hul)
    as (ret & h & nat & x1 & Hadd & O & Hrest & Hres). rewrite Hp in Hu, Hres.
  unfold _smAddRuleToTbl, hdl_of. cbn [deref mbind exec_bind]. rewrite Hadd. cbn [mbind exec_bind].
  exists ret, h. eexists _, x1. split; [reflexivity|].
  assert (Hmk : made pd x1 /\ maps_ok (sm_maps s) sub x1).
  { destruct Hres as [(_ & Hn & Hc)|(_ & _ & Hc)].
    - split; [exact (made_added x x1 h _ Hmd Hu Hc)|]. destruct Hmp as [Hi Hlv]. split; [exact Hi|].
      intros n o Hno. rewrite Hc, upd_ne; [eauto|]. intros ->. exact (Hlv h o Hno Hn).
    - split; [intros k v; rewrite Hc; apply Hmd|exact (proj1 (maps_same _ _ _ _ Hmp Hc))]. }
  split; [|split; [now case_match|split; [now case_match|split; [now case_match|exact Hres]]]].
  destruct Hmk as [Hmd' Hmp']. destruct (ret =? 0).
  - apply (hybrid_nat sub s x y x1 nat _ H O Hrest Hmd' Hmp'). reflexivity.
  - exact (hybrid_nat sub s x y x1 nat (nati_obj s) H O Hrest Hmd' Hmp' eq_refl).
Qed.

(** The rule's handle is recorded. *)
Lemma add_handles sub s1 x x1 y h v :
  hybrid pd sub s1 x1 y -> maps_ok (sm_maps s1) sub x -> client x h = None ->
  (forall k, client x1 k = upd (client x) h (Some v) k) ->
  exists ret a, (let '(ret, maps) := ipa_nat_map_add (sm_maps s1) (o2n sub) h h in
     if negb (ret =? 0) then Done (ret, set_maps maps s1)
     else let '(ret, maps) := ipa_nat_map_add maps (n2o sub) h h in Done (ret, set_maps maps s1))
    = (Done (ret, set_maps a s1) : exec _) /\
    hybrid pd sub (set_maps a s1) x1 y /\
    let R := view (sm_maps s1) sub x in
    (R h = None /\ (forall k, view a sub x1 k = upd R h (Some v) k) \/
     R h <> None /\ forall k, view a sub x1 k = R k).
Proof.
  intros H Hmp Hn Hc. destruct (get_map (o2n sub) (sm_maps s1) !! h) as [n|] eqn:E.
  - destruct (map_taken (sm_maps s1) sub x x1 h h v Hmp Hn Hc) as (-> & Hmp1 & Hv); [eauto|].
    exists (-1), (sm_maps s1). split; [done|]. split; [now apply hybrid_maps|]. right.
    split; [|exact Hv]. unfold view. rewrite E. apply (mo_live _ _ _ Hmp n h).
    now apply (mo_inv _ _ _ Hmp).
  - destruct (map_added (sm_maps s1) sub x x1 h h v Hmp Hn Hc E) as (a1 & -> & H2 & Hmp1 & Hv).
    cbn [Z.eqb negb]. rewrite H2. exists 0, (put_pair sub h h (sm_maps s1)).
    split; [done|]. split; [now apply hybrid_maps|]. left. split; [|exact Hv]. unfold view. now rewrite E.
Qed.

(** Switching and trying again, as _smAddRuleHybrid does. *)
Definition switch_and_add (R : sm_run) (s : sm_state) (args : sm_args) : exec (Z * sm_args * sm_state) :=
  g ← R s NATI_TRIG_TBL_SWITCH ArgsNull;
  let '(ret, _, s) := g in
  if ret =? 0 then R (SET_NATIOBJ_STATE NATI_STATE_HYBRID_DDR s) NATI_TRIG_ADD_RULE args
  else Done (ret, args, s).

Definition add_args (u : ipa_nat_ipv4_rule) (h : Z) : sm_args :=
  ArgsAddRule (hdl_of SRAM_SUB) (Some u) (Some h).

Lemma clear_fields_twice u : clear_fields (clear_fields u) = clear_fields u.
Proof. reflexivity. Qed.

Lemma add_callback R sub s x y u h0 :
  hybrid pd sub s x y -> rule_ok pd u ->
  let V := view (sm_maps s) sub x in
  (exists ret h s', _smAddRuleHybrid R s NATI_TRIG_ADD_RULE (add_args u h0) =
       Done (ret, add_args (clear_fields u) h, s') /\ failures s' = failures s /\
     add_outcome s' V h (rule_of pd (clear_fields u))) \/
  exists s1 x1, sub = SRAM_SUB /\ hybrid pd sub s1 x1 y /\ failures s1 = failures s /\
    (forall o, view (sm_maps s1) sub x1 o = V o) /\
    _smAddRuleHybrid R s NATI_TRIG_ADD_RULE (add_args u h0) =
      switch_and_add R s1 (add_args (clear_fields u) 0).
Proof.
  intros H Hu V. unfold _smAddRuleHybrid, add_args. rewrite (hybrid_handle _ _ _ _ _ H).
  destruct (add_to_table sub s x y u h0 NATI_TRIG_ADD_RULE H Hu)
    as (ret & h & s1 & x1 & -> & H1 & Hmaps & Hfail & Hhold & Hres). cbn [mbind exec_bind].
  destruct Hres as [(-> & Hn & Hc)|(Hret & -> & Hc)].
  - left. cbn [Z.eqb]. rewrite (hybrid_choose _ _ _ _ _ H1).
    destruct (add_handles sub s1 x x1 y h (rule_of pd (clear_fields u)) H1) as (ret & a & Ha & Ha1 & Hv); [|done..|].
    { rewrite Hmaps. exact (hy_maps _ _ _ _ _ H). }
    exists ret, h, (set_maps a s1). split; [|split; [exact Hfail|]].
    + revert Ha. destruct (ipa_nat_map_add (sm_maps s1) (o2n sub) h h) as [r1 m1].
      destruct (negb (r1 =? 0)); [now intros [= -> ->]|].
      destruct (ipa_nat_map_add m1 (n2o sub) h h) as [r2 m2]. now intros [= -> ->].
    + rewrite Hmaps in Hv. destruct Hv as [[Hno Hv]|[Hsome Hv]]; [left|right].
      * split; [exact Hno|]. exists sub, x1, y. split; [exact Ha1|]. intros o. symmetry. apply Hv.
      * split; [now left|]. exists sub, x1, y. split; [exact Ha1|]. intros o. symmetry. apply Hv.
  - rewrite (proj2 (Z.eqb_neq ret 0)) by done.
    assert (Hv : forall o, view (sm_maps s1) sub x1 o = V o).
    { rewrite Hmaps. exact (proj2 (maps_same _ _ _ _ (hy_maps _ _ _ _ _ H) Hc)). }
    destruct (bool_decide _ && negb _) eqn:E.
    + right. exists s1, x1. split; [|done]. apply andb_true_iff in E as [E _].
      apply bool_decide_eq_true in E. rewrite (hy_state _ _ _ _ _ H1) in E. now destruct sub.
    + left. exists ret, 0, s1. split; [done|]. split; [exact Hfail|]. right. split; [now right|].
      exists sub, x1, y. split; [exact H1|]. intros o. symmetry. apply Hv.
Qed.

Lemma sees_open s R : sees s R -> has_mutex s /\ exists z, nat_open IPA_NAT_MEM_IN_SRAM (sm_nat s) z.
Proof.
  intros (sub & x & y & H & _). split; [exact (hy_mutex _ _ _ _ _ H)|exact (hybrid_sram _ _ _ _ _ H)].
Qed.

Lemma outcome_sees s' R h v : add_outcome s' R h v -> exists R', sees s' R'.
Proof. intros [[_ H]|[_ H]]; eauto. Qed.

(** A run of the machine in a hybrid state, by what its callback does. *)
Lemma hybrid_runs R s t args r args' s' R0 R1 :
  sees s R0 -> sees s' R1 ->
  _state_mach_tbl R (curr_state (nati_obj s)) t s t args = Done (r, args', s') ->
  statemach_body R s t args = Done (0, args', s').
Proof.
  intros H0 H1 Hc. destruct (sees_open s R0 H0) as [Hm [z O]], (sees_open s' R1 H1) as [Hm' [z' O']].
  exact (body_runs R s t args r args' s' z z' RD Hm O Hc Hm' O').
Qed.

Lemma add_runs s R u h0 :
  sees s R -> rule_ok pd u ->
  exists h s', run_sm s NATI_TRIG_ADD_RULE (add_args u h0) =
      Done (0, add_args (clear_fields u) h, s') /\
    added s s' R h (rule_of pd (clear_fields u)).
Proof.
  intros HS Hu. pose proof HS as (sub & x & y & H & HR).
  change run_sm with (statemach_body (ipa_nati_statemach 2)).
  assert (Hcb : forall R, _state_mach_tbl R (curr_state (nati_obj s)) NATI_TRIG_ADD_RULE =
                     _smAddRuleHybrid R)
    by (intros; rewrite (hy_state _ _ _ _ _ H); now destruct sub).
  destruct (add_callback (ipa_nati_statemach 2) sub s x y u h0 H Hu)
    as [(ret & h & s' & Hr & Hf & Ho)|(s1 & x1 & -> & H1 & Hf1 & Hv1 & Hr)].
  - destruct (outcome_sees _ _ _ _ Ho) as [R' HS']. exists h, s'. split.
    + apply (hybrid_runs _ _ _ _ ret _ _ R R' HS HS'). now rewrite Hcb.
    + apply (added_through s s s' s' R _ _ h _ eq_refl (fun o => eq_sym (HR o))
               (kept_same _ _ _ _ (fun o => eq_refl)) eq_refl Ho).
  - destruct (switch_runs 0 SRAM_SUB s1 x1 y H1) as (s2 & z & Hsw & H2 & _ & Hk). cbn [other] in *.
    set (s3 := SET_NATIOBJ_STATE NATI_STATE_HYBRID_DDR s2).
    assert (H3 : hybrid pd DDR_SUB s3 z x1) by (destruct H2; now split).
    destruct (add_callback (ipa_nati_statemach 1) DDR_SUB s3 z x1 (clear_fields u) 0 H3)
      as [(ret & h & s' & Hr' & Hf' & Ho)|(? & ? & [=] & _)]; [now apply clear_fields_ok|].
    destruct (outcome_sees _ _ _ _ Ho) as [R' HS']. rewrite !clear_fields_twice in *. exists h, s'. split.
    + apply (hybrid_runs _ _ _ _ 0 _ _ R R' HS HS'). rewrite Hcb, Hr. unfold switch_and_add.
      rewrite Hsw. cbn [mbind exec_bind Z.eqb].
      change (ipa_nati_statemach 2) with (statemach_body (ipa_nati_statemach 1)).
      apply (hybrid_runs _ _ _ _ ret _ _ _ R' (sees_view _ _ _ _ H3) HS'). fold s3.
      now rewrite (hy_state _ _ _ _ _ H3).
    + refine (added_through s s1 s2 s' R _ _ h _ Hf1 _ Hk Hf' Ho). intros o. now rewrite HR, Hv1.
Qed.

(** ** Deleting a rule *)

(** The kernel does not refuse to delete the rule the client calls [o]. *)
Definition deletion_accepted (s : sm_state) (o : Z) : Prop := forall n r st',
  get_map (o2n (CHOOSE_MEM_SUB (nati_obj s))) (sm_maps s) !! o = Some n ->
  ipa_NATI_del_ipv4_rule (sm_nat s) (hybrid_hdl s (hdl_of SRAM_SUB)) n = Done (r, st') -> r = 0.

Definition del_outcome (s s' : sm_state) (R : rule_map) (o : Z) : Prop :=
  R o = None /\ sees s' R \/
  R o <> None /\ exists R1, kept s s' (upd R o None) R1 /\ sees s' R1.

Lemma view_none sub s x o : maps_ok (sm_maps s) sub x ->
  view (sm_maps s) sub x o = None <-> get_map (o2n sub) (sm_maps s) !! o = None.
Proof.
  intros [Hi Hl]. unfold view. destruct (get_map (o2n sub) (sm_maps s) !! o) as [n|] eqn:E; [|done].
  apply Hi, Hl in E. done.
Qed.

(** The rule goes from the table and the maps. *)
Lemma del_from_table sub s x y o n t :
  hybrid pd sub s x y -> deletion_accepted s o -> get_map (o2n sub) (sm_maps s) !! o = Some n ->
  let s0 := set_maps (drop_pair sub o n (sm_maps s)) s in
  exists s1 x1, _smDelRuleFromTbl s0 t (ArgsDelRule (hdl_of sub) n) =
      Done (0, ArgsDelRule (hdl_of sub) n, s1) /\
    hybrid pd sub s1 x1 y /\ failures s1 = failures s /\
    forall k, view (sm_maps s1) sub x1 k = upd (view (sm_maps s) sub x) o None k.
Proof.
  intros H Hacc Hn s0. pose proof H as [Hm Hst Hd Hs Hx Hy Hf Hp Hmd Hmp]. pose proof RD as [Hl Hul _ _].
  pose proof (hybrid_choose _ _ _ _ _ H) as Hch.
  assert (Hv : exists v, client x n = Some v).
  { apply (mo_inv _ _ _ Hmp), (mo_live _ _ _ Hmp) in Hn. destruct (client x n); [eauto|done]. }
  destruct Hv as [v Hv].
  destruct (nat_del_client _ _ _ n v (mem_valid sub) Hx Hf Hl Hul Hv) as (r & nat & Hdel & Hr).
  assert (r = 0) as ->.
  { apply (Hacc n r nat); [now rewrite Hch|]. now rewrite (hybrid_handle _ _ _ _ _ H). }
  destruct (Hr eq_refl) as (x1 & O & Hrest & Hc).
  destruct (map_deleted (sm_maps s) sub x x1 o n Hmp Hn) as (_ & _ & _ & _ & Hmaps).
  destruct (Hmaps Hc) as [Hmp1 Hview].
  unfold _smDelRuleFromTbl, hdl_of. cbn [sm_nat s0 set_maps]. rewrite Hdel.
  cbn [mbind exec_bind fst snd Z.eqb]. eexists _, x1. split; [reflexivity|].
  split; [|split; [reflexivity|exact Hview]].
  assert (Hmd1 : made pd x1).
  { intros k w. rewrite Hc. unfold upd. destruct (k =? n); [done|apply Hmd]. }
  destruct Hrest as (Hpd & _ & Hfo & _ & Hcs).
  split; cbn [nati_obj nat_mutex_init sm_maps sm_nat set_obj set_nat add_cnt on_obj s0 set_maps set_tot
    curr_state ddr_tbl_hdl sram_tbl_hdl]; try assumption; try congruence.
  apply (open_caches _ (sm_nat s)); [exact Hy| |exact Hpd]. apply Hcs. apply mem_other.
Qed.

Lemma back_to_sram_ok sub s x y :
  hybrid pd sub s x y ->
  exists s' R', back_to_sram (ipa_nati_statemach 2) s = Done s' /\ sees s' R' /\
    kept s s' (view (sm_maps s) sub x) R'.
Proof.
  intros H. unfold back_to_sram. destruct (bool_decide _ && _ && _) eqn:E.
  - destruct (switch_runs 0 sub s x y H) as (s' & z & -> & H' & _ & Hk). cbn [mbind exec_bind Z.eqb].
    apply andb_true_iff in E as [E _]. apply andb_true_iff in E as [E _].
    apply bool_decide_eq_true in E. rewrite (hy_state _ _ _ _ _ H) in E.
    destruct sub; [|discriminate E]. cbn [other] in *. eexists _, _. split; [reflexivity|].
    split; [|exact Hk]. exists SRAM_SUB, z, x. split; [|done]. destruct H'. now split.
  - eexists s, _. split; [reflexivity|]. split; [exact (sees_view _ _ _ _ H)|now apply kept_same].
Qed.

Definition del_args (o : Z) : sm_args := ArgsDelRule (hdl_of SRAM_SUB) o.

Lemma del_runs s R o :
  sees s R -> deletion_accepted s o ->
  exists s', run_sm s NATI_TRIG_DEL_RULE (del_args o) = Done (0, del_args o, s') /\
    del_outcome s s' R o.
Proof.
  intros HS Hacc. pose proof HS as (sub & x & y & H & HR).
  pose proof (hy_maps _ _ _ _ _ H) as Hmp.
  change run_sm with (statemach_body (ipa_nati_statemach 2)).
  assert (Hcb : _state_mach_tbl (ipa_nati_statemach 2) (curr_state (nati_obj s)) NATI_TRIG_DEL_RULE =
                _smDelRuleHybrid (ipa_nati_statemach 2))
    by (rewrite (hy_state _ _ _ _ _ H); now destruct sub).
  destruct (get_map (o2n sub) (sm_maps s) !! o) as [n|] eqn:Hn.
  - destruct (map_deleted (sm_maps s) sub x x o n Hmp Hn) as (a1 & w & E1 & E2 & _).
    destruct (del_from_table sub s x y o n NATI_TRIG_DEL_RULE H Hacc Hn) as (s1 & x1 & Hd & H1 & Hf & Hv).
    destruct (back_to_sram_ok sub s1 x1 y H1) as (s' & R' & Hb & HS' & Hk1 & Hk2).
    exists s'. split.
    + apply (hybrid_runs _ _ _ _ 0 _ _ R R' HS HS'). rewrite Hcb. unfold _smDelRuleHybrid, del_args.
      rewrite (hybrid_choose _ _ _ _ _ H), E1. cbn [Z.eqb negb]. rewrite E2.
      unfold hybrid_hdl. cbn [nati_obj set_maps]. fold (hybrid_hdl s (hdl_of SRAM_SUB)).
      rewrite (hybrid_handle _ _ _ _ _ H), Hd. cbn [mbind exec_bind Z.eqb]. now rewrite Hb.
    + right. split; [rewrite HR, (view_none sub s x o Hmp); congruence|]. exists R'. split; [|exact HS'].
      assert (Hu : forall k, view (sm_maps s1) sub x1 k = upd R o None k)
        by (intros k; rewrite Hv; now apply upd_cong).
      split; [intros k v Hk; rewrite <- Hu; now apply Hk1|].
      intros Hff k. rewrite <- Hu. apply Hk2. congruence.
  - exists s. split.
    + apply (hybrid_runs _ _ _ _ (-1) _ _ R R HS HS). rewrite Hcb. unfold _smDelRuleHybrid, del_args.
      rewrite (hybrid_choose _ _ _ _ _ H). unfold ipa_nat_map_del. now rewrite Hn.
    + left. split; [|exact HS]. now rewrite HR, (view_none sub s x o Hmp).
Qed.

(** ** Time stamps *)
Definition stamp_args (o ts : Z) : sm_args := ArgsStamp (hdl_of SRAM_SUB) o (Some ts).

Lemma query_runs s R o ts :
  sees s R ->
  run_sm s NATI_TRIG_GET_TSTAMP (stamp_args o ts) =
    Done (0, stamp_args o match R o with Some v => v_time_stamp v | None => ts end, s).
Proof.
  intros HS. pose proof HS as (sub & x & y & H & HR). pose proof (hy_maps _ _ _ _ _ H) as Hmp.
  change run_sm with (statemach_body (ipa_nati_statemach 2)).
  assert (Hcb : _state_mach_tbl (ipa_nati_statemach 2) (curr_state (nati_obj s)) NATI_TRIG_GET_TSTAMP =
                _smGetTmStmpHybrid)
    by (rewrite (hy_state _ _ _ _ _ H); now destruct sub).
  assert (Hr : exists r, _smGetTmStmpHybrid s NATI_TRIG_GET_TSTAMP (stamp_args o ts) =
    Done (r, stamp_args o match R o with Some v => v_time_stamp v | None => ts end, s)).
  { unfold _smGetTmStmpHybrid, stamp_args. rewrite (hybrid_choose _ _ _ _ _ H). unfold ipa_nat_map_find.
    rewrite HR. unfold view. destruct (get_map (o2n sub) (sm_maps s) !! o) as [n|] eqn:E;
      [|cbn [Z.eqb negb]; eauto].
    cbn [Z.eqb negb]. rewrite (hybrid_handle _ _ _ _ _ H).
    destruct (client x n) as [v|] eqn:Ev.
    2:{ exfalso. apply (mo_live _ _ _ Hmp n o); [now apply (mo_inv _ _ _ Hmp)|exact Ev]. }
    destruct (client_live x n v Ev) as (i & w & Hg & _ & Hw & ->). unfold hdl_of.
    rewrite (nat_query_open _ _ x n i w ts (mem_valid sub) (hy_x _ _ _ _ _ H) (rd_lock RD) Hg Hw).
    cbn [mbind exec_bind fst snd]. eauto. }
  destruct Hr as [r Hr]. apply (hybrid_runs _ _ _ _ r _ _ R R HS HS). now rewrite Hcb.
Qed.

(** ** Clearing *)
Lemma clear_runs s R :
  sees s R ->
  exists s', run_sm s NATI_TRIG_CLR_TABLE (ArgsTbl (hdl_of SRAM_SUB)) =
      Done (0, ArgsTbl (hdl_of SRAM_SUB), s') /\ sees s' no_rules.
Proof.
  intros HS. pose proof HS as (sub & x & y & H & HR). pose proof H as [Hm Hst Hd Hs Hx Hy Hf Hp Hmd Hmp].
  pose proof RD as [Hl Hul _ _].
  destruct (nat_clear_client _ _ _ (mem_valid sub) Hx Hl Hul) as (nat & x' & Hclr & O & Hrest & Hno).
  set (s' := set_nat nat (clear_maps sub (clear_cnt sub s))).
  destruct (clear_maps_get sub (clear_cnt sub s)) as (E1 & E2 & _).
  assert (Hmp' : maps_ok (sm_maps s') sub x').
  { split; [intros o n|intros n o]; cbn [sm_maps s' set_nat]; rewrite ?E1, ?E2;
      [now rewrite !lookup_empty|now rewrite lookup_empty]. }
  assert (H' : hybrid pd sub s' x' y).
  { destruct Hrest as (Hpd & _ & Hfo & _ & Hcs).
    split; cbn [nati_obj nat_mutex_init sm_maps sm_nat s' set_obj set_nat clear_maps clear_cnt on_obj
      set_maps set_tot curr_state ddr_tbl_hdl sram_tbl_hdl]; try assumption; try congruence.
    apply (open_caches _ (sm_nat s)); [exact Hy| |exact Hpd]. apply Hcs. apply mem_other. }
  assert (HS' : sees s' no_rules).
  { exists sub, x', y. split; [exact H'|]. intros o. unfold view.
    cbn [sm_maps s' set_nat]. now rewrite E1, lookup_empty. }
  exists s'. split; [|exact HS'].
  change run_sm with (statemach_body (ipa_nati_statemach 2)).
  apply (hybrid_runs _ _ _ _ 0 _ _ R no_rules HS HS').
  assert (Hcb : _state_mach_tbl (ipa_nati_statemach 2) (curr_state (nati_obj s)) NATI_TRIG_CLR_TABLE =
                _smClrTblHybrid) by (rewrite Hst; now destruct sub).
  rewrite Hcb. unfold _smClrTblHybrid. rewrite (hybrid_handle _ _ _ _ _ H). unfold _smClrTbl.
  rewrite (break_handle _ (mem_valid sub) : BREAK_TBL_HDL (hdl_of sub) = _).
  rewrite (proj1 (valid_mem_ok _ (mem_valid sub))). cbn [negb].
  replace (if mem_of sub =? IPA_NAT_MEM_IN_SRAM then SRAM_SUB else DDR_SUB) with sub by now destruct sub.
  cbn [sm_nat clear_maps clear_cnt on_obj set_obj set_maps].
  rewrite (Hclr : ipa_NATI_clear_ipv4_tbl _ (hdl_of sub) = _). reflexivity.
Qed.

(** ** Switching by hand *)
Lemma set_hold_sees s R h t : sees s R -> sees (on_obj (set_hold h t) s) R.
Proof.
  intros (sub & x & y & H & HR). exists sub, x, y. split; [|exact HR]. destruct H. now split.
Qed.

Lemma switch_to_runs s R m hold :
  sees s R -> valid_mem m ->
  exists s' R', ipa_nat_switch_to s m hold = Done (0, s') /\ kept s s' R R' /\ sees s' R'.
Proof.
  intros HS Hv. pose proof HS as (sub & x & y & H & HR). pose proof RD as [Hl Hul _ _].
  assert (Hgive : forall s', has_mutex s' -> give_mutex s' = 0)
    by (intros s' Hm; unfold give_mutex, unlock_result; now rewrite Hm, Hul).
  assert (Hsw : exists s' R', switch_locked s m hold = Done s' /\ kept s s' R R' /\ sees s' R').
  { unfold switch_locked. destruct (IN_UNSTARTED_STATE _).
    { eexists _, R. split; [reflexivity|]. split; [now apply kept_same|now apply set_hold_sees]. }
    assert (IN_HYBRID_STATE (nati_obj s) = true) as ->
      by (unfold IN_HYBRID_STATE; rewrite (hy_state _ _ _ _ _ H); now destruct sub).
    destruct (COMPATIBLE_NMI_4SWITCH _ m).
    - destruct (switch_runs 1 sub s x y H) as (s' & z & Hs & H' & _ & Hk).
      change (ipa_nati_statemach 3) with run_sm in Hs. rewrite Hs. cbn [mbind exec_bind Z.eqb].
      eexists _, _. split; [reflexivity|]. split; [|apply set_hold_sees, (sees_view _ _ _ _ H')].
      destruct Hk as [K1 K2]. split; [intros o v Ho; rewrite HR; now apply K1|].
      intros Hf o. rewrite HR. now apply K2.
    - cbn [mbind exec_bind Z.eqb]. eexists _, R. split; [reflexivity|].
      split; [now apply kept_same|now apply set_hold_sees]. }
  destruct Hsw as (s' & R' & Hs & Hk & HS'). exists s', R'. split; [|done].
  unfold ipa_nat_switch_to. rewrite (proj1 (valid_mem_ok m Hv)). cbn [negb].
  unfold take_mutex, lock_result. rewrite (hy_mutex _ _ _ _ _ H), Hl. cbn [Z.eqb negb].
  rewrite Hs. cbn [mbind exec_bind]. now rewrite (Hgive s' (proj1 (sees_open s' R' HS'))).
Qed.
End Calls.
