(* ===== verification/IpaNatSmCreate.v ===== *)
(** Creation of the hybrid tables: the memory state machine's first call, from
    caches without tables. *)
From stdpp Require Import gmap.
From S2P Require Import Prelude.
From S2P Require Import Bits.
From S2P Require Import Chains.
From S2P Require Import IpaTable.
From S2P Require Import IpaTableSize.
From S2P Require Import IpaMemDesc.
From S2P Require Import IpaDma.
From S2P Require Import IpaTableWalk.
From S2P Require Import IpaTableWf.
From S2P Require Import IpaTableMark.
From S2P Require Import IpaTableInit.
From S2P Require Import IpaNatEntry.
From S2P Require Import IpaNatDrv.
From S2P Require Import IpaNatCalls.
From S2P Require Import IpaNatSpec.
From S2P Require Import IpaNatApi.
From S2P Require Import IpaNatRefine.
From S2P Require Import IpaNatMap.
From S2P Require Import IpaNatSm.
From S2P Require Import IpaNatSmRun.
From S2P Require Import IpaNatSmSpec.
From S2P Require Import IpaNatSmMove.
From S2P Require Import IpaNatSmCalls.

(** ** Frames *)
Section Frames.
Context {ENV : nat_env} {HWS : IpaHwSpec}.

Lemma set_cache_other m m' c st st' :
  set_cache m c st = Done st' -> m' <> m ->
  zlookup (ipv4_nat_cache st') m' = zlookup (ipv4_nat_cache st) m'.
Proof.
  unfold set_cache, zstore. intros H Hm. branches. cbn. now apply zlookup_insert_ne.
Qed.

Lemma add_tbl_other st m m' ip n h0 ret h st' :
  ipa_NATI_add_ipv4_tbl st m ip n h0 = Done (ret, h, st') -> m' <> m ->
  zlookup (ipv4_nat_cache st') m' = zlookup (ipv4_nat_cache st) m'.
Proof.
  unfold ipa_NATI_add_ipv4_tbl. intros H Hm. branches; try done;
    match goal with H : set_cache _ _ _ = Done _ |- _ => exact (set_cache_other _ _ _ _ _ H Hm) end.
Qed.

Lemma open_sram_other st d st' m' :
  open_sram st = Done (Some (d, st')) -> m' <> IPA_NAT_MEM_IN_SRAM ->
  zlookup (ipv4_nat_cache st') m' = zlookup (ipv4_nat_cache st) m'.
Proof.
  unfold open_sram. intros H Hm. branches; try discriminate;
    match goal with H : set_cache _ _ _ = Done _ |- _ => exact (set_cache_other _ _ _ _ _ H Hm) end.
Qed.

Lemma closed_caches m st st' :
  nat_closed m st -> zlookup (ipv4_nat_cache st') m = zlookup (ipv4_nat_cache st) m ->
  zlength (pdns st') = IPA_MAX_PDN_NUM -> nat_closed m st'.
Proof.
  intros [c x Hc Hx Hcnt Hv Hp] H1 H2. apply (NatClosed _ _ c x); congruence.
Qed.

Lemma open_caches' m st st' x :
  nat_open m st x -> zlookup (ipv4_nat_cache st') m = zlookup (ipv4_nat_cache st) m ->
  zlength (pdns st') = IPA_MAX_PDN_NUM -> nat_open m st' x.
Proof.
  intros [c d ch chi Hc Hd Hx Hcnt Hcm Hv Hnm OK Hpd] H1 H2. apply (NatOpen _ _ _ c d ch chi); congruence.
Qed.

(** Opening SRAM's device. *)
Lemma open_sram_closed st :
  nat_closed IPA_NAT_MEM_IN_SRAM st ->
  open_sram st = Done None \/
  exists d st', open_sram st = Done (Some (d, st')) /\ nat_closed IPA_NAT_MEM_IN_SRAM st' /\
    pdns st' = pdns st.
Proof.
  intros [c x Hc Hx Hcnt Hv Hp]. pose proof (zlookup_lt _ _ _ Hc) as Hl.
  unfold open_sram, get_cache. rewrite Hc. cbn [mbind exec_bind deref].
  destruct (match ipa_desc c with Some d => Some d | None => env_open end) as [d|]; [right|now left].
  unfold set_cache. rewrite zstore_ok by done. cbn [mbind exec_bind]. eexists d, _.
  split; [reflexivity|]. split; [|done].
  apply (NatClosed _ _ (set_desc (Some d) c) x); try done. now apply zlookup_insert_eq.
Qed.

(** What a step on SRAM's side leaves of two caches without tables. *)
Definition both_closed (st : nat_state) : Prop :=
  nat_closed IPA_NAT_MEM_IN_SRAM st /\ nat_closed IPA_NAT_MEM_IN_DDR st.

Lemma sram_step_closed st d st' :
  both_closed st -> open_sram st = Done (Some (d, st')) ->
  nat_closed IPA_NAT_MEM_IN_SRAM st' -> pdns st' = pdns st -> both_closed st'.
Proof.
  intros [_ Hd] Ho Hs Hp. split; [exact Hs|].
  apply (closed_caches _ st); [exact Hd|now apply (open_sram_other st d)|].
  rewrite Hp. now destruct Hd.
Qed.

Lemma sram_size_closed st :
  both_closed st -> env_lock = true ->
  exists ret sz st', ipa_nati_get_sram_size st (Some 0) = Done (ret, Some sz, st') /\ both_closed st' /\
    (ret = 0 -> sz = snd env_sram_info).
Proof.
  intros C Hl. unfold ipa_nati_get_sram_size. rewrite Hl. cbn [negb].
  destruct (open_sram_closed st (proj1 C)) as [->|(d & st' & Ho & Hs & Hp)].
  { cbn [mbind exec_bind]. do 3 eexists. split; [reflexivity|]. split; [exact C|].
    unfold after_unlock. now destruct env_unlock. }
  rewrite Ho. cbn [mbind exec_bind]. pose proof (sram_step_closed st d st' C Ho Hs Hp) as C'.
  destruct env_sram_info as [r avail]. destruct (r =? 0) eqn:E; zb; cbn [negb deref mbind exec_bind].
  - do 3 eexists. split; [reflexivity|]. split; [exact C'|done].
  - do 3 eexists. split; [reflexivity|]. split; [exact C'|].
    unfold after_unlock. destruct env_unlock; [congruence|]. now rewrite (proj2 (Z.eqb_neq r 0)).
Qed.

Lemma vote_closed st v :
  both_closed st -> 0 <= v <= 2 ->
  exists r st', ipa_nat_vote_clock st v = Done (r, st') /\ both_closed st'.
Proof.
  intros C Hr. unfold ipa_nat_vote_clock, IPA_APP_CLK_DEVOTE, IPA_APP_CLK_RESET_VOTE.
  rewrite !Z.geb_leb, (proj2 (Z.leb_le 0 v)), (proj2 (Z.leb_le v 2)) by lia. cbn [negb andb].
  unfold ipa_nati_vote_clock. destruct (open_sram_closed st (proj1 C)) as [->|(d & st' & Ho & Hs & Hp)].
  - cbn [mbind exec_bind]. eauto.
  - rewrite Ho. cbn [mbind exec_bind]. do 2 eexists. split; [reflexivity|].
    exact (sram_step_closed st d st' C Ho Hs Hp).
Qed.
End Frames.

Section Create.
Context {ENV : sm_env} {HWS : IpaHwSpec}.
Context (RD : sm_ready) (Hoff : nat_offsets_zero) (Hinfo : sram_info_ok).
Context (Hsize : snd env_sram_info <
  sram_size_of 32768 sizeof_ipa_nat_rule sizeof_ipa_nat_indx_tbl_rule).

(** An empty table. *)
Definition empty_open (m : Z) (st : nat_state) : Prop :=
  exists x, nat_open m st x /\ forall i, rules x i = None.

Lemma empty_caches m st st' :
  empty_open m st -> zlookup (ipv4_nat_cache st') m = zlookup (ipv4_nat_cache st) m ->
  zlength (pdns st') = IPA_MAX_PDN_NUM -> empty_open m st'.
Proof. intros (x & O & H) Hc Hp. exists x. split; [now apply (open_caches' m st)|exact H]. Qed.

Lemma empty_client x h : (forall i, rules x i = None) -> client x h = None.
Proof. intros H. unfold client. destruct (index_of_handle _ _); [apply H|done]. Qed.

(** Adding the table of one memory: the hardware is left on it. *)
Lemma add_tbl_step m st ip n h0 :
  valid_mem m -> nat_closed m st -> 0 <= n < 65536 ->
  exists ret h st', ipa_NATI_add_ipv4_tbl st m ip n (Some h0) = Done (ret, h, st') /\
    zlength (pdns st') = IPA_MAX_PDN_NUM /\
    (forall m', m' <> m -> zlookup (ipv4_nat_cache st') m' = zlookup (ipv4_nat_cache st) m') /\
    (ret = 0 /\ h = MAKE_TBL_HDL 1 m /\ empty_open m st' /\ hw_focus st' = Some m /\
       (exists p, zlookup (pdns st') 0 = Some p /\ public_ip p = ip) \/
     ret <> 0 /\ h = 0 /\ nat_closed m st').
Proof.
  intros Hm C Hn. destruct RD as [Hl Hul _ _].
  destruct (nat_add_tbl_closed m st ip n h0 Hm C Hoff Hinfo Hn Hl) as (ret & h & st' & Hadd & Hres).
  exists ret, h, st'. split; [exact Hadd|]. unfold unlock_or_eperm in Hres. rewrite Hul in Hres.
  assert (Hoth : forall m', m' <> m -> zlookup (ipv4_nat_cache st') m' = zlookup (ipv4_nat_cache st) m')
    by (intros m' Hm'; exact (add_tbl_other _ _ _ _ _ _ _ _ _ Hadd Hm')).
  destruct Hres as [(-> & -> & (x & O & _ & _ & Hru) & Hf & _ & _ & p0 & _ & Hp0 & _)|
                    (-> & (r & Hr & ->) & C' & _)].
  - split; [now destruct O|]. split; [exact Hoth|]. left. split_and!; try done; [now exists x|].
    eexists. split; [exact Hp0|done].
  - split; [now destruct C'|]. split; [exact Hoth|]. now right.
Qed.

(** What the callbacks that make one table leave of the machine. *)
Definition same_machine (s s' : sm_state) : Prop :=
  has_mutex s' /\ sm_maps s' = sm_maps s /\ curr_state (nati_obj s') = curr_state (nati_obj s).

Lemma sram_mem_ne : IPA_NAT_MEM_IN_DDR <> IPA_NAT_MEM_IN_SRAM.
Proof. done. Qed.

Lemma add_sram_ok s t ip n h0 mt :
  has_mutex s -> both_closed (sm_nat s) ->
  exists ret hp s', _smAddSramTbl s t (ArgsAddTbl ip n (Some h0) mt) =
      Done (ret, ArgsAddTbl ip n (Some hp) mt, s') /\ same_machine s s' /\
    nat_closed IPA_NAT_MEM_IN_DDR (sm_nat s') /\
    (ret = 0 /\ hp = hdl_of SRAM_SUB /\ sram_tbl_hdl (nati_obj s') = hdl_of SRAM_SUB /\
       empty_open IPA_NAT_MEM_IN_SRAM (sm_nat s') \/
     ret <> 0 /\ nat_closed IPA_NAT_MEM_IN_SRAM (sm_nat s')).
Proof.
  intros Hm C. unfold _smAddSramTbl.
  destruct (sram_size_closed (sm_nat s) C (rd_lock RD)) as (r & sz & st1 & -> & C1 & Hsz).
  cbn [mbind exec_bind]. destruct (r =? 0) eqn:Er; zb; cbn [negb].
  2:{ exists r, h0. eexists. split; [reflexivity|]. split; [done|]. split; [apply C1|].
      right. split; [done|apply C1]. }
  cbn [deref mbind exec_bind]. rewrite (Hsz Er).
  destruct (calc_num_sram_ok (snd env_sram_info) sizeof_ipa_nat_rule sizeof_ipa_nat_indx_tbl_rule
              sram_fuel Hsize ltac:(unfold sram_fuel; lia)) as (k & -> & Hk & _ & _).
  cbn [mbind exec_bind]. destruct (k =? 0) eqn:Ek; zb; cbn [Z.eqb negb].
  { eexists (-1), h0, _. split; [reflexivity|]. split; [done|]. split; [apply C1|].
    right. split; [done|apply C1]. }
  cbn [sm_nat on_obj set_obj set_nat].
  destruct (vote_closed st1 IPA_APP_CLK_VOTE C1 ltac:(done)) as (rv & st2 & -> & C2).
  cbn [mbind exec_bind fst snd]. destruct (rv =? 0) eqn:Ev; zb; cbn [negb].
  2:{ eexists rv, h0, _. split; [reflexivity|]. split; [done|]. split; [apply C2|].
      right. split; [done|apply C2]. }
  cbn [sm_nat set_nat].
  destruct (add_tbl_step IPA_NAT_MEM_IN_SRAM st2 ip (u16 k)
    (sram_tbl_hdl (set_slots k (PRCNT_OF k) (set_slots k (PRCNT_OF k) (nati_obj s))))
    (mem_valid SRAM_SUB) (proj1 C2) (u16_range k)) as (ra & h & st3 & Hadd & Hlen & Hoth & Hres).
  cbn [nati_obj set_nat on_obj set_obj sram_tbl_hdl set_slots] in *. rewrite Hadd.
  cbn [mbind exec_bind sm_nat on_obj set_obj set_nat].
  assert (CD : nat_closed IPA_NAT_MEM_IN_DDR st3)
    by (apply (closed_caches _ st2); [apply C2|now apply Hoth|exact Hlen]).
  destruct Hres as [(-> & -> & E & _)|(Hr & -> & C3)].
  - destruct E as (x & O & Hx).
    rewrite (nat_vote_open _ x) by (done || (unfold IPA_APP_CLK_DEVOTE; lia)).
    cbn [mbind exec_bind snd deref Z.eqb]. eexists 0, (hdl_of SRAM_SUB), _. split; [reflexivity|].
    split; [done|]. split; [exact CD|]. left. split_and!; try done. now exists x.
  - destruct (vote_closed st3 IPA_APP_CLK_DEVOTE (conj C3 CD) ltac:(done)) as (rd & st4 & -> & C4).
    cbn [mbind exec_bind snd]. rewrite (proj2 (Z.eqb_neq ra 0)) by done.
    eexists ra, h0, _. split; [reflexivity|]. split; [done|]. split; [apply C4|].
    right. split; [done|apply C4].
Qed.

Lemma add_ddr_ok s t ip n h0 mt :
  has_mutex s -> nat_closed IPA_NAT_MEM_IN_DDR (sm_nat s) -> 0 <= n < 65536 ->
  exists ret hp s', _smAddDdrTbl s t (ArgsAddTbl ip n (Some h0) mt) =
      Done (ret, ArgsAddTbl ip n (Some hp) mt, s') /\ same_machine s s' /\
    sram_tbl_hdl (nati_obj s') = sram_tbl_hdl (nati_obj s) /\
    zlookup (ipv4_nat_cache (sm_nat s')) IPA_NAT_MEM_IN_SRAM =
      zlookup (ipv4_nat_cache (sm_nat s)) IPA_NAT_MEM_IN_SRAM /\
    zlength (pdns (sm_nat s')) = IPA_MAX_PDN_NUM /\
    (ret = 0 /\ ddr_tbl_hdl (nati_obj s') = hdl_of DDR_SUB /\ empty_open IPA_NAT_MEM_IN_DDR (sm_nat s') /\
       (exists p, zlookup (pdns (sm_nat s')) 0 = Some p /\ public_ip p = ip) \/
     ret <> 0 /\ ddr_tbl_hdl (nati_obj s') = 0).
Proof.
  intros Hm C Hn. unfold _smAddDdrTbl.
  destruct (add_tbl_step IPA_NAT_MEM_IN_DDR (sm_nat s) ip n (ddr_tbl_hdl (nati_obj s))
    (mem_valid DDR_SUB) C Hn) as (ra & h & st' & -> & Hlen & Hoth & Hres).
  cbn [mbind exec_bind]. destruct Hres as [(-> & -> & E & _ & Hp)|(Hr & -> & C3)].
  - cbn [Z.eqb deref mbind exec_bind]. eexists 0, (hdl_of DDR_SUB), _. split; [reflexivity|].
    split_and!; try done; [now apply Hoth|]. left. now split_and!.
  - rewrite (proj2 (Z.eqb_neq ra 0)) by done. eexists ra, h0, _. split; [reflexivity|].
    split_and!; try done; [now apply Hoth|]. now right.
Qed.

(** Both tables are there: the hardware is turned to SRAM. *)
Lemma hybrid_starts s :
  has_mutex s -> curr_state (nati_obj s) = NATI_STATE_HYBRID ->
  ddr_tbl_hdl (nati_obj s) = hdl_of DDR_SUB -> sram_tbl_hdl (nati_obj s) = hdl_of SRAM_SUB ->
  empty_open IPA_NAT_MEM_IN_SRAM (sm_nat s) -> empty_open IPA_NAT_MEM_IN_DDR (sm_nat s) ->
  (forall w, get_map w (sm_maps s) = ∅) ->
  ipa_nati_statemach 1 s NATI_TRIG_GOTO_SRAM ArgsNull = Done (0, ArgsNull, turned SRAM_SUB s) /\
  sees (pdns (sm_nat s)) (turned SRAM_SUB s) no_rules.
Proof.
  intros Hm Hst Hd Hs (x & Ox & Hx) (y & Oy & Hy) Hmaps. destruct RD as [Hl Hul _ Hfoc].
  assert (Hopen : forall m z, nat_open m (sm_nat s) z -> nat_open m (sm_nat (turned SRAM_SUB s)) z)
    by (intros m z O; now apply (open_caches _ (sm_nat s))).
  split.
  - apply (body_runs _ _ _ _ 0 _ _ x x RD Hm Ox); [|exact Hm|now apply Hopen].
    rewrite Hst. cbn [_state_mach_tbl]. unfold _smGoToSram. rewrite Hs.
    rewrite (nat_goto_open _ _ x (mem_valid SRAM_SUB) Ox Hl Hul Hfoc
             : ipa_NATI_post_ipv4_init_cmd _ (hdl_of SRAM_SUB) = _). reflexivity.
  - exists SRAM_SUB, x, y. split; [|intros o; unfold view; cbn [sm_maps turned]; now rewrite Hmaps].
    split; try done; [now apply Hopen|now apply Hopen| |].
    + intros h v. now rewrite empty_client.
    + split; cbn [sm_maps turned SET_NATIOBJ_STATE on_obj set_obj set_nat]; rewrite !Hmaps;
        [intros o n; now rewrite !lookup_empty|intros n o; now rewrite lookup_empty].
Qed.

(** A hybrid machine with no rules, the public address in place. *)
Definition hybrid_made (ip : Z) (hp : Z) (s : sm_state) : Prop :=
  hp = hdl_of SRAM_SUB /\ sees (pdns (sm_nat s)) s no_rules /\
  exists p, zlookup (pdns (sm_nat s)) 0 = Some p /\ public_ip p = ip.

Lemma clear_both_maps s w : w <> MAP_NUM_99 -> get_map w (sm_maps (clear_both s)) = ∅.
Proof. now destruct w. Qed.

Lemma add_both_ok s ip n h0 mt :
  has_mutex s -> curr_state (nati_obj s) = NATI_STATE_HYBRID -> both_closed (sm_nat s) ->
  (get_map MAP_NUM_99 (sm_maps s) = ∅) -> 0 <= n < 65536 ->
  exists ret hp s', _smAddSramAndDdrTbl (ipa_nati_statemach 1) s NATI_TRIG_ADD_TABLE
      (ArgsAddTbl ip n (Some h0) mt) = Done (ret, ArgsAddTbl ip n (Some hp) mt, s') /\ has_mutex s' /\
    (curr_state (nati_obj s') = NATI_STATE_HYBRID -> ddr_tbl_hdl (nati_obj s') <> 0 ->
     hybrid_made ip hp s').
Proof.
  intros Hm Hst C H99 Hn. unfold _smAddSramAndDdrTbl. set (s0 := clear_both s).
  assert (Hmaps : forall w, get_map w (sm_maps s0) = ∅)
    by (intros w; destruct w; (now apply clear_both_maps) || exact H99).
  destruct (add_sram_ok s0 NATI_TRIG_ADD_TABLE ip n h0 mt Hm C)
    as (r1 & hp & s1 & -> & (Hm1 & Hmap1 & Hst1) & CD & Hres). cbn [mbind exec_bind].
  destruct Hres as [(-> & -> & Hs1 & ES)|(Hr1 & CS)].
  - cbn [Z.eqb]. destruct (_ >=? _).
    { eexists 0, _, _. split; [reflexivity|]. split; [exact Hm1|]. intros [=]. }
    destruct (add_ddr_ok s1 NATI_TRIG_ADD_TABLE ip n 0 None Hm1 CD Hn)
      as (r2 & hp2 & s2 & -> & (Hm2 & Hmap2 & Hst2) & Hs2 & Hc2 & Hlen2 & Hres2).
    cbn [mbind exec_bind]. destruct Hres2 as [(-> & Hd2 & ED & Hp)|(Hr2 & Hd2)].
    2:{ rewrite (proj2 (Z.eqb_neq r2 0)) by done. eexists r2, _, s2. split; [reflexivity|].
        split; [exact Hm2|]. intros _ Hx. now rewrite Hd2 in Hx. }
    cbn [Z.eqb].
    destruct (hybrid_starts s2 Hm2) as [Hgo Hsees];
      [rewrite Hst2, Hst1; exact Hst|exact Hd2|congruence| |exact ED| |].
    { now apply (empty_caches _ (sm_nat s1)). }
    { intros w. now rewrite Hmap2, Hmap1. }
    rewrite Hgo. cbn [mbind exec_bind fst snd]. eexists 0, _, _. split; [reflexivity|].
    split; [exact Hm2|]. intros _ _. split; [done|]. now split.
  - rewrite (proj2 (Z.eqb_neq r1 0)) by done.
    destruct (add_ddr_ok s1 NATI_TRIG_ADD_TABLE ip n hp mt Hm1 CD Hn)
      as (r2 & hp2 & s2 & -> & (Hm2 & Hmap2 & Hst2) & Hs2 & Hc2 & Hlen2 & Hres2).
    cbn [mbind exec_bind]. eexists r2, hp2, _. split; [reflexivity|].
    split; [now destruct (r2 =? 0)|].
    destruct Hres2 as [(-> & _)|(Hr2 & Hd2)]; [intros [=]|].
    rewrite (proj2 (Z.eqb_neq r2 0)) by done. intros _ Hx. now rewrite Hd2 in Hx.
Qed.

(** A run that needs no vote. *)
Lemma body_no_vote R s s0 t args r args' s' :
  take_mutex s = (0, s0) -> VOTE_REQUIRED (nati_obj s0) t = false ->
  _state_mach_tbl R (curr_state (nati_obj s0)) t s0 t args = Done (r, args', s') -> has_mutex s' ->
  statemach_body R s t args = Done (0, args', s').
Proof.
  intros Ht Hv Hc Hm. unfold statemach_body. rewrite Ht. cbn [Z.eqb negb]. rewrite Hv.
  cbn [mbind exec_bind fst snd Z.eqb negb]. rewrite set_nat_id, Hc. cbn [mbind exec_bind fst snd].
  rewrite set_nat_id. unfold give_mutex, unlock_result. now rewrite Hm, (rd_unlock RD).
Qed.

Lemma no_vote_add o : VOTE_REQUIRED o NATI_TRIG_ADD_TABLE = false.
Proof. unfold VOTE_REQUIRED. now rewrite andb_false_r. Qed.

(** The first call, with a machine that was never used. *)
Lemma create_runs s ip n h0 :
  nat_mutex_init s = false -> env_attr_init = 0 -> env_attr_settype = 0 -> env_mutex_create = 0 ->
  curr_state (nati_obj s) = NATI_STATE_NULL -> hold_state (nati_obj s) = false ->
  both_closed (sm_nat s) -> sm_maps s = no_maps -> 0 <= n < 65536 ->
  exists hp s', run_sm s NATI_TRIG_ADD_TABLE (ArgsAddTbl ip n (Some h0) (Some "hybrid"%string)) =
      Done (0, ArgsAddTbl ip n (Some hp) (Some "hybrid"%string), s') /\
    (curr_state (nati_obj s') = NATI_STATE_HYBRID -> ddr_tbl_hdl (nati_obj s') <> 0 ->
     hybrid_made ip hp s').
Proof.
  intros Hi A1 A2 A3 Hst Hh C Hmaps Hn. pose proof (rd_lock RD) as Hl.
  set (s1 := SET_NATIOBJ_STATE NATI_STATE_HYBRID (set_mutex_init s)).
  destruct (add_both_ok s1 ip n h0 (Some "hybrid"%string)) as (ret & hp & s' & Hadd & Hm' & Hmade);
    [done|done|done|cbn; now rewrite Hmaps|done|].
  exists hp, s'. split; [|exact Hmade].
  assert (Ht : take_mutex s = (0, set_mutex_init s))
    by (unfold take_mutex, mutex_init, lock_result; now rewrite Hi, A1, A2, A3, Hl).
  assert (Ht1 : take_mutex s1 = (0, s1)) by (unfold take_mutex, lock_result; cbn; now rewrite Hl).
  change run_sm with (statemach_body (statemach_body (ipa_nati_statemach 1))).
  apply (body_no_vote _ _ _ _ _ 0 _ _ Ht (no_vote_add _)); [|exact Hm'].
  cbn [nati_obj set_mutex_init]. rewrite Hst. cbn [_state_mach_tbl]. unfold _smFirstTbl.
  cbn [nati_obj set_mutex_init]. rewrite Hh. cbn [andb].
  change (mem_type_str_to_ipa_nati_state (Some "hybrid"%string)) with NATI_STATE_HYBRID. fold s1.
  exact (body_no_vote _ _ _ _ _ ret _ _ Ht1 (no_vote_add _) Hadd Hm').
Qed.
End Create.
