(* ===== verification/IpaNatSmRefine.v ===== *)
(** The abstract specification of the rule calls in hybrid operation, a map
    from the client's handles to rules that switching between the memories
    does not change, and the simulation of a run of calls. *)
From stdpp Require Import gmap.
From S2P Require Import Prelude.
From S2P Require Import Bits.
From S2P Require Import Chains.
From S2P Require Import IpaTable.
From S2P Require Import IpaTableSize.
From S2P Require Import IpaMemDesc.
From S2P Require Import IpaDma.
From S2P Require Import IpaTableWalk.
From S2P Require Import IpaTableWf.
From S2P Require Import IpaTableMark.
From S2P Require Import IpaTableInit.
From S2P Require Import IpaNatEntry.
From S2P Require Import IpaNatDrv.
From S2P Require Import IpaNatCalls.
From S2P Require Import IpaNatSpec.
From S2P Require Import IpaNatApi.
From S2P Require Import IpaNatRefine.
From S2P Require Import IpaNatMap.
From S2P Require Import IpaNatSm.
From S2P Require Import IpaNatSmRun.
From S2P Require Import IpaNatSmSpec.
From S2P Require Import IpaNatSmMove.
From S2P Require Import IpaNatSmCalls.

(** ** The specification *)

(** A call of the client on the hybrid table. *)
Inductive sm_request :=
| ReqAdd (u : ipa_nat_ipv4_rule) (h0 : Z)
| ReqDel (h : Z)
| ReqQuery (h ts0 : Z)
| ReqClear
| ReqSwitch (m : Z) (hold : bool).

(** What a switch may do to the rules: nothing, or, when it fails half way
    and is counted as failed, lose some. *)
Definition moved_rules (lost : bool) (R R' : rule_map) : Prop :=
  (forall h v, R' h = Some v -> R h = Some v) /\ (lost = false -> forall h, R' h = R h).

(** A call, its C result, what it wrote through its pointer (a handle, a time
    stamp), whether it lost rules, and the rules after it.  An addition may
    switch first, a deletion afterwards. *)
Inductive sm_spec (pd : list ipa_nat_pdn_entry) (R : rule_map) :
    sm_request -> Z -> Z -> bool -> rule_map -> Prop :=
| sm_spec_add R1 R' u h0 h lost :
    moved_rules lost R R1 -> R1 h = None ->
    (forall k, R' k = upd R1 h (Some (rule_of pd (clear_fields u))) k) ->
    sm_spec pd R (ReqAdd u h0) 0 h lost R'
| sm_spec_not_added R' u h0 h lost :
    moved_rules lost R R' -> R' h <> None \/ h = 0 -> sm_spec pd R (ReqAdd u h0) 0 h lost R'
| sm_spec_del R' h lost :
    h <> IPA_TABLE_INVALID_ENTRY -> R h <> None -> moved_rules lost (upd R h None) R' ->
    sm_spec pd R (ReqDel h) 0 0 lost R'
| sm_spec_del_unknown R' h lost :
    h <> IPA_TABLE_INVALID_ENTRY -> R h = None -> (forall k, R' k = R k) ->
    sm_spec pd R (ReqDel h) 0 0 lost R'
| sm_spec_del_invalid R' lost :
    (forall k, R' k = R k) -> sm_spec pd R (ReqDel IPA_TABLE_INVALID_ENTRY) (- EINVAL) 0 lost R'
| sm_spec_query R' h ts0 lost :
    h <> IPA_TABLE_INVALID_ENTRY -> (forall k, R' k = R k) ->
    sm_spec pd R (ReqQuery h ts0) 0 match R h with Some v => v_time_stamp v | None => ts0 end lost R'
| sm_spec_query_invalid R' ts0 lost :
    (forall k, R' k = R k) ->
    sm_spec pd R (ReqQuery IPA_TABLE_INVALID_ENTRY ts0) (- EINVAL) ts0 lost R'
| sm_spec_clear R' lost : (forall k, R' k = None) -> sm_spec pd R ReqClear 0 0 lost R'
| sm_spec_switch R' m hold lost :
    moved_rules lost R R' -> sm_spec pd R (ReqSwitch m hold) 0 0 lost R'.

Inductive sm_spec_run (pd : list ipa_nat_pdn_entry) :
    rule_map -> list (sm_request * Z * Z * bool) -> rule_map -> Prop :=
| sm_spec_done R : sm_spec_run pd R [] R
| sm_spec_more R R1 R2 q ret out lost es :
    sm_spec pd R q ret out lost R1 -> sm_spec_run pd R1 es R2 ->
    sm_spec_run pd R ((q, ret, out, lost) :: es) R2.

(** ** The calls *)
Section Requests.
Context {ENV : sm_env}.

Definition hybrid_tbl_hdl : Z := hdl_of SRAM_SUB.

Definition written (p : option Z) : Z := match p with Some z => z | None => 0 end.

Definition do_request (q : sm_request) (s : sm_state) : exec (Z * Z * sm_state) :=
  match q with
  | ReqAdd u h0 =>
      r ← ipa_nat_add_ipv4_rule s hybrid_tbl_hdl (Some u) (Some h0);
      let '(ret, _, h, s) := r in Done (ret, written h, s)
  | ReqDel h => r ← ipa_nat_del_ipv4_rule s hybrid_tbl_hdl h; Done (fst r, 0, snd r)
  | ReqQuery h ts0 =>
      r ← ipa_nat_query_timestamp s hybrid_tbl_hdl h (Some ts0);
      let '(ret, ts, s) := r in Done (ret, written ts, s)
  | ReqClear => r ← ipa_nati_clear_ipv4_tbl s hybrid_tbl_hdl; Done (fst (fst r), 0, snd r)
  | ReqSwitch m hold => r ← ipa_nat_switch_to s m hold; Done (fst r, 0, snd r)
  end.

(** Rules were lost if the call counted a failed switch. *)
Definition lost_in (s s' : sm_state) : bool := negb (bool_decide (failures s' = failures s)).

Fixpoint run_requests (qs : list sm_request) (s : sm_state) :
    exec (list (sm_request * Z * Z * bool) * sm_state) :=
  match qs with
  | [] => Done ([], s)
  | q :: qs =>
      r ← do_request q s;
      let '(ret, out, s') := r in
      e ← run_requests qs s';
      Done ((q, ret, out, lost_in s s') :: fst e, snd e)
  end.

(** What the client and the kernel must respect: valid rules, no deletion the
    kernel refuses (the machine forgets the handle before it asks). *)
Definition legal_request (pd : list ipa_nat_pdn_entry) (s : sm_state) (q : sm_request) : Prop :=
  match q with
  | ReqAdd u _ => rule_ok pd u
  | ReqDel h => deletion_accepted s h
  | ReqSwitch m _ => valid_mem m
  | _ => True
  end.

Inductive legal_requests (pd : list ipa_nat_pdn_entry) : sm_state -> list sm_request -> Prop :=
| legal_none s : legal_requests pd s []
| legal_some s q qs :
    legal_request pd s q ->
    (forall ret out s', do_request q s = Done (ret, out, s') -> legal_requests pd s' qs) ->
    legal_requests pd s (q :: qs).

(** ** The simulation *)
Context {HWS : IpaHwSpec} (RD : sm_ready) (pd : list ipa_nat_pdn_entry).

Lemma kept_moved s s' R R' : kept s s' R R' -> moved_rules (lost_in s s') R R'.
Proof.
  intros [H1 H2]. split; [exact H1|]. unfold lost_in. intros Hl. apply H2.
  destruct (bool_decide_reflect (failures s' = failures s)); [done|discriminate Hl].
Qed.

Lemma simulate_addition s R u h0 :
  sees pd s R -> rule_ok pd u ->
  exists h s' R', do_request (ReqAdd u h0) s = Done (0, h, s') /\
    sm_spec pd R (ReqAdd u h0) 0 h (lost_in s s') R' /\ sees pd s' R'.
Proof.
  intros HS Hu.
  destruct (add_runs RD pd s R u h0 HS Hu) as (h & s' & Hr & R1 & Hk & Ho).
  exists h, s'. cbn [do_request]. unfold ipa_nat_add_ipv4_rule, ipa_nati_add_ipv4_rule.
  change (VALID_TBL_HDL hybrid_tbl_hdl) with true. cbn [negb].
  change (ArgsAddRule hybrid_tbl_hdl (Some u) (Some h0)) with (add_args u h0). rewrite Hr.
  cbn [mbind exec_bind add_args Z.eqb negb written].
  destruct Ho as [[Hn HS']|[Hn HS']].
  - eexists. split; [reflexivity|]. split; [|exact HS'].
    apply (sm_spec_add pd R R1); [now apply kept_moved|exact Hn|done].
  - exists R1. split; [reflexivity|]. split; [|exact HS'].
    apply sm_spec_not_added; [now apply kept_moved|exact Hn].
Qed.

Lemma simulate_del s R h :
  sees pd s R -> deletion_accepted s h ->
  exists ret s' R', do_request (ReqDel h) s = Done (ret, 0, s') /\
    sm_spec pd R (ReqDel h) ret 0 (lost_in s s') R' /\ sees pd s' R'.
Proof.
  intros HS Hacc. cbn [do_request]. unfold ipa_nat_del_ipv4_rule, VALID_RULE_HDL.
  change (VALID_TBL_HDL hybrid_tbl_hdl) with true. cbn [negb orb].
  destruct (h =? IPA_TABLE_INVALID_ENTRY) eqn:E; zb; cbn [negb].
  { subst h. exists (- EINVAL), s, R. split; [done|]. split; [now apply sm_spec_del_invalid|exact HS]. }
  destruct (del_runs RD pd s R h HS Hacc) as (s' & Hr & Ho).
  unfold ipa_nati_del_ipv4_rule. change (ArgsDelRule hybrid_tbl_hdl h) with (del_args h). rewrite Hr.
  cbn [mbind exec_bind fst snd]. exists 0, s'. destruct Ho as [[Hn HS']|(Hn & R1 & Hk & HS')].
  - exists R. split; [done|]. split; [now apply sm_spec_del_unknown|exact HS'].
  - exists R1. split; [done|]. split; [|exact HS']. apply sm_spec_del; [exact E|exact Hn|now apply kept_moved].
Qed.

Lemma simulate_query s R h ts0 :
  sees pd s R ->
  exists ret out, do_request (ReqQuery h ts0) s = Done (ret, out, s) /\
    sm_spec pd R (ReqQuery h ts0) ret out (lost_in s s) R.
Proof.
  intros HS. cbn [do_request]. unfold ipa_nat_query_timestamp, VALID_RULE_HDL.
  change (VALID_TBL_HDL hybrid_tbl_hdl) with true. cbn [negb orb].
  destruct (h =? IPA_TABLE_INVALID_ENTRY) eqn:E; zb; cbn [negb].
  { subst h. exists (- EINVAL), ts0. split; [done|]. now apply sm_spec_query_invalid. }
  unfold ipa_nati_query_timestamp. change (ArgsStamp hybrid_tbl_hdl h (Some ts0)) with (stamp_args h ts0).
  rewrite (query_runs RD pd s R h ts0 HS). cbn [mbind exec_bind fst snd stamp_args written].
  eexists _, _. split; [reflexivity|]. now apply sm_spec_query.
Qed.

(** Every legal call returns as the specification says. *)
Lemma simulate_request s R q :
  sees pd s R -> legal_request pd s q ->
  exists ret out s' R', do_request q s = Done (ret, out, s') /\
    sm_spec pd R q ret out (lost_in s s') R' /\ sees pd s' R'.
Proof.
  intros HS HL. destruct q as [u h0|h|h ts0| |m hold].
  - destruct (simulate_addition s R u h0 HS HL) as (h & s' & R' & H). now exists 0, h, s', R'.
  - destruct (simulate_del s R h HS HL) as (ret & s' & R' & H). now exists ret, 0, s', R'.
  - destruct (simulate_query s R h ts0 HS) as (ret & out & Hr & H). now exists ret, out, s, R.
  - destruct (clear_runs RD pd s R HS) as (s' & Hr & HS'). exists 0, 0, s', no_rules.
    cbn [do_request]. unfold ipa_nati_clear_ipv4_tbl, hybrid_tbl_hdl. rewrite Hr.
    split; [done|]. split; [now apply sm_spec_clear|exact HS'].
  - destruct (switch_to_runs RD pd s R m hold HS HL) as (s' & R' & Hr & Hk & HS'). exists 0, 0, s', R'.
    cbn [do_request]. rewrite Hr. split; [done|]. split; [|exact HS']. apply sm_spec_switch. now apply kept_moved.
Qed.

Lemma simulate_requests qs : forall s R,
  sees pd s R -> legal_requests pd s qs ->
  exists es s' R', run_requests qs s = Done (es, s') /\ sm_spec_run pd R es R' /\ sees pd s' R'.
Proof.
  induction qs as [|q qs IH]; intros s R HS HL.
  { exists [], s, R. split; [done|]. split; [constructor|exact HS]. }
  inversion HL as [|? ? ? Hq Hqs]; subst.
  destruct (simulate_request s R q HS Hq) as (ret & out & s1 & R1 & Hr & Hsp & HS1).
  destruct (IH s1 R1 HS1 (Hqs _ _ _ Hr)) as (es & s' & R' & Hrun & Hspec & HS').
  exists ((q, ret, out, lost_in s s1) :: es), s', R'. cbn [run_requests]. rewrite Hr.
  cbn [mbind exec_bind]. rewrite Hrun. split; [done|]. split; [|exact HS'].
  now apply sm_spec_more with R1.
Qed.
End Requests.
