(* ===== verification/IpaNatSmThms.v ===== *)
(** What holds of the memory state machine of the IPv4 NAT library: creation
    of the hybrid tables, the rules through switches, how deep the machine
    runs, and what its results hide. *)
From stdpp Require Import gmap.
From S2P Require Import Prelude.
From S2P Require Import Bits.
From S2P Require Import Chains.
From S2P Require Import IpaTable.
From S2P Require Import IpaTableSize.
From S2P Require Import IpaMemDesc.
From S2P Require Import IpaDma.
From S2P Require Import IpaTableWalk.
From S2P Require Import IpaTableWf.
From S2P Require Import IpaTableMark.
From S2P Require Import IpaTableInit.
From S2P Require Import IpaNatEntry.
From S2P Require Import IpaNatDrv.
From S2P Require Import IpaNatCalls.
From S2P Require Import IpaNatSpec.
From S2P Require Import IpaNatApi.
From S2P Require Import IpaNatRefine.
From S2P Require Import IpaNatMap.
From S2P Require Import IpaNatSm.
From S2P Require Import IpaNatSmRun.
From S2P Require Import IpaNatSmSpec.
From S2P Require Import IpaNatSmMove.
From S2P Require Import IpaNatSmCalls.
From S2P Require Import IpaNatThms.
From S2P Require Import IpaNatSmCreate.
From S2P Require Import IpaNatSmRefine.

(** ** A concrete environment, used in the instances *)

(** SRAM has room for tables of 8 + 2 records; the DDR tables made for 20
    entries have 16 + 4. *)
Definition sm_demo_kernel : ipa3_context :=
  {| nat_is_dev_init := true; nat_is_hw_init := true; ipv6ct_is_hw_init := true;
     ipa_hw_type := 14; sram_compatible := true; coal_ep_mapped := true; ulso_wa := false;
     nat_loc_entries := fun m => if m =? IPA_NAT_MEM_IN_SRAM then 7 else 15;
     nat_loc_expn_entries := fun _ => 4;
     ipv6ct_entries := 15; ipv6ct_expn_entries := 4; imm_cmd_ok := fun _ => true |}.

#[export] Instance sm_demo : sm_env :=
  {| sm_nat_env :=
       {| env_os := nat_demo_os; env_hw := doc_hw; env_lock := true; env_unlock := true;
          env_open := Some {| fd := 3; ver := 14 |}; env_calloc := true; env_mem := fun a => a;
          env_init := fun _ => 0; env_modify_pdn := fun _ => 0; env_vote := fun _ => 0;
          env_sram_info := (0, 400); env_kernel := sm_demo_kernel |};
     env_attr_init := 0; env_attr_settype := 0; env_mutex_create := 0; env_lock_err := 22;
     env_unlock_err := 1 |}.

Lemma sm_demo_ready : sm_ready.
Proof. now split. Qed.

Lemma sm_start_closed : both_closed (sm_nat sm_start).
Proof. split; [apply (start_nat_closed _ (mem_valid SRAM_SUB))|apply (start_nat_closed _ (mem_valid DDR_SUB))]. Qed.

Lemma sm_demo_sram : sram_info_ok.
Proof. unfold sram_info_ok. cbn. lia. Qed.

Lemma sm_demo_size :
  snd env_sram_info < sram_size_of 32768 sizeof_ipa_nat_rule sizeof_ipa_nat_indx_tbl_rule.
Proof. vm_compute. reflexivity. Qed.

Definition sm_of {A} (r : exec (A * sm_state)) : sm_state :=
  match r with Done (_, s) => s | _ => sm_start end.
Definition sm_demo_create : exec (Z * option Z * sm_state) :=
  ipa_nat_add_ipv4_tbl sm_start 0x0A000001 (Some "hybrid"%string) 20 (Some 0).
Definition sm_demo0 : sm_state := sm_of sm_demo_create.

Lemma create_hybrid {ENV : sm_env} {HWS : IpaHwSpec} s ip n h0 :
  sm_ready -> env_attr_init = 0 -> env_attr_settype = 0 -> env_mutex_create = 0 ->
  nat_offsets_zero -> sram_info_ok ->
  snd env_sram_info < sram_size_of 32768 sizeof_ipa_nat_rule sizeof_ipa_nat_indx_tbl_rule ->
  nat_mutex_init s = false -> curr_state (nati_obj s) = NATI_STATE_NULL ->
  hold_state (nati_obj s) = false -> both_closed (sm_nat s) -> sm_maps s = no_maps -> 0 < n < 65536 ->
  exists hp s', ipa_nat_add_ipv4_tbl s ip (Some "hybrid"%string) n (Some h0) = Done (0, Some hp, s') /\
    (curr_state (nati_obj s') = NATI_STATE_HYBRID -> ddr_tbl_hdl (nati_obj s') <> 0 ->
     hybrid_made ip hp s').
Proof.
  intros RD A1 A2 A3 Hoff Hinfo Hsize Hi Hst Hh C Hm Hn.
  destruct (create_runs RD Hoff Hinfo Hsize s ip n 0 Hi A1 A2 A3 Hst Hh C Hm ltac:(lia))
    as (hp & s' & Hr & Hmade).
  exists hp, s'. split; [|exact Hmade]. unfold ipa_nat_add_ipv4_tbl, ipa_nati_add_ipv4_tbl.
  rewrite (proj2 (Z.eqb_neq n 0)) by lia. rewrite Hr. reflexivity.
Qed.

Lemma sm_demo_hybrid : hybrid_made 0x0A000001 (hdl_of SRAM_SUB) sm_demo0.
Proof.
  destruct (create_hybrid (HWS := doc_hw_spec) sm_start 0x0A000001 20 0 sm_demo_ready eq_refl eq_refl
    eq_refl (fun _ => eq_refl) sm_demo_sram sm_demo_size eq_refl eq_refl eq_refl sm_start_closed eq_refl
    ltac:(lia)) as (hp & s' & Hr & Hmade).
  assert (Hs : sm_demo0 = s') by (unfold sm_demo0, sm_of, sm_demo_create; rewrite Hr; reflexivity).
  rewrite Hs.
  assert (Hc : match ipa_nat_add_ipv4_tbl sm_start 0x0A000001 (Some "hybrid"%string) 20 (Some 0) with
               | Done (_, _, s) => (bool_decide (curr_state (nati_obj s) = NATI_STATE_HYBRID),
                                    ddr_tbl_hdl (nati_obj s))
               | _ => (false, 0) end = (true, 1)) by (vm_compute; reflexivity).
  rewrite Hr in Hc. injection Hc as Hc1 Hc2. apply bool_decide_eq_true in Hc1.
  destruct (Hmade Hc1) as (-> & Hm); [rewrite Hc2; discriminate|]. split; [reflexivity|exact Hm].
Qed.

Lemma sm_demo_rule_ok p : 0 <= p < 2 ^ 16 -> rule_ok (pdns (sm_nat sm_demo0)) (nat_demo_rule p).
Proof.
  intros Hp. split; [now apply nat_demo_typed|]. split; [discriminate|].
  destruct sm_demo_hybrid as (_ & _ & q & Hq & Hip). exists q. split; [exact Hq|].
  rewrite Hip. discriminate.
Qed.

(** ** The rules in hybrid operation *)

(** The first creation of a hybrid NAT table returns 0, and
    whenever it leaves the machine in its hybrid state with a DDR table, both
    tables are there, well formed and empty, the hardware reads the SRAM one,
    the maps of handles are empty, the handle is the SRAM table's and the
    public address is that of PDN 0: the machine refines the empty map of
    rules. *)
Theorem nat_hybrid_created {ENV : sm_env} {HWS : IpaHwSpec} s ip n h0 :
  sm_ready -> env_attr_init = 0 -> env_attr_settype = 0 -> env_mutex_create = 0 ->
  nat_offsets_zero -> sram_info_ok ->
  snd env_sram_info < sram_size_of 32768 sizeof_ipa_nat_rule sizeof_ipa_nat_indx_tbl_rule ->
  nat_mutex_init s = false -> curr_state (nati_obj s) = NATI_STATE_NULL ->
  hold_state (nati_obj s) = false -> both_closed (sm_nat s) -> sm_maps s = no_maps -> 0 < n < 65536 ->
  exists hp s', ipa_nat_add_ipv4_tbl s ip (Some "hybrid"%string) n (Some h0) = Done (0, Some hp, s') /\
    (curr_state (nati_obj s') = NATI_STATE_HYBRID -> ddr_tbl_hdl (nati_obj s') <> 0 ->
     hp = MAKE_TBL_HDL 1 IPA_NAT_MEM_IN_SRAM /\ sees (pdns (sm_nat s')) s' no_rules /\
     exists p, zlookup (pdns (sm_nat s')) 0 = Some p /\ public_ip p = ip).
Proof. exact (create_hybrid s ip n h0). Qed.
Lemma nat_hybrid_created_witness :
  exists hp s', ipa_nat_add_ipv4_tbl sm_start 0x0A000001 (Some "hybrid"%string) 20 (Some 0) =
    Done (0, Some hp, s').
Proof.
  destruct (nat_hybrid_created (HWS := doc_hw_spec) sm_start 0x0A000001 20 0 sm_demo_ready eq_refl
    eq_refl eq_refl (fun _ => eq_refl) sm_demo_sram sm_demo_size eq_refl eq_refl eq_refl
    sm_start_closed eq_refl ltac:(lia)) as (hp & s' & Hr & _).
  exists hp, s'. exact Hr.
Defined.

(** C2: in hybrid operation every legal call of the rule API
    (additions, deletions, time stamp queries, clearing, switching by hand)
    returns, and a run of such calls is a run of a map from the client's
    handles to rules, which switches between SRAM and DDR do not change: a
    rule is lost only in a call that counts a failed switch, and no call
    changes a rule or makes one up.  Additions whose handle is taken, and
    refused ones, change nothing; all results but those for the handle 0
    are 0. *)
Theorem nat_hybrid_refines {ENV : sm_env} {HWS : IpaHwSpec} pd s R qs :
  sm_ready -> sees pd s R -> legal_requests pd s qs ->
  exists es s' R', run_requests qs s = Done (es, s') /\ sm_spec_run pd R es R' /\ sees pd s' R'.
Proof. intros RD HS HL. exact (simulate_requests RD pd qs s R HS HL). Qed.
Lemma nat_hybrid_refines_witness :
  let qs := [ReqAdd (nat_demo_rule 1000) 0; ReqSwitch IPA_NAT_MEM_IN_DDR false;
             ReqAdd (nat_demo_rule 1016) 0; ReqQuery 32782 5; ReqClear] in
  exists es s' R', run_requests qs sm_demo0 = Done (es, s') /\
    sm_spec_run (pdns (sm_nat sm_demo0)) no_rules es R'.
Proof.
  intros qs. destruct (nat_hybrid_refines (HWS := doc_hw_spec) (pdns (sm_nat sm_demo0)) sm_demo0 no_rules qs)
    as (es & s' & R' & Hr & Hs & _).
  - exact sm_demo_ready.
  - exact (proj1 (proj2 sm_demo_hybrid)).
  - repeat (apply legal_some; [|intros _ _ ? _]); try apply legal_none; cbn [legal_request].
    + apply sm_demo_rule_ok. lia.
    + apply (mem_valid DDR_SUB).
    + apply sm_demo_rule_ok. lia.
    + exact I.
    + exact I.
  - exists es, s', R'. split; [exact Hr|exact Hs].
Defined.

(** C17: a switch of a hybrid machine returns 0 with the hardware
    turned to the other memory, whose table is well formed and holds rules of
    the old table only, under the handles the client has; if the switch is
    not counted as failed it holds them all. *)
Theorem nat_switch_correct {ENV : sm_env} {HWS : IpaHwSpec} pd sub s x y :
  sm_ready -> hybrid pd sub s x y ->
  exists s' z, run_sm s NATI_TRIG_TBL_SWITCH ArgsNull = Done (0, ArgsNull, s') /\
    hybrid pd (other sub) s' z x /\ hold_state (nati_obj s') = hold_state (nati_obj s) /\
    (forall h v, view (sm_maps s') (other sub) z h = Some v -> view (sm_maps s) sub x h = Some v) /\
    (failures s' = failures s ->
     forall h, view (sm_maps s') (other sub) z h = view (sm_maps s) sub x h).
Proof.
  intros RD H. destruct (switch_runs RD pd 1 sub s x y H) as (s' & z & Hr & H' & Hh & Hk & Heq).
  exists s', z. split; [exact Hr|]. split; [exact H'|]. split; [exact Hh|]. split; [exact Hk|exact Heq].
Qed.
Lemma nat_switch_correct_witness : exists s', run_sm sm_demo0 NATI_TRIG_TBL_SWITCH ArgsNull = Done (0, ArgsNull, s').
Proof.
  destruct sm_demo_hybrid as (_ & (sub & x & y & H & _) & _).
  destruct (nat_switch_correct (HWS := doc_hw_spec) _ sub sm_demo0 x y sm_demo_ready H) as (s' & _ & Hr & _).
  exists s'. exact Hr.
Defined.

(** ** Runs of the machine *)

(** C40: the callbacks run the machine again, but never more than
    three deep, whatever the state, trigger and arguments: in the machine that
    allows [d >= 3] runs inside each other and does [bottom] instead of one
    more, [bottom] (an error, a change of the state, a run that never ends)
    is never reached, since the outcome is the same for every [bottom]. *)
Theorem nat_sm_nesting {ENV : sm_env} (bottom : sm_run) d s trigger args :
  (3 <= d)%nat -> statemach_over bottom d s trigger args = run_sm s trigger args.
Proof.
  intros Hd. pose proof (nesting_bounds (curr_state (nati_obj s)) trigger).
  unfold run_sm. rewrite statemach_timeout. apply statemach_depth; lia.
Qed.
Lemma nat_sm_nesting_witness :
  statemach_over (fun s _ args => Done (-1, args, s)) 7 sm_demo0 NATI_TRIG_TBL_SWITCH ArgsNull =
    run_sm sm_demo0 NATI_TRIG_TBL_SWITCH ArgsNull /\
  statemach_over (fun s _ args => Done (-1, args, s)) 1 sm_demo0 NATI_TRIG_TBL_SWITCH ArgsNull <>
    run_sm sm_demo0 NATI_TRIG_TBL_SWITCH ArgsNull.
Proof. split; [apply (nat_sm_nesting _ 7); lia|]. vm_compute. discriminate. Defined.

(** With a working mutex every run of the machine that comes
    back returns 0, whatever its callback returned: undefined triggers,
    refused rules, unknown handles and failed switches look like successes. *)
Theorem nat_sm_results_masked {ENV : sm_env} s trigger args ret args' s' :
  mutex_works s -> run_sm s trigger args = Done (ret, args', s') -> ret = 0.
Proof.
  intros Hw Hr. change run_sm with (statemach_body (ipa_nati_statemach 2)) in Hr.
  exact (proj1 (body_result (ipa_nati_statemach 2) (statemach_mutex 2) s trigger args ret args' s' Hw Hr)).
Qed.
Lemma nat_sm_results_masked_witness :
  match run_sm sm_start NATI_TRIG_DEL_RULE (ArgsDelRule 1 32769) with
  | Done (ret, _, _) => ret = 0
  | _ => False
  end /\ _smUndef sm_start NATI_TRIG_DEL_RULE (ArgsDelRule 1 32769) = Done (-1, ArgsDelRule 1 32769, sm_start).
Proof.
  split; [|reflexivity].
  destruct (run_sm sm_start NATI_TRIG_DEL_RULE (ArgsDelRule 1 32769)) as [[[ret args'] s']| |] eqn:E;
    [|vm_compute in E; discriminate E..].
  apply (nat_sm_results_masked sm_start NATI_TRIG_DEL_RULE (ArgsDelRule 1 32769) ret args' s'); [|exact E].
  split; [reflexivity|]. split; [reflexivity|]. intros _. split; [reflexivity|split; reflexivity].
Defined.

(** ** A handle given out twice *)
Definition sm_demo_add (s : sm_state) (p : Z) : exec (Z * option Z * sm_state) :=
  r ← ipa_nat_add_ipv4_rule s hybrid_tbl_hdl (Some (nat_demo_rule p)) (Some 0);
  let '(ret, _, h, s) := r in Done (ret, h, s).
Definition sm_demo_del (s : sm_state) (h : Z) : sm_state :=
  sm_of (ipa_nat_del_ipv4_rule s hybrid_tbl_hdl h).
Definition sm_demo_switch (s : sm_state) (m : Z) : sm_state := sm_of (ipa_nat_switch_to s m false).

(** Two rules that collide, the first deleted, the tables switched to DDR and
    back: the second rule's record is now where the first one's was. *)
Definition sm_demo1 : sm_state := sm_of (sm_demo_add sm_demo0 1000).
Definition sm_demo2 : sm_state := sm_of (sm_demo_add sm_demo1 1016).
Definition sm_demo3 : sm_state := sm_demo_del sm_demo2 32782.
Definition sm_demo4 : sm_state := sm_demo_switch (sm_demo_switch sm_demo3 IPA_NAT_MEM_IN_DDR) IPA_NAT_MEM_IN_SRAM.
Definition sm_demo5 : sm_state := sm_of (sm_demo_add sm_demo4 1000).
Definition sm_demo6 : sm_state := sm_demo_del sm_demo5 32769.

Definition result_of {A} (r : exec (A * sm_state)) : option A :=
  match r with Done (a, _) => Some a | _ => None end.
(** The private ports of the rules in the SRAM table. *)
Definition sm_demo_ports (s : sm_state) : list Z :=
  match zlookup (ipv4_nat_cache (sm_nat s)) IPA_NAT_MEM_IN_SRAM with
  | Some c =>
      flat_map (fun x => flat_map (fun e =>
        if table_entry_is_valid e && negb (fget protocol e =? IPAHAL_NAT_INVALID_PROTOCOL)
        then [fget private_port e] else []) (recs (table x))) (ip4_tbl c)
  | None => []
  end.

(** A handle can be given out twice.  The handle of a new rule is
    that of its record, while a rule that was moved keeps the handle of its
    first record: here, in a concrete run without any failure, the rule of
    port 1000 gets the handle the client has for that of port 1016.  Both
    additions return 0; deleting the handle takes the rule of port 1016 away
    and leaves the other one in force under no handle. *)
Theorem nat_sm_handle_issued_twice :
  result_of (sm_demo_add sm_demo1 1016) = Some (0, Some 32769) /\
  sm_demo_ports sm_demo4 = [1016] /\
  result_of (sm_demo_add sm_demo4 1000) = Some (0, Some 32769) /\
  sm_demo_ports sm_demo5 = [1016; 1000] /\ failures sm_demo5 = failures sm_demo0 /\
  sm_demo_ports sm_demo6 = [1000] /\ get_map (o2n SRAM_SUB) (sm_maps sm_demo6) = ∅.
Proof. vm_compute. split_and!; reflexivity. Qed.

(** ** A deletion the kernel refuses *)
Definition sm_demo_refusing : sm_env :=
  {| sm_nat_env :=
       {| env_os := nat_demo_os; env_hw := doc_hw; env_lock := true; env_unlock := true;
          env_open := Some {| fd := 3; ver := 14 |}; env_calloc := true; env_mem := fun a => a;
          env_init := fun _ => 0; env_modify_pdn := fun _ => 0; env_vote := fun _ => 0;
          env_sram_info := (0, 400); env_kernel := nat_demo_kernel false |};
     env_attr_init := 0; env_attr_settype := 0; env_mutex_create := 0; env_lock_err := 22;
     env_unlock_err := 1 |}.

(** The machine forgets a rule's handle before it asks the
    kernel to delete the rule: when the kernel refuses, the call still
    returns 0, the rule stays in force, and later calls with its handle,
    which also return 0, neither delete it nor read its time stamp (concrete
    run). *)
Theorem nat_sm_refused_deletion_forgotten :
  let refused := ipa_nat_del_ipv4_rule (ENV := sm_demo_refusing) sm_demo1 hybrid_tbl_hdl 32782 in
  let s := sm_of refused in
  result_of refused = Some 0 /\ sm_demo_ports s = [1000] /\
  result_of (ipa_nat_del_ipv4_rule s hybrid_tbl_hdl 32782) = Some 0 /\
  sm_demo_ports (sm_demo_del s 32782) = [1000] /\
  result_of (ipa_nat_query_timestamp s hybrid_tbl_hdl 32782 (Some 5)) = Some (0, Some 5).
Proof. vm_compute. split_and!; reflexivity. Qed.
