(* ===== verification/IpaTableThms.v ===== *)
(** The properties of the generic hash table of ipa_table.c, of the kernel
    path its commands go through (ipa_nat.c) and of the checksum differences
    it stores, each with an instance on the tables of the NAT library. *)
From S2P Require Import Prelude.
From S2P Require Import Bits.
From S2P Require Import Chains.
From S2P Require Import IpaTable.
From S2P Require Import IpaTableSize.
From S2P Require Import IpaMemDesc.
From S2P Require Import IpaDma.
From S2P Require Import IpaTableWf.
From S2P Require Import IpaTableAdd.
From S2P Require Import IpaTableDel.
From S2P Require Import IpaTableMark.
From S2P Require Import IpaTableWalk.
From S2P Require Import IpaTableInit.
From S2P Require Import IpaIpv6ctEntry.
From S2P Require Import IpaNatEntry.
From S2P Require Import IpaNatDrv.
From S2P Require Import IpaNatCalls.
From S2P Require Import IpaNatSpec.
From S2P Require Import IpaNatApi.
From S2P Require Import IpaNatThms.

(** ** The tables of the instances: two rules in a bucket, then none *)
Definition demo_table : ipa_table := table (pair_of nat_demo2).

Lemma demo_table_ok :
  exists ch, table_ok (U := nat_user) IPA_NAT_BASE_TBL IPA_NAT_EXPN_TBL 0 demo_table ch.
Proof.
  destruct nat_demo_open2 as [c d ch chi _ _ _ _ _ _ _ OK _]. exists ch.
  exact (mk_tbl _ _ _ _ _ (n_tbl _ _ _ OK)).
Qed.

Lemma demo_chain_at ch :
  table_ok (U := nat_user) IPA_NAT_BASE_TBL IPA_NAT_EXPN_TBL 0 demo_table ch -> ch 15 = [15; 16].
Proof.
  intros T. rewrite <- (chain_of_ok _ _ _ demo_table ch 15 T); [vm_compute; reflexivity|].
  intros H. apply (bucket_nil _ _ _ demo_table ch 15 T) in H; [|vm_compute; split; reflexivity].
  vm_compute in H. discriminate H.
Qed.

Section Table.
Context {U : Type} {EI : EntryInterface U} {EL : EntryLaws U} {HW : IpaHw} {HWS : IpaHwSpec}.
Context (bt et ti : Z).

(** What a finished preparation amounts to: once the commands are executed
    the record is the last of its bucket's chain; erased instead, the table
    is as before. *)
Definition prepared (t : ipa_table) (ch : chain_map) (b idx : Z) (v : lw_V) (t' : ipa_table)
    (ds : list nat_dma_one) : Prop :=
  (table_ok bt et ti (dma_apply ds t') (upd ch b (ch b ++ [idx])) /\
   forall i, content (dma_apply ds t') i = upd (content t) idx (Some v) i) /\
  (exists t3, ipa_table_erase_entry t' idx = Done t3 /\ table_ok bt et ti t3 ch /\
     forall i, content t3 i = content t i).
End Table.

(** C23: adding a record to a bucket either prepares a free record and
    the commands that link it, such that executing them appends it to the
    bucket's chain and erasing it undoes everything; or fails without a
    command, with the same chains and contents, because the record was refused
    or the expansion table is full. *)
Theorem table_add_correct {U} {EI : EntryInterface U} {EL : EntryLaws U} (HW : IpaHw) (HWS : IpaHwSpec)
    bt et ti t ch b u hdl cmd :
  table_ok bt et ti t ch -> 0 < b < table_entries t -> lw_user u ->
  exists ret t' idx hdl' cmd', ipa_table_add_entry t u b hdl cmd = Done (ret, t', idx, hdl', cmd') /\
    (ret = 0 /\ (exists ds, cmd' = cmd_app cmd ds /\ prepared bt et ti t ch b idx (lw_img u) t' ds) /\
       link t idx = None /\ hdl' = match hdl with Some _ => Some (MakeEntryHdl t idx) | None => None end \/
     ret <> 0 /\ hdl' = hdl /\ cmd' = cmd /\ table_ok bt et ti t' ch /\
       (forall i, content t' i = content t i) /\
       (refused u ret \/
        ret = -1 /\ ch b <> [] /\ forall c, table_entries t <= c < tot t -> link t c <> None)).
Proof.
  intros T Hb Hu.
  destruct (add_entry_spec bt et ti t ch b u hdl cmd T Hb Hu) as (ret & t' & idx & hdl' & cmd' & E & H).
  do 5 eexists. split; [exact E|]. destruct H as [(-> & ds & P & -> & ->)|H]; [left|right].
  - split; [done|]. split; [|split; [|done]].
    + exists ds. split; [done|]. split; [exact (pending_commit bt et ti t ch _ b idx t' ds T P)|].
      destruct (pending_abort bt et ti t ch _ b idx t' ds T P) as (t3 & E3 & T3 & _ & C3). eauto.
    + destruct P as (e' & hd & _ & _ & P & _). exact P.
  - destruct H as (H1 & H2 & H3 & H4 & _ & H5 & H6). done.
Qed.
Lemma table_add_correct_witness :
  exists ret t' idx hdl' cmd', ipa_table_add_entry (U := nat_user) demo_table
    (pdns nat_demo2, nat_demo_rule 1032) 15 (Some 0) empty_cmd = Done (ret, t', idx, hdl', cmd').
Proof.
  destruct demo_table_ok as [ch T].
  destruct (table_add_correct doc_hw doc_hw_spec _ _ _ demo_table ch 15
    (pdns nat_demo2, nat_demo_rule 1032) (Some 0) empty_cmd T) as (r & t' & i & h & c & H & _);
    [vm_compute; split; reflexivity| |exists r, t', i, h, c; exact H].
  split; [apply nat_demo_typed; lia|split; vm_compute; reflexivity].
Defined.

(** C24: deleting a record that is not a head with followers: the
    iterator finds its neighbours, one command is built, and once it is
    executed the record is unlinked from its bucket's chain and is the only
    one whose content is gone. *)
Theorem table_delete_correct {U} {EI : EntryInterface U} {EL : EntryLaws U} (HW : IpaHw) (HWS : IpaHwSpec)
    bt et ti t ch b l c r cmd :
  table_ok bt et ti t ch -> ch b = l ++ c :: r -> (l = [] -> r = []) ->
  exists it ds t2, ipa_table_iterator_init t (Some c) c = Done (0, it) /\
    ipa_table_create_delete_command t cmd it = Done (cmd_app cmd ds) /\ length ds = 1%nat /\
    ipa_table_delete_entry (dma_apply ds t) it false = Done t2 /\
    table_ok bt et ti t2 (upd ch b (l ++ r)) /\
    forall i, content t2 i = upd (content t) c None i.
Proof.
  intros T E Hlr. exists (iter_at l c r), (delete_cmds bt et ti t l c r).
  pose proof (iterator_init_ok bt et ti t ch b l c r T E) as Hi.
  pose proof (create_delete_command_ok bt et ti t ch b l c r cmd T E) as Hc.
  pose proof (proj2 (delete_own bt et ti t l c r)) as Hd.
  destruct l as [|x l _] using rev_ind.
  - rewrite (Hlr eq_refl) in *. cbn [app] in E.
    assert (b = c) as -> by (destruct (ck_cons (ok_chains _ _ _ _ _ T) b c) as (tl & E' & _);
      [rewrite E; left|rewrite E in E'; now injection E']).
    destruct (delete_alone bt et ti t ch c false T E) as (t2 & Hx & T2 & _ & C2 & _). eauto 10.
  - assert (E' : ch b = l ++ x :: c :: r) by (rewrite E; now rewrite <- app_assoc).
    destruct (delete_linked bt et ti t ch b l x c r false T E') as (t2 & Hx & T2 & _ & C2 & _);
      [done|]. exists t2. rewrite <- app_assoc. eauto 10.
Qed.
Lemma table_delete_correct_witness :
  exists it ds t2, ipa_table_iterator_init (U := nat_user) demo_table (Some 16) 16 = Done (0, it) /\
    ipa_table_delete_entry (U := nat_user) (dma_apply ds demo_table) it false = Done t2.
Proof.
  destruct demo_table_ok as [ch T].
  destruct (table_delete_correct doc_hw doc_hw_spec _ _ _ demo_table ch 15 [15] 16 [] empty_cmd T)
    as (it & ds & t2 & H1 & _ & _ & H2 & _); [exact (demo_chain_at ch T)|done|].
  exists it, ds, t2. split; assumption.
Defined.

(** The handle made for a record is decoded to that record, and
    any other handle is decoded to a record of the table or refused. *)
Theorem table_handle_roundtrip t i :
  0 <= table_entries t <= 4096 -> 0 <= expn_table_entries t <= 4096 -> 0 <= nmi t < 2 ->
  tot_tbl_ents t = table_entries t + expn_table_entries t -> 0 <= i < tot_tbl_ents t ->
  ipa_table_get_entry t (MakeEntryHdl t i) = (0, Some (Some i, i)) /\
  0 <= MakeEntryHdl t i < 65536 /\
  forall h, ipa_table_get_entry t h = (- EINVAL, None) \/
    exists j, ipa_table_get_entry t h = (0, Some (Some j, j)) /\ 0 <= j < tot_tbl_ents t.
Proof.
  intros Hb He Hn Ht Hi. rewrite Ht in Hi. split; [now apply get_entry_handle|]. split.
  - destruct (make_handle t i) as [-> | H]; [apply u16_range|lia].
  - intros h. apply (get_entry_total t h). lia.
Qed.
Lemma table_handle_roundtrip_witness :
  ipa_table_get_entry demo_table (MakeEntryHdl demo_table 17) = (0, Some (Some 17, 17)).
Proof.
  apply table_handle_roundtrip; vm_compute; try split; congruence || reflexivity.
Defined.

(** Walking a table applies the callback to the filled (or the
    empty) records in index order, with their handles, and stops at the first
    non-zero result, which is the walk's. *)
Theorem table_walk_correct {U} {EI : EntryInterface U} {S} t start w (cb : walk_cb S) s :
  zlength (recs t) = table_entries t + expn_table_entries t ->
  table_entries t + expn_table_entries t <= 65535 -> 0 <= table_entries t -> 0 <= start ->
  ipa_table_walk t start w cb s =
    (if start <? table_entries t + expn_table_entries t
     then Done (visit t cb (selection t w start) s) else Done (- EINVAL, s)).
Proof.
  intros Hl Ht Hb Hs. destruct (start <? _) eqn:E; zb; [now apply walk_ok|].
  unfold ipa_table_walk. now rewrite Z.geb_leb, (proj2 (Z.leb_le _ _)) by lia.
Qed.
Lemma table_walk_correct_witness :
  ipa_table_walk (U := nat_user) demo_table 0 WHEN_SLOT_FILLED (fun _ _ _ i _ l => (0, l ++ [i])) [] =
    Done (0, [15; 16]).
Proof.
  rewrite (table_walk_correct demo_table 0 WHEN_SLOT_FILLED _ []);
    [vm_compute; reflexivity|vm_compute; reflexivity|vm_compute; discriminate|vm_compute; discriminate|lia].
Defined.

(** Resetting a well-formed table leaves a well-formed one with
    no chain and no content, ready to be used again. *)
Theorem table_reset_correct {U} {EI : EntryInterface U} {EL : EntryLaws U} bt et ti t ch :
  table_ok bt et ti t ch ->
  exists t', ipa_table_reset t = Done t' /\ (forall j e, zlookup (recs t') j = Some e -> e = 0) /\
    table_ok bt et ti (set_cnts 0 0 t') no_chains /\ forall i, content (set_cnts 0 0 t') i = None.
Proof.
  intros T. pose proof (ok_geom _ _ _ _ _ T) as G. pose proof (g_expn _ _ _ _ G).
  pose proof (g_base _ _ _ _ G). pose proof (g_len _ _ _ _ G) as Hl. unfold tot in Hl.
  destruct (reset_ok t) as (r & -> & Hr & Hz); [lia..|]. eexists. split; [reflexivity|].
  split; [exact Hz|]. apply empty_ok; [|exact Hz|done|done].
  apply (geom_update _ _ _ t _ G); [done|exact Hr|exact (g_meta _ _ _ _ G)].
Qed.
Lemma table_reset_correct_witness :
  exists t', ipa_table_reset demo_table = Done t' /\ forall j e, zlookup (recs t') j = Some e -> e = 0.
Proof.
  destruct demo_table_ok as [ch T].
  destruct (table_reset_correct _ _ _ demo_table ch T) as (t' & H1 & H2 & _).
  exists t'. split; assumption.
Defined.

(** ** The kernel's validation *)

(** A command the kernel lets through: an initialised table, and an offset
    that is inside it. *)
Definition in_table (k : ipa3_context) (mem : Z) (d : nat_dma_one) : Prop :=
  table_index d < 1 /\ IPA_NAT_BASE_TBL <= base_addr d <= IPA_IPV6CT_EXPN_TBL /\
  (if base_addr d <=? IPA_NAT_INDEX_EXPN_TBL then nat_is_hw_init k = true
   else IPA_HW_v4_0 <= ipa_hw_type k /\ ipv6ct_is_hw_init k = true) /\
  offset d < ipa3_nat_ipv6ct_calculate_table_size k mem (base_addr d).

Lemma validate_one_ok k mem d :
  ipa3_table_validate_table_dma_one k mem d = 0 <-> in_table k mem d /\
    ipa3_nat_ipv6ct_calculate_table_size k mem (base_addr d) <> 0.
Proof.
  unfold ipa3_table_validate_table_dma_one, in_table, IPA_NAT_BASE_TBL, IPA_NAT_INDEX_EXPN_TBL,
    IPA_IPV6CT_BASE_TBL, IPA_IPV6CT_EXPN_TBL.
  set (size := ipa3_nat_ipv6ct_calculate_table_size _ _ _).
  destruct (table_index d >=? 1) eqn:E1; zb; [split; [intros X; discriminate X|intros [(? & _) _]; lia]|].
  set (dev := if (0 <=? base_addr d) && (base_addr d <=? 3) then _ else _).
  assert (Hdev : dev = 0 <-> 0 <= base_addr d <= 5 /\
            (if base_addr d <=? 3 then nat_is_hw_init k = true
             else IPA_HW_v4_0 <= ipa_hw_type k /\ ipv6ct_is_hw_init k = true)).
  { unfold dev. destruct (0 <=? base_addr d) eqn:B0, (base_addr d <=? 3) eqn:B3,
      (base_addr d =? 4) eqn:B4, (base_addr d =? 5) eqn:B5; zb; cbn [andb orb]; try lia;
      try (split; [discriminate|lia]);
      repeat match goal with |- context [if ?b then _ else _] => destruct b eqn:? end; zb;
      (split; [intros X; try discriminate X; split_and!; (done || lia)|intros X; intuition (done || lia)]). }
  destruct (dev =? 0) eqn:Ed; zb; cbn [negb].
  2:{ split; [congruence|]. intros [(_ & Hb & Hi & _) _]. destruct Ed. now apply Hdev. }
  apply Hdev in Ed as [Hb Hi]. destruct (size =? 0) eqn:Es; zb.
  { split; [intros X; discriminate X|]. now intros [_ X]. }
  destruct (offset d >=? size) eqn:Eo; zb.
  - split; [intros X; discriminate X|]. intros [(_ & _ & _ & X) _]. lia.
  - split; [|done]. intros _. split; [|exact Es]. split_and!; done || lia.
Qed.

Lemma validate_all_ok k mem ds :
  validate_all k mem ds = 0 -> Forall (in_table k mem) ds.
Proof.
  induction ds as [|d ds IH]; cbn [validate_all]; [constructor|].
  destruct (_ =? 0) eqn:E; zb; cbn [negb]; [|congruence].
  intros H. constructor; [now apply validate_one_ok in E|auto].
Qed.

(** C37: a command list is executed as a whole or not at all: the
    kernel hands over the first [entries] commands (at least one, at most the
    number of descriptors it has left), each on an initialised table at an
    offset inside it, and answers 0; or it hands over nothing and fails. *)
Theorem kernel_dma_all_or_none (HW : IpaHw) (k : ipa3_context) cmd :
  let mem := if sram_compatible k then mem_type cmd else 0 in
  let '(ret, ds) := ipa3_table_dma_cmd k cmd in
  ret = 0 /\ ds = take (Z.to_nat (entries cmd)) (dma cmd) /\ Forall (in_table k mem) ds /\
    nat_is_dev_init k = true /\ entries cmd <> 0 /\
    entries cmd < IPA_MAX_NUM_OF_TABLE_DMA_CMD_DESC - (if coal_ep_mapped k then 1 else 0) \/
  ret <> 0 /\ ds = [].
Proof.
  cbn zeta. unfold ipa3_table_dma_cmd. set (mem := if sram_compatible k then _ else _).
  set (ds := take _ _).
  destruct (nat_is_dev_init k); cbn [negb]; [|now right].
  destruct (negb (IPA_VALID_NAT_MEM_IN mem)); [now right|].
  destruct (_ || _) eqn:En; zb; [now right|].
  destruct (validate_all k mem ds =? 0) eqn:E1; zb; cbn [negb]; [|now right].
  destruct (negb (forallb _ _)); [now right|].
  destruct (hw_send_cmd ds =? 0) eqn:E2; zb; [left; rewrite E2|now right].
  split_and!; [done|done|exact (validate_all_ok k mem ds E1)|done|done|lia].
Qed.

(** The sixteen-bit write of an accepted command lies inside
    its table when the offset is even; the last byte of every table is also
    accepted as an offset, whose write ends one byte behind the table. *)
Theorem kernel_dma_halfword (k : ipa3_context) mem d :
  let size := ipa3_nat_ipv6ct_calculate_table_size k mem (base_addr d) in
  ipa3_table_validate_table_dma_one k mem d = 0 ->
  (Z.even (offset d) = true -> offset d + 2 <= size) /\
  ipa3_table_validate_table_dma_one k mem {| table_index := table_index d;
    base_addr := base_addr d; offset := size - 1; data := data d |} = 0.
Proof.
  intros size H. apply validate_one_ok in H as [(Ht & Hb & Hi & Ho) Hs]. fold size in Ho, Hs.
  assert (He : 0 <= size /\ Z.even size = true).
  { unfold size, ipa3_nat_ipv6ct_calculate_table_size, IPAHAL_NAT_IPV4_size,
      IPAHAL_NAT_IPV4_INDEX_size, IPAHAL_NAT_IPV6CT_size.
    assert (Heven : forall c n, Z.even c = true -> 0 <= u32 (c * n) /\ Z.even (u32 (c * n)) = true).
    { intros c n Hc. unfold u32. split; [apply Z.mod_pos_bound; lia|].
      rewrite Z.mod_eq, Z.even_sub, Z.even_mul, Hc, Z.even_mul by lia. done. }
    repeat case_test; try now apply Heven. done. }
  destruct He as [H0 He]. split.
  - intros Hev. destruct (Z.eq_dec (offset d + 1) size) as [<-|]; [|lia].
    rewrite Z.even_add, Hev in He. discriminate He.
  - apply validate_one_ok. split; [|exact Hs]. unfold in_table. cbn [table_index base_addr offset]. fold size.
    split; [exact Ht|]. split; [exact Hb|]. split; [exact Hi|lia].
Qed.
Lemma kernel_dma_halfword_witness :
  ipa3_table_validate_table_dma_one (nat_demo_kernel true) 0
    {| table_index := 0; base_addr := IPA_NAT_BASE_TBL; offset := 511; data := 0 |} = 0.
Proof.
  apply (kernel_dma_halfword (nat_demo_kernel true) 0
    {| table_index := 0; base_addr := IPA_NAT_BASE_TBL; offset := 2; data := 0 |}
    ltac:(vm_compute; reflexivity)).
Defined.

(** ** What the records hold *)

(** The stored checksum differences are 16-bit one's-complement
    differences: of the public and the private address, and of the public and
    the private address and port. *)
Theorem nat_checksum_differences p pp q qp :
  0 <= p < 2 ^ 32 -> 0 <= q < 2 ^ 32 -> 0 <= pp < 65536 -> 0 <= qp < 65536 ->
  let ip := ipa_nati_calc_ip_cksum p q in
  let l4 := ipa_nati_calc_tcp_udp_cksum p pp q qp in
  0 <= ip <= 65535 /\ ip mod 65535 = (halves p - halves q) mod 65535 /\
  0 <= l4 <= 65535 /\ l4 mod 65535 = ((halves p + pp) - (halves q + qp)) mod 65535.
Proof.
  intros Hp Hq Hpp Hqp. cbn zeta. destruct (ip_cksum_ok p q Hp Hq).
  now destruct (tcp_udp_cksum_ok p pp q qp Hp Hq Hpp Hqp).
Qed.
Lemma nat_checksum_differences_witness :
  ipa_nati_calc_ip_cksum 0x0A000001 0xC0A80002 mod 65535 = (halves 0x0A000001 - halves 0xC0A80002) mod 65535.
Proof. apply (nat_checksum_differences 0x0A000001 80 0xC0A80002 1000); lia. Defined.

(** The hashes of a rule, with or without the token step of
    dst_only and src_only rules, name a base record: never the unused record
    0, never one of the expansion part. *)
Theorem nat_bucket_in_base ver0 pd token n u :
  1 < n -> 0 < nat_bucket ver0 pd token (n - 1) u < n /\ 0 < index_bucket token (n - 1) u < n.
Proof.
  intros Hn. pose proof (nat_bucket_range ver0 pd token (n - 1) u ltac:(lia)).
  pose proof (index_bucket_range token (n - 1) u ltac:(lia)). lia.
Qed.
Lemma nat_bucket_in_base_witness :
  0 < nat_bucket 14 (pdns nat_demo2) 69 (16 - 1) (nat_demo_rule 1000) < 16.
Proof. apply (nat_bucket_in_base 14 (pdns nat_demo2) 69 16 (nat_demo_rule 1000)). lia. Defined.

(** Copying a client's rule writes every field of the hardware
    record, truncated to its width, the checksum differences of its public
    address, and leaves the record not enabled and unlinked. *)
Theorem nat_entry_roundtrip pd u :
  IpaNatEntry.rule_typed u -> zlength pd = IPA_MAX_PDN_NUM -> u_pdn_index u < IPA_MAX_PDN_NUM ->
  exists e, IpaNatEntry.table_entry_copy_from_user 0 (pd, u) = Done (0, e) /\
    nat_read e = nat_wanted (pd, u) /\ fget IpaNatEntry.enable e = 0 /\
    fget IpaNatEntry.next_index_f e = 0 /\ fget IpaNatEntry.prev_index_f e = 0.
Proof. intros Hu Hl Hp. exact (IpaNatEntry.copy_ok (pd, u) (conj Hu (conj Hl Hp))). Qed.
Lemma nat_entry_roundtrip_witness :
  exists e, IpaNatEntry.table_entry_copy_from_user 0 (pdns nat_demo2, nat_demo_rule 1000) = Done (0, e) /\
    nat_read e = nat_wanted (pdns nat_demo2, nat_demo_rule 1000).
Proof.
  destruct (nat_entry_roundtrip (pdns nat_demo2) (nat_demo_rule 1000)) as (e & H1 & H2 & _);
    [apply nat_demo_typed; lia|vm_compute; reflexivity..|].
  exists e. split; assumption.
Defined.

Definition demo_ct_rule : ipa_ipv6ct_rule :=
  {| IpaIpv6ctEntry.u_src_ipv6_lsb := 1; IpaIpv6ctEntry.u_src_ipv6_msb := 0x20010DB8; IpaIpv6ctEntry.u_dest_ipv6_lsb := 2;
     IpaIpv6ctEntry.u_dest_ipv6_msb := 0x20010DB8; IpaIpv6ctEntry.u_direction_settings := IPA_IPV6CT_DIRECTION_ALLOW_ALL;
     IpaIpv6ctEntry.u_ucp := false; IpaIpv6ctEntry.u_s := false; IpaIpv6ctEntry.u_uc_activation_index := 0; IpaIpv6ctEntry.u_src_port := 1000;
     IpaIpv6ctEntry.u_dest_port := 443; IpaIpv6ctEntry.u_protocol := 6 |}.

(** The IPv6 hash is a base record: the exclusive or of the
    sixteen-bit pieces of the addresses, the ports and the protocol, masked,
    with 0 replaced by the last one. *)
Theorem ct_hash_correct (u : ipa_ipv6ct_rule) size :
  IpaIpv6ctEntry.rule_typed u -> 0 < size ->
  exists h, ipa_ipv6ct_hash u size = Done h /\ 0 < h <= size /\
    h = if Z.land (ct_mix u) size =? 0 then size else Z.land (ct_mix u) size.
Proof. exact (hash_ok u size). Qed.
Lemma ct_hash_correct_witness :
  exists h, ipa_ipv6ct_hash demo_ct_rule 15 = Done h /\ 0 < h <= 15.
Proof.
  destruct (ct_hash_correct demo_ct_rule 15) as (h & H1 & H2 & _);
    [unfold IpaIpv6ctEntry.rule_typed; cbn; lia|lia|].
  exists h. split; assumption.
Defined.
