(* ===== verification/IpaClk.v ===== *)
(** The clock reference count of the IPA driver
    (dataipa/drivers/platform/msm/ipa/ipa_v3/ipa.c,
    ipa3_inc_client_enable_clks and its relatives): the counter
    ipa3_active_clients.cnt, the vote for the clocks, and the clock plan.

    Whoever uses the hardware holds a reference; the first one turns the
    clocks on, the last one gates them.  Gating can be put off: by a TAG
    process, whose work item takes over the reference, or when the hardware is
    busy, to a delayed work item.  The power manager is told when the clocks
    are gated ([ClkListener]).  The mutex of the counter is modelled by
    splitting the release of the last reference into the part before and the
    part under the mutex; what the mutex protects is one step. *)
From S2P Require Import Prelude.

Inductive ipa3_hw_mode_t :=
| IPA_HW_MODE_NORMAL | IPA_HW_MODE_VIRTUAL | IPA_HW_MODE_PCIE
| IPA_HW_MODE_EMULATION | IPA_HW_MODE_TEST.
#[global] Instance ipa3_hw_mode_dec : EqDecision ipa3_hw_mode_t.
Proof. solve_decision. Defined.

Definition IPA_IS_REGULAR_CLK_MODE (m : ipa3_hw_mode_t) : bool :=
  match m with IPA_HW_MODE_NORMAL | IPA_HW_MODE_TEST => true | _ => false end.

(** The fields of ipa3_ctx the counting uses.  [tag_work], [dec_wq_work] and
    [dec_irq_work] are the work items ipa3_tag_work,
    ipa_dec_clients_disable_clks_on_wq_work and
    ipa_dec_clients_disable_clks_on_suspend_irq_wq_work: queued or not. *)
Record ipa3_clks := {
  ipa3_hw_mode : ipa3_hw_mode_t;
  ipa_clk_vote : Z;
  active_cnt : Z;
  bus_vote_idx : Z;
  tag_process_before_gating : bool;
  tag_work : bool;
  dec_wq_work : bool;
  dec_irq_work : bool;
  enable_clock_scaling : bool;
  curr_ipa_clk_rate : Z;
  ipa_clk_rate_svs2 : Z;
  ipa_clk_rate_svs : Z;
  ipa_clk_rate_nominal : Z;
  ipa_clk_rate_turbo : Z }.

Definition set_active_cnt (n : Z) (k : ipa3_clks) : ipa3_clks :=
  {| ipa3_hw_mode := ipa3_hw_mode k; ipa_clk_vote := ipa_clk_vote k; active_cnt := n;
     bus_vote_idx := bus_vote_idx k; tag_process_before_gating := tag_process_before_gating k;
     tag_work := tag_work k; dec_wq_work := dec_wq_work k; dec_irq_work := dec_irq_work k;
     enable_clock_scaling := enable_clock_scaling k; curr_ipa_clk_rate := curr_ipa_clk_rate k;
     ipa_clk_rate_svs2 := ipa_clk_rate_svs2 k; ipa_clk_rate_svs := ipa_clk_rate_svs k;
     ipa_clk_rate_nominal := ipa_clk_rate_nominal k; ipa_clk_rate_turbo := ipa_clk_rate_turbo k |}.

Definition set_vote (v : Z) (k : ipa3_clks) : ipa3_clks :=
  {| ipa3_hw_mode := ipa3_hw_mode k; ipa_clk_vote := v; active_cnt := active_cnt k;
     bus_vote_idx := bus_vote_idx k; tag_process_before_gating := tag_process_before_gating k;
     tag_work := tag_work k; dec_wq_work := dec_wq_work k; dec_irq_work := dec_irq_work k;
     enable_clock_scaling := enable_clock_scaling k; curr_ipa_clk_rate := curr_ipa_clk_rate k;
     ipa_clk_rate_svs2 := ipa_clk_rate_svs2 k; ipa_clk_rate_svs := ipa_clk_rate_svs k;
     ipa_clk_rate_nominal := ipa_clk_rate_nominal k; ipa_clk_rate_turbo := ipa_clk_rate_turbo k |}.

(** The TAG flag and the three work items. *)
Definition set_works (tag tagw decw irqw : bool) (k : ipa3_clks) : ipa3_clks :=
  {| ipa3_hw_mode := ipa3_hw_mode k; ipa_clk_vote := ipa_clk_vote k; active_cnt := active_cnt k;
     bus_vote_idx := bus_vote_idx k; tag_process_before_gating := tag;
     tag_work := tagw; dec_wq_work := decw; dec_irq_work := irqw;
     enable_clock_scaling := enable_clock_scaling k; curr_ipa_clk_rate := curr_ipa_clk_rate k;
     ipa_clk_rate_svs2 := ipa_clk_rate_svs2 k; ipa_clk_rate_svs := ipa_clk_rate_svs k;
     ipa_clk_rate_nominal := ipa_clk_rate_nominal k; ipa_clk_rate_turbo := ipa_clk_rate_turbo k |}.

Definition set_rate (rate idx : Z) (k : ipa3_clks) : ipa3_clks :=
  {| ipa3_hw_mode := ipa3_hw_mode k; ipa_clk_vote := ipa_clk_vote k; active_cnt := active_cnt k;
     bus_vote_idx := idx; tag_process_before_gating := tag_process_before_gating k;
     tag_work := tag_work k; dec_wq_work := dec_wq_work k; dec_irq_work := dec_irq_work k;
     enable_clock_scaling := enable_clock_scaling k; curr_ipa_clk_rate := rate;
     ipa_clk_rate_svs2 := ipa_clk_rate_svs2 k; ipa_clk_rate_svs := ipa_clk_rate_svs k;
     ipa_clk_rate_nominal := ipa_clk_rate_nominal k; ipa_clk_rate_turbo := ipa_clk_rate_turbo k |}.

(** What the hardware answers while the clocks are being gated: the result of
    ipa3_suspend_apps_pipes(true), and of gsi_pending_irq_type ([None] where
    the platform does not ask). *)
Record gate_env := { suspend_apps_pipes : Z; gsi_pending_irq_type : option Z }.

(** Nothing is pending in the hardware: gsi_pending_irq_type returns 0, or
    -EPERM when it cannot tell. *)
Definition gsi_quiet (e : gate_env) : bool :=
  match gsi_pending_irq_type e with
  | None => true
  | Some t => (t =? - EPERM) || (t =? 0)
  end.

(** The power manager, as far as the gating of the clocks concerns it. *)
Class ClkListener (P : Type) := pm_set_clock_index : Z -> P -> P.

Definition ipa3_enable_clks (k : ipa3_clks) : ipa3_clks :=
  if negb (IPA_IS_REGULAR_CLK_MODE (ipa3_hw_mode k)) then k else set_vote 1 k.

(** ipa3_inc_client_enable_clks_no_log; ipa3_inc_client_enable_clks adds only
    the logging. *)
Definition ipa3_inc_client_enable_clks (k : ipa3_clks) : ipa3_clks :=
  if negb (active_cnt k =? 0) then set_active_cnt (active_cnt k + 1) k
  else let k := ipa3_enable_clks k in set_active_cnt (active_cnt k + 1) k.

Definition ipa3_inc_client_enable_clks_no_block (k : ipa3_clks) : Z * ipa3_clks :=
  if negb (active_cnt k =? 0) then (0, set_active_cnt (active_cnt k + 1) k) else (- EPERM, k).

(** ipa3_set_clock_plan_from_pm *)
Definition ipa3_set_clock_plan_from_pm (idx : Z) (k : ipa3_clks) : Z * ipa3_clks :=
  if negb (enable_clock_scaling k) then (0, set_rate (curr_ipa_clk_rate k) idx k)
  else if negb (IPA_IS_REGULAR_CLK_MODE (ipa3_hw_mode k)) then (0, k)
  else if (idx <=? 0) || (idx >=? 5) then (- EINVAL, k)
  else
    let clk_rate := if idx =? 1 then ipa_clk_rate_svs2 k
                    else if idx =? 2 then ipa_clk_rate_svs k
                    else if idx =? 3 then ipa_clk_rate_nominal k
                    else ipa_clk_rate_turbo k in
    if clk_rate =? curr_ipa_clk_rate k then (0, k)
    else (0, set_rate clk_rate idx k).

Section Release.
Context {P : Type} `{ClkListener P}.
Implicit Types (p : P) (k : ipa3_clks) (e : gate_env).

(** ipa3_disable_clks: a pending interrupt is an assertion failure. *)
Definition ipa3_disable_clks e (s : P * ipa3_clks) : exec (P * ipa3_clks) :=
  let '(p, k) := s in
  if negb (IPA_IS_REGULAR_CLK_MODE (ipa3_hw_mode k)) then Done (p, k)
  else
    let k := set_vote 0 k in
    if negb (gsi_quiet e) then Fault
    else Done (pm_set_clock_index 0 p, set_vote 0 k).

(** __ipa3_dec_client_disable_clks before the mutex: [None] when this is the
    only client, and the mutex has to be taken. *)
Definition dec_fast k : exec (option ipa3_clks) :=
  if active_cnt k =? 0 then Fault
  else if negb (active_cnt k =? 1) then Done (Some (set_active_cnt (active_cnt k - 1) k))
  else Done None.

(** Force closing the coalescing frame leaves the TAG flag cleared. *)
Definition close_coal k : ipa3_clks :=
  if (active_cnt k =? 1) && negb (tag_process_before_gating k)
  then set_works false (tag_work k) (dec_wq_work k) (dec_irq_work k) k
  else k.

(** Its part under the mutex. *)
Definition dec_locked e (s : P * ipa3_clks) : exec (P * ipa3_clks) :=
  let '(p, k) := s in
  if (active_cnt k =? 1) && tag_process_before_gating k
  then Done (p, set_works false true (dec_wq_work k) (dec_irq_work k) k)
  else
    let k := set_active_cnt (active_cnt k - 1) k in
    if active_cnt k >? 0 then Done (p, k)
    else if negb (suspend_apps_pipes e =? 0) then
      let k := set_active_cnt (active_cnt k + 1) k in
      Done (p, set_works (tag_process_before_gating k) (tag_work k) true (dec_irq_work k) k)
    else ipa3_disable_clks e (p, k).

Definition __ipa3_dec_client_disable_clks e (s : P * ipa3_clks) : exec (P * ipa3_clks) :=
  let '(p, k) := s in
  r ← dec_fast k;
  match r with
  | Some k' => Done (p, k')
  | None => dec_locked e (p, close_coal k)
  end.

(** ipa3_dec_client_disable_clks_no_block *)
Definition ipa3_dec_client_disable_clks_no_block k : ipa3_clks :=
  if negb (active_cnt k =? 1) then set_active_cnt (active_cnt k - 1) k
  else set_works (tag_process_before_gating k) (tag_work k) true (dec_irq_work k) k.

(** ipa3_dec_client_disable_clks_delay_wq *)
Definition ipa3_dec_client_disable_clks_delay_wq e (s : P * ipa3_clks) : exec (P * ipa3_clks) :=
  let '(p, k) := s in
  if negb (dec_irq_work k)
  then Done (p, set_works (tag_process_before_gating k) (tag_work k) (dec_wq_work k) true k)
  else __ipa3_dec_client_disable_clks e (p, k).

(** The work items of power_mgmt_wq: each clears its pending bit and releases
    the reference it took over (ipa3_start_tag_process,
    ipa_dec_clients_disable_clks_on_wq). *)
Definition run_tag_work e (s : P * ipa3_clks) : exec (P * ipa3_clks) :=
  let '(p, k) := s in
  __ipa3_dec_client_disable_clks e
    (p, set_works (tag_process_before_gating k) false (dec_wq_work k) (dec_irq_work k) k).

Definition run_dec_wq e (s : P * ipa3_clks) : exec (P * ipa3_clks) :=
  let '(p, k) := s in
  __ipa3_dec_client_disable_clks e
    (p, set_works (tag_process_before_gating k) (tag_work k) false (dec_irq_work k) k).

Definition run_dec_irq e (s : P * ipa3_clks) : exec (P * ipa3_clks) :=
  let '(p, k) := s in
  __ipa3_dec_client_disable_clks e
    (p, set_works (tag_process_before_gating k) (tag_work k) (dec_wq_work k) false k).
End Release.

(** ** The reference count as a transition system

    [refs] is the number of references held outside this file, [slow] the
    number of contexts that found themselves to be the last client and wait
    for the mutex. *)
Record clk_sys (P : Type) := { refs : Z; slow : Z; shared : P * ipa3_clks }.
Arguments refs {P} _.
Arguments slow {P} _.
Arguments shared {P} _.
Arguments Build_clk_sys {P} _ _ _.

Section Balance.
Context {P : Type} `{ClkListener P}.
Implicit Types (p : P) (k : ipa3_clks) (e : gate_env).

Inductive clk_step : clk_sys P -> clk_sys P -> Prop :=
| step_inc r w p k :
    clk_step (Build_clk_sys r w (p, k)) (Build_clk_sys (r + 1) w (p, ipa3_inc_client_enable_clks k))
| step_inc_no_block r w p k res k' r' :
    ipa3_inc_client_enable_clks_no_block k = (res, k') ->
    r' = (if res =? 0 then r + 1 else r) ->
    clk_step (Build_clk_sys r w (p, k)) (Build_clk_sys r' w (p, k'))
| step_dec_fast r w p k k' :
    0 < r -> dec_fast k = Done (Some k') ->
    clk_step (Build_clk_sys r w (p, k)) (Build_clk_sys (r - 1) w (p, k'))
| step_dec_slow r w p k :
    0 < r -> dec_fast k = Done None ->
    clk_step (Build_clk_sys r w (p, k)) (Build_clk_sys (r - 1) (w + 1) (p, close_coal k))
| step_dec_locked r w p k e s' :
    0 < w -> dec_locked e (p, k) = Done s' ->
    clk_step (Build_clk_sys r w (p, k)) (Build_clk_sys r (w - 1) s')
| step_dec_no_block r w p k :
    0 < r ->
    clk_step (Build_clk_sys r w (p, k))
             (Build_clk_sys (r - 1) w (p, ipa3_dec_client_disable_clks_no_block k))
| step_dec_delay r w p k e s' :
    0 < r -> dec_irq_work k = false ->
    ipa3_dec_client_disable_clks_delay_wq e (p, k) = Done s' ->
    clk_step (Build_clk_sys r w (p, k)) (Build_clk_sys (r - 1) w s')
| step_tag_flag r w p k b :
    clk_step (Build_clk_sys r w (p, k))
             (Build_clk_sys r w (p, set_works b (tag_work k) (dec_wq_work k) (dec_irq_work k) k))
| step_tag_work r w p k :
    tag_work k = true ->
    clk_step (Build_clk_sys r w (p, k))
             (Build_clk_sys (r + 1) w (p, set_works (tag_process_before_gating k) false
                                            (dec_wq_work k) (dec_irq_work k) k))
| step_dec_wq_work r w p k :
    dec_wq_work k = true ->
    clk_step (Build_clk_sys r w (p, k))
             (Build_clk_sys (r + 1) w (p, set_works (tag_process_before_gating k) (tag_work k)
                                            false (dec_irq_work k) k))
| step_dec_irq_work r w p k :
    dec_irq_work k = true ->
    clk_step (Build_clk_sys r w (p, k))
             (Build_clk_sys (r + 1) w (p, set_works (tag_process_before_gating k) (tag_work k)
                                            (dec_wq_work k) false k)).

(** The references the work items will release. *)
Definition pending_decs k : Z :=
  Z.b2z (tag_work k) + Z.b2z (dec_wq_work k) + Z.b2z (dec_irq_work k).

(** The counter is the number of references, and the clocks are voted for
    exactly while there is one. *)
Record clk_ok (r w : Z) k : Prop := {
  clk_refs : 0 <= r;
  clk_slow : 0 <= w;
  clk_mode : IPA_IS_REGULAR_CLK_MODE (ipa3_hw_mode k) = true;
  clk_cnt : active_cnt k = r + w + pending_decs k;
  clk_voted : ipa_clk_vote k = if active_cnt k =? 0 then 0 else 1 }.

Definition clk_sys_ok (s : clk_sys P) : Prop := clk_ok (refs s) (slow s) (snd (shared s)).

Lemma pending_decs_nonneg k : 0 <= pending_decs k.
Proof. unfold pending_decs. destruct (tag_work k), (dec_wq_work k), (dec_irq_work k); cbn; lia. Qed.

(** Destructs the invariant before an operation, and rebuilds it after. *)
Ltac clk_old Hk :=
  let k := match type of Hk with clk_ok _ _ ?k => k end in
  destruct Hk as [Hrefs Hslow Hmode Hcnt Hvote]; pose proof (pending_decs_nonneg k);
  unfold pending_decs in *;
  destruct (tag_work k) eqn:?, (dec_wq_work k) eqn:?, (dec_irq_work k) eqn:?.
Ltac clk_new :=
  split; cbn in *; unfold pending_decs; cbn;
  repeat match goal with
  | Hb : ipa_clk_vote _ = _ |- _ => rewrite Hb; clear Hb
  | Hb : tag_work _ = _ |- _ => rewrite Hb
  | Hb : dec_wq_work _ = _ |- _ => rewrite Hb
  | Hb : dec_irq_work _ = _ |- _ => rewrite Hb
  end; cbn; repeat case_test; zb; lia || discriminate || congruence || auto.

Lemma inc_ok r w k : clk_ok r w k -> clk_ok (r + 1) w (ipa3_inc_client_enable_clks k).
Proof.
  intros Hk. clk_old Hk; unfold ipa3_inc_client_enable_clks, ipa3_enable_clks;
  rewrite Hmode; case_test; cbn; clk_new.
Qed.

Lemma inc_no_block_ok r w k res k' :
  clk_ok r w k -> ipa3_inc_client_enable_clks_no_block k = (res, k') ->
  clk_ok (if res =? 0 then r + 1 else r) w k'.
Proof.
  intros Hk. clk_old Hk; unfold ipa3_inc_client_enable_clks_no_block; case_test;
    intros [= <- <-]; clk_new.
Qed.

Lemma close_coal_same r w k : clk_ok r w k -> clk_ok r w (close_coal k).
Proof. intros Hk. unfold close_coal. case_test; [|done]. clk_old Hk; clk_new. Qed.

Lemma dec_fast_ok r w k :
  clk_ok r w k -> 0 < r ->
  (exists k', dec_fast k = Done (Some k') /\ clk_ok (r - 1) w k') \/
  (dec_fast k = Done None /\ clk_ok (r - 1) (w + 1) (close_coal k)).
Proof.
  intros Hk Hr. assert (Hs := close_coal_same _ _ _ Hk). unfold dec_fast.
  pose proof (pending_decs_nonneg k). pose proof (clk_cnt _ _ _ Hk). pose proof (clk_slow _ _ _ Hk).
  tests. case_test; [left|right; split; [done|destruct Hs; split; auto; lia]].
  eexists. split; [done|]. clk_old Hk; clk_new.
Qed.

Lemma dec_locked_ok r w p k e s' :
  clk_ok r w k -> 0 < w -> dec_locked e (p, k) = Done s' -> clk_ok r (w - 1) (snd s').
Proof.
  intros Hk Hw. unfold dec_locked, ipa3_disable_clks. cbn. rewrite (clk_mode _ _ _ Hk). cbn.
  clk_old Hk; repeat case_test; intros E'; try discriminate E'; injection E' as <-; clk_new.
Qed.

(** Under the mutex nothing fails unless the hardware reports an interrupt. *)
Lemma dec_locked_Done p k e : gsi_quiet e = true -> exists s', dec_locked e (p, k) = Done s'.
Proof.
  intros He. unfold dec_locked, ipa3_disable_clks. rewrite He. cbn.
  repeat case_test; eauto; discriminate.
Qed.

Lemma dec_no_block_ok r w k :
  clk_ok r w k -> 0 < r -> clk_ok (r - 1) w (ipa3_dec_client_disable_clks_no_block k).
Proof.
  intros Hk Hr. unfold ipa3_dec_client_disable_clks_no_block. clk_old Hk; case_test; clk_new.
Qed.

(** The work items: queueing the delayed one hands a reference over, and a
    handler that starts has taken it back. *)
Lemma dec_delay_ok r w p k e s' :
  clk_ok r w k -> 0 < r -> dec_irq_work k = false ->
  ipa3_dec_client_disable_clks_delay_wq e (p, k) = Done s' -> clk_ok (r - 1) w (snd s').
Proof.
  intros Hk Hr Hi. unfold ipa3_dec_client_disable_clks_delay_wq. rewrite Hi. cbn.
  intros [= <-]. clk_old Hk; try discriminate; clk_new.
Qed.
Lemma tag_flag_ok r w k b :
  clk_ok r w k -> clk_ok r w (set_works b (tag_work k) (dec_wq_work k) (dec_irq_work k) k).
Proof. intros Hk. clk_old Hk; clk_new. Qed.
Lemma tag_work_ok r w k :
  clk_ok r w k -> tag_work k = true ->
  clk_ok (r + 1) w (set_works (tag_process_before_gating k) false (dec_wq_work k) (dec_irq_work k) k).
Proof. intros Hk Ht. clk_old Hk; try discriminate; clk_new. Qed.
Lemma dec_wq_work_ok r w k :
  clk_ok r w k -> dec_wq_work k = true ->
  clk_ok (r + 1) w (set_works (tag_process_before_gating k) (tag_work k) false (dec_irq_work k) k).
Proof. intros Hk Ht. clk_old Hk; try discriminate; clk_new. Qed.
Lemma dec_irq_work_ok r w k :
  clk_ok r w k -> dec_irq_work k = true ->
  clk_ok (r + 1) w (set_works (tag_process_before_gating k) (tag_work k) (dec_wq_work k) false k).
Proof. intros Hk Ht. clk_old Hk; try discriminate; clk_new. Qed.

#[local] Hint Resolve inc_ok dec_locked_ok dec_no_block_ok dec_delay_ok tag_flag_ok
  tag_work_ok dec_wq_work_ok dec_irq_work_ok inc_no_block_ok : ipa.

Lemma clk_step_ok s s' : clk_sys_ok s -> clk_step s s' -> clk_sys_ok s'.
Proof.
  unfold clk_sys_ok. intros Hs Hstep. destruct Hstep; cbn in *; subst; eauto with ipa.
  - destruct (dec_fast_ok _ _ _ Hs H0) as [(? & E & ?)|[E _]]; congruence.
  - destruct (dec_fast_ok _ _ _ Hs H0) as [(? & E & _)|[_ ?]]; congruence.
Qed.

(** Nobody holds a reference when the counter is zero. *)
Lemma clk_ok_zero r w k :
  clk_ok r w k -> active_cnt k = 0 <-> r = 0 /\ w = 0 /\ pending_decs k = 0.
Proof. intros [? ? _ Hc _]. pose proof (pending_decs_nonneg k). lia. Qed.

(** The whole release, with what it does to the listener. *)
Lemma dec_ok r w p k e s' :
  clk_ok r w k -> 0 < r -> __ipa3_dec_client_disable_clks e (p, k) = Done s' ->
  clk_ok (r - 1) w (snd s') /\ (fst s' = p \/ fst s' = pm_set_clock_index 0 p).
Proof.
  intros Hk Hr. unfold __ipa3_dec_client_disable_clks.
  destruct (dec_fast_ok r w k Hk Hr) as [(k' & -> & Hk')|[-> Hk']]; cbn.
  - intros [= <-]. cbn. auto.
  - intros Hd. split.
    + replace w with (w + 1 - 1) by lia. destruct Hk.
      eapply dec_locked_ok; [exact Hk'|lia|exact Hd].
    + unfold dec_locked, ipa3_disable_clks in Hd. repeat case_test_in Hd; exec_inv; auto.
Qed.
Lemma dec_Done r w p k e :
  clk_ok r w k -> 0 < r -> gsi_quiet e = true ->
  exists s', __ipa3_dec_client_disable_clks e (p, k) = Done s'.
Proof.
  intros Hk Hr He. unfold __ipa3_dec_client_disable_clks.
  destruct (dec_fast_ok r w k Hk Hr) as [(k' & -> & _)|[-> _]]; cbn; eauto using dec_locked_Done.
Qed.

(** References held by others do not disturb a step. *)
Lemma clk_step_frame v r w s r' w' s' :
  0 <= v -> clk_step (Build_clk_sys r w s) (Build_clk_sys r' w' s') ->
  clk_step (Build_clk_sys (r + v) w s) (Build_clk_sys (r' + v) w' s').
Proof.
  intros Hv Hstep.
  inversion Hstep; subst; clear Hstep;
    try replace (r + 1 + v) with (r + v + 1) by lia;
    try replace (r - 1 + v) with (r + v - 1) by lia;
    econstructor; eauto; try lia; case_test; lia.
Qed.

(** Nor do contexts that wait for the mutex. *)
Lemma clk_step_frame_slow v r w s r' w' s' :
  0 <= v -> clk_step (Build_clk_sys r w s) (Build_clk_sys r' w' s') ->
  clk_step (Build_clk_sys r (w + v) s) (Build_clk_sys r' (w' + v) s').
Proof.
  intros Hv Hstep.
  inversion Hstep; subst; clear Hstep;
    try replace (w + 1 + v) with (w + v + 1) by lia;
    try replace (w - 1 + v) with (w + v - 1) by lia;
    econstructor; eauto; lia.
Qed.
Lemma clk_step_slow r w s r' w' s' :
  0 <= w -> clk_step (Build_clk_sys r w s) (Build_clk_sys r' w' s') -> 0 <= w'.
Proof. intros Hw Hstep. inversion Hstep; subst; lia. Qed.

(** What a step does to the listener. *)
Lemma clk_step_listener s s' :
  clk_step s s' ->
  fst (shared s') = fst (shared s) \/ fst (shared s') = pm_set_clock_index 0 (fst (shared s)).
Proof.
  destruct 1; cbn; auto.
  - unfold dec_locked, ipa3_disable_clks in *. repeat case_test_in H1; exec_inv; auto.
  - unfold ipa3_dec_client_disable_clks_delay_wq in *. rewrite H1 in H2. cbn in H2.
    injection H2 as <-. auto.
Qed.

(** Changing the rate does not matter to the count. *)
Lemma set_plan_ok r w k idx :
  clk_ok r w k -> clk_ok r w (snd (ipa3_set_clock_plan_from_pm idx k)).
Proof.
  intros [? ? ? ? ?]. unfold ipa3_set_clock_plan_from_pm. repeat case_test; cbn; split; auto.
Qed.

(** The state the driver boots into: the clocks are on, with one reference
    (ipa3_pre_init). *)
Definition clk_boot (svs2 svs nominal turbo : Z) : ipa3_clks :=
  {| ipa3_hw_mode := IPA_HW_MODE_NORMAL; ipa_clk_vote := 1; active_cnt := 1; bus_vote_idx := 0;
     tag_process_before_gating := false; tag_work := false; dec_wq_work := false;
     dec_irq_work := false; enable_clock_scaling := true; curr_ipa_clk_rate := svs2;
     ipa_clk_rate_svs2 := svs2; ipa_clk_rate_svs := svs; ipa_clk_rate_nominal := nominal;
     ipa_clk_rate_turbo := turbo |}.

Lemma clk_boot_ok svs2 svs nominal turbo : clk_ok 1 0 (clk_boot svs2 svs nominal turbo).
Proof. split; cbn; reflexivity || lia. Qed.
End Balance.
#[export] Hint Resolve inc_ok dec_no_block_ok tag_flag_ok tag_work_ok dec_wq_work_ok
  dec_irq_work_ok clk_boot_ok : ipa.

(** C32: however the operations of the clients, the two parts of the
    last release and the three work items interleave from boot on, the counter
    is the number of references held, waiting for the mutex, or handed to a
    queued work item; the clocks are voted for exactly while it is not zero
    (so they are never gated under a client); a holder's release never finds
    the counter at zero, and the part under the mutex returns unless the
    hardware reports an interrupt. *)
Theorem clk_count_exact {P} `{ClkListener P} p svs2 svs nominal turbo (s : clk_sys P) :
  rtc clk_step (Build_clk_sys 1 0 (p, clk_boot svs2 svs nominal turbo)) s ->
  let k := snd (shared s) in
  active_cnt k = refs s + slow s + pending_decs k /\ 0 <= refs s /\ 0 <= slow s /\
  (ipa_clk_vote k = 0 <-> refs s = 0 /\ slow s = 0 /\ pending_decs k = 0) /\
  (ipa_clk_vote k = 1 <-> 0 < active_cnt k) /\
  (0 < refs s -> dec_fast k <> Fault) /\
  (forall e, gsi_quiet e = true -> exists s', dec_locked e (shared s) = Done s').
Proof.
  intros Hr k.
  assert (Hk : clk_ok (refs s) (slow s) k).
  { enough (clk_sys_ok s) by done.
    eapply (rtc_preserve clk_sys_ok); eauto using clk_step_ok. apply clk_boot_ok. }
  pose proof (clk_ok_zero _ _ _ Hk) as Hz. pose proof (pending_decs_nonneg k).
  destruct Hk as [? ? _ Hc Hv]. split; [done|]. do 2 (split; [done|]).
  split; [rewrite Hv; case_test; lia|]. split; [rewrite Hv; case_test; lia|]. split.
  - intros Hrf. unfold dec_fast. tests. now case_test.
  - intros e He. destruct (shared s). now apply dec_locked_Done.
Qed.

(** A client comes and goes; the reference of the boot is the last one, and
    the clocks are gated. *)
Definition no_listener : ClkListener unit := fun _ p => p.
Definition quiet_gate : gate_env := {| suspend_apps_pipes := 0; gsi_pending_irq_type := Some 0 |}.

Lemma clk_count_exact_witness :
  exists s : clk_sys unit,
    rtc (clk_step (H := no_listener))
        (Build_clk_sys 1 0 (tt, clk_boot 60 125 250 500)) s /\
    refs s = 0 /\ slow s = 0 /\ ipa_clk_vote (snd (shared s)) = 0 /\
    active_cnt (snd (shared s)) = refs s + slow s + pending_decs (snd (shared s)).
Proof.
  assert (Hr : exists s, rtc (clk_step (H := no_listener))
      (Build_clk_sys 1 0 (tt, clk_boot 60 125 250 500)) s /\
      refs s = 0 /\ slow s = 0 /\ pending_decs (snd (shared s)) = 0).
  { eexists. split.
    - eapply rtc_l; [apply step_inc|].
      eapply rtc_l; [apply step_dec_fast; [reflexivity|vm_compute; reflexivity]|].
      eapply rtc_l; [apply step_dec_slow; [reflexivity|vm_compute; reflexivity]|].
      eapply rtc_l; [apply (step_dec_locked _ _ _ _ quiet_gate); [reflexivity|vm_compute; reflexivity]|].
      apply rtc_refl.
    - now vm_compute. }
  destruct Hr as (s & Hr & Hs & Hw & Hp). exists s. split; [exact Hr|].
  destruct (clk_count_exact (H := no_listener) tt 60 125 250 500 s Hr) as (Hc & _ & _ & Hz & _).
  do 2 (split; [done|]). split; [now apply Hz|exact Hc].
Defined.
