(* ===== verification/IpaPm.v ===== *)
(** The IPA power manager (dataipa/drivers/platform/msm/ipa/ipa_v3/ipa_pm.c):
    its data, the throughput and threshold computations, the work items and
    the API functions.

    A client is registered in a slot of an array (its handle); it votes for
    the clocks while it is active, and its throughput counts towards the clock
    plan.  Activation can be put off to a work item, deactivation to a delayed
    work item.  A pointer to a client is its handle; a work item is a flag of
    the client (queued or not).

    A call that may wait for a completion returns [Wait] where it blocks; the
    part after the wait is a definition of its own.  The synchronous
    activation drops the client's lock while it takes the clocks: it is the
    composition of [activate_switch] and [activate_finish]. *)
From S2P Require Import Prelude.
From S2P Require Import IpaMemDesc.
From S2P Require Import IpaClk.

Definition EEXIST : Z := 17.
Definition ENOBUFS : Z := 105.
Definition EINPROGRESS : Z := 115.

Definition IPA5_PIPES_NUM : Z := 36.
Definition IPA5_PIPE_REG_NUM : Z := 2.
Definition IPA_PM_MAX_CLIENTS : Z := IPA5_PIPES_NUM.
Definition IPA_PM_MAX_EX_CL : Z := 64.
Definition IPA_PM_THRESHOLD_MAX : Z := 5.
Definition IPA_PM_EXCEPTION_MAX : Z := 5.
Definition IPA_EP_PER_REG : Z := 32.

(** Conversion to int. *)
Definition s32 (x : Z) : Z := (x + 2 ^ 31) mod 2 ^ 32 - 2 ^ 31.

(** A call that may have to wait: it blocks in a state, or returns. *)
Inductive wait (S A : Type) : Type :=
| Wait (s : S)
| Return (a : A).
Arguments Wait {S A} _.
Arguments Return {S A} _.

Inductive ipa_pm_state :=
| IPA_PM_DEACTIVATED
| IPA_PM_DEACTIVATE_IN_PROGRESS
| IPA_PM_ACTIVATE_IN_PROGRESS
| IPA_PM_ACTIVATED
| IPA_PM_ACTIVATED_PENDING_DEACTIVATION
| IPA_PM_ACTIVATED_TIMER_SET
| IPA_PM_ACTIVATED_PENDING_RESCHEDULE
| IPA_PM_STATE_MAX.
#[global] Instance ipa_pm_state_dec : EqDecision ipa_pm_state.
Proof. solve_decision. Defined.

Definition IPA_PM_STATE_ACTIVE (st : ipa_pm_state) : bool :=
  match st with
  | IPA_PM_ACTIVATED | IPA_PM_ACTIVATED_PENDING_DEACTIVATION
  | IPA_PM_ACTIVATED_TIMER_SET | IPA_PM_ACTIVATED_PENDING_RESCHEDULE => true
  | _ => false
  end.

Definition IPA_PM_STATE_IN_PROGRESS (st : ipa_pm_state) : bool :=
  match st with
  | IPA_PM_ACTIVATE_IN_PROGRESS | IPA_PM_DEACTIVATE_IN_PROGRESS => true
  | _ => false
  end.

Inductive ipa_pm_group := IPA_PM_GROUP_DEFAULT | IPA_PM_GROUP_APPS | IPA_PM_GROUP_MODEM.
#[global] Instance ipa_pm_group_dec : EqDecision ipa_pm_group.
Proof. solve_decision. Defined.
Definition group_index (g : ipa_pm_group) : Z :=
  match g with
  | IPA_PM_GROUP_DEFAULT => 0 | IPA_PM_GROUP_APPS => 1 | IPA_PM_GROUP_MODEM => 2
  end.

Inductive ipa_pm_cb_event := IPA_PM_CLIENT_ACTIVATED | IPA_PM_REQUEST_WAKEUP.

(** struct ipa_pm_client.  [cl_callback] is the callback, if there is one, as
    the value that identifies it; [cl_activate_work] and [cl_deactivate_work]
    say whether the work items are queued, [cl_complete] whether the
    completion is done, [cl_wlock] whether the wake source is held. *)
Record ipa_pm_client := {
  cl_name : string;
  cl_callback : option Z;
  cl_state : ipa_pm_state;
  cl_skip_clk_vote : bool;
  cl_group : ipa_pm_group;
  cl_hdl : Z;
  cl_throughput : Z;
  cl_activate_work : bool;
  cl_deactivate_work : bool;
  cl_complete : bool;
  cl_wlock : bool }.

Definition cl_set_state (st : ipa_pm_state) (c : ipa_pm_client) : ipa_pm_client :=
  {| cl_name := cl_name c; cl_callback := cl_callback c; cl_state := st;
     cl_skip_clk_vote := cl_skip_clk_vote c; cl_group := cl_group c; cl_hdl := cl_hdl c;
     cl_throughput := cl_throughput c; cl_activate_work := cl_activate_work c;
     cl_deactivate_work := cl_deactivate_work c; cl_complete := cl_complete c;
     cl_wlock := cl_wlock c |}.
Definition cl_set_works (act deact compl : bool) (c : ipa_pm_client) : ipa_pm_client :=
  {| cl_name := cl_name c; cl_callback := cl_callback c; cl_state := cl_state c;
     cl_skip_clk_vote := cl_skip_clk_vote c; cl_group := cl_group c; cl_hdl := cl_hdl c;
     cl_throughput := cl_throughput c; cl_activate_work := act;
     cl_deactivate_work := deact; cl_complete := compl; cl_wlock := cl_wlock c |}.
Definition cl_set_wlock (b : bool) (c : ipa_pm_client) : ipa_pm_client :=
  {| cl_name := cl_name c; cl_callback := cl_callback c; cl_state := cl_state c;
     cl_skip_clk_vote := cl_skip_clk_vote c; cl_group := cl_group c; cl_hdl := cl_hdl c;
     cl_throughput := cl_throughput c; cl_activate_work := cl_activate_work c;
     cl_deactivate_work := cl_deactivate_work c; cl_complete := cl_complete c; cl_wlock := b |}.
Definition cl_set_throughput (t : Z) (c : ipa_pm_client) : ipa_pm_client :=
  {| cl_name := cl_name c; cl_callback := cl_callback c; cl_state := cl_state c;
     cl_skip_clk_vote := cl_skip_clk_vote c; cl_group := cl_group c; cl_hdl := cl_hdl c;
     cl_throughput := t; cl_activate_work := cl_activate_work c;
     cl_deactivate_work := cl_deactivate_work c; cl_complete := cl_complete c;
     cl_wlock := cl_wlock c |}.

(** queue_work and queue_delayed_work, cancel_delayed_work_sync, complete_all
    and reinit_completion, __pm_stay_awake and __pm_relax on a client. *)
Definition queue_activate_work (c : ipa_pm_client) : ipa_pm_client :=
  cl_set_works true (cl_deactivate_work c) (cl_complete c) c.
Definition queue_deactivate_work (c : ipa_pm_client) : ipa_pm_client :=
  cl_set_works (cl_activate_work c) true (cl_complete c) c.
Definition cancel_deactivate_work (c : ipa_pm_client) : ipa_pm_client :=
  cl_set_works (cl_activate_work c) false (cl_complete c) c.
Definition complete_all (c : ipa_pm_client) : ipa_pm_client :=
  cl_set_works (cl_activate_work c) (cl_deactivate_work c) true c.
Definition reinit_completion (c : ipa_pm_client) : ipa_pm_client :=
  cl_set_works (cl_activate_work c) (cl_deactivate_work c) false c.

Record ipa_pm_exception_list := {
  ex_clients : string;
  ex_pending : Z;
  ex_bitmask : list Z;
  ex_threshold : list Z }.

(** What current_threshold points to. *)
Inductive threshold_ptr :=
| TH_NULL
| TH_DEFAULT
| TH_EXCEPTION (i : Z).

Record clk_scaling_db := {
  exception_list : list ipa_pm_exception_list;
  active_client_bitmask : list Z;
  threshold_size : Z;
  exception_size : Z;
  cur_vote : Z;
  default_threshold : list Z;
  current_threshold : threshold_ptr }.

(** struct ipa_pm_ctx.  [pm_scaling_work] says whether clk_scaling.work is
    queued; [pm_notified] lists the callbacks made, the last one first. *)
Record ipa_pm_ctx := {
  pm_clients : list (option ipa_pm_client);
  pm_clients_by_pipe : list (option Z);
  pm_clk_scaling : clk_scaling_db;
  pm_aggregated_tput : Z;
  pm_group_tput : list Z;
  pm_scaling_work : bool;
  pm_notified : list (Z * ipa_pm_cb_event) }.

Definition set_clients (l : list (option ipa_pm_client)) (c : ipa_pm_ctx) : ipa_pm_ctx :=
  {| pm_clients := l; pm_clients_by_pipe := pm_clients_by_pipe c;
     pm_clk_scaling := pm_clk_scaling c; pm_aggregated_tput := pm_aggregated_tput c;
     pm_group_tput := pm_group_tput c; pm_scaling_work := pm_scaling_work c;
     pm_notified := pm_notified c |}.
Definition set_pipes (l : list (option Z)) (c : ipa_pm_ctx) : ipa_pm_ctx :=
  {| pm_clients := pm_clients c; pm_clients_by_pipe := l;
     pm_clk_scaling := pm_clk_scaling c; pm_aggregated_tput := pm_aggregated_tput c;
     pm_group_tput := pm_group_tput c; pm_scaling_work := pm_scaling_work c;
     pm_notified := pm_notified c |}.
Definition set_clk (d : clk_scaling_db) (c : ipa_pm_ctx) : ipa_pm_ctx :=
  {| pm_clients := pm_clients c; pm_clients_by_pipe := pm_clients_by_pipe c;
     pm_clk_scaling := d; pm_aggregated_tput := pm_aggregated_tput c;
     pm_group_tput := pm_group_tput c; pm_scaling_work := pm_scaling_work c;
     pm_notified := pm_notified c |}.
Definition set_tput (agg : Z) (grp : list Z) (c : ipa_pm_ctx) : ipa_pm_ctx :=
  {| pm_clients := pm_clients c; pm_clients_by_pipe := pm_clients_by_pipe c;
     pm_clk_scaling := pm_clk_scaling c; pm_aggregated_tput := agg;
     pm_group_tput := grp; pm_scaling_work := pm_scaling_work c;
     pm_notified := pm_notified c |}.
Definition set_scaling_work (b : bool) (c : ipa_pm_ctx) : ipa_pm_ctx :=
  {| pm_clients := pm_clients c; pm_clients_by_pipe := pm_clients_by_pipe c;
     pm_clk_scaling := pm_clk_scaling c; pm_aggregated_tput := pm_aggregated_tput c;
     pm_group_tput := pm_group_tput c; pm_scaling_work := b; pm_notified := pm_notified c |}.
Definition notify (h : Z) (ev : ipa_pm_cb_event) (c : ipa_pm_ctx) : ipa_pm_ctx :=
  {| pm_clients := pm_clients c; pm_clients_by_pipe := pm_clients_by_pipe c;
     pm_clk_scaling := pm_clk_scaling c; pm_aggregated_tput := pm_aggregated_tput c;
     pm_group_tput := pm_group_tput c; pm_scaling_work := pm_scaling_work c;
     pm_notified := (h, ev) :: pm_notified c |}.

Definition db_set_exceptions (l : list ipa_pm_exception_list) (d : clk_scaling_db) :=
  {| exception_list := l; active_client_bitmask := active_client_bitmask d;
     threshold_size := threshold_size d; exception_size := exception_size d;
     cur_vote := cur_vote d; default_threshold := default_threshold d;
     current_threshold := current_threshold d |}.
Definition db_set_active (l : list Z) (d : clk_scaling_db) :=
  {| exception_list := exception_list d; active_client_bitmask := l;
     threshold_size := threshold_size d; exception_size := exception_size d;
     cur_vote := cur_vote d; default_threshold := default_threshold d;
     current_threshold := current_threshold d |}.
Definition db_set_vote (v : Z) (d : clk_scaling_db) :=
  {| exception_list := exception_list d; active_client_bitmask := active_client_bitmask d;
     threshold_size := threshold_size d; exception_size := exception_size d;
     cur_vote := v; default_threshold := default_threshold d;
     current_threshold := current_threshold d |}.
Definition db_set_current (p : threshold_ptr) (d : clk_scaling_db) :=
  {| exception_list := exception_list d; active_client_bitmask := active_client_bitmask d;
     threshold_size := threshold_size d; exception_size := exception_size d;
     cur_vote := cur_vote d; default_threshold := default_threshold d;
     current_threshold := p |}.

(** The client of a handle, and storing it back. *)
Definition get_client (c : ipa_pm_ctx) (h : Z) : option ipa_pm_client :=
  match (pm_clients c).[h] with Some o => o | None => None end.
Definition put_client (h : Z) (cl : ipa_pm_client) (c : ipa_pm_ctx) : ipa_pm_ctx :=
  set_clients (zinsert h (Some cl) (pm_clients c)) c.

(** The power manager and the driver's clock state. *)
Definition pm_sys : Type := ipa_pm_ctx * ipa3_clks.

(** ipa_pm_set_clock_index, when the context exists. *)
Definition ipa_pm_set_clock_index (index : Z) (c : ipa_pm_ctx) : ipa_pm_ctx :=
  if index >=? 0 then set_clk (db_set_vote index (pm_clk_scaling c)) c else c.
#[global] Instance pm_clk_listener : ClkListener ipa_pm_ctx := ipa_pm_set_clock_index.

(** IPA_BIT_MAP_CELL_NUM and IPA_BIT_MAP_CELL_MSK (ipahal_reg.c). *)
Definition ipahal_get_ep_reg_idx (ep_num : Z) : Z := Z.shiftr ep_num 5.
Definition ipahal_get_ep_bit (ep_num : Z) : Z :=
  Z.shiftl 1 (ep_num - Z.shiftl (Z.shiftr ep_num 5) 5).

(** ** Aggregated throughput *)

(** The scan of pop_max_from_array: the first largest positive element of the
    first [n], or 0 at the last position. *)
Definition scan_max (arr : list Z) (n : nat) : Z * Z :=
  foldl (fun acc i =>
           let '(max, max_idx) := acc in
           let v := default 0 (arr.[Z.of_nat i]) in
           if v >? max then (v, Z.of_nat i) else (max, max_idx))
        (0, Z.of_nat n - 1) (seq 0 n).

(** pop_max_from_array: the maximum, and the array in which the last element
    took its place ([n] is then one less). *)
Definition pop_max_from_array (arr : list Z) (n : nat) : Z * list Z * nat :=
  match n with
  | O => (0, arr, O)
  | S n' =>
      let '(max, max_idx) := scan_max arr n in
      (max, zinsert max_idx (default 0 (arr.[Z.of_nat n'])) arr, n')
  end.

(** The loop of calculate_throughput.  A round pops two elements and pushes
    one, so it decreases n by one. *)
Fixpoint throughput_loop (n : nat) (arr : list Z) (aggregated_tput : Z) : Z :=
  match n with
  | S (S _ as n') =>
      let '(max, arr, n1) := pop_max_from_array arr n in
      let '(second_max, arr, n2) := pop_max_from_array arr n1 in
      throughput_loop n' (zinsert (Z.of_nat n2) (max - second_max) arr)
                      (s32 (aggregated_tput + second_max))
  | _ => aggregated_tput
  end.

(** One round of the loop that collects the throughputs. *)
Definition collect_client (group_tput : list Z) (acc : list Z * nat * list bool)
    (o : option ipa_pm_client) : list Z * nat * list bool :=
  let '(arr, n, voted) := acc in
  match o with
  | None => acc
  | Some cl =>
      if negb (IPA_PM_STATE_ACTIVE (cl_state cl)) then acc
      else if decide (cl_group cl = IPA_PM_GROUP_DEFAULT)
      then (zinsert (Z.of_nat n) (cl_throughput cl) arr, S n, voted)
      else if negb (default false (voted.[group_index (cl_group cl)]))
      then (zinsert (Z.of_nat n) (default 0 (group_tput.[group_index (cl_group cl)])) arr, S n,
            zinsert (group_index (cl_group cl)) true voted)
      else acc
  end.

Definition collect_throughputs (c : ipa_pm_ctx) : list Z * nat * list bool :=
  foldl (collect_client (pm_group_tput c))
        (replicate (Z.to_nat IPA_PM_MAX_CLIENTS) 0, O, replicate 3 false)
        (drop 1 (pm_clients c)).

Definition calculate_throughput (c : ipa_pm_ctx) : Z :=
  let '(client_tput, n, _) := collect_throughputs c in
  throughput_loop n client_tput 0.

(** ** Active clients and thresholds *)
Definition mask_word (l : list Z) (i : Z) : Z := default 0 (l.[i]).

Definition deactivate_client (h : Z) (c : ipa_pm_ctx) : ipa_pm_ctx :=
  let d := pm_clk_scaling c in
  let idx := ipahal_get_ep_reg_idx h in
  set_clk (db_set_active
             (zinsert idx (Z.land (mask_word (active_client_bitmask d) idx)
                                  (Z.lnot (ipahal_get_ep_bit h)))
                      (active_client_bitmask d)) d) c.

Definition activate_client (h : Z) (c : ipa_pm_ctx) : ipa_pm_ctx :=
  let d := pm_clk_scaling c in
  let idx := ipahal_get_ep_reg_idx h in
  set_clk (db_set_active
             (zinsert idx (Z.lor (mask_word (active_client_bitmask d) idx)
                                 (ipahal_get_ep_bit h))
                      (active_client_bitmask d)) d) c.

(** The condition under which an exception is in force. *)
Definition exception_passes (active : list Z) (ex : ipa_pm_exception_list) : bool :=
  (ex_pending ex =? 0) &&
  (Z.land (mask_word (ex_bitmask ex) 0) (Z.lnot (mask_word active 0)) =? 0) &&
  (Z.land (mask_word (ex_bitmask ex) 1) (Z.lnot (mask_word active 1)) =? 0).

Fixpoint find_exception (active : list Z) (i : Z) (l : list ipa_pm_exception_list) : threshold_ptr :=
  match l with
  | [] => TH_DEFAULT
  | ex :: l => if exception_passes active ex then TH_EXCEPTION i else find_exception active (i + 1) l
  end.

Definition set_current_threshold (c : ipa_pm_ctx) : ipa_pm_ctx :=
  let d := pm_clk_scaling c in
  set_clk (db_set_current
             (find_exception (active_client_bitmask d) 0
                (take (Z.to_nat (exception_size d)) (exception_list d))) d) c.

(** The thresholds current_threshold points to. *)
Definition threshold_of (d : clk_scaling_db) : option (list Z) :=
  match current_threshold d with
  | TH_NULL => None
  | TH_DEFAULT => Some (default_threshold d)
  | TH_EXCEPTION i => ex_threshold <$> (exception_list d).[i]
  end.

(** The clock plan of a throughput: one more than the number of thresholds it
    reaches. *)
Definition threshold_index (tput size : Z) (thresholds : list Z) : Z :=
  foldl (fun idx th => if tput >=? th then idx + 1 else idx) 1 (take (Z.to_nat size) thresholds).

Definition do_clk_scaling (s : pm_sys) : exec (Z * pm_sys) :=
  let '(c, k) := s in
  if ipa_clk_vote k =? 0 then Done (0, s)
  else
    let tput := calculate_throughput c in
    let c := set_current_threshold (set_tput tput (pm_group_tput c) c) in
    let d := pm_clk_scaling c in
    th ← deref (threshold_of d);
    let new_th_idx := threshold_index tput (threshold_size d) th in
    if negb (cur_vote d =? new_th_idx) then
      Done (0, (set_clk (db_set_vote new_th_idx d) c,
                snd (ipa3_set_clock_plan_from_pm new_th_idx k)))
    else Done (0, (c, k)).
