(* ===== verification/IpaPmApi.v ===== *)
(** The work items and the API functions of the power manager (ipa_pm.c).

    [gate] is what the hardware answers when a call releases the last
    reference to the clocks.  Functions the API takes a handle to start with
    the checks of the context and of the handle ([with_client]). *)
From Stdlib Require Import Ascii.
From S2P Require Import Prelude.
From S2P Require Import IpaMemDesc.
From S2P Require Import IpaClk.
From S2P Require Import IpaPm.

(** IPA_ACTIVE_CLIENTS_INC_SPECIAL and IPA_ACTIVE_CLIENTS_DEC_SPECIAL under
    the test of skip_clk_vote. *)
Definition clk_get (cl : ipa_pm_client) (k : ipa3_clks) : ipa3_clks :=
  if negb (cl_skip_clk_vote cl) then ipa3_inc_client_enable_clks k else k.
Definition clk_put (gate : gate_env) (cl : ipa_pm_client) (s : pm_sys) : exec pm_sys :=
  if negb (cl_skip_clk_vote cl) then __ipa3_dec_client_disable_clks gate s else Done s.

(** __pm_stay_awake and __pm_relax under the test of the group. *)
Definition stay_awake (cl : ipa_pm_client) : ipa_pm_client :=
  if decide (cl_group cl = IPA_PM_GROUP_APPS) then cl_set_wlock true cl else cl.
Definition relax (cl : ipa_pm_client) : ipa_pm_client :=
  if decide (cl_group cl = IPA_PM_GROUP_APPS) then cl_set_wlock false cl else cl.
Definition stay_awake_if_voting (cl : ipa_pm_client) : ipa_pm_client :=
  if negb (cl_skip_clk_vote cl) then stay_awake cl else cl.
Definition relax_if_voting (cl : ipa_pm_client) : ipa_pm_client :=
  if negb (cl_skip_clk_vote cl) then relax cl else cl.

Section Work.
Context (gate : gate_env).

(** clock_scaling_func *)
Definition clock_scaling_func (s : pm_sys) : exec pm_sys :=
  let '(c, k) := s in
  '(_, s) ← do_clk_scaling (set_scaling_work false c, k);
  Done s.

(** activate_work_func of the client with handle [h]. *)
Definition activate_work_func (h : Z) (s : pm_sys) : exec pm_sys :=
  let '(c, k) := s in
  cl ← deref (get_client c h);
  let cl := cl_set_works false (cl_deactivate_work cl) (cl_complete cl) cl in
  let k := clk_get cl k in
  let cl := stay_awake_if_voting cl in
  let '(cl, dec_clk) :=
    match cl_state cl with
    | IPA_PM_ACTIVATE_IN_PROGRESS => (cl_set_state IPA_PM_ACTIVATED cl, false)
    | IPA_PM_DEACTIVATE_IN_PROGRESS => (cl_set_state IPA_PM_DEACTIVATED cl, true)
    | _ => (cl, false)
    end in
  let cl := complete_all cl in
  if dec_clk then clk_put gate cl (put_client h (relax_if_voting cl) c, k)
  else
    let c := activate_client h (put_client h cl c) in
    let c := match cl_callback cl with Some _ => notify h IPA_PM_CLIENT_ACTIVATED c | None => c end in
    '(_, s) ← do_clk_scaling (c, k);
    Done s.

(** delayed_deferred_deactivate_work_func of the client with handle [h]. *)
Definition delayed_deferred_deactivate_work_func (h : Z) (s : pm_sys) : exec pm_sys :=
  let '(c, k) := s in
  cl ← deref (get_client c h);
  let cl := cancel_deactivate_work cl in
  match cl_state cl with
  | IPA_PM_ACTIVATED_TIMER_SET => Done (put_client h (cl_set_state IPA_PM_ACTIVATED cl) c, k)
  | IPA_PM_ACTIVATED_PENDING_RESCHEDULE =>
      Done (put_client h (cl_set_state IPA_PM_ACTIVATED_PENDING_DEACTIVATION
                            (queue_deactivate_work cl)) c, k)
  | IPA_PM_ACTIVATED_PENDING_DEACTIVATION =>
      let cl := cl_set_state IPA_PM_DEACTIVATED cl in
      '(c, k) ← clk_put gate cl (put_client h (relax_if_voting cl) c, k);
      '(_, s) ← do_clk_scaling (deactivate_client h c, k);
      Done s
  | _ => Done (put_client h cl c, k)
  end.
End Work.

(** ** Registration *)

(** The search from slot [i] down to slot 1. *)
Fixpoint find_open (c : ipa_pm_ctx) (name : string) (i : nat) (n : Z) : Z :=
  match i with
  | O => n
  | S i' =>
      match get_client c (Z.of_nat i) with
      | None => find_open c name i' (Z.of_nat i)
      | Some cl => if String.eqb name (cl_name cl) then - EEXIST else find_open c name i' n
      end
  end.
Definition find_next_open_array_element (name : string) (c : ipa_pm_ctx) : Z :=
  find_open c name (Z.to_nat (IPA_PM_MAX_CLIENTS - 1)) (- ENOBUFS).

(** strnstr: whether [s2] occurs in the first [len] bytes of [s1]. *)
Fixpoint strnstr (s1 s2 : string) (len : nat) : bool :=
  (String.length s2 <=? len)%nat && String.prefix s2 s1
  || match s1, len with
     | String _ s1', S len' => (String.length s2 <=? len')%nat && strnstr s1' s2 len'
     | _, _ => false
     end.

Definition ex_set (pending : Z) (mask : list Z) (ex : ipa_pm_exception_list) :=
  {| ex_clients := ex_clients ex; ex_pending := pending; ex_bitmask := mask;
     ex_threshold := ex_threshold ex |}.

Definition ex_names (name : string) (ex : ipa_pm_exception_list) : bool :=
  strnstr (ex_clients ex) name (String.length name)
  && (String.length (ex_clients ex) =? String.length name)%nat.

(** The loop of add_client_to_exception_list; it stops at an exception no
    client was missing in. *)
Fixpoint add_to_exceptions (name : string) (h : Z) (l : list ipa_pm_exception_list) :
    Z * list ipa_pm_exception_list :=
  match l with
  | [] => (0, [])
  | ex :: l =>
      if ex_names name ex then
        let pending := ex_pending ex - 1 in
        if pending <? 0 then (- EPERM, ex_set 0 (ex_bitmask ex) ex :: l)
        else
          let idx := ipahal_get_ep_reg_idx h in
          let mask := zinsert idx (Z.lor (mask_word (ex_bitmask ex) idx) (ipahal_get_ep_bit h))
                              (ex_bitmask ex) in
          let '(r, l) := add_to_exceptions name h l in
          (r, ex_set pending mask ex :: l)
      else let '(r, l) := add_to_exceptions name h l in (r, ex :: l)
  end.

(** An update of the exceptions that are in use. *)
Definition on_exceptions (f : list ipa_pm_exception_list -> Z * list ipa_pm_exception_list)
    (c : ipa_pm_ctx) : Z * ipa_pm_ctx :=
  let d := pm_clk_scaling c in
  let n := Z.to_nat (exception_size d) in
  let '(r, l) := f (take n (exception_list d)) in
  (r, set_clk (db_set_exceptions (l ++ drop n (exception_list d)) d) c).

Definition add_client_to_exception_list (h : Z) (c : ipa_pm_ctx) : exec (Z * ipa_pm_ctx) :=
  cl ← deref (get_client c h);
  Done (on_exceptions (add_to_exceptions (cl_name cl) h) c).

Definition remove_from_exception (h : Z) (ex : ipa_pm_exception_list) : ipa_pm_exception_list :=
  let idx := ipahal_get_ep_reg_idx h in
  let ep_bit := ipahal_get_ep_bit h in
  if negb (Z.land (mask_word (ex_bitmask ex) idx) ep_bit =? 0) then
    ex_set (ex_pending ex + 1)
           (zinsert idx (Z.land (mask_word (ex_bitmask ex) idx) (Z.lnot ep_bit)) (ex_bitmask ex)) ex
  else ex.

Definition remove_client_from_exception_list (h : Z) (c : ipa_pm_ctx) : Z * ipa_pm_ctx :=
  on_exceptions (fun l => (0, map (remove_from_exception h) l)) c.

(** The check of the handle, and the registered client. *)
Definition with_client {A} (fail : A) (h : Z) (c : ipa_pm_ctx) (f : ipa_pm_client -> A) : A :=
  if h >=? IPA_PM_MAX_CLIENTS then fail
  else match get_client c h with None => fail | Some cl => f cl end.

(** The nullification of the pipes of client [h] below [max_pipes]. *)
Definition clear_pipes (max_pipes h : Z) (l : list (option Z)) : list (option Z) :=
  imap (fun i o => if (Z.of_nat i <? max_pipes) && bool_decide (o = Some h) then None else o) l.

(** ipa_pm_deregister after the wait. *)
Definition deregister_post (max_pipes h : Z) (cl : ipa_pm_client) (c : ipa_pm_ctx) : Z * ipa_pm_ctx :=
  if IPA_PM_STATE_ACTIVE (cl_state cl) then (- EPERM, c)
  else
    let c := set_pipes (clear_pipes max_pipes h (pm_clients_by_pipe c)) c in
    let c := set_clients (zinsert h None (pm_clients c)) c in
    let '(_, c) := remove_client_from_exception_list h c in
    (0, c).

(** wait_for_completion is reached only in progress, and waits unless the
    completion is done. *)
Definition must_wait (cl : ipa_pm_client) : bool :=
  IPA_PM_STATE_IN_PROGRESS (cl_state cl) && negb (cl_complete cl).

Definition ipa_pm_deregister (max_pipes h : Z) (c : ipa_pm_ctx) : wait ipa_pm_ctx (Z * ipa_pm_ctx) :=
  with_client (Return (- EINVAL, c)) h c (fun cl =>
    if must_wait cl then Wait c else Return (deregister_post max_pipes h cl c)).

(** struct ipa_pm_register_params, and whether the allocation and the
    registration of the wake source succeed. *)
Record ipa_pm_register_params := {
  rp_name : option string;
  rp_callback : option Z;
  rp_group : ipa_pm_group;
  rp_skip_clk_vote : bool }.
Record register_env := { kzalloc_ok : bool; wakeup_source_ok : bool }.

Definition new_client (p : ipa_pm_register_params) (name : string) (h : Z) : ipa_pm_client :=
  {| cl_name := fst (strlcpy name IPA_PM_MAX_EX_CL); cl_callback := rp_callback p;
     cl_state := IPA_PM_DEACTIVATED; cl_skip_clk_vote := rp_skip_clk_vote p;
     cl_group := rp_group p; cl_hdl := h; cl_throughput := 0; cl_activate_work := false;
     cl_deactivate_work := false; cl_complete := false; cl_wlock := false |}.

(** Undoing a registration: the client is not in progress, so the call of
    ipa_pm_deregister does not wait. *)
Definition undo_register (max_pipes h : Z) (c : ipa_pm_ctx) : ipa_pm_ctx :=
  match ipa_pm_deregister max_pipes h c with Return (_, c) => c | Wait c => c end.

(** ipa_pm_register: the result, the value stored through hdl (if any) and
    the context. *)
Definition ipa_pm_register (max_pipes : Z) (e : register_env) (params : option ipa_pm_register_params)
    (c : ipa_pm_ctx) : exec (Z * option Z * ipa_pm_ctx) :=
  match params with
  | None => Done (- EINVAL, None, c)
  | Some p =>
  match rp_name p with
  | None => Done (- EINVAL, None, c)
  | Some name =>
      let elem := find_next_open_array_element name c in
      if (elem <? 0) || (elem >? IPA_PM_MAX_CLIENTS) then Done (elem, Some (u32 elem), c)
      else if negb (kzalloc_ok e) then
        Done (- ENOMEM, Some elem, set_clients (zinsert elem None (pm_clients c)) c)
      else
        let c := put_client elem (new_client p name elem) c in
        if negb (wakeup_source_ok e) then
          Done (- ENOMEM, Some elem, undo_register max_pipes elem c)
        else
          '(r, c) ← add_client_to_exception_list elem c;
          if negb (r =? 0) then Done (- EPERM, Some elem, undo_register max_pipes elem c)
          else Done (0, Some elem, c)
  end
  end.

(** ipa_pm_associate_ipa_cons_to_client: [mapping] is the result of
    ipa_get_ep_mapping for the consumer. *)
Definition ipa_pm_associate_ipa_cons_to_client (mapping : Z -> Z) (IPA_CLIENT_MAX : Z)
    (h consumer : Z) (c : ipa_pm_ctx) : exec (Z * ipa_pm_ctx) :=
  if (h >=? IPA_PM_MAX_CLIENTS) || (consumer <? 0) || (consumer >=? IPA_CLIENT_MAX)
  then Done (- EINVAL, c)
  else
    match get_client c h with
    | None => Done (- EPERM, c)
    | Some cl =>
        let idx := mapping consumer in
        if idx <? 0 then Done (0, c)
        else
          p ← deref ((pm_clients_by_pipe c).[idx]);
          match p with
          | Some _ => Done (- EPERM, c)
          | None => Done (0, set_pipes (zinsert idx (Some h) (pm_clients_by_pipe c)) c)
          end
    end.

(** ** Activation *)

(** What ipa_pm_activate_helper does next. *)
Inductive activation :=
| ActReturn (ret : Z) (s : pm_sys)
| ActEnable (s : pm_sys).

(** ipa_pm_activate_helper from the clocks on (lines 986-1000). *)
Definition activate_finish (sync : bool) (h : Z) (cl : ipa_pm_client) (s : pm_sys) :
    exec (Z * pm_sys) :=
  let '(c, k) := s in
  let cl := stay_awake (cl_set_state IPA_PM_ACTIVATED cl) in
  let c := activate_client h (put_client h cl c) in
  if sync then
    '(_, s) ← do_clk_scaling (c, k);
    Done (0, s)
  else Done (0, (set_scaling_work true c, k)).

(** The switch of ipa_pm_activate_helper and what follows it, after the wait
    if there was one.  A synchronous activation of a voting client drops the
    lock to take the clocks ([ActEnable]). *)
Definition activate_switch (sync : bool) (h : Z) (cl : ipa_pm_client) (s : pm_sys) : exec activation :=
  let '(c, k) := s in
  match cl_state cl with
  | IPA_PM_ACTIVATED_PENDING_RESCHEDULE | IPA_PM_ACTIVATED_PENDING_DEACTIVATION =>
      Done (ActReturn 0 (put_client h (cl_set_state IPA_PM_ACTIVATED_TIMER_SET cl) c, k))
  | IPA_PM_ACTIVATED | IPA_PM_ACTIVATED_TIMER_SET => Done (ActReturn 0 s)
  | IPA_PM_DEACTIVATED =>
      if negb (cl_skip_clk_vote cl) && sync then
        Done (ActEnable (put_client h (cl_set_state IPA_PM_ACTIVATE_IN_PROGRESS cl) c, k))
      else
        let '(result, k) := if negb (cl_skip_clk_vote cl)
                            then ipa3_inc_client_enable_clks_no_block k else (0, k) in
        if result =? 0 then
          '(r, s) ← activate_finish sync h cl (c, k);
          Done (ActReturn r s)
        else
          Done (ActReturn (- EINPROGRESS)
            (put_client h (queue_activate_work
               (reinit_completion (cl_set_state IPA_PM_ACTIVATE_IN_PROGRESS cl))) c, k))
  | _ => Done (ActReturn (- EPERM) s)
  end.

(** The end of a synchronous activation: take the clocks, then the lock. *)
Definition activate_enable (h : Z) (s : pm_sys) : exec (Z * pm_sys) :=
  let '(c, k) := s in
  cl ← deref (get_client c h);
  activate_finish true h cl (c, ipa3_inc_client_enable_clks k).

Definition activate_run (sync : bool) (h : Z) (cl : ipa_pm_client) (s : pm_sys) : exec (Z * pm_sys) :=
  r ← activate_switch sync h cl s;
  match r with
  | ActReturn ret s => Done (ret, s)
  | ActEnable s => activate_enable h s
  end.

Definition ipa_pm_activate_helper (sync : bool) (h : Z) (cl : ipa_pm_client) (s : pm_sys) :
    exec (wait pm_sys (Z * pm_sys)) :=
  let '(c, k) := s in
  if IPA_PM_STATE_IN_PROGRESS (cl_state cl) && negb sync then
    Done (Return (- EINPROGRESS, (put_client h (cl_set_state IPA_PM_ACTIVATE_IN_PROGRESS cl) c, k)))
  else if must_wait cl then Done (Wait s)
  else r ← activate_run sync h cl s; Done (Return r).

(** ipa_pm_activate never waits. *)
Definition ipa_pm_activate (h : Z) (s : pm_sys) : exec (wait pm_sys (Z * pm_sys)) :=
  with_client (Done (Return (- EINVAL, s))) h (fst s)
    (fun cl => ipa_pm_activate_helper false h cl s).
Definition ipa_pm_activate_sync (h : Z) (s : pm_sys) : exec (wait pm_sys (Z * pm_sys)) :=
  with_client (Done (Return (- EINVAL, s))) h (fst s)
    (fun cl => ipa_pm_activate_helper true h cl s).

(** ** Deactivation *)
Definition ipa_pm_deferred_deactivate (h : Z) (s : pm_sys) : Z * pm_sys :=
  let '(c, k) := s in
  with_client (- EINVAL, s) h c (fun cl =>
    match cl_state cl with
    | IPA_PM_ACTIVATE_IN_PROGRESS =>
        (0, (put_client h (cl_set_state IPA_PM_DEACTIVATE_IN_PROGRESS cl) c, k))
    | IPA_PM_DEACTIVATED => (0, s)
    | IPA_PM_ACTIVATED =>
        (0, (put_client h (queue_deactivate_work
               (cl_set_state IPA_PM_ACTIVATED_PENDING_DEACTIVATION cl)) c, k))
    | IPA_PM_ACTIVATED_TIMER_SET | IPA_PM_ACTIVATED_PENDING_DEACTIVATION =>
        (0, (put_client h (cl_set_state IPA_PM_ACTIVATED_PENDING_RESCHEDULE cl) c, k))
    | IPA_PM_DEACTIVATE_IN_PROGRESS | IPA_PM_ACTIVATED_PENDING_RESCHEDULE => (0, s)
    | IPA_PM_STATE_MAX => (- EINVAL, s)
    end).

Section Deactivate.
Context (gate : Z -> gate_env).

(** The body of the loop of ipa_pm_deactivate_all_deferred for client [h]:
    whether the clock scaling has to run. *)
Definition deactivate_deferred_one (h : Z) (s : pm_sys) : exec (wait pm_sys (bool * pm_sys)) :=
  let '(c, k) := s in
  match get_client c h with
  | None => Done (Return (false, s))
  | Some cl =>
      let cl := cancel_deactivate_work cl in
      let c := put_client h cl c in
      if IPA_PM_STATE_IN_PROGRESS (cl_state cl) then
        Done (if must_wait cl then Wait (c, k) else Return (false, (c, k)))
      else
        match cl_state cl with
        | IPA_PM_ACTIVATED_TIMER_SET =>
            Done (Return (false, (put_client h (cl_set_state IPA_PM_ACTIVATED cl) c, k)))
        | IPA_PM_ACTIVATED_PENDING_DEACTIVATION | IPA_PM_ACTIVATED_PENDING_RESCHEDULE =>
            let cl := cl_set_state IPA_PM_DEACTIVATED cl in
            '(c, k) ← clk_put (gate h) cl (put_client h (relax_if_voting cl) c, k);
            Done (Return (true, (deactivate_client h c, k)))
        | _ => Done (Return (false, (c, k)))
        end
  end.

Fixpoint deactivate_deferred_loop (n : nat) (h : Z) (run : bool) (s : pm_sys) :
    exec (wait pm_sys (bool * pm_sys)) :=
  match n with
  | O => Done (Return (run, s))
  | S n =>
      r ← deactivate_deferred_one h s;
      match r with
      | Wait s => Done (Wait s)
      | Return (b, s) => deactivate_deferred_loop n (h + 1) (run || b) s
      end
  end.

Definition ipa_pm_deactivate_all_deferred (s : pm_sys) : exec (wait pm_sys (Z * pm_sys)) :=
  r ← deactivate_deferred_loop (Z.to_nat (IPA_PM_MAX_CLIENTS - 1)) 1 false s;
  match r with
  | Wait s => Done (Wait s)
  | Return (run_algorithm, s) =>
      if (run_algorithm : bool) then
        '(_, s) ← do_clk_scaling s;
        Done (Return (0, s))
      else Done (Return (0, s))
  end.

(** ipa_pm_deactivate_sync after the wait. *)
Definition deactivate_post (h : Z) (cl : ipa_pm_client) (s : pm_sys) : exec (Z * pm_sys) :=
  let '(c, k) := s in
  if decide (cl_state cl = IPA_PM_DEACTIVATED) then Done (0, s)
  else
    '(c, k) ← clk_put (gate h) cl (put_client h (relax_if_voting cl) c, k);
    cl ← deref (get_client c h);
    let cl := cancel_deactivate_work (cl_set_state IPA_PM_DEACTIVATED cl) in
    '(_, s) ← do_clk_scaling (deactivate_client h (put_client h cl c), k);
    Done (0, s).

Definition ipa_pm_deactivate_sync (h : Z) (s : pm_sys) : exec (wait pm_sys (Z * pm_sys)) :=
  let '(c, k) := s in
  with_client (Done (Return (- EINVAL, s))) h c (fun cl =>
    let cl := cancel_deactivate_work cl in
    let c := put_client h cl c in
    if must_wait cl then Done (Wait (c, k))
    else r ← deactivate_post h cl (c, k); Done (Return r)).
End Deactivate.

(** ** The parts of the calls

    A call, the timer and the work item change a client under its state_lock
    and do the rest after they have released it: the clocks, the wake source,
    the completion, the bit of the mask of active clients.  The definitions
    above are whole calls; those below are their parts under the lock, as
    functions of the client, with what the code still has to do after them. *)
Inductive unlocked :=
| ClkPut          (* IPA_ACTIVE_CLIENTS_DEC_SPECIAL *)
| ClkPutLocked    (* its part under the mutex of the counter *)
| Relax           (* __pm_relax *)
| Deactivated     (* lock, state := IPA_PM_DEACTIVATED, unlock *)
| CancelTimer     (* cancel_delayed_work_sync *)
| Complete        (* complete_all *)
| SetBit          (* activate_client *)
| ClearBit.       (* deactivate_client *)
#[global] Instance unlocked_dec : EqDecision unlocked.
Proof. solve_decision. Defined.

(** Where a client is: no call or work item is past its first access to it;
    a synchronous activation takes the clocks ([taken]: has taken them); the
    activation work has started but not locked the client ([taken], [awake]:
    how far it is); something has released the lock and has [l] to do. *)
Inductive stage :=
| Free
| Enabling (taken : bool)
| Working (taken awake : bool)
| Rest (l : list unlocked).

Definition rest_stage (l : list unlocked) : stage := match l with [] => Free | _ => Rest l end.

(** ipa_pm_activate_helper under the lock (after the wait): the result if the
    call returns, the client, the clocks and what follows. *)
Definition activate_part (sync : bool) (cl : ipa_pm_client) (k : ipa3_clks) :
    Z * ipa_pm_client * ipa3_clks * stage :=
  if IPA_PM_STATE_IN_PROGRESS (cl_state cl) && negb sync
  then (- EINPROGRESS, cl_set_state IPA_PM_ACTIVATE_IN_PROGRESS cl, k, Free)
  else
    match cl_state cl with
    | IPA_PM_ACTIVATED_PENDING_RESCHEDULE | IPA_PM_ACTIVATED_PENDING_DEACTIVATION =>
        (0, cl_set_state IPA_PM_ACTIVATED_TIMER_SET cl, k, Free)
    | IPA_PM_ACTIVATED | IPA_PM_ACTIVATED_TIMER_SET => (0, cl, k, Free)
    | IPA_PM_DEACTIVATED =>
        if negb (cl_skip_clk_vote cl) && sync
        then (0, cl_set_state IPA_PM_ACTIVATE_IN_PROGRESS cl, k, Enabling false)
        else
          let '(result, k) := if negb (cl_skip_clk_vote cl)
                              then ipa3_inc_client_enable_clks_no_block k else (0, k) in
          if result =? 0
          then (0, stay_awake (cl_set_state IPA_PM_ACTIVATED cl), k, Rest [SetBit])
          else (- EINPROGRESS,
                queue_activate_work (reinit_completion (cl_set_state IPA_PM_ACTIVATE_IN_PROGRESS cl)),
                k, Free)
    | _ => (- EPERM, cl, k, Free)
    end.

(** ipa_pm_deferred_deactivate *)
Definition deferred_part (cl : ipa_pm_client) : Z * ipa_pm_client :=
  match cl_state cl with
  | IPA_PM_ACTIVATE_IN_PROGRESS => (0, cl_set_state IPA_PM_DEACTIVATE_IN_PROGRESS cl)
  | IPA_PM_ACTIVATED =>
      (0, queue_deactivate_work (cl_set_state IPA_PM_ACTIVATED_PENDING_DEACTIVATION cl))
  | IPA_PM_ACTIVATED_TIMER_SET | IPA_PM_ACTIVATED_PENDING_DEACTIVATION =>
      (0, cl_set_state IPA_PM_ACTIVATED_PENDING_RESCHEDULE cl)
  | IPA_PM_STATE_MAX => (- EINVAL, cl)
  | _ => (0, cl)
  end.

(** The body of the loop of ipa_pm_deactivate_all_deferred, for a client that
    is not in progress. *)
Definition deactivate_deferred_part (cl : ipa_pm_client) : ipa_pm_client * list unlocked :=
  let cl := cancel_deactivate_work cl in
  match cl_state cl with
  | IPA_PM_ACTIVATED_TIMER_SET => (cl_set_state IPA_PM_ACTIVATED cl, [])
  | IPA_PM_ACTIVATED_PENDING_DEACTIVATION | IPA_PM_ACTIVATED_PENDING_RESCHEDULE =>
      (cl_set_state IPA_PM_DEACTIVATED cl, [ClkPut; Relax; ClearBit])
  | _ => (cl, [])
  end.

(** ipa_pm_deactivate_sync, from the cancelled timer to the first unlock. *)
Definition deactivate_part (cl : ipa_pm_client) : ipa_pm_client * list unlocked :=
  let cl := cancel_deactivate_work cl in
  (cl, if decide (cl_state cl = IPA_PM_DEACTIVATED) then []
       else [ClkPut; Relax; Deactivated; CancelTimer; ClearBit]).

(** delayed_deferred_deactivate_work_func under the lock. *)
Definition timer_part (cl : ipa_pm_client) : ipa_pm_client * list unlocked :=
  let cl := cancel_deactivate_work cl in
  match cl_state cl with
  | IPA_PM_ACTIVATED_TIMER_SET => (cl_set_state IPA_PM_ACTIVATED cl, [])
  | IPA_PM_ACTIVATED_PENDING_RESCHEDULE =>
      (cl_set_state IPA_PM_ACTIVATED_PENDING_DEACTIVATION (queue_deactivate_work cl), [])
  | IPA_PM_ACTIVATED_PENDING_DEACTIVATION =>
      (cl_set_state IPA_PM_DEACTIVATED cl, [ClkPut; Relax; ClearBit])
  | _ => (cl, [])
  end.

(** activate_work_func under the lock, once it has taken the clocks and the
    wake source. *)
Definition activate_work_part (cl : ipa_pm_client) : ipa_pm_client * list unlocked :=
  match cl_state cl with
  | IPA_PM_ACTIVATE_IN_PROGRESS => (cl_set_state IPA_PM_ACTIVATED cl, [Complete; SetBit])
  | IPA_PM_DEACTIVATE_IN_PROGRESS => (cl_set_state IPA_PM_DEACTIVATED cl, [Complete; ClkPut; Relax])
  | _ => (cl, [Complete; SetBit])
  end.

(** What is done without the lock, the clocks apart: to the client, and to
    the mask. *)
Definition unlocked_client (u : unlocked) (cl : ipa_pm_client) : ipa_pm_client :=
  match u with
  | Relax => relax_if_voting cl
  | Deactivated => cl_set_state IPA_PM_DEACTIVATED cl
  | CancelTimer => cancel_deactivate_work cl
  | Complete => complete_all cl
  | _ => cl
  end.
Definition unlocked_mask (h : Z) (u : unlocked) (c : ipa_pm_ctx) : ipa_pm_ctx :=
  match u with SetBit => activate_client h c | ClearBit => deactivate_client h c | _ => c end.

(** One such piece, and the rest of a call with nothing in between. *)
Definition run_unlocked (gate : gate_env) (h : Z) (u : unlocked) (s : pm_sys) : exec pm_sys :=
  let '(c, k) := s in
  cl ← deref (get_client c h);
  match u with
  | ClkPut => clk_put gate cl (c, k)
  | ClkPutLocked => dec_locked gate (c, k)
  | _ => Done (unlocked_mask h u (put_client h (unlocked_client u cl) c), k)
  end.
Fixpoint run_rest (gate : gate_env) (h : Z) (l : list unlocked) (s : pm_sys) : exec pm_sys :=
  match l with
  | [] => Done s
  | u :: l => s ← run_unlocked gate h u s; run_rest gate h l s
  end.

(** ** Wakeup, throughput, queries *)

(** One round of the loop of ipa_pm_handle_suspend. *)
Definition suspend_pipe (pipe_bitmask pipe_add max_pipes : Z)
    (acc : ipa_pm_ctx * list Z) (i : nat) : ipa_pm_ctx * list Z :=
  let '(c, notified) := acc in
  let pipe := Z.of_nat i + pipe_add in
  if negb (pipe <? max_pipes) || negb (Z.testbit pipe_bitmask (Z.of_nat i)) then acc
  else
    match (pm_clients_by_pipe c).[pipe] with
    | Some (Some h) =>
        match get_client c h with
        | Some cl =>
            if negb (existsb (Z.eqb (cl_hdl cl)) notified) && bool_decide (is_Some (cl_callback cl))
            then (notify h IPA_PM_REQUEST_WAKEUP c, cl_hdl cl :: notified)
            else acc
        | None => acc
        end
    | _ => acc
    end.

Definition ipa_pm_handle_suspend (max_pipes pipe_bitmask pipe_arr_idx : Z) (c : ipa_pm_ctx) :
    Z * ipa_pm_ctx :=
  if pipe_bitmask =? 0 then (0, c)
  else
    let pipe_add := u32 (pipe_arr_idx * 32) in
    (0, fst (foldl (suspend_pipe pipe_bitmask pipe_add max_pipes) (c, [])
               (seq 0 (Z.to_nat IPA_EP_PER_REG)))).

Definition ipa_pm_set_throughput (h throughput : Z) (s : pm_sys) : exec (Z * pm_sys) :=
  let '(c, k) := s in
  with_client (Done (- EINVAL, s)) h c (fun cl =>
    if throughput <? 0 then Done (- EINVAL, s)
    else
      let default_group := bool_decide (cl_group cl = IPA_PM_GROUP_DEFAULT) in
      let c := if default_group then put_client h (cl_set_throughput throughput cl) c
               else set_tput (pm_aggregated_tput c)
                      (zinsert (group_index (cl_group cl)) throughput (pm_group_tput c)) c in
      if IPA_PM_STATE_ACTIVE (cl_state cl) || negb default_group then
        '(_, s) ← do_clk_scaling (c, k);
        Done (0, s)
      else Done (0, (c, k))).

(** ipa_pm_get_scaling_bw_levels: the first three thresholds. *)
Definition ipa_pm_get_scaling_bw_levels (c : ipa_pm_ctx) : exec (option (Z * Z * Z)) :=
  let d := pm_clk_scaling c in
  if threshold_size d >=? 3 then
    th ← deref (threshold_of d);
    svs ← deref (th.[0]); nom ← deref (th.[1]); tur ← deref (th.[2]);
    Done (Some (svs, nom, tur))
  else Done None.

(** ** The context *)
Record ipa_pm_exception := { exc_usecase : string; exc_threshold : list Z }.
Record ipa_pm_init_params := {
  ip_default_threshold : list Z;
  ip_threshold_size : Z;
  ip_exceptions : list ipa_pm_exception;
  ip_exception_size : Z }.

(** The number of commas of a string. *)
Fixpoint count_commas (s : string) : Z :=
  match s with
  | EmptyString => 0
  | String a s => (if Ascii.eqb a ","%char then 1 else 0) + count_commas s
  end.

(** Copying the first [n] thresholds over zeroed ones. *)
Definition copy_thresholds (n : Z) (l : list Z) : list Z :=
  take (Z.to_nat IPA_PM_THRESHOLD_MAX)
    (take (Z.to_nat n) l ++ replicate (Z.to_nat (IPA_PM_THRESHOLD_MAX - n)) 0).

Definition empty_exception : ipa_pm_exception_list :=
  {| ex_clients := ""; ex_pending := 0; ex_bitmask := [0; 0];
     ex_threshold := replicate (Z.to_nat IPA_PM_THRESHOLD_MAX) 0 |}.

Definition init_exception (threshold_size : Z) (e : ipa_pm_exception) : ipa_pm_exception_list :=
  let clients := fst (strlcpy (exc_usecase e) IPA_PM_MAX_EX_CL) in
  {| ex_clients := clients; ex_pending := count_commas clients + 1; ex_bitmask := [0; 0];
     ex_threshold := copy_thresholds threshold_size (exc_threshold e) |}.

Definition init_ctx (p : ipa_pm_init_params) : ipa_pm_ctx :=
  {| pm_clients := replicate (Z.to_nat IPA_PM_MAX_CLIENTS) None;
     pm_clients_by_pipe := replicate (Z.to_nat IPA5_PIPES_NUM) None;
     pm_clk_scaling :=
       {| exception_list :=
            map (init_exception (ip_threshold_size p))
                (take (Z.to_nat (ip_exception_size p)) (ip_exceptions p))
            ++ replicate (Z.to_nat (IPA_PM_EXCEPTION_MAX - ip_exception_size p)) empty_exception;
          active_client_bitmask := [0; 0];
          threshold_size := ip_threshold_size p;
          exception_size := ip_exception_size p;
          cur_vote := 0;
          default_threshold := copy_thresholds (ip_threshold_size p) (ip_default_threshold p);
          current_threshold := TH_NULL |};
     pm_aggregated_tput := 0;
     pm_group_tput := replicate 3 0;
     pm_scaling_work := false;
     pm_notified := [] |}.

(** Whether the allocations of ipa_pm_init succeed. *)
Record init_env := { ctx_alloc_ok : bool; wq_ok : bool }.

Definition ipa_pm_init (e : init_env) (params : option ipa_pm_init_params) (c : option ipa_pm_ctx) :
    Z * option ipa_pm_ctx :=
  match params with
  | None => (- EINVAL, c)
  | Some p =>
      if (ip_threshold_size p <=? 0) || (ip_threshold_size p >? IPA_PM_THRESHOLD_MAX)
      then (- EINVAL, c)
      else if (ip_exception_size p <? 0) || (ip_exception_size p >? IPA_PM_EXCEPTION_MAX)
      then (- EINVAL, c)
      else match c with
           | Some _ => (- EPERM, c)
           | None =>
               if negb (ctx_alloc_ok e) then (- ENOMEM, None)
               else if negb (wq_ok e) then (- ENOMEM, None)
               else (0, Some (init_ctx p))
           end
  end.

Definition ipa_pm_destroy (c : option ipa_pm_ctx) : Z * option ipa_pm_ctx :=
  match c with None => (- EPERM, None) | Some _ => (0, None) end.

(** The check every API function starts with: without a context it returns
    -EINVAL. *)
Definition pm_call (f : pm_sys -> exec (wait pm_sys (Z * pm_sys)))
    (s : option ipa_pm_ctx * ipa3_clks) :
    exec (wait (option ipa_pm_ctx * ipa3_clks) (Z * (option ipa_pm_ctx * ipa3_clks))) :=
  match s with
  | (None, k) => Done (Return (- EINVAL, s))
  | (Some c, k) =>
      r ← f (c, k);
      Done match r with
           | Wait (c, k) => Wait (Some c, k)
           | Return (ret, (c, k)) => Return (ret, (Some c, k))
           end
  end.
