(* ===== verification/IpaPmThroughput.v ===== *)
(** What the throughput aggregation of the power manager computes: the array
    calculate_throughput pops maxima from is an implementation of a
    definition on the multiset of throughputs. *)
From stdpp Require Import sorting.
From S2P Require Import Prelude.
From S2P Require Import IpaPm.

(** ** The reference definition *)
Fixpoint aggregate (n : nat) (l : list Z) : Z :=
  match n with
  | O => 0
  | S n =>
      match merge_sort Z.ge l with
      | a :: b :: t => b + aggregate n (a - b :: t)
      | _ => 0
      end
  end.

(** The aggregated throughput of the loads [l], in any order. *)
Definition aggregated (l : list Z) : Z := aggregate (length l) l.

Lemma s32_small x : - 2147483648 <= x < 2147483648 -> s32 x = x.
Proof.
  intros. unfold s32. change (2 ^ 31) with 2147483648. change (2 ^ 32) with 4294967296.
  rewrite Z.mod_small; lia.
Qed.

Definition zsum (l : list Z) : Z := foldr Z.add 0 l.

Lemma zsum_perm l1 l2 : l1 ≡ₚ l2 -> zsum l1 = zsum l2.
Proof. unfold zsum. induction 1; cbn in *; lia. Qed.

Lemma zsum_cons x l : zsum (x :: l) = x + zsum l.
Proof. reflexivity. Qed.

Lemma zsum_nonneg l : Forall (Z.le 0) l -> 0 <= zsum l.
Proof. unfold zsum. induction 1; cbn in *; lia. Qed.

#[global] Instance ge_total : Total Z.ge.
Proof. intros x y. lia. Qed.
#[global] Instance ge_trans : Transitive Z.ge.
Proof. intros x y z. lia. Qed.
#[global] Instance ge_antisymm : AntiSymm (=) Z.ge.
Proof. intros x y. lia. Qed.

Lemma sort_perm l1 l2 : l1 ≡ₚ l2 -> merge_sort Z.ge l1 = merge_sort Z.ge l2.
Proof.
  intros Hp. apply (Sorted_unique Z.ge); try apply Sorted_merge_sort; try apply _.
  now rewrite !merge_sort_Permutation.
Qed.

(** The maximum comes first. *)
Lemma sort_max m l : Forall (fun x => x <= m) l ->
  merge_sort Z.ge (m :: l) = m :: merge_sort Z.ge l.
Proof.
  intros Hm. apply (Sorted_unique Z.ge); try apply _.
  - apply Sorted_merge_sort; apply _.
  - constructor; [apply Sorted_merge_sort; apply _|].
    assert (Hs : Forall (fun x => x <= m) (merge_sort Z.ge l))
      by now rewrite merge_sort_Permutation.
    destruct Hs; constructor; lia.
  - now rewrite !merge_sort_Permutation.
Qed.

Lemma aggregate_S n l :
  aggregate (S n) l =
  match merge_sort Z.ge l with a :: b :: t => b + aggregate n (a - b :: t) | _ => 0 end.
Proof. reflexivity. Qed.

Lemma aggregate_perm n l1 l2 : l1 ≡ₚ l2 -> aggregate n l1 = aggregate n l2.
Proof. intros Hp. destruct n; [done|]. now rewrite !aggregate_S, (sort_perm _ _ Hp). Qed.

(** Removing the two largest loads. *)
Lemma aggregate_max n a b l :
  b <= a -> Forall (fun x => x <= b) l ->
  aggregate (S n) (a :: b :: l) = b + aggregate n (a - b :: l).
Proof.
  intros Hab Hl. rewrite aggregate_S, sort_max.
  2:{ constructor; [lia|]. eapply Forall_impl; [exact Hl|]. cbn. lia. }
  rewrite sort_max by done. f_equal. apply aggregate_perm.
  now rewrite merge_sort_Permutation.
Qed.

(** ** The array *)

(** The first [n] elements. *)
Abbreviation used n arr := (take n arr).

Lemma scan_max_ok arr n :
  (0 < n <= length arr)%nat -> Forall (Z.le 0) (used n arr) ->
  exists i, scan_max arr n = (default 0 (arr !! i), Z.of_nat i) /\ (i < n)%nat /\
    Forall (fun x => x <= default 0 (arr !! i)) (used n arr).
Proof.
  intros Hn Hpos.
  assert (Hget : forall j, (j < n)%nat -> exists v, arr !! j = Some v /\ 0 <= v).
  { intros j Hj. destruct (lookup_lt_is_Some_2 arr j ltac:(lia)) as [v Hv]. exists v.
    split; [done|]. rewrite Forall_lookup in Hpos. apply (Hpos j).
    now rewrite lookup_take_lt by lia. }
  assert (Hscan : forall j, (j <= n)%nat ->
    exists m i, foldl (fun acc i =>
           let '(max, max_idx) := acc in
           let v := default 0 (arr.[Z.of_nat i]) in
           if v >? max then (v, Z.of_nat i) else (max, max_idx))
        (0, Z.of_nat n - 1) (seq 0 j) = (m, Z.of_nat i) /\ (i < n)%nat /\
      0 <= m /\ (forall j', (j' < j)%nat -> default 0 (arr !! j') <= m) /\
      (m = default 0 (arr !! i) \/ m = 0 /\ i = (n - 1)%nat)).
  { induction j as [|j IH]; intros Hj.
    - exists 0, (n - 1)%nat. cbn. repeat split; try lia. f_equal. lia.
    - destruct (IH ltac:(lia)) as (m & i & E & Hi & Hm & Hle & Hv).
      rewrite seq_S, foldl_app, E. cbn. unfold zlookup. tests. rewrite Nat2Z.id.
      destruct (Hget j ltac:(lia)) as (v & Ev & Hv0). rewrite Ev. cbn.
      case_test; [exists v, j|exists m, i]; repeat split; try lia; try done.
      + intros j' Hj'. destruct (decide (j' = j)) as [->|]; [rewrite Ev; cbn; lia|].
        specialize (Hle j' ltac:(lia)). lia.
      + left. now rewrite Ev.
      + intros j' Hj'. destruct (decide (j' = j)) as [->|]; [rewrite Ev; cbn; lia|].
        apply Hle. lia. }
  destruct (Hscan n ltac:(lia)) as (m & i & E & Hi & Hm & Hle & Hv).
  assert (m = default 0 (arr !! i)) as ->.
  { destruct Hv as [|[-> ->]]; [done|]. specialize (Hle (n - 1)%nat ltac:(lia)).
    destruct (Hget (n - 1)%nat ltac:(lia)) as (v & Ev & ?). rewrite Ev in *. cbn in *. lia. }
  exists i. split; [exact E|]. split; [done|]. rewrite Forall_lookup. intros j x.
  rewrite lookup_take_Some. intros [Hj Hlt]. specialize (Hle j Hlt). now rewrite Hj in Hle.
Qed.

Lemma insert_perm (l : list Z) i x y : l !! i = Some x -> x :: <[i:=y]> l ≡ₚ y :: l.
Proof.
  intros Hx. rewrite insert_take_drop by eauto using lookup_lt_Some.
  rewrite <- (take_drop_middle l i x Hx) at 3. rewrite <- !Permutation_middle.
  apply perm_swap.
Qed.

Lemma pop_max_ok arr n :
  (0 < n <= length arr)%nat -> Forall (Z.le 0) (used n arr) ->
  exists m arr', pop_max_from_array arr n = (m, arr', (n - 1)%nat) /\
    length arr' = length arr /\ used n arr ≡ₚ m :: used (n - 1) arr' /\
    Forall (fun x => x <= m) (used n arr).
Proof.
  intros Hn Hpos. destruct (scan_max_ok arr n Hn Hpos) as (i & E & Hi & Hmax).
  destruct n as [|n]; [lia|]. unfold pop_max_from_array. rewrite E. cbn [Nat.sub].
  rewrite Nat.sub_0_r. unfold zinsert, zlookup. tests. rewrite !Nat2Z.id.
  do 2 eexists. split; [reflexivity|]. split; [apply length_insert|]. split; [|exact Hmax].
  destruct (lookup_lt_is_Some_2 arr i ltac:(lia)) as [x Hx].
  destruct (lookup_lt_is_Some_2 arr n ltac:(lia)) as [y Hy]. rewrite Hx, Hy. cbn.
  rewrite (take_S_r _ _ _ Hy). destruct (decide (i = n)) as [->|].
  - rewrite take_insert_ge by lia. rewrite Hx in Hy. injection Hy as ->.
    now rewrite Permutation_app_comm.
  - rewrite take_insert_lt by lia. rewrite insert_perm by (rewrite lookup_take_lt; [done|lia]).
    now rewrite Permutation_app_comm.
Qed.

Lemma push_ok (arr : list Z) n v :
  (n < length arr)%nat -> used (S n) (zinsert (Z.of_nat n) v arr) ≡ₚ v :: used n arr.
Proof.
  intros Hn. unfold zinsert. tests. rewrite Nat2Z.id.
  rewrite (take_S_r _ _ v) by (apply list_lookup_insert_eq; lia).
  rewrite take_insert_ge by lia. now rewrite Permutation_app_comm.
Qed.

(** The loop computes the aggregate; below the range of int it does not
    overflow. *)
Lemma throughput_loop_ok : forall n arr acc,
  (n <= length arr)%nat -> Forall (Z.le 0) (used n arr) ->
  0 <= acc -> 2 * acc + zsum (used n arr) < 4294967296 ->
  throughput_loop n arr acc = acc + aggregate n (used n arr).
Proof.
  induction n as [|[|n] IH]; intros arr acc Hn Hpos Hacc Hsum.
  - cbn. lia.
  - rewrite aggregate_S. cbn [throughput_loop]. destruct (merge_sort Z.ge (used 1 arr)) as [|? [|]] eqn:E;
      try lia.
    apply (f_equal length) in E. rewrite (Permutation_length (merge_sort_Permutation Z.ge _)) in E.
    rewrite length_take in E. cbn [length] in E. lia.
  - destruct (pop_max_ok arr (S (S n)) ltac:(lia) Hpos) as (a & arr1 & E1 & L1 & P1 & M1).
    cbn [Nat.sub] in P1, E1.
    assert (Hpos1 : Forall (Z.le 0) (a :: used (S n) arr1)) by now rewrite <- P1.
    apply Forall_cons in Hpos1 as [Ha Hpos1].
    destruct (pop_max_ok arr1 (S n) ltac:(lia) Hpos1) as (b & arr2 & E2 & L2 & P2 & M2).
    cbn [Nat.sub] in P2, E2. rewrite Nat.sub_0_r in P2, E2.
    assert (Hpos2 : Forall (Z.le 0) (b :: used n arr2)) by now rewrite <- P2.
    apply Forall_cons in Hpos2 as [Hb Hpos2].
    assert (Hba : b <= a).
    { rewrite P1 in M1. apply Forall_cons in M1 as [_ M1]. rewrite P2 in M1.
      now apply Forall_cons in M1. }
    rewrite P2 in M2. apply Forall_cons in M2 as [_ M2].
    assert (Hperm : used (S (S n)) arr ≡ₚ a :: b :: used n arr2) by now rewrite P1, P2.
    rewrite (aggregate_perm _ _ _ Hperm). rewrite aggregate_max by done.
    rewrite (zsum_perm _ _ Hperm), !zsum_cons in Hsum.
    pose proof (zsum_nonneg _ Hpos2).
    remember (S n) as n'. cbn [throughput_loop]. rewrite Heqn'. rewrite <- Heqn'.
    rewrite E1, E2.
    assert (Hs : s32 (acc + b) = acc + b) by (apply s32_small; lia).
    assert (Hu : used n' (zinsert (Z.of_nat n) (a - b) arr2) ≡ₚ a - b :: used n arr2).
    { subst n'. apply push_ok. lia. }
    rewrite Hs, IH.
    + rewrite (aggregate_perm _ _ _ Hu). lia.
    + unfold zinsert. tests. rewrite length_insert. lia.
    + rewrite Hu. constructor; [lia|done].
    + lia.
    + rewrite (zsum_perm _ _ Hu), zsum_cons. lia.
Qed.

(** ** Bounds *)
Lemma two_largest l :
  (1 < length l)%nat ->
  exists a b t, l ≡ₚ a :: b :: t /\ b <= a /\ Forall (fun x => x <= b) t.
Proof.
  intros Hl. pose proof (merge_sort_Permutation Z.ge l) as Hp.
  pose proof (StronglySorted_merge_sort Z.ge l) as Hs.
  destruct (merge_sort Z.ge l) as [|a [|b t]] eqn:E;
    try (apply Permutation_length in Hp; cbn in Hp; lia).
  exists a, b, t. split; [done|]. inversion_clear Hs as [|? ? Hs' Ha].
  inversion_clear Hs' as [|? ? _ Hb]. apply Forall_cons in Ha as [Ha _].
  split; [lia|]. eapply Forall_impl; [exact Hb|]. cbn. lia.
Qed.

Lemma elem_le_sum x l : Forall (Z.le 0) l -> x ∈ l -> x <= zsum l.
Proof.
  induction 1 as [|y l Hy Hl IH]; intros Hx; [now apply elem_of_nil in Hx|].
  rewrite zsum_cons. pose proof (zsum_nonneg _ Hl).
  apply elem_of_cons in Hx as [->|Hx]; [lia|]. specialize (IH Hx). lia.
Qed.

(** The aggregate is at most half of the sum, and at most what the other loads
    leave; when one load outweighs all others it is exactly their sum. *)
Lemma aggregate_bounds : forall n l,
  length l = n -> Forall (Z.le 0) l ->
  0 <= aggregate n l /\ 2 * aggregate n l <= zsum l /\
  (forall m, m ∈ l -> aggregate n l <= zsum l - m) /\
  (forall m, m ∈ l -> zsum l <= 2 * m -> aggregate n l = zsum l - m).
Proof.
  induction n as [|n IH]; intros l Hlen Hpos.
  - apply nil_length_inv in Hlen as ->. cbn. repeat split; try lia;
      intros m Hm; now apply elem_of_nil in Hm.
  - destruct l as [|x [|y l]]; [discriminate| |].
    + injection Hlen as <-. apply Forall_cons in Hpos as [Hx _]. cbn.
      repeat split; try lia; intros m ->%list_elem_of_singleton; lia.
    + destruct (two_largest (x :: y :: l) ltac:(cbn; lia)) as (a & b & t & P & Hab & Ht).
      rewrite (aggregate_perm _ _ _ P), aggregate_max, (zsum_perm _ _ P), !zsum_cons by done.
      rewrite P in Hpos. apply Forall_cons in Hpos as [Ha [Hb Hpos]%Forall_cons].
      destruct (IH (a - b :: t)) as (I0 & I1 & I2 & I3).
      { apply Permutation_length in P. cbn in *. lia. }
      { constructor; [lia|done]. }
      rewrite zsum_cons in *. specialize (I2 (a - b) ltac:(apply elem_of_cons; now left)).
      specialize (I3 (a - b) ltac:(apply elem_of_cons; now left)).
      assert (Hin : forall m, m ∈ x :: y :: l -> m = a \/ m <= b /\ m <= b + zsum t /\ (m = b \/ m <= zsum t)).
      { intros m Hm. rewrite P in Hm. apply elem_of_cons in Hm as [->|Hm]; [now left|right].
        pose proof (zsum_nonneg _ Hpos). apply elem_of_cons in Hm as [->|Hm]; [lia|].
        pose proof (elem_le_sum m t Hpos Hm). apply Forall_elem with (x := m) in Ht; [|done]. lia. }
      repeat split; try lia.
      * intros m Hm. destruct (Hin m Hm) as [->|]; lia.
      * intros m Hm Hdom. pose proof (zsum_nonneg _ Hpos). destruct (Hin m Hm) as [->|?]; lia.
Qed.

(** ** The loads that count *)
Definition active_default (o : option ipa_pm_client) : option Z :=
  match o with
  | Some cl => if IPA_PM_STATE_ACTIVE (cl_state cl) && bool_decide (cl_group cl = IPA_PM_GROUP_DEFAULT)
               then Some (cl_throughput cl) else None
  | None => None
  end.
Definition active_in (g : ipa_pm_group) (o : option ipa_pm_client) : bool :=
  match o with
  | Some cl => IPA_PM_STATE_ACTIVE (cl_state cl) && bool_decide (cl_group cl = g)
  | None => false
  end.
Definition group_load (grp : list Z) (g : ipa_pm_group) (l : list (option ipa_pm_client)) : list Z :=
  if existsb (active_in g) l then [default 0 (grp.[group_index g])] else [].

(** Each active client of the default group counts with its own throughput,
    each other group with an active client once with that of the group. *)
Definition loads (grp : list Z) (l : list (option ipa_pm_client)) : list Z :=
  omap active_default l ++ group_load grp IPA_PM_GROUP_APPS l ++ group_load grp IPA_PM_GROUP_MODEM l.
Definition active_loads (c : ipa_pm_ctx) : list Z :=
  loads (pm_group_tput c) (drop 1 (pm_clients c)).

Lemma collect_ok grp l arr0 :
  (length l <= length arr0)%nat ->
  let '(arr, n, voted) := foldl (collect_client grp) (arr0, O, replicate 3 false) l in
  length arr = length arr0 /\ (n <= length l)%nat /\ used n arr ≡ₚ loads grp l /\
  voted = [false; existsb (active_in IPA_PM_GROUP_APPS) l; existsb (active_in IPA_PM_GROUP_MODEM) l].
Proof.
  induction l as [|o l IH] using rev_ind; intros Hlen; [now cbn|].
  rewrite length_app in *. cbn in Hlen. specialize (IH ltac:(lia)). rewrite foldl_app.
  destruct (foldl (collect_client grp) (arr0, O, replicate 3 false) l) as [[arr n] voted].
  destruct IH as (L & N & P & ->). unfold loads, group_load in *.
  rewrite omap_app, !existsb_app. cbn [foldl existsb omap list_omap].
  rewrite !orb_false_r.
  destruct o as [cl|]; cbn [collect_client active_default active_in];
    [|rewrite !orb_false_r, app_nil_r; cbn; auto with lia].
  destruct (IPA_PM_STATE_ACTIVE (cl_state cl)); cbn [negb andb];
    [|rewrite !orb_false_r, app_nil_r; cbn; auto with lia].
  assert (Hlen' : forall v, length (zinsert (Z.of_nat n) v arr) = length arr0).
  { intros v. unfold zinsert. tests. now rewrite length_insert. }
  assert (Hpush : forall v, used (S n) (zinsert (Z.of_nat n) v arr) ≡ₚ v :: used n arr).
  { intros v. apply push_ok. lia. }
  destruct (cl_group cl); cbn;
    destruct (existsb (active_in IPA_PM_GROUP_APPS) l), (existsb (active_in IPA_PM_GROUP_MODEM) l);
    cbn in *; rewrite ?Hlen', ?app_nil_r in *; (split; [done|]); (split; [lia|]);
    (split; [|reflexivity]); rewrite ?Hpush, P; solve_Permutation.
Qed.

(** ** Properties *)
Lemma aggregated_perm l1 l2 : l1 ≡ₚ l2 -> aggregated l1 = aggregated l2.
Proof.
  intros Hp. unfold aggregated. rewrite (Permutation_length Hp). now apply aggregate_perm.
Qed.

Lemma calculate_throughput_eq c :
  length (pm_clients c) = Z.to_nat IPA_PM_MAX_CLIENTS ->
  Forall (Z.le 0) (active_loads c) -> zsum (active_loads c) < 4294967296 ->
  calculate_throughput c = aggregated (active_loads c).
Proof.
  intros Hlen Hpos Hsum. unfold calculate_throughput, collect_throughputs.
  pose proof (collect_ok (pm_group_tput c) (drop 1 (pm_clients c))
                (replicate (Z.to_nat IPA_PM_MAX_CLIENTS) 0)) as Hc.
  rewrite length_replicate, length_drop, Hlen in Hc. specialize (Hc ltac:(lia)).
  destruct (foldl _ _ _) as [[arr n] voted]. destruct Hc as (La & Ln & P & _).
  fold (active_loads c) in P. rewrite throughput_loop_ok.
  - rewrite Z.add_0_l. unfold aggregated. rewrite <- (Permutation_length P), length_take_le by lia.
    now apply aggregate_perm.
  - lia.
  - now rewrite P.
  - lia.
  - now rewrite (zsum_perm _ _ P).
Qed.

(** C36: calculate_throughput, which pops maxima out of an array it
    collected from the clients, computes the reference definition on the
    multiset of active loads (each active client of the default group, each
    other group with an active client once), whatever the order of the
    clients; the result is not negative and at most half of the sum of the
    loads, and when one load outweighs all others together it is their sum. *)
Theorem calculate_throughput_correct c l :
  length (pm_clients c) = Z.to_nat IPA_PM_MAX_CLIENTS ->
  l ≡ₚ active_loads c -> Forall (Z.le 0) l -> zsum l < 2 ^ 32 ->
  calculate_throughput c = aggregated l /\
  0 <= calculate_throughput c /\ 2 * calculate_throughput c <= zsum l /\
  (forall m, m ∈ l -> calculate_throughput c <= zsum l - m) /\
  (forall m, m ∈ l -> zsum l <= 2 * m -> calculate_throughput c = zsum l - m).
Proof.
  intros Hlen Hp Hpos Hsum.
  assert (E : calculate_throughput c = aggregated l).
  { rewrite (aggregated_perm _ _ Hp). apply calculate_throughput_eq; [done| |].
    - now rewrite <- Hp.
    - now rewrite <- (zsum_perm _ _ Hp). }
  rewrite E. split; [done|]. now apply aggregate_bounds.
Qed.

(** Three clients of the default group and two of the modem's, with 10, 4 and
    3, and 5 for the group. *)
Definition example_client (g : ipa_pm_group) (h t : Z) : option ipa_pm_client :=
  Some {| cl_name := ""; cl_callback := None; cl_state := IPA_PM_ACTIVATED;
          cl_skip_clk_vote := false; cl_group := g; cl_hdl := h; cl_throughput := t;
          cl_activate_work := false; cl_deactivate_work := false; cl_complete := false;
          cl_wlock := false |}.
Definition example_ctx : ipa_pm_ctx :=
  {| pm_clients :=
       [None; example_client IPA_PM_GROUP_DEFAULT 1 10; example_client IPA_PM_GROUP_MODEM 2 0;
        example_client IPA_PM_GROUP_DEFAULT 3 4; example_client IPA_PM_GROUP_MODEM 4 0;
        example_client IPA_PM_GROUP_DEFAULT 5 3] ++ replicate 30 None;
     pm_clients_by_pipe := replicate 36 None;
     pm_clk_scaling :=
       {| exception_list := []; active_client_bitmask := [62; 0]; threshold_size := 3;
          exception_size := 0; cur_vote := 0; default_threshold := [5; 10; 20; 0; 0];
          current_threshold := TH_NULL |};
     pm_aggregated_tput := 0; pm_group_tput := [0; 0; 5]; pm_scaling_work := false;
     pm_notified := [] |}.

Lemma calculate_throughput_correct_witness :
  zsum [3; 10; 5; 4] < 2 ^ 32 /\ calculate_throughput example_ctx = aggregated [3; 10; 5; 4] /\
  aggregated [3; 10; 5; 4] = 10.
Proof.
  split; [reflexivity|]. split; [|vm_compute; reflexivity].
  apply (calculate_throughput_correct example_ctx [3; 10; 5; 4]).
  - reflexivity.
  - vm_compute. solve_Permutation.
  - repeat constructor; discriminate.
  - reflexivity.
Defined.
