(* ===== verification/IpaPmInv.v ===== *)
(** The invariant of the power manager ([pm_ok]): the state of a client
    determines its work items, its bit in the mask of active clients and its
    wake source, and the references to the clocks the power manager holds are
    those of its active voting clients.  Lemmas on the parts of the operations;
    the operations themselves are in IpaPmSteps. *)
From S2P Require Import Prelude.
From S2P Require Import IpaClk.
From S2P Require Import IpaPm.
From S2P Require Import IpaPmApi.

(** ** Masks of clients *)
Definition bit_of (l : list Z) (h : Z) : bool :=
  Z.testbit (mask_word l (ipahal_get_ep_reg_idx h)) (h mod 32).
Definition active_bit (c : ipa_pm_ctx) (h : Z) : bool :=
  bit_of (active_client_bitmask (pm_clk_scaling c)) h.

Definition valid_hdl (h : Z) : Prop := 0 <= h < IPA_PM_MAX_CLIENTS.

Lemma ep_bit_eq h : 0 <= h -> ipahal_get_ep_bit h = 2 ^ (h mod 32).
Proof.
  intros Hh. unfold ipahal_get_ep_bit. rewrite Z.shiftr_div_pow2, (Z.shiftl_mul_pow2 _ 5) by lia.
  change (2 ^ 5) with 32. replace (h - h / 32 * 32) with (h mod 32) by (rewrite Z.mod_eq; lia).
  rewrite Z.shiftl_mul_pow2; [lia|]. apply Z.mod_pos_bound. lia.
Qed.

Lemma reg_idx_eq h : ipahal_get_ep_reg_idx h = h / 32.
Proof. unfold ipahal_get_ep_reg_idx. now rewrite Z.shiftr_div_pow2. Qed.

Lemma same_cell h j : h / 32 = j / 32 -> h mod 32 = j mod 32 -> h = j.
Proof. intros. rewrite (Z.div_mod h 32), (Z.div_mod j 32) by lia. congruence. Qed.

(** The bits of a mask. *)
Definition mask_bit (h : Z) : Prop := 0 <= h < 64.
Lemma valid_mask_bit h : valid_hdl h -> mask_bit h.
Proof. unfold valid_hdl, mask_bit, IPA_PM_MAX_CLIENTS, IPA5_PIPES_NUM. lia. Qed.

Lemma cell_range h : mask_bit h -> 0 <= h / 32 < 2 /\ 0 <= h mod 32 < 32.
Proof.
  unfold mask_bit. intros.
  split; [|apply Z.mod_pos_bound; lia].
  split; [apply Z.div_pos; lia|apply Z.div_lt_upper_bound; lia].
Qed.

(** Setting or clearing the bit of [h] in its word, seen at [j]. *)
Lemma bit_set l h j :
  length l = 2%nat -> mask_bit h -> mask_bit j ->
  let idx := ipahal_get_ep_reg_idx h in
  bit_of (zinsert idx (Z.lor (mask_word l idx) (ipahal_get_ep_bit h)) l) j = (j =? h) || bit_of l j.
Proof.
  intros Hl Hh Hj. destruct (cell_range h Hh), (cell_range j Hj). cbn zeta.
  rewrite ep_bit_eq by (destruct Hh; done). unfold bit_of, mask_word. rewrite !reg_idx_eq.
  rewrite zlookup_insert_cases by (unfold zlength; rewrite Hl; lia).
  destruct (h / 32 =? j / 32) eqn:E; zb.
  - cbn. rewrite Z.lor_spec, Z.pow2_bits_eqb by lia. rewrite <- E.
    rewrite orb_comm. f_equal. destruct (j =? h) eqn:Ej; zb; [now subst|].
    intros Hm. apply Ej. symmetry. now apply same_cell.
  - destruct (j =? h) eqn:Ej; zb; [subst; lia|done].
Qed.

Lemma bit_clear l h j :
  length l = 2%nat -> mask_bit h -> mask_bit j ->
  let idx := ipahal_get_ep_reg_idx h in
  bit_of (zinsert idx (Z.land (mask_word l idx) (Z.lnot (ipahal_get_ep_bit h))) l) j =
  negb (j =? h) && bit_of l j.
Proof.
  intros Hl Hh Hj. destruct (cell_range h Hh), (cell_range j Hj). cbn zeta.
  rewrite ep_bit_eq by (destruct Hh; done). unfold bit_of, mask_word. rewrite !reg_idx_eq.
  rewrite zlookup_insert_cases by (unfold zlength; rewrite Hl; lia).
  destruct (h / 32 =? j / 32) eqn:E; zb.
  - cbn. rewrite Z.land_spec, Z.lnot_spec, Z.pow2_bits_eqb by lia. rewrite <- E.
    rewrite andb_comm. f_equal. f_equal. destruct (j =? h) eqn:Ej; zb; [now subst|].
    intros Hm. apply Ej. symmetry. now apply same_cell.
  - destruct (j =? h) eqn:Ej; zb; [subst; lia|done].
Qed.

(** ** Clients *)
Definition timer_set (st : ipa_pm_state) : bool :=
  match st with
  | IPA_PM_ACTIVATED_PENDING_DEACTIVATION | IPA_PM_ACTIVATED_TIMER_SET
  | IPA_PM_ACTIVATED_PENDING_RESCHEDULE => true
  | _ => false
  end.

(** An active client that votes for the clocks. *)
Definition voting (o : option ipa_pm_client) : bool :=
  match o with
  | Some cl => IPA_PM_STATE_ACTIVE (cl_state cl) && negb (cl_skip_clk_vote cl)
  | None => false
  end.
Definition votes (l : list (option ipa_pm_client)) : Z :=
  foldr (fun o n => Z.b2z (voting o) + n) 0 l.

(** A registered client with handle [h]; [en] says that a synchronous
    activation of it is taking the clocks. *)
Record client_ok (h : Z) (en : bool) (cl : ipa_pm_client) : Prop := {
  ok_hdl : cl_hdl cl = h;
  ok_state : cl_state cl <> IPA_PM_STATE_MAX;
  ok_timer : cl_deactivate_work cl = timer_set (cl_state cl);
  ok_work : cl_activate_work cl = IPA_PM_STATE_IN_PROGRESS (cl_state cl) && negb en;
  ok_enabling : en = true -> IPA_PM_STATE_IN_PROGRESS (cl_state cl) = true;
  ok_progress : IPA_PM_STATE_IN_PROGRESS (cl_state cl) = true -> cl_skip_clk_vote cl = false;
  ok_complete : cl_activate_work cl = true -> cl_complete cl = false;
  ok_awake : cl_group cl <> IPA_PM_GROUP_APPS -> cl_wlock cl = false;
  ok_awake_apps : cl_group cl = IPA_PM_GROUP_APPS -> cl_skip_clk_vote cl = false ->
    cl_wlock cl = IPA_PM_STATE_ACTIVE (cl_state cl) }.

(** A slot of the array of clients and its bit in the mask. *)
Definition slot_ok (h : Z) (en bit : bool) (o : option ipa_pm_client) : Prop :=
  match o with
  | None => en = false /\ bit = false
  | Some cl => client_ok h en cl /\ bit = IPA_PM_STATE_ACTIVE (cl_state cl)
  end.

(** [en]: the clients whose synchronous activation is taking the clocks. *)
Record pm_ok (c : ipa_pm_ctx) (en : Z -> bool) : Prop := {
  pm_len : length (pm_clients c) = Z.to_nat IPA_PM_MAX_CLIENTS;
  pm_mask_len : length (active_client_bitmask (pm_clk_scaling c)) = 2%nat;
  pm_slot0 : get_client c 0 = None;
  pm_slots : forall h, valid_hdl h -> slot_ok h (en h) (active_bit c h) (get_client c h) }.

(** The power manager in the driver: [o] references to the clocks are held by
    others, [w] contexts wait to release the last one. *)
Definition sys_ok (s : pm_sys) (en : Z -> bool) (o w : Z) : Prop :=
  0 <= o /\ pm_ok (fst s) en /\ clk_ok (o + votes (pm_clients (fst s))) w (snd s).

Lemma votes_cons o l : votes (o :: l) = Z.b2z (voting o) + votes l.
Proof. reflexivity. Qed.

Lemma votes_nonneg l : 0 <= votes l.
Proof. unfold votes. induction l as [|x l IH]; cbn; [lia|]. destruct (voting x); cbn; lia. Qed.

Lemma votes_insert l i o o' :
  zlookup l i = Some o ->
  votes (zinsert i o' l) = votes l - Z.b2z (voting o) + Z.b2z (voting o').
Proof.
  unfold zlookup, zinsert. destruct (0 <=? i); [|discriminate].
  generalize (Z.to_nat i). clear i. induction l as [|x l IH]; intros i Hi; [now destruct i|].
  destruct i as [|i].
  - injection Hi as ->. change (<[0%nat:=o']> (o :: l)) with (o' :: l). rewrite !votes_cons. lia.
  - specialize (IH i Hi). change (<[S i:=o']> (x :: l)) with (x :: <[i:=o']> l).
    rewrite !votes_cons. lia.
Qed.

Lemma get_client_lookup c h cl :
  get_client c h = Some cl -> zlookup (pm_clients c) h = Some (Some cl).
Proof. unfold get_client. destruct (zlookup _ h) as [[|]|]; congruence. Qed.

(** A voting client is counted. *)
Lemma votes_pos c h cl : get_client c h = Some cl -> voting (Some cl) = true -> 0 < votes (pm_clients c).
Proof.
  intros Hc Hv. apply get_client_lookup in Hc.
  pose proof (votes_insert _ _ _ None Hc) as E. rewrite Hv in E. cbn in E.
  pose proof (votes_nonneg (zinsert h None (pm_clients c))). lia.
Qed.

(** ** Contexts that agree on clients and mask *)
Definition same_core (c c' : ipa_pm_ctx) : Prop :=
  pm_clients c' = pm_clients c /\
  active_client_bitmask (pm_clk_scaling c') = active_client_bitmask (pm_clk_scaling c).
#[global] Instance same_core_refl : Reflexive same_core.
Proof. now intros c. Qed.
#[global] Instance same_core_trans : Transitive same_core.
Proof. intros a b c [? ?] [? ?]. split; congruence. Qed.
#[global] Instance same_core_sym : Symmetric same_core.
Proof. intros a b [? ?]. split; congruence. Qed.

#[global] Instance pm_ok_proper : Proper (same_core ==> pointwise_relation Z eq ==> iff) pm_ok.
Proof.
  assert (H : forall c c' en en', same_core c c' -> pointwise_relation Z eq en en' ->
                pm_ok c en -> pm_ok c' en').
  { intros c c' en en' [E1 E2] He [L M S0 S]. split; try congruence.
    - unfold get_client in *. now rewrite E1.
    - intros h Hh. specialize (S h Hh). unfold active_bit, get_client in *.
      now rewrite E1, E2, <- He. }
  intros c c' Hc en en' He. split; apply H; auto; symmetry; auto.
Qed.

#[global] Instance get_client_proper : Proper (same_core ==> eq ==> eq) get_client.
Proof. intros c c' [E _] h ? <-. unfold get_client. now rewrite E. Qed.

Lemma same_core_clk c d :
  active_client_bitmask d = active_client_bitmask (pm_clk_scaling c) -> same_core c (set_clk d c).
Proof. now split. Qed.

Lemma set_clock_index_core i c : same_core c (ipa_pm_set_clock_index i c).
Proof. unfold ipa_pm_set_clock_index. case_test; now split. Qed.

(** Storing a client. *)
Lemma get_put c h cl j :
  length (pm_clients c) = Z.to_nat IPA_PM_MAX_CLIENTS -> valid_hdl h ->
  get_client (put_client h cl c) j = if h =? j then Some cl else get_client c j.
Proof.
  intros Hl Hh. unfold get_client, put_client. cbn.
  rewrite zlookup_insert_cases by (unfold zlength; rewrite Hl; exact Hh). now destruct (h =? j).
Qed.

Lemma valid_pos c h cl :
  get_client c 0 = None -> get_client c h = Some cl -> h <> 0.
Proof. intros H0 Hc ->. congruence. Qed.

Lemma get_valid c h cl :
  length (pm_clients c) = Z.to_nat IPA_PM_MAX_CLIENTS -> get_client c h = Some cl -> valid_hdl h.
Proof.
  intros Hl Hc%get_client_lookup%zlookup_lt. unfold zlength in Hc. rewrite Hl in Hc. exact Hc.
Qed.

(** Replacing a client, and its bit, in an invariant state. *)
Definition upd_fun (h : Z) (b : bool) (f : Z -> bool) (j : Z) : bool := if h =? j then b else f j.

Lemma upd_fun_id h f : pointwise_relation Z eq f (upd_fun h (f h) f).
Proof. intros j. unfold upd_fun. case_test; congruence. Qed.

Lemma pm_ok_update c c' en h cl cl' b :
  pm_ok c en -> get_client c h = Some cl ->
  pm_clients c' = zinsert h (Some cl') (pm_clients c) ->
  length (active_client_bitmask (pm_clk_scaling c')) = 2%nat ->
  (forall j, valid_hdl j ->
     active_bit c' j = if h =? j then IPA_PM_STATE_ACTIVE (cl_state cl') else active_bit c j) ->
  client_ok h b cl' -> pm_ok c' (upd_fun h b en).
Proof.
  intros [L M S0 S] Hc Ec Lm Hb Hcl.
  pose proof (get_valid _ _ _ L Hc) as Hh. pose proof (valid_pos _ _ _ S0 Hc) as Hne.
  assert (G : forall j, get_client c' j = if h =? j then Some cl' else get_client c j).
  { intros j. rewrite <- (get_put c h cl' j L Hh). unfold get_client. now rewrite Ec. }
  split.
  - rewrite Ec. unfold zinsert. case_test; [now rewrite length_insert|done].
  - done.
  - rewrite G. case_test; congruence.
  - intros j Hj. rewrite G, Hb by done. unfold upd_fun. case_test; subst.
    + now split.
    + now apply S.
Qed.

(** ** Computations that return

    [returns q m Q]: [m] ends in a result that satisfies [Q]; it may fault
    only if [q] does not hold. *)
Definition returns {A} (q : Prop) (m : exec A) (Q : A -> Prop) : Prop :=
  match m with Done a => Q a | Fault => ~ q | Timeout => False end.

Lemma returns_bind {A B} q (m : exec A) (f : A -> exec B) Q :
  returns q m (fun a => returns q (f a) Q) -> returns q (x ← m; f x) Q.
Proof. destruct m; cbn; auto. Qed.
Lemma returns_mono {A} q (m : exec A) (Q Q' : A -> Prop) :
  returns q m Q -> (forall a, Q a -> Q' a) -> returns q m Q'.
Proof. destruct m; cbn; auto. Qed.
Lemma returns_Done {A} q (m : exec A) Q a : returns q m Q -> m = Done a -> Q a.
Proof. now intros H ->. Qed.
Lemma returns_ex {A} (q : Prop) (m : exec A) Q : returns q m Q -> q -> exists a, m = Done a /\ Q a.
Proof. destruct m; cbn; eauto; contradiction. Qed.

Section Parts.
Implicit Types (c : ipa_pm_ctx) (k : ipa3_clks) (s : pm_sys) (q : Prop).

Lemma sys_ok_core s s' en o w :
  sys_ok s en o w -> same_core (fst s) (fst s') ->
  (forall r w, clk_ok r w (snd s) -> clk_ok r w (snd s')) -> sys_ok s' en o w.
Proof.
  intros (Ho & Hp & Hk) Hc Hclk. split; [done|]. destruct (id Hc) as [E _]. split.
  - now rewrite <- Hc.
  - rewrite E. auto.
Qed.

Lemma sys_ok_en s en en' o w :
  sys_ok s en o w -> pointwise_relation Z eq en en' -> sys_ok s en' o w.
Proof. intros (Ho & Hp & Hk) He. split; [done|]. split; [now rewrite <- He|done]. Qed.

(** The search for an exception stays inside the list. *)
Lemma find_exception_ok active l : forall i,
  find_exception active i l = TH_DEFAULT \/
  exists j, find_exception active i l = TH_EXCEPTION (i + Z.of_nat j) /\ (j < length l)%nat.
Proof.
  induction l as [|ex l IH]; intros i; cbn; [now left|]. case_test.
  - right. exists O. split; [f_equal; lia|lia].
  - destruct (IH (i + 1)) as [->|(j & -> & Hj)]; [now left|right].
    exists (S j). split; [f_equal; lia|lia].
Qed.

Lemma threshold_of_current c :
  exists th, threshold_of (pm_clk_scaling (set_current_threshold c)) = Some th.
Proof.
  unfold set_current_threshold, threshold_of. cbn.
  set (d := pm_clk_scaling c).
  destruct (find_exception_ok (active_client_bitmask d)
              (take (Z.to_nat (exception_size d)) (exception_list d)) 0) as [->|(j & -> & Hj)]; eauto.
  rewrite length_take in Hj. cbn.
  destruct (zlookup_is_Some (exception_list d) (0 + Z.of_nat j)) as [ex ->]; [|eauto].
  unfold zlength. lia.
Qed.

Lemma do_clk_scaling_ok q s en o w (Q : Z * pm_sys -> Prop) :
  sys_ok s en o w -> (forall s', sys_ok s' en o w -> same_core (fst s) (fst s') -> Q (0, s')) ->
  returns q (do_clk_scaling s) Q.
Proof.
  intros Hs HQ. destruct s as [c k]. unfold do_clk_scaling. case_test; [now apply HQ|].
  set (c' := set_current_threshold _).
  assert (Hc : same_core c c') by now split.
  destruct (threshold_of_current (set_tput (calculate_throughput c) (pm_group_tput c) c)) as [th Eth].
  fold c' in Eth. rewrite Eth. cbn. case_test; apply HQ; try done.
  - eapply sys_ok_core; [exact Hs|now split|]. intros r w'. apply set_plan_ok.
  - eapply sys_ok_core; [exact Hs|exact Hc|done].
Qed.

Lemma active_bit_set c h j :
  length (active_client_bitmask (pm_clk_scaling c)) = 2%nat -> valid_hdl h -> valid_hdl j ->
  active_bit (activate_client h c) j = if h =? j then true else active_bit c j.
Proof.
  intros. unfold active_bit, activate_client. cbn. rewrite bit_set by auto using valid_mask_bit.
  rewrite Z.eqb_sym. now destruct (h =? j).
Qed.
Lemma active_bit_clear c h j :
  length (active_client_bitmask (pm_clk_scaling c)) = 2%nat -> valid_hdl h -> valid_hdl j ->
  active_bit (deactivate_client h c) j = if h =? j then false else active_bit c j.
Proof.
  intros. unfold active_bit, deactivate_client. cbn. rewrite bit_clear by auto using valid_mask_bit.
  rewrite Z.eqb_sym. now destruct (h =? j).
Qed.
Lemma mask_len_set c h :
  length (active_client_bitmask (pm_clk_scaling (activate_client h c))) =
  length (active_client_bitmask (pm_clk_scaling c)).
Proof. cbn. unfold zinsert. case_test; [apply length_insert|done]. Qed.
Lemma mask_len_clear c h :
  length (active_client_bitmask (pm_clk_scaling (deactivate_client h c))) =
  length (active_client_bitmask (pm_clk_scaling c)).
Proof. cbn. unfold zinsert. case_test; [apply length_insert|done]. Qed.

(** The three ways an operation changes a client: its activity stays the same,
    it becomes active, it becomes inactive. *)
Lemma client_kept c k k' en o w h cl cl' b :
  sys_ok (c, k) en o w -> get_client c h = Some cl -> client_ok h b cl' ->
  IPA_PM_STATE_ACTIVE (cl_state cl') = IPA_PM_STATE_ACTIVE (cl_state cl) ->
  cl_skip_clk_vote cl' = cl_skip_clk_vote cl ->
  (forall r w, clk_ok r w k -> clk_ok r w k') ->
  sys_ok (put_client h cl' c, k') (upd_fun h b en) o w.
Proof.
  intros (Ho & Hp & Hk) Hc Hcl Ea Es Hk'. split; [done|]. split.
  - eapply pm_ok_update; [exact Hp|exact Hc|reflexivity|exact (pm_mask_len _ _ Hp)| |exact Hcl].
    intros j Hj. rewrite Ea. case_test; [subst|done].
    pose proof (pm_slots _ _ Hp j Hj) as Hs. cbn [fst] in Hs. rewrite Hc in Hs. apply Hs.
  - cbn in *. rewrite (votes_insert _ _ _ _ (get_client_lookup _ _ _ Hc)). cbn. rewrite Ea, Es.
    apply Hk'. now replace (_ + (_ - _ + _)) with (o + votes (pm_clients c)) by lia.
Qed.

Lemma client_activate c k k' en o w h cl cl' b :
  sys_ok (c, k) en o w -> get_client c h = Some cl -> client_ok h b cl' ->
  IPA_PM_STATE_ACTIVE (cl_state cl) = false -> IPA_PM_STATE_ACTIVE (cl_state cl') = true ->
  (forall r w, clk_ok r w k -> clk_ok (r + Z.b2z (negb (cl_skip_clk_vote cl'))) w k') ->
  sys_ok (activate_client h (put_client h cl' c), k') (upd_fun h b en) o w.
Proof.
  intros (Ho & Hp & Hk) Hc Hcl Ei Ea Hk'. split; [done|]. split.
  - pose proof (get_valid _ _ _ (pm_len _ _ Hp) Hc).
    eapply pm_ok_update; [exact Hp|exact Hc|reflexivity| | |exact Hcl]; [|intros j Hj; rewrite Ea].
    + cbn [fst]. rewrite mask_len_set. now apply pm_mask_len in Hp.
    + cbn [fst]. now rewrite active_bit_set by (try apply (pm_mask_len _ _ Hp); done).
  - cbn in *. rewrite (votes_insert _ _ _ _ (get_client_lookup _ _ _ Hc)). cbn. rewrite Ei, Ea. cbn.
    replace (o + _) with (o + votes (pm_clients c) + Z.b2z (negb (cl_skip_clk_vote cl'))) by lia.
    now apply Hk'.
Qed.

Lemma client_deactivate c k k' en o w h cl cl' b :
  sys_ok (c, k) en o w -> get_client c h = Some cl -> client_ok h b cl' ->
  IPA_PM_STATE_ACTIVE (cl_state cl) = true -> IPA_PM_STATE_ACTIVE (cl_state cl') = false ->
  clk_ok (o + votes (pm_clients c) - Z.b2z (negb (cl_skip_clk_vote cl))) w k' ->
  sys_ok (deactivate_client h (put_client h cl' c), k') (upd_fun h b en) o w.
Proof.
  intros (Ho & Hp & Hk) Hc Hcl Ei Ea Hk'. split; [done|]. split.
  - pose proof (get_valid _ _ _ (pm_len _ _ Hp) Hc).
    eapply pm_ok_update; [exact Hp|exact Hc|reflexivity| | |exact Hcl]; [|intros j Hj; rewrite Ea].
    + cbn [fst]. rewrite mask_len_clear. now apply pm_mask_len in Hp.
    + cbn [fst]. now rewrite active_bit_clear by (try apply (pm_mask_len _ _ Hp); done).
  - cbn in *. rewrite (votes_insert _ _ _ _ (get_client_lookup _ _ _ Hc)). cbn. rewrite Ei, Ea. cbn.
    now replace (o + _) with (o + votes (pm_clients c) - Z.b2z (negb (cl_skip_clk_vote cl))) by lia.
Qed.

(** The clocks of a client. *)
Lemma clk_get_ok cl r w k : clk_ok r w k -> clk_ok (r + Z.b2z (negb (cl_skip_clk_vote cl))) w (clk_get cl k).
Proof.
  intros Hk. unfold clk_get. destruct (cl_skip_clk_vote cl); cbn.
  - now rewrite Z.add_0_r.
  - now apply inc_ok.
Qed.

Lemma clk_put_ok gate cl c k r w (Q : pm_sys -> Prop) :
  clk_ok r w k -> (cl_skip_clk_vote cl = false -> 0 < r) ->
  (forall c' k', clk_ok (r - Z.b2z (negb (cl_skip_clk_vote cl))) w k' ->
     c' = c \/ c' = ipa_pm_set_clock_index 0 c -> Q (c', k')) ->
  returns (gsi_quiet gate = true) (clk_put gate cl (c, k)) Q.
Proof.
  intros Hk Hr HQ. unfold clk_put. destruct (cl_skip_clk_vote cl); cbn [negb Z.b2z] in *.
  - apply HQ; [now rewrite Z.sub_0_r|auto].
  - specialize (Hr eq_refl).
    destruct (__ipa3_dec_client_disable_clks gate (c, k)) as [[c' k']| |] eqn:E; cbn.
    + destruct (dec_ok _ _ _ _ _ _ Hk Hr E). auto.
    + intros Hq. destruct (dec_Done r w c k gate Hk Hr Hq). congruence.
    + unfold __ipa3_dec_client_disable_clks in E.
      destruct (dec_fast_ok r w k Hk Hr) as [(k' & E' & _)|[E' _]]; rewrite E' in E; cbn in E;
        [discriminate|].
      unfold dec_locked, ipa3_disable_clks in E. repeat case_test_in E; discriminate.
Qed.
End Parts.
