(* ===== verification/IpaPmSteps.v ===== *)
(** Each operation of the power manager preserves its invariant, and returns.

    The lemmas are of the form [returns q m Q] with [q] the assumption that
    the hardware reports no interrupt while the clocks are gated. *)
From S2P Require Import Prelude.
From S2P Require Import IpaMemDesc.
From S2P Require Import IpaClk.
From S2P Require Import IpaPm.
From S2P Require Import IpaPmApi.
From S2P Require Import IpaPmInv.

Definition is_apps (cl : ipa_pm_client) : bool := bool_decide (cl_group cl = IPA_PM_GROUP_APPS).

Lemma set_wlock_id cl : cl_set_wlock (cl_wlock cl) cl = cl.
Proof. now destruct cl. Qed.
Lemma stay_awake_eq cl : stay_awake cl = cl_set_wlock (is_apps cl || cl_wlock cl) cl.
Proof.
  unfold stay_awake, is_apps. case_decide; [rewrite bool_decide_eq_true_2|rewrite bool_decide_eq_false_2];
    auto. cbn. now rewrite set_wlock_id.
Qed.
Lemma relax_eq cl : relax cl = cl_set_wlock (negb (is_apps cl) && cl_wlock cl) cl.
Proof.
  unfold relax, is_apps. case_decide; [rewrite bool_decide_eq_true_2|rewrite bool_decide_eq_false_2];
    auto. cbn. now rewrite set_wlock_id.
Qed.
Lemma stay_awake_if_voting_eq cl :
  stay_awake_if_voting cl = cl_set_wlock (negb (cl_skip_clk_vote cl) && is_apps cl || cl_wlock cl) cl.
Proof.
  unfold stay_awake_if_voting. destruct (cl_skip_clk_vote cl); cbn;
    [now rewrite set_wlock_id|apply stay_awake_eq].
Qed.
Lemma relax_if_voting_eq cl :
  relax_if_voting cl = cl_set_wlock (negb (negb (cl_skip_clk_vote cl) && is_apps cl) && cl_wlock cl) cl.
Proof.
  unfold relax_if_voting. destruct (cl_skip_clk_vote cl); cbn;
    [now rewrite set_wlock_id|apply relax_eq].
Qed.

(** Destructs the invariant of a client whose state is known, and rebuilds it
    after an operation. *)
Ltac client_old Hcl Est :=
  destruct Hcl as [Hhdl Hst Htm Hwk Hen Hpr Hcp Haw Hap];
  rewrite ?Est in Hst, Htm, Hwk, Hen, Hpr, Hap; cbn in Hst, Htm, Hwk, Hen, Hpr, Hap.
Ltac client_cases :=
  unfold is_apps; cbn in *;
  repeat match goal with
  | H : ?b = ?b -> _ |- _ => specialize (H eq_refl)
  | |- context [bool_decide _] => case_bool_decide; cbn in *
  | H : context [negb (?en ?h)] |- _ => destruct (en h) eqn:?; cbn in *
  | |- context [negb (?en ?h)] => destruct (en h) eqn:?; cbn in *
  | |- context [cl_skip_clk_vote ?cl] => destruct (cl_skip_clk_vote cl) eqn:?; cbn in *
  end.
Ltac client_new :=
  split; cbn; intros; client_cases; intros;
  solve [congruence | discriminate | auto | intuition congruence].

Section Ops.
Implicit Types (c : ipa_pm_ctx) (k : ipa3_clks) (s : pm_sys) (h : Z).
Context (en : Z -> bool) (o w : Z).

Lemma slot_client c h cl : pm_ok c en -> get_client c h = Some cl -> client_ok h (en h) cl.
Proof.
  intros Hp Hc. pose proof (pm_slots _ _ Hp h (get_valid _ _ _ (pm_len _ _ Hp) Hc)) as Hs.
  rewrite Hc in Hs. apply Hs.
Qed.

Lemma same_en c k k' h cl cl' :
  sys_ok (c, k) en o w -> get_client c h = Some cl -> client_ok h (en h) cl' ->
  IPA_PM_STATE_ACTIVE (cl_state cl') = IPA_PM_STATE_ACTIVE (cl_state cl) ->
  cl_skip_clk_vote cl' = cl_skip_clk_vote cl ->
  (forall r w, clk_ok r w k -> clk_ok r w k') ->
  sys_ok (put_client h cl' c, k') en o w.
Proof.
  intros. eapply sys_ok_en; [|intros j; symmetry; exact (upd_fun_id h en j)].
  eapply client_kept; eauto.
Qed.

(** Releasing a reference the power manager took in excess. *)
Lemma put_excess gate cl c k k1 :
  sys_ok (c, k) en o w ->
  clk_ok (o + votes (pm_clients c) + Z.b2z (negb (cl_skip_clk_vote cl))) w k1 ->
  returns (gsi_quiet gate = true) (clk_put gate cl (c, k1)) (fun s' => sys_ok s' en o w).
Proof.
  intros (Ho & Hp & Hk) Hk1. eapply clk_put_ok; [exact Hk1| |].
  - intros ->. pose proof (votes_nonneg (pm_clients c)). cbn in *. lia.
  - intros c' k' Hk' Hc'. rewrite Z.add_simpl_r in Hk'.
    assert (Hcore : same_core c c') by (destruct Hc' as [->| ->]; [done|apply set_clock_index_core]).
    eapply (sys_ok_core (c, k')); [|exact Hcore|done]. split; [done|]. now split.
Qed.

(** Releasing the reference of a client that becomes inactive. *)
Lemma put_deactivate gate c k h cl cl' (Q : pm_sys -> Prop) :
  sys_ok (c, k) en o w -> get_client c h = Some cl -> client_ok h (en h) cl' ->
  IPA_PM_STATE_ACTIVE (cl_state cl) = true -> IPA_PM_STATE_ACTIVE (cl_state cl') = false ->
  (forall c' k', same_core (put_client h cl' c) c' ->
     sys_ok (deactivate_client h c', k') en o w -> Q (c', k')) ->
  returns (gsi_quiet gate = true) (clk_put gate cl (put_client h cl' c, k)) Q.
Proof.
  intros Hs Hc Hcl Ha Hi HQ. pose proof Hs as (Ho & Hp & Hk). eapply clk_put_ok; [exact Hk| |].
  - intros Esk. enough (0 < votes (pm_clients c)) by (cbn in *; lia).
    eapply votes_pos; [exact Hc|]. cbn. now rewrite Ha, Esk.
  - intros c' k' Hk' Hc'.
    assert (Hcore : same_core (put_client h cl' c) c')
      by (destruct Hc' as [->| ->]; [done|apply set_clock_index_core]).
    apply HQ; [done|]. eapply (sys_ok_core (deactivate_client h (put_client h cl' c), k')); [| |done].
    + eapply sys_ok_en; [|intros j; symmetry; exact (upd_fun_id h en j)].
      eapply client_deactivate; eauto.
    + destruct Hcore as [E1 E2]. split; [exact E1|]. cbn. cbn in E2. now rewrite E2.
Qed.

Lemma activate_en c k k' h cl cl' :
  sys_ok (c, k) en o w -> get_client c h = Some cl -> client_ok h (en h) cl' ->
  IPA_PM_STATE_ACTIVE (cl_state cl) = false -> IPA_PM_STATE_ACTIVE (cl_state cl') = true ->
  (forall r w, clk_ok r w k -> clk_ok (r + Z.b2z (negb (cl_skip_clk_vote cl'))) w k') ->
  sys_ok (activate_client h (put_client h cl' c), k') en o w.
Proof.
  intros. eapply sys_ok_en; [|intros j; symmetry; exact (upd_fun_id h en j)].
  eapply client_activate; eauto.
Qed.

(** The work item of an asynchronous activation. *)
Lemma activate_work_ok gate c k h cl :
  sys_ok (c, k) en o w -> get_client c h = Some cl -> cl_activate_work cl = true ->
  returns (gsi_quiet gate = true) (activate_work_func gate h (c, k)) (fun s' => sys_ok s' en o w).
Proof.
  intros Hs Hc Hw. pose proof (slot_client c h cl (proj1 (proj2 Hs)) Hc) as Hcl.
  unfold activate_work_func. rewrite Hc. cbn [deref mbind exec_bind].
  destruct (cl_state cl) eqn:Est; try (client_old Hcl Est; rewrite Hw in Hwk; discriminate);
    rewrite stay_awake_if_voting_eq; cbn [cl_state cl_set_works cl_set_wlock]; rewrite Est;
    cbn zeta iota beta; client_old Hcl Est; specialize (Hpr eq_refl).
  - eapply put_excess; [eapply same_en; [exact Hs|exact Hc| | | |intros ? ? HH; exact HH]|].
    + rewrite relax_if_voting_eq. client_new.
    + now rewrite relax_if_voting_eq, Est.
    + now rewrite relax_if_voting_eq.
    + cbn. rewrite (votes_insert _ _ _ _ (get_client_lookup _ _ _ Hc)), relax_if_voting_eq.
      cbn. rewrite Est. cbn. rewrite Z.sub_0_r, Z.add_0_r.
      exact (clk_get_ok (cl_set_works _ _ _ cl) _ _ _ (proj2 (proj2 Hs))).
  - match goal with |- context [activate_client h (put_client h ?x c)] =>
      assert (H1 : sys_ok (activate_client h (put_client h x c), clk_get cl k) en o w) end.
    { eapply activate_en; [exact Hs|exact Hc|client_new|now rewrite Est|done|].
      exact (fun r w => clk_get_ok cl r w k). }
    eapply returns_bind, do_clk_scaling_ok; [|cbn; eauto].
    eapply sys_ok_core; [exact H1| |cbn; eauto]. cbn. destruct (cl_callback cl); now split.
Qed.

(** The timer of a deferred deactivation. *)
Lemma deferred_work_ok gate c k h cl :
  sys_ok (c, k) en o w -> get_client c h = Some cl -> cl_deactivate_work cl = true ->
  returns (gsi_quiet gate = true) (delayed_deferred_deactivate_work_func gate h (c, k))
    (fun s' => sys_ok s' en o w).
Proof.
  intros Hs Hc Hw. pose proof (slot_client c h cl (proj1 (proj2 Hs)) Hc) as Hcl.
  unfold delayed_deferred_deactivate_work_func. rewrite Hc. cbn [deref mbind exec_bind].
  destruct (cl_state cl) eqn:Est; try (client_old Hcl Est; rewrite Hw in Htm; discriminate);
    cbn [cl_state cancel_deactivate_work cl_set_works]; rewrite Est; client_old Hcl Est.
  - rewrite relax_if_voting_eq.
    eapply returns_bind, (put_deactivate _ _ _ _ cl); [exact Hs|exact Hc|client_new|now rewrite Est|done|].
    intros c' k' _ Hs'. eapply returns_bind, do_clk_scaling_ok; [exact Hs'|cbn; eauto].
  - cbn. eapply same_en; [exact Hs|exact Hc|client_new|now rewrite Est|done|auto].
  - cbn. eapply same_en; [exact Hs|exact Hc|client_new|now rewrite Est|done|auto].
Qed.

Lemma clk_scaling_ok s :
  sys_ok s en o w -> returns True (do_clk_scaling s) (fun r => sys_ok (snd r) en o w).
Proof. intros Hs. eapply do_clk_scaling_ok; [exact Hs|auto]. Qed.

Lemma scaling_work_ok c k :
  sys_ok (c, k) en o w -> returns True (clock_scaling_func (c, k)) (fun s' => sys_ok s' en o w).
Proof.
  intros Hs. eapply returns_bind, do_clk_scaling_ok; [|cbn; eauto].
  eapply sys_ok_core; [exact Hs|now split|auto].
Qed.

(** ** Activation *)
Lemma activate_finish_ok sync c k k' h cl b :
  sys_ok (c, k) en o w -> get_client c h = Some cl -> client_ok h b cl ->
  IPA_PM_STATE_ACTIVE (cl_state cl) = false -> cl_deactivate_work cl = false ->
  cl_activate_work cl = false ->
  (forall r w, clk_ok r w k -> clk_ok (r + Z.b2z (negb (cl_skip_clk_vote cl))) w k') ->
  returns True (activate_finish sync h cl (c, k'))
    (fun r => fst r = 0 /\ sys_ok (snd r) (upd_fun h false en) o w).
Proof.
  intros Hs Hc Hcl Hi Hd Ha Hk. unfold activate_finish. rewrite stay_awake_eq.
  match goal with |- context [activate_client h (put_client h ?x c)] =>
    assert (H1 : sys_ok (activate_client h (put_client h x c), k') (upd_fun h false en) o w) end.
  { eapply client_activate; [exact Hs|exact Hc| |done|done|exact Hk].
    destruct Hcl as [? ? ? ? ? ? ? Haw Hap]. client_new. }
  destruct sync.
  - eapply returns_bind, do_clk_scaling_ok; [exact H1|cbn; auto].
  - cbn. split; [done|]. eapply sys_ok_core; [exact H1|now split|auto].
Qed.

Lemma upd_same h b s : en h = b -> sys_ok s (upd_fun h b en) o w -> sys_ok s en o w.
Proof.
  intros Hb Hs. eapply sys_ok_en; [exact Hs|]. intros j. unfold upd_fun. case_test; congruence.
Qed.

(** What the switch of an activation leaves: either the call returns, or the
    client takes the clocks with its lock released. *)
Definition activation_ok (sync : bool) h (r : activation) : Prop :=
  match r with
  | ActReturn _ s => sys_ok s en o w
  | ActEnable s => sync = true /\ sys_ok s (upd_fun h true en) o w
  end.

Lemma activate_switch_ok sync c k h cl :
  sys_ok (c, k) en o w -> get_client c h = Some cl -> en h = false ->
  returns True (activate_switch sync h cl (c, k)) (activation_ok sync h).
Proof.
  intros Hs Hc Hn. pose proof (slot_client c h cl (proj1 (proj2 Hs)) Hc) as Hcl.
  rewrite Hn in Hcl. unfold activate_switch.
  destruct (cl_state cl) eqn:Est; try exact Hs;
    try (pose proof Hcl as Hcl'; client_old Hcl Est; cbn;
         eapply same_en; [exact Hs|exact Hc|rewrite Hn; client_new|now rewrite Est|done|auto]; fail).
  destruct (negb (cl_skip_clk_vote cl) && sync) eqn:Esync.
  - client_old Hcl Est. cbn. apply andb_true_iff in Esync as [Esk ->]. apply negb_true_iff in Esk.
    split; [done|]. eapply client_kept; [exact Hs|exact Hc|client_new|now rewrite Est|done|auto].
  - destruct (if negb (cl_skip_clk_vote cl) then _ else _) as [result k'] eqn:Ek.
    case_test.
    + assert (Hk : forall r w, clk_ok r w k -> clk_ok (r + Z.b2z (negb (cl_skip_clk_vote cl))) w k').
      { intros r' w' Hk. destruct (cl_skip_clk_vote cl); cbn in *.
        - injection Ek as <- <-. now rewrite Z.add_0_r.
        - pose proof (inc_no_block_ok _ _ _ _ _ Hk Ek) as Hk'. now rewrite E in Hk'. }
      eapply returns_bind, returns_mono;
        [apply (activate_finish_ok _ _ _ _ _ _ _ Hs Hc Hcl); [now rewrite Est| | |exact Hk]|];
        try (client_old Hcl Est; done).
      intros [r s'] [_ H']. cbn. exact (upd_same _ _ _ Hn H').
    + destruct (cl_skip_clk_vote cl) eqn:Esk; cbn in Ek; [injection Ek as <- <-; done|].
      client_old Hcl Est. cbn.
      eapply same_en; [exact Hs|exact Hc|rewrite Hn; client_new|now rewrite Est|done|].
      intros r' w' Hk. pose proof (inc_no_block_ok _ _ _ _ _ Hk Ek) as Hk'.
      rewrite (proj2 (Z.eqb_neq _ _) E) in Hk'. exact Hk'.
Qed.

Lemma activate_enable_ok c k h cl :
  sys_ok (c, k) en o w -> get_client c h = Some cl -> en h = true ->
  returns True (activate_enable h (c, k))
    (fun r => fst r = 0 /\ sys_ok (snd r) (upd_fun h false en) o w).
Proof.
  intros Hs Hc Hn. pose proof (slot_client c h cl (proj1 (proj2 Hs)) Hc) as Hcl.
  unfold activate_enable. rewrite Hc. cbn [deref mbind exec_bind].
  destruct (id Hcl) as [_ Hst Htm Hwk Hen Hpr _ _ _]. specialize (Hen Hn). specialize (Hpr Hen).
  rewrite Hn in Hwk. eapply activate_finish_ok; [exact Hs|exact Hc|exact Hcl| | | |].
  - destruct (cl_state cl); done.
  - rewrite Htm. destruct (cl_state cl); done.
  - now rewrite Hwk, andb_false_r.
  - rewrite Hpr. intros r w'. apply inc_ok.
Qed.

(** The asynchronous activation. *)
Definition wait_state (r : wait pm_sys (Z * pm_sys)) : pm_sys :=
  match r with Wait s => s | Return (_, s) => s end.

Lemma activate_async_ok h s :
  sys_ok s en o w ->
  returns True (ipa_pm_activate h s) (fun r => sys_ok (wait_state r) en o w).
Proof.
  intros Hs. destruct s as [c k]. unfold ipa_pm_activate, with_client. case_test; [exact Hs|].
  cbn [fst]. destruct (get_client c h) as [cl|] eqn:Hc; [|exact Hs].
  pose proof (slot_client c h cl (proj1 (proj2 Hs)) Hc) as Hcl. unfold ipa_pm_activate_helper.
  rewrite andb_true_r. destruct (IPA_PM_STATE_IN_PROGRESS (cl_state cl)) eqn:Ep.
  - cbn. destruct Hcl as [Hhdl Hst Htm Hwk Hen Hpr Hcp Haw Hap].
    assert (Hi : IPA_PM_STATE_ACTIVE (cl_state cl) = false) by now destruct (cl_state cl).
    assert (Ht : timer_set (cl_state cl) = false) by now destruct (cl_state cl).
    rewrite ?Ep, ?Hi, ?Ht in *.
    eapply same_en; [exact Hs|exact Hc|client_new|now rewrite Hi|done|auto].
  - assert (must_wait cl = false) as -> by (unfold must_wait; now rewrite Ep).
    assert (Hn : en h = false).
    { destruct (en h) eqn:En; [|done]. pose proof (ok_enabling _ _ _ Hcl eq_refl). congruence. }
    unfold activate_run. eapply returns_bind, returns_bind, returns_mono;
      [apply (activate_switch_ok false _ _ _ _ Hs Hc Hn)|].
    intros [r s'|s']; cbn; [done|]. now intros [? _].
Qed.

(** ** Deactivation *)
Lemma put_put h cl cl' c : put_client h cl (put_client h cl' c) = put_client h cl c.
Proof. unfold put_client, set_clients. cbn. now rewrite zinsert_insert. Qed.

(** Cancelling a timer that is not set. *)
Lemma cancel_ok c k h cl :
  sys_ok (c, k) en o w -> get_client c h = Some cl -> timer_set (cl_state cl) = false ->
  sys_ok (put_client h (cancel_deactivate_work cl) c, k) en o w.
Proof.
  intros Hs Hc Et. pose proof (slot_client c h cl (proj1 (proj2 Hs)) Hc) as Hcl.
  destruct Hcl as [Hhdl Hst Htm Hwk Hen Hpr Hcp Haw Hap]. rewrite Et in *.
  eapply same_en; [exact Hs|exact Hc|client_new|done|done|auto].
Qed.

Lemma put_core h cl c c' : same_core c c' -> same_core (put_client h cl c) (put_client h cl c').
Proof. intros [E1 E2]. split; [cbn; now rewrite E1|exact E2]. Qed.
Lemma deactivate_core h c c' : same_core c c' -> same_core (deactivate_client h c) (deactivate_client h c').
Proof. intros [E1 E2]. split; [exact E1|cbn; now rewrite E2]. Qed.

Lemma deferred_deactivate_ok h s r s' :
  sys_ok s en o w -> ipa_pm_deferred_deactivate h s = (r, s') -> sys_ok s' en o w.
Proof.
  intros Hs. destruct s as [c k]. unfold ipa_pm_deferred_deactivate, with_client.
  case_test; [now intros [= <- <-]|].
  destruct (get_client c h) as [cl|] eqn:Hc; [|now intros [= <- <-]].
  pose proof (slot_client c h cl (proj1 (proj2 Hs)) Hc) as Hcl.
  destruct (cl_state cl) eqn:Est; intros [= <- <-]; try exact Hs; client_old Hcl Est;
    (eapply same_en; [exact Hs|exact Hc|client_new|now rewrite Est|done|auto]).
Qed.

Lemma deferred_one_ok gate h s :
  sys_ok s en o w ->
  returns (gsi_quiet (gate h) = true) (deactivate_deferred_one gate h s)
    (fun r => sys_ok (match r with Wait s => s | Return (_, s) => s end) en o w).
Proof.
  intros Hs. destruct s as [c k]. unfold deactivate_deferred_one.
  destruct (get_client c h) as [cl|] eqn:Hc; [|exact Hs].
  pose proof (slot_client c h cl (proj1 (proj2 Hs)) Hc) as Hcl.
  rewrite !put_put. cbn [cl_state cancel_deactivate_work cl_set_works].
  destruct (cl_state cl) eqn:Est; cbn [IPA_PM_STATE_IN_PROGRESS];
    try (destruct (must_wait _); refine (cancel_ok _ _ _ _ Hs Hc _); now rewrite Est).
  all: try (refine (cancel_ok _ _ _ _ Hs Hc _); now rewrite Est).
  - client_old Hcl Est. eapply returns_bind, (put_deactivate _ _ _ _ cl);
      [exact Hs|exact Hc|rewrite relax_if_voting_eq; client_new|now rewrite Est
      |now rewrite relax_if_voting_eq|].
    intros c' k' _ Hs'. exact Hs'.
  - client_old Hcl Est. cbn.
    eapply same_en; [exact Hs|exact Hc|client_new|now rewrite Est|done|auto].
  - client_old Hcl Est. eapply returns_bind, (put_deactivate _ _ _ _ cl);
      [exact Hs|exact Hc|rewrite relax_if_voting_eq; client_new|now rewrite Est
      |now rewrite relax_if_voting_eq|].
    intros c' k' _ Hs'. exact Hs'.
Qed.

(** The end of a synchronous deactivation, of the client as it is or with its
    timer cancelled. *)
Lemma put_id c h cl : get_client c h = Some cl -> put_client h cl c = c.
Proof.
  intros Hc. unfold put_client, set_clients. rewrite zinsert_id by now apply get_client_lookup.
  now destruct c.
Qed.

Lemma deactivate_post_ok gate c k h cl cl0 :
  sys_ok (c, k) en o w -> get_client c h = Some cl ->
  IPA_PM_STATE_IN_PROGRESS (cl_state cl) = false ->
  cl0 = cl \/ cl0 = cancel_deactivate_work cl ->
  returns (gsi_quiet (gate h) = true) (deactivate_post gate h cl0 (put_client h cl0 c, k))
    (fun r => fst r = 0 /\ sys_ok (snd r) en o w /\
      exists cl', get_client (fst (snd r)) h = Some cl' /\ cl_state cl' = IPA_PM_DEACTIVATED).
Proof.
  intros Hs Hc Hi H0. pose proof (slot_client c h cl (proj1 (proj2 Hs)) Hc) as Hcl.
  pose proof (pm_len _ _ (proj1 (proj2 Hs))) as Hlen. pose proof (get_valid _ _ _ Hlen Hc) as Hh.
  assert (Est : cl_state cl0 = cl_state cl) by now destruct H0 as [->| ->].
  assert (Esk0 : cl_skip_clk_vote cl0 = cl_skip_clk_vote cl) by now destruct H0 as [->| ->].
  unfold deactivate_post. case_decide as Hd; rewrite Est in Hd.
  - cbn in *. split; [done|]. split.
    + destruct H0 as [->| ->]; [now rewrite put_id|]. eapply cancel_ok; [exact Hs|exact Hc|now rewrite Hd].
    + exists cl0. rewrite get_put, Z.eqb_refl by done. split; [done|congruence].
  - assert (Ha : IPA_PM_STATE_ACTIVE (cl_state cl) = true).
    { pose proof (ok_state _ _ _ Hcl). destruct (cl_state cl); done. }
    rewrite put_put. pose proof Hs as (Ho & Hp & Hk).
    set (cl1 := relax_if_voting cl0).
    set (cl2 := cancel_deactivate_work (cl_set_state IPA_PM_DEACTIVATED cl1)).
    eapply returns_bind, clk_put_ok; [exact Hk| |].
    { rewrite Esk0. intros Esk. enough (0 < votes (pm_clients c)) by (cbn in *; lia).
      eapply votes_pos; [exact Hc|]. cbn in *. now rewrite Ha, Esk. }
    rewrite Esk0.
    intros c' k' Hk' Hc'.
    assert (Hcore : same_core (put_client h cl1 c) c')
      by (destruct Hc' as [->| ->]; [done|apply set_clock_index_core]).
    assert (Hg : get_client c' h = Some cl1)
      by (rewrite <- Hcore, get_put, Z.eqb_refl by done; done).
    rewrite Hg. cbn [deref mbind exec_bind]. fold cl2.
    assert (Hcore2 : same_core (deactivate_client h (put_client h cl2 c))
                       (deactivate_client h (put_client h cl2 c'))).
    { apply deactivate_core. rewrite <- (put_put h cl2 cl1 c). now apply put_core. }
    assert (Hs' : sys_ok (deactivate_client h (put_client h cl2 c'), k') en o w).
    { eapply (sys_ok_core (deactivate_client h (put_client h cl2 c), k')); [|exact Hcore2|done].
      apply (upd_same h (en h)); [done|]. subst cl1 cl2.
      eapply (client_deactivate c k); [exact Hs|exact Hc| |done|done|exact Hk'].
      rewrite relax_if_voting_eq. destruct Hcl as [Hhdl Hst Htm Hwk Hen Hpr Hcp Haw Hap].
      rewrite ?Hi, ?Ha in *. destruct H0 as [->| ->]; client_new. }
    eapply returns_bind, do_clk_scaling_ok; [exact Hs'|].
    intros s'' Hs'' Hc''. cbn. split; [done|]. split; [done|]. exists cl2. split; [|done].
    cbn [fst] in Hc''. rewrite <- Hc'', <- Hcore2. cbn.
    change (get_client (deactivate_client h (put_client h cl2 c)) h)
      with (get_client (put_client h cl2 c) h).
    now rewrite get_put, Z.eqb_refl by done.
Qed.

(** ** Registration *)
Lemma set_slot_ok c k h slot b :
  sys_ok (c, k) en o w -> valid_hdl h -> h <> 0 -> slot_ok h b (active_bit c h) slot ->
  voting slot = voting (get_client c h) ->
  sys_ok (set_clients (zinsert h slot (pm_clients c)) c, k) (upd_fun h b en) o w.
Proof.
  intros (Ho & [L M S0 S] & Hk) Hh Hne Hslot Hv. split; [done|].
  assert (Hlt : 0 <= h < zlength (pm_clients c)) by (unfold zlength; cbn in L; rewrite L; exact Hh).
  assert (G : forall j, get_client (set_clients (zinsert h slot (pm_clients c)) c) j =
                        if h =? j then slot else get_client c j).
  { intros j. unfold get_client. cbn. rewrite zlookup_insert_cases by done. now destruct (h =? j). }
  split; [split|].
  - cbn in *. unfold zinsert. case_test; [now rewrite length_insert|done].
  - exact M.
  - cbn [fst] in *. rewrite G. case_test; congruence.
  - intros j Hj. cbn [fst]. rewrite G. unfold upd_fun. case_test; subst; [exact Hslot|now apply S].
  - cbn in *. destruct (zlookup_is_Some _ _ Hlt) as [old Hold].
    rewrite (votes_insert _ _ _ _ Hold), Hv. unfold get_client. rewrite Hold.
    now replace (_ + (_ - _ + _)) with (o + votes (pm_clients c)) by lia.
Qed.

Lemma on_exceptions_core f c : same_core c (snd (on_exceptions f c)).
Proof. unfold on_exceptions. destruct (f _) as [r l]. now split. Qed.

(** A call that does not wait, or has waited, finds the client idle unless it
    is taking the clocks. *)
Lemma idle_of_complete h cl :
  client_ok h false cl -> cl_complete cl = true -> IPA_PM_STATE_IN_PROGRESS (cl_state cl) = false.
Proof.
  intros [_ _ _ Hwk _ _ Hcp _ _] Hc. rewrite andb_true_r in Hwk.
  destruct (IPA_PM_STATE_IN_PROGRESS (cl_state cl)); [|done]. rewrite Hcp in Hc; congruence.
Qed.
Lemma idle_of_no_wait h cl :
  client_ok h false cl -> must_wait cl = false -> IPA_PM_STATE_IN_PROGRESS (cl_state cl) = false.
Proof.
  intros Hcl Hm. unfold must_wait in Hm. apply andb_false_iff in Hm as [|Hm]; [done|].
  apply negb_false_iff in Hm. eauto using idle_of_complete.
Qed.

Lemma deregister_post_ok max_pipes c k h cl r c' :
  sys_ok (c, k) en o w -> get_client c h = Some cl -> en h = false ->
  IPA_PM_STATE_IN_PROGRESS (cl_state cl) = false ->
  deregister_post max_pipes h cl c = (r, c') ->
  sys_ok (c', k) en o w /\
  (IPA_PM_STATE_ACTIVE (cl_state cl) = true /\ r = - EPERM /\ c' = c \/
   IPA_PM_STATE_ACTIVE (cl_state cl) = false /\ r = 0 /\ get_client c' h = None).
Proof.
  intros Hs Hc Hn Hi. unfold deregister_post. destruct (IPA_PM_STATE_ACTIVE (cl_state cl)) eqn:Ha.
  - intros [= <- <-]. auto.
  - unfold remove_client_from_exception_list.
    match goal with |- context [on_exceptions ?f ?x] =>
      pose proof (on_exceptions_core f x) as Hcore; destruct (on_exceptions f x) as [r' c2] end.
    intros [= <- <-]. cbn [snd] in Hcore. pose proof Hs as (_ & Hp & _).
    pose proof (get_valid _ _ _ (pm_len _ _ Hp) Hc) as Hh.
    pose proof (valid_pos _ _ _ (pm_slot0 _ _ Hp) Hc) as Hne.
    split.
    + apply (upd_same h false); [done|].
      eapply (sys_ok_core (set_clients (zinsert h None (pm_clients c)) c, k)); [|exact Hcore|done].
      apply set_slot_ok; [done..| |].
      * pose proof (pm_slots _ _ Hp h Hh) as Hs'. cbn [fst] in Hs'. rewrite Hc in Hs'.
        split; [done|]. destruct Hs' as [_ ->]. done.
      * rewrite Hc. cbn. now rewrite Ha.
    + right. split; [done|]. split; [done|]. rewrite <- Hcore. unfold get_client. cbn.
      rewrite zlookup_insert_eq; [done|]. unfold zlength.
      pose proof (pm_len _ _ Hp) as L. cbn in L. rewrite L. exact Hh.
Qed.

(** The search for a free slot. *)
Lemma find_open_spec c name : forall i n,
  let r := find_open c name i n in
  (r = - EEXIST /\ exists j cl, 1 <= j <= Z.of_nat i /\ get_client c j = Some cl /\ cl_name cl = name) \/
  (forall j cl, 1 <= j <= Z.of_nat i -> get_client c j = Some cl -> cl_name cl <> name) /\
  ((1 <= r <= Z.of_nat i /\ get_client c r = None /\
    forall j, 1 <= j < r -> get_client c j <> None) \/
   (r = n /\ forall j, 1 <= j <= Z.of_nat i -> get_client c j <> None)).
Proof.
  induction i as [|i IH]; intros n; cbn [find_open]; cbn zeta in *.
  - right. split; [intros; lia|right; split; [done|intros; lia]].
  - destruct (get_client c (Z.of_nat (S i))) as [cl|] eqn:Hc.
    + destruct (String.eqb name (cl_name cl)) eqn:E.
      * left. split; [done|]. exists (Z.of_nat (S i)), cl. apply String.eqb_eq in E. repeat split; auto; lia.
      * apply String.eqb_neq in E.
        destruct (IH n) as [(-> & j & cl' & Hj & Hj')|[Hne Hr]]; [left|right].
        { split; [done|]. exists j, cl'. split; [lia|done]. }
        split.
        { intros j cl' Hj Hcj. destruct (decide (j = Z.of_nat (S i))) as [->|]; [congruence|].
          eapply Hne; [|exact Hcj]. lia. }
        destruct Hr as [(? & ? & ?)|[-> Hall]]; [left; repeat split; auto; lia|right].
        split; [done|]. intros j Hj. destruct (decide (j = Z.of_nat (S i))) as [->|]; [congruence|].
        apply Hall. lia.
    + destruct (IH (Z.of_nat (S i))) as [(-> & j & cl' & Hj & Hj')|[Hne Hr]]; [left|right].
      { split; [done|]. exists j, cl'. split; [lia|done]. }
      split.
      { intros j cl' Hj Hcj. destruct (decide (j = Z.of_nat (S i))) as [->|]; [congruence|].
        eapply Hne; [|exact Hcj]. lia. }
      destruct Hr as [(? & ? & ?)|[-> Hall]]; left; [repeat split; auto; lia|].
      split; [lia|]. split; [done|]. intros j Hj. apply Hall. lia.
Qed.

Lemma find_slot_cases c name :
  let r := find_next_open_array_element name c in
  r = - EEXIST \/ r = - ENOBUFS \/ (valid_hdl r /\ r <> 0 /\ get_client c r = None).
Proof.
  unfold find_next_open_array_element. cbn zeta.
  destruct (find_open_spec c name (Z.to_nat (IPA_PM_MAX_CLIENTS - 1)) (- ENOBUFS))
    as [[-> _]|[_ [(Hr & Hn & _)|[-> _]]]]; auto.
  right; right. split; [|split; [lia|done]].
  unfold valid_hdl, IPA_PM_MAX_CLIENTS, IPA5_PIPES_NUM in *. cbn in Hr. lia.
Qed.

Lemma new_client_ok c k h p name :
  sys_ok (c, k) en o w -> valid_hdl h -> h <> 0 -> get_client c h = None ->
  sys_ok (put_client h (new_client p name h) c, k) en o w /\
  get_client (put_client h (new_client p name h) c) h = Some (new_client p name h) /\ en h = false.
Proof.
  intros Hs Hh Hne Hc. pose proof Hs as (_ & Hp & _).
  pose proof (pm_slots _ _ Hp h Hh) as Hslot. cbn [fst] in Hslot. rewrite Hc in Hslot.
  destruct Hslot as [Hn Hb]. split; [|split; [|done]].
  - apply (upd_same h false); [done|]. apply set_slot_ok; [done..| |now rewrite Hc].
    split; [|now rewrite Hb]. split; cbn; intros; congruence.
  - rewrite get_put, Z.eqb_refl; [done| |done]. exact (pm_len _ _ Hp).
Qed.

Lemma undo_register_ok max_pipes c k h cl :
  sys_ok (c, k) en o w -> get_client c h = Some cl -> cl_state cl = IPA_PM_DEACTIVATED ->
  en h = false -> sys_ok (undo_register max_pipes h c, k) en o w /\
  get_client (undo_register max_pipes h c) h = None.
Proof.
  intros Hs Hc Hd Hn. unfold undo_register, ipa_pm_deregister, with_client.
  pose proof (get_valid _ _ _ (pm_len _ _ (proj1 (proj2 Hs))) Hc) as Hh.
  unfold valid_hdl in Hh. tests. cbn [fst] in *. rewrite Hc.
  assert (must_wait cl = false) as -> by (unfold must_wait; now rewrite Hd).
  destruct (deregister_post max_pipes h cl c) as [r c'] eqn:E.
  destruct (deregister_post_ok _ _ _ _ _ _ _ Hs Hc Hn ltac:(now rewrite Hd) E)
    as [Hs' [(Ha & _)|(_ & _ & Hg)]]; [now rewrite Hd in Ha|done].
Qed.

Lemma register_ok max_pipes e p c k :
  sys_ok (c, k) en o w ->
  returns True (ipa_pm_register max_pipes e p c) (fun r => sys_ok (snd r, k) en o w).
Proof.
  intros Hs. unfold ipa_pm_register. destruct p as [p|]; [|exact Hs].
  destruct (rp_name p) as [name|]; [|exact Hs].
  destruct (find_slot_cases c name) as [->|[->|(Hh & Hne & Hc)]]; [exact Hs|exact Hs|].
  set (h := find_next_open_array_element name c) in *. pose proof Hh as Hh'.
  unfold valid_hdl in Hh'. tests.
  replace ((h <? 0) || (h >? IPA_PM_MAX_CLIENTS)) with false
    by (symmetry; apply orb_false_iff; split; [apply Z.ltb_ge; lia|rewrite Z.gtb_ltb; apply Z.ltb_ge; lia]).
  destruct (new_client_ok c k h p name Hs Hh Hne Hc) as (Hs1 & Hc1 & Hn).
  destruct (kzalloc_ok e); cbn [negb].
  - destruct (wakeup_source_ok e); cbn [negb].
    + unfold add_client_to_exception_list. rewrite Hc1. cbn [deref mbind exec_bind].
      match goal with |- context [on_exceptions ?f ?x] =>
        pose proof (on_exceptions_core f x) as Hcore; destruct (on_exceptions f x) as [r c2] end.
      cbn [snd] in Hcore.
      assert (Hs2 : sys_ok (c2, k) en o w) by (eapply sys_ok_core; [exact Hs1|exact Hcore|auto]).
      case_test; [|exact Hs2]. cbn.
      eapply undo_register_ok; [exact Hs2|rewrite <- Hcore; exact Hc1|done|done].
    + cbn. eapply undo_register_ok; [exact Hs1|exact Hc1|done|done].
  - cbn. apply (upd_same h false); [done|]. apply set_slot_ok; [done..| |now rewrite Hc].
    pose proof (pm_slots _ _ (proj1 (proj2 Hs)) h Hh) as Hslot. cbn [fst] in Hslot. rewrite Hc in Hslot.
    split; [done|apply Hslot].
Qed.

(** ** The rest *)
Lemma associate_ok mapping maxc c k h consumer r c' :
  sys_ok (c, k) en o w ->
  ipa_pm_associate_ipa_cons_to_client mapping maxc h consumer c = Done (r, c') ->
  sys_ok (c', k) en o w.
Proof.
  intros Hs Ha. enough (same_core c c') by (eapply sys_ok_core; [exact Hs|done|auto]).
  unfold ipa_pm_associate_ipa_cons_to_client in Ha.
  case_test_in Ha; [now injection Ha as <- <-|].
  destruct (get_client c h); [|now injection Ha as <- <-].
  case_test_in Ha; [now injection Ha as <- <-|].
  destruct (zlookup _ _) as [[|]|]; cbn in Ha; [| |discriminate]; injection Ha as <- <-; now split.
Qed.

Lemma set_throughput_ok c k h t :
  sys_ok (c, k) en o w ->
  returns True (ipa_pm_set_throughput h t (c, k)) (fun r => sys_ok (snd r) en o w).
Proof.
  intros Hs. unfold ipa_pm_set_throughput, with_client. case_test; [exact Hs|].
  destruct (get_client c h) as [cl|] eqn:Hc; [|exact Hs]. case_test; [exact Hs|].
  set (c1 := if bool_decide _ then _ else _).
  assert (Hs1 : sys_ok (c1, k) en o w).
  { subst c1. case_bool_decide; [|eapply sys_ok_core; [exact Hs|now split|auto]].
    pose proof (slot_client c h cl (proj1 (proj2 Hs)) Hc) as Hcl.
    eapply same_en; [exact Hs|exact Hc| |done|done|auto]. now destruct Hcl. }
  case_test; [|exact Hs1].
  eapply returns_bind, do_clk_scaling_ok; [exact Hs1|]. intros s' Hs' _. exact Hs'.
Qed.

Lemma handle_suspend_core max_pipes mask idx c :
  same_core c (snd (ipa_pm_handle_suspend max_pipes mask idx c)).
Proof.
  unfold ipa_pm_handle_suspend. case_test; [done|]. cbn [snd].
  generalize (seq 0 (Z.to_nat IPA_EP_PER_REG)). intros l.
  assert (H : forall acc, same_core c (fst acc) ->
    same_core c (fst (foldl (suspend_pipe mask (u32 (idx * 32)) max_pipes) acc l))).
  { induction l as [|i l IH]; intros acc Ha; [done|]. cbn [foldl]. apply IH.
    destruct acc as [c1 notified]. unfold suspend_pipe. cbn [fst] in *.
    case_test; [done|]. destruct (zlookup _ _) as [[h|]|]; [|done..].
    destruct (get_client c1 h); [|done]. case_test; [|done].
    cbn. etransitivity; [exact Ha|now split]. }
  now apply H.
Qed.

Lemma clk_step_sys s o' w' s' :
  sys_ok s en o w -> clk_step (Build_clk_sys o w s) (Build_clk_sys o' w' s') ->
  0 <= o' -> sys_ok s' en o' w'.
Proof.
  intros (Ho & Hp & Hk) Hstep Ho'.
  pose proof (clk_step_listener _ _ Hstep) as Hl. cbn [fst shared] in Hl.
  assert (Hcore : same_core (fst s) (fst s'))
    by (destruct Hl as [->| ->]; [done|exact (set_clock_index_core 0 _)]).
  pose proof (votes_nonneg (pm_clients (fst s))) as Hv.
  apply (clk_step_frame _ _ _ _ _ _ _ Hv) in Hstep. apply clk_step_ok in Hstep; [|exact Hk].
  split; [done|]. split; [now rewrite <- Hcore|]. destruct Hcore as [-> _]. exact Hstep.
Qed.
End Ops.
