(* ===== verification/IpaPmMachine.v ===== *)
(** The power manager as a transition system of whole calls: those of its
    clients, the work items and timers, and the other users of the clocks, in
    any order.

    A step is a call up to the point where it waits, the rest of the call after
    the wait, a synchronous activation before and after it takes the clocks, a
    work item.  It includes what a call does after it has released the lock of
    the client; the system whose steps are the parts of the calls, with others
    in between, is in IpaPmWindows, and the lemmas at the end here say that a
    call is the sequence of its parts.  The synchronous calls (activate_sync,
    deactivate_sync, deregister) of one client exclude each other; asynchronous
    calls on the client, calls on other clients and work items come in between. *)
From S2P Require Import Prelude.
From S2P Require Import IpaMemDesc.
From S2P Require Import IpaClk.
From S2P Require Import IpaPm.
From S2P Require Import IpaPmApi.
From S2P Require Import IpaPmInv.
From S2P Require Import IpaPmSteps.

Inductive sync_op := OpActivate | OpDeactivate | OpDeregister.
#[global] Instance sync_op_dec : EqDecision sync_op.
Proof. solve_decision. Defined.

(** [enabling]: clients whose synchronous activation is taking the clocks;
    [waiting]: calls that wait for a completion; [others], [slow_others]:
    references held outside the power manager, contexts that wait for the
    mutex of the counter. *)
Record pm_machine := {
  pm : pm_sys;
  enabling : Z -> bool;
  waiting : list (Z * sync_op);
  others : Z;
  slow_others : Z }.

Definition set_pm (s : pm_sys) (m : pm_machine) : pm_machine :=
  {| pm := s; enabling := enabling m; waiting := waiting m; others := others m;
     slow_others := slow_others m |}.
Definition set_enabling (h : Z) (b : bool) (m : pm_machine) : pm_machine :=
  {| pm := pm m; enabling := upd_fun h b (enabling m); waiting := waiting m; others := others m;
     slow_others := slow_others m |}.
Definition set_waiting (l : list (Z * sync_op)) (m : pm_machine) : pm_machine :=
  {| pm := pm m; enabling := enabling m; waiting := l; others := others m;
     slow_others := slow_others m |}.
Definition set_others (o w : Z) (m : pm_machine) : pm_machine :=
  {| pm := pm m; enabling := enabling m; waiting := waiting m; others := o; slow_others := w |}.

(** No synchronous call on the client is under way. *)
Definition idle (m : pm_machine) (h : Z) : Prop :=
  enabling m h = false /\ forall op, (h, op) ∉ waiting m.

Definition stop_waiting (h : Z) (m : pm_machine) : pm_machine :=
  set_waiting (filter (fun p => p.1 <> h) (waiting m)) m.

(** The call gets past its wait: it need not wait, or waited and the
    completion is done. *)
Definition past_wait (m : pm_machine) (op : sync_op) (h : Z) (cl : ipa_pm_client) : Prop :=
  idle m h /\ must_wait cl = false \/ (h, op) ∈ waiting m /\ cl_complete cl = true.

Section Machine.
Context (max_pipes : Z) (mapping : Z -> Z) (client_max : Z).

(** Calls that never wait, and ipa_pm_deactivate_all_deferred client by client
    with the scaling at its end. *)
Inductive call_step (m : pm_machine) : pm_machine -> Prop :=
| st_register e p r c' :
    ipa_pm_register max_pipes e p (fst (pm m)) = Done (r, c') ->
    call_step m (set_pm (c', snd (pm m)) m)
| st_associate h consumer r c' :
    ipa_pm_associate_ipa_cons_to_client mapping client_max h consumer (fst (pm m)) = Done (r, c') ->
    call_step m (set_pm (c', snd (pm m)) m)
| st_activate h r s' :
    ipa_pm_activate h (pm m) = Done (Return (r, s')) ->
    call_step m (set_pm s' m)
| st_deferred_deactivate h r s' :
    ipa_pm_deferred_deactivate h (pm m) = (r, s') ->
    call_step m (set_pm s' m)
| st_set_throughput h t r s' :
    ipa_pm_set_throughput h t (pm m) = Done (r, s') ->
    call_step m (set_pm s' m)
| st_handle_suspend mask idx r c' :
    ipa_pm_handle_suspend max_pipes mask idx (fst (pm m)) = (r, c') ->
    call_step m (set_pm (c', snd (pm m)) m)
| st_deactivate_deferred gate h b s' :
    deactivate_deferred_one gate h (pm m) = Done (Return (b, s')) ->
    call_step m (set_pm s' m)
| st_clk_scaling r s' :
    do_clk_scaling (pm m) = Done (r, s') ->
    call_step m (set_pm s' m).

(** The synchronous calls: ipa_pm_activate_sync, ipa_pm_deactivate_sync and
    ipa_pm_deregister. *)
Inductive sync_step (m : pm_machine) : pm_machine -> Prop :=
| st_wait h op cl :
    op <> OpDeactivate -> get_client (fst (pm m)) h = Some cl -> idle m h -> must_wait cl = true ->
    sync_step m (set_waiting ((h, op) :: waiting m) m)
| st_deactivate_wait gate h s' :
    idle m h -> ipa_pm_deactivate_sync gate h (pm m) = Done (Wait s') ->
    sync_step m (set_waiting ((h, OpDeactivate) :: waiting m) (set_pm s' m))
(* ipa_pm_activate_sync *)
| st_activate_sync h cl r s' :
    get_client (fst (pm m)) h = Some cl -> past_wait m OpActivate h cl ->
    activate_switch true h cl (pm m) = Done (ActReturn r s') ->
    sync_step m (stop_waiting h (set_pm s' m))
| st_activate_sync_enable h cl s' :
    get_client (fst (pm m)) h = Some cl -> past_wait m OpActivate h cl ->
    activate_switch true h cl (pm m) = Done (ActEnable s') ->
    sync_step m (set_enabling h true (stop_waiting h (set_pm s' m)))
| st_activate_enable h r s' :
    enabling m h = true -> activate_enable h (pm m) = Done (r, s') ->
    sync_step m (set_enabling h false (set_pm s' m))
(* ipa_pm_deactivate_sync *)
| st_deactivate_sync gate h cl r s' :
    get_client (fst (pm m)) h = Some cl -> idle m h -> must_wait cl = false ->
    ipa_pm_deactivate_sync gate h (pm m) = Done (Return (r, s')) ->
    sync_step m (set_pm s' m)
| st_deactivate_sync_resume gate h cl r s' :
    get_client (fst (pm m)) h = Some cl -> (h, OpDeactivate) ∈ waiting m -> cl_complete cl = true ->
    deactivate_post gate h cl (pm m) = Done (r, s') ->
    sync_step m (stop_waiting h (set_pm s' m))
(* ipa_pm_deregister *)
| st_deregister h cl r c' :
    get_client (fst (pm m)) h = Some cl -> past_wait m OpDeregister h cl ->
    deregister_post max_pipes h cl (fst (pm m)) = (r, c') ->
    sync_step m (stop_waiting h (set_pm (c', snd (pm m)) m)).

(** The work queue, and the other users of the clocks. *)
Inductive work_step (m : pm_machine) : pm_machine -> Prop :=
| st_activate_work gate h cl s' :
    get_client (fst (pm m)) h = Some cl -> cl_activate_work cl = true ->
    activate_work_func gate h (pm m) = Done s' ->
    work_step m (set_pm s' m)
| st_deactivate_work gate h cl s' :
    get_client (fst (pm m)) h = Some cl -> cl_deactivate_work cl = true ->
    delayed_deferred_deactivate_work_func gate h (pm m) = Done s' ->
    work_step m (set_pm s' m)
| st_scaling_work s' :
    pm_scaling_work (fst (pm m)) = true -> clock_scaling_func (pm m) = Done s' ->
    work_step m (set_pm s' m)
| st_clocks o' w' s' :
    clk_step (Build_clk_sys (others m) (slow_others m) (pm m)) (Build_clk_sys o' w' s') -> 0 <= o' ->
    work_step m (set_others o' w' (set_pm s' m)).

Definition pm_step (m m' : pm_machine) : Prop := call_step m m' \/ sync_step m m' \/ work_step m m'.

Record machine_ok (m : pm_machine) : Prop := {
  mo_sys : sys_ok (pm m) (enabling m) (others m) (slow_others m);
  mo_waiting : forall h op, (h, op) ∈ waiting m -> enabling m h = false }.

Lemma past_wait_idle m op h cl :
  machine_ok m -> get_client (fst (pm m)) h = Some cl -> past_wait m op h cl ->
  enabling m h = false /\ IPA_PM_STATE_IN_PROGRESS (cl_state cl) = false.
Proof.
  intros [Hs Hw] Hc Hp.
  assert (Hn : enabling m h = false) by (destruct Hp as [[[? _] _]|[Hin _]]; eauto).
  pose proof (slot_client _ _ _ _ (proj1 (proj2 Hs)) Hc) as Hcl. rewrite Hn in Hcl.
  split; [done|]. destruct Hp as [[_ Hm]|[_ Hm]]; eauto using idle_of_no_wait, idle_of_complete.
Qed.

Lemma stop_waiting_ok h m : machine_ok m -> machine_ok (stop_waiting h m).
Proof.
  intros [Hs Hw]. split; [exact Hs|]. cbn. intros j op Hin.
  apply list_elem_of_filter in Hin as [_ Hin]. eauto.
Qed.

Lemma set_pm_ok s m :
  machine_ok m -> sys_ok s (enabling m) (others m) (slow_others m) -> machine_ok (set_pm s m).
Proof. intros [_ Hw] Hs. now split. Qed.

Lemma add_waiting_ok h op m : machine_ok m -> idle m h -> machine_ok (set_waiting ((h, op) :: waiting m) m).
Proof.
  intros [Hs Hw] [Hn _]. split; [exact Hs|]. cbn. intros j op'.
  rewrite elem_of_cons. intros [[= -> ->]|Hin]; eauto.
Qed.

(** The synchronous deactivation, once the handle is known to be good. *)
Lemma deactivate_sync_cases gate h c k :
  ipa_pm_deactivate_sync gate h (c, k) = Done (Return (- EINVAL, (c, k))) \/
  exists cl, get_client c h = Some cl /\
    let cl0 := cancel_deactivate_work cl in
    (must_wait cl = true /\
     ipa_pm_deactivate_sync gate h (c, k) = Done (Wait (put_client h cl0 c, k)) \/
     must_wait cl = false /\
     ipa_pm_deactivate_sync gate h (c, k) =
       (r ← deactivate_post gate h cl0 (put_client h cl0 c, k); Done (Return r))).
Proof.
  unfold ipa_pm_deactivate_sync, with_client. case_test; [now left|].
  destruct (get_client c h) as [cl|]; [right|now left]. exists cl. split; [done|]. cbn.
  change (must_wait (cancel_deactivate_work cl)) with (must_wait cl).
  destruct (must_wait cl); auto.
Qed.

Lemma timer_of_wait cl : must_wait cl = true -> timer_set (cl_state cl) = false.
Proof. unfold must_wait. now destruct (cl_state cl). Qed.

Lemma enabling_ok h b s m :
  machine_ok m -> sys_ok s (upd_fun h b (enabling m)) (others m) (slow_others m) ->
  (b = true -> forall op, (h, op) ∉ waiting m) ->
  machine_ok (set_enabling h b (set_pm s m)).
Proof.
  intros [_ Hw] Hs Hb. split; [exact Hs|]. cbn. intros j op Hin. unfold upd_fun.
  case_test; [subst|eauto]. destruct b; [|done]. now destruct (Hb eq_refl op).
Qed.

Lemma call_step_ok m m' : machine_ok m -> call_step m m' -> machine_ok m'.
Proof.
  intros Hm Hstep. pose proof (mo_sys _ Hm) as Hs. destruct (pm m) as [c k] eqn:Epm.
  destruct Hstep as [e p r c' H|h consumer r c' H|h r s' H|h r s' H|h t r s' H|mask idx r c' H|gate h b s' H|r s' H];
    rewrite ?Epm in *; cbn [fst snd] in *.
  - apply set_pm_ok; [done|]. exact (returns_Done _ _ _ _ (register_ok _ _ _ _ _ _ _ _ Hs) H).
  - apply set_pm_ok; [done|]. eapply associate_ok; eauto.
  - apply set_pm_ok; [done|]. exact (returns_Done _ _ _ _ (activate_async_ok _ _ _ h _ Hs) H).
  - apply set_pm_ok; [done|]. eapply deferred_deactivate_ok; eauto.
  - apply set_pm_ok; [done|]. exact (returns_Done _ _ _ _ (set_throughput_ok _ _ _ _ _ _ _ Hs) H).
  - apply set_pm_ok; [done|]. pose proof (handle_suspend_core max_pipes mask idx c) as Hcore.
    rewrite H in Hcore. eapply sys_ok_core; [exact Hs|exact Hcore|auto].
  - apply set_pm_ok; [done|]. exact (returns_Done _ _ _ _ (deferred_one_ok _ _ _ gate _ _ Hs) H).
  - apply set_pm_ok; [done|]. exact (returns_Done _ _ _ _ (clk_scaling_ok _ _ _ _ Hs) H).
Qed.

Lemma sync_step_ok m m' : machine_ok m -> sync_step m m' -> machine_ok m'.
Proof.
  intros Hm Hstep. pose proof (mo_sys _ Hm) as Hs. destruct (pm m) as [c k] eqn:Epm.
  destruct Hstep as [h op cl Hop Hc Hi Hw|gate h s' Hi H|h cl r s' Hc Hp H|h cl s' Hc Hp H|h r s' He H|gate h cl r s' Hc Hi Hw H|gate h cl r s' Hc Hin Hcm H|h cl r c' Hc Hp H];
    rewrite ?Epm in *; cbn [fst snd] in *.
  - now apply add_waiting_ok.
  - apply (add_waiting_ok h OpDeactivate (set_pm s' m)); [|done]. apply set_pm_ok; [done|].
    destruct (deactivate_sync_cases gate h c k) as [E|(cl & Hc & [[Hmw E]|[_ E]])]; rewrite E in H.
    + discriminate.
    + injection H as <-. eapply cancel_ok; eauto using timer_of_wait.
    + destruct (deactivate_post _ _ _ _); discriminate.
  - destruct (past_wait_idle m _ h cl Hm ltac:(now rewrite Epm) Hp) as [Hn _].
    apply (stop_waiting_ok h (set_pm s' m)). apply set_pm_ok; [done|].
    exact (returns_Done _ _ _ _ (activate_switch_ok _ _ _ _ _ _ _ _ Hs Hc Hn) H).
  - destruct (past_wait_idle m _ h cl Hm ltac:(now rewrite Epm) Hp) as [Hn _].
    apply (enabling_ok h true s' (stop_waiting h m)); [now apply stop_waiting_ok| |].
    + apply (returns_Done _ _ _ _ (activate_switch_ok _ _ _ _ _ _ _ _ Hs Hc Hn) H).
    + intros _ op Hin. cbn in Hin. apply list_elem_of_filter in Hin as [Hne _]. done.
  - destruct (get_client c h) as [cl|] eqn:Hc.
    2:{ unfold activate_enable in H. now rewrite Hc in H. }
    apply enabling_ok; [done| |done].
    apply (returns_Done _ _ _ _ (activate_enable_ok _ _ _ _ _ _ _ Hs Hc He) H).
  - apply set_pm_ok; [done|].
    destruct (deactivate_sync_cases gate h c k) as [E|(cl' & Hc' & [[Hmw E]|[_ E]])]; rewrite E in H.
    + now injection H as <- <-.
    + discriminate.
    + rewrite Hc in Hc'. injection Hc' as <-.
      pose proof (slot_client _ _ _ _ (proj1 (proj2 Hs)) Hc) as Hcl. rewrite (proj1 Hi) in Hcl.
      destruct (deactivate_post _ _ _ _) as [r'| |] eqn:Ep; [|discriminate..].
      injection H as ->.
      apply (returns_Done _ _ _ _ (deactivate_post_ok _ _ _ gate _ _ _ _ _ Hs Hc
               (idle_of_no_wait _ _ Hcl Hw) (or_intror eq_refl)) Ep).
  - destruct (past_wait_idle m OpDeactivate h cl Hm ltac:(now rewrite Epm) (or_intror (conj Hin Hcm)))
      as [Hn Hidle].
    apply (stop_waiting_ok h (set_pm s' m)). apply set_pm_ok; [done|].
    rewrite <- (put_id c h cl Hc) in H.
    apply (returns_Done _ _ _ _ (deactivate_post_ok _ _ _ gate _ _ _ _ _ Hs Hc Hidle (or_introl eq_refl)) H).
  - destruct (past_wait_idle m _ h cl Hm ltac:(now rewrite Epm) Hp) as [Hn Hidle].
    apply (stop_waiting_ok h (set_pm (c', k) m)). apply set_pm_ok; [done|].
    eapply deregister_post_ok; eauto.
Qed.

Lemma work_step_ok m m' : machine_ok m -> work_step m m' -> machine_ok m'.
Proof.
  intros Hm Hstep. pose proof (mo_sys _ Hm) as Hs. destruct (pm m) as [c k] eqn:Epm.
  destruct Hstep as [gate h cl s' Hc Hw H|gate h cl s' Hc Hw H|s' Hw H|o' w' s' H Ho];
    rewrite ?Epm in *; cbn [fst snd] in *.
  - apply set_pm_ok; [done|]. exact (returns_Done _ _ _ _ (activate_work_ok _ _ _ _ _ _ _ _ Hs Hc Hw) H).
  - apply set_pm_ok; [done|]. exact (returns_Done _ _ _ _ (deferred_work_ok _ _ _ _ _ _ _ _ Hs Hc Hw) H).
  - apply set_pm_ok; [done|]. exact (returns_Done _ _ _ _ (scaling_work_ok _ _ _ _ _ Hs) H).
  - split; [|exact (mo_waiting _ Hm)]. cbn. eapply clk_step_sys; eauto.
Qed.

Lemma pm_step_ok m m' : machine_ok m -> pm_step m m' -> machine_ok m'.
Proof. intros Hm [H|[H|H]]; eauto using call_step_ok, sync_step_ok, work_step_ok. Qed.
End Machine.

(** ** The calls as sequences of their parts *)
Section Parts.
Implicit Types (c : ipa_pm_ctx) (k : ipa3_clks) (cl : ipa_pm_client).

(** The clocks and a stored client do not touch. *)
Lemma clk_put_commutes gate cl h x c k :
  clk_put gate cl (put_client h x c, k) =
  (s ← clk_put gate cl (c, k); Done (put_client h x (fst s), snd s)).
Proof.
  unfold clk_put, __ipa3_dec_client_disable_clks, dec_locked, ipa3_disable_clks.
  case_test; [|done]. destruct (dec_fast k) as [[k1|]| |]; cbn [mbind exec_bind]; try done.
  repeat case_test; done.
Qed.

Lemma run_unlocked_plain gate h u cl c k :
  u <> ClkPut -> u <> ClkPutLocked -> get_client c h = Some cl ->
  run_unlocked gate h u (c, k) = Done (unlocked_mask h u (put_client h (unlocked_client u cl) c), k).
Proof. intros H1 H2 Hc. unfold run_unlocked. rewrite Hc. now destruct u. Qed.

Context (h : Z) (c : ipa_pm_ctx) (cl : ipa_pm_client).
Hypotheses (Hlen : length (pm_clients c) = Z.to_nat IPA_PM_MAX_CLIENTS)
           (Hc : get_client c h = Some cl).

Lemma get_put_same x : get_client (put_client h x c) h = Some x.
Proof. rewrite get_put, Z.eqb_refl; eauto using get_valid. Qed.

(** The clocks are released, then the client is changed. *)
Lemma run_put gate x l k :
  run_rest gate h (ClkPut :: l) (put_client h x c, k) =
  (s ← clk_put gate x (put_client h x c, k); run_rest gate h l s).
Proof. cbn [run_rest run_unlocked]. now rewrite get_put_same. Qed.

Lemma clk_put_keeps gate x c1 k1 s :
  clk_put gate x (c1, k1) = Done s -> same_core c1 (fst s).
Proof.
  intros H. unfold clk_put, __ipa3_dec_client_disable_clks, dec_locked, ipa3_disable_clks in H.
  case_test_in H; [|now injection H as <-].
  apply bind_Done in H as ([k2|] & _ & H); [now injection H as <-|].
  repeat case_test_in H; try discriminate; injection H as <-; try done;
    exact (set_clock_index_core 0 c1).
Qed.

(** ... with the wake source before or after. *)
Lemma run_release gate x l k :
  run_rest gate h (ClkPut :: Relax :: l) (put_client h x c, k) =
  (s ← clk_put gate x (put_client h (relax_if_voting x) c, k); run_rest gate h l s).
Proof.
  rewrite run_put, !clk_put_commutes.
  destruct (clk_put gate x (c, k)) as [[c1 k1]| |] eqn:E; cbn [mbind exec_bind fst snd]; try done.
  pose proof (clk_put_keeps gate x c k _ E) as Hcore. cbn [fst] in Hcore.
  cbn [run_rest run_unlocked].
  assert (Hg : get_client (put_client h x c1) h = Some x).
  { rewrite <- (put_core h x c c1 Hcore). apply get_put_same. }
  rewrite Hg. cbn [deref mbind exec_bind unlocked_mask unlocked_client]. now rewrite put_put.
Qed.

Lemma activate_parts gate k :
  h < IPA_PM_MAX_CLIENTS ->
  ipa_pm_activate h (c, k) =
  let '(ret, cl', k', st) := activate_part false cl k in
  match st with
  | Rest l => s ← run_rest gate h l (put_client h cl' c, k');
              Done (Return (ret, (set_scaling_work true (fst s), snd s)))
  | _ => Done (Return (ret, (put_client h cl' c, k')))
  end.
Proof.
  intros Hh. unfold ipa_pm_activate, with_client, activate_part. cbn [fst]. tests. rewrite Hc.
  unfold ipa_pm_activate_helper. rewrite andb_true_r. unfold must_wait.
  destruct (IPA_PM_STATE_IN_PROGRESS _) eqn:Ep; [done|]. cbn [andb]. unfold activate_run, activate_switch.
  destruct (cl_state cl) eqn:Est; try discriminate; cbn [mbind exec_bind];
    try done; try now rewrite (put_id c h cl Hc).
  rewrite andb_false_r.
  destruct (if negb (cl_skip_clk_vote cl) then _ else _) as [r k']. case_test; [|done].
  unfold activate_finish. cbn [mbind exec_bind]. cbn [run_rest run_unlocked].
  rewrite get_put_same. cbn [run_unlocked deref mbind exec_bind unlocked_client unlocked_mask fst snd].
  now rewrite put_put.
Qed.

Lemma deferred_parts k :
  h < IPA_PM_MAX_CLIENTS ->
  ipa_pm_deferred_deactivate h (c, k) =
  let '(ret, cl') := deferred_part cl in (ret, (put_client h cl' c, k)).
Proof.
  intros Hh. unfold ipa_pm_deferred_deactivate, with_client, deferred_part. tests. rewrite Hc.
  destruct (cl_state cl); try done; now rewrite (put_id c h cl Hc).
Qed.

(** The wait of a deactivation is over. *)
Lemma deactivate_parts gate k :
  deactivate_post gate h (cancel_deactivate_work cl) (put_client h (cancel_deactivate_work cl) c, k) =
  let '(cl', l) := deactivate_part cl in
  match l with
  | [] => Done (0, (put_client h cl' c, k))
  | _ => s ← run_rest (gate h) h l (put_client h cl' c, k);
         '(_, s) ← do_clk_scaling s; Done (0, s)
  end.
Proof.
  unfold deactivate_post, deactivate_part. set (x := cancel_deactivate_work cl). cbv zeta.
  case_decide; [done|]. rewrite run_release, put_put, clk_put_commutes.
  destruct (clk_put (gate h) x (c, k)) as [[c1 k1]| |] eqn:E; cbn [mbind exec_bind fst snd]; try done.
  pose proof (clk_put_keeps (gate h) x c k _ E) as Hcore. cbn [fst] in Hcore.
  assert (Hg : forall y, get_client (put_client h y c1) h = Some y).
  { intros y. rewrite <- (put_core h y c c1 Hcore). apply get_put_same. }
  cbn [run_rest run_unlocked].
  repeat (rewrite ?Hg, ?put_put; cbn [run_unlocked deref mbind exec_bind unlocked_client unlocked_mask fst snd]).
  done.
Qed.

Lemma timer_parts gate k :
  delayed_deferred_deactivate_work_func gate h (c, k) =
  let '(cl', l) := timer_part cl in
  match l with
  | [] => Done (put_client h cl' c, k)
  | _ => s ← run_rest gate h l (put_client h cl' c, k); '(_, s) ← do_clk_scaling s; Done s
  end.
Proof.
  unfold delayed_deferred_deactivate_work_func, timer_part. rewrite Hc. cbn [deref mbind exec_bind].
  destruct (cl_state (cancel_deactivate_work cl)); try done.
  rewrite run_release.
  set (x := cl_set_state _ _). rewrite clk_put_commutes.
  destruct (clk_put gate x (c, k)) as [[c1 k1]| |] eqn:E; cbn [mbind exec_bind fst snd]; try done.
  pose proof (clk_put_keeps gate x c k _ E) as Hcore. cbn [fst] in Hcore.
  cbn [run_rest run_unlocked].
  assert (Hg : forall y, get_client (put_client h y c1) h = Some y).
  { intros y. rewrite <- (put_core h y c c1 Hcore). apply get_put_same. }
  rewrite Hg. cbn [run_unlocked deref mbind exec_bind unlocked_client unlocked_mask fst snd]. now rewrite put_put.
Qed.

Lemma deferred_one_parts gate k :
  IPA_PM_STATE_IN_PROGRESS (cl_state cl) = false ->
  deactivate_deferred_one gate h (c, k) =
  let '(cl', l) := deactivate_deferred_part cl in
  s ← run_rest (gate h) h l (put_client h cl' c, k);
  Done (Return (bool_decide (l <> []), s)).
Proof.
  intros Hp. unfold deactivate_deferred_one, deactivate_deferred_part. rewrite Hc.
  cbn [cl_state cancel_deactivate_work cl_set_works]. rewrite Hp, !put_put.
  assert (Hrel : forall x, (s ← run_rest (gate h) h [ClkPut; Relax; ClearBit] (put_client h x c, k);
                  Done (Return (bool_decide ([ClkPut; Relax; ClearBit] <> []), s))) =
                ('(c, k) ← clk_put (gate h) x (put_client h (relax_if_voting x) c, k);
                 Done (Return (true, (deactivate_client h c, k))) : exec (wait pm_sys (bool * pm_sys)))).
  { intros x. rewrite run_release, clk_put_commutes.
    destruct (clk_put (gate h) x (c, k)) as [[c1 k1]| |] eqn:E; cbn [mbind exec_bind fst snd]; try done.
    pose proof (clk_put_keeps (gate h) x c k _ E) as Hcore. cbn [fst] in Hcore.
    assert (Hg : forall y, get_client (put_client h y c1) h = Some y).
    { intros y. rewrite <- (put_core h y c c1 Hcore). apply get_put_same. }
    cbn [run_rest run_unlocked]. rewrite Hg.
    cbn [run_unlocked deref mbind exec_bind unlocked_client unlocked_mask fst snd]. now rewrite put_put. }
  destruct (cl_state cl) eqn:Est; try discriminate; rewrite ?put_put; try done; symmetry; apply Hrel.
Qed.

Lemma activate_work_parts gate k :
  activate_work_func gate h (c, k) =
  let cl1 := stay_awake_if_voting (cl_set_works false (cl_deactivate_work cl) (cl_complete cl) cl) in
  let '(cl', l) := activate_work_part cl1 in
  s ← run_rest gate h l (put_client h cl' c, clk_get cl k);
  if bool_decide (ClkPut ∈ l) then Done s
  else
    let c := match cl_callback cl with
             | Some _ => notify h IPA_PM_CLIENT_ACTIVATED (fst s) | None => fst s end in
    '(_, s) ← do_clk_scaling (c, snd s); Done s.
Proof.
  unfold activate_work_func, activate_work_part. rewrite Hc. cbn [deref mbind exec_bind].
  change (clk_get (cl_set_works false (cl_deactivate_work cl) (cl_complete cl) cl) k) with (clk_get cl k).
  set (cl1 := stay_awake_if_voting _). cbv zeta.
  assert (Hcb : cl_callback cl1 = cl_callback cl)
    by (subst cl1; now rewrite stay_awake_if_voting_eq).
  assert (Hbit : forall x, run_rest gate h [Complete; SetBit] (put_client h x c, clk_get cl k) =
            Done (activate_client h (put_client h (complete_all x) c), clk_get cl k)).
  { intros x. cbn [run_rest run_unlocked].
    repeat (rewrite ?get_put_same, ?put_put; cbn [run_unlocked deref mbind exec_bind unlocked_client unlocked_mask fst snd]).
    done. }
  assert (Hput : forall x, run_rest gate h [Complete; ClkPut; Relax] (put_client h x c, clk_get cl k) =
            clk_put gate (complete_all x)
              (put_client h (relax_if_voting (complete_all x)) c, clk_get cl k)).
  { intros x. change (run_rest gate h [Complete; ClkPut; Relax] (put_client h x c, clk_get cl k))
      with (s ← run_unlocked gate h Complete (put_client h x c, clk_get cl k);
            run_rest gate h [ClkPut; Relax] s).
    cbn [run_unlocked]. rewrite get_put_same.
    cbn [deref mbind exec_bind unlocked_client unlocked_mask]. rewrite put_put.
    rewrite run_release. now destruct (clk_put _ _ _). }
  destruct (cl_state cl1) eqn:Est; rewrite ?Hbit, ?Hput;
    cbn [mbind exec_bind fst snd cl_callback complete_all cl_set_works cl_set_state]; rewrite ?Hcb;
    try (destruct (cl_callback cl); reflexivity).
  rewrite bool_decide_eq_true_2 by set_solver.
  match goal with |- ?a = _ => destruct a as [s'| |]; done end.
Qed.
End Parts.
