(* ===== verification/IpaPmWindows.v ===== *)
(** The power manager as a transition system whose steps are the parts of the
    calls between two points where the code releases the lock of a client or
    waits, and its invariant. *)
From S2P Require Import Prelude.
From S2P Require Import IpaMemDesc.
From S2P Require Import IpaClk.
From S2P Require Import IpaPm.
From S2P Require Import IpaPmApi.
From S2P Require Import IpaPmInv.
From S2P Require Import IpaPmSteps.
From S2P Require Import IpaPmMachine.

(** ** The machine

    Calls of other clients, timers,
    work items and other users of the clocks come in between; so do the
    asynchronous calls on a client whose activation is taking the clocks.
    What is excluded, by [ready] and [can_lock], is a second call on a client,
    or its timer, while another has released the lock of that client and has
    yet to release clocks, relax the wake source or change the bit
    (pm_release_windows says what happens then).  Recomputing the clock plan,
    which most calls end with, is a step that can come at any time, and so are
    queueing its work item and the callbacks. *)
Record pm_windows := {
  w_pm : pm_sys;
  w_stage : Z -> stage;
  w_waiting : list (Z * sync_op);
  w_others : Z;
  w_slow : Z }.

Definition upd_stage (h : Z) (st : stage) (f : Z -> stage) (j : Z) : stage := if h =? j then st else f j.
Definition w_set (s : pm_sys) (m : pm_windows) : pm_windows :=
  {| w_pm := s; w_stage := w_stage m; w_waiting := w_waiting m; w_others := w_others m;
     w_slow := w_slow m |}.
Definition w_go (h : Z) (st : stage) (s : pm_sys) (m : pm_windows) : pm_windows :=
  {| w_pm := s; w_stage := upd_stage h st (w_stage m); w_waiting := w_waiting m;
     w_others := w_others m; w_slow := w_slow m |}.
Definition w_wait (l : list (Z * sync_op)) (m : pm_windows) : pm_windows :=
  {| w_pm := w_pm m; w_stage := w_stage m; w_waiting := l; w_others := w_others m;
     w_slow := w_slow m |}.
Definition w_awake (h : Z) (m : pm_windows) : pm_windows :=
  w_wait (filter (fun p => p.1 <> h) (w_waiting m)) m.
Definition w_client (m : pm_windows) (h : Z) : option ipa_pm_client := get_client (fst (w_pm m)) h.

(** A synchronous call may go on: nothing else is past its first access to
    the client, and the call need not wait, or waited and the completion is
    done. *)
Definition ready (m : pm_windows) (op : sync_op) (h : Z) (cl : ipa_pm_client) : Prop :=
  w_stage m h = Free /\ (must_wait cl = false \/ (h, op) ∈ w_waiting m /\ cl_complete cl = true).
Definition can_lock (st : stage) : bool := match st with Rest _ => false | _ => true end.
Definition next_stage (st st' : stage) : stage := match st with Free => st' | _ => st end.

Section Windows.
Context (max_pipes : Z) (mapping : Z -> Z) (client_max : Z).

(** Calls that never wait. *)
Inductive w_call (m : pm_windows) : pm_windows -> Prop :=
| w_register e p r c' :
    ipa_pm_register max_pipes e p (fst (w_pm m)) = Done (r, c') ->
    w_call m (w_set (c', snd (w_pm m)) m)
| w_associate h consumer r c' :
    ipa_pm_associate_ipa_cons_to_client mapping client_max h consumer (fst (w_pm m)) = Done (r, c') ->
    w_call m (w_set (c', snd (w_pm m)) m)
| w_activate h cl r cl' k' st :
    w_client m h = Some cl -> can_lock (w_stage m h) = true ->
    activate_part false cl (snd (w_pm m)) = (r, cl', k', st) ->
    w_call m (w_go h (next_stage (w_stage m h) st) (put_client h cl' (fst (w_pm m)), k') m)
| w_deferred h cl r cl' :
    w_client m h = Some cl -> can_lock (w_stage m h) = true -> deferred_part cl = (r, cl') ->
    w_call m (w_set (put_client h cl' (fst (w_pm m)), snd (w_pm m)) m)
| w_deactivate_deferred h cl cl' l :
    w_client m h = Some cl -> w_stage m h = Free -> IPA_PM_STATE_IN_PROGRESS (cl_state cl) = false ->
    deactivate_deferred_part cl = (cl', l) ->
    w_call m (w_go h (rest_stage l) (put_client h cl' (fst (w_pm m)), snd (w_pm m)) m)
| w_set_throughput h t r s' :
    ipa_pm_set_throughput h t (w_pm m) = Done (r, s') -> w_call m (w_set s' m)
| w_handle_suspend mask idx r c' :
    ipa_pm_handle_suspend max_pipes mask idx (fst (w_pm m)) = (r, c') ->
    w_call m (w_set (c', snd (w_pm m)) m).

(** ipa_pm_activate_sync, ipa_pm_deactivate_sync and ipa_pm_deregister. *)
Inductive w_sync (m : pm_windows) : pm_windows -> Prop :=
| w_block h op cl :
    w_client m h = Some cl -> can_lock (w_stage m h) = true -> must_wait cl = true ->
    w_sync m (w_wait ((h, op) :: w_waiting m)
               (w_set (put_client h (if decide (op = OpDeactivate) then cancel_deactivate_work cl else cl)
                                  (fst (w_pm m)), snd (w_pm m)) m))
| w_activate_sync h cl r cl' k' st :
    w_client m h = Some cl -> ready m OpActivate h cl ->
    activate_part true cl (snd (w_pm m)) = (r, cl', k', st) ->
    w_sync m (w_awake h (w_go h st (put_client h cl' (fst (w_pm m)), k') m))
| w_enable_clocks h cl :
    w_client m h = Some cl -> w_stage m h = Enabling false ->
    w_sync m (w_go h (Enabling true)
               (fst (w_pm m), ipa3_inc_client_enable_clks (snd (w_pm m))) m)
| w_enable_lock h cl :
    w_client m h = Some cl -> w_stage m h = Enabling true ->
    w_sync m (w_go h (Rest [SetBit])
      (put_client h (stay_awake (cl_set_state IPA_PM_ACTIVATED cl)) (fst (w_pm m)), snd (w_pm m)) m)
| w_deactivate_sync h cl cl' l :
    w_client m h = Some cl -> ready m OpDeactivate h cl -> deactivate_part cl = (cl', l) ->
    w_sync m (w_awake h (w_go h (rest_stage l) (put_client h cl' (fst (w_pm m)), snd (w_pm m)) m))
| w_deregister h cl r c' :
    w_client m h = Some cl -> ready m OpDeregister h cl ->
    deregister_post max_pipes h cl (fst (w_pm m)) = (r, c') ->
    w_sync m (w_awake h (w_set (c', snd (w_pm m)) m)).

(** The timer, the activation work, the recomputation of the clock plan with
    its work item, the callbacks, and the other users of the clocks. *)
Inductive w_work (m : pm_windows) : pm_windows -> Prop :=
| w_timer h cl cl' l :
    w_client m h = Some cl -> w_stage m h = Free -> cl_deactivate_work cl = true ->
    timer_part cl = (cl', l) ->
    w_work m (w_go h (rest_stage l) (put_client h cl' (fst (w_pm m)), snd (w_pm m)) m)
| w_work_start h cl :
    w_client m h = Some cl -> w_stage m h = Free -> cl_activate_work cl = true ->
    w_work m (w_go h (Working false false)
      (put_client h (cl_set_works false (cl_deactivate_work cl) (cl_complete cl) cl) (fst (w_pm m)),
       snd (w_pm m)) m)
| w_work_clocks h cl :
    w_client m h = Some cl -> w_stage m h = Working false false ->
    w_work m (w_go h (Working true false) (fst (w_pm m), clk_get cl (snd (w_pm m))) m)
| w_work_awake h cl :
    w_client m h = Some cl -> w_stage m h = Working true false ->
    w_work m (w_go h (Working true true)
      (put_client h (stay_awake_if_voting cl) (fst (w_pm m)), snd (w_pm m)) m)
| w_work_lock h cl cl' l :
    w_client m h = Some cl -> w_stage m h = Working true true -> activate_work_part cl = (cl', l) ->
    w_work m (w_go h (rest_stage l) (put_client h cl' (fst (w_pm m)), snd (w_pm m)) m)
| w_scaling r s' : do_clk_scaling (w_pm m) = Done (r, s') -> w_work m (w_set s' m)
| w_scaling_work b : w_work m (w_set (set_scaling_work b (fst (w_pm m)), snd (w_pm m)) m)
| w_callback h ev : w_work m (w_set (notify h ev (fst (w_pm m)), snd (w_pm m)) m)
| w_clocks o' w' s' :
    clk_step (Build_clk_sys (w_others m) (w_slow m) (w_pm m)) (Build_clk_sys o' w' s') -> 0 <= o' ->
    w_work m {| w_pm := s'; w_stage := w_stage m; w_waiting := w_waiting m;
                w_others := o'; w_slow := w' |}.

(** What is done without the lock.  The clocks are released at once, or under
    the mutex of the counter. *)
Inductive w_unlocked (m : pm_windows) : pm_windows -> Prop :=
| w_do h u l cl :
    w_client m h = Some cl -> w_stage m h = Rest (u :: l) -> u <> ClkPut -> u <> ClkPutLocked ->
    w_unlocked m (w_go h (rest_stage l)
      (unlocked_mask h u (put_client h (unlocked_client u cl) (fst (w_pm m))), snd (w_pm m)) m)
| w_put_none h l cl :
    w_client m h = Some cl -> w_stage m h = Rest (ClkPut :: l) -> cl_skip_clk_vote cl = true ->
    w_unlocked m (w_go h (rest_stage l) (fst (w_pm m), snd (w_pm m)) m)
| w_put_fast h l cl k' :
    w_client m h = Some cl -> w_stage m h = Rest (ClkPut :: l) -> cl_skip_clk_vote cl = false ->
    dec_fast (snd (w_pm m)) = Done (Some k') ->
    w_unlocked m (w_go h (rest_stage l) (fst (w_pm m), k') m)
| w_put_slow h l cl :
    w_client m h = Some cl -> w_stage m h = Rest (ClkPut :: l) -> cl_skip_clk_vote cl = false ->
    dec_fast (snd (w_pm m)) = Done None ->
    w_unlocked m (w_go h (Rest (ClkPutLocked :: l)) (fst (w_pm m), close_coal (snd (w_pm m))) m)
| w_put_locked gate h l cl s' :
    w_client m h = Some cl -> w_stage m h = Rest (ClkPutLocked :: l) -> dec_locked gate (w_pm m) = Done s' ->
    w_unlocked m (w_go h (rest_stage l) s' m).

Definition w_step (m m' : pm_windows) : Prop :=
  w_call m m' \/ w_sync m m' \/ w_work m m' \/ w_unlocked m m'.
End Windows.

(** ** Its invariant *)

(** The client without the wake source its activation work has taken. *)
Definition untaken (cl : ipa_pm_client) : ipa_pm_client :=
  cl_set_wlock (xorb (negb (cl_skip_clk_vote cl) && is_apps cl) (cl_wlock cl)) cl.

(** What the code that is under way makes of the client and of its bit. *)
Definition settled (st : stage) (cl : ipa_pm_client) : ipa_pm_client :=
  match st with
  | Working _ true => untaken cl
  | Rest l => foldl (fun cl u => unlocked_client u cl) cl l
  | _ => cl
  end.
Definition settled_bit (st : stage) (b : bool) : bool :=
  match st with
  | Rest l => foldl (fun b u => match u with SetBit => true | ClearBit => false | _ => b end) b l
  | _ => b
  end.
Definition in_call (st : stage) : bool :=
  match st with Enabling _ | Working _ _ => true | _ => false end.

Definition is_put (u : unlocked) : bool := match u with ClkPut => true | _ => false end.
Definition is_put_locked (u : unlocked) : bool := match u with ClkPutLocked => true | _ => false end.
Fixpoint pieces (f : unlocked -> bool) (l : list unlocked) : Z :=
  match l with [] => 0 | u :: l => Z.b2z (f u) + pieces f l end.

(** The references a client holds beyond its vote: taken by a call that is
    not finished, or to be released by one; and the contexts of it that wait
    for the mutex of the counter. *)
Definition stage_refs (st : stage) (cl : ipa_pm_client) : Z :=
  if cl_skip_clk_vote cl then 0
  else match st with
       | Enabling true | Working true _ => 1
       | Rest l => pieces is_put l
       | _ => 0
       end.
Definition slot_refs (st : stage) (o : option ipa_pm_client) : Z :=
  match o with
  | Some cl => Z.b2z (voting (Some (settled st cl))) + stage_refs st cl
  | None => 0
  end.
Definition slot_slow (st : stage) (o : option ipa_pm_client) : Z :=
  match st with Rest l => pieces is_put_locked l | _ => 0 end.

Fixpoint sum_slots (f : Z -> option ipa_pm_client -> Z) (i : Z) (l : list (option ipa_pm_client)) : Z :=
  match l with [] => 0 | o :: l => f i o + sum_slots f (i + 1) l end.
Definition w_refs (m : pm_windows) : Z :=
  sum_slots (fun h => slot_refs (w_stage m h)) 0 (pm_clients (fst (w_pm m))).
Definition w_slows (m : pm_windows) : Z :=
  sum_slots (fun h => slot_slow (w_stage m h)) 0 (pm_clients (fst (w_pm m))).

Definition slot_settled (h : Z) (st : stage) (bit : bool) (o : option ipa_pm_client) : Prop :=
  match o with
  | None => st = Free /\ bit = false
  | Some cl => client_ok h (in_call st) (settled st cl) /\
               settled_bit st bit = IPA_PM_STATE_ACTIVE (cl_state (settled st cl))
  end.

Record windows_ok (m : pm_windows) : Prop := {
  wo_len : length (pm_clients (fst (w_pm m))) = Z.to_nat IPA_PM_MAX_CLIENTS;
  wo_mask : length (active_client_bitmask (pm_clk_scaling (fst (w_pm m)))) = 2%nat;
  wo_slot0 : w_client m 0 = None;
  wo_slots : forall h, valid_hdl h ->
    slot_settled h (w_stage m h) (active_bit (fst (w_pm m)) h) (w_client m h);
  wo_others : 0 <= w_others m;
  wo_slow : 0 <= w_slow m;
  wo_clk : clk_ok (w_others m + w_refs m) (w_slow m + w_slows m) (snd (w_pm m)) }.

Section Sums.
Lemma sum_insert f f' l : forall i n o o',
  l !! n = Some o -> (forall j x, j <> i + Z.of_nat n -> f' j x = f j x) ->
  sum_slots f' i (<[n:=o']> l) =
  sum_slots f i l - f (i + Z.of_nat n) o + f' (i + Z.of_nat n) o'.
Proof.
  induction l as [|x l IH]; intros i n o o' Hn Hf; [now destruct n|].
  destruct n as [|n].
  - injection Hn as ->. cbn [sum_slots list_insert insert]. rewrite Z.add_0_r in *.
    enough (sum_slots f' (i + 1) l = sum_slots f (i + 1) l) by (cbn; lia).
    clear IH. assert (Hf' : forall j x, i < j -> f' j x = f j x) by (intros; apply Hf; lia).
    clear Hf. assert (Hi : i < i + 1) by lia. revert Hi. generalize (i + 1). induction l as [|y l IHl]; intros j Hj; cbn; [done|].
    rewrite Hf' by lia. rewrite IHl by lia. done.
  - change (<[S n:=o']> (x :: l)) with (x :: <[n:=o']> l). cbn [sum_slots].
    rewrite Hf by lia. rewrite (IH (i + 1) n o o' Hn).
    + replace (i + 1 + Z.of_nat n) with (i + Z.of_nat (S n)) by lia. lia.
    + intros j y Hj. apply Hf. lia.
Qed.

Lemma sum_update f f' h l o o' :
  zlookup l h = Some o -> (forall j x, j <> h -> f' j x = f j x) ->
  sum_slots f' 0 (zinsert h o' l) = sum_slots f 0 l - f h o + f' h o'.
Proof.
  intros Hl Hf. pose proof (zlookup_lt _ _ _ Hl) as Hr. unfold zlookup in Hl. unfold zinsert.
  rewrite (proj2 (Z.leb_le 0 h)) in * by lia.
  rewrite (sum_insert f f' l 0 (Z.to_nat h) o o' Hl); rewrite ?Z2Nat.id, ?Z.add_0_l by lia; done.
Qed.

Lemma sum_nonneg f l : (forall j x, 0 <= f j x) -> forall i, 0 <= sum_slots f i l.
Proof.
  intros Hf. induction l as [|x l IH]; intros i; cbn; [lia|]. specialize (IH (i + 1)).
  specialize (Hf i x). lia.
Qed.

(** A slot counts. *)
Lemma sum_slot f l h o :
  zlookup l h = Some o -> (forall j x, 0 <= f j x) -> f h o <= sum_slots f 0 l.
Proof.
  intros Hl Hf. set (f' := fun j x => if j =? h then 0 else f j x).
  assert (H : sum_slots f' 0 (zinsert h o l) = sum_slots f 0 l - f h o + f' h o).
  { apply sum_update; [done|]. intros j x Hj. unfold f'. case_test; congruence. }
  unfold f' in H at 2. rewrite Z.eqb_refl in H.
  enough (0 <= sum_slots f' 0 (zinsert h o l)) by lia.
  apply sum_nonneg. intros j x. unfold f'. case_test; [lia|apply Hf].
Qed.

Lemma pieces_nonneg u l : 0 <= pieces u l.
Proof. induction l as [|v l IH]; cbn; [lia|]. destruct (u v); cbn; lia. Qed.
Lemma slot_refs_nonneg st o : 0 <= slot_refs st o.
Proof.
  unfold slot_refs, stage_refs. destruct o as [cl|]; [|lia].
  destruct (voting _), (cl_skip_clk_vote cl), st as [|[]|[] ?|l]; cbn; try lia;
    pose proof (pieces_nonneg is_put l); lia.
Qed.
Lemma slot_slow_nonneg st o : 0 <= slot_slow st o.
Proof. destruct st; cbn; try lia. apply pieces_nonneg. Qed.
End Sums.

Section WindowsOk.
Implicit Types (c : ipa_pm_ctx) (k : ipa3_clks) (cl : ipa_pm_client) (m : pm_windows).

Lemma sum_ext f f' l : (forall j x, f' j x = f j x) -> forall i, sum_slots f' i l = sum_slots f i l.
Proof. intros H. induction l as [|x l IH]; intros i; cbn; [done|]. now rewrite H, IH. Qed.

Lemma windows_ext m m' :
  windows_ok m -> w_pm m' = w_pm m -> (forall h, w_stage m' h = w_stage m h) ->
  w_others m' = w_others m -> w_slow m' = w_slow m -> windows_ok m'.
Proof.
  intros [H1 H2 H3 H4 H5 H6 H7] E1 E2 E3 E4. unfold w_client, w_refs, w_slows in *.
  split; unfold w_client, w_refs, w_slows; rewrite ?E1, ?E3, ?E4; try done.
  - intros h Hh. rewrite E2. now apply H4.
  - rewrite !(sum_ext (fun h => slot_refs (w_stage m h)) (fun h => slot_refs (w_stage m' h))),
      (sum_ext (fun h => slot_slow (w_stage m h)) (fun h => slot_slow (w_stage m' h)));
      [exact H7|intros; cbn beta; now rewrite E2..].
Qed.

(** A change of one slot. *)
Lemma windows_change m h o o' st' c' k' :
  windows_ok m -> zlookup (pm_clients (fst (w_pm m))) h = Some o -> h <> 0 ->
  pm_clients c' = zinsert h o' (pm_clients (fst (w_pm m))) ->
  length (active_client_bitmask (pm_clk_scaling c')) = 2%nat ->
  (forall j, valid_hdl j -> j <> h -> active_bit c' j = active_bit (fst (w_pm m)) j) ->
  slot_settled h st' (active_bit c' h) o' ->
  (forall r w, clk_ok r w (snd (w_pm m)) ->
     slot_refs (w_stage m h) o <= r -> slot_slow (w_stage m h) o <= w ->
     clk_ok (r - slot_refs (w_stage m h) o + slot_refs st' o')
            (w - slot_slow (w_stage m h) o + slot_slow st' o') k') ->
  windows_ok (w_go h st' (c', k') m).
Proof.
  intros [L M S0 S Ho Hw Hk] Hl Hne Ec Lm Hb Hs Hclk.
  pose proof (zlookup_lt _ _ _ Hl) as Hr.
  assert (G : forall j, get_client c' j = if h =? j then o' else get_client (fst (w_pm m)) j).
  { intros j. unfold get_client. rewrite Ec, zlookup_insert_cases by done. now destruct (h =? j). }
  split; unfold w_client, w_refs, w_slows in *; cbn [w_go w_pm w_stage fst snd] in *; try done.
  - rewrite Ec. unfold zinsert. case_test; [now rewrite length_insert|done].
  - rewrite G. case_test; congruence.
  - intros j Hj. rewrite G. unfold upd_stage. case_test; [subst; exact Hs|].
    rewrite Hb by congruence. now apply S.
  - rewrite Ec.
    rewrite (sum_update (fun h => slot_refs (w_stage m h)) _ h _ o o' Hl)
      by (intros j x Hj; unfold upd_stage; case_test; congruence).
    rewrite (sum_update (fun h => slot_slow (w_stage m h)) _ h _ o o' Hl)
      by (intros j x Hj; unfold upd_stage; case_test; congruence).
    cbn beta. unfold upd_stage. rewrite Z.eqb_refl. specialize (Hclk _ _ Hk).
    pose proof (sum_slot (fun h => slot_refs (w_stage m h)) _ h o Hl ltac:(intros; apply slot_refs_nonneg)).
    pose proof (sum_slot (fun h => slot_slow (w_stage m h)) _ h o Hl ltac:(intros; apply slot_slow_nonneg)).
    cbn beta in *.
    cbn [w_go w_others w_slow].
    match goal with |- clk_ok ?r ?w _ => match type of Hclk with _ -> _ -> clk_ok ?r' ?w' _ =>
      replace r with r' by lia; replace w with w' by lia end end.
    apply Hclk; lia.
Qed.

(** A client changes, with or without its bit. *)
Lemma client_change m h cl cl' st' k' :
  windows_ok m -> w_client m h = Some cl ->
  slot_settled h st' (active_bit (fst (w_pm m)) h) (Some cl') ->
  (forall r w, clk_ok r w (snd (w_pm m)) ->
     slot_refs (w_stage m h) (Some cl) <= r -> slot_slow (w_stage m h) (Some cl) <= w ->
     clk_ok (r - slot_refs (w_stage m h) (Some cl) + slot_refs st' (Some cl'))
            (w - slot_slow (w_stage m h) (Some cl) + slot_slow st' (Some cl')) k') ->
  windows_ok (w_go h st' (put_client h cl' (fst (w_pm m)), k') m).
Proof.
  intros Hm Hc Hs Hk. eapply windows_change;
    [exact Hm|exact (get_client_lookup _ _ _ Hc)| |reflexivity| |reflexivity|exact Hs|exact Hk].
  - exact (valid_pos _ _ _ (wo_slot0 _ Hm) Hc).
  - exact (wo_mask _ Hm).
Qed.

Lemma client_slot m h cl :
  windows_ok m -> w_client m h = Some cl ->
  valid_hdl h /\ client_ok h (in_call (w_stage m h)) (settled (w_stage m h) cl) /\
  settled_bit (w_stage m h) (active_bit (fst (w_pm m)) h) =
    IPA_PM_STATE_ACTIVE (cl_state (settled (w_stage m h) cl)).
Proof.
  intros Hm Hc. pose proof (get_valid _ _ _ (wo_len _ Hm) Hc) as Hh.
  pose proof (wo_slots _ Hm h Hh) as Hs. rewrite Hc in Hs. now split.
Qed.

(** The clocks are not touched, and nothing is owed. *)
Lemma same_clks st st' cl cl' k :
  slot_refs st' (Some cl') = slot_refs st (Some cl) -> slot_slow st' (Some cl') = slot_slow st (Some cl) ->
  forall r w, clk_ok r w k -> slot_refs st (Some cl) <= r -> slot_slow st (Some cl) <= w ->
  clk_ok (r - slot_refs st (Some cl) + slot_refs st' (Some cl'))
         (w - slot_slow st (Some cl) + slot_slow st' (Some cl')) k.
Proof. intros -> -> r w Hk _ _. now rewrite !Z.sub_add. Qed.

(** The context changes elsewhere. *)
Lemma windows_core m c' k' :
  windows_ok m -> same_core (fst (w_pm m)) c' ->
  (forall r w, clk_ok r w (snd (w_pm m)) -> clk_ok r w k') -> windows_ok (w_set (c', k') m).
Proof.
  intros [L M S0 S Ho Hw Hk] [E1 E2] Hclk.
  assert (G : forall h, get_client c' h = get_client (fst (w_pm m)) h) by (intros; unfold get_client; now rewrite E1).
  split; unfold w_client, w_refs, w_slows in *; cbn [w_set w_pm w_stage w_others w_slow fst snd];
    rewrite ?E1, ?E2; try done.
  - now rewrite G.
  - intros h Hh. rewrite G. unfold active_bit. rewrite E2. now apply S.
  - now apply Hclk.
Qed.

(** A step of one client that keeps its stage. *)
Lemma client_same_stage m h cl cl' :
  windows_ok m -> w_client m h = Some cl ->
  slot_settled h (w_stage m h) (active_bit (fst (w_pm m)) h) (Some cl') ->
  slot_refs (w_stage m h) (Some cl') = slot_refs (w_stage m h) (Some cl) ->
  windows_ok (w_set (put_client h cl' (fst (w_pm m)), snd (w_pm m)) m).
Proof.
  intros Hm Hc Hs Hr.
  eapply windows_ext; [exact (client_change m h cl cl' _ _ Hm Hc Hs (same_clks _ _ _ _ _ Hr eq_refl))|done| |done..].
  intros j. cbn. unfold upd_stage. case_test; congruence.
Qed.

Lemma rest_stage_settled l cl b h :
  settled (rest_stage l) cl = settled (Rest l) cl /\ settled_bit (rest_stage l) b = settled_bit (Rest l) b /\
  in_call (rest_stage l) = false /\ slot_refs (rest_stage l) (Some cl) = slot_refs (Rest l) (Some cl) /\
  slot_slow (rest_stage l) (Some cl) = slot_slow (Rest l) (Some cl) /\
  (slot_settled h (rest_stage l) b (Some cl) <-> slot_settled h (Rest l) b (Some cl)).
Proof. destruct l; cbn; unfold stage_refs; destruct (cl_skip_clk_vote cl); tauto. Qed.

Lemma settled_skip st cl : cl_skip_clk_vote (settled st cl) = cl_skip_clk_vote cl.
Proof.
  destruct st as [| |[] []|l]; cbn; try done.
  revert cl. induction l as [|u l IH]; intros cl; cbn; [done|]. rewrite IH.
  destruct u; cbn; try done. now rewrite relax_if_voting_eq.
Qed.
End WindowsOk.

(** ** Its steps keep the invariant *)
Section Steps.
Context (max_pipes : Z) (mapping : Z -> Z) (client_max : Z).
Implicit Types (c : ipa_pm_ctx) (k : ipa3_clks) (cl : ipa_pm_client) (m : pm_windows).

(** The counts up to arithmetic. *)
Ltac clk_eq H :=
  match type of H with clk_ok ?r' ?w' _ =>
    match goal with |- clk_ok ?r ?w _ =>
      replace r with r' by (cbn; lia); replace w with w' by (cbn; lia); exact H end end.

(** The part of a call on an unlocked client: the slot it leaves, and the
    clocks. *)
Definition part_ok (h : Z) (b : bool) (st : stage) cl k (st' : stage) cl' k' : Prop :=
  slot_settled h st' b (Some cl') /\
  forall r w, clk_ok r w k -> slot_refs st (Some cl) <= r -> slot_slow st (Some cl) <= w ->
    clk_ok (r - slot_refs st (Some cl) + slot_refs st' (Some cl'))
           (w - slot_slow st (Some cl) + slot_slow st' (Some cl')) k'.

Lemma part_change m h cl cl' st' k' :
  windows_ok m -> w_client m h = Some cl ->
  part_ok h (active_bit (fst (w_pm m)) h) (w_stage m h) cl (snd (w_pm m)) st' cl' k' ->
  windows_ok (w_go h st' (put_client h cl' (fst (w_pm m)), k') m).
Proof. intros Hm Hc [Hs Hk]. now apply client_change with cl. Qed.

Lemma part_same h b st cl k st' cl' :
  slot_settled h st' b (Some cl') ->
  slot_refs st' (Some cl') = slot_refs st (Some cl) -> slot_slow st' (Some cl') = slot_slow st (Some cl) ->
  part_ok h b st cl k st' cl' k.
Proof. intros Hs Hr Hw. split; [exact Hs|exact (same_clks _ _ _ _ _ Hr Hw)]. Qed.

Lemma activate_part_ok sync h cl k r cl' k' st :
  client_ok h false cl -> (sync = true -> IPA_PM_STATE_IN_PROGRESS (cl_state cl) = false) ->
  activate_part sync cl k = (r, cl', k', st) ->
  part_ok h (IPA_PM_STATE_ACTIVE (cl_state cl)) Free cl k st cl' k'.
Proof.
  intros Hcl Hp. pose proof Hcl as Hcl0. unfold activate_part.
  destruct (cl_state cl) eqn:Est; client_old Hcl Est; cbn [IPA_PM_STATE_IN_PROGRESS andb].
  all: try (destruct sync; [now specialize (Hp eq_refl)|]; cbn [negb]; intros [= <- <- <- <-];
            apply part_same; [split; [client_new|done]|cbn; now rewrite Est|done]; fail).
  all: try (intros [= <- <- <- <-]; apply part_same;
            [split; [first [exact Hcl0|client_new]|cbn; now rewrite ?Est]|first [done|cbn; now rewrite Est]|done]; fail).
  destruct (negb (cl_skip_clk_vote cl) && sync) eqn:Esync.
  - apply andb_true_iff in Esync as [Esk ->]. apply negb_true_iff in Esk. intros [= <- <- <- <-].
    apply part_same; [split; [client_new|done]|unfold slot_refs, stage_refs; cbn; now rewrite Est, Esk|done].
  - destruct (if negb (cl_skip_clk_vote cl) then _ else _) as [result k1] eqn:Ek.
    case_test; intros [= <- <- <- <-].
    + rewrite stay_awake_eq. split; [split; [client_new|done]|]. intros r' w' Hk _ _.
      unfold slot_refs, stage_refs. cbn. rewrite Est. cbn. destruct (cl_skip_clk_vote cl); cbn in *.
      * injection Ek as <- <-. clk_eq Hk.
      * pose proof (inc_no_block_ok _ _ _ _ _ Hk Ek) as Hk'. rewrite E in Hk'.
        clk_eq Hk'.
    + destruct (cl_skip_clk_vote cl) eqn:Esk; cbn in Ek; [injection Ek as <- <-; done|].
      split; [split; [client_new|done]|]. intros r' w' Hk _ _.
      unfold slot_refs, stage_refs. cbn. rewrite Est, Esk. cbn.
      pose proof (inc_no_block_ok _ _ _ _ _ Hk Ek) as Hk'.
      rewrite (proj2 (Z.eqb_neq _ _) E) in Hk'. clk_eq Hk'.
Qed.

(** Parts that do not touch the clocks. *)
Ltac client_state Est :=
  split; cbn; rewrite ?relax_if_voting_eq; cbn; rewrite ?Est; cbn; intros; client_cases; intros;
  solve [congruence | discriminate | auto | intuition congruence].
Ltac part_cases Est :=
  intros [= <- <-]; apply part_same;
  [split; [client_state Est|cbn; rewrite ?relax_if_voting_eq; cbn; now rewrite ?Est]
  |unfold slot_refs, stage_refs; cbn; rewrite ?relax_if_voting_eq; cbn; rewrite ?Est; cbn;
   destruct (cl_skip_clk_vote _); done
  |done].

Lemma deactivate_part_ok h cl k cl' l :
  client_ok h false cl -> IPA_PM_STATE_IN_PROGRESS (cl_state cl) = false ->
  deactivate_part cl = (cl', l) ->
  part_ok h (IPA_PM_STATE_ACTIVE (cl_state cl)) Free cl k (rest_stage l) cl' k.
Proof.
  intros Hcl Hp. unfold deactivate_part. cbn [cl_state cancel_deactivate_work cl_set_works].
  destruct (cl_state cl) eqn:Est; try discriminate; client_old Hcl Est; cbn [decide];
    (case_decide; try congruence); part_cases Est.
Qed.

Lemma deferred_part_all_ok h cl k cl' l :
  client_ok h false cl -> IPA_PM_STATE_IN_PROGRESS (cl_state cl) = false ->
  deactivate_deferred_part cl = (cl', l) ->
  part_ok h (IPA_PM_STATE_ACTIVE (cl_state cl)) Free cl k (rest_stage l) cl' k.
Proof.
  intros Hcl Hp. unfold deactivate_deferred_part. cbn [cl_state cancel_deactivate_work cl_set_works].
  destruct (cl_state cl) eqn:Est; try discriminate; client_old Hcl Est; part_cases Est.
Qed.

Lemma timer_part_ok h cl k cl' l :
  client_ok h false cl -> cl_deactivate_work cl = true -> timer_part cl = (cl', l) ->
  part_ok h (IPA_PM_STATE_ACTIVE (cl_state cl)) Free cl k (rest_stage l) cl' k.
Proof.
  intros Hcl Hw. unfold timer_part. cbn [cl_state cancel_deactivate_work cl_set_works].
  destruct (cl_state cl) eqn:Est; client_old Hcl Est; try (exfalso; congruence); part_cases Est.
Qed.

(** While its activation takes the clocks, a client changes by asynchronous
    calls only between the two states in progress. *)
Lemma settled_state st s cl :
  can_lock st = true -> settled st (cl_set_state s cl) = cl_set_state s (settled st cl) /\
  cl_state (settled st cl) = cl_state cl.
Proof. now destruct st as [| |? []|]. Qed.

Lemma in_call_progress m h cl :
  windows_ok m -> w_client m h = Some cl -> in_call (w_stage m h) = true ->
  IPA_PM_STATE_IN_PROGRESS (cl_state cl) = true.
Proof.
  intros Hm Hc Hi. destruct (client_slot m h cl Hm Hc) as (_ & Hcl & _).
  rewrite Hi in Hcl. pose proof (ok_enabling _ _ _ Hcl eq_refl) as Hp.
  destruct (settled_state (w_stage m h) IPA_PM_ACTIVATED cl) as [_ E]; [now destruct (w_stage m h)|].
  congruence.
Qed.

Lemma in_call_change m h cl s :
  windows_ok m -> w_client m h = Some cl -> in_call (w_stage m h) = true ->
  IPA_PM_STATE_IN_PROGRESS s = true ->
  windows_ok (w_set (put_client h (cl_set_state s cl) (fst (w_pm m)), snd (w_pm m)) m).
Proof.
  intros Hm Hc Hi Hs. destruct (client_slot m h cl Hm Hc) as (Hh & Hcl & Hb).
  pose proof (in_call_progress m h cl Hm Hc Hi) as Hp.
  destruct (settled_state (w_stage m h) s cl) as [E1 E2]; [now destruct (w_stage m h)|].
  assert (Ha : forall s, IPA_PM_STATE_IN_PROGRESS s = true -> IPA_PM_STATE_ACTIVE s = false)
    by now intros [].
  assert (Ht : forall s, IPA_PM_STATE_IN_PROGRESS s = true -> timer_set s = false) by now intros [].
  apply (client_same_stage m h cl); [done|done| |].
  - cbn [slot_settled]. rewrite E1. cbn [cl_state cl_set_state]. rewrite (Ha _ Hs), Hb, E2, (Ha _ Hp).
    split; [|done]. rewrite Hi in *. destruct Hcl as [Hhdl Hst Htm Hwk Hen Hpr Hcp Haw Hap].
    rewrite E2 in *. rewrite Hp, (Ha _ Hp), (Ht _ Hp) in *.
    split; cbn; rewrite ?Hs, ?(Ha _ Hs), ?(Ht _ Hs); auto. intros ->; discriminate.
  - unfold slot_refs, stage_refs. rewrite E1. cbn. now rewrite E2, (Ha _ Hs), (Ha _ Hp).
Qed.

Lemma scaling_core c k r c' k' :
  do_clk_scaling (c, k) = Done (r, (c', k')) ->
  same_core c c' /\ forall r w, clk_ok r w k -> clk_ok r w k'.
Proof.
  unfold do_clk_scaling. case_test; [now intros [= _ <- <-]|].
  destruct (threshold_of _) as [th|]; [|discriminate]. cbn [deref mbind exec_bind].
  case_test; intros [= _ <- <-]; (split; [now split|]); [|done].
  intros r' w'. apply set_plan_ok.
Qed.

Lemma settled_throughput st t cl :
  settled st (cl_set_throughput t cl) = cl_set_throughput t (settled st cl).
Proof.
  destruct st as [| |? []|l]; try done; cbn.
  revert cl. induction l as [|u l IH]; intros cl; cbn; [done|]. rewrite <- IH. f_equal.
  destruct u; cbn; try done. now rewrite !relax_if_voting_eq.
Qed.

Lemma set_throughput_windows m h t r s' :
  windows_ok m -> ipa_pm_set_throughput h t (w_pm m) = Done (r, s') -> windows_ok (w_set s' m).
Proof.
  intros Hm. assert (Hid : windows_ok (w_set (w_pm m) m)) by (eapply windows_ext; [exact Hm|done..]).
  destruct (w_pm m) as [c k] eqn:Epm. unfold ipa_pm_set_throughput, with_client.
  case_test; [now intros [= _ <-]|]. destruct (get_client c h) as [cl|] eqn:Hc; [|now intros [= _ <-]].
  case_test; [now intros [= _ <-]|]. set (c1 := if bool_decide _ then _ else _).
  assert (Hm1 : windows_ok (w_set (c1, k) m)).
  { subst c1. case_bool_decide.
    - assert (Hc' : w_client m h = Some cl) by (unfold w_client; now rewrite Epm).
      destruct (client_slot m h cl Hm Hc') as (Hh & Hcl & Hb).
      pose proof (client_same_stage m h cl (cl_set_throughput t cl) Hm Hc') as H1.
      rewrite Epm in *. apply H1; cbn [slot_settled slot_refs]; rewrite settled_throughput; [|done].
      split; [now destruct Hcl|exact Hb].
    - apply windows_core; rewrite ?Epm; [done|now split|done]. }
  case_test; [|now intros [= _ <-]]. intros H. apply bind_Done in H as ([r' [c' k']] & H & [= _ <-]).
  apply scaling_core in H as [Hcore Hk].
  exact (windows_core (w_set (c1, k) m) c' k' Hm1 Hcore Hk).
Qed.

(** ** Registration *)
Lemma free_slot m h : windows_ok m -> valid_hdl h -> w_client m h = None ->
  w_stage m h = Free /\ active_bit (fst (w_pm m)) h = false /\
  zlookup (pm_clients (fst (w_pm m))) h = Some None.
Proof.
  intros Hm Hh Hc. pose proof (wo_slots _ Hm h Hh) as Hs. rewrite Hc in Hs.
  destruct Hs. split; [done|]. split; [done|].
  destruct (zlookup_is_Some (pm_clients (fst (w_pm m))) h) as [o Ho];
    [unfold zlength; rewrite (wo_len _ Hm); exact Hh|].
  unfold w_client, get_client in Hc. rewrite Ho in *. now subst.
Qed.

Lemma upd_stage_ext m h s :
  windows_ok (w_go h (w_stage m h) s m) -> windows_ok (w_set s m).
Proof.
  intros H. eapply windows_ext; [exact H|done| |done..]. intros j. cbn. unfold upd_stage.
  case_test; congruence.
Qed.

Lemma deregister_windows m h cl r c' :
  windows_ok m -> w_client m h = Some cl -> w_stage m h = Free ->
  IPA_PM_STATE_IN_PROGRESS (cl_state cl) = false ->
  deregister_post max_pipes h cl (fst (w_pm m)) = (r, c') ->
  windows_ok (w_set (c', snd (w_pm m)) m).
Proof.
  intros Hm Hc Hf Hp. destruct (client_slot m h cl Hm Hc) as (Hh & Hcl & Hb).
  rewrite Hf in Hcl, Hb. cbn in Hcl, Hb. unfold deregister_post.
  destruct (IPA_PM_STATE_ACTIVE (cl_state cl)) eqn:Ha.
  - intros [= _ <-]. apply windows_core; [done|done|done].
  - unfold remove_client_from_exception_list.
    match goal with |- context [on_exceptions ?f ?x] =>
      pose proof (on_exceptions_core f x) as Hcore; set (c1 := x) in *; destruct (on_exceptions f c1) as [r' c2] end.
    intros [= _ <-]. cbn [snd] in Hcore.
    apply (windows_core (w_set (c1, snd (w_pm m)) m)); [|exact Hcore|done].
    apply (upd_stage_ext m h). rewrite Hf.
    apply windows_change with (Some cl) None; [done|exact (get_client_lookup _ _ _ Hc)| |done|exact (wo_mask _ Hm)|done| |].
    + exact (valid_pos _ _ _ (wo_slot0 _ Hm) Hc).
    + split; [done|exact Hb].
    + rewrite Hf. intros r0 w0 Hk _ _. unfold slot_refs, stage_refs. cbn. rewrite Ha. cbn.
      destruct (cl_skip_clk_vote cl); clk_eq Hk.
Qed.

Lemma register_windows m e p r c' :
  windows_ok m -> ipa_pm_register max_pipes e p (fst (w_pm m)) = Done (r, c') ->
  windows_ok (w_set (c', snd (w_pm m)) m).
Proof.
  intros Hm. assert (Hid : windows_ok (w_set (fst (w_pm m), snd (w_pm m)) m))
    by (apply windows_core; done).
  unfold ipa_pm_register. destruct p as [p|]; [|now intros [= _ <-]].
  destruct (rp_name p) as [name|]; [|now intros [= _ <-]].
  destruct (find_slot_cases (fst (w_pm m)) name) as [->|[->|(Hh & Hne & Hc)]];
    [now intros [= _ <-]..|].
  set (h := find_next_open_array_element name _) in *. pose proof Hh as Hh'.
  unfold valid_hdl in Hh'. tests.
  replace ((h <? 0) || (h >? IPA_PM_MAX_CLIENTS)) with false
    by (symmetry; apply orb_false_iff; split; [apply Z.ltb_ge; lia|rewrite Z.gtb_ltb; apply Z.ltb_ge; lia]).
  destruct (free_slot m h Hm Hh Hc) as (Hf & Hb & Hl).
  set (c1 := put_client h (new_client p name h) (fst (w_pm m))).
  set (m1 := w_set (c1, snd (w_pm m)) m).
  assert (Hm1 : windows_ok m1).
  { apply (upd_stage_ext m h). rewrite Hf.
    apply windows_change with None (Some (new_client p name h));
      [done|exact Hl|done|done|exact (wo_mask _ Hm)|done| |].
    - split; [|exact Hb]. split; cbn; intros; congruence.
    - rewrite Hf. intros r0 w0 Hk _ _. unfold slot_refs, stage_refs. cbn.
      destruct (rp_skip_clk_vote p); clk_eq Hk. }
  assert (Hc1 : w_client m1 h = Some (new_client p name h)).
  { unfold w_client. cbn [fst m1 w_set w_pm]. unfold c1.
    rewrite get_put, Z.eqb_refl; [done|exact (wo_len _ Hm)|exact Hh]. }
  assert (Hundo : forall c2, windows_ok (w_set (c2, snd (w_pm m)) m) -> get_client c2 h = Some (new_client p name h) ->
            windows_ok (w_set (undo_register max_pipes h c2, snd (w_pm m)) m)).
  { intros c2 H2 G2. unfold undo_register, ipa_pm_deregister, with_client. tests. rewrite G2.
    assert (must_wait (new_client p name h) = false) as -> by done.
    destruct (deregister_post max_pipes h (new_client p name h) c2) as [r2 c3] eqn:E.
    exact (deregister_windows (w_set (c2, snd (w_pm m)) m) h _ r2 c3 H2 G2 Hf eq_refl E). }
  destruct (kzalloc_ok e); cbn [negb].
  - destruct (wakeup_source_ok e); cbn [negb].
    + unfold add_client_to_exception_list. unfold w_client in Hc1. cbn [fst m1 w_set w_pm] in Hc1.
      fold c1. rewrite Hc1. cbn [deref mbind exec_bind].
      match goal with |- context [on_exceptions ?f c1] =>
        pose proof (on_exceptions_core f c1) as Hcore; destruct (on_exceptions f c1) as [r2 c2] end.
      cbn [snd] in Hcore.
      assert (Hm2 : windows_ok (w_set (c2, snd (w_pm m)) m)) by (apply (windows_core m1); done).
      case_test; intros [= _ <-]; [|exact Hm2].
      apply Hundo; [exact Hm2|]. now rewrite <- Hcore.
    + intros [= _ <-]. now apply Hundo.
  - intros [= _ <-]. apply windows_core; [done| |done]. split; [|done]. cbn.
    now rewrite zinsert_id.
Qed.

(** ** All steps *)
Lemma free_client m h cl :
  windows_ok m -> w_client m h = Some cl -> w_stage m h = Free ->
  client_ok h false cl /\ active_bit (fst (w_pm m)) h = IPA_PM_STATE_ACTIVE (cl_state cl).
Proof.
  intros Hm Hc Hf. destruct (client_slot m h cl Hm Hc) as (_ & Hcl & Hb). rewrite Hf in *. now split.
Qed.

Lemma ready_idle m op h cl :
  windows_ok m -> w_client m h = Some cl -> ready m op h cl ->
  w_stage m h = Free /\ IPA_PM_STATE_IN_PROGRESS (cl_state cl) = false.
Proof.
  intros Hm Hc [Hf Hw]. destruct (free_client m h cl Hm Hc Hf) as [Hcl _]. split; [done|].
  destruct Hw as [Hw|[_ Hw]]; eauto using idle_of_no_wait, idle_of_complete.
Qed.

Lemma waiting_ok m ws : windows_ok m -> windows_ok (w_wait ws m).
Proof. intros Hm. now apply (windows_ext m). Qed.

Lemma free_part m h cl cl' st' k' :
  windows_ok m -> w_client m h = Some cl -> w_stage m h = Free ->
  part_ok h (IPA_PM_STATE_ACTIVE (cl_state cl)) Free cl (snd (w_pm m)) st' cl' k' ->
  windows_ok (w_go h st' (put_client h cl' (fst (w_pm m)), k') m).
Proof.
  intros Hm Hc Hf Hp. apply (part_change m h cl); [done|done|].
  destruct (free_client m h cl Hm Hc Hf) as [_ ->]. now rewrite Hf.
Qed.

Lemma deferred_part_ok h cl k r cl' :
  client_ok h false cl -> deferred_part cl = (r, cl') ->
  part_ok h (IPA_PM_STATE_ACTIVE (cl_state cl)) Free cl k Free cl' k.
Proof.
  intros Hcl. pose proof Hcl as Hcl0. unfold deferred_part.
  destruct (cl_state cl) eqn:Est; client_old Hcl Est; intros [= <- <-]; apply part_same;
    try done; try (split; [first [exact Hcl0|client_state Est]|cbn; now rewrite ?Est]);
    cbn; now rewrite ?Est.
Qed.

(** Steps that leave the client alone. *)
Lemma stage_change m h cl st' k' :
  windows_ok m -> w_client m h = Some cl ->
  part_ok h (active_bit (fst (w_pm m)) h) (w_stage m h) cl (snd (w_pm m)) st' cl k' ->
  windows_ok (w_go h st' (fst (w_pm m), k') m).
Proof.
  intros Hm Hc Hp. rewrite <- (put_id (fst (w_pm m)) h cl Hc). now apply part_change with cl.
Qed.

Lemma in_call_voting m h cl :
  windows_ok m -> w_client m h = Some cl -> in_call (w_stage m h) = true -> cl_skip_clk_vote cl = false.
Proof.
  intros Hm Hc Hi. destruct (client_slot m h cl Hm Hc) as (_ & Hcl & _). rewrite Hi in Hcl.
  pose proof (ok_enabling _ _ _ Hcl eq_refl) as Hp. pose proof (ok_progress _ _ _ Hcl Hp) as Hs.
  now rewrite settled_skip in Hs.
Qed.

Lemma w_call_ok m m' : windows_ok m -> w_call max_pipes mapping client_max m m' -> windows_ok m'.
Proof.
  intros Hm Hstep.
  destruct Hstep as [e p r c' H|h cons r c' H|h cl r cl' k' st Hc Hl H|h cl r cl' Hc Hl H
    |h cl cl' l Hc Hf Hp H|h t r s' H|mask idx r c' H].
  - eapply register_windows; eauto.
  - apply windows_core; [done| |done]. unfold ipa_pm_associate_ipa_cons_to_client in H.
    case_test_in H; [now injection H as _ <-|].
    destruct (get_client _ h); [|now injection H as _ <-].
    case_test_in H; [now injection H as _ <-|].
    destruct (zlookup _ _) as [[|]|]; cbn in H; [| |discriminate]; injection H as _ <-; now split.
  - destruct (w_stage m h) as [| | |l] eqn:Es; [| | |discriminate]; cbn [next_stage].
    + destruct (free_client m h cl Hm Hc Es) as [Hcl _].
      apply (free_part m h cl); [done..|]. eapply activate_part_ok; eauto. discriminate.
    + assert (Hi : in_call (w_stage m h) = true) by now rewrite Es.
      pose proof (in_call_progress m h cl Hm Hc Hi) as Hp.
      unfold activate_part in H. rewrite Hp in H. injection H as <- <- <- <-. rewrite <- Es.
      eapply windows_ext; [exact (in_call_change m h cl IPA_PM_ACTIVATE_IN_PROGRESS Hm Hc Hi eq_refl)|done| |done..].
      intros j. cbn. unfold upd_stage. case_test; congruence.
    + assert (Hi : in_call (w_stage m h) = true) by now rewrite Es.
      pose proof (in_call_progress m h cl Hm Hc Hi) as Hp.
      unfold activate_part in H. rewrite Hp in H. injection H as <- <- <- <-. rewrite <- Es.
      eapply windows_ext; [exact (in_call_change m h cl IPA_PM_ACTIVATE_IN_PROGRESS Hm Hc Hi eq_refl)|done| |done..].
      intros j. cbn. unfold upd_stage. case_test; congruence.
  - destruct (in_call (w_stage m h)) eqn:Hi.
    + pose proof (in_call_progress m h cl Hm Hc Hi) as Hp. unfold deferred_part in H.
      destruct (cl_state cl) eqn:Est; try discriminate; injection H as <- <-.
      * rewrite (put_id _ h cl Hc). apply windows_core; done.
      * now apply (in_call_change m h cl).
    + assert (Hf : w_stage m h = Free) by now destruct (w_stage m h).
      apply (upd_stage_ext m h). rewrite Hf. destruct (free_client m h cl Hm Hc Hf) as [Hcl _].
      apply (free_part m h cl); [done..|]. eapply deferred_part_ok; eauto.
  - destruct (free_client m h cl Hm Hc Hf) as [Hcl _].
    apply (free_part m h cl); [done..|]. eapply deferred_part_all_ok; eauto.
  - eapply set_throughput_windows; eauto.
  - apply windows_core; [done| |done]. pose proof (handle_suspend_core max_pipes mask idx (fst (w_pm m))) as Hcore.
    now rewrite H in Hcore.
Qed.

Lemma w_sync_ok m m' : windows_ok m -> w_sync max_pipes m m' -> windows_ok m'.
Proof.
  intros Hm Hstep.
  destruct Hstep as [h op cl Hc Hl Hw|h cl r cl' k' st Hc Hr H|h cl Hc Es|h cl Hc Es|h cl cl' l Hc Hr H|h cl r c' Hc Hr H].
  - apply waiting_ok. destruct (client_slot m h cl Hm Hc) as (_ & Hcl & Hb).
    case_decide; [|rewrite (put_id _ h cl Hc); now apply windows_core].
    apply andb_true_iff in Hw as [Hp _].
    assert (Est : cl_state (settled (w_stage m h) cl) = cl_state cl)
      by (now apply (settled_state _ IPA_PM_ACTIVATED)).
    assert (Hd : cl_deactivate_work (settled (w_stage m h) cl) = cl_deactivate_work cl).
    { now destruct (w_stage m h) as [| |? []|]. }
    assert (Hcan : cancel_deactivate_work cl = cl).
    { pose proof (ok_timer _ _ _ Hcl) as Ht. rewrite Hd, Est in Ht.
      unfold cancel_deactivate_work, cl_set_works.
      replace false with (cl_deactivate_work cl) by (rewrite Ht; now destruct (cl_state cl)).
      now destruct cl. }
    rewrite Hcan, (put_id _ h cl Hc). now apply windows_core.
  - apply waiting_ok. destruct (ready_idle m _ h cl Hm Hc Hr) as [Hf Hi].
    destruct (free_client m h cl Hm Hc Hf) as [Hcl _].
    apply (free_part m h cl); [done..|]. eapply activate_part_ok; eauto.
  - destruct (client_slot m h cl Hm Hc) as (_ & Hcl & Hb). rewrite Es in Hcl, Hb.
    pose proof (in_call_voting m h cl Hm Hc ltac:(now rewrite Es)) as Hsk.
    apply (stage_change m h cl); [done|done|]. split; [now split|]. rewrite Es.
    intros r w Hk _ _. apply inc_ok in Hk. unfold slot_refs, stage_refs. cbn. rewrite Hsk. clk_eq Hk.
  - destruct (client_slot m h cl Hm Hc) as (_ & Hcl & Hb). rewrite Es in Hcl, Hb. cbn in Hcl, Hb.
    pose proof (in_call_voting m h cl Hm Hc ltac:(now rewrite Es)) as Hsk.
    pose proof (in_call_progress m h cl Hm Hc ltac:(now rewrite Es)) as Hp.
    apply (part_change m h cl); [done|done|]. rewrite Es, stay_awake_eq. apply part_same.
    + destruct (cl_state cl) eqn:Est; try discriminate; client_old Hcl Est; (split; [client_new|done]).
    + unfold slot_refs, stage_refs. cbn. rewrite Hsk. now destruct (cl_state cl).
    + done.
  - apply waiting_ok. destruct (ready_idle m _ h cl Hm Hc Hr) as [Hf Hi].
    destruct (free_client m h cl Hm Hc Hf) as [Hcl _].
    apply (free_part m h cl); [done..|]. eapply deactivate_part_ok; eauto.
  - apply waiting_ok. destruct (ready_idle m _ h cl Hm Hc Hr) as [Hf Hi].
    eapply deregister_windows; eauto.
Qed.

Lemma w_work_ok m m' : windows_ok m -> w_work m m' -> windows_ok m'.
Proof.
  intros Hm Hstep.
  destruct Hstep as [h cl cl' l Hc Hf Hw H|h cl Hc Hf Hw|h cl Hc Es|h cl Hc Es|h cl cl' l Hc Es H
    |r s' H|b|h ev|o' w' s' H Ho].
  - destruct (free_client m h cl Hm Hc Hf) as [Hcl _].
    apply (free_part m h cl); [done..|]. eapply timer_part_ok; eauto.
  - destruct (free_client m h cl Hm Hc Hf) as [Hcl _].
    apply (free_part m h cl); [done..|]. apply part_same.
    + destruct (cl_state cl) eqn:Est; client_old Hcl Est; try (exfalso; congruence);
        (split; [client_state Est|cbn; now rewrite Est]).
    + unfold slot_refs, stage_refs. cbn. now destruct (cl_skip_clk_vote cl).
    + done.
  - destruct (client_slot m h cl Hm Hc) as (_ & Hcl & Hb). rewrite Es in Hcl, Hb.
    apply (stage_change m h cl); [done|done|]. split; [now split|]. rewrite Es.
    intros r w Hk _ _. apply (clk_get_ok cl) in Hk. unfold slot_refs, stage_refs. cbn.
    destruct (cl_skip_clk_vote cl); cbn in Hk |- *; clk_eq Hk.
  - destruct (client_slot m h cl Hm Hc) as (_ & Hcl & Hb). rewrite Es in Hcl, Hb. cbn in Hcl, Hb.
    pose proof (in_call_progress m h cl Hm Hc ltac:(now rewrite Es)) as Hp.
    apply (part_change m h cl); [done|done|]. rewrite Es, stay_awake_if_voting_eq. apply part_same.
    + unfold untaken. cbn. unfold untaken. cbn.
      destruct (cl_state cl) eqn:Est; try discriminate; client_old Hcl Est;
        (split; [client_state Est|exact Hb]).
    + unfold slot_refs, stage_refs. cbn. now destruct (cl_skip_clk_vote cl).
    + done.
  - destruct (client_slot m h cl Hm Hc) as (_ & Hcl & Hb). rewrite Es in Hcl, Hb. cbn in Hcl, Hb.
    pose proof (in_call_progress m h cl Hm Hc ltac:(now rewrite Es)) as Hp.
    pose proof (in_call_voting m h cl Hm Hc ltac:(now rewrite Es)) as Hsk.
    unfold activate_work_part in H. unfold untaken in Hcl. rewrite Hsk in Hcl.
    apply (part_change m h cl); [done|done|]. rewrite Es.
    destruct Hcl as [Hhdl Hst Htm Hwk Hen Hpr Hcp Haw Hap]. cbn in *.
    assert (Hwa : cl_group cl = IPA_PM_GROUP_APPS -> cl_wlock cl = true).
    { intros Hg. specialize (Hap Hg Hsk). unfold is_apps in Hap.
      rewrite bool_decide_eq_true_2 in Hap by done. destruct (cl_state cl), (cl_wlock cl); done. }
    assert (Hwn : cl_group cl <> IPA_PM_GROUP_APPS -> cl_wlock cl = false).
    { intros Hg. specialize (Haw Hg). unfold is_apps in Haw.
      rewrite bool_decide_eq_false_2 in Haw by done. now destruct (cl_wlock cl). }
    clear Haw Hap.
    destruct (cl_state cl) eqn:Est; try discriminate; injection H as <- <-; (apply part_same;
      [split; [client_state Est|cbn; rewrite ?relax_if_voting_eq; first [done|exact Hb]]
      |unfold slot_refs, stage_refs, untaken; cbn; rewrite ?relax_if_voting_eq; cbn; now rewrite Est, Hsk
      |done]).
  - destruct (w_pm m) as [c k] eqn:Epm, s' as [c' k']. apply scaling_core in H as [Hcore Hk].
    apply windows_core; rewrite ?Epm; done.
  - apply windows_core; [done|now split|done].
  - apply windows_core; [done|now split|done].
  - pose proof (clk_step_listener _ _ H) as Hl. cbn [fst shared] in Hl.
    assert (Hcore : same_core (fst (w_pm m)) (fst s'))
      by (destruct Hl as [->| ->]; [done|exact (set_clock_index_core 0 _)]).
    assert (Hr : 0 <= w_refs m) by (apply sum_nonneg; intros; apply slot_refs_nonneg).
    assert (Hw : 0 <= w_slows m) by (apply sum_nonneg; intros; apply slot_slow_nonneg).
    pose proof (clk_step_slow _ _ _ _ _ _ (wo_slow _ Hm) H) as Hw'.
    apply (clk_step_frame _ _ _ _ _ _ _ Hr), (clk_step_frame_slow _ _ _ _ _ _ _ Hw), clk_step_ok in H;
      [|exact (wo_clk _ Hm)].
    pose proof (windows_core m (fst s') (snd (w_pm m)) Hm Hcore ltac:(done)) as [L M S0 S _ _ _].
    split; try done. unfold w_refs, w_slows. cbn [w_pm w_stage]. rewrite (proj1 Hcore). exact H.
Qed.

Lemma w_unlocked_ok m m' : windows_ok m -> w_unlocked m m' -> windows_ok m'.
Proof.
  intros Hm Hstep.
  destruct Hstep as [h u l cl Hc Es Hu1 Hu2|h l cl Hc Es Hsk|h l cl k' Hc Es Hsk H|h l cl Hc Es Hsk H|gate h l cl s' Hc Es H].
  - destruct (client_slot m h cl Hm Hc) as (Hh & Hcl & Hb). rewrite Es in Hcl, Hb.
    destruct (rest_stage_settled l (unlocked_client u cl)
      (active_bit (unlocked_mask h u (put_client h (unlocked_client u cl) (fst (w_pm m)))) h) h)
      as (_ & _ & _ & Er & Ew & Hs).
    pose proof (wo_mask _ Hm) as Lm.
    assert (Hsk : cl_skip_clk_vote (unlocked_client u cl) = cl_skip_clk_vote cl).
    { exact (settled_skip (Rest [u]) cl). }
    apply windows_change with (Some cl) (Some (unlocked_client u cl));
      [done|exact (get_client_lookup _ _ _ Hc)|exact (valid_pos _ _ _ (wo_slot0 _ Hm) Hc)|now destruct u| | | |].
    + destruct u; try exact Lm; cbn [unlocked_mask]; [rewrite mask_len_set|rewrite mask_len_clear]; exact Lm.
    + intros j Hj Hne. destruct u; try done; cbn [unlocked_mask];
        [rewrite active_bit_set by done|rewrite active_bit_clear by done];
        (case_test; [congruence|done]).
    + apply Hs. split; [exact Hcl|]. cbn [settled settled_bit foldl] in *. rewrite <- Hb. f_equal.
      destruct u; try done; cbn [unlocked_mask];
        [rewrite active_bit_set by done|rewrite active_bit_clear by done]; now rewrite Z.eqb_refl.
    + rewrite Es, Er, Ew. apply same_clks; [|now destruct u].
      unfold slot_refs, stage_refs. rewrite Hsk. cbn [settled foldl pieces]. now destruct u.
  - destruct (client_slot m h cl Hm Hc) as (Hh & Hcl & Hb). rewrite Es in Hcl, Hb.
    destruct (rest_stage_settled l cl (active_bit (fst (w_pm m)) h) h) as (_ & _ & _ & Er & Ew & Hs).
    apply (stage_change m h cl); [done|done|]. apply part_same; [now apply Hs| |].
    + rewrite Er, Es. unfold slot_refs, stage_refs. now rewrite Hsk.
    + now rewrite Ew, Es.
  - destruct (client_slot m h cl Hm Hc) as (Hh & Hcl & Hb). rewrite Es in Hcl, Hb.
    destruct (rest_stage_settled l cl (active_bit (fst (w_pm m)) h) h) as (_ & _ & _ & Er & Ew & Hs).
    apply (stage_change m h cl); [done|done|]. split; [now apply Hs|].
    rewrite Er, Ew, Es. intros r w Hk Hr _.
    pose proof (slot_refs_nonneg (Rest l) (Some cl)) as Hn.
    assert (E : slot_refs (Rest (ClkPut :: l)) (Some cl) = slot_refs (Rest l) (Some cl) + 1).
    { unfold slot_refs, stage_refs. rewrite Hsk. cbn. lia. }
    destruct (dec_fast_ok r w _ Hk ltac:(lia)) as [(k1 & E1 & Hk')|[E1 _]]; rewrite E1 in H; [|discriminate].
    injection H as <-. rewrite E. cbn [slot_slow pieces is_put_locked Z.b2z]. clk_eq Hk'.
  - destruct (client_slot m h cl Hm Hc) as (Hh & Hcl & Hb). rewrite Es in Hcl, Hb.
    apply (stage_change m h cl); [done|done|]. split; [now split|].
    rewrite Es. intros r w Hk Hr _.
    pose proof (slot_refs_nonneg (Rest l) (Some cl)) as Hn.
    assert (E : slot_refs (Rest (ClkPut :: l)) (Some cl) = slot_refs (Rest l) (Some cl) + 1).
    { unfold slot_refs, stage_refs. rewrite Hsk. cbn. lia. }
    assert (E' : slot_refs (Rest (ClkPutLocked :: l)) (Some cl) = slot_refs (Rest l) (Some cl)) by done.
    destruct (dec_fast_ok r w _ Hk ltac:(lia)) as [(k1 & E1 & Hk')|[E1 Hk']]; [congruence|].
    rewrite E, E'. cbn [slot_slow pieces is_put_locked Z.b2z]. clk_eq Hk'.
  - destruct (client_slot m h cl Hm Hc) as (Hh & Hcl & Hb). rewrite Es in Hcl, Hb.
    destruct s' as [c' k'].
    assert (Hcore : same_core (fst (w_pm m)) c').
    { destruct (w_pm m) as [c k]. cbn [fst]. unfold dec_locked, ipa3_disable_clks in H.
      repeat case_test_in H; try discriminate; injection H as <- _; try done;
        exact (set_clock_index_core 0 c). }
    destruct (rest_stage_settled l cl (active_bit c' h) h) as (_ & _ & _ & Er & Ew & Hs).
    destruct Hcore as [E1 E2].
    apply windows_change with (Some cl) (Some cl);
      [done|exact (get_client_lookup _ _ _ Hc)|exact (valid_pos _ _ _ (wo_slot0 _ Hm) Hc)| | | | |].
    + rewrite E1. symmetry. apply zinsert_id. exact (get_client_lookup _ _ _ Hc).
    + rewrite E2. exact (wo_mask _ Hm).
    + intros j _ _. unfold active_bit. now rewrite E2.
    + apply Hs. unfold active_bit. rewrite E2. now split.
    + rewrite Er, Ew, Es. intros r w Hk _ Hw.
      pose proof (slot_slow_nonneg (Rest l) (Some cl)) as Hn. cbn [slot_slow pieces is_put_locked Z.b2z] in Hw, Hn |- *.
      destruct (w_pm m) as [c k]. cbn [snd] in Hk.
      pose proof (dec_locked_ok r w c k gate (c', k') Hk ltac:(lia) H) as Hk'. cbn [snd] in Hk'.
      replace (slot_refs (Rest (ClkPutLocked :: l)) (Some cl)) with (slot_refs (Rest l) (Some cl)) by done.
      clk_eq Hk'.
Qed.

Lemma w_step_ok m m' :
  windows_ok m -> w_step max_pipes mapping client_max m m' -> windows_ok m'.
Proof. intros Hm [H|[H|[H|H]]]; eauto using w_call_ok, w_sync_ok, w_work_ok, w_unlocked_ok. Qed.
End Steps.

(** ** Reachable states *)
Definition w_start (c : ipa_pm_ctx) (k : ipa3_clks) (o w : Z) : pm_windows :=
  {| w_pm := (c, k); w_stage := fun _ => Free; w_waiting := []; w_others := o; w_slow := w |}.

(** The power manager just initialised with parameters [p], and what it gets
    to when [o] references to the clocks are held by others. *)
Definition w_reaches (max_pipes : Z) (mapping : Z -> Z) (client_max : Z)
    (p : ipa_pm_init_params) (m : pm_windows) : Prop :=
  exists e c k o w, ipa_pm_init e (Some p) None = (0, Some c) /\ clk_ok o w k /\
    rtc (w_step max_pipes mapping client_max) (w_start c k o w) m.

Lemma sum_zero f l : forall i,
  (forall n o, l !! n = Some o -> f (i + Z.of_nat n) o = 0) -> sum_slots f i l = 0.
Proof.
  induction l as [|x l IH]; intros i H; cbn [sum_slots]; [done|].
  pose proof (H O x eq_refl) as H0. rewrite Z.add_0_r in H0. rewrite H0, IH; [done|].
  intros n o Hn. specialize (H (S n) o Hn). now replace (i + 1 + Z.of_nat n) with (i + Z.of_nat (S n)) by lia.
Qed.

Lemma w_start_ok p k o w : clk_ok o w k -> windows_ok (w_start (init_ctx p) k o w).
Proof.
  intros Hk.
  assert (Hl : forall n x, pm_clients (init_ctx p) !! n = Some x -> x = None).
  { intros n x Hx. cbn [pm_clients init_ctx] in Hx. now apply lookup_replicate in Hx as [-> _]. }
  assert (Hn : forall h, get_client (init_ctx p) h = None).
  { intros h. unfold get_client, zlookup. case_test; [|done].
    destruct (pm_clients (init_ctx p) !! _) eqn:E'; [|done]. now apply Hl in E' as ->. }
  split; [reflexivity|reflexivity|apply Hn| |exact (clk_refs _ _ _ Hk)|exact (clk_slow _ _ _ Hk)|].
  - intros h Hh. unfold w_client. cbn [fst w_pm w_start]. rewrite Hn. split; [done|].
    unfold active_bit, bit_of. cbn. unfold mask_word, zlookup. case_test; [|apply Z.testbit_0_l].
    destruct (Z.to_nat _) as [|[|]]; cbn; apply Z.testbit_0_l.
  - unfold w_refs, w_slows. cbn [fst snd w_pm w_start w_stage w_others w_slow].
    rewrite !sum_zero by (intros n x Hx; now rewrite (Hl n x Hx)). now rewrite !Z.add_0_r.
Qed.

Lemma w_reaches_ok max_pipes mapping client_max p m :
  w_reaches max_pipes mapping client_max p m -> windows_ok m.
Proof.
  intros (e & c & k & o & w & He & Hk & Hr).
  assert (c = init_ctx p) as ->.
  { unfold ipa_pm_init in He. repeat case_test_in He; now injection He. }
  eapply (rtc_preserve windows_ok); eauto using w_start_ok, w_step_ok.
Qed.

(** ** Who holds the clocks *)

(** The client holds a reference to the clocks: it votes and is active, or its
    activation has taken one, until what deactivates it has released it. *)
Definition holds_clocks (st : stage) (cl : ipa_pm_client) : bool :=
  match st with
  | Free => negb (cl_skip_clk_vote cl) && IPA_PM_STATE_ACTIVE (cl_state cl)
  | Enabling taken | Working taken _ => taken
  | Rest l =>
      existsb is_put_locked l ||
      negb (cl_skip_clk_vote cl) &&
      (existsb is_put l ||
       IPA_PM_STATE_ACTIVE (cl_state cl) && negb (existsb (fun u => bool_decide (u = Deactivated)) l))
  end.

Lemma settled_active l cl :
  IPA_PM_STATE_ACTIVE (cl_state (settled (Rest l) cl)) =
  IPA_PM_STATE_ACTIVE (cl_state cl) && negb (existsb (fun u => bool_decide (u = Deactivated)) l).
Proof.
  revert cl. cbn [settled]. induction l as [|u l IH]; intros cl; cbn; [now rewrite andb_true_r|].
  rewrite IH. destruct u; cbn; try done; [now rewrite relax_if_voting_eq|now rewrite andb_false_r].
Qed.

Lemma pieces_pos f l : 0 < pieces f l <-> existsb f l = true.
Proof.
  induction l as [|u l IH]; cbn; [done|]. pose proof (pieces_nonneg f l). destruct (f u); cbn; [lia|].
  rewrite Z.add_0_l. exact IH.
Qed.

Lemma holds_spec m h cl :
  windows_ok m -> w_client m h = Some cl ->
  holds_clocks (w_stage m h) cl = true <->
  0 < slot_refs (w_stage m h) (Some cl) + slot_slow (w_stage m h) (Some cl).
Proof.
  intros Hm Hc. unfold slot_refs, stage_refs.
  destruct (w_stage m h) as [|taken|taken awake|l] eqn:Es.
  - cbn. destruct (cl_skip_clk_vote cl), (IPA_PM_STATE_ACTIVE _); cbn; split; (done || lia).
  - pose proof (in_call_voting m h cl Hm Hc ltac:(now rewrite Es)) as Hsk.
    pose proof (in_call_progress m h cl Hm Hc ltac:(now rewrite Es)) as Hp.
    cbn. rewrite Hsk. destruct (cl_state cl), taken; cbn; split; (done || lia).
  - pose proof (in_call_voting m h cl Hm Hc ltac:(now rewrite Es)) as Hsk.
    pose proof (in_call_progress m h cl Hm Hc ltac:(now rewrite Es)) as Hp.
    assert (Hv : voting (Some (settled (Working taken awake) cl)) = false)
      by (destruct awake; cbn; now destruct (cl_state cl)).
    rewrite Hv, Hsk. cbn. destruct taken; cbn; split; (done || lia).
  - cbn [voting]. rewrite settled_active, settled_skip. cbn [holds_clocks slot_slow].
    pose proof (pieces_pos is_put l) as Hp. pose proof (pieces_pos is_put_locked l) as Hq.
    pose proof (pieces_nonneg is_put l). pose proof (pieces_nonneg is_put_locked l).
    destruct (existsb is_put_locked l); cbn [orb].
    + split; [intros _|done]. assert (0 < pieces is_put_locked l) by now apply Hq.
      destruct (cl_skip_clk_vote cl), (_ && _); cbn; lia.
    + assert (pieces is_put_locked l = 0) as ->
        by (destruct (decide (0 < pieces is_put_locked l)) as [Hd|]; [now apply Hq in Hd|lia]).
      destruct (cl_skip_clk_vote cl); cbn [negb andb Z.b2z]; rewrite ?andb_false_r, ?andb_true_r; [cbn; split; (done || lia)|].
      destruct (existsb is_put l); cbn [orb].
      * assert (0 < pieces is_put l) by now apply Hp. split; [intros _|done].
        destruct (_ && _); cbn; lia.
      * assert (pieces is_put l = 0) as ->
          by (destruct (decide (0 < pieces is_put l)) as [Hd|]; [now apply Hp in Hd|lia]).
        destruct (_ && _); cbn; split; (done || lia).
Qed.

Lemma slot_counts m h cl :
  windows_ok m -> w_client m h = Some cl ->
  slot_refs (w_stage m h) (Some cl) <= w_refs m /\ slot_slow (w_stage m h) (Some cl) <= w_slows m.
Proof.
  intros Hm Hc%get_client_lookup. split.
  - apply (sum_slot (fun h => slot_refs (w_stage m h))); [exact Hc|intros; apply slot_refs_nonneg].
  - apply (sum_slot (fun h => slot_slow (w_stage m h))); [exact Hc|intros; apply slot_slow_nonneg].
Qed.

Lemma no_refs m :
  windows_ok m -> (forall h cl, w_client m h = Some cl -> holds_clocks (w_stage m h) cl = false) ->
  w_refs m = 0 /\ w_slows m = 0.
Proof.
  intros Hm Hn.
  assert (H : forall n o, pm_clients (fst (w_pm m)) !! n = Some o ->
            slot_refs (w_stage m (Z.of_nat n)) o + slot_slow (w_stage m (Z.of_nat n)) o = 0).
  { intros n o Ho. set (h := Z.of_nat n) in *.
    assert (Hl : zlookup (pm_clients (fst (w_pm m))) h = Some o)
      by (unfold zlookup, h; rewrite (proj2 (Z.leb_le 0 _)), Nat2Z.id by lia; exact Ho).
    pose proof (slot_refs_nonneg (w_stage m h) o). pose proof (slot_slow_nonneg (w_stage m h) o).
    destruct o as [cl|].
    - assert (Hc : w_client m h = Some cl) by (unfold w_client, get_client; now rewrite Hl).
      pose proof (Hn h cl Hc) as Hh. pose proof (holds_spec m h cl Hm Hc) as Hi.
      destruct (decide (0 < slot_refs (w_stage m h) (Some cl) + slot_slow (w_stage m h) (Some cl))) as [Hd|]; [|lia].
      apply Hi in Hd. congruence.
    - assert (Hh : valid_hdl h).
      { pose proof (zlookup_lt _ _ _ Hl) as Hr. unfold zlength in Hr. now rewrite (wo_len _ Hm) in Hr. }
      destruct (free_slot m h Hm Hh) as (-> & _); [unfold w_client, get_client; now rewrite Hl|done]. }
  split; apply sum_zero; intros n o Ho; specialize (H n o Ho); rewrite Z.add_0_l;
    pose proof (slot_refs_nonneg (w_stage m (Z.of_nat n)) o);
    pose proof (slot_slow_nonneg (w_stage m (Z.of_nat n)) o); lia.
Qed.
