(* ===== verification/IpaPmThms.v ===== *)
(** The properties of the power manager as a transition system: what holds in
    every state it can reach, and that its calls and work items come to an
    end. *)
From S2P Require Import Prelude.
From S2P Require Import IpaMemDesc.
From S2P Require Import IpaClk.
From S2P Require Import IpaPm.
From S2P Require Import IpaPmApi.
From S2P Require Import IpaPmInv.
From S2P Require Import IpaPmSteps.
From S2P Require Import IpaPmMachine.
From S2P Require Import IpaPmWindows.

(** ** Reachable states *)

(** The power manager just initialised, when [o] references to the clocks are
    held and [w] contexts are releasing the last one. *)
Definition pm_start (c : ipa_pm_ctx) (k : ipa3_clks) (o w : Z) : pm_machine :=
  {| pm := (c, k); enabling := fun _ => false; waiting := []; others := o; slow_others := w |}.

(** States reachable from an initialisation with parameters [p]. *)
Definition pm_reaches (max_pipes : Z) (mapping : Z -> Z) (client_max : Z)
    (p : ipa_pm_init_params) (m : pm_machine) : Prop :=
  exists e c k o w, ipa_pm_init e (Some p) None = (0, Some c) /\ clk_ok o w k /\
    rtc (pm_step max_pipes mapping client_max) (pm_start c k o w) m.

Lemma init_inv e p c :
  ipa_pm_init e (Some p) None = (0, Some c) ->
  c = init_ctx p /\ 0 < ip_threshold_size p <= IPA_PM_THRESHOLD_MAX /\
  0 <= ip_exception_size p <= IPA_PM_EXCEPTION_MAX.
Proof.
  unfold ipa_pm_init. repeat case_test; intros [= <-]. split; [done|].
  repeat match goal with H : (_ || _)%bool = false |- _ => apply orb_false_iff in H as [? ?] end.
  zb. lia.
Qed.

Lemma start_ok p k o w : clk_ok o w k -> machine_ok (pm_start (init_ctx p) k o w).
Proof.
  intros Hk. split.
  - split; [exact (clk_refs _ _ _ Hk)|]. split.
    + assert (Hn : forall h, get_client (init_ctx p) h = None).
      { intros h. unfold get_client, zlookup. cbn [pm_clients init_ctx]. case_test; [|done].
        destruct (replicate _ _ !! _) eqn:E'; [|done]. now apply lookup_replicate in E' as [-> _]. }
      split; [reflexivity|reflexivity|apply Hn|]. intros h Hh. cbn [fst pm pm_start].
      rewrite Hn. split; [done|]. unfold active_bit, bit_of. cbn. unfold mask_word.
      unfold zlookup. case_test; [|apply Z.testbit_0_l].
      destruct (Z.to_nat _) as [|[|]]; cbn; apply Z.testbit_0_l.
    + cbn [fst snd pm pm_start]. replace (o + _) with o by (vm_compute votes; lia). exact Hk.
  - intros h op Hin. now apply elem_of_nil in Hin.
Qed.

Lemma reaches_ok max_pipes mapping client_max p m :
  pm_reaches max_pipes mapping client_max p m -> machine_ok m.
Proof.
  intros (e & c & k & o & w & He & Hk & Hr). apply init_inv in He as [-> _].
  eapply (rtc_preserve machine_ok); eauto using start_ok, pm_step_ok.
Qed.

(** A registered client of an invariant machine. *)
Lemma machine_client m h cl :
  machine_ok m -> get_client (fst (pm m)) h = Some cl -> client_ok h (enabling m h) cl.
Proof. intros [(_ & Hp & _) _]. exact (slot_client _ _ _ _ Hp). Qed.

Lemma no_votes c :
  (forall h cl, get_client c h = Some cl -> voting (Some cl) = false) -> votes (pm_clients c) = 0.
Proof.
  unfold get_client. intros H.
  assert (Hl : forall n o, pm_clients c !! n = Some o -> voting o = false).
  { intros n [cl|] Hn; [|done]. apply (H (Z.of_nat n)). unfold zlookup. tests.
    now rewrite Nat2Z.id, Hn. }
  clear H. induction (pm_clients c) as [|x l IH]; [done|]. rewrite votes_cons, (Hl O x eq_refl), IH.
  - done.
  - intros n. apply (Hl (S n)).
Qed.

(** The clocks are on while a voting client is active. *)
Lemma active_voted c k en o w h cl :
  sys_ok (c, k) en o w -> get_client c h = Some cl -> IPA_PM_STATE_ACTIVE (cl_state cl) = true ->
  cl_skip_clk_vote cl = false -> ipa_clk_vote k = 1.
Proof.
  intros (Ho & _ & Hk) Hc Ha Hsk. assert (0 < votes (pm_clients c)).
  { eapply votes_pos; [exact Hc|]. cbn. now rewrite Ha, Hsk. }
  pose proof (pending_decs_nonneg k). cbn in Hk. destruct Hk as [? ? _ Hcnt Hv].
  rewrite Hv. case_test; lia.
Qed.

(** ** A concrete run

    One client, "USB", of the group of the APPS processor is registered and
    activated synchronously while the clocks are off. *)
Definition ex_params : ipa_pm_init_params :=
  {| ip_default_threshold := [600; 1000]; ip_threshold_size := 2;
     ip_exceptions := [{| exc_usecase := "USB"; exc_threshold := [100; 200] |}];
     ip_exception_size := 1 |}.
Definition ex_client : ipa_pm_register_params :=
  {| rp_name := Some "USB"%string; rp_callback := Some 7; rp_group := IPA_PM_GROUP_APPS;
     rp_skip_clk_vote := false |}.
Definition ex_clks : ipa3_clks :=
  {| ipa3_hw_mode := IPA_HW_MODE_NORMAL; ipa_clk_vote := 0; active_cnt := 0; bus_vote_idx := 0;
     tag_process_before_gating := false; tag_work := false; dec_wq_work := false;
     dec_irq_work := false; enable_clock_scaling := true; curr_ipa_clk_rate := 60;
     ipa_clk_rate_svs2 := 60; ipa_clk_rate_svs := 125; ipa_clk_rate_nominal := 250;
     ipa_clk_rate_turbo := 500 |}.
Definition ex_env : init_env := {| ctx_alloc_ok := true; wq_ok := true |}.
Definition ex_renv : register_env := {| kzalloc_ok := true; wakeup_source_ok := true |}.
Definition quiet : gate_env := {| suspend_apps_pipes := 0; gsi_pending_irq_type := None |}.

Lemma ex_clks_ok : clk_ok 0 0 ex_clks.
Proof. split; cbn; reflexivity || lia. Qed.

(** Runs one step of a machine. *)
Tactic Notation "run" uconstr(rule) :=
  eapply rtc_l; [first [left; refine rule | right; left; refine rule | right; right; refine rule];
                 vm_compute; reflexivity|].

Definition same_client (cl : ipa_pm_client) (st : ipa_pm_state) (act deact compl awake : bool) : Prop :=
  cl_state cl = st /\ cl_activate_work cl = act /\ cl_deactivate_work cl = deact /\
  cl_complete cl = compl /\ cl_wlock cl = awake /\ cl_group cl = IPA_PM_GROUP_APPS /\
  cl_skip_clk_vote cl = false /\ cl_callback cl = Some 7.

(** Registered, then activated without waiting: the clocks are off, so the
    work item is queued. *)
Lemma run_queued :
  exists m cl, pm_reaches 36 id 10 ex_params m /\ get_client (fst (pm m)) 1 = Some cl /\
    same_client cl IPA_PM_ACTIVATE_IN_PROGRESS true false false false /\ enabling m 1 = false /\
    ipa_clk_vote (snd (pm m)) = 0.
Proof.
  eexists _, _. split.
  - exists ex_env, (init_ctx ex_params), ex_clks, 0, 0. split; [reflexivity|]. split; [apply ex_clks_ok|].
    run (st_register _ _ _ _ ex_renv (Some ex_client) _ _ _).
    run (st_activate _ _ _ _ 1 _ _ _). apply rtc_refl.
  - repeat split; vm_compute; reflexivity.
Qed.

(** Activated by the work item, then its deferred deactivation requested. *)
Lemma run_pending :
  exists m cl, pm_reaches 36 id 10 ex_params m /\ get_client (fst (pm m)) 1 = Some cl /\
    same_client cl IPA_PM_ACTIVATED_PENDING_DEACTIVATION false true true true /\
    enabling m 1 = false /\ ipa_clk_vote (snd (pm m)) = 1.
Proof.
  eexists _, _. split.
  - exists ex_env, (init_ctx ex_params), ex_clks, 0, 0. split; [reflexivity|]. split; [apply ex_clks_ok|].
    run (st_register _ _ _ _ ex_renv (Some ex_client) _ _ _).
    run (st_activate _ _ _ _ 1 _ _ _).
    run (st_activate_work _ quiet 1 _ _ _ _ _).
    run (st_deferred_deactivate _ _ _ _ 1 _ _ _). apply rtc_refl.
  - repeat split; vm_compute; reflexivity.
Qed.

(** ** The clocks *)

(** A run of the machine with the parts of the calls as steps: "USB" is
    registered and activated without waiting, which queues the work item; the
    work item takes the clocks and activates the client; then its deferred
    deactivation is requested. *)
Lemma rtc_then {A} (R : A -> A -> Prop) x y y' z : R x y -> y = y' -> rtc R y' z -> rtc R x z.
Proof. intros H -> Hr. exact (rtc_l _ _ _ _ H Hr). Qed.
Tactic Notation "go" uconstr(rule) :=
  eapply rtc_then;
  [first [left; refine rule | right; left; refine rule | right; right; left; refine rule
         |right; right; right; refine rule]; vm_compute; (reflexivity || discriminate)
  |vm_compute; reflexivity|].

Lemma windows_pending :
  exists m cl, w_reaches 36 id 10 ex_params m /\ w_client m 1 = Some cl /\ w_stage m 1 = Free /\
    same_client cl IPA_PM_ACTIVATED_PENDING_DEACTIVATION false true true true /\
    ipa_clk_vote (snd (w_pm m)) = 1 /\ active_cnt (snd (w_pm m)) = 1 /\
    tag_process_before_gating (snd (w_pm m)) = false.
Proof.
  eexists _, _. split.
  - exists ex_env, (init_ctx ex_params), ex_clks, 0, 0. split; [reflexivity|]. split; [apply ex_clks_ok|].
    go (w_register _ _ _ _ ex_renv (Some ex_client) _ _ _).
    go (w_activate _ _ _ _ 1 _ _ _ _ _ _ _ _).
    go (w_work_start _ 1 _ _ _ _). go (w_work_clocks _ 1 _ _ _). go (w_work_awake _ 1 _ _ _).
    go (w_work_lock _ 1 _ _ _ _ _ _).
    go (w_do _ 1 Complete _ _ _ _ _ _). go (w_do _ 1 SetBit _ _ _ _ _ _).
    go (w_deferred _ _ _ _ 1 _ _ _ _ _ _). apply rtc_refl.
  - repeat split; vm_compute; reflexivity.
Qed.

(** C20: in every state the power manager can reach, whatever calls,
    work items, timers and other users of the clocks come in between the
    parts of a call, the driver's counter is the number of references held by
    others, waiting for the mutex or handed to a work item, plus those of the
    clients; so the clocks are on while a client holds them (an active client
    that votes, from the time its activation has taken the clocks until its
    deactivation has released them), and are off exactly when there is no
    reference of any kind.  Excluded are a second call on a client, and its
    timer, while a call, the timer or the activation work of that client is in
    the part it does without the lock: pm_release_windows. *)
Theorem pm_clocks_never_gated max_pipes mapping client_max p m :
  w_reaches max_pipes mapping client_max p m ->
  let k := snd (w_pm m) in
  active_cnt k = w_others m + w_slow m + pending_decs k + (w_refs m + w_slows m) /\
  0 <= w_others m /\ 0 <= w_slow m /\
  (forall h cl, w_client m h = Some cl -> holds_clocks (w_stage m h) cl = true -> ipa_clk_vote k = 1) /\
  (ipa_clk_vote k = 0 <-> w_others m = 0 /\ w_slow m = 0 /\ pending_decs k = 0 /\
     forall h cl, w_client m h = Some cl -> holds_clocks (w_stage m h) cl = false).
Proof.
  intros Hr k. pose proof (w_reaches_ok _ _ _ _ _ Hr) as Hm. pose proof (wo_clk _ Hm) as Hk.
  pose proof (wo_others _ Hm). pose proof (wo_slow _ Hm). fold k in Hk.
  assert (Hrn : 0 <= w_refs m) by (apply sum_nonneg; intros; apply slot_refs_nonneg).
  assert (Hsn : 0 <= w_slows m) by (apply sum_nonneg; intros; apply slot_slow_nonneg).
  pose proof (pending_decs_nonneg k). destruct Hk as [_ _ _ Hc Hv].
  assert (Hon : forall h cl, w_client m h = Some cl -> holds_clocks (w_stage m h) cl = true ->
            0 < w_refs m + w_slows m).
  { intros h cl Hg Hh. apply (holds_spec m h cl Hm Hg) in Hh.
    destruct (slot_counts m h cl Hm Hg). lia. }
  split; [lia|]. do 2 (split; [done|]). split.
  { intros h cl Hg Hh. specialize (Hon h cl Hg Hh). rewrite Hv. case_test; lia. }
  split.
  - intros Hz. assert (active_cnt k = 0) by (rewrite Hv in Hz; case_test_in Hz; lia).
    do 3 (split; [lia|]). intros h cl Hg. destruct (holds_clocks _ _) eqn:Eh; [|done].
    specialize (Hon h cl Hg Eh). lia.
  - intros (? & ? & ? & Hn). destruct (no_refs m Hm Hn). rewrite Hv. case_test; lia.
Qed.

Lemma pm_clocks_never_gated_witness :
  exists m, w_reaches 36 id 10 ex_params m /\ ipa_clk_vote (snd (w_pm m)) = 1 /\
    active_cnt (snd (w_pm m)) =
      w_others m + w_slow m + pending_decs (snd (w_pm m)) + (w_refs m + w_slows m).
Proof.
  destruct windows_pending as (m & cl & Hr & Hc & Hf & Hcl & _).
  destruct (pm_clocks_never_gated 36 id 10 ex_params m Hr) as (Hcnt & _ & _ & Hv & _).
  exists m. split; [exact Hr|]. split; [|exact Hcnt]. apply (Hv 1 cl Hc).
  rewrite Hf. destruct Hcl as (Est & _ & _ & _ & _ & _ & Hsk & _). cbn. now rewrite Est, Hsk.
Defined.

(** What the state of a client determines: the timer is queued exactly in
    the three states that wait for it, the activation work exactly while an
    activation or deactivation is in progress (and then the client votes and
    the completion is not done), the bit [bit] in the mask of active clients
    and, for a voting client of the APPS group, the wake source exactly while
    the client is active. *)
Definition client_typed (h : Z) (bit : bool) (cl : ipa_pm_client) : Prop :=
  let st := cl_state cl in
  st <> IPA_PM_STATE_MAX /\ cl_hdl cl = h /\ bit = IPA_PM_STATE_ACTIVE st /\
  cl_deactivate_work cl = timer_set st /\ cl_activate_work cl = IPA_PM_STATE_IN_PROGRESS st /\
  (IPA_PM_STATE_IN_PROGRESS st = true -> cl_skip_clk_vote cl = false) /\
  (cl_activate_work cl = true -> cl_complete cl = false) /\
  (cl_group cl = IPA_PM_GROUP_APPS -> cl_skip_clk_vote cl = false ->
     cl_wlock cl = IPA_PM_STATE_ACTIVE st) /\
  (cl_group cl <> IPA_PM_GROUP_APPS -> cl_wlock cl = false).

(** A client whose activation takes the clocks: it is in progress without a
    work item or timer in the queue, its bit is clear, and its wake source,
    if it is of the APPS group, is the one the work item [has_awake] taken. *)
Definition client_activating (h : Z) (bit has_awake : bool) (cl : ipa_pm_client) : Prop :=
  IPA_PM_STATE_IN_PROGRESS (cl_state cl) = true /\ cl_skip_clk_vote cl = false /\
  cl_hdl cl = h /\ bit = false /\ cl_deactivate_work cl = false /\ cl_activate_work cl = false /\
  (cl_group cl = IPA_PM_GROUP_APPS -> cl_wlock cl = has_awake) /\
  (cl_group cl <> IPA_PM_GROUP_APPS -> cl_wlock cl = false).

Lemma client_ok_typed h bit cl :
  client_ok h false cl /\ bit = IPA_PM_STATE_ACTIVE (cl_state cl) -> client_typed h bit cl.
Proof.
  intros [[? ? ? Hw ? ? ? ? ?] ->]. rewrite andb_true_r in Hw. now repeat (split; [done|]).
Qed.

Lemma activating_typed m h cl (awake : bool) :
  windows_ok m -> w_client m h = Some cl -> in_call (w_stage m h) = true ->
  client_ok h true (if awake then untaken cl else cl) ->
  active_bit (fst (w_pm m)) h = IPA_PM_STATE_ACTIVE (cl_state cl) ->
  client_activating h (active_bit (fst (w_pm m)) h) awake cl.
Proof.
  intros Hm Hc Hi Hcl Hb. pose proof (in_call_progress m h cl Hm Hc Hi) as Hp.
  pose proof (in_call_voting m h cl Hm Hc Hi) as Hsk.
  assert (Ha : IPA_PM_STATE_ACTIVE (cl_state cl) = false) by now destruct (cl_state cl).
  assert (Ht : timer_set (cl_state cl) = false) by now destruct (cl_state cl).
  unfold client_activating. rewrite Hb, Ha.
  destruct awake; destruct Hcl as [Hhdl _ Htm Hwk _ _ _ Haw Hap]; unfold untaken in *;
    cbn in *; rewrite ?Hsk, ?Ha, ?Ht, ?Hp in *; cbn in *; (repeat (split; [done|])).
  - unfold is_apps in *. split; intros Hg; [specialize (Hap Hg eq_refl)|specialize (Haw Hg)].
    + rewrite bool_decide_eq_true_2 in Hap by done. now destruct (cl_wlock cl).
    + rewrite bool_decide_eq_false_2 in Haw by done. now destruct (cl_wlock cl).
  - split; auto.
Qed.



(** ** No call fails *)
Lemma returns_all_deferred gate s en o w :
  (forall h, gsi_quiet (gate h) = true) -> sys_ok s en o w ->
  exists r, ipa_pm_deactivate_all_deferred gate s = Done r.
Proof.
  intros Hq Hs. unfold ipa_pm_deactivate_all_deferred.
  assert (Hloop : forall n h run s, sys_ok s en o w ->
    exists r, deactivate_deferred_loop gate n h run s = Done r /\
      match r with Wait _ => True | Return (_, s) => sys_ok s en o w end).
  { clear s Hs. induction n as [|n IH]; intros h run s Hs; [now eexists|]. cbn.
    destruct (returns_ex _ _ _ (deferred_one_ok en o w gate h s Hs) (Hq h)) as ([s'|[b s']] & -> & Hs').
    - now eexists.
    - now apply IH. }
  destruct (Hloop (Z.to_nat (IPA_PM_MAX_CLIENTS - 1)) 1 false s Hs) as ([s'|[b s']] & -> & Hs');
    cbn; [eauto|]. destruct b; [|eauto].
  destruct (returns_ex _ _ _ (clk_scaling_ok en o w s' Hs') I) as ([r s''] & -> & _). cbn. eauto.
Qed.

Lemma returns_activate s en o w h :
  sys_ok s en o w -> exists r s', ipa_pm_activate h s = Done (Return (r, s')).
Proof.
  intros Hs. destruct (returns_ex _ _ _ (activate_async_ok en o w h s Hs) I) as ([s'|[r s']] & E & _);
    [exfalso|eauto].
  destruct s as [c k]. unfold ipa_pm_activate, with_client, ipa_pm_activate_helper in E.
  case_test_in E; [discriminate|]. cbn [fst] in E. destruct (get_client c h) as [cl|]; [|discriminate].
  rewrite andb_true_r in E. unfold must_wait in E.
  destruct (IPA_PM_STATE_IN_PROGRESS _); [discriminate|]. cbn [andb] in E.
  now destruct (activate_run _ _ _ _).
Qed.

Lemma returns_activate_sync m h :
  machine_ok m -> idle m h -> exists r, ipa_pm_activate_sync h (pm m) = Done r.
Proof.
  intros Hm [Hn _]. pose proof (mo_sys _ Hm) as Hs. destruct (pm m) as [c k].
  unfold ipa_pm_activate_sync, with_client. case_test; [eauto|]. cbn [fst].
  destruct (get_client c h) as [cl|] eqn:Hc; [|eauto]. unfold ipa_pm_activate_helper.
  rewrite andb_false_r. destruct (must_wait cl); [eauto|]. unfold activate_run.
  destruct (returns_ex _ _ _ (activate_switch_ok _ _ _ true c k h cl Hs Hc Hn) I)
    as ([r s'|s'] & -> & Hs'); cbn; [eauto|].
  destruct Hs' as [_ Hs']. destruct s' as [c' k'].
  assert (Hc' : exists cl', get_client c' h = Some cl').
  { destruct Hs' as (_ & Hp & _).
    pose proof (pm_slots _ _ Hp h (get_valid _ _ _ (pm_len _ _ (proj1 (proj2 Hs))) Hc)) as Hsl.
    cbn in Hsl. unfold upd_fun in Hsl. rewrite Z.eqb_refl in Hsl.
    destruct (get_client c' h); [eauto|]. now destruct Hsl. }
  destruct Hc' as [cl' Hc'].
  destruct (returns_ex _ _ _ (activate_enable_ok _ _ _ c' k' h cl' Hs' Hc'
              ltac:(unfold upd_fun; now rewrite Z.eqb_refl)) I) as (r & -> & _). cbn. eauto.
Qed.

Lemma returns_deactivate_sync gate m h :
  gsi_quiet (gate h) = true -> machine_ok m -> idle m h ->
  exists r, ipa_pm_deactivate_sync gate h (pm m) = Done r.
Proof.
  intros Hq Hm [Hn _]. pose proof (mo_sys _ Hm) as Hs. destruct (pm m) as [c k].
  destruct (deactivate_sync_cases gate h c k) as [E|(cl & Hc & [[Hmw E]|[Hmw E]])];
    rewrite E; [eauto|eauto|].
  pose proof (slot_client _ _ _ _ (proj1 (proj2 Hs)) Hc) as Hcl. rewrite Hn in Hcl.
  destruct (returns_ex _ _ _ (deactivate_post_ok _ _ _ gate c k h cl _ Hs Hc
    (idle_of_no_wait _ _ Hcl Hmw) (or_intror eq_refl)) Hq) as (r & -> & _). cbn. eauto.
Qed.

(** In every reachable state, and while the hardware reports no interrupt,
    these calls and work items come back, or reach the point where they wait,
    without reading through a NULL pointer or failing the assertion on the
    clock count: activation (asynchronous or synchronous), synchronous
    deactivation, the deactivation of all deferred clients, registration, the
    change of a throughput, and the queued work items.  (A call that reads the
    thresholds can fault, scaling_levels_null, and a wait can be one that
    nothing ends, pm_activation_window.) *)
Theorem pm_calls_return max_pipes mapping client_max p m gate :
  pm_reaches max_pipes mapping client_max p m ->
  (forall h, gsi_quiet (gate h) = true) ->
  (forall h, exists r s', ipa_pm_activate h (pm m) = Done (Return (r, s'))) /\
  (forall h, idle m h -> exists r, ipa_pm_activate_sync h (pm m) = Done r) /\
  (forall h, idle m h -> exists r, ipa_pm_deactivate_sync gate h (pm m) = Done r) /\
  (exists r, ipa_pm_deactivate_all_deferred gate (pm m) = Done r) /\
  (forall e rp, exists r, ipa_pm_register max_pipes e rp (fst (pm m)) = Done r) /\
  (forall h t, exists r s', ipa_pm_set_throughput h t (pm m) = Done (r, s')) /\
  (exists s', clock_scaling_func (pm m) = Done s') /\
  (forall h cl, get_client (fst (pm m)) h = Some cl ->
    (cl_activate_work cl = true -> exists s', activate_work_func (gate h) h (pm m) = Done s') /\
    (cl_deactivate_work cl = true ->
       exists s', delayed_deferred_deactivate_work_func (gate h) h (pm m) = Done s')).
Proof.
  intros Hr Hq. pose proof (reaches_ok _ _ _ _ _ Hr) as Hm. pose proof (mo_sys _ Hm) as Hs.
  split; [intros h; eapply returns_activate; eauto|].
  split; [intros h; now apply returns_activate_sync|].
  split; [intros h; now apply returns_deactivate_sync|].
  split; [eapply returns_all_deferred; eauto|].
  destruct (pm m) as [c k] eqn:Epm. cbn [fst] in *.
  split; [intros e rp|split; [intros h t|split; [|intros h cl Hc; split; intros Hw]]].
  - destruct (returns_ex _ _ _ (register_ok _ _ _ max_pipes e rp c k Hs) I) as (r & -> & _). eauto.
  - destruct (returns_ex _ _ _ (set_throughput_ok _ _ _ c k h t Hs) I) as ([r s'] & -> & _). eauto.
  - destruct (returns_ex _ _ _ (scaling_work_ok _ _ _ c k Hs) I) as (s' & -> & _). eauto.
  - destruct (returns_ex _ _ _ (activate_work_ok _ _ _ (gate h) c k h cl Hs Hc Hw) (Hq h)) as (s' & -> & _). eauto.
  - destruct (returns_ex _ _ _ (deferred_work_ok _ _ _ (gate h) c k h cl Hs Hc Hw) (Hq h)) as (s' & -> & _). eauto.
Qed.

Lemma pm_calls_return_witness :
  exists m s', pm_reaches 36 id 10 ex_params m /\ activate_work_func quiet 1 (pm m) = Done s'.
Proof.
  destruct run_queued as (m & cl & Hr & Hc & Hcl & _).
  destruct (pm_calls_return 36 id 10 ex_params m (fun _ => quiet) Hr (fun _ => eq_refl))
    as (_ & _ & _ & _ & _ & _ & _ & Hw).
  destruct (proj1 (Hw 1 cl Hc)) as [s' Hs']; [apply Hcl|]. exists m, s'. now split.
Defined.

(** ** Progress *)

(** What recomputing the clock plan, or gating the clocks, changes in the
    context: the aggregated throughput, the vote and the thresholds in use. *)
Definition scaled (c c' : ipa_pm_ctx) : Prop :=
  exists agg v p, c' = set_clk (db_set_vote v (db_set_current p (pm_clk_scaling c)))
                               (set_tput agg (pm_group_tput c) c).

Lemma scaled_refl c : scaled c c.
Proof. destruct c as [? ? [] ? ? ? ?]. now do 3 eexists. Qed.

Lemma do_clk_scaling_scaled c k r c' k' :
  do_clk_scaling (c, k) = Done (r, (c', k')) -> scaled c c'.
Proof.
  unfold do_clk_scaling. case_test; [intros [= _ <- _]; apply scaled_refl|].
  destruct (threshold_of _) as [th|]; [|discriminate]. cbn [deref mbind exec_bind].
  case_test; intros [= _ <- _]; now do 3 eexists.
Qed.

Lemma clk_put_scaled gate cl c k c' k' : clk_put gate cl (c, k) = Done (c', k') -> scaled c c'.
Proof.
  unfold clk_put, __ipa3_dec_client_disable_clks, dec_locked, ipa3_disable_clks.
  case_test; [|intros [= <- _]; apply scaled_refl].
  intros H. apply bind_Done in H as ([k1|] & _ & H); [injection H as <- _; apply scaled_refl|].
  repeat case_test_in H; try discriminate; injection H as <- _; try apply scaled_refl.
  unfold pm_set_clock_index, pm_clk_listener, ipa_pm_set_clock_index. cbn.
  destruct c as [? ? [] ? ? ? ?]. now do 3 eexists.
Qed.

Lemma scaled_client c c' h : scaled c c' -> get_client c' h = get_client c h.
Proof. now intros (? & ? & ? & ->). Qed.
Lemma scaled_bit c c' h : scaled c c' -> active_bit c' h = active_bit c h.
Proof. now intros (? & ? & ? & ->). Qed.
Lemma scaled_notified c c' : scaled c c' -> pm_notified c' = pm_notified c.
Proof. now intros (? & ? & ? & ->). Qed.

(** What the activation work does with the client. *)
Lemma activate_work_result gate c k h cl c' k' :
  length (pm_clients c) = Z.to_nat IPA_PM_MAX_CLIENTS -> get_client c h = Some cl ->
  IPA_PM_STATE_IN_PROGRESS (cl_state cl) = true ->
  activate_work_func gate h (c, k) = Done (c', k') ->
  let activated := bool_decide (cl_state cl = IPA_PM_ACTIVATE_IN_PROGRESS) in
  exists cl', get_client c' h = Some cl' /\ cl_complete cl' = true /\ cl_activate_work cl' = false /\
    cl_skip_clk_vote cl' = cl_skip_clk_vote cl /\
    cl_state cl' = (if activated then IPA_PM_ACTIVATED else IPA_PM_DEACTIVATED) /\
    pm_notified c' = (if activated && bool_decide (is_Some (cl_callback cl))
                      then [(h, IPA_PM_CLIENT_ACTIVATED)] else []) ++ pm_notified c.
Proof.
  intros Hl Hc Hp E activated. pose proof (get_valid _ _ _ Hl Hc) as Hh.
  unfold activate_work_func in E. rewrite Hc in E. cbn [deref mbind exec_bind] in E.
  rewrite stay_awake_if_voting_eq in E. cbn [cl_state cl_set_works cl_set_wlock] in E.
  subst activated. destruct (cl_state cl) eqn:Est; try discriminate; cbn zeta iota beta in E.
  - rewrite relax_if_voting_eq in E. pose proof (clk_put_scaled _ _ _ _ _ _ E) as Hsc.
    eexists. rewrite (scaled_client _ _ _ Hsc), get_put, Z.eqb_refl, (scaled_notified _ _ Hsc) by done.
    repeat split; reflexivity.
  - apply bind_Done in E as ([r [c1 k1]] & E & [= -> ->]).
    pose proof (do_clk_scaling_scaled _ _ _ _ _ E) as Hsc.
    match type of E with context [put_client h ?x c] => exists x; set (cl1 := x) in * end.
    pose proof (get_put c h cl1 h Hl Hh) as G. rewrite Z.eqb_refl in G.
    rewrite (scaled_client _ _ _ Hsc), (scaled_notified _ _ Hsc).
    change (cl_callback cl1) with (cl_callback cl) in *.
    destruct (cl_callback cl); (split; [exact G|repeat split; reflexivity]).
Qed.

Lemma scaling_total s : exists r s', do_clk_scaling s = Done (r, s').
Proof.
  destruct s as [c k]. unfold do_clk_scaling. case_test; [eauto|].
  destruct (threshold_of_current (set_tput (calculate_throughput c) (pm_group_tput c) c)) as [th ->].
  cbn [deref mbind exec_bind]. case_test; eauto.
Qed.

(** The work item runs to its end, and leaves the clocks on if it activates. *)
Lemma activate_work_runs gate r w c k h cl :
  length (pm_clients c) = Z.to_nat IPA_PM_MAX_CLIENTS -> get_client c h = Some cl ->
  cl_skip_clk_vote cl = false -> IPA_PM_STATE_IN_PROGRESS (cl_state cl) = true ->
  clk_ok r w k -> gsi_quiet gate = true ->
  exists s', activate_work_func gate h (c, k) = Done s' /\
    (cl_state cl = IPA_PM_ACTIVATE_IN_PROGRESS -> ipa_clk_vote (snd s') = 1).
Proof.
  intros Hl Hc Hsk Hp Hk Hq. pose proof (clk_get_ok cl _ _ _ Hk) as Hk1. rewrite Hsk in Hk1. cbn in Hk1.
  assert (Hv : forall k', clk_ok (r + 1) w k' -> ipa_clk_vote k' = 1).
  { intros k' [_ _ _ Hcnt Hv]. rewrite Hv. destruct Hk as [Hr0 Hw0 _ _ _].
    pose proof (pending_decs_nonneg k'). case_test; lia. }
  rewrite (activate_work_parts h c cl Hl Hc). cbv zeta. rewrite stay_awake_if_voting_eq.
  unfold activate_work_part. cbn [cl_state cl_set_wlock cl_set_works].
  destruct (cl_state cl) eqn:Est; try discriminate; cbn [mbind exec_bind].
  - cbn [run_rest]. rewrite (run_unlocked_plain gate h Complete _ _ _ ltac:(done) ltac:(done)
      (get_put_same h c cl Hl Hc _)).
    cbn [mbind exec_bind unlocked_client unlocked_mask]. rewrite put_put. set (x := complete_all _).
    pose proof (run_release h c cl Hl Hc gate x [] (clk_get cl k)) as Hrun. cbn [run_rest] in Hrun.
    rewrite Hrun.
    assert (Hput : returns (gsi_quiet gate = true)
              (clk_put gate x (put_client h (relax_if_voting x) c, clk_get cl k)) (fun _ => True)).
    { eapply clk_put_ok; [exact Hk1| |done]. intros _. pose proof (clk_refs _ _ _ Hk). lia. }
    destruct (returns_ex _ _ _ Hput Hq) as (s' & -> & _). cbn [mbind exec_bind].
    rewrite bool_decide_eq_true_2 by set_solver. eexists. split; [reflexivity|done].
  - cbn [run_rest]. rewrite (run_unlocked_plain gate h Complete _ _ _ ltac:(done) ltac:(done)
      (get_put_same h c cl Hl Hc _)).
    cbn [mbind exec_bind unlocked_client unlocked_mask]. rewrite put_put.
    rewrite (run_unlocked_plain gate h SetBit _ _ _ ltac:(done) ltac:(done) (get_put_same h c cl Hl Hc _)).
    cbn [mbind exec_bind unlocked_client unlocked_mask fst snd].
    rewrite bool_decide_eq_false_2 by set_solver.
    match goal with |- context [do_clk_scaling ?s] => destruct (scaling_total s) as (r1 & [c1 k1] & E) end.
    rewrite E. cbn [mbind exec_bind]. eexists. split; [reflexivity|]. intros _. cbn [snd].
    apply scaling_core in E as [_ E]. apply Hv, E, Hk1.
Qed.

(** C31: an activation that was put off is carried out: in every
    reachable state a client in progress that nothing is in the middle of has
    its work item queued; while the hardware reports no interrupt, the work
    item, run without interruption, comes to its end; after it the client is
    activated (or deactivated, if that was asked for in between), the
    completion its waiters wait for is done, the callback has been called
    exactly if the client was activated, and the clocks of an activated client
    are on. *)
Theorem pm_activation_completes max_pipes mapping client_max p m h cl gate :
  w_reaches max_pipes mapping client_max p m ->
  w_client m h = Some cl -> IPA_PM_STATE_IN_PROGRESS (cl_state cl) = true ->
  w_stage m h = Free -> gsi_quiet gate = true ->
  let activated := bool_decide (cl_state cl = IPA_PM_ACTIVATE_IN_PROGRESS) in
  cl_activate_work cl = true /\
  exists s' cl', activate_work_func gate h (w_pm m) = Done s' /\
    get_client (fst s') h = Some cl' /\ cl_activate_work cl' = false /\ cl_complete cl' = true /\
    cl_state cl' = (if activated then IPA_PM_ACTIVATED else IPA_PM_DEACTIVATED) /\
    pm_notified (fst s') = (if activated && bool_decide (is_Some (cl_callback cl))
                            then [(h, IPA_PM_CLIENT_ACTIVATED)] else []) ++ pm_notified (fst (w_pm m)) /\
    (activated = true -> ipa_clk_vote (snd s') = 1).
Proof.
  intros Hr Hc Hp Hf Hq activated. pose proof (w_reaches_ok _ _ _ _ _ Hr) as Hm.
  destruct (free_client m h cl Hm Hc Hf) as [Hcl _].
  split; [now rewrite (ok_work _ _ _ Hcl), Hp|].
  pose proof (wo_len _ Hm) as Hl. pose proof (wo_clk _ Hm) as Hk. unfold w_client in Hc.
  destruct (w_pm m) as [c k]. cbn [fst snd] in *.
  destruct (activate_work_runs gate _ _ c k h cl Hl Hc (ok_progress _ _ _ Hcl Hp) Hp Hk Hq)
    as ([c' k'] & E & Hv).
  destruct (activate_work_result _ _ _ _ _ _ _ Hl Hc Hp E) as (cl' & Hg & Hco & Hwk & Hsk & Hst & Hno).
  exists (c', k'), cl'. repeat (split; [done|]). intros Ha. apply Hv.
  now apply bool_decide_eq_true in Ha.
Qed.

Lemma windows_queued :
  exists m cl, w_reaches 36 id 10 ex_params m /\ w_client m 1 = Some cl /\ w_stage m 1 = Free /\
    same_client cl IPA_PM_ACTIVATE_IN_PROGRESS true false false false.
Proof.
  eexists _, _. split.
  - exists ex_env, (init_ctx ex_params), ex_clks, 0, 0. split; [reflexivity|]. split; [apply ex_clks_ok|].
    go (w_register _ _ _ _ ex_renv (Some ex_client) _ _ _).
    go (w_activate _ _ _ _ 1 _ _ _ _ _ _ _ _). apply rtc_refl.
  - repeat split; vm_compute; reflexivity.
Qed.

Lemma pm_activation_completes_witness :
  exists m s' cl', w_reaches 36 id 10 ex_params m /\ activate_work_func quiet 1 (w_pm m) = Done s' /\
    get_client (fst s') 1 = Some cl' /\ cl_state cl' = IPA_PM_ACTIVATED /\ cl_complete cl' = true /\
    ipa_clk_vote (snd s') = 1.
Proof.
  destruct windows_queued as (m & cl & Hr & Hc & Hf & Hcl).
  destruct (pm_activation_completes 36 id 10 ex_params m 1 cl quiet Hr Hc) as (_ & s' & cl' & H).
  - now destruct Hcl as [-> _].
  - exact Hf.
  - reflexivity.
  - destruct Hcl as [Est _]. rewrite Est in H. exists m, s', cl'. destruct H as (? & ? & _ & ? & ? & _ & Hv).
    repeat (split; [done|]). now apply Hv.
Defined.

(** The state a client is in after its timer has fired. *)
Definition after_timer (st : ipa_pm_state) : ipa_pm_state :=
  match st with
  | IPA_PM_ACTIVATED_TIMER_SET => IPA_PM_ACTIVATED
  | IPA_PM_ACTIVATED_PENDING_RESCHEDULE => IPA_PM_ACTIVATED_PENDING_DEACTIVATION
  | IPA_PM_ACTIVATED_PENDING_DEACTIVATION => IPA_PM_DEACTIVATED
  | st => st
  end.

Lemma timer_result gate c k h cl c' k' :
  length (pm_clients c) = Z.to_nat IPA_PM_MAX_CLIENTS -> get_client c h = Some cl ->
  delayed_deferred_deactivate_work_func gate h (c, k) = Done (c', k') ->
  (exists cl', get_client c' h = Some cl' /\ cl_state cl' = after_timer (cl_state cl)) /\
  forall j, j <> h -> get_client c' j = get_client c j.
Proof.
  intros Hl Hc E. pose proof (get_valid _ _ _ Hl Hc) as Hh.
  assert (G : forall cl' j, get_client (put_client h cl' c) j = if h =? j then Some cl' else get_client c j)
    by (intros; now apply get_put).
  assert (Hput : forall cl', cl_state cl' = after_timer (cl_state cl) ->
    (forall j, get_client c' j = get_client (put_client h cl' c) j) ->
    (exists cl', get_client c' h = Some cl' /\ cl_state cl' = after_timer (cl_state cl)) /\
    forall j, j <> h -> get_client c' j = get_client c j).
  { intros cl' Hst Hj. split.
    - exists cl'. now rewrite Hj, G, Z.eqb_refl.
    - intros j Hne. rewrite Hj, G. case_test; congruence. }
  unfold delayed_deferred_deactivate_work_func in E. rewrite Hc in E. cbn [deref mbind exec_bind] in E.
  cbn [cl_state cancel_deactivate_work cl_set_works] in E.
  destruct (cl_state cl) eqn:Est; cbv iota zeta in E;
    try (injection E as <- <-; eapply Hput; [|reflexivity]; cbn; now rewrite ?Est).
  apply bind_Done in E as ([c1 k1] & E1 & E). apply bind_Done in E as ([r [c2 k2]] & E2 & [= -> ->]).
  pose proof (clk_put_scaled _ _ _ _ _ _ E1) as H1. pose proof (do_clk_scaling_scaled _ _ _ _ _ E2) as H2.
  rewrite relax_if_voting_eq in *. eapply Hput; [|intros j].
  2:{ rewrite (scaled_client _ _ _ H2). exact (scaled_client _ _ j H1). }
  reflexivity.
Qed.

(** The deactivation timer does its work: in every reachable
    state in which it is queued, its work item runs to its end; a client
    whose timer was overtaken by an activation stays active without timer,
    one whose timer was pushed back is given another period, and one that
    still waits is deactivated, its bit is cleared and the wake source of a
    voting APPS client released; other clients are left alone.  Two firings
    at most deactivate a client that nobody activates. *)
Theorem pm_timer_correct max_pipes mapping client_max p m h cl gate :
  pm_reaches max_pipes mapping client_max p m ->
  get_client (fst (pm m)) h = Some cl -> cl_deactivate_work cl = true -> gsi_quiet gate = true ->
  exists s' cl', delayed_deferred_deactivate_work_func gate h (pm m) = Done s' /\
    get_client (fst s') h = Some cl' /\ cl_state cl' = after_timer (cl_state cl) /\
    cl_deactivate_work cl' = bool_decide (cl_state cl = IPA_PM_ACTIVATED_PENDING_RESCHEDULE) /\
    active_bit (fst s') h = bool_decide (cl_state cl <> IPA_PM_ACTIVATED_PENDING_DEACTIVATION) /\
    (cl_group cl' = IPA_PM_GROUP_APPS -> cl_skip_clk_vote cl' = false ->
       cl_wlock cl' = active_bit (fst s') h) /\
    (forall j, j <> h -> get_client (fst s') j = get_client (fst (pm m)) j) /\
    (cl_state cl = IPA_PM_ACTIVATED_PENDING_RESCHEDULE ->
       exists s2 cl2, delayed_deferred_deactivate_work_func gate h s' = Done s2 /\
         get_client (fst s2) h = Some cl2 /\ cl_state cl2 = IPA_PM_DEACTIVATED).
Proof.
  intros Hr Hc Hw Hq. pose proof (reaches_ok _ _ _ _ _ Hr) as Hm.
  pose proof (ok_timer _ _ _ (machine_client _ _ _ Hm Hc)) as Ht. rewrite Hw in Ht.
  pose proof (mo_sys _ Hm) as Hs. destruct (pm m) as [c k]. cbn [fst] in *.
  assert (Hfire : forall c k cl, sys_ok (c, k) (enabling m) (others m) (slow_others m) ->
    get_client c h = Some cl -> timer_set (cl_state cl) = true ->
    exists c' k' cl', delayed_deferred_deactivate_work_func gate h (c, k) = Done (c', k') /\
      sys_ok (c', k') (enabling m) (others m) (slow_others m) /\
      get_client c' h = Some cl' /\ cl_state cl' = after_timer (cl_state cl) /\
      forall j, j <> h -> get_client c' j = get_client c j).
  { clear c k cl Hs Hc Hw Ht. intros c k cl Hs Hc Ht.
    assert (Hw : cl_deactivate_work cl = true)
      by now rewrite (ok_timer _ _ _ (slot_client _ _ _ _ (proj1 (proj2 Hs)) Hc)).
    destruct (returns_ex _ _ _ (deferred_work_ok _ _ _ gate c k h cl Hs Hc Hw) Hq) as ([c' k'] & E & Hs').
    destruct (timer_result _ _ _ _ _ _ _ (pm_len _ _ (proj1 (proj2 Hs))) Hc E) as [(cl' & Hg & Hst) Hj].
    now exists c', k', cl'. }
  destruct (Hfire c k cl Hs Hc (eq_sym Ht)) as (c' & k' & cl' & E & Hs' & Hg & Hst & Hj).
  pose proof (pm_slots _ _ (proj1 (proj2 Hs')) h (get_valid _ _ _ (pm_len _ _ (proj1 (proj2 Hs'))) Hg)) as Hsl.
  cbn [fst] in Hsl. rewrite Hg in Hsl. destruct Hsl as [[? ? Htm _ _ _ _ _ Hap] Hb].
  exists (c', k'), cl'. cbn [fst]. do 3 (split; [done|]). rewrite Htm, Hb, Hst.
  split; [now destruct (cl_state cl)|]. split; [now destruct (cl_state cl)|].
  split; [rewrite <- Hst; exact Hap|]. split; [exact Hj|]. intros Er. rewrite Er in Hst.
  destruct (Hfire c' k' cl' Hs' Hg ltac:(now rewrite Hst)) as (c2 & k2 & cl2 & E2 & _ & Hg2 & Hst2 & _).
  exists (c2, k2), cl2. do 2 (split; [done|]). now rewrite Hst2, Hst.
Qed.

Lemma pm_timer_correct_witness :
  exists m s' cl', pm_reaches 36 id 10 ex_params m /\
    delayed_deferred_deactivate_work_func quiet 1 (pm m) = Done s' /\
    get_client (fst s') 1 = Some cl' /\ cl_state cl' = IPA_PM_DEACTIVATED /\
    active_bit (fst s') 1 = false.
Proof.
  destruct run_pending as (m & cl & Hr & Hc & Hcl & _).
  destruct (pm_timer_correct 36 id 10 ex_params m 1 cl quiet Hr Hc) as (s' & cl' & H).
  - apply Hcl.
  - reflexivity.
  - destruct Hcl as [Est _]. rewrite Est in H. exists m, s', cl'.
    destruct H as (? & ? & ? & _ & ? & _). now repeat (split; [done|]).
Defined.

(** ** What the machine excludes *)

(** Releasing the clocks and the wake source. *)
Lemma run_released gate h c k x l r w :
  length (pm_clients c) = Z.to_nat IPA_PM_MAX_CLIENTS -> get_client c h = Some x ->
  clk_ok r w k -> 0 < r -> gsi_quiet gate = true ->
  exists c1 k1, clk_put gate x (c, k) = Done (c1, k1) /\ same_core c c1 /\
    run_rest gate h (ClkPut :: Relax :: l) (c, k) =
    run_rest gate h l (put_client h (relax_if_voting x) c1, k1).
Proof.
  intros Hl Hc Hk Hr Hq.
  destruct (returns_ex _ _ _ (clk_put_ok gate x c k r w (fun _ => True) Hk (fun _ => Hr) ltac:(done)) Hq)
    as ([c1 k1] & E & _).
  exists c1, k1. split; [exact E|]. split; [exact (clk_put_keeps gate x c k _ E)|].
  rewrite <- (put_id c h x Hc) at 1. rewrite (run_release h c x Hl Hc), clk_put_commutes, E. done.
Qed.

(** The last reference. *)
Lemma clk_put_last gate cl c k c1 k1 :
  cl_skip_clk_vote cl = false -> IPA_IS_REGULAR_CLK_MODE (ipa3_hw_mode k) = true ->
  active_cnt k = 1 -> tag_process_before_gating k = false -> suspend_apps_pipes gate = 0 ->
  clk_put gate cl (c, k) = Done (c1, k1) -> ipa_clk_vote k1 = 0.
Proof.
  intros Hsk Hmode Hcnt Htag Hsus. unfold clk_put, __ipa3_dec_client_disable_clks, dec_fast, close_coal.
  rewrite Hsk, Hcnt, Htag. cbn. unfold dec_locked. cbn. rewrite Hcnt, Hsus. cbn.
  unfold ipa3_disable_clks. cbn. rewrite Hmode. cbn. destruct (gsi_quiet gate); [|discriminate].
  now intros [= _ <-].
Qed.

(** The asynchronous activation of an active client, and of a deactivated one
    while the clocks are on. *)
Lemma activate_active h c k cl :
  length (pm_clients c) = Z.to_nat IPA_PM_MAX_CLIENTS -> get_client c h = Some cl ->
  IPA_PM_STATE_ACTIVE (cl_state cl) = true ->
  exists cl', ipa_pm_activate h (c, k) = Done (Return (0, (put_client h cl' c, k))) /\
    IPA_PM_STATE_ACTIVE (cl_state cl') = true.
Proof.
  intros Hl Hc Ha. pose proof (get_valid _ _ _ Hl Hc) as Hh. unfold valid_hdl in Hh.
  rewrite (activate_parts h c cl Hl Hc quiet) by lia. unfold activate_part.
  destruct (cl_state cl) eqn:Est; try discriminate; cbn; eexists; (split; [reflexivity|]); cbn; now rewrite ?Est.
Qed.

Lemma activate_again h c k cl :
  length (pm_clients c) = Z.to_nat IPA_PM_MAX_CLIENTS -> get_client c h = Some cl ->
  cl_state cl = IPA_PM_DEACTIVATED -> cl_skip_clk_vote cl = false -> active_cnt k <> 0 ->
  let x := stay_awake (cl_set_state IPA_PM_ACTIVATED cl) in
  ipa_pm_activate h (c, k) =
    Done (Return (0, (set_scaling_work true (activate_client h (put_client h x c)),
                      set_active_cnt (active_cnt k + 1) k))).
Proof.
  intros Hl Hc Hst Hsk Hcnt x. pose proof (get_valid _ _ _ Hl Hc) as Hh. unfold valid_hdl in Hh.
  rewrite (activate_parts h c cl Hl Hc quiet) by lia. unfold activate_part. rewrite Hst, Hsk. cbn.
  unfold ipa3_inc_client_enable_clks_no_block. rewrite (proj2 (Z.eqb_neq _ _) Hcnt). cbn.
  rewrite (get_put_same h c cl Hl Hc). cbn. now rewrite put_put.
Qed.

Lemma deactivation_window gate h c k cl r w :
  length (pm_clients c) = Z.to_nat IPA_PM_MAX_CLIENTS -> get_client c h = Some cl ->
  clk_ok r w k -> 0 < r -> cl_skip_clk_vote cl = false ->
  IPA_PM_STATE_ACTIVE (cl_state cl) = true -> gsi_quiet gate = true ->
  exists cl1 s1 s2 s3 cl2 cl3,
    deactivate_part cl = (cl1, [ClkPut; Relax; Deactivated; CancelTimer; ClearBit]) /\
    run_rest gate h [ClkPut; Relax] (put_client h cl1 c, k) = Done s1 /\
    ipa_pm_activate h s1 = Done (Return (0, s2)) /\
    get_client (fst s2) h = Some cl2 /\ IPA_PM_STATE_ACTIVE (cl_state cl2) = true /\
    (active_cnt k = 1 -> tag_process_before_gating k = false -> suspend_apps_pipes gate = 0 ->
     ipa_clk_vote (snd s2) = 0) /\
    run_rest gate h [Deactivated; CancelTimer; ClearBit] s2 = Done s3 /\
    get_client (fst s3) h = Some cl3 /\ cl_state cl3 = IPA_PM_DEACTIVATED.
Proof.
  intros Hl Hc Hk Hr Hsk Ha Hq. pose proof (get_valid _ _ _ Hl Hc) as Hh.
  set (x := cancel_deactivate_work cl).
  assert (Hlx : forall y, length (pm_clients (put_client h y c)) = Z.to_nat IPA_PM_MAX_CLIENTS).
  { intros y. cbn. unfold zinsert. case_test; [now rewrite length_insert|done]. }
  destruct (run_released gate h (put_client h x c) k x [] r w (Hlx x) (get_put_same h c cl Hl Hc x) Hk Hr Hq)
    as (c1 & k1 & E & Hcore & Erun).
  assert (Hl1 : forall y, length (pm_clients (put_client h y c1)) = Z.to_nat IPA_PM_MAX_CLIENTS).
  { intros y. destruct Hcore as [Ecl _]. cbn. rewrite Ecl. cbn. unfold zinsert. case_test; [now rewrite !length_insert|done]. }
  assert (Hg1 : forall y, get_client (put_client h y c1) h = Some y).
  { intros y. apply (get_put_same h c1 x); [|rewrite <- Hcore; exact (get_put_same h c cl Hl Hc x)].
    rewrite (proj1 Hcore). apply Hlx. }
  destruct (activate_active h (put_client h (relax_if_voting x) c1) k1 (relax_if_voting x) (Hl1 _) (Hg1 _))
    as (cl2 & Eact & Ha2); [now rewrite relax_if_voting_eq|].
  rewrite put_put in Eact. cbn [run_rest] in Erun.
  exists x, (put_client h (relax_if_voting x) c1, k1), (put_client h cl2 c1, k1).
  set (y := cancel_deactivate_work (cl_set_state IPA_PM_DEACTIVATED cl2)).
  exists (deactivate_client h (put_client h y c1), k1), cl2, y.
  split. { unfold deactivate_part. fold x. case_decide as Hd; [|done]. cbn in Hd. now rewrite Hd in Ha. }
  split; [exact Erun|]. split; [exact Eact|]. split; [apply Hg1|]. split; [exact Ha2|].
  split. { cbn [snd]. intros. eapply clk_put_last; [| | | | |exact E]; try done. exact (clk_mode _ _ _ Hk). }
  split; [|split; [exact (Hg1 y)|done]].
  cbn [run_rest run_unlocked].
  repeat (rewrite ?Hg1, ?put_put;
          cbn [run_unlocked deref mbind exec_bind unlocked_client unlocked_mask fst snd]). done.
Qed.

Lemma timer_window gate h c k cl r w :
  length (pm_clients c) = Z.to_nat IPA_PM_MAX_CLIENTS ->
  length (active_client_bitmask (pm_clk_scaling c)) = 2%nat -> get_client c h = Some cl ->
  clk_ok r w k -> 0 < r -> cl_skip_clk_vote cl = false -> gsi_quiet gate = true ->
  cl_state cl = IPA_PM_ACTIVATED_PENDING_DEACTIVATION ->
  exists cl1 s1 s2 cl2,
    timer_part cl = (cl1, [ClkPut; Relax; ClearBit]) /\
    ipa_pm_activate h (put_client h cl1 c, k) = Done (Return (0, s1)) /\
    run_rest gate h [ClkPut; Relax; ClearBit] s1 = Done s2 /\
    get_client (fst s2) h = Some cl2 /\ cl_state cl2 = IPA_PM_ACTIVATED /\
    active_bit (fst s2) h = false /\ (cl_group cl2 = IPA_PM_GROUP_APPS -> cl_wlock cl2 = false).
Proof.
  intros Hl Hml Hc Hk Hr Hsk Hq Hst. pose proof (get_valid _ _ _ Hl Hc) as Hh.
  set (x := cl_set_state IPA_PM_DEACTIVATED (cancel_deactivate_work cl)).
  assert (Hlx : forall y c, length (pm_clients c) = Z.to_nat IPA_PM_MAX_CLIENTS ->
            length (pm_clients (put_client h y c)) = Z.to_nat IPA_PM_MAX_CLIENTS).
  { intros y c0 H0. cbn. unfold zinsert. case_test; [now rewrite length_insert|done]. }
  assert (Hcnt : active_cnt k <> 0).
  { destruct Hk as [_ Hw _ Hcnt _]. pose proof (pending_decs_nonneg k). lia. }
  pose proof (activate_again h (put_client h x c) k x (Hlx _ _ Hl) (get_put_same h c cl Hl Hc x)
                eq_refl Hsk Hcnt) as Eact. cbv zeta in Eact. rewrite put_put in Eact.
  set (y := stay_awake (cl_set_state IPA_PM_ACTIVATED x)) in *.
  set (c2 := set_scaling_work true (activate_client h (put_client h y c))) in *.
  set (k2 := set_active_cnt (active_cnt k + 1) k) in *.
  assert (Hk2 : clk_ok (r + 1) w k2).
  { pose proof (inc_ok _ _ _ Hk) as H2. unfold ipa3_inc_client_enable_clks in H2.
    now rewrite (proj2 (Z.eqb_neq _ _) Hcnt) in H2. }
  destruct (run_released gate h c2 k2 y [ClearBit] (r + 1) w (Hlx y c Hl) (get_put_same h c cl Hl Hc y)
              Hk2 ltac:(lia) Hq) as (c3 & k3 & _ & Hcore & Erun).
  assert (Hg3 : forall z, get_client (put_client h z c3) h = Some z).
  { intros z. apply (get_put_same h c3 y); [|rewrite <- Hcore; exact (get_put_same h c cl Hl Hc y)].
    rewrite (proj1 Hcore). exact (Hlx y c Hl). }
  set (z := relax_if_voting y).
  exists x, (c2, k2), (deactivate_client h (put_client h z c3), k3), z.
  split; [unfold timer_part; cbn; now rewrite Hst|]. split; [exact Eact|].
  split. { rewrite Erun. cbn [run_rest run_unlocked]. fold z. rewrite Hg3.
           cbn [deref mbind exec_bind unlocked_client unlocked_mask]. now rewrite put_put. }
  split; [exact (Hg3 z)|]. subst z y. rewrite relax_if_voting_eq, stay_awake_eq. split; [done|]. split.
  - cbn [fst]. rewrite active_bit_clear; [now rewrite Z.eqb_refl| |done|done].
    change (length (active_client_bitmask (pm_clk_scaling c3)) = 2%nat). rewrite (proj2 Hcore).
    cbn [pm_clk_scaling c2 set_scaling_work]. now rewrite mask_len_set.
  - cbn. rewrite Hsk. unfold is_apps. cbn. intros Hg. now rewrite bool_decide_eq_true_2.
Qed.

(** C33: why a second call on a client is excluded while another has released
    its lock, in any reachable state and for a client that votes.  When
    ipa_pm_deactivate_sync has released the clocks of an active client, which
    gates them if no one else holds them, but not yet set the state, an
    asynchronous activation returns 0 without taking them; the client is then
    deactivated.  When the timer has deactivated the client but not yet
    released the clocks, an activation returns 0, and then the timer takes the
    bit in the mask of active clients and the wake source away from the
    activated client. *)
Theorem pm_release_windows max_pipes mapping client_max p m h cl gate :
  w_reaches max_pipes mapping client_max p m ->
  w_client m h = Some cl -> w_stage m h = Free -> cl_skip_clk_vote cl = false ->
  gsi_quiet gate = true ->
  let c := fst (w_pm m) in let k := snd (w_pm m) in
  (IPA_PM_STATE_ACTIVE (cl_state cl) = true ->
   exists cl1 s1 s2 s3 cl2 cl3,
     deactivate_part cl = (cl1, [ClkPut; Relax; Deactivated; CancelTimer; ClearBit]) /\
     run_rest gate h [ClkPut; Relax] (put_client h cl1 c, k) = Done s1 /\
     ipa_pm_activate h s1 = Done (Return (0, s2)) /\
     get_client (fst s2) h = Some cl2 /\ IPA_PM_STATE_ACTIVE (cl_state cl2) = true /\
     (active_cnt k = 1 -> tag_process_before_gating k = false -> suspend_apps_pipes gate = 0 ->
      ipa_clk_vote (snd s2) = 0) /\
     run_rest gate h [Deactivated; CancelTimer; ClearBit] s2 = Done s3 /\
     get_client (fst s3) h = Some cl3 /\ cl_state cl3 = IPA_PM_DEACTIVATED) /\
  (cl_state cl = IPA_PM_ACTIVATED_PENDING_DEACTIVATION ->
   exists cl1 s1 s2 cl2,
     timer_part cl = (cl1, [ClkPut; Relax; ClearBit]) /\
     ipa_pm_activate h (put_client h cl1 c, k) = Done (Return (0, s1)) /\
     run_rest gate h [ClkPut; Relax; ClearBit] s1 = Done s2 /\
     get_client (fst s2) h = Some cl2 /\ cl_state cl2 = IPA_PM_ACTIVATED /\
     active_bit (fst s2) h = false /\ (cl_group cl2 = IPA_PM_GROUP_APPS -> cl_wlock cl2 = false)).
Proof.
  intros Hr Hc Hf Hsk Hq c k. pose proof (w_reaches_ok _ _ _ _ _ Hr) as Hm.
  pose proof (wo_len _ Hm) as Hl. pose proof (wo_mask _ Hm) as Hml. pose proof (wo_clk _ Hm) as Hk. fold c k in Hl, Hk, Hml.
  destruct (client_slot m h cl Hm Hc) as (Hh & Hcl & _).
  assert (Hpos : IPA_PM_STATE_ACTIVE (cl_state cl) = true -> 0 < w_others m + w_refs m).
  { intros Ha. destruct (slot_counts m h cl Hm Hc) as [Hs _]. rewrite Hf in Hs.
    unfold slot_refs, stage_refs in Hs. cbn in Hs. rewrite Ha, Hsk in Hs. cbn in Hs.
    pose proof (wo_others _ Hm). lia. }
  split.
  - intros Ha. exact (deactivation_window gate h c k cl _ _ Hl Hc Hk (Hpos Ha) Hsk Ha Hq).
  - intros Hst. apply (timer_window gate h c k cl _ _ Hl Hml Hc Hk); [|done..].
    apply Hpos. now rewrite Hst.
Qed.

Lemma pm_release_windows_witness :
  exists m cl1 s1 s2, w_reaches 36 id 10 ex_params m /\
    run_rest quiet 1 [ClkPut; Relax] (put_client 1 cl1 (fst (w_pm m)), snd (w_pm m)) = Done s1 /\
    ipa_pm_activate 1 s1 = Done (Return (0, s2)) /\ ipa_clk_vote (snd s2) = 0.
Proof.
  destruct windows_pending as (m & cl & Hr & Hc & Hf & (Est & _ & _ & _ & _ & _ & Hsk & _) & _ & Hcnt & Htag).
  destruct (pm_release_windows 36 id 10 ex_params m 1 cl quiet Hr Hc Hf Hsk eq_refl) as [Ha _].
  destruct Ha as (cl1 & s1 & s2 & s3 & cl2 & cl3 & _ & H1 & H2 & _ & _ & Hv & _); [now rewrite Est|].
  exists m, cl1, s1, s2. repeat (split; [done|]). now apply Hv.
Defined.
