(* ===== verification/IpaPmExceptions.v ===== *)
(** The exceptions of the power manager: which clients an exception of the
    clock scaling waits for, and when it is in force.  Every operation but
    registration and deregistration leaves the names of the clients and the
    exceptions alone ([same_regs]). *)
From stdpp Require Import strings.
From S2P Require Import Prelude.
From S2P Require Import IpaMemDesc.
From S2P Require Import IpaClk.
From S2P Require Import IpaPm.
From S2P Require Import IpaPmApi.
From S2P Require Import IpaPmInv.
From S2P Require Import IpaPmSteps.
From S2P Require Import IpaPmMachine.
From S2P Require Import IpaPmThms.

(** ** Operations that keep names and exceptions *)
Definition names (c : ipa_pm_ctx) (h : Z) : option string := cl_name <$> get_client c h.

Definition same_regs (c c' : ipa_pm_ctx) : Prop :=
  exception_list (pm_clk_scaling c') = exception_list (pm_clk_scaling c) /\
  exception_size (pm_clk_scaling c') = exception_size (pm_clk_scaling c) /\
  forall h, names c' h = names c h.
#[global] Instance same_regs_refl : Reflexive same_regs.
Proof. now intros c. Qed.
#[global] Instance same_regs_trans : Transitive same_regs.
Proof. intros a b c (? & ? & H) (? & ? & H'). split; [congruence|]. split; [congruence|]. intros h. now rewrite H'. Qed.

Lemma regs_put c h cl cl' :
  get_client c h = Some cl -> cl_name cl' = cl_name cl -> same_regs c (put_client h cl' c).
Proof.
  intros Hc Hn. split; [done|]. split; [done|]. intros j. unfold names, get_client, put_client. cbn.
  pose proof (get_client_lookup _ _ _ Hc) as Hl.
  rewrite zlookup_insert_cases by eauto using zlookup_lt. case_test; [subst|done].
  rewrite Hl. cbn. congruence.
Qed.

Lemma regs_put_put c h cl cl1 cl2 :
  get_client c h = Some cl -> cl_name cl2 = cl_name cl ->
  same_regs c (put_client h cl2 (put_client h cl1 c)).
Proof. intros. rewrite put_put. eauto using regs_put. Qed.

Lemma regs_scaled c c' : scaled c c' -> same_regs c c'.
Proof. now intros (? & ? & ? & ->). Qed.
Lemma regs_activate h c : same_regs c (activate_client h c).
Proof. now split. Qed.
Lemma regs_deactivate h c : same_regs c (deactivate_client h c).
Proof. now split. Qed.
Lemma regs_notify h ev c : same_regs c (notify h ev c).
Proof. now split. Qed.
Lemma regs_work b c : same_regs c (set_scaling_work b c).
Proof. now split. Qed.
Lemma regs_tput a g c : same_regs c (set_tput a g c).
Proof. now split. Qed.

Lemma regs_scaling c k r c' k' : do_clk_scaling (c, k) = Done (r, (c', k')) -> same_regs c c'.
Proof. intros. eapply regs_scaled, do_clk_scaling_scaled; eauto. Qed.
Lemma regs_clk_put gate cl c k c' k' : clk_put gate cl (c, k) = Done (c', k') -> same_regs c c'.
Proof. intros. eapply regs_scaled, clk_put_scaled; eauto. Qed.

Lemma name_stay_awake cl : cl_name (stay_awake cl) = cl_name cl.
Proof. now rewrite stay_awake_eq. Qed.
Lemma name_relax_if_voting cl : cl_name (relax_if_voting cl) = cl_name cl.
Proof. now rewrite relax_if_voting_eq. Qed.
Lemma name_stay_awake_if_voting cl : cl_name (stay_awake_if_voting cl) = cl_name cl.
Proof. now rewrite stay_awake_if_voting_eq. Qed.
#[local] Hint Resolve regs_put_put regs_activate regs_deactivate regs_notify regs_work regs_tput : ipa.

(** Steps backwards through a computation, then forwards through what it did
    to the context. *)
Ltac regs_inv :=
  repeat match goal with
  | H : Done _ = Done _ |- _ => injection H; clear H; intros; subst
  | H : mbind _ _ = Done _ |- _ =>
      let E := fresh "E" in apply bind_Done in H as (? & E & H)
  | H : deref _ = Done _ |- _ => unfold deref in H; case_match; simplify_eq
  | p : _ * _ |- _ => destruct p; cbn [fst snd] in *
  | p : pm_sys |- _ => destruct p; cbn [fst snd] in *
  | H : do_clk_scaling _ = Done _ |- _ => apply regs_scaling in H
  | H : clk_put _ _ _ = Done _ |- _ => apply regs_clk_put in H
  end.
Ltac regs_name :=
  cbn; rewrite ?name_stay_awake, ?name_relax_if_voting; cbn;
  rewrite ?name_stay_awake_if_voting; reflexivity.
Ltac regs_put := first [reflexivity | eapply regs_put; [eassumption|regs_name]
                       | eapply regs_put_put; [eassumption|regs_name]].
Ltac regs_chain :=
  repeat first
    [ regs_put
    | match goal with H : same_regs _ ?c |- same_regs _ ?c => etransitivity; [|exact H]; clear H end
    | match goal with
      | |- same_regs _ (activate_client _ _) => etransitivity; [|apply regs_activate]
      | |- same_regs _ (deactivate_client _ _) => etransitivity; [|apply regs_deactivate]
      | |- same_regs _ (notify _ _ _) => etransitivity; [|apply regs_notify]
      | |- same_regs _ (set_scaling_work _ _) => etransitivity; [|apply regs_work]
      | |- same_regs _ (set_tput _ _ _) => etransitivity; [|apply regs_tput]
      end].

Ltac regs_done := regs_inv; cbn [fst]; regs_chain.

Lemma regs_activate_work gate h s s' :
  activate_work_func gate h s = Done s' -> same_regs (fst s) (fst s').
Proof.
  destruct s as [c k]. unfold activate_work_func.
  destruct (get_client c h) as [cl|] eqn:Hc; [|done]. cbn [deref mbind exec_bind fst].
  destruct (cl_state _); cbv zeta iota beta; cbn [cl_callback complete_all cl_set_works];
    try destruct (cl_callback _); intros H; regs_done.
Qed.

Lemma regs_timer gate h s s' :
  delayed_deferred_deactivate_work_func gate h s = Done s' -> same_regs (fst s) (fst s').
Proof.
  destruct s as [c k]. unfold delayed_deferred_deactivate_work_func.
  destruct (get_client c h) as [cl|] eqn:Hc; [|done]. cbn [deref mbind exec_bind fst].
  destruct (cl_state _); intros H; regs_done.
Qed.

Lemma regs_scaling_work s s' : clock_scaling_func s = Done s' -> same_regs (fst s) (fst s').
Proof. destruct s as [c k]. unfold clock_scaling_func. intros H. regs_done. Qed.

Lemma regs_finish sync h cl cl0 c k r s' :
  get_client c h = Some cl0 -> cl_name cl = cl_name cl0 ->
  activate_finish sync h cl (c, k) = Done (r, s') -> same_regs c (fst s').
Proof.
  intros Hc Hn. unfold activate_finish.
  assert (Hp : same_regs c (put_client h (stay_awake (cl_set_state IPA_PM_ACTIVATED cl)) c)).
  { eapply regs_put; [exact Hc|]. rewrite name_stay_awake. exact Hn. }
  destruct sync; intros H; regs_done; exact Hp.
Qed.

Lemma regs_switch sync h cl s a :
  get_client (fst s) h = Some cl -> activate_switch sync h cl s = Done a ->
  same_regs (fst s) (fst (match a with ActReturn _ s => s | ActEnable s => s end)).
Proof.
  destruct s as [c k]. cbn [fst]. intros Hc. unfold activate_switch.
  destruct (cl_state cl); try (intros [= <-]; cbn; regs_chain; fail).
  case_test; [intros [= <-]; cbn; regs_chain|].
  destruct (if negb (cl_skip_clk_vote cl) then _ else _) as [result k'].
  case_test; [|intros [= <-]; cbn; regs_chain].
  intros H. apply bind_Done in H as ([r s'] & E' & [= <-]). eapply regs_finish; eauto.
Qed.

Lemma regs_enable h s r s' : activate_enable h s = Done (r, s') -> same_regs (fst s) (fst s').
Proof.
  destruct s as [c k]. unfold activate_enable.
  destruct (get_client c h) as [cl|] eqn:Hc; [|done]. cbn [deref mbind exec_bind fst].
  eapply regs_finish; eauto.
Qed.

Lemma regs_activate_async h s r s' :
  ipa_pm_activate h s = Done (Return (r, s')) -> same_regs (fst s) (fst s').
Proof.
  destruct s as [c k]. unfold ipa_pm_activate, with_client, ipa_pm_activate_helper. cbn [fst].
  case_test; [now intros [= <- <-]|]. destruct (get_client c h) as [cl|] eqn:Hc; [|now intros [= <- <-]].
  rewrite andb_true_r. destruct (IPA_PM_STATE_IN_PROGRESS _); [intros [= <- <-]; cbn; regs_chain|].
  destruct (must_wait cl); [done|]. unfold activate_run. intros H.
  apply bind_Done in H as (a & H & [= ->]). apply bind_Done in H as ([r1 s1|[c1 k1]] & H1 & H).
  - injection H as -> ->. exact (regs_switch _ _ _ (c, k) _ Hc H1).
  - pose proof (regs_switch _ _ _ (c, k) _ Hc H1) as R1. cbn [fst] in R1.
    etransitivity; [exact R1|exact (regs_enable _ _ _ _ H)].
Qed.

Lemma regs_deferred h s r s' : ipa_pm_deferred_deactivate h s = (r, s') -> same_regs (fst s) (fst s').
Proof.
  destruct s as [c k]. unfold ipa_pm_deferred_deactivate, with_client. cbn [fst].
  case_test; [now intros [= <- <-]|]. destruct (get_client c h) as [cl|] eqn:Hc; [|now intros [= <- <-]].
  destruct (cl_state cl); intros [= <- <-]; cbn; regs_chain.
Qed.

Lemma regs_deferred_one gate h s r s' :
  deactivate_deferred_one gate h s = Done (Return (r, s')) -> same_regs (fst s) (fst s').
Proof.
  destruct s as [c k]. unfold deactivate_deferred_one. cbn [fst].
  destruct (get_client c h) as [cl|] eqn:Hc; [|now intros [= <- <-]].
  destruct (IPA_PM_STATE_IN_PROGRESS _).
  - destruct (must_wait _); [done|]. intros [= <- <-]. cbn. regs_chain.
  - destruct (cl_state _); intros H; regs_done; injection H; intros; subst; cbn [fst]; regs_chain.
Qed.

Lemma regs_post gate h cl c k r s' :
  get_client c h = Some cl -> deactivate_post gate h cl (c, k) = Done (r, s') ->
  same_regs c (fst s').
Proof.
  intros Hc. unfold deactivate_post. case_match; [now intros [= <- <-]|].
  intros H'. apply bind_Done in H' as ([c1 k1] & E1 & H').
  pose proof (scaled_client _ _ h (clk_put_scaled _ _ _ _ _ _ E1)) as G1. apply regs_clk_put in E1.
  assert (R : same_regs c (put_client h (relax_if_voting cl) c)) by regs_chain.
  pose proof (proj2 (proj2 R) h) as Hn. unfold names in Hn. rewrite Hc in Hn.
  destruct (get_client c1 h) as [cl1|] eqn:Hc1; [|done]. cbn [deref mbind exec_bind] in H'.
  regs_inv. etransitivity; [exact R|]. etransitivity; [exact E1|].
  cbn [fst]. etransitivity; [|exact E]. etransitivity; [|apply regs_deactivate].
  eapply regs_put; [exact Hc1|reflexivity].
Qed.

Lemma regs_deactivate_sync gate h s r :
  ipa_pm_deactivate_sync gate h s = Done r ->
  same_regs (fst s) (fst (match r with Wait s => s | Return (_, s) => s end)).
Proof.
  destruct s as [c k]. intros H.
  destruct (deactivate_sync_cases gate h c k) as [E|(cl & Hc & [[_ E]|[_ E]])]; rewrite E in H.
  - now injection H as <-.
  - injection H as <-. cbn. regs_chain.
  - apply bind_Done in H as ([r' s'] & H & [= <-]).
    assert (R : same_regs c (put_client h (cancel_deactivate_work cl) c)) by regs_chain.
    etransitivity; [exact R|]. eapply regs_post; [|exact H].
    unfold get_client, put_client. cbn. pose proof (get_client_lookup _ _ _ Hc) as Hl.
    now rewrite zlookup_insert_eq by eauto using zlookup_lt.
Qed.

Lemma regs_set_throughput h t s r s' :
  ipa_pm_set_throughput h t s = Done (r, s') -> same_regs (fst s) (fst s').
Proof.
  destruct s as [c k]. unfold ipa_pm_set_throughput, with_client. cbn [fst].
  case_test; [now intros [= <- <-]|]. destruct (get_client c h) as [cl|] eqn:Hc; [|now intros [= <- <-]].
  case_test; [now intros [= <- <-]|]. case_bool_decide; case_test; intros H'; regs_done.
Qed.

Lemma regs_suspend max_pipes mask idx c :
  same_regs c (snd (ipa_pm_handle_suspend max_pipes mask idx c)).
Proof.
  unfold ipa_pm_handle_suspend. case_test; [done|]. cbn [snd].
  generalize (seq 0 (Z.to_nat IPA_EP_PER_REG)). intros l.
  assert (H : forall acc, same_regs c (fst acc) ->
    same_regs c (fst (foldl (suspend_pipe mask (u32 (idx * 32)) max_pipes) acc l))).
  { induction l as [|i l IH]; intros acc Ha; [done|]. cbn [foldl]. apply IH.
    destruct acc as [c1 notified]. unfold suspend_pipe. cbn [fst] in *.
    case_test; [done|]. destruct (zlookup _ _) as [[h|]|]; [|done..].
    destruct (get_client c1 h); [|done]. case_test; [|done].
    etransitivity; [exact Ha|apply regs_notify]. }
  now apply H.
Qed.

Lemma regs_associate mapping maxc h consumer c r c' :
  ipa_pm_associate_ipa_cons_to_client mapping maxc h consumer c = Done (r, c') -> same_regs c c'.
Proof.
  unfold ipa_pm_associate_ipa_cons_to_client. case_test; [now intros [= <- <-]|].
  destruct (get_client c h); [|now intros [= <- <-]]. case_test; [now intros [= <- <-]|].
  destruct (zlookup _ _) as [[|]|]; cbn; [| |done]; now intros [= <- <-].
Qed.

Lemma regs_clocks s s' : clk_step s s' -> same_regs (fst (shared s)) (fst (shared s')).
Proof.
  intros [->| ->]%clk_step_listener; [done|]. unfold pm_set_clock_index, pm_clk_listener.
  unfold ipa_pm_set_clock_index. now cbn.
Qed.

(** Steps other than registration and deregistration. *)
Definition registry_step (max_pipes : Z) (m m' : pm_machine) : Prop :=
  (exists e p r c', ipa_pm_register max_pipes e p (fst (pm m)) = Done (r, c') /\ fst (pm m') = c') \/
  (exists h cl r c', get_client (fst (pm m)) h = Some cl /\
     deregister_post max_pipes h cl (fst (pm m)) = (r, c') /\ fst (pm m') = c').

Lemma step_regs max_pipes mapping client_max m m' :
  pm_step max_pipes mapping client_max m m' ->
  same_regs (fst (pm m)) (fst (pm m')) \/ registry_step max_pipes m m'.
Proof.
  intros [Hstep|[Hstep|Hstep]]; destruct Hstep; cbn [pm set_pm set_enabling stop_waiting set_waiting set_others fst].
  all: try (left; eauto using regs_associate, regs_activate_async, regs_deferred, regs_set_throughput,
    regs_deferred_one, regs_enable, regs_activate_work, regs_timer, regs_scaling_work; fail).
  - right. left. now exists e, p, r, c'.
  - left. match type of H with ?x = _ => change c' with (snd (r, c')); rewrite <- H; apply regs_suspend end.
  - left. destruct (pm m), s'. eapply regs_scaling; eauto.
  - now left.
  - left. exact (regs_deactivate_sync _ _ _ _ H0).
  - left. exact (regs_switch _ _ _ _ _ H H1).
  - left. exact (regs_switch _ _ _ _ _ H H1).
  - left. exact (regs_deactivate_sync _ _ _ _ H2).
  - left. destruct (pm m) as [c k]. eapply regs_post; eauto.
  - right. right. now exists h, cl, r, c'.
  - left. exact (regs_clocks _ _ H).
Qed.

(** ** Masks of two words *)
Definition narrow (l : list Z) : Prop :=
  forall i n, 32 <= n -> Z.testbit (mask_word l i) n = false.

Lemma high_bit h n : mask_bit h -> 32 <= n -> Z.testbit (ipahal_get_ep_bit h) n = false.
Proof.
  intros Hh Hn. rewrite ep_bit_eq by (destruct Hh; done).
  destruct (cell_range h Hh). rewrite Z.pow2_bits_eqb by lia. zb. lia.
Qed.

Lemma narrow_insert l i w :
  narrow l -> (forall n, 32 <= n -> Z.testbit w n = false) -> narrow (zinsert i w l).
Proof.
  intros Hl Hw j n Hn. unfold mask_word. destruct (decide (i = j)) as [<-|].
  - destruct (zlookup (zinsert i w l) i) as [x|] eqn:E; cbn; [|apply Z.testbit_0_l].
    pose proof (zlookup_lt _ _ _ E) as Hlt. rewrite zlength_insert in Hlt.
    rewrite zlookup_insert_eq in E by done. injection E as <-. auto.
  - rewrite zlookup_insert_ne by done. now apply Hl.
Qed.

Lemma narrow_set l h idx :
  narrow l -> mask_bit h -> narrow (zinsert idx (Z.lor (mask_word l idx) (ipahal_get_ep_bit h)) l).
Proof.
  intros Hl Hh. apply narrow_insert; [done|]. intros n Hn.
  now rewrite Z.lor_spec, Hl, high_bit.
Qed.
Lemma narrow_clear l idx w :
  narrow l -> narrow (zinsert idx (Z.land (mask_word l idx) w) l).
Proof.
  intros Hl. apply narrow_insert; [done|]. intros n Hn. now rewrite Z.land_spec, Hl.
Qed.

(** A word of [l] is covered by the same word of [active] if its bits are. *)
Lemma word_covered l active i :
  narrow l -> 0 <= i < 2 ->
  Z.land (mask_word l i) (Z.lnot (mask_word active i)) = 0 <->
  (forall h, mask_bit h -> h / 32 = i -> bit_of l h = true -> bit_of active h = true).
Proof.
  intros Hl Hi. split.
  - intros H0 h Hh <- Hb. unfold bit_of in *. rewrite reg_idx_eq in *.
    destruct (cell_range h Hh).
    apply (f_equal (fun w => Z.testbit w (h mod 32))) in H0.
    rewrite Z.land_spec, Z.lnot_spec, Z.testbit_0_l, Hb in H0 by lia.
    now destruct (Z.testbit (mask_word active _) _).
  - intros H. apply Z.bits_inj'. intros n Hn. rewrite Z.land_spec, Z.lnot_spec, Z.testbit_0_l by lia.
    destruct (decide (n < 32)) as [Hlt|]; [|now rewrite Hl by lia].
    assert (Hq : (32 * i + n) / 32 = i) by (symmetry; apply (Z.div_unique_pos _ 32 i n); lia).
    assert (Hr : (32 * i + n) mod 32 = n) by (symmetry; apply (Z.mod_unique_pos _ 32 i n); lia).
    specialize (H (32 * i + n) ltac:(unfold mask_bit; lia) Hq).
    unfold bit_of in H. rewrite reg_idx_eq, Hq, Hr in H.
    destruct (Z.testbit (mask_word l i) n); [now rewrite H|done].
Qed.

(** The test of set_current_threshold. *)
Lemma exception_passes_iff active ex :
  narrow (ex_bitmask ex) ->
  exception_passes active ex = true <->
  ex_pending ex = 0 /\ forall h, mask_bit h -> bit_of (ex_bitmask ex) h = true -> bit_of active h = true.
Proof.
  intros Hn. unfold exception_passes. rewrite !andb_true_iff, !Z.eqb_eq.
  rewrite !word_covered by (done || lia). split.
  - intros [[Hp H0] H1]. split; [done|]. intros h Hh. destruct (cell_range h Hh).
    destruct (decide (h / 32 = 0)); [now apply H0|]. apply H1; [done|lia].
  - intros [Hp H]. split; [split; [done|]|]; intros h Hh _; now apply H.
Qed.

(** How many bits of a mask are set. *)
Definition count_of (f : Z -> bool) (l : list Z) : Z := foldr (fun h n => Z.b2z (f h) + n) 0 l.
Definition members (l : list Z) : Z := count_of (bit_of l) (seqZ 0 64).

Lemma count_cons f x l : count_of f (x :: l) = Z.b2z (f x) + count_of f l.
Proof. reflexivity. Qed.
Lemma count_ext f g l : (forall h, h ∈ l -> f h = g h) -> count_of f l = count_of g l.
Proof.
  induction l as [|x l IH]; intros H; [done|]. rewrite !count_cons, (H x) by (apply elem_of_cons; now left).
  f_equal. apply IH. intros h Hh. apply H. apply elem_of_cons. now right.
Qed.
Lemma count_nonneg f l : 0 <= count_of f l.
Proof. induction l as [|x l IH]; rewrite ?count_cons; [done|]. destruct (f x); cbn; lia. Qed.
Lemma count_upd f h b l :
  NoDup l -> h ∈ l -> count_of (upd_fun h b f) l = count_of f l - Z.b2z (f h) + Z.b2z b.
Proof.
  induction 1 as [|x l Hx Hnd IH]; intros Hin; [now apply elem_of_nil in Hin|].
  rewrite !count_cons. apply elem_of_cons in Hin as [<-|Hin]; unfold upd_fun at 1.
  - rewrite Z.eqb_refl. rewrite (count_ext (upd_fun h b f) f); [lia|].
    intros j Hj. unfold upd_fun. case_test; [congruence|done].
  - case_test; [congruence|]. rewrite IH by done. lia.
Qed.

Lemma members_upd l l' h b :
  mask_bit h -> (forall j, mask_bit j -> bit_of l' j = if h =? j then b else bit_of l j) ->
  members l' = members l - Z.b2z (bit_of l h) + Z.b2z b.
Proof.
  intros Hh Hl. unfold members. rewrite <- (count_upd (bit_of l)).
  - apply count_ext. intros j Hj%elem_of_seqZ. unfold upd_fun. apply Hl. unfold mask_bit. lia.
  - apply NoDup_seqZ.
  - apply elem_of_seqZ. unfold mask_bit in Hh. lia.
Qed.

Lemma map_id_Forall {A} (f : A -> A) l : Forall (fun x => f x = x) l -> map f l = l.
Proof. induction 1; cbn; congruence. Qed.

(** ** An exception and the registered names *)
Record ex_ok (nm : Z -> option string) (ex : ipa_pm_exception_list) : Prop := {
  ex_len : length (ex_bitmask ex) = 2%nat;
  ex_narrow : narrow (ex_bitmask ex);
  ex_bits : forall h, mask_bit h ->
    bit_of (ex_bitmask ex) h = bool_decide (nm h = Some (ex_clients ex));
  ex_range : 0 <= ex_pending ex;
  ex_count : ex_pending ex + members (ex_bitmask ex) = count_commas (ex_clients ex) + 1 }.

#[global] Instance ex_ok_proper : Proper (pointwise_relation Z eq ==> eq ==> iff) ex_ok.
Proof.
  assert (H : forall nm nm' ex, pointwise_relation Z eq nm nm' -> ex_ok nm ex -> ex_ok nm' ex).
  { intros nm nm' ex Hnm [? ? Hb ? ?]. split; auto. intros h Hh. now rewrite <- Hnm, Hb. }
  intros nm nm' Hnm ex ? <-. split; apply H; [done|now symmetry].
Qed.

Definition upd_name (h : Z) (o : option string) (nm : Z -> option string) (j : Z) : option string :=
  if h =? j then o else nm j.

Lemma upd_name_id h nm : pointwise_relation Z eq (upd_name h (nm h) nm) nm.
Proof. intros j. unfold upd_name. case_test; congruence. Qed.
Lemma upd_name_upd h o o' nm : pointwise_relation Z eq (upd_name h o (upd_name h o' nm)) (upd_name h o nm).
Proof. intros j. unfold upd_name. now case_test. Qed.

Lemma strnstr_same s1 s2 n : strnstr s1 s2 n = true -> n = String.length s2 -> String.prefix s2 s1 = true.
Proof.
  intros H ->. destruct s1 as [|a s1], s2 as [|b s2]; cbn [strnstr String.length] in H;
    try done; [now rewrite andb_false_r in H|].
  rewrite (proj2 (Nat.leb_gt (S (String.length s2)) (String.length s2))), andb_false_l, orb_false_r in H by lia.
  apply andb_true_iff in H as [_ H]. exact H.
Qed.
Lemma prefix_length s1 s2 :
  String.prefix s2 s1 = true -> String.length s1 = String.length s2 -> s1 = s2.
Proof.
  revert s2. induction s1 as [|a s1 IH]; intros [|b s2]; try done. cbn.
  destruct (Ascii.ascii_dec b a) as [->|]; [|done]. intros Hp [= Hl]. f_equal. auto.
Qed.
Lemma prefix_refl s : String.prefix s s = true.
Proof. induction s as [|a s IH]; [done|]. cbn. now destruct (Ascii.ascii_dec a a). Qed.

(** The test of add_client_to_exception_list compares whole strings. *)
Lemma ex_names_iff name ex : ex_names name ex = true <-> ex_clients ex = name.
Proof.
  unfold ex_names. rewrite andb_true_iff, Nat.eqb_eq. split.
  - intros [H Hl]. apply prefix_length; [|done]. now apply strnstr_same in H.
  - intros <-. split; [|done]. destruct (ex_clients ex) as [|a s]; [done|].
    cbn [strnstr]. now rewrite prefix_refl, Nat.leb_refl.
Qed.

(** Testing the bit of [h] in its word. *)
Lemma bit_word l h :
  mask_bit h -> negb (Z.land (mask_word l (ipahal_get_ep_reg_idx h)) (ipahal_get_ep_bit h) =? 0) = bit_of l h.
Proof.
  intros Hh. destruct (cell_range h Hh). rewrite ep_bit_eq by (destruct Hh; done). unfold bit_of.
  set (w := mask_word _ _). destruct (Z.testbit w (h mod 32)) eqn:E.
  - apply negb_true_iff, Z.eqb_neq. intros Hz. apply (f_equal (fun x => Z.testbit x (h mod 32))) in Hz.
    rewrite Z.land_spec, E, Z.pow2_bits_true, Z.testbit_0_l in Hz by lia. discriminate.
  - apply negb_false_iff, Z.eqb_eq, Z.bits_inj'. intros n Hn.
    rewrite Z.land_spec, Z.pow2_bits_eqb, Z.testbit_0_l by lia.
    destruct (h mod 32 =? n) eqn:En; zb; [subst n; now rewrite E|apply andb_false_r].
Qed.

Section One.
Context (nm : Z -> option string) (h : Z) (name : string).
Hypothesis (Hh : mask_bit h).

Lemma ex_ok_add ex :
  nm h = None -> ex_ok nm ex -> ex_clients ex = name -> 0 <= ex_pending ex - 1 ->
  ex_ok (upd_name h (Some name) nm)
    (ex_set (ex_pending ex - 1)
       (zinsert (ipahal_get_ep_reg_idx h)
          (Z.lor (mask_word (ex_bitmask ex) (ipahal_get_ep_reg_idx h)) (ipahal_get_ep_bit h))
          (ex_bitmask ex)) ex).
Proof.
  intros Hn [Hl Hna Hb Hr Hc] Hname Hp.
  assert (Hbit : forall j, mask_bit j -> bit_of (zinsert (ipahal_get_ep_reg_idx h)
     (Z.lor (mask_word (ex_bitmask ex) (ipahal_get_ep_reg_idx h)) (ipahal_get_ep_bit h))
     (ex_bitmask ex)) j = if h =? j then true else bit_of (ex_bitmask ex) j).
  { intros j Hj. rewrite bit_set by done. rewrite Z.eqb_sym. now destruct (h =? j). }
  split; cbn.
  - unfold zinsert. case_test; [now rewrite length_insert|done].
  - now apply narrow_set.
  - intros j Hj. rewrite Hbit by done. unfold upd_name. case_test.
    + symmetry. apply bool_decide_eq_true. congruence.
    + now apply Hb.
  - done.
  - rewrite (members_upd _ _ h true Hh Hbit), Hb, bool_decide_false by (done || congruence). cbn. lia.
Qed.

Lemma ex_ok_keep ex :
  nm h = None -> ex_ok nm ex -> ex_clients ex <> name -> ex_ok (upd_name h (Some name) nm) ex.
Proof.
  intros Hn [Hl Hna Hb Hr Hc] Hne. split; try done. intros j Hj. rewrite Hb by done.
  unfold upd_name. case_test; [subst|done]. rewrite Hn. apply bool_decide_ext. split; congruence.
Qed.

Lemma ex_ok_remove ex : ex_ok nm ex -> ex_ok (upd_name h None nm) (remove_from_exception h ex).
Proof.
  intros [Hl Hna Hb Hr Hc]. unfold remove_from_exception.
  rewrite bit_word by done. case_test.
  - assert (Hbit : forall j, mask_bit j -> bit_of (zinsert (ipahal_get_ep_reg_idx h)
      (Z.land (mask_word (ex_bitmask ex) (ipahal_get_ep_reg_idx h)) (Z.lnot (ipahal_get_ep_bit h)))
      (ex_bitmask ex)) j = if h =? j then false else bit_of (ex_bitmask ex) j).
    { intros j Hj. rewrite bit_clear by done. rewrite Z.eqb_sym. now destruct (h =? j). }
    split; cbn.
    + unfold zinsert. case_test; [now rewrite length_insert|done].
    + now apply narrow_clear.
    + intros j Hj. rewrite Hbit by done. unfold upd_name. case_test; [done|now apply Hb].
    + lia.
    + rewrite (members_upd _ _ h false Hh Hbit), E. cbn. lia.
  - split; try done. intros j Hj. rewrite Hb by done. unfold upd_name. case_test; [subst|done].
    now rewrite <- Hb, E by done.
Qed.
End One.

(** Removing a client that is not in an exception, or was just added. *)
Lemma remove_clear h ex : mask_bit h -> bit_of (ex_bitmask ex) h = false -> remove_from_exception h ex = ex.
Proof. intros Hh Hb. unfold remove_from_exception. now rewrite bit_word, Hb. Qed.

Lemma remove_added h ex :
  mask_bit h -> length (ex_bitmask ex) = 2%nat -> bit_of (ex_bitmask ex) h = false ->
  remove_from_exception h (ex_set (ex_pending ex - 1)
    (zinsert (ipahal_get_ep_reg_idx h)
       (Z.lor (mask_word (ex_bitmask ex) (ipahal_get_ep_reg_idx h)) (ipahal_get_ep_bit h))
       (ex_bitmask ex)) ex) = ex.
Proof.
  intros Hh Hl Hb. unfold remove_from_exception. cbn [ex_bitmask ex_pending ex_set].
  rewrite bit_word, bit_set, Z.eqb_refl by done. cbn [orb]. destruct (cell_range h Hh).
  destruct (zlookup_is_Some (ex_bitmask ex) (ipahal_get_ep_reg_idx h)) as [w Hw].
  { rewrite reg_idx_eq. unfold zlength. rewrite Hl. lia. }
  rewrite zinsert_insert. unfold mask_word at 1. rewrite zlookup_insert_eq by eauto using zlookup_lt.
  unfold bit_of, mask_word in *. rewrite Hw in *. cbn [default] in *. destruct ex as [cls pend mask th].
  unfold ex_set. cbn in *. f_equal; [lia|]. etransitivity; [|exact (zinsert_id _ _ _ Hw)]. f_equal.
  rewrite ep_bit_eq by (destruct Hh; done). apply Z.bits_inj'. intros n Hn.
  rewrite Z.land_spec, Z.lor_spec, Z.lnot_spec, Z.pow2_bits_eqb by lia.
  destruct (h mod 32 =? n) eqn:E; zb; [subst n; now rewrite Hb, andb_false_r|].
  now rewrite orb_false_r, andb_true_r.
Qed.

(** Adding a client to all exceptions: it is added to those that name it, or
    one of them is full; removing it undoes what was done. *)
Lemma add_to_exceptions_ok nm h name l :
  mask_bit h -> nm h = None -> Forall (ex_ok nm) l ->
  let '(r, l') := add_to_exceptions name h l in
  ex_clients <$> l' = ex_clients <$> l /\ map (remove_from_exception h) l' = l /\
  (r = 0 /\ Forall (ex_ok (upd_name h (Some name) nm)) l' \/ r = - EPERM).
Proof.
  intros Hh Hn Hl.
  assert (Hclear : forall ex, ex_ok nm ex -> bit_of (ex_bitmask ex) h = false).
  { intros ex Hex. rewrite (ex_bits _ _ Hex) by done. apply bool_decide_false. congruence. }
  assert (Hrest : map (remove_from_exception h) l = l).
  { apply map_id_Forall. eapply Forall_impl; [exact Hl|]. intros ex Hex. apply remove_clear; auto. }
  induction Hl as [|ex l Hex Hl IH]; cbn [add_to_exceptions]; [auto|].
  cbn [map] in Hrest. injection Hrest as Hex1 Hrest. specialize (IH Hrest).
  destruct (ex_names name ex) eqn:En.
  - apply ex_names_iff in En. case_test.
    + assert (ex_set 0 (ex_bitmask ex) ex = ex) as ->.
      { pose proof (ex_range _ _ Hex). destruct ex. cbn in *. unfold ex_set. cbn. f_equal. lia. }
      cbn [map]. rewrite Hex1, Hrest. auto.
    + destruct (add_to_exceptions name h l) as [r l'] eqn:E'. destruct IH as (Hcl & Hrm & IH).
      split; [now rewrite !fmap_cons, Hcl|]. cbn [map].
      rewrite remove_added, Hrm by (try apply (ex_len _ _ Hex); auto). split; [done|].
      destruct IH as [[-> IH]|IH]; [left|auto]. split; [done|]. constructor; [|done].
      exact (ex_ok_add nm h name Hh ex Hn Hex En E).
  - assert (Hne : ex_clients ex <> name).
    { intros Heq. apply ex_names_iff in Heq. congruence. }
    destruct (add_to_exceptions name h l) as [r l'] eqn:E'. destruct IH as (Hcl & Hrm & IH).
    split; [now rewrite !fmap_cons, Hcl|]. cbn [map]. rewrite Hex1, Hrm. split; [done|].
    destruct IH as [[-> IH]|IH]; [left|auto]. split; [done|]. constructor; [|done].
    exact (ex_ok_keep nm h name Hh ex Hn Hex Hne).
Qed.

(** ** The invariant *)
Definition used_exceptions (c : ipa_pm_ctx) : list ipa_pm_exception_list :=
  take (Z.to_nat (exception_size (pm_clk_scaling c))) (exception_list (pm_clk_scaling c)).

Record regs_ok (c : ipa_pm_ctx) : Prop := {
  ro_exceptions : Forall (ex_ok (names c)) (used_exceptions c);
  ro_unique : forall h j n, names c h = Some n -> names c j = Some n ->
    (String.length n < 63)%nat -> h = j }.

Lemma regs_ok_same c c' : same_regs c c' -> regs_ok c -> regs_ok c'.
Proof.
  intros (E1 & E2 & En) [Hex Hu]. split.
  - unfold used_exceptions in *. rewrite E1, E2. eapply Forall_impl; [exact Hex|].
    intros ex. now rewrite (ex_ok_proper (names c') (names c) En ex ex eq_refl).
  - intros h j n. rewrite !En. eauto.
Qed.

Lemma names_set_slot c h o j :
  0 <= h < zlength (pm_clients c) ->
  names (set_clients (zinsert h o (pm_clients c)) c) j = upd_name h (cl_name <$> o) (names c) j.
Proof.
  intros Hh. unfold names, upd_name, get_client. cbn. rewrite zlookup_insert_cases by done.
  now destruct (h =? j).
Qed.

(** An update of the exceptions in use. *)
Lemma used_on_exceptions f c :
  length (snd (f (used_exceptions c))) = length (used_exceptions c) ->
  used_exceptions (snd (on_exceptions f c)) = snd (f (used_exceptions c)) /\
  fst (on_exceptions f c) = fst (f (used_exceptions c)) /\
  (forall h, names (snd (on_exceptions f c)) h = names c h).
Proof.
  intros Hf. unfold on_exceptions. fold (used_exceptions c).
  destruct (f (used_exceptions c)) as [r l]. cbn in *. split; [|done].
  unfold used_exceptions in *. cbn. rewrite length_take in Hf.
  rewrite take_app, take_ge by lia.
  destruct (decide (Z.to_nat (exception_size (pm_clk_scaling c)) <= length (exception_list (pm_clk_scaling c)))%nat).
  - replace (_ - length l)%nat with O by lia. now rewrite app_nil_r.
  - rewrite drop_ge by lia. now rewrite take_nil, app_nil_r.
Qed.

Lemma substring_short n : forall s, (String.length (String.substring 0 n s) < n)%nat -> String.substring 0 n s = s.
Proof.
  induction n as [|n IH]; intros [|a s] H; cbn in H |- *; try done; try lia.
  f_equal. apply IH. lia.
Qed.
Lemma strlcpy_short s :
  (String.length (fst (strlcpy s IPA_PM_MAX_EX_CL)) < 63)%nat -> fst (strlcpy s IPA_PM_MAX_EX_CL) = s.
Proof. exact (substring_short 63 s). Qed.

Lemma names_put c h cl j :
  0 <= h < zlength (pm_clients c) ->
  names (put_client h cl c) j = upd_name h (Some (cl_name cl)) (names c) j.
Proof. intros Hh. unfold put_client. now rewrite (names_set_slot c h (Some cl)). Qed.

Lemma regs_ok_remove h c c' :
  mask_bit h -> regs_ok c ->
  (forall j, names c' j = upd_name h None (names c) j) ->
  used_exceptions c' = map (remove_from_exception h) (used_exceptions c) -> regs_ok c'.
Proof.
  intros Hh [Hex Hu] Hn Hused. split.
  - rewrite Hused. apply Forall_fmap. eapply Forall_impl; [exact Hex|]. intros ex Hok. cbn.
    rewrite (ex_ok_proper _ _ Hn _ _ eq_refl). now apply ex_ok_remove.
  - intros i j n. rewrite !Hn. unfold upd_name. repeat case_test; try done. eauto.
Qed.

(** Releasing the slot of a client and its place in the exceptions. *)
Definition released (max_pipes h : Z) (c : ipa_pm_ctx) : ipa_pm_ctx :=
  snd (remove_client_from_exception_list h
    (set_clients (zinsert h None (pm_clients c)) (set_pipes (clear_pipes max_pipes h (pm_clients_by_pipe c)) c))).

Lemma released_regs max_pipes h c :
  0 <= h < zlength (pm_clients c) ->
  (forall j, names (released max_pipes h c) j = upd_name h None (names c) j) /\
  used_exceptions (released max_pipes h c) = map (remove_from_exception h) (used_exceptions c).
Proof.
  intros Hh. unfold released, remove_client_from_exception_list.
  match goal with |- context [on_exceptions ?f ?x] =>
    destruct (used_on_exceptions f x ltac:(apply length_map)) as (E1 & _ & E2) end.
  split; [|exact E1]. intros j. rewrite E2. exact (names_set_slot _ h None j Hh).
Qed.

Lemma deregister_post_cases max_pipes h cl c :
  deregister_post max_pipes h cl c =
  if IPA_PM_STATE_ACTIVE (cl_state cl) then (- EPERM, c) else (0, released max_pipes h c).
Proof.
  unfold deregister_post, released. case_test; [done|].
  destruct (remove_client_from_exception_list _ _); done.
Qed.

Lemma undo_released max_pipes h cl c :
  valid_hdl h -> get_client c h = Some cl -> cl_state cl = IPA_PM_DEACTIVATED ->
  undo_register max_pipes h c = released max_pipes h c.
Proof.
  intros Hh Hc Hd. unfold undo_register, ipa_pm_deregister, with_client. unfold valid_hdl in Hh. tests.
  rewrite Hc. unfold must_wait. rewrite Hd. cbn [IPA_PM_STATE_IN_PROGRESS andb].
  now rewrite deregister_post_cases, Hd.
Qed.

Lemma clients_bound c h : length (pm_clients c) = Z.to_nat IPA_PM_MAX_CLIENTS -> valid_hdl h ->
  0 <= h < zlength (pm_clients c).
Proof. unfold zlength. now intros ->. Qed.

Lemma deregister_regs max_pipes h cl c r c' :
  length (pm_clients c) = Z.to_nat IPA_PM_MAX_CLIENTS -> get_client c h = Some cl ->
  deregister_post max_pipes h cl c = (r, c') -> regs_ok c -> regs_ok c'.
Proof.
  intros Hl Hc. rewrite deregister_post_cases. case_test; intros [= <- <-] Hr; [done|].
  pose proof (get_valid _ _ _ Hl Hc) as Hh.
  destruct (released_regs max_pipes h c (clients_bound _ _ Hl Hh)) as [Hn Hu].
  eapply regs_ok_remove; eauto using valid_mask_bit.
Qed.

(** ** Registration *)

(** The registered clients and the exceptions in use are as before. *)
Definition same_registry (c c' : ipa_pm_ctx) : Prop :=
  (forall h, get_client c' h = get_client c h) /\ used_exceptions c' = used_exceptions c.

Lemma released_client max_pipes h c j :
  0 <= h < zlength (pm_clients c) ->
  get_client (released max_pipes h c) j = if h =? j then None else get_client c j.
Proof.
  intros Hh. unfold released, remove_client_from_exception_list.
  match goal with |- context [on_exceptions ?f ?x] => pose proof (on_exceptions_core f x) as Hcore end.
  rewrite <- Hcore. unfold get_client. cbn. rewrite zlookup_insert_cases by done. now destruct (h =? j).
Qed.

(** Adding the client of an occupied slot to the exceptions, and undoing it. *)
Lemma exceptions_add max_pipes c h cl (nm : Z -> option string) :
  length (pm_clients c) = Z.to_nat IPA_PM_MAX_CLIENTS -> valid_hdl h -> nm h = None ->
  get_client c h = Some cl -> cl_state cl = IPA_PM_DEACTIVATED ->
  Forall (ex_ok nm) (used_exceptions c) ->
  exists r c', add_client_to_exception_list h c = Done (r, c') /\
    (forall j, get_client c' j = get_client c j) /\
    ex_clients <$> used_exceptions c' = ex_clients <$> used_exceptions c /\
    used_exceptions (undo_register max_pipes h c') = used_exceptions c /\
    (forall j, get_client (undo_register max_pipes h c') j = if h =? j then None else get_client c j) /\
    (r = 0 /\ Forall (ex_ok (upd_name h (Some (cl_name cl)) nm)) (used_exceptions c') \/ r = - EPERM).
Proof.
  intros Hl Hh Hn Hc Hd Hex. unfold add_client_to_exception_list. rewrite Hc. cbn [deref mbind exec_bind].
  pose proof (add_to_exceptions_ok nm h (cl_name cl) _ (valid_mask_bit _ Hh) Hn Hex) as Hadd.
  set (f := add_to_exceptions (cl_name cl) h) in *.
  destruct (f (used_exceptions c)) as [r l'] eqn:Ef. destruct Hadd as (Hcl & Hrm & Hr).
  assert (Hlen : length (snd (f (used_exceptions c))) = length (used_exceptions c)).
  { rewrite Ef. cbn. apply (f_equal length) in Hcl. now rewrite !length_fmap in Hcl. }
  destruct (used_on_exceptions f c Hlen) as (Eu & Er & _). pose proof (on_exceptions_core f c) as Hcore.
  rewrite Ef in Eu, Er. cbn in Eu, Er. destruct (on_exceptions f c) as [r1 c']. cbn in *. subst r1.
  assert (G : forall j, get_client c' j = get_client c j) by (intros j; now rewrite <- Hcore).
  assert (Hl' : length (pm_clients c') = Z.to_nat IPA_PM_MAX_CLIENTS) by (destruct Hcore as [-> _]; done).
  exists r, c'. rewrite Eu. do 3 (split; [done|]).
  rewrite (undo_released _ _ cl) by (rewrite ?G; done).
  destruct (released_regs max_pipes h c' (clients_bound _ _ Hl' Hh)) as [_ Hu].
  rewrite Hu, Eu. split; [done|]. split; [|done].
  intros j. rewrite released_client, G by (now apply clients_bound). done.
Qed.

Lemma register_cases max_pipes e p name c :
  length (pm_clients c) = Z.to_nat IPA_PM_MAX_CLIENTS -> regs_ok c -> rp_name p = Some name ->
  let h := find_next_open_array_element name c in
  exists r c', ipa_pm_register max_pipes e (Some p) c = Done (r, Some (u32 h), c') /\
    ((h = - EEXIST \/ h = - ENOBUFS) /\ r = h /\ c' = c \/
     valid_hdl h /\ h <> 0 /\ get_client c h = None /\
     ((r = - ENOMEM \/ r = - EPERM) /\ same_registry c c' \/
      r = 0 /\ (forall j, get_client c' j = if h =? j then Some (new_client p name h) else get_client c j) /\
      ex_clients <$> used_exceptions c' = ex_clients <$> used_exceptions c /\
      Forall (ex_ok (upd_name h (Some (cl_name (new_client p name h))) (names c))) (used_exceptions c') /\
      same_registry c (undo_register max_pipes h c'))).
Proof.
  intros Hl Hr Hp h. unfold ipa_pm_register. rewrite Hp. fold h.
  pose proof (find_slot_cases c name) as Hcases. fold h in Hcases. cbn zeta in Hcases.
  clearbody h. destruct Hcases as [E|[E|(Hh & Hne & Hc)]].
  1,2: rewrite E; do 2 eexists; (split; [reflexivity|]); auto.
  pose proof Hh as Hv. unfold valid_hdl, IPA_PM_MAX_CLIENTS, IPA5_PIPES_NUM in Hv.
  rewrite (u32_small h) by lia.
  replace ((h <? 0) || (h >? IPA_PM_MAX_CLIENTS)) with false
    by (symmetry; apply orb_false_iff; split; [apply Z.ltb_ge; lia|rewrite Z.gtb_ltb; apply Z.ltb_ge;
        unfold IPA_PM_MAX_CLIENTS, IPA5_PIPES_NUM; lia]).
  pose proof (clients_bound _ _ Hl Hh) as Hb. set (cl := new_client p name h).
  assert (G : forall j, get_client (put_client h cl c) j = if h =? j then Some cl else get_client c j)
    by (intros; now apply get_put).
  assert (Gh : get_client (put_client h cl c) h = Some cl) by now rewrite G, Z.eqb_refl.
  assert (Hl1 : length (pm_clients (put_client h cl c)) = Z.to_nat IPA_PM_MAX_CLIENTS)
    by (cbn; unfold zinsert; case_test; [now rewrite length_insert|done]).
  assert (Hnone : forall j, (if h =? j then None else if h =? j then Some cl else get_client c j) = get_client c j)
    by (intros j; case_test; congruence).
  assert (Hn : names c h = None) by (unfold names; now rewrite Hc).
  destruct (exceptions_add max_pipes (put_client h cl c) h cl (names c) Hl1 Hh Hn Gh eq_refl (ro_exceptions _ Hr))
    as (r & c' & Eadd & Gc' & Hcls & Hundo & Gundo & Hres).
  destruct (kzalloc_ok e); cbn [negb].
  2:{ do 2 eexists. split; [reflexivity|]. right. do 3 (split; [done|]). left. split; [auto|]. split; [|done].
      intros j. unfold get_client. cbn. rewrite zlookup_insert_cases by done. case_test; [subst j|done].
      unfold get_client in Hc. now destruct (zlookup (pm_clients c) h) as [[|]|]. }
  destruct (wakeup_source_ok e); cbn [negb].
  2:{ do 2 eexists. split; [reflexivity|]. right. do 3 (split; [done|]). left. split; [auto|].
      rewrite (undo_released _ _ cl) by done. split.
      - intros j. rewrite released_client by (now apply clients_bound). now rewrite G.
      - destruct (released_regs max_pipes h (put_client h cl c) (clients_bound _ _ Hl1 Hh)) as [_ ->].
        apply map_id_Forall. eapply Forall_impl; [exact (ro_exceptions _ Hr)|].
        intros ex Hex. apply remove_clear; [now apply valid_mask_bit|].
        rewrite (ex_bits _ _ Hex) by now apply valid_mask_bit. apply bool_decide_false. congruence. }
  rewrite Eadd. cbn [mbind exec_bind].
  assert (Hsame : same_registry c (undo_register max_pipes h c')).
  { split; [|exact Hundo]. intros j. rewrite Gundo, G. apply Hnone. }
  destruct Hres as [[-> Hok]| ->]; cbn; do 2 eexists; (split; [reflexivity|]); right; do 3 (split; [done|]).
  - right. split; [done|]. split; [intros j; now rewrite Gc', G|]. now split.
  - left. split; [auto|exact Hsame].
Qed.

Lemma names_client c h n : names c h = Some n <-> exists cl, get_client c h = Some cl /\ cl_name cl = n.
Proof.
  unfold names. destruct (get_client c h) as [cl|]; cbn; split; try done.
  - intros [= <-]. eauto.
  - intros (cl' & [= <-] & <-). done.
  - now intros (? & ? & _).
Qed.

Lemma regs_ok_registry c c' : same_registry c c' -> regs_ok c -> regs_ok c'.
Proof.
  intros [G E] [Hex Hu].
  assert (Hn : forall h, names c' h = names c h) by (intros; unfold names; now rewrite G).
  split.
  - rewrite E. eapply Forall_impl; [exact Hex|]. intros ex. now rewrite (ex_ok_proper _ _ Hn ex ex eq_refl).
  - intros h j n. rewrite !Hn. eauto.
Qed.

(** A free slot is only found for a name no registered client has. *)
Lemma find_slot_fresh c name j cl :
  let h := find_next_open_array_element name c in
  valid_hdl h -> 1 <= j < IPA_PM_MAX_CLIENTS -> get_client c j = Some cl -> cl_name cl <> name.
Proof.
  intros h [Hh _] Hj Hc. subst h. unfold find_next_open_array_element in *.
  destruct (find_open_spec c name (Z.to_nat (IPA_PM_MAX_CLIENTS - 1)) (- ENOBUFS)) as [[E _]|[Hne _]].
  - rewrite E in Hh. unfold EEXIST in Hh. lia.
  - eapply Hne; [|exact Hc]. rewrite Z2Nat.id by done. lia.
Qed.

Lemma register_regs max_pipes e p c r c' :
  length (pm_clients c) = Z.to_nat IPA_PM_MAX_CLIENTS -> get_client c 0 = None -> regs_ok c ->
  ipa_pm_register max_pipes e p c = Done (r, c') ->
  regs_ok c' /\ ex_clients <$> used_exceptions c' = ex_clients <$> used_exceptions c.
Proof.
  intros Hl H0 Hr H. destruct p as [p|]; [|now injection H as <- <-].
  destruct (rp_name p) as [name|] eqn:Hp.
  2:{ unfold ipa_pm_register in H. rewrite Hp in H. now injection H as <- <-. }
  destruct (register_cases max_pipes e p name c Hl Hr Hp) as (r' & c1 & E & Hcases).
  rewrite E in H. injection H as _ <-.
  destruct Hcases as [(_ & _ & ->)|(Hh & Hne & Hc & [[_ Hs]|(_ & G & Hcl & Hok & _)])]; [done| |].
  - split; [now apply (regs_ok_registry c)|]. now rewrite (proj2 Hs).
  - split; [|exact Hcl]. set (h := find_next_open_array_element name c) in *.
    assert (Hn : forall j, names c1 j = upd_name h (Some (cl_name (new_client p name h))) (names c) j).
    { intros j. unfold names, upd_name. rewrite G. now case_test. }
    assert (Hfresh : forall j n, h <> j -> names c j = Some n -> n = cl_name (new_client p name h) ->
              (String.length n < 63)%nat -> False).
    { intros j n Hj (cl & Hcl' & Hname)%names_client -> Hlen.
      refine (find_slot_fresh c name j cl Hh _ Hcl' _).
      - pose proof (get_valid _ _ _ Hl Hcl') as [? ?]. pose proof (valid_pos _ _ _ H0 Hcl'). lia.
      - rewrite Hname. now apply strlcpy_short. }
    split.
    + eapply Forall_impl; [exact Hok|]. intros ex. now rewrite (ex_ok_proper _ _ Hn ex ex eq_refl).
    + intros i j n. rewrite !Hn. unfold upd_name. repeat case_test; [congruence| | |now apply (ro_unique _ Hr)].
      * intros [= <-] Hj Hlen. destruct (Hfresh j _ ltac:(done) Hj eq_refl Hlen).
      * intros Hi [= <-] Hlen. destruct (Hfresh i _ ltac:(done) Hi eq_refl Hlen).
Qed.

(** ** Reachable states *)
Definition regs_inv (p : ipa_pm_init_params) (m : pm_machine) : Prop :=
  machine_ok m /\ regs_ok (fst (pm m)) /\
  ex_clients <$> used_exceptions (fst (pm m)) = ex_clients <$> used_exceptions (init_ctx p).

Lemma count_commas_nonneg s : 0 <= count_commas s.
Proof. induction s as [|a s IH]; cbn; [done|]. case_test; lia. Qed.

Lemma regs_init p : ip_exception_size p <= zlength (ip_exceptions p) -> regs_ok (init_ctx p).
Proof.
  intros Hlen.
  assert (Hn : forall h, names (init_ctx p) h = None).
  { intros h. unfold names, get_client, zlookup. cbn [pm_clients init_ctx]. case_test; [|done].
    destruct (replicate _ _ !! _) eqn:E'; [|done]. now apply lookup_replicate in E' as [-> _]. }
  assert (Hz : forall i, mask_word [0; 0] i = 0).
  { intros i. unfold mask_word, zlookup. case_test; [|done]. now destruct (Z.to_nat i) as [|[|]]. }
  split; [|intros h j n; now rewrite Hn].
  unfold used_exceptions. cbn. unfold zlength in Hlen.
  rewrite take_app_length' by (rewrite length_map, length_take; lia).
  apply Forall_fmap, Forall_true. intros e. cbv beta zeta delta [init_exception compose].
  generalize (fst (strlcpy (exc_usecase e) IPA_PM_MAX_EX_CL)). intros s. pose proof (count_commas_nonneg s).
  split; cbn [ex_clients ex_pending ex_bitmask]; try done; try lia.
  - intros i k _. rewrite Hz. apply Z.testbit_0_l.
  - intros h _. unfold bit_of. rewrite Hz, Z.testbit_0_l, Hn. symmetry. now apply bool_decide_false.
  - assert (members [0; 0] = 0) as ->; [|lia]. unfold members.
    rewrite (count_ext _ (fun _ => false)); [reflexivity|].
    intros h _. unfold bit_of. now rewrite Hz, Z.testbit_0_l.
Qed.

Lemma reaches_regs max_pipes mapping client_max p m :
  ip_exception_size p <= zlength (ip_exceptions p) ->
  pm_reaches max_pipes mapping client_max p m -> regs_inv p m.
Proof.
  intros Hlen (e & c & k & o & w & He & Hk & Hr). apply init_inv in He as [-> _].
  refine (rtc_preserve (regs_inv p) _ _ _ Hr _ _).
  - split; [now apply start_ok|]. split; [now apply regs_init|done].
  - intros m1 m2 (Hm & Hreg & Hcl) Hstep. split; [eapply pm_step_ok; eauto|].
    destruct Hm as [(_ & Hp & _) _].
    destruct (step_regs _ _ _ _ _ Hstep) as [Hs|[(e1 & p1 & r & c1 & E & ->)|(h & cl & r & c1 & Hc & E & ->)]].
    + split; [eapply regs_ok_same; eauto|]. rewrite <- Hcl. unfold used_exceptions.
      destruct Hs as (-> & -> & _). done.
    + destruct (register_regs _ _ _ _ _ _ (pm_len _ _ Hp) (pm_slot0 _ _ Hp) Hreg E) as [? ->]. done.
    + split; [eapply deregister_regs; eauto using pm_len|]. rewrite <- Hcl.
      rewrite deregister_post_cases in E. case_test_in E; injection E as _ <-; [done|].
      destruct (released_regs max_pipes h (fst (pm m1))
        (clients_bound _ _ (pm_len _ _ Hp) (get_valid _ _ _ (pm_len _ _ Hp) Hc))) as [_ ->].
      rewrite <- list_fmap_compose. apply list_fmap_ext. intros i ex _.
      cbn. unfold remove_from_exception. now case_test.
Qed.

(** ** Properties *)
Lemma count_le_one f l :
  NoDup l -> (forall h j, h ∈ l -> j ∈ l -> f h = true -> f j = true -> h = j) -> count_of f l <= 1.
Proof.
  induction 1 as [|x l Hx Hnd IH]; intros H; [done|]. rewrite count_cons. destruct (f x) eqn:E; cbn.
  - rewrite (count_ext f (fun _ => false)).
    + clear. induction l as [|y l IH]; [done|]. now rewrite count_cons.
    + intros h Hh. destruct (f h) eqn:Eh; [|done]. exfalso. apply Hx.
      rewrite (H x h); [done|apply elem_of_cons; now left|apply elem_of_cons; now right|done..].
  - apply IH. intros h j Hh Hj. apply H; apply elem_of_cons; now right.
Qed.
Lemma count_pos f l : 0 < count_of f l <-> exists h, h ∈ l /\ f h = true.
Proof.
  induction l as [|x l IH]; [split; [done|intros (? & ?%elem_of_nil & _); done]|].
  rewrite count_cons. pose proof (count_nonneg f l). destruct (f x) eqn:E; cbn.
  - split; [|lia]. intros _. exists x. split; [apply elem_of_cons; now left|done].
  - rewrite Z.add_0_l, IH. split; intros (h & Hh & Ef); exists h; (split; [|done]).
    + apply elem_of_cons. now right.
    + apply elem_of_cons in Hh as [->|]; [congruence|done].
Qed.

Lemma substring_id n : forall s, (String.length s <= n)%nat -> String.substring 0 n s = s.
Proof.
  induction n as [|n IH]; intros [|a s] H; cbn in H |- *; try done; try lia. f_equal. apply IH. lia.
Qed.

Lemma mask_elem h : h ∈ seqZ 0 64 <-> mask_bit h.
Proof. rewrite elem_of_seqZ. unfold mask_bit. lia. Qed.

(** An exception whose name is too short to be truncated. *)
Lemma exception_in_force c en o w k ex :
  sys_ok (c, k) en o w -> regs_ok c -> ex_ok (names c) ex -> (String.length (ex_clients ex) < 63)%nat ->
  exception_passes (active_client_bitmask (pm_clk_scaling c)) ex = true <->
  count_commas (ex_clients ex) = 0 /\
  exists h cl, get_client c h = Some cl /\ cl_name cl = ex_clients ex /\
    IPA_PM_STATE_ACTIVE (cl_state cl) = true.
Proof.
  intros (_ & Hp & _) Hr Hex Hlen. cbn [fst] in Hp.
  rewrite exception_passes_iff by exact (ex_narrow _ _ Hex).
  pose proof (ex_count _ _ Hex) as Hcnt. pose proof (ex_range _ _ Hex) as Hrg.
  pose proof (count_commas_nonneg (ex_clients ex)).
  assert (Hbit : forall h, mask_bit h ->
    bit_of (ex_bitmask ex) h = true <-> names c h = Some (ex_clients ex))
    by (intros h Hh; rewrite (ex_bits _ _ Hex) by done; apply bool_decide_eq_true).
  assert (Hone : members (ex_bitmask ex) <= 1).
  { apply count_le_one; [apply NoDup_seqZ|]. intros h j Hh%mask_elem Hj%mask_elem.
    rewrite !Hbit by done. intros ? ?. eapply (ro_unique _ Hr); eauto. }
  assert (Hact : forall h cl, get_client c h = Some cl ->
    active_bit c h = IPA_PM_STATE_ACTIVE (cl_state cl) /\ mask_bit h).
  { intros h cl Hc. pose proof (get_valid _ _ _ (pm_len _ _ Hp) Hc) as Hh.
    pose proof (pm_slots _ _ Hp h Hh) as Hs. rewrite Hc in Hs. split; [apply Hs|now apply valid_mask_bit]. }
  split.
  - intros [H0 Hall]. split; [lia|].
    destruct (proj1 (count_pos (bit_of (ex_bitmask ex)) (seqZ 0 64))) as (h & Hh%mask_elem & Hb);
      [fold (members (ex_bitmask ex)); lia|].
    pose proof (proj1 (Hbit h Hh) Hb) as (cl & Hc & Hn)%names_client.
    exists h, cl. do 2 (split; [done|]). rewrite <- (proj1 (Hact h cl Hc)). exact (Hall h Hh Hb).
  - intros [H0 (h & cl & Hc & Hn & Ha)]. destruct (Hact h cl Hc) as [Hab Hh].
    assert (Hname : names c h = Some (ex_clients ex)) by (apply names_client; eauto).
    assert (0 < members (ex_bitmask ex)).
    { apply count_pos. exists h. split; [now apply mask_elem|]. now apply Hbit. }
    split; [lia|]. intros j Hj Hb. apply Hbit in Hb; [|done].
    rewrite (ro_unique _ Hr j h _ Hb Hname Hlen). change (active_bit c h = true). congruence.
Qed.


(** "USB" registered and activated. *)
Lemma run_exception :
  exists m ex cl, pm_reaches 36 id 10 ex_params m /\ (used_exceptions (fst (pm m))).[0] = Some ex /\
    get_client (fst (pm m)) 1 = Some cl /\ cl_name cl = "USB"%string /\
    IPA_PM_STATE_ACTIVE (cl_state cl) = true.
Proof.
  do 3 eexists. split.
  - exists ex_env, (init_ctx ex_params), ex_clks, 0, 0. split; [reflexivity|]. split; [apply ex_clks_ok|].
    run (st_register _ _ _ _ ex_renv (Some ex_client) _ _ _).
    run (st_activate _ _ _ _ 1 _ _ _).
    run (st_activate_work _ quiet 1 _ _ _ _ _). apply rtc_refl.
  - repeat split; vm_compute; reflexivity.
Qed.


(** Registering a client with a name in a reachable state
    always returns: -EEXIST when a registered client has the name and
    -ENOBUFS when all slots 1 to 35 are taken, with nothing changed; -ENOMEM
    or -EPERM with the same clients and exceptions as before; or 0 with the
    lowest free slot as the handle, the new client deactivated in it and all
    others as they were, and then ipa_pm_deregister of the handle returns 0
    and restores clients and exceptions. *)
Theorem pm_register_correct max_pipes mapping client_max p m e params name :
  pm_reaches max_pipes mapping client_max p m ->
  ip_exception_size p <= zlength (ip_exceptions p) -> rp_name params = Some name ->
  let c := fst (pm m) in
  exists r hdl c', ipa_pm_register max_pipes e (Some params) c = Done (r, Some hdl, c') /\
  (r = - EEXIST /\ c' = c /\ (exists j cl, get_client c j = Some cl /\ cl_name cl = name) \/
   r = - ENOBUFS /\ c' = c /\ (forall j, 1 <= j < IPA_PM_MAX_CLIENTS -> get_client c j <> None) \/
   (r = - ENOMEM \/ r = - EPERM) /\ same_registry c c' \/
   r = 0 /\ 1 <= hdl < IPA_PM_MAX_CLIENTS /\ get_client c hdl = None /\
   (forall j, 1 <= j < hdl -> get_client c j <> None) /\
   (forall j cl, get_client c j = Some cl -> cl_name cl <> name) /\
   (forall j, get_client c' j = if hdl =? j then Some (new_client params name hdl) else get_client c j) /\
   exists c'', ipa_pm_deregister max_pipes hdl c' = Return (0, c'') /\ same_registry c c'').
Proof.
  intros Hr Hsz Hp c. destruct (reaches_regs _ _ _ _ _ Hsz Hr) as (Hm & Hreg & _).
  destruct (mo_sys _ Hm) as (_ & Hpm & _). fold c in Hpm, Hreg.
  pose proof (pm_len _ _ Hpm) as Hl.
  destruct (register_cases max_pipes e params name c Hl Hreg Hp) as (r & c' & E & Hcases).
  assert (Hspec := find_open_spec c name (Z.to_nat (IPA_PM_MAX_CLIENTS - 1)) (- ENOBUFS)).
  change (find_open c name _ _) with (find_next_open_array_element name c) in Hspec.
  set (h := find_next_open_array_element name c) in *.
  exists r, (u32 h), c'. split; [exact E|]. rewrite Z2Nat.id in Hspec by done.
  assert (Hrange : forall j cl, get_client c j = Some cl -> 1 <= j <= IPA_PM_MAX_CLIENTS - 1).
  { intros j cl Hc. pose proof (get_valid _ _ _ Hl Hc) as [? ?].
    pose proof (valid_pos _ _ _ (pm_slot0 _ _ Hpm) Hc). lia. }
  destruct Hspec as [[Eh (j & cl & Hj & Hc & Hn)]|[Hne [(Hh & Hfree & Hlow)|[Eh Hall]]]];
    destruct Hcases as [([E0|E0] & -> & ->)|(Hv & Hz & Hc' & Hrest)];
    try (rewrite Eh in E0; discriminate E0); try (rewrite E0 in Hh; unfold EEXIST, ENOBUFS in Hh; lia);
    try (rewrite Eh in Hv; destruct Hv as [Hv _]; unfold EEXIST, ENOBUFS in Hv; lia).
  - left. split; [done|]. split; [done|]. eauto.
  - destruct Hrest as [[He Hs]|(-> & G & _ & _ & Hundo)]; [auto|]. right; right; right.
    assert (u32 h = h) as ->
      by (apply u32_small; unfold IPA_PM_MAX_CLIENTS, IPA5_PIPES_NUM in Hh; lia).
    split; [done|]. split; [lia|]. do 2 (split; [done|]). split; [eauto|]. split; [exact G|].
    unfold undo_register in Hundo.
    assert (Gh : get_client c' h = Some (new_client params name h)) by now rewrite G, Z.eqb_refl.
    unfold ipa_pm_deregister, with_client in *. unfold valid_hdl in Hv.
    rewrite Gh in *. revert Hundo. tests. unfold must_wait. cbn [IPA_PM_STATE_IN_PROGRESS cl_state new_client andb].
    rewrite deregister_post_cases. cbn [IPA_PM_STATE_ACTIVE cl_state new_client]. intros Hundo. eauto.
  - right; left. split; [done|]. split; [done|]. intros j Hj. apply Hall. lia.
Qed.

Lemma pm_register_correct_witness :
  exists m c', pm_reaches 36 id 10 ex_params m /\
    ipa_pm_register 36 ex_renv (Some ex_client) (fst (pm m)) = Done (0, Some 1, c').
Proof.
  set (m := pm_start (init_ctx ex_params) ex_clks 0 0).
  assert (Hr : pm_reaches 36 id 10 ex_params m).
  { exists ex_env, (init_ctx ex_params), ex_clks, 0, 0. split; [reflexivity|]. split; [apply ex_clks_ok|].
    apply rtc_refl. }
  destruct (pm_register_correct 36 id 10 ex_params m ex_renv ex_client "USB" Hr ltac:(discriminate) eq_refl)
    as (r & hdl & c' & E & _).
  exists m, c'. split; [exact Hr|]. rewrite E. vm_compute in E. injection E as <- <- <-. reflexivity.
Defined.
