(* ===== verification/IpaPmScaling.v ===== *)
(** What recomputing the clock plan does, and runs of the power manager on
    single clients. *)
From S2P Require Import Prelude.
From S2P Require Import IpaMemDesc.
From S2P Require Import IpaClk.
From S2P Require Import IpaPm.
From S2P Require Import IpaPmApi.
From S2P Require Import IpaPmThroughput.
From S2P Require Import IpaPmInv.
From S2P Require Import IpaPmSteps.
From S2P Require Import IpaPmMachine.
From S2P Require Import IpaPmThms.

(** ** The clock plan *)

(** How many of the first [n] thresholds a throughput reaches. *)
Definition reached (tput : Z) (n : Z) (th : list Z) : Z :=
  zlength (filter (fun t => t <= tput) (take (Z.to_nat n) th)).

Lemma threshold_index_eq tput n th : threshold_index tput n th = 1 + reached tput n th.
Proof.
  unfold threshold_index, reached, zlength. generalize (take (Z.to_nat n) th). clear. intros l.
  assert (H : forall i, foldl (fun idx th => if tput >=? th then idx + 1 else idx) i l =
    i + Z.of_nat (length (filter (fun t => t <= tput) l))).
  { induction l as [|x l IH]; intros i; [cbn; lia|]. cbn [foldl]. rewrite IH, filter_cons.
    case_test; case_decide; cbn [length]; lia. }
  apply H.
Qed.

Lemma reached_bounds tput n th : 0 <= n -> 0 <= reached tput n th <= n.
Proof.
  intros Hn. unfold reached, zlength.
  pose proof (length_filter (fun t => t <= tput) (take (Z.to_nat n) th)) as H.
  rewrite length_take in H. lia.
Qed.

(** The rate of a plan. *)
Definition plan_rate (idx : Z) (k : ipa3_clks) : Z :=
  if idx =? 1 then ipa_clk_rate_svs2 k else if idx =? 2 then ipa_clk_rate_svs k
  else if idx =? 3 then ipa_clk_rate_nominal k else ipa_clk_rate_turbo k.

Lemma set_plan_rate idx k :
  enable_clock_scaling k = true -> IPA_IS_REGULAR_CLK_MODE (ipa3_hw_mode k) = true -> 0 < idx ->
  curr_ipa_clk_rate (snd (ipa3_set_clock_plan_from_pm idx k)) =
  (if idx <=? 4 then plan_rate idx k else curr_ipa_clk_rate k) /\
  fst (ipa3_set_clock_plan_from_pm idx k) = (if idx <=? 4 then 0 else - EINVAL).
Proof.
  intros He Hm Hi. unfold ipa3_set_clock_plan_from_pm. rewrite He, Hm. cbn [negb].
  destruct (idx <=? 4) eqn:E4; zb.
  - replace ((idx <=? 0) || (idx >=? 5)) with false
      by (symmetry; apply orb_false_iff; rewrite Z.geb_leb; split; apply Z.leb_gt; lia).
    cbv zeta. fold (plan_rate idx k). destruct (plan_rate idx k =? _) eqn:E; zb; now cbn.
  - replace ((idx <=? 0) || (idx >=? 5)) with true; [done|].
    symmetry. apply orb_true_iff. right. rewrite Z.geb_leb. apply Z.leb_le. lia.
Qed.

(** The thresholds of the first exception in force, or the default ones. *)
Fixpoint thresholds_in_force (active : list Z) (dflt : list Z) (l : list ipa_pm_exception_list) : list Z :=
  match l with
  | [] => dflt
  | ex :: l => if exception_passes active ex then ex_threshold ex else thresholds_in_force active dflt l
  end.

Lemma find_exception_threshold active d l : forall i,
  (forall j, exception_list d !! (i + j)%nat = l !! j \/ l !! j = None) ->
  threshold_of (db_set_current (find_exception active (Z.of_nat i) l) d) =
  Some (thresholds_in_force active (default_threshold d) l).
Proof.
  induction l as [|ex l IH]; intros i Hl; [done|]. cbn. case_test.
  - destruct (Hl O) as [H0|]; [|done]. rewrite Nat.add_0_r in H0. cbn in *.
    unfold threshold_of, zlookup. cbn. tests. now rewrite Nat2Z.id, H0.
  - replace (Z.of_nat i + 1) with (Z.of_nat (S i)) by lia. apply IH. intros j.
    rewrite Nat.add_succ_l, <- Nat.add_succ_r. exact (Hl (S j)).
Qed.

Definition current_thresholds (c : ipa_pm_ctx) : list Z :=
  let d := pm_clk_scaling c in
  thresholds_in_force (active_client_bitmask d) (default_threshold d)
    (take (Z.to_nat (exception_size d)) (exception_list d)).

Lemma threshold_current c :
  threshold_of (pm_clk_scaling (set_current_threshold c)) = Some (current_thresholds c).
Proof.
  unfold set_current_threshold, current_thresholds. cbn. apply (find_exception_threshold _ _ _ 0).
  intros j. cbn. destruct (take _ _ !! j) eqn:E; [left|now right].
  now apply lookup_take_Some in E as [-> _].
Qed.

(** C35: while the clocks are voted for, recomputing the clock plan
    stores the aggregated throughput of the active clients and votes for plan
    1 + the number of thresholds it reaches, of the first exception in force
    or else of the default ones, between 1 and the number of thresholds + 1;
    when the plan changes, the driver is asked for its rate.  The driver has
    only four plans: with more than three thresholds a plan above 4 is
    recorded as the vote but refused by the driver, whose rate stays as it
    was.  Without a vote for the clocks nothing happens. *)
Theorem pm_scaling_correct c k :
  0 <= threshold_size (pm_clk_scaling c) ->
  enable_clock_scaling k = true -> IPA_IS_REGULAR_CLK_MODE (ipa3_hw_mode k) = true ->
  if ipa_clk_vote k =? 0 then do_clk_scaling (c, k) = Done (0, (c, k))
  else
    let d := pm_clk_scaling c in
    let plan := 1 + reached (calculate_throughput c) (threshold_size d) (current_thresholds c) in
    1 <= plan <= threshold_size d + 1 /\
    exists c' k', do_clk_scaling (c, k) = Done (0, (c', k')) /\
      pm_aggregated_tput c' = calculate_throughput c /\ cur_vote (pm_clk_scaling c') = plan /\
      pm_clients c' = pm_clients c /\ (forall r w, clk_ok r w k -> clk_ok r w k') /\
      curr_ipa_clk_rate k' =
        (if negb (cur_vote d =? plan) && (plan <=? 4) then plan_rate plan k else curr_ipa_clk_rate k).
Proof.
  intros Hn He Hm. unfold do_clk_scaling. destruct (ipa_clk_vote k =? 0); [done|]. cbv zeta.
  set (plan := 1 + _). pose proof (reached_bounds (calculate_throughput c)
    (threshold_size (pm_clk_scaling c)) (current_thresholds c) Hn) as Hb.
  split; [subst plan; lia|].
  rewrite threshold_current. cbn [deref mbind exec_bind].
  change (current_thresholds (set_tput _ _ c)) with (current_thresholds c).
  change (threshold_size (pm_clk_scaling (set_current_threshold _))) with (threshold_size (pm_clk_scaling c)).
  change (cur_vote (pm_clk_scaling (set_current_threshold _))) with (cur_vote (pm_clk_scaling c)).
  rewrite threshold_index_eq. fold plan.
  destruct (cur_vote (pm_clk_scaling c) =? plan) eqn:Ev; zb; cbn [negb andb].
  - do 2 eexists. split; [reflexivity|]. cbn. now repeat (split; [done|]).
  - do 2 eexists. split; [reflexivity|]. cbn [fst snd]. do 3 (split; [done|]).
    split; [intros r w; apply set_plan_ok|]. apply set_plan_rate; [done|done|subst plan; lia].
Qed.

Lemma pm_scaling_correct_witness :
  exists c' k', do_clk_scaling (example_ctx, clk_boot 60 125 250 500) = Done (0, (c', k')) /\
    pm_aggregated_tput c' = 10 /\ cur_vote (pm_clk_scaling c') = 3 /\ curr_ipa_clk_rate k' = 250.
Proof.
  destruct (pm_scaling_correct example_ctx (clk_boot 60 125 250 500) ltac:(discriminate) eq_refl eq_refl)
    as (_ & c' & k' & E & Ht & Hv & _ & _ & Hr).
  exists c', k'. split; [exact E|]. split; [exact Ht|]. split; [exact Hv|exact Hr].
Defined.

(** ** The window of a synchronous activation *)

(** "USB" registered, its synchronous activation taking the clocks. *)
Lemma run_window :
  exists m cl, pm_reaches 36 id 10 ex_params m /\ get_client (fst (pm m)) 1 = Some cl /\
    enabling m 1 = true /\ cl_state cl = IPA_PM_ACTIVATE_IN_PROGRESS.
Proof.
  eexists _, _. split.
  - exists ex_env, (init_ctx ex_params), ex_clks, 0, 0. split; [reflexivity|]. split; [apply ex_clks_ok|].
    run (st_register _ _ _ _ ex_renv (Some ex_client) _ _ _).
    eapply rtc_l; [right; left; refine (st_activate_sync_enable _ _ 1 _ _ _ _ _)|apply rtc_refl].
    + vm_compute. reflexivity.
    + left. split; [|vm_compute; reflexivity]. split; [reflexivity|].
      intros op Hin. now apply elem_of_nil in Hin.
    + vm_compute. reflexivity.
  - repeat split; vm_compute; reflexivity.
Qed.

Lemma enable_result c k en o w h cl :
  sys_ok (c, k) en o w -> get_client c h = Some cl -> en h = true ->
  exists s' cl', activate_enable h (c, k) = Done (0, s') /\ get_client (fst s') h = Some cl' /\
    cl' = stay_awake (cl_set_state IPA_PM_ACTIVATED cl).
Proof.
  intros Hs Hc He.
  destruct (returns_ex _ _ _ (activate_enable_ok en o w c k h cl Hs Hc He) I) as ([r s'] & E & Hr & _).
  cbn in Hr. subst r. exists s'. eexists. split; [exact E|]. split; [|reflexivity].
  pose proof (pm_len _ _ (proj1 (proj2 Hs))) as Hl.
  unfold activate_enable in E. rewrite Hc in E. cbn [deref mbind exec_bind] in E. unfold activate_finish in E.
  apply bind_Done in E as ([r [c' k']] & E & [= <-]). apply do_clk_scaling_scaled in E. cbn [fst].
  rewrite (scaled_client _ _ _ E). etransitivity; [apply (get_put c h _ h Hl (get_valid _ _ _ Hl Hc))|].
  now rewrite Z.eqb_refl.
Qed.

(** While a synchronous activation takes the clocks, with the
    client's lock released, a deferred deactivation is accepted with 0 and
    then forgotten: the activation ends with the client activated and no
    timer.  And a call that waits for the client in that window, as
    ipa_pm_deactivate_all_deferred does, waits for a completion that the
    activation does not complete: after it no work is queued that would. *)
Theorem pm_activation_window max_pipes mapping client_max p m h cl gate :
  pm_reaches max_pipes mapping client_max p m ->
  get_client (fst (pm m)) h = Some cl -> enabling m h = true ->
  cl_state cl = IPA_PM_ACTIVATE_IN_PROGRESS ->
  (exists s1 s2 cl2, ipa_pm_deferred_deactivate h (pm m) = (0, s1) /\
     activate_enable h s1 = Done (0, s2) /\ get_client (fst s2) h = Some cl2 /\
     cl_state cl2 = IPA_PM_ACTIVATED /\ cl_deactivate_work cl2 = false) /\
  (cl_complete cl = false ->
     (exists s', deactivate_deferred_one gate h (pm m) = Done (Wait s')) /\
     exists s2 cl2, activate_enable h (pm m) = Done (0, s2) /\ get_client (fst s2) h = Some cl2 /\
       cl_state cl2 = IPA_PM_ACTIVATED /\ cl_complete cl2 = false /\ cl_activate_work cl2 = false).
Proof.
  intros Hr Hc He Hst. pose proof (reaches_ok _ _ _ _ _ Hr) as Hm.
  pose proof (machine_client _ _ _ Hm Hc) as Hcl. rewrite He in Hcl.
  pose proof (ok_timer _ _ _ Hcl) as Ht. pose proof (ok_work _ _ _ Hcl) as Hwk.
  rewrite Hst in Ht. rewrite andb_false_r in Hwk. cbn in Ht.
  pose proof (mo_sys _ Hm) as Hs. destruct (pm m) as [c k]. cbn [fst] in *.
  pose proof (get_valid _ _ _ (pm_len _ _ (proj1 (proj2 Hs))) Hc) as Hh.
  split.
  - unfold ipa_pm_deferred_deactivate, with_client. unfold valid_hdl in Hh. tests. rewrite Hc, Hst.
    set (cl1 := cl_set_state IPA_PM_DEACTIVATE_IN_PROGRESS cl).
    assert (E1 : ipa_pm_deferred_deactivate h (c, k) = (0, (put_client h cl1 c, k))).
    { unfold ipa_pm_deferred_deactivate, with_client. tests. now rewrite Hc, Hst. }
    pose proof (deferred_deactivate_ok _ _ _ _ _ _ _ Hs E1) as Hs1.
    assert (G1 : get_client (put_client h cl1 c) h = Some cl1).
    { rewrite get_put; [now rewrite Z.eqb_refl|exact (pm_len _ _ (proj1 (proj2 Hs)))|exact Hh]. }
    destruct (enable_result _ _ _ _ _ _ _ Hs1 G1 He) as (s2 & cl2 & E2 & G2 & ->).
    do 3 eexists. split; [reflexivity|]. split; [exact E2|]. split; [exact G2|].
    rewrite stay_awake_eq. now split.
  - intros Hco. split.
    + unfold deactivate_deferred_one. rewrite Hc. cbn. unfold must_wait. cbn. rewrite Hst, Hco. cbn. eauto.
    + destruct (enable_result _ _ _ _ _ _ _ Hs Hc He) as (s2 & cl2 & E2 & G2 & ->).
      do 2 eexists. split; [exact E2|]. split; [exact G2|]. rewrite stay_awake_eq. now split.
Qed.

Lemma pm_activation_window_witness :
  exists m s1 s2 cl2, pm_reaches 36 id 10 ex_params m /\
    ipa_pm_deferred_deactivate 1 (pm m) = (0, s1) /\ activate_enable 1 s1 = Done (0, s2) /\
    get_client (fst s2) 1 = Some cl2 /\ cl_state cl2 = IPA_PM_ACTIVATED.
Proof.
  destruct run_window as (m & cl & Hr & Hc & He & Hst).
  destruct (pm_activation_window 36 id 10 ex_params m 1 cl (fun _ => quiet) Hr Hc He Hst)
    as [(s1 & s2 & cl2 & H1 & H2 & H3 & H4 & _) _].
  exists m, s1, s2, cl2. now repeat (split; [done|]).
Defined.

(** ** Wake sources *)

(** A client of the APPS group that does not vote for the clocks: its wake
    source is taken when it is activated and never released. *)
Definition ex_silent : ipa_pm_register_params :=
  {| rp_name := Some "silent"%string; rp_callback := None; rp_group := IPA_PM_GROUP_APPS;
     rp_skip_clk_vote := true |}.
Example awake_for_good :
  exists m cl, pm_reaches 36 id 10 ex_params m /\ get_client (fst (pm m)) 1 = Some cl /\
    cl_state cl = IPA_PM_DEACTIVATED /\ cl_wlock cl = true.
Proof.
  eexists _, _. split.
  - exists ex_env, (init_ctx ex_params), ex_clks, 0, 0. split; [reflexivity|]. split; [apply ex_clks_ok|].
    run (st_register _ _ _ _ ex_renv (Some ex_silent) _ _ _).
    run (st_activate _ _ _ _ 1 _ _ _).
    run (st_deferred_deactivate _ _ _ _ 1 _ _ _).
    run (st_deactivate_deferred _ _ _ _ (fun _ => quiet) 1 _ _ _). apply rtc_refl.
  - repeat split; vm_compute; reflexivity.
Qed.

(** Until the first recomputation of the clock plan the statistics of the
    clock thresholds read through a NULL pointer. *)
Lemma scaling_levels_null e p c :
  ipa_pm_init e (Some p) None = (0, Some c) -> 3 <= ip_threshold_size p ->
  ipa_pm_get_scaling_bw_levels c = Fault.
Proof.
  intros [-> _]%init_inv Hn. unfold ipa_pm_get_scaling_bw_levels. cbn. rewrite Z.geb_leb.
  now rewrite (proj2 (Z.leb_le 3 _) Hn).
Qed.
