(* ===== verification/VidcQueue.v ===== *)
(** The shared-memory queues between the video driver and its firmware
    (video-driver/driver/vidc/src/venus_hfi_queue.c).

    A queue is an array of 32-bit words used as a ring, with a header the two
    sides share: each moves one of the indexes.  A packet is a sequence of
    words whose first is its length in bytes.  The memory of a queue is the
    list of its words; an access outside it, or outside a packet buffer, is
    [Fault].  The array and the header are shared: what the firmware does to
    them between two calls of the driver is not restricted here. *)
From S2P Require Import Prelude.

Definition ENOENT : Z := 2.
Definition E2BIG : Z := 7.
Definition ENOTEMPTY : Z := 39.
Definition ENODATA : Z := 61.

Definition HFI_Q_ID_HOST_TO_CTRL_CMD_Q : Z := 0.
Definition HFI_Q_ID_CTRL_TO_HOST_MSG_Q : Z := 1.
Definition HFI_Q_ID_CTRL_TO_HOST_DEBUG_Q : Z := 2.
Definition VIDC_IFACEQ_NUMQ : Z := 3.
Definition VIDC_IFACEQ_CMDQ_IDX : Z := 0.
Definition VIDC_IFACEQ_MSGQ_IDX : Z := 1.
Definition VIDC_IFACEQ_DBGQ_IDX : Z := 2.
Definition VIDC_IFACEQ_MAX_BUF_COUNT : Z := 50.
Definition VIDC_IFACE_MAX_PARALLEL_CLNTS : Z := 16.
Definition VIDC_IFACEQ_DFLT_QHDR : Z := 0x01010000.
Definition VIDC_IFACEQ_MAX_PKT_SIZE : Z := 1024.
Definition VIDC_IFACEQ_VAR_HUGE_PKT_SIZE : Z := 1024 * 4.
Definition VIDC_IFACEQ_QUEUE_SIZE : Z :=
  VIDC_IFACEQ_MAX_PKT_SIZE * VIDC_IFACEQ_MAX_BUF_COUNT * VIDC_IFACE_MAX_PARALLEL_CLNTS.

Record hfi_queue_header := {
  qhdr_status : Z;
  qhdr_start_addr : Z;
  qhdr_type : Z;
  qhdr_q_size : Z;
  qhdr_pkt_size : Z;
  qhdr_pkt_drop_cnt : Z;
  qhdr_rx_wm : Z;
  qhdr_tx_wm : Z;
  qhdr_rx_req : Z;
  qhdr_tx_req : Z;
  qhdr_rx_irq_status : Z;
  qhdr_tx_irq_status : Z;
  qhdr_read_idx : Z;
  qhdr_write_idx : Z }.

(** struct msm_vidc_mem: the dma-buf behind it, if any, whether it is mapped
    into the kernel (kvaddr) and attached to a device (attach, table). *)
Record msm_vidc_mem := {
  vm_region : Z;
  vm_size : Z;
  vm_secure : bool;
  vm_map_kernel : bool;
  vm_dmabuf : option Z;
  vm_kvaddr : bool;
  vm_device_addr : Z;
  vm_refcount : Z;
  vm_attach : bool;
  vm_phys_addr : Z }.

(** enum msm_vidc_buffer_region *)
Definition MSM_VIDC_REGION_NONE : Z := 0.
Definition MSM_VIDC_NON_SECURE : Z := 1.
Definition MSM_VIDC_NON_SECURE_PIXEL : Z := 2.
Definition MSM_VIDC_SECURE_PIXEL : Z := 3.
Definition MSM_VIDC_SECURE_NONPIXEL : Z := 4.
Definition MSM_VIDC_SECURE_BITSTREAM : Z := 5.
Definition MSM_VIDC_REGION_MAX : Z := 6.

(** A zeroed struct msm_vidc_mem. *)
Definition mem_zero : msm_vidc_mem :=
  {| vm_region := MSM_VIDC_REGION_NONE; vm_size := 0; vm_secure := false; vm_map_kernel := false;
     vm_dmabuf := None; vm_kvaddr := false; vm_device_addr := 0; vm_refcount := 0;
     vm_attach := false; vm_phys_addr := 0 |}.

(** struct msm_vidc_mem_addr: the words its virtual address points to, if it
    is not NULL. *)
Record msm_vidc_mem_addr := {
  align_device_addr : Z;
  align_virtual_addr : option (list Z);
  mem_size : Z;
  area_mem : msm_vidc_mem }.

Record msm_vidc_iface_q_info := {
  q_hdr : option hfi_queue_header;
  q_array : msm_vidc_mem_addr }.

(** The requests and the indexes of a header. *)
Definition hdr_set (rx tx rd wr : Z) (h : hfi_queue_header) : hfi_queue_header :=
  {| qhdr_status := qhdr_status h; qhdr_start_addr := qhdr_start_addr h; qhdr_type := qhdr_type h;
     qhdr_q_size := qhdr_q_size h; qhdr_pkt_size := qhdr_pkt_size h;
     qhdr_pkt_drop_cnt := qhdr_pkt_drop_cnt h; qhdr_rx_wm := qhdr_rx_wm h;
     qhdr_tx_wm := qhdr_tx_wm h; qhdr_rx_req := rx; qhdr_tx_req := tx;
     qhdr_rx_irq_status := qhdr_rx_irq_status h; qhdr_tx_irq_status := qhdr_tx_irq_status h;
     qhdr_read_idx := rd; qhdr_write_idx := wr |}.
Definition set_rx_req (v : Z) (h : hfi_queue_header) :=
  hdr_set v (qhdr_tx_req h) (qhdr_read_idx h) (qhdr_write_idx h) h.
Definition set_tx_req (v : Z) (h : hfi_queue_header) :=
  hdr_set (qhdr_rx_req h) v (qhdr_read_idx h) (qhdr_write_idx h) h.
Definition set_read_idx (v : Z) (h : hfi_queue_header) :=
  hdr_set (qhdr_rx_req h) (qhdr_tx_req h) v (qhdr_write_idx h) h.
Definition set_write_idx (v : Z) (h : hfi_queue_header) :=
  hdr_set (qhdr_rx_req h) (qhdr_tx_req h) (qhdr_read_idx h) v h.

Definition q_set (h : hfi_queue_header) (arr : list Z) (q : msm_vidc_iface_q_info) :=
  {| q_hdr := Some h;
     q_array := {| align_device_addr := align_device_addr (q_array q);
                   align_virtual_addr := Some arr; mem_size := mem_size (q_array q);
                   area_mem := area_mem (q_array q) |} |}.

(** memcpy of [n] words from index [s] of [src] to index [d] of [dst]. *)
Definition memcpy (dst : list Z) (d : Z) (src : list Z) (s n : Z) : exec (list Z) :=
  if n =? 0 then Done dst
  else if (0 <=? d) && (d + n <=? zlength dst) && (0 <=? s) && (s + n <=? zlength src)
  then Done (take (Z.to_nat d) dst ++ take (Z.to_nat n) (drop (Z.to_nat s) src)
             ++ drop (Z.to_nat (d + n)) dst)
  else Fault.

(** A number of words the code turns into bytes: x << 2 on 32 bits. *)
Definition word_bytes (x : Z) : Z := Z.shiftr (u32 (Z.shiftl x 2)) 2.

(** __set_queue_hdr_defaults *)
Definition __set_queue_hdr_defaults (h : hfi_queue_header) : hfi_queue_header :=
  {| qhdr_status := 1; qhdr_start_addr := qhdr_start_addr h; qhdr_type := VIDC_IFACEQ_DFLT_QHDR;
     qhdr_q_size := VIDC_IFACEQ_QUEUE_SIZE / 4; qhdr_pkt_size := 0;
     qhdr_pkt_drop_cnt := qhdr_pkt_drop_cnt h; qhdr_rx_wm := 1; qhdr_tx_wm := 1;
     qhdr_rx_req := 1; qhdr_tx_req := 0; qhdr_rx_irq_status := 0; qhdr_tx_irq_status := 0;
     qhdr_read_idx := 0; qhdr_write_idx := 0 |}.

(** __write_queue: the result, the queue, and whether *rx_req_is_set was set.
    The free words, as the code computes them on 32 bits. *)
Definition write_space (words read_idx write_idx : Z) : Z :=
  if write_idx >=? read_idx then u32 (words - (write_idx - read_idx)) else u32 (read_idx - write_idx).

(** The copying of a packet of [n] words to [write_idx]: the array and the new
    write index. *)
Definition write_words (arr pk : list Z) (words write_idx n : Z) : exec (list Z * Z) :=
  let new_write_idx := u32 (write_idx + n) in
  let at_write := word_bytes write_idx in
  if new_write_idx <? words then
    arr ← memcpy arr at_write pk 0 (word_bytes n);
    Done (arr, new_write_idx)
  else
    let new_write_idx := u32 (new_write_idx - words) in
    let first := word_bytes (n - new_write_idx) in
    arr ← memcpy arr at_write pk 0 first;
    arr ← memcpy arr 0 pk first (word_bytes new_write_idx);
    Done (arr, new_write_idx).

Definition __write_queue (q : msm_vidc_iface_q_info) (packet : option (list Z)) :
    exec (Z * msm_vidc_iface_q_info * bool) :=
  match packet with
  | None => Done (- EINVAL, q, false)
  | Some pk =>
  match align_virtual_addr (q_array q) with
  | None => Done (- EINVAL, q, false)
  | Some arr =>
  match q_hdr q with
  | None => Done (- ENOENT, q, false)
  | Some queue =>
      size ← deref (pk.[0]);
      let packet_size_in_words := Z.shiftr size 2 in
      let words := Z.shiftr (mem_size (q_array q)) 2 in
      if (packet_size_in_words =? 0) || (packet_size_in_words >? words)
      then Done (- ENODATA, q, false)
      else
        let empty_space := write_space words (qhdr_read_idx queue) (qhdr_write_idx queue) in
        if empty_space <=? packet_size_in_words
        then Done (- ENOTEMPTY, q_set (set_tx_req 1 queue) arr q, false)
        else
          let queue := set_tx_req 0 queue in
          if u32 (Z.shiftl (qhdr_write_idx queue) 2) >? mem_size (q_array q)
          then Done (- ENODATA, q_set queue arr q, false)
          else
            '(arr, new_write_idx) ← write_words arr pk words (qhdr_write_idx queue) packet_size_in_words;
            Done (0, q_set (set_write_idx new_write_idx queue) arr q, true)
  end
  end
  end.

(** The copying of [n] words from [read_idx] into a packet buffer: the buffer
    and the new read index. *)
Definition read_words (arr pk : list Z) (words read_idx n : Z) : exec (list Z * Z) :=
  let new_read_idx := u32 (read_idx + n) in
  let at_read := word_bytes read_idx in
  if new_read_idx <? words then
    pk ← memcpy pk 0 arr at_read (word_bytes n);
    Done (pk, new_read_idx)
  else
    let new_read_idx := u32 (new_read_idx - words) in
    let first := word_bytes (n - new_read_idx) in
    pk ← memcpy pk 0 arr at_read first;
    pk ← memcpy pk first arr 0 (word_bytes new_read_idx);
    Done (pk, new_read_idx).

(** __read_queue: the result, the queue, the packet buffer, and the value
    stored through pb_tx_req_is_set, if any. *)
Definition __read_queue (q : msm_vidc_iface_q_info) (packet : option (list Z)) :
    exec (Z * msm_vidc_iface_q_info * option (list Z) * option Z) :=
  match packet with
  | None => Done (- EINVAL, q, packet, None)
  | Some pk =>
  match align_virtual_addr (q_array q) with
  | None => Done (- EINVAL, q, packet, None)
  | Some arr =>
  match q_hdr q with
  | None => Done (- ENOMEM, q, packet, None)
  | Some queue =>
      let receive_request :=
        if negb (Z.land (qhdr_type queue) HFI_Q_ID_CTRL_TO_HOST_MSG_Q =? 0) then 1 else 0 in
      let read_idx := qhdr_read_idx queue in
      let write_idx := qhdr_write_idx queue in
      let words := Z.shiftr (mem_size (q_array q)) 2 in
      if read_idx =? write_idx
      then Done (- ENODATA, q_set (set_rx_req receive_request queue) arr q, packet, Some 0)
      else if u32 (Z.shiftl read_idx 2) >? mem_size (q_array q) - 4
      then Done (- ENODATA, q, packet, None)
      else
        size ← deref (arr.[word_bytes read_idx]);
        let packet_size_in_words := Z.shiftr size 2 in
        if packet_size_in_words =? 0 then Done (- ENODATA, q, packet, None)
        else
          '(rc, pk, new_read_idx) ←
            (if (u32 (Z.shiftl packet_size_in_words 2) <=? VIDC_IFACEQ_VAR_HUGE_PKT_SIZE)
                && (read_idx <=? words)
             then '(pk, new_read_idx) ← read_words arr pk words read_idx packet_size_in_words;
                  Done (0, pk, new_read_idx)
             else Done (- ENODATA, pk, write_idx));
          let queue := set_read_idx new_read_idx (set_rx_req receive_request queue) in
          Done (rc, q_set queue arr q, Some pk, Some (if qhdr_tx_req queue =? 1 then 1 else 0))
  end
  end
  end.
