(* ===== verification/VidcQueueSpec.v ===== *)
(** A video queue as a first-in-first-out list of packets: the abstract
    specification of the queues of VidcQueue, and the simulation of it by the
    driver's two functions with whatever the firmware does on its side of the
    protocol. *)
From S2P Require Import Prelude VidcQueue.

(** ** What memcpy and the copies around the end of the ring do *)
Lemma memcpy_ok dst d src s n :
  0 <= d -> d + n <= zlength dst -> 0 <= s -> s + n <= zlength src -> 0 <= n ->
  exists dst', memcpy dst d src s n = Done dst' /\ zlength dst' = zlength dst /\
    forall j, 0 <= j < zlength dst ->
      dst'.[j] = if (d <=? j) && (j <? d + n) then src.[s + (j - d)] else dst.[j].
Proof.
  intros Hd Hdn Hs Hsn Hn. unfold memcpy. destruct (n =? 0) eqn:En; zb.
  - exists dst. split; [done|]. split; [done|]. intros j Hj.
    destruct ((d <=? j) && (j <? d + n)) eqn:E; [zb; lia|done].
  - rewrite (proj2 (Z.leb_le 0 d)), (proj2 (Z.leb_le _ _) Hdn), (proj2 (Z.leb_le 0 s)),
      (proj2 (Z.leb_le _ _) Hsn) by lia. cbn [andb].
    eexists. split; [reflexivity|]. unfold zlength in *. split.
    { rewrite !length_app, !length_take, !length_drop. lia. }
    intros j Hj. unfold zlookup. rewrite (proj2 (Z.leb_le 0 j)) by lia.
    destruct ((d <=? j) && (j <? d + n)) eqn:E.
    + zb. rewrite (proj2 (Z.leb_le 0 _)) by lia.
      rewrite lookup_app_r by (rewrite length_take; lia).
      rewrite lookup_app_l by (rewrite !length_take, length_drop; lia).
      rewrite !length_take, lookup_take_lt, lookup_drop by lia. f_equal. lia.
    + apply andb_false_iff in E. destruct (decide (j < d)) as [Hl|Hl].
      * rewrite lookup_app_l by (rewrite length_take; lia). apply lookup_take_lt. lia.
      * destruct E as [E|E]; zb; [lia|].
        rewrite lookup_app_r by (rewrite length_take; lia).
        rewrite lookup_app_r by (rewrite !length_take, length_drop; lia).
        rewrite !length_take, length_drop, lookup_drop. f_equal. lia.
Qed.

Lemma word_bytes_mod x : word_bytes x = x mod 2 ^ 30.
Proof.
  unfold word_bytes, u32. rewrite Z.shiftl_mul_pow2, Z.shiftr_div_pow2 by lia.
  change (2 ^ 32) with (2 ^ 30 * 2 ^ 2). rewrite Z.mul_mod_distr_r by lia.
  apply Z.div_mul. lia.
Qed.
Lemma word_bytes_small x : 0 <= x < 2 ^ 30 -> word_bytes x = x.
Proof. intros H. rewrite word_bytes_mod. now apply Z.mod_small. Qed.

(** The index [i] words after [x], in a ring of [W] words. *)
Definition ring (W x i : Z) : Z := if x + i <? W then x + i else x + i - W.

Lemma ring_range W x i : 0 <= x < W -> 0 <= i < W -> 0 <= ring W x i < W.
Proof. unfold ring. intros. case_test; lia. Qed.
Lemma ring_ring W x i j :
  0 <= x < W -> 0 <= i -> 0 <= j -> i + j < W -> ring W (ring W x i) j = ring W x (i + j).
Proof. unfold ring. intros. repeat case_test; lia. Qed.

Section Copies.
Context (W : Z) (HW : 0 < W < 2 ^ 29) (arr : list Z) (Harr : zlength arr = W).

Lemma write_words_ok pk w n :
  0 <= w < W -> 0 <= n < W -> n <= zlength pk ->
  exists arr', write_words arr pk W w n = Done (arr', ring W w n) /\ zlength arr' = W /\
    forall i, 0 <= i < W ->
      arr'.[ring W w i] = if i <? n then pk.[i] else arr.[ring W w i].
Proof.
  intros Hw Hn Hp. unfold write_words, ring.
  rewrite (u32_small (w + n)), (word_bytes_small w) by lia. case_test.
  - rewrite (word_bytes_small n) by lia.
    destruct (memcpy_ok arr w pk 0 n) as (arr' & -> & Hl & Hj); [lia..|].
    exists arr'. split; [done|]. split; [lia|]. intros i Hi.
    rewrite Hj by (case_test; lia).
    destruct (i <? n) eqn:Ei; zb; repeat case_test; try lia; f_equal; lia.
  - rewrite (u32_small (w + n - W)), !word_bytes_small by lia.
    destruct (memcpy_ok arr w pk 0 (n - (w + n - W))) as (a1 & -> & Hl1 & H1); [lia..|].
    cbn [mbind exec_bind].
    destruct (memcpy_ok a1 0 pk (n - (w + n - W)) (w + n - W)) as (a2 & -> & Hl2 & H2); [lia..|].
    exists a2. split; [done|]. split; [lia|]. intros i Hi.
    rewrite H2 by (case_test; lia).
    destruct (i <? n) eqn:Ei; zb; repeat (case_test; cbn [andb] in *); try lia;
      rewrite ?H1 by lia; repeat case_test; try lia; f_equal; lia.
Qed.

Lemma read_words_ok pk r n :
  0 <= r < W -> 0 <= n <= W -> n <= zlength pk ->
  exists pk', read_words arr pk W r n = Done (pk', ring W r n) /\ zlength pk' = zlength pk /\
    (forall i, 0 <= i < n -> pk'.[i] = arr.[ring W r i]).
Proof.
  intros Hr Hn Hp. unfold read_words, ring.
  rewrite (u32_small (r + n)), (word_bytes_small r) by lia. case_test.
  - rewrite (word_bytes_small n) by lia.
    destruct (memcpy_ok pk 0 arr r n) as (pk' & -> & Hl & Hj); [lia..|].
    exists pk'. split; [done|]. split; [lia|]. intros i Hi. rewrite Hj by lia.
    repeat case_test; try lia; f_equal; lia.
  - rewrite (u32_small (r + n - W)), !word_bytes_small by lia.
    destruct (memcpy_ok pk 0 arr r (n - (r + n - W))) as (a1 & -> & Hl1 & H1); [lia..|].
    cbn [mbind exec_bind].
    destruct (memcpy_ok a1 (n - (r + n - W)) arr 0 (r + n - W)) as (a2 & -> & Hl2 & H2); [lia..|].
    exists a2. split; [done|]. split; [lia|]. intros i Hi. rewrite H2 by lia.
    repeat (case_test; cbn [andb] in *); try lia;
      rewrite ?H1 by lia; repeat case_test; try lia; f_equal; lia.
Qed.
End Copies.

(** ** The contents of a queue *)

(** The packet a buffer holds: as many words as its first word says. *)
Definition packet_words (buf : list Z) : Z := Z.shiftr (default 0 (buf.[0])) 2.
Definition packet_of (buf : list Z) : list Z := take (Z.to_nat (packet_words buf)) buf.
Definition packet_ok (p : list Z) : Prop := 0 < zlength p /\ packet_words p = zlength p.

(** The words from [r] on are those of [c]. *)
Definition ring_holds (W : Z) (arr : list Z) (r : Z) (c : list Z) : Prop :=
  forall i, 0 <= i < zlength c -> arr.[ring W r i] = c.[i].

Record geometry (W : Z) (q : msm_vidc_iface_q_info) (arr : list Z) (h : hfi_queue_header) : Prop := {
  g_array : align_virtual_addr (q_array q) = Some arr;
  g_hdr : q_hdr q = Some h;
  g_size : mem_size (q_array q) = 4 * W;
  g_words : zlength arr = W }.

(** The queue holds the packets [ps], oldest first; one word always stays
    free, so that equal indexes mean an empty queue. *)
Definition queue_holds (W : Z) (q : msm_vidc_iface_q_info) (ps : list (list Z)) : Prop :=
  exists arr h, geometry W q arr h /\
    Forall packet_ok ps /\
    zlength (concat ps) < W /\
    0 <= qhdr_read_idx h < W /\
    qhdr_write_idx h = ring W (qhdr_read_idx h) (zlength (concat ps)) /\
    ring_holds W arr (qhdr_read_idx h) (concat ps).

Lemma packet_words_take p n : 0 < n -> packet_words (take (Z.to_nat n) p) = packet_words p.
Proof. intros H. unfold packet_words. now rewrite zlookup_take by lia. Qed.

Lemma packet_of_ok buf :
  0 < packet_words buf <= zlength buf ->
  packet_ok (packet_of buf) /\ zlength (packet_of buf) = packet_words buf.
Proof.
  intros H. unfold packet_of, packet_ok. rewrite zlength_take, packet_words_take by lia. lia.
Qed.

(** ** The abstract queue *)
Definition fifo_write (W : Z) (ps : list (list Z)) (buf : list Z) : Z * list (list Z) :=
  let n := packet_words buf in
  if (n =? 0) || (n >? W) then (- ENODATA, ps)
  else if W <=? zlength (concat ps) + n then (- ENOTEMPTY, ps)
  else (0, ps ++ [packet_of buf]).

(** A packet the buffers of the driver cannot take empties the queue. *)
Definition fifo_read (ps : list (list Z)) : Z * option (list Z) * list (list Z) :=
  match ps with
  | [] => (- ENODATA, None, [])
  | p :: ps' => if zlength p <=? 1024 then (0, Some p, ps') else (- ENODATA, None, [])
  end.

(** ** The driver's functions on a queue that holds packets *)
Section Refinement.
Context (W : Z) (HW : 1024 <= W < 2 ^ 28).

Lemma size_words : Z.shiftr (4 * W) 2 = W.
Proof. rewrite Z.shiftr_div_pow2, Z.mul_comm by lia. now apply Z.div_mul. Qed.
Lemma u32_words x : 0 <= x < 2 ^ 30 -> u32 (Z.shiftl x 2) = 4 * x.
Proof. intros H. rewrite Z.shiftl_mul_pow2 by lia. rewrite u32_small; lia. Qed.

Lemma write_space_used r u :
  0 <= r < W -> 0 <= u < W -> write_space W r (ring W r u) = W - u.
Proof.
  intros Hr Hu. unfold write_space, ring. rewrite Z.geb_leb.
  repeat case_test; try (rewrite u32_small; lia); try lia.
Qed.

Lemma geometry_set q arr h arr' h' :
  geometry W q arr h -> zlength arr' = W -> geometry W (q_set h' arr' q) arr' h'.
Proof. intros [Ha Hh Hs Hl] H. split; cbn; auto. Qed.

(** The words of [ps] and of a packet appended to them. *)
Lemma ring_holds_app arr arr' r c p :
  0 <= r < W -> zlength c + zlength p < W ->
  ring_holds W arr r c ->
  (forall i, 0 <= i < W -> arr'.[ring W (ring W r (zlength c)) i] =
     if i <? zlength p then p.[i] else arr.[ring W (ring W r (zlength c)) i]) ->
  ring_holds W arr' r (c ++ p).
Proof.
  intros Hr Hlt Hc Hw i Hi. rewrite zlength_app in Hi. pose proof (zlength_nonneg c) as Hc0. pose proof (zlength_nonneg p) as Hp0.
  rewrite zlookup_app by lia. case_test.
  - set (j := W - zlength c + i).
    assert (Hj : ring W r i = ring W (ring W r (zlength c)) j).
    { unfold ring, j. destruct (r + zlength c <? W) eqn:E1; zb; repeat case_test; lia. }
    rewrite Hj, Hw by (unfold j; lia). subst j. test_false (W - zlength c + i <? zlength p).
    cbv iota. rewrite <- Hj. apply Hc. lia.
  - replace (ring W r i) with (ring W (ring W r (zlength c)) (i - zlength c)).
    2: { rewrite ring_ring by lia. f_equal. lia. }
    rewrite Hw by lia. test_true (i - zlength c <? zlength p). done.
Qed.

Lemma queue_write q ps buf :
  queue_holds W q ps ->
  0 < zlength buf -> 0 <= packet_words buf <= zlength buf ->
  exists q', __write_queue q (Some buf)
               = Done ((fifo_write W ps buf).1, q', (fifo_write W ps buf).1 =? 0) /\
             queue_holds W q' (fifo_write W ps buf).2.
Proof.
  intros (arr & h & G & Hps & Hlen & Hr & Hw & Hc) Hb Hn.
  pose proof (zlength_nonneg (concat ps)) as Hc0. pose proof G as [Ha Hh Hs Hl].
  unfold __write_queue. rewrite Ha, Hh, Hs, size_words.
  destruct (zlookup_is_Some buf 0) as [size Hsize]; [lia|].
  rewrite Hsize. cbn [deref mbind exec_bind].
  replace (Z.shiftr size 2) with (packet_words buf) by (unfold packet_words; now rewrite Hsize).
  unfold fifo_write. set (n := packet_words buf) in *. cbv zeta.
  destruct ((n =? 0) || (n >? W)) eqn:En.
  { exists q. split; [done|]. exists arr, h. auto 8. }
  zb. rewrite Hw, write_space_used by lia.
  destruct (W <=? zlength (concat ps) + n) eqn:Ef; zb.
  { rewrite (proj2 (Z.leb_le _ n)) by lia. eexists. split; [reflexivity|].
    exists arr, (set_tx_req 1 h). split; [now apply (geometry_set q arr h)|]. cbn. auto 8. }
  rewrite (proj2 (Z.leb_gt _ n)) by lia.
  cbn [set_tx_req hdr_set qhdr_write_idx]. rewrite Hw.
  pose proof (ring_range W (qhdr_read_idx h) (zlength (concat ps)) Hr ltac:(lia)) as Hwr.
  rewrite u32_words, Z.gtb_ltb, (proj2 (Z.ltb_ge (4 * W) _)) by lia.
  destruct (write_words_ok W ltac:(lia) arr Hl buf (ring W (qhdr_read_idx h) (zlength (concat ps))) n)
    as (arr' & -> & Hl' & Hcp); [lia..|]. cbn [mbind exec_bind].
  eexists. split; [reflexivity|].
  destruct (packet_of_ok buf) as [Hpk Hpn]; [fold n; lia|]. fold n in Hpn.
  exists arr', (set_write_idx (ring W (ring W (qhdr_read_idx h) (zlength (concat ps))) n) (set_tx_req 0 h)).
  cbn [snd]. rewrite concat_app, zlength_app. cbn [concat]. rewrite app_nil_r.
  split; [now apply (geometry_set q arr h)|]. cbn.
  split; [apply Forall_app; auto|]. rewrite Hpn.
  split; [lia|]. split; [done|]. split; [apply ring_ring; lia|].
  apply ring_holds_app with arr; [done|lia|done|]. intros i Hi. rewrite Hcp, Hpn by lia.
  case_test; [|done]. symmetry. apply zlookup_take. fold n. lia.
Qed.

Definition tx_req_of (q : msm_vidc_iface_q_info) : Z :=
  match q_hdr q with Some h => qhdr_tx_req h | None => 0 end.

Lemma ring_holds_drop arr r c p :
  0 <= r < W -> zlength p + zlength c < W -> ring_holds W arr r (p ++ c) ->
  ring_holds W arr (ring W r (zlength p)) c.
Proof.
  intros Hr Hlt H i Hi. pose proof (zlength_nonneg p). rewrite ring_ring by lia.
  rewrite H by (rewrite zlength_app; lia). rewrite zlookup_app by lia.
  test_false (zlength p + i <? zlength p). f_equal. lia.
Qed.

(** A buffer into which the words of the packet [p] were copied. *)
Lemma packet_of_copy buf p :
  packet_ok p -> zlength p <= zlength buf ->
  (forall i, 0 <= i < zlength p -> buf.[i] = p.[i]) -> packet_of buf = p.
Proof.
  intros [Hp Hn] Hl H.
  assert (Hpw : packet_words buf = zlength p).
  { rewrite <- Hn. unfold packet_words. now rewrite H by lia. }
  unfold packet_of. rewrite Hpw. apply zlist_eq; rewrite zlength_take by lia; [done|].
  intros i Hi. rewrite zlookup_take by lia. now apply H.
Qed.

Lemma queue_read_empty q buf :
  queue_holds W q [] ->
  exists q', __read_queue q (Some buf) = Done (- ENODATA, q', Some buf, Some 0) /\
    queue_holds W q' [].
Proof.
  intros (arr & h & G & _ & _ & Hr & Hw & Hc). pose proof G as [Ha Hh Hs Hl].
  cbn [concat] in *. assert (E : qhdr_write_idx h = qhdr_read_idx h).
  { rewrite Hw. unfold ring, zlength. cbn. case_test; lia. }
  unfold __read_queue. rewrite Ha, Hh, Hs, E, Z.eqb_refl. cbv zeta.
  eexists. split; [reflexivity|]. eexists arr, _. split; [now apply (geometry_set q arr h)|].
  cbn. rewrite Hw. repeat (split; [auto|]); [unfold zlength; cbn; lia|auto].
Qed.

Lemma queue_read q ps buf :
  queue_holds W q ps -> 1024 <= zlength buf ->
  exists q' buf',
    __read_queue q (Some buf)
      = Done ((fifo_read ps).1.1, q', Some buf',
              Some (match ps with [] => 0 | _ => if tx_req_of q =? 1 then 1 else 0 end)) /\
    queue_holds W q' (fifo_read ps).2 /\
    zlength buf' = zlength buf /\
    match (fifo_read ps).1.2 with Some p => packet_of buf' = p | None => buf' = buf end.
Proof.
  intros HQ Hb. destruct ps as [|p ps].
  { destruct (queue_read_empty q buf HQ) as (q' & E & H'). exists q', buf.
    split; [exact E|]. split; [exact H'|]. split; reflexivity. }
  destruct HQ as (arr & h & G & Hps & Hlen & Hr & Hw & Hc). pose proof G as [Ha Hh Hs Hl].
  unfold __read_queue, tx_req_of. rewrite Ha, Hh, Hs, size_words, Hw. cbv zeta.
  apply Forall_cons_1 in Hps as [Hp Hps]. pose proof Hp as [Hp0 Hpn].
  cbn [concat] in *. rewrite zlength_app in *. pose proof (zlength_nonneg (concat ps)).
  assert (Hne : qhdr_read_idx h <> ring W (qhdr_read_idx h) (zlength p + zlength (concat ps)))
    by (unfold ring; case_test; lia).
  rewrite (proj2 (Z.eqb_neq _ _) Hne), u32_words, Z.gtb_ltb, (proj2 (Z.ltb_ge (4 * W - 4) _)) by lia.
  rewrite word_bytes_small by lia.
  assert (Hfirst : arr.[qhdr_read_idx h] = p.[0]).
  { specialize (Hc 0). rewrite zlookup_app in Hc by lia. rewrite zlength_app in Hc.
    test_true (0 <? zlength p). revert Hc. rewrite (proj2 (Z.ltb_lt 0 (zlength p))) by lia.
    intros <-; [|lia]. f_equal. unfold ring. case_test; lia. }
  rewrite Hfirst. destruct (zlookup_is_Some p 0) as [size Hsize]; [lia|]. rewrite Hsize.
  cbn [deref mbind exec_bind].
  replace (Z.shiftr size 2) with (zlength p) by (rewrite <- Hpn; unfold packet_words; now rewrite Hsize).
  rewrite (proj2 (Z.eqb_neq (zlength p) 0)), u32_words, (proj2 (Z.leb_le (qhdr_read_idx h) W)), andb_true_r by lia.
  unfold VIDC_IFACEQ_VAR_HUGE_PKT_SIZE. cbn [fifo_read].
  replace (4 * zlength p <=? 1024 * 4) with (zlength p <=? 1024) by (destruct (zlength p <=? 1024) eqn:E; zb; symmetry; zb; lia).
  destruct (zlength p <=? 1024) eqn:Esz; zb.
  - destruct (read_words_ok W ltac:(lia) arr Hl buf (qhdr_read_idx h) (zlength p))
      as (buf' & -> & Hl' & Hcp); [lia..|]. cbn [mbind exec_bind fst snd].
    eexists _, buf'. split; [reflexivity|]. split; [|split; [done|]].
    + eexists arr, _. split; [now apply (geometry_set q arr h)|]. cbn.
      split; [done|]. split; [lia|]. split; [apply ring_range; lia|].
      split; [rewrite ring_ring by lia; exact Hw|]. apply ring_holds_drop; [lia..|done].
    + apply packet_of_copy; [done|lia|]. intros i Hi.
      rewrite Hcp by lia. rewrite Hc, zlookup_app by (rewrite ?zlength_app; lia).
      now rewrite (proj2 (Z.ltb_lt i (zlength p))) by lia.
  - cbn [mbind exec_bind fst snd]. eexists _, buf. split; [reflexivity|].
    split; [|split; reflexivity].
    eexists arr, _. split; [now apply (geometry_set q arr h)|]. cbn.
    pose proof (ring_range W (qhdr_read_idx h) (zlength p + zlength (concat ps)) Hr ltac:(lia)).
    split; [constructor|]. split; [unfold zlength; cbn; lia|]. split; [lia|].
    split; [|intros i Hi; unfold zlength in Hi; cbn in Hi; lia].
    rewrite Hw. set (x := ring W _ _) in *. unfold ring, zlength. cbn.
    rewrite (proj2 (Z.ltb_lt _ W)) by lia. lia.
Qed.
End Refinement.

(** ** Runs of the two sides *)

(** What the driver's calls saw, and what the firmware did. *)
Inductive q_label : Type :=
| HostWrite (buf : list Z) (rc : Z)
| HostRead (rc : Z) (buf : list Z)
| FwPut (p : list Z)
| FwTake (p : list Z).

(** A buffer that holds the packet its first word announces. *)
Definition buffer_ok (buf : list Z) : Prop :=
  0 < zlength buf /\ 0 <= packet_words buf <= zlength buf.

(** The driver's steps are its functions; the firmware, on its side, appends
    a packet or takes one away, and may change the rest of the header. *)
Inductive q_step (W : Z) : msm_vidc_iface_q_info -> q_label -> msm_vidc_iface_q_info -> Prop :=
| step_write q buf rc q' irq :
    buffer_ok buf -> __write_queue q (Some buf) = Done (rc, q', irq) ->
    q_step W q (HostWrite buf rc) q'
| step_read q buf rc q' buf' tx :
    1024 <= zlength buf -> __read_queue q (Some buf) = Done (rc, q', Some buf', tx) ->
    q_step W q (HostRead rc buf') q'
| step_put q ps p q' :
    queue_holds W q ps -> queue_holds W q' (ps ++ [p]) -> q_step W q (FwPut p) q'
| step_take q p ps q' :
    queue_holds W q (p :: ps) -> queue_holds W q' ps -> q_step W q (FwTake p) q'.

Inductive q_run (W : Z) : msm_vidc_iface_q_info -> list q_label -> msm_vidc_iface_q_info -> Prop :=
| run_nil q : q_run W q [] q
| run_cons q l q1 tr q2 : q_step W q l q1 -> q_run W q1 tr q2 -> q_run W q (l :: tr) q2.

(** The same labels on the abstract queue. *)
Definition fifo_step (W : Z) (ps : list (list Z)) (l : q_label) (ps' : list (list Z)) : Prop :=
  match l with
  | HostWrite buf rc => fifo_write W ps buf = (rc, ps')
  | HostRead rc buf =>
      (fifo_read ps).1.1 = rc /\ (fifo_read ps).2 = ps' /\
      (rc = 0 -> (fifo_read ps).1.2 = Some (packet_of buf))
  | FwPut p => ps' = ps ++ [p]
  | FwTake p => ps = p :: ps'
  end.

Fixpoint fifo_run (W : Z) (ps : list (list Z)) (tr : list q_label) (ps' : list (list Z)) : Prop :=
  match tr with
  | [] => ps' = ps
  | l :: tr => exists ps1, fifo_step W ps l ps1 /\ fifo_run W ps1 tr ps'
  end.

(** The packets that went into the queue and those that came out of it. *)
Definition put_of (l : q_label) : list (list Z) :=
  match l with
  | HostWrite buf rc => if rc =? 0 then [packet_of buf] else []
  | FwPut p => [p]
  | _ => []
  end.
Definition taken_of (l : q_label) : list (list Z) :=
  match l with
  | HostRead rc buf => if rc =? 0 then [packet_of buf] else []
  | FwTake p => [p]
  | _ => []
  end.

(** A queue holds one list of packets only: a packet announces its length. *)
Lemma concat_packets_inj ps : forall ps',
  Forall packet_ok ps -> Forall packet_ok ps' -> concat ps = concat ps' -> ps = ps'.
Proof.
  induction ps as [|p ps IH]; intros [|p' ps'] H H' E; [done| | |].
  - apply Forall_cons_1 in H' as [[Hp _] _]. apply zlength_pos in Hp as (x & p2 & ->). discriminate.
  - apply Forall_cons_1 in H as [[Hp _] _]. apply zlength_pos in Hp as (x & p2 & ->). discriminate.
  - apply Forall_cons_1 in H as [[Hp Hn] H], H' as [[Hp' Hn'] H']. cbn in E.
    assert (Hl : zlength p = zlength p').
    { rewrite <- Hn, <- Hn'. unfold packet_words. f_equal. f_equal.
      apply zlength_pos in Hp as (x & p2 & ->), Hp' as (x' & p2' & ->). injection E as -> _. reflexivity. }
    apply app_inj_1 in E as [-> E]; [|unfold zlength in Hl; lia]. f_equal. auto.
Qed.

Lemma queue_holds_inj W q ps ps' : queue_holds W q ps -> queue_holds W q ps' -> ps = ps'.
Proof.
  intros (arr & h & G & H & Hl & Hr & Hw & Hc) (arr' & h' & G' & H' & Hl' & _ & Hw' & Hc').
  destruct G as [Ga Gh _ _], G' as [Ga' Gh' _ _].
  assert (arr' = arr) as -> by congruence. assert (h' = h) as -> by congruence.
  pose proof (zlength_nonneg (concat ps)). pose proof (zlength_nonneg (concat ps')).
  assert (Hlen : zlength (concat ps) = zlength (concat ps')).
  { rewrite Hw in Hw'. unfold ring in Hw'. revert Hw'. repeat case_test; lia. }
  apply concat_packets_inj; [done..|]. apply zlist_eq; [done|]. intros i Hi.
  rewrite <- (Hc i), <- (Hc' i) by lia. done.
Qed.

Section Runs.
Context (W : Z) (HW : 1024 <= W < 2 ^ 28).

Lemma q_step_refines q ps l q' :
  queue_holds W q ps -> q_step W q l q' ->
  exists ps', fifo_step W ps l ps' /\ queue_holds W q' ps'.
Proof.
  intros HQ S. destruct S as [q buf rc q' irq [Hb Hn] E|q buf rc q' buf' tx Hb E|q ps1 p q' H1 H2|q p ps1 q' H1 H2].
  - destruct (queue_write W HW q ps buf HQ Hb Hn) as (q1 & E1 & H1).
    rewrite E1 in E. injection E as <- <- <-. eexists. split; [|exact H1]. apply surjective_pairing.
  - destruct (queue_read W HW q ps buf HQ Hb) as (q1 & b1 & E1 & H1 & Hl & Hp).
    rewrite E1 in E. injection E as <- <- <- <-. eexists. split; [|exact H1]. cbn.
    split; [done|]. split; [done|]. intros E0. destruct ps as [|p ps]; cbn in *; [discriminate|].
    destruct (zlength p <=? 1024); [|discriminate]. cbn in *. f_equal. symmetry. now apply Hp.
  - rewrite (queue_holds_inj W q ps ps1 HQ H1). exists (ps1 ++ [p]). split; [done|exact H2].
  - rewrite (queue_holds_inj W q ps (p :: ps1) HQ H1). exists ps1. split; [done|exact H2].
Qed.

Lemma q_run_refines q tr q' : q_run W q tr q' -> forall ps,
  queue_holds W q ps -> exists ps', fifo_run W ps tr ps' /\ queue_holds W q' ps'.
Proof.
  induction 1 as [q|q l q1 tr q2 S R IH]; intros ps HQ; [cbn; eauto|].
  destruct (q_step_refines q ps l q1 HQ S) as (ps1 & S1 & H1).
  destruct (IH ps1 H1) as (ps2 & R2 & H2). exists ps2. split; [|done]. cbn. eauto.
Qed.

Lemma fifo_step_order ps l ps' :
  fifo_step W ps l ps' -> Forall (fun p => zlength p <= 1024) ps ->
  ps ++ put_of l = taken_of l ++ ps'.
Proof.
  destruct l as [buf rc|rc buf|p|p]; cbn.
  - unfold fifo_write. repeat case_test; intros [= <- <-] _; cbn; now rewrite ?app_nil_r.
  - intros (E & <- & Hp) Hs. rewrite app_nil_r. destruct ps as [|p ps]; cbn in *.
    + subst rc. done.
    + apply Forall_cons_1 in Hs as [Hs _]. rewrite (proj2 (Z.leb_le _ 1024) Hs) in *.
      cbn in *. subst rc. cbn. injection (Hp eq_refl) as <-. done.
  - now intros ->.
  - intros ->. now rewrite app_nil_r.
Qed.

Lemma fifo_run_order tr : forall ps ps',
  fifo_run W ps tr ps' ->
  Forall (fun p => zlength p <= 1024) (ps ++ concat (map put_of tr)) ->
  ps ++ concat (map put_of tr) = concat (map taken_of tr) ++ ps'.
Proof.
  induction tr as [|l tr IH]; intros ps ps' R Hs; cbn in *.
  { subst. now rewrite app_nil_r. }
  destruct R as (ps1 & S & R). rewrite app_assoc in *.
  assert (Ho : ps ++ put_of l = taken_of l ++ ps1).
  { apply fifo_step_order; [done|]. now apply Forall_app in Hs as [[Hs _]%Forall_app _]. }
  rewrite Ho in *. rewrite <- !app_assoc in *. f_equal.
  apply IH; [done|]. now apply Forall_app in Hs as [_ Hs].
Qed.
End Runs.
