(* ===== verification/VidcQueueThms.v ===== *)
(** The properties of a video queue: it is a first-in-first-out queue as long
    as both sides keep the protocol, and what is left of its safety when the
    firmware does not. *)
From S2P Require Import Prelude VidcQueue VidcQueueSpec.

(** ** Shared memory of any contents *)

(** A queue whose header the other side may have filled with anything. *)
Definition any_queue (W : Z) (q : msm_vidc_iface_q_info) (arr : list Z) (h : hfi_queue_header) : Prop :=
  geometry W q arr h /\ Forall (fun x => 0 <= x < 2 ^ 32) arr /\
  0 <= qhdr_read_idx h < 2 ^ 32 /\ 0 <= qhdr_write_idx h < 2 ^ 32.

Section Any.
Context (W : Z) (HW : 1024 <= W < 2 ^ 28).

Lemma u32_words_mod x : u32 (Z.shiftl x 2) = 4 * word_bytes x.
Proof.
  unfold u32. rewrite word_bytes_mod, Z.shiftl_mul_pow2 by lia.
  change (2 ^ 32) with (2 ^ 30 * 2 ^ 2). rewrite Z.mul_mod_distr_r by lia. lia.
Qed.
Lemma word_bytes_range x : 0 <= word_bytes x < 2 ^ 30.
Proof. rewrite word_bytes_mod. apply Z.mod_pos_bound. lia. Qed.

(** From an index below 2^30 that passed the test of the read pointer, a
    packet of at most 4096 bytes is copied. *)
Lemma read_any arr h q buf :
  any_queue W q arr h -> 1024 <= zlength buf ->
  exists rc q' buf' tx,
    __read_queue q (Some buf) = Done (rc, q', Some buf', tx) /\
    (rc = 0 \/ rc = - ENODATA) /\ zlength buf' = zlength buf.
Proof.
  intros (G & Hwords & Hr & Hw) Hb. pose proof G as [Ha Hh Hs Hl].
  unfold __read_queue. rewrite Ha, Hh, Hs, size_words by lia. cbv zeta.
  destruct (qhdr_read_idx h =? qhdr_write_idx h); [eauto 10|].
  rewrite u32_words_mod. destruct (4 * word_bytes (qhdr_read_idx h) >? 4 * W - 4) eqn:Ep; zb; [eauto 10|].
  pose proof (word_bytes_range (qhdr_read_idx h)).
  destruct (zlookup_is_Some arr (word_bytes (qhdr_read_idx h))) as [size Hsize]; [lia|].
  assert (Hs32 : 0 <= size < 2 ^ 32).
  { rewrite Forall_elem in Hwords. apply Hwords. revert Hsize. unfold zlookup.
    case_test; [|discriminate]. apply list_elem_of_lookup_2. }
  rewrite Hsize. cbn [deref mbind exec_bind].
  assert (Hn : 0 <= Z.shiftr size 2 < 2 ^ 30).
  { rewrite Z.shiftr_div_pow2 by lia. split; [apply Z.div_pos; lia|].
    apply Z.div_lt_upper_bound; lia. }
  set (n := Z.shiftr size 2) in *. destruct (n =? 0) eqn:En; zb; [eauto 10|].
  rewrite u32_words by lia. unfold VIDC_IFACEQ_VAR_HUGE_PKT_SIZE.
  destruct ((4 * n <=? 1024 * 4) && (qhdr_read_idx h <=? W)) eqn:Ec; zb.
  - rewrite word_bytes_small in Ep by lia.
    destruct (read_words_ok W ltac:(lia) arr Hl buf (qhdr_read_idx h) n) as (buf' & -> & Hl' & _);
      [lia..|]. cbn [mbind exec_bind]. do 4 eexists. eauto.
  - cbn [mbind exec_bind]. do 4 eexists. eauto.
Qed.

Lemma write_any arr h q buf :
  any_queue W q arr h -> buffer_ok buf -> qhdr_write_idx h < 2 ^ 30 ->
  exists rc q' irq, __write_queue q (Some buf) = Done (rc, q', irq).
Proof.
  intros (G & Hwords & Hr & Hw) [Hb Hn] Hw30. pose proof G as [Ha Hh Hs Hl].
  unfold __write_queue. rewrite Ha, Hh, Hs, size_words by lia.
  destruct (zlookup_is_Some buf 0) as [size Hsize]; [lia|].
  rewrite Hsize. cbn [deref mbind exec_bind].
  replace (Z.shiftr size 2) with (packet_words buf) by (unfold packet_words; now rewrite Hsize).
  set (n := packet_words buf) in *. cbv zeta.
  destruct ((n =? 0) || (n >? W)) eqn:En; [eauto|]. zb.
  destruct (write_space _ _ _ <=? n); [eauto|].
  cbn [set_tx_req hdr_set qhdr_write_idx]. rewrite u32_words by lia.
  destruct (4 * qhdr_write_idx h >? 4 * W) eqn:Eg; zb; [eauto|].
  unfold write_words. rewrite (u32_small (_ + n)) by lia. rewrite (word_bytes_small (qhdr_write_idx h)) by lia.
  case_test.
  - rewrite word_bytes_small by lia.
    destruct (memcpy_ok arr (qhdr_write_idx h) buf 0 n) as (arr' & -> & _); [lia..|]. cbn. eauto.
  - rewrite u32_small, !word_bytes_small by lia.
    destruct (memcpy_ok arr (qhdr_write_idx h) buf 0 (n - (qhdr_write_idx h + n - W)))
      as (a1 & -> & Hl1 & _); [lia..|]. cbn [mbind exec_bind].
    destruct (memcpy_ok a1 0 buf (n - (qhdr_write_idx h + n - W)) (qhdr_write_idx h + n - W))
      as (a2 & -> & _); [lia..|]. cbn. eauto.
Qed.

(** With both indexes at 2^30 the byte offset wraps to 0, the test of the
    write pointer passes, and the copy runs over the end of the packet. *)
Lemma write_hostile arr h q buf :
  any_queue W q arr h -> buffer_ok buf -> 0 < packet_words buf < W -> packet_words buf = zlength buf ->
  qhdr_write_idx h = 2 ^ 30 -> qhdr_read_idx h = 2 ^ 30 ->
  __write_queue q (Some buf) = Fault.
Proof.
  intros (G & Hwords & _ & _) [Hb Hn] Hn0 Hlen Hw Hr. pose proof G as [Ha Hh Hs Hl].
  unfold __write_queue. rewrite Ha, Hh, Hs, size_words by lia.
  destruct (zlookup_is_Some buf 0) as [size Hsize]; [lia|].
  rewrite Hsize. cbn [deref mbind exec_bind].
  replace (Z.shiftr size 2) with (packet_words buf) by (unfold packet_words; now rewrite Hsize).
  set (n := packet_words buf) in *. cbv zeta.
  rewrite (proj2 (Z.eqb_neq n 0)), Z.gtb_ltb, (proj2 (Z.ltb_ge W n)) by lia. cbn [orb].
  unfold write_space. rewrite Hw, Hr, Z.geb_leb, Z.leb_refl, Z.sub_diag, Z.sub_0_r.
  rewrite u32_small, (proj2 (Z.leb_gt W n)) by lia.
  cbn [set_tx_req hdr_set qhdr_write_idx]. rewrite Hw, u32_words_mod, word_bytes_mod.
  rewrite Z.mod_same, Z.gtb_ltb, (proj2 (Z.ltb_ge _ _)) by lia.
  unfold write_words. rewrite (u32_small (2 ^ 30 + n)), (proj2 (Z.ltb_ge _ W)) by lia.
  rewrite u32_small by lia. replace (n - (2 ^ 30 + n - W)) with (W + -1 * 2 ^ 30) by lia.
  rewrite (word_bytes_mod (W + _)), Z.mod_add, Z.mod_small by lia.
  assert (E : memcpy arr (word_bytes (2 ^ 30)) buf 0 W = Fault); [|now rewrite E].
  unfold memcpy. rewrite (proj2 (Z.eqb_neq W 0)), (proj2 (Z.leb_gt (0 + W) (zlength buf))) by lia.
  now rewrite andb_false_r.
Qed.
End Any.

(** ** The properties *)

(** C25: with a queue of at least 1024 words that starts empty, and a
    firmware that only appends packets and takes the oldest one, every run of
    the driver's writes and reads among the firmware's steps is a run of an
    abstract first-in-first-out queue: a write is refused exactly when the
    packet would fill the ring, a read gets the oldest packet.  If no packet
    is longer than 1024 words, what was put into the queue is what was taken
    out of it, in the same order, followed by what is still in it.  In every
    state of such a run the next write and the next read return. *)
Theorem vidc_queue_refines_fifo W q0 tr q :
  1024 <= W < 2 ^ 28 -> queue_holds W q0 [] -> q_run W q0 tr q ->
  exists ps,
    fifo_run W [] tr ps /\ queue_holds W q ps /\
    (Forall (fun p => zlength p <= 1024) (concat (map put_of tr)) ->
     concat (map put_of tr) = concat (map taken_of tr) ++ ps) /\
    (forall buf, buffer_ok buf ->
       exists q', __write_queue q (Some buf)
         = Done ((fifo_write W ps buf).1, q', (fifo_write W ps buf).1 =? 0)) /\
    (forall buf, 1024 <= zlength buf ->
       exists q' buf' tx, __read_queue q (Some buf) = Done ((fifo_read ps).1.1, q', Some buf', tx)).
Proof.
  intros HW H0 R. destruct (q_run_refines W HW q0 tr q R [] H0) as (ps & F & H).
  exists ps. split; [done|]. split; [done|]. split; [|split].
  - intros Hs. exact (fifo_run_order W HW tr [] ps F Hs).
  - intros buf [Hb Hn]. destruct (queue_write W HW q ps buf H Hb Hn) as (q' & E & _). eauto.
  - intros buf Hb. destruct (queue_read W HW q ps buf H Hb) as (q' & buf' & E & _). eauto.
Qed.

(** An empty ring of 1024 words. *)
Definition header0 : hfi_queue_header :=
  __set_queue_hdr_defaults
    {| qhdr_status := 0; qhdr_start_addr := 0; qhdr_type := 0; qhdr_q_size := 0; qhdr_pkt_size := 0;
       qhdr_pkt_drop_cnt := 0; qhdr_rx_wm := 0; qhdr_tx_wm := 0; qhdr_rx_req := 0; qhdr_tx_req := 0;
       qhdr_rx_irq_status := 0; qhdr_tx_irq_status := 0; qhdr_read_idx := 0; qhdr_write_idx := 0 |}.
Definition ring_queue (arr : list Z) (h : hfi_queue_header) : msm_vidc_iface_q_info :=
  {| q_hdr := Some h;
     q_array := {| align_device_addr := 0x1000; align_virtual_addr := Some arr;
                   mem_size := 4 * zlength arr; area_mem := mem_zero |} |}.
Definition small_queue (idx : Z) : msm_vidc_iface_q_info :=
  ring_queue (replicate 1024 0) (set_write_idx idx (set_read_idx idx header0)).
Definition packet6 : list Z := [24; 1; 2; 3; 4; 5].

Lemma small_queue_empty idx : 0 <= idx < 1024 -> queue_holds 1024 (small_queue idx) [].
Proof.
  intros H. eexists _, _. split; [split; reflexivity|]. cbn [concat]. cbn.
  split; [constructor|]. split; [done|]. split; [lia|]. split.
  - unfold ring, zlength. cbn. case_test; lia.
  - intros i Hi. unfold zlength in Hi. cbn in Hi. lia.
Qed.

(** A packet that wraps around the end of the ring, read back. *)
Lemma vidc_queue_refines_fifo_witness :
  exists q ps, q_run 1024 (small_queue 1020)
                 [HostWrite packet6 0; HostRead 0 (packet6 ++ replicate 1018 7); HostWrite packet6 0] q /\
    fifo_run 1024 [] [HostWrite packet6 0; HostRead 0 (packet6 ++ replicate 1018 7); HostWrite packet6 0] ps /\
    queue_holds 1024 q ps.
Proof.
  eassert (R : q_run 1024 (small_queue 1020)
                 [HostWrite packet6 0; HostRead 0 (packet6 ++ replicate 1018 7); HostWrite packet6 0] _).
  { eapply run_cons. { eapply (step_write 1024 _ packet6); [vm_compute; repeat split; discriminate|vm_compute; reflexivity]. }
    eapply run_cons. { eapply (step_read 1024 _ (replicate 1024 7)); [vm_compute; discriminate|vm_compute; reflexivity]. }
    eapply run_cons. { eapply (step_write 1024 _ packet6); [vm_compute; repeat split; discriminate|vm_compute; reflexivity]. }
    apply run_nil. }
  destruct (vidc_queue_refines_fifo 1024 (small_queue 1020) _ _ ltac:(lia) (small_queue_empty 1020 ltac:(lia)) R)
    as (ps & F & H & _).
  eexists _, ps. split; [exact R|]. split; [exact F|exact H].
Defined.

(** C30: whatever the firmware wrote into the header and the words of a queue
    of at least 1024 words, a read into a buffer of 4096 bytes stays inside the
    queue and the buffer, and returns 0 or -ENODATA; a write returns if the
    write index is below 2^30.  The driver keeps its write index in the shared
    memory, and the byte offset is computed on 32 bits: with both indexes at
    2^30 the check of the write pointer passes and the copy leaves the
    packet. *)
Theorem vidc_queue_any_header W q arr h :
  1024 <= W < 2 ^ 28 -> any_queue W q arr h ->
  (forall buf, 1024 <= zlength buf ->
     exists rc q' buf' tx, __read_queue q (Some buf) = Done (rc, q', Some buf', tx) /\
       (rc = 0 \/ rc = - ENODATA) /\ zlength buf' = zlength buf) /\
  (forall buf, buffer_ok buf -> qhdr_write_idx h < 2 ^ 30 ->
     exists rc q' irq, __write_queue q (Some buf) = Done (rc, q', irq)) /\
  (forall buf, buffer_ok buf -> 0 < packet_words buf < W -> packet_words buf = zlength buf ->
     qhdr_write_idx h = 2 ^ 30 -> qhdr_read_idx h = 2 ^ 30 ->
     __write_queue q (Some buf) = Fault).
Proof.
  intros HW Hq. split; [|split].
  - intros buf. now apply (read_any W HW arr h).
  - intros buf. now apply (write_any W HW arr h).
  - intros buf. now apply (write_hostile W HW arr h).
Qed.

Lemma vidc_queue_any_header_witness :
  __write_queue (small_queue (2 ^ 30)) (Some packet6) = Fault /\
  exists rc q' buf' tx,
    __read_queue (small_queue (2 ^ 30)) (Some (replicate 1024 0)) = Done (rc, q', Some buf', tx) /\
    (rc = 0 \/ rc = - ENODATA) /\ zlength buf' = 1024.
Proof.
  assert (Hq : any_queue 1024 (small_queue (2 ^ 30)) (replicate 1024 0)
                 (set_write_idx (2 ^ 30) (set_read_idx (2 ^ 30) header0))).
  { split; [split; reflexivity|]. split; [|vm_compute; repeat split; discriminate].
    apply Forall_replicate. lia. }
  destruct (vidc_queue_any_header 1024 _ _ _ ltac:(lia) Hq) as (Hr & _ & Hw). split.
  - apply Hw; [vm_compute; repeat split; discriminate|vm_compute; split; reflexivity
              |reflexivity|reflexivity|reflexivity].
  - apply Hr. vm_compute. discriminate.
Defined.
