(* ===== verification/VidcMem.v ===== *)
(** The memory operations behind the video queues
    (video-driver/driver/vidc/src/msm_vidc_memory_ext.c and
    msm_vidc_memory.c): dma-bufs that are allocated, mapped into the kernel
    and attached to a device, register ranges mapped into the SMMU, and a page
    range mapped for DMA.  What they hold of the kernel is explicit
    ([vidc_resources]); the answers of the kernel are arguments. *)
From S2P Require Import Prelude VidcQueue.

(** enum msm_vidc_device_region *)
Definition MSM_VIDC_AON : Z := 1.
Definition MSM_VIDC_PROTOCOL_FENCE_CLIENT_VPU : Z := 2.
Definition MSM_VIDC_QTIMER : Z := 3.
Definition MSM_VIDC_DEVICE_REGION_MAX : Z := 4.

Record device_region_info := {
  dr_region : Z;
  dr_phy_addr : Z;
  dr_size : Z;
  dr_dev_addr : Z }.

(** What the platform offers: the regions of its context banks and its device
    regions. *)
Class VidcPlatform := {
  context_banks : list Z;
  device_regions : list device_region_info }.

(** What the driver holds of the kernel: the dma-bufs (by number), those of
    them attached to a device, the ranges mapped in the SMMU (device address,
    size), and how many page ranges are mapped for DMA. *)
Record vidc_resources := {
  next_buf : Z;
  live_bufs : list Z;
  attached_bufs : list Z;
  iommu_ranges : list (Z * Z);
  dma_pages : Z }.

Definition mem_set (dmabuf : option Z) (kvaddr : bool) (device_addr refcount : Z) (attach : bool)
    (m : msm_vidc_mem) : msm_vidc_mem :=
  {| vm_region := vm_region m; vm_size := vm_size m; vm_secure := vm_secure m;
     vm_map_kernel := vm_map_kernel m; vm_dmabuf := dmabuf; vm_kvaddr := kvaddr;
     vm_device_addr := device_addr; vm_refcount := refcount; vm_attach := attach;
     vm_phys_addr := vm_phys_addr m |}.
Definition set_bufs (next : Z) (live attached : list Z) (k : vidc_resources) : vidc_resources :=
  {| next_buf := next; live_bufs := live; attached_bufs := attached;
     iommu_ranges := iommu_ranges k; dma_pages := dma_pages k |}.
Definition set_ranges (r : list (Z * Z)) (k : vidc_resources) : vidc_resources :=
  {| next_buf := next_buf k; live_bufs := live_bufs k; attached_bufs := attached_bufs k;
     iommu_ranges := r; dma_pages := dma_pages k |}.
Definition set_pages (n : Z) (k : vidc_resources) : vidc_resources :=
  {| next_buf := next_buf k; live_bufs := live_bufs k; attached_bufs := attached_bufs k;
     iommu_ranges := iommu_ranges k; dma_pages := n |}.

(** What the kernel answers: to the allocation of a dma-buf with its kernel
    mapping, the words it holds or an error; to its attachment to the device,
    the device address or an error. *)
Record alloc_answer := {
  an_alloc : Z + list Z;
  an_attach : Z + Z }.

Section Mem.
Context `{VidcPlatform}.

Definition msm_vidc_get_context_bank_for_region (region : Z) : bool :=
  if (region =? 0) || (region >=? MSM_VIDC_REGION_MAX) then false
  else existsb (Z.eqb region) context_banks.

Definition venus_hfi_get_device_region_info (region : Z) : option device_region_info :=
  if (region =? 0) || (region >=? MSM_VIDC_DEVICE_REGION_MAX) then None
  else List.find (fun r => dr_region r =? region) device_regions.

(** msm_vidc_memory_free_ext *)
Definition msm_vidc_memory_free_ext (m : msm_vidc_mem) (k : vidc_resources) :
    Z * msm_vidc_mem * vidc_resources :=
  match vm_dmabuf m with
  | None => (- EINVAL, m, k)
  | Some b =>
      (0, mem_set None false (vm_device_addr m) (vm_refcount m) (vm_attach m) m,
       set_bufs (next_buf k) (List.remove Z.eq_dec b (live_bufs k)) (attached_bufs k) k)
  end.

(** msm_vidc_memory_alloc_ext; a failure after the allocation of the dma-buf
    (its lending or its kernel mapping) frees it again. *)
Definition msm_vidc_memory_alloc_ext (a : Z + list Z) (m : msm_vidc_mem) (k : vidc_resources) :
    Z * msm_vidc_mem * option (list Z) * vidc_resources :=
  if vm_secure m && negb ((vm_region m =? MSM_VIDC_SECURE_PIXEL)
                          || (vm_region m =? MSM_VIDC_SECURE_NONPIXEL)
                          || (vm_region m =? MSM_VIDC_SECURE_BITSTREAM))
  then (- EINVAL, m, None, k)
  else
    match a with
    | inl rc => (rc, mem_set None false (vm_device_addr m) (vm_refcount m) (vm_attach m) m, None, k)
    | inr words =>
        let b := next_buf k in
        (0, mem_set (Some b) (vm_map_kernel m) (vm_device_addr m) (vm_refcount m) (vm_attach m) m,
         if vm_map_kernel m then Some words else None,
         set_bufs (b + 1) (b :: live_bufs k) (attached_bufs k) k)
    end.

(** msm_vidc_memory_map_ext; [a] includes the check that the buffer is as
    secure as its region.  It is called with a dma-buf only. *)
Definition msm_vidc_memory_map_ext (a : Z + Z) (m : msm_vidc_mem) (k : vidc_resources) :
    Z * msm_vidc_mem * vidc_resources :=
  if negb (vm_refcount m =? 0)
  then (0, mem_set (vm_dmabuf m) (vm_kvaddr m) (vm_device_addr m) (u32 (vm_refcount m + 1)) (vm_attach m) m, k)
  else if negb (msm_vidc_get_context_bank_for_region (vm_region m)) then (- EIO, m, k)
  else
    match a, vm_dmabuf m with
    | inr addr, Some b =>
        (0, mem_set (vm_dmabuf m) (vm_kvaddr m) addr (vm_refcount m + 1) true m,
         set_bufs (next_buf k) (live_bufs k) (b :: attached_bufs k) k)
    | inr _, None => (- EINVAL, m, k)
    | inl rc, _ => (rc, m, k)
    end.

(** msm_vidc_memory_unmap_ext *)
Definition msm_vidc_memory_unmap_ext (m : msm_vidc_mem) (k : vidc_resources) :
    Z * msm_vidc_mem * vidc_resources :=
  if vm_refcount m =? 0 then (- EINVAL, m, k)
  else
    let n := vm_refcount m - 1 in
    if negb (n =? 0)
    then (0, mem_set (vm_dmabuf m) (vm_kvaddr m) (vm_device_addr m) n (vm_attach m) m, k)
    else
      (0, mem_set (vm_dmabuf m) (vm_kvaddr m) 0 n false m,
       match vm_dmabuf m with
       | Some b => set_bufs (next_buf k) (live_bufs k) (List.remove Z.eq_dec b (attached_bufs k)) k
       | None => k
       end).

(** msm_vidc_memory_alloc_map_ext, msm_vidc_memory_unmap_free_ext *)
Definition memory_alloc_map (a : alloc_answer) (m : msm_vidc_mem) (k : vidc_resources) :
    Z * msm_vidc_mem * option (list Z) * vidc_resources :=
  let '(rc, m, words, k) := msm_vidc_memory_alloc_ext (an_alloc a) m k in
  if negb (rc =? 0) then (- EINVAL, m, words, k)
  else
    let '(rc, m, k) := msm_vidc_memory_map_ext (an_attach a) m k in
    if negb (rc =? 0) then (- EINVAL, m, words, k) else (0, m, words, k).

Definition memory_unmap_free (m : msm_vidc_mem) (k : vidc_resources) : Z * msm_vidc_mem * vidc_resources :=
  let '(rc, m, k) := msm_vidc_memory_unmap_ext m k in
  if negb (rc =? 0) then (- EINVAL, m, k)
  else
    let '(rc, m, k) := msm_vidc_memory_free_ext m k in
    if negb (rc =? 0) then (- EINVAL, m, k) else (rc, m, k).

(** msm_vidc_iommu_map, msm_vidc_iommu_unmap: [a] is the answer of iommu_map *)
Definition msm_vidc_iommu_map (a : Z) (m : msm_vidc_mem) (k : vidc_resources) : Z * vidc_resources :=
  if negb (msm_vidc_get_context_bank_for_region (vm_region m)) then (- EIO, k)
  else if negb (a =? 0) then (a, k)
  else (a, set_ranges ((vm_device_addr m, vm_size m) :: iommu_ranges k) k).

Definition msm_vidc_iommu_unmap (m : msm_vidc_mem) (k : vidc_resources) : Z * msm_vidc_mem * vidc_resources :=
  if negb (msm_vidc_get_context_bank_for_region (vm_region m)) then (- EIO, m, k)
  else
    (0, {| vm_region := vm_region m; vm_size := 0; vm_secure := vm_secure m;
           vm_map_kernel := vm_map_kernel m; vm_dmabuf := vm_dmabuf m; vm_kvaddr := vm_kvaddr m;
           vm_device_addr := 0; vm_refcount := vm_refcount m; vm_attach := vm_attach m;
           vm_phys_addr := 0 |},
     set_ranges (filter (fun r => r <> (vm_device_addr m, vm_size m)) (iommu_ranges k)) k).

(** msm_vidc_dma_map_page, msm_vidc_dma_unmap_page: [a] is the DMA address or
    the mapping error *)
Definition msm_vidc_dma_map_page (a : Z + Z) (m : msm_vidc_mem) (k : vidc_resources) :
    Z * msm_vidc_mem * vidc_resources :=
  if negb (vm_refcount m =? 0)
  then (0, mem_set (vm_dmabuf m) (vm_kvaddr m) (vm_device_addr m) (u32 (vm_refcount m + 1)) (vm_attach m) m, k)
  else if negb (msm_vidc_get_context_bank_for_region (vm_region m)) then (- EIO, m, k)
  else
    match a with
    | inl rc => (rc, m, k)
    | inr addr =>
        (0, mem_set (vm_dmabuf m) (vm_kvaddr m) addr (vm_refcount m + 1) (vm_attach m) m,
         set_pages (dma_pages k + 1) k)
    end.

Definition msm_vidc_dma_unmap_page (m : msm_vidc_mem) (k : vidc_resources) :
    Z * msm_vidc_mem * vidc_resources :=
  if vm_refcount m =? 0 then (- EINVAL, m, k)
  else
    let n := vm_refcount m - 1 in
    let m := mem_set (vm_dmabuf m) (vm_kvaddr m) (vm_device_addr m) n (vm_attach m) m in
    if negb (msm_vidc_get_context_bank_for_region (vm_region m)) then (- EIO, m, k)
    else if negb (n =? 0) then (0, m, k)
    else (0, mem_set (vm_dmabuf m) (vm_kvaddr m) 0 n (vm_attach m) m, set_pages (dma_pages k - 1) k).
End Mem.
Arguments msm_vidc_get_context_bank_for_region : simpl never.
Arguments venus_hfi_get_device_region_info : simpl never.
