(* ===== verification/VidcHfi.v ===== *)
(** The interface queues of the video core
    (video-driver/driver/vidc/src/venus_hfi_queue.c): the three queues with
    their table in one allocation, the buffers and register ranges the
    firmware is told about, and the calls that write commands and read
    messages. *)
From S2P Require Import Prelude VidcQueue VidcMem.

Definition SZ_4K : Z := 0x1000.
Definition SZ_1M : Z := 0x100000.
Definition ALIGN (x a : Z) : Z := Z.land (x + (a - 1)) (Z.lnot (a - 1)).

(** sizeof(struct hfi_queue_table_header), sizeof(struct hfi_queue_header) *)
Definition sizeof_table_header : Z := 288.
Definition sizeof_queue_header : Z := 56.
Definition VIDC_IFACEQ_TABLE_SIZE : Z := sizeof_table_header + sizeof_queue_header * VIDC_IFACEQ_NUMQ.
Definition SFR_SIZE : Z := 4096.
Definition QDSS_SIZE : Z := 4096.
Definition MMAP_BUF_SIZE : Z := 4096.
Definition QUEUE_SIZE : Z := VIDC_IFACEQ_TABLE_SIZE + VIDC_IFACEQ_QUEUE_SIZE * VIDC_IFACEQ_NUMQ.
Definition ALIGNED_SFR_SIZE : Z := ALIGN SFR_SIZE SZ_4K.
Definition ALIGNED_QDSS_SIZE : Z := ALIGN QDSS_SIZE SZ_4K.
Definition ALIGNED_MMAP_BUF_SIZE : Z := ALIGN MMAP_BUF_SIZE SZ_4K.
Definition ALIGNED_QUEUE_SIZE : Z := ALIGN QUEUE_SIZE SZ_4K.
Definition SHARED_QSIZE : Z :=
  ALIGN (ALIGNED_SFR_SIZE + ALIGNED_QUEUE_SIZE + ALIGNED_QDSS_SIZE + ALIGNED_MMAP_BUF_SIZE) SZ_1M.
Definition TOTAL_QSIZE : Z :=
  SHARED_QSIZE - ALIGNED_SFR_SIZE - ALIGNED_QDSS_SIZE - ALIGNED_MMAP_BUF_SIZE.

(** struct hfi_queue_table_header; its device_addr, the address of the core,
    is left out. *)
Record hfi_queue_table_header := {
  qtbl_version : Z;
  qtbl_size : Z;
  qtbl_qhdr0_offset : Z;
  qtbl_qhdr_size : Z;
  qtbl_num_q : Z;
  qtbl_num_active_q : Z;
  qtbl_name : string }.

Inductive msm_vidc_core_state : Type :=
| MSM_VIDC_CORE_DEINIT
| MSM_VIDC_CORE_INIT_WAIT
| MSM_VIDC_CORE_INIT
| MSM_VIDC_CORE_ERROR.
#[export] Instance core_state_eq_dec : EqDecision msm_vidc_core_state.
Proof. solve_decision. Defined.

(** The part of struct msm_vidc_core these functions use: whether its lock is
    held, the queues with the header of their table, the areas, the page range
    of the synx fence queue, how often the hardware was interrupted, and what
    is held of the kernel.  The words of the queue table are not kept in
    [iface_q_table]: the headers are [q_tbl_hdr] and those of the queues. *)
Record msm_vidc_core := {
  core_state : msm_vidc_core_state;
  core_locked : bool;
  supports_synx_fence : bool;
  iface_queues : list msm_vidc_iface_q_info;
  q_tbl_hdr : option hfi_queue_table_header;
  iface_q_table : msm_vidc_mem_addr;
  sfr : msm_vidc_mem_addr;
  mmap_buf : msm_vidc_mem_addr;
  aon_reg : msm_vidc_mem_addr;
  fence_reg : msm_vidc_mem_addr;
  qtimer_reg : msm_vidc_mem_addr;
  synx_queue : msm_vidc_mem;
  interrupts : nat;
  resources : vidc_resources }.

Section Setters.
Variable c : msm_vidc_core.
Definition set_queues (qs : list msm_vidc_iface_q_info) (tbl : option hfi_queue_table_header)
    (area : msm_vidc_mem_addr) : msm_vidc_core :=
  {| core_state := core_state c; core_locked := core_locked c;
     supports_synx_fence := supports_synx_fence c; iface_queues := qs; q_tbl_hdr := tbl;
     iface_q_table := area; sfr := sfr c; mmap_buf := mmap_buf c; aon_reg := aon_reg c;
     fence_reg := fence_reg c; qtimer_reg := qtimer_reg c; synx_queue := synx_queue c;
     interrupts := interrupts c; resources := resources c |}.
Definition set_areas (s m : msm_vidc_mem_addr) : msm_vidc_core :=
  {| core_state := core_state c; core_locked := core_locked c;
     supports_synx_fence := supports_synx_fence c; iface_queues := iface_queues c;
     q_tbl_hdr := q_tbl_hdr c; iface_q_table := iface_q_table c; sfr := s; mmap_buf := m;
     aon_reg := aon_reg c; fence_reg := fence_reg c; qtimer_reg := qtimer_reg c;
     synx_queue := synx_queue c; interrupts := interrupts c; resources := resources c |}.
Definition set_regs (a f t : msm_vidc_mem_addr) : msm_vidc_core :=
  {| core_state := core_state c; core_locked := core_locked c;
     supports_synx_fence := supports_synx_fence c; iface_queues := iface_queues c;
     q_tbl_hdr := q_tbl_hdr c; iface_q_table := iface_q_table c; sfr := sfr c;
     mmap_buf := mmap_buf c; aon_reg := a; fence_reg := f; qtimer_reg := t;
     synx_queue := synx_queue c; interrupts := interrupts c; resources := resources c |}.
Definition set_held (s : msm_vidc_mem) (k : vidc_resources) : msm_vidc_core :=
  {| core_state := core_state c; core_locked := core_locked c;
     supports_synx_fence := supports_synx_fence c; iface_queues := iface_queues c;
     q_tbl_hdr := q_tbl_hdr c; iface_q_table := iface_q_table c; sfr := sfr c;
     mmap_buf := mmap_buf c; aon_reg := aon_reg c; fence_reg := fence_reg c;
     qtimer_reg := qtimer_reg c; synx_queue := s; interrupts := interrupts c; resources := k |}.
Definition raise_interrupt : msm_vidc_core :=
  {| core_state := core_state c; core_locked := core_locked c;
     supports_synx_fence := supports_synx_fence c; iface_queues := iface_queues c;
     q_tbl_hdr := q_tbl_hdr c; iface_q_table := iface_q_table c; sfr := sfr c;
     mmap_buf := mmap_buf c; aon_reg := aon_reg c; fence_reg := fence_reg c;
     qtimer_reg := qtimer_reg c; synx_queue := synx_queue c; interrupts := S (interrupts c);
     resources := resources c |}.
End Setters.

Definition set_queue (i : Z) (q : msm_vidc_iface_q_info) (c : msm_vidc_core) : msm_vidc_core :=
  set_queues c (zinsert i q (iface_queues c)) (q_tbl_hdr c) (iface_q_table c).

(** __strict_check, core_in_valid_state *)
Definition __strict_check (c : msm_vidc_core) : Z := if core_locked c then 0 else - EINVAL.
Definition core_in_valid_state (c : msm_vidc_core) : bool :=
  bool_decide (core_state c = MSM_VIDC_CORE_INIT) || bool_decide (core_state c = MSM_VIDC_CORE_INIT_WAIT).

(** ** Writing and reading packets *)

(** __iface_cmdq_write_relaxed: the result, the core, *requires_interrupt *)
Definition __iface_cmdq_write_relaxed (c : msm_vidc_core) (pkt : option (list Z)) :
    exec (Z * msm_vidc_core * bool) :=
  let rc := __strict_check c in
  if negb (rc =? 0) then Done (rc, c, false)
  else if negb (core_in_valid_state c) then Done (- EINVAL, c, false)
  else
    q ← deref ((iface_queues c).[VIDC_IFACEQ_CMDQ_IDX]);
    match align_virtual_addr (q_array q) with
    | None => Done (- ENODATA, c, false)
    | Some _ =>
        '(wrc, q, irq) ← __write_queue q pkt;
        Done (if wrc =? 0 then 0 else rc, set_queue VIDC_IFACEQ_CMDQ_IDX q c, irq)
    end.

Definition venus_hfi_queue_cmd_write (c : msm_vidc_core) (pkt : option (list Z)) :
    exec (Z * msm_vidc_core) :=
  '(rc, c, needs_interrupt) ← __iface_cmdq_write_relaxed c pkt;
  Done (rc, if (rc =? 0) && needs_interrupt then raise_interrupt c else c).

Definition venus_hfi_queue_cmd_write_intr (c : msm_vidc_core) (pkt : option (list Z)) (allow_intr : bool) :
    exec (Z * msm_vidc_core) :=
  '(rc, c, needs_interrupt) ← __iface_cmdq_write_relaxed c pkt;
  Done (rc, if (rc =? 0) && allow_intr && needs_interrupt then raise_interrupt c else c).

(** venus_hfi_queue_msg_read, venus_hfi_queue_dbg_read: the result, the core,
    the packet buffer *)
Definition queue_msg_read_locked (i : Z) (c : msm_vidc_core) (pkt : option (list Z)) :
    exec (Z * msm_vidc_core * option (list Z)) :=
  q ← deref ((iface_queues c).[i]);
  match align_virtual_addr (q_array q) with
  | None => Done (- ENODATA, c, pkt)
  | Some _ =>
      '(rrc, q, pkt, tx) ← __read_queue q pkt;
      let c := set_queue i q c in
      let tx_req_is_set := default 0 tx in
      if rrc =? 0 then
        if negb (tx_req_is_set =? 0) then Done (- EINVAL, c, pkt) else Done (0, c, pkt)
      else Done (- ENODATA, c, pkt)
  end.

Definition venus_hfi_queue_msg_read (c : msm_vidc_core) (pkt : option (list Z)) :
    exec (Z * msm_vidc_core * option (list Z)) :=
  match pkt with
  | None => Done (- EINVAL, c, pkt)
  | Some _ =>
      if negb (core_in_valid_state c) then Done (- EINVAL, c, pkt)
      else queue_msg_read_locked VIDC_IFACEQ_MSGQ_IDX c pkt
  end.

Definition venus_hfi_queue_dbg_read (c : msm_vidc_core) (pkt : option (list Z)) :
    exec (Z * msm_vidc_core * option (list Z)) :=
  match pkt with
  | None => Done (- EINVAL, c, pkt)
  | Some _ => queue_msg_read_locked VIDC_IFACEQ_DBGQ_IDX c pkt
  end.

(** The loop of __response_handler (venus_hfi.c) that reads messages until a
    read fails or the core has left its state INIT: the core, and the buffers
    handle_response got.  [handle] is handle_response: its result and the
    core.  The buffer has 4096 bytes and is zeroed between messages, unless
    handle_response failed. *)
Definition response_buffer : list Z := replicate 1024 0.

Fixpoint response_loop (fuel : nat) (handle : list Z -> msm_vidc_core -> Z * msm_vidc_core)
    (c : msm_vidc_core) (buf : list Z) : exec (msm_vidc_core * list (list Z)) :=
  match fuel with
  | O => Timeout
  | S fuel =>
      '(rc, c, pkt) ← venus_hfi_queue_msg_read c (Some buf);
      buf ← deref pkt;
      if negb (rc =? 0) then Done (c, [])
      else
        let '(hrc, c) := handle buf c in
        if negb (hrc =? 0) then
          '(c, bufs) ← response_loop fuel handle c buf; Done (c, buf :: bufs)
        else if bool_decide (core_state c <> MSM_VIDC_CORE_INIT) then Done (c, [buf])
        else '(c, bufs) ← response_loop fuel handle c response_buffer; Done (c, buf :: bufs)
  end.

(** ** Headers *)
Definition set_start_type (start ty : Z) (h : hfi_queue_header) : hfi_queue_header :=
  {| qhdr_status := qhdr_status h; qhdr_start_addr := start; qhdr_type := ty;
     qhdr_q_size := qhdr_q_size h; qhdr_pkt_size := qhdr_pkt_size h;
     qhdr_pkt_drop_cnt := qhdr_pkt_drop_cnt h; qhdr_rx_wm := qhdr_rx_wm h;
     qhdr_tx_wm := qhdr_tx_wm h; qhdr_rx_req := qhdr_rx_req h; qhdr_tx_req := qhdr_tx_req h;
     qhdr_rx_irq_status := qhdr_rx_irq_status h; qhdr_tx_irq_status := qhdr_tx_irq_status h;
     qhdr_read_idx := qhdr_read_idx h; qhdr_write_idx := qhdr_write_idx h |}.

Definition with_hdr (f : hfi_queue_header -> hfi_queue_header) (q : msm_vidc_iface_q_info) :
    exec msm_vidc_iface_q_info :=
  h ← deref (q_hdr q);
  Done {| q_hdr := Some (f h); q_array := q_array q |}.

(** The start address and the direction of a queue, set after the defaults. *)
Definition set_direction (id : Z) (q : msm_vidc_iface_q_info) : exec msm_vidc_iface_q_info :=
  with_hdr (fun h => set_start_type (align_device_addr (q_array q)) (Z.lor (qhdr_type h) id) h) q.

Fixpoint map_queues (f : msm_vidc_iface_q_info -> exec msm_vidc_iface_q_info)
    (qs : list msm_vidc_iface_q_info) : exec (list msm_vidc_iface_q_info) :=
  match qs with
  | [] => Done []
  | q :: qs => q ← f q; qs ← map_queues f qs; Done (q :: qs)
  end.

(** The three headers get their addresses and directions; the debug queue asks
    for no interrupt. *)
Definition set_directions (qs : list msm_vidc_iface_q_info) : exec (list msm_vidc_iface_q_info) :=
  cmdq ← deref (qs.[VIDC_IFACEQ_CMDQ_IDX]);
  cmdq ← set_direction HFI_Q_ID_HOST_TO_CTRL_CMD_Q cmdq;
  qs ← Done (zinsert VIDC_IFACEQ_CMDQ_IDX cmdq qs);
  msgq ← deref (qs.[VIDC_IFACEQ_MSGQ_IDX]);
  msgq ← set_direction HFI_Q_ID_CTRL_TO_HOST_MSG_Q msgq;
  qs ← Done (zinsert VIDC_IFACEQ_MSGQ_IDX msgq qs);
  dbgq ← deref (qs.[VIDC_IFACEQ_DBGQ_IDX]);
  dbgq ← set_direction HFI_Q_ID_CTRL_TO_HOST_DEBUG_Q dbgq;
  dbgq ← with_hdr (set_rx_req 0) dbgq;
  Done (zinsert VIDC_IFACEQ_DBGQ_IDX dbgq qs).

(** venus_hfi_reset_queue_header *)
Definition venus_hfi_reset_queue_header (c : msm_vidc_core) : exec (Z * msm_vidc_core) :=
  qs ← map_queues (with_hdr __set_queue_hdr_defaults) (iface_queues c);
  qs ← set_directions qs;
  Done (0, set_queues c qs (q_tbl_hdr c) (iface_q_table c)).

(** ** Initialisation *)

(** A part of an allocation, in words. *)
Definition words_at (words : list Z) (off n : Z) : exec (list Z) :=
  if (0 <=? off) && (off + n <=? zlength words)
  then Done (take (Z.to_nat n) (drop (Z.to_nat off) words)) else Fault.

(** The header that 14 words spell. *)
Definition header_of_words (w : list Z) : hfi_queue_header :=
  let f i := default 0 (w.[i]) in
  {| qhdr_status := f 0; qhdr_start_addr := f 1; qhdr_type := f 2; qhdr_q_size := f 3;
     qhdr_pkt_size := f 4; qhdr_pkt_drop_cnt := f 5; qhdr_rx_wm := f 6; qhdr_tx_wm := f 7;
     qhdr_rx_req := f 8; qhdr_tx_req := f 9; qhdr_rx_irq_status := f 10;
     qhdr_tx_irq_status := f 11; qhdr_read_idx := f 12; qhdr_write_idx := f 13 |}.

(** VIDC_IFACEQ_GET_QHDR_START_ADDR, in bytes from the start of the table *)
Definition qhdr_offset (i : Z) : Z := sizeof_table_header + i * sizeof_queue_header.

(** The round for queue [i] of the loop of venus_hfi_queue_init: the queue and
    the offset behind it. *)
Definition init_queue (words : list Z) (device_addr i offset : Z) (old : msm_vidc_iface_q_info) :
    exec (msm_vidc_iface_q_info * Z) :=
  arr ← words_at words (offset / 4) (VIDC_IFACEQ_QUEUE_SIZE / 4);
  hw ← words_at words (qhdr_offset i / 4) (sizeof_queue_header / 4);
  Done ({| q_hdr := Some (__set_queue_hdr_defaults (header_of_words hw));
           q_array := {| align_device_addr := u32 (device_addr + offset);
                         align_virtual_addr := Some arr;
                         mem_size := VIDC_IFACEQ_QUEUE_SIZE;
                         area_mem := area_mem (q_array old) |} |},
        offset + VIDC_IFACEQ_QUEUE_SIZE).

Fixpoint init_queues (words : list Z) (device_addr i offset : Z) (qs : list msm_vidc_iface_q_info) :
    exec (list msm_vidc_iface_q_info) :=
  match qs with
  | [] => Done []
  | q :: qs =>
      '(q, offset) ← init_queue words device_addr i offset q;
      qs ← init_queues words device_addr (i + 1) offset qs;
      Done (q :: qs)
  end.

Definition table_header : hfi_queue_table_header :=
  {| qtbl_version := 0; qtbl_size := VIDC_IFACEQ_TABLE_SIZE; qtbl_qhdr0_offset := sizeof_table_header;
     qtbl_qhdr_size := sizeof_queue_header; qtbl_num_q := VIDC_IFACEQ_NUMQ;
     qtbl_num_active_q := VIDC_IFACEQ_NUMQ; qtbl_name := "msm_v4l2_vidc"%string |}.

(** What the kernel answers during one venus_hfi_queue_init. *)
Record init_answers := {
  a_queues : alloc_answer;
  a_sfr : alloc_answer;
  a_synx : Z + Z;
  a_aon : Z;
  a_fence : Z;
  a_qtimer : Z;
  a_mmap : alloc_answer }.

(** The request for an area of a size, as the calls fill it in. *)
Definition mem_request (size : Z) : msm_vidc_mem :=
  {| vm_region := MSM_VIDC_NON_SECURE; vm_size := size; vm_secure := false; vm_map_kernel := true;
     vm_dmabuf := None; vm_kvaddr := false; vm_device_addr := 0; vm_refcount := 0;
     vm_attach := false; vm_phys_addr := 0 |}.

Section Init.
Context `{VidcPlatform}.

Definition area (m : msm_vidc_mem) (words : list Z) (size : Z) : msm_vidc_mem_addr :=
  {| align_device_addr := u32 (vm_device_addr m); align_virtual_addr := Some words;
     mem_size := size; area_mem := m |}.

(** The queues. *)
Definition init_iface_queues (a : alloc_answer) (c : msm_vidc_core) : exec (Z * msm_vidc_core) :=
  let '(rc, m, words, k) := memory_alloc_map a (mem_request TOTAL_QSIZE) (resources c) in
  let c := set_held c (synx_queue c) k in
  if negb (rc =? 0) then Done (- ENOMEM, c)
  else
    words ← deref words;
    qs ← init_queues words (vm_device_addr m) 0 VIDC_IFACEQ_TABLE_SIZE (iface_queues c);
    qs ← set_directions qs;
    Done (0, set_queues c qs (Some table_header) (area m [] VIDC_IFACEQ_TABLE_SIZE)).

(** The subsystem failure reason buffer; its first word is its size. *)
Definition init_sfr (a : alloc_answer) (c : msm_vidc_core) : exec (Z * msm_vidc_core) :=
  let '(rc, m, words, k) := memory_alloc_map a (mem_request ALIGNED_SFR_SIZE) (resources c) in
  let c := set_held c (synx_queue c) k in
  if negb (rc =? 0) then Done (- ENOMEM, c)
  else
    words ← deref words;
    words ← zstore 0 ALIGNED_SFR_SIZE words;
    Done (0, set_areas c (area m words ALIGNED_SFR_SIZE) (mmap_buf c)).

Definition init_synx (a : Z + Z) (c : msm_vidc_core) : exec (Z * msm_vidc_core) :=
  if negb (supports_synx_fence c) then Done (0, c)
  else
    let '(rc, m, k) := msm_vidc_dma_map_page a (synx_queue c) (resources c) in
    Done (if negb (rc =? 0) then - ENOMEM else 0, set_held c m k).

(** venus_hfi_iommu_map_registers *)
Definition venus_hfi_iommu_map_registers (a reg_region : Z) (old : msm_vidc_mem_addr) (k : vidc_resources) :
    Z * msm_vidc_mem_addr * vidc_resources :=
  match venus_hfi_get_device_region_info reg_region with
  | None => (0, old, k)
  | Some r =>
      let m := {| vm_region := MSM_VIDC_NON_SECURE; vm_size := dr_size r; vm_secure := false;
                  vm_map_kernel := false; vm_dmabuf := None; vm_kvaddr := false;
                  vm_device_addr := dr_dev_addr r; vm_refcount := 0; vm_attach := false;
                  vm_phys_addr := dr_phy_addr r |} in
      let '(rc, k) := msm_vidc_iommu_map a m k in
      if negb (rc =? 0) then (- ENOMEM, old, k)
      else (0, {| align_device_addr := u32 (vm_device_addr m);
                  align_virtual_addr := align_virtual_addr old; mem_size := mem_size old;
                  area_mem := m |}, k)
  end.

Definition init_aon (a : Z) (c : msm_vidc_core) : exec (Z * msm_vidc_core) :=
  let '(rc, r, k) := venus_hfi_iommu_map_registers a MSM_VIDC_AON (aon_reg c) (resources c) in
  Done (rc, set_held (set_regs c r (fence_reg c) (qtimer_reg c)) (synx_queue c) k).
Definition init_fence (a : Z) (c : msm_vidc_core) : exec (Z * msm_vidc_core) :=
  let '(rc, r, k) := venus_hfi_iommu_map_registers a MSM_VIDC_PROTOCOL_FENCE_CLIENT_VPU
                       (fence_reg c) (resources c) in
  Done (rc, set_held (set_regs c (aon_reg c) r (qtimer_reg c)) (synx_queue c) k).
Definition init_qtimer (a : Z) (c : msm_vidc_core) : exec (Z * msm_vidc_core) :=
  let '(rc, r, k) := venus_hfi_iommu_map_registers a MSM_VIDC_QTIMER (qtimer_reg c) (resources c) in
  Done (rc, set_held (set_regs c (aon_reg c) (fence_reg c) r) (synx_queue c) k).

(** Address and size of an area at two words of the payload, if it has an
    address. *)
Definition put_area (i : Z) (m : msm_vidc_mem) (payload : list Z) : exec (list Z) :=
  if vm_device_addr m =? 0 then Done payload
  else
    payload ← zstore i (u32 (vm_device_addr m)) payload;
    zstore (i + 1) (vm_size m) payload.

(** The buffer for HFI_MMAP_ADDR, which tells the firmware the areas. *)
Definition init_mmap (a : alloc_answer) (c : msm_vidc_core) : exec (Z * msm_vidc_core) :=
  let '(rc, m, words, k) := memory_alloc_map a (mem_request ALIGNED_MMAP_BUF_SIZE) (resources c) in
  let c := set_held c (synx_queue c) k in
  if negb (rc =? 0) then Done (- ENOMEM, c)
  else
    words ← deref words;
    let n := ALIGNED_MMAP_BUF_SIZE / 4 in
    payload ← memcpy words 0 (replicate (Z.to_nat n) 0) 0 n;
    payload ← zstore 0 1 payload;
    payload ← put_area 11 (area_mem (aon_reg c)) payload;
    payload ← put_area 13 (synx_queue c) payload;
    payload ← put_area 19 (area_mem (fence_reg c)) payload;
    payload ← put_area 21 (area_mem (qtimer_reg c)) payload;
    Done (0, set_areas c (sfr c) (area m payload ALIGNED_MMAP_BUF_SIZE)).

(** The parts in order; the first failure ends the call. *)
Definition init_next (r : exec (Z * msm_vidc_core)) (f : msm_vidc_core -> exec (Z * msm_vidc_core)) :
    exec (Z * msm_vidc_core) :=
  '(rc, c) ← r; if negb (rc =? 0) then Done (rc, c) else f c.

Definition venus_hfi_queue_init (a : init_answers) (c : msm_vidc_core) : exec (Z * msm_vidc_core) :=
  match align_virtual_addr (iface_q_table c) with
  | Some _ => '(_, c) ← venus_hfi_reset_queue_header c; Done (0, c)
  | None =>
      let r := init_iface_queues (a_queues a) c in
      let r := init_next r (init_sfr (a_sfr a)) in
      let r := init_next r (init_synx (a_synx a)) in
      let r := init_next r (init_aon (a_aon a)) in
      let r := init_next r (init_fence (a_fence a)) in
      let r := init_next r (init_qtimer (a_qtimer a)) in
      init_next r (init_mmap (a_mmap a))
  end.

(** ** Deinitialisation *)
Definition clear_area (m : msm_vidc_mem) (x : msm_vidc_mem_addr) : msm_vidc_mem_addr :=
  {| align_device_addr := 0; align_virtual_addr := None; mem_size := mem_size x; area_mem := m |}.
Definition clear_queue (q : msm_vidc_iface_q_info) : msm_vidc_iface_q_info :=
  {| q_hdr := None; q_array := clear_area (area_mem (q_array q)) (q_array q) |}.

Definition venus_hfi_queue_deinit (c : msm_vidc_core) : msm_vidc_core :=
  match align_virtual_addr (iface_q_table c) with
  | None => c
  | Some _ =>
      let '(_, mq, k) := memory_unmap_free (area_mem (iface_q_table c)) (resources c) in
      let '(_, ms, k) := memory_unmap_free (area_mem (sfr c)) k in
      let '(_, ma, k) := msm_vidc_iommu_unmap (area_mem (aon_reg c)) k in
      let '(_, mf, k) := msm_vidc_iommu_unmap (area_mem (fence_reg c)) k in
      let '(_, mt, k) := msm_vidc_iommu_unmap (area_mem (qtimer_reg c)) k in
      let '(_, mm, k) := memory_unmap_free (area_mem (mmap_buf c)) k in
      let '(_, sq, k) := msm_vidc_dma_unmap_page (synx_queue c) k in
      let c := set_queues c (map clear_queue (iface_queues c)) None (clear_area mq (iface_q_table c)) in
      let c := set_areas c (clear_area ms (sfr c)) (clear_area mm (mmap_buf c)) in
      let c := set_regs c (clear_area ma (aon_reg c)) (clear_area mf (fence_reg c))
                 (clear_area mt (qtimer_reg c)) in
      set_held c sq k
  end.
End Init.
