(* ===== verification/VidcHfiInv.v ===== *)
(** What the video core holds of the kernel: the invariant [holds_ok] that its
    buffers, register ranges and page ranges are those its areas record, and
    that each part of the initialisation, and the deinitialisation, keep it;
    then the buffers that refused attachments leave behind, and that the code
    does the same with and without them. *)
From S2P Require Import Prelude VidcQueue VidcQueueSpec VidcMem VidcHfi.

(** An answer that allocates a dma-buf and then refuses to attach it: the
    code leaves such a buffer behind. *)
Definition attach_refused (a : alloc_answer) : Prop :=
  match an_alloc a, an_attach a with inr _, inl _ => True | _, _ => False end.
Definition alloc_good (a : alloc_answer) : bool :=
  match an_alloc a, an_attach a with inr _, inr _ => true | _, _ => false end.

(** Errors are not zero, and an allocation has the words that were asked
    for. *)
Definition alloc_sized (size : Z) (a : alloc_answer) : Prop :=
  match an_alloc a with inl rc => rc <> 0 | inr words => zlength words = size / 4 end /\
  match an_attach a with inl rc => rc <> 0 | inr _ => True end.

Record answers_ok (a : init_answers) : Prop := {
  ok_queues : alloc_sized TOTAL_QSIZE (a_queues a);
  ok_sfr : alloc_sized ALIGNED_SFR_SIZE (a_sfr a);
  ok_mmap : alloc_sized ALIGNED_MMAP_BUF_SIZE (a_mmap a);
  ok_synx : match a_synx a with inl rc => rc <> 0 | inr _ => True end }.

Definition none_refused (a : init_answers) : Prop :=
  ~ attach_refused (a_queues a) /\ ~ attach_refused (a_sfr a) /\ ~ attach_refused (a_mmap a).

(** An area that is not allocated, or is allocated and attached once. *)
Definition mem_free (m : msm_vidc_mem) : Prop := vm_dmabuf m = None /\ vm_refcount m = 0.
Definition mem_held (m : msm_vidc_mem) : Prop := is_Some (vm_dmabuf m) /\ vm_refcount m = 1.

Definition area_bufs (c : msm_vidc_core) : list Z :=
  omap vm_dmabuf [area_mem (mmap_buf c); area_mem (sfr c); area_mem (iface_q_table c)].
Definition range_of (x : msm_vidc_mem_addr) : Z * Z := (vm_device_addr (area_mem x), vm_size (area_mem x)).

Section Holds.
Context `{VidcPlatform}.

Definition range_held (r : Z * Z) (x : msm_vidc_mem_addr) : Prop :=
  r = range_of x /\ msm_vidc_get_context_bank_for_region (vm_region (area_mem x)) = true.

Record holds_ok (c : msm_vidc_core) : Prop := {
  h_queues : length (iface_queues c) = 3%nat;
  h_live : live_bufs (resources c) = area_bufs c;
  h_attached : attached_bufs (resources c) = area_bufs c;
  h_fresh : Forall (fun b => b < next_buf (resources c)) (area_bufs c);
  h_nodup : NoDup (area_bufs c);
  h_mmap : mem_free (area_mem (mmap_buf c)) \/ mem_held (area_mem (mmap_buf c));
  h_sfr : mem_free (area_mem (sfr c)) \/ mem_held (area_mem (sfr c));
  h_table : mem_free (area_mem (iface_q_table c)) \/ mem_held (area_mem (iface_q_table c));
  h_synx : (vm_refcount (synx_queue c) = 0 /\ dma_pages (resources c) = 0) \/
           (vm_refcount (synx_queue c) = 1 /\ dma_pages (resources c) = 1 /\
            msm_vidc_get_context_bank_for_region (vm_region (synx_queue c)) = true);
  h_ranges : Forall (fun r => range_held r (aon_reg c) \/ range_held r (fence_reg c) \/
                              range_held r (qtimer_reg c)) (iommu_ranges (resources c));
  h_headers : is_Some (align_virtual_addr (iface_q_table c)) ->
              Forall (fun q => is_Some (q_hdr q)) (iface_queues c) }.

(** Nothing is held. *)
Definition holds_nothing (k : vidc_resources) : Prop :=
  live_bufs k = [] /\ attached_bufs k = [] /\ iommu_ranges k = [] /\ dma_pages k = 0.

(** The state before the first initialisation and after each
    deinitialisation: no queue, no area, and nothing held. *)
Record core_fresh (c : msm_vidc_core) : Prop := {
  f_queues : length (iface_queues c) = 3%nat;
  f_arrays : Forall (fun q => align_virtual_addr (q_array q) = None) (iface_queues c);
  f_table : align_virtual_addr (iface_q_table c) = None;
  f_sfr : align_virtual_addr (sfr c) = None;
  f_mmap : align_virtual_addr (mmap_buf c) = None;
  f_mems : mem_free (area_mem (iface_q_table c)) /\ mem_free (area_mem (sfr c)) /\
           mem_free (area_mem (mmap_buf c)) /\ vm_refcount (synx_queue c) = 0;
  f_nothing : holds_nothing (resources c) }.

Lemma core_fresh_holds c : core_fresh c -> holds_ok c.
Proof.
  intros [Hq Hv Ht Hs Hm (Mt & Ms & Mm & Hx) (Kl & Ka & Ki & Kp)].
  assert (E : area_bufs c = []).
  { unfold area_bufs. cbn. destruct Mt as [-> _], Ms as [-> _], Mm as [-> _]. done. }
  split; rewrite ?E, ?Kl, ?Ka, ?Ki; auto; try constructor; try done.
  rewrite Ht. intros [x Hx']. discriminate.
Qed.

(** ** Allocation and release *)
Definition allocated (m : msm_vidc_mem) (b addr : Z) : msm_vidc_mem := mem_set (Some b) true addr 1 true m.

(** The kernel has a context bank for the non-secure region. *)
Definition non_secure_bank : Prop := msm_vidc_get_context_bank_for_region MSM_VIDC_NON_SECURE = true.

Lemma alloc_map_cases (Hcb : non_secure_bank) a size k :
  alloc_sized size a -> ~ attach_refused a ->
  (alloc_good a = true /\ exists words addr,
     an_attach a = inr addr /\ an_alloc a = inr words /\ zlength words = size / 4 /\
     memory_alloc_map a (mem_request size) k
       = (0, allocated (mem_request size) (next_buf k) addr, Some words,
          set_bufs (next_buf k + 1) (next_buf k :: live_bufs k) (next_buf k :: attached_bufs k) k)) \/
  (alloc_good a = false /\ exists m,
     memory_alloc_map a (mem_request size) k = (- EINVAL, m, None, k)).
Proof.
  intros [Ha Hb] Hr. unfold alloc_good, attach_refused, memory_alloc_map, msm_vidc_memory_alloc_ext,
    msm_vidc_memory_map_ext in *. unfold non_secure_bank in Hcb.
  destruct (an_alloc a) as [rc|words].
  - right. split; [done|]. cbn. rewrite (proj2 (Z.eqb_neq rc 0)) by lia. eauto.
  - destruct (an_attach a) as [rc|addr]; [done|]. left. split; [done|]. exists words, addr. cbn.
    now rewrite Hcb.
Qed.

(** A refused attachment: the error is reported, the dma-buf stays. *)
Lemma alloc_map_refused a size k :
  alloc_sized size a -> attach_refused a ->
  exists m words, memory_alloc_map a (mem_request size) k
    = (- EINVAL, m, words, set_bufs (next_buf k + 1) (next_buf k :: live_bufs k) (attached_bufs k) k).
Proof.
  intros [_ Hb] Hr. unfold attach_refused, memory_alloc_map, msm_vidc_memory_alloc_ext,
    msm_vidc_memory_map_ext in *.
  destruct (an_alloc a) as [rc|words]; [done|]. destruct (an_attach a) as [rc|addr]; [|done]. cbn.
  destruct (msm_vidc_get_context_bank_for_region MSM_VIDC_NON_SECURE); cbn;
    [rewrite (proj2 (Z.eqb_neq rc 0)) by lia|]; eauto.
Qed.

Lemma remove_head b l : b ∉ l -> List.remove Z.eq_dec b (b :: l) = l.
Proof.
  intros Hb. rewrite List.remove_cons. apply List.notin_remove. now rewrite <- list_elem_of_In.
Qed.

Lemma holds_fresh_id c : holds_ok c -> next_buf (resources c) ∉ area_bufs c.
Proof. intros Hk Hin. pose proof (h_fresh c Hk) as F. rewrite Forall_elem in F. specialize (F _ Hin). lia. Qed.

(** ** The parts of the initialisation *)

(** What all parts after the first leave alone. *)
Definition queues_kept (c c' : msm_vidc_core) : Prop :=
  iface_queues c' = iface_queues c /\ iface_q_table c' = iface_q_table c /\ q_tbl_hdr c' = q_tbl_hdr c.

Lemma queues_kept_trans c1 c2 c3 : queues_kept c1 c2 -> queues_kept c2 c3 -> queues_kept c1 c3.
Proof. unfold queues_kept. intros (-> & -> & ->). auto. Qed.

Lemma set_held_holds c k :
  holds_ok c -> live_bufs k = live_bufs (resources c) -> attached_bufs k = attached_bufs (resources c) ->
  next_buf k = next_buf (resources c) -> iommu_ranges k = iommu_ranges (resources c) ->
  dma_pages k = dma_pages (resources c) -> holds_ok (set_held c (synx_queue c) k).
Proof.
  intros [] E1 E2 E3 E4 E5. split; cbn; rewrite ?E1, ?E2, ?E3, ?E4, ?E5; auto.
Qed.

(** One more buffer, held by one more area. *)
Lemma holds_add_buf c c' :
  holds_ok c ->
  resources c' = set_bufs (next_buf (resources c) + 1) (next_buf (resources c) :: live_bufs (resources c))
                   (next_buf (resources c) :: attached_bufs (resources c)) (resources c) ->
  area_bufs c' = next_buf (resources c) :: area_bufs c ->
  (mem_free (area_mem (mmap_buf c')) \/ mem_held (area_mem (mmap_buf c'))) ->
  (mem_free (area_mem (sfr c')) \/ mem_held (area_mem (sfr c'))) ->
  (mem_free (area_mem (iface_q_table c')) \/ mem_held (area_mem (iface_q_table c'))) ->
  synx_queue c' = synx_queue c -> aon_reg c' = aon_reg c -> fence_reg c' = fence_reg c ->
  qtimer_reg c' = qtimer_reg c -> length (iface_queues c') = 3%nat ->
  (is_Some (align_virtual_addr (iface_q_table c')) -> Forall (fun q => is_Some (q_hdr q)) (iface_queues c')) ->
  holds_ok c'.
Proof.
  intros Hk E Eb Hm Hs Ht Ex Ea Ef Eq Hl Hh. pose proof (holds_fresh_id c Hk) as Hn. destruct Hk.
  split; rewrite ?E, ?Eb, ?Ex, ?Ea, ?Ef, ?Eq; cbn; auto.
  - now f_equal.
  - now f_equal.
  - constructor; [lia|]. eapply Forall_impl; [eassumption|]. cbn. intros; lia.
  - now constructor.
Qed.

Lemma init_sfr_step (Hcb : non_secure_bank) a c :
  holds_ok c -> mem_free (area_mem (sfr c)) -> mem_free (area_mem (mmap_buf c)) ->
  alloc_sized ALIGNED_SFR_SIZE a -> ~ attach_refused a ->
  exists c', init_sfr a c = Done (if alloc_good a then 0 else - ENOMEM, c') /\
    holds_ok c' /\ queues_kept c c' /\
    c' = set_held (set_areas c (sfr c') (mmap_buf c)) (synx_queue c) (resources c') /\
    iommu_ranges (resources c') = iommu_ranges (resources c) /\
    (if alloc_good a
     then exists words, align_virtual_addr (sfr c') = Some words /\ words.[0] = Some ALIGNED_SFR_SIZE
     else sfr c' = sfr c).
Proof.
  intros Hk [Hs1 Hs2] [Hm1 Hm2] Ha Hr. unfold init_sfr.
  destruct (alloc_map_cases Hcb a ALIGNED_SFR_SIZE (resources c) Ha Hr)
    as [(-> & words & addr & _ & _ & Hl & ->)|(-> & m & ->)].
  - cbn [negb Z.eqb deref mbind exec_bind].
    rewrite zstore_ok by (rewrite Hl; split; reflexivity || (vm_compute; discriminate)).
    eexists. split; [reflexivity|]. pose proof Hk as [].
    split; [|split; [now split|split; [reflexivity|split; [reflexivity|]]]].
    + apply (holds_add_buf c); try done; cbn.
      * unfold area_bufs. cbn. now rewrite Hs1, Hm1.
      * right. split; [eauto|done].
    + eexists. split; [reflexivity|]. apply zlookup_insert_eq. rewrite Hl. split; [lia|reflexivity].
  - cbn. eexists. split; [reflexivity|]. split; [now apply set_held_holds|].
    split; [done|]. split; [now destruct c|]. done.
Qed.

Definition synx_good (a : Z + Z) (c : msm_vidc_core) : bool :=
  negb (supports_synx_fence c)
  || (msm_vidc_get_context_bank_for_region (vm_region (synx_queue c))
      && match a with inl _ => false | inr _ => true end).

Lemma init_synx_step a c :
  holds_ok c -> vm_refcount (synx_queue c) = 0 ->
  match a with inl rc => rc <> 0 | inr _ => True end ->
  exists c', init_synx a c = Done (if synx_good a c then 0 else - ENOMEM, c') /\
    holds_ok c' /\ queues_kept c c' /\
    c' = set_held c (synx_queue c') (set_pages (dma_pages (resources c')) (resources c)).
Proof.
  intros Hk Hx Ha. unfold init_synx, synx_good.
  assert (Hsame : forall n, n = dma_pages (resources c) ->
            c = set_held c (synx_queue c) (set_pages n (resources c))).
  { intros n ->. destruct c as [? ? ? ? ? ? ? ? ? ? ? ? ? []]. reflexivity. }
  destruct (supports_synx_fence c); cbn [negb orb].
  2: { exists c. split; [done|]. split; [done|]. split; [done|]. now apply Hsame. }
  unfold msm_vidc_dma_map_page. rewrite Hx. cbn [negb Z.eqb].
  destruct (msm_vidc_get_context_bank_for_region (vm_region (synx_queue c))) eqn:Ec; cbn [negb andb].
  2: { cbn. eexists. split; [reflexivity|]. split; [now apply set_held_holds|]. split; [done|].
       cbn. f_equal. now destruct (resources c). }
  destruct a as [rc|addr].
  - rewrite (proj2 (Z.eqb_neq rc 0)) by lia. cbn. eexists. split; [reflexivity|].
    split; [now apply set_held_holds|]. split; [done|]. cbn. f_equal. now destruct (resources c).
  - cbn. eexists. split; [reflexivity|]. split; [|split; [done|reflexivity]].
    destruct Hk. split; cbn; auto. right. destruct h_synx0 as [[_ ->]|[E _]]; [done|lia].
Qed.

(** The range of a register area after its mapping. *)
Definition reg_mem (region : Z) (old : msm_vidc_mem) : msm_vidc_mem :=
  match venus_hfi_get_device_region_info region with
  | None => old
  | Some r =>
      {| vm_region := MSM_VIDC_NON_SECURE; vm_size := dr_size r; vm_secure := false;
         vm_map_kernel := false; vm_dmabuf := None; vm_kvaddr := false;
         vm_device_addr := dr_dev_addr r; vm_refcount := 0; vm_attach := false;
         vm_phys_addr := dr_phy_addr r |}
  end.
Definition reg_good (a region : Z) : bool :=
  match venus_hfi_get_device_region_info region with None => true | Some _ => a =? 0 end.

Lemma map_registers_cases (Hcb : non_secure_bank) a region old k :
  exists x k',
    venus_hfi_iommu_map_registers a region old k = (if reg_good a region then 0 else - ENOMEM, x, k') /\
    (if reg_good a region then area_mem x = reg_mem region (area_mem old) else x = old) /\
    (k' = k \/ (k' = set_ranges (range_of x :: iommu_ranges k) k /\ range_held (range_of x) x)) /\
    (x = old \/ exists r, venus_hfi_get_device_region_info region = Some r).
Proof.
  unfold venus_hfi_iommu_map_registers, reg_good, reg_mem.
  destruct (venus_hfi_get_device_region_info region) as [r|]; [|eauto 8].
  unfold msm_vidc_iommu_map. cbn. unfold non_secure_bank in Hcb. rewrite Hcb. cbn.
  destruct (a =? 0) eqn:Ea; cbn.
  - rewrite Ea. cbn. do 2 eexists. split; [reflexivity|]. cbn. split; [done|]. split; [right|eauto].
    split; [reflexivity|]. split; [reflexivity|exact Hcb].
  - rewrite Ea. cbn. do 2 eexists. split; [reflexivity|]. cbn. auto.
Qed.

(** The same dma-bufs and page ranges. *)
Definition same_bufs (k k' : vidc_resources) : Prop :=
  live_bufs k' = live_bufs k /\ attached_bufs k' = attached_bufs k /\
  next_buf k' = next_buf k /\ dma_pages k' = dma_pages k.

Lemma same_bufs_trans k1 k2 k3 : same_bufs k1 k2 -> same_bufs k2 k3 -> same_bufs k1 k3.
Proof. unfold same_bufs. intros (-> & -> & -> & ->). auto. Qed.

(** New register areas, with the ranges they hold. *)
Lemma holds_set_regs c x y z k :
  holds_ok c -> same_bufs (resources c) k ->
  Forall (fun r => range_held r x \/ range_held r y \/ range_held r z) (iommu_ranges k) ->
  holds_ok (set_held (set_regs c x y z) (synx_queue c) k).
Proof.
  intros [] (E1 & E2 & E3 & E4) F. split; cbn; rewrite ?E1, ?E2, ?E3, ?E4; auto.
Qed.


(** What a register part does to the resources: only ranges of the new area
    are added. *)
Definition ranges_added (x : msm_vidc_mem_addr) (k k' : vidc_resources) : Prop :=
  same_bufs k k' /\
  forall P : Z * Z -> Prop, Forall P (iommu_ranges k) ->
    Forall (fun r => P r \/ range_held r x) (iommu_ranges k').

Lemma map_registers_step (Hcb : non_secure_bank) a region old k :
  exists x k',
    venus_hfi_iommu_map_registers a region old k = (if reg_good a region then 0 else - ENOMEM, x, k') /\
    (if reg_good a region then area_mem x = reg_mem region (area_mem old) else x = old) /\
    ranges_added x k k'.
Proof.
  destruct (map_registers_cases Hcb a region old k) as (x & k' & E & Hx & Hk & _).
  exists x, k'. split; [done|]. split; [done|]. destruct Hk as [->|[-> Hr]].
  - split; [done|]. intros P F. eapply Forall_impl; [exact F|]. auto.
  - split; [done|]. intros P F. cbn. constructor; [auto|].
    eapply Forall_impl; [exact F|]. auto.
Qed.

(** The three register parts from a state without ranges, as one. *)
Definition init_regs (a : init_answers) (c : msm_vidc_core) : exec (Z * msm_vidc_core) :=
  init_next (init_next (init_aon (a_aon a) c) (init_fence (a_fence a))) (init_qtimer (a_qtimer a)).

Definition regs_good (a : init_answers) : bool :=
  reg_good (a_aon a) MSM_VIDC_AON && reg_good (a_fence a) MSM_VIDC_PROTOCOL_FENCE_CLIENT_VPU
  && reg_good (a_qtimer a) MSM_VIDC_QTIMER.

Lemma init_regs_step (Hcb : non_secure_bank) a c :
  holds_ok c -> iommu_ranges (resources c) = [] ->
  exists c', init_regs a c = Done (if regs_good a then 0 else - ENOMEM, c') /\
    holds_ok c' /\ queues_kept c c' /\ sfr c' = sfr c /\ mmap_buf c' = mmap_buf c /\
    synx_queue c' = synx_queue c /\
    (regs_good a = true ->
      area_mem (aon_reg c') = reg_mem MSM_VIDC_AON (area_mem (aon_reg c)) /\
      area_mem (fence_reg c') = reg_mem MSM_VIDC_PROTOCOL_FENCE_CLIENT_VPU (area_mem (fence_reg c)) /\
      area_mem (qtimer_reg c') = reg_mem MSM_VIDC_QTIMER (area_mem (qtimer_reg c))).
Proof.
  intros Hk Hr0. unfold init_regs, regs_good, init_aon.
  destruct (map_registers_step Hcb (a_aon a) MSM_VIDC_AON (aon_reg c) (resources c))
    as (xa & ka & -> & Ha & [Eka Fa]).
  specialize (Fa (fun _ => False)). rewrite Hr0 in Fa. specialize (Fa ltac:(constructor)).
  unfold init_next at 2. cbn [mbind exec_bind].
  destruct (reg_good (a_aon a) MSM_VIDC_AON); cbn [andb negb Z.eqb Z.opp ENOMEM].
  2: { cbn. eexists. split; [reflexivity|]. split; [|now repeat split].
       apply holds_set_regs; [done|done|]. eapply Forall_impl; [exact Fa|]. cbn. tauto. }
  unfold init_fence.
  cbn [aon_reg fence_reg qtimer_reg resources set_held set_regs synx_queue].
  destruct (map_registers_step Hcb (a_fence a) MSM_VIDC_PROTOCOL_FENCE_CLIENT_VPU (fence_reg c) ka)
    as (xf & kf & -> & Hf & [Ekf Ff]).
  specialize (Ff _ Fa). unfold init_next. cbn [mbind exec_bind].
  destruct (reg_good (a_fence a) MSM_VIDC_PROTOCOL_FENCE_CLIENT_VPU); cbn [andb negb Z.eqb Z.opp ENOMEM].
  2: { cbn. eexists. split; [reflexivity|]. split; [|now repeat split].
       change (holds_ok (set_held (set_regs c xa xf (qtimer_reg c)) (synx_queue c) kf)).
       apply holds_set_regs; [done|exact (same_bufs_trans _ _ _ Eka Ekf)|]. eapply Forall_impl; [exact Ff|]. cbn. tauto. }
  unfold init_qtimer.
  cbn [aon_reg fence_reg qtimer_reg resources set_held set_regs synx_queue].
  destruct (map_registers_step Hcb (a_qtimer a) MSM_VIDC_QTIMER (qtimer_reg c) kf)
    as (xt & kt & -> & Ht & [Ekt Ft]).
  specialize (Ft _ Ff). cbn.
  assert (Hh : holds_ok (set_held (set_regs c xa xf xt) (synx_queue c) kt)).
  { apply holds_set_regs; [done|exact (same_bufs_trans _ _ _ (same_bufs_trans _ _ _ Eka Ekf) Ekt)|].
    eapply Forall_impl; [exact Ft|]. cbn. tauto. }
  eexists. split; [reflexivity|]. split; [exact Hh|]. split; [now repeat split|].
  do 3 (split; [done|]). cbn. intros Hg. rewrite Hg in Ht. auto.
Qed.

(** ** The payload of the HFI_MMAP_ADDR buffer *)

(** Word [i] of the description of an area: nothing without an address. *)
Definition area_word (m : msm_vidc_mem) (i : Z) : Z :=
  if vm_device_addr m =? 0 then 0 else if i =? 0 then u32 (vm_device_addr m) else vm_size m.

Definition payload_word (aon synx fence qtimer : msm_vidc_mem) (j : Z) : Z :=
  if j =? 0 then 1
  else if (11 <=? j) && (j <=? 12) then area_word aon (j - 11)
  else if (13 <=? j) && (j <=? 14) then area_word synx (j - 13)
  else if (19 <=? j) && (j <=? 20) then area_word fence (j - 19)
  else if (21 <=? j) && (j <=? 22) then area_word qtimer (j - 21)
  else 0.

Lemma put_area_ok i m w :
  0 <= i -> i + 1 < zlength w -> w.[i] = Some 0 -> w.[i + 1] = Some 0 ->
  exists w', put_area i m w = Done w' /\ zlength w' = zlength w /\
    forall j, w'.[j] = if (i <=? j) && (j <=? i + 1) then Some (area_word m (j - i)) else w.[j].
Proof.
  intros Hi Hw H0 H1. unfold put_area, area_word. destruct (vm_device_addr m =? 0).
  - exists w. split; [done|]. split; [done|]. intros j. case_test; [|done].
    assert (j = i \/ j = i + 1) as [-> | ->] by lia; done.
  - rewrite zstore_ok by lia. cbn [mbind exec_bind]. rewrite zstore_ok by (rewrite zlength_insert; lia).
    eexists. split; [reflexivity|]. split; [now rewrite !zlength_insert|]. intros j.
    rewrite !zlookup_insert_cases by (rewrite ?zlength_insert; lia).
    destruct (i + 1 =? j) eqn:E1; zb.
    + subst j. test_true ((i <=? i + 1) && (i + 1 <=? i + 1)). test_false (i + 1 - i =? 0). done.
    + destruct (i =? j) eqn:E2; zb.
      * subst j. test_true ((i <=? i) && (i <=? i + 1)). now rewrite Z.sub_diag.
      * case_test; [lia|done].
Qed.

Lemma memset_zero words n :
  zlength words = n -> 0 <= n ->
  exists w, memcpy words 0 (replicate (Z.to_nat n) 0) 0 n = Done w /\ zlength w = n /\
    forall j, 0 <= j < n -> w.[j] = Some 0.
Proof.
  intros Hl Hn. assert (Hr : zlength (replicate (Z.to_nat n) 0) = n).
  { unfold zlength. rewrite length_replicate. lia. }
  destruct (memcpy_ok words 0 (replicate (Z.to_nat n) 0) 0 n) as (w & E & Hw & Hj); [lia..|].
  exists w. split; [done|]. split; [lia|]. intros j Hj'. rewrite Hj by lia.
  test_true ((0 <=? j) && (j <? 0 + n)). unfold zlookup. rewrite (proj2 (Z.leb_le 0 _)) by lia.
  apply lookup_replicate_2. lia.
Qed.

Lemma mmap_payload words aon synx fence qtimer :
  zlength words = 1024 ->
  exists w,
    (payload ← memcpy words 0 (replicate (Z.to_nat 1024) 0) 0 1024;
     payload ← zstore 0 1 payload;
     payload ← put_area 11 aon payload;
     payload ← put_area 13 synx payload;
     payload ← put_area 19 fence payload;
     put_area 21 qtimer payload) = Done w /\ zlength w = 1024 /\
    forall j, 0 <= j < 1024 -> w.[j] = Some (payload_word aon synx fence qtimer j).
Proof.
  intros Hl. destruct (memset_zero words 1024 Hl) as (w0 & -> & L0 & H0); [lia|].
  cbn [mbind exec_bind]. rewrite zstore_ok by lia. cbn [mbind exec_bind].
  set (w1 := zinsert 0 1 w0).
  assert (L1 : zlength w1 = 1024) by (unfold w1; now rewrite zlength_insert).
  assert (H1 : forall j, 0 <= j < 1024 -> w1.[j] = if j =? 0 then Some 1 else Some 0).
  { intros j Hj. unfold w1. rewrite zlookup_insert_cases by lia. rewrite Z.eqb_sym.
    case_test; [done|now apply H0]. }
  destruct (put_area_ok 11 aon w1) as (w2 & -> & L2 & H2); [lia|lia|now rewrite H1 by lia..|].
  cbn [mbind exec_bind].
  destruct (put_area_ok 13 synx w2) as (w3 & -> & L3 & H3); [lia|lia|rewrite H2, H1 by lia; reflexivity..|].
  cbn [mbind exec_bind].
  destruct (put_area_ok 19 fence w3) as (w4 & -> & L4 & H4);
    [lia|lia|rewrite H3, H2, H1 by lia; reflexivity..|].
  cbn [mbind exec_bind].
  destruct (put_area_ok 21 qtimer w4) as (w5 & -> & L5 & H5);
    [lia|lia|rewrite H4, H3, H2, H1 by lia; reflexivity..|].
  exists w5. split; [done|]. split; [lia|]. intros j Hj. rewrite H5, H4, H3, H2, H1 by done.
  unfold payload_word.
  destruct (j =? 0) eqn:E0; zb; [subst; done|].
  repeat match goal with
  | |- context [?a <=? ?b] => destruct (Z.leb_spec a b); cbn [andb]; try lia
  end; done.
Qed.

Lemma init_mmap_step (Hcb : non_secure_bank) a c :
  holds_ok c -> mem_free (area_mem (mmap_buf c)) ->
  alloc_sized ALIGNED_MMAP_BUF_SIZE a -> ~ attach_refused a ->
  exists c', init_mmap a c = Done (if alloc_good a then 0 else - ENOMEM, c') /\
    holds_ok c' /\ queues_kept c c' /\
    c' = set_held (set_areas c (sfr c) (mmap_buf c')) (synx_queue c) (resources c') /\
    (if alloc_good a
     then exists w, align_virtual_addr (mmap_buf c') = Some w /\ zlength w = 1024 /\
            forall j, 0 <= j < 1024 ->
              w.[j] = Some (payload_word (area_mem (aon_reg c)) (synx_queue c)
                              (area_mem (fence_reg c)) (area_mem (qtimer_reg c)) j)
     else mmap_buf c' = mmap_buf c).
Proof.
  intros Hk [Hm1 Hm2] Ha Hr. unfold init_mmap.
  change (ALIGNED_MMAP_BUF_SIZE / 4) with 1024. cbv zeta.
  destruct (alloc_map_cases Hcb a ALIGNED_MMAP_BUF_SIZE (resources c) Ha Hr)
    as [(-> & words & addr & _ & _ & Hl & ->)|(-> & m & ->)].
  - cbn [negb Z.eqb deref mbind exec_bind].
    destruct (mmap_payload words (area_mem (aon_reg c)) (synx_queue c) (area_mem (fence_reg c))
                (area_mem (qtimer_reg c)) Hl) as (w & E & Lw & Hw).
    cbn [aon_reg fence_reg qtimer_reg synx_queue set_held] in *.
    repeat (apply bind_Done in E as (? & E0 & E); rewrite E0; clear E0; cbn [mbind exec_bind]).
    rewrite E. cbn [mbind exec_bind].
    eexists. split; [reflexivity|]. pose proof Hk as [].
    split; [|split; [now split|split; [reflexivity|eauto]]].
    apply (holds_add_buf c); try done; cbn.
    + unfold area_bufs. cbn. now rewrite Hm1.
    + right. split; [eauto|done].
  - cbn. eexists. split; [reflexivity|]. split; [now apply set_held_holds|].
    split; [done|]. split; [|done]. destruct c. reflexivity.
Qed.

(** ** The queues *)

(** Queue [i] of a table at device address [addr] whose memory held [words]:
    its array is its part of the memory, its header describes it as empty. *)
Definition queue_ready (words : list Z) (addr i : Z) (q : msm_vidc_iface_q_info) : Prop :=
  exists arr h,
    geometry 204800 q arr h /\
    arr = take (Z.to_nat 204800) (drop (Z.to_nat (114 + i * 204800)) words) /\
    align_device_addr (q_array q) = u32 (addr + (456 + i * 819200)) /\
    qhdr_start_addr h = align_device_addr (q_array q) /\
    qhdr_type h = 0x01010000 + i /\ qhdr_q_size h = 204800 /\
    qhdr_read_idx h = 0 /\ qhdr_write_idx h = 0 /\ qhdr_tx_req h = 0 /\
    qhdr_rx_req h = (if i =? 2 then 0 else 1).

Lemma queue_ready_empty words addr i q : queue_ready words addr i q -> queue_holds 204800 q [].
Proof.
  intros (arr & h & G & _ & _ & _ & _ & _ & Hr & Hw & _). exists arr, h. rewrite Hr, Hw.
  split; [done|]. split; [constructor|]. split; [done|]. split; [lia|]. split; [done|].
  intros i' Hi. unfold zlength in Hi. cbn in Hi. lia.
Qed.

Lemma words_at_ok words off n :
  0 <= off -> off + n <= zlength words ->
  words_at words off n = Done (take (Z.to_nat n) (drop (Z.to_nat off) words)).
Proof. intros H1 H2. unfold words_at. now test_true ((0 <=? off) && (off + n <=? zlength words)). Qed.

Lemma zlength_slice (words : list Z) off n :
  0 <= off -> 0 <= n -> off + n <= zlength words ->
  zlength (take (Z.to_nat n) (drop (Z.to_nat off) words)) = n.
Proof. unfold zlength. intros. rewrite length_take, length_drop. lia. Qed.

Lemma init_queue_ok words addr i q :
  0 <= i < 3 -> zlength words = 783360 ->
  init_queue words addr i (456 + i * 819200) q
    = Done ({| q_hdr := Some (__set_queue_hdr_defaults
                 (header_of_words (take (Z.to_nat 14) (drop (Z.to_nat (72 + i * 14)) words))));
               q_array := {| align_device_addr := u32 (addr + (456 + i * 819200));
                             align_virtual_addr :=
                               Some (take (Z.to_nat 204800) (drop (Z.to_nat (114 + i * 204800)) words));
                             mem_size := 819200; area_mem := area_mem (q_array q) |} |},
            456 + (i + 1) * 819200).
Proof.
  intros Hi Hl. unfold init_queue.
  replace ((456 + i * 819200) / 4) with (114 + i * 204800).
  2: { replace (456 + i * 819200) with ((114 + i * 204800) * 4) by lia. now rewrite Z.div_mul. }
  replace (qhdr_offset i / 4) with (72 + i * 14).
  2: { unfold qhdr_offset, sizeof_table_header, sizeof_queue_header.
       replace (288 + i * 56) with ((72 + i * 14) * 4) by lia. now rewrite Z.div_mul. }
  change (VIDC_IFACEQ_QUEUE_SIZE / 4) with 204800. change (sizeof_queue_header / 4) with 14.
  rewrite !words_at_ok by lia. cbn [mbind exec_bind]. change VIDC_IFACEQ_QUEUE_SIZE with 819200.
  do 2 f_equal. lia.
Qed.

Lemma init_queues_ready words addr q0 q1 q2 :
  zlength words = TOTAL_QSIZE / 4 ->
  exists qs, (qs ← init_queues words addr 0 VIDC_IFACEQ_TABLE_SIZE [q0; q1; q2]; set_directions qs) = Done qs /\
    length qs = 3%nat /\ Forall (fun q => is_Some (q_hdr q)) qs /\
    forall i, 0 <= i < 3 -> exists q, qs.[i] = Some q /\ queue_ready words addr i q.
Proof.
  intros Hl. change (TOTAL_QSIZE / 4) with 783360 in Hl.
  cbn [init_queues]. change VIDC_IFACEQ_TABLE_SIZE with (456 + 0 * 819200).
  rewrite init_queue_ok by lia. cbn [mbind exec_bind].
  rewrite init_queue_ok by lia. cbn [mbind exec_bind].
  rewrite init_queue_ok by lia. cbn [mbind exec_bind].
  cbv [set_directions VIDC_IFACEQ_CMDQ_IDX VIDC_IFACEQ_MSGQ_IDX VIDC_IFACEQ_DBGQ_IDX].
  eexists. split; [reflexivity|]. split; [reflexivity|]. split; [repeat constructor; eauto|].
  assert (Hpart : forall i, 0 <= i < 3 ->
    zlength (take (Z.to_nat 204800) (drop (Z.to_nat (114 + i * 204800)) words)) = 204800).
  { intros i Hi. apply zlength_slice; lia. }
  intros i Hi. assert (i = 0 \/ i = 1 \/ i = 2) as [->|[->| ->]] by lia;
    (eexists; split; [reflexivity|]; do 2 eexists; split; [split; try reflexivity; apply Hpart; lia|];
     repeat split; cbn; reflexivity).
Qed.

Definition alloc_words (a : alloc_answer) : list Z := match an_alloc a with inr w => w | inl _ => [] end.
Definition alloc_addr (a : alloc_answer) : Z := match an_attach a with inr x => x | inl _ => 0 end.

Definition queues_ready (a : alloc_answer) (c : msm_vidc_core) : Prop :=
  is_Some (align_virtual_addr (iface_q_table c)) /\
  q_tbl_hdr c = Some table_header /\
  forall i, 0 <= i < 3 -> exists q, (iface_queues c).[i] = Some q /\
    queue_ready (alloc_words a) (alloc_addr a) i q.

Lemma init_iface_step (Hcb : non_secure_bank) a c :
  core_fresh c -> alloc_sized TOTAL_QSIZE a -> ~ attach_refused a ->
  exists c', init_iface_queues a c = Done (if alloc_good a then 0 else - ENOMEM, c') /\
    holds_ok c' /\ iommu_ranges (resources c') = [] /\
    c' = set_held (set_queues c (iface_queues c') (q_tbl_hdr c') (iface_q_table c')) (synx_queue c) (resources c') /\
    (if alloc_good a then queues_ready a c' else core_fresh c').
Proof.
  intros Hf Ha Hr. pose proof (core_fresh_holds c Hf) as Hk. unfold init_iface_queues.
  destruct Hf as [Hq Hv Ht Hs Hm (Mt & Ms & Mm & Hx) (Kl & Ka & Ki & Kp)].
  destruct (alloc_map_cases Hcb a TOTAL_QSIZE (resources c) Ha Hr)
    as [(Hg & words & addr & E1 & E2 & Hl & ->)|(Hg & m & ->)]; rewrite Hg.
  - cbn [negb Z.eqb deref mbind exec_bind].
    change (vm_device_addr (allocated (mem_request TOTAL_QSIZE) (next_buf (resources c)) addr)) with addr.
    cbn [iface_queues set_held].
    destruct (iface_queues c) as [|q0 [|q1 [|q2 [|]]]] eqn:Eq; try discriminate.
    destruct (init_queues_ready words addr q0 q1 q2 Hl) as (qs & E & Lq & Hh & Hready).
    apply bind_Done in E as (qs0 & -> & E). cbn [mbind exec_bind]. rewrite E. cbn [mbind exec_bind].
    eexists. split; [reflexivity|]. split; [|split; [exact Ki|split; [reflexivity|]]].
    + apply (holds_add_buf c); try done; cbn; auto.
      * unfold area_bufs. cbn. destruct Mm as [-> _], Ms as [-> _], Mt as [-> _]. done.
      * right. split; [eauto|done].
    + split; [eexists; reflexivity|]. split; [reflexivity|]. intros i Hi.
      unfold alloc_words, alloc_addr. rewrite E1, E2. now apply Hready.
  - cbn. eexists. split; [reflexivity|]. split; [now apply set_held_holds|]. split; [exact Ki|].
    split; [now destruct c|]. split; cbn; auto.
    all: now destruct Mt, Ms, Mm.
Qed.

(** ** The whole initialisation *)
Definition init_good (a : init_answers) (c : msm_vidc_core) : bool :=
  alloc_good (a_queues a) && alloc_good (a_sfr a) && synx_good (a_synx a) c && regs_good a
  && alloc_good (a_mmap a).

Lemma init_chain a c :
  align_virtual_addr (iface_q_table c) = None ->
  venus_hfi_queue_init a c
    = (let r := init_iface_queues (a_queues a) c in
       let r := init_next r (init_sfr (a_sfr a)) in
       let r := init_next r (init_synx (a_synx a)) in
       let r := init_next r (init_regs a) in
       init_next r (init_mmap (a_mmap a))).
Proof.
  intros E. unfold venus_hfi_queue_init. rewrite E. cbv zeta. f_equal. unfold init_regs.
  generalize (init_next (init_next (init_iface_queues (a_queues a) c) (init_sfr (a_sfr a)))
                (init_synx (a_synx a))). intros [[rc c']| |]; cbn; [|done..].
  destruct (rc =? 0) eqn:Er; cbn; [reflexivity|]. rewrite Er. cbn. now rewrite Er.
Qed.

Lemma queues_ready_kept a c c' : queues_kept c c' -> queues_ready a c -> queues_ready a c'.
Proof. intros (E1 & E2 & E3) (H1 & H2 & H3). unfold queues_ready. rewrite E1, E2, E3. auto. Qed.

Definition sfr_ready (c : msm_vidc_core) : Prop :=
  exists words, align_virtual_addr (sfr c) = Some words /\ words.[0] = Some ALIGNED_SFR_SIZE.
Definition mmap_ready (c : msm_vidc_core) : Prop :=
  exists w, align_virtual_addr (mmap_buf c) = Some w /\ zlength w = 1024 /\
    forall j, 0 <= j < 1024 ->
      w.[j] = Some (payload_word (area_mem (aon_reg c)) (synx_queue c)
                      (area_mem (fence_reg c)) (area_mem (qtimer_reg c)) j).
(** The register areas are those of the platform, where it has them. *)
Definition regs_ready (c c' : msm_vidc_core) : Prop :=
  area_mem (aon_reg c') = reg_mem MSM_VIDC_AON (area_mem (aon_reg c)) /\
  area_mem (fence_reg c') = reg_mem MSM_VIDC_PROTOCOL_FENCE_CLIENT_VPU (area_mem (fence_reg c)) /\
  area_mem (qtimer_reg c') = reg_mem MSM_VIDC_QTIMER (area_mem (qtimer_reg c)).

(** The parts after the queues. *)
Lemma init_rest (Hcb : non_secure_bank) a c :
  answers_ok a -> none_refused a -> holds_ok c -> iommu_ranges (resources c) = [] ->
  mem_free (area_mem (sfr c)) -> mem_free (area_mem (mmap_buf c)) -> vm_refcount (synx_queue c) = 0 ->
  let good := alloc_good (a_sfr a) && synx_good (a_synx a) c && regs_good a && alloc_good (a_mmap a) in
  exists c',
    init_next (init_next (init_next (init_sfr (a_sfr a) c) (init_synx (a_synx a))) (init_regs a))
      (init_mmap (a_mmap a)) = Done (if good then 0 else - ENOMEM, c') /\
    holds_ok c' /\ queues_kept c c' /\
    (good = false -> align_virtual_addr (mmap_buf c') = align_virtual_addr (mmap_buf c)) /\
    (good = true -> sfr_ready c' /\ mmap_ready c' /\ regs_ready c c').
Proof.
  intros Ha (_ & Ns & Nm) Hk Hr Hs Hm Hx good. unfold good. clear good.
  destruct (init_sfr_step Hcb (a_sfr a) c Hk Hs Hm (ok_sfr a Ha) Ns) as (c1 & -> & Hk1 & Q1 & E1 & R1 & S1).
  unfold init_next at 3. cbn [mbind exec_bind].
  destruct (alloc_good (a_sfr a)) eqn:Eg; cbn [andb negb Z.eqb Z.opp ENOMEM].
  2: { exists c1. split; [done|]. split; [done|]. split; [done|]. split; [now rewrite E1|done]. }
  assert (Hx1 : vm_refcount (synx_queue c1) = 0) by (rewrite E1; exact Hx).
  assert (G1 : synx_good (a_synx a) c1 = synx_good (a_synx a) c) by (rewrite E1; reflexivity).
  destruct (init_synx_step (a_synx a) c1 Hk1 Hx1 (ok_synx a Ha)) as (c2 & -> & Hk2 & Q2 & E2).
  rewrite G1. unfold init_next at 2. cbn [mbind exec_bind].
  destruct (synx_good (a_synx a) c); cbn [andb negb Z.eqb Z.opp ENOMEM].
  2: { exists c2. split; [done|]. split; [done|]. split; [exact (queues_kept_trans _ _ _ Q1 Q2)|].
       split; [now rewrite E2, E1|done]. }
  assert (R2 : iommu_ranges (resources c2) = []) by (rewrite E2; cbn; congruence).
  destruct (init_regs_step Hcb a c2 Hk2 R2) as (c3 & -> & Hk3 & Q3 & S3 & M3 & X3 & G3).
  assert (Q03 : queues_kept c c3) by eauto using queues_kept_trans.
  assert (M0 : mmap_buf c3 = mmap_buf c) by (rewrite M3, E2, E1; reflexivity).
  unfold init_next. cbn [mbind exec_bind].
  destruct (regs_good a); cbn [andb negb Z.eqb Z.opp ENOMEM].
  2: { exists c3. rewrite M0. split; [done|]. split; [exact Hk3|]. split; [exact Q03|]. done. }
  rewrite <- M0 in Hm.
  destruct (init_mmap_step Hcb (a_mmap a) c3 Hk3 Hm (ok_mmap a Ha) Nm) as (c4 & -> & Hk4 & Q4 & E4 & S4).
  exists c4. split; [done|]. split; [done|]. split; [exact (queues_kept_trans _ _ _ Q03 Q4)|].
  destruct (alloc_good (a_mmap a)).
  - split; [done|]. intros _. split; [|split].
    + unfold sfr_ready. rewrite E4. cbn. rewrite S3, E2. exact S1.
    + unfold mmap_ready. rewrite E4. cbn [set_held set_areas aon_reg fence_reg qtimer_reg synx_queue mmap_buf].
      exact S4.
    + unfold regs_ready. rewrite E4. cbn. rewrite E2, E1 in G3. now apply G3.
  - split; [|done]. intros _. now rewrite S4, M0.
Qed.

Lemma init_fresh (Hcb : non_secure_bank) a c :
  core_fresh c -> answers_ok a -> none_refused a ->
  exists c', venus_hfi_queue_init a c = Done (if init_good a c then 0 else - ENOMEM, c') /\
    holds_ok c' /\
    (if alloc_good (a_queues a) then queues_ready (a_queues a) c' else core_fresh c') /\
    (init_good a c = false -> align_virtual_addr (mmap_buf c') = None) /\
    (init_good a c = true -> sfr_ready c' /\ mmap_ready c' /\ regs_ready c c').
Proof.
  intros Hf Ha Hn. rewrite init_chain by apply Hf. cbv zeta. unfold init_good.
  destruct (init_iface_step Hcb (a_queues a) c Hf (ok_queues a Ha) (proj1 Hn)) as (c1 & -> & Hk1 & R1 & E1 & S1).
  unfold init_next at 4. cbn [mbind exec_bind].
  destruct (alloc_good (a_queues a)); cbn [andb negb Z.eqb Z.opp ENOMEM].
  2: { exists c1. split; [done|]. split; [done|]. split; [done|]. split; [|done]. intros _. apply S1. }
  destruct Hf as [_ _ _ Hs Hm (Mt & Ms & Mm & Hx) _].
  destruct (init_rest Hcb a c1 Ha Hn Hk1 R1) as (c2 & E & Hk2 & Q2 & F2 & G2);
    [now rewrite E1|now rewrite E1|now rewrite E1|].
  replace (synx_good (a_synx a) c1) with (synx_good (a_synx a) c) in * by (rewrite E1; reflexivity).
  rewrite E. exists c2. split; [done|]. split; [done|]. split; [exact (queues_ready_kept _ _ _ Q2 S1)|].
  split.
  - intros Hb. rewrite F2 by exact Hb. now rewrite E1.
  - intros Hb. destruct (G2 Hb) as (G3 & G4 & G5). split; [done|]. split; [done|].
    unfold regs_ready in *. rewrite E1 in G5. exact G5.
Qed.

(** ** The deinitialisation *)
Definition drop_buf (o : option Z) (k : vidc_resources) : vidc_resources :=
  match o with
  | Some b => set_bufs (next_buf k) (List.remove Z.eq_dec b (live_bufs k))
                (List.remove Z.eq_dec b (attached_bufs k)) k
  | None => k
  end.

Lemma unmap_free_any m k :
  mem_free m \/ mem_held m ->
  exists rc m', memory_unmap_free m k = (rc, m', drop_buf (vm_dmabuf m) k) /\ mem_free m'.
Proof.
  intros [[E1 E2]|[[b E1] E2]]; unfold memory_unmap_free, msm_vidc_memory_unmap_ext;
    rewrite E2, E1; cbn; do 2 eexists; (split; [reflexivity|]); now split.
Qed.

Lemma drop_buf_in o k x :
  (x ∈ live_bufs (drop_buf o k) -> x ∈ live_bufs k /\ o <> Some x) /\
  (x ∈ attached_bufs (drop_buf o k) -> x ∈ attached_bufs k /\ o <> Some x).
Proof.
  destruct o as [b|]; cbn; [|auto]. rewrite !list_elem_of_In.
  split; intros Hi%List.in_remove; destruct Hi; split; auto; congruence.
Qed.

Lemma area_bufs_in c x :
  x ∈ area_bufs c ->
  vm_dmabuf (area_mem (mmap_buf c)) = Some x \/ vm_dmabuf (area_mem (sfr c)) = Some x \/
  vm_dmabuf (area_mem (iface_q_table c)) = Some x.
Proof.
  unfold area_bufs. rewrite list_elem_of_In. cbn.
  destruct (vm_dmabuf _), (vm_dmabuf _), (vm_dmabuf _); cbn; intuition congruence.
Qed.

Lemma drop_buf_rest o k :
  iommu_ranges (drop_buf o k) = iommu_ranges k /\ dma_pages (drop_buf o k) = dma_pages k.
Proof. now destruct o. Qed.

Lemma iommu_unmap_any x k :
  exists rc m' k', msm_vidc_iommu_unmap (area_mem x) k = (rc, m', k') /\ same_bufs k k' /\
    forall r, r ∈ iommu_ranges k' -> r ∈ iommu_ranges k /\ ~ range_held r x.
Proof.
  unfold msm_vidc_iommu_unmap, range_held.
  destruct (msm_vidc_get_context_bank_for_region (vm_region (area_mem x))); cbn;
    do 3 eexists; (split; [reflexivity|]); (split; [done|]); cbn.
  - intros r [Hr Hin]%list_elem_of_filter. split; [done|]. intros [-> _]. now apply Hr.
  - intros r Hin. split; [done|]. intros [_ Hf]. discriminate.
Qed.

Lemma no_elements {A} (l : list A) : (forall x, x ∉ l) -> l = [].
Proof. destruct l as [|x l]; [done|]. intros Hx. destruct (Hx x). left. Qed.

Lemma dma_unmap_any m k :
  (vm_refcount m = 0 /\ dma_pages k = 0) \/
  (vm_refcount m = 1 /\ dma_pages k = 1 /\ msm_vidc_get_context_bank_for_region (vm_region m) = true) ->
  exists rc m' k', msm_vidc_dma_unmap_page m k = (rc, m', k') /\ vm_refcount m' = 0 /\
    dma_pages k' = 0 /\ live_bufs k' = live_bufs k /\ attached_bufs k' = attached_bufs k /\
    iommu_ranges k' = iommu_ranges k.
Proof.
  unfold msm_vidc_dma_unmap_page. intros [[E1 E2]|(E1 & E2 & E3)]; rewrite E1; cbn; rewrite ?E3; cbn;
    do 3 eexists; (split; [reflexivity|]); cbn; auto 6.
  repeat split; auto. rewrite E2. done.
Qed.

(** Whatever was held is given back. *)
Lemma deinit_fresh c :
  holds_ok c -> is_Some (align_virtual_addr (iface_q_table c)) -> core_fresh (venus_hfi_queue_deinit c).
Proof.
  intros Hk [w Hw]. unfold venus_hfi_queue_deinit. rewrite Hw.
  destruct (unmap_free_any (area_mem (iface_q_table c)) (resources c) (h_table c Hk)) as (r1 & mq & -> & Fq).
  set (k1 := drop_buf _ _).
  destruct (unmap_free_any (area_mem (sfr c)) k1 (h_sfr c Hk)) as (r2 & ms & -> & Fs).
  set (k2 := drop_buf _ _).
  destruct (iommu_unmap_any (aon_reg c) k2) as (r3 & ma & k3 & -> & S3 & I3).
  destruct (iommu_unmap_any (fence_reg c) k3) as (r4 & mf & k4 & -> & S4 & I4).
  destruct (iommu_unmap_any (qtimer_reg c) k4) as (r5 & mt & k5 & -> & S5 & I5).
  destruct (same_bufs_trans _ _ _ (same_bufs_trans _ _ _ S3 S4) S5) as (L5 & A5 & _ & P5).
  destruct (unmap_free_any (area_mem (mmap_buf c)) k5 (h_mmap c Hk)) as (r6 & mm & -> & Fm).
  set (k6 := drop_buf _ _).
  assert (P6 : dma_pages k6 = dma_pages (resources c)).
  { unfold k6. rewrite (proj2 (drop_buf_rest _ _)), P5. unfold k2, k1.
    now rewrite !(proj2 (drop_buf_rest _ _)). }
  destruct (dma_unmap_any (synx_queue c) k6) as (r7 & sq & k7 & -> & X7 & P7 & L7 & A7 & I7).
  { rewrite P6. apply Hk. }
  split; cbn; auto.
  { now rewrite length_map, (h_queues c Hk). }
  { apply Forall_map, Forall_true. done. }
  split; [|split; [|split; [|exact P7]]]; apply no_elements.
  - intros x Hx. rewrite L7 in Hx. unfold k6 in Hx. apply (drop_buf_in _ k5 x) in Hx as [Hx N1].
    rewrite L5 in Hx. apply (drop_buf_in _ k1 x) in Hx as [Hx N2]. apply (drop_buf_in _ _ x) in Hx as [Hx N3].
    rewrite (h_live c Hk) in Hx. apply area_bufs_in in Hx. tauto.
  - intros x Hx. rewrite A7 in Hx. unfold k6 in Hx. apply (drop_buf_in _ k5 x) in Hx as [Hx N1].
    rewrite A5 in Hx. apply (drop_buf_in _ k1 x) in Hx as [Hx N2]. apply (drop_buf_in _ _ x) in Hx as [Hx N3].
    rewrite (h_attached c Hk) in Hx. apply area_bufs_in in Hx. tauto.
  - intros r Hr. rewrite I7 in Hr. unfold k6 in Hr. rewrite (proj1 (drop_buf_rest _ _)) in Hr.
    apply I5 in Hr as [Hr N5]. apply I4 in Hr as [Hr N4]. apply I3 in Hr as [Hr N3].
    unfold k2, k1 in Hr. rewrite !(proj1 (drop_buf_rest _ _)) in Hr.
    pose proof (h_ranges c Hk) as F. rewrite Forall_elem in F. specialize (F r Hr). tauto.
Qed.
End Holds.

(** ** Buffers left behind *)

(** What the kernel holds, and the core, without the buffers [lost]. *)
Definition forget_bufs (lost : list Z) (k : vidc_resources) : vidc_resources :=
  set_bufs (next_buf k) (filter (.∉ lost) (live_bufs k)) (attached_bufs k) k.
Definition forget (lost : list Z) (c : msm_vidc_core) : msm_vidc_core :=
  set_held c (synx_queue c) (forget_bufs lost (resources c)).
(** One more buffer that nothing refers to. *)
Definition leak (c : msm_vidc_core) : msm_vidc_core :=
  let k := resources c in
  set_held c (synx_queue c) (set_bufs (next_buf k + 1) (next_buf k :: live_bufs k) (attached_bufs k) k).

(** The answers, with the refused attachments as refused allocations. *)
Definition deny (a : alloc_answer) : alloc_answer :=
  match an_attach a with inl rc => {| an_alloc := inl rc; an_attach := inl rc |} | inr _ => a end.
Definition deny_refused (a : init_answers) : init_answers :=
  {| a_queues := deny (a_queues a); a_sfr := deny (a_sfr a); a_synx := a_synx a; a_aon := a_aon a;
     a_fence := a_fence a; a_qtimer := a_qtimer a; a_mmap := deny (a_mmap a) |}.
Lemma deny_ok size a : alloc_sized size a -> alloc_sized size (deny a) /\ ~ attach_refused (deny a).
Proof. unfold alloc_sized, attach_refused, deny. destruct a as [[|] [|]]; cbn; intros [H1 H2]; (split; [split|]); tauto. Qed.
Lemma deny_refused_ok a : answers_ok a -> answers_ok (deny_refused a) /\ none_refused (deny_refused a).
Proof.
  intros [Hq Hs Hm Hx]. apply deny_ok in Hq as [Hq Rq], Hs as [Hs Rs], Hm as [Hm Rm].
  split; [now split|exact (conj Rq (conj Rs Rm))].
Qed.

(** Filters that agree on the list, and one that keeps it. *)
Lemma filter_agree (P Q : Z -> Prop) `{!forall x, Decision (P x), !forall x, Decision (Q x)} (l : list Z) :
  (forall x, x ∈ l -> P x <-> Q x) -> filter P l = filter Q l.
Proof.
  induction l as [|x l IH]; intros E; [done|]. rewrite !filter_cons.
  rewrite IH by (intros y Hy; apply E; now right). pose proof (E x ltac:(left)) as Ex. repeat case_decide; tauto.
Qed.
Lemma filter_keeps (P : Z -> Prop) `{!forall x, Decision (P x)} (l : list Z) : (forall x, x ∈ l -> P x) -> filter P l = l.
Proof.
  induction l as [|x l IH]; intros E; [done|]. rewrite filter_cons_True by (apply E; left).
  f_equal. apply IH. intros y Hy. apply E. now right.
Qed.

Section Lost.
Context `{VidcPlatform} (Hcb : non_secure_bank).

(** Whether a request is granted at the device or not, only a refused
    attachment makes a difference to a refused allocation: a buffer. *)
Definition same_or_leak (r r' : exec (Z * msm_vidc_core)) : Prop :=
  r = r' \/ exists rc c, rc <> 0 /\ r' = Done (rc, c) /\ r = Done (rc, leak c).
Lemma same_or_leak_next r r' f f' :
  same_or_leak r r' -> (forall c, same_or_leak (f c) (f' c)) -> same_or_leak (init_next r f) (init_next r' f').
Proof.
  intros [->|(rc & c & Hrc & -> & ->)] Hf.
  - destruct r' as [[rc c]| |]; [|now left..]. unfold init_next. cbn [mbind exec_bind].
    destruct (negb (rc =? 0)); [now left|apply Hf].
  - right. exists rc, c. apply Z.eqb_neq in Hrc as E. unfold init_next. cbn [mbind exec_bind]. now rewrite E.
Qed.
Lemma alloc_deny a size k : alloc_sized size a ->
  memory_alloc_map (deny a) (mem_request size) k = memory_alloc_map a (mem_request size) k \/
  (exists m words, memory_alloc_map a (mem_request size) k =
     (- EINVAL, m, words, set_bufs (next_buf k + 1) (next_buf k :: live_bufs k) (attached_bufs k) k)) /\
  exists m words, memory_alloc_map (deny a) (mem_request size) k = (- EINVAL, m, words, k).
Proof.
  intros Ha. pose proof (deny_ok size a Ha) as [Hd Hr].
  destruct a as [[rc|words] [rc'|addr]]; try (left; reflexivity).
  - destruct Ha as [Ha1 Ha2]. cbn in Ha1, Ha2. left. unfold memory_alloc_map, msm_vidc_memory_alloc_ext. cbn.
    apply Z.eqb_neq in Ha1 as ->, Ha2 as ->. reflexivity.
  - right. split; [exact (alloc_map_refused _ size k Ha I)|].
    destruct (alloc_map_cases Hcb _ size k Hd Hr) as [[E _]|[_ [m E]]]; [discriminate|eauto].
Qed.

Lemma init_deny a c : answers_ok a -> same_or_leak (venus_hfi_queue_init a c) (venus_hfi_queue_init (deny_refused a) c).
Proof.
  intros [Hq Hs Hm _]. unfold venus_hfi_queue_init. destruct (align_virtual_addr (iface_q_table c)); [now left|].
  cbv zeta. cbn [deny_refused a_queues a_sfr a_synx a_aon a_fence a_qtimer a_mmap].
  repeat (apply same_or_leak_next; [|intros c'; try now left]).
  - unfold init_iface_queues. destruct (alloc_deny _ _ (resources c) Hq) as [->|[(m & w & ->) (m' & w' & ->)]]; [now left|].
    right. eexists _, _. split; [|split; reflexivity]. discriminate.
  - unfold init_sfr. destruct (alloc_deny _ _ (resources c') Hs) as [->|[(m & w & ->) (m' & w' & ->)]]; [now left|].
    right. eexists _, _. split; [|split; reflexivity]. discriminate.
  - unfold init_mmap. destruct (alloc_deny _ _ (resources c') Hm) as [->|[(m & w & ->) (m' & w' & ->)]]; [now left|].
    right. eexists _, _. split; [|split; reflexivity]. discriminate.
Qed.

(** Nothing the code does touches a buffer that was left behind. *)
#[local] Arguments filter : simpl never.
#[local] Arguments list_filter : simpl never.
Context (lost : list Z).
Definition lost_below (k : vidc_resources) : Prop := Forall (fun b => b < next_buf k) lost.
Definition lost_kept (k k' : vidc_resources) : Prop :=
  lost_below k' /\ filter (.∈ lost) (live_bufs k') = filter (.∈ lost) (live_bufs k).
Lemma lost_kept_refl k : lost_below k -> lost_kept k k.
Proof. now split. Qed.
Lemma lost_kept_trans k1 k2 k3 : lost_kept k1 k2 -> lost_kept k2 k3 -> lost_kept k1 k3.
Proof. intros [_ E1] [L E2]. split; congruence. Qed.
Lemma lost_kept_new k : lost_below k -> (next_buf k ∉ lost) /\
  Forall (fun b => b < next_buf k + 1) lost /\
  filter (.∈ lost) (next_buf k :: live_bufs k) = filter (.∈ lost) (live_bufs k) /\
  filter (.∉ lost) (next_buf k :: live_bufs k) = next_buf k :: filter (.∉ lost) (live_bufs k).
Proof.
  intros L. assert (N : next_buf k ∉ lost).
  { intros Hin. unfold lost_below in L. rewrite Forall_elem in L. specialize (L _ Hin). lia. }
  split; [done|]. split; [eapply Forall_impl; [exact L|cbn; lia]|].
  split; [now apply filter_cons_False|now apply filter_cons_True].
Qed.
Lemma alloc_forgets a m k : lost_below k ->
  memory_alloc_map a m (forget_bufs lost k) =
    (let '(rc, m', words, k') := memory_alloc_map a m k in (rc, m', words, forget_bufs lost k')) /\
  lost_kept k (memory_alloc_map a m k).2.
Proof.
  intros L. destruct (lost_kept_new k L) as (N & L' & E1 & E2).
  unfold memory_alloc_map, msm_vidc_memory_alloc_ext, msm_vidc_memory_map_ext.
  destruct (vm_secure m && _); [split; [reflexivity|now apply lost_kept_refl]|].
  destruct (an_alloc a) as [rc|words].
  - destruct (negb (rc =? 0)); [split; [reflexivity|now apply lost_kept_refl]|]. cbn [vm_dmabuf mem_set vm_refcount vm_region].
    repeat case_test; destruct (an_attach a) as [rc'|addr]; cbn; repeat case_test; split; try reflexivity; now apply lost_kept_refl.
  - cbn. repeat case_test; destruct (an_attach a) as [rc'|addr]; cbn; repeat case_test;
      (split; [unfold forget_bufs; cbn; now rewrite E2|now split]).
Qed.

(** A part of the initialisation does the same with and without them. *)
Definition forget_result (r : exec (Z * msm_vidc_core)) : exec (Z * msm_vidc_core) :=
  '(rc, c) ← r; Done (rc, forget lost c).
Definition forgets (f : msm_vidc_core -> exec (Z * msm_vidc_core)) : Prop := forall c,
  lost_below (resources c) -> f (forget lost c) = forget_result (f c) /\
  forall rc c', f c = Done (rc, c') -> lost_kept (resources c) (resources c').
Lemma forgets_next f g : forgets f -> forgets g -> forgets (fun c => init_next (f c) g).
Proof.
  intros Hf Hg c L. destruct (Hf c L) as [E K]. rewrite E. unfold init_next, forget_result.
  destruct (f c) as [[rc c1]| |]; cbn [mbind exec_bind]; [|now split..].
  specialize (K rc c1 eq_refl). destruct (negb (rc =? 0)); cbn [mbind exec_bind].
  - split; [done|]. intros rc' c' [= <- <-]. exact K.
  - destruct (Hg c1 (proj1 K)) as [E' K']. split; [exact E'|]. intros rc' c' Ec. exact (lost_kept_trans _ _ _ K (K' rc' c' Ec)).
Qed.
Ltac part_forgets :=
  let L := fresh in intros c L;
  match goal with |- context [memory_alloc_map ?a ?m _] =>
    destruct (alloc_forgets a m (resources c) L) as [Ea Ka];
    unfold forget at 1; cbn [resources set_held]; rewrite Ea;
    destruct (memory_alloc_map a m (resources c)) as [[[rc mm] words] k] eqn:Em; cbn [snd] in Ka
  end.
Lemma iface_queues_forgets a : forgets (init_iface_queues a).
Proof.
  unfold init_iface_queues. part_forgets. destruct (negb (rc =? 0)); [split; [reflexivity|now intros ?? [= <- <-]]|].
  unfold forget_result, forget. cbn. destruct words as [w|]; cbn; [|done].
  destruct (init_queues _ _ _ _ _) as [qs| |]; cbn; [|done..]. destruct (set_directions qs); cbn; [|done..].
  split; [reflexivity|now intros ?? [= <- <-]].
Qed.
Lemma sfr_forgets a : forgets (init_sfr a).
Proof.
  unfold init_sfr. part_forgets. destruct (negb (rc =? 0)); [split; [reflexivity|now intros ?? [= <- <-]]|].
  unfold forget_result, forget. cbn. destruct words as [w|]; cbn; [|done].
  destruct (zstore _ _ _) as [qs| |]; cbn; [|done..].
  split; [reflexivity|now intros ?? [= <- <-]].
Qed.
Lemma mmap_forgets a : forgets (init_mmap a).
Proof.
  unfold init_mmap. part_forgets. destruct (negb (rc =? 0)); [split; [reflexivity|now intros ?? [= <- <-]]|].
  unfold forget_result, forget. cbn. destruct words as [w|]; cbn; [|done].
  repeat match goal with |- context [mbind _ ?x] => destruct x; cbn; [|done..] end.
  split; [reflexivity|now intros ?? [= <- <-]].
Qed.

(** The other parts change neither the buffers nor the next one. *)
Lemma regs_forgets a region old k :
  venus_hfi_iommu_map_registers a region old (forget_bufs lost k) =
    (let '(rc, x, k') := venus_hfi_iommu_map_registers a region old k in (rc, x, forget_bufs lost k')) /\
  (lost_below k -> lost_kept k (venus_hfi_iommu_map_registers a region old k).2).
Proof.
  unfold venus_hfi_iommu_map_registers, msm_vidc_iommu_map.
  destruct (venus_hfi_get_device_region_info region); cbn; [|split; [reflexivity|apply lost_kept_refl]].
  repeat case_test; cbn; split; try reflexivity; now intros L.
Qed.
Lemma synx_forgets a : forgets (init_synx a).
Proof.
  intros c L. unfold init_synx, msm_vidc_dma_map_page, forget_result, forget. cbn [supports_synx_fence set_held].
  destruct (negb (supports_synx_fence c)); cbn; [split; [reflexivity|intros ?? [= <- <-]; now apply lost_kept_refl]|].
  repeat case_test; destruct a; cbn; (split; [reflexivity|intros ?? [= <- <-]; now split]).
Qed.
Ltac register_part_forgets :=
  intros c L; unfold init_aon, init_fence, init_qtimer, forget_result, forget; cbn [resources set_held];
  match goal with |- context [venus_hfi_iommu_map_registers ?a ?region ?old _] =>
    destruct (regs_forgets a region old (resources c)) as [Er Kr]; specialize (Kr L);
    cbn [aon_reg fence_reg qtimer_reg set_held]; rewrite Er;
    destruct (venus_hfi_iommu_map_registers a region old (resources c)) as [[rc x] k]
  end; split; [reflexivity|now intros ?? [= <- <-]].
Lemma aon_forgets a : forgets (init_aon a).
Proof. register_part_forgets. Qed.
Lemma fence_forgets a : forgets (init_fence a).
Proof. register_part_forgets. Qed.
Lemma qtimer_forgets a : forgets (init_qtimer a).
Proof. register_part_forgets. Qed.
Lemma init_forgets a : forgets (venus_hfi_queue_init a).
Proof.
  intros c L. unfold venus_hfi_queue_init. change (iface_q_table (forget lost c)) with (iface_q_table c).
  destruct (align_virtual_addr (iface_q_table c)).
  - unfold venus_hfi_reset_queue_header. cbn [forget iface_queues set_held].
    unfold forget_result. repeat match goal with |- context [mbind _ (mbind _ ?x)] => destruct x; cbn; [|done..] end.
    split; [reflexivity|intros ?? [= <- <-]; now apply lost_kept_refl].
  - exact (forgets_next _ _ (forgets_next _ _ (forgets_next _ _ (forgets_next _ _ (forgets_next _ _ (forgets_next _ _
      (iface_queues_forgets _) (sfr_forgets _)) (synx_forgets _)) (aon_forgets _)) (fence_forgets _)) (qtimer_forgets _))
      (mmap_forgets _) c L).
Qed.

(** The deinitialisation. *)
Lemma remove_filter b (P : Z -> Prop) `{!forall x, Decision (P x)} l :
  List.remove Z.eq_dec b (filter P l) = filter P (List.remove Z.eq_dec b l).
Proof.
  induction l as [|x l IH]; [done|]. cbn [List.remove]. rewrite filter_cons.
  destruct (decide (P x)) as [Hp|Hp], (Z.eq_dec b x) as [->|Hb]; cbn [List.remove];
    rewrite ?filter_cons, ?decide_True, ?decide_False by done; rewrite <- ?IH; try done.
  - destruct (Z.eq_dec x x); [done|congruence].
  - destruct (Z.eq_dec b x); congruence.
Qed.
Lemma unmap_free_forgets m k :
  memory_unmap_free m (forget_bufs lost k) =
    (let '(rc, m', k') := memory_unmap_free m k in (rc, m', forget_bufs lost k')).
Proof.
  unfold memory_unmap_free, msm_vidc_memory_unmap_ext, msm_vidc_memory_free_ext.
  repeat case_test; cbn; destruct (vm_dmabuf m); try reflexivity; cbn; unfold forget_bufs; cbn; now rewrite ?remove_filter.
Qed.
Lemma iommu_unmap_forgets m k :
  msm_vidc_iommu_unmap m (forget_bufs lost k) =
    (let '(rc, m', k') := msm_vidc_iommu_unmap m k in (rc, m', forget_bufs lost k')).
Proof. unfold msm_vidc_iommu_unmap. now case_test. Qed.
Lemma dma_unmap_forgets m k :
  msm_vidc_dma_unmap_page m (forget_bufs lost k) =
    (let '(rc, m', k') := msm_vidc_dma_unmap_page m k in (rc, m', forget_bufs lost k')).
Proof. unfold msm_vidc_dma_unmap_page. now repeat case_test. Qed.
Lemma deinit_forgets c : venus_hfi_queue_deinit (forget lost c) = forget lost (venus_hfi_queue_deinit c).
Proof.
  unfold venus_hfi_queue_deinit. change (iface_q_table (forget lost c)) with (iface_q_table c).
  destruct (align_virtual_addr (iface_q_table c)); [|done].
  change (resources (forget lost c)) with (forget_bufs lost (resources c)).
  rewrite unmap_free_forgets. destruct (memory_unmap_free _ _) as [[? mq] k1].
  change (sfr (forget lost c)) with (sfr c). rewrite unmap_free_forgets. destruct (memory_unmap_free _ k1) as [[? ms] k2].
  change (aon_reg (forget lost c)) with (aon_reg c). rewrite iommu_unmap_forgets. destruct (msm_vidc_iommu_unmap _ k2) as [[? ma] k3].
  change (fence_reg (forget lost c)) with (fence_reg c). rewrite iommu_unmap_forgets. destruct (msm_vidc_iommu_unmap _ k3) as [[? mf] k4].
  change (qtimer_reg (forget lost c)) with (qtimer_reg c). rewrite iommu_unmap_forgets. destruct (msm_vidc_iommu_unmap _ k4) as [[? mt] k5].
  change (mmap_buf (forget lost c)) with (mmap_buf c). rewrite unmap_free_forgets. destruct (memory_unmap_free _ k5) as [[? mm] k6].
  change (synx_queue (forget lost c)) with (synx_queue c). rewrite dma_unmap_forgets. now destruct (msm_vidc_dma_unmap_page _ k6) as [[? sq] k7].
Qed.

Lemma unmap_free_keeps m k : (forall b, vm_dmabuf m = Some b -> b ∉ lost) -> lost_below k ->
  lost_kept k (memory_unmap_free m k).2.
Proof.
  intros Hb L. unfold memory_unmap_free, msm_vidc_memory_unmap_ext, msm_vidc_memory_free_ext.
  assert (E : forall b, vm_dmabuf m = Some b -> filter (.∈ lost) (List.remove Z.eq_dec b (live_bufs k)) = filter (.∈ lost) (live_bufs k)).
  { intros b Eb. rewrite <- remove_filter. apply List.notin_remove. rewrite <- list_elem_of_In.
    intros [Hin _]%list_elem_of_filter. now apply (Hb b). }
  repeat case_test; cbn; destruct (vm_dmabuf m) as [b|]; cbn; try (now apply lost_kept_refl); (split; [exact L|]);
    cbn; auto.
Qed.
Lemma deinit_keeps c : (forall b, b ∈ area_bufs c -> b ∉ lost) -> lost_below (resources c) ->
  lost_kept (resources c) (resources (venus_hfi_queue_deinit c)).
Proof.
  intros Hb L. unfold venus_hfi_queue_deinit. destruct (align_virtual_addr (iface_q_table c)); [|now apply lost_kept_refl].
  assert (Hm : forall m k, In m [area_mem (mmap_buf c); area_mem (sfr c); area_mem (iface_q_table c)] ->
    lost_kept (resources c) k -> lost_kept (resources c) (memory_unmap_free m k).2).
  { intros m k Hin K. apply (lost_kept_trans _ _ _ K), unmap_free_keeps; [|exact (proj1 K)]. intros b Eb. apply Hb.
    apply list_elem_of_omap. exists m. now rewrite list_elem_of_In. }
  assert (Hi : forall m k, lost_kept (resources c) k -> lost_kept (resources c) (msm_vidc_iommu_unmap m k).2).
  { intros m k K. unfold msm_vidc_iommu_unmap. now case_test. }
  pose proof (Hm (area_mem (iface_q_table c)) _ ltac:(cbn; auto) (lost_kept_refl _ L)) as K1.
  destruct (memory_unmap_free _ (resources c)) as [[? mq] k1].
  pose proof (Hm (area_mem (sfr c)) _ ltac:(cbn; auto) K1) as K2. cbn [snd] in K2. destruct (memory_unmap_free _ k1) as [[? ms] k2].
  pose proof (Hi (area_mem (aon_reg c)) _ K2) as K3. cbn [snd] in K3. destruct (msm_vidc_iommu_unmap _ k2) as [[? ma] k3].
  pose proof (Hi (area_mem (fence_reg c)) _ K3) as K4. cbn [snd] in K4. destruct (msm_vidc_iommu_unmap _ k3) as [[? mf] k4].
  pose proof (Hi (area_mem (qtimer_reg c)) _ K4) as K5. cbn [snd] in K5. destruct (msm_vidc_iommu_unmap _ k4) as [[? mt] k5].
  pose proof (Hm (area_mem (mmap_buf c)) _ ltac:(cbn; auto) K5) as K6. cbn [snd] in K6. destruct (memory_unmap_free _ k5) as [[? mm] k6].
  cbn [snd] in K6. unfold msm_vidc_dma_unmap_page. repeat case_test; exact K6.
Qed.

(** ** The ranges that the areas record *)

(** The areas of the registers that have a size are mapped. *)
Definition regs_recorded (c : msm_vidc_core) : Prop :=
  Forall (fun x => vm_size (area_mem x) = 0 \/ (range_held (range_of x) x /\ range_of x ∈ iommu_ranges (resources c)))
    [aon_reg c; fence_reg c; qtimer_reg c].
Definition records (f : msm_vidc_core -> exec (Z * msm_vidc_core)) : Prop :=
  forall c rc c', regs_recorded c -> f c = Done (rc, c') -> regs_recorded c'.
Lemma records_next f g : records f -> records g -> records (fun c => init_next (f c) g).
Proof.
  intros Hf Hg c rc c' R. unfold init_next. destruct (f c) as [[rc1 c1]| |] eqn:E; cbn [mbind exec_bind]; [|done..].
  specialize (Hf c rc1 c1 R E). destruct (negb (rc1 =? 0)); [now intros [= <- <-]|now apply Hg].
Qed.
Lemma alloc_ranges a m k : iommu_ranges (memory_alloc_map a m k).2 = iommu_ranges k.
Proof.
  unfold memory_alloc_map, msm_vidc_memory_alloc_ext, msm_vidc_memory_map_ext.
  destruct (an_alloc a), (an_attach a); repeat case_test; cbn; repeat case_test; try done.
  all: now destruct (vm_dmabuf m).
Qed.
Lemma recorded_same c c' :
  aon_reg c' = aon_reg c -> fence_reg c' = fence_reg c -> qtimer_reg c' = qtimer_reg c ->
  iommu_ranges (resources c') = iommu_ranges (resources c) -> regs_recorded c -> regs_recorded c'.
Proof. unfold regs_recorded. now intros -> -> -> ->. Qed.
Ltac part_records :=
  intros c rc c' R E;
  match type of E with context [memory_alloc_map ?a ?m _] =>
    let Hr := fresh in pose proof (alloc_ranges a m (resources c)) as Hr;
    destruct (memory_alloc_map a m (resources c)) as [[[rc' m'] w] k]; cbn [snd] in Hr
  end;
  match type of E with (if ?test then _ else _) = _ => destruct test end;
  [injection E as <- <-; now apply (recorded_same c)|];
  repeat (apply bind_Done in E as (? & ? & E)); injection E as <- <-; now apply (recorded_same c).
Lemma iface_queues_records a : records (init_iface_queues a).
Proof. unfold init_iface_queues. part_records. Qed.
Lemma sfr_records a : records (init_sfr a).
Proof. unfold init_sfr. part_records. Qed.
Lemma mmap_records a : records (init_mmap a).
Proof. unfold init_mmap. part_records. Qed.
Lemma synx_records a : records (init_synx a).
Proof.
  intros c rc c' R. unfold init_synx, msm_vidc_dma_map_page. case_test; [now intros [= <- <-]|].
  repeat case_test; destruct a; intros [= <- <-]; now apply (recorded_same c).
Qed.

(** Of one register part: the new area is the old one or mapped, and the
    ranges stay. *)
Lemma registers_recorded a region old k :
  let '(_, x, k') := venus_hfi_iommu_map_registers a region old k in
  (x = old \/ (range_held (range_of x) x /\ range_of x ∈ iommu_ranges k')) /\
  forall r, r ∈ iommu_ranges k -> r ∈ iommu_ranges k'.
Proof.
  unfold venus_hfi_iommu_map_registers, msm_vidc_iommu_map.
  destruct (venus_hfi_get_device_region_info region) as [r|]; [|auto]. cbn. rewrite Hcb. cbn.
  destruct (a =? 0) eqn:Ea; cbn; rewrite Ea; cbn; [|auto]. split; [right|intros; now right].
  split; [|left]. split; [reflexivity|exact Hcb].
Qed.
Lemma area_recorded old x k k' :
  (x = old \/ (range_held (range_of x) x /\ range_of x ∈ iommu_ranges k')) ->
  (forall r, r ∈ iommu_ranges k -> r ∈ iommu_ranges k') ->
  vm_size (area_mem old) = 0 \/ (range_held (range_of old) old /\ range_of old ∈ iommu_ranges k) ->
  vm_size (area_mem x) = 0 \/ (range_held (range_of x) x /\ range_of x ∈ iommu_ranges k').
Proof. intros [->|Hx] Hk; [|now right]. intros [E|[Hr Hi]]; [now left|right; auto]. Qed.
Ltac register_part_records :=
  intros c rc c' R; unfold init_aon, init_fence, init_qtimer;
  match goal with |- context [venus_hfi_iommu_map_registers ?a ?region ?old ?k] =>
    generalize (registers_recorded a region old k);
    destruct (venus_hfi_iommu_map_registers a region old k) as [[? ?] ?]
  end;
  let Hx := fresh in let Hk := fresh in intros [Hx Hk] [= <- <-]; unfold regs_recorded in *; cbn;
  rewrite !Forall_cons in *; destruct R as (? & ? & ? & ?);
  repeat split; try apply Forall_nil_2; eapply area_recorded; eauto.
Lemma aon_records a : records (init_aon a).
Proof. register_part_records. Qed.
Lemma fence_records a : records (init_fence a).
Proof. register_part_records. Qed.
Lemma qtimer_records a : records (init_qtimer a).
Proof. register_part_records. Qed.
Lemma init_records a : records (venus_hfi_queue_init a).
Proof.
  intros c rc c' R. unfold venus_hfi_queue_init. destruct (align_virtual_addr (iface_q_table c)).
  - unfold venus_hfi_reset_queue_header. intros E. repeat (apply bind_Done in E as ([] & E0 & E)).
    apply bind_Done in E0 as (? & _ & E0). apply bind_Done in E0 as (? & _ & E0). injection E0 as _ <-. injection E as <- <-.
    now apply (recorded_same c).
  - exact (records_next _ _ (records_next _ _ (records_next _ _ (records_next _ _ (records_next _ _ (records_next _ _
      (iface_queues_records _) (sfr_records _)) (synx_records _)) (aon_records _)) (fence_records _)) (qtimer_records _))
      (mmap_records _) c rc c' R).
Qed.
(** After a deinitialisation no area records a range. *)
Lemma unmapped_size x k P :
  vm_size (area_mem x) = 0 \/ (range_held (range_of x) x /\ P) -> vm_size (msm_vidc_iommu_unmap (area_mem x) k).1.2 = 0.
Proof.
  unfold msm_vidc_iommu_unmap, range_held. intros [E|[[_ ->] _]]; [|done].
  now destruct (negb _).
Qed.
Lemma deinit_records c : regs_recorded c -> regs_recorded (venus_hfi_queue_deinit c).
Proof.
  intros R. unfold venus_hfi_queue_deinit. destruct (align_virtual_addr (iface_q_table c)); [|done].
  unfold regs_recorded in *. rewrite !Forall_cons in R. destruct R as (R1 & R2 & R3 & _).
  destruct (memory_unmap_free _ (resources c)) as [[? mq] k1]. destruct (memory_unmap_free _ k1) as [[? ms] k2].
  apply (unmapped_size _ k2) in R1. destruct (msm_vidc_iommu_unmap _ k2) as [[? ma] k3].
  apply (unmapped_size _ k3) in R2. destruct (msm_vidc_iommu_unmap _ k3) as [[? mf] k4].
  apply (unmapped_size _ k4) in R3. destruct (msm_vidc_iommu_unmap _ k4) as [[? mt] k5].
  destruct (memory_unmap_free _ k5) as [[? mm] k6]. destruct (msm_vidc_dma_unmap_page _ k6) as [[? sq] k7].
  cbn in R1, R2, R3. rewrite !Forall_cons. repeat split; try (now left).
Qed.
End Lost.
