(* ===== verification/VidcHfiThms.v ===== *)
(** The properties of the video core's interface queues: what commands and
    messages go through, initialisation, and that nothing is left behind. *)
From S2P Require Import Prelude VidcQueue VidcQueueSpec VidcQueueThms VidcMem VidcHfi VidcHfiInv.

(** ** Commands and messages *)

Lemma queue_virtual W q ps : queue_holds W q ps -> exists arr, align_virtual_addr (q_array q) = Some arr.
Proof. intros (arr & h & [Ha _ _ _] & _). eauto. Qed.

(** A command for a core whose lock is held and that is in a valid state
    goes into the command queue, and the hardware is interrupted, exactly when
    the queue has room for it; the call returns 0 in either case, so a command
    the queue refused is reported as written.  Without the lock, or in another
    state, -EINVAL is returned and nothing changes. *)
Theorem vidc_cmd_write_correct W c q ps buf :
  1024 <= W < 2 ^ 28 -> (iface_queues c).[VIDC_IFACEQ_CMDQ_IDX] = Some q ->
  queue_holds W q ps -> buffer_ok buf ->
  if core_locked c && core_in_valid_state c then
    exists q', queue_holds W q' (fifo_write W ps buf).2 /\
      venus_hfi_queue_cmd_write c (Some buf)
        = Done (0, if (fifo_write W ps buf).1 =? 0
                   then raise_interrupt (set_queue VIDC_IFACEQ_CMDQ_IDX q' c)
                   else set_queue VIDC_IFACEQ_CMDQ_IDX q' c)
  else venus_hfi_queue_cmd_write c (Some buf) = Done (- EINVAL, c).
Proof.
  intros HW Hq Hh [Hb Hn]. unfold venus_hfi_queue_cmd_write, __iface_cmdq_write_relaxed, __strict_check.
  destruct (core_locked c); [|done]. cbn [negb Z.eqb andb]. destruct (core_in_valid_state c); [|done].
  cbn [negb]. rewrite Hq. cbn [deref mbind exec_bind].
  destruct (queue_virtual W q ps Hh) as [arr ->].
  destruct (queue_write W HW q ps buf Hh Hb Hn) as (q' & -> & H'). cbn [mbind exec_bind].
  exists q'. split; [done|]. now destruct ((fifo_write W ps buf).1 =? 0).
Qed.

(** What a read leaves of the other side's request. *)
Lemma read_tx_req q buf rc q' pkt tx :
  __read_queue q (Some buf) = Done (rc, q', pkt, tx) -> tx_req_of q' = tx_req_of q.
Proof.
  unfold __read_queue, tx_req_of. intros E. destruct (align_virtual_addr (q_array q)); [|exec_inv; done].
  destruct (q_hdr q) as [h|] eqn:Eh; [|exec_inv; now rewrite Eh].
  repeat case_test_in E; exec_inv; cbn; rewrite ?Eh; try done.
  all: repeat case_test_in E; exec_inv; cbn; rewrite ?Eh; try done.
  all: repeat match goal with x : _ * _ |- _ => destruct x end; exec_inv; done.
Qed.

Section Messages.
Context (W : Z) (HW : 1024 <= W < 2 ^ 28).

(** A read of any of the queues. *)
Lemma locked_read i c q ps buf :
  (iface_queues c).[i] = Some q -> queue_holds W q ps -> 1024 <= zlength buf ->
  exists q' buf' rc,
    queue_msg_read_locked i c (Some buf) = Done (rc, set_queue i q' c, Some buf') /\
    queue_holds W q' (fifo_read ps).2 /\ tx_req_of q' = tx_req_of q /\ zlength buf' = zlength buf /\
    match (fifo_read ps).1.2 with Some p => packet_of buf' = p | None => buf' = buf end /\
    rc = (if negb ((fifo_read ps).1.1 =? 0) then - ENODATA
          else if tx_req_of q =? 1 then - EINVAL else 0).
Proof.
  intros Hq Hh Hb. unfold queue_msg_read_locked. rewrite Hq.
  cbn [deref mbind exec_bind]. destruct (queue_virtual W q ps Hh) as [arr ->].
  destruct (queue_read W HW q ps buf Hh Hb) as (q' & buf' & E & H' & Hl & Hp).
  pose proof (read_tx_req _ _ _ _ _ _ E) as Ht. rewrite E. cbn [mbind exec_bind].
  destruct ps as [|p ps]; cbn [fifo_read fst snd] in *.
  - do 3 eexists. split; [reflexivity|]. auto.
  - destruct (zlength p <=? 1024); cbn [fst snd Z.eqb negb default] in *.
    + destruct (tx_req_of q =? 1); do 3 eexists; (split; [reflexivity|]); auto 6.
    + do 3 eexists. split; [reflexivity|]. auto 6.
Qed.

Lemma msg_read c q ps buf :
  core_in_valid_state c = true -> (iface_queues c).[VIDC_IFACEQ_MSGQ_IDX] = Some q ->
  queue_holds W q ps -> 1024 <= zlength buf ->
  exists q' buf' rc,
    venus_hfi_queue_msg_read c (Some buf) = Done (rc, set_queue VIDC_IFACEQ_MSGQ_IDX q' c, Some buf') /\
    queue_holds W q' (fifo_read ps).2 /\ tx_req_of q' = tx_req_of q /\ zlength buf' = zlength buf /\
    match (fifo_read ps).1.2 with Some p => packet_of buf' = p | None => buf' = buf end /\
    rc = (if negb ((fifo_read ps).1.1 =? 0) then - ENODATA
          else if tx_req_of q =? 1 then - EINVAL else 0).
Proof. intros Hv. unfold venus_hfi_queue_msg_read. rewrite Hv. apply locked_read. Qed.
End Messages.

(** handle_response, on the queues and the state of a core that stays in
    INIT. *)
Definition handler_ok (handle : list Z -> msm_vidc_core -> Z * msm_vidc_core) : Prop :=
  forall buf c, core_state (handle buf c).2 = core_state c /\ iface_queues (handle buf c).2 = iface_queues c.

Lemma zlength_response_buffer : zlength response_buffer = 1024.
Proof. reflexivity. Qed.

Lemma set_queue_lookup i q' c :
  0 <= i < zlength (iface_queues c) -> (iface_queues (set_queue i q' c)).[i] = Some q'.
Proof. intros Hi. cbn. now apply zlookup_insert_eq. Qed.

Lemma response_loop_drains W handle :
  1024 <= W < 2 ^ 28 -> handler_ok handle -> forall ps fuel c q buf,
  (length ps < fuel)%nat -> core_state c = MSM_VIDC_CORE_INIT ->
  (iface_queues c).[VIDC_IFACEQ_MSGQ_IDX] = Some q -> queue_holds W q ps ->
  Forall (fun p => zlength p <= 1024) ps -> tx_req_of q <> 1 -> 1024 <= zlength buf ->
  exists c' bufs q', response_loop fuel handle c buf = Done (c', bufs) /\ map packet_of bufs = ps /\
    (iface_queues c').[VIDC_IFACEQ_MSGQ_IDX] = Some q' /\ queue_holds W q' [].
Proof.
  intros HW Hok. induction ps as [|p ps IH]; intros fuel c q buf Hf Hs Hq Hh Hsm Ht Hb;
    (destruct fuel as [|fuel]; [cbn in Hf; lia|]).
  all: assert (Hv : core_in_valid_state c = true) by (unfold core_in_valid_state; rewrite Hs; done).
  all: pose proof (zlookup_lt _ _ _ Hq) as Hi.
  all: destruct (msg_read W HW c q _ buf Hv Hq Hh Hb) as (q' & buf' & rc & E & H' & Ht' & Hl & Hp & Hrc).
  all: cbn [response_loop]; rewrite E; cbn [mbind exec_bind deref].
  - cbn in Hrc. subst rc. cbn. do 3 eexists. split; [reflexivity|]. split; [done|].
    split; [now apply (set_queue_lookup 1)|exact H'].
  - apply Forall_cons_1 in Hsm as [Hp1 Hsm]. cbn [fifo_read] in *.
    rewrite (proj2 (Z.leb_le _ 1024) Hp1) in *. cbn [fst snd Z.eqb negb] in *.
    rewrite (proj2 (Z.eqb_neq (tx_req_of q) 1)) in Hrc by lia. subst rc. cbn [Z.eqb negb].
    destruct (Hok buf' (set_queue VIDC_IFACEQ_MSGQ_IDX q' c)) as [Es Eq].
    destruct (handle buf' _) as [hrc c1]. cbn [snd] in *.
    assert (Hs1 : core_state c1 = MSM_VIDC_CORE_INIT) by (rewrite Es; exact Hs).
    assert (Hq1 : (iface_queues c1).[VIDC_IFACEQ_MSGQ_IDX] = Some q') by (rewrite Eq; now apply (set_queue_lookup 1)).
    rewrite bool_decide_eq_false_2 by (rewrite Hs1; tauto).
    assert (Hnext : forall b, 1024 <= zlength b -> exists c' bufs q2,
              response_loop fuel handle c1 b = Done (c', bufs) /\ map packet_of bufs = ps /\
              (iface_queues c').[VIDC_IFACEQ_MSGQ_IDX] = Some q2 /\ queue_holds W q2 []).
    { intros b Hb1. apply (IH fuel c1 q' b); auto; [cbn in Hf; lia|congruence]. }
    destruct (hrc =? 0); cbn [negb].
    + destruct (Hnext response_buffer) as (c' & bufs & q2 & -> & Em & Hq2 & H2);
        [rewrite zlength_response_buffer; lia|].
      cbn [mbind exec_bind]. do 3 eexists. split; [reflexivity|]. cbn.
      rewrite Em, Hp. split; [done|]. split; [exact Hq2|exact H2].
    + destruct (Hnext buf') as (c' & bufs & q2 & -> & Em & Hq2 & H2); [lia|].
      cbn [mbind exec_bind]. do 3 eexists. split; [reflexivity|]. cbn.
      rewrite Em, Hp. split; [done|]. split; [exact Hq2|exact H2].
Qed.

(** With a core in INIT, messages of at most 1024 words and a response
    handler that leaves the queues and the state alone, one interrupt reads
    all messages in order and leaves the queue empty, with one unit of fuel
    more than there are messages.  But when the firmware has asked to be told
    about free room (tx_req is 1), the read takes the oldest message out of
    the queue and reports -EINVAL: the loop ends, the message reaches no
    handler, and the others stay. *)
Theorem vidc_messages_drained W handle ps fuel c q :
  1024 <= W < 2 ^ 28 -> handler_ok handle -> core_state c = MSM_VIDC_CORE_INIT ->
  (iface_queues c).[VIDC_IFACEQ_MSGQ_IDX] = Some q -> queue_holds W q ps ->
  Forall (fun p => zlength p <= 1024) ps -> (length ps < fuel)%nat ->
  exists c' bufs q',
    response_loop fuel handle c response_buffer = Done (c', bufs) /\
    (iface_queues c').[VIDC_IFACEQ_MSGQ_IDX] = Some q' /\
    if tx_req_of q =? 1 then bufs = [] /\ queue_holds W q' (tail ps)
    else map packet_of bufs = ps /\ queue_holds W q' [].
Proof.
  intros HW Hok Hs Hq Hh Hsm Hf. pose proof zlength_response_buffer as Hb.
  destruct (tx_req_of q =? 1) eqn:Et; zb.
  - destruct fuel as [|fuel]; [lia|].
    assert (Hv : core_in_valid_state c = true) by (unfold core_in_valid_state; now rewrite Hs).
    destruct (msg_read W HW c q ps response_buffer Hv Hq Hh ltac:(lia))
      as (q' & buf' & rc & E & H' & _ & _ & _ & Hrc).
    pose proof (zlookup_lt _ _ _ Hq) as Hi.
    assert (Hrc0 : negb (rc =? 0) = true).
    { rewrite Hrc, Et. cbn. destruct ((fifo_read ps).1.1 =? 0); done. }
    cbn [response_loop]. rewrite E. cbn [mbind exec_bind deref]. rewrite Hrc0.
    do 3 eexists. split; [reflexivity|]. split; [now apply (set_queue_lookup 1)|]. split; [done|].
    destruct ps as [|p ps]; [exact H'|]. apply Forall_cons_1 in Hsm as [Hp _]. cbn [fifo_read] in H'.
    now rewrite (proj2 (Z.leb_le _ 1024) Hp) in H'.
  - destruct (response_loop_drains W handle HW Hok ps fuel c q response_buffer)
      as (c' & bufs & q' & E & Em & Hq' & H'); auto; [lia|]. eauto 8.
Qed.

(** ** Initialisation and deinitialisation *)
Section Life.
Context `{VidcPlatform} (Hcb : non_secure_bank).

(** The headers of three present queues are reset to those of empty queues. *)
Lemma headers_reset c :
  length (iface_queues c) = 3%nat -> Forall (fun q => is_Some (q_hdr q)) (iface_queues c) ->
  exists qs, venus_hfi_reset_queue_header c = Done (0, set_queues c qs (q_tbl_hdr c) (iface_q_table c)) /\
    length qs = 3%nat /\ Forall (fun q => is_Some (q_hdr q)) qs.
Proof.
  intros Hl Hh. unfold venus_hfi_reset_queue_header.
  destruct (iface_queues c) as [|q0 [|q1 [|q2 [|]]]]; try discriminate.
  apply Forall_cons_1 in Hh as [[h0 E0] Hh]. apply Forall_cons_1 in Hh as [[h1 E1] Hh].
  apply Forall_cons_1 in Hh as [[h2 E2] _].
  cbn [map_queues]. unfold with_hdr. rewrite E0. cbn [deref mbind exec_bind].
  rewrite E1. cbn [deref mbind exec_bind]. rewrite E2. cbn [deref mbind exec_bind].
  cbv [set_directions VIDC_IFACEQ_CMDQ_IDX VIDC_IFACEQ_MSGQ_IDX VIDC_IFACEQ_DBGQ_IDX].
  eexists. split; [reflexivity|]. split; [reflexivity|]. repeat constructor; eauto.
Qed.

(** Another initialisation with the queue table present only resets the
    headers, and succeeds. *)
Lemma init_again a c :
  holds_ok c -> is_Some (align_virtual_addr (iface_q_table c)) ->
  exists qs, venus_hfi_queue_init a c = Done (0, set_queues c qs (q_tbl_hdr c) (iface_q_table c)) /\
    length qs = 3%nat /\ Forall (fun q => is_Some (q_hdr q)) qs.
Proof.
  intros Hk [w Hw]. unfold venus_hfi_queue_init. rewrite Hw.
  destruct (headers_reset c (h_queues c Hk)) as (qs & -> & Hl & Hh); [apply (h_headers c Hk); eauto|].
  exists qs. auto.
Qed.

Lemma set_queues_holds c qs :
  holds_ok c -> length qs = 3%nat -> Forall (fun q => is_Some (q_hdr q)) qs ->
  holds_ok (set_queues c qs (q_tbl_hdr c) (iface_q_table c)).
Proof. intros [] Hl Hh. split; auto. Qed.

(** C4: with answers that leave no buffer behind (no allocated buffer is
    refused its attachment to the device), an initialisation from a fresh state
    returns 0 exactly when every request was granted, and -ENOMEM
    otherwise.  Once the memory of the queues is there, the three queues are
    empty, lie one after the other behind the table inside it, and their
    headers give their device addresses and directions, the debug queue asking
    for no interrupt; after a success the SFR buffer starts with its size, and
    the words of the HFI_MMAP_ADDR buffer are the addresses and sizes of the
    register areas and of the synx queue at their places, and 0 elsewhere. *)
Theorem vidc_init_correct a c :
  core_fresh c -> answers_ok a -> none_refused a ->
  qhdr_offset 2 + sizeof_queue_header = VIDC_IFACEQ_TABLE_SIZE /\
  VIDC_IFACEQ_TABLE_SIZE + 3 * VIDC_IFACEQ_QUEUE_SIZE <= TOTAL_QSIZE /\
  exists c',
    venus_hfi_queue_init a c = Done (if init_good a c then 0 else - ENOMEM, c') /\
    (if alloc_good (a_queues a)
     then queues_ready (a_queues a) c' /\
          forall i q, 0 <= i < 3 -> (iface_queues c').[i] = Some q -> queue_holds 204800 q []
     else core_fresh c') /\
    (init_good a c = true -> sfr_ready c' /\ mmap_ready c' /\ regs_ready c c').
Proof.
  intros Hf Ha Hn. split; [reflexivity|]. split; [vm_compute; discriminate|].
  destruct (init_fresh Hcb a c Hf Ha Hn) as (c' & E & _ & Hq & _ & Hg).
  exists c'. split; [exact E|]. split; [|exact Hg].
  destruct (alloc_good (a_queues a)); [|exact Hq]. split; [exact Hq|].
  intros i q Hi Hl. destruct Hq as (_ & _ & Hq). destruct (Hq i Hi) as (q' & E' & Hr).
  rewrite Hl in E'. injection E' as <-. exact (queue_ready_empty _ _ _ _ Hr).
Qed.

(** What goes wrong when an initialisation fails after it has the
    memory of the queues: the next initialisation, with any answers, returns 0
    without trying again, so the HFI_MMAP_ADDR buffer is still missing.  And
    when the memory of the queues is allocated but not attached to the device,
    -ENOMEM is returned and the dma-buf stays allocated, also after the
    deinitialisation: nothing refers to it. *)
Theorem vidc_init_failures a c :
  core_fresh c -> answers_ok a ->
  (none_refused a -> alloc_good (a_queues a) = true -> init_good a c = false ->
     exists c1, venus_hfi_queue_init a c = Done (- ENOMEM, c1) /\
       forall a', exists c2, venus_hfi_queue_init a' c1 = Done (0, c2) /\
         align_virtual_addr (mmap_buf c2) = None /\ resources c2 = resources c1) /\
  (attach_refused (a_queues a) ->
     exists c1, venus_hfi_queue_init a c = Done (- ENOMEM, c1) /\
       live_bufs (resources (venus_hfi_queue_deinit c1)) = [next_buf (resources c)] /\
       area_bufs (venus_hfi_queue_deinit c1) = []).
Proof.
  intros Hf Ha. split.
  - intros Hn Hg Hb. destruct (init_fresh Hcb a c Hf Ha Hn) as (c1 & E & Hk & Hq & Hm & _).
    rewrite Hg in Hq. rewrite Hb in E. exists c1. split; [exact E|]. intros a'.
    destruct (init_again a' c1 Hk (proj1 Hq)) as (qs & E2 & _).
    eexists. split; [exact E2|]. split; [exact (Hm Hb)|reflexivity].
  - intros Hr. destruct (alloc_map_refused (a_queues a) TOTAL_QSIZE (resources c) (ok_queues a Ha) Hr)
      as (m & words & E).
    destruct Hf as [_ _ Ht _ _ (Mt & Ms & Mm & _) (Kl & _)].
    eexists. split.
    + rewrite init_chain by done. cbv zeta. unfold init_iface_queues. rewrite E. reflexivity.
    + unfold venus_hfi_queue_deinit. cbn [iface_q_table set_held]. rewrite Ht. cbn. rewrite Kl.
      split; [done|]. unfold area_bufs. cbn. destruct Mt as [-> _], Ms as [-> _], Mm as [-> _]. done.
Qed.

(** ** The life of the queues *)

(** What a write or a read makes of the core: at most one queue that was
    there is changed, and keeps its header. *)
Definition queue_update (c c' : msm_vidc_core) : Prop :=
  c' = c \/
  exists i q q', (iface_queues c).[i] = Some q /\ is_Some (align_virtual_addr (q_array q)) /\
    (is_Some (q_hdr q) -> is_Some (q_hdr q')) /\
    (c' = set_queue i q' c \/ c' = raise_interrupt (set_queue i q' c)).

Lemma write_keeps_hdr q pkt rc q' irq :
  __write_queue q pkt = Done (rc, q', irq) -> is_Some (q_hdr q) -> is_Some (q_hdr q').
Proof.
  unfold __write_queue. destruct pkt; [|intros; exec_inv; done].
  destruct (align_virtual_addr (q_array q)); [|intros; exec_inv; done].
  destruct (q_hdr q) eqn:Eh; [|intros; exec_inv; congruence]. intros E _. exec_inv.
  repeat case_test_in E; exec_inv; cbn; rewrite ?Eh; eauto.
  repeat match goal with x : _ * _ |- _ => destruct x end; exec_inv; cbn; eauto.
Qed.

Lemma read_keeps_hdr q pkt rc q' b tx :
  __read_queue q pkt = Done (rc, q', b, tx) -> is_Some (q_hdr q) -> is_Some (q_hdr q').
Proof.
  unfold __read_queue. destruct pkt; [|intros; exec_inv; done].
  destruct (align_virtual_addr (q_array q)); [|intros; exec_inv; done].
  destruct (q_hdr q) eqn:Eh; [|intros; exec_inv; congruence]. intros E _.
  repeat case_test_in E; exec_inv; cbn; rewrite ?Eh; eauto.
  all: repeat case_test_in E; exec_inv; cbn; rewrite ?Eh; eauto.
  all: repeat match goal with x : _ * _ |- _ => destruct x end; exec_inv; cbn; eauto.
Qed.

Lemma cmd_write_update c pkt allow rc c' :
  venus_hfi_queue_cmd_write_intr c pkt allow = Done (rc, c') -> queue_update c c'.
Proof.
  unfold venus_hfi_queue_cmd_write_intr, __iface_cmdq_write_relaxed. intros E.
  destruct (negb (__strict_check c =? 0)); [cbn in E; exec_inv; left; now rewrite andb_false_r|].
  destruct (core_in_valid_state c); cbn [negb] in E; [|cbn in E; exec_inv; now left].
  destruct ((iface_queues c).[VIDC_IFACEQ_CMDQ_IDX]) as [q|] eqn:Eq; [|discriminate].
  cbn [deref mbind exec_bind] in E.
  destruct (align_virtual_addr (q_array q)) eqn:Ev; [|cbn in E; exec_inv; now left].
  destruct (__write_queue q pkt) as [[[wrc q'] irq]| |] eqn:Ew; [|discriminate..].
  cbn [mbind exec_bind] in E. exec_inv. right. exists VIDC_IFACEQ_CMDQ_IDX, q, q'.
  split; [done|]. split; [rewrite Ev; eauto|]. split; [exact (write_keeps_hdr _ _ _ _ _ Ew)|].
  destruct (_ && _); auto.
Qed.

Lemma locked_read_update i c pkt rc c' b :
  queue_msg_read_locked i c pkt = Done (rc, c', b) -> queue_update c c'.
Proof.
  unfold queue_msg_read_locked. intros E.
  destruct ((iface_queues c).[i]) as [q|] eqn:Eq; [|discriminate]. cbn [deref mbind exec_bind] in E.
  destruct (align_virtual_addr (q_array q)) eqn:Ev; [|exec_inv; now left].
  destruct (__read_queue q pkt) as [[[[rrc q'] b'] tx]| |] eqn:Er; [|discriminate..].
  cbn [mbind exec_bind] in E. right. exists i, q, q'.
  split; [done|]. split; [rewrite Ev; eauto|]. split; [exact (read_keeps_hdr _ _ _ _ _ _ Er)|].
  repeat case_test_in E; exec_inv; auto.
Qed.

Lemma msg_read_update c pkt rc c' b : venus_hfi_queue_msg_read c pkt = Done (rc, c', b) -> queue_update c c'.
Proof.
  unfold venus_hfi_queue_msg_read. destruct pkt; [|intros; exec_inv; now left].
  destruct (core_in_valid_state c); cbn [negb]; [|intros; exec_inv; now left]. apply locked_read_update.
Qed.
Lemma dbg_read_update c pkt rc c' b : venus_hfi_queue_dbg_read c pkt = Done (rc, c', b) -> queue_update c c'.
Proof.
  unfold venus_hfi_queue_dbg_read. destruct pkt; [|intros; exec_inv; now left]. apply locked_read_update.
Qed.

(** Fresh, or with the queue table and exactly what the areas record. *)
Definition life_inv (c : msm_vidc_core) : Prop :=
  core_fresh c \/ (holds_ok c /\ is_Some (align_virtual_addr (iface_q_table c))).

Lemma life_inv_queue_update c c' : life_inv c -> queue_update c c' -> life_inv c'.
Proof.
  intros Hi [->|(i & q & q' & Hq & Hv & Hh & Hc)]; [done|]. destruct Hi as [Hf|[Hk Ht]].
  - exfalso. pose proof (f_arrays c Hf) as F. rewrite Forall_elem in F.
    assert (Hin : q ∈ iface_queues c).
    { revert Hq. unfold zlookup. case_test; [|discriminate]. apply list_elem_of_lookup_2. }
    rewrite (F q Hin) in Hv. destruct Hv. discriminate.
  - right. assert (Hok : holds_ok (set_queue i q' c)).
    { apply set_queues_holds; [done| |].
      - pose proof (zlength_insert i q' (iface_queues c)) as E. unfold zlength in E.
        rewrite (h_queues c Hk) in E. lia.
      - pose proof (h_headers c Hk Ht) as F. unfold zinsert. case_test; [|done].
        apply Forall_insert; [done|]. apply Hh. rewrite Forall_elem in F. apply F.
        revert Hq. unfold zlookup. case_test; [|discriminate]. apply list_elem_of_lookup_2. }
    destruct Hc as [-> | ->]; [now split|]. split; [|exact Ht]. destruct Hok. now split.
Qed.

(** The firmware changes the words and the headers of the queues. *)
Definition same_presence (q q' : msm_vidc_iface_q_info) : Prop :=
  (is_Some (q_hdr q) <-> is_Some (q_hdr q')) /\
  (is_Some (align_virtual_addr (q_array q)) <-> is_Some (align_virtual_addr (q_array q'))).

Inductive life_step (c : msm_vidc_core) : msm_vidc_core -> Prop :=
| life_init a rc c' :
    answers_ok a -> none_refused a -> venus_hfi_queue_init a c = Done (rc, c') -> life_step c c'
| life_deinit : life_step c (venus_hfi_queue_deinit c)
| life_cmd pkt allow rc c' :
    venus_hfi_queue_cmd_write_intr c pkt allow = Done (rc, c') -> life_step c c'
| life_msg pkt rc c' b : venus_hfi_queue_msg_read c pkt = Done (rc, c', b) -> life_step c c'
| life_dbg pkt rc c' b : venus_hfi_queue_dbg_read c pkt = Done (rc, c', b) -> life_step c c'
| life_firmware qs :
    Forall2 same_presence (iface_queues c) qs ->
    life_step c (set_queues c qs (q_tbl_hdr c) (iface_q_table c)).

Lemma life_firmware_inv c qs :
  life_inv c -> Forall2 same_presence (iface_queues c) qs ->
  life_inv (set_queues c qs (q_tbl_hdr c) (iface_q_table c)).
Proof.
  intros Hi F2. pose proof (Forall2_length _ _ _ F2) as Hl. destruct Hi as [Hf|[Hk Ht]].
  - left. pose proof (f_arrays c Hf) as F. destruct Hf. split; auto; cbn; [congruence|].
    clear - F F2. induction F2 as [|q q' l l' [_ Hp] _ IH]; [constructor|].
    apply Forall_cons_1 in F as [E F]. constructor; [|auto].
    destruct (align_virtual_addr (q_array q')); [|done]. exfalso.
    rewrite E in Hp. destruct (proj2 Hp) as [x Hx]; [eauto|discriminate].
  - right. split; [|exact Ht]. apply set_queues_holds; [done|rewrite <- Hl; apply Hk|].
    pose proof (h_headers c Hk Ht) as F. clear - F F2.
    induction F2 as [|q q' l l' [Hp _] _ IH]; [constructor|].
    apply Forall_cons_1 in F as [E F]. constructor; [now apply Hp|auto].
Qed.

Lemma life_step_inv c c' : life_inv c -> life_step c c' -> life_inv c'.
Proof.
  intros Hi S. destruct S as [a rc c' Ha Hn E| |pkt allow rc c' E|pkt rc c' b E|pkt rc c' b E|qs F].
  - destruct Hi as [Hf|[Hk Ht]].
    + destruct (init_fresh Hcb a c Hf Ha Hn) as (c1 & E1 & Hk1 & Hq & _). rewrite E1 in E.
      injection E as _ <-. destruct (alloc_good (a_queues a)); [right; split; [done|apply Hq]|now left].
    + destruct (init_again a c Hk Ht) as (qs & E1 & Hl & Hh). rewrite E1 in E. injection E as _ <-.
      right. split; [now apply set_queues_holds|exact Ht].
  - destruct Hi as [Hf|[Hk Ht]]; [|left; now apply deinit_fresh].
    left. unfold venus_hfi_queue_deinit. now rewrite (f_table c Hf).
  - exact (life_inv_queue_update c c' Hi (cmd_write_update _ _ _ _ _ E)).
  - exact (life_inv_queue_update c c' Hi (msg_read_update _ _ _ _ _ E)).
  - exact (life_inv_queue_update c c' Hi (dbg_read_update _ _ _ _ _ E)).
  - now apply life_firmware_inv.
Qed.

(** ** Initialisations that leave a buffer behind *)
#[local] Arguments filter : simpl never.
#[local] Arguments list_filter : simpl never.

(** The state without the buffers that were left behind is one of those
    above, and these are still there. *)
Definition lost_inv (lost : list Z) (c : msm_vidc_core) : Prop :=
  life_inv (forget lost c) /\ lost_below lost (resources c) /\
  filter (.∈ lost) (live_bufs (resources c)) = lost /\ regs_recorded c.
Lemma life_inv_live c : life_inv c -> live_bufs (resources c) = area_bufs c /\
  Forall (fun b => b < next_buf (resources c)) (area_bufs c).
Proof. intros [Hf|[Hk _]]; [apply core_fresh_holds in Hf as Hk|]; split; apply Hk. Qed.
Lemma lost_not_recorded lost c b : lost_inv lost c -> b ∈ area_bufs c -> b ∉ lost.
Proof.
  intros (Hi & _) Hb. destruct (life_inv_live _ Hi) as [E _]. change (area_bufs c) with (area_bufs (forget lost c)) in Hb.
  rewrite <- E in Hb. now apply list_elem_of_filter in Hb as [N _].
Qed.

Lemma lost_inv_update lost c c' : lost_inv lost c -> queue_update c c' -> lost_inv lost c'.
Proof.
  intros (Hi & L & Hl & R) U.
  assert (E : resources c' = resources c /\ regs_recorded c').
  { destruct U as [->|(i & q & q' & _ & _ & _ & [-> | ->])]; [done|split; [done|now apply (recorded_same c)]..]. }
  destruct E as [E R']. split; [|rewrite E; split; [exact L|split; [exact Hl|exact R']]].
  apply (life_inv_queue_update (forget lost c)); [exact Hi|].
  destruct U as [->|(i & q & q' & Hq & Hv & Hh & Hc)]; [now left|right].
  exists i, q, q'. split; [exact Hq|]. split; [exact Hv|]. split; [exact Hh|]. destruct Hc as [-> | ->]; [now left|now right].
Qed.
Lemma lost_inv_init lost c a rc c' : lost_inv lost c -> answers_ok a -> none_refused a ->
  venus_hfi_queue_init a c = Done (rc, c') -> lost_inv lost c'.
Proof.
  intros (Hi & L & Hl & R) Ha Hn E. destruct (init_forgets lost a c L) as [Ef Kf]. destruct (Kf rc c' E) as [L' K'].
  rewrite E in Ef. split; [|split; [exact L'|split; [congruence|exact (init_records Hcb a c rc c' R E)]]].
  apply (life_step_inv _ _ Hi). exact (life_init _ _ _ _ Ha Hn Ef).
Qed.
Lemma lost_inv_step lost c c' : lost_inv lost c -> life_step c c' -> lost_inv lost c'.
Proof.
  intros HL S. destruct S as [a rc c' Ha Hn E| |pkt allow rc c' E|pkt rc c' b E|pkt rc c' b E|qs F].
  - exact (lost_inv_init lost c a rc c' HL Ha Hn E).
  - pose proof HL as (Hi & L & Hl & R).
    destruct (deinit_keeps lost c (fun b => lost_not_recorded lost c b HL) L) as [L' K'].
    split; [|split; [exact L'|split; [congruence|now apply deinit_records]]].
    rewrite <- deinit_forgets. exact (life_step_inv _ _ Hi (life_deinit _)).
  - exact (lost_inv_update lost c c' HL (cmd_write_update _ _ _ _ _ E)).
  - exact (lost_inv_update lost c c' HL (msg_read_update _ _ _ _ _ E)).
  - exact (lost_inv_update lost c c' HL (dbg_read_update _ _ _ _ _ E)).
  - destruct HL as (Hi & L & Hl & R). split; [|split; [exact L|split; [exact Hl|now apply (recorded_same c)]]].
    exact (life_firmware_inv _ qs Hi F).
Qed.

(** One more buffer is left behind. *)
Lemma life_inv_later c n : life_inv c -> next_buf (resources c) <= n ->
  life_inv (set_held c (synx_queue c) (set_bufs n (live_bufs (resources c)) (attached_bufs (resources c)) (resources c))).
Proof.
  intros [[]|[[] Ht]] Hn; [left; now split|right]. split; [|exact Ht]. split; auto. cbn.
  eapply Forall_impl; [eassumption|]. cbn. intros; lia.
Qed.
Lemma lost_inv_leak lost c : lost_inv lost c -> lost_inv (next_buf (resources c) :: lost) (leak c).
Proof.
  intros (Hi & L & Hl & R). destruct (life_inv_live _ Hi) as [El Hf]. set (b := next_buf (resources c)).
  assert (N : forall x, x ∈ live_bufs (resources c) -> x <> b).
  { intros x Hx ->. destruct (decide (b ∈ lost)) as [Hin|Hin].
    - unfold lost_below in L. rewrite Forall_elem in L. specialize (L b Hin). unfold b in L. lia.
    - assert (Hx' : b ∈ live_bufs (resources (forget lost c))) by (cbn; apply list_elem_of_filter; now split).
      rewrite El in Hx'. rewrite Forall_elem in Hf. specialize (Hf b Hx'). cbn in Hf. unfold b in Hf. lia. }
  assert (E : filter (.∉ b :: lost) (live_bufs (resources c)) = filter (.∉ lost) (live_bufs (resources c))).
  { apply filter_agree. intros x Hx. rewrite not_elem_of_cons. specialize (N x Hx). tauto. }
  assert (E' : filter (.∈ b :: lost) (live_bufs (resources c)) = lost).
  { transitivity (filter (.∈ lost) (live_bufs (resources c))); [|exact Hl]. apply filter_agree. intros x Hx. rewrite elem_of_cons. specialize (N x Hx). tauto. }
  split; [|split; [|split]].
  - replace (forget (b :: lost) (leak c)) with
      (set_held (forget lost c) (synx_queue c) (set_bufs (b + 1) (live_bufs (resources (forget lost c)))
         (attached_bufs (resources (forget lost c))) (resources (forget lost c)))).
    + apply (life_inv_later (forget lost c)); [exact Hi|]. cbn. unfold b. lia.
    + unfold forget, leak, forget_bufs. cbn.
      rewrite filter_cons_False by (rewrite not_elem_of_cons; tauto). fold b. now rewrite E.
  - constructor; [cbn; unfold b; lia|]. eapply Forall_impl; [exact L|]. cbn. lia.
  - cbn [leak set_held resources set_bufs live_bufs]. rewrite filter_cons_True by left. now rewrite E'.
  - now apply (recorded_same c).
Qed.

(** Runs, with the number of initialisations in which the device refused to
    attach a buffer. *)
Inductive life_run : nat -> msm_vidc_core -> Prop :=
| life_fresh c : core_fresh c -> regs_recorded c -> life_run 0 c
| life_next n c c' : life_run n c -> life_step c c' -> life_run n c'
| life_refused n a rc c c' :
    life_run n c -> answers_ok a -> ~ none_refused a -> venus_hfi_queue_init a c = Done (rc, c') -> life_run (S n) c'.
Lemma life_run_inv n c : life_run n c -> exists lost, lost_inv lost c /\ (length lost <= n)%nat.
Proof.
  induction 1 as [c Hf R|n c c' _ (lost & HL & Hn) S|n a rc c c' _ (lost & HL & Hn) Ha _ E].
  - exists []. split; [|done]. split; [left|split; [apply Forall_nil_2|split; [|exact R]]].
    + destruct Hf as [? ? ? ? ? ? (Kl & Ka & Ki & Kp)]. split; try assumption. repeat split; try assumption.
      cbn. now rewrite Kl.
    + destruct Hf as [? ? ? ? ? ? (-> & _)]. done.
  - exists lost. split; [exact (lost_inv_step lost c c' HL S)|exact Hn].
  - destruct (deny_refused_ok a Ha) as [Ha' Hn'].
    destruct (init_deny Hcb a c Ha) as [Es|(rc' & c2 & _ & Ed & El)].
    + exists lost. split; [|lia]. rewrite Es in E. exact (lost_inv_init lost c _ rc c' HL Ha' Hn' E).
    + rewrite El in E. injection E as _ <-. eexists. split; [exact (lost_inv_leak _ _ (lost_inv_init lost c _ _ _ HL Ha' Hn' Ed))|].
      cbn. lia.
Qed.
Lemma life_inv_total c a : life_inv c -> answers_ok a -> none_refused a ->
  exists rc c', venus_hfi_queue_init a c = Done (rc, c').
Proof.
  intros [Hf|[Hk Ht]] Ha Hn.
  - destruct (init_fresh Hcb a c Hf Ha Hn) as (c' & E & _). eauto.
  - destruct (init_again a c Hk Ht) as (qs & E & _). eauto.
Qed.
Lemma lost_inv_total lost c a : lost_inv lost c -> answers_ok a -> exists rc c', venus_hfi_queue_init a c = Done (rc, c').
Proof.
  intros (Hi & L & _) Ha. destruct (deny_refused_ok a Ha) as [Ha' Hn'].
  destruct (life_inv_total _ _ Hi Ha' Hn') as (rc & c1 & E). rewrite (proj1 (init_forgets lost (deny_refused a) c L)) in E.
  apply bind_Done in E as ([rc2 c2] & E & _).
  destruct (init_deny Hcb a c Ha) as [Es|(rc' & c3 & _ & _ & El)]; [rewrite Es, E|rewrite El]; eauto.
Qed.
Lemma life_inv_deinit c : life_inv c -> core_fresh (venus_hfi_queue_deinit c).
Proof.
  intros [Hf|[Hk Ht]]; [|now apply deinit_fresh]. unfold venus_hfi_queue_deinit. now rewrite (f_table c Hf).
Qed.

(** C29: what the core holds, whatever the kernel answers (an error is not 0,
    and an allocation has the words that were asked for) on a platform with
    a context bank for the non-secure region. In every state that
    initialisations, deinitialisations, commands, reads and changes of the
    queues by the firmware reach from a fresh one, the allocated dma-bufs
    are exactly those the areas record and some that were left behind: at
    most one for each initialisation in which the device refused to attach a
    buffer, none if it never refused one. The attached buffers are exactly
    those of the areas; the mapped register ranges are those the register
    areas record, in both directions; the synx page is mapped exactly if it
    is counted. The next initialisation returns, and a deinitialisation
    leaves a fresh state and gives everything back but the buffers that were
    left behind, which nothing gives back. *)
Theorem vidc_holds_exactly n c : life_run n c ->
  exists lost, (length lost <= n)%nat /\
    live_bufs (resources c) ≡ₚ lost ++ area_bufs c /\ attached_bufs (resources c) = area_bufs c /\
    holds_ok (forget lost c) /\ regs_recorded c /\
    (forall a, answers_ok a -> exists rc c', venus_hfi_queue_init a c = Done (rc, c')) /\
    core_fresh (forget lost (venus_hfi_queue_deinit c)) /\
    live_bufs (resources (venus_hfi_queue_deinit c)) = lost.
Proof.
  intros Hr. destruct (life_run_inv n c Hr) as (lost & HL & Hn). pose proof HL as (Hi & L & Hl & R).
  assert (Hk : holds_ok (forget lost c)) by (destruct Hi as [Hf|[Hk _]]; [now apply core_fresh_holds|exact Hk]).
  assert (Hd : core_fresh (forget lost (venus_hfi_queue_deinit c))) by (rewrite <- deinit_forgets; now apply life_inv_deinit).
  exists lost. split; [exact Hn|]. split; [|split; [exact (h_attached _ Hk)|]].
  - rewrite <- (filter_app_complement (.∈ lost) (live_bufs (resources c))). rewrite Hl.
    change (area_bufs c) with (area_bufs (forget lost c)). now rewrite <- (h_live _ Hk).
  - split; [exact Hk|]. split; [exact R|]. split; [intros a; exact (lost_inv_total lost c a HL)|]. split; [exact Hd|].
    destruct (lost_inv_step lost c _ HL (life_deinit c)) as (_ & _ & E & _). 
    transitivity (filter (.∈ lost) (live_bufs (resources (venus_hfi_queue_deinit c)))); [|exact E].
    symmetry. apply filter_keeps. intros x Hx. destruct (decide (x ∈ lost)) as [Hin|Hin]; [exact Hin|].
    destruct (f_nothing _ Hd) as (Kl & _). assert (Hx' : x ∈ ([] : list Z)) by (rewrite <- Kl; cbn; now apply list_elem_of_filter).
    now apply not_elem_of_nil in Hx'.
Qed.
End Life.

(** ** Instances *)
#[local] Instance demo_platform : VidcPlatform :=
  {| context_banks := [MSM_VIDC_NON_SECURE];
     device_regions :=
       [{| dr_region := MSM_VIDC_AON; dr_phy_addr := 0x0AAE0000; dr_size := 0x1000; dr_dev_addr := 0xFFAE0000 |};
        {| dr_region := MSM_VIDC_PROTOCOL_FENCE_CLIENT_VPU; dr_phy_addr := 0x00508000; dr_size := 0x1000;
           dr_dev_addr := 0xFFADF000 |}] |}.

Definition no_area : msm_vidc_mem_addr :=
  {| align_device_addr := 0; align_virtual_addr := None; mem_size := 0; area_mem := mem_zero |}.
Definition core0 (st : msm_vidc_core_state) (qs : list msm_vidc_iface_q_info) : msm_vidc_core :=
  {| core_state := st; core_locked := true; supports_synx_fence := false; iface_queues := qs;
     q_tbl_hdr := None; iface_q_table := no_area; sfr := no_area; mmap_buf := no_area;
     aon_reg := no_area; fence_reg := no_area; qtimer_reg := no_area; synx_queue := mem_zero;
     interrupts := 0;
     resources := {| next_buf := 0; live_bufs := []; attached_bufs := []; iommu_ranges := [];
                     dma_pages := 0 |} |}.
Definition no_queue : msm_vidc_iface_q_info := {| q_hdr := None; q_array := no_area |}.
Definition new_core : msm_vidc_core := core0 MSM_VIDC_CORE_DEINIT [no_queue; no_queue; no_queue].

Lemma new_core_fresh : core_fresh new_core.
Proof. split; try reflexivity; repeat constructor. Qed.
Lemma demo_bank : non_secure_bank.
Proof. reflexivity. Qed.

Definition granted (words addr : Z) : alloc_answer :=
  {| an_alloc := inr (replicate (Z.to_nat words) 0); an_attach := inr addr |}.
Definition denied : alloc_answer := {| an_alloc := inl (- ENOMEM); an_attach := inr 0 |}.
Definition unattached (words : Z) : alloc_answer :=
  {| an_alloc := inr (replicate (Z.to_nat words) 0); an_attach := inl (- EINVAL) |}.
Definition demo_answers (queues sfr : alloc_answer) : init_answers :=
  {| a_queues := queues; a_sfr := sfr; a_synx := inr 0; a_aon := 0; a_fence := 0; a_qtimer := 0;
     a_mmap := granted 1024 0x60000000 |}.

Lemma zlength_zeros n : 0 <= n -> zlength (replicate (Z.to_nat n) 0) = n.
Proof. intros Hn. unfold zlength. rewrite length_replicate. lia. Qed.

Lemma demo_answers_ok queues sfr :
  queues ∈ [granted 783360 0x40000000; unattached 783360] -> sfr ∈ [granted 1024 0x50000000; denied] ->
  answers_ok (demo_answers queues sfr).
Proof.
  intros Hq Hs. split; cbn [demo_answers a_queues a_sfr a_mmap a_synx]; [| | |done].
  - rewrite list_elem_of_In in Hq. destruct Hq as [<-|[<-|[]]]; (split; [exact (zlength_zeros 783360 ltac:(lia))|done]).
  - rewrite list_elem_of_In in Hs. destruct Hs as [<-|[<-|[]]]; (split; [|done]); [exact (zlength_zeros 1024 ltac:(lia))|done].
  - split; [exact (zlength_zeros 1024 ltac:(lia))|done].
Qed.

Lemma vidc_init_correct_witness :
  exists c', venus_hfi_queue_init (demo_answers (granted 783360 0x40000000) (granted 1024 0x50000000)) new_core
               = Done (0, c') /\ sfr_ready c' /\ mmap_ready c'.
Proof.
  destruct (vidc_init_correct demo_bank (demo_answers (granted 783360 0x40000000) (granted 1024 0x50000000))
              new_core new_core_fresh) as (_ & _ & c' & E & _ & Hg).
  - apply demo_answers_ok; left.
  - repeat split; intros [].
  - exists c'. split; [exact E|]. destruct (Hg eq_refl) as (Hs & Hm & _). split; assumption.
Defined.

Lemma vidc_init_failures_witness :
  (exists c1, venus_hfi_queue_init (demo_answers (granted 783360 0x40000000) denied) new_core = Done (- ENOMEM, c1) /\
     forall a', exists c2, venus_hfi_queue_init a' c1 = Done (0, c2) /\
       align_virtual_addr (mmap_buf c2) = None /\ resources c2 = resources c1) /\
  (exists c1, venus_hfi_queue_init (demo_answers (unattached 783360) denied) new_core = Done (- ENOMEM, c1) /\
     live_bufs (resources (venus_hfi_queue_deinit c1)) = [0] /\
     area_bufs (venus_hfi_queue_deinit c1) = []).
Proof.
  split.
  - apply (proj1 (vidc_init_failures demo_bank (demo_answers (granted 783360 0x40000000) denied) new_core
             new_core_fresh ltac:(apply demo_answers_ok; [left|right; left])));
      [repeat split; intros []|reflexivity|reflexivity].
  - apply (proj2 (vidc_init_failures demo_bank (demo_answers (unattached 783360) denied) new_core
             new_core_fresh ltac:(apply demo_answers_ok; [right; left|right; left]))). exact I.
Defined.

(** An initialisation whose buffer the device refuses: the buffer is left
    behind, the next initialisation returns, and a deinitialisation leaves it. *)
Lemma vidc_holds_exactly_witness :
  exists c, life_run 1 c /\
    (exists rc c', venus_hfi_queue_init (demo_answers (granted 783360 0x40000000) denied) c = Done (rc, c')) /\
    live_bufs (resources (venus_hfi_queue_deinit c)) = [0].
Proof.
  destruct (alloc_map_refused (unattached 783360) TOTAL_QSIZE (resources new_core)
    (ok_queues (demo_answers (unattached 783360) denied) ltac:(apply demo_answers_ok; [right; left|right; left])) I)
    as (m & words & E).
  assert (Hi : venus_hfi_queue_init (demo_answers (unattached 783360) denied) new_core = Done (- ENOMEM, leak new_core)).
  { rewrite init_chain by done. cbv zeta. unfold init_iface_queues.
    change (a_queues (demo_answers (unattached 783360) denied)) with (unattached 783360). rewrite E. reflexivity. }
  assert (R : life_run 1 (leak new_core)).
  { eapply life_refused; [|apply demo_answers_ok; [right; left|right; left]|intros [N _]; exact (N I)|exact Hi].
    apply life_fresh; [exact new_core_fresh|repeat constructor]. }
  destruct (vidc_holds_exactly demo_bank 1 (leak new_core) R) as (lost & Hn & _ & _ & _ & _ & Ht & _ & Hl).
  exists (leak new_core). split; [exact R|]. split; [|reflexivity].
  apply Ht, demo_answers_ok; [left|right; left].
Defined.

(** A command that fills the empty ring of 1024 words is refused, and reported
    as written. *)
Definition big_packet : list Z := 4096 :: replicate 1023 0.
Lemma vidc_cmd_write_correct_witness :
  exists q', queue_holds 1024 q' [] /\
    venus_hfi_queue_cmd_write (core0 MSM_VIDC_CORE_INIT [small_queue 0; small_queue 0; small_queue 0]) (Some big_packet)
      = Done (0, set_queue VIDC_IFACEQ_CMDQ_IDX q' (core0 MSM_VIDC_CORE_INIT [small_queue 0; small_queue 0; small_queue 0])).
Proof.
  pose proof (vidc_cmd_write_correct 1024 (core0 MSM_VIDC_CORE_INIT [small_queue 0; small_queue 0; small_queue 0])
    (small_queue 0) [] big_packet ltac:(lia) eq_refl (small_queue_empty 0 ltac:(lia))
    ltac:(vm_compute; repeat split; discriminate)) as Hc.
  exact Hc.
Defined.

(** One message in a ring, without and with the firmware's request. *)
Definition one_message (tx : Z) : msm_vidc_iface_q_info :=
  ring_queue (packet6 ++ replicate 1018 0) (set_tx_req tx (set_write_idx 6 header0)).
Lemma one_message_holds tx : queue_holds 1024 (one_message tx) [packet6].
Proof.
  eexists _, _. split; [split; reflexivity|]. cbn [concat]. rewrite app_nil_r.
  split; [constructor; [split; reflexivity|constructor]|]. split; [reflexivity|]. split; [cbn; lia|].
  split; [reflexivity|]. intros i Hi. change (zlength packet6) with 6 in Hi.
  assert (i = 0 \/ i = 1 \/ i = 2 \/ i = 3 \/ i = 4 \/ i = 5) as [->|[->|[->|[->|[->| ->]]]]] by lia; reflexivity.
Qed.

Lemma vidc_messages_drained_witness :
  (exists c' bufs, response_loop 2 (fun _ c => (0, c))
     (core0 MSM_VIDC_CORE_INIT [small_queue 0; one_message 0; small_queue 0]) response_buffer = Done (c', bufs) /\
     map packet_of bufs = [packet6]) /\
  (exists c', response_loop 2 (fun _ c => (0, c))
     (core0 MSM_VIDC_CORE_INIT [small_queue 0; one_message 1; small_queue 0]) response_buffer = Done (c', [])).
Proof.
  split.
  - destruct (vidc_messages_drained 1024 (fun _ c => (0, c)) [packet6] 2
      (core0 MSM_VIDC_CORE_INIT [small_queue 0; one_message 0; small_queue 0]) (one_message 0)
      ltac:(lia) (fun _ _ => conj eq_refl eq_refl) eq_refl eq_refl (one_message_holds 0)
      ltac:(constructor; [vm_compute; discriminate|constructor]) ltac:(cbn; lia)) as (c' & bufs & q' & E & _ & Hb & _).
    exists c', bufs. split; [exact E|exact Hb].
  - destruct (vidc_messages_drained 1024 (fun _ c => (0, c)) [packet6] 2
      (core0 MSM_VIDC_CORE_INIT [small_queue 0; one_message 1; small_queue 0]) (one_message 1)
      ltac:(lia) (fun _ _ => conj eq_refl eq_refl) eq_refl eq_refl (one_message_holds 1)
      ltac:(constructor; [vm_compute; discriminate|constructor]) ltac:(cbn; lia)) as (c' & bufs & q' & E & _ & Hb & _).
    exists c'. rewrite E, Hb. reflexivity.
Defined.
