(* ===== verification/VidcPacket.v ===== *)
(** The packets the video driver exchanges with its firmware
    (video-driver/driver/vidc/src/hfi_packet.c, inc/hfi_command.h) and the
    checks of those it receives (src/venus_hfi_response.c).

    A buffer is the list of its bytes.  A response buffer holds a header and
    as many packets as the header says, one behind the other, each with its
    size in its first word. *)
From S2P Require Import Prelude.

(** ** Bytes in memory *)

(** A 32-bit word as the bytes it occupies, and the integer bytes spell. *)
Definition le32 (v : Z) : list Z := [u8 v; u8 (v / 2 ^ 8); u8 (v / 2 ^ 16); u8 (v / 2 ^ 24)].
Definition of_le (l : list Z) : Z := foldr (fun b acc => b + 2 ^ 8 * acc) 0 l.

Definition load (o n : Z) (b : list Z) : exec (list Z) :=
  if (0 <=? o) && (0 <=? n) && (o + n <=? zlength b)
  then Done (take (Z.to_nat n) (drop (Z.to_nat o) b)) else Fault.
Definition store (o : Z) (src b : list Z) : exec (list Z) :=
  if (0 <=? o) && (o + zlength src <=? zlength b)
  then Done (take (Z.to_nat o) b ++ src ++ drop (Z.to_nat o + length src) b) else Fault.
Definition load32 (o : Z) (b : list Z) : exec Z := l ← load o 4 b; Done (of_le l).
Definition store32 (o v : Z) (b : list Z) : exec (list Z) := store o (le32 v) b.
Definition memset0 (o n : Z) (b : list Z) : exec (list Z) := store o (replicate (Z.to_nat n) 0) b.

(** ** Data *)
Definition HFI_HOST_FLAGS_NONE : Z := 0.
Definition HFI_HOST_FLAGS_INTR_REQUIRED : Z := 1.
Definition HFI_HOST_FLAGS_RESPONSE_REQUIRED : Z := 2.
Definition HFI_HOST_FLAGS_NON_DISCARDABLE : Z := 4.
Definition HFI_HOST_FLAGS_GET_PROPERTY : Z := 8.
Definition HFI_FW_FLAGS_SUCCESS : Z := 1.
Definition HFI_FW_FLAGS_INFORMATION : Z := 2.
Definition HFI_FW_FLAGS_SESSION_ERROR : Z := 4.
Definition HFI_FW_FLAGS_SYSTEM_ERROR : Z := 8.
Definition HFI_PAYLOAD_NONE : Z := 0.
Definition HFI_PAYLOAD_U32 : Z := 1.
Definition HFI_PAYLOAD_S32 : Z := 2.
Definition HFI_PAYLOAD_U64 : Z := 3.
Definition HFI_PAYLOAD_S64 : Z := 4.
Definition HFI_PAYLOAD_STRUCTURE : Z := 5.
Definition HFI_PAYLOAD_BLOB : Z := 6.
Definition HFI_PAYLOAD_STRING : Z := 7.
Definition HFI_PAYLOAD_Q16 : Z := 8.
Definition HFI_PAYLOAD_U32_ENUM : Z := 9.
Definition HFI_PAYLOAD_32_PACKED : Z := 10.
Definition HFI_PAYLOAD_U32_ARRAY : Z := 11.
Definition HFI_PAYLOAD_S32_ARRAY : Z := 12.
Definition HFI_PAYLOAD_64_PACKED : Z := 13.
Definition HFI_PORT_NONE : Z := 0.
Definition HFI_PORT_BITSTREAM : Z := 1.
Definition HFI_PORT_RAW : Z := 2.

(** enum hfi_buffer_type *)
Definition HFI_BUFFER_BITSTREAM : Z := 1.
Definition HFI_BUFFER_RAW : Z := 2.
Definition HFI_BUFFER_METADATA : Z := 3.
Definition HFI_BUFFER_SUBCACHE : Z := 4.
Definition HFI_BUFFER_PARTIAL_DATA : Z := 5.
Definition HFI_BUFFER_DPB : Z := 6.
Definition HFI_BUFFER_BIN : Z := 7.
Definition HFI_BUFFER_LINE : Z := 8.
Definition HFI_BUFFER_ARP : Z := 9.
Definition HFI_BUFFER_COMV : Z := 10.
Definition HFI_BUFFER_NON_COMV : Z := 11.
Definition HFI_BUFFER_PERSIST : Z := 12.
Definition HFI_BUFFER_VPSS : Z := 13.

Definition HFI_CMD_BEGIN : Z := 0x01000000.
Definition HFI_CMD_INIT : Z := 0x01000001.
Definition HFI_CMD_POWER_COLLAPSE : Z := 0x01000002.
Definition HFI_CMD_OPEN : Z := 0x01000003.
Definition HFI_CMD_CLOSE : Z := 0x01000004.
Definition HFI_CMD_START : Z := 0x01000005.
Definition HFI_CMD_STOP : Z := 0x01000006.
Definition HFI_CMD_DRAIN : Z := 0x01000007.
Definition HFI_CMD_RESUME : Z := 0x01000008.
Definition HFI_CMD_BUFFER : Z := 0x01000009.
Definition HFI_CMD_SUBSCRIBE_MODE : Z := 0x0100000B.
Definition HFI_CMD_SETTINGS_CHANGE : Z := 0x0100000C.
Definition HFI_CMD_PAUSE : Z := 0x01000011.
Definition HFI_CMD_END : Z := 0x01FFFFFF.
Definition HFI_PROP_BEGIN : Z := 0x03000000.
Definition HFI_PROP_IMAGE_VERSION : Z := 0x03000001.
Definition HFI_PROP_INTRA_FRAME_POWER_COLLAPSE : Z := 0x03000002.
Definition HFI_PROP_UBWC_MAX_CHANNELS : Z := 0x03000003.
Definition HFI_PROP_UBWC_MAL_LENGTH : Z := 0x03000004.
Definition HFI_PROP_UBWC_HBB : Z := 0x03000005.
Definition HFI_PROP_UBWC_BANK_SWZL_LEVEL1 : Z := 0x03000006.
Definition HFI_PROP_UBWC_BANK_SWZL_LEVEL2 : Z := 0x03000007.
Definition HFI_PROP_UBWC_BANK_SWZL_LEVEL3 : Z := 0x03000008.
Definition HFI_PROP_UBWC_BANK_SPREADING : Z := 0x03000009.
Definition HFI_PROP_DEBUG_CONFIG : Z := 0x0300000a.
Definition HFI_PROP_DEBUG_LOG_LEVEL : Z := 0x0300000b.
Definition HFI_PROP_FENCE_CLIENT_DATA : Z := 0x0300000d.
Definition HFI_PROP_END : Z := 0x03FFFFFF.
Definition HFI_SESSION_ERROR_BEGIN : Z := 0x04000000.
Definition HFI_SESSION_ERROR_END : Z := 0x04FFFFFF.
Definition HFI_SYSTEM_ERROR_BEGIN : Z := 0x05000000.
Definition HFI_SYSTEM_ERROR_END : Z := 0x05FFFFFF.
Definition HFI_INFORMATION_BEGIN : Z := 0x06000000.
Definition HFI_INFO_UNSUPPORTED : Z := 0x06000001.
Definition HFI_INFO_DATA_CORRUPT : Z := 0x06000002.
Definition HFI_INFO_BUFFER_OVERFLOW : Z := 0x06000004.
Definition HFI_INFO_HFI_FLAG_DRAIN_LAST : Z := 0x06000006.
Definition HFI_INFO_HFI_FLAG_PSC_LAST : Z := 0x06000007.
Definition HFI_INFO_FENCE_SIGNAL_ERROR : Z := 0x06000008.
Definition HFI_INFORMATION_END : Z := 0x06FFFFFF.
Definition HFI_VIDEO_ARCH_LX : Z := 1.

(** struct hfi_header and struct hfi_packet without their reserved words;
    both take 32 bytes. *)
Record hfi_header := {
  hh_size : Z;
  hh_session_id : Z;
  hh_header_id : Z;
  hh_num_packets : Z }.
Record hfi_packet := {
  hp_size : Z;
  hp_type : Z;
  hp_flags : Z;
  hp_payload_info : Z;
  hp_port : Z;
  hp_packet_id : Z }.
Definition sizeof_hfi_header : Z := 32.
Definition sizeof_hfi_packet : Z := 32.
(** sizeof(struct hfi_buffer) *)
Definition sizeof_hfi_buffer : Z := 64.

(** A header and a packet at an address. *)
Definition hfi_header_at (o : Z) (b : list Z) : exec hfi_header :=
  sz ← load32 o b; sid ← load32 (o + 4) b; hid ← load32 (o + 8) b; n ← load32 (o + 28) b;
  Done {| hh_size := sz; hh_session_id := sid; hh_header_id := hid; hh_num_packets := n |}.
Definition hfi_packet_at (o : Z) (b : list Z) : exec hfi_packet :=
  sz ← load32 o b; ty ← load32 (o + 4) b; fl ← load32 (o + 8) b; pi ← load32 (o + 12) b;
  po ← load32 (o + 16) b; id ← load32 (o + 20) b;
  Done {| hp_size := sz; hp_type := ty; hp_flags := fl; hp_payload_info := pi; hp_port := po;
          hp_packet_id := id |}.

(** ** Creation *)

(** hfi_create_header: the result and the buffer *)
Definition hfi_create_header (packet : option (list Z)) (packet_size session_id header_id : Z) :
    exec (Z * option (list Z)) :=
  match packet with
  | None => Done (- EINVAL, None)
  | Some b =>
      if packet_size <? sizeof_hfi_header then Done (- EINVAL, Some b)
      else
        b ← memset0 0 sizeof_hfi_header b;
        b ← store32 0 sizeof_hfi_header b;
        b ← store32 4 session_id b;
        b ← store32 8 header_id b;
        b ← store32 28 0 b;
        Done (0, Some b)
  end.

(** The assignments to the fields of *pkt. *)
Definition set_packet_fields (pkt n ty fl pi po id : Z) (b : list Z) : exec (list Z) :=
  b ← store32 pkt n b;
  b ← store32 (pkt + 4) ty b;
  b ← store32 (pkt + 8) fl b;
  b ← store32 (pkt + 12) pi b;
  b ← store32 (pkt + 16) po b;
  store32 (pkt + 20) id b.

(** hfi_create_packet; its payload_size may differ from what the payload
    points to. *)
Definition hfi_create_packet (packet : option (list Z))
    (packet_size pkt_type pkt_flags payload_type port packet_id : Z)
    (payload : option (list Z)) (payload_size : Z) : exec (Z * option (list Z)) :=
  match packet with
  | None => Done (- EINVAL, None)
  | Some b =>
      hdr_size ← load32 0 b;
      if hdr_size <? sizeof_hfi_header then Done (- EINVAL, Some b)
      else
        let pkt := hdr_size in
        let pkt_size := u32 (sizeof_hfi_packet + payload_size) in
        if packet_size <? u32 (hdr_size + pkt_size) then Done (- EINVAL, Some b)
        else
          b ← memset0 pkt pkt_size b;
          b ← set_packet_fields pkt pkt_size pkt_type pkt_flags payload_type port packet_id b;
          b ← (if payload_size =? 0 then Done b
               else src ← deref payload;
                    src ← load 0 payload_size src;
                    store (pkt + sizeof_hfi_packet) src b);
          num ← load32 28 b;
          b ← store32 28 (u32 (num + 1)) b;
          sz ← load32 pkt b;
          b ← store32 0 (u32 (hdr_size + sz)) b;
          Done (0, Some b)
  end.

(** The counters of struct msm_vidc_core that number headers and packets, and
    the number of the SYSTEM_INIT packet. *)
Record hfi_ids := {
  header_id : Z;
  packet_id : Z;
  sys_init_id : Z }.
Definition next_header_id (c : hfi_ids) : hfi_ids :=
  {| header_id := u32 (header_id c + 1); packet_id := packet_id c; sys_init_id := sys_init_id c |}.
Definition next_packet_id (c : hfi_ids) : hfi_ids :=
  {| header_id := header_id c; packet_id := u32 (packet_id c + 1); sys_init_id := sys_init_id c |}.
Definition set_sys_init_id (v : Z) (c : hfi_ids) : hfi_ids :=
  {| header_id := header_id c; packet_id := packet_id c; sys_init_id := v |}.

(** What the creation of a message carries along: the counters and the
    buffer; a step that returns an error ends it (goto err). *)
Definition hfi_state : Type := hfi_ids * option (list Z).
Definition hfi_then (r : exec (Z * hfi_state)) (k : hfi_state -> exec (Z * hfi_state)) :
    exec (Z * hfi_state) :=
  r ← r; if fst r =? 0 then k (snd r) else Done r.

(** hfi_create_header(..., core->header_id++) *)
Definition begin_message (packet_size session_id : Z) (st : hfi_state) : exec (Z * hfi_state) :=
  r ← hfi_create_header (snd st) packet_size session_id (header_id (fst st));
  Done (fst r, (next_header_id (fst st), snd r)).

(** hfi_create_packet(..., core->packet_id++, ...) *)
Definition add_packet (packet_size pkt_type pkt_flags payload_type port : Z)
    (payload : option (list Z)) (payload_size : Z) (st : hfi_state) : exec (Z * hfi_state) :=
  r ← hfi_create_packet (snd st) packet_size pkt_type pkt_flags payload_type port
        (packet_id (fst st)) payload payload_size;
  Done (fst r, (next_packet_id (fst st), snd r)).

(** A property of one word for the whole system. *)
Definition add_u32 (packet_size prop payload_type value : Z) (st : hfi_state) : exec (Z * hfi_state) :=
  add_packet packet_size prop HFI_HOST_FLAGS_NONE payload_type HFI_PORT_NONE
    (Some (le32 value)) 4 st.

(** struct msm_vidc_ubwc_config_data and the synx client data *)
Record ubwc_config := {
  max_channels : Z;
  mal_length : Z;
  highest_bank_bit : Z;
  bank_swzl_level : Z;
  bank_swz2_level : Z;
  bank_swz3_level : Z;
  bank_spreading : Z }.
Record hfi_platform := {
  ubwc : ubwc_config;
  supports_synx : bool;
  synx_client_id : Z;
  synx_client_flags : Z }.

Definition hfi_packet_sys_init (p : hfi_platform) (pkt_size : Z) (st : hfi_state) :
    exec (Z * hfi_state) :=
  let u := ubwc p in
  hfi_then (begin_message pkt_size 0 st) (fun st =>
  let st := (set_sys_init_id (packet_id (fst st)) (fst st), snd st) in
  hfi_then (add_packet pkt_size HFI_CMD_INIT
              (Z.lor (Z.lor HFI_HOST_FLAGS_RESPONSE_REQUIRED HFI_HOST_FLAGS_INTR_REQUIRED)
                 HFI_HOST_FLAGS_NON_DISCARDABLE)
              HFI_PAYLOAD_U32 HFI_PORT_NONE (Some (le32 HFI_VIDEO_ARCH_LX)) 4 st) (fun st =>
  hfi_then (add_u32 pkt_size HFI_PROP_UBWC_MAX_CHANNELS HFI_PAYLOAD_U32 (max_channels u) st) (fun st =>
  hfi_then (add_u32 pkt_size HFI_PROP_UBWC_MAL_LENGTH HFI_PAYLOAD_U32 (mal_length u) st) (fun st =>
  hfi_then (add_u32 pkt_size HFI_PROP_UBWC_HBB HFI_PAYLOAD_U32 (highest_bank_bit u) st) (fun st =>
  hfi_then (add_u32 pkt_size HFI_PROP_UBWC_BANK_SWZL_LEVEL1 HFI_PAYLOAD_U32 (bank_swzl_level u) st) (fun st =>
  hfi_then (add_u32 pkt_size HFI_PROP_UBWC_BANK_SWZL_LEVEL2 HFI_PAYLOAD_U32 (bank_swz2_level u) st) (fun st =>
  hfi_then (add_u32 pkt_size HFI_PROP_UBWC_BANK_SWZL_LEVEL3 HFI_PAYLOAD_U32 (bank_swz3_level u) st) (fun st =>
  hfi_then (add_u32 pkt_size HFI_PROP_UBWC_BANK_SPREADING HFI_PAYLOAD_U32 (bank_spreading u) st) (fun st =>
  if supports_synx p then
    add_packet pkt_size HFI_PROP_FENCE_CLIENT_DATA HFI_HOST_FLAGS_NONE HFI_PAYLOAD_U32_ARRAY
      HFI_PORT_NONE (Some (le32 (synx_client_id p) ++ le32 (synx_client_flags p))) 8 st
  else Done (0, st)))))))))).

Definition hfi_packet_image_version (pkt_size : Z) (st : hfi_state) : exec (Z * hfi_state) :=
  hfi_then (begin_message pkt_size 0 st)
    (add_packet pkt_size HFI_PROP_IMAGE_VERSION
       (Z.lor (Z.lor HFI_HOST_FLAGS_RESPONSE_REQUIRED HFI_HOST_FLAGS_INTR_REQUIRED)
          HFI_HOST_FLAGS_GET_PROPERTY)
       HFI_PAYLOAD_NONE HFI_PORT_NONE None 0).

Definition hfi_packet_sys_pc_prep (pkt_size : Z) (st : hfi_state) : exec (Z * hfi_state) :=
  hfi_then (begin_message pkt_size 0 st)
    (add_packet pkt_size HFI_CMD_POWER_COLLAPSE HFI_HOST_FLAGS_NONE HFI_PAYLOAD_NONE
       HFI_PORT_NONE None 0).

Definition hfi_packet_sys_debug_config (pkt_size debug_config : Z) (st : hfi_state) :
    exec (Z * hfi_state) :=
  hfi_then (begin_message pkt_size 0 st) (fun st =>
  hfi_then (add_u32 pkt_size HFI_PROP_DEBUG_CONFIG HFI_PAYLOAD_U32_ENUM 0 st)
    (add_u32 pkt_size HFI_PROP_DEBUG_LOG_LEVEL HFI_PAYLOAD_U32_ENUM debug_config)).

Definition hfi_packet_sys_intraframe_powercollapse (pkt_size enable : Z) (st : hfi_state) :
    exec (Z * hfi_state) :=
  hfi_then (begin_message pkt_size 0 st)
    (add_u32 pkt_size HFI_PROP_INTRA_FRAME_POWER_COLLAPSE HFI_PAYLOAD_U32 enable).

(** hfi_packet_session_command, on the packet buffer of the session *)
Definition hfi_packet_session_command (pkt_size pkt_type flags port session_id payload_type : Z)
    (payload : option (list Z)) (payload_size : Z) (st : hfi_state) : exec (Z * hfi_state) :=
  hfi_then (begin_message pkt_size session_id st)
    (add_packet pkt_size pkt_type flags payload_type port payload payload_size).

(** ** Checks of received messages *)

(** validate_packet: [buf] is core_resp_pkt with its size [size], [p] the
    distance of response_pkt from it. *)
Definition validate_packet (buf : option (list Z)) (size p : Z) : exec Z :=
  match buf with
  | None => Done (- EINVAL)
  | Some b =>
      if size =? 0 then Done (- EINVAL)
      else if (p <? 0) || (size <? p) then Done (- EINVAL)
      else
        n ← load32 p b;
        if n =? 0 then Done (- EINVAL)
        else if n <? sizeof_hfi_packet then Done (- EINVAL)
        else if size <? p + n then Done (- EINVAL)
        else Done 0
  end.

(** The loop of validate_hdr_packet over [num] packets from packet [i] at
    [p].  Each accepted packet takes at least 32 bytes. *)
Fixpoint validate_packets (fuel : nat) (b : list Z) (size num i p : Z) : exec Z :=
  if i <? num then
    match fuel with
    | O => Timeout
    | S fuel =>
        rc ← validate_packet (Some b) size p;
        if negb (rc =? 0) then Done rc
        else n ← load32 p b; validate_packets fuel b size num (i + 1) (p + n)
    end
  else Done 0.

Definition packet_fuel (size : Z) : nat := Z.to_nat (size / sizeof_hfi_packet + 2).

(** validate_hdr_packet, of the header at the start of core->response_packet *)
Definition validate_hdr_packet (b : list Z) (size : Z) : exec Z :=
  hdr_size ← load32 0 b;
  if hdr_size <? sizeof_hfi_header + sizeof_hfi_packet then Done (- EINVAL)
  else
    num ← load32 28 b;
    validate_packets (packet_fuel size) b size num 0 sizeof_hfi_header.

(** The packets of a message, as the handlers of responses walk over them:
    where each is, and its fields. *)
Fixpoint packets_from (fuel : nat) (b : list Z) (num i p : Z) : exec (list (Z * hfi_packet)) :=
  if i <? num then
    match fuel with
    | O => Timeout
    | S fuel =>
        x ← hfi_packet_at p b;
        l ← packets_from fuel b num (i + 1) (p + hp_size x);
        Done ((p, x) :: l)
    end
  else Done [].
Definition message_packets (b : list Z) (size : Z) : exec (list (Z * hfi_packet)) :=
  num ← load32 28 b; packets_from (packet_fuel size) b num 0 sizeof_hfi_header.

(** check_for_packet_payload *)
Definition payload_size_of (pkt : hfi_packet) : Z :=
  let i := hp_payload_info pkt in
  if (i =? HFI_PAYLOAD_U32) || (i =? HFI_PAYLOAD_S32) || (i =? HFI_PAYLOAD_Q16) ||
     (i =? HFI_PAYLOAD_U32_ENUM) || (i =? HFI_PAYLOAD_32_PACKED) then 4
  else if (i =? HFI_PAYLOAD_U64) || (i =? HFI_PAYLOAD_S64) || (i =? HFI_PAYLOAD_64_PACKED) then 8
  else if i =? HFI_PAYLOAD_STRUCTURE then
    if hp_type pkt =? HFI_CMD_BUFFER then sizeof_hfi_buffer else 0
  else 0.
Definition check_for_packet_payload (pkt : hfi_packet) : bool :=
  if hp_payload_info pkt =? HFI_PAYLOAD_NONE then false
  else negb (hp_size pkt <? sizeof_hfi_packet + payload_size_of pkt).

(** is_valid_hfi_port, is_valid_hfi_buffer_type *)
Definition is_valid_hfi_port (port buffer_type : Z) : bool :=
  if (port =? HFI_PORT_NONE) && negb (buffer_type =? HFI_BUFFER_ARP) &&
     negb (buffer_type =? HFI_BUFFER_PERSIST) then false
  else if negb (port =? HFI_PORT_BITSTREAM) && negb (port =? HFI_PORT_RAW) then false
  else true.
Definition hfi_buffer_types : list Z :=
  [HFI_BUFFER_BITSTREAM; HFI_BUFFER_RAW; HFI_BUFFER_METADATA; HFI_BUFFER_BIN; HFI_BUFFER_ARP;
   HFI_BUFFER_COMV; HFI_BUFFER_NON_COMV; HFI_BUFFER_LINE; HFI_BUFFER_DPB; HFI_BUFFER_PERSIST;
   HFI_BUFFER_VPSS; HFI_BUFFER_PARTIAL_DATA].
Definition is_valid_hfi_buffer_type (buffer_type : Z) : bool :=
  bool_decide (buffer_type ∈ hfi_buffer_types).

(** struct hfi_buffer behind the packet at [p], without its reserved words:
    what a handler of buffers reads once the payload was accepted. *)
Record hfi_buffer := {
  hb_type : Z;
  hb_index : Z;
  hb_base_address : Z;
  hb_addr_offset : Z;
  hb_buffer_size : Z;
  hb_data_offset : Z;
  hb_data_size : Z;
  hb_timestamp : Z;
  hb_flags : Z }.
Definition hfi_buffer_at (o : Z) (b : list Z) : exec hfi_buffer :=
  ty ← load32 o b; ix ← load32 (o + 4) b; ba ← load (o + 8) 8 b; ao ← load32 (o + 16) b;
  bs ← load32 (o + 20) b; d ← load32 (o + 24) b; ds ← load32 (o + 28) b; ts ← load (o + 32) 8 b;
  fl ← load32 (o + 40) b;
  Done {| hb_type := ty; hb_index := ix; hb_base_address := of_le ba; hb_addr_offset := ao;
          hb_buffer_size := bs; hb_data_offset := d; hb_data_size := ds;
          hb_timestamp := of_le ts; hb_flags := fl |}.

(** ** Dispatch of buffer packets *)

(** Which function handle_session_buffer passes a buffer to. *)
Inductive buffer_handler : Type :=
| handle_input_metadata_buffer
| handle_input_buffer
| handle_output_metadata_buffer
| handle_output_buffer
| handle_release_internal_buffer.

Definition MSM_VIDC_ENCODER : Z := 1.
Definition MSM_VIDC_DECODER : Z := 2.

Definition enc_input_hfi_handle : list (Z * buffer_handler) :=
  [(HFI_BUFFER_METADATA, handle_input_metadata_buffer);
   (HFI_BUFFER_RAW, handle_input_buffer);
   (HFI_BUFFER_VPSS, handle_release_internal_buffer)].
Definition enc_output_hfi_handle : list (Z * buffer_handler) :=
  [(HFI_BUFFER_METADATA, handle_output_metadata_buffer);
   (HFI_BUFFER_BITSTREAM, handle_output_buffer);
   (HFI_BUFFER_BIN, handle_release_internal_buffer);
   (HFI_BUFFER_COMV, handle_release_internal_buffer);
   (HFI_BUFFER_NON_COMV, handle_release_internal_buffer);
   (HFI_BUFFER_LINE, handle_release_internal_buffer);
   (HFI_BUFFER_ARP, handle_release_internal_buffer);
   (HFI_BUFFER_DPB, handle_release_internal_buffer)].
Definition dec_input_hfi_handle : list (Z * buffer_handler) :=
  [(HFI_BUFFER_METADATA, handle_input_metadata_buffer);
   (HFI_BUFFER_BITSTREAM, handle_input_buffer);
   (HFI_BUFFER_BIN, handle_release_internal_buffer);
   (HFI_BUFFER_COMV, handle_release_internal_buffer);
   (HFI_BUFFER_NON_COMV, handle_release_internal_buffer);
   (HFI_BUFFER_LINE, handle_release_internal_buffer);
   (HFI_BUFFER_PERSIST, handle_release_internal_buffer);
   (HFI_BUFFER_PARTIAL_DATA, handle_release_internal_buffer)].
Definition dec_output_hfi_handle : list (Z * buffer_handler) :=
  [(HFI_BUFFER_METADATA, handle_output_metadata_buffer);
   (HFI_BUFFER_RAW, handle_output_buffer);
   (HFI_BUFFER_DPB, handle_release_internal_buffer)].

Definition hfi_handle_arr (domain port : Z) : list (Z * buffer_handler) :=
  if domain =? MSM_VIDC_ENCODER then
    if port =? HFI_PORT_RAW then enc_input_hfi_handle
    else if port =? HFI_PORT_BITSTREAM then enc_output_hfi_handle else []
  else if domain =? MSM_VIDC_DECODER then
    if port =? HFI_PORT_BITSTREAM then dec_input_hfi_handle
    else if port =? HFI_PORT_RAW then dec_output_hfi_handle else []
  else [].

Fixpoint find_handler (ty : Z) (l : list (Z * buffer_handler)) : option buffer_handler :=
  match l with
  | [] => None
  | (t, h) :: l => if t =? ty then Some h else find_handler ty l
  end.

(** What handle_session_buffer does with the packet: nothing, put the session
    into its error state and return 0, return -EINVAL, or call a handler and
    return its result. *)
Inductive buffer_action : Type :=
| BufIgnored
| BufSessionError
| BufRefused
| BufHandled (h : buffer_handler) (buffer : hfi_buffer).

Definition handle_session_buffer (domain : Z) (b : list Z) (p : Z) (pkt : hfi_packet) :
    exec buffer_action :=
  if hp_payload_info pkt =? HFI_PAYLOAD_NONE then Done BufIgnored
  else if negb (check_for_packet_payload pkt) then Done BufSessionError
  else
    ty ← load32 (p + sizeof_hfi_packet) b;
    if negb (is_valid_hfi_buffer_type ty) then Done BufSessionError
    else if negb (is_valid_hfi_port (hp_port pkt) ty) then Done BufSessionError
    else
      match find_handler ty (hfi_handle_arr domain (hp_port pkt)) with
      | None => Done BufRefused
      | Some h => buffer ← hfi_buffer_at (p + sizeof_hfi_packet) b; Done (BufHandled h buffer)
      end.
