(* ===== verification/VidcPacketSpec.v ===== *)
(** Messages as lists of packets: what a buffer holds that was filled packet
    by packet, and what the checks and walks over it find. *)
From S2P Require Import Prelude VidcPacket.

(** ** Words and bytes *)
Lemma of_le_le32 v : of_le (le32 v) = u32 v.
Proof.
  unfold of_le, le32, u8, u32. cbn [foldr].
  change (2 ^ 32) with (2 ^ 8 * (2 ^ 8 * (2 ^ 8 * 2 ^ 8))).
  rewrite !(Z.rem_mul_r v), !(Z.rem_mul_r (v / 2 ^ 8)), !(Z.rem_mul_r (v / 2 ^ 8 / 2 ^ 8)) by lia.
  rewrite !Z.div_div by lia.
  change (2 ^ 8 * 2 ^ 8) with (2 ^ 16). change (2 ^ 16 * 2 ^ 8) with (2 ^ 24). lia.
Qed.

Definition words (ws : list Z) : list Z := concat (le32 <$> ws).

Lemma words_cons w ws : words (w :: ws) = le32 w ++ words ws.
Proof. reflexivity. Qed.
Lemma words_app ws ws' : words (ws ++ ws') = words ws ++ words ws'.
Proof. unfold words. now rewrite fmap_app, concat_app. Qed.
Lemma zlength_words ws : zlength (words ws) = 4 * zlength ws.
Proof.
  induction ws as [|w ws IH]; [reflexivity|].
  rewrite words_cons, zlength_app, IH. unfold zlength. cbn [length le32]. lia.
Qed.
Lemma words_zero n : words (replicate n 0) = replicate (4 * n) 0.
Proof.
  induction n as [|n IH]; [reflexivity|]. rewrite replicate_S, words_cons, IH.
  replace (4 * S n)%nat with (4 + 4 * n)%nat by lia. reflexivity.
Qed.
Lemma take_zlength {A} (l k : list A) : take (Z.to_nat (zlength l)) (l ++ k) = l.
Proof. unfold zlength. rewrite Nat2Z.id, take_app_length. reflexivity. Qed.
Lemma drop_zlength {A} (l k : list A) : drop (Z.to_nat (zlength l)) (l ++ k) = k.
Proof. unfold zlength. rewrite Nat2Z.id, drop_app_length. reflexivity. Qed.

(** ** Loads and stores at the border of two parts of a buffer *)
Lemma load_app pre l post n : n = zlength l -> load (zlength pre) n (pre ++ l ++ post) = Done l.
Proof.
  intros ->. unfold load. pose proof (zlength_nonneg pre). pose proof (zlength_nonneg l).
  pose proof (zlength_nonneg post). rewrite !zlength_app. tests; try lia.
  cbn [andb]. tests. rewrite drop_zlength, take_zlength. reflexivity.
Qed.
Lemma store_app pre old src post :
  zlength src = zlength old -> store (zlength pre) src (pre ++ old ++ post) = Done (pre ++ src ++ post).
Proof.
  intros Hl. unfold store. pose proof (zlength_nonneg pre). pose proof (zlength_nonneg old).
  pose proof (zlength_nonneg post). rewrite !zlength_app. tests; try lia. cbn [andb]. tests.
  rewrite take_zlength. repeat f_equal.
  replace (Z.to_nat (zlength pre) + length src)%nat with (Z.to_nat (zlength (pre ++ old)))
    by (rewrite zlength_app; unfold zlength in *; lia).
  rewrite app_assoc. apply drop_zlength.
Qed.

Lemma load_outside o n b : zlength b < o + n -> load o n b = Fault.
Proof. intros H. unfold load. case_test; [lia|reflexivity]. Qed.

(** Word [k] of a list of words in a buffer. *)
Lemma load32_words pre ws post k w :
  ws.[k] = Some w -> load32 (zlength pre + 4 * k) (pre ++ words ws ++ post) = Done (u32 w).
Proof.
  intros Hk. pose proof (zlookup_lt _ _ _ Hk) as Hlt. unfold zlookup in Hk.
  rewrite (proj2 (Z.leb_le 0 k)) in Hk by lia. apply take_drop_middle in Hk as Heq.
  rewrite <- Heq at 1. rewrite words_app, words_cons, <- !app_assoc, app_assoc.
  replace (zlength pre + 4 * k) with (zlength (pre ++ words (take (Z.to_nat k) ws))).
  2:{ rewrite zlength_app, zlength_words, zlength_take by lia. lia. }
  unfold load32. rewrite (load_app _ (le32 w)) by reflexivity. cbn [mbind exec_bind]. now rewrite of_le_le32.
Qed.
Lemma store32_words pre ws post k v :
  0 <= k < zlength ws ->
  store32 (zlength pre + 4 * k) v (pre ++ words ws ++ post) =
  Done (pre ++ words (zinsert k v ws) ++ post).
Proof.
  intros Hlt. destruct (zlookup_is_Some _ _ Hlt) as [w Hk]. unfold zlookup in Hk.
  unfold zinsert. rewrite (proj2 (Z.leb_le 0 k)) in * by lia.
  apply take_drop_middle in Hk as Heq. rewrite <- Heq at 1.
  rewrite words_app, words_cons, <- !app_assoc, app_assoc.
  replace (zlength pre + 4 * k) with (zlength (pre ++ words (take (Z.to_nat k) ws))).
  2:{ rewrite zlength_app, zlength_words, zlength_take by lia. lia. }
  unfold store32. rewrite (store_app _ (le32 w)) by reflexivity. rewrite <- app_assoc.
  rewrite insert_take_drop, words_app, words_cons, <- !app_assoc by (unfold zlength in Hlt; lia).
  reflexivity.
Qed.

(** ** Messages *)

(** A packet as its creator describes it. *)
Record packet := {
  p_type : Z;
  p_flags : Z;
  p_payload_info : Z;
  p_port : Z;
  p_id : Z;
  p_payload : list Z }.

Definition packet_length (p : packet) : Z := sizeof_hfi_packet + zlength (p_payload p).
Definition packet_head (p : packet) : list Z :=
  [packet_length p; p_type p; p_flags p; p_payload_info p; p_port p; p_id p; 0; 0].
Definition packet_bytes (p : packet) : list Z := words (packet_head p) ++ p_payload p.
Definition body_bytes (ps : list packet) : list Z := concat (packet_bytes <$> ps).
Definition message_length (ps : list packet) : Z := sizeof_hfi_header + zlength (body_bytes ps).
Definition header_head (sid hid : Z) (ps : list packet) : list Z :=
  [message_length ps; sid; hid; 0; 0; 0; 0; zlength ps].
Definition message_bytes (sid hid : Z) (ps : list packet) : list Z :=
  words (header_head sid hid ps) ++ body_bytes ps.

(** The fields fit their words. *)
Definition word (v : Z) : Prop := 0 <= v < 2 ^ 32.
Definition packet_fits (p : packet) : Prop :=
  word (packet_length p) /\ word (p_type p) /\ word (p_flags p) /\ word (p_payload_info p) /\
  word (p_port p) /\ word (p_id p).

(** What a receiver reads of a packet. *)
Definition packet_view (p : packet) : hfi_packet :=
  {| hp_size := packet_length p; hp_type := p_type p; hp_flags := p_flags p;
     hp_payload_info := p_payload_info p; hp_port := p_port p; hp_packet_id := p_id p |}.

(** Where the packets of a message are. *)
Fixpoint placed (o : Z) (ps : list packet) : list (Z * hfi_packet) :=
  match ps with
  | [] => []
  | p :: ps => (o, packet_view p) :: placed (o + packet_length p) ps
  end.

Lemma zlength_packet_bytes p : zlength (packet_bytes p) = packet_length p.
Proof. unfold packet_bytes, packet_length. rewrite zlength_app, zlength_words. reflexivity. Qed.
Lemma packet_length_pos p : 32 <= packet_length p.
Proof. unfold packet_length, sizeof_hfi_packet. pose proof (zlength_nonneg (p_payload p)). lia. Qed.
Lemma body_cons p ps : body_bytes (p :: ps) = packet_bytes p ++ body_bytes ps.
Proof. reflexivity. Qed.
Lemma body_snoc ps p : body_bytes (ps ++ [p]) = body_bytes ps ++ packet_bytes p.
Proof. unfold body_bytes. rewrite fmap_app, concat_app. cbn. now rewrite app_nil_r. Qed.
Lemma message_length_snoc ps p : message_length (ps ++ [p]) = message_length ps + packet_length p.
Proof. unfold message_length. rewrite body_snoc, zlength_app, zlength_packet_bytes. lia. Qed.
Lemma message_length_pos ps : 32 <= message_length ps.
Proof. unfold message_length, sizeof_hfi_header. pose proof (zlength_nonneg (body_bytes ps)). lia. Qed.
Lemma zlength_message sid hid ps : zlength (message_bytes sid hid ps) = message_length ps.
Proof. unfold message_bytes. rewrite zlength_app, zlength_words. reflexivity. Qed.
Lemma packets_in_body ps : 32 * zlength ps <= zlength (body_bytes ps).
Proof.
  induction ps as [|p ps IH]; [reflexivity|].
  rewrite body_cons, zlength_app, zlength_packet_bytes. pose proof (packet_length_pos p).
  unfold zlength in *. cbn [length]. lia.
Qed.

(** ** Creation *)
Lemma create_header_ok b size sid hid :
  32 <= size -> 32 <= zlength b ->
  hfi_create_header (Some b) size sid hid =
  Done (0, Some (message_bytes sid hid [] ++ drop 32 b)).
Proof.
  intros Hs Hb. unfold hfi_create_header, sizeof_hfi_header. tests. unfold memset0.
  assert (Hz : store 0 (replicate (Z.to_nat 32) 0) b = Done (words (replicate 8 0) ++ drop 32 b)).
  { rewrite <- (take_drop 32 b) at 1. apply (store_app []).
    unfold zlength in *. rewrite length_take, length_replicate. lia. }
  rewrite Hz. cbn [mbind exec_bind].
  set (rest := drop 32 b).
  assert (H : forall k v ws, 0 <= k < zlength ws ->
    store32 (4 * k) v (words ws ++ rest) = Done (words (zinsert k v ws) ++ rest))
    by (intros k v ws Hk; exact (store32_words [] ws rest k v Hk)).
  change (store32 0) with (store32 (4 * 0)). rewrite H by (rewrite ?zlength_insert; unfold zlength; cbn; lia). cbn [mbind exec_bind].
  change (store32 4) with (store32 (4 * 1)). rewrite H by (rewrite ?zlength_insert; unfold zlength; cbn; lia). cbn [mbind exec_bind].
  change (store32 8) with (store32 (4 * 2)). rewrite H by (rewrite ?zlength_insert; unfold zlength; cbn; lia). cbn [mbind exec_bind].
  change (store32 28) with (store32 (4 * 7)). rewrite H by (rewrite ?zlength_insert; unfold zlength; cbn; lia). reflexivity.
Qed.

Lemma create_header_refused b size sid hid :
  size < 32 -> hfi_create_header (Some b) size sid hid = Done (- EINVAL, Some b).
Proof. intros H. unfold hfi_create_header, sizeof_hfi_header. now tests. Qed.

(** A store to a word of a list of words behind [H : forall ws post k v, ...]. *)
Ltac word_stored H :=
  rewrite H by (rewrite ?zlength_insert; unfold zlength; cbn; lia); cbn [mbind exec_bind].

(** The fields of a packet, stored one by one behind a part [pre]. *)
Lemma packet_head_stored pre rest n ty fl pi po id :
  set_packet_fields (zlength pre) n ty fl pi po id (pre ++ words (replicate 8 0) ++ rest) =
  Done (pre ++ words [n; ty; fl; pi; po; id; 0; 0] ++ rest).
Proof.
  unfold set_packet_fields. set (pkt := zlength pre).
  pose proof (store32_words pre) as H. fold pkt in H.
  rewrite <- (Z.add_0_r pkt) at 1. change 0 with (4 * 0) at 1. word_stored H.
  change 4 with (4 * 1) at 1. word_stored H. change 8 with (4 * 2) at 1. word_stored H.
  change 12 with (4 * 3) at 1. word_stored H. change 16 with (4 * 4) at 1. word_stored H.
  change 20 with (4 * 5) at 1. rewrite H by (rewrite ?zlength_insert; unfold zlength; cbn; lia).
  reflexivity.
Qed.

Section CreatePacket.
Variables (sid hid : Z) (ps : list packet) (p : packet) (rest : list Z) (size : Z).
Let M := message_bytes sid hid ps.
Let b := M ++ rest.
Hypothesis (Hsize : 0 <= size < 2 ^ 32) (Hfit : message_length ps + packet_length p <= size)
  (Hb : size <= zlength b).

Lemma message_word k w post :
  (header_head sid hid ps).[k] = Some w -> load32 (4 * k) (M ++ post) = Done (u32 w).
Proof. intros Hk. unfold M, message_bytes. rewrite <- app_assoc. exact (load32_words [] _ _ k w Hk). Qed.

Lemma message_size : message_length ps < 2 ^ 32 -> load32 0 b = Done (message_length ps).
Proof.
  clear Hsize Hfit Hb. intros H. pose proof (message_length_pos ps). change 0 with (4 * 0). unfold b.
  rewrite (message_word 0 (message_length ps)) by reflexivity. rewrite u32_small by lia. reflexivity.
Qed.

Lemma packet_cleared :
  memset0 (message_length ps) (packet_length p) b =
  Done (M ++ words (replicate 8 0) ++ replicate (length (p_payload p)) 0 ++
        drop (Z.to_nat (packet_length p)) rest).
Proof.
  unfold memset0, b. unfold b in Hb. rewrite zlength_app in Hb. unfold M in *.
  rewrite zlength_message in Hb. pose proof (packet_length_pos p).
  rewrite <- (take_drop (Z.to_nat (packet_length p)) rest) at 1.
  rewrite <- (zlength_message sid hid). rewrite store_app.
  2:{ unfold zlength in *. rewrite length_take, length_replicate. lia. }
  do 2 f_equal. rewrite app_assoc. f_equal. rewrite words_zero, <- replicate_add. f_equal.
  unfold packet_length, sizeof_hfi_packet, zlength. lia.
Qed.

(** The payload behind the head of the packet. *)
Lemma payload_copied payload post :
  p_payload p = [] \/ payload = Some (p_payload p) ->
  (if zlength (p_payload p) =? 0
   then Done (M ++ words (packet_head p) ++ replicate (length (p_payload p)) 0 ++ post)
   else src ← deref payload;
        src ← load 0 (zlength (p_payload p)) src;
        store (message_length ps + sizeof_hfi_packet) src
          (M ++ words (packet_head p) ++ replicate (length (p_payload p)) 0 ++ post)) =
  Done (M ++ packet_bytes p ++ post).
Proof.
  intros Hp. unfold packet_bytes. case_test.
  - assert (H0 : p_payload p = []) by (destruct (p_payload p); [done|unfold zlength in *; cbn in *; lia]).
    rewrite H0. cbn [length replicate]. rewrite !app_nil_l, app_nil_r. reflexivity.
  - destruct Hp as [H0| ->]; [rewrite H0 in *; done|]. cbn [deref mbind exec_bind].
    assert (Hl : load 0 (zlength (p_payload p)) (p_payload p) = Done (p_payload p)).
    { pose proof (load_app [] (p_payload p) [] _ eq_refl) as H. rewrite app_nil_r in H. exact H. }
    rewrite Hl. cbn [mbind exec_bind].
    replace (message_length ps + sizeof_hfi_packet) with (zlength (M ++ words (packet_head p))).
    2:{ unfold M. rewrite zlength_app, zlength_message, zlength_words. reflexivity. }
    rewrite (app_assoc M), store_app by (unfold zlength; now rewrite length_replicate).
    now rewrite <- !app_assoc.
Qed.

Lemma create_packet_ok payload :
  p_payload p = [] \/ payload = Some (p_payload p) ->
  hfi_create_packet (Some b) size (p_type p) (p_flags p) (p_payload_info p) (p_port p) (p_id p)
    payload (zlength (p_payload p)) =
  Done (0, Some (message_bytes sid hid (ps ++ [p]) ++ drop (Z.to_nat (packet_length p)) rest)).
Proof.
  intros Hp. unfold hfi_create_packet. pose proof (message_length_pos ps). pose proof (packet_length_pos p).
  pose proof (zlength_nonneg ps). pose proof (packets_in_body ps) as Hn.
  assert (Hm : message_length ps = 32 + zlength (body_bytes ps)) by reflexivity.
  rewrite message_size by lia. cbn [mbind exec_bind]. unfold sizeof_hfi_header at 1. tests.
  fold (packet_length p). rewrite (u32_small (packet_length p)), (u32_small (_ + _)) by lia. tests.
  rewrite packet_cleared. cbn [mbind exec_bind].
  assert (HM : zlength M = message_length ps) by apply zlength_message.
  rewrite <- HM, packet_head_stored, HM. cbn [mbind exec_bind]. fold (packet_head p).
  rewrite payload_copied by exact Hp. cbn [mbind exec_bind].
  change (load32 28) with (load32 (4 * 7)). rewrite (message_word 7 (zlength ps)) by reflexivity.
  cbn [mbind exec_bind]. rewrite (u32_small (zlength ps)), (u32_small (zlength ps + 1)) by lia.
  set (post := drop _ rest). unfold M at 1. unfold message_bytes. rewrite <- !app_assoc.
  pose proof (store32_words [] (header_head sid hid ps) (body_bytes ps ++ packet_bytes p ++ post) 7
    (zlength ps + 1) ltac:(unfold zlength; cbn; lia)) as Hst.
  change (zlength [] + 4 * 7) with 28 in Hst. cbn [app] in Hst. rewrite Hst. clear Hst. cbn [mbind exec_bind].
  pose proof (load32_words (words (zinsert 7 (zlength ps + 1) (header_head sid hid ps)) ++ body_bytes ps)
    (packet_head p) (p_payload p ++ post) 0 (packet_length p) eq_refl) as Hld.
  rewrite zlength_app, zlength_words, zlength_insert in Hld.
  replace (4 * zlength (header_head sid hid ps) + zlength (body_bytes ps) + 4 * 0) with
    (message_length ps) in Hld by (rewrite Hm; unfold zlength at 2; cbn [length header_head]; lia).
  unfold packet_bytes. rewrite <- !app_assoc in *. rewrite Hld.
  cbn [mbind exec_bind]. rewrite (u32_small (packet_length p)), (u32_small (_ + _)) by lia.
  pose proof (store32_words [] (zinsert 7 (zlength ps + 1) (header_head sid hid ps))
    (body_bytes ps ++ words (packet_head p) ++ p_payload p ++ post) 0
    (message_length ps + packet_length p) ltac:(rewrite zlength_insert; unfold zlength; cbn; lia)) as Hst.
  change (zlength [] + 4 * 0) with 0 in Hst. cbn [app] in Hst. rewrite Hst. clear Hst. cbn [mbind exec_bind].
  unfold message_bytes, header_head. rewrite message_length_snoc, body_snoc, zlength_app.
  unfold packet_bytes. rewrite <- !app_assoc. reflexivity.
Qed.

Lemma create_packet_refused payload :
  0 <= size < message_length ps + packet_length p -> message_length ps + packet_length p < 2 ^ 32 ->
  hfi_create_packet (Some b) size (p_type p) (p_flags p) (p_payload_info p) (p_port p) (p_id p)
    payload (zlength (p_payload p)) = Done (- EINVAL, Some b).
Proof.
  clear Hsize Hfit Hb. intros Hs Hw. pose proof (message_length_pos ps). pose proof (packet_length_pos p).
  unfold hfi_create_packet. rewrite message_size by lia. cbn [mbind exec_bind]. unfold sizeof_hfi_header at 1.
  rewrite (proj2 (Z.ltb_ge _ _)) by lia.
  rewrite (u32_small (sizeof_hfi_packet + _)), (u32_small (_ + _)) by (unfold packet_length in *; lia).
  fold (packet_length p). now tests.
Qed.
End CreatePacket.

(** ** Messages built packet by packet *)

(** A packet to be added: everything but its number. *)
Record request := {
  rq_type : Z;
  rq_flags : Z;
  rq_payload_info : Z;
  rq_port : Z;
  rq_payload : list Z }.
Definition numbered (id : Z) (q : request) : packet :=
  {| p_type := rq_type q; p_flags := rq_flags q; p_payload_info := rq_payload_info q;
     p_port := rq_port q; p_id := id; p_payload := rq_payload q |}.

(** The packets for a list of requests, numbered from [id]. *)
Fixpoint packets_for (id : Z) (qs : list request) : list packet :=
  match qs with
  | [] => []
  | q :: qs => numbered id q :: packets_for (u32 (id + 1)) qs
  end.
Definition payload_arg (q : request) : option (list Z) :=
  match rq_payload q with [] => None | l => Some l end.
Fixpoint add_requests (size : Z) (qs : list request) (st : hfi_state) : exec (Z * hfi_state) :=
  match qs with
  | [] => Done (0, st)
  | q :: qs =>
      hfi_then (add_packet size (rq_type q) (rq_flags q) (rq_payload_info q) (rq_port q)
                  (payload_arg q) (zlength (rq_payload q)) st) (add_requests size qs)
  end.

(** The counters after [n] packets. *)
Fixpoint ids_after (n : nat) (c : hfi_ids) : hfi_ids :=
  match n with O => c | S n => ids_after n (next_packet_id c) end.

Lemma ids_after_packet_id qs : forall c, word (packet_id c) ->
  packet_id (ids_after (length qs) c) = u32 (packet_id c + zlength (A := request) qs).
Proof.
  induction qs as [|q qs IH]; intros c Hc.
  - cbn [length ids_after]. change (zlength []) with 0. rewrite Z.add_0_r, u32_small by exact Hc. reflexivity.
  - cbn [length ids_after]. rewrite IH by (unfold word; cbn; unfold u32; apply Z.mod_pos_bound; reflexivity).
    cbn [next_packet_id packet_id]. unfold u32. rewrite Zplus_mod_idemp_l. f_equal.
    unfold zlength. cbn [length]. lia.
Qed.

Lemma payload_arg_ok q : rq_payload q = [] \/ payload_arg q = Some (rq_payload q).
Proof. unfold payload_arg. destruct (rq_payload q); auto. Qed.
Lemma message_length_app ps ps' :
  message_length (ps ++ ps') = message_length ps + zlength (body_bytes ps').
Proof. unfold message_length, body_bytes. rewrite fmap_app, concat_app, zlength_app. lia. Qed.

Lemma add_requests_ok size sid hid qs : forall c ps rest,
  0 <= size < 2 ^ 32 -> size <= message_length ps + zlength rest ->
  message_length (ps ++ packets_for (packet_id c) qs) <= size ->
  exists rest', add_requests size qs (c, Some (message_bytes sid hid ps ++ rest)) =
    Done (0, (ids_after (length qs) c,
              Some (message_bytes sid hid (ps ++ packets_for (packet_id c) qs) ++ rest'))) /\
    message_length (ps ++ packets_for (packet_id c) qs) + zlength rest' = message_length ps + zlength rest.
Proof.
  induction qs as [|q qs IH]; intros c ps rest Hs Hb Hfit.
  { exists rest. cbn [packets_for] in *. rewrite app_nil_r. split; reflexivity. }
  cbn [add_requests packets_for] in *. set (p := numbered (packet_id c) q) in *.
  replace (ps ++ p :: packets_for (u32 (packet_id c + 1)) qs)
    with ((ps ++ [p]) ++ packets_for (packet_id (next_packet_id c)) qs) in *
    by (now rewrite <- app_assoc).
  pose proof (packet_length_pos p) as Hp.
  assert (Hp1 : message_length ps + packet_length p <= size).
  { rewrite message_length_app, message_length_snoc in Hfit.
    pose proof (zlength_nonneg (body_bytes (packets_for (packet_id (next_packet_id c)) qs))). lia. }
  unfold add_packet at 1. cbn [fst snd].
  pose proof (create_packet_ok sid hid ps p rest size Hs Hp1
    ltac:(rewrite zlength_app, zlength_message; lia) (payload_arg q) (payload_arg_ok q)) as Hc.
  cbn [p numbered p_type p_flags p_payload_info p_port p_id p_payload] in Hc. rewrite Hc. clear Hc.
  cbn [mbind exec_bind hfi_then fst snd]. unfold hfi_then. cbn [mbind exec_bind fst snd Z.eqb].
  set (rest1 := drop _ rest).
  assert (Hr1 : zlength rest1 = zlength rest - packet_length p).
  { unfold rest1, zlength in *. rewrite length_drop. lia. }
  destruct (IH (next_packet_id c) (ps ++ [p]) rest1 Hs) as (rest' & Hr & Hl).
  - rewrite message_length_snoc. lia.
  - exact Hfit.
  - exists rest'. split; [exact Hr|]. rewrite Hl, message_length_snoc. lia.
Qed.

(** A whole message: the header, then the packets. *)
Definition build_message (size sid : Z) (qs : list request) (st : hfi_state) : exec (Z * hfi_state) :=
  hfi_then (begin_message size sid st) (add_requests size qs).

Lemma build_message_ok size sid qs c b :
  0 <= size < 2 ^ 32 -> size <= zlength b -> message_length (packets_for (packet_id c) qs) <= size ->
  exists rest, build_message size sid qs (c, Some b) =
    Done (0, (ids_after (length qs) (next_header_id c),
              Some (message_bytes sid (header_id c) (packets_for (packet_id c) qs) ++ rest))) /\
    message_length (packets_for (packet_id c) qs) + zlength rest = zlength b.
Proof.
  intros Hs Hb Hfit. pose proof (message_length_pos (packets_for (packet_id c) qs)).
  unfold build_message, begin_message. cbn [fst snd].
  rewrite create_header_ok by lia. cbn [mbind exec_bind hfi_then fst snd]. unfold hfi_then.
  cbn [mbind exec_bind fst snd Z.eqb].
  assert (Hd : zlength (drop 32 b) = zlength b - 32) by (unfold zlength in *; rewrite length_drop; lia).
  destruct (add_requests_ok size sid (header_id c) qs (next_header_id c) [] (drop 32 b) Hs)
    as (rest & Hr & Hl).
  - rewrite Hd. change (message_length []) with 32. lia.
  - exact Hfit.
  - exists rest. split; [exact Hr|]. cbn [app next_header_id packet_id] in Hl.
    rewrite Hl, Hd. change (message_length []) with 32. lia.
Qed.

(** ** What the driver finds in a message *)
Lemma packets_walk size num qs : forall fuel pre rest i,
  Forall packet_fits qs -> num = i + zlength qs -> (length qs <= fuel)%nat ->
  zlength pre + zlength (body_bytes qs) <= size -> 0 <= i ->
  validate_packets fuel (pre ++ body_bytes qs ++ rest) size num i (zlength pre) = Done 0 /\
  packets_from fuel (pre ++ body_bytes qs ++ rest) num i (zlength pre) = Done (placed (zlength pre) qs).
Proof.
  induction qs as [|q qs IH]; intros fuel pre rest i Hf Hn Hfuel Hsz Hi.
  { assert (Hlt : (i <? num) = false) by (zb; unfold zlength in *; cbn in *; lia).
    destruct fuel; cbn [validate_packets packets_from placed]; rewrite Hlt; split; reflexivity. }
  inversion Hf as [|? ? Hq Hqs]; subst x l.
  assert (Hlt : (i <? num) = true) by (zb; unfold zlength in *; cbn [length] in *; lia).
  destruct fuel as [|fuel]; [cbn in Hfuel; lia|]. cbn [validate_packets packets_from]. rewrite Hlt.
  rewrite body_cons, zlength_app, zlength_packet_bytes in Hsz.
  pose proof (packet_length_pos q) as Hpos. pose proof (zlength_nonneg pre).
  pose proof (zlength_nonneg (body_bytes qs)). destruct Hq as (W1 & W2 & W3 & W4 & W5 & W6).
  rewrite body_cons. set (B := pre ++ (packet_bytes q ++ body_bytes qs) ++ rest).
  assert (HB : B = pre ++ words (packet_head q) ++ (p_payload q ++ body_bytes qs ++ rest)).
  { unfold B, packet_bytes. now rewrite <- !app_assoc. }
  assert (HB' : B = (pre ++ packet_bytes q) ++ body_bytes qs ++ rest) by (unfold B; now rewrite <- !app_assoc).
  assert (Hld : forall k w, (packet_head q).[k] = Some w -> word w ->
    load32 (zlength pre + 4 * k) B = Done w).
  { intros k w Hk Hw. rewrite HB, (load32_words _ _ _ _ _ Hk), u32_small; [reflexivity|exact Hw]. }
  assert (Hsize : load32 (zlength pre) B = Done (packet_length q)).
  { rewrite <- (Z.add_0_r (zlength pre)). change 0 with (4 * 0). now apply Hld. }
  destruct (IH fuel (pre ++ packet_bytes q) rest (i + 1) Hqs) as [IV IP].
  { unfold zlength in *. cbn [length] in *. lia. }
  { cbn in Hfuel. lia. }
  { rewrite zlength_app, zlength_packet_bytes. lia. }
  { lia. }
  rewrite zlength_app, zlength_packet_bytes, <- HB' in IV, IP. split.
  - unfold validate_packet. rewrite (proj2 (Z.eqb_neq size 0)), (proj2 (Z.ltb_ge (zlength pre) 0)),
      (proj2 (Z.ltb_ge size (zlength pre))) by lia. cbn [orb]. rewrite Hsize. cbn [mbind exec_bind]. unfold sizeof_hfi_packet. tests.
    cbn [mbind exec_bind negb Z.eqb]. exact IV.
  - unfold hfi_packet_at. rewrite Hsize.
    change (zlength pre + 4) with (zlength pre + 4 * 1). rewrite (Hld 1 (p_type q)) by done.
    change (zlength pre + 8) with (zlength pre + 4 * 2). rewrite (Hld 2 (p_flags q)) by done.
    change (zlength pre + 12) with (zlength pre + 4 * 3). rewrite (Hld 3 (p_payload_info q)) by done.
    change (zlength pre + 16) with (zlength pre + 4 * 4). rewrite (Hld 4 (p_port q)) by done.
    change (zlength pre + 20) with (zlength pre + 4 * 5). rewrite (Hld 5 (p_id q)) by done.
    cbn [mbind exec_bind hp_size]. rewrite IP. reflexivity.
Qed.

Lemma message_accepted sid hid ps rest size :
  ps <> [] -> Forall packet_fits ps -> message_length ps <= size -> size < 2 ^ 32 ->
  let b := message_bytes sid hid ps ++ rest in
  validate_hdr_packet b size = Done 0 /\ message_packets b size = Done (placed sizeof_hfi_header ps).
Proof.
  intros Hne Hf Hs Hw b. pose proof (packets_in_body ps) as Hn.
  assert (Hm : message_length ps = 32 + zlength (body_bytes ps)) by reflexivity.
  assert (Hpos : 1 <= zlength ps) by (destruct ps; [done|unfold zlength; cbn [length]; lia]).
  assert (Hword : forall k w, (header_head sid hid ps).[k] = Some w -> word w ->
    load32 (4 * k) b = Done w).
  { intros k w Hk Hw'. unfold b. rewrite (message_word sid hid ps k w rest Hk), u32_small; [done|exact Hw']. }
  assert (Hfuel : (length ps <= packet_fuel size)%nat).
  { unfold packet_fuel, sizeof_hfi_packet, zlength in *. pose proof (Z.div_mod size 32 ltac:(lia)).
    pose proof (Z.mod_pos_bound size 32 ltac:(lia)). lia. }
  pose proof (packets_walk size (zlength ps) ps (packet_fuel size) (words (header_head sid hid ps)) rest 0
    Hf eq_refl Hfuel) as W.
  rewrite zlength_words in W. change (4 * zlength (header_head sid hid ps)) with 32 in W.
  destruct (W ltac:(lia) ltac:(lia)) as [WV WP].
  assert (Hb : b = words (header_head sid hid ps) ++ body_bytes ps ++ rest).
  { unfold b, message_bytes. now rewrite <- app_assoc. }
  rewrite <- Hb in WV, WP. unfold validate_hdr_packet, message_packets.
  change (load32 0) with (load32 (4 * 0)). change (load32 28) with (load32 (4 * 7)).
  rewrite (Hword 0 (message_length ps)), (Hword 7 (zlength ps)) by (reflexivity || unfold word; lia).
  cbn [mbind exec_bind]. unfold sizeof_hfi_header, sizeof_hfi_packet at 1.
  rewrite (proj2 (Z.ltb_ge _ _)) by lia. split; assumption.
Qed.

(** ** Any message *)

(** Bytes in memory. *)
Definition bytes (b : list Z) : Prop := Forall (fun x => 0 <= x < 256) b.

Lemma of_le_range l : bytes l -> 0 <= of_le l < 2 ^ (8 * zlength l).
Proof.
  induction l as [|x l IH]; intros Hb; [change (0 <= 0 < 1); lia|].
  inversion Hb as [|? ? Hx Hl]; subst. specialize (IH Hl). cbn [of_le foldr]. fold (of_le l).
  replace (8 * zlength (x :: l)) with (8 + 8 * zlength l) by (unfold zlength; cbn [length]; lia).
  rewrite Z.pow_add_r by (pose proof (zlength_nonneg l); lia). change (2 ^ 8) with 256.
  set (P := 2 ^ (8 * zlength l)) in *. lia.
Qed.

Lemma load32_inside o b : bytes b -> 0 <= o -> o + 4 <= zlength b ->
  exists v, load32 o b = Done v /\ word v.
Proof.
  intros Hb Ho Hl. unfold load32, load. tests; [|lia..]. cbn [andb]. tests. cbn [mbind exec_bind].
  eexists. split; [reflexivity|].
  set (l := take (Z.to_nat 4) (drop (Z.to_nat o) b)).
  assert (H4 : zlength l = 4) by (unfold l, zlength in *; rewrite length_take, length_drop; lia).
  pose proof (of_le_range l) as H. rewrite H4 in H. apply H.
  apply Forall_take, Forall_drop, Hb.
Qed.
Lemma load32_Done o b v : load32 o b = Done v -> 0 <= o /\ o + 4 <= zlength b.
Proof.
  unfold load32, load. case_test; cbn [mbind exec_bind]; [|discriminate]. intros _. lia.
Qed.
Lemma load32_Fault o b : 0 <= o -> load32 o b = Fault -> zlength b < o + 4.
Proof.
  intros Ho. unfold load32, load. case_test; cbn [mbind exec_bind]; [discriminate|]. intros _.
  apply andb_false_iff in E as [E|E]; [apply andb_false_iff in E as [E|E]|]; zb; lia.
Qed.
