(* ===== verification/VidcBuffer.v ===== *)
(** Buffers of the video driver in its own terms and in the firmware's
    (video-driver/driver/vidc/src/hfi_packet.c): types, ports, codecs, colour
    formats, and the buffer a packet carries. *)
From S2P Require Import Prelude VidcQueue VidcMem VidcHfi VidcPacket.

(** ** Data *)

(** enum msm_vidc_buffer_type *)
Inductive msm_vidc_buffer_type : Type :=
| MSM_VIDC_BUF_NONE
| MSM_VIDC_BUF_INPUT
| MSM_VIDC_BUF_OUTPUT
| MSM_VIDC_BUF_INPUT_META
| MSM_VIDC_BUF_OUTPUT_META
| MSM_VIDC_BUF_READ_ONLY
| MSM_VIDC_BUF_INTERFACE_QUEUE
| MSM_VIDC_BUF_BIN
| MSM_VIDC_BUF_ARP
| MSM_VIDC_BUF_COMV
| MSM_VIDC_BUF_NON_COMV
| MSM_VIDC_BUF_LINE
| MSM_VIDC_BUF_DPB
| MSM_VIDC_BUF_PERSIST
| MSM_VIDC_BUF_VPSS
| MSM_VIDC_BUF_PARTIAL_DATA.
#[export] Instance buffer_type_eq_dec : EqDecision msm_vidc_buffer_type.
Proof. solve_decision. Defined.

(** enum msm_vidc_port_type *)
Inductive msm_vidc_port_type : Type :=
| INPUT_PORT
| OUTPUT_PORT
| INPUT_META_PORT
| OUTPUT_META_PORT
| PORT_NONE
| MAX_PORT.
#[export] Instance port_type_eq_dec : EqDecision msm_vidc_port_type.
Proof. solve_decision. Defined.

Definition MSM_VIDC_H264 : Z := 1.
Definition MSM_VIDC_HEVC : Z := 2.
Definition MSM_VIDC_VP9 : Z := 4.
Definition MSM_VIDC_HEIC : Z := 8.
Definition MSM_VIDC_AV1 : Z := 16.
Definition HFI_CODEC_DECODE_AVC : Z := 1.
Definition HFI_CODEC_ENCODE_AVC : Z := 2.
Definition HFI_CODEC_DECODE_HEVC : Z := 3.
Definition HFI_CODEC_ENCODE_HEVC : Z := 4.
Definition HFI_CODEC_DECODE_VP9 : Z := 5.
Definition HFI_CODEC_DECODE_AV1 : Z := 7.

Definition MSM_VIDC_FMT_NV12C : Z := 1.
Definition MSM_VIDC_FMT_NV12 : Z := 2.
Definition MSM_VIDC_FMT_NV21 : Z := 4.
Definition MSM_VIDC_FMT_TP10C : Z := 8.
Definition MSM_VIDC_FMT_P010 : Z := 16.
Definition MSM_VIDC_FMT_RGBA8888C : Z := 32.
Definition MSM_VIDC_FMT_RGBA8888 : Z := 64.
Definition HFI_COLOR_FMT_NV12 : Z := 1.
Definition HFI_COLOR_FMT_NV12_UBWC : Z := 2.
Definition HFI_COLOR_FMT_P010 : Z := 3.
Definition HFI_COLOR_FMT_TP10_UBWC : Z := 4.
Definition HFI_COLOR_FMT_RGBA8888 : Z := 5.
Definition HFI_COLOR_FMT_RGBA8888_UBWC : Z := 6.
Definition HFI_COLOR_FMT_NV21 : Z := 7.

Definition MSM_VIDC_ATTR_READ_ONLY : Z := 2.
Definition MSM_VIDC_ATTR_PENDING_RELEASE : Z := 4.
Definition MSM_VIDC_BUF_FLAG_CODECCONFIG : Z := 0x01000000.

Definition HFI_BUF_HOST_FLAG_NONE : Z := 0.
Definition HFI_BUF_HOST_FLAG_RELEASE : Z := 0x1.
Definition HFI_BUF_HOST_FLAG_READONLY : Z := 0x10.
Definition HFI_BUF_HOST_FLAG_CODEC_CONFIG : Z := 0x100.
Definition HFI_BUF_HOST_FLAGS_CB_NON_SECURE : Z := 0x200.
Definition HFI_BUF_HOST_FLAGS_CB_SECURE_PIXEL : Z := 0x400.
Definition HFI_BUF_HOST_FLAGS_CB_SECURE_BITSTREAM : Z := 0x800.
Definition HFI_BUF_HOST_FLAGS_CB_SECURE_NON_PIXEL : Z := 0x1000.
Definition HFI_BUF_HOST_FLAGS_CB_NON_SECURE_PIXEL : Z := 0x2000.

(** The part of struct msm_vidc_buffer that goes into packets. *)
Record msm_vidc_buffer := {
  vb_type : msm_vidc_buffer_type;
  vb_region : Z;
  vb_index : Z;
  vb_buffer_size : Z;
  vb_data_offset : Z;
  vb_data_size : Z;
  vb_device_addr : Z;
  vb_flags : Z;
  vb_timestamp : Z;
  vb_attr : Z;
  vb_fence_id : Z }.

(** is_decode_session, is_encode_session, of the domain of the session *)
Definition is_decode_session (domain : Z) : bool := domain =? MSM_VIDC_DECODER.
Definition is_encode_session (domain : Z) : bool := domain =? MSM_VIDC_ENCODER.

(** ** Conversions *)
Definition get_hfi_port (domain : Z) (port : msm_vidc_port_type) : Z :=
  if is_decode_session domain then
    match port with
    | INPUT_PORT | INPUT_META_PORT => HFI_PORT_BITSTREAM
    | OUTPUT_PORT | OUTPUT_META_PORT => HFI_PORT_RAW
    | _ => HFI_PORT_NONE
    end
  else if is_encode_session domain then
    match port with
    | INPUT_PORT | INPUT_META_PORT => HFI_PORT_RAW
    | OUTPUT_PORT | OUTPUT_META_PORT => HFI_PORT_BITSTREAM
    | _ => HFI_PORT_NONE
    end
  else HFI_PORT_NONE.

Definition get_hfi_port_from_buffer_type (domain : Z) (buffer_type : msm_vidc_buffer_type) : Z :=
  if is_decode_session domain then
    match buffer_type with
    | MSM_VIDC_BUF_INPUT | MSM_VIDC_BUF_INPUT_META | MSM_VIDC_BUF_BIN | MSM_VIDC_BUF_COMV
    | MSM_VIDC_BUF_NON_COMV | MSM_VIDC_BUF_LINE | MSM_VIDC_BUF_PARTIAL_DATA => HFI_PORT_BITSTREAM
    | MSM_VIDC_BUF_OUTPUT | MSM_VIDC_BUF_OUTPUT_META | MSM_VIDC_BUF_DPB => HFI_PORT_RAW
    | MSM_VIDC_BUF_PERSIST => HFI_PORT_NONE
    | _ => HFI_PORT_NONE
    end
  else if is_encode_session domain then
    match buffer_type with
    | MSM_VIDC_BUF_INPUT | MSM_VIDC_BUF_INPUT_META | MSM_VIDC_BUF_VPSS => HFI_PORT_RAW
    | MSM_VIDC_BUF_OUTPUT | MSM_VIDC_BUF_OUTPUT_META | MSM_VIDC_BUF_BIN | MSM_VIDC_BUF_COMV
    | MSM_VIDC_BUF_NON_COMV | MSM_VIDC_BUF_LINE | MSM_VIDC_BUF_DPB => HFI_PORT_BITSTREAM
    | MSM_VIDC_BUF_ARP => HFI_PORT_NONE
    | _ => HFI_PORT_NONE
    end
  else HFI_PORT_NONE.

Definition hfi_buf_type_from_driver (domain : Z) (buffer_type : msm_vidc_buffer_type) : Z :=
  match buffer_type with
  | MSM_VIDC_BUF_INPUT =>
      if domain =? MSM_VIDC_DECODER then HFI_BUFFER_BITSTREAM else HFI_BUFFER_RAW
  | MSM_VIDC_BUF_OUTPUT =>
      if domain =? MSM_VIDC_DECODER then HFI_BUFFER_RAW else HFI_BUFFER_BITSTREAM
  | MSM_VIDC_BUF_INPUT_META | MSM_VIDC_BUF_OUTPUT_META => HFI_BUFFER_METADATA
  | MSM_VIDC_BUF_BIN => HFI_BUFFER_BIN
  | MSM_VIDC_BUF_ARP => HFI_BUFFER_ARP
  | MSM_VIDC_BUF_COMV => HFI_BUFFER_COMV
  | MSM_VIDC_BUF_NON_COMV => HFI_BUFFER_NON_COMV
  | MSM_VIDC_BUF_LINE => HFI_BUFFER_LINE
  | MSM_VIDC_BUF_DPB => HFI_BUFFER_DPB
  | MSM_VIDC_BUF_PERSIST => HFI_BUFFER_PERSIST
  | MSM_VIDC_BUF_VPSS => HFI_BUFFER_VPSS
  | MSM_VIDC_BUF_PARTIAL_DATA => HFI_BUFFER_PARTIAL_DATA
  | _ => 0
  end.

Definition hfi_buf_type_to_driver (domain buffer_type port_type : Z) : msm_vidc_buffer_type :=
  if buffer_type =? HFI_BUFFER_BITSTREAM then
    if domain =? MSM_VIDC_DECODER then MSM_VIDC_BUF_INPUT else MSM_VIDC_BUF_OUTPUT
  else if buffer_type =? HFI_BUFFER_RAW then
    if domain =? MSM_VIDC_DECODER then MSM_VIDC_BUF_OUTPUT else MSM_VIDC_BUF_INPUT
  else if buffer_type =? HFI_BUFFER_METADATA then
    if domain =? MSM_VIDC_DECODER then
      if port_type =? HFI_PORT_BITSTREAM then MSM_VIDC_BUF_INPUT_META else MSM_VIDC_BUF_OUTPUT_META
    else if port_type =? HFI_PORT_BITSTREAM then MSM_VIDC_BUF_OUTPUT_META else MSM_VIDC_BUF_INPUT_META
  else if buffer_type =? HFI_BUFFER_BIN then MSM_VIDC_BUF_BIN
  else if buffer_type =? HFI_BUFFER_ARP then MSM_VIDC_BUF_ARP
  else if buffer_type =? HFI_BUFFER_COMV then MSM_VIDC_BUF_COMV
  else if buffer_type =? HFI_BUFFER_NON_COMV then MSM_VIDC_BUF_NON_COMV
  else if buffer_type =? HFI_BUFFER_LINE then MSM_VIDC_BUF_LINE
  else if buffer_type =? HFI_BUFFER_DPB then MSM_VIDC_BUF_DPB
  else if buffer_type =? HFI_BUFFER_PERSIST then MSM_VIDC_BUF_PERSIST
  else if buffer_type =? HFI_BUFFER_VPSS then MSM_VIDC_BUF_VPSS
  else if buffer_type =? HFI_BUFFER_PARTIAL_DATA then MSM_VIDC_BUF_PARTIAL_DATA
  else MSM_VIDC_BUF_NONE.

Definition get_hfi_codec (domain codec : Z) : Z :=
  if codec =? MSM_VIDC_H264 then
    if is_encode_session domain then HFI_CODEC_ENCODE_AVC else HFI_CODEC_DECODE_AVC
  else if (codec =? MSM_VIDC_HEVC) || (codec =? MSM_VIDC_HEIC) then
    if is_encode_session domain then HFI_CODEC_ENCODE_HEVC else HFI_CODEC_DECODE_HEVC
  else if codec =? MSM_VIDC_VP9 then HFI_CODEC_DECODE_VP9
  else if codec =? MSM_VIDC_AV1 then HFI_CODEC_DECODE_AV1
  else 0.

Definition get_hfi_colorformat (colorformat : Z) : Z :=
  if colorformat =? MSM_VIDC_FMT_NV12 then HFI_COLOR_FMT_NV12
  else if colorformat =? MSM_VIDC_FMT_NV12C then HFI_COLOR_FMT_NV12_UBWC
  else if colorformat =? MSM_VIDC_FMT_P010 then HFI_COLOR_FMT_P010
  else if colorformat =? MSM_VIDC_FMT_TP10C then HFI_COLOR_FMT_TP10_UBWC
  else if colorformat =? MSM_VIDC_FMT_RGBA8888 then HFI_COLOR_FMT_RGBA8888
  else if colorformat =? MSM_VIDC_FMT_RGBA8888C then HFI_COLOR_FMT_RGBA8888_UBWC
  else if colorformat =? MSM_VIDC_FMT_NV21 then HFI_COLOR_FMT_NV21
  else HFI_COLOR_FMT_NV12_UBWC.

Definition get_hfi_region_flag (region : Z) : Z :=
  if region =? MSM_VIDC_NON_SECURE then HFI_BUF_HOST_FLAGS_CB_NON_SECURE
  else if region =? MSM_VIDC_NON_SECURE_PIXEL then HFI_BUF_HOST_FLAGS_CB_NON_SECURE_PIXEL
  else if region =? MSM_VIDC_SECURE_PIXEL then HFI_BUF_HOST_FLAGS_CB_SECURE_PIXEL
  else if region =? MSM_VIDC_SECURE_NONPIXEL then HFI_BUF_HOST_FLAGS_CB_SECURE_NON_PIXEL
  else if region =? MSM_VIDC_SECURE_BITSTREAM then HFI_BUF_HOST_FLAGS_CB_SECURE_BITSTREAM
  else HFI_BUF_HOST_FLAG_NONE.

(** is_input_buffer, is_output_buffer, is_internal_buffer *)
Definition is_input_buffer (ty : msm_vidc_buffer_type) : bool := bool_decide (ty = MSM_VIDC_BUF_INPUT).
Definition is_output_buffer (ty : msm_vidc_buffer_type) : bool := bool_decide (ty = MSM_VIDC_BUF_OUTPUT).
Definition is_internal_buffer (ty : msm_vidc_buffer_type) : bool :=
  match ty with
  | MSM_VIDC_BUF_BIN | MSM_VIDC_BUF_ARP | MSM_VIDC_BUF_COMV | MSM_VIDC_BUF_NON_COMV
  | MSM_VIDC_BUF_LINE | MSM_VIDC_BUF_DPB | MSM_VIDC_BUF_PERSIST | MSM_VIDC_BUF_VPSS
  | MSM_VIDC_BUF_PARTIAL_DATA => true
  | _ => false
  end.

(** ** The buffer in a packet *)

(** get_hfi_buffer fills *buf; it always returns 0. *)
Definition or_if (c : bool) (flag v : Z) : Z := if c then Z.lor v flag else v.
Definition get_hfi_buffer (domain : Z) (buffer : msm_vidc_buffer) : hfi_buffer :=
  let flags := 0 in
  let flags := or_if (negb (Z.land (vb_attr buffer) MSM_VIDC_ATTR_READ_ONLY =? 0))
                 HFI_BUF_HOST_FLAG_READONLY flags in
  let flags := or_if (negb (Z.land (vb_attr buffer) MSM_VIDC_ATTR_PENDING_RELEASE =? 0))
                 HFI_BUF_HOST_FLAG_RELEASE flags in
  let flags := or_if (negb (Z.land (vb_flags buffer) MSM_VIDC_BUF_FLAG_CODECCONFIG =? 0))
                 HFI_BUF_HOST_FLAG_CODEC_CONFIG flags in
  {| hb_type := hfi_buf_type_from_driver domain (vb_type buffer);
     hb_index := vb_index buffer;
     hb_base_address := vb_device_addr buffer;
     hb_addr_offset := 0;
     hb_buffer_size :=
       if is_decode_session domain && is_input_buffer (vb_type buffer)
       then u32 (ALIGN (vb_buffer_size buffer) 256) else vb_buffer_size buffer;
     hb_data_offset := vb_data_offset buffer;
     hb_data_size := vb_data_size buffer;
     hb_timestamp := vb_timestamp buffer;
     hb_flags := Z.lor flags (get_hfi_region_flag (vb_region buffer)) |}.

(** struct hfi_buffer in memory; its five reserved words are 0. *)
Definition le64 (v : Z) : list Z := le32 v ++ le32 (v / 2 ^ 32).
Definition hfi_buffer_bytes (b : hfi_buffer) : list Z :=
  le32 (hb_type b) ++ le32 (hb_index b) ++ le64 (hb_base_address b) ++ le32 (hb_addr_offset b) ++
  le32 (hb_buffer_size b) ++ le32 (hb_data_offset b) ++ le32 (hb_data_size b) ++
  le64 (hb_timestamp b) ++ le32 (hb_flags b) ++ replicate 20 0.
