(* ===== verification/VidcPacketThms.v ===== *)
(** What holds of the packets between the video driver and its firmware:
    messages are read as they were written, also through the command queue;
    what the checks of a received message guarantee, and what they miss. *)
From S2P Require Import Prelude VidcQueue VidcQueueSpec VidcQueueThms VidcPacket VidcPacketSpec.

(** ** The checks of any message *)

(** Packets one behind the other from [o] on, inside [size] bytes; where they
    end. *)
Fixpoint chained (size o : Z) (l : list (Z * hfi_packet)) : Prop :=
  match l with
  | [] => True
  | (p, x) :: l => p = o /\ 32 <= hp_size x /\ o + hp_size x <= size /\ chained size (o + hp_size x) l
  end.
Fixpoint chain_end (o : Z) (l : list (Z * hfi_packet)) : Z :=
  match l with [] => o | (_, x) :: l => chain_end (o + hp_size x) l end.

Lemma hfi_packet_inside o b : bytes b -> 0 <= o -> o + 32 <= zlength b ->
  exists x, hfi_packet_at o b = Done x /\ load32 o b = Done (hp_size x) /\ word (hp_size x).
Proof.
  intros Hb Ho Hl. unfold hfi_packet_at.
  destruct (load32_inside o b Hb) as (v0 & -> & W0); [lia..|].
  destruct (load32_inside (o + 4) b Hb) as (v1 & -> & _); [lia..|].
  destruct (load32_inside (o + 8) b Hb) as (v2 & -> & _); [lia..|].
  destruct (load32_inside (o + 12) b Hb) as (v3 & -> & _); [lia..|].
  destruct (load32_inside (o + 16) b Hb) as (v4 & -> & _); [lia..|].
  destruct (load32_inside (o + 20) b Hb) as (v5 & -> & _); [lia..|].
  eexists. repeat split; exact W0 || apply W0.
Qed.

Section Validate.
Variables (b : list Z) (size : Z).
Hypotheses (Hb : bytes b) (Hsize : zlength b = size).

(** One packet is accepted, refused, or read past the end of the buffer. *)
Lemma validate_packet_cases p : 0 <= p ->
  (exists x, validate_packet (Some b) size p = Done 0 /\ hfi_packet_at p b = Done x /\
     load32 p b = Done (hp_size x) /\ 32 <= hp_size x /\ p + hp_size x <= size) \/
  validate_packet (Some b) size p = Done (- EINVAL) \/
  (validate_packet (Some b) size p = Fault /\ size - 4 < p <= size).
Proof.
  intros Hp. unfold validate_packet. case_test; [auto|]. case_test; [auto|].
  destruct (load32 p b) as [n| |] eqn:Hn; cbn [mbind exec_bind].
  - destruct (load32_Done _ _ _ Hn) as [_ H4]. case_test; [auto|]. case_test; [auto|]. case_test; [auto|].
    left. unfold sizeof_hfi_packet in *.
    assert (Hw : word n).
    { destruct (load32_inside p b Hb) as (v & Hv & Hw); [lia..|]. rewrite Hn in Hv. injection Hv as ->. exact Hw. }
    destruct (hfi_packet_inside p b Hb) as (x & Hx & Hlx & _); [lia..|].
    rewrite Hn in Hlx. injection Hlx as ->. exists x. repeat split; auto; lia.
  - right. right. split; [reflexivity|]. pose proof (load32_Fault _ _ Hp Hn). lia.
  - unfold load32, load in Hn. case_test_in Hn; discriminate Hn.
Qed.

Lemma validate_packets_cases num : forall fuel i p,
  0 <= p <= size -> (size - p) / 32 + 2 <= Z.of_nat fuel ->
  (exists l, validate_packets fuel b size num i p = Done 0 /\ packets_from fuel b num i p = Done l /\
     chained size p l /\ (i <= num -> zlength l = num - i)) \/
  validate_packets fuel b size num i p = Done (- EINVAL) \/
  (validate_packets fuel b size num i p = Fault /\
   exists k l, i <= k < num /\ packets_from fuel b k i p = Done l /\ chained size p l /\
     zlength l = k - i /\ size - 4 < chain_end p l <= size).
Proof.
  induction fuel as [|fuel IH]; intros i p Hp Hf.
  { pose proof (Z.div_pos (size - p) 32 ltac:(lia) ltac:(lia)). lia. }
  cbn [validate_packets packets_from]. destruct (i <? num) eqn:Hi; zb.
  2:{ left. exists []. repeat split. intros. unfold zlength. cbn. lia. }
  destruct (validate_packet_cases p ltac:(lia)) as [(x & -> & Hx & Hlx & H32 & Hend)|[-> |[-> He]]];
    cbn [mbind exec_bind negb Z.eqb].
  - rewrite Hlx, Hx. cbn [mbind exec_bind].
    assert (Hf' : (size - (p + hp_size x)) / 32 + 2 <= Z.of_nat fuel).
    { pose proof (Z.div_le_mono (size - (p + hp_size x)) (size - p + - 1 * 32) 32 ltac:(lia) ltac:(lia)) as Hd.
      rewrite Z.div_add in Hd by lia. lia. }
    destruct (IH (i + 1) (p + hp_size x) ltac:(lia) Hf')
      as [(l & -> & -> & Hc & Hl)|[-> |(-> & k & l & Hk & Hpk & Hc & Hl & He)]].
    + left. exists ((p, x) :: l). repeat split; auto.
      intros _. unfold zlength in *. cbn [length]. specialize (Hl ltac:(lia)). lia.
    + auto.
    + right. right. split; [reflexivity|]. exists k, ((p, x) :: l).
      rewrite (proj2 (Z.ltb_lt i k)) by lia. rewrite Hpk. repeat split; auto; try lia; [|apply He..].
      unfold zlength in *. cbn [length]. lia.
  - auto.
  - right. right. split; [reflexivity|]. exists i, []. rewrite (proj2 (Z.ltb_ge i i)) by lia.
    cbn [chained chain_end]. unfold zlength. cbn [length]. repeat split; lia.
Qed.
End Validate.

(** C27: a response the driver accepts has as many packets
    as its header says, one behind the other, each with at least its 32 byte
    head and all of them inside the response buffer, and the walks over them
    stay inside; the check always comes to an end.  Otherwise the response is
    refused, or the check itself reads past the buffer: only when packets it
    accepted end in the last four bytes of the buffer, or at its end, and the
    header announces another one. *)
Theorem hfi_response_checked b size :
  bytes b -> zlength b = size -> 64 <= size ->
  (exists num l, validate_hdr_packet b size = Done 0 /\ load32 28 b = Done num /\
     message_packets b size = Done l /\ zlength l = num /\ chained size sizeof_hfi_header l) \/
  validate_hdr_packet b size = Done (- EINVAL) \/
  (validate_hdr_packet b size = Fault /\
   exists num k l, load32 28 b = Done num /\ 0 <= k < num /\ zlength l = k /\
     packets_from (packet_fuel size) b k 0 sizeof_hfi_header = Done l /\
     chained size sizeof_hfi_header l /\ size - 4 < chain_end sizeof_hfi_header l <= size).
Proof.
  intros Hb Hs H64. unfold validate_hdr_packet, message_packets.
  destruct (load32_inside 0 b Hb) as (n & -> & _); [lia..|]. cbn [mbind exec_bind]. case_test; [auto|].
  destruct (load32_inside 28 b Hb) as (num & -> & Hnum); [lia..|]. cbn [mbind exec_bind].
  assert (Hf : (size - sizeof_hfi_header) / 32 + 2 <= Z.of_nat (packet_fuel size)).
  { unfold packet_fuel, sizeof_hfi_header, sizeof_hfi_packet.
    pose proof (Z.div_le_mono (size - 32) size 32 ltac:(lia) ltac:(lia)).
    pose proof (Z.div_pos size 32 ltac:(lia) ltac:(lia)). lia. }
  destruct (validate_packets_cases b size Hb Hs num (packet_fuel size) 0 sizeof_hfi_header
    ltac:(unfold sizeof_hfi_header; lia) Hf) as [(l & -> & Hp & Hc & Hl)|[-> |(-> & k & l & Hk & Hp & Hc & Hl & He)]].
  - left. exists num, l. repeat split; auto. destruct Hnum. rewrite Hl by lia. lia.
  - auto.
  - right. right. split; [reflexivity|]. exists num, k, l. repeat split; auto; lia.
Qed.

(** A response of one packet that fills the buffer, whose header announces
    two. *)
Definition overlong_packet : packet :=
  {| p_type := HFI_CMD_START; p_flags := HFI_FW_FLAGS_SUCCESS; p_payload_info := HFI_PAYLOAD_NONE;
     p_port := HFI_PORT_RAW; p_id := 7; p_payload := replicate 4032 0 |}.
Definition overlong_response : list Z :=
  words [4096; 1; 0; 0; 0; 0; 0; 2] ++ packet_bytes overlong_packet.

(** The check of a response compares a packet's
    address with the end of the buffer by [>], not [>=], before it reads the
    packet's size: there is a response of 4096 bytes, the size of the driver's
    buffer, for which it reads behind the buffer. *)
Theorem hfi_response_overread :
  zlength overlong_response = 4096 /\ validate_hdr_packet overlong_response 4096 = Fault.
Proof. split; vm_compute; reflexivity. Qed.

Lemma hfi_response_checked_witness :
  let b := message_bytes 5 0 [numbered 3 {| rq_type := HFI_CMD_STOP; rq_flags := 1; rq_payload_info := 0;
                                            rq_port := 2; rq_payload := [] |}] in
  validate_hdr_packet b 64 = Done 0 /\ exists l, message_packets b 64 = Done l /\ chained 64 32 l.
Proof.
  intros b. assert (Hv : validate_hdr_packet b 64 = Done 0) by (vm_compute; reflexivity).
  destruct (hfi_response_checked b 64) as [(num & l & _ & _ & Hp & _ & Hc)|[H|[H _]]].
  - unfold bytes. repeat constructor; vm_compute; discriminate.
  - reflexivity.
  - lia.
  - split; [exact Hv|]. exists l. split; [exact Hp|exact Hc].
  - rewrite Hv in H. discriminate H.
  - rewrite Hv in H. discriminate H.
Defined.

(** ** Messages are read as they were written *)
Lemma packets_for_fit qs : forall id,
  Forall (fun q => word (rq_type q) /\ word (rq_flags q) /\ word (rq_payload_info q) /\ word (rq_port q)) qs ->
  word id -> message_length (packets_for id qs) < 2 ^ 32 -> Forall packet_fits (packets_for id qs).
Proof.
  induction qs as [|q qs IH]; intros id Hq Hid Hl; [constructor|].
  apply Forall_cons_1 in Hq as [(H1 & H2 & H3 & H4) Hq]. cbn [packets_for] in *.
  set (p := numbered id q) in *. pose proof (packet_length_pos p).
  assert (Hml : message_length (p :: packets_for (u32 (id + 1)) qs) =
                message_length (packets_for (u32 (id + 1)) qs) + packet_length p).
  { unfold message_length. rewrite body_cons, zlength_app, zlength_packet_bytes. lia. }
  pose proof (message_length_pos (packets_for (u32 (id + 1)) qs)).
  constructor.
  - unfold packet_fits, p. cbn [numbered p_type p_flags p_payload_info p_port p_id]. fold p.
    unfold word in *. repeat split; try lia; apply H1 || apply H2 || apply H3 || apply H4 || apply Hid.
  - apply IH; [exact Hq| |lia]. unfold word, u32. apply Z.mod_pos_bound. reflexivity.
Qed.

(** C26: a message of any requests that fits its buffer is
    created with result 0, accepted by the check of received messages, and
    read as exactly the requested packets in order, numbered consecutively
    (modulo 2^32) from the packet counter. *)
Theorem hfi_message_roundtrip size sid qs c b :
  0 <= size < 2 ^ 32 -> size <= zlength b -> qs <> [] -> word (packet_id c) ->
  Forall (fun q => word (rq_type q) /\ word (rq_flags q) /\ word (rq_payload_info q) /\ word (rq_port q)) qs ->
  message_length (packets_for (packet_id c) qs) <= size ->
  exists c' b', build_message size sid qs (c, Some b) = Done (0, (c', Some b')) /\
    zlength b' = zlength b /\ packet_id c' = u32 (packet_id c + zlength qs) /\
    validate_hdr_packet b' size = Done 0 /\
    message_packets b' size = Done (placed sizeof_hfi_header (packets_for (packet_id c) qs)).
Proof.
  intros Hs Hb Hne Hid Hq Hfit.
  destruct (build_message_ok size sid qs c b Hs Hb Hfit) as (rest & Hr & Hl).
  eexists _, _. split; [exact Hr|].
  destruct (message_accepted sid (header_id c) (packets_for (packet_id c) qs) rest size) as [HV HP];
    [destruct qs; [done|discriminate]|apply packets_for_fit; auto; lia|lia|lia|].
  split; [rewrite zlength_app, zlength_message; exact Hl|].
  split; [|split; [exact HV|exact HP]].
  apply (ids_after_packet_id qs (next_header_id c)). exact Hid.
Qed.
Definition start_request : request :=
  {| rq_type := HFI_CMD_START;
     rq_flags := Z.lor HFI_HOST_FLAGS_RESPONSE_REQUIRED HFI_HOST_FLAGS_INTR_REQUIRED;
     rq_payload_info := HFI_PAYLOAD_NONE; rq_port := HFI_PORT_BITSTREAM; rq_payload := [] |}.
Definition ids0 (n : Z) : hfi_ids := {| header_id := 4; packet_id := n; sys_init_id := 0 |}.

Lemma hfi_message_roundtrip_witness :
  exists c' b', build_message 128 9 [start_request; start_request] (ids0 (2 ^ 32 - 1), Some (replicate 128 255)) =
    Done (0, (c', Some b')) /\ validate_hdr_packet b' 128 = Done 0.
Proof.
  destruct (hfi_message_roundtrip 128 9 [start_request; start_request] (ids0 (2 ^ 32 - 1)) (replicate 128 255))
    as (c' & b' & Hr & _ & _ & HV & _).
  - lia.
  - unfold zlength. rewrite length_replicate. lia.
  - discriminate.
  - unfold word. cbn. lia.
  - repeat (apply Forall_cons_2; [repeat split; vm_compute; (discriminate || reflexivity)|]). apply Forall_nil_2.
  - vm_compute. discriminate.
  - exists c', b'. split; [exact Hr|exact HV].
Defined.

(** The requests behind the functions that create messages. *)
Definition u32_request (prop info value : Z) : request :=
  {| rq_type := prop; rq_flags := HFI_HOST_FLAGS_NONE; rq_payload_info := info;
     rq_port := HFI_PORT_NONE; rq_payload := le32 value |}.
Definition sys_init_requests (p : hfi_platform) : list request :=
  let u := ubwc p in
  [{| rq_type := HFI_CMD_INIT;
      rq_flags := Z.lor (Z.lor HFI_HOST_FLAGS_RESPONSE_REQUIRED HFI_HOST_FLAGS_INTR_REQUIRED)
                    HFI_HOST_FLAGS_NON_DISCARDABLE;
      rq_payload_info := HFI_PAYLOAD_U32; rq_port := HFI_PORT_NONE;
      rq_payload := le32 HFI_VIDEO_ARCH_LX |};
   u32_request HFI_PROP_UBWC_MAX_CHANNELS HFI_PAYLOAD_U32 (max_channels u);
   u32_request HFI_PROP_UBWC_MAL_LENGTH HFI_PAYLOAD_U32 (mal_length u);
   u32_request HFI_PROP_UBWC_HBB HFI_PAYLOAD_U32 (highest_bank_bit u);
   u32_request HFI_PROP_UBWC_BANK_SWZL_LEVEL1 HFI_PAYLOAD_U32 (bank_swzl_level u);
   u32_request HFI_PROP_UBWC_BANK_SWZL_LEVEL2 HFI_PAYLOAD_U32 (bank_swz2_level u);
   u32_request HFI_PROP_UBWC_BANK_SWZL_LEVEL3 HFI_PAYLOAD_U32 (bank_swz3_level u);
   u32_request HFI_PROP_UBWC_BANK_SPREADING HFI_PAYLOAD_U32 (bank_spreading u)] ++
  if supports_synx p then
    [{| rq_type := HFI_PROP_FENCE_CLIENT_DATA; rq_flags := HFI_HOST_FLAGS_NONE;
        rq_payload_info := HFI_PAYLOAD_U32_ARRAY; rq_port := HFI_PORT_NONE;
        rq_payload := le32 (synx_client_id p) ++ le32 (synx_client_flags p) |}]
  else [].

Lemma hfi_then_ext r k k' : (forall st, k st = k' st) -> hfi_then r k = hfi_then r k'.
Proof. intros H. unfold hfi_then. destruct r as [[rc st]| |]; cbn; [|done..]. now rewrite H. Qed.
Lemma hfi_then_done r : hfi_then r (fun st => Done (0, st)) = r.
Proof. unfold hfi_then. destruct r as [[rc st]| |]; cbn; [|done..]. case_test; subst; reflexivity. Qed.

Lemma sys_init_built p size st :
  hfi_packet_sys_init p size st =
  hfi_then (begin_message size 0 st) (fun st =>
    add_requests size (sys_init_requests p) (set_sys_init_id (packet_id (fst st)) (fst st), snd st)).
Proof.
  unfold hfi_packet_sys_init, sys_init_requests. cbn [app add_requests u32_request].
  do 9 (apply hfi_then_ext; intro). destruct (supports_synx p); cbn [add_requests]; [|reflexivity].
  now rewrite hfi_then_done.
Qed.

(** The message that starts the firmware is created in
    any buffer of 360 bytes or more, passes the check of received messages,
    consists of the SYSTEM_INIT command and the platform's properties in this
    order, numbered consecutively, and sys_init_id is the number of the
    command. *)
Theorem hfi_sys_init_message p size c b :
  360 <= size < 2 ^ 32 -> size <= zlength b -> word (packet_id c) ->
  exists c' b', hfi_packet_sys_init p size (c, Some b) = Done (0, (c', Some b')) /\
    sys_init_id c' = packet_id c /\ validate_hdr_packet b' size = Done 0 /\
    message_packets b' size = Done (placed sizeof_hfi_header (packets_for (packet_id c) (sys_init_requests p))).
Proof.
  intros Hs Hb Hid. rewrite sys_init_built. unfold begin_message. cbn [fst snd].
  rewrite create_header_ok by lia. cbn [mbind exec_bind fst snd]. unfold hfi_then at 1.
  cbn [mbind exec_bind fst snd Z.eqb].
  assert (Hd : zlength (drop 32 b) = zlength b - 32) by (unfold zlength in *; rewrite length_drop; lia).
  assert (Hlen : message_length (packets_for (packet_id c) (sys_init_requests p)) <= 360).
  { unfold sys_init_requests. destruct (supports_synx p); vm_compute; discriminate. }
  destruct (add_requests_ok size 0 (header_id c) (sys_init_requests p)
    (set_sys_init_id (packet_id c) (next_header_id c)) [] (drop 32 b)) as (rest & Hr & Hl);
    [lia|rewrite Hd; change (message_length []) with 32; lia|cbn [app]; change (packet_id (set_sys_init_id _ _))
      with (packet_id c); lia|].
  cbn [app] in Hr, Hl. change (packet_id (set_sys_init_id _ (next_header_id c))) with (packet_id c) in Hr, Hl.
  eexists _, _. split; [exact Hr|]. split.
  { generalize (length (sys_init_requests p)). intros n. set (c1 := set_sys_init_id _ _).
    change (packet_id c) with (sys_init_id c1). clearbody c1. revert c1.
    induction n as [|n IH]; intros c1; [reflexivity|]. cbn [ids_after]. rewrite IH. reflexivity. }
  apply message_accepted; [destruct (sys_init_requests p) eqn:E; [discriminate E|discriminate]| |lia|lia].
  apply packets_for_fit; [|exact Hid|lia].
  unfold sys_init_requests, u32_request. destruct (supports_synx p); cbn [app];
    repeat (apply Forall_cons_2; [repeat split; vm_compute; (discriminate || reflexivity)|]); apply Forall_nil_2.
Qed.

Definition demo_platform : hfi_platform :=
  {| ubwc := {| max_channels := 8; mal_length := 32; highest_bank_bit := 16; bank_swzl_level := 0;
                bank_swz2_level := 1; bank_swz3_level := 1; bank_spreading := 1 |};
     supports_synx := true; synx_client_id := 2; synx_client_flags := 1 |}.

Lemma hfi_sys_init_message_witness :
  exists c' b', hfi_packet_sys_init demo_platform 4096 (ids0 8, Some (replicate 4096 0)) =
    Done (0, (c', Some b')) /\ sys_init_id c' = 8 /\ validate_hdr_packet b' 4096 = Done 0.
Proof.
  destruct (hfi_sys_init_message demo_platform 4096 (ids0 8) (replicate 4096 0))
    as (c' & b' & Hr & Hid & HV & _).
  - lia.
  - unfold zlength. rewrite length_replicate. lia.
  - unfold word. cbn. lia.
  - exists c', b'. split; [exact Hr|]. split; [exact Hid|exact HV].
Defined.

(** ** Payloads *)

(** A buffer packet whose payload is announced as a structure. *)
Lemma structure_read domain b p x :
  bytes b -> 0 <= p -> p + hp_size x <= zlength b ->
  hp_type x = HFI_CMD_BUFFER -> hp_payload_info x = HFI_PAYLOAD_STRUCTURE ->
  exists a, handle_session_buffer domain b p x = Done a /\
    (forall h buffer, a = BufHandled h buffer ->
       hfi_buffer_at (p + sizeof_hfi_packet) b = Done buffer /\
       is_valid_hfi_buffer_type (hb_type buffer) = true /\
       (hp_port x = HFI_PORT_BITSTREAM \/ hp_port x = HFI_PORT_RAW) /\
       find_handler (hb_type buffer) (hfi_handle_arr domain (hp_port x)) = Some h).
Proof.
  intros Hb Hp Hl Ht Hi. unfold handle_session_buffer, check_for_packet_payload, payload_size_of.
  rewrite Ht, Hi. cbn [Z.eqb Pos.eqb orb HFI_PAYLOAD_STRUCTURE HFI_PAYLOAD_NONE HFI_PAYLOAD_U32 HFI_PAYLOAD_S32
    HFI_PAYLOAD_Q16 HFI_PAYLOAD_U32_ENUM HFI_PAYLOAD_32_PACKED HFI_PAYLOAD_U64 HFI_PAYLOAD_S64
    HFI_PAYLOAD_64_PACKED HFI_CMD_BUFFER].
  rewrite negb_involutive. unfold sizeof_hfi_packet, sizeof_hfi_buffer.
  case_test; [eexists; split; [reflexivity|discriminate]|].
  assert (Hb' : exists buffer, hfi_buffer_at (p + 32) b = Done buffer /\ load32 (p + 32) b = Done (hb_type buffer)).
  { unfold hfi_buffer_at.
    assert (L : forall k, 0 <= k <= 60 -> exists v, load32 (p + 32 + k) b = Done v).
    { intros k Hk. destruct (load32_inside (p + 32 + k) b Hb) as (v & Hv & _); [lia..|]. eauto. }
    assert (L8 : forall k, 0 <= k <= 56 -> exists v, load (p + 32 + k) 8 b = Done v).
    { intros k Hk. unfold load. tests; [|lia..]. cbn [andb]. tests. eauto. }
    destruct (L 0 ltac:(lia)) as [v0 H0]. rewrite Z.add_0_r in H0. rewrite H0.
    destruct (L 4 ltac:(lia)) as [v1 ->], (L8 8 ltac:(lia)) as [v2 ->], (L 16 ltac:(lia)) as [v3 ->],
      (L 20 ltac:(lia)) as [v4 ->], (L 24 ltac:(lia)) as [v5 ->], (L 28 ltac:(lia)) as [v6 ->],
      (L8 32 ltac:(lia)) as [v7 ->], (L 40 ltac:(lia)) as [v8 ->].
    eexists. split; reflexivity. }
  destruct Hb' as (buffer & Hbuf & Hty). rewrite Hty. cbn [mbind exec_bind].
  case_test; [eexists; split; [reflexivity|discriminate]|].
  case_test; [eexists; split; [reflexivity|discriminate]|].
  destruct (find_handler _ _) as [h|] eqn:Hh; [|eexists; split; [reflexivity|discriminate]].
  rewrite Hbuf. cbn [mbind exec_bind]. eexists. split; [reflexivity|]. intros h' buffer' [= <- <-].
  split; [reflexivity|]. split; [assumption|]. split; [|exact Hh].
  revert E1. unfold is_valid_hfi_port. case_test; [discriminate|]. case_test; [discriminate|]. intros _.
  apply andb_false_iff in E2 as [E2|E2]; zb; auto.
Qed.

(** A buffer packet inside the response whose payload is
    announced as a structure is handled without reading outside the packet:
    it is ignored, refused, puts the session into its error state, or reaches
    the handler its port and buffer type call for. *)
Theorem hfi_buffer_payload domain b p x :
  bytes b -> 0 <= p -> p + hp_size x <= zlength b ->
  hp_type x = HFI_CMD_BUFFER -> hp_payload_info x = HFI_PAYLOAD_STRUCTURE ->
  exists a, handle_session_buffer domain b p x = Done a /\
    (forall h buffer, a = BufHandled h buffer ->
       hfi_buffer_at (p + sizeof_hfi_packet) b = Done buffer /\
       is_valid_hfi_buffer_type (hb_type buffer) = true /\
       (hp_port x = HFI_PORT_BITSTREAM \/ hp_port x = HFI_PORT_RAW) /\
       find_handler (hb_type buffer) (hfi_handle_arr domain (hp_port x)) = Some h).
Proof. exact (structure_read domain b p x). Qed.

(** A buffer packet of 36 bytes at the end of the response, whose payload is
    announced as one word. *)
Definition short_buffer : packet :=
  {| p_type := HFI_CMD_BUFFER; p_flags := 0; p_payload_info := HFI_PAYLOAD_U32;
     p_port := HFI_PORT_RAW; p_id := 1; p_payload := le32 HFI_BUFFER_RAW |}.

(** The check of a payload's size goes by the announced
    kind of payload: a response with a buffer packet whose payload is
    announced as one word is accepted, and the handler of buffers reads the
    64 bytes of a buffer behind the response. *)
Theorem hfi_buffer_overread :
  let b := message_bytes 1 0 [short_buffer] in
  validate_hdr_packet b (zlength b) = Done 0 /\
  message_packets b (zlength b) = Done [(32, packet_view short_buffer)] /\
  check_for_packet_payload (packet_view short_buffer) = true /\
  handle_session_buffer MSM_VIDC_DECODER b 32 (packet_view short_buffer) = Fault.
Proof. repeat split; vm_compute; reflexivity. Qed.

(** The check of ports lets the buffer types ARP and
    PERSIST, which the driver sends with no port, pass its test for a missing
    port, and refuses them in the next one: a buffer packet without a port
    always puts the session into its error state, unless its payload is
    missing. *)
Theorem hfi_port_none_refused domain b p x a :
  hp_port x = HFI_PORT_NONE -> hp_payload_info x <> HFI_PAYLOAD_NONE ->
  handle_session_buffer domain b p x = Done a -> a = BufSessionError.
Proof.
  intros Hport Hi. unfold handle_session_buffer. rewrite (proj2 (Z.eqb_neq _ _) Hi), Hport.
  case_test; [intros [= <-]; reflexivity|]. intros (ty & Hty & H)%bind_Done. revert H.
  case_test; [intros [= <-]; reflexivity|].
  unfold is_valid_hfi_port, HFI_PORT_NONE, HFI_PORT_BITSTREAM, HFI_PORT_RAW. cbn [Z.eqb Pos.eqb negb andb].
  destruct (negb (ty =? HFI_BUFFER_ARP) && negb (ty =? HFI_BUFFER_PERSIST)); cbn [andb negb];
    intros [= <-]; reflexivity.
Qed.

(** A PERSIST buffer as get_hfi_port_from_buffer_type numbers it. *)
Definition persist_buffer : packet :=
  {| p_type := HFI_CMD_BUFFER; p_flags := 0; p_payload_info := HFI_PAYLOAD_STRUCTURE;
     p_port := HFI_PORT_NONE; p_id := 1; p_payload := words (HFI_BUFFER_PERSIST :: replicate 15 0) |}.

Lemma hfi_port_none_refused_witness :
  handle_session_buffer MSM_VIDC_DECODER (message_bytes 1 0 [persist_buffer]) 32 (packet_view persist_buffer) =
  Done BufSessionError.
Proof.
  destruct (handle_session_buffer MSM_VIDC_DECODER (message_bytes 1 0 [persist_buffer]) 32
              (packet_view persist_buffer)) as [a| |] eqn:E.
  - rewrite (hfi_port_none_refused MSM_VIDC_DECODER (message_bytes 1 0 [persist_buffer]) 32
              (packet_view persist_buffer) a); [reflexivity|reflexivity|discriminate|exact E].
  - vm_compute in E. discriminate E.
  - vm_compute in E. discriminate E.
Defined.

Lemma hfi_buffer_payload_witness :
  let x := {| p_type := HFI_CMD_BUFFER; p_flags := 0; p_payload_info := HFI_PAYLOAD_STRUCTURE;
              p_port := HFI_PORT_RAW; p_id := 1; p_payload := words (HFI_BUFFER_RAW :: replicate 15 0) |} in
  exists a, handle_session_buffer MSM_VIDC_DECODER (message_bytes 1 0 [x]) 32 (packet_view x) = Done a.
Proof.
  intros x. destruct (hfi_buffer_payload MSM_VIDC_DECODER (message_bytes 1 0 [x]) 32 (packet_view x)) as (a & Ha & _).
  - unfold bytes. repeat (apply Forall_cons_2; [split; vm_compute; (discriminate || reflexivity)|]). apply Forall_nil_2.
  - lia.
  - vm_compute. discriminate.
  - reflexivity.
  - reflexivity.
  - exists a. exact Ha.
Defined.

(** ** Through the queues *)

(** The words of a buffer that starts with a message. *)
Lemma message_words sid hid ps pk rest :
  Forall word pk -> words pk = message_bytes sid hid ps ++ rest ->
  message_length ps < 2 ^ 32 -> message_length ps mod 4 = 0 ->
  packet_words pk = message_length ps / 4 /\ 0 < packet_words pk <= zlength pk /\
  words (packet_of pk) = message_bytes sid hid ps.
Proof.
  intros Hw He Hl H4. pose proof (message_length_pos ps) as Hpos.
  assert (Hlen : 4 * zlength pk = message_length ps + zlength rest).
  { rewrite <- zlength_words, He, zlength_app, zlength_message. reflexivity. }
  pose proof (zlength_nonneg rest) as Hrest.
  assert (Hp : packet_words pk = message_length ps / 4).
  { destruct pk as [|w0 pk]; [unfold zlength in Hlen at 1; cbn in Hlen; lia|].
    unfold packet_words. change (default 0 ((w0 :: pk).[0])) with w0.
    apply Forall_cons_1 in Hw as [Hw0 _].
    assert (Hw0' : w0 = message_length ps).
    { rewrite <- (u32_small w0) by exact Hw0. rewrite <- (u32_small (message_length ps)) by lia.
      rewrite <- !of_le_le32. f_equal. rewrite words_cons in He.
      apply (f_equal (take 4)) in He. exact He. }
    rewrite Hw0', Z.shiftr_div_pow2 by lia. reflexivity. }
  assert (Hdiv : message_length ps = 4 * (message_length ps / 4)) by (pose proof (Z.div_mod (message_length ps) 4); lia).
  split; [exact Hp|]. split; [lia|]. unfold packet_of.
  rewrite <- (take_drop (Z.to_nat (packet_words pk)) pk), words_app in He at 1.
  apply app_inj_1 in He as [He _]; [exact He|]. pose proof (zlength_words (take (Z.to_nat (packet_words pk)) pk)) as Hz.
  rewrite zlength_take in Hz by lia. pose proof (zlength_message sid hid ps). unfold zlength in *. lia.
Qed.

(** A message of whole words, written into a queue
    with room for it, becomes the last packet of the queue with exactly its
    bytes; and whenever such a packet is the first of a queue, reading the
    queue returns 0 and fills the response buffer so that the check accepts it
    and the walk over it finds the packets of the message. *)
Theorem hfi_message_delivered W sid hid pkts pk rest :
  1024 <= W < 2 ^ 28 -> pkts <> [] -> Forall packet_fits pkts ->
  Forall word pk -> words pk = message_bytes sid hid pkts ++ rest ->
  message_length pkts <= 4096 -> message_length pkts mod 4 = 0 ->
  (forall q ps, queue_holds W q ps -> zlength (concat ps) + message_length pkts / 4 < W ->
     exists q', __write_queue q (Some pk) = Done (0, q', true) /\ queue_holds W q' (ps ++ [packet_of pk])) /\
  words (packet_of pk) = message_bytes sid hid pkts /\
  (forall q ps buf, queue_holds W q (packet_of pk :: ps) -> zlength buf = 1024 ->
     exists q' buf' tx, __read_queue q (Some buf) = Done (0, q', Some buf', Some tx) /\
       queue_holds W q' ps /\ validate_hdr_packet (words buf') 4096 = Done 0 /\
       message_packets (words buf') 4096 = Done (placed sizeof_hfi_header pkts)).
Proof.
  intros HW Hne Hf Hw He Hl H4.
  destruct (message_words sid hid pkts pk rest Hw He ltac:(lia) H4) as (Hpw & Hin & Hpk).
  pose proof (message_length_pos pkts) as Hpos. destruct (packet_of_ok pk Hin) as [Hok Hn].
  assert (Hdiv : message_length pkts = 4 * (message_length pkts / 4)) by (pose proof (Z.div_mod (message_length pkts) 4); lia).
  split; [|split; [exact Hpk|]].
  - intros q ps Hq Hroom. destruct (queue_write W HW q ps pk Hq ltac:(lia) ltac:(lia)) as (q' & Hr & Hq').
    exists q'. revert Hr Hq'. unfold fifo_write. rewrite Hpw.
    assert (Hn4 : 0 < message_length pkts / 4 <= 1024) by lia.
    rewrite (proj2 (Z.eqb_neq (message_length pkts / 4) 0)), Z.gtb_ltb by lia.
    rewrite (proj2 (Z.ltb_ge W _)), (proj2 (Z.leb_gt W _)) by lia. cbn [orb fst snd Z.eqb].
    intros Hr Hq'. split; assumption.
  - intros q ps buf Hq Hb.
    destruct (queue_read W HW q (packet_of pk :: ps) buf Hq ltac:(lia)) as (q' & buf' & Hr & Hq' & Hlb & Hcp).
    assert (Hsmall : (zlength (packet_of pk) <=? 1024) = true) by (zb; rewrite Hn, Hpw; lia).
    cbn [fifo_read] in *. rewrite Hsmall in *. cbn [fst snd] in *. 
    exists q', buf', (if tx_req_of q =? 1 then 1 else 0).
    split; [exact Hr|]. split; [exact Hq'|].
    assert (Hb' : words buf' = message_bytes sid hid pkts ++ words (drop (Z.to_nat (packet_words buf')) buf')).
    { rewrite <- Hpk, <- Hcp, <- words_app. unfold packet_of. now rewrite take_drop. }
    rewrite Hb'. apply message_accepted; auto; lia.
Qed.

(** A session command through an empty ring. *)
Definition start_words : list Z :=
  [64; 9; 4; 0; 0; 0; 0; 1; 32; HFI_CMD_START; 3; 0; 1; 77; 0; 0].
Lemma hfi_message_delivered_witness :
  exists q', __write_queue (small_queue 1020) (Some start_words) = Done (0, q', true) /\
    queue_holds 1024 q' [packet_of start_words].
Proof.
  destruct (hfi_message_delivered 1024 9 4 [numbered 77 start_request] start_words []) as (Hwr & _ & _).
  - lia.
  - discriminate.
  - repeat constructor; vm_compute; (discriminate || reflexivity).
  - repeat (apply Forall_cons_2; [split; vm_compute; (discriminate || reflexivity)|]). apply Forall_nil_2.
  - reflexivity.
  - vm_compute. discriminate.
  - reflexivity.
  - destruct (Hwr (small_queue 1020) []) as (q' & Hr & Hq').
    + apply small_queue_empty. lia.
    + vm_compute. reflexivity.
    + exists q'. split; [exact Hr|exact Hq'].
Defined.
