(* ===== verification/VidcBufferThms.v ===== *)
(** What holds of the buffers the video driver sends: types and ports lead
    back to where they came from, and a buffer packet that comes back is
    handled as the buffer that was sent. *)
From S2P Require Import Prelude VidcQueue VidcMem VidcHfi VidcPacket VidcPacketSpec VidcBuffer.

(** ** Buffers in memory *)
Definition buffer_words (b : hfi_buffer) : list Z :=
  [hb_type b; hb_index b; hb_base_address b; hb_base_address b / 2 ^ 32; hb_addr_offset b;
   hb_buffer_size b; hb_data_offset b; hb_data_size b; hb_timestamp b; hb_timestamp b / 2 ^ 32;
   hb_flags b; 0; 0; 0; 0; 0].
Lemma buffer_bytes_words b : hfi_buffer_bytes b = words (buffer_words b).
Proof. reflexivity. Qed.

(** The fields fit their places. *)
Definition long (v : Z) : Prop := 0 <= v < 2 ^ 64.
Definition buffer_fits (b : hfi_buffer) : Prop :=
  word (hb_type b) /\ word (hb_index b) /\ long (hb_base_address b) /\ word (hb_addr_offset b) /\
  word (hb_buffer_size b) /\ word (hb_data_offset b) /\ word (hb_data_size b) /\
  long (hb_timestamp b) /\ word (hb_flags b).

Lemma of_le_app l k : of_le (l ++ k) = of_le l + 2 ^ (8 * zlength l) * of_le k.
Proof.
  induction l as [|x l IH]; [cbn [app]; change (zlength []) with 0; change (of_le []) with 0; lia|].
  cbn [app of_le foldr]. fold (of_le (l ++ k)) (of_le l). rewrite IH.
  replace (8 * zlength (x :: l)) with (8 + 8 * zlength l) by (unfold zlength; cbn [length]; lia).
  rewrite Z.pow_add_r by (unfold zlength; lia). lia.
Qed.
Lemma of_le_le64 v : long v -> of_le (le64 v) = v.
Proof.
  intros Hv. unfold long in Hv. unfold le64. rewrite of_le_app, !of_le_le32. unfold u32. change (8 * zlength (le32 v)) with 32.
  rewrite (Z.mod_small (v / 2 ^ 32)).
  - pose proof (Z.div_mod v (2 ^ 32)). lia.
  - split; [apply Z.div_pos; lia|]. apply Z.div_lt_upper_bound; lia.
Qed.

Lemma load64_words pre ws post k w0 w1 :
  ws.[k] = Some w0 -> ws.[k + 1] = Some w1 ->
  load (zlength pre + 4 * k) 8 (pre ++ words ws ++ post) = Done (le32 w0 ++ le32 w1).
Proof.
  intros H0 H1. pose proof (zlookup_lt _ _ _ H0) as Hlt. unfold zlookup in H0, H1.
  rewrite (proj2 (Z.leb_le 0 k)) in H0 by lia. rewrite (proj2 (Z.leb_le 0 (k + 1))) in H1 by lia.
  replace (Z.to_nat (k + 1)) with (S (Z.to_nat k)) in H1 by lia.
  assert (Heq : ws = take (Z.to_nat k) ws ++ [w0; w1] ++ drop (S (S (Z.to_nat k))) ws).
  { rewrite <- (take_drop_middle _ _ _ H0) at 1. f_equal. cbn [app]. f_equal.
    apply drop_S. exact H1. }
  rewrite Heq. rewrite !words_app, <- !app_assoc, app_assoc.
  replace (zlength pre + 4 * k) with (zlength (pre ++ words (take (Z.to_nat k) ws))).
  2:{ rewrite zlength_app, zlength_words, zlength_take by lia. lia. }
  rewrite (load_app _ (words [w0; w1])) by reflexivity. reflexivity.
Qed.

(** What is read of a buffer is what was written. *)
Lemma hfi_buffer_read pre b post :
  buffer_fits b -> hfi_buffer_at (zlength pre) (pre ++ hfi_buffer_bytes b ++ post) = Done b.
Proof.
  intros (H0 & H1 & H2 & H4 & H5 & H6 & H7 & H8 & H10). rewrite buffer_bytes_words. unfold hfi_buffer_at.
  assert (L : forall o k w, (buffer_words b).[k] = Some w -> o = zlength pre + 4 * k ->
            load32 o (pre ++ words (buffer_words b) ++ post) = Done (u32 w))
    by (intros o k w Hk ->; now apply load32_words).
  assert (LL : forall o k w0 w1, (buffer_words b).[k] = Some w0 -> (buffer_words b).[k + 1] = Some w1 ->
            o = zlength pre + 4 * k ->
            load o 8 (pre ++ words (buffer_words b) ++ post) = Done (le32 w0 ++ le32 w1))
    by (intros o k w0 w1 Hk Hk' ->; now apply load64_words).
  rewrite (L (zlength pre) 0 _ eq_refl) by lia. rewrite (L (zlength pre + 4) 1 _ eq_refl) by lia.
  rewrite (LL (zlength pre + 8) 2 _ _ eq_refl eq_refl) by lia.
  rewrite (L (zlength pre + 16) 4 _ eq_refl) by lia. rewrite (L (zlength pre + 20) 5 _ eq_refl) by lia.
  rewrite (L (zlength pre + 24) 6 _ eq_refl) by lia. rewrite (L (zlength pre + 28) 7 _ eq_refl) by lia.
  rewrite (LL (zlength pre + 32) 8 _ _ eq_refl eq_refl) by lia.
  rewrite (L (zlength pre + 40) 10 _ eq_refl) by lia.
  cbn [mbind exec_bind]. change (le32 (hb_base_address b) ++ le32 (hb_base_address b / 2 ^ 32)) with (le64 (hb_base_address b)).
  change (le32 (hb_timestamp b) ++ le32 (hb_timestamp b / 2 ^ 32)) with (le64 (hb_timestamp b)).
  rewrite !of_le_le64, !u32_small by assumption. destruct b; reflexivity.
Qed.

(** ** Types and ports *)
Definition vidc_domain (d : Z) : Prop := d = MSM_VIDC_ENCODER \/ d = MSM_VIDC_DECODER.

(** The buffer types a session of the domain exchanges with its firmware
    through a port. *)
Definition session_type (d : Z) (ty : msm_vidc_buffer_type) : Prop :=
  get_hfi_port_from_buffer_type d ty <> HFI_PORT_NONE.

(** The handler a buffer of each type goes to. *)
Definition handler_of (ty : msm_vidc_buffer_type) : buffer_handler :=
  match ty with
  | MSM_VIDC_BUF_INPUT => handle_input_buffer
  | MSM_VIDC_BUF_OUTPUT => handle_output_buffer
  | MSM_VIDC_BUF_INPUT_META => handle_input_metadata_buffer
  | MSM_VIDC_BUF_OUTPUT_META => handle_output_metadata_buffer
  | _ => handle_release_internal_buffer
  end.

Ltac each_type Hd Hty :=
  destruct Hd as [-> | ->];
  match type of Hty with session_type _ ?t => destruct t end;
  first [reflexivity | exfalso; apply Hty; reflexivity | idtac].

(** For every type a session exchanges through a port, the firmware's type and
    port determine the driver's type, the checks of responses accept them, and
    the dispatch of responses leads to the handler of the type. *)
Lemma buffer_types d ty :
  vidc_domain d -> session_type d ty ->
  let hty := hfi_buf_type_from_driver d ty in
  let port := get_hfi_port_from_buffer_type d ty in
  hfi_buf_type_to_driver d hty port = ty /\
  is_valid_hfi_buffer_type hty = true /\ is_valid_hfi_port port hty = true /\
  find_handler hty (hfi_handle_arr d port) = Some (handler_of ty).
Proof. intros Hd Hty. repeat split; each_type Hd Hty. Qed.

(** ** A buffer there and back *)

(** The fields of a buffer of the driver fit their types; the alignment of an
    input buffer of a decoder stays inside its word. *)
Definition vidc_buffer_fits (b : msm_vidc_buffer) : Prop :=
  word (vb_index b) /\ 0 <= vb_buffer_size b <= 2 ^ 32 - 256 /\ word (vb_data_offset b) /\
  word (vb_data_size b) /\ long (vb_device_addr b) /\ long (vb_timestamp b).

Lemma lor_bound n a b : 0 <= n -> 0 <= a < 2 ^ n -> 0 <= b < 2 ^ n -> 0 <= Z.lor a b < 2 ^ n.
Proof.
  intros Hn Ha Hb. assert (He : Z.lor a b = Z.land (Z.lor a b) (Z.ones n)).
  { rewrite Z.land_lor_distr_l, !Z.land_ones, !Z.mod_small by lia. reflexivity. }
  rewrite He, Z.land_ones by lia. apply Z.mod_pos_bound. lia.
Qed.
Lemma or_if_bits c flag v n :
  0 <= v < 2 ^ n -> 0 <= flag < 2 ^ n -> 0 <= n -> 0 <= or_if c flag v < 2 ^ n.
Proof. intros Hv Hf Hn. destruct c; [|exact Hv]. now apply lor_bound. Qed.

Lemma get_hfi_buffer_fits d b : vidc_buffer_fits b -> buffer_fits (get_hfi_buffer d b).
Proof.
  intros (H1 & H2 & H3 & H4 & H5 & H6). unfold buffer_fits, get_hfi_buffer; cbn. unfold word in *.
  split.
  { unfold hfi_buf_type_from_driver. destruct (vb_type b); repeat case_test; vm_compute; split; discriminate || reflexivity. }
  split; [exact H1|]. split; [exact H5|]. split; [lia|]. split.
  { case_test; [unfold u32; apply Z.mod_pos_bound; lia|lia]. }
  split; [exact H3|]. split; [exact H4|]. split; [exact H6|].
  apply lor_bound; [lia| |].
  - repeat apply or_if_bits; lia || (vm_compute; split; discriminate || reflexivity).
  - unfold get_hfi_region_flag. repeat case_test; vm_compute; split; discriminate || reflexivity.
Qed.

Lemma align_256 x : 0 <= x -> ALIGN x 256 = 256 * ((x + 255) / 256).
Proof.
  intros Hx. unfold ALIGN. change (256 - 1) with (Z.ones 8). change (Z.ones 8) with 255 at 1.
  rewrite <- Z.ldiff_land, Z.ldiff_ones_r, Z.shiftl_mul_pow2, Z.shiftr_div_pow2 by lia.
  change (2 ^ 8) with 256. lia.
Qed.

(** The size a buffer is sent with. *)
Lemma sent_size d b : vidc_buffer_fits b ->
  let n := hb_buffer_size (get_hfi_buffer d b) in
  vb_buffer_size b <= n < vb_buffer_size b + 256 /\
  (d = MSM_VIDC_DECODER /\ vb_type b = MSM_VIDC_BUF_INPUT -> n mod 256 = 0).
Proof.
  intros (_ & Hs & _). cbn. pose proof (Z.div_mod (vb_buffer_size b + 255) 256 ltac:(lia)) as Hd.
  pose proof (Z.mod_pos_bound (vb_buffer_size b + 255) 256 ltac:(lia)) as Hm.
  case_test.
  - rewrite align_256, u32_small by (rewrite ?align_256; lia). split; [lia|]. intros _.
    rewrite Z.mul_comm. apply Z.mod_mul. lia.
  - split; [lia|]. intros [-> Ht]. rewrite Ht in *. discriminate.
Qed.

(** The packet venus_hfi_queue_buffer makes of a buffer. *)
Definition buffer_packet (d id : Z) (b : msm_vidc_buffer) : packet :=
  {| p_type := HFI_CMD_BUFFER; p_flags := HFI_HOST_FLAGS_INTR_REQUIRED;
     p_payload_info := HFI_PAYLOAD_STRUCTURE;
     p_port := get_hfi_port_from_buffer_type d (vb_type b); p_id := id;
     p_payload := hfi_buffer_bytes (get_hfi_buffer d b) |}.

(** C28: a buffer packet made of a driver's buffer, at any
    place of a response, is handled without an error: the handler of its type
    gets index, addresses, sizes, flags and time stamp as they were sent, and
    for the input of a decoder the size is the next multiple of 256. *)
Theorem vidc_buffer_returned d b id pre post :
  vidc_domain d -> session_type d (vb_type b) -> vidc_buffer_fits b ->
  exists buffer,
    handle_session_buffer d (pre ++ packet_bytes (buffer_packet d id b) ++ post) (zlength pre)
      (packet_view (buffer_packet d id b)) = Done (BufHandled (handler_of (vb_type b)) buffer) /\
    hb_index buffer = vb_index b /\ hb_base_address buffer = vb_device_addr b /\
    hb_timestamp buffer = vb_timestamp b /\ hb_data_offset buffer = vb_data_offset b /\
    hb_data_size buffer = vb_data_size b /\
    hfi_buf_type_to_driver d (hb_type buffer) (p_port (buffer_packet d id b)) = vb_type b /\
    vb_buffer_size b <= hb_buffer_size buffer < vb_buffer_size b + 256 /\
    (d = MSM_VIDC_DECODER /\ vb_type b = MSM_VIDC_BUF_INPUT -> hb_buffer_size buffer mod 256 = 0).
Proof.
  intros Hd Hty Hf. exists (get_hfi_buffer d b).
  destruct (buffer_types d (vb_type b) Hd Hty) as (Hback & Hvt & Hvp & Hh).
  pose proof (get_hfi_buffer_fits d b Hf) as Hfits. pose proof (sent_size d b Hf) as [Hsz Hal].
  split; [|repeat split; assumption || reflexivity || apply Hsz].
  set (x := buffer_packet d id b).
  assert (Hmem : pre ++ packet_bytes x ++ post =
                 (pre ++ words (packet_head x)) ++ hfi_buffer_bytes (get_hfi_buffer d b) ++ post).
  { unfold packet_bytes. rewrite <- !app_assoc. reflexivity. }
  assert (Hpos : zlength pre + sizeof_hfi_packet = zlength (pre ++ words (packet_head x))).
  { rewrite zlength_app, zlength_words. reflexivity. }
  pose proof (hfi_buffer_read (pre ++ words (packet_head x)) _ post Hfits) as Hread.
  rewrite <- Hmem, <- Hpos in Hread.
  assert (Hlt : load32 (zlength pre + sizeof_hfi_packet) (pre ++ packet_bytes x ++ post) =
                Done (hfi_buf_type_from_driver d (vb_type b))).
  { unfold hfi_buffer_at in Hread. apply bind_Done in Hread as (t & Ht & Hread). rewrite Ht.
    repeat (apply bind_Done in Hread as (? & _ & Hread)). injection Hread as <-; reflexivity. }
  unfold handle_session_buffer. change (hp_payload_info (packet_view x)) with HFI_PAYLOAD_STRUCTURE.
  change (check_for_packet_payload (packet_view x)) with true. cbn [negb]. rewrite Hlt. cbn [mbind exec_bind].
  change (hp_port (packet_view x)) with (get_hfi_port_from_buffer_type d (vb_type b)).
  rewrite Hvt, Hvp, Hh, Hread. reflexivity.
Qed.

Lemma vidc_buffer_returned_witness :
  let b := {| vb_type := MSM_VIDC_BUF_INPUT; vb_region := MSM_VIDC_SECURE_BITSTREAM; vb_index := 3;
              vb_buffer_size := 1000; vb_data_offset := 0; vb_data_size := 700;
              vb_device_addr := 0x123456789a; vb_flags := 0; vb_timestamp := 2 ^ 40; vb_attr := 0;
              vb_fence_id := 0 |} in
  exists buffer,
    handle_session_buffer MSM_VIDC_DECODER
      (message_bytes 7 0 [buffer_packet MSM_VIDC_DECODER 5 b]) 32
      (packet_view (buffer_packet MSM_VIDC_DECODER 5 b)) = Done (BufHandled handle_input_buffer buffer) /\
    hb_buffer_size buffer = 1024.
Proof.
  intros b.
  destruct (vidc_buffer_returned MSM_VIDC_DECODER b 5
              (words (header_head 7 0 [buffer_packet MSM_VIDC_DECODER 5 b])) [])
    as (buffer & Hh & Hi & Hba & Hts & Hdo & Hds & Hty & Hsz & Hal).
  - right. reflexivity.
  - vm_compute. discriminate.
  - repeat split; vm_compute; discriminate || reflexivity.
  - exists buffer. split; [exact Hh|]. specialize (Hal (conj eq_refl eq_refl)).
    change (vb_buffer_size b) with 1000 in Hsz. pose proof (Z.div_mod (hb_buffer_size buffer) 256). lia.
Defined.
