(* ===== verification/VidcSession.v ===== *)
(** The state machine of a video session
    (video-driver/driver/vidc/src/msm_vidc_state.c): the states and sub-states
    of struct msm_vidc_inst, how they may change, and what the handler of each
    state does with the events of the V4L2 client. *)
From S2P Require Import Prelude VidcPacket VidcBuffer.

Definition EBUSY : Z := 16.

(** ** Data *)
Inductive msm_vidc_state : Type :=
| MSM_VIDC_OPEN
| MSM_VIDC_INPUT_STREAMING
| MSM_VIDC_OUTPUT_STREAMING
| MSM_VIDC_STREAMING
| MSM_VIDC_CLOSE
| MSM_VIDC_ERROR.
#[export] Instance vidc_state_eq_dec : EqDecision msm_vidc_state.
Proof. solve_decision. Defined.

(** enum msm_vidc_sub_state *)
Definition MSM_VIDC_SUB_STATE_NONE : Z := 0.
Definition MSM_VIDC_DRAIN : Z := 1.
Definition MSM_VIDC_DRC : Z := 2.
Definition MSM_VIDC_DRAIN_LAST_BUFFER : Z := 4.
Definition MSM_VIDC_DRC_LAST_BUFFER : Z := 8.
Definition MSM_VIDC_INPUT_PAUSE : Z := 16.
Definition MSM_VIDC_OUTPUT_PAUSE : Z := 32.
Definition MSM_VIDC_FIRST_IPSC : Z := 64.
Definition MSM_VIDC_MAX_SUB_STATE_VALUE : Z := Z.shiftl 1 7 - 1.

(** enum msm_vidc_allow *)
Inductive msm_vidc_allow : Type :=
| MSM_VIDC_DISALLOW
| MSM_VIDC_ALLOW
| MSM_VIDC_DEFER
| MSM_VIDC_DISCARD
| MSM_VIDC_IGNORE.
#[export] Instance allow_eq_dec : EqDecision msm_vidc_allow.
Proof. solve_decision. Defined.

(** The functions inst->event_handle points to. *)
Inductive inst_handle : Type :=
| msm_vidc_open_state
| msm_vidc_input_streaming_state
| msm_vidc_output_streaming_state
| msm_vidc_streaming_state
| msm_vidc_close_state
| msm_vidc_error_state.

(** The part of struct msm_vidc_hfi_frame_info that information packets set. *)
Record hfi_frame_info := {
  data_corrupt : Z;
  overflow : Z;
  fence_error : Z }.
Definition no_frame_info : hfi_frame_info := {| data_corrupt := 0; overflow := 0; fence_error := 0 |}.

(** struct msm_vidc_inst as far as its state goes: [inst_id] stands for the
    pointer to it; [inst_caps] are the control and the flags of each
    capability, from the first valid one on; [inst_signals] counts, for the
    stop of the input, the stop of the output and the close, how often its
    completion was signalled and not waited for; [inst_packet] is the buffer
    for its commands while it has one, [inst_pending] the messages kept back
    while it serves a request ([inst_request]); [inst_outbuf_fence] tells
    whether fences come with its output buffers, [inst_last_flag_event]
    whether the client wants an event for a last flag; [inst_events] are the
    types of the events queued for the client. *)
Record msm_vidc_inst := {
  inst_id : Z;
  inst_locked : bool;
  inst_state : msm_vidc_state;
  inst_event_handle : inst_handle;
  inst_sub_state : Z;
  inst_domain : Z;
  inst_codec : Z;
  inst_session_id : Z;
  inst_packet : option (list Z);
  inst_secure_mode : Z;
  inst_request : bool;
  inst_pending : list (list Z);
  inst_outbuf_fence : bool;
  inst_last_flag_event : bool;
  inst_caps : list (Z * Z);
  inst_signals : list Z;
  inst_frame_info : hfi_frame_info;
  inst_events : list Z }.

Definition set_inst_state (st : msm_vidc_state) (h : inst_handle) (i : msm_vidc_inst) : msm_vidc_inst :=
  {| inst_id := inst_id i; inst_locked := inst_locked i; inst_state := st; inst_event_handle := h;
     inst_sub_state := inst_sub_state i; inst_domain := inst_domain i; inst_codec := inst_codec i;
     inst_session_id := inst_session_id i; inst_packet := inst_packet i;
     inst_secure_mode := inst_secure_mode i; inst_request := inst_request i;
     inst_pending := inst_pending i; inst_outbuf_fence := inst_outbuf_fence i;
     inst_last_flag_event := inst_last_flag_event i; inst_caps := inst_caps i;
     inst_signals := inst_signals i; inst_frame_info := inst_frame_info i;
     inst_events := inst_events i |}.
Definition set_inst_locked (x : bool) (i : msm_vidc_inst) : msm_vidc_inst :=
  {| inst_id := inst_id i; inst_locked := x; inst_state := inst_state i;
     inst_event_handle := inst_event_handle i; inst_sub_state := inst_sub_state i;
     inst_domain := inst_domain i; inst_codec := inst_codec i;
     inst_session_id := inst_session_id i; inst_packet := inst_packet i;
     inst_secure_mode := inst_secure_mode i; inst_request := inst_request i;
     inst_pending := inst_pending i; inst_outbuf_fence := inst_outbuf_fence i;
     inst_last_flag_event := inst_last_flag_event i; inst_caps := inst_caps i;
     inst_signals := inst_signals i; inst_frame_info := inst_frame_info i;
     inst_events := inst_events i |}.
Definition set_inst_sub_state (x : Z) (i : msm_vidc_inst) : msm_vidc_inst :=
  {| inst_id := inst_id i; inst_locked := inst_locked i; inst_state := inst_state i;
     inst_event_handle := inst_event_handle i; inst_sub_state := x; inst_domain := inst_domain i;
     inst_codec := inst_codec i; inst_session_id := inst_session_id i;
     inst_packet := inst_packet i; inst_secure_mode := inst_secure_mode i;
     inst_request := inst_request i; inst_pending := inst_pending i;
     inst_outbuf_fence := inst_outbuf_fence i; inst_last_flag_event := inst_last_flag_event i;
     inst_caps := inst_caps i; inst_signals := inst_signals i;
     inst_frame_info := inst_frame_info i; inst_events := inst_events i |}.
Definition set_inst_packet (x : option (list Z)) (i : msm_vidc_inst) : msm_vidc_inst :=
  {| inst_id := inst_id i; inst_locked := inst_locked i; inst_state := inst_state i;
     inst_event_handle := inst_event_handle i; inst_sub_state := inst_sub_state i;
     inst_domain := inst_domain i; inst_codec := inst_codec i;
     inst_session_id := inst_session_id i; inst_packet := x;
     inst_secure_mode := inst_secure_mode i; inst_request := inst_request i;
     inst_pending := inst_pending i; inst_outbuf_fence := inst_outbuf_fence i;
     inst_last_flag_event := inst_last_flag_event i; inst_caps := inst_caps i;
     inst_signals := inst_signals i; inst_frame_info := inst_frame_info i;
     inst_events := inst_events i |}.
Definition set_inst_pending (x : list (list Z)) (i : msm_vidc_inst) : msm_vidc_inst :=
  {| inst_id := inst_id i; inst_locked := inst_locked i; inst_state := inst_state i;
     inst_event_handle := inst_event_handle i; inst_sub_state := inst_sub_state i;
     inst_domain := inst_domain i; inst_codec := inst_codec i;
     inst_session_id := inst_session_id i; inst_packet := inst_packet i;
     inst_secure_mode := inst_secure_mode i; inst_request := inst_request i; inst_pending := x;
     inst_outbuf_fence := inst_outbuf_fence i; inst_last_flag_event := inst_last_flag_event i;
     inst_caps := inst_caps i; inst_signals := inst_signals i;
     inst_frame_info := inst_frame_info i; inst_events := inst_events i |}.
Definition set_inst_signals (x : list Z) (i : msm_vidc_inst) : msm_vidc_inst :=
  {| inst_id := inst_id i; inst_locked := inst_locked i; inst_state := inst_state i;
     inst_event_handle := inst_event_handle i; inst_sub_state := inst_sub_state i;
     inst_domain := inst_domain i; inst_codec := inst_codec i;
     inst_session_id := inst_session_id i; inst_packet := inst_packet i;
     inst_secure_mode := inst_secure_mode i; inst_request := inst_request i;
     inst_pending := inst_pending i; inst_outbuf_fence := inst_outbuf_fence i;
     inst_last_flag_event := inst_last_flag_event i; inst_caps := inst_caps i; inst_signals := x;
     inst_frame_info := inst_frame_info i; inst_events := inst_events i |}.
Definition set_inst_frame_info (x : hfi_frame_info) (i : msm_vidc_inst) : msm_vidc_inst :=
  {| inst_id := inst_id i; inst_locked := inst_locked i; inst_state := inst_state i;
     inst_event_handle := inst_event_handle i; inst_sub_state := inst_sub_state i;
     inst_domain := inst_domain i; inst_codec := inst_codec i;
     inst_session_id := inst_session_id i; inst_packet := inst_packet i;
     inst_secure_mode := inst_secure_mode i; inst_request := inst_request i;
     inst_pending := inst_pending i; inst_outbuf_fence := inst_outbuf_fence i;
     inst_last_flag_event := inst_last_flag_event i; inst_caps := inst_caps i;
     inst_signals := inst_signals i; inst_frame_info := x; inst_events := inst_events i |}.
Definition set_inst_events (x : list Z) (i : msm_vidc_inst) : msm_vidc_inst :=
  {| inst_id := inst_id i; inst_locked := inst_locked i; inst_state := inst_state i;
     inst_event_handle := inst_event_handle i; inst_sub_state := inst_sub_state i;
     inst_domain := inst_domain i; inst_codec := inst_codec i;
     inst_session_id := inst_session_id i; inst_packet := inst_packet i;
     inst_secure_mode := inst_secure_mode i; inst_request := inst_request i;
     inst_pending := inst_pending i; inst_outbuf_fence := inst_outbuf_fence i;
     inst_last_flag_event := inst_last_flag_event i; inst_caps := inst_caps i;
     inst_signals := inst_signals i; inst_frame_info := inst_frame_info i; inst_events := x |}.

Definition is_state (i : msm_vidc_inst) (st : msm_vidc_state) : bool := bool_decide (inst_state i = st).
Definition is_sub_state (i : msm_vidc_inst) (sub_state : Z) : bool :=
  negb (Z.land (inst_sub_state i) sub_state =? 0).
Definition is_session_error (i : msm_vidc_inst) : bool := is_state i MSM_VIDC_ERROR.
Definition is_drc_pending (i : msm_vidc_inst) : bool :=
  is_sub_state i MSM_VIDC_DRC && is_sub_state i MSM_VIDC_DRC_LAST_BUFFER.
Definition is_drain_pending (i : msm_vidc_inst) : bool :=
  is_sub_state i MSM_VIDC_DRAIN && is_sub_state i MSM_VIDC_DRAIN_LAST_BUFFER.
Definition __strict_inst_check (i : msm_vidc_inst) : Z := if inst_locked i then 0 else - EINVAL.

(** ** States *)
Definition inst_allow_table : list (msm_vidc_state * msm_vidc_state * msm_vidc_allow) :=
  [(MSM_VIDC_OPEN, MSM_VIDC_OPEN, MSM_VIDC_IGNORE);
   (MSM_VIDC_OPEN, MSM_VIDC_INPUT_STREAMING, MSM_VIDC_ALLOW);
   (MSM_VIDC_OPEN, MSM_VIDC_OUTPUT_STREAMING, MSM_VIDC_ALLOW);
   (MSM_VIDC_OPEN, MSM_VIDC_STREAMING, MSM_VIDC_DISALLOW);
   (MSM_VIDC_OPEN, MSM_VIDC_CLOSE, MSM_VIDC_ALLOW);
   (MSM_VIDC_OPEN, MSM_VIDC_ERROR, MSM_VIDC_ALLOW);
   (MSM_VIDC_INPUT_STREAMING, MSM_VIDC_OPEN, MSM_VIDC_ALLOW);
   (MSM_VIDC_INPUT_STREAMING, MSM_VIDC_INPUT_STREAMING, MSM_VIDC_IGNORE);
   (MSM_VIDC_INPUT_STREAMING, MSM_VIDC_OUTPUT_STREAMING, MSM_VIDC_DISALLOW);
   (MSM_VIDC_INPUT_STREAMING, MSM_VIDC_STREAMING, MSM_VIDC_ALLOW);
   (MSM_VIDC_INPUT_STREAMING, MSM_VIDC_CLOSE, MSM_VIDC_ALLOW);
   (MSM_VIDC_INPUT_STREAMING, MSM_VIDC_ERROR, MSM_VIDC_ALLOW);
   (MSM_VIDC_OUTPUT_STREAMING, MSM_VIDC_OPEN, MSM_VIDC_ALLOW);
   (MSM_VIDC_OUTPUT_STREAMING, MSM_VIDC_INPUT_STREAMING, MSM_VIDC_DISALLOW);
   (MSM_VIDC_OUTPUT_STREAMING, MSM_VIDC_OUTPUT_STREAMING, MSM_VIDC_IGNORE);
   (MSM_VIDC_OUTPUT_STREAMING, MSM_VIDC_STREAMING, MSM_VIDC_ALLOW);
   (MSM_VIDC_OUTPUT_STREAMING, MSM_VIDC_CLOSE, MSM_VIDC_ALLOW);
   (MSM_VIDC_OUTPUT_STREAMING, MSM_VIDC_ERROR, MSM_VIDC_ALLOW);
   (MSM_VIDC_STREAMING, MSM_VIDC_OPEN, MSM_VIDC_DISALLOW);
   (MSM_VIDC_STREAMING, MSM_VIDC_INPUT_STREAMING, MSM_VIDC_ALLOW);
   (MSM_VIDC_STREAMING, MSM_VIDC_OUTPUT_STREAMING, MSM_VIDC_ALLOW);
   (MSM_VIDC_STREAMING, MSM_VIDC_STREAMING, MSM_VIDC_IGNORE);
   (MSM_VIDC_STREAMING, MSM_VIDC_CLOSE, MSM_VIDC_ALLOW);
   (MSM_VIDC_STREAMING, MSM_VIDC_ERROR, MSM_VIDC_ALLOW);
   (MSM_VIDC_CLOSE, MSM_VIDC_OPEN, MSM_VIDC_DISALLOW);
   (MSM_VIDC_CLOSE, MSM_VIDC_INPUT_STREAMING, MSM_VIDC_DISALLOW);
   (MSM_VIDC_CLOSE, MSM_VIDC_OUTPUT_STREAMING, MSM_VIDC_DISALLOW);
   (MSM_VIDC_CLOSE, MSM_VIDC_STREAMING, MSM_VIDC_DISALLOW);
   (MSM_VIDC_CLOSE, MSM_VIDC_CLOSE, MSM_VIDC_IGNORE);
   (MSM_VIDC_CLOSE, MSM_VIDC_ERROR, MSM_VIDC_IGNORE);
   (MSM_VIDC_ERROR, MSM_VIDC_OPEN, MSM_VIDC_IGNORE);
   (MSM_VIDC_ERROR, MSM_VIDC_INPUT_STREAMING, MSM_VIDC_IGNORE);
   (MSM_VIDC_ERROR, MSM_VIDC_OUTPUT_STREAMING, MSM_VIDC_IGNORE);
   (MSM_VIDC_ERROR, MSM_VIDC_STREAMING, MSM_VIDC_IGNORE);
   (MSM_VIDC_ERROR, MSM_VIDC_CLOSE, MSM_VIDC_IGNORE);
   (MSM_VIDC_ERROR, MSM_VIDC_ERROR, MSM_VIDC_IGNORE)].
Definition msm_vidc_allow_state_change (i : msm_vidc_inst) (req_state : msm_vidc_state) : msm_vidc_allow :=
  match List.find (fun e => bool_decide (fst e = (inst_state i, req_state))) inst_allow_table with
  | Some (_, allow) => allow
  | None => MSM_VIDC_DISALLOW
  end.

Definition inst_handle_table : list (msm_vidc_state * inst_handle) :=
  [(MSM_VIDC_OPEN, msm_vidc_open_state);
   (MSM_VIDC_INPUT_STREAMING, msm_vidc_input_streaming_state);
   (MSM_VIDC_OUTPUT_STREAMING, msm_vidc_output_streaming_state);
   (MSM_VIDC_STREAMING, msm_vidc_streaming_state);
   (MSM_VIDC_CLOSE, msm_vidc_close_state);
   (MSM_VIDC_ERROR, msm_vidc_error_state)].
Definition msm_vidc_get_state_handle (req_state : msm_vidc_state) : option (msm_vidc_state * inst_handle) :=
  List.find (fun e => bool_decide (fst e = req_state)) inst_handle_table.

Definition msm_vidc_update_state (request_state : msm_vidc_state) (i : msm_vidc_inst) : Z * msm_vidc_inst :=
  match msm_vidc_get_state_handle request_state with
  | None => (- EINVAL, i)
  | Some (st, h) => (0, set_inst_state st h i)
  end.

Definition msm_vidc_change_state (request_state : msm_vidc_state) (i : msm_vidc_inst) : Z * msm_vidc_inst :=
  if is_session_error i then (0, i)
  else if bool_decide (inst_state i = request_state) then (0, i)
  else
    match msm_vidc_allow_state_change i request_state with
    | MSM_VIDC_ALLOW => msm_vidc_update_state request_state i
    | MSM_VIDC_DISALLOW => (- EINVAL, i)
    | _ => (0, i)
    end.

(** ** Sub-states *)
Definition lor_all (l : list Z) : Z := foldr Z.lor 0 l.
Definition sub_state_allow : list (msm_vidc_state * msm_vidc_allow * Z) :=
  [(MSM_VIDC_OPEN, MSM_VIDC_DISALLOW,
    lor_all [MSM_VIDC_DRC; MSM_VIDC_DRAIN; MSM_VIDC_DRC_LAST_BUFFER; MSM_VIDC_DRAIN_LAST_BUFFER;
             MSM_VIDC_INPUT_PAUSE; MSM_VIDC_OUTPUT_PAUSE]);
   (MSM_VIDC_INPUT_STREAMING, MSM_VIDC_DISALLOW,
    lor_all [MSM_VIDC_DRC_LAST_BUFFER; MSM_VIDC_DRAIN_LAST_BUFFER; MSM_VIDC_OUTPUT_PAUSE]);
   (MSM_VIDC_INPUT_STREAMING, MSM_VIDC_ALLOW,
    lor_all [MSM_VIDC_DRC; MSM_VIDC_DRAIN; MSM_VIDC_INPUT_PAUSE; MSM_VIDC_FIRST_IPSC]);
   (MSM_VIDC_OUTPUT_STREAMING, MSM_VIDC_DISALLOW,
    lor_all [MSM_VIDC_DRC; MSM_VIDC_DRAIN; MSM_VIDC_INPUT_PAUSE]);
   (MSM_VIDC_OUTPUT_STREAMING, MSM_VIDC_ALLOW,
    lor_all [MSM_VIDC_DRC_LAST_BUFFER; MSM_VIDC_DRAIN_LAST_BUFFER; MSM_VIDC_OUTPUT_PAUSE]);
   (MSM_VIDC_STREAMING, MSM_VIDC_ALLOW,
    lor_all [MSM_VIDC_DRC; MSM_VIDC_DRAIN; MSM_VIDC_DRC_LAST_BUFFER; MSM_VIDC_DRAIN_LAST_BUFFER;
             MSM_VIDC_INPUT_PAUSE; MSM_VIDC_OUTPUT_PAUSE]);
   (MSM_VIDC_CLOSE, MSM_VIDC_ALLOW,
    lor_all [MSM_VIDC_DRC; MSM_VIDC_DRAIN; MSM_VIDC_DRC_LAST_BUFFER; MSM_VIDC_DRAIN_LAST_BUFFER;
             MSM_VIDC_INPUT_PAUSE; MSM_VIDC_OUTPUT_PAUSE]);
   (MSM_VIDC_ERROR, MSM_VIDC_ALLOW,
    lor_all [MSM_VIDC_DRC; MSM_VIDC_DRAIN; MSM_VIDC_DRC_LAST_BUFFER; MSM_VIDC_DRAIN_LAST_BUFFER;
             MSM_VIDC_INPUT_PAUSE; MSM_VIDC_OUTPUT_PAUSE])].

(** The masks of the entries of a state and a kind, in the order of the
    table. *)
Definition masks_of (st : msm_vidc_state) (allow : msm_vidc_allow) : list Z :=
  map snd (List.filter (fun e => bool_decide (fst e = (st, allow))) sub_state_allow).

(** The loop that removes what is ignored stops at the first mask that meets
    the sub-state. *)
Fixpoint remove_ignored (masks : list Z) (sub_state : Z) : Z :=
  match masks with
  | [] => sub_state
  | m :: masks =>
      if Z.land m sub_state =? 0 then remove_ignored masks sub_state
      else Z.ldiff sub_state (Z.land m sub_state)
  end.

Definition msm_vidc_set_sub_state (sub_state : Z) (i : msm_vidc_inst) : Z * msm_vidc_inst :=
  if sub_state =? 0 then (0, i)
  else if existsb (fun m => negb (Z.land m sub_state =? 0)) (masks_of (inst_state i) MSM_VIDC_DISALLOW)
  then (- EINVAL, i)
  else
    let sub_state := remove_ignored (masks_of (inst_state i) MSM_VIDC_IGNORE) sub_state in
    if existsb (fun m => negb (Z.land m sub_state =? sub_state)) (masks_of (inst_state i) MSM_VIDC_ALLOW)
    then (- EINVAL, i)
    else (0, set_inst_sub_state (Z.lor (inst_sub_state i) sub_state) i).

Definition msm_vidc_change_sub_state (clear_sub_state set_sub_state : Z) (i : msm_vidc_inst) :
    Z * msm_vidc_inst :=
  if is_session_error i then (0, i)
  else if (clear_sub_state =? 0) && (set_sub_state =? 0) then (0, i)
  else if negb (Z.land clear_sub_state set_sub_state =? 0)
          || (set_sub_state >? MSM_VIDC_MAX_SUB_STATE_VALUE)
          || (clear_sub_state >? MSM_VIDC_MAX_SUB_STATE_VALUE)
  then (- EINVAL, i)
  else
    let '(rc, i) := msm_vidc_set_sub_state set_sub_state i in
    if negb (rc =? 0) then (rc, i)
    else (0, set_inst_sub_state (Z.ldiff (inst_sub_state i) clear_sub_state) i).

(** ** Events *)

(** V4L2 buffer types *)
Inductive v4l2_type : Type :=
| INPUT_MPLANE
| OUTPUT_MPLANE
| INPUT_META_PLANE
| OUTPUT_META_PLANE
| OTHER_PLANE.
#[export] Instance v4l2_type_eq_dec : EqDecision v4l2_type.
Proof. solve_decision. Defined.

(** enum msm_vidc_event with the part of the data the handlers look at: the
    type of the format, of the buffers, of the queue, the control, the type
    of the buffer. *)
Inductive msm_vidc_event : Type :=
| MSM_VIDC_TRY_FMT (type : v4l2_type)
| MSM_VIDC_S_FMT (type : v4l2_type)
| MSM_VIDC_REQBUFS (type : v4l2_type)
| MSM_VIDC_S_CTRL (id : Z)
| MSM_VIDC_STREAMON (type : v4l2_type)
| MSM_VIDC_STREAMOFF (type : v4l2_type)
| MSM_VIDC_CMD_START
| MSM_VIDC_CMD_STOP
| MSM_VIDC_BUF_QUEUE (type : msm_vidc_buffer_type).

(** What a handler does: return a result at once, or call a function and
    return its result. *)
Inductive event_action : Type :=
| EvReturn (rc : Z)
| msm_vidc_try_fmt
| msm_vidc_s_fmt
| msm_vidc_s_ctrl
| msm_vidc_reqbufs
| msm_vidc_start_streaming (type : v4l2_type)
| msm_vidc_stop_streaming (type : v4l2_type)
| msm_vidc_start_cmd
| msm_vidc_stop_cmd
| msm_vidc_buf_queue.

Definition CAP_FLAG_DYNAMIC_ALLOWED : Z := 1.
(** msm_vidc_get_cap_id: the flags of the capability of a control, if any *)
Definition cap_flags_of (i : msm_vidc_inst) (id : Z) : option Z :=
  option_map snd (List.find (fun c => fst c =? id) (inst_caps i)).

(** The ports of a V4L2 type. *)
Definition input_plane (t : v4l2_type) : bool :=
  match t with INPUT_MPLANE | INPUT_META_PLANE => true | _ => false end.
Definition output_plane (t : v4l2_type) : bool :=
  match t with OUTPUT_MPLANE | OUTPUT_META_PLANE => true | _ => false end.
Definition is_meta (ty : msm_vidc_buffer_type) : bool :=
  match ty with MSM_VIDC_BUF_INPUT_META | MSM_VIDC_BUF_OUTPUT_META => true | _ => false end.

Definition in_open_state (i : msm_vidc_inst) (event : msm_vidc_event) : event_action :=
  match event with
  | MSM_VIDC_TRY_FMT _ => msm_vidc_try_fmt
  | MSM_VIDC_S_FMT _ => msm_vidc_s_fmt
  | MSM_VIDC_S_CTRL _ => msm_vidc_s_ctrl
  | MSM_VIDC_REQBUFS _ => msm_vidc_reqbufs
  | MSM_VIDC_STREAMON t => msm_vidc_start_streaming t
  | MSM_VIDC_STREAMOFF _ => EvReturn 0
  | MSM_VIDC_CMD_START => EvReturn (- EBUSY)
  | MSM_VIDC_CMD_STOP => EvReturn 0
  | MSM_VIDC_BUF_QUEUE _ => EvReturn 0
  end.

(** A buffer in the streaming states; [deferred] are those of the port that
    does not stream. *)
Definition buf_queue_event (deferred : msm_vidc_buffer_type -> bool) (ty : msm_vidc_buffer_type) : event_action :=
  if is_meta ty then EvReturn 0
  else if negb (is_input_buffer ty) && negb (is_output_buffer ty) then EvReturn (- EINVAL)
  else if deferred ty then EvReturn 0
  else msm_vidc_buf_queue.

(** A control: in the streaming states of the master port ([master]) only a
    dynamic one. *)
Definition s_ctrl_event (master : bool) (i : msm_vidc_inst) (id : Z) : event_action :=
  match cap_flags_of i id with
  | None => EvReturn (- EINVAL)
  | Some flags =>
      if master && (Z.land flags CAP_FLAG_DYNAMIC_ALLOWED =? 0) then EvReturn (- EINVAL)
      else msm_vidc_s_ctrl
  end.

Definition cmd_start_event (i : msm_vidc_inst) : event_action :=
  if negb (is_drc_pending i) && negb (is_drain_pending i) then EvReturn (- EBUSY)
  else msm_vidc_start_cmd.
Definition cmd_stop_event (i : msm_vidc_inst) : event_action :=
  if is_sub_state i MSM_VIDC_DRAIN then EvReturn (- EBUSY) else msm_vidc_stop_cmd.

Definition in_input_streaming_state (i : msm_vidc_inst) (event : msm_vidc_event) : event_action :=
  match event with
  | MSM_VIDC_BUF_QUEUE ty => buf_queue_event is_output_buffer ty
  | MSM_VIDC_TRY_FMT t => if input_plane t then EvReturn (- EBUSY) else msm_vidc_try_fmt
  | MSM_VIDC_S_FMT t => if input_plane t then EvReturn (- EBUSY) else msm_vidc_s_fmt
  | MSM_VIDC_S_CTRL id => s_ctrl_event (is_decode_session (inst_domain i)) i id
  | MSM_VIDC_REQBUFS t => if input_plane t then EvReturn (- EBUSY) else msm_vidc_reqbufs
  | MSM_VIDC_STREAMON t => if input_plane t then EvReturn (- EBUSY) else msm_vidc_start_streaming t
  | MSM_VIDC_STREAMOFF t =>
      if output_plane t then EvReturn 0
      else if negb (bool_decide (t = INPUT_MPLANE)) then EvReturn (- EINVAL)
      else msm_vidc_stop_streaming t
  | MSM_VIDC_CMD_START => cmd_start_event i
  | MSM_VIDC_CMD_STOP => cmd_stop_event i
  end.

Definition in_output_streaming_state (i : msm_vidc_inst) (event : msm_vidc_event) : event_action :=
  match event with
  | MSM_VIDC_BUF_QUEUE ty => buf_queue_event is_input_buffer ty
  | MSM_VIDC_TRY_FMT t => if output_plane t then EvReturn (- EBUSY) else msm_vidc_try_fmt
  | MSM_VIDC_S_FMT t => if output_plane t then EvReturn (- EBUSY) else msm_vidc_s_fmt
  | MSM_VIDC_S_CTRL id => s_ctrl_event (is_encode_session (inst_domain i)) i id
  | MSM_VIDC_REQBUFS t => if output_plane t then EvReturn (- EBUSY) else msm_vidc_reqbufs
  | MSM_VIDC_STREAMON t => if output_plane t then EvReturn (- EBUSY) else msm_vidc_start_streaming t
  | MSM_VIDC_STREAMOFF t =>
      if input_plane t then EvReturn 0
      else if negb (bool_decide (t = OUTPUT_MPLANE)) then EvReturn (- EINVAL)
      else msm_vidc_stop_streaming t
  | MSM_VIDC_CMD_START => cmd_start_event i
  | MSM_VIDC_CMD_STOP => EvReturn (- EBUSY)
  end.

Definition in_streaming_state (i : msm_vidc_inst) (event : msm_vidc_event) : event_action :=
  match event with
  | MSM_VIDC_BUF_QUEUE ty => buf_queue_event (fun _ => false) ty
  | MSM_VIDC_S_CTRL id => s_ctrl_event true i id
  | MSM_VIDC_STREAMOFF t =>
      match t with
      | INPUT_MPLANE | OUTPUT_MPLANE => msm_vidc_stop_streaming t
      | _ => EvReturn (- EINVAL)
      end
  | MSM_VIDC_CMD_START => cmd_start_event i
  | MSM_VIDC_CMD_STOP => cmd_stop_event i
  | _ => EvReturn (- EINVAL)
  end.

(** The handlers of CLOSE and ERROR. *)
Definition in_end_state (i : msm_vidc_inst) (event : msm_vidc_event) : event_action :=
  match event with
  | MSM_VIDC_STREAMOFF t => msm_vidc_stop_streaming t
  | _ => EvReturn (- EINVAL)
  end.

(** inst->event_handle(inst, event, data) *)
Definition event_handle (i : msm_vidc_inst) (event : msm_vidc_event) : event_action :=
  if negb (__strict_inst_check i =? 0) then EvReturn (- EINVAL)
  else
    match inst_event_handle i with
    | msm_vidc_open_state => in_open_state i event
    | msm_vidc_input_streaming_state => in_input_streaming_state i event
    | msm_vidc_output_streaming_state => in_output_streaming_state i event
    | msm_vidc_streaming_state => in_streaming_state i event
    | msm_vidc_close_state | msm_vidc_error_state => in_end_state i event
    end.

(** ** What the session may get from the firmware *)
Definition msm_vidc_allow_input_psc (i : msm_vidc_inst) : msm_vidc_allow :=
  if is_sub_state i MSM_VIDC_DRC then MSM_VIDC_DISALLOW else MSM_VIDC_ALLOW.
Definition msm_vidc_allow_drain_last_flag (i : msm_vidc_inst) : bool :=
  is_sub_state i MSM_VIDC_DRAIN && is_sub_state i MSM_VIDC_INPUT_PAUSE
  && negb (is_sub_state i MSM_VIDC_DRAIN_LAST_BUFFER).
Definition msm_vidc_allow_psc_last_flag (i : msm_vidc_inst) : bool :=
  is_sub_state i MSM_VIDC_DRC && is_sub_state i MSM_VIDC_INPUT_PAUSE
  && negb (is_sub_state i MSM_VIDC_DRC_LAST_BUFFER).

(** ** Changes of the state by the streaming of the ports *)
Definition msm_vidc_state_change_streamon (port : msm_vidc_port_type) (i : msm_vidc_inst) : Z * msm_vidc_inst :=
  match port with
  | INPUT_META_PORT | OUTPUT_META_PORT => (0, i)
  | _ =>
      let new_state :=
        match port, inst_state i with
        | INPUT_PORT, MSM_VIDC_OPEN => MSM_VIDC_INPUT_STREAMING
        | INPUT_PORT, MSM_VIDC_OUTPUT_STREAMING => MSM_VIDC_STREAMING
        | OUTPUT_PORT, MSM_VIDC_OPEN => MSM_VIDC_OUTPUT_STREAMING
        | OUTPUT_PORT, MSM_VIDC_INPUT_STREAMING => MSM_VIDC_STREAMING
        | _, _ => MSM_VIDC_ERROR
        end in
      msm_vidc_change_state new_state i
  end.

Definition msm_vidc_state_change_streamoff (port : msm_vidc_port_type) (i : msm_vidc_inst) : Z * msm_vidc_inst :=
  match port with
  | INPUT_META_PORT | OUTPUT_META_PORT => (0, i)
  | _ =>
      let new_state :=
        match port, inst_state i with
        | INPUT_PORT, MSM_VIDC_INPUT_STREAMING => MSM_VIDC_OPEN
        | INPUT_PORT, MSM_VIDC_STREAMING => MSM_VIDC_OUTPUT_STREAMING
        | OUTPUT_PORT, MSM_VIDC_OUTPUT_STREAMING => MSM_VIDC_OPEN
        | OUTPUT_PORT, MSM_VIDC_STREAMING => MSM_VIDC_INPUT_STREAMING
        | _, _ => MSM_VIDC_ERROR
        end in
      msm_vidc_change_state new_state i
  end.

Definition msm_vidc_state_change_input_psc (i : msm_vidc_inst) : Z * msm_vidc_inst :=
  let set_sub_state :=
    match inst_state i with
    | MSM_VIDC_INPUT_STREAMING | MSM_VIDC_OPEN => Z.lor MSM_VIDC_INPUT_PAUSE MSM_VIDC_FIRST_IPSC
    | _ => Z.lor MSM_VIDC_DRC MSM_VIDC_INPUT_PAUSE
    end in
  msm_vidc_change_sub_state 0 set_sub_state i.
Definition msm_vidc_state_change_drain_last_flag (i : msm_vidc_inst) : Z * msm_vidc_inst :=
  msm_vidc_change_sub_state 0 (Z.lor MSM_VIDC_DRAIN_LAST_BUFFER MSM_VIDC_OUTPUT_PAUSE) i.
Definition msm_vidc_state_change_psc_last_flag (i : msm_vidc_inst) : Z * msm_vidc_inst :=
  msm_vidc_change_sub_state 0 (Z.lor MSM_VIDC_DRC_LAST_BUFFER MSM_VIDC_OUTPUT_PAUSE) i.

(** ** What the firmware reports *)

(** enum signal_session_response *)
Inductive signal_session_response : Type :=
| SIGNAL_CMD_STOP_INPUT
| SIGNAL_CMD_STOP_OUTPUT
| SIGNAL_CMD_CLOSE.
#[export] Instance signal_eq_dec : EqDecision signal_session_response.
Proof. solve_decision. Defined.
Definition signal_index (cmd : signal_session_response) : nat :=
  match cmd with SIGNAL_CMD_STOP_INPUT => 0 | SIGNAL_CMD_STOP_OUTPUT => 1 | SIGNAL_CMD_CLOSE => 2 end.
Definition signal_count (cmd : signal_session_response) (i : msm_vidc_inst) : Z :=
  default 0 (inst_signals i !! signal_index cmd).
Definition add_signal (d : Z) (cmd : signal_session_response) (i : msm_vidc_inst) : msm_vidc_inst :=
  set_inst_signals (<[signal_index cmd := signal_count cmd i + d]> (inst_signals i)) i.
(** complete(&inst->completions[cmd]) *)
Definition signal_session_msg_receipt (cmd : signal_session_response) : msm_vidc_inst -> msm_vidc_inst :=
  add_signal 1 cmd.

(** [k] unless [r] is a failure. *)
Definition inst_then (r : Z * msm_vidc_inst) (k : msm_vidc_inst -> Z * msm_vidc_inst) : Z * msm_vidc_inst :=
  if fst r =? 0 then k (snd r) else r.

(** The session goes into its error state, and what the reports of the
    firmware and of the driver's own functions do then is ignored. *)
Definition inst_error (i : msm_vidc_inst) : msm_vidc_inst := snd (msm_vidc_change_state MSM_VIDC_ERROR i).

Definition msm_vidc_process_stop_done (signal_type : signal_session_response) (i : msm_vidc_inst) :
    Z * msm_vidc_inst :=
  let input := bool_decide (signal_type = SIGNAL_CMD_STOP_INPUT) in
  let i :=
    if input && is_sub_state i MSM_VIDC_DRC && negb (is_sub_state i MSM_VIDC_DRC_LAST_BUFFER)
    then inst_error i else i in
  let i :=
    if input && is_decode_session (inst_domain i) && is_sub_state i MSM_VIDC_DRAIN
       && negb (is_sub_state i MSM_VIDC_DRAIN_LAST_BUFFER)
    then inst_error i else i in
  let set_sub_state :=
    match signal_type with
    | SIGNAL_CMD_STOP_INPUT => MSM_VIDC_INPUT_PAUSE
    | SIGNAL_CMD_STOP_OUTPUT => MSM_VIDC_OUTPUT_PAUSE
    | SIGNAL_CMD_CLOSE => MSM_VIDC_SUB_STATE_NONE
    end in
  inst_then (msm_vidc_change_sub_state 0 set_sub_state i)
    (fun i => (0, signal_session_msg_receipt signal_type i)).

Definition msm_vidc_process_drain_done (i : msm_vidc_inst) : Z * msm_vidc_inst :=
  if is_sub_state i MSM_VIDC_DRAIN then msm_vidc_change_sub_state 0 MSM_VIDC_INPUT_PAUSE i else (0, i).

Definition V4L2_EVENT_EOS : Z := 2.
Definition v4l2_event_queue_fh (type : Z) (i : msm_vidc_inst) : msm_vidc_inst :=
  set_inst_events (inst_events i ++ [type]) i.
Definition last_flag_event (i : msm_vidc_inst) : Z * msm_vidc_inst :=
  (0, if inst_last_flag_event i then v4l2_event_queue_fh V4L2_EVENT_EOS i else i).
Definition msm_vidc_process_drain_last_flag (i : msm_vidc_inst) : Z * msm_vidc_inst :=
  inst_then (msm_vidc_state_change_drain_last_flag i) last_flag_event.
Definition msm_vidc_process_psc_last_flag (i : msm_vidc_inst) : Z * msm_vidc_inst :=
  inst_then (msm_vidc_state_change_psc_last_flag i) last_flag_event.
