(* ===== verification/VidcCore.v ===== *)
(** The core of the video driver: the part of struct msm_vidc_core behind its
    commands and its power, the operations on it, and the core's state machine
    (video-driver/driver/vidc/src/msm_vidc_state.c).

    Every function of the driver below is an operation: it takes the core and
    comes back with a result and the core it leaves.  What the kernel, the
    secure world and the hardware answer is [answer]; an operation that asks
    takes the next answer. *)
From S2P Require Import Prelude VidcQueue VidcMem VidcHfi VidcPacket VidcBuffer VidcSession.

Definition EAGAIN : Z := 11.
Definition ETIME : Z := 62.
Definition ETIMEDOUT : Z := 110.

(** ** Data *)

(** enum msm_vidc_core_sub_state *)
Definition CORE_SUBSTATE_NONE : Z := 0.
Definition CORE_SUBSTATE_POWER_ENABLE : Z := 1.
Definition CORE_SUBSTATE_GDSC_HANDOFF : Z := 2.
Definition CORE_SUBSTATE_PM_SUSPEND : Z := 4.
Definition CORE_SUBSTATE_FW_PWR_CTRL : Z := 8.
Definition CORE_SUBSTATE_PAGE_FAULT : Z := 16.
Definition CORE_SUBSTATE_CPU_WATCHDOG : Z := 32.
Definition CORE_SUBSTATE_VIDEO_UNRESPONSIVE : Z := 64.
Definition CORE_SUBSTATE_MAX : Z := 128.

(** enum msm_vidc_core_event_type, and the handlers of its events. *)
Inductive msm_vidc_core_event_type : Type :=
| CORE_EVENT_NONE
| CORE_EVENT_UPDATE_SUB_STATE.
Inductive core_state_handle : Type :=
| msm_vidc_core_deinit_state
| msm_vidc_core_init_wait_state
| msm_vidc_core_init_state
| msm_vidc_core_error_state.

(** The resources of the core (inc/resources.h) with what is held of the
    kernel for them: how often a regulator and a clock are enabled, whether
    the regulator is in its fast mode, a reset line asserted or acquired, the
    bandwidth voted for on a bus. *)
Record regulator_info := {
  rg_name : string;
  rg_hw_power_collapse : bool;
  rg_enabled : Z;
  rg_fast : bool }.
Record clock_info := {
  ck_name : string;
  ck_has_scaling : bool;
  ck_prev : Z;
  ck_enabled : Z }.
Record reset_info := {
  rs_name : string;
  rs_exclusive_release : bool;
  rs_asserted : bool;
  rs_acquired : bool }.
Record bus_info := {
  bus_name : string;
  min_kbps : Z;
  max_kbps : Z;
  voted_kbps : Z }.
Record subcache_info := {
  sc_slice_id : Z;
  sc_slice_size : Z;
  sc_isactive : bool }.

(** struct msm_vidc_core_power *)
Record core_power := {
  bw_ddr : Z;
  bw_llcc : Z;
  clk_freq : Z }.

(** What the secure world holds of the firmware: whether it was authenticated
    and started, whether it was last told to run; and how many images of the
    firmware are requested from the kernel. *)
Record tz_state := {
  tz_loaded : bool;
  tz_running : bool;
  fw_images : Z }.

(** The core.  [vc_hfi] has its state, its lock and its queues; [vc_packet]
    is the buffer core->packet, 4096 bytes; [vc_pm_work] says whether pm_work
    is queued; [vc_irq_depth] how often the interrupt line is disabled;
    [vc_instances] are the sessions of the core, [vc_dangling] those taken
    from it; [vc_fw_version] is the version text of the firmware; [vc_writes] are the registers written with their values, the last one
    first; [vc_answers] counts the answers taken. *)
Record vidc_core := {
  vc_hfi : msm_vidc_core;
  vc_state_handle : option core_state_handle;
  vc_sub_state : Z;
  vc_ids : hfi_ids;
  vc_packet : list Z;
  vc_skip_pc : Z;
  vc_pm_work : bool;
  vc_fw_cookie : Z;
  vc_intr_status : Z;
  vc_power : core_power;
  vc_regulators : list regulator_info;
  vc_clocks : list clock_info;
  vc_resets : list reset_info;
  vc_buses : list bus_info;
  vc_subcaches : list subcache_info;
  vc_set_to_fw : bool;
  vc_irq_depth : Z;
  vc_tz : tz_state;
  vc_instances : list msm_vidc_inst;
  vc_dangling : list msm_vidc_inst;
  vc_fw_version : list Z;
  vc_writes : list (Z * Z);
  vc_answers : nat }.

Definition set_hfi (x : msm_vidc_core) (s : vidc_core) : vidc_core :=
  {| vc_hfi := x; vc_state_handle := vc_state_handle s; vc_sub_state := vc_sub_state s;
     vc_ids := vc_ids s; vc_packet := vc_packet s; vc_skip_pc := vc_skip_pc s;
     vc_pm_work := vc_pm_work s; vc_fw_cookie := vc_fw_cookie s;
     vc_intr_status := vc_intr_status s; vc_power := vc_power s;
     vc_regulators := vc_regulators s; vc_clocks := vc_clocks s; vc_resets := vc_resets s;
     vc_buses := vc_buses s; vc_subcaches := vc_subcaches s; vc_set_to_fw := vc_set_to_fw s;
     vc_irq_depth := vc_irq_depth s; vc_tz := vc_tz s; vc_instances := vc_instances s;
     vc_dangling := vc_dangling s; vc_fw_version := vc_fw_version s; vc_writes := vc_writes s;
     vc_answers := vc_answers s |}.
Definition set_state_handle (x : option core_state_handle) (s : vidc_core) : vidc_core :=
  {| vc_hfi := vc_hfi s; vc_state_handle := x; vc_sub_state := vc_sub_state s;
     vc_ids := vc_ids s; vc_packet := vc_packet s; vc_skip_pc := vc_skip_pc s;
     vc_pm_work := vc_pm_work s; vc_fw_cookie := vc_fw_cookie s;
     vc_intr_status := vc_intr_status s; vc_power := vc_power s;
     vc_regulators := vc_regulators s; vc_clocks := vc_clocks s; vc_resets := vc_resets s;
     vc_buses := vc_buses s; vc_subcaches := vc_subcaches s; vc_set_to_fw := vc_set_to_fw s;
     vc_irq_depth := vc_irq_depth s; vc_tz := vc_tz s; vc_instances := vc_instances s;
     vc_dangling := vc_dangling s; vc_fw_version := vc_fw_version s; vc_writes := vc_writes s;
     vc_answers := vc_answers s |}.
Definition set_sub_state (x : Z) (s : vidc_core) : vidc_core :=
  {| vc_hfi := vc_hfi s; vc_state_handle := vc_state_handle s; vc_sub_state := x;
     vc_ids := vc_ids s; vc_packet := vc_packet s; vc_skip_pc := vc_skip_pc s;
     vc_pm_work := vc_pm_work s; vc_fw_cookie := vc_fw_cookie s;
     vc_intr_status := vc_intr_status s; vc_power := vc_power s;
     vc_regulators := vc_regulators s; vc_clocks := vc_clocks s; vc_resets := vc_resets s;
     vc_buses := vc_buses s; vc_subcaches := vc_subcaches s; vc_set_to_fw := vc_set_to_fw s;
     vc_irq_depth := vc_irq_depth s; vc_tz := vc_tz s; vc_instances := vc_instances s;
     vc_dangling := vc_dangling s; vc_fw_version := vc_fw_version s; vc_writes := vc_writes s;
     vc_answers := vc_answers s |}.
Definition set_ids (x : hfi_ids) (s : vidc_core) : vidc_core :=
  {| vc_hfi := vc_hfi s; vc_state_handle := vc_state_handle s; vc_sub_state := vc_sub_state s;
     vc_ids := x; vc_packet := vc_packet s; vc_skip_pc := vc_skip_pc s;
     vc_pm_work := vc_pm_work s; vc_fw_cookie := vc_fw_cookie s;
     vc_intr_status := vc_intr_status s; vc_power := vc_power s;
     vc_regulators := vc_regulators s; vc_clocks := vc_clocks s; vc_resets := vc_resets s;
     vc_buses := vc_buses s; vc_subcaches := vc_subcaches s; vc_set_to_fw := vc_set_to_fw s;
     vc_irq_depth := vc_irq_depth s; vc_tz := vc_tz s; vc_instances := vc_instances s;
     vc_dangling := vc_dangling s; vc_fw_version := vc_fw_version s; vc_writes := vc_writes s;
     vc_answers := vc_answers s |}.
Definition set_packet (x : list Z) (s : vidc_core) : vidc_core :=
  {| vc_hfi := vc_hfi s; vc_state_handle := vc_state_handle s; vc_sub_state := vc_sub_state s;
     vc_ids := vc_ids s; vc_packet := x; vc_skip_pc := vc_skip_pc s; vc_pm_work := vc_pm_work s;
     vc_fw_cookie := vc_fw_cookie s; vc_intr_status := vc_intr_status s; vc_power := vc_power s;
     vc_regulators := vc_regulators s; vc_clocks := vc_clocks s; vc_resets := vc_resets s;
     vc_buses := vc_buses s; vc_subcaches := vc_subcaches s; vc_set_to_fw := vc_set_to_fw s;
     vc_irq_depth := vc_irq_depth s; vc_tz := vc_tz s; vc_instances := vc_instances s;
     vc_dangling := vc_dangling s; vc_fw_version := vc_fw_version s; vc_writes := vc_writes s;
     vc_answers := vc_answers s |}.
Definition set_skip_pc (x : Z) (s : vidc_core) : vidc_core :=
  {| vc_hfi := vc_hfi s; vc_state_handle := vc_state_handle s; vc_sub_state := vc_sub_state s;
     vc_ids := vc_ids s; vc_packet := vc_packet s; vc_skip_pc := x; vc_pm_work := vc_pm_work s;
     vc_fw_cookie := vc_fw_cookie s; vc_intr_status := vc_intr_status s; vc_power := vc_power s;
     vc_regulators := vc_regulators s; vc_clocks := vc_clocks s; vc_resets := vc_resets s;
     vc_buses := vc_buses s; vc_subcaches := vc_subcaches s; vc_set_to_fw := vc_set_to_fw s;
     vc_irq_depth := vc_irq_depth s; vc_tz := vc_tz s; vc_instances := vc_instances s;
     vc_dangling := vc_dangling s; vc_fw_version := vc_fw_version s; vc_writes := vc_writes s;
     vc_answers := vc_answers s |}.
Definition set_pm_work (x : bool) (s : vidc_core) : vidc_core :=
  {| vc_hfi := vc_hfi s; vc_state_handle := vc_state_handle s; vc_sub_state := vc_sub_state s;
     vc_ids := vc_ids s; vc_packet := vc_packet s; vc_skip_pc := vc_skip_pc s; vc_pm_work := x;
     vc_fw_cookie := vc_fw_cookie s; vc_intr_status := vc_intr_status s; vc_power := vc_power s;
     vc_regulators := vc_regulators s; vc_clocks := vc_clocks s; vc_resets := vc_resets s;
     vc_buses := vc_buses s; vc_subcaches := vc_subcaches s; vc_set_to_fw := vc_set_to_fw s;
     vc_irq_depth := vc_irq_depth s; vc_tz := vc_tz s; vc_instances := vc_instances s;
     vc_dangling := vc_dangling s; vc_fw_version := vc_fw_version s; vc_writes := vc_writes s;
     vc_answers := vc_answers s |}.
Definition set_fw_cookie (x : Z) (s : vidc_core) : vidc_core :=
  {| vc_hfi := vc_hfi s; vc_state_handle := vc_state_handle s; vc_sub_state := vc_sub_state s;
     vc_ids := vc_ids s; vc_packet := vc_packet s; vc_skip_pc := vc_skip_pc s;
     vc_pm_work := vc_pm_work s; vc_fw_cookie := x; vc_intr_status := vc_intr_status s;
     vc_power := vc_power s; vc_regulators := vc_regulators s; vc_clocks := vc_clocks s;
     vc_resets := vc_resets s; vc_buses := vc_buses s; vc_subcaches := vc_subcaches s;
     vc_set_to_fw := vc_set_to_fw s; vc_irq_depth := vc_irq_depth s; vc_tz := vc_tz s;
     vc_instances := vc_instances s; vc_dangling := vc_dangling s;
     vc_fw_version := vc_fw_version s; vc_writes := vc_writes s; vc_answers := vc_answers s |}.
Definition set_intr_status (x : Z) (s : vidc_core) : vidc_core :=
  {| vc_hfi := vc_hfi s; vc_state_handle := vc_state_handle s; vc_sub_state := vc_sub_state s;
     vc_ids := vc_ids s; vc_packet := vc_packet s; vc_skip_pc := vc_skip_pc s;
     vc_pm_work := vc_pm_work s; vc_fw_cookie := vc_fw_cookie s; vc_intr_status := x;
     vc_power := vc_power s; vc_regulators := vc_regulators s; vc_clocks := vc_clocks s;
     vc_resets := vc_resets s; vc_buses := vc_buses s; vc_subcaches := vc_subcaches s;
     vc_set_to_fw := vc_set_to_fw s; vc_irq_depth := vc_irq_depth s; vc_tz := vc_tz s;
     vc_instances := vc_instances s; vc_dangling := vc_dangling s;
     vc_fw_version := vc_fw_version s; vc_writes := vc_writes s; vc_answers := vc_answers s |}.
Definition set_power (x : core_power) (s : vidc_core) : vidc_core :=
  {| vc_hfi := vc_hfi s; vc_state_handle := vc_state_handle s; vc_sub_state := vc_sub_state s;
     vc_ids := vc_ids s; vc_packet := vc_packet s; vc_skip_pc := vc_skip_pc s;
     vc_pm_work := vc_pm_work s; vc_fw_cookie := vc_fw_cookie s;
     vc_intr_status := vc_intr_status s; vc_power := x; vc_regulators := vc_regulators s;
     vc_clocks := vc_clocks s; vc_resets := vc_resets s; vc_buses := vc_buses s;
     vc_subcaches := vc_subcaches s; vc_set_to_fw := vc_set_to_fw s;
     vc_irq_depth := vc_irq_depth s; vc_tz := vc_tz s; vc_instances := vc_instances s;
     vc_dangling := vc_dangling s; vc_fw_version := vc_fw_version s; vc_writes := vc_writes s;
     vc_answers := vc_answers s |}.
Definition set_regulators (x : list regulator_info) (s : vidc_core) : vidc_core :=
  {| vc_hfi := vc_hfi s; vc_state_handle := vc_state_handle s; vc_sub_state := vc_sub_state s;
     vc_ids := vc_ids s; vc_packet := vc_packet s; vc_skip_pc := vc_skip_pc s;
     vc_pm_work := vc_pm_work s; vc_fw_cookie := vc_fw_cookie s;
     vc_intr_status := vc_intr_status s; vc_power := vc_power s; vc_regulators := x;
     vc_clocks := vc_clocks s; vc_resets := vc_resets s; vc_buses := vc_buses s;
     vc_subcaches := vc_subcaches s; vc_set_to_fw := vc_set_to_fw s;
     vc_irq_depth := vc_irq_depth s; vc_tz := vc_tz s; vc_instances := vc_instances s;
     vc_dangling := vc_dangling s; vc_fw_version := vc_fw_version s; vc_writes := vc_writes s;
     vc_answers := vc_answers s |}.
Definition set_clocks (x : list clock_info) (s : vidc_core) : vidc_core :=
  {| vc_hfi := vc_hfi s; vc_state_handle := vc_state_handle s; vc_sub_state := vc_sub_state s;
     vc_ids := vc_ids s; vc_packet := vc_packet s; vc_skip_pc := vc_skip_pc s;
     vc_pm_work := vc_pm_work s; vc_fw_cookie := vc_fw_cookie s;
     vc_intr_status := vc_intr_status s; vc_power := vc_power s;
     vc_regulators := vc_regulators s; vc_clocks := x; vc_resets := vc_resets s;
     vc_buses := vc_buses s; vc_subcaches := vc_subcaches s; vc_set_to_fw := vc_set_to_fw s;
     vc_irq_depth := vc_irq_depth s; vc_tz := vc_tz s; vc_instances := vc_instances s;
     vc_dangling := vc_dangling s; vc_fw_version := vc_fw_version s; vc_writes := vc_writes s;
     vc_answers := vc_answers s |}.
Definition set_resets (x : list reset_info) (s : vidc_core) : vidc_core :=
  {| vc_hfi := vc_hfi s; vc_state_handle := vc_state_handle s; vc_sub_state := vc_sub_state s;
     vc_ids := vc_ids s; vc_packet := vc_packet s; vc_skip_pc := vc_skip_pc s;
     vc_pm_work := vc_pm_work s; vc_fw_cookie := vc_fw_cookie s;
     vc_intr_status := vc_intr_status s; vc_power := vc_power s;
     vc_regulators := vc_regulators s; vc_clocks := vc_clocks s; vc_resets := x;
     vc_buses := vc_buses s; vc_subcaches := vc_subcaches s; vc_set_to_fw := vc_set_to_fw s;
     vc_irq_depth := vc_irq_depth s; vc_tz := vc_tz s; vc_instances := vc_instances s;
     vc_dangling := vc_dangling s; vc_fw_version := vc_fw_version s; vc_writes := vc_writes s;
     vc_answers := vc_answers s |}.
Definition set_buses (x : list bus_info) (s : vidc_core) : vidc_core :=
  {| vc_hfi := vc_hfi s; vc_state_handle := vc_state_handle s; vc_sub_state := vc_sub_state s;
     vc_ids := vc_ids s; vc_packet := vc_packet s; vc_skip_pc := vc_skip_pc s;
     vc_pm_work := vc_pm_work s; vc_fw_cookie := vc_fw_cookie s;
     vc_intr_status := vc_intr_status s; vc_power := vc_power s;
     vc_regulators := vc_regulators s; vc_clocks := vc_clocks s; vc_resets := vc_resets s;
     vc_buses := x; vc_subcaches := vc_subcaches s; vc_set_to_fw := vc_set_to_fw s;
     vc_irq_depth := vc_irq_depth s; vc_tz := vc_tz s; vc_instances := vc_instances s;
     vc_dangling := vc_dangling s; vc_fw_version := vc_fw_version s; vc_writes := vc_writes s;
     vc_answers := vc_answers s |}.
Definition set_subcaches (x : list subcache_info) (s : vidc_core) : vidc_core :=
  {| vc_hfi := vc_hfi s; vc_state_handle := vc_state_handle s; vc_sub_state := vc_sub_state s;
     vc_ids := vc_ids s; vc_packet := vc_packet s; vc_skip_pc := vc_skip_pc s;
     vc_pm_work := vc_pm_work s; vc_fw_cookie := vc_fw_cookie s;
     vc_intr_status := vc_intr_status s; vc_power := vc_power s;
     vc_regulators := vc_regulators s; vc_clocks := vc_clocks s; vc_resets := vc_resets s;
     vc_buses := vc_buses s; vc_subcaches := x; vc_set_to_fw := vc_set_to_fw s;
     vc_irq_depth := vc_irq_depth s; vc_tz := vc_tz s; vc_instances := vc_instances s;
     vc_dangling := vc_dangling s; vc_fw_version := vc_fw_version s; vc_writes := vc_writes s;
     vc_answers := vc_answers s |}.
Definition set_set_to_fw (x : bool) (s : vidc_core) : vidc_core :=
  {| vc_hfi := vc_hfi s; vc_state_handle := vc_state_handle s; vc_sub_state := vc_sub_state s;
     vc_ids := vc_ids s; vc_packet := vc_packet s; vc_skip_pc := vc_skip_pc s;
     vc_pm_work := vc_pm_work s; vc_fw_cookie := vc_fw_cookie s;
     vc_intr_status := vc_intr_status s; vc_power := vc_power s;
     vc_regulators := vc_regulators s; vc_clocks := vc_clocks s; vc_resets := vc_resets s;
     vc_buses := vc_buses s; vc_subcaches := vc_subcaches s; vc_set_to_fw := x;
     vc_irq_depth := vc_irq_depth s; vc_tz := vc_tz s; vc_instances := vc_instances s;
     vc_dangling := vc_dangling s; vc_fw_version := vc_fw_version s; vc_writes := vc_writes s;
     vc_answers := vc_answers s |}.
Definition set_irq_depth (x : Z) (s : vidc_core) : vidc_core :=
  {| vc_hfi := vc_hfi s; vc_state_handle := vc_state_handle s; vc_sub_state := vc_sub_state s;
     vc_ids := vc_ids s; vc_packet := vc_packet s; vc_skip_pc := vc_skip_pc s;
     vc_pm_work := vc_pm_work s; vc_fw_cookie := vc_fw_cookie s;
     vc_intr_status := vc_intr_status s; vc_power := vc_power s;
     vc_regulators := vc_regulators s; vc_clocks := vc_clocks s; vc_resets := vc_resets s;
     vc_buses := vc_buses s; vc_subcaches := vc_subcaches s; vc_set_to_fw := vc_set_to_fw s;
     vc_irq_depth := x; vc_tz := vc_tz s; vc_instances := vc_instances s;
     vc_dangling := vc_dangling s; vc_fw_version := vc_fw_version s; vc_writes := vc_writes s;
     vc_answers := vc_answers s |}.
Definition set_tz (x : tz_state) (s : vidc_core) : vidc_core :=
  {| vc_hfi := vc_hfi s; vc_state_handle := vc_state_handle s; vc_sub_state := vc_sub_state s;
     vc_ids := vc_ids s; vc_packet := vc_packet s; vc_skip_pc := vc_skip_pc s;
     vc_pm_work := vc_pm_work s; vc_fw_cookie := vc_fw_cookie s;
     vc_intr_status := vc_intr_status s; vc_power := vc_power s;
     vc_regulators := vc_regulators s; vc_clocks := vc_clocks s; vc_resets := vc_resets s;
     vc_buses := vc_buses s; vc_subcaches := vc_subcaches s; vc_set_to_fw := vc_set_to_fw s;
     vc_irq_depth := vc_irq_depth s; vc_tz := x; vc_instances := vc_instances s;
     vc_dangling := vc_dangling s; vc_fw_version := vc_fw_version s; vc_writes := vc_writes s;
     vc_answers := vc_answers s |}.
Definition set_instances (x : list msm_vidc_inst) (s : vidc_core) : vidc_core :=
  {| vc_hfi := vc_hfi s; vc_state_handle := vc_state_handle s; vc_sub_state := vc_sub_state s;
     vc_ids := vc_ids s; vc_packet := vc_packet s; vc_skip_pc := vc_skip_pc s;
     vc_pm_work := vc_pm_work s; vc_fw_cookie := vc_fw_cookie s;
     vc_intr_status := vc_intr_status s; vc_power := vc_power s;
     vc_regulators := vc_regulators s; vc_clocks := vc_clocks s; vc_resets := vc_resets s;
     vc_buses := vc_buses s; vc_subcaches := vc_subcaches s; vc_set_to_fw := vc_set_to_fw s;
     vc_irq_depth := vc_irq_depth s; vc_tz := vc_tz s; vc_instances := x;
     vc_dangling := vc_dangling s; vc_fw_version := vc_fw_version s; vc_writes := vc_writes s;
     vc_answers := vc_answers s |}.
Definition set_dangling (x : list msm_vidc_inst) (s : vidc_core) : vidc_core :=
  {| vc_hfi := vc_hfi s; vc_state_handle := vc_state_handle s; vc_sub_state := vc_sub_state s;
     vc_ids := vc_ids s; vc_packet := vc_packet s; vc_skip_pc := vc_skip_pc s;
     vc_pm_work := vc_pm_work s; vc_fw_cookie := vc_fw_cookie s;
     vc_intr_status := vc_intr_status s; vc_power := vc_power s;
     vc_regulators := vc_regulators s; vc_clocks := vc_clocks s; vc_resets := vc_resets s;
     vc_buses := vc_buses s; vc_subcaches := vc_subcaches s; vc_set_to_fw := vc_set_to_fw s;
     vc_irq_depth := vc_irq_depth s; vc_tz := vc_tz s; vc_instances := vc_instances s;
     vc_dangling := x; vc_fw_version := vc_fw_version s; vc_writes := vc_writes s;
     vc_answers := vc_answers s |}.
Definition set_fw_version (x : list Z) (s : vidc_core) : vidc_core :=
  {| vc_hfi := vc_hfi s; vc_state_handle := vc_state_handle s; vc_sub_state := vc_sub_state s;
     vc_ids := vc_ids s; vc_packet := vc_packet s; vc_skip_pc := vc_skip_pc s;
     vc_pm_work := vc_pm_work s; vc_fw_cookie := vc_fw_cookie s;
     vc_intr_status := vc_intr_status s; vc_power := vc_power s;
     vc_regulators := vc_regulators s; vc_clocks := vc_clocks s; vc_resets := vc_resets s;
     vc_buses := vc_buses s; vc_subcaches := vc_subcaches s; vc_set_to_fw := vc_set_to_fw s;
     vc_irq_depth := vc_irq_depth s; vc_tz := vc_tz s; vc_instances := vc_instances s;
     vc_dangling := vc_dangling s; vc_fw_version := x; vc_writes := vc_writes s;
     vc_answers := vc_answers s |}.
Definition set_writes (x : list (Z * Z)) (s : vidc_core) : vidc_core :=
  {| vc_hfi := vc_hfi s; vc_state_handle := vc_state_handle s; vc_sub_state := vc_sub_state s;
     vc_ids := vc_ids s; vc_packet := vc_packet s; vc_skip_pc := vc_skip_pc s;
     vc_pm_work := vc_pm_work s; vc_fw_cookie := vc_fw_cookie s;
     vc_intr_status := vc_intr_status s; vc_power := vc_power s;
     vc_regulators := vc_regulators s; vc_clocks := vc_clocks s; vc_resets := vc_resets s;
     vc_buses := vc_buses s; vc_subcaches := vc_subcaches s; vc_set_to_fw := vc_set_to_fw s;
     vc_irq_depth := vc_irq_depth s; vc_tz := vc_tz s; vc_instances := vc_instances s;
     vc_dangling := vc_dangling s; vc_fw_version := vc_fw_version s; vc_writes := x;
     vc_answers := vc_answers s |}.
Definition set_answers (x : nat) (s : vidc_core) : vidc_core :=
  {| vc_hfi := vc_hfi s; vc_state_handle := vc_state_handle s; vc_sub_state := vc_sub_state s;
     vc_ids := vc_ids s; vc_packet := vc_packet s; vc_skip_pc := vc_skip_pc s;
     vc_pm_work := vc_pm_work s; vc_fw_cookie := vc_fw_cookie s;
     vc_intr_status := vc_intr_status s; vc_power := vc_power s;
     vc_regulators := vc_regulators s; vc_clocks := vc_clocks s; vc_resets := vc_resets s;
     vc_buses := vc_buses s; vc_subcaches := vc_subcaches s; vc_set_to_fw := vc_set_to_fw s;
     vc_irq_depth := vc_irq_depth s; vc_tz := vc_tz s; vc_instances := vc_instances s;
     vc_dangling := vc_dangling s; vc_fw_version := vc_fw_version s; vc_writes := vc_writes s;
     vc_answers := x |}.

(** ** Operations *)
(** What the driver asks the kernel, the secure world and the hardware. *)
Inductive question : Type :=
| QResetAcquire (name : string)
| QResetAssert (name : string)
| QResetDeassert (name : string)
| QRegulatorMode (name : string) (fast : bool)
| QRegulatorEnable (name : string)
| QRegulatorDisable (name : string)
| QRegulatorIsEnabled (name : string)
| QClockLowRate (name : string)
| QClockRate (name : string) (rate : Z)
| QClockEnable (name : string)
| QClockIsEnabled (name : string)
| QBusVote (name : string) (kbps : Z)
| QSliceActivate (id : Z)
| QSliceDeactivate (id : Z)
| QRead (reg : Z)
| QPoll (reg mask value : Z)
| QAlloc
| QWorkqueue
| QRequestIrq
| QMemoryRegion
| QRegionAddress
| QRequestFirmware
| QFirmwareSize
| QRemap
| QLoadSegments
| QAuthAndReset
| QShutdown
| QProtect
| QRemoteState (resume : bool)
| QInstRef (id : Z).
(** The answers: to the question asked as the [n]-th one. *)
Class VidcKernel := { answer : nat -> question -> Z }.

Definition op : Type := vidc_core -> exec (Z * vidc_core).
Definition ret (rc : Z) : op := fun s => Done (rc, s).
Definition bind_op (m : op) (k : Z -> op) : op := fun s => r ← m s; k (fst r) (snd r).
(** [k] unless [m] fails (if (rc) return rc or goto); [k] whatever [m] returns;
    [cleanup] after a failure of [m], whose result stays. *)
Definition and_then (m k : op) : op := bind_op m (fun rc => if rc =? 0 then k else ret rc).
Definition after (m k : op) : op := bind_op m (fun _ => k).
Definition undo (cleanup m : op) : op :=
  bind_op m (fun rc => if rc =? 0 then ret 0 else after cleanup (ret rc)).
(** An operation that depends on the core, and one that changes it. *)
Definition looking {A} (f : vidc_core -> A) (k : A -> op) : op := fun s => k (f s) s.
Definition upd (f : vidc_core -> vidc_core) : op := fun s => Done (0, f s).

Declare Scope vidc_scope.
Delimit Scope vidc_scope with vidc.
Open Scope vidc_scope.
Notation "m ';?' k" := (and_then m k) (at level 60, right associativity) : vidc_scope.
Notation "m ';!' k" := (after m k) (at level 60, right associativity) : vidc_scope.

Section Operations.
Context `{VidcKernel}.

(** A question, and a call whose result is the answer. *)
Definition ask (q : question) (k : Z -> op) : op :=
  fun s => k (answer (vc_answers s) q) (set_answers (S (vc_answers s)) s).
Definition call (q : question) : op := ask q ret.

(** core_lock waits for ever when the caller holds the lock. *)
Definition with_locked (b : bool) (c : msm_vidc_core) : msm_vidc_core :=
  {| core_state := core_state c; core_locked := b; supports_synx_fence := supports_synx_fence c;
     iface_queues := iface_queues c; q_tbl_hdr := q_tbl_hdr c; iface_q_table := iface_q_table c;
     sfr := sfr c; mmap_buf := mmap_buf c; aon_reg := aon_reg c; fence_reg := fence_reg c;
     qtimer_reg := qtimer_reg c; synx_queue := synx_queue c; interrupts := interrupts c;
     resources := resources c |}.
Definition core_lock : op := fun s =>
  if core_locked (vc_hfi s) then Timeout else Done (0, set_hfi (with_locked true (vc_hfi s)) s).
Definition core_unlock : op := upd (fun s => set_hfi (with_locked false (vc_hfi s)) s).
Definition locked (m : op) : op := core_lock ;! bind_op m (fun rc => core_unlock ;! ret rc).
Definition strict_check : op := looking (fun s => __strict_check (vc_hfi s)) ret.
End Operations.

(** ** The state machine of the core *)
Definition is_core_state (st : msm_vidc_core_state) (s : vidc_core) : bool :=
  bool_decide (core_state (vc_hfi s) = st).
Definition is_core_sub_state (sub_state : Z) (s : vidc_core) : bool :=
  negb (Z.land (vc_sub_state s) sub_state =? 0).

(** The handlers of the four states, which differ in their names only. *)
Definition core_state_event (h : core_state_handle) (type : msm_vidc_core_event_type) (uval : Z) : op :=
  match type with
  | CORE_EVENT_UPDATE_SUB_STATE =>
      let allow_mask := 0xffffffff in
      if Z.land uval allow_mask =? 0 then ret (- EINVAL)
      else upd (fun s => set_sub_state (Z.lor (vc_sub_state s) (Z.land uval allow_mask)) s)
  | CORE_EVENT_NONE => ret (- EINVAL)
  end.

Definition state_handle_table : list (msm_vidc_core_state * core_state_handle) :=
  [(MSM_VIDC_CORE_DEINIT, msm_vidc_core_deinit_state);
   (MSM_VIDC_CORE_INIT_WAIT, msm_vidc_core_init_wait_state);
   (MSM_VIDC_CORE_INIT, msm_vidc_core_init_state);
   (MSM_VIDC_CORE_ERROR, msm_vidc_core_error_state)].
Definition msm_vidc_get_core_state_handle (req_state : msm_vidc_core_state) :
    option (msm_vidc_core_state * core_state_handle) :=
  List.find (fun e => bool_decide (fst e = req_state)) state_handle_table.

Definition with_state (st : msm_vidc_core_state) (c : msm_vidc_core) : msm_vidc_core :=
  {| core_state := st; core_locked := core_locked c; supports_synx_fence := supports_synx_fence c;
     iface_queues := iface_queues c; q_tbl_hdr := q_tbl_hdr c; iface_q_table := iface_q_table c;
     sfr := sfr c; mmap_buf := mmap_buf c; aon_reg := aon_reg c; fence_reg := fence_reg c;
     qtimer_reg := qtimer_reg c; synx_queue := synx_queue c; interrupts := interrupts c;
     resources := resources c |}.
Definition msm_vidc_update_core_state (request_state : msm_vidc_core_state) : op :=
  match msm_vidc_get_core_state_handle request_state with
  | None => ret (- EINVAL)
  | Some (st, h) => upd (fun s => set_state_handle (Some h) (set_hfi (with_state st (vc_hfi s)) s))
  end.

Definition core_state_allow_table : list (msm_vidc_core_state * msm_vidc_core_state * msm_vidc_allow) :=
  [(MSM_VIDC_CORE_DEINIT, MSM_VIDC_CORE_DEINIT, MSM_VIDC_IGNORE);
   (MSM_VIDC_CORE_DEINIT, MSM_VIDC_CORE_INIT_WAIT, MSM_VIDC_ALLOW);
   (MSM_VIDC_CORE_DEINIT, MSM_VIDC_CORE_INIT, MSM_VIDC_DISALLOW);
   (MSM_VIDC_CORE_DEINIT, MSM_VIDC_CORE_ERROR, MSM_VIDC_IGNORE);
   (MSM_VIDC_CORE_INIT_WAIT, MSM_VIDC_CORE_DEINIT, MSM_VIDC_DISALLOW);
   (MSM_VIDC_CORE_INIT_WAIT, MSM_VIDC_CORE_INIT_WAIT, MSM_VIDC_IGNORE);
   (MSM_VIDC_CORE_INIT_WAIT, MSM_VIDC_CORE_INIT, MSM_VIDC_ALLOW);
   (MSM_VIDC_CORE_INIT_WAIT, MSM_VIDC_CORE_ERROR, MSM_VIDC_ALLOW);
   (MSM_VIDC_CORE_INIT, MSM_VIDC_CORE_DEINIT, MSM_VIDC_ALLOW);
   (MSM_VIDC_CORE_INIT, MSM_VIDC_CORE_INIT_WAIT, MSM_VIDC_DISALLOW);
   (MSM_VIDC_CORE_INIT, MSM_VIDC_CORE_INIT, MSM_VIDC_IGNORE);
   (MSM_VIDC_CORE_INIT, MSM_VIDC_CORE_ERROR, MSM_VIDC_ALLOW);
   (MSM_VIDC_CORE_ERROR, MSM_VIDC_CORE_DEINIT, MSM_VIDC_ALLOW);
   (MSM_VIDC_CORE_ERROR, MSM_VIDC_CORE_INIT_WAIT, MSM_VIDC_IGNORE);
   (MSM_VIDC_CORE_ERROR, MSM_VIDC_CORE_INIT, MSM_VIDC_IGNORE);
   (MSM_VIDC_CORE_ERROR, MSM_VIDC_CORE_ERROR, MSM_VIDC_IGNORE)].
Definition msm_vidc_allow_core_state_change (from to : msm_vidc_core_state) : msm_vidc_allow :=
  match List.find (fun e => bool_decide (fst e = (from, to))) core_state_allow_table with
  | Some (_, allow) => allow
  | None => MSM_VIDC_DISALLOW
  end.

Definition msm_vidc_change_core_state (request_state : msm_vidc_core_state) : op :=
  strict_check ;?
  looking (fun s => core_state (vc_hfi s)) (fun cur =>
  if bool_decide (cur = request_state) then ret 0
  else
    match msm_vidc_allow_core_state_change cur request_state with
    | MSM_VIDC_IGNORE => ret 0
    | MSM_VIDC_DISALLOW => ret (- EINVAL)
    | _ => msm_vidc_update_core_state request_state
    end).

Definition msm_vidc_update_core_sub_state (sub_state : Z) : op :=
  if sub_state =? 0 then ret 0
  else fun s =>
    h ← deref (vc_state_handle s);
    core_state_event h CORE_EVENT_UPDATE_SUB_STATE sub_state s.

Definition msm_vidc_change_core_sub_state (clear_sub_state set_sub : Z) : op :=
  strict_check ;?
  looking vc_state_handle (fun h =>
  match h with
  | None => ret (- EINVAL)
  | Some _ =>
      if clear_sub_state =? set_sub then ret 0
      else if (set_sub >? CORE_SUBSTATE_MAX) || (clear_sub_state >? CORE_SUBSTATE_MAX)
      then ret (- EINVAL)
      else
        msm_vidc_update_core_sub_state set_sub ;?
        upd (fun s => set_sub_state (Z.ldiff (vc_sub_state s) clear_sub_state) s)
  end).

(** ** Rules for operations

    Weakest preconditions, one rule per way of composing operations, and
    relations that operations respect. *)
Create HintDb does.

(** [m] comes back from [s] with a result and a core in [Q]; where it reads or
    writes through a bad pointer, or stops the kernel, [F] must hold. *)
Definition wp (F : Prop) (m : op) (s : vidc_core) (Q : Z -> vidc_core -> Prop) : Prop :=
  match m s with
  | Done (rc, s') => Q rc s'
  | Fault => F
  | Timeout => False
  end.

Section Rules.
Context (F : Prop).

Lemma wp_ret rc s (Q : Z -> vidc_core -> Prop) : Q rc s -> wp F (ret rc) s Q.
Proof. done. Qed.
Lemma wp_mono m s (Q Q' : Z -> vidc_core -> Prop) :
  wp F m s Q -> (forall rc s', Q rc s' -> Q' rc s') -> wp F m s Q'.
Proof. unfold wp. destruct (m s) as [[]| |]; auto. Qed.
Lemma wp_bind m k s Q : wp F m s (fun rc s' => wp F (k rc) s' Q) -> wp F (bind_op m k) s Q.
Proof. unfold wp, bind_op. destruct (m s) as [[rc s']| |]; cbn; auto. Qed.
Lemma wp_and_then m k s (Q : Z -> vidc_core -> Prop) :
  wp F m s (fun rc s' => if rc =? 0 then wp F k s' Q else Q rc s') -> wp F (and_then m k) s Q.
Proof.
  intros H. apply wp_bind. eapply wp_mono; [exact H|]. cbv beta. intros rc s'. now destruct (rc =? 0).
Qed.
Lemma wp_after m k s Q : wp F m s (fun _ s' => wp F k s' Q) -> wp F (after m k) s Q.
Proof. apply wp_bind. Qed.
Lemma wp_undo cleanup m s (Q : Z -> vidc_core -> Prop) :
  wp F m s (fun rc s' => if rc =? 0 then Q 0 s' else wp F cleanup s' (fun _ s'' => Q rc s'')) ->
  wp F (undo cleanup m) s Q.
Proof.
  intros H. apply wp_bind. eapply wp_mono; [exact H|]. cbv beta. intros rc s'. destruct (rc =? 0); [auto|].
  intros H'. apply wp_after. exact H'.
Qed.
Lemma wp_looking {A} (f : vidc_core -> A) k s Q : wp F (k (f s)) s Q -> wp F (looking f k) s Q.
Proof. done. Qed.
Lemma wp_upd f s (Q : Z -> vidc_core -> Prop) : Q 0 (f s) -> wp F (upd f) s Q.
Proof. done. Qed.
Lemma wp_ask `{VidcKernel} q k s Q :
  (forall a, wp F (k a) (set_answers (S (vc_answers s)) s) Q) -> wp F (ask q k) s Q.
Proof. intros Hk. apply Hk. Qed.

(** ** Relations between the core before and after *)

(** A condition under which operations run, and a relation between the core
    before and after them that composes, does not see how many questions were
    asked, and keeps the condition. *)
Record steps := {
  st_live : vidc_core -> Prop;
  st_rel : vidc_core -> vidc_core -> Prop;
  st_refl : forall s, st_rel s s;
  st_trans : forall s s' s'', st_rel s s' -> st_rel s' s'' -> st_rel s s'';
  st_keeps : forall s s', st_live s -> st_rel s s' -> st_live s';
  st_answers : forall s n, st_rel s (set_answers n s) }.

Section Does.
Context (S : steps).

Definition does (m : op) : Prop := forall s, st_live S s -> wp F m s (fun _ => st_rel S s).

Lemma does_ret rc : does (ret rc).
Proof. intros s _. apply wp_ret, (st_refl S). Qed.
Lemma does_bind m k : does m -> (forall rc, does (k rc)) -> does (bind_op m k).
Proof.
  intros Hm Hk s Hs. apply wp_bind. eapply wp_mono; [exact (Hm s Hs)|]. intros rc s' H'.
  eapply wp_mono; [exact (Hk rc s' (st_keeps S _ _ Hs H'))|]. intros rc' s''. now apply (st_trans S).
Qed.
Lemma does_and_then m k : does m -> does k -> does (and_then m k).
Proof. intros Hm Hk. apply does_bind; [done|]. intros rc. destruct (rc =? 0); [done|apply does_ret]. Qed.
Lemma does_after m k : does m -> does k -> does (after m k).
Proof. intros Hm Hk. now apply does_bind. Qed.
Lemma does_undo cleanup m : does m -> does cleanup -> does (undo cleanup m).
Proof.
  intros Hm Hc. apply does_bind; [done|]. intros rc. destruct (rc =? 0); [apply does_ret|].
  apply does_after; [done|apply does_ret].
Qed.
Lemma does_looking {A} (f : vidc_core -> A) k : (forall a, does (k a)) -> does (looking f k).
Proof. intros Hk s Hs. apply wp_looking. now apply Hk. Qed.
Lemma does_upd f : (forall s, st_live S s -> st_rel S s (f s)) -> does (upd f).
Proof. intros Hf s Hs. apply wp_upd. now apply Hf. Qed.
Lemma does_ask `{VidcKernel} q k : (forall a, does (k a)) -> does (ask q k).
Proof.
  intros Hk s Hs. apply wp_ask. intros a.
  pose proof (st_answers S s (Datatypes.S (vc_answers s))) as Ha.
  eapply wp_mono; [exact (Hk a _ (st_keeps S _ _ Hs Ha))|]. intros rc s'. now apply (st_trans S).
Qed.
Lemma does_call `{VidcKernel} q : does (call q).
Proof. apply does_ask. intros a. apply does_ret. Qed.
Lemma does_if (b : bool) m m' : does m -> does m' -> does (if b then m else m').
Proof. now destruct b. Qed.
Lemma does_fault : F -> does (fun _ => Fault).
Proof. intros HF s _. exact HF. Qed.
End Does.

(** A coarser relation. *)
Lemma does_sub (S S' : steps) m :
  (forall s, st_live S' s -> st_live S s) ->
  (forall s s', st_live S' s -> st_rel S s s' -> st_rel S' s s') -> does S m -> does S' m.
Proof.
  intros HL HR Hm s Hs. eapply wp_mono; [exact (Hm s (HL s Hs))|]. intros rc s'. now apply HR.
Qed.
End Rules.

Arguments does F S m : simpl never.
#[export] Hint Extern 1 (does _ _ (ret _)) => apply does_ret : does.
#[export] Hint Extern 1 (does _ _ (and_then _ _)) => apply does_and_then : does.
#[export] Hint Extern 1 (does _ _ (after _ _)) => apply does_after : does.
#[export] Hint Extern 1 (does _ _ (undo _ _)) => apply does_undo : does.
#[export] Hint Extern 1 (does _ _ (call _)) => apply does_call : does.
#[export] Hint Extern 1 (does _ _ (bind_op _ _)) => apply does_bind; [|intros ?] : does.
#[export] Hint Extern 1 (does _ _ (looking _ _)) => apply does_looking; intros ? : does.
#[export] Hint Extern 1 (does _ _ (ask _ _)) => apply does_ask; intros ? : does.
#[export] Hint Extern 2 (does _ _ (match ?x with _ => _ end)) => destruct x : does.

(** Takes an operation apart along the way it is composed. *)
Ltac does_auto := cbv zeta; auto 40 with does.
