(* ===== verification/VidcPower.v ===== *)
(** The power of the video core: its regulators, clocks, reset lines, buses and
    caches (video-driver/driver/vidc/src/resources.c, resources_ext.c), its
    registers (variant/common/src/msm_vidc_variant.c), and the sequences of
    the Iris2 variant that switch it on and off, start its firmware and
    prepare its power collapse (variant/iris2/src/msm_vidc_iris2.c). *)
From S2P Require Import Prelude VidcQueue VidcHfi VidcPacket VidcCore.

(** ** What the platform fixes *)

(** The capabilities and tables of the platform these functions read. *)
Class VidcConfig := {
  num_vpp_pipe : nat;
  syscache_off : bool;              (* msm_vidc_syscache_disable or no system cache *)
  freq_tbl : list Z;
  reg_prst_tbl : list (Z * Z * Z);  (* register, value, mask *)
  iface_q_table_vaddr : Z }.

(** ** Registers *)
Definition CPU_CS_A2HSOFTINTCLR_IRIS2 : Z := 0xA001C.
Definition CPU_CS_VCICMDARG0_IRIS2 : Z := 0xA0024.
Definition CPU_CS_VCICMDARG1_IRIS2 : Z := 0xA0028.
Definition CPU_CS_H2XSOFTINTEN_IRIS2 : Z := 0xA0148.
Definition CTRL_INIT_IRIS2 : Z := 0xA0048.
Definition CTRL_STATUS_IRIS2 : Z := 0xA004C.
Definition CTRL_ERROR_STATUS__M_IRIS2 : Z := 0xfe.
Definition CTRL_STATUS_PC_READY_IRIS2 : Z := 0x100.
Definition CTRL_INIT_IDLE_MSG_BMSK_IRIS2 : Z := 0x40000000.
Definition QTBL_INFO_IRIS2 : Z := 0xA0050.
Definition QTBL_ADDR_IRIS2 : Z := 0xA0054.
Definition SFR_ADDR_IRIS2 : Z := 0xA005C.
Definition UC_REGION_ADDR_IRIS2 : Z := 0xA0064.
Definition UC_REGION_SIZE_IRIS2 : Z := 0xA0068.
Definition CPU_CS_AHB_BRIDGE_SYNC_RESET : Z := 0xA0160.
Definition CPU_CS_X2RPMh_IRIS2 : Z := 0xA0168.
Definition CPU_IC_SOFTINT_IRIS2 : Z := 0xA0150.
Definition AON_WRAPPER_MVP_NOC_RESET_REQ : Z := 0x1F000.
Definition AON_WRAPPER_MVP_NOC_RESET_ACK : Z := 0x1F004.
Definition WRAPPER_INTR_STATUS_IRIS2 : Z := 0xB000C.
Definition WRAPPER_INTR_STATUS_A2HWD_BMSK_IRIS2 : Z := 0x8.
Definition WRAPPER_INTR_STATUS_A2H_BMSK_IRIS2 : Z := 0x4.
Definition WRAPPER_INTR_MASK_IRIS2 : Z := 0xB0010.
Definition WRAPPER_INTR_MASK_A2HWD_BMSK_IRIS2 : Z := 0x8.
Definition WRAPPER_INTR_MASK_A2HCPU_BMSK_IRIS2 : Z := 0x4.
Definition WRAPPER_DEBUG_BRIDGE_LPI_CONTROL_IRIS2 : Z := 0xB0054.
Definition WRAPPER_DEBUG_BRIDGE_LPI_STATUS_IRIS2 : Z := 0xB0058.
Definition WRAPPER_CORE_CLOCK_CONFIG_IRIS2 : Z := 0xB0088.
Definition WRAPPER_TZ_CPU_STATUS : Z := 0xC0010.
Definition AON_WRAPPER_MVP_NOC_LPI_CONTROL : Z := 0xE0000.
Definition AON_WRAPPER_MVP_NOC_LPI_STATUS : Z := 0xE0004.
Definition VCODEC_SS_IDLE_STATUSn : Z := 0x70.

Section Registers.
Context `{VidcKernel} `{VidcConfig}.

Definition powered : vidc_core -> bool := is_core_sub_state CORE_SUBSTATE_POWER_ENABLE.
Definition put_register (reg value : Z) (s : vidc_core) : vidc_core :=
  set_writes ((reg, value) :: vc_writes s) s.

Definition __write_register (reg value : Z) : op :=
  strict_check ;?
  looking powered (fun on => if on then upd (put_register reg value) else ret (- EINVAL)).

Definition __write_register_masked (reg value mask : Z) : op :=
  strict_check ;?
  looking powered (fun on =>
  if on then
    ask (QRead reg) (fun a => let prev_val := u32 a in
      upd (put_register reg (Z.lor (Z.ldiff prev_val mask) (Z.land value mask))))
  else ret (- EINVAL)).

(** [k] gets the value when the read succeeds. *)
Definition __read_register (reg : Z) (k : Z -> op) : op :=
  looking powered (fun on => if on then ask (QRead reg) (fun a => k (u32 a)) else ret (- EINVAL)).

(** readl_relaxed_poll_timeout comes back with 0 or -ETIMEDOUT. *)
Definition __read_register_with_poll_timeout (reg mask exp_val : Z) : op :=
  looking powered (fun on =>
  if on then ask (QPoll reg mask exp_val) (fun a => ret (if a =? 0 then 0 else - ETIMEDOUT)) else ret (- EINVAL)).

Fixpoint set_registers_from (tbl : list (Z * Z * Z)) : op :=
  match tbl with
  | [] => ret 0
  | (reg, value, mask) :: tbl => __write_register_masked reg value mask ;? set_registers_from tbl
  end.
Definition __set_registers : op := set_registers_from reg_prst_tbl.
End Registers.

(** ** Resources *)
Section Resources.
Context `{VidcKernel} `{VidcConfig}.

(** The entry of a table with a name (strcmp), and a change of it. *)
Fixpoint update_named {A} (name : A -> string) (n : string) (f : A -> A) (l : list A) : list A :=
  match l with
  | [] => []
  | x :: l => if String.eqb (name x) n then f x :: l else x :: update_named name n f l
  end.
Definition find_named {A} (name : A -> string) (n : string) (l : list A) : option A :=
  List.find (fun x => String.eqb (name x) n) l.

Definition upd_reset (n : string) (f : reset_info -> reset_info) : op :=
  upd (fun s => set_resets (update_named rs_name n f (vc_resets s)) s).
Definition rs_set_asserted (b : bool) (r : reset_info) : reset_info :=
  {| rs_name := rs_name r; rs_exclusive_release := rs_exclusive_release r; rs_asserted := b;
     rs_acquired := rs_acquired r |}.
Definition rs_set_acquired (b : bool) (r : reset_info) : reset_info :=
  {| rs_name := rs_name r; rs_exclusive_release := rs_exclusive_release r;
     rs_asserted := rs_asserted r; rs_acquired := b |}.

(** The loop of __reset_control_acquire_name; after 1000 refusals the driver
    stops the kernel (MSM_VIDC_FATAL). *)
Fixpoint reset_acquire_loop (tries : nat) (name : string) : op :=
  match tries with
  | O => fun _ => Fault
  | S tries =>
      ask (QResetAcquire name) (fun rc => if rc =? 0 then upd_reset name (rs_set_acquired true)
                     else reset_acquire_loop tries name)
  end.
Definition __reset_control_acquire_name (name : string) : op :=
  looking vc_resets (fun rs =>
  match find_named rs_name name rs with
  | None => ret 0
  | Some r => if rs_exclusive_release r then reset_acquire_loop 1000 name else ret (- EINVAL)
  end).

Definition __reset_control_release_name (name : string) : op :=
  looking vc_resets (fun rs =>
  match find_named rs_name name rs with
  | None => ret 0
  | Some r => if rs_exclusive_release r then upd_reset name (rs_set_acquired false) else ret (- EINVAL)
  end).

(** __reset_control_deassert: a line that fails is passed over; the result is
    that of the last line. *)
Fixpoint reset_deassert_from (rs : list reset_info) (rc : Z) : op :=
  match rs with
  | [] => ret rc
  | r :: rs =>
      bind_op (call (QResetDeassert (rs_name r)) ;? upd_reset (rs_name r) (rs_set_asserted false)) (reset_deassert_from rs)
  end.
Definition __reset_control_deassert : op := looking vc_resets (fun rs => reset_deassert_from rs 0).

(** __reset_control_assert: after a failure the lines from the failing one
    down are released again. *)
Fixpoint reset_undo_from (rs : list reset_info) : op :=
  match rs with
  | [] => ret 0
  | r :: rs =>
      (call (QResetDeassert (rs_name r)) ;? upd_reset (rs_name r) (rs_set_asserted false)) ;!
      reset_undo_from rs
  end.
Fixpoint reset_assert_from (rs : list reset_info) (passed : list reset_info) : op :=
  match rs with
  | [] => ret 0
  | r :: rs =>
      undo (reset_undo_from (r :: passed)) (call (QResetAssert (rs_name r))) ;?
      upd_reset (rs_name r) (rs_set_asserted true) ;?
      reset_assert_from rs (r :: passed)
  end.
Definition __reset_control_assert : op := looking vc_resets (fun rs => reset_assert_from rs []).

Definition __reset_ahb2axi_bridge : op := __reset_control_assert ;? __reset_control_deassert.

(** *** Regulators (resources_ext.c) *)
Definition rg_set_fast (b : bool) (r : regulator_info) : regulator_info :=
  {| rg_name := rg_name r; rg_hw_power_collapse := rg_hw_power_collapse r;
     rg_enabled := rg_enabled r; rg_fast := b |}.
Definition rg_add (d : Z) (r : regulator_info) : regulator_info :=
  {| rg_name := rg_name r; rg_hw_power_collapse := rg_hw_power_collapse r;
     rg_enabled := rg_enabled r + d; rg_fast := rg_fast r |}.
Definition upd_regulator (n : string) (f : regulator_info -> regulator_info) : op :=
  upd (fun s => set_regulators (update_named rg_name n f (vc_regulators s)) s).

Definition xo_acquire : op := __reset_control_acquire_name "video_xo_reset"%string.
Definition xo_release : op := __reset_control_release_name "video_xo_reset"%string.
Definition no_handoff : op := msm_vidc_change_core_sub_state CORE_SUBSTATE_GDSC_HANDOFF 0.

(** __acquire_regulator; a regulator that is not enabled only warns. *)
Definition __acquire_regulator (r : regulator_info) : op :=
  xo_acquire ;?
  ((if rg_hw_power_collapse r then
      looking (fun s => find_named rg_name (rg_name r) (vc_regulators s)) (fun cur =>
      if negb (match cur with Some r => rg_fast r | None => false end) then no_handoff
      else (call (QRegulatorMode (rg_name r) false) ;? upd_regulator (rg_name r) (rg_set_fast false) ;?
            no_handoff ;! call (QRegulatorIsEnabled (rg_name r))))
    else ret 0) ;!
   xo_release).

(** __hand_off_regulator *)
Definition __hand_off_regulator (r : regulator_info) : op :=
  xo_acquire ;?
  ((if rg_hw_power_collapse r then
      call (QRegulatorMode (rg_name r) true) ;? upd_regulator (rg_name r) (rg_set_fast true) ;?
      msm_vidc_change_core_sub_state 0 CORE_SUBSTATE_GDSC_HANDOFF ;!
      call (QRegulatorIsEnabled (rg_name r))
    else ret 0) ;!
   xo_release).

(** __enable_regulator: after regulator_enable it asks whether the regulator is
    enabled, and gives it back if not. *)
Definition __enable_regulator (reg_name : string) : op :=
  looking (fun s => find_named rg_name reg_name (vc_regulators s)) (fun r =>
  match r with
  | None => ret (- EINVAL)
  | Some r =>
      xo_acquire ;?
      undo xo_release
        (call (QRegulatorEnable reg_name) ;? upd_regulator reg_name (rg_add 1) ;?
         ask (QRegulatorIsEnabled reg_name) (fun enabled =>
           if enabled =? 0 then
             (call (QRegulatorDisable reg_name) ;? upd_regulator reg_name (rg_add (-1))) ;!
             ret (- EINVAL)
           else ret 0)) ;?
      xo_release
  end).

Definition __disable_regulator (reg_name : string) : op :=
  looking (fun s => find_named rg_name reg_name (vc_regulators s)) (fun r =>
  match r with
  | None => ret (- EINVAL)
  | Some r =>
      __acquire_regulator r ;?
      (no_handoff ;!
       xo_acquire ;?
       undo xo_release (call (QRegulatorDisable reg_name) ;? upd_regulator reg_name (rg_add (-1))) ;?
       xo_release)
  end).

(** __hand_off_regulators, __acquire_regulators *)
Fixpoint acquire_all (rs : list regulator_info) : op :=
  match rs with
  | [] => ret 0
  | r :: rs => __acquire_regulator r ;! acquire_all rs
  end.
Fixpoint hand_off_from (rs passed : list regulator_info) : op :=
  match rs with
  | [] => ret 0
  | r :: rs =>
      undo (acquire_all (r :: passed)) (__hand_off_regulator r) ;? hand_off_from rs (r :: passed)
  end.
Definition __hand_off_regulators : op := looking vc_regulators (fun rs => hand_off_from rs []).
Definition __acquire_regulators : op := looking vc_regulators acquire_all.

(** *** Clocks *)
Definition MSM_VIDC_CLOCK_SOURCE_SCALING_RATIO : Z := 3.
Definition ck_set_prev (v : Z) (c : clock_info) : clock_info :=
  {| ck_name := ck_name c; ck_has_scaling := ck_has_scaling c; ck_prev := v;
     ck_enabled := ck_enabled c |}.
Definition ck_add (d : Z) (c : clock_info) : clock_info :=
  {| ck_name := ck_name c; ck_has_scaling := ck_has_scaling c; ck_prev := ck_prev c;
     ck_enabled := ck_enabled c + d |}.
Definition upd_clock (n : string) (f : clock_info -> clock_info) : op :=
  upd (fun s => set_clocks (update_named ck_name n f (vc_clocks s)) s).

(** __set_clk_rate, of the platforms without MMRM or with: one request to the
    kernel either way.  The residency statistics are left out. *)
Definition __set_clk_rate (n : string) (rate : Z) : op :=
  looking (fun s => find_named ck_name n (vc_clocks s)) (fun c =>
  match c with
  | None => ret 0
  | Some c => if rate =? ck_prev c then ret 0 else call (QClockRate n rate) ;? upd_clock n (ck_set_prev rate)
  end).

Fixpoint set_clocks_from (cs : list clock_info) (freq : Z) : op :=
  match cs with
  | [] => ret 0
  | c :: cs =>
      (if ck_has_scaling c then __set_clk_rate (ck_name c) freq else ret 0) ;? set_clocks_from cs freq
  end.
Definition __set_clocks_ext (freq : Z) : op := looking vc_clocks (fun cs => set_clocks_from cs freq).

(** The functions of resources.c set rates with one of their own, without MMRM
    and without the scaling ratio; on the state kept here both do the same. *)
Definition __disable_unprepare_clock (n : string) : op :=
  looking (fun s => find_named ck_name n (vc_clocks s)) (fun c =>
  match c with
  | None => ret (- EINVAL)
  | Some c =>
      upd_clock n (ck_add (-1)) ;!
      (if ck_has_scaling c then __set_clk_rate n 0 else ret 0) ;!
      upd_clock n (ck_set_prev 0)
  end).

Definition __prepare_enable_clock (n : string) : op :=
  looking (fun s => find_named ck_name n (vc_clocks s)) (fun c =>
  match c with
  | None => ret (- EINVAL)
  | Some c =>
      (if ck_has_scaling c
       then ask (QClockLowRate n) (fun rate => __set_clk_rate n (rate mod 2 ^ 64 / MSM_VIDC_CLOCK_SOURCE_SCALING_RATIO))
       else ret 0) ;!
      call (QClockEnable n) ;?
      upd_clock n (ck_add 1) ;?
      ask (QClockIsEnabled n) (fun enabled =>
        if enabled =? 0 then
          upd_clock n (ck_add (-1)) ;!
          (if ck_has_scaling c then __set_clk_rate n 0 else ret 0) ;!
          ret (- EINVAL)
        else ret 0)
  end).

(** *** Buses *)
Inductive vidc_bus_type : Type := PERF | DDR | LLCC.
Definition get_type_frm_name (n : string) : vidc_bus_type :=
  if String.eqb n "venus-llcc" then LLCC else if String.eqb n "venus-ddr" then DDR else PERF.
Definition TRIVIAL_BW_THRESHOLD : Z := 50000.
Definition TRIVIAL_BW_CHANGE (a b : Z) : bool :=
  if a >? b then a - b <? TRIVIAL_BW_THRESHOLD else b - a <? TRIVIAL_BW_THRESHOLD.

Definition bus_set_voted (v : Z) (b : bus_info) : bus_info :=
  {| bus_name := bus_name b; min_kbps := min_kbps b; max_kbps := max_kbps b; voted_kbps := v |}.
Definition set_bw_ddr (v : Z) (s : vidc_core) : vidc_core :=
  set_power {| bw_ddr := v; bw_llcc := bw_llcc (vc_power s); clk_freq := clk_freq (vc_power s) |} s.
Definition set_bw_llcc (v : Z) (s : vidc_core) : vidc_core :=
  set_power {| bw_ddr := bw_ddr (vc_power s); bw_llcc := v; clk_freq := clk_freq (vc_power s) |} s.
Definition set_clk_freq (v : Z) (s : vidc_core) : vidc_core :=
  set_power {| bw_ddr := bw_ddr (vc_power s); bw_llcc := bw_llcc (vc_power s); clk_freq := v |} s.

(** __vote_bandwidth, of a bus with an interconnect path *)
Definition __vote_bandwidth (n : string) (bw_kbps : Z) : op :=
  call (QBusVote n bw_kbps) ;?
  upd (fun s => set_buses (update_named bus_name n (bus_set_voted bw_kbps) (vc_buses s)) s).

Fixpoint unvote_from (bs : list bus_info) : op :=
  match bs with
  | [] => ret 0
  | b :: bs => __vote_bandwidth (bus_name b) 0 ;? unvote_from bs
  end.
Definition __unvote_buses : op :=
  upd (set_bw_ddr 0) ;! upd (set_bw_llcc 0) ;! looking vc_buses unvote_from.

(** __vote_buses; the result is that of the last vote. *)
Definition vote_bus (b : bus_info) (ddr llcc rc : Z) : op :=
  looking vc_power (fun p =>
  let type := get_type_frm_name (bus_name b) in
  let '(bw_kbps, bw_prev) :=
    match type with
    | DDR => (ddr, bw_ddr p)
    | LLCC => (llcc, bw_llcc p)
    | PERF => (max_kbps b, if bw_ddr p =? 0 then 0 else max_kbps b)
    end in
  let bw_kbps := Z.min (Z.max bw_kbps (min_kbps b)) (max_kbps b) in
  if TRIVIAL_BW_CHANGE bw_kbps bw_prev && negb (bw_prev =? 0) then ret rc
  else
    bind_op (__vote_bandwidth (bus_name b) bw_kbps) (fun rc =>
      match type with
      | DDR => upd (set_bw_ddr bw_kbps)
      | LLCC => upd (set_bw_llcc bw_kbps)
      | PERF => ret 0
      end ;! ret rc)).
Fixpoint vote_buses_from (bs : list bus_info) (ddr llcc rc : Z) : op :=
  match bs with
  | [] => ret rc
  | b :: bs => bind_op (vote_bus b ddr llcc rc) (vote_buses_from bs ddr llcc)
  end.
Definition __vote_buses (ddr llcc : Z) : op :=
  looking vc_buses (fun bs => vote_buses_from bs ddr llcc 0).
Definition set_bw (ddr llcc : Z) : op :=
  if (ddr =? 0) && (llcc =? 0) then __unvote_buses else __vote_buses ddr llcc.

(** *** Caches *)
Definition sc_set_active (b : bool) (c : subcache_info) : subcache_info :=
  {| sc_slice_id := sc_slice_id c; sc_slice_size := sc_slice_size c; sc_isactive := b |}.
Definition upd_subcache (i : Z) (b : bool) : op :=
  upd (fun s => set_subcaches
    (match (vc_subcaches s).[i] with
     | Some c => zinsert i (sc_set_active b c) (vc_subcaches s)
     | None => vc_subcaches s
     end) s).

(** The last cache first; a failure is only reported. *)
Fixpoint disable_subcaches_from (n : nat) : op :=
  match n with
  | O => ret 0
  | S n =>
      looking (fun s => (vc_subcaches s).[Z.of_nat n]) (fun c =>
      match c with
      | Some c => if sc_isactive c
                  then call (QSliceDeactivate (sc_slice_id c)) ;! upd_subcache (Z.of_nat n) false else ret 0
      | None => ret 0
      end) ;! disable_subcaches_from n
  end.
Definition __disable_subcaches : op :=
  if syscache_off then ret 0
  else looking (fun s => length (vc_subcaches s)) disable_subcaches_from.
Fixpoint enable_subcaches_from (cs : list subcache_info) (i : Z) : op :=
  match cs with
  | [] => ret 0
  | c :: cs =>
      undo __disable_subcaches (call (QSliceActivate (sc_slice_id c))) ;?
      upd_subcache i true ;?
      enable_subcaches_from cs (i + 1)
  end.
Definition __enable_subcaches : op :=
  if syscache_off then ret 0 else looking vc_subcaches (fun cs => enable_subcaches_from cs 0).
Definition llcc_enable (enable : bool) : op := if enable then __enable_subcaches else __disable_subcaches.
End Resources.

(** ** The Iris2 variant *)
Section Iris2.
Context `{VidcKernel} `{VidcConfig}.

Definition __interrupt_init_iris2 : op :=
  __read_register WRAPPER_INTR_MASK_IRIS2 (fun mask_val =>
  __write_register WRAPPER_INTR_MASK_IRIS2
    (Z.ldiff mask_val (Z.lor WRAPPER_INTR_MASK_A2HWD_BMSK_IRIS2 WRAPPER_INTR_MASK_A2HCPU_BMSK_IRIS2))).

Definition VIDEO_ARCH_LX : Z := 1.
Definition __setup_ucregion_memory_map_iris2 : op :=
  looking (fun s => align_device_addr (iface_q_table (vc_hfi s))) (fun q_addr =>
  looking (fun s => align_device_addr (sfr (vc_hfi s))) (fun sfr_addr =>
  __write_register UC_REGION_ADDR_IRIS2 (u32 q_addr) ;?
  __write_register UC_REGION_SIZE_IRIS2 SHARED_QSIZE ;?
  __write_register QTBL_ADDR_IRIS2 (u32 q_addr) ;?
  __write_register QTBL_INFO_IRIS2 1 ;?
  __write_register CPU_CS_VCICMDARG0_IRIS2 (u32 iface_q_table_vaddr) ;?
  __write_register CPU_CS_VCICMDARG1_IRIS2 (u32 (iface_q_table_vaddr / 2 ^ 32)) ;?
  if sfr_addr =? 0 then ret 0
  else __write_register SFR_ADDR_IRIS2 (u32 (u32 sfr_addr + VIDEO_ARCH_LX)))).

Definition gdsc_on : string -> op := __enable_regulator.
Definition gdsc_off : string -> op := __disable_regulator.
Definition clk_enable : string -> op := __prepare_enable_clock.
Definition clk_disable : string -> op := __disable_unprepare_clock.

(** The pipes are polled one after the other; a pipe that is not idle is only
    reported. *)
Fixpoint poll_pipes (n : nat) (i : Z) : op :=
  match n with
  | O => ret 0
  | S n =>
      __read_register_with_poll_timeout (VCODEC_SS_IDLE_STATUSn + 4 * i) 0x400000 0x400000 ;!
      poll_pipes n (i + 1)
  end.

Definition disable_power : op :=
  gdsc_off "vcodec" ;! clk_disable "video_cc_mvs0_clk" ;! ret 0.

Definition __power_off_iris2_hardware : op :=
  looking (is_core_sub_state CORE_SUBSTATE_FW_PWR_CTRL) (fun fw_ctrl =>
  if fw_ctrl then disable_power
  else
    __read_register WRAPPER_CORE_CLOCK_CONFIG_IRIS2 (fun value =>
    (if value =? 0 then ret 0 else __write_register WRAPPER_CORE_CLOCK_CONFIG_IRIS2 0) ;?
    poll_pipes num_vpp_pipe 0 ;!
    __write_register AON_WRAPPER_MVP_NOC_RESET_REQ 3 ;?
    __read_register_with_poll_timeout AON_WRAPPER_MVP_NOC_RESET_ACK 3 3 ;!
    __write_register AON_WRAPPER_MVP_NOC_RESET_REQ 0 ;?
    __read_register_with_poll_timeout AON_WRAPPER_MVP_NOC_RESET_ACK 3 0 ;!
    __write_register CPU_CS_AHB_BRIDGE_SYNC_RESET 3 ;?
    __write_register CPU_CS_AHB_BRIDGE_SYNC_RESET 2 ;?
    __write_register CPU_CS_AHB_BRIDGE_SYNC_RESET 0 ;?
    disable_power)).

Definition __power_off_iris2_controller : op :=
  __write_register CPU_CS_X2RPMh_IRIS2 3 ;?
  __write_register_masked AON_WRAPPER_MVP_NOC_LPI_CONTROL 1 1 ;?
  __read_register_with_poll_timeout AON_WRAPPER_MVP_NOC_LPI_STATUS 1 1 ;!
  __write_register WRAPPER_DEBUG_BRIDGE_LPI_CONTROL_IRIS2 7 ;?
  __read_register_with_poll_timeout WRAPPER_DEBUG_BRIDGE_LPI_STATUS_IRIS2 7 7 ;!
  __write_register WRAPPER_DEBUG_BRIDGE_LPI_CONTROL_IRIS2 0 ;?
  __read_register_with_poll_timeout WRAPPER_DEBUG_BRIDGE_LPI_STATUS_IRIS2 0xffffffff 0 ;!
  clk_disable "video_cc_mvs0c_clk" ;!
  clk_disable "gcc_video_axi0_clk" ;!
  __reset_ahb2axi_bridge ;!
  gdsc_off "iris-ctl" ;!
  ret 0.

(** __watchdog_iris2 *)
Definition watchdog (s : vidc_core) : bool :=
  negb (Z.land (vc_intr_status s) WRAPPER_INTR_STATUS_A2HWD_BMSK_IRIS2 =? 0).
(** disable_irq_nosync, enable_irq *)
Definition disable_irq : op := upd (fun s => set_irq_depth (vc_irq_depth s + 1) s).
Definition enable_irq : op := upd (fun s => set_irq_depth (vc_irq_depth s - 1) s).

Definition __power_off_iris2 : op :=
  looking powered (fun on =>
  if negb on then ret 0
  else
    __set_clocks_ext 0 ;!
    __power_off_iris2_hardware ;!
    __power_off_iris2_controller ;!
    bind_op (set_bw 0 0) (fun rc =>
      looking watchdog (fun wd => if wd then ret 0 else disable_irq) ;!
      msm_vidc_change_core_sub_state CORE_SUBSTATE_POWER_ENABLE 0 ;!
      ret rc)).

Definition __power_on_iris2_controller : op :=
  gdsc_on "iris-ctl" ;?
  undo (gdsc_off "iris-ctl")
    (__reset_ahb2axi_bridge ;?
     clk_enable "gcc_video_axi0_clk" ;?
     undo (clk_disable "gcc_video_axi0_clk") (clk_enable "video_cc_mvs0c_clk")).

Definition __power_on_iris2_hardware : op :=
  gdsc_on "vcodec" ;? undo (gdsc_off "vcodec") (clk_enable "video_cc_mvs0_clk").

Definition INT_MAX : Z := 0x7fffffff.
(** What __power_on_iris2 does once POWER_ENABLE is set; freq_tbl has an
    entry. *)
Definition power_on_rest : op := fun s =>
  freq0 ← deref (freq_tbl.[0]);
  let freq := u32 (if clk_freq (vc_power s) =? 0 then freq0 else clk_freq (vc_power s)) in
  (__set_clocks_ext freq ;!
   upd (set_clk_freq freq) ;!
   __set_registers ;!
   __interrupt_init_iris2 ;!
   upd (set_intr_status 0) ;!
   enable_irq) s.

Definition __power_on_iris2 : op :=
  looking powered (fun on =>
  if on then ret 0
  else
    looking (fun s => core_in_valid_state (vc_hfi s)) (fun valid =>
    if negb valid then ret (- EINVAL)
    else
      undo (msm_vidc_change_core_sub_state CORE_SUBSTATE_POWER_ENABLE 0)
        (set_bw INT_MAX INT_MAX ;?
         undo (set_bw 0 0)
           (__power_on_iris2_controller ;?
            undo __power_off_iris2_controller
              (__power_on_iris2_hardware ;?
               undo __power_off_iris2_hardware
                 (msm_vidc_change_core_sub_state 0 CORE_SUBSTATE_POWER_ENABLE)))) ;?
      power_on_rest)).

Definition __clear_interrupt_iris2 : op :=
  __read_register WRAPPER_INTR_STATUS_IRIS2 (fun intr_status =>
  let mask := Z.lor (Z.lor WRAPPER_INTR_STATUS_A2H_BMSK_IRIS2 WRAPPER_INTR_STATUS_A2HWD_BMSK_IRIS2)
                CTRL_INIT_IDLE_MSG_BMSK_IRIS2 in
  (if Z.land intr_status mask =? 0 then ret 0
   else upd (fun s => set_intr_status (Z.lor (vc_intr_status s) intr_status) s)) ;!
  __write_register CPU_CS_A2HSOFTINTCLR_IRIS2 1).

(** The loop of __boot_firmware_iris2 that waits for a status: [k] gets the
    number of reads. *)
Fixpoint boot_wait (tries : nat) (count : Z) (k : Z -> op) : op :=
  match tries with
  | O => k count
  | S tries =>
      __read_register CTRL_STATUS_IRIS2 (fun ctrl_status =>
      if Z.land ctrl_status CTRL_ERROR_STATUS__M_IRIS2 =? 4 then k count
      else if ctrl_status =? 0 then boot_wait tries (count + 1) k
      else k (count + 1))
  end.
Definition max_tries : nat := 1000.
Definition __boot_firmware_iris2 : op :=
  __setup_ucregion_memory_map_iris2 ;?
  __write_register CTRL_INIT_IRIS2 1 ;?
  boot_wait max_tries 0 (fun count =>
  if count >=? Z.of_nat max_tries then ret (- ETIME)
  else
    __write_register CPU_CS_H2XSOFTINTEN_IRIS2 1 ;?
    __write_register CPU_CS_X2RPMh_IRIS2 0).
End Iris2.
