(* ===== verification/VidcPowerSpec.v ===== *)
(** What the power operations of the video core leave alone, and what
    switching the power on and off does to the interrupt line, whatever the
    kernel and the hardware answer. *)
From S2P Require Import Prelude VidcHfi VidcPacket VidcSession VidcCore VidcPower.

(** ** Sub-states as sets of bits *)
Lemma ldiff_lor_same x b : Z.ldiff (Z.ldiff (Z.lor x b) 0) b = Z.ldiff x b.
Proof. apply Z.bits_inj'. intros n Hn. rewrite !Z.ldiff_spec, Z.lor_spec, Z.bits_0. now destruct (Z.testbit x n), (Z.testbit b n). Qed.
Lemma ldiff_idem x b : Z.ldiff (Z.ldiff (Z.lor x 0) b) b = Z.ldiff x b.
Proof. apply Z.bits_inj'. intros n Hn. rewrite !Z.ldiff_spec, Z.lor_spec, Z.bits_0. now destruct (Z.testbit x n), (Z.testbit b n). Qed.

Lemma land_one_testbit x k : 0 <= k -> (Z.land x (2 ^ k) =? 0) = negb (Z.testbit x k).
Proof.
  intros Hk. destruct (Z.testbit x k) eqn:E; cbn.
  - apply Z.eqb_neq. intros H. apply (f_equal (fun y => Z.testbit y k)) in H.
    rewrite Z.land_spec, Z.pow2_bits_true, E, Z.bits_0 in H by lia. discriminate.
  - apply Z.eqb_eq, Z.bits_inj'. intros n Hn. rewrite Z.land_spec, Z.bits_0.
    destruct (Z.eq_dec n k) as [->|Hne]; [now rewrite E|].
    rewrite Z.pow2_bits_false by lia. apply andb_false_r.
Qed.
Lemma sub_state_bit k s : 0 <= k -> is_core_sub_state (2 ^ k) s = Z.testbit (vc_sub_state s) k.
Proof. intros Hk. unfold is_core_sub_state. rewrite land_one_testbit by done. apply negb_involutive. Qed.
Lemma powered_bit s : powered s = Z.testbit (vc_sub_state s) 0.
Proof. exact (sub_state_bit 0 s (Z.le_refl 0)). Qed.

(** ** Operations that run under the lock *)

(** The lock is held and the state has its handler. *)
Definition locked_core (s : vidc_core) : Prop :=
  core_locked (vc_hfi s) = true /\ is_Some (vc_state_handle s).

(** What the operations on resources and registers leave alone: everything but
    the resources, the registers written and the hand-off of the regulators. *)
Definition hw_view (s : vidc_core) :=
  (vc_hfi s, vc_state_handle s, vc_ids s, vc_packet s,
   (vc_skip_pc s, vc_pm_work s, vc_fw_cookie s, vc_intr_status s),
   (vc_set_to_fw s, vc_irq_depth s, vc_tz s, vc_instances s, vc_dangling s),
   Z.ldiff (vc_sub_state s) CORE_SUBSTATE_GDSC_HANDOFF).
Definition hw_only (s s' : vidc_core) : Prop := hw_view s' = hw_view s.

Definition hw_steps : steps.
Proof.
  refine {| st_live := locked_core; st_rel := hw_only |}; unfold hw_only.
  - done.
  - intros s s' s'' H1 H2. now rewrite H2.
  - intros s s' [H1 H2] H. unfold locked_core. injection H. intros. split; congruence.
  - done.
Defined.

Lemma testbit_ldiff_ne x b n : 0 <= n -> Z.testbit b n = false -> Z.testbit (Z.ldiff x b) n = Z.testbit x n.
Proof. intros Hn Hb. rewrite Z.ldiff_spec, Hb. apply andb_true_r. Qed.

Lemma hw_only_powered s s' : hw_only s s' -> powered s' = powered s.
Proof.
  intros H. injection H as _ _ _ _ _ _ _ _ _ _ _ _ _ H.
  rewrite !powered_bit, <- (testbit_ldiff_ne (vc_sub_state s') 2 0), <- (testbit_ldiff_ne (vc_sub_state s) 2 0)
    by (lia || reflexivity). now f_equal.
Qed.

Section Sub.
Context (F : Prop).

Lemma change_sub clear set s (Q : Z -> vidc_core -> Prop) :
  locked_core s -> clear <> set -> 0 <= clear <= 128 -> 0 <= set <= 128 ->
  Q 0 (set_sub_state (Z.ldiff (Z.lor (vc_sub_state s) set) clear) s) ->
  wp F (msm_vidc_change_core_sub_state clear set) s Q.
Proof.
  intros [Hl [h Hh]] Hne Hc Hset HQ. unfold msm_vidc_change_core_sub_state, strict_check.
  apply wp_and_then, wp_looking. unfold __strict_check. rewrite Hl. apply wp_ret. cbn [Z.eqb].
  apply wp_looking. rewrite Hh. rewrite (proj2 (Z.eqb_neq _ _) Hne).
  unfold CORE_SUBSTATE_MAX. rewrite !Z.gtb_ltb, (proj2 (Z.ltb_ge 128 set)), (proj2 (Z.ltb_ge 128 clear)) by lia.
  cbn [orb]. apply wp_and_then. unfold msm_vidc_update_core_sub_state. destruct (set =? 0) eqn:E; zb.
  - apply wp_ret. cbn [Z.eqb]. apply wp_upd. subst set. now rewrite Z.lor_0_r in *.
  - unfold wp. rewrite Hh. cbn [deref mbind exec_bind core_state_event].
    assert (Hm : Z.land set 4294967295 = set).
    { change 4294967295 with (Z.ones 32). rewrite Z.land_ones by lia. apply Z.mod_small. lia. }
    rewrite Hm, (proj2 (Z.eqb_neq _ _) E). exact HQ.
Qed.

Lemma does_no_handoff : does F hw_steps no_handoff.
Proof.
  intros s Hs. apply change_sub; [done|discriminate|unfold CORE_SUBSTATE_GDSC_HANDOFF; lia|lia|].
  cbn [st_rel hw_steps]. unfold hw_only, hw_view. cbn [vc_hfi vc_state_handle vc_ids vc_packet vc_skip_pc vc_pm_work
    vc_fw_cookie vc_intr_status vc_set_to_fw vc_irq_depth vc_tz vc_instances vc_dangling
    vc_sub_state set_sub_state]. now rewrite ldiff_idem.
Qed.
Lemma does_handoff : does F hw_steps (msm_vidc_change_core_sub_state 0 CORE_SUBSTATE_GDSC_HANDOFF).
Proof.
  intros s Hs. apply change_sub; [done|discriminate|lia|unfold CORE_SUBSTATE_GDSC_HANDOFF; lia|].
  cbn [st_rel hw_steps]. unfold hw_only, hw_view. cbn [vc_hfi vc_state_handle vc_ids vc_packet vc_skip_pc vc_pm_work
    vc_fw_cookie vc_intr_status vc_set_to_fw vc_irq_depth vc_tz vc_instances vc_dangling
    vc_sub_state set_sub_state]. now rewrite ldiff_lor_same.
Qed.
Lemma does_strict_check : does F hw_steps strict_check.
Proof. unfold strict_check. does_auto. Qed.
End Sub.
#[export] Hint Resolve does_no_handoff does_handoff does_strict_check : does.
#[export] Hint Extern 1 (does _ hw_steps (upd _)) =>
  apply does_upd; intros ? _; reflexivity : does.

(** ** Registers and resources *)

(** The kernel lets a reset line be acquired within 1000 tries, and the
    platform has a frequency. *)
Definition platform_ok `{VidcKernel} `{VidcConfig} : Prop :=
  (forall n name, exists k, (k < 1000)%nat /\ answer (n + k) (QResetAcquire name) = 0) /\ freq_tbl <> [].

Section Power.
Context `{VidcKernel} `{VidcConfig} (F : Prop) (Hok : F \/ platform_ok).

Abbreviation hw := (does F hw_steps).

Lemma does_write reg v : hw (__write_register reg v).
Proof. unfold __write_register. does_auto. Qed.
Lemma does_write_masked reg v m : hw (__write_register_masked reg v m).
Proof. unfold __write_register_masked. does_auto. Qed.
Lemma does_read reg k : (forall v, hw (k v)) -> hw (__read_register reg k).
Proof. intros Hk. unfold __read_register. does_auto. Qed.
Lemma does_poll reg m v : hw (__read_register_with_poll_timeout reg m v).
Proof. unfold __read_register_with_poll_timeout. does_auto. Qed.
Hint Resolve does_write does_write_masked does_read does_poll : does.

Lemma does_registers : hw __set_registers.
Proof.
  unfold __set_registers. induction reg_prst_tbl as [|[[r v] m] tbl IH]; cbn [set_registers_from]; does_auto.
Qed.

Lemma acquire_loop name : forall tries s, locked_core s ->
  (F \/ exists k, (k < tries)%nat /\ answer (vc_answers s + k) (QResetAcquire name) = 0) ->
  wp F (reset_acquire_loop tries name) s (fun _ => hw_only s).
Proof.
  induction tries as [|tries IH]; intros s Hs Hk.
  { destruct Hk as [HF|(k & Hk & _)]; [exact HF|lia]. }
  cbn [reset_acquire_loop]. unfold ask, wp. destruct (answer (vc_answers s) (QResetAcquire name) =? 0) eqn:E.
  - apply wp_upd. reflexivity.
  - eapply wp_mono; [apply (IH (set_answers (S (vc_answers s)) s)); [exact Hs|]|].
    + destruct Hk as [HF|(k & Hk & Ha)]; [now left|right]. destruct k as [|k].
      * rewrite Nat.add_0_r in Ha. zb. congruence.
      * exists k. split; [lia|]. cbn [vc_answers set_answers]. now rewrite Nat.add_succ_comm.
    + intros rc s' H'. exact H'.
Qed.
Lemma does_acquire name : hw (__reset_control_acquire_name name).
Proof.
  unfold __reset_control_acquire_name. apply does_looking. intros rs.
  destruct (find_named rs_name name rs) as [r|]; [|does_auto].
  destruct (rs_exclusive_release r); [|does_auto]. intros s Hs. apply acquire_loop; [done|].
  destruct Hok as [HF|[Hk _]]; [now left|right]. apply Hk.
Qed.
Lemma does_release name : hw (__reset_control_release_name name).
Proof. unfold __reset_control_release_name, upd_reset. does_auto. Qed.
Hint Resolve does_acquire does_release : does.

Lemma does_deassert rs : forall rc, hw (reset_deassert_from rs rc).
Proof. induction rs as [|r rs IH]; intros rc; cbn [reset_deassert_from]; unfold upd_reset; does_auto. Qed.
Lemma does_reset_undo rs : hw (reset_undo_from rs).
Proof. induction rs as [|r rs IH]; cbn [reset_undo_from]; unfold upd_reset; does_auto. Qed.
Lemma does_assert rs : forall passed, hw (reset_assert_from rs passed).
Proof.
  pose proof does_reset_undo. induction rs as [|r rs IH]; intros passed; cbn [reset_assert_from];
    unfold upd_reset; does_auto.
Qed.
Lemma does_bridge : hw __reset_ahb2axi_bridge.
Proof.
  pose proof does_assert. pose proof does_deassert.
  unfold __reset_ahb2axi_bridge, __reset_control_assert, __reset_control_deassert. does_auto.
Qed.

Lemma does_acquire_regulator r : hw (__acquire_regulator r).
Proof. unfold __acquire_regulator, xo_acquire, xo_release, upd_regulator. does_auto. Qed.
Lemma does_hand_off_regulator r : hw (__hand_off_regulator r).
Proof. unfold __hand_off_regulator, xo_acquire, xo_release, upd_regulator. does_auto. Qed.
Hint Resolve does_bridge does_acquire_regulator does_hand_off_regulator : does.
Lemma does_enable_regulator n : hw (__enable_regulator n).
Proof. unfold __enable_regulator, xo_acquire, xo_release, upd_regulator. does_auto. Qed.
Lemma does_disable_regulator n : hw (__disable_regulator n).
Proof. unfold __disable_regulator, xo_acquire, xo_release, upd_regulator. does_auto. Qed.
Lemma does_acquire_all rs : hw (acquire_all rs).
Proof. induction rs as [|r rs IH]; cbn [acquire_all]; does_auto. Qed.
Lemma does_hand_off rs : forall passed, hw (hand_off_from rs passed).
Proof. pose proof does_acquire_all. induction rs as [|r rs IH]; intros passed; cbn [hand_off_from]; does_auto. Qed.
Lemma does_hand_offs : hw __hand_off_regulators.
Proof. pose proof does_hand_off. unfold __hand_off_regulators. does_auto. Qed.
Lemma does_acquires : hw __acquire_regulators.
Proof. pose proof does_acquire_all. unfold __acquire_regulators. does_auto. Qed.

Lemma does_clk_rate n r : hw (__set_clk_rate n r).
Proof. unfold __set_clk_rate, upd_clock. does_auto. Qed.
Hint Resolve does_clk_rate : does.
Lemma does_set_clocks cs f : hw (set_clocks_from cs f).
Proof. induction cs as [|c cs IH]; cbn [set_clocks_from]; does_auto. Qed.
Lemma does_set_clocks_ext f : hw (__set_clocks_ext f).
Proof. pose proof does_set_clocks. unfold __set_clocks_ext. does_auto. Qed.
Lemma does_clk_enable n : hw (__prepare_enable_clock n).
Proof. unfold __prepare_enable_clock, upd_clock. does_auto. Qed.
Lemma does_clk_disable n : hw (__disable_unprepare_clock n).
Proof. unfold __disable_unprepare_clock, upd_clock. does_auto. Qed.

Lemma does_vote n v : hw (__vote_bandwidth n v).
Proof. unfold __vote_bandwidth. does_auto. Qed.
Hint Resolve does_vote : does.
Lemma does_unvote bs : hw (unvote_from bs).
Proof. induction bs as [|b bs IH]; cbn [unvote_from]; does_auto. Qed.
Lemma does_vote_bus b ddr llcc rc : hw (vote_bus b ddr llcc rc).
Proof.
  unfold vote_bus. apply does_looking. intros p. destruct (get_type_frm_name (bus_name b)); cbv iota;
    (destruct (_ && _); does_auto).
Qed.
Lemma does_votes bs ddr llcc : forall rc, hw (vote_buses_from bs ddr llcc rc).
Proof. pose proof does_vote_bus. induction bs as [|b bs IH]; intros rc; cbn [vote_buses_from]; does_auto. Qed.
Lemma does_set_bw ddr llcc : hw (set_bw ddr llcc).
Proof. pose proof does_votes. pose proof does_unvote. unfold set_bw, __unvote_buses, __vote_buses. does_auto. Qed.

Lemma does_disable_subcaches n : hw (disable_subcaches_from n).
Proof. induction n as [|n IH]; cbn [disable_subcaches_from]; unfold upd_subcache; does_auto. Qed.
Lemma does_enable_subcaches cs : forall i, hw (enable_subcaches_from cs i).
Proof.
  pose proof does_disable_subcaches. induction cs as [|c cs IH]; intros i; cbn [enable_subcaches_from];
    unfold upd_subcache, __disable_subcaches; does_auto.
Qed.
Lemma does_llcc b : hw (llcc_enable b).
Proof.
  pose proof does_disable_subcaches. pose proof does_enable_subcaches.
  unfold llcc_enable, __enable_subcaches, __disable_subcaches. does_auto.
Qed.
Hint Resolve does_registers does_enable_regulator does_disable_regulator does_set_clocks_ext
  does_clk_enable does_clk_disable does_set_bw : does.

(** ** The Iris2 sequences *)
Lemma does_interrupt_init : hw __interrupt_init_iris2.
Proof. unfold __interrupt_init_iris2. does_auto. Qed.
Lemma does_disable_power : hw disable_power.
Proof. unfold disable_power, gdsc_off, clk_disable. does_auto. Qed.
Lemma does_poll_pipes n : forall i, hw (poll_pipes n i).
Proof. induction n as [|n IH]; intros i; cbn [poll_pipes]; does_auto. Qed.
Hint Resolve does_interrupt_init does_disable_power does_poll_pipes : does.
Lemma does_off_hardware : hw __power_off_iris2_hardware.
Proof. unfold __power_off_iris2_hardware. does_auto. Qed.
Lemma does_off_controller : hw __power_off_iris2_controller.
Proof. unfold __power_off_iris2_controller, clk_disable, gdsc_off. does_auto. Qed.
Lemma does_on_controller : hw __power_on_iris2_controller.
Proof. unfold __power_on_iris2_controller, clk_enable, clk_disable, gdsc_on, gdsc_off. does_auto. Qed.
Lemma does_on_hardware : hw __power_on_iris2_hardware.
Proof. unfold __power_on_iris2_hardware, clk_enable, gdsc_on, gdsc_off. does_auto. Qed.
Lemma does_memory_map : hw __setup_ucregion_memory_map_iris2.
Proof. unfold __setup_ucregion_memory_map_iris2. does_auto. Qed.
Lemma does_boot_wait n : forall i k, (forall c, hw (k c)) -> hw (boot_wait n i k).
Proof. induction n as [|n IH]; intros i k Hk; cbn [boot_wait]; does_auto. Qed.
Hint Resolve does_memory_map does_boot_wait : does.
Lemma does_boot : hw __boot_firmware_iris2.
Proof. unfold __boot_firmware_iris2. does_auto. Qed.
End Power.
