(* ===== verification/VidcVenus.v ===== *)
(** The firmware of the video core and the commands for it: loading and
    running the firmware (video-driver/driver/vidc/src/firmware.c), commands
    to it, power collapse, initialisation and its end (src/venus_hfi.c,
    src/msm_vidc_driver.c, src/msm_vidc_probe.c). *)
From S2P Require Import Prelude VidcQueue VidcMem VidcHfi VidcPacket VidcPacketSpec VidcBuffer.
From S2P Require Import VidcSession VidcCore VidcPower.

(** What the driver is configured with: capabilities of the platform, module
    parameters, the size of the firmware's memory, its number in the secure
    world, the word at which each context bank of the firmware starts; and
    the kernel's answers when the queues are allocated. *)
Class VidcFirmware := {
  sw_pc : bool;                       (* capability SW_PC *)
  non_fatal_faults : bool;
  hw_response_timeout : Z;
  max_session_count : Z;
  fw_log_level : Z;                   (* (msm_fw_debug & FW_LOGMASK) >> FW_LOGSHIFT *)
  fw_dump : bool;                     (* msm_vidc_fw_dump *)
  bug_on : Z -> bool;                 (* msm_vidc_enable_bugon, by the type of a packet *)
  hfi_conf : hfi_platform;
  pas_id : Z;
  fw_region_size : Z;
  init_answer : nat -> init_answers }.

Section Venus.
Context `{VidcKernel} `{VidcConfig} `{VidcFirmware} `{VidcPlatform}.

(** ** Firmware *)
Definition upd_tz (f : tz_state -> tz_state) : op := upd (fun s => set_tz (f (vc_tz s)) s).
Definition tz_images (d : Z) (t : tz_state) : tz_state :=
  {| tz_loaded := tz_loaded t; tz_running := tz_running t; fw_images := fw_images t + d |}.
Definition tz_started (t : tz_state) : tz_state :=
  {| tz_loaded := true; tz_running := true; fw_images := fw_images t |}.
Definition tz_stopped (t : tz_state) : tz_state :=
  {| tz_loaded := false; tz_running := false; fw_images := fw_images t |}.
Definition tz_run (b : bool) (t : tz_state) : tz_state :=
  {| tz_loaded := tz_loaded t; tz_running := b; fw_images := fw_images t |}.

Definition release_firmware : op := upd_tz (tz_images (-1)).

(** __load_fw_to_memory; after memremap has failed the image is kept. *)
Definition __load_fw_to_memory : op :=
  ask QMemoryRegion (fun node =>
  if node =? 0 then ret (- EINVAL)
  else
    call QRegionAddress ;?
    call QRequestFirmware ;?
    upd_tz (tz_images 1) ;?
    ask QFirmwareSize (fun fw_size =>
    if (fw_size <? 0) || (fw_region_size <? fw_size) then release_firmware ;! ret (- EINVAL)
    else
      ask QRemap (fun virt =>
      if virt =? 0 then ret (- ENOMEM)
      else
        undo release_firmware
          (call QLoadSegments ;? call QAuthAndReset ;? upd_tz tz_started) ;?
        release_firmware ;?
        ret pas_id))).

Definition pas_shutdown : op := call QShutdown ;? upd_tz tz_stopped.

Definition fw_load : op :=
  looking vc_fw_cookie (fun cookie =>
  (if cookie =? 0 then
     bind_op __load_fw_to_memory (fun cookie =>
       upd (set_fw_cookie cookie) ;!
       if cookie <=? 0 then upd (set_fw_cookie 0) ;! ret (- ENOMEM) else ret 0)
   else ret 0) ;?
  undo (looking vc_fw_cookie (fun cookie => if cookie =? 0 then ret 0 else pas_shutdown) ;!
        upd (set_fw_cookie 0))
    (call QProtect)).

Definition fw_unload : op :=
  looking vc_fw_cookie (fun cookie =>
  if cookie =? 0 then ret (- EINVAL)
  else bind_op pas_shutdown (fun rc => upd (set_fw_cookie 0) ;! ret rc)).

Definition fw_suspend : op := call (QRemoteState false) ;? upd_tz (tz_run false).
Definition fw_resume : op := call (QRemoteState true) ;? upd_tz (tz_run true).

(** fw_coredump copies the queues and the failure reason buffer out of their
    mappings; it reads them without looking whether they exist. *)
Definition fw_coredump : op :=
  ask QMemoryRegion (fun node =>
  if node =? 0 then ret 0
  else
    ask QRegionAddress (fun rc =>
    if negb (rc =? 0) then ret 0
    else
      ask QRemap (fun mem_va =>
      if mem_va =? 0 then ret 0
      else
        ask QAlloc (fun data =>
        if data =? 0 then ret 0
        else fun s =>
          _ ← deref (align_virtual_addr (iface_q_table (vc_hfi s)));
          _ ← deref (align_virtual_addr (sfr (vc_hfi s)));
          Done (0, s))))).

(** ** Sessions of the core *)
Definition find_inst (id : Z) (l : list msm_vidc_inst) : option msm_vidc_inst :=
  List.find (fun i => inst_id i =? id) l.
Definition on_inst (id : Z) (f : msm_vidc_inst -> msm_vidc_inst) (l : list msm_vidc_inst) :
    list msm_vidc_inst := map (fun i => if inst_id i =? id then f i else i) l.
(** The session a pointer leads to, in one list or the other. *)
Definition session (id : Z) (s : vidc_core) : option msm_vidc_inst :=
  match find_inst id (vc_instances s) with
  | Some i => Some i
  | None => find_inst id (vc_dangling s)
  end.
Definition upd_session (id : Z) (f : msm_vidc_inst -> msm_vidc_inst) : op :=
  upd (fun s => set_dangling (on_inst id f (vc_dangling s))
                  (set_instances (on_inst id f (vc_instances s)) s)).
(** A function of the session that returns a result. *)
Definition change_session (id : Z) (f : msm_vidc_inst -> Z * msm_vidc_inst) : op :=
  looking (session id) (fun i =>
  match i with
  | None => fun _ => Fault
  | Some i => upd_session id (fun i => snd (f i)) ;! ret (fst (f i))
  end).

Definition __valdiate_session (id : Z) (s : vidc_core) : bool :=
  (__strict_check (vc_hfi s) =? 0) && bool_decide (is_Some (find_inst id (vc_instances s))).

(** ** Packets in the buffers of the core and of the sessions *)
Definition packet_size : Z := 4096.

(** Bytes read as 32-bit words. *)
Fixpoint le_words (b : list Z) : list Z :=
  match b with
  | b0 :: b1 :: b2 :: b3 :: b => of_le [b0; b1; b2; b3] :: le_words b
  | _ => []
  end.

(** A pointer to a packet: core->packet, or inst->packet. *)
Inductive packet_ptr : Type :=
| core_packet
| inst_packet_of (id : Z).
Definition packet_at (p : packet_ptr) (s : vidc_core) : option (list Z) :=
  match p with
  | core_packet => Some (vc_packet s)
  | inst_packet_of id => match session id s with Some i => inst_packet i | None => None end
  end.
Definition set_packet_at (p : packet_ptr) (b : option (list Z)) : op :=
  match p with
  | core_packet => match b with Some b => upd (set_packet b) | None => ret 0 end
  | inst_packet_of id => upd_session id (set_inst_packet b)
  end.

(** A function of hfi_packet.c on the buffer of a pointer. *)
Definition build (p : packet_ptr) (f : hfi_state -> exec (Z * hfi_state)) : op := fun s =>
  '(rc, st) ← f (vc_ids s, packet_at p s);
  (upd (set_ids (fst st)) ;! set_packet_at p (snd st) ;! ret rc) s.

(** A function of venus_hfi_queue.c. *)
Definition queue_op (f : msm_vidc_core -> exec (Z * msm_vidc_core)) : op := fun s =>
  r ← f (vc_hfi s); Done (fst r, set_hfi (snd r) s).

(** ** Power collapse work *)
Definition __schedule_power_collapse_work : op := if sw_pc then upd (set_pm_work true) else ret 0.
Definition __cancel_power_collapse_work : op := if sw_pc then upd (set_pm_work false) else ret 0.

(** ** The debug queue *)

(** What __flush_debug_queue reads into: core->packet, or a buffer of its
    own. *)
Inductive flush_buffer : Type :=
| flush_core_packet
| flush_local (b : list Z).
Definition sizeof_debug_header : Z := 16.

(** The packet in the buffer of the loop is cut off at its size. *)
Definition print_packet (b : list Z) : exec (list Z) :=
  n ← load32 0 b;
  if n <? sizeof_debug_header then Done b
  else if n >=? packet_size then Done b
  else store n [0] b.
Fixpoint flush_loop (fuel : nat) (c : msm_vidc_core) (b : list Z) : exec (msm_vidc_core * list Z) :=
  match fuel with
  | O => Timeout
  | S fuel =>
      '(rc, c, ws) ← venus_hfi_queue_dbg_read c (Some (le_words b));
      ws ← deref ws;
      if negb (rc =? 0) then Done (c, words ws)
      else b ← print_packet (words ws); flush_loop fuel c b
  end.
(** A packet takes a word of the queue at least. *)
Definition flush_fuel : nat := Z.to_nat (VIDC_IFACEQ_QUEUE_SIZE / 4 + 1).
Definition flush_to (buf : flush_buffer) : op := fun s =>
  let b := match buf with flush_core_packet => vc_packet s | flush_local b => b end in
  '(c, b) ← flush_loop flush_fuel (vc_hfi s) b;
  let s := set_hfi c s in
  Done (0, match buf with flush_core_packet => set_packet b s | flush_local _ => s end).
(** __flush_debug_queue(core, force ? NULL : core->packet, core->packet_size) *)
Definition __flush_debug_queue (force : bool) : op :=
  if force then
    ask QAlloc (fun packet =>
      if packet =? 0 then ret 0
      else flush_to (flush_local (replicate (Z.to_nat packet_size) 0)))
  else flush_to flush_core_packet.

(** ** Commands *)
Definition __venus_power_off : op :=
  looking powered (fun on =>
  if negb on then ret 0
  else __power_off_iris2 ;? (msm_vidc_change_core_sub_state CORE_SUBSTATE_POWER_ENABLE 0 ;! ret 0)).
Definition __venus_power_on : op :=
  looking powered (fun on =>
  if on then ret 0
  else __power_on_iris2 ;? msm_vidc_change_core_sub_state 0 CORE_SUBSTATE_POWER_ENABLE).

Definition gdsc_hw_ctrl : op := __hand_off_regulators.
Definition gdsc_sw_ctrl : op := __acquire_regulators.

(** The functions __resume calls write commands themselves, and a command
    resumes the core: [resume] is __resume. *)
Section Commands.
Variable resume : op.

Definition cmdq_write_with (write : msm_vidc_core -> option (list Z) -> exec (Z * msm_vidc_core))
    (p : packet_ptr) : op :=
  resume ;?
  bind_op (fun s => queue_op (fun c => write c (option_map le_words (packet_at p s))) s) (fun rc =>
    (if rc =? 0 then __schedule_power_collapse_work else ret 0) ;! ret rc).
Definition cmdq_write : packet_ptr -> op := cmdq_write_with venus_hfi_queue_cmd_write.

Definition sys_set_debug (debug : Z) : op :=
  build core_packet (hfi_packet_sys_debug_config packet_size debug) ;? cmdq_write core_packet.

Definition sys_set_power_control (enable : bool) : op :=
  looking (is_core_sub_state CORE_SUBSTATE_GDSC_HANDOFF) (fun handoff =>
  if negb handoff then ret 0
  else
    looking (fun s => core_in_valid_state (vc_hfi s)) (fun valid =>
    if negb valid then ret 0
    else
      build core_packet
        (hfi_packet_sys_intraframe_powercollapse packet_size (if enable then 1 else 0)) ;?
      cmdq_write core_packet ;?
      msm_vidc_change_core_sub_state 0 CORE_SUBSTATE_FW_PWR_CTRL)).

(** The packet for the caches of the core, in the order given. *)
Definition subcache_buffer (flags : Z) (c : subcache_info) : hfi_buffer :=
  {| hb_type := HFI_BUFFER_SUBCACHE; hb_index := u32 (sc_slice_id c); hb_base_address := 0;
     hb_addr_offset := 0; hb_buffer_size := u32 (sc_slice_size c); hb_data_offset := 0;
     hb_data_size := 0; hb_timestamp := 0; hb_flags := flags |}.
Fixpoint add_subcaches (flags : Z) (cs : list subcache_info) (st : hfi_state) : exec (Z * hfi_state) :=
  match cs with
  | [] => Done (0, st)
  | c :: cs =>
      if sc_isactive c then
        hfi_then (add_packet packet_size HFI_CMD_BUFFER HFI_BUF_HOST_FLAG_NONE HFI_PAYLOAD_STRUCTURE
                    HFI_PORT_NONE (Some (hfi_buffer_bytes (subcache_buffer flags c)))
                    sizeof_hfi_buffer st)
          (add_subcaches flags cs)
      else add_subcaches flags cs st
  end.
Definition subcache_message (flags : Z) (cs : list subcache_info) (st : hfi_state) : exec (Z * hfi_state) :=
  hfi_then (begin_message packet_size 0 st) (add_subcaches flags cs).

Definition release_subcaches_with : op :=
  if syscache_off then ret 0
  else
    looking vc_set_to_fw (fun set_to_fw =>
    if negb set_to_fw then ret 0
    else
      looking vc_subcaches (fun cs =>
      build core_packet (subcache_message HFI_BUF_HOST_FLAG_RELEASE (rev cs)) ;?
      cmdq_write core_packet ;?
      upd (set_set_to_fw false))).
Definition set_subcaches_with : op :=
  if syscache_off then ret 0
  else
    looking vc_set_to_fw (fun set_to_fw =>
    if set_to_fw then ret 0
    else
      looking vc_subcaches (fun cs =>
      undo (llcc_enable false)
        (build core_packet (subcache_message HFI_BUF_HOST_FLAG_NONE cs) ;?
         cmdq_write core_packet) ;?
      upd (set_set_to_fw true))).

(** __resume with [resume] for the one inside. *)
Definition resume_step : op :=
  looking powered (fun on =>
  if on then ret 0
  else
    looking (fun s => core_in_valid_state (vc_hfi s)) (fun valid =>
    if negb valid then ret (- EINVAL)
    else
      strict_check ;?
      msm_vidc_change_core_sub_state CORE_SUBSTATE_GDSC_HANDOFF 0 ;?
      msm_vidc_change_core_sub_state CORE_SUBSTATE_FW_PWR_CTRL 0 ;?
      __venus_power_on ;?
      undo __venus_power_off
        (fw_resume ;?
         undo fw_suspend
           (gdsc_hw_ctrl ;!
            __boot_firmware_iris2 ;?
            sys_set_debug fw_log_level ;!
            llcc_enable true)) ;?
      set_subcaches_with ;!
      undo gdsc_sw_ctrl (sys_set_power_control true) ;!
      ret 0)).
End Commands.

(** The __resume of a command sent by __resume finds the core powered. *)
Fixpoint resume_fuel (fuel : nat) : op :=
  match fuel with
  | O => fun _ => Timeout
  | S fuel => resume_step (resume_fuel fuel)
  end.
Definition __resume : op := resume_fuel 2.

Definition __cmdq_write : packet_ptr -> op := cmdq_write __resume.
Definition __cmdq_write_intr (p : packet_ptr) (allow_intr : bool) : op :=
  cmdq_write_with __resume (fun c pkt => venus_hfi_queue_cmd_write_intr c pkt allow_intr) p.
Definition __sys_set_debug : Z -> op := sys_set_debug __resume.
Definition __sys_set_power_control : bool -> op := sys_set_power_control __resume.
Definition __set_subcaches : op := set_subcaches_with __resume.
Definition __release_subcaches : op := release_subcaches_with __resume.

(** ** Power collapse *)
Definition __prepare_pc : op :=
  build core_packet (hfi_packet_sys_pc_prep packet_size) ;?
  bind_op (__cmdq_write core_packet) (fun rc => ret (if rc =? 0 then 0 else - ENOTEMPTY)).

(** The end of __prepare_pc_iris2 behind its label skip_power_off. *)
Definition skip_power_off : op :=
  __read_register CTRL_STATUS_IRIS2 (fun _ =>
  __read_register WRAPPER_TZ_CPU_STATUS (fun _ => ret (- EAGAIN))).
Definition __prepare_pc_iris2 : op :=
  __read_register CTRL_STATUS_IRIS2 (fun ctrl_status =>
  if negb (Z.land ctrl_status CTRL_STATUS_PC_READY_IRIS2 =? 0) then ret 0
  else
    __read_register WRAPPER_TZ_CPU_STATUS (fun wfi_status =>
    if (Z.land wfi_status 1 =? 0) || (Z.land ctrl_status (2 ^ 30) =? 0) then skip_power_off
    else
      bind_op
        (__prepare_pc ;?
         __read_register_with_poll_timeout CTRL_STATUS_IRIS2
           CTRL_STATUS_PC_READY_IRIS2 CTRL_STATUS_PC_READY_IRIS2 ;?
         __read_register_with_poll_timeout WRAPPER_TZ_CPU_STATUS 1 1) (fun rc =>
      if rc =? 0 then ret 0 else skip_power_off))).

Definition __suspend : op :=
  looking powered (fun on =>
  if negb on then ret 0
  else strict_check ;? fw_suspend ;? (llcc_enable false ;! __venus_power_off ;! ret 0)).

Definition __power_collapse (force : bool) : op :=
  looking powered (fun on =>
  if negb on then ret 0
  else
    looking (fun s => core_in_valid_state (vc_hfi s)) (fun valid =>
    if negb valid then ret (- EINVAL)
    else
      __flush_debug_queue force ;!
      bind_op __prepare_pc_iris2 (fun rc => if rc =? 0 then __suspend else ret (- EAGAIN)))).

(** ** Loading and unloading *)
Definition clear_sub_states : op := msm_vidc_change_core_sub_state (CORE_SUBSTATE_MAX - 1) 0.
Definition __load_fw : op :=
  clear_sub_states ;!
  __venus_power_on ;?
  undo __venus_power_off fw_load ;?
  (gdsc_hw_ctrl ;! ret 0).
Definition __unload_fw : op :=
  looking vc_fw_cookie (fun cookie =>
  if cookie =? 0 then ret 0
  else upd (set_pm_work false) ;! fw_unload ;! __venus_power_off ;! clear_sub_states).

(** ** The core *)
Definition __sys_init : op :=
  build core_packet (hfi_packet_sys_init hfi_conf packet_size) ;? __cmdq_write core_packet.
Definition __sys_image_version : op :=
  build core_packet (hfi_packet_image_version packet_size) ;? __cmdq_write core_packet.

Definition queue_init : op := fun s =>
  queue_op (venus_hfi_queue_init (init_answer (vc_answers s))) (set_answers (S (vc_answers s)) s).

Definition venus_hfi_core_init : op :=
  strict_check ;?
  queue_init ;?
  __load_fw ;?
  __boot_firmware_iris2 ;?
  llcc_enable true ;?
  __sys_init ;?
  __sys_image_version ;?
  __sys_set_debug fw_log_level ;?
  __set_subcaches ;?
  (undo gdsc_sw_ctrl (__sys_set_power_control true) ;! ret 0).

Definition venus_hfi_core_deinit (force : bool) : op :=
  strict_check ;?
  looking (is_core_state MSM_VIDC_CORE_DEINIT) (fun deinit =>
  if deinit then ret 0
  else
    __resume ;!
    __flush_debug_queue force ;!
    __release_subcaches ;!
    llcc_enable false ;!
    __unload_fw ;!
    (if fw_dump then fw_coredump else ret 0) ;!
    ret 0).

(** The sessions of the core go into their error states and leave it. *)
Definition unlink_sessions : op :=
  upd (fun s =>
    set_dangling (vc_dangling s ++ map (fun i => snd (msm_vidc_change_state MSM_VIDC_ERROR i)) (vc_instances s))
      (set_instances [] s)).

Definition msm_vidc_core_deinit_locked (force : bool) : op :=
  strict_check ;?
  looking (is_core_state MSM_VIDC_CORE_DEINIT) (fun deinit =>
  if deinit then ret 0
  else
    looking (fun s => negb force && negb (bool_decide (vc_instances s = []))) (fun skip =>
    if skip then ret 0
    else
      venus_hfi_core_deinit force ;!
      unlink_sessions ;!
      msm_vidc_change_core_state MSM_VIDC_CORE_DEINIT ;!
      ret 0)).
Definition msm_vidc_core_deinit (force : bool) : op := locked (msm_vidc_core_deinit_locked force).

(** What follows a failure: the core goes into its error state and is
    deinitialised. *)
Definition fail_core (sub_state : Z) : op :=
  msm_vidc_change_core_state MSM_VIDC_CORE_ERROR ;!
  (if sub_state =? 0 then ret 0 else msm_vidc_change_core_sub_state 0 sub_state) ;!
  msm_vidc_core_deinit_locked true.

Definition msm_vidc_core_init : op :=
  locked
    (looking (fun s => core_in_valid_state (vc_hfi s)) (fun valid =>
     if valid then ret 0
     else
       looking (is_core_state MSM_VIDC_CORE_ERROR) (fun error =>
       if error then ret (- EINVAL)
       else
         msm_vidc_change_core_state MSM_VIDC_CORE_INIT_WAIT ;!
         msm_vidc_change_core_sub_state CORE_SUBSTATE_PM_SUSPEND 0 ;!
         msm_vidc_change_core_sub_state CORE_SUBSTATE_PAGE_FAULT 0 ;!
         undo (fail_core 0) venus_hfi_core_init))).

(** The wait for the answer to the first command, in rounds of 10 ms.  The
    lock is free during a round; [round n] is what happens meanwhile. *)
Definition interval : Z := 10.
Fixpoint init_wait_loop (round : nat -> op) (n : nat) : op :=
  match n with
  | O => ret 0
  | S n =>
      looking (is_core_state MSM_VIDC_CORE_INIT_WAIT) (fun waiting =>
      if negb waiting then ret 0
      else core_unlock ;! round n ;! core_lock ;! init_wait_loop round n)
  end.
Definition msm_vidc_core_init_wait (round : nat -> op) : op :=
  locked
    (looking (fun s => core_state (vc_hfi s)) (fun st =>
     match st with
     | MSM_VIDC_CORE_INIT => ret 0
     | MSM_VIDC_CORE_DEINIT | MSM_VIDC_CORE_ERROR => ret (- EINVAL)
     | MSM_VIDC_CORE_INIT_WAIT =>
         init_wait_loop round (Z.to_nat (hw_response_timeout / interval)) ;!
         looking (fun s => core_state (vc_hfi s)) (fun st =>
         match st with
         | MSM_VIDC_CORE_INIT => ret 0
         | MSM_VIDC_CORE_INIT_WAIT =>
             fail_core CORE_SUBSTATE_VIDEO_UNRESPONSIVE ;! ret (- EINVAL)
         | _ => ret (- EINVAL)
         end)
     end)).

Definition msm_vidc_inst_timeout (id : Z) : op :=
  locked
    (looking (fun s => find_inst id (vc_instances s)) (fun i =>
     match i with
     | None => ret (- EINVAL)
     | Some _ => fail_core CORE_SUBSTATE_VIDEO_UNRESPONSIVE ;! ret 0
     end)).

(** msm_vidc_add_session, of a session of the caller's *)
Definition msm_vidc_add_session (i : msm_vidc_inst) : op :=
  locked
    (looking (fun s => core_state (vc_hfi s)) (fun st =>
     if negb (bool_decide (st = MSM_VIDC_CORE_INIT)) then ret (- EINVAL)
     else
       looking (fun s => zlength (vc_instances s)) (fun count =>
       if count <? max_session_count
       then upd (fun s => set_instances (vc_instances s ++ [i]) s) else ret (- EAGAIN)))).

(** Sessions with the number of [i]. *)
Definition same_session (i : msm_vidc_inst) (j : msm_vidc_inst) : bool :=
  inst_session_id j =? inst_session_id i.
Definition msm_vidc_remove_session (i : msm_vidc_inst) : op :=
  locked
    (upd (fun s =>
       set_dangling (vc_dangling s ++ List.filter (same_session i) (vc_instances s))
         (set_instances (List.filter (fun j => negb (same_session i j)) (vc_instances s)) s))).

(** ** Suspend and resume of the system *)
Definition venus_hfi_suspend : op :=
  strict_check ;?
  (if negb sw_pc then ret 0
   else
     bind_op (__power_collapse true) (fun rc =>
       if rc =? 0 then __cancel_power_collapse_work ;! ret 0 else ret (- EBUSY))).

Definition msm_vidc_allow_pm_suspend (s : vidc_core) : msm_vidc_allow :=
  if negb (core_in_valid_state (vc_hfi s)) then MSM_VIDC_DISALLOW
  else if negb (powered s) then MSM_VIDC_IGNORE
  else MSM_VIDC_ALLOW.
Definition ENOTSUPP : Z := 524.
Definition msm_vidc_pm_suspend : op :=
  locked
    (looking msm_vidc_allow_pm_suspend (fun allow =>
     match allow with
     | MSM_VIDC_IGNORE => msm_vidc_change_core_sub_state 0 CORE_SUBSTATE_PM_SUSPEND ;! ret 0
     | MSM_VIDC_ALLOW =>
         bind_op venus_hfi_suspend (fun rc =>
           if rc =? - ENOTSUPP then ret 0
           else if negb (rc =? 0) then ret rc
           else msm_vidc_change_core_sub_state 0 CORE_SUBSTATE_PM_SUSPEND ;! ret rc)
     | _ => ret 0
     end)).
Definition msm_vidc_pm_resume : op :=
  locked (msm_vidc_change_core_sub_state CORE_SUBSTATE_PM_SUSPEND 0 ;! ret 0).

(** venus_hfi_pm_work_handler; the work is no longer queued when it runs. *)
Definition VIDC_MAX_PC_SKIP_COUNT : Z := 10.
Definition pc_result (rc : Z) : op :=
  if rc =? 0 then upd (set_skip_pc 0) ;! __cancel_power_collapse_work
  else if rc =? - EBUSY then upd (set_skip_pc 0) ;! __schedule_power_collapse_work
  else if rc =? - EAGAIN then
    upd (fun s => set_skip_pc (vc_skip_pc s + 1) s) ;! __schedule_power_collapse_work
  else ret 0.
Definition venus_hfi_pm_work_handler : op :=
  upd (set_pm_work false) ;!
  locked
    (looking (fun s => vc_skip_pc s >=? VIDC_MAX_PC_SKIP_COUNT) (fun skipped =>
     if skipped then upd (set_skip_pc 0) ;! fail_core CORE_SUBSTATE_VIDEO_UNRESPONSIVE
     else
       looking (is_core_state MSM_VIDC_CORE_DEINIT) (fun deinit =>
       if deinit then ret 0 else bind_op (__power_collapse false) pc_result))).

(** venus_hfi_scale_clocks, venus_hfi_scale_buses *)
Definition venus_hfi_scale_clocks (freq : Z) : op := locked (__resume ;? __set_clocks_ext freq).
Definition venus_hfi_scale_buses (ddr llcc : Z) : op := locked (__resume ;? set_bw ddr llcc).

(** venus_hfi_noc_error_info; __noc_error_info_iris2 reads nothing. *)
Definition venus_hfi_noc_error_info : op :=
  if negb non_fatal_faults then ret 0
  else
    locked (looking (is_core_state MSM_VIDC_CORE_DEINIT) (fun deinit =>
            if deinit then ret 0 else __resume)).

(** ** Probe *)

(** msm_vidc_initialize_core, of a core of zeros.  The check behind the last
    allocation looks at core->packet once more: a response packet that is
    missing goes unnoticed. *)
Definition msm_vidc_initialize_core : op :=
  msm_vidc_update_core_state MSM_VIDC_CORE_DEINIT ;!
  ask QWorkqueue (fun pm_workq =>
  if pm_workq =? 0 then ret (- EINVAL)
  else
    ask QWorkqueue (fun batch_workq =>
    if batch_workq =? 0 then ret (- EINVAL)
    else
      ask QAlloc (fun packet =>
      if packet =? 0 then ret (- ENOMEM)
      else
        upd (set_packet (replicate (Z.to_nat packet_size) 0)) ;!
        ask QAlloc (fun response_packet =>
        core_unlock ;!
        upd (fun s => set_dangling [] (set_instances [] s)) ;!
        ret 0)))).
Definition __init_irq : op := call QRequestIrq ;? disable_irq.
(** The part of msm_vidc_probe_video_device that concerns this state. *)
Definition probe_core : op := msm_vidc_initialize_core ;? __init_irq.
End Venus.
