(* ===== verification/VidcCmds.v ===== *)
(** The commands for one session of the video core
    (video-driver/driver/vidc/src/venus_hfi.c): each takes the lock of the
    core, looks whether the session is one of the core's, fills the packet
    buffer of the session and writes it to the command queue. *)
From S2P Require Import Prelude VidcQueue VidcMem VidcHfi VidcPacket VidcPacketSpec VidcBuffer.
From S2P Require Import VidcSession VidcCore VidcPower VidcVenus.

Definition HFI_CMD_DELIVERY_MODE : Z := 0x0100000A.
Definition HFI_CMD_SSR : Z := 0x0100000D.
Definition HFI_CMD_STABILITY : Z := 0x0100000E.
Definition HFI_CMD_RESERVE : Z := 0x0100000F.
Definition HFI_RESERVE_START : Z := 0x1.
Definition HFI_RESERVE_STOP : Z := 0x2.
Definition HFI_PROP_CODEC : Z := 0x03000100.
Definition HFI_PROP_SECURE : Z := 0x03000102.
Definition HFI_PROP_DEC_DEFAULT_HEADER : Z := 0x03000168.
Definition HFI_PROP_FENCE : Z := 0x0300018B.
Definition MSM_MEM_POOL_PACKET_SIZE : Z := 1024.

(** HFI_HOST_FLAGS_RESPONSE_REQUIRED | HFI_HOST_FLAGS_INTR_REQUIRED, and the
    same with HFI_HOST_FLAGS_NON_DISCARDABLE *)
Definition host_flags : Z := Z.lor HFI_HOST_FLAGS_RESPONSE_REQUIRED HFI_HOST_FLAGS_INTR_REQUIRED.
Definition host_flags_kept : Z := Z.lor host_flags HFI_HOST_FLAGS_NON_DISCARDABLE.

(** ** Messages that were kept back *)

(** The inner loop of venus_hfi_add_pending_packets: [num] packets of the
    message [src], from [p] on, are copied behind the message in [b].  Nothing
    compares the message that grows with the size of its buffer. *)
Fixpoint copy_packets (num : nat) (src : list Z) (p : Z) (b : list Z) : exec (Z * list Z) :=
  match num with
  | O => Done (0, b)
  | S num =>
      hdr_size ← load32 0 b;
      pkt_size ← load32 p src;
      data ← load p pkt_size src;
      b ← store hdr_size data b;
      n ← load32 28 b;
      b ← store32 28 (n + 1) b;
      b ← store32 0 (hdr_size + pkt_size) b;
      if u32 (hdr_size + pkt_size) <? p + pkt_size then Done (- EINVAL, b)
      else copy_packets num src (p + pkt_size) b
  end.
(** The result, the messages still kept back, and the buffer.  num_packets is
    a signed integer in this function. *)
Fixpoint add_pending_messages (l : list (list Z)) (b : list Z) : exec (Z * list (list Z) * list Z) :=
  match l with
  | [] => Done (0, [], b)
  | src :: l =>
      num ← load32 28 src;
      '(rc, b) ← copy_packets (if num <? 2 ^ 31 then Z.to_nat num else 0) src sizeof_hfi_header b;
      if negb (rc =? 0) then Done (rc, src :: l, b) else add_pending_messages l b
  end.

Section Cmds.
Context `{VidcKernel} `{VidcConfig} `{VidcFirmware} `{VidcPlatform}.

(** [k] on the session a pointer leads to. *)
Definition reading (id : Z) (k : msm_vidc_inst -> op) : op :=
  looking (session id) (fun i =>
  match i with
  | None => fun _ => Fault
  | Some i => k i
  end).

(** The way all of them begin. *)
Definition session_cmd (id : Z) (body : msm_vidc_inst -> op) : op :=
  reading id (fun i =>
  match inst_packet i with
  | None => ret (- EINVAL)
  | Some _ =>
      locked
        (looking (__valdiate_session id) (fun valid =>
         if negb valid then ret (- EINVAL) else reading id body))
  end).
(** The way they end: the packet is filled by [f] and written. *)
Definition send (id : Z) (f : hfi_state -> exec (Z * hfi_state)) : op :=
  build (inst_packet_of id) f ;? __cmdq_write (inst_packet_of id).

(** A header and one packet in the buffer of the session. *)
Definition session_packet (i : msm_vidc_inst) (pkt_type flags payload_type port : Z)
    (payload : option (list Z)) (payload_size : Z) (st : hfi_state) : exec (Z * hfi_state) :=
  hfi_then (begin_message packet_size (inst_session_id i) st)
    (add_packet packet_size pkt_type flags payload_type port payload payload_size).

(** Commands for a port: with another port than these two nothing is sent, and
    the result is 0. *)
Definition data_port (port : msm_vidc_port_type) : bool :=
  match port with INPUT_PORT | OUTPUT_PORT => true | _ => false end.
Definition port_cmd (id pkt_type flags : Z) (port : msm_vidc_port_type) (valid : bool) (payload_type : Z)
    (payload : option (list Z)) (payload_size : Z) : op :=
  session_cmd id (fun i =>
  if negb valid then ret 0
  else
    send id (hfi_packet_session_command packet_size pkt_type flags (get_hfi_port (inst_domain i) port)
               (inst_session_id i) payload_type payload payload_size)).

Definition venus_hfi_start (id : Z) (port : msm_vidc_port_type) : op :=
  port_cmd id HFI_CMD_START host_flags port (data_port port) HFI_PAYLOAD_NONE None 0.
Definition venus_hfi_stop (id : Z) (port : msm_vidc_port_type) : op :=
  port_cmd id HFI_CMD_STOP host_flags_kept port (data_port port) HFI_PAYLOAD_NONE None 0.
Definition venus_hfi_session_pause (id : Z) (port : msm_vidc_port_type) : op :=
  port_cmd id HFI_CMD_PAUSE host_flags port (data_port port) HFI_PAYLOAD_NONE None 0.
Definition venus_hfi_session_resume (id : Z) (port : msm_vidc_port_type) (payload : Z) : op :=
  port_cmd id HFI_CMD_RESUME host_flags port (data_port port) HFI_PAYLOAD_U32 (Some (le32 payload)) 4.
Definition venus_hfi_session_drain (id : Z) (port : msm_vidc_port_type) : op :=
  port_cmd id HFI_CMD_DRAIN host_flags_kept port (bool_decide (port = INPUT_PORT)) HFI_PAYLOAD_NONE None 0.

Definition venus_hfi_session_open (id : Z) : op :=
  session_cmd id (fun i =>
  __sys_set_debug fw_log_level ;!
  send id (hfi_packet_session_command packet_size HFI_CMD_OPEN host_flags HFI_PORT_NONE 0
             HFI_PAYLOAD_U32 (Some (le32 (inst_session_id i))) 4)).
Definition venus_hfi_session_close (id : Z) : op :=
  session_cmd id (fun i =>
  send id (hfi_packet_session_command packet_size HFI_CMD_CLOSE host_flags_kept HFI_PORT_NONE
             (inst_session_id i) HFI_PAYLOAD_NONE None 0)).
Definition venus_hfi_session_set_codec (id : Z) : op :=
  session_cmd id (fun i =>
  send id (session_packet i HFI_PROP_CODEC HFI_HOST_FLAGS_NONE HFI_PAYLOAD_U32_ENUM HFI_PORT_NONE
             (Some (le32 (get_hfi_codec (inst_domain i) (inst_codec i)))) 4)).
Definition venus_hfi_session_set_secure_mode (id : Z) : op :=
  session_cmd id (fun i =>
  send id (session_packet i HFI_PROP_SECURE HFI_HOST_FLAGS_NONE HFI_PAYLOAD_U32 HFI_PORT_NONE
             (Some (le32 (inst_secure_mode i))) 4)).

(** venus_hfi_cache_packet: the message in the buffer of the session is kept
    for later, in a piece of the pool of packets, which comes zeroed.  A message
    that is too long is refused only when its place in the list is taken: an
    entry of zeros stays there. *)
Definition pool_packet : list Z := replicate (Z.to_nat MSM_MEM_POOL_PACKET_SIZE) 0.
Definition add_pending (id : Z) (data : list Z) : op :=
  upd_session id (fun i => set_inst_pending (inst_pending i ++ [data]) i).
Definition venus_hfi_cache_packet (id : Z) : op :=
  looking (packet_at (inst_packet_of id)) (fun packet =>
  match packet with
  | None => ret (- EINVAL)
  | Some b => fun s =>
      size ← load32 0 b;
      if size <? sizeof_hfi_header then ret (- EINVAL) s
      else
        ask QAlloc (fun entry =>
        if entry =? 0 then ret (- ENOMEM)
        else if size >? MSM_MEM_POOL_PACKET_SIZE then add_pending id pool_packet ;! ret (- EINVAL)
        else fun s =>
          data ← load 0 size b;
          packet ← store 0 data pool_packet;
          add_pending id packet s) s
  end).
Definition venus_hfi_session_property (id pkt_type flags port payload_type : Z)
    (payload : option (list Z)) (payload_size : Z) : op :=
  session_cmd id (fun i =>
  build (inst_packet_of id) (session_packet i pkt_type flags payload_type port payload payload_size) ;?
  (if inst_request i then venus_hfi_cache_packet id else __cmdq_write (inst_packet_of id))).
Definition venus_hfi_session_command (id cmd : Z) (port : msm_vidc_port_type) (payload_type : Z)
    (payload : option (list Z)) (payload_size : Z) : op :=
  session_cmd id (fun i =>
  send id (session_packet i cmd host_flags payload_type (get_hfi_port (inst_domain i) port)
             payload payload_size)).

(** ** Buffers of the session *)
Definition venus_hfi_add_pending_packets (id : Z) : op :=
  reading id (fun i =>
  match inst_packet i with
  | None => ret (- EINVAL)
  | Some b => fun s =>
      size ← load32 0 b;
      if size <? sizeof_hfi_header then ret (- EINVAL) s
      else
        '(rc, l, b) ← add_pending_messages (inst_pending i) b;
        (upd_session id (fun i => set_inst_pending l (set_inst_packet (Some b) i)) ;! ret rc) s
  end).

(** hfi_create_packet of a buffer *)
Definition add_buffer (domain flags : Z) (type : msm_vidc_buffer_type) (hfi_buffer : hfi_buffer)
    (st : hfi_state) : exec (Z * hfi_state) :=
  add_packet packet_size HFI_CMD_BUFFER flags HFI_PAYLOAD_STRUCTURE
    (get_hfi_port_from_buffer_type domain type) (Some (hfi_buffer_bytes hfi_buffer)) sizeof_hfi_buffer st.
Definition add_buffer_of (domain flags : Z) (buffer : msm_vidc_buffer) : hfi_state -> exec (Z * hfi_state) :=
  add_buffer domain flags (vb_type buffer) (get_hfi_buffer domain buffer).
Definition add_metabuf (domain : Z) (metabuf : option msm_vidc_buffer) (st : hfi_state) : exec (Z * hfi_state) :=
  match metabuf with
  | None => Done (0, st)
  | Some m => add_buffer_of domain HFI_HOST_FLAGS_INTR_REQUIRED m st
  end.
(** The fence of an output buffer. *)
Definition add_fence (i : msm_vidc_inst) (buffer : msm_vidc_buffer) (st : hfi_state) : exec (Z * hfi_state) :=
  if negb (inst_outbuf_fence i && is_output_buffer (vb_type buffer)) then Done (0, st)
  else if vb_fence_id buffer =? 0 then Done (- EINVAL, st)
  else
    add_packet packet_size HFI_PROP_FENCE 0 HFI_PAYLOAD_U64 HFI_PORT_RAW
      (Some (le64 (vb_fence_id buffer))) 8 st.

Definition buffer_message (i : msm_vidc_inst) (buffer : msm_vidc_buffer) (metabuf : option msm_vidc_buffer)
    (st : hfi_state) : exec (Z * hfi_state) :=
  hfi_then (begin_message packet_size (inst_session_id i) st) (fun st =>
  hfi_then (add_buffer_of (inst_domain i) HFI_HOST_FLAGS_INTR_REQUIRED buffer st) (fun st =>
  hfi_then (add_metabuf (inst_domain i) metabuf st) (add_fence i buffer))).
Definition venus_hfi_queue_buffer (id : Z) (buffer : msm_vidc_buffer) (metabuf : option msm_vidc_buffer) : op :=
  session_cmd id (fun i =>
  build (inst_packet_of id) (buffer_message i buffer metabuf) ;?
  venus_hfi_add_pending_packets id ;?
  __cmdq_write (inst_packet_of id)).

Definition with_flags (fl : Z) (b : hfi_buffer) : hfi_buffer :=
  {| hb_type := hb_type b; hb_index := hb_index b; hb_base_address := hb_base_address b;
     hb_addr_offset := hb_addr_offset b; hb_buffer_size := hb_buffer_size b;
     hb_data_offset := hb_data_offset b; hb_data_size := hb_data_size b;
     hb_timestamp := hb_timestamp b; hb_flags := fl |}.
Definition venus_hfi_release_buffer (id : Z) (buffer : msm_vidc_buffer) : op :=
  session_cmd id (fun i =>
  let hfi_buffer := get_hfi_buffer (inst_domain i) buffer in
  send id (fun st =>
    hfi_then (begin_message packet_size (inst_session_id i) st)
      (add_buffer (inst_domain i) host_flags (vb_type buffer)
         (with_flags (Z.lor (hb_flags hfi_buffer) HFI_BUF_HOST_FLAG_RELEASE) hfi_buffer)))).

(** venus_hfi_queue_super_buffer: a batch of [batch_size] frames, each in a
    message of its own, the frames and their metadata one behind the other in
    the two buffers.  Buffers of another size than that of the batch are not
    sent, and the result is 0. *)
Definition super_part (frame_size delta : Z) (first : bool) (b : hfi_buffer) : hfi_buffer :=
  {| hb_type := hb_type b; hb_index := hb_index b; hb_base_address := hb_base_address b;
     hb_addr_offset := u32 (hb_addr_offset b + (if first then 0 else frame_size));
     hb_buffer_size := hb_buffer_size b; hb_data_offset := hb_data_offset b; hb_data_size := hb_data_size b;
     hb_timestamp := (hb_timestamp b / 1000 + (if first then 0 else delta)) * 1000 mod 2 ^ 64;
     hb_flags := hb_flags b |}.
Definition super_start (frame_size : Z) (b : hfi_buffer) : hfi_buffer :=
  {| hb_type := hb_type b; hb_index := hb_index b; hb_base_address := hb_base_address b;
     hb_addr_offset := 0; hb_buffer_size := hb_buffer_size b; hb_data_offset := hb_data_offset b;
     hb_data_size := frame_size; hb_timestamp := hb_timestamp b; hb_flags := hb_flags b |}.
Definition super_metabuf (domain : Z) (meta : option (msm_vidc_buffer * hfi_buffer)) (st : hfi_state) :
    exec (Z * hfi_state) :=
  match meta with
  | None => Done (0, st)
  | Some (m, h) => add_buffer domain HFI_HOST_FLAGS_INTR_REQUIRED (vb_type m) h st
  end.
Fixpoint super_loop (id : Z) (i : msm_vidc_inst) (buffer : msm_vidc_buffer) (frame_size meta_size delta : Z)
    (n : nat) (first : bool) (frame : hfi_buffer) (meta : option (msm_vidc_buffer * hfi_buffer)) : op :=
  match n with
  | O => ret 0
  | S n =>
      let frame := super_part frame_size delta first frame in
      let meta := option_map (fun '(m, h) => (m, super_part meta_size delta first h)) meta in
      build (inst_packet_of id) (fun st =>
        hfi_then (begin_message packet_size (inst_session_id i) st) (fun st =>
        hfi_then (add_buffer (inst_domain i) HFI_HOST_FLAGS_INTR_REQUIRED (vb_type buffer) frame st)
          (super_metabuf (inst_domain i) meta))) ;?
      __cmdq_write_intr (inst_packet_of id) (bool_decide (n = O)) ;?
      super_loop id i buffer frame_size meta_size delta n false frame meta
  end.
Definition venus_hfi_queue_super_buffer (id : Z) (buffer : msm_vidc_buffer) (metabuf : option msm_vidc_buffer)
    (batch_size frame_size meta_size frame_rate : Z) : op :=
  session_cmd id (fun i =>
  let hb b := get_hfi_buffer (inst_domain i) b in
  if Z.shiftr frame_rate 16 =? 0 then fun _ => Fault
  else if negb (u32 (frame_size * batch_size) =? vb_buffer_size buffer) then ret 0
  else if match metabuf with Some m => u32 (meta_size * batch_size) >? vb_buffer_size m | None => false end
  then ret 0
  else
    super_loop id i buffer frame_size meta_size (Z.quot 1000000 (Z.shiftr frame_rate 16) mod 2 ^ 64)
      (Z.to_nat batch_size) true (super_start frame_size (hb buffer))
      (option_map (fun m => (m, super_start meta_size (hb m))) metabuf)).

(** ** The hardware *)
Definition venus_hfi_trigger_stability (id type client_id val : Z) : op :=
  session_cmd id (fun i =>
  send id (session_packet i HFI_CMD_STABILITY host_flags HFI_PAYLOAD_U64 HFI_PORT_NONE
             (Some (le32 (Z.lor (u32 (client_id * 2 ^ 4)) type) ++ le32 val)) 8)).
Definition venus_hfi_reserve_hardware (id duration : Z) : op :=
  session_cmd id (fun i =>
  send id (session_packet i HFI_CMD_RESERVE HFI_HOST_FLAGS_NONE HFI_PAYLOAD_U32_ENUM HFI_PORT_NONE
             (Some (le32 (if duration =? 0 then HFI_RESERVE_STOP else HFI_RESERVE_START))) 4)).

(** venus_hfi_trigger_ssr is called with the lock of the core. *)
Definition venus_hfi_trigger_ssr (type client_id addr : Z) : op :=
  __resume ;?
  build core_packet (fun st =>
    hfi_then (begin_message packet_size 0 st)
      (add_packet packet_size HFI_CMD_SSR host_flags HFI_PAYLOAD_U64 HFI_PORT_NONE
         (Some (le32 (Z.lor (u32 (client_id * 2 ^ 4)) type) ++ le32 addr)) 8)) ;?
  __cmdq_write core_packet.

(** ** The driver's functions around them (src/msm_vidc_driver.c) *)
Definition msm_vidc_session_open (id : Z) : op :=
  ask QAlloc (fun packet =>
  if packet =? 0 then upd_session id (set_inst_packet None) ;! ret (- ENOMEM)
  else
    upd_session id (set_inst_packet (Some (replicate (Z.to_nat packet_size) 0))) ;!
    undo (upd_session id (set_inst_packet None)) (venus_hfi_session_open id)).
Definition msm_vidc_session_set_codec (id : Z) : op := venus_hfi_session_set_codec id.
Definition msm_vidc_session_set_secure_mode (id : Z) : op := venus_hfi_session_set_secure_mode id.
Definition msm_vidc_session_set_default_header (id default_header : Z) : op :=
  reading id (fun i =>
  venus_hfi_session_property id HFI_PROP_DEC_DEFAULT_HEADER HFI_HOST_FLAGS_NONE
    (get_hfi_port (inst_domain i) INPUT_PORT) HFI_PAYLOAD_U32 (Some (le32 default_header)) 4).
End Cmds.
