(* ===== verification/VidcScale.v ===== *)
(** Scaling the clock and the buses of the video core to what its sessions
    need (video-driver/driver/vidc/src/msm_vidc_power.c). *)
From S2P Require Import Prelude VidcQueue VidcMem VidcHfi VidcPacket VidcBuffer VidcSession VidcCore.
From S2P Require Import VidcPower VidcVenus VidcCmds.

Definition MSM_VIDC_DCVS_INCR : Z := 1.
Definition MSM_VIDC_DCVS_DECR : Z := 2.
Definition PASSIVE_VOTE : Z := 1000.

(** ** Data *)

(** What a session counts for: whether it has input to process
    (max_input_data_size) and got some of it lately (is_active_session), the
    rate and the bandwidths it needs, its DCVS flags, and whether it asks for
    the highest bandwidths (power_mode). *)
Record session_power := {
  sp_waiting : bool;
  sp_active : bool;
  sp_min_freq : Z;
  sp_dcvs_flags : Z;
  sp_turbo : bool;
  sp_ddr_bw : Z;
  sp_sys_cache_bw : Z }.

(** The thresholds of struct msm_vidc_power. *)
Record dcvs_data := {
  min_threshold : Z;
  nom_threshold : Z;
  max_threshold : Z;
  dcvs_flags : Z }.

(** How a session's needs come about is not modelled: [needs] are any; the
    others are the module parameters msm_vidc_clock_voting, msm_vidc_ddr_bw
    and msm_vidc_llc_bw. *)
Class VidcNeeds := {
  needs : vidc_core -> msm_vidc_inst -> session_power;
  clock_voting : Z;
  ddr_bw_vote : Z;
  llc_bw_vote : Z }.

(** ** DCVS *)

(** msm_vidc_dcvs_data_reset, of the buffer counts of the session's driving
    port *)
Definition msm_vidc_dcvs_data_reset (min_count max_count : Z) : dcvs_data :=
  let window := if min_count <? max_count then max_count - min_count else 0 in
  {| min_threshold := min_count; nom_threshold := min_count + window / 2;
     max_threshold := max_count; dcvs_flags := 0 |}.

Definition with_dcvs (fl : Z) (d : dcvs_data) : dcvs_data :=
  {| min_threshold := min_threshold d; nom_threshold := nom_threshold d;
     max_threshold := max_threshold d; dcvs_flags := fl |}.
(** msm_vidc_apply_dcvs, with the number of buffers that are queued now *)
Definition msm_vidc_apply_dcvs (dcvs_mode encode : bool) (queued : Z) (d : dcvs_data) : dcvs_data :=
  if negb dcvs_mode then d
  else
    let bufs_with_fw := queued + 1 in
    if bufs_with_fw >=? max_threshold d then with_dcvs MSM_VIDC_DCVS_INCR d
    else if bufs_with_fw <? min_threshold d then with_dcvs MSM_VIDC_DCVS_DECR d
    else if encode then with_dcvs 0 d
    else if (negb (Z.land (dcvs_flags d) MSM_VIDC_DCVS_DECR =? 0) && (bufs_with_fw >=? nom_threshold d))
         || (negb (Z.land (dcvs_flags d) MSM_VIDC_DCVS_INCR =? 0) && (bufs_with_fw <=? nom_threshold d))
    then with_dcvs 0 d
    else d.

(** ** The clock *)

(** The loop over the sessions: the rate they need together, whether it shall
    be raised, whether it may be lowered. *)
Fixpoint needed_rate (voting : Z) (l : list session_power) (freq : Z) (increment decrement : bool) :
    Z * bool * bool :=
  match l with
  | [] => (freq, increment, decrement)
  | p :: l =>
      if negb (sp_waiting p && sp_active p) then needed_rate voting l freq increment decrement
      else if negb (voting =? 0) then (voting, increment, false)
      else
        needed_rate voting l ((freq + sp_min_freq p) mod 2 ^ 64)
          (increment || negb (Z.land (sp_dcvs_flags p) MSM_VIDC_DCVS_INCR =? 0))
          (decrement && negb (Z.land (sp_dcvs_flags p) MSM_VIDC_DCVS_DECR =? 0))
  end.

(** msm_vidc_set_clocks counts the entries by freq_tbl_size of the platform
    data, from which the table [tbl] is made, entry by entry.
    The search from entry [i - 1] upwards to the highest rate, which is the
    first of the table: where it ends, and the rate found. *)
Fixpoint find_rate (tbl : list Z) (freq : Z) (i : nat) (rate : Z) : nat * Z :=
  match i with
  | O => (0%nat, rate)
  | S i =>
      let rate := default 0 (tbl !! i) in
      if rate >=? freq then (i, rate) else find_rate tbl freq i rate
  end.
Definition new_rate (tbl : list Z) (needed : Z * bool * bool) : Z :=
  let '(freq, increment, decrement) := needed in
  let '(i, rate) := find_rate tbl freq (length tbl) 0 in
  if increment then match i with O => rate | S j => default 0 (tbl !! j) end
  else if decrement then if Z.of_nat i <? zlength tbl - 1 then default 0 (tbl !! S i) else rate
  else rate.

(** ** The buses *)
Fixpoint needed_bw (l : list session_power) (ddr llcc : Z) : Z * Z :=
  match l with
  | [] => (ddr, llcc)
  | p :: l =>
      if negb (sp_waiting p && sp_active p) then needed_bw l ddr llcc
      else if sp_turbo p then (INT_MAX, INT_MAX)
      else needed_bw l ((ddr + sp_ddr_bw p) mod 2 ^ 64) ((llcc + sp_sys_cache_bw p) mod 2 ^ 64)
  end.
Definition bus_votes (ddr_param llc_param : Z) (bw : Z * Z) : Z * Z :=
  let ddr := if fst bw =? 0 then PASSIVE_VOTE else fst bw in
  (if ddr_param =? 0 then ddr else ddr_param, if llc_param =? 0 then snd bw else llc_param).

(** ** Operations *)
Section Scale.
Context `{VidcKernel} `{VidcConfig} `{VidcFirmware} `{VidcPlatform} `{VidcNeeds}.

(** The needs of the sessions of the core. *)
Definition all_needs (s : vidc_core) : list session_power := map (needs s) (vc_instances s).

Definition msm_vidc_set_clocks : op :=
  if bool_decide (freq_tbl = []) then ret (- EINVAL)
  else
    bind_op
      (locked
         (looking (fun s => new_rate freq_tbl (needed_rate clock_voting (all_needs s) 0 false true)) (fun rate =>
          upd (set_clk_freq (u32 rate)) ;! ret rate)))
      venus_hfi_scale_clocks.
Definition msm_vidc_set_buses : op :=
  core_lock ;!
  looking (fun s => bus_votes ddr_bw_vote llc_bw_vote (needed_bw (all_needs s) 0 0)) (fun bw =>
  core_unlock ;!
  venus_hfi_scale_buses (fst bw) (snd bw)).

(** msm_vidc_scale_power(inst, true) *)
Definition msm_vidc_scale_power (id : Z) : op :=
  reading id (fun i =>
  looking (fun s => sp_waiting (needs s i)) (fun waiting =>
  if negb waiting then ret 0
  else msm_vidc_set_clocks ;! msm_vidc_set_buses ;! ret 0)).
End Scale.
