(* ===== verification/VidcFlow.v ===== *)
(** Sequences of a video session
    (video-driver/driver/vidc/src/msm_vidc_driver.c, msm_vidc.c, msm_vdec.c,
    msm_venc.c): draining and resuming, starting and stopping a port, the
    close and the end of a session that failed. *)
From S2P Require Import Prelude VidcQueue VidcMem VidcHfi VidcPacket VidcPacketSpec VidcBuffer.
From S2P Require Import VidcSession VidcCore VidcPower VidcVenus VidcCmds VidcScale.

(** The functions of the driver around these sequences that are not modelled,
    each given the session: internal buffers, controls sent to the firmware,
    and the lists of the client's buffers. *)
Class VidcDriver := {
  alloc_and_queue_input_internal_buffers : Z -> op;
  set_stage : Z -> op;
  set_pipe : Z -> op;
  subscribe_input_metadata : Z -> op;              (* msm_vdec_subscribe_metadata(inst, INPUT_PORT) *)
  alloc_and_queue_additional_dpb_buffers : Z -> op;
  queue_deferred_output_buffers : Z -> op;
  interlace_unsupported : Z -> vidc_core -> bool;
  before_streamon : Z -> msm_vidc_port_type -> op;  (* properties, subscriptions, internal buffers *)
  after_streamon : Z -> msm_vidc_port_type -> op;
  other_action : Z -> event_action -> op;          (* formats, controls, buffers *)
  num_queued_buffers : Z -> msm_vidc_buffer_type -> vidc_core -> Z;
  flush_input_timer : Z -> op;
  flush_buffers : Z -> msm_vidc_buffer_type -> op;
  flush_read_only_buffers : Z -> msm_vidc_buffer_type -> op }.

Section Flow.
Context `{VidcKernel} `{VidcConfig} `{VidcFirmware} `{VidcPlatform} `{VidcNeeds} `{VidcDriver}.

(** ** The lock of a session *)
Definition inst_lock (id : Z) : op :=
  reading id (fun i => if inst_locked i then fun _ => Timeout else upd_session id (set_inst_locked true)).
Definition inst_unlock (id : Z) : op := upd_session id (set_inst_locked false).
Definition inst_holding (id : Z) (m : op) : op :=
  inst_lock id ;! bind_op m (fun rc => inst_unlock id ;! ret rc).

(** ** Draining and resuming *)
Definition msm_vidc_process_drain (id : Z) : op :=
  venus_hfi_session_drain id INPUT_PORT ;?
  change_session id (msm_vidc_change_sub_state 0 MSM_VIDC_DRAIN) ;?
  (msm_vidc_scale_power id ;! ret 0).

(** One port is resumed when it is paused, which [k] is told of. *)
Definition resume_port (id : Z) (port : msm_vidc_port_type) (pause cmd clear : Z)
    (may : msm_vidc_inst -> bool) (k : Z -> op) : op :=
  reading id (fun i =>
  if is_sub_state i pause && may i
  then venus_hfi_session_resume id port cmd ;? k (Z.lor clear pause)
  else k clear).
Definition resume_ports (id cmd clear : Z) (k : Z -> op) : op :=
  resume_port id INPUT_PORT MSM_VIDC_INPUT_PAUSE cmd clear (fun _ => true) (fun clear =>
  resume_port id OUTPUT_PORT MSM_VIDC_OUTPUT_PAUSE cmd clear
    (fun i => negb (is_encode_session (inst_domain i))) k).

Definition DRC_DONE : Z := Z.lor MSM_VIDC_DRC MSM_VIDC_DRC_LAST_BUFFER.
Definition DRAIN_DONE : Z := Z.lor MSM_VIDC_DRAIN MSM_VIDC_DRAIN_LAST_BUFFER.
Definition msm_vidc_process_resume (id : Z) : op :=
  msm_vidc_scale_power id ;!
  reading id (fun i =>
  let finish clear := change_session id (msm_vidc_change_sub_state clear 0) in
  if is_drc_pending i then
    if is_drain_pending i then finish DRC_DONE
    else resume_ports id HFI_CMD_SETTINGS_CHANGE DRC_DONE finish
  else if is_drain_pending i then resume_ports id HFI_CMD_DRAIN DRAIN_DONE finish
  else finish MSM_VIDC_SUB_STATE_NONE).

(** msm_vidc_stop_cmd, msm_vidc_start_cmd *)
Definition msm_vidc_stop_cmd (id : Z) : op :=
  reading id (fun i =>
  if negb (is_decode_session (inst_domain i)) && negb (is_encode_session (inst_domain i))
  then ret (- EINVAL) else msm_vidc_process_drain id).
Definition input_buffers_anew (id : Z) : op :=
  alloc_and_queue_input_internal_buffers id ;? set_stage id ;? set_pipe id.
Definition msm_vdec_start_cmd (id : Z) : op :=
  looking (interlace_unsupported id) (fun unsupported =>
  if unsupported then ret (- EINVAL)
  else
    msm_vidc_scale_power id ;!
    reading id (fun i =>
      if is_drc_pending i && is_sub_state i MSM_VIDC_INPUT_PAUSE then input_buffers_anew id else ret 0) ;?
    alloc_and_queue_additional_dpb_buffers id ;?
    queue_deferred_output_buffers id ;?
    msm_vidc_process_resume id).
Definition msm_venc_start_cmd (id : Z) : op :=
  msm_vidc_scale_power id ;! msm_vidc_process_resume id.
Definition msm_vidc_start_cmd (id : Z) : op :=
  reading id (fun i =>
  if is_decode_session (inst_domain i) then msm_vdec_start_cmd id
  else if is_encode_session (inst_domain i) then msm_venc_start_cmd id
  else ret (- EINVAL)).

(** ** Starting a port *)
Definition clear_pause (id pause : Z) : op :=
  reading id (fun i =>
  if is_sub_state i pause then change_session id (msm_vidc_change_sub_state pause 0) else ret 0).
Definition msm_vidc_process_streamon_input (id : Z) : op :=
  msm_vidc_scale_power id ;!
  venus_hfi_start id INPUT_PORT ;?
  clear_pause id MSM_VIDC_INPUT_PAUSE ;?
  reading id (fun i =>
  let finish set :=
    change_session id (msm_vidc_state_change_streamon INPUT_PORT) ;?
    change_session id (msm_vidc_change_sub_state 0 set) in
  if (is_sub_state i MSM_VIDC_DRC || is_sub_state i MSM_VIDC_DRAIN || is_sub_state i MSM_VIDC_FIRST_IPSC)
     && negb (is_sub_state i MSM_VIDC_INPUT_PAUSE)
  then venus_hfi_session_pause id INPUT_PORT ;? finish MSM_VIDC_INPUT_PAUSE
  else finish MSM_VIDC_SUB_STATE_NONE).

Definition msm_vidc_process_streamon_output (id : Z) : op :=
  msm_vidc_scale_power id ;!
  reading id (fun i =>
  let clear := if is_drc_pending i then DRC_DONE else MSM_VIDC_SUB_STATE_NONE in
  (if is_decode_session (inst_domain i) && is_sub_state i MSM_VIDC_INPUT_PAUSE
   then input_buffers_anew id ;? subscribe_input_metadata id else ret 0) ;?
  resume_port id INPUT_PORT MSM_VIDC_INPUT_PAUSE HFI_CMD_SETTINGS_CHANGE clear
    (fun i => negb (is_drain_pending i) && is_state i MSM_VIDC_INPUT_STREAMING) (fun clear =>
  reading id (fun i =>
  let clear :=
    if is_sub_state i MSM_VIDC_FIRST_IPSC then Z.lor clear MSM_VIDC_FIRST_IPSC else clear in
  venus_hfi_start id OUTPUT_PORT ;?
  clear_pause id MSM_VIDC_OUTPUT_PAUSE ;?
  change_session id (msm_vidc_state_change_streamon OUTPUT_PORT) ;?
  change_session id (msm_vidc_change_sub_state clear 0)))).

(** ** Waiting for the firmware *)

(** wait_for_completion_timeout with the lock of the session free:
    [meanwhile] is what happens until the completion is signalled or the time
    is over.  A completion that was signalled before ends the wait as well. *)
Definition wait_signal (id : Z) (cmd : signal_session_response) (meanwhile : op) : op :=
  inst_unlock id ;!
  meanwhile ;!
  bind_op
    (reading id (fun i =>
     if 0 <? signal_count cmd i then upd_session id (add_signal (-1) cmd)
     else msm_vidc_inst_timeout id ;! ret (- ETIMEDOUT)))
    (fun rc => inst_lock id ;! ret rc).

Definition msm_vidc_session_close (id : Z) (meanwhile : op) : op :=
  bind_op (venus_hfi_session_close id) (fun rc =>
  upd_session id (set_inst_packet None) ;!
  (if rc =? 0 then wait_signal id SIGNAL_CMD_CLOSE meanwhile else ret rc)).

Definition msm_vidc_kill_session (id : Z) (meanwhile : op) : op :=
  reading id (fun i =>
  if inst_session_id i =? 0 then ret 0
  else
    msm_vidc_session_close id meanwhile ;!
    change_session id (msm_vidc_change_state MSM_VIDC_ERROR) ;!
    ret 0).

(** ** Stopping a port *)
Definition flush_port (id : Z) (type : msm_vidc_buffer_type) : op :=
  flush_buffers id type ;! flush_read_only_buffers id type.
(** What [meanwhile] is given tells the wait for the stop (0) from that for
    the close of a session that could not be stopped (1). *)
Definition streamoff_port (id : Z) (port : msm_vidc_port_type) (cmd : signal_session_response)
    (type : msm_vidc_buffer_type) (meanwhile : nat -> op) : op :=
  bind_op
    (venus_hfi_stop id port ;?
     wait_signal id cmd (meanwhile 0%nat) ;?
     ((match port with INPUT_PORT => flush_input_timer id | _ => ret 0 end) ;!
      looking (num_queued_buffers id type) (fun count =>
      if negb (count =? 0) then ret (- EINVAL)
      else change_session id (msm_vidc_state_change_streamoff port)))) (fun rc =>
  if rc =? 0 then flush_port id type ;! ret 0
  else msm_vidc_kill_session id (meanwhile 1%nat) ;! flush_port id type ;! ret rc).
Definition msm_vidc_session_streamoff (id : Z) (port : msm_vidc_port_type) (meanwhile : nat -> op) : op :=
  match port with
  | INPUT_PORT => streamoff_port id port SIGNAL_CMD_STOP_INPUT MSM_VIDC_BUF_INPUT meanwhile
  | OUTPUT_PORT => streamoff_port id port SIGNAL_CMD_STOP_OUTPUT MSM_VIDC_BUF_OUTPUT meanwhile
  | _ => ret (- EINVAL)
  end.

(** ** What the client asks for (src/msm_vidc_v4l2.c, msm_vidc_vb2.c) *)

(** get_inst_ref, get_inst: the session of the core that [found] accepts, if
    it can be kept from being freed; [k] is given its pointer. *)
Definition get_ref (found : msm_vidc_inst -> bool) (k : option Z -> op) : op :=
  core_lock ;!
  looking (fun s => List.find found (vc_instances s)) (fun i =>
  match i with
  | None => core_unlock ;! k None
  | Some i =>
      ask (QInstRef (inst_id i)) (fun ok =>
        core_unlock ;! k (if ok =? 0 then None else Some (inst_id i)))
  end).
Definition get_inst_ref (id : Z) : (option Z -> op) -> op := get_ref (fun i => inst_id i =? id).
Definition get_inst (session_id : Z) : (option Z -> op) -> op :=
  get_ref (fun i => inst_session_id i =? session_id).

(** A call of the client's: [m] under the lock of the session. *)
Definition client_call (id : Z) (m : op) : op :=
  get_inst_ref id (fun i =>
  match i with
  | None => ret (- EINVAL)
  | Some id => inst_holding id m
  end).
(** The same, refused for a session in its error state. *)
Definition checked_call (id : Z) (m : op) : op :=
  client_call id (reading id (fun i => if is_session_error i then ret (- EBUSY) else m)).

Definition plane_port (type : v4l2_type) : option msm_vidc_port_type :=
  match type with INPUT_MPLANE => Some INPUT_PORT | OUTPUT_MPLANE => Some OUTPUT_PORT | _ => None end.
Definition is_meta_plane (type : v4l2_type) : bool :=
  match type with INPUT_META_PLANE | OUTPUT_META_PLANE => true | _ => false end.
(** A function for a port of a decoder or an encoder. *)
Definition for_port (id : Z) (type : v4l2_type) (f : msm_vidc_port_type -> op) : op :=
  if is_meta_plane type then ret 0
  else
    match plane_port type with
    | None => ret (- EINVAL)
    | Some port =>
        reading id (fun i =>
        if negb (is_decode_session (inst_domain i)) && negb (is_encode_session (inst_domain i))
        then ret (- EINVAL) else f port)
    end.
Definition msm_vidc_start_streaming (id : Z) (type : v4l2_type) : op :=
  for_port id type (fun port =>
  before_streamon id port ;?
  (match port with
   | INPUT_PORT => msm_vidc_process_streamon_input id
   | _ => msm_vidc_process_streamon_output id
   end) ;?
  after_streamon id port).
Definition msm_vidc_stop_streaming (id : Z) (type : v4l2_type) (meanwhile : nat -> op) : op :=
  for_port id type (fun port => msm_vidc_session_streamoff id port meanwhile).

(** What a handler of an event decided. *)
Definition run_action (id : Z) (meanwhile : nat -> op) (a : event_action) : op :=
  match a with
  | EvReturn rc => ret rc
  | VidcSession.msm_vidc_start_streaming type => msm_vidc_start_streaming id type
  | VidcSession.msm_vidc_stop_streaming type => msm_vidc_stop_streaming id type meanwhile
  | VidcSession.msm_vidc_start_cmd => msm_vidc_start_cmd id
  | VidcSession.msm_vidc_stop_cmd => msm_vidc_stop_cmd id
  | a => other_action id a
  end.
Definition handle_event (id : Z) (meanwhile : nat -> op) (event : msm_vidc_event) : op :=
  reading id (fun i => run_action id meanwhile (event_handle i event)).

(** msm_v4l2_decoder_cmd, msm_v4l2_encoder_cmd *)
Definition msm_v4l2_cmd (id : Z) (start : bool) : op :=
  checked_call id (handle_event id (fun _ => ret 0) (if start then MSM_VIDC_CMD_START else MSM_VIDC_CMD_STOP)).
(** msm_vb2_start_streaming and msm_vb2_stop_streaming, as vb2_streamon and
    vb2_streamoff call them. *)
Definition fail_event (id : Z) (m : op) : op :=
  bind_op m (fun rc =>
  if rc =? 0 then ret 0 else change_session id (msm_vidc_change_state MSM_VIDC_ERROR) ;! ret rc).
Definition msm_v4l2_streamon (id : Z) (type : v4l2_type) : op :=
  checked_call id (fail_event id (handle_event id (fun _ => ret 0) (MSM_VIDC_STREAMON type))).
Definition msm_v4l2_streamoff (id : Z) (type : v4l2_type) (meanwhile : nat -> op) : op :=
  client_call id (fail_event id (handle_event id meanwhile (MSM_VIDC_STREAMOFF type)) ;! ret 0).

(** msm_vidc_close, up to the last reference to the session *)
Definition msm_vidc_close (id : Z) (meanwhile : op) : op :=
  inst_holding id
    (msm_vidc_session_close id meanwhile ;!
     change_session id (msm_vidc_change_state MSM_VIDC_CLOSE) ;!
     upd_session id (set_inst_sub_state MSM_VIDC_SUB_STATE_NONE) ;!
     ret 0).
End Flow.
