(* ===== verification/VidcResponse.v ===== *)
(** What the video driver does with an interrupt and with the messages of the
    firmware that concern the whole core
    (video-driver/driver/vidc/src/venus_hfi.c, venus_hfi_response.c). *)
From S2P Require Import Prelude VidcQueue VidcMem VidcHfi VidcPacket VidcPacketSpec VidcBuffer.
From S2P Require Import VidcSession VidcCore VidcPower VidcVenus.

Definition HFI_SYS_ERROR_WD_TIMEOUT : Z := 0x05000001.
Definition HFI_SYS_ERROR_NOC : Z := 0x05000002.
Definition HFI_SYS_ERROR_FATAL : Z := 0x05000003.
Definition VENUS_VERSION_LENGTH : Z := 128.

(** handle_session_response, of a message: for what is stated here it is any
    operation on the core (VidcReply.v has the one of the code). *)
Class VidcSessions := { session_response : list Z -> op }.

Section Response.
Context `{VidcKernel} `{VidcConfig} `{VidcFirmware} `{VidcPlatform} `{VidcSessions}.

(** ** System errors *)

(** handle_system_error, of a packet of type [pkt] or of none. *)
Definition noc_of (pkt : option Z) : op :=
  match pkt with
  | Some ty => if ty =? HFI_SYS_ERROR_NOC then venus_hfi_noc_error_info else ret 0
  | None => ret 0
  end.
Definition bug_of (pkt : option Z) : bool :=
  match pkt with
  | Some ty =>
      ((ty =? HFI_SYS_ERROR_FATAL) || (ty =? HFI_SYS_ERROR_NOC) || (ty =? HFI_SYS_ERROR_WD_TIMEOUT)) && bug_on ty
  | None => false
  end.
Definition handle_system_error (pkt : option Z) : op :=
  noc_of pkt ;!
  (if bug_of pkt then fun _ => Fault
   else
     locked (msm_vidc_change_core_state MSM_VIDC_CORE_ERROR ;! msm_vidc_core_deinit_locked true) ;!
     ret 0).

(** ** Messages for the core *)
Definition handle_system_init (pkt : hfi_packet) : op :=
  if Z.land (hp_flags pkt) HFI_FW_FLAGS_SUCCESS =? 0 then ret 0
  else
    locked
      (looking (fun s => sys_init_id (vc_ids s)) (fun id =>
       if negb (hp_packet_id pkt =? id) then ret 0
       else msm_vidc_change_core_state MSM_VIDC_CORE_INIT ;! ret 0)).

(** The version text, of the packet at [p]: zeros become blanks. *)
Definition handle_image_version_property (b : list Z) (p : Z) (pkt : hfi_packet) : op :=
  let req_bytes := u32 (hp_size pkt - sizeof_hfi_packet) in
  if req_bytes <? VENUS_VERSION_LENGTH - 1 then ret (- EINVAL)
  else fun s =>
    str ← load (p + sizeof_hfi_packet) (VENUS_VERSION_LENGTH - 1) b;
    Done (0, set_fw_version (map (fun c => if c =? 0 then 32 else c) str ++ [0]) s).

Definition handle_system_property (b : list Z) (p : Z) (pkt : hfi_packet) : op :=
  if hp_type pkt =? HFI_PROP_IMAGE_VERSION then handle_image_version_property b p pkt else ret 0.

Definition is_in_range (range : Z * Z) (val : Z) : bool := (fst range <? val) && (val <? snd range).

(** The ranges of handle_system_response with their handlers. *)
Definition system_ranges : list ((Z * Z) * (list Z -> Z -> hfi_packet -> op)) :=
  [((HFI_SYSTEM_ERROR_BEGIN, HFI_SYSTEM_ERROR_END), fun _ _ pkt => handle_system_error (Some (hp_type pkt)));
   ((HFI_PROP_BEGIN, HFI_PROP_END), handle_system_property);
   ((HFI_CMD_BEGIN, HFI_CMD_END), fun _ _ pkt => handle_system_init pkt)].

(** The packets of a message for one range; [first] for the range of system
    errors, [next] for what follows the last packet (with the last result). *)
Fixpoint handle_range (b : list Z) (first : bool) (range : Z * Z) (handle : list Z -> Z -> hfi_packet -> op)
    (l : list (Z * hfi_packet)) (rc : Z) (next : Z -> op) : op :=
  match l with
  | [] => next rc
  | (p, pkt) :: l =>
      if negb (Z.land (hp_flags pkt) HFI_FW_FLAGS_SYSTEM_ERROR =? 0)
      then handle_system_error (Some (hp_type pkt))
      else if is_in_range range (hp_type pkt) then
        bind_op (handle b p pkt) (fun rc =>
          if negb (rc =? 0) then ret rc
          else if first then ret rc
          else handle_range b first range handle l rc next)
      else handle_range b first range handle l rc next
  end.
Fixpoint handle_ranges (b : list Z) (first : bool) (l : list (Z * hfi_packet))
    (be : list ((Z * Z) * (list Z -> Z -> hfi_packet -> op))) (rc : Z) : op :=
  match be with
  | [] => ret rc
  | (range, handle) :: be => handle_range b first range handle l rc (handle_ranges b false l be)
  end.
Definition handle_system_response (b : list Z) : op := fun s =>
  l ← message_packets b packet_size;
  handle_ranges b true l system_ranges 0 s.

(** handle_response, of the message in core->response_packet *)
Definition handle_response (b : list Z) : op := fun s =>
  rc ← validate_hdr_packet b packet_size;
  if negb (rc =? 0) then handle_system_error None s
  else
    session_id ← load32 4 b;
    (if session_id =? 0 then handle_system_response b else session_response b) s.

(** ** Interrupts *)

(** The loop of __response_handler: it ends when a read fails or the core has
    left INIT after a message handled without error; [k] gets the last result
    and the buffer. *)
Fixpoint respond (fuel : nat) (buf : list Z) (rc : Z) (k : Z -> list Z -> op) : op :=
  match fuel with
  | O => fun _ => Timeout
  | S fuel => fun s =>
      '(read, c, ws) ← venus_hfi_queue_msg_read (vc_hfi s) (Some (le_words buf));
      ws ← deref ws;
      let s := set_hfi c s in
      if negb (read =? 0) then k rc (words ws) s
      else
        bind_op (handle_response (words ws)) (fun rc =>
          if negb (rc =? 0) then respond fuel (words ws) rc k
          else
            looking (is_core_state MSM_VIDC_CORE_INIT) (fun init =>
            if negb init then k rc (words ws)
            else respond fuel (replicate (Z.to_nat packet_size) 0) rc k)) s
  end.

Definition __response_handler : op :=
  looking watchdog (fun wd =>
  if wd then
    locked (msm_vidc_change_core_state MSM_VIDC_CORE_ERROR ;!
            msm_vidc_change_core_sub_state 0 CORE_SUBSTATE_CPU_WATCHDOG) ;!
    handle_system_error (Some HFI_SYS_ERROR_WD_TIMEOUT)
  else
    respond flush_fuel (replicate (Z.to_nat packet_size) 0) 0 (fun rc buf =>
      __schedule_power_collapse_work ;! flush_to (flush_local buf) ;! ret rc)).

(** venus_hfi_isr, venus_hfi_isr_handler *)
Definition venus_hfi_isr : op := disable_irq.
Definition venus_hfi_isr_handler : op :=
  bind_op (locked (__resume ;? (__clear_interrupt_iris2 ;! ret 0))) (fun rc =>
    (if rc =? 0 then __response_handler else ret 0) ;!
    looking watchdog (fun wd => if wd then ret 0 else enable_irq)).
End Response.
