(* ===== verification/VidcReply.v ===== *)
(** What the video driver does with the messages of the firmware for one
    session (video-driver/driver/vidc/src/venus_hfi_response.c). *)
From S2P Require Import Prelude VidcQueue VidcMem VidcHfi VidcPacket VidcPacketSpec VidcBuffer.
From S2P Require Import VidcSession VidcCore VidcPower VidcVenus VidcCmds VidcScale VidcFlow VidcResponse.

(** ** Handlers that concern the state of the session only *)

(** handle_session_error: the kind of error is only printed. *)
Definition handle_session_error (i : msm_vidc_inst) : Z * msm_vidc_inst :=
  msm_vidc_change_state MSM_VIDC_ERROR i.

Definition handle_session_last_flag_info (type : Z) (i : msm_vidc_inst) : Z * msm_vidc_inst :=
  let '(rc, i) :=
    if type =? HFI_INFO_HFI_FLAG_PSC_LAST then
      if msm_vidc_allow_psc_last_flag i then msm_vidc_process_psc_last_flag i else (- EINVAL, i)
    else if type =? HFI_INFO_HFI_FLAG_DRAIN_LAST then
      if msm_vidc_allow_drain_last_flag i then msm_vidc_process_drain_last_flag i else (- EINVAL, i)
    else (0, i) in
  (rc, if rc =? 0 then i else inst_error i).

Definition handle_session_info (type : Z) (i : msm_vidc_inst) : Z * msm_vidc_inst :=
  let fi := inst_frame_info i in
  if type =? HFI_INFO_DATA_CORRUPT then
    (0, set_inst_frame_info {| data_corrupt := 1; overflow := overflow fi; fence_error := fence_error fi |} i)
  else if type =? HFI_INFO_BUFFER_OVERFLOW then
    (0, set_inst_frame_info {| data_corrupt := data_corrupt fi; overflow := 1; fence_error := fence_error fi |} i)
  else if type =? HFI_INFO_FENCE_SIGNAL_ERROR then
    (0, set_inst_frame_info {| data_corrupt := data_corrupt fi; overflow := overflow fi; fence_error := 1 |} i)
  else if (type =? HFI_INFO_HFI_FLAG_DRAIN_LAST) || (type =? HFI_INFO_HFI_FLAG_PSC_LAST) then
    handle_session_last_flag_info type i
  else (0, i).

(** The signal for the port of a stopped session. *)
Definition stop_signal (domain port : Z) : option signal_session_response :=
  if is_encode_session domain then
    if port =? HFI_PORT_RAW then Some SIGNAL_CMD_STOP_INPUT
    else if port =? HFI_PORT_BITSTREAM then Some SIGNAL_CMD_STOP_OUTPUT else None
  else if is_decode_session domain then
    if port =? HFI_PORT_RAW then Some SIGNAL_CMD_STOP_OUTPUT
    else if port =? HFI_PORT_BITSTREAM then Some SIGNAL_CMD_STOP_INPUT else None
  else None.
Definition handle_session_stop (pkt : hfi_packet) (i : msm_vidc_inst) : Z * msm_vidc_inst :=
  match stop_signal (inst_domain i) (hp_port pkt) with
  | None => (- EINVAL, i)
  | Some cmd => msm_vidc_process_stop_done cmd i
  end.
Definition handle_session_close (i : msm_vidc_inst) : Z * msm_vidc_inst :=
  (0, signal_session_msg_receipt SIGNAL_CMD_CLOSE i).
Definition handle_session_drain (i : msm_vidc_inst) : Z * msm_vidc_inst := msm_vidc_process_drain_done i.

(** The handlers that look into formats, properties and buffers; they are not
    modelled.  The packet of a property is at a place of the message. *)
Class VidcReplies := {
  input_port_settings_change : Z -> op;
  output_port_settings_change : Z -> op;
  session_property : Z -> list Z -> Z -> hfi_packet -> op;     (* handle_session_property *)
  session_buffer : Z -> buffer_handler -> hfi_buffer -> op;    (* the handlers of buffers *)
  handle_dequeue_buffers : Z -> op;
  init_input_subcr_params : Z -> op }.

Section Reply.
Context `{VidcKernel} `{VidcConfig} `{VidcFirmware} `{VidcPlatform} `{VidcReplies}.

(** ** Commands answered, and changes of a port *)
Definition session_error (id : Z) : op := change_session id (msm_vidc_change_state MSM_VIDC_ERROR).

Definition handle_input_port_settings_change (id : Z) : op :=
  reading id (fun i =>
  match msm_vidc_allow_input_psc i with
  | MSM_VIDC_DISALLOW => ret (- EINVAL)
  | MSM_VIDC_ALLOW =>
      change_session id msm_vidc_state_change_input_psc ;? input_port_settings_change id
  | _ => ret 0
  end).
Definition handle_port_settings_change (id : Z) (pkt : hfi_packet) : op :=
  bind_op
    (if hp_port pkt =? HFI_PORT_RAW then output_port_settings_change id
     else if hp_port pkt =? HFI_PORT_BITSTREAM then handle_input_port_settings_change id
     else ret (- EINVAL)) (fun rc =>
  (if rc =? 0 then ret 0 else session_error id) ;! ret rc).

Definition run_buffer_action (id : Z) (a : buffer_action) : op :=
  match a with
  | BufIgnored => ret 0
  | BufSessionError => session_error id ;! ret 0
  | BufRefused => ret (- EINVAL)
  | BufHandled h buffer => session_buffer id h buffer
  end.
Definition session_buffer_packet (id : Z) (b : list Z) (p : Z) (pkt : hfi_packet) : op :=
  reading id (fun i s => a ← handle_session_buffer (inst_domain i) b p pkt; run_buffer_action id a s).

(** The table hfi_pkt_handle of handle_session_command. *)
Definition nothing (id : Z) (b : list Z) (p : Z) (pkt : hfi_packet) : op := ret 0.
Definition hfi_pkt_handle : list (Z * (Z -> list Z -> Z -> hfi_packet -> op)) :=
  [(HFI_CMD_OPEN, nothing);
   (HFI_CMD_CLOSE, fun id _ _ _ => change_session id handle_session_close);
   (HFI_CMD_START, nothing);
   (HFI_CMD_STOP, fun id _ _ pkt => change_session id (handle_session_stop pkt));
   (HFI_CMD_DRAIN, fun id _ _ _ => change_session id handle_session_drain);
   (HFI_CMD_BUFFER, session_buffer_packet);
   (HFI_CMD_SETTINGS_CHANGE, fun id _ _ pkt => handle_port_settings_change id pkt);
   (HFI_CMD_SUBSCRIBE_MODE, nothing);
   (HFI_CMD_DELIVERY_MODE, nothing);
   (HFI_CMD_PAUSE, nothing);
   (HFI_CMD_RESUME, nothing);
   (HFI_CMD_STABILITY, nothing)].
Definition handle_session_command (id : Z) (b : list Z) (p : Z) (pkt : hfi_packet) : op :=
  match List.find (fun e => fst e =? hp_type pkt) hfi_pkt_handle with
  | None => ret (- EINVAL)
  | Some (_, handle) => handle id b p pkt
  end.

(** ** Messages *)

(** The ranges of __handle_session_response with their handlers. *)
Definition session_ranges : list ((Z * Z) * (Z -> list Z -> Z -> hfi_packet -> op)) :=
  [((HFI_SESSION_ERROR_BEGIN, HFI_SESSION_ERROR_END), fun id _ _ _ => change_session id handle_session_error);
   ((HFI_INFORMATION_BEGIN, HFI_INFORMATION_END),
    fun id _ _ pkt => change_session id (handle_session_info (hp_type pkt)));
   ((HFI_PROP_BEGIN, HFI_PROP_END), session_property);
   ((HFI_CMD_BEGIN, HFI_CMD_END), handle_session_command)].

(** The packets of a message for one range: [rc] is the last result of a
    handler, [dequeue] whether a buffer was among them; both go on to what
    follows.  A packet marked as a session error counts as one for each of the
    ranges. *)
Fixpoint session_range (id : Z) (b : list Z) (range : Z * Z) (handle : Z -> list Z -> Z -> hfi_packet -> op)
    (l : list (Z * hfi_packet)) (rc : Z) (dequeue : bool) (k : Z -> bool -> op) : op :=
  match l with
  | [] => k rc dequeue
  | (p, pkt) :: l =>
      (if negb (Z.land (hp_flags pkt) HFI_FW_FLAGS_SESSION_ERROR =? 0)
       then change_session id handle_session_error else ret 0) ;!
      (if is_in_range range (hp_type pkt) then
         bind_op (handle id b p pkt) (fun rc =>
           (if rc =? 0 then ret 0 else session_error id) ;!
           session_range id b range handle l rc (dequeue || (hp_type pkt =? HFI_CMD_BUFFER)) k)
       else session_range id b range handle l rc dequeue k)
  end.
Fixpoint handle_session_ranges (id : Z) (b : list Z) (l : list (Z * hfi_packet))
    (be : list ((Z * Z) * (Z -> list Z -> Z -> hfi_packet -> op))) (rc : Z) (dequeue : bool)
    (k : Z -> bool -> op) : op :=
  match be with
  | [] => k rc dequeue
  | (range, handle) :: be =>
      session_range id b range handle l rc dequeue (fun rc dequeue =>
        handle_session_ranges id b l be rc dequeue k)
  end.

Definition clear_frame_info (id : Z) : op := upd_session id (set_inst_frame_info no_frame_info).
Definition __handle_session_response (id : Z) (b : list Z) : op :=
  clear_frame_info id ;!
  fun s =>
    l ← message_packets b packet_size;
    handle_session_ranges id b l session_ranges 0 false (fun rc dequeue =>
      bind_op (if dequeue then handle_dequeue_buffers id else ret 0) (fun rc' =>
      if negb (rc' =? 0) then ret rc'
      else clear_frame_info id ;! ret (if dequeue then 0 else rc))) s.

(** A change of the settings of the input port is among the packets. *)
Definition is_input_change (e : Z * hfi_packet) : bool :=
  (hp_type (snd e) =? HFI_CMD_SETTINGS_CHANGE) && (hp_port (snd e) =? HFI_PORT_BITSTREAM).
Definition handle_session_response (b : list Z) : op := fun s =>
  session_id ← load32 4 b;
  get_inst session_id (fun i =>
  match i with
  | None => ret (- EINVAL)
  | Some id =>
      inst_holding id (fun s =>
        l ← message_packets b packet_size;
        ((if existsb is_input_change l then init_input_subcr_params id else ret 0) ;!
         __handle_session_response id b) s)
  end) s.
#[export] Instance code_sessions : VidcSessions := {| session_response := handle_session_response |}.
End Reply.
