(* ===== verification/VidcBufSpec.v ===== *)
(** The packet buffers of the video core on their way to and from its queues:
    every function that fills one leaves a message in it, a buffer read as
    words is one the queues can take, and the loop over the debug queue
    drains it. *)
From S2P Require Import Prelude VidcQueue VidcQueueSpec VidcMem VidcHfi VidcHfiInv VidcHfiThms.
From S2P Require Import VidcPacket VidcPacketSpec VidcBuffer VidcSession VidcCore.
From S2P Require Import VidcPower VidcVenus.

(** ** Messages *)

(** The buffer, of 4096 bytes, starts with a message. *)
Definition message_buffer (b : list Z) : Prop :=
  exists sid hid ps rest, b = message_bytes sid hid ps ++ rest /\ zlength b = 4096 /\
    message_length ps <= 4096.

(** [f], on a buffer in [P], comes back with a buffer that starts with a
    message. *)
Definition builds (P : list Z -> Prop) (f : hfi_state -> exec (Z * hfi_state)) : Prop :=
  forall c b, P b -> exists rc c' b', f (c, Some b) = Done (rc, (c', Some b')) /\ message_buffer b'.
Definition sized (b : list Z) : Prop := zlength b = 4096.

Lemma message_buffer_sized b : message_buffer b -> sized b.
Proof. now intros (? & ? & ? & ? & _ & ? & _). Qed.

Lemma begin_message_builds sid : builds sized (begin_message packet_size sid).
Proof.
  intros c b Hb. unfold begin_message, packet_size. cbn [fst snd]. unfold sized in Hb.
  rewrite create_header_ok by lia. cbn [mbind exec_bind fst snd]. do 3 eexists. split; [reflexivity|].
  exists sid, (header_id c), [], (drop 32 b). split; [done|]. split; [|vm_compute; discriminate].
  rewrite zlength_app, zlength_message. change (message_length []) with 32.
  unfold zlength in *. rewrite length_drop. lia.
Qed.

Lemma add_packet_builds ty fl pi po payload n :
  0 <= n < 2 ^ 31 -> (n = 0 \/ exists l, payload = Some l /\ zlength l = n) ->
  builds message_buffer (add_packet packet_size ty fl pi po payload n).
Proof.
  intros Hn Hp c b (sid & hid & ps & rest & -> & Hl & Hm). unfold add_packet. cbn [fst snd].
  set (p := {| p_type := ty; p_flags := fl; p_payload_info := pi; p_port := po; p_id := packet_id c;
               p_payload := match payload with Some l => if n =? 0 then [] else l | None => [] end |}).
  assert (Hn' : zlength (p_payload p) = n).
  { cbn. destruct Hp as [->|(l & -> & Hl')]; [destruct payload; reflexivity|].
    destruct (n =? 0) eqn:E; zb; [subst; symmetry; exact E|exact Hl']. }
  assert (Hpl : p_payload p = [] \/ payload = Some (p_payload p)).
  { cbn. destruct payload as [l|]; [|now left]. destruct (n =? 0); auto. }
  pose proof (message_length_pos ps) as H32. pose proof (packet_length_pos p) as H32'.
  assert (Hpk : packet_length p = 32 + n) by (unfold packet_length; rewrite Hn'; reflexivity).
  rewrite <- Hn'. change ty with (p_type p) at 1. change fl with (p_flags p) at 1.
  change pi with (p_payload_info p) at 1. change po with (p_port p) at 1.
  change (packet_id c) with (p_id p) at 1.
  destruct (Z_le_gt_dec (message_length ps + packet_length p) packet_size) as [Hfit|Hfit].
  - rewrite (create_packet_ok sid hid ps p rest packet_size) by (unfold packet_size in *; (lia || exact Hpl)).
    cbn [mbind exec_bind fst snd]. do 3 eexists. split; [reflexivity|].
    exists sid, hid, (ps ++ [p]), (drop (Z.to_nat (packet_length p)) rest). split; [done|].
    rewrite zlength_app, !zlength_message, message_length_snoc in *. unfold packet_size in Hfit.
    assert (Hd : zlength (drop (Z.to_nat (packet_length p)) rest) = zlength rest - packet_length p).
    { unfold zlength. rewrite length_drop. unfold zlength in *. lia. }
    lia.
  - rewrite (create_packet_refused sid hid ps p rest packet_size) by (unfold packet_size in *; lia).
    cbn [mbind exec_bind fst snd]. do 3 eexists. split; [reflexivity|]. exists sid, hid, ps, rest. auto.
Qed.

Lemma builds_then P f k :
  builds P f -> builds message_buffer k -> builds P (fun st => hfi_then (f st) k).
Proof.
  intros Hf Hk c b Hb. destruct (Hf c b Hb) as (rc & c' & b' & E & Hb'). cbv beta. unfold hfi_then.
  rewrite E. cbn [mbind exec_bind fst snd]. destruct (rc =? 0); [apply Hk, Hb'|eauto 6].
Qed.

(** ** Buffers as words *)
Lemma le_words_words ws b : le_words (words ws ++ b) = map u32 ws ++ le_words b.
Proof.
  induction ws as [|w ws IH]; [reflexivity|]. rewrite words_cons, <- app_assoc. cbn [le32 app le_words map].
  rewrite IH. f_equal. exact (of_le_le32 w).
Qed.
Lemma zlength_le_words : forall n b, zlength b = 4 * Z.of_nat n -> zlength (le_words b) = Z.of_nat n.
Proof.
  unfold zlength. induction n as [|n IH]; intros b Hb.
  - destruct b; [reflexivity|cbn in Hb; lia].
  - destruct b as [|b0 [|b1 [|b2 [|b3 b]]]]; cbn [length] in Hb; try lia.
    cbn [le_words length]. specialize (IH b ltac:(lia)). lia.
Qed.
Lemma sized_words b : sized b -> zlength (le_words b) = 1024.
Proof. exact (zlength_le_words 1024 b). Qed.

(** A message announces its length. *)
Lemma message_sendable b : message_buffer b -> buffer_ok (le_words b).
Proof.
  intros Hb. pose proof (sized_words b (message_buffer_sized b Hb)) as Hl.
  destruct Hb as (sid & hid & ps & rest & -> & _ & Hm). pose proof (message_length_pos ps) as H32.
  split; [lia|]. rewrite Hl. unfold packet_words, message_bytes.
  rewrite <- app_assoc, le_words_words. unfold header_head. cbn [map app].
  change (_.[0]) with (Some (u32 (message_length ps))). cbn [default].
  rewrite Z.shiftr_div_pow2, u32_small by lia. change (2 ^ 2) with 4.
  unfold id. split; [apply Z.div_pos; lia|]. apply Z.div_le_upper_bound; lia.
Qed.

(** ** The queues of the core *)
Section Queues.
Context `{VidcPlatform}.

(** Either there are no queues, or all three are there and hold packets. *)
Definition queues_live (c : msm_vidc_core) : Prop :=
  core_fresh c \/
  (holds_ok c /\ is_Some (align_virtual_addr (iface_q_table c)) /\
   forall i, 0 <= i < 3 -> exists q ps, (iface_queues c).[i] = Some q /\ queue_holds 204800 q ps).

(** What reads and writes of packets leave of the core. *)
Definition queue_view (c : msm_vidc_core) :=
  (core_state c, core_locked c, supports_synx_fence c, iface_q_table c, sfr c, mmap_buf c).

Lemma set_queue_live i q' ps c :
  queues_live c -> ~ core_fresh c -> queue_holds 204800 q' ps -> queues_live (set_queue i q' c).
Proof.
  intros [Hf|(Hk & Ht & Hq)] Hnf Hq'; [contradiction|]. right.
  assert (Hh : Forall (fun q => is_Some (q_hdr q)) (zinsert i q' (iface_queues c))).
  { unfold zinsert. destruct (0 <=? i); [apply Forall_insert|]; try apply (h_headers c Hk Ht).
    destruct Hq' as (arr & h & [_ E _ _] & _). rewrite E. eauto. }
  split; [|split].
  - apply set_queues_holds; [done| |exact Hh]. unfold zinsert. destruct (0 <=? i);
      [rewrite length_insert|]; apply (h_queues c Hk).
  - exact Ht.
  - intros j Hj. cbn [iface_queues set_queue set_queues]. destruct (Hq j Hj) as (q & ps' & Eq & Hps).
    destruct (Z.eq_dec i j) as [->|Hne].
    + exists q', ps. split; [|done]. apply zlookup_insert_eq, (zlookup_lt _ _ _ Eq).
    + exists q, ps'. split; [|done]. now rewrite zlookup_insert_ne by lia.
Qed.
Lemma raise_live c : queues_live c -> queues_live (raise_interrupt c).
Proof.
  intros [[]|([] & Ht & Hq)]; [left|right]; [split; auto|]. split; [split; auto|]. split; [exact Ht|exact Hq].
Qed.

Lemma fresh_or_queue c i : queues_live c -> 0 <= i < 3 ->
  exists q, (iface_queues c).[i] = Some q /\
    (align_virtual_addr (q_array q) = None \/ (~ core_fresh c /\ exists ps, queue_holds 204800 q ps)).
Proof.
  intros [Hf|(Hk & [w Ht] & Hq)] Hi.
  - assert (Hl : 0 <= i < zlength (iface_queues c)) by (unfold zlength; rewrite (f_queues c Hf); lia).
    destruct (zlookup_is_Some _ _ Hl) as [q Eq]. exists q. split; [done|]. left.
    pose proof (f_arrays c Hf) as F. rewrite Forall_forall in F. apply F.
    unfold zlookup in Eq. rewrite (proj2 (Z.leb_le 0 i)) in Eq by lia.
    exact (list_elem_of_lookup_2 _ _ _ Eq).
  - destruct (Hq i Hi) as (q & ps & Eq & Hps). exists q. split; [done|]. right. split; [|eauto].
    intros Hf. pose proof (f_table c Hf). congruence.
Qed.

Lemma cmd_write_live c b allow :
  queues_live c -> message_buffer b ->
  exists rc c', venus_hfi_queue_cmd_write_intr c (Some (le_words b)) allow = Done (rc, c') /\
    queues_live c' /\ queue_view c' = queue_view c.
Proof.
  intros Hc Hb. apply message_sendable in Hb as [Hb Hn].
  unfold venus_hfi_queue_cmd_write_intr, __iface_cmdq_write_relaxed.
  destruct (negb (__strict_check c =? 0)); [cbn; do 2 eexists; rewrite andb_false_r; auto|].
  destruct (core_in_valid_state c); cbn [negb]; [|cbn; eauto].
  destruct (fresh_or_queue c VIDC_IFACEQ_CMDQ_IDX Hc ltac:(unfold VIDC_IFACEQ_CMDQ_IDX; lia)) as (q & -> & [E|(Hnf & ps & Hq)]); cbn [deref mbind exec_bind].
  - rewrite E. cbn. rewrite andb_false_r. eauto.
  - destruct (queue_virtual _ _ _ Hq) as [arr ->].
    destruct (queue_write 204800 ltac:(lia) q ps _ Hq Hb Hn) as (q' & -> & Hq'). cbn [mbind exec_bind].
    pose proof (set_queue_live VIDC_IFACEQ_CMDQ_IDX q' _ c Hc Hnf Hq') as Hl.
    do 2 eexists. split; [reflexivity|]. destruct (_ && _); [|auto]. split; [now apply raise_live|done].
Qed.
Lemma cmd_write_as_intr c p : venus_hfi_queue_cmd_write c p = venus_hfi_queue_cmd_write_intr c p true.
Proof.
  unfold venus_hfi_queue_cmd_write, venus_hfi_queue_cmd_write_intr.
  destruct (__iface_cmdq_write_relaxed c p) as [[[rc c'] irq]| |]; cbn; [now rewrite andb_true_r|done..].
Qed.

(** ** The loop over the debug queue *)
Lemma print_packet_sized b : sized b -> exists b', print_packet b = Done b' /\ sized b'.
Proof.
  unfold sized, print_packet, load32, load. intros Hb.
  assert (Ht : (0 <=? 0) && (0 <=? 4) && (0 + 4 <=? zlength b) = true) by (rewrite Hb; reflexivity).
  rewrite Ht. cbn [mbind exec_bind]. set (n := of_le _). unfold sizeof_debug_header, packet_size.
  destruct (n <? 16) eqn:E1; [eauto|]. destruct (n >=? 4096) eqn:E2; [eauto|]. rewrite Z.geb_leb in E2. zb.
  unfold store. change (zlength [0]) with 1.
  rewrite (proj2 (Z.leb_le 0 n)), (proj2 (Z.leb_le (n + 1) _)) by lia. cbn [andb].
  eexists. split; [reflexivity|]. unfold zlength in *. rewrite !length_app, length_take, length_drop. cbn. lia.
Qed.

Lemma words_sized ws : zlength ws = 1024 -> sized (words ws).
Proof. unfold sized. rewrite zlength_words. lia. Qed.

(** What the loop does to the core, with fuel for every packet of the debug
    queue and one read more. *)
Lemma flush_drains ps : forall fuel c b,
  (length ps < fuel)%nat -> sized b -> queues_live c -> ~ core_fresh c ->
  (exists q, (iface_queues c).[VIDC_IFACEQ_DBGQ_IDX] = Some q /\ queue_holds 204800 q ps) ->
  exists c' b', flush_loop fuel c b = Done (c', b') /\ sized b' /\ queues_live c' /\
    queue_view c' = queue_view c.
Proof.
  induction ps as [|p ps IH]; intros fuel c b Hf Hb Hc Hnf (q & Eq & Hq);
    (destruct fuel as [|fuel]; [cbn in Hf; lia|]); cbn [flush_loop]; unfold venus_hfi_queue_dbg_read.
  all: pose proof (sized_words b Hb) as Hw.
  all: destruct (locked_read 204800 ltac:(lia) VIDC_IFACEQ_DBGQ_IDX c q _ (le_words b) Eq Hq ltac:(lia))
    as (q' & ws & rc & -> & Hq' & _ & Hl & _ & Hrc); cbn [mbind exec_bind deref].
  all: pose proof (set_queue_live VIDC_IFACEQ_DBGQ_IDX q' _ c Hc Hnf Hq') as Hl'.
  all: rewrite Hw in Hl; apply words_sized in Hl.
  - cbn in Hrc. subst rc. cbn. eauto 6.
  - destruct (negb (rc =? 0)) eqn:Erc; [eauto 6|].
    destruct (print_packet_sized _ Hl) as (b1 & -> & Hb1). cbn [mbind exec_bind].
    cbn [fifo_read] in Hq', Hrc. destruct (zlength p <=? 1024); cbn [fst snd Z.eqb negb] in Hq', Hrc.
    2:{ subst rc. discriminate. }
    destruct (IH fuel (set_queue VIDC_IFACEQ_DBGQ_IDX q' c) b1) as (c' & b' & -> & Hb' & Hc' & Hv).
    + cbn in Hf. lia.
    + exact Hb1.
    + exact Hl'.
    + intros Hf'. apply Hnf. destruct Hc as [Hc|(_ & [w Ht] & _)]; [exact Hc|].
      pose proof (f_table _ Hf') as Hn. cbn in Hn. congruence.
    + exists q'. split; [|exact Hq']. apply set_queue_lookup, (zlookup_lt _ _ _ Eq).
    + exists c', b'. auto.
Qed.

Lemma packets_bounded ps : Forall packet_ok ps -> Z.of_nat (length ps) <= zlength (concat ps).
Proof.
  induction 1 as [|p ps [Hp _] _ IH]; cbn [concat]; [reflexivity|].
  rewrite zlength_app. cbn [length]. lia.
Qed.
Lemma flush_ok c b : queues_live c -> sized b ->
  exists c' b', flush_loop flush_fuel c b = Done (c', b') /\ sized b' /\ queues_live c' /\
    queue_view c' = queue_view c.
Proof.
  intros Hc Hb. assert (Hfuel : Z.of_nat flush_fuel = 204801).
  { unfold flush_fuel. rewrite Z2Nat.id by (vm_compute; discriminate). reflexivity. }
  revert Hfuel. generalize flush_fuel. intros fuel Hfuel.
  destruct (fresh_or_queue c 2 Hc ltac:(lia)) as (q & Eq & [E|(Hnf & ps & Hq)]).
  - destruct fuel as [|fuel]; [lia|]. cbn [flush_loop].
    unfold venus_hfi_queue_dbg_read, queue_msg_read_locked. change VIDC_IFACEQ_DBGQ_IDX with 2. rewrite Eq.
    cbn [deref mbind exec_bind]. rewrite E. cbn. do 2 eexists. split; [reflexivity|].
    split; [now apply words_sized, sized_words|]. auto.
  - pose proof Hq as (_ & _ & _ & Hps & Hlen & _). pose proof (packets_bounded ps Hps).
    apply (flush_drains ps); auto; [lia|]. exists q. auto.
Qed.
End Queues.
