(* ===== verification/VidcSessionInv.v ===== *)
(** What holds of every session of the video driver: its handler is the one
    of its state, its sub-states are among those that exist, a last buffer is
    only noted while what it ends is going on; and that every change of a
    session keeps this. *)
From S2P Require Import Prelude VidcQueue VidcMem VidcHfi VidcPacket VidcPacketSpec VidcBuffer.
From S2P Require Import VidcSession VidcCore VidcPower VidcVenus VidcCmds VidcScale VidcFlow VidcResponse.
From S2P Require Import VidcReply VidcBufSpec.

(** ** Sub-states as numbers *)

(** A sub-state with the bits of the flags that exist, and each last buffer
    with what it ends. *)
Definition flags_ok (z : Z) : bool :=
  (0 <=? z) && (z <? 128) && implb (Z.testbit z 2) (Z.testbit z 0) && implb (Z.testbit z 3) (Z.testbit z 1).

Lemma flags_all (P : Z -> bool) : forallb P (seqZ 0 128) = true -> forall z, 0 <= z < 128 -> P z = true.
Proof. rewrite forallb_forall. intros HP z Hz. apply HP, list_elem_of_In, elem_of_seqZ. lia. Qed.
Lemma flags_range z : flags_ok z = true -> 0 <= z < 128.
Proof. unfold flags_ok. lia. Qed.
(** Whether changing the flags by [clear] and [set] keeps them in order, under
    the condition [when]: by trying all. *)
Lemma flags_change (when : Z -> bool) clear set :
  forallb (fun z => implb (flags_ok z && when z) (flags_ok (Z.ldiff (Z.lor z set) clear))) (seqZ 0 128) = true ->
  forall z, flags_ok z = true -> when z = true -> flags_ok (Z.ldiff (Z.lor z set) clear) = true.
Proof.
  intros Hall z Hz Hw. pose proof (flags_all _ Hall z (flags_range z Hz)) as Ht. cbv beta in Ht.
  now rewrite Hz, Hw in Ht.
Qed.
(** A change that needs no condition. *)
Definition orderly (clear set : Z) : Prop :=
  forall z, flags_ok z = true -> flags_ok (Z.ldiff (Z.lor z set) clear) = true.
Lemma orderly_all clear set :
  forallb (fun z => implb (flags_ok z && true) (flags_ok (Z.ldiff (Z.lor z set) clear))) (seqZ 0 128) = true ->
  orderly clear set.
Proof. intros Hall z Hz. now apply (flags_change (fun _ => true) clear set Hall). Qed.
Ltac orderly := apply orderly_all; vm_compute; reflexivity.

(** ** The invariant of a session *)
Definition inst_handle_of (st : msm_vidc_state) : inst_handle :=
  match st with
  | MSM_VIDC_OPEN => msm_vidc_open_state
  | MSM_VIDC_INPUT_STREAMING => msm_vidc_input_streaming_state
  | MSM_VIDC_OUTPUT_STREAMING => msm_vidc_output_streaming_state
  | MSM_VIDC_STREAMING => msm_vidc_streaming_state
  | MSM_VIDC_CLOSE => msm_vidc_close_state
  | MSM_VIDC_ERROR => msm_vidc_error_state
  end.
Record inst_ok (i : msm_vidc_inst) : Prop := {
  io_handle : inst_event_handle i = inst_handle_of (inst_state i);
  io_flags : flags_ok (inst_sub_state i) = true;
  io_packet : match inst_packet i with Some b => sized b | None => True end;
  io_signals : length (inst_signals i) = 3%nat }.

(** What a change of the session never touches. *)
Definition same_inst (i i' : msm_vidc_inst) : Prop :=
  inst_id i' = inst_id i /\ inst_locked i' = inst_locked i /\ inst_session_id i' = inst_session_id i /\
  inst_domain i' = inst_domain i.
(** [f] keeps the invariant and leaves these alone. *)
Definition inst_keeps (f : msm_vidc_inst -> msm_vidc_inst) : Prop :=
  forall i, inst_ok i -> inst_ok (f i) /\ same_inst i (f i).
Definition inst_does (f : msm_vidc_inst -> Z * msm_vidc_inst) : Prop := inst_keeps (fun i => snd (f i)).

Lemma same_refl i : same_inst i i.
Proof. now split. Qed.
Lemma same_trans i i' i'' : same_inst i i' -> same_inst i' i'' -> same_inst i i''.
Proof. intros (E1 & E2 & E3 & E4) (E5 & E6 & E7 & E8). repeat split; congruence. Qed.
Lemma does_id rc : inst_does (fun i => (rc, i)).
Proof. intros i I. split; [exact I|apply same_refl]. Qed.
Lemma does_inst_if (c : msm_vidc_inst -> bool) f g : inst_does f -> inst_does g ->
  inst_does (fun i => if c i then f i else g i).
Proof. intros Hf Hg i I. cbv beta. destruct (c i); auto. Qed.
Lemma does_inst_then f k : inst_does f -> inst_does k -> inst_does (fun i => inst_then (f i) k).
Proof.
  intros Hf Hk i I. destruct (Hf i I) as [I' S']. cbv beta. unfold inst_then. destruct (fst (f i) =? 0); [|now split].
  destruct (Hk _ I') as [I'' S'']. split; [exact I''|exact (same_trans _ _ _ S' S'')].
Qed.

(** ** States *)
Lemma update_state_eq st i : msm_vidc_update_state st i = (0, set_inst_state st (inst_handle_of st) i).
Proof. now destruct st. Qed.

(** The states a session may come into from another one. *)
Definition may_follow (st st' : msm_vidc_state) : bool :=
  match st, st' with
  | MSM_VIDC_OPEN, (MSM_VIDC_INPUT_STREAMING | MSM_VIDC_OUTPUT_STREAMING | MSM_VIDC_CLOSE | MSM_VIDC_ERROR)
  | MSM_VIDC_INPUT_STREAMING, (MSM_VIDC_OPEN | MSM_VIDC_STREAMING | MSM_VIDC_CLOSE | MSM_VIDC_ERROR)
  | MSM_VIDC_OUTPUT_STREAMING, (MSM_VIDC_OPEN | MSM_VIDC_STREAMING | MSM_VIDC_CLOSE | MSM_VIDC_ERROR)
  | MSM_VIDC_STREAMING,
      (MSM_VIDC_INPUT_STREAMING | MSM_VIDC_OUTPUT_STREAMING | MSM_VIDC_CLOSE | MSM_VIDC_ERROR) => true
  | _, _ => false
  end.
(** msm_vidc_change_state, by the relation. *)
Lemma change_state_cases st i :
  msm_vidc_change_state st i =
  if may_follow (inst_state i) st then (0, set_inst_state st (inst_handle_of st) i)
  else
    (if bool_decide (inst_state i = st) || is_session_error i
        || (bool_decide (inst_state i = MSM_VIDC_CLOSE) && bool_decide (st = MSM_VIDC_ERROR))
     then 0 else - EINVAL, i).
Proof.
  unfold msm_vidc_change_state, msm_vidc_allow_state_change, is_session_error, is_state.
  rewrite update_state_eq. destruct i as [id lk st0 h sub dom codec sid pkt sm rq pend fence lfe caps sig fi ev].
  cbn [inst_state]. destruct st0, st; reflexivity.
Qed.
Lemma does_state st : inst_does (msm_vidc_change_state st).
Proof.
  intros i []. rewrite change_state_cases. destruct (may_follow _ _); [|now split].
  split; [now split|now split].
Qed.
Lemma keeps_error : inst_keeps inst_error.
Proof. exact (does_state MSM_VIDC_ERROR). Qed.
Lemma does_streamon port : inst_does (msm_vidc_state_change_streamon port).
Proof. destruct port; try apply does_id; intros i I; apply does_state, I. Qed.
Lemma does_streamoff port : inst_does (msm_vidc_state_change_streamoff port).
Proof. destruct port; try apply does_id; intros i I; apply does_state, I. Qed.

(** ** Sub-states *)
Lemma nothing_ignored st : masks_of st MSM_VIDC_IGNORE = [].
Proof. now destruct st. Qed.
(** Whether a state allows some flags to be set. *)
Definition may_set (st : msm_vidc_state) (set : Z) : bool :=
  forallb (fun m => Z.land m set =? 0) (masks_of st MSM_VIDC_DISALLOW)
  && forallb (fun m => Z.land m set =? set) (masks_of st MSM_VIDC_ALLOW).
Lemma existsb_negb {A} (f : A -> bool) l : existsb (fun x => negb (f x)) l = negb (forallb f l).
Proof. induction l as [|x l IH]; [done|]. cbn. rewrite IH. now destruct (f x). Qed.
Lemma set_sub_state_cases set i :
  msm_vidc_set_sub_state set i =
  if set =? 0 then (0, i)
  else if may_set (inst_state i) set then (0, set_inst_sub_state (Z.lor (inst_sub_state i) set) i)
  else (- EINVAL, i).
Proof.
  unfold msm_vidc_set_sub_state, may_set. rewrite nothing_ignored, !existsb_negb. cbn [remove_ignored].
  destruct (set =? 0); [done|]. now destruct (forallb _ _), (forallb _ _).
Qed.

(** The session with its flags changed. *)
Definition flagged (clear set : Z) (i : msm_vidc_inst) : msm_vidc_inst :=
  set_inst_sub_state (Z.ldiff (Z.lor (inst_sub_state i) set) clear) i.
(** Arguments the function accepts. *)
Definition flag_args (clear set : Z) : bool :=
  (Z.land clear set =? 0) && (set <=? 127) && (clear <=? 127) && negb ((clear =? 0) && (set =? 0)).
Lemma set_sub_self i : set_inst_sub_state (inst_sub_state i) i = i.
Proof. now destruct i. Qed.
Lemma change_sub_cases clear set i : flag_args clear set = true ->
  msm_vidc_change_sub_state clear set i =
  if is_session_error i then (0, i)
  else if (set =? 0) || may_set (inst_state i) set then (0, flagged clear set i)
  else (- EINVAL, i).
Proof.
  unfold flag_args, msm_vidc_change_sub_state. intros Ha. destruct (is_session_error i); [done|].
  destruct ((clear =? 0) && (set =? 0)) eqn:E0; [rewrite andb_false_r in Ha; done|].
  change MSM_VIDC_MAX_SUB_STATE_VALUE with 127. rewrite (Z.gtb_ltb set), (Z.gtb_ltb clear).
  destruct (Z.land clear set =? 0); [|done]. cbn [negb orb andb] in *.
  assert (E1 : (127 <? set) || (127 <? clear) = false) by lia. rewrite E1, set_sub_state_cases.
  destruct (set =? 0) eqn:Es; zb.
  - rewrite Es. unfold flagged. now rewrite Z.lor_0_r.
  - destruct (may_set _ _); [|done]. now destruct i.
Qed.
Lemma no_change i : msm_vidc_change_sub_state 0 0 i = (0, i).
Proof. unfold msm_vidc_change_sub_state. now destruct (is_session_error i). Qed.

Lemma flagged_ok clear set i : inst_ok i -> flags_ok (Z.ldiff (Z.lor (inst_sub_state i) set) clear) = true ->
  inst_ok (flagged clear set i) /\ same_inst i (flagged clear set i).
Proof. intros [] Hf. split; [now split|now split]. Qed.
Lemma change_sub_ok clear set i : flag_args clear set = true -> inst_ok i ->
  (is_session_error i = false -> flags_ok (Z.ldiff (Z.lor (inst_sub_state i) set) clear) = true) ->
  inst_ok (snd (msm_vidc_change_sub_state clear set i)) /\
  same_inst i (snd (msm_vidc_change_sub_state clear set i)).
Proof.
  intros Ha I Hf. rewrite change_sub_cases by done. destruct (is_session_error i); [now split|].
  destruct (_ || _); [|now split]. exact (flagged_ok clear set i I (Hf eq_refl)).
Qed.
Lemma does_sub_state clear set : flag_args clear set = true -> orderly clear set ->
  inst_does (msm_vidc_change_sub_state clear set).
Proof. intros Ha Ho i I. apply change_sub_ok; [done..|]. intros _. apply Ho, (io_flags i I). Qed.
Lemma does_no_change : inst_does (msm_vidc_change_sub_state 0 0).
Proof. intros i I. rewrite no_change. now split. Qed.

(** A flag of the session is a bit of its sub-states. *)
Lemma is_sub_bit i k : 0 <= k -> is_sub_state i (2 ^ k) = Z.testbit (inst_sub_state i) k.
Proof.
  intros Hk. unfold is_sub_state. rewrite Z.land_comm.
  destruct (Z.testbit (inst_sub_state i) k) eqn:E.
  - assert (E' : Z.land (2 ^ k) (inst_sub_state i) = 2 ^ k).
    { apply Z.bits_inj'. intros n Hn. rewrite Z.land_spec, Z.pow2_bits_eqb by done.
      destruct (k =? n) eqn:En; zb; [subst; now rewrite E|done]. }
    rewrite E'. destruct (2 ^ k =? 0) eqn:E0; zb; [lia|done].
  - assert (E' : Z.land (2 ^ k) (inst_sub_state i) = 0).
    { apply Z.bits_inj'. intros n Hn. rewrite Z.land_spec, Z.pow2_bits_eqb, Z.bits_0 by done.
      destruct (k =? n) eqn:En; zb; [subst; now rewrite E|done]. }
    now rewrite E'.
Qed.

(** ** What the firmware and the driver report *)
Ltac sub_state := apply does_sub_state; [reflexivity|orderly].

Lemma does_input_psc : inst_does msm_vidc_state_change_input_psc.
Proof.
  intros i I. unfold msm_vidc_state_change_input_psc.
  assert (H1 : inst_does (msm_vidc_change_sub_state 0 (Z.lor MSM_VIDC_INPUT_PAUSE MSM_VIDC_FIRST_IPSC))) by sub_state.
  assert (H2 : inst_does (msm_vidc_change_sub_state 0 (Z.lor MSM_VIDC_DRC MSM_VIDC_INPUT_PAUSE))) by sub_state.
  destruct (inst_state i); auto.
Qed.
Lemma does_drain_done : inst_does msm_vidc_process_drain_done.
Proof. apply (does_inst_if (fun i => is_sub_state i MSM_VIDC_DRAIN)); [sub_state|apply does_id]. Qed.
Lemma keeps_signal d cmd : inst_keeps (add_signal d cmd).
Proof.
  intros i []. split; [split; try assumption|now split]. cbn [inst_signals add_signal set_inst_signals].
  now rewrite length_insert.
Qed.
Lemma does_stop_done cmd : inst_does (msm_vidc_process_stop_done cmd).
Proof.
  intros i I. unfold msm_vidc_process_stop_done. cbv zeta.
  assert (He : forall (c : bool) j, inst_ok j -> inst_ok (if c then inst_error j else j) /\
    same_inst j (if c then inst_error j else j)).
  { intros c j J. destruct c; [exact (keeps_error j J)|now split]. }
  destruct (He (bool_decide (cmd = SIGNAL_CMD_STOP_INPUT) && is_sub_state i MSM_VIDC_DRC &&
    negb (is_sub_state i MSM_VIDC_DRC_LAST_BUFFER)) i I) as [I1 S1]. revert I1 S1.
  generalize (if bool_decide (cmd = SIGNAL_CMD_STOP_INPUT) && is_sub_state i MSM_VIDC_DRC &&
    negb (is_sub_state i MSM_VIDC_DRC_LAST_BUFFER) then inst_error i else i). intros j J Sj.
  destruct (He (bool_decide (cmd = SIGNAL_CMD_STOP_INPUT) && is_decode_session (inst_domain j) &&
    is_sub_state j MSM_VIDC_DRAIN && negb (is_sub_state j MSM_VIDC_DRAIN_LAST_BUFFER)) j J) as [I2 S2]. revert I2 S2.
  generalize (if bool_decide (cmd = SIGNAL_CMD_STOP_INPUT) && is_decode_session (inst_domain j) &&
    is_sub_state j MSM_VIDC_DRAIN && negb (is_sub_state j MSM_VIDC_DRAIN_LAST_BUFFER) then inst_error j else j).
  intros k Ik Sk. pose proof (same_trans _ _ _ Sj Sk) as S0.
  assert (Hd : inst_does (fun k => inst_then (msm_vidc_change_sub_state 0 (match cmd with
    | SIGNAL_CMD_STOP_INPUT => MSM_VIDC_INPUT_PAUSE | SIGNAL_CMD_STOP_OUTPUT => MSM_VIDC_OUTPUT_PAUSE
    | SIGNAL_CMD_CLOSE => MSM_VIDC_SUB_STATE_NONE end) k) (fun i => (0, signal_session_msg_receipt cmd i)))).
  { apply does_inst_then; [destruct cmd; [sub_state|sub_state|apply does_no_change]|].
    exact (keeps_signal 1 cmd). }
  destruct (Hd k Ik) as [I3 S3]. split; [exact I3|exact (same_trans _ _ _ S0 S3)].
Qed.

Lemma does_last_event : inst_does last_flag_event.
Proof. intros i []. unfold last_flag_event. cbn [snd]. destruct (inst_last_flag_event i); now split. Qed.
(** A last flag, while what it ends is going on. *)
Lemma last_flag_ok set when i : flag_args 0 set = true ->
  forallb (fun z => implb (flags_ok z && when z) (flags_ok (Z.ldiff (Z.lor z set) 0))) (seqZ 0 128) = true ->
  inst_ok i -> when (inst_sub_state i) = true ->
  inst_ok (snd (inst_then (msm_vidc_change_sub_state 0 set i) last_flag_event)) /\
  same_inst i (snd (inst_then (msm_vidc_change_sub_state 0 set i) last_flag_event)).
Proof.
  intros Ha Hall I Hw. destruct (change_sub_ok 0 set i Ha I) as [I1 S1].
  { intros _. exact (flags_change when 0 set Hall _ (io_flags i I) Hw). }
  unfold inst_then. destruct (fst _ =? 0); [|now split].
  destruct (does_last_event _ I1) as [I2 S2]. split; [exact I2|exact (same_trans _ _ _ S1 S2)].
Qed.
Lemma drain_last_ok i : inst_ok i -> is_sub_state i MSM_VIDC_DRAIN = true ->
  inst_ok (snd (msm_vidc_process_drain_last_flag i)) /\ same_inst i (snd (msm_vidc_process_drain_last_flag i)).
Proof.
  intros I Hd. change (is_sub_state i (2 ^ 0) = true) in Hd. rewrite is_sub_bit in Hd by lia.
  apply (last_flag_ok _ (fun z => Z.testbit z 0)); auto; vm_compute; reflexivity.
Qed.
Lemma psc_last_ok i : inst_ok i -> is_sub_state i MSM_VIDC_DRC = true ->
  inst_ok (snd (msm_vidc_process_psc_last_flag i)) /\ same_inst i (snd (msm_vidc_process_psc_last_flag i)).
Proof.
  intros I Hd. change (is_sub_state i (2 ^ 1) = true) in Hd. rewrite is_sub_bit in Hd by lia.
  apply (last_flag_ok _ (fun z => Z.testbit z 1)); auto; vm_compute; reflexivity.
Qed.

Lemma does_last_flag_info ty : inst_does (handle_session_last_flag_info ty).
Proof.
  intros i I. unfold handle_session_last_flag_info.
  assert (He : forall rc j, inst_ok j -> same_inst i j ->
    inst_ok (if rc =? 0 then j else inst_error j) /\ same_inst i (if rc =? 0 then j else inst_error j)).
  { intros rc j J S. destruct (rc =? 0); [now split|]. destruct (keeps_error j J) as [J' S'].
    split; [exact J'|exact (same_trans _ _ _ S S')]. }
  assert (Hp : forall r : Z * msm_vidc_inst, inst_ok (snd r) /\ same_inst i (snd r) ->
    inst_ok (snd (let '(rc, j) := r in (rc, if rc =? 0 then j else inst_error j))) /\
    same_inst i (snd (let '(rc, j) := r in (rc, if rc =? 0 then j else inst_error j)))).
  { intros [rc j] [J S]. exact (He rc j J S). }
  apply Hp. destruct (ty =? HFI_INFO_HFI_FLAG_PSC_LAST).
  - destruct (msm_vidc_allow_psc_last_flag i) eqn:E; [|now split]. apply psc_last_ok; [done|].
    unfold msm_vidc_allow_psc_last_flag in E. now destruct (is_sub_state i MSM_VIDC_DRC).
  - destruct (ty =? HFI_INFO_HFI_FLAG_DRAIN_LAST); [|now split].
    destruct (msm_vidc_allow_drain_last_flag i) eqn:E; [|now split]. apply drain_last_ok; [done|].
    unfold msm_vidc_allow_drain_last_flag in E. now destruct (is_sub_state i MSM_VIDC_DRAIN).
Qed.
Lemma keeps_frame_info fi : inst_keeps (set_inst_frame_info fi).
Proof. intros i []. now split. Qed.
Lemma does_info ty : inst_does (handle_session_info ty).
Proof.
  intros i I. unfold handle_session_info. cbv zeta.
  destruct (ty =? HFI_INFO_DATA_CORRUPT); [apply keeps_frame_info, I|].
  destruct (ty =? HFI_INFO_BUFFER_OVERFLOW); [apply keeps_frame_info, I|].
  destruct (ty =? HFI_INFO_FENCE_SIGNAL_ERROR); [apply keeps_frame_info, I|].
  destruct (_ || _); [apply does_last_flag_info, I|now split].
Qed.
Lemma does_session_stop pkt : inst_does (handle_session_stop pkt).
Proof.
  intros i I. unfold handle_session_stop. destruct (stop_signal _ _); [apply does_stop_done, I|now split].
Qed.
Lemma does_session_close : inst_does handle_session_close.
Proof. exact (keeps_signal 1 SIGNAL_CMD_CLOSE). Qed.

(** ** The buffers of a session *)
Lemma keeps_packet p : match p with Some b => sized b | None => True end -> inst_keeps (set_inst_packet p).
Proof. intros Hp i []. now split. Qed.
Lemma keeps_pending l : inst_keeps (set_inst_pending l).
Proof. intros i []. now split. Qed.
Lemma keeps_no_flags : inst_keeps (set_inst_sub_state MSM_VIDC_SUB_STATE_NONE).
Proof. intros i []. now split. Qed.

(** ** The sessions of a core *)

(** The sessions of a core, on its two lists: all in order, [X] says which one
    is locked, and the sessions of [K] are among them. *)
Record sessions_ok (X : option Z) (K : list Z) (l d : list msm_vidc_inst) : Prop := {
  so_ok : Forall inst_ok (l ++ d);
  so_lock : Forall (fun i => inst_locked i = bool_decide (X = Some (inst_id i))) (l ++ d);
  so_known : Forall (fun id => Exists (fun i => inst_id i = id) (l ++ d)) K }.

(** The same sessions in another order, each changed by a function that keeps
    what is required. *)
Lemma sessions_moved X K l d l' d' f : inst_keeps f ->
  (forall i, i ∈ l ++ d -> i ∈ l' ++ d' \/ f i ∈ l' ++ d') ->
  (forall j, j ∈ l' ++ d' -> exists i, i ∈ l ++ d /\ (j = i \/ j = f i)) ->
  sessions_ok X K l d -> sessions_ok X K l' d'.
Proof.
  intros Hf H1 H2 []. rewrite Forall_forall in so_ok0. rewrite Forall_forall in so_lock0. rewrite Forall_forall in so_known0.
  assert (Hj : forall j, j ∈ l' ++ d' -> exists i, i ∈ l ++ d /\ inst_ok j /\ same_inst i j).
  { intros j Hj. destruct (H2 j Hj) as (i & Hi & Hc). exists i. split; [exact Hi|].
    destruct Hc as [->| ->]; [exact (conj (so_ok0 i Hi) (same_refl i))|exact (Hf i (so_ok0 i Hi))]. }
  split; rewrite ?Forall_forall.
  - intros j E. destruct (Hj j E) as (i & _ & J & _). exact J.
  - intros j E. destruct (Hj j E) as (i & Hi & _ & E1 & E2 & _). rewrite E2, E1. exact (so_lock0 i Hi).
  - intros id Hid. specialize (so_known0 id Hid). rewrite Exists_exists in *.
    destruct so_known0 as (i & Hi & <-). destruct (H1 i Hi) as [E|E]; [exists i; auto|].
    exists (f i). split; [exact E|]. now destruct (Hf i (so_ok0 i Hi)) as [_ [? _]].
Qed.
(** After a failure of the core. *)
Lemma sessions_unlinked X K l d : sessions_ok X K l d -> sessions_ok X K [] (d ++ map inst_error l).
Proof.
  apply (sessions_moved _ _ _ _ _ _ inst_error keeps_error); change (map inst_error l) with (inst_error <$> l); set_solver.
Qed.
(** One session changed. *)
Lemma sessions_changed X K l d id f : inst_keeps f -> sessions_ok X K l d ->
  sessions_ok X K (on_inst id f l) (on_inst id f d).
Proof.
  intros Hf. unfold on_inst. refine (sessions_moved X K l d _ _ f Hf _ _); rewrite <- map_app;
    set (g := fun i => if inst_id i =? id then f i else i); change (map g (l ++ d)) with (g <$> l ++ d).
  - intros i Hi. destruct (inst_id i =? id) eqn:E; [right|left]; apply list_elem_of_fmap; exists i;
      unfold g; rewrite E; auto.
  - intros j (i & -> & Hi)%list_elem_of_fmap. exists i. split; [exact Hi|]. unfold g. destruct (_ =? _); auto.
Qed.

(** A session more. *)
Lemma sessions_added X K l d i : inst_ok i -> inst_locked i = bool_decide (X = Some (inst_id i)) ->
  sessions_ok X K l d -> sessions_ok X K (l ++ [i]) d.
Proof.
  intros Hi Hl []. rewrite Forall_app in so_ok0. rewrite Forall_app in so_lock0. destruct so_ok0, so_lock0.
  split; rewrite <- ?app_assoc; cbn [app].
  - apply Forall_app. auto.
  - apply Forall_app. auto.
  - eapply Forall_impl; [exact so_known0|]. cbv beta. intros id. rewrite !Exists_app, Exists_cons. tauto.
Qed.
(** Some of the sessions on the other list. *)
Lemma sessions_removed X K l d (p : msm_vidc_inst -> bool) : sessions_ok X K l d ->
  sessions_ok X K (List.filter (fun i => negb (p i)) l) (d ++ List.filter p l).
Proof.
  assert (Hk : inst_keeps (fun i => i)) by (intros i I; split; [exact I|apply same_refl]).
  apply (sessions_moved X K l d _ _ (fun i => i) Hk); intros i;
    rewrite !list_elem_of_In, !in_app_iff, !filter_In.
  - intros [Hi|Hi]; left; [|auto]. destruct (p i) eqn:E; auto.
  - intros Hi. exists i. rewrite list_elem_of_In, in_app_iff. tauto.
Qed.

(** No sessions at all, and knowing of more or of fewer. *)
Lemma sessions_none X : sessions_ok X [] [] [].
Proof. split; constructor. Qed.
Lemma sessions_know X K l d id : Exists (fun i => inst_id i = id) (l ++ d) ->
  sessions_ok X K l d -> sessions_ok X (id :: K) l d.
Proof. intros Hid []. split; auto. Qed.
Lemma sessions_forget X K l d id : sessions_ok X (id :: K) l d -> sessions_ok X K l d.
Proof. intros [Ho Hl Hk]. split; auto. now inversion Hk. Qed.
