(* ===== verification/VidcVenusSpec.v ===== *)
(** What the commands and the power collapse of the video core leave alone,
    whatever the kernel, the hardware and the firmware answer: the relation
    that every operation below the level of the core's states respects. *)
From S2P Require Import Prelude VidcQueue VidcQueueSpec VidcMem VidcHfi VidcHfiInv VidcHfiThms.
From S2P Require Import VidcPacket VidcPacketSpec VidcBuffer VidcSession VidcCore.
From S2P Require Import VidcPower VidcPowerSpec VidcVenus VidcBufSpec.

(** ** The relation *)

(** How often the interrupt line is disabled beyond what the power of the core
    accounts for: once while it is off, and once while it is on and the
    watchdog has barked. *)
Definition irq_balance (s : vidc_core) : Z :=
  vc_irq_depth s - (if powered s then if watchdog s then 1 else 0 else 1).

Definition cmd_view (s : vidc_core) :=
  (queue_view (vc_hfi s), vc_state_handle s, vc_skip_pc s, vc_fw_cookie s,
   tz_loaded (vc_tz s), fw_images (vc_tz s),
   vc_instances s, vc_dangling s, irq_balance s).

Section Relation.
Context `{VidcPlatform}.

Definition in_valid_state (s : vidc_core) : bool := core_in_valid_state (vc_hfi s).
Definition cmd_only (s s' : vidc_core) : Prop :=
  cmd_view s' = cmd_view s /\
  (queues_live (vc_hfi s) -> queues_live (vc_hfi s')) /\
  (sized (vc_packet s) -> sized (vc_packet s')) /\
  (powered s' = true -> powered s = true \/ in_valid_state s = true) /\
  (in_valid_state s = false -> vc_set_to_fw s' = vc_set_to_fw s).

Definition live (s : vidc_core) : Prop :=
  locked_core s /\ queues_live (vc_hfi s) /\ sized (vc_packet s).

Lemma cmd_view_valid s s' : cmd_view s' = cmd_view s ->
  in_valid_state s' = in_valid_state s /\
  core_locked (vc_hfi s') = core_locked (vc_hfi s) /\ vc_state_handle s' = vc_state_handle s.
Proof.
  unfold cmd_view, queue_view. intros Hv. injection Hv as E1 E2 _ _ _ _ E3 _ _ _ _ _ _ _.
  unfold in_valid_state, core_in_valid_state. now rewrite E1.
Qed.

Lemma cmd_only_trans s s' s'' : cmd_only s s' -> cmd_only s' s'' -> cmd_only s s''.
Proof.
  intros (V1 & Q1 & S1 & P1 & T1) (V2 & Q2 & S2 & P2 & T2). unfold cmd_only. rewrite V2, V1.
  destruct (cmd_view_valid _ _ V1) as (E & _). rewrite E in P2, T2. intuition. congruence.
Qed.

Lemma live_kept s s' : live s -> cmd_only s s' -> live s'.
Proof.
  intros ([Hl Hh] & Hq & Hs) (V & Q & S & _ & _). destruct (cmd_view_valid _ _ V) as (_ & E1 & E2).
  split; [split; congruence|auto].
Qed.

Definition cmd_steps : steps.
Proof.
  refine {| st_live := live; st_rel := cmd_only; st_trans := cmd_only_trans; st_keeps := live_kept |}.
  - intros s. unfold cmd_only. tauto.
  - intros s n. split; [done|]. split; [done|]. split; [done|]. split; [now left|done].
Defined.

(** The same with the power on before and after, and with a message in the
    buffer of the core when there was one. *)
Definition on_only (s s' : vidc_core) : Prop :=
  cmd_only s s' /\ powered s' = powered s /\ (message_buffer (vc_packet s) -> message_buffer (vc_packet s')).
Lemma on_only_refl s : on_only s s.
Proof. split; [apply (st_refl cmd_steps)|auto]. Qed.
Lemma on_only_trans s s' s'' : on_only s s' -> on_only s' s'' -> on_only s s''.
Proof.
  intros (H1 & E1 & M1) (H2 & E2 & M2). split; [exact (cmd_only_trans _ _ _ H1 H2)|]. split; [congruence|auto].
Qed.
Lemma on_only_answers s n : on_only s (set_answers n s).
Proof. split; [apply (st_answers cmd_steps)|auto]. Qed.
Definition quiet_steps : steps.
Proof.
  refine {| st_live := live; st_rel := on_only; st_refl := on_only_refl; st_trans := on_only_trans;
            st_answers := on_only_answers |}.
  intros s s' Hl (Ho & _). exact (live_kept _ _ Hl Ho).
Defined.
Definition on_steps : steps.
Proof.
  refine {| st_live := fun s => live s /\ powered s = true /\ in_valid_state s = true; st_rel := on_only; st_refl := on_only_refl;
            st_trans := on_only_trans; st_answers := on_only_answers |}.
  intros s s' (Hl & Hp & Hv) (Ho & E & _). split; [exact (live_kept _ _ Hl Ho)|].
  destruct (cmd_view_valid _ _ (proj1 Ho)) as (Ev & _). split; congruence.
Defined.

(** What leaves all but the resources alone respects both. *)
Lemma hw_cmd s s' : hw_only s s' -> cmd_only s s'.
Proof.
  intros Hv. pose proof (hw_only_powered s s' Hv) as Hp.
  assert (Hw : watchdog s' = watchdog s) by (unfold watchdog; injection Hv; congruence).
  injection Hv as E1 E2 E3 E4 E5 E6 E7 E8 E9 E10 E11 E12 E13 _.
  unfold cmd_only, cmd_view, irq_balance. rewrite Hp, Hw, E1, E2, E5, E7, E10, E11, E12, E13, E4, E9. tauto.
Qed.

Section Fault.
Context (F : Prop).

Lemma hw_does_cmd m : does F hw_steps m -> does F cmd_steps m.
Proof. apply does_sub; [now intros s []|]. intros s s' _. apply hw_cmd. Qed.
Lemma quiet_on m : does F quiet_steps m -> does F on_steps m.
Proof. apply does_sub; [now intros s []|auto]. Qed.
Lemma quiet_cmd m : does F quiet_steps m -> does F cmd_steps m.
Proof. apply does_sub; [auto|]. now intros s s' _ []. Qed.
Lemma hw_does_quiet m : does F hw_steps m -> does F quiet_steps m.
Proof.
  apply does_sub; [now intros s []|]. intros s s' _ Hv.
  split; [exact (hw_cmd _ _ Hv)|]. split; [exact (hw_only_powered _ _ Hv)|].
  injection Hv as _ _ _ E _ _ _ _ _ _ _ _ _ _. now rewrite E.
Qed.

(** An operation on the resources in the middle of another. *)
Lemma wp_hw m s Q :
  does F hw_steps m -> locked_core s -> (forall rc s', hw_only s s' -> Q rc s') -> wp F m s Q.
Proof. intros Hm Hs HQ. eapply wp_mono; [exact (Hm s Hs)|]. exact HQ. Qed.
End Fault.
End Relation.

(** ** Switching the power *)
Section PowerSwitch.
Context `{VidcKernel} `{VidcConfig} `{VidcFirmware} `{VidcPlatform} (F : Prop) (Hok : F \/ platform_ok).

(** What neither the power nor the resources are. *)
Definition soft_view (s : vidc_core) :=
  (vc_hfi s, vc_state_handle s, vc_packet s, vc_skip_pc s, vc_fw_cookie s, vc_tz s,
   vc_instances s, vc_dangling s, vc_set_to_fw s).

Lemma soft_cmd s s' :
  soft_view s' = soft_view s -> irq_balance s' = irq_balance s ->
  (powered s' = true -> powered s = true \/ in_valid_state s = true) -> cmd_only s s'.
Proof.
  intros Hv Hi Hp. injection Hv as E1 E2 E3 E4 E5 E6 E7 E8 E9.
  unfold cmd_only, cmd_view. rewrite Hi, E1, E2, E3, E4, E5, E6, E7, E8, E9. auto.
Qed.
Lemma hw_soft s s' : hw_only s s' ->
  soft_view s' = soft_view s /\ vc_irq_depth s' = vc_irq_depth s /\ watchdog s' = watchdog s /\
  powered s' = powered s.
Proof.
  intros Hv. pose proof (hw_only_powered s s' Hv) as Hp. injection Hv as E1 E2 E3 E4 E5 E6 E7 E8 E9 E10 E11 E12 E13 _.
  split; [unfold soft_view; congruence|]. split; [done|]. split; [unfold watchdog; congruence|done].
Qed.
Lemma hw_locked s s' : locked_core s -> hw_only s s' -> locked_core s'.
Proof. exact (st_keeps hw_steps s s'). Qed.
Lemma hw_trans s s' s'' : hw_only s s' -> hw_only s' s'' -> hw_only s s''.
Proof. exact (st_trans hw_steps s s' s''). Qed.

Lemma powered_clear s x : powered (set_sub_state (Z.ldiff (Z.lor x 0) CORE_SUBSTATE_POWER_ENABLE) s) = false.
Proof. rewrite powered_bit. cbn [vc_sub_state set_sub_state]. rewrite Z.ldiff_spec. apply andb_false_r. Qed.
Lemma powered_set s x : powered (set_sub_state (Z.ldiff (Z.lor x CORE_SUBSTATE_POWER_ENABLE) 0) s) = true.
Proof.
  rewrite powered_bit. cbn [vc_sub_state set_sub_state]. rewrite Z.ldiff_0_r, Z.lor_spec. apply orb_true_r.
Qed.
(** Clearing the bit of a core without power changes nothing. *)
Lemma clear_unpowered s : powered s = false ->
  hw_only s (set_sub_state (Z.ldiff (Z.lor (vc_sub_state s) 0) CORE_SUBSTATE_POWER_ENABLE) s).
Proof.
  intros Hp. rewrite powered_bit in Hp. assert (E : Z.ldiff (Z.lor (vc_sub_state s) 0) 1 = vc_sub_state s).
  { rewrite Z.lor_0_r. apply Z.bits_inj'. intros n Hn. rewrite Z.ldiff_spec.
    destruct (Z.eq_dec n 0) as [->|Hne]; [now rewrite Hp|].
    change 1 with (2 ^ 0). rewrite Z.pow2_bits_false by lia. apply andb_true_r. }
  unfold hw_only, hw_view. cbn [vc_sub_state set_sub_state]. unfold CORE_SUBSTATE_POWER_ENABLE.
  now rewrite E.
Qed.

(** The resources, and the power with them. *)
Definition switch_steps : steps.
Proof.
  refine {| st_live := locked_core;
            st_rel := fun s s' => soft_view s' = soft_view s /\ vc_irq_depth s' = vc_irq_depth s /\
                                  watchdog s' = watchdog s |}.
  - auto.
  - intros s s' s'' (-> & -> & ->) (-> & -> & ->). auto.
  - intros s s' [Hl Hh] (Hv & _). injection Hv as E1 E2 _ _ _ _ _ _ _. split; congruence.
  - auto.
Defined.
Lemma hw_does_switch m : does F hw_steps m -> does F switch_steps m.
Proof.
  apply does_sub; [done|]. intros s s' _ Hv. destruct (hw_soft s s' Hv) as (E1 & E2 & E3 & _).
  cbn [st_rel switch_steps]. auto.
Qed.

Lemma clear_power s : locked_core s ->
  wp F (msm_vidc_change_core_sub_state CORE_SUBSTATE_POWER_ENABLE 0) s
    (fun rc s' => rc = 0 /\ st_rel switch_steps s s' /\ powered s' = false).
Proof.
  intros Hs. apply change_sub; [done|discriminate|unfold CORE_SUBSTATE_POWER_ENABLE; lia|lia|].
  split; [done|]. split; [|apply powered_clear]. now split.
Qed.
Lemma set_power_bit s : locked_core s ->
  wp F (msm_vidc_change_core_sub_state 0 CORE_SUBSTATE_POWER_ENABLE) s
    (fun rc s' => rc = 0 /\ st_rel switch_steps s s' /\ powered s' = true).
Proof.
  intros Hs. apply change_sub; [done|discriminate|lia|unfold CORE_SUBSTATE_POWER_ENABLE; lia|].
  split; [done|]. split; [|apply powered_set]. now split.
Qed.

(** Switching leaves the buffer of the core alone, too. *)
Definition switched (s : vidc_core) (b : bool) (rc : Z) (s' : vidc_core) : Prop :=
  cmd_only s s' /\ vc_packet s' = vc_packet s /\ powered s' = b.
Lemma soft_packet s s' : soft_view s' = soft_view s -> vc_packet s' = vc_packet s.
Proof. intros Hv. now injection Hv. Qed.

(** The power off: it is off in the end. *)
Lemma power_off_iris2 s : locked_core s ->
  wp F __power_off_iris2 s (switched s false).
Proof.
  intros Hs. unfold __power_off_iris2. apply wp_looking. destruct (powered s) eqn:Hp; cbn [negb].
  2:{ now apply wp_ret; split; [apply (st_refl cmd_steps)|]. }
  assert (Hdone : forall d rc s4, hw_only s s4 -> d = vc_irq_depth s4 + (if watchdog s then 0 else 1) ->
    let s5 := set_irq_depth d s4 in
    wp F (msm_vidc_change_core_sub_state CORE_SUBSTATE_POWER_ENABLE 0 ;! ret rc) s5
      (switched s false)).
  { intros d rc s4 A Ed s5. destruct (hw_soft _ _ A) as (Hv & Hd & Hw & Hp4).
    apply wp_after. eapply wp_mono; [apply (clear_power s5 (hw_locked _ _ Hs A))|].
    intros rc' s' (_ & (Ev & Ei & Ew) & Hp'). apply wp_ret.
    assert (Ev' : soft_view s' = soft_view s) by (rewrite Ev; exact Hv).
    split; [|split; [exact (soft_packet _ _ Ev')|exact Hp']]. apply soft_cmd; [exact Ev'| |congruence].
    unfold irq_balance. rewrite Hp', Hp, Ei. cbn [vc_irq_depth set_irq_depth s5]. destruct (watchdog s); lia. }
  assert (Hhw : does F hw_steps (__set_clocks_ext 0 ;! __power_off_iris2_hardware ;! __power_off_iris2_controller)).
  { pose proof (does_set_clocks_ext F 0). pose proof (does_off_hardware F Hok).
    pose proof (does_off_controller F Hok). does_auto. }
  assert (Hseq : forall m1 m2 m3 k s Q, wp F ((m1 ;! m2 ;! m3) ;! k) s Q -> wp F (m1 ;! m2 ;! m3 ;! k) s Q).
  { intros m1 m2 m3 k s0 Q. unfold wp, after, bind_op. destruct (m1 s0) as [[r1 t1]| |]; [|done..].
    cbn. destruct (m2 t1) as [[r2 t2]| |]; [|done..]. done. }
  apply Hseq, wp_after, (wp_hw F _ _ _ Hhw Hs). intros _ s3 A3.
  apply wp_bind, (wp_hw F _ _ _ (does_set_bw F 0 0) (hw_locked _ _ Hs A3)). intros rc s4 A4.
  pose proof (hw_trans _ _ _ A3 A4) as A. apply wp_after, wp_looking.
  destruct (hw_soft _ _ A) as (_ & _ & -> & _). destruct (watchdog s).
  - apply wp_ret. replace s4 with (set_irq_depth (vc_irq_depth s4) s4) by now destruct s4.
    apply Hdone; [exact A|lia].
  - apply wp_upd. now apply Hdone.
Qed.

(** What sets POWER_ENABLE whenever it succeeds. *)
Definition switches_on (m : op) : Prop := forall s, locked_core s ->
  wp F m s (fun rc s' => st_rel switch_steps s s' /\ (rc = 0 -> powered s' = true)).
Lemma switches_then m k : does F hw_steps m -> switches_on k -> switches_on (m ;? k).
Proof.
  intros Hm Hk s Hs. apply wp_and_then. eapply wp_mono; [exact (hw_does_switch m Hm s Hs)|]. cbv beta.
  intros rc s' A. destruct (rc =? 0) eqn:E; zb; [|now split].
  eapply wp_mono; [exact (Hk s' (st_keeps switch_steps _ _ Hs A))|]. intros rc' s'' [A' Hp].
  split; [exact (st_trans switch_steps _ _ _ A A')|exact Hp].
Qed.
Lemma switches_undo c m : does F hw_steps c -> switches_on m -> switches_on (undo c m).
Proof.
  intros Hc Hm s Hs. apply wp_undo. eapply wp_mono; [exact (Hm s Hs)|]. cbv beta.
  intros rc s' [A Hp]. destruct (rc =? 0) eqn:E; zb; [auto|].
  eapply wp_mono; [exact (hw_does_switch c Hc s' (st_keeps switch_steps _ _ Hs A))|].
  intros rc' s'' A'. split; [exact (st_trans switch_steps _ _ _ A A')|done].
Qed.

Lemma powered_part : switches_on
  (set_bw INT_MAX INT_MAX ;?
   undo (set_bw 0 0)
     (__power_on_iris2_controller ;?
      undo __power_off_iris2_controller
        (__power_on_iris2_hardware ;?
         undo __power_off_iris2_hardware (msm_vidc_change_core_sub_state 0 CORE_SUBSTATE_POWER_ENABLE)))).
Proof.
  apply switches_then; [apply does_set_bw|]. apply switches_undo; [apply does_set_bw|].
  apply switches_then; [exact (does_on_controller F Hok)|].
  apply switches_undo; [exact (does_off_controller F Hok)|].
  apply switches_then; [exact (does_on_hardware F Hok)|].
  apply switches_undo; [exact (does_off_hardware F Hok)|].
  intros s Hs. eapply wp_mono; [exact (set_power_bit s Hs)|]. cbv beta. intros rc s' (_ & A & Hp). auto.
Qed.

(** What follows counts the interrupt line enabled. *)
Definition power_on_post (s : vidc_core) (rc : Z) (s' : vidc_core) : Prop :=
  rc = 0 /\ soft_view s' = soft_view s /\ vc_irq_depth s' = vc_irq_depth s - 1 /\
  watchdog s' = false /\ powered s' = true.
Lemma power_on_tail freq s : locked_core s -> powered s = true ->
  wp F (__set_clocks_ext freq ;! upd (set_clk_freq freq) ;! __set_registers ;!
        __interrupt_init_iris2 ;! upd (set_intr_status 0) ;! enable_irq) s (power_on_post s).
Proof.
  intros Hs Hp.
  apply wp_after. eapply wp_mono; [exact (does_set_clocks_ext F freq s Hs)|]. cbv beta. intros _ s1 A1.
  apply wp_after, wp_upd. assert (A2 : hw_only s (set_clk_freq freq s1)) by exact A1.
  set (s2 := set_clk_freq freq s1) in *. clearbody s2. clear s1 A1.
  apply wp_after, (wp_hw F _ _ _ (does_registers F) (hw_locked _ _ Hs A2)). intros _ s3 A3.
  pose proof (hw_trans _ _ _ A2 A3) as A. clear s2 A2 A3.
  apply wp_after, (wp_hw F _ _ _ (does_interrupt_init F) (hw_locked _ _ Hs A)). intros _ s4 A4.
  pose proof (hw_trans _ _ _ A A4) as B. destruct (hw_soft _ _ B) as (Hv & Hd & _ & Hq).
  apply wp_after, wp_upd, wp_upd. split; [done|]. split; [exact Hv|]. split; [cbn; lia|].
  split; [reflexivity|]. rewrite Hp in Hq. exact Hq.
Qed.
Lemma power_on_rest_ok s : locked_core s -> powered s = true -> wp F power_on_rest s (power_on_post s).
Proof.
  intros Hs Hp. unfold power_on_rest, wp. destruct (freq_tbl.[0]) as [f0|] eqn:Ef.
  - cbn [deref mbind exec_bind]. cbv zeta. exact (power_on_tail _ s Hs Hp).
  - cbn. destruct Hok as [HF|[_ Hne]]; [exact HF|]. destruct freq_tbl; done.
Qed.

(** The power on: it returns 0 exactly when the power is on. *)
Lemma power_on_iris2 s : locked_core s ->
  wp F __power_on_iris2 s (fun rc => switched s (rc =? 0) rc).
Proof.
  intros Hs. unfold __power_on_iris2. apply wp_looking. destruct (powered s) eqn:Hp.
  { apply wp_ret. split; [apply (st_refl cmd_steps)|now split]. }
  apply wp_looking. destruct (core_in_valid_state (vc_hfi s)) eqn:Hv; cbn [negb].
  2:{ apply wp_ret. split; [apply (st_refl cmd_steps)|now split]. }
  apply wp_and_then, wp_undo. eapply wp_mono; [exact (powered_part s Hs)|]. cbv beta.
  intros rc s1 [A Hp1]. pose proof (st_keeps switch_steps _ _ Hs A) as L1. destruct (rc =? 0) eqn:E; zb.
  - cbn [Z.eqb]. eapply wp_mono; [exact (power_on_rest_ok s1 L1 (Hp1 E))|]. cbv beta.
    intros rc' s' (-> & Ev & Ed & Ew & Ep). destruct A as (Av & Ad & Aw).
    assert (Ev' : soft_view s' = soft_view s) by congruence.
    split; [|split; [exact (soft_packet _ _ Ev')|exact Ep]]. apply soft_cmd; [exact Ev'| |auto]. unfold irq_balance. rewrite Ep, Ew, Hp. lia.
  - eapply wp_mono; [exact (clear_power s1 L1)|]. cbv beta. intros rc' s' (_ & A' & Ep).
    destruct (st_trans switch_steps _ _ _ A A') as (Av & Ad & Aw).
    split; [|split; [exact (soft_packet _ _ Av)|exact Ep]]. apply soft_cmd; [exact Av| |congruence].
    unfold irq_balance. now rewrite Ep, Hp, Ad.
Qed.
End PowerSwitch.

(** ** Single operations *)
Section Single.
Context `{VidcKernel} `{VidcConfig} `{VidcFirmware} `{VidcPlatform} (F : Prop).

(** A change that the relation does not see. *)
Lemma on_soft s s' :
  soft_view s' = soft_view s -> vc_irq_depth s' = vc_irq_depth s -> watchdog s' = watchdog s ->
  powered s' = powered s -> on_only s s'.
Proof.
  intros Ev Ed Ew Ep. split; [|split; [exact Ep|]].
  - apply soft_cmd; [done| |rewrite Ep; auto]. unfold irq_balance. now rewrite Ed, Ew, Ep.
  - injection Ev as _ _ E _ _ _ _ _ _. now rewrite E.
Qed.

Lemma quiet_strict_check : does F quiet_steps strict_check.
Proof. unfold strict_check. does_auto. Qed.
Lemma quiet_schedule : does F quiet_steps __schedule_power_collapse_work.
Proof.
  unfold __schedule_power_collapse_work. destruct sw_pc; [|apply does_ret].
  apply does_upd. intros s _. now apply on_soft.
Qed.
Lemma on_set_to_fw b : does F on_steps (upd (set_set_to_fw b)).
Proof.
  apply does_upd. intros s (_ & _ & Hv). split; [|split; [reflexivity|auto]].
  split; [done|]. split; [done|]. split; [done|]. split; [now left|congruence].
Qed.

Lemma quiet_change_sub clear set : clear <> set -> 0 <= clear <= 128 -> 0 <= set <= 128 ->
  Z.testbit clear 0 = false -> Z.testbit set 0 = false ->
  does F quiet_steps (msm_vidc_change_core_sub_state clear set).
Proof.
  intros Hne Hc Hs Bc Bs s [Hl _]. apply change_sub; auto. apply on_soft; try done.
  rewrite !powered_bit. cbn [vc_sub_state set_sub_state].
  now rewrite Z.ldiff_spec, Z.lor_spec, Bc, Bs, orb_false_r, andb_true_r.
Qed.

Lemma quiet_tz_run m b : does F quiet_steps m -> does F quiet_steps (m ;? upd_tz (tz_run b)).
Proof.
  intros Hm. apply does_and_then; [exact Hm|]. unfold upd_tz. apply does_upd. intros s _.
  split; [|split; [reflexivity|auto]]. split; [done|]. split; [done|]. split; [done|]. split; [now left|done].
Qed.
Lemma quiet_fw_suspend : does F quiet_steps fw_suspend.
Proof. apply quiet_tz_run, does_call. Qed.
Lemma quiet_fw_resume : does F quiet_steps fw_resume.
Proof. apply quiet_tz_run, does_call. Qed.

(** Filling the buffer of the core. *)
Lemma build_core f s : live s -> builds sized f ->
  wp F (build core_packet f) s (fun _ s' => on_only s s' /\ message_buffer (vc_packet s')).
Proof.
  intros (_ & _ & Hb) Hf. destruct (Hf (vc_ids s) (vc_packet s) Hb) as (rc & c' & b' & E & Hb').
  unfold build, wp. cbn [packet_at]. rewrite E. cbn [mbind exec_bind fst snd].
  unfold after, bind_op, upd, ret, set_packet_at. cbn [mbind exec_bind fst snd].
  split; [|exact Hb']. split; [|split; [reflexivity|auto]]. split; [done|]. split; [done|].
  split; [intros _; exact (message_buffer_sized _ Hb')|]. split; [now left|done].
Qed.

(** Writing a message to the command queue. *)
Definition writes_live (write : msm_vidc_core -> option (list Z) -> exec (Z * msm_vidc_core)) : Prop :=
  forall c b, queues_live c -> message_buffer b ->
    exists rc c', write c (Some (le_words b)) = Done (rc, c') /\ queues_live c' /\ queue_view c' = queue_view c.
Lemma write_live : writes_live venus_hfi_queue_cmd_write.
Proof. intros c b. rewrite cmd_write_as_intr. apply cmd_write_live. Qed.
Lemma write_intr_live allow : writes_live (fun c p => venus_hfi_queue_cmd_write_intr c p allow).
Proof. intros c b. apply cmd_write_live. Qed.

Lemma queue_op_on s c' :
  queues_live c' -> queue_view c' = queue_view (vc_hfi s) -> on_only s (set_hfi c' s).
Proof.
  intros Hq Hv. split; [|split; [reflexivity|auto]].
  split; [unfold cmd_view; cbn [vc_hfi set_hfi]; now rewrite Hv|].
  split; [done|]. split; [done|]. split; [now left|done].
Qed.
Lemma queue_op_write write b s :
  writes_live write -> live s -> message_buffer b ->
  wp F (queue_op (fun c => write c (Some (le_words b)))) s (fun _ => on_only s).
Proof.
  intros Hw (_ & Hq & _) Hb. destruct (Hw _ _ Hq Hb) as (rc & c' & E & Hq' & Hv).
  unfold queue_op, wp. rewrite E. cbn. now apply queue_op_on.
Qed.
End Single.
#[export] Hint Resolve quiet_strict_check quiet_schedule quiet_fw_suspend quiet_fw_resume : does.

(** ** Messages of the core *)
Section Messages.
Lemma add_none_builds ty fl pi po : builds message_buffer (add_packet packet_size ty fl pi po None 0).
Proof. apply add_packet_builds; [lia|auto]. Qed.
Lemma add_u32_builds prop ty v : builds message_buffer (add_u32 packet_size prop ty v).
Proof. apply add_packet_builds; [lia|]. right. eexists. split; reflexivity. Qed.
Lemma begin_then sid k : builds message_buffer k -> builds sized (fun st => hfi_then (begin_message packet_size sid st) k).
Proof. intros Hk. apply (builds_then sized (begin_message packet_size sid) k); [apply begin_message_builds|exact Hk]. Qed.
Lemma u32_then prop ty v k :
  builds message_buffer k -> builds message_buffer (fun st => hfi_then (add_u32 packet_size prop ty v st) k).
Proof. intros Hk. apply (builds_then message_buffer (add_u32 packet_size prop ty v)); [apply add_u32_builds|exact Hk]. Qed.

Lemma debug_builds v : builds sized (hfi_packet_sys_debug_config packet_size v).
Proof. apply begin_then, u32_then, add_u32_builds. Qed.
Lemma collapse_builds v : builds sized (hfi_packet_sys_intraframe_powercollapse packet_size v).
Proof. apply begin_then, add_u32_builds. Qed.
Lemma version_builds : builds sized (hfi_packet_image_version packet_size).
Proof. apply begin_then, add_none_builds. Qed.
Lemma pc_prep_builds : builds sized (hfi_packet_sys_pc_prep packet_size).
Proof. apply begin_then, add_none_builds. Qed.
Lemma sys_init_builds p : builds sized (hfi_packet_sys_init p packet_size).
Proof.
  apply begin_then. intros c b Hb. cbv zeta beta. cbn [fst snd]. generalize (set_sys_init_id (packet_id c) c).
  clear c. intros c. revert c b Hb.
  apply (builds_then message_buffer (add_packet packet_size _ _ _ _ _ _)).
  { apply add_packet_builds; [lia|]. right. eexists. split; reflexivity. }
  repeat apply u32_then. intros c b Hb. destruct (supports_synx p); [|cbn; eauto 6].
  revert c b Hb. apply add_packet_builds; [lia|]. right. eexists. split; reflexivity.
Qed.

Lemma subcache_builds fl cs : builds sized (subcache_message fl cs).
Proof.
  apply begin_then. induction cs as [|c cs IH]; cbn [add_subcaches]; intros c0 b Hb; [cbn; eauto 6|].
  destruct (sc_isactive c); [|now apply IH]. revert c0 b Hb.
  apply (builds_then message_buffer (add_packet packet_size _ _ _ _ _ _)); [|exact IH].
  apply add_packet_builds; [unfold sizeof_hfi_buffer; lia|]. right. eexists. split; reflexivity.
Qed.
End Messages.
