(* ===== verification/VidcVenusInv.v ===== *)
(** The commands of the video core, its resume and its power collapse respect
    the relations of VidcVenusSpec.v; what loading and unloading the firmware,
    the initialisation and the error handling of the core leave. *)
From S2P Require Import Prelude VidcQueue VidcMem VidcHfi VidcHfiInv VidcPacket VidcBuffer.
From S2P Require Import VidcSession VidcCore VidcPower VidcPowerSpec VidcVenus.
From S2P Require Import VidcBufSpec VidcVenusSpec.

Section Inv.
Context `{VidcKernel} `{VidcConfig} `{VidcFirmware} `{VidcPlatform} (F : Prop) (Hok : F \/ platform_ok).

Abbreviation quiet := (does F quiet_steps).
Abbreviation on := (does F on_steps).
Abbreviation cmd := (does F cmd_steps).

(** ** Commands of a core with power *)
Section Powered.
Context (resume : op) (Hres : forall s, powered s = true -> resume s = Done (0, s)).

Lemma write_core write s :
  writes_live write -> live s -> powered s = true -> message_buffer (vc_packet s) ->
  wp F (cmdq_write_with resume write core_packet) s (fun _ => on_only s).
Proof.
  intros Hw Hs Hp Hb. apply wp_and_then. unfold wp at 1. rewrite (Hres s Hp). cbn [Z.eqb].
  apply wp_bind. eapply wp_mono; [exact (queue_op_write F write _ s Hw Hs Hb)|]. cbv beta. intros rc s1 A.
  assert (Hq : quiet ((if rc =? 0 then __schedule_power_collapse_work else ret 0) ;! ret rc)).
  { pose proof (quiet_schedule F). does_auto. }
  eapply wp_mono; [exact (Hq s1 (st_keeps quiet_steps _ _ Hs A))|]. cbv beta. intros rc' s'.
  exact (on_only_trans _ _ _ A).
Qed.

Lemma on_command f : builds sized f -> on (build core_packet f ;? cmdq_write resume core_packet).
Proof.
  intros Hf s (Hs & Hp & Hv). apply wp_and_then. eapply wp_mono; [exact (build_core F f s Hs Hf)|]. cbv beta.
  intros rc s1 [A Hb]. destruct (st_keeps on_steps _ _ (conj Hs (conj Hp Hv)) A) as (L1 & P1 & _).
  destruct (rc =? 0); [|exact A].
  eapply wp_mono; [exact (write_core _ s1 write_live L1 P1 Hb)|]. intros rc' s'. exact (on_only_trans _ _ _ A).
Qed.
Hint Resolve on_command quiet_on hw_does_quiet : does.

Lemma on_debug v : on (sys_set_debug resume v).
Proof. apply on_command, debug_builds. Qed.
Lemma on_power_control b : on (sys_set_power_control resume b).
Proof.
  unfold sys_set_power_control. apply does_looking. intros h. destruct h; cbn [negb]; [|apply does_ret].
  apply does_looking. intros v. destruct v; cbn [negb]; [|apply does_ret].
  assert (Hc : on (msm_vidc_change_core_sub_state 0 CORE_SUBSTATE_FW_PWR_CTRL)).
  { apply quiet_on, quiet_change_sub; unfold CORE_SUBSTATE_FW_PWR_CTRL; (lia || reflexivity). }
  intros s Hs. apply wp_and_then. eapply wp_mono.
  { exact (build_core F _ s (proj1 Hs) (collapse_builds _)). }
  cbv beta. intros rc s1 [A Hb]. destruct (rc =? 0); [|exact A].
  destruct (st_keeps on_steps _ _ Hs A) as (L1 & P1 & _). apply wp_and_then.
  eapply wp_mono; [exact (write_core _ s1 write_live L1 P1 Hb)|]. cbv beta. intros rc2 s2 A2.
  pose proof (on_only_trans _ _ _ A A2) as A'. destruct (rc2 =? 0); [|exact A'].
  eapply wp_mono; [exact (Hc s2 (st_keeps on_steps _ _ Hs A'))|]. intros rc3 s3. exact (on_only_trans _ _ _ A').
Qed.
Lemma on_set_subcaches : on (set_subcaches_with resume).
Proof.
  unfold set_subcaches_with. pose proof (hw_does_quiet F _ (does_llcc F false)).
  pose proof (fun fl cs => on_command _ (subcache_builds fl cs)). pose proof (on_set_to_fw F). does_auto.
Qed.
End Powered.

(** ** Resume *)
Lemma resume_powered n s : powered s = true -> resume_fuel (S n) s = Done (0, s).
Proof. intros Hp. cbn [resume_fuel]. unfold resume_step, looking. now rewrite Hp. Qed.

Lemma venus_power_off s : locked_core s -> wp F __venus_power_off s (switched s false).
Proof.
  intros Hs. unfold __venus_power_off. apply wp_looking. destruct (powered s) eqn:Hp; cbn [negb].
  2:{ apply wp_ret. split; [apply (st_refl cmd_steps)|now split]. }
  apply wp_and_then. eapply wp_mono; [exact (power_off_iris2 F Hok s Hs)|]. cbv beta. intros rc s1 (A & Ek & Ep).
  destruct (rc =? 0); [|now split].
  assert (L1 : locked_core s1) by (destruct (cmd_view_valid _ _ (proj1 A)) as (_ & E1 & E2), Hs; split; congruence).
  apply wp_after. eapply wp_mono; [exact (clear_power F s1 L1)|]. cbv beta. intros rc' s2 (_ & (Ev & Ed & Ew) & Ep2).
  apply wp_ret. split; [|split; [rewrite (soft_packet _ _ Ev); exact Ek|exact Ep2]].
  apply (cmd_only_trans _ _ _ A), soft_cmd; [exact Ev| |congruence]. unfold irq_balance. now rewrite Ep, Ep2, Ed.
Qed.

Lemma venus_power_on s : locked_core s ->
  wp F __venus_power_on s (fun rc => switched s (rc =? 0) rc).
Proof.
  intros Hs. unfold __venus_power_on. apply wp_looking. destruct (powered s) eqn:Hp.
  { apply wp_ret. split; [apply (st_refl cmd_steps)|now split]. }
  apply wp_and_then. eapply wp_mono; [exact (power_on_iris2 F Hok s Hs)|]. cbv beta. intros rc s1 (A & Ek & Ep).
  destruct (rc =? 0) eqn:E; [|split; [exact A|split; [exact Ek|congruence]]].
  assert (L1 : locked_core s1) by (destruct (cmd_view_valid _ _ (proj1 A)) as (_ & E1 & E2), Hs; split; congruence).
  eapply wp_mono; [exact (set_power_bit F s1 L1)|]. cbv beta. intros rc' s2 (-> & (Ev & Ed & Ew) & Ep2).
  split; [|split; [rewrite (soft_packet _ _ Ev); exact Ek|exact Ep2]].
  apply (cmd_only_trans _ _ _ A), soft_cmd; [exact Ev| |auto]. unfold irq_balance. now rewrite Ep, Ep2, Ed, Ew.
Qed.

(** What a resume does: it returns 0 only with the power on. *)
Definition resumed (s : vidc_core) (rc : Z) (s' : vidc_core) : Prop :=
  cmd_only s s' /\ (message_buffer (vc_packet s) -> message_buffer (vc_packet s')) /\
  (rc = 0 -> powered s' = true).

Lemma resumed_after s s1 rc s' : on_only s s1 -> resumed s1 rc s' -> resumed s rc s'.
Proof.
  intros (A & _ & M) (A' & M' & P). split; [exact (cmd_only_trans _ _ _ A A')|]. auto.
Qed.
Lemma resumed_failed s s' rc : on_only s s' -> (rc =? 0) = false -> resumed s rc s'.
Proof. intros (A & _ & M) E. zb. split; [exact A|]. split; [exact M|]. intros; contradiction. Qed.

(** The commands a resume sends on a core that it has powered. *)
Section Sent.
Context (resume : op) (Hres : forall s, powered s = true -> resume s = Done (0, s)).
Hint Resolve quiet_on hw_does_quiet : does.
Lemma on_boot :
  on (fw_resume ;? undo fw_suspend
        (gdsc_hw_ctrl ;! __boot_firmware_iris2 ;? sys_set_debug resume fw_log_level ;! llcc_enable true)).
Proof.
  pose proof (quiet_on F _ (quiet_fw_resume F)). pose proof (quiet_on F _ (quiet_fw_suspend F)).
  pose proof (does_hand_offs F Hok). pose proof (does_boot F). pose proof (does_llcc F true).
  pose proof (on_debug resume Hres fw_log_level). unfold gdsc_hw_ctrl. does_auto.
Qed.
Lemma on_settings :
  on (set_subcaches_with resume ;! undo gdsc_sw_ctrl (sys_set_power_control resume true) ;! ret 0).
Proof.
  pose proof (on_set_subcaches resume Hres). pose proof (on_power_control resume Hres true).
  pose proof (does_acquires F Hok). unfold gdsc_sw_ctrl. does_auto.
Qed.

Lemma resume_on s : live s -> wp F (resume_step resume) s (resumed s).
Proof.
  intros Hs. unfold resume_step. apply wp_looking. destruct (powered s) eqn:Hp.
  { apply wp_ret. split; [apply (st_refl cmd_steps)|]. auto. }
  apply wp_looking. destruct (core_in_valid_state (vc_hfi s)) eqn:Hv; cbn [negb].
  2:{ apply wp_ret. split; [apply (st_refl cmd_steps)|]. split; [auto|]. discriminate. }
  assert (Hquiet : forall m k, quiet m ->
    (forall s', live s' -> in_valid_state s' = true -> wp F k s' (resumed s')) ->
    forall s, live s -> in_valid_state s = true -> wp F (m ;? k) s (resumed s)).
  { intros m k Hm Hk s0 L0 V0. apply wp_and_then. eapply wp_mono; [exact (Hm s0 L0)|]. cbv beta. intros rc s1 A.
    destruct (rc =? 0) eqn:E; [|now apply resumed_failed].
    destruct (cmd_view_valid _ _ (proj1 (proj1 A))) as (Ev & _).
    eapply wp_mono; [apply (Hk s1 (st_keeps quiet_steps _ _ L0 A)); congruence|]. intros rc' s2.
    exact (resumed_after _ _ _ _ A). }
  change (in_valid_state s = true) in Hv. revert Hs Hv. clear Hp. revert s. apply Hquiet; [apply quiet_strict_check|].
  apply Hquiet; [apply quiet_change_sub; unfold CORE_SUBSTATE_GDSC_HANDOFF; (lia || reflexivity)|].
  apply Hquiet; [apply quiet_change_sub; unfold CORE_SUBSTATE_FW_PWR_CTRL; (lia || reflexivity)|].
  intros s Hs Hv. apply wp_and_then. eapply wp_mono; [exact (venus_power_on s (proj1 Hs))|]. cbv beta.
  intros rc s1 (A & Ek & Ep). pose proof (live_kept _ _ Hs A) as L1.
  destruct (cmd_view_valid _ _ (proj1 A)) as (Ev & _).
  destruct (rc =? 0) eqn:E.
  2:{ split; [exact A|]. split; [now rewrite Ek|]. intros ->. discriminate. }
  assert (Hstart : forall rc' s', resumed s1 rc' s' -> resumed s rc' s').
  { intros rc' s' (A' & M' & P'). split; [exact (cmd_only_trans _ _ _ A A')|]. rewrite Ek in M'. auto. }
  apply wp_and_then, wp_undo. eapply wp_mono; [apply (on_boot s1); cbn; repeat split; try apply L1; congruence|]. cbv beta. intros rc2 s2 A2.
  assert (L2 : st_live on_steps s2).
  { apply (st_keeps on_steps s1 s2); [cbn; repeat split; try apply L1; congruence|exact A2]. } destruct (rc2 =? 0) eqn:E2.
  - cbn [Z.eqb]. eapply wp_mono; [exact (on_settings s2 L2)|]. cbv beta. intros rc3 s3 A3.
    destruct (on_only_trans _ _ _ A2 A3) as (A' & P' & M'). apply Hstart. split; [exact A'|]. split; [exact M'|].
    intros _. now rewrite P'.
  - eapply wp_mono; [exact (venus_power_off s2 (proj1 (proj1 L2)))|]. cbv beta. intros rc3 s3 (A3 & Ek3 & P3).
    rewrite ?E2. destruct A2 as (A2 & _ & M2). apply Hstart.
    split; [exact (cmd_only_trans _ _ _ A2 A3)|]. rewrite Ek3. split; [exact M2|]. intros ->. discriminate.
Qed.
End Sent.

(** With two units of fuel or more a resume comes back. *)
Lemma resume_ok n s : live s -> wp F (resume_fuel (S (S n))) s (resumed s).
Proof. apply resume_on. intros s'. apply resume_powered. Qed.
Lemma cmd_resume : cmd __resume.
Proof. intros s Hs. eapply wp_mono; [exact (resume_ok 0 s Hs)|]. now intros rc s' []. Qed.

(** ** Commands of a core with power or without *)
Definition message_at (p : packet_ptr) (s : vidc_core) : Prop :=
  exists b, packet_at p s = Some b /\ message_buffer b.

Lemma message_resumed p s rc s' : message_at p s -> resumed s rc s' -> message_at p s'.
Proof.
  intros (b & E & Hb) ((V & _) & M & _). destruct p as [|id]; cbn in E.
  - injection E as <-. exists (vc_packet s'). auto.
  - exists b. split; [|exact Hb]. rewrite <- E. cbn. injection V as _ _ _ _ _ _ _ _ _ _ _ E1 E2 _.
    unfold session. now rewrite E1, E2.
Qed.

(** A command: it resumes the core, and what is in the buffer when it is
    written is a message again. *)
Lemma cmd_write_with write p s :
  writes_live write -> live s -> message_at p s ->
  wp F (cmdq_write_with __resume write p) s (fun _ => cmd_only s).
Proof.
  intros Hw Hs Hb. apply wp_and_then. eapply wp_mono; [exact (resume_ok 0 s Hs)|]. cbv beta. intros rc s1 A.
  destruct (rc =? 0); [|exact (proj1 A)]. destruct (message_resumed p s rc s1 Hb A) as (b & E & Hb1).
  pose proof (live_kept _ _ Hs (proj1 A)) as L1. apply wp_bind.
  assert (Hq : wp F (queue_op (fun c => write c (option_map le_words (packet_at p s1)))) s1 (fun _ => on_only s1)).
  { rewrite E. exact (queue_op_write F write b s1 Hw L1 Hb1). }
  eapply wp_mono; [exact Hq|]. cbv beta. intros rc2 s2 A2.
  pose proof (cmd_only_trans _ _ _ (proj1 A) (proj1 A2)) as A'. pose proof (live_kept _ _ Hs A') as L2.
  assert (Hsched : quiet ((if rc2 =? 0 then __schedule_power_collapse_work else ret 0) ;! ret rc2)).
  { pose proof (quiet_schedule F). does_auto. }
  eapply wp_mono; [exact (Hsched s2 L2)|]. intros rc3 s3 (A3 & _). exact (cmd_only_trans _ _ _ A' A3).
Qed.

Lemma cmd_core_write s : live s -> message_buffer (vc_packet s) ->
  wp F (__cmdq_write core_packet) s (fun _ => cmd_only s).
Proof. intros Hs Hb. apply (cmd_write_with _ core_packet s write_live Hs). exists (vc_packet s). auto. Qed.
Lemma cmd_command f : builds sized f -> cmd (build core_packet f ;? __cmdq_write core_packet).
Proof.
  intros Hf s Hs. apply wp_and_then. eapply wp_mono; [exact (build_core F f s Hs Hf)|]. cbv beta.
  intros rc s1 [(A & _) Hb]. destruct (rc =? 0); [|exact A]. pose proof (live_kept _ _ Hs A) as L1.
  eapply wp_mono; [exact (cmd_core_write s1 L1 Hb)|]. intros rc' s'. exact (cmd_only_trans _ _ _ A).
Qed.
Hint Resolve cmd_command quiet_cmd hw_does_cmd : does.

Lemma cmd_debug v : cmd (__sys_set_debug v).
Proof. apply cmd_command, debug_builds. Qed.
Lemma cmd_sys_init : cmd __sys_init.
Proof. apply cmd_command, sys_init_builds. Qed.
Lemma cmd_image_version : cmd __sys_image_version.
Proof. apply cmd_command, version_builds. Qed.
Lemma cmd_prepare_pc : cmd __prepare_pc.
Proof.
  unfold __prepare_pc. intros s Hs. apply wp_and_then.
  eapply wp_mono; [exact (build_core F _ s Hs pc_prep_builds)|]. cbv beta. intros rc s1 [(A & _) Hb].
  destruct (rc =? 0); [|exact A]. pose proof (live_kept _ _ Hs A) as L1. apply wp_bind.
  eapply wp_mono; [exact (cmd_core_write s1 L1 Hb)|].
  intros rc' s'. exact (cmd_only_trans _ _ _ A).
Qed.

(** ** Power collapse *)
Lemma cmd_flush_to b : match b with flush_core_packet => True | flush_local b => sized b end -> cmd (flush_to b).
Proof.
  intros Hb s (Hl & Hq & Hp). unfold flush_to, wp. destruct b as [|b].
  - destruct (flush_ok (vc_hfi s) (vc_packet s) Hq Hp) as (c' & b' & -> & Hb' & Hq' & Hv).
    cbn [mbind exec_bind]. split; [unfold cmd_view; cbn [vc_hfi set_hfi set_packet]; now rewrite Hv|].
    split; [done|]. split; [done|]. split; [now left|done].
  - destruct (flush_ok (vc_hfi s) b Hq Hb) as (c' & b' & -> & Hb' & Hq' & Hv).
    cbn [mbind exec_bind]. split; [unfold cmd_view; cbn [vc_hfi set_hfi set_packet]; now rewrite Hv|].
    split; [done|]. split; [done|]. split; [now left|done].
Qed.
Lemma cmd_flush force : cmd (__flush_debug_queue force).
Proof.
  unfold __flush_debug_queue. destruct force; [|now apply cmd_flush_to]. apply does_ask. intros a.
  destruct (a =? 0); [apply does_ret|]. apply cmd_flush_to. unfold sized, zlength. now rewrite length_replicate.
Qed.
Lemma cmd_power_off : cmd __venus_power_off.
Proof. intros s Hs. eapply wp_mono; [exact (venus_power_off s (proj1 Hs))|]. now intros rc s' []. Qed.
Lemma cmd_prepare_iris2 : cmd __prepare_pc_iris2.
Proof.
  unfold __prepare_pc_iris2, skip_power_off, __read_register. pose proof cmd_prepare_pc.
  pose proof (fun r m v => hw_does_cmd F _ (does_poll F r m v)). does_auto.
Qed.
Lemma cmd_suspend : cmd __suspend.
Proof.
  unfold __suspend. pose proof (quiet_fw_suspend F). pose proof (quiet_strict_check F).
  pose proof (does_llcc F false). pose proof cmd_power_off. does_auto.
Qed.
Lemma cmd_power_collapse force : cmd (__power_collapse force).
Proof.
  unfold __power_collapse. pose proof (cmd_flush force). pose proof cmd_prepare_iris2. pose proof cmd_suspend.
  does_auto.
Qed.
Lemma cmd_cancel : cmd __cancel_power_collapse_work.
Proof.
  unfold __cancel_power_collapse_work. destruct sw_pc; [|apply does_ret].
  apply quiet_cmd, does_upd. intros s _. now apply on_soft.
Qed.
Lemma cmd_hfi_suspend : cmd venus_hfi_suspend.
Proof.
  unfold venus_hfi_suspend. pose proof (cmd_power_collapse true). pose proof cmd_cancel.
  pose proof (quiet_strict_check F). does_auto.
Qed.
End Inv.
