(* ===== verification/VidcLifeSpec.v ===== *)
(** The life of the video core below its states: allocating or resetting the
    queues, loading, starting and unloading the firmware. *)
From S2P Require Import Prelude VidcQueue VidcQueueSpec VidcMem VidcHfi VidcHfiInv VidcHfiThms.
From S2P Require Import VidcPacket VidcBuffer VidcSession VidcCore VidcPower.
From S2P Require Import VidcPowerSpec VidcVenus VidcBufSpec VidcVenusSpec VidcVenusInv.

(** ** The queues before a start of the firmware *)
Section QueueInit.
Context `{VidcPlatform}.

(** What the initialisation of the queues leaves of the core. *)
Definition same_core (c c' : msm_vidc_core) : Prop :=
  core_state c' = core_state c /\ core_locked c' = core_locked c.
Lemma same_core_trans c c1 c2 : same_core c c1 -> same_core c1 c2 -> same_core c c2.
Proof. intros [E1 E2] [E3 E4]. split; congruence. Qed.

(** [f] does not touch the state and the lock. *)
Definition keeps_core (f : msm_vidc_core -> exec (Z * msm_vidc_core)) : Prop :=
  forall c rc c', f c = Done (rc, c') -> same_core c c'.
Lemma next_keeps f g :
  keeps_core f -> keeps_core g -> keeps_core (fun c => init_next (f c) g).
Proof.
  intros Hf Hg c rc c'. unfold init_next. destruct (f c) as [[rc1 c1]| |] eqn:E; [|done..].
  cbn [mbind exec_bind]. destruct (negb (rc1 =? 0)); [intros [= <- <-]; exact (Hf _ _ _ E)|].
  intros E'. exact (same_core_trans _ _ _ (Hf _ _ _ E) (Hg _ _ _ E')).
Qed.

Lemma iface_keeps a : keeps_core (init_iface_queues a).
Proof.
  intros c rc c'. unfold init_iface_queues. destruct (memory_alloc_map a _ _) as [[[r m] w] k].
  destruct (negb (r =? 0)); [now intros [= <- <-]|]. destruct w; cbn [deref mbind exec_bind]; [|done].
  cbn [iface_queues set_held].
  destruct (init_queues _ _ _ _ _) as [qs| |]; cbn [mbind exec_bind]; [|done..].
  destruct (set_directions qs) as [qs'| |]; cbn [mbind exec_bind]; [|done..]. now intros [= <- <-].
Qed.
Lemma sfr_keeps a : keeps_core (init_sfr a).
Proof.
  intros c rc c'. unfold init_sfr. destruct (memory_alloc_map a _ _) as [[[r m] w] k].
  destruct (negb (r =? 0)); [now intros [= <- <-]|]. destruct w; cbn [deref mbind exec_bind]; [|done].
  destruct (zstore _ _ _); cbn [mbind exec_bind]; [|done..]. now intros [= <- <-].
Qed.
Lemma synx_keeps a : keeps_core (init_synx a).
Proof.
  intros c rc c'. unfold init_synx. destruct (negb _); [now intros [= <- <-]|].
  destruct (msm_vidc_dma_map_page _ _ _) as [[r m] k]. now intros [= <- <-].
Qed.
Lemma regs_keep a : keeps_core (init_regs a).
Proof.
  unfold init_regs.
  apply (next_keeps (fun c => init_next (init_aon (a_aon a) c) (init_fence (a_fence a))));
    [apply (next_keeps (init_aon (a_aon a)))|];
    intros c rc c'; unfold init_aon, init_fence, init_qtimer;
    destruct (venus_hfi_iommu_map_registers _ _ _ _) as [[r x] k]; now intros [= <- <-].
Qed.
Lemma mmap_keeps a : keeps_core (init_mmap a).
Proof.
  intros c rc c'. unfold init_mmap. destruct (memory_alloc_map a _ _) as [[[r m] w] k].
  destruct (negb (r =? 0)); [now intros [= <- <-]|]. destruct w; cbn [deref mbind exec_bind]; [|done].
  cbv zeta. destruct (memcpy _ _ _ _ _); cbn [mbind exec_bind]; [|done..].
  destruct (zstore _ _ _); cbn [mbind exec_bind]; [|done..].
  do 4 (destruct (put_area _ _ _); cbn [mbind exec_bind]; [|done..]). now intros [= <- <-].
Qed.
Lemma init_keeps a c : align_virtual_addr (iface_q_table c) = None -> forall rc c',
  venus_hfi_queue_init a c = Done (rc, c') -> same_core c c'.
Proof.
  intros Ht rc c'. rewrite init_chain by done. cbv zeta.
  apply (next_keeps (fun c => init_next (init_next (init_next (init_iface_queues (a_queues a) c)
    (init_sfr (a_sfr a))) (init_synx (a_synx a))) (init_regs a))); [|apply mmap_keeps].
  apply (next_keeps (fun c => init_next (init_next (init_iface_queues (a_queues a) c)
    (init_sfr (a_sfr a))) (init_synx (a_synx a)))); [|apply regs_keep].
  apply (next_keeps (fun c => init_next (init_iface_queues (a_queues a) c) (init_sfr (a_sfr a))));
    [|apply synx_keeps].
  apply (next_keeps (init_iface_queues (a_queues a))); [apply iface_keeps|apply sfr_keeps].
Qed.

(** A header with the defaults, whatever its address, direction and request,
    is that of an empty queue. *)
Lemma headers_empty W q ps h :
  0 < W -> queue_holds W q ps -> qhdr_read_idx h = 0 -> qhdr_write_idx h = 0 ->
  queue_holds W {| q_hdr := Some h; q_array := q_array q |} [].
Proof.
  intros HW (arr & h0 & [Ga Gh Gs Gw] & _) Hr Hw. exists arr, h. rewrite Hr, Hw.
  split; [now split|]. split; [constructor|]. change (zlength (concat [])) with 0.
  split; [lia|]. split; [lia|]. split; [|intros i Hi; unfold zlength in Hi; cbn in Hi; lia].
  unfold ring. now rewrite (proj2 (Z.ltb_lt _ _)) by lia.
Qed.

Lemma reset_live c :
  queues_live c -> ~ core_fresh c ->
  exists c', venus_hfi_reset_queue_header c = Done (0, c') /\ queues_live c' /\ same_core c c'.
Proof.
  intros [Hf|(Hk & Ht & Hq)] Hnf; [contradiction|]. pose proof (h_queues c Hk) as H3.
  destruct (iface_queues c) as [|q0 [|q1 [|q2 [|]]]] eqn:Eqs; try discriminate.
  destruct (Hq 0 ltac:(lia)) as (q0' & p0 & [= <-] & Q0), (Hq 1 ltac:(lia)) as (q1' & p1 & [= <-] & Q1),
    (Hq 2 ltac:(lia)) as (q2' & p2 & [= <-] & Q2).
  pose proof Q0 as (a0 & h0 & [_ E0 _ _] & _). pose proof Q1 as (a1 & h1 & [_ E1 _ _] & _).
  pose proof Q2 as (a2 & h2 & [_ E2 _ _] & _).
  unfold venus_hfi_reset_queue_header. rewrite Eqs. cbn [map_queues]. unfold with_hdr. rewrite E0.
  cbn [deref mbind exec_bind]. rewrite E1. cbn [deref mbind exec_bind]. rewrite E2. cbn [deref mbind exec_bind].
  cbv [set_directions VIDC_IFACEQ_CMDQ_IDX VIDC_IFACEQ_MSGQ_IDX VIDC_IFACEQ_DBGQ_IDX].
  eexists. split; [reflexivity|]. split; [|done]. right.
  split; [apply set_queues_holds; [exact Hk|reflexivity|repeat constructor; eauto]|]. split; [exact Ht|].
  intros i Hi. assert (Hi' : i = 0 \/ i = 1 \/ i = 2) by lia.
  destruct Hi' as [->|[->| ->]]; do 2 eexists; (split; [reflexivity|]).
  - apply (headers_empty 204800 q0 p0); [lia|exact Q0|reflexivity..].
  - apply (headers_empty 204800 q1 p1); [lia|exact Q1|reflexivity..].
  - apply (headers_empty 204800 q2 p2); [lia|exact Q2|reflexivity..].
Qed.

(** The queues before a start: there or not, they are live afterwards, too. *)
Lemma queue_init_live a c :
  non_secure_bank -> answers_ok a -> none_refused a -> queues_live c ->
  exists rc c', venus_hfi_queue_init a c = Done (rc, c') /\ queues_live c' /\ same_core c c'.
Proof.
  intros Hcb Ha Hn Hc. pose proof Hc as [Hf|(Hk & [w Ht] & Hq)].
  - destruct (init_fresh Hcb a c Hf Ha Hn) as (c' & E & Hk & Hq & _). exists (if init_good a c then 0 else - ENOMEM), c'.
    split; [exact E|]. split; [|exact (init_keeps a c (f_table c Hf) _ _ E)].
    destruct (alloc_good (a_queues a)); [|now left]. right. split; [exact Hk|]. split; [exact (proj1 Hq)|].
    intros i Hi. destruct Hq as (_ & _ & Hq). destruct (Hq i Hi) as (q & Eq & Hr). exists q, [].
    split; [exact Eq|]. exact (queue_ready_empty _ _ _ _ Hr).
  - destruct (reset_live c Hc) as (c' & E & Hl & Hs).
    { intros Hf. pose proof (f_table c Hf). congruence. }
    exists 0, c'. split; [|auto]. unfold venus_hfi_queue_init. now rewrite Ht, E.
Qed.
End QueueInit.

(** ** The relation of a life: what the load and the unload keep *)
Definition life_view (s : vidc_core) :=
  (core_state (vc_hfi s), core_locked (vc_hfi s), vc_state_handle s, vc_skip_pc s,
   vc_instances s, vc_dangling s, irq_balance s).

Section LifeRelation.
Context `{VidcPlatform}.

Definition life_only (s s' : vidc_core) : Prop :=
  life_view s' = life_view s /\
  (queues_live (vc_hfi s) -> queues_live (vc_hfi s')) /\
  (sized (vc_packet s) -> sized (vc_packet s')).

Definition life_steps : steps.
Proof.
  refine {| st_live := live; st_rel := life_only |}.
  - intros s. unfold life_only. tauto.
  - intros s s' s'' (V1 & Q1 & S1) (V2 & Q2 & S2). unfold life_only. rewrite V2, V1. tauto.
  - intros s s' ([Hl Hh] & Hq & Hs) (V & Q & S). injection V as _ E1 E2 _ _ _ _.
    split; [split; congruence|auto].
  - intros s n. unfold life_only. tauto.
Defined.

Lemma cmd_life s s' : cmd_only s s' -> life_only s s'.
Proof.
  intros (V & Q & S & _). injection V as E1 E2 _ _ _ _ E3 E4 _ _ _ E5 E6 E7.
  split; [unfold life_view; congruence|auto].
Qed.
(** Operations on the firmware leave the power alone, too. *)
Definition fw_only (s s' : vidc_core) : Prop :=
  life_only s s' /\ powered s' = powered s /\ vc_set_to_fw s' = vc_set_to_fw s.
Definition fw_steps : steps.
Proof.
  refine {| st_live := live; st_rel := fw_only |}.
  - intros s. split; [apply (st_refl life_steps)|auto].
  - intros s s' s'' (A1 & E1 & T1) (A2 & E2 & T2). split; [exact (st_trans life_steps _ _ _ A1 A2)|].
    split; congruence.
  - intros s s' Hl (Ho & _). exact (st_keeps life_steps _ _ Hl Ho).
  - intros s n. split; [apply (st_answers life_steps)|auto].
Defined.
Lemma hw_fw s s' : hw_only s s' -> fw_only s s'.
Proof.
  intros Hv. split; [exact (cmd_life _ _ (hw_cmd _ _ Hv))|]. split; [exact (hw_only_powered _ _ Hv)|].
  injection Hv as _ _ _ _ _ _ _ _ E _ _ _ _ _. exact E.
Qed.

Lemma fw_live s s' : live s -> fw_only s s' -> live s'.
Proof. exact (st_keeps fw_steps s s'). Qed.
Lemma life_live s s' : live s -> life_only s s' -> live s'.
Proof. exact (st_keeps life_steps s s'). Qed.
Lemma life_trans s s' s'' : life_only s s' -> life_only s' s'' -> life_only s s''.
Proof. exact (st_trans life_steps s s' s''). Qed.
Lemma cmd_cookie s s' : cmd_only s s' -> vc_fw_cookie s' = vc_fw_cookie s.
Proof. intros (V & _). now injection V. Qed.
End LifeRelation.

Section Life.
Context `{VidcKernel} `{VidcConfig} `{VidcFirmware} `{VidcPlatform} (F : Prop) (Hok : F \/ platform_ok).

Lemma fw_tz f : does F fw_steps (upd_tz f).
Proof. apply does_upd. intros s _. now split. Qed.
Lemma fw_cookie x : does F fw_steps (upd (set_fw_cookie x)).
Proof. apply does_upd. intros s _. now split. Qed.
Lemma fw_pm_work b : does F fw_steps (upd (set_pm_work b)).
Proof. apply does_upd. intros s _. now split. Qed.
Hint Resolve fw_tz fw_cookie fw_pm_work : does.
Lemma fw_shutdown : does F fw_steps pas_shutdown.
Proof. unfold pas_shutdown. does_auto. Qed.
Lemma fw_load_memory : does F fw_steps __load_fw_to_memory.
Proof. unfold __load_fw_to_memory, release_firmware. does_auto. Qed.
Hint Resolve fw_shutdown fw_load_memory : does.

(** The load: with the firmware in the secure world on success, without on
    failure. *)
Lemma fw_load_ok s : live s ->
  wp F fw_load s (fun rc s' => fw_only s s' /\ (rc = 0 -> vc_fw_cookie s' <> 0) /\
    (rc <> 0 -> vc_fw_cookie s = 0 -> vc_fw_cookie s' = 0)).
Proof.
  intros Hs. unfold fw_load. apply wp_looking, wp_and_then.
  set (first := if vc_fw_cookie s =? 0 then _ else _).
  assert (Hfirst : wp F first s (fun rc s1 => fw_only s s1 /\ (rc = 0 -> vc_fw_cookie s1 <> 0) /\
    (rc <> 0 -> vc_fw_cookie s = 0 /\ vc_fw_cookie s1 = 0))).
  { subst first. destruct (vc_fw_cookie s =? 0) eqn:Ec; zb.
    - apply wp_bind. eapply wp_mono; [exact (fw_load_memory s Hs)|]. cbv beta. intros cookie s1 A.
      apply wp_after, wp_upd. destruct (cookie <=? 0) eqn:El; zb.
      + apply wp_after, wp_upd, wp_ret. split; [|split; [discriminate|done]].
        destruct A as ((V & Q & S) & P & T). now split.
      + apply wp_ret. split; [|split; [intros _; cbn; lia|congruence]].
        destruct A as ((V & Q & S) & P & T). now split.
    - apply wp_ret. split; [apply (st_refl fw_steps)|]. split; [auto|congruence]. }
  eapply wp_mono; [exact Hfirst|]. cbv beta. intros rc s1 (A & A0 & A1).
  destruct (rc =? 0) eqn:E; zb; [|split; [exact A|]; split; [done|]; intros Hn _; apply A1, Hn].
  specialize (A0 E). apply wp_undo, wp_ask. intros a. apply wp_ret.
  pose proof (st_trans fw_steps _ _ _ A (st_answers fw_steps s1 (S (vc_answers s1)))) as B.
  destruct (a =? 0) eqn:Ea; zb; [split; [exact B|]; split; [intros _; exact A0|congruence]|].
  apply wp_after, wp_looking. cbn [vc_fw_cookie set_answers]. rewrite (proj2 (Z.eqb_neq _ 0) A0).
  eapply wp_mono; [exact (fw_shutdown _ (st_keeps fw_steps _ _ Hs B))|]. cbv beta. intros rc2 s2 B2.
  apply wp_upd. split; [|split; [congruence|done]].
  destruct (st_trans fw_steps _ _ _ B B2) as ((V & Q & Z) & P & T). now split.
Qed.

Lemma clear_all s : locked_core s -> powered s = false ->
  wp F clear_sub_states s (fun rc s' => fw_only s s' /\ vc_fw_cookie s' = vc_fw_cookie s /\ rc = 0).
Proof.
  intros Hs Hp. apply change_sub; [done|discriminate|unfold CORE_SUBSTATE_MAX; lia|lia|].
  split; [|done]. change (CORE_SUBSTATE_MAX - 1) with 127. rewrite Z.lor_0_r.
  assert (Ep : powered (set_sub_state (Z.ldiff (vc_sub_state s) 127) s) = powered s).
  { rewrite Hp, powered_bit. cbn [vc_sub_state set_sub_state]. rewrite Z.ldiff_spec. apply andb_false_r. }
  split; [|split; [exact Ep|done]]. split; [|done]. unfold life_view, irq_balance. now rewrite Ep.
Qed.

(** The load with the power: both or neither. *)
Lemma load_fw_ok s : live s -> powered s = false ->
  wp F __load_fw s (fun rc s' => life_only s s' /\
    (if rc =? 0 then powered s' = true /\ vc_fw_cookie s' <> 0
     else powered s' = false /\ (vc_fw_cookie s = 0 -> vc_fw_cookie s' = 0))).
Proof.
  intros Hs Hp. unfold __load_fw. apply wp_after.
  eapply wp_mono; [exact (clear_all s (proj1 Hs) Hp)|]. cbv beta. intros _ s1 (A & Ec & _).
  pose proof (fw_live _ _ Hs A) as L1. apply wp_and_then.
  eapply wp_mono; [exact (venus_power_on F Hok s1 (proj1 L1))|]. cbv beta. intros rc s2 (A2 & _ & Ep).
  pose proof (life_trans _ _ _ (proj1 A) (cmd_life _ _ A2)) as B2. pose proof (cmd_cookie _ _ A2) as Ec2.
  destruct (rc =? 0) eqn:E; [|split; [exact B2|]; split; [exact Ep|congruence]].
  pose proof (life_live _ _ Hs B2) as L2. apply wp_and_then, wp_undo.
  eapply wp_mono; [exact (fw_load_ok s2 L2)|]. cbv beta. intros rc3 s3 (A3 & K3 & N3).
  pose proof (life_trans _ _ _ B2 (proj1 A3)) as B3. pose proof (life_live _ _ Hs B3) as L3.
  destruct (rc3 =? 0) eqn:E3; zb.
  - cbn [Z.eqb]. apply wp_after. eapply wp_mono; [exact (does_hand_offs F Hok s3 (proj1 L3))|]. cbv beta.
    intros rc4 s4 A4. apply wp_ret. cbn [Z.eqb]. destruct (hw_fw _ _ A4) as (A4' & P4 & _).
    split; [exact (life_trans _ _ _ B3 A4')|]. split; [rewrite P4; destruct A3 as (_ & -> & _); exact Ep|].
    rewrite (cmd_cookie _ _ (hw_cmd _ _ A4)). exact (K3 E3).
  - eapply wp_mono; [exact (venus_power_off F Hok s3 (proj1 L3))|]. cbv beta. intros rc4 s4 (A4 & _ & P4).
    split; [exact (life_trans _ _ _ B3 (cmd_life _ _ A4))|].
    split; [exact P4|]. intros Hc. rewrite (cmd_cookie _ _ A4). apply N3; [exact E3|congruence].
Qed.

(** The unload: nothing to do without a firmware; with one, it leaves no
    firmware, no power and no sub-state. *)
Lemma unload_fw_ok s : live s ->
  wp F __unload_fw s (fun _ s' => life_only s s' /\ vc_fw_cookie s' = 0 /\
    (in_valid_state s = false -> vc_set_to_fw s' = vc_set_to_fw s) /\
    (vc_fw_cookie s = 0 -> powered s' = powered s) /\ (vc_fw_cookie s <> 0 -> powered s' = false)).
Proof.
  intros Hs. unfold __unload_fw. apply wp_looking. destruct (vc_fw_cookie s =? 0) eqn:Ec; zb.
  { apply wp_ret. split; [apply (st_refl life_steps)|]. split; [done|]. split; [done|]. split; [done|congruence]. }
  assert (Hun : wp F (upd (set_pm_work false) ;! fw_unload) s (fun _ s' => fw_only s s' /\ vc_fw_cookie s' = 0)).
  { apply wp_after, wp_upd. unfold fw_unload. apply wp_looking. cbn [vc_fw_cookie set_pm_work].
    rewrite (proj2 (Z.eqb_neq _ 0) Ec). apply wp_bind.
    eapply wp_mono; [exact (fw_shutdown (set_pm_work false s) Hs)|]. cbv beta. intros rc s1 ((V & Q & Z) & P & T).
    apply wp_after, wp_upd, wp_ret. split; [|done]. now split. }
  assert (Hseq : forall k Q, wp F ((upd (set_pm_work false) ;! fw_unload) ;! k) s Q ->
    wp F (upd (set_pm_work false) ;! fw_unload ;! k) s Q) by done.
  apply Hseq, wp_after. eapply wp_mono; [exact Hun|]. cbv beta. intros _ s1 [A Ec1].
  pose proof (fw_live _ _ Hs A) as L1. apply wp_after.
  eapply wp_mono; [exact (venus_power_off F Hok s1 (proj1 L1))|]. cbv beta. intros _ s2 (A2 & _ & Ep2).
  pose proof (life_trans _ _ _ (proj1 A) (cmd_life _ _ A2)) as B2. pose proof (life_live _ _ Hs B2) as L2.
  eapply wp_mono; [exact (clear_all s2 (proj1 L2) Ep2)|]. cbv beta. intros _ s3 ((A3 & P3 & T3) & Ec3 & _).
  split; [exact (life_trans _ _ _ B2 A3)|]. split; [rewrite Ec3, (cmd_cookie _ _ A2); exact Ec1|].
  split; [|split; [congruence|intros _; congruence]].
  intros Hv. rewrite T3. destruct A2 as (_ & _ & _ & _ & T2). destruct A as ((V & _) & _ & T). rewrite T2, T; [done|].
  injection V as E1 _ _ _ _ _ _. unfold in_valid_state, core_in_valid_state in *. now rewrite E1.
Qed.
End Life.
