(* ===== verification/VidcCoreSpec.v ===== *)
(** The states of the video core: starting it, stopping it, and what it does
    after a failure. *)
From S2P Require Import Prelude VidcQueue VidcMem VidcHfi VidcHfiInv VidcPacket VidcBuffer.
From S2P Require Import VidcSession VidcCore VidcPower VidcPowerSpec VidcVenus.
From S2P Require Import VidcBufSpec VidcVenusSpec VidcVenusInv VidcLifeSpec.

Section Core.
Context `{VidcKernel} `{VidcConfig} `{VidcFirmware} `{VidcPlatform} (F : Prop).
Context (Hok : F \/ platform_ok) (Hdump : F \/ fw_dump = false).

Abbreviation cmd := (does F cmd_steps).

(** ** Caches *)

(** Relations of cores in a valid state. *)
Definition valid_steps : steps.
Proof.
  refine {| st_live := fun s => live s /\ in_valid_state s = true; st_rel := cmd_only;
            st_refl := st_refl cmd_steps; st_trans := cmd_only_trans; st_answers := st_answers cmd_steps |}.
  intros s s' [Hl Hv] Ho. split; [exact (live_kept _ _ Hl Ho)|].
  destruct (cmd_view_valid _ _ (proj1 Ho)) as (Ev & _). congruence.
Defined.
Lemma cmd_valid m : cmd m -> does F valid_steps m.
Proof. apply does_sub; [now intros s []|auto]. Qed.
Lemma valid_set_to_fw b : does F valid_steps (upd (set_set_to_fw b)).
Proof.
  apply does_upd. intros s [_ Hv]. split; [done|]. split; [done|]. split; [done|]. split; [now left|congruence].
Qed.

(** In any other state a command is refused. *)
Lemma resume_refused s : powered s = false -> in_valid_state s = false -> __resume s = Done (- EINVAL, s).
Proof.
  intros Hp Hv. unfold __resume. cbn [resume_fuel]. unfold resume_step, looking. rewrite Hp.
  unfold in_valid_state in Hv. now rewrite Hv.
Qed.
Lemma write_refused p s : locked_core s -> in_valid_state s = false ->
  exists s', __cmdq_write p s = Done (- EINVAL, s') /\ on_only s s'.
Proof.
  intros [Hl _] Hv. unfold __cmdq_write, cmdq_write, cmdq_write_with, and_then, bind_op.
  destruct (powered s) eqn:Hp.
  - change __resume with (resume_fuel 2). rewrite (resume_powered 1 s Hp). cbn [mbind exec_bind fst snd Z.eqb].
    unfold queue_op, venus_hfi_queue_cmd_write, __iface_cmdq_write_relaxed, __strict_check. rewrite Hl. cbn [negb Z.eqb].
    unfold in_valid_state in Hv. rewrite Hv. cbn. exists (set_hfi (vc_hfi s) s). split; [reflexivity|].
    replace (set_hfi (vc_hfi s) s) with s by now destruct s. apply on_only_refl.
  - rewrite (resume_refused s Hp Hv). cbn. exists s. split; [reflexivity|apply on_only_refl].
Qed.

Lemma cmd_release_subcaches : cmd __release_subcaches.
Proof.
  intros s Hs. unfold __release_subcaches, release_subcaches_with. destruct syscache_off; [apply wp_ret, (st_refl cmd_steps)|].
  apply wp_looking. destruct (vc_set_to_fw s); cbn [negb]; [|apply wp_ret, (st_refl cmd_steps)]. apply wp_looking.
  pose proof (subcache_builds HFI_BUF_HOST_FLAG_RELEASE (rev (vc_subcaches s))) as Hb.
  destruct (in_valid_state s) eqn:Hv.
  - assert (Hm : does F valid_steps ((build core_packet (subcache_message HFI_BUF_HOST_FLAG_RELEASE (rev (vc_subcaches s))) ;?
      __cmdq_write core_packet) ;? upd (set_set_to_fw false))).
    { pose proof (cmd_valid _ (cmd_command F Hok _ Hb)). pose proof (valid_set_to_fw false). does_auto. }
    assert (Hassoc : forall m1 m2 m3 s Q, wp F ((m1 ;? m2) ;? m3) s Q -> wp F (m1 ;? m2 ;? m3) s Q).
    { intros m1 m2 m3 s0 Q. unfold wp, and_then, bind_op. destruct (m1 s0) as [[r1 t1]| |]; [|done..].
      cbn. destruct (r1 =? 0) eqn:E; [done|]. cbn. now rewrite E. }
    apply Hassoc. exact (Hm s (conj Hs Hv)).
  - apply wp_and_then. eapply wp_mono; [exact (build_core F _ s Hs Hb)|]. cbv beta. intros rc s1 [(A & _) _].
    destruct (rc =? 0); [|exact A]. pose proof (live_kept _ _ Hs A) as L1.
    destruct (cmd_view_valid _ _ (proj1 A)) as (Ev & _).
    destruct (write_refused core_packet s1 (proj1 L1) ltac:(congruence)) as (s2 & E & A2 & _).
    apply wp_and_then. unfold wp. change (cmdq_write __resume core_packet) with (__cmdq_write core_packet).
    rewrite E. cbn. exact (cmd_only_trans _ _ _ A A2).
Qed.

Lemma valid_set_subcaches : does F valid_steps __set_subcaches.
Proof.
  unfold __set_subcaches, set_subcaches_with.
  pose proof (fun cs => cmd_valid _ (cmd_command F Hok _ (subcache_builds HFI_BUF_HOST_FLAG_NONE cs))) as Hc.
  unfold __cmdq_write in Hc. pose proof (cmd_valid _ (hw_does_cmd F _ (does_llcc F false))).
  pose proof (valid_set_to_fw true). does_auto.
Qed.
Lemma cmd_power_control b : cmd (__sys_set_power_control b).
Proof.
  unfold __sys_set_power_control, sys_set_power_control. apply does_looking. intros h.
  destruct h; cbn [negb]; [|apply does_ret]. apply does_looking. intros v. destruct v; cbn [negb]; [|apply does_ret].
  intros s Hs. apply wp_and_then. eapply wp_mono; [exact (build_core F _ s Hs (collapse_builds _))|]. cbv beta.
  intros rc s1 [(A & _) Hb]. destruct (rc =? 0); [|exact A]. pose proof (live_kept _ _ Hs A) as L1.
  apply wp_and_then. change (cmdq_write __resume core_packet) with (__cmdq_write core_packet).
  eapply wp_mono; [exact (cmd_core_write F Hok s1 L1 Hb)|].
  cbv beta. intros rc2 s2 A2. pose proof (cmd_only_trans _ _ _ A A2) as A'. destruct (rc2 =? 0); [|exact A'].
  assert (Hq : does F quiet_steps (msm_vidc_change_core_sub_state 0 CORE_SUBSTATE_FW_PWR_CTRL)).
  { apply quiet_change_sub; unfold CORE_SUBSTATE_FW_PWR_CTRL; (lia || reflexivity). }
  eapply wp_mono; [exact (Hq s2 (live_kept _ _ Hs A'))|]. intros rc3 s3 (A3 & _). exact (cmd_only_trans _ _ _ A' A3).
Qed.

(** ** Starting and stopping *)
Definition init_answers_ok : Prop :=
  non_secure_bank /\ forall n, answers_ok (init_answer n) /\ none_refused (init_answer n).

Lemma queue_init_ok s : init_answers_ok -> live s ->
  wp F queue_init s (fun _ s' => fw_only s s' /\ vc_fw_cookie s' = vc_fw_cookie s).
Proof.
  intros [Hcb Ha] (Hl & Hq & Hp). destruct (Ha (vc_answers s)) as [Ha1 Ha2].
  destruct (queue_init_live _ _ Hcb Ha1 Ha2 Hq) as (rc & c' & E & Hq' & Es & Ek).
  unfold queue_init, queue_op, wp. cbn [vc_hfi set_answers]. rewrite E. cbn [mbind exec_bind fst snd].
  split; [|done]. split; [|done]. split; [|done]. unfold life_view. cbn. now rewrite Es, Ek.
Qed.

(** The firmware is there when the power is. *)
Definition fw_with_power (s : vidc_core) : Prop := powered s = true -> vc_fw_cookie s <> 0.

(** A start of a core without power, in the state INIT_WAIT. *)
Lemma hfi_core_init_ok s : init_answers_ok -> live s -> in_valid_state s = true -> powered s = false ->
  wp F venus_hfi_core_init s (fun rc s' => life_only s s' /\ fw_with_power s' /\
    (rc = 0 -> vc_fw_cookie s' <> 0)).
Proof.
  intros Ha Hs Hv Hp. unfold venus_hfi_core_init.
  apply wp_and_then. unfold strict_check. apply wp_looking. unfold __strict_check.
  rewrite (proj1 (proj1 Hs)). apply wp_ret. cbn [Z.eqb].
  apply wp_and_then. eapply wp_mono; [exact (queue_init_ok s Ha Hs)|]. cbv beta. intros rc s1 [A Ec1].
  pose proof (fw_live _ _ Hs A) as L1. destruct A as (A & P1 & _). rewrite Hp in P1.
  destruct (rc =? 0) eqn:E1; zb; [|split; [exact A|]; split; [intros ?; congruence|congruence]].
  apply wp_and_then. eapply wp_mono; [exact (load_fw_ok F Hok s1 L1 P1)|]. cbv beta. intros rc2 s2 (A2 & K2).
  pose proof (life_trans _ _ _ A A2) as B2. destruct (rc2 =? 0) eqn:E2; zb.
  2:{ split; [exact B2|]. destruct K2 as [K2 _]. split; [intros ?; congruence|congruence]. }
  destruct K2 as [P2 K2]. pose proof (life_live _ _ Hs B2) as L2.
  assert (V2 : in_valid_state s2 = true).
  { destruct B2 as (V & _). injection V as E3 _ _ _ _ _ _. rewrite <- Hv. unfold in_valid_state, core_in_valid_state.
    now rewrite E3. }
  assert (Hrest : does F valid_steps (__boot_firmware_iris2 ;? llcc_enable true ;? __sys_init ;? __sys_image_version ;?
    __sys_set_debug fw_log_level ;? __set_subcaches ;?
    (undo gdsc_sw_ctrl (__sys_set_power_control true) ;! ret 0))).
  { pose proof (cmd_valid _ (hw_does_cmd F _ (does_boot F))). pose proof (cmd_valid _ (hw_does_cmd F _ (does_llcc F true))).
    pose proof (cmd_valid _ (cmd_sys_init F Hok)). pose proof (cmd_valid _ (cmd_image_version F Hok)).
    pose proof (cmd_valid _ (cmd_debug F Hok fw_log_level)). pose proof valid_set_subcaches.
    pose proof (cmd_valid _ (hw_does_cmd F _ (does_acquires F Hok))). pose proof (cmd_valid _ (cmd_power_control true)).
    unfold gdsc_sw_ctrl. does_auto. }
  eapply wp_mono; [exact (Hrest s2 (conj L2 V2))|]. cbv beta. intros rc3 s3 A3. pose proof (cmd_cookie _ _ A3) as Ec3.
  split; [exact (life_trans _ _ _ B2 (cmd_life _ _ A3))|]. split; [intros _; congruence|intros _; congruence].
Qed.

(** A stop: afterwards there is neither firmware nor power. *)
Lemma hfi_core_deinit_ok force s : live s -> core_state (vc_hfi s) <> MSM_VIDC_CORE_DEINIT ->
  fw_with_power s -> (in_valid_state s = true -> vc_fw_cookie s <> 0) ->
  wp F (venus_hfi_core_deinit force) s (fun rc s' => rc = 0 /\ life_only s s' /\ vc_fw_cookie s' = 0 /\
    powered s' = false /\ (in_valid_state s = false -> vc_set_to_fw s' = vc_set_to_fw s)).
Proof.
  intros Hs Hst Hfw Hvf. unfold venus_hfi_core_deinit.
  apply wp_and_then. unfold strict_check. apply wp_looking. unfold __strict_check.
  rewrite (proj1 (proj1 Hs)). apply wp_ret. cbn [Z.eqb]. apply wp_looking. unfold is_core_state.
  rewrite bool_decide_eq_false_2 by exact Hst.
  assert (Hcmd : cmd (__resume ;! __flush_debug_queue force ;! __release_subcaches ;! llcc_enable false)).
  { pose proof (cmd_resume F Hok). pose proof (cmd_flush F force). pose proof cmd_release_subcaches.
    pose proof (hw_does_cmd F _ (does_llcc F false)). does_auto. }
  assert (Hseq : forall m1 m2 m3 m4 k Q, wp F ((m1 ;! m2 ;! m3 ;! m4) ;! k) s Q -> wp F (m1 ;! m2 ;! m3 ;! m4 ;! k) s Q).
  { intros m1 m2 m3 m4 k Q. unfold wp, after, bind_op. destruct (m1 s) as [[r1 t1]| |]; [|done..].
    cbn. destruct (m2 t1) as [[r2 t2]| |]; [|done..]. cbn. destruct (m3 t2) as [[r3 t3]| |]; done. }
  apply Hseq, wp_after. eapply wp_mono; [exact (Hcmd s Hs)|]. cbv beta. intros _ s1 A.
  pose proof (live_kept _ _ Hs A) as L1. pose proof (cmd_cookie _ _ A) as Ec.
  apply wp_after. eapply wp_mono; [exact (unload_fw_ok F Hok s1 L1)|]. cbv beta. intros _ s2 (A2 & Ec2 & T2 & P2 & P2').
  pose proof (life_trans _ _ _ (cmd_life _ _ A) A2) as B2. destruct A as (V & _ & _ & P & T).
  assert (Hpow : powered s2 = false).
  { destruct (Z.eq_dec (vc_fw_cookie s1) 0) as [E0|E0]; [|exact (P2' E0)]. rewrite (P2 E0).
    destruct (powered s1); [|done]. destruct (P eq_refl) as [Hp|Hp]; [specialize (Hfw Hp)|specialize (Hvf Hp)]; congruence. }
  assert (Hset : in_valid_state s = false -> vc_set_to_fw s2 = vc_set_to_fw s).
  { intros Hv. rewrite T2; [now apply T|]. destruct (cmd_view_valid _ _ V) as (Ev & _). congruence. }
  apply wp_after. destruct fw_dump eqn:Ed; [|apply wp_ret, wp_ret; auto].
  destruct Hdump as [HF|Hd]; [|congruence].
  assert (Hfw' : forall k, wp F k s2 (fun rc s' => fw_only s2 s' /\ vc_fw_cookie s' = vc_fw_cookie s2) ->
    wp F k s2 (fun _ s' => wp F (ret 0) s' (fun rc s' => rc = 0 /\ life_only s s' /\ vc_fw_cookie s' = 0 /\
      powered s' = false /\ (in_valid_state s = false -> vc_set_to_fw s' = vc_set_to_fw s)))).
  { intros k Hk. eapply wp_mono; [exact Hk|]. cbv beta. intros rc s3 ((A3 & P3 & T3) & E3). apply wp_ret.
    split; [done|]. split; [exact (life_trans _ _ _ B2 A3)|]. split; [congruence|]. split; [congruence|].
    intros Hv. rewrite T3. auto. }
  apply Hfw'. unfold fw_coredump.
  repeat (apply wp_ask; intros ?; destruct (_ =? 0); cbn [negb]; try (apply wp_ret; split; [now split|done])).
  unfold wp. cbn [vc_hfi set_answers].
  destruct (align_virtual_addr (iface_q_table _)); cbn [deref mbind exec_bind]; [|exact HF].
  destruct (align_virtual_addr (sfr _)); cbn [deref mbind exec_bind]; [|exact HF]. split; [now split|done].
Qed.

(** ** Changes of the state *)
Definition handle_of (st : msm_vidc_core_state) : core_state_handle :=
  match st with
  | MSM_VIDC_CORE_DEINIT => msm_vidc_core_deinit_state
  | MSM_VIDC_CORE_INIT_WAIT => msm_vidc_core_init_wait_state
  | MSM_VIDC_CORE_INIT => msm_vidc_core_init_state
  | MSM_VIDC_CORE_ERROR => msm_vidc_core_error_state
  end.
Definition to_state (st : msm_vidc_core_state) (s : vidc_core) : vidc_core :=
  set_state_handle (Some (handle_of st)) (set_hfi (with_state st (vc_hfi s)) s).

Lemma update_state st : msm_vidc_update_core_state st = upd (to_state st).
Proof. now destruct st. Qed.

Lemma change_state st s (Q : Z -> vidc_core -> Prop) :
  locked_core s ->
  (let cur := core_state (vc_hfi s) in
   if bool_decide (cur = st) then Q 0 s
   else match msm_vidc_allow_core_state_change cur st with
        | MSM_VIDC_IGNORE => Q 0 s
        | MSM_VIDC_DISALLOW => Q (- EINVAL) s
        | _ => Q 0 (to_state st s)
        end) ->
  wp F (msm_vidc_change_core_state st) s Q.
Proof.
  intros [Hl _] HQ. unfold msm_vidc_change_core_state, strict_check. apply wp_and_then, wp_looking.
  unfold __strict_check. rewrite Hl. apply wp_ret. cbn [Z.eqb]. apply wp_looking. cbv zeta in HQ.
  destruct (bool_decide _); [exact (wp_ret F _ _ _ HQ)|]. rewrite update_state.
  destruct (msm_vidc_allow_core_state_change _ _); first [exact (wp_ret F _ _ _ HQ)|exact (wp_upd F _ _ _ HQ)].
Qed.

Lemma with_state_live st c : queues_live c -> queues_live (with_state st c).
Proof.
  intros [[]|([] & Ht & Hq)]; [left|right]; [split; auto|]. split; [split; auto|]. split; [exact Ht|exact Hq].
Qed.
Lemma to_state_live st s : live s -> live (to_state st s).
Proof.
  intros ([Hl _] & Hq & Hp). split; [split; [exact Hl|eexists; reflexivity]|].
  split; [exact (with_state_live st _ Hq)|exact Hp].
Qed.

(** ** After a failure *)

(** The core without firmware, power and sessions; the sessions it had are in
    their error states. *)
Record recovered (s s' : vidc_core) : Prop := {
  re_state : core_state (vc_hfi s') = MSM_VIDC_CORE_DEINIT;
  re_handle : vc_state_handle s' = Some msm_vidc_core_deinit_state;
  re_live : live s';
  re_power : powered s' = false;
  re_cookie : vc_fw_cookie s' = 0;
  re_instances : vc_instances s' = [];
  re_dangling : vc_dangling s' =
    vc_dangling s ++ map (fun i => snd (msm_vidc_change_state MSM_VIDC_ERROR i)) (vc_instances s);
  re_irq : irq_balance s' = irq_balance s;
  re_skip : vc_skip_pc s' = vc_skip_pc s }.

(** A stop of a core in INIT or ERROR, forced or without sessions. *)
Lemma deinit_locked_ok force s : force = true \/ vc_instances s = [] -> live s ->
  core_state (vc_hfi s) = MSM_VIDC_CORE_INIT \/ core_state (vc_hfi s) = MSM_VIDC_CORE_ERROR ->
  fw_with_power s -> (in_valid_state s = true -> vc_fw_cookie s <> 0) ->
  wp F (msm_vidc_core_deinit_locked force) s (fun rc s' => rc = 0 /\ recovered s s' /\
    (in_valid_state s = false -> vc_set_to_fw s' = vc_set_to_fw s)).
Proof.
  intros Hforce Hs Hst Hfw Hvf. unfold msm_vidc_core_deinit_locked.
  apply wp_and_then. unfold strict_check. apply wp_looking. unfold __strict_check.
  rewrite (proj1 (proj1 Hs)). apply wp_ret. cbn [Z.eqb]. apply wp_looking. unfold is_core_state.
  rewrite bool_decide_eq_false_2 by (destruct Hst; congruence). apply wp_looking.
  assert (Hgo : negb force && negb (bool_decide (vc_instances s = [])) = false).
  { destruct Hforce as [-> | ->]; [done|]. rewrite bool_decide_eq_true_2 by done. apply andb_false_r. }
  rewrite Hgo. apply wp_after. eapply wp_mono; [apply (hfi_core_deinit_ok force s Hs); auto; destruct Hst; congruence|].
  cbv beta. intros _ s1 (_ & A & Ec & Ep & T). pose proof (life_live _ _ Hs A) as L1.
  pose proof (proj1 A) as V. injection V as Es El Eh Ek Ei Ed Eb.
  apply wp_after, wp_upd, wp_after. set (s2 := set_dangling _ _).
  assert (L2 : live s2) by exact L1.
  assert (Ha : core_state (vc_hfi s2) <> MSM_VIDC_CORE_DEINIT /\
    msm_vidc_allow_core_state_change (core_state (vc_hfi s2)) MSM_VIDC_CORE_DEINIT = MSM_VIDC_ALLOW).
  { change (vc_hfi s2) with (vc_hfi s1). rewrite Es. now destruct Hst as [-> | ->]. }
  apply change_state; [exact (proj1 L2)|]. cbv zeta. rewrite bool_decide_eq_false_2, (proj2 Ha) by apply Ha.
  apply wp_ret. split; [done|]. split; [|exact T].
  split; try reflexivity; try assumption.
  - exact (to_state_live _ _ L2).
  - cbn. now rewrite Ei, Ed.
Qed.

(** What a recovery tells of the core before. *)
Definition recovery_view (s : vidc_core) :=
  (vc_instances s, vc_dangling s, irq_balance s, vc_skip_pc s, vc_set_to_fw s).
Lemma recovered_from s s1 s' :
  recovery_view s1 = recovery_view s -> recovered s1 s' -> recovered s s'.
Proof. intros E []. injection E as E1 E2 E3 E4 _. split; congruence. Qed.

(** Any failure of a core that is not deinitialised; [sub] is a sub-state
    other than POWER_ENABLE, or none. *)
Lemma fail_core_ok sub s : live s -> core_state (vc_hfi s) <> MSM_VIDC_CORE_DEINIT ->
  0 <= sub <= 128 -> Z.testbit sub 0 = false -> fw_with_power s ->
  wp F (fail_core sub) s (fun rc s' => rc = 0 /\ recovered s s' /\ vc_set_to_fw s' = vc_set_to_fw s).
Proof.
  intros Hs Hst Hsub Hbit Hfw. unfold fail_core. apply wp_after, change_state; [exact (proj1 Hs)|]. cbv zeta.
  assert (Herr : forall s1, live s1 -> core_state (vc_hfi s1) = MSM_VIDC_CORE_ERROR -> fw_with_power s1 ->
    recovery_view s1 = recovery_view s ->
    wp F ((if sub =? 0 then ret 0 else msm_vidc_change_core_sub_state 0 sub) ;! msm_vidc_core_deinit_locked true) s1
      (fun rc s' => rc = 0 /\ recovered s s' /\ vc_set_to_fw s' = vc_set_to_fw s)).
  { intros s1 L1 E1 W1 R1. apply wp_after.
    assert (Hq : does F quiet_steps (if sub =? 0 then ret 0 else msm_vidc_change_core_sub_state 0 sub)).
    { destruct (sub =? 0) eqn:E0; zb; [apply does_ret|]. apply quiet_change_sub; auto; lia. }
    eapply wp_mono; [exact (Hq s1 L1)|]. cbv beta. intros _ s2 ((V & Q & Z & P & T) & P2 & _).
    pose proof (live_kept _ _ L1 (conj V (conj Q (conj Z (conj P T))))) as L2.
    assert (V1 : in_valid_state s1 = false) by (unfold in_valid_state, core_in_valid_state; now rewrite E1).
    destruct (cmd_view_valid _ _ V) as (Ev & _ & _). specialize (T V1).
    injection V as Es _ _ _ _ _ _ Ek Ec _ _ Ei Ed Eb.
    assert (R2 : recovery_view s2 = recovery_view s) by (rewrite <- R1; unfold recovery_view; congruence).
    eapply wp_mono; [apply (deinit_locked_ok true s2 (or_introl eq_refl) L2); [right; congruence| |intros; congruence]|].
    - intros Hp. rewrite Ec. apply W1. congruence.
    - cbv beta. intros rc s' (-> & R & T'). split; [done|]. split; [exact (recovered_from _ _ _ R2 R)|].
      rewrite T' by congruence. now injection R2. }
  destruct (bool_decide _) eqn:Ecur.
  - apply bool_decide_eq_true in Ecur. now apply Herr.
  - assert (Ha : msm_vidc_allow_core_state_change (core_state (vc_hfi s)) MSM_VIDC_CORE_ERROR = MSM_VIDC_ALLOW).
    { apply bool_decide_eq_false in Ecur. now destruct (core_state (vc_hfi s)). }
    rewrite Ha. apply Herr; [exact (to_state_live _ _ Hs)|reflexivity|exact Hfw|reflexivity].
Qed.
End Core.
