(* ===== verification/VidcCoreInv.v ===== *)
(** What holds of the video core whenever its lock is free, and that every
    call on it keeps this. *)
From S2P Require Import Prelude VidcQueue VidcMem VidcHfi VidcHfiInv VidcPacket VidcBuffer.
From S2P Require Import VidcSession VidcCore VidcPower VidcPowerSpec VidcVenus.
From S2P Require Import VidcResponse VidcBufSpec VidcSessionInv VidcVenusSpec VidcVenusInv VidcLifeSpec.
From S2P Require Import VidcCoreSpec.

(** ** The invariant *)
Section Invariant.
Context `{VidcPlatform} (X : option Z) (K : list Z).

(** [b] says whether the lock is held.  Between calls the core is never in
    its error state; it has a firmware exactly in INIT and INIT_WAIT, power
    only with a firmware, and sessions only in these states; the interrupt
    line is disabled exactly while the power is off, or the watchdog has
    barked; its sessions are in order, of which [X] is locked and those of [K]
    have not been freed. *)
Record core_inv (b : bool) (s : vidc_core) : Prop := {
  i_lock : core_locked (vc_hfi s) = b;
  i_handle : vc_state_handle s = Some (handle_of (core_state (vc_hfi s)));
  i_queues : queues_live (vc_hfi s);
  i_packet : sized (vc_packet s);
  i_state : core_state (vc_hfi s) <> MSM_VIDC_CORE_ERROR;
  i_deinit : core_state (vc_hfi s) = MSM_VIDC_CORE_DEINIT ->
             powered s = false /\ vc_fw_cookie s = 0 /\ vc_instances s = [];
  i_fw : core_state (vc_hfi s) <> MSM_VIDC_CORE_DEINIT -> vc_fw_cookie s <> 0;
  i_irq : irq_balance s = 0;
  i_skip : 0 <= vc_skip_pc s <= VIDC_MAX_PC_SKIP_COUNT;
  i_sessions : sessions_ok X K (vc_instances s) (vc_dangling s) }.

Lemma inv_live s : core_inv true s -> live s.
Proof. intros []. split; [split; [done|]|auto]. rewrite i_handle0. eauto. Qed.

Lemma inv_power s : core_inv true s -> fw_with_power s.
Proof.
  intros I Hp. apply (i_fw true s I). intros Hd. destruct (i_deinit true s I Hd). congruence.
Qed.
Lemma inv_valid b s : core_inv b s -> in_valid_state s = true -> vc_fw_cookie s <> 0.
Proof. intros I Hv. apply (i_fw b s I). intros Hd. unfold in_valid_state, core_in_valid_state in Hv. now rewrite Hd in Hv. Qed.

(** What the relation of the commands keeps. *)
Lemma cmd_inv s s' : core_inv true s -> cmd_only s s' -> core_inv true s'.
Proof.
  intros [] (V & Q & Z & P & _). injection V as E1 E2 _ _ _ _ E3 E4 E5 _ _ E6 E8 E7.
  split; try congruence; auto.
  - intros Hd. rewrite E1 in Hd. destruct (i_deinit0 Hd) as (Hp & Hc & Hi).
    split; [|split; congruence]. destruct (powered s'); [|done]. destruct (P eq_refl) as [P'|P']; [congruence|].
    unfold in_valid_state, core_in_valid_state in P'. now rewrite Hd in P'.
  - rewrite E1, E5. exact i_fw0.
Qed.

(** The core after a recovery. *)
Lemma recovered_inv s s' : sessions_ok X K (vc_instances s) (vc_dangling s) -> irq_balance s = 0 -> 0 <= vc_skip_pc s <= VIDC_MAX_PC_SKIP_COUNT ->
  recovered s s' -> core_inv true s'.
Proof.
  intros Ho Hi Hs []. destruct re_live as ([Hl _] & Hq & Hp). split; auto; try congruence.
  - now rewrite re_handle, re_state.
  - rewrite re_instances, re_dangling. exact (sessions_unlinked X K _ _ Ho).
Qed.

Definition lock_core (b : bool) (s : vidc_core) : vidc_core := set_hfi (with_locked b (vc_hfi s)) s.
Lemma lock_inv b b' s : core_inv b s -> core_inv b' (lock_core b' s).
Proof.
  intros []. split; auto. destruct i_queues0 as [[]|([] & Ht & Hq)]; [left|right]; [split; auto|].
  split; [split; auto|]. split; [exact Ht|exact Hq].
Qed.
End Invariant.
#[global] Arguments i_lock {_ X K} b s _.
#[global] Arguments i_handle {_ X K} b s _.
#[global] Arguments i_queues {_ X K} b s _.
#[global] Arguments i_packet {_ X K} b s _.
#[global] Arguments i_state {_ X K} b s _.
#[global] Arguments i_deinit {_ X K} b s _.
#[global] Arguments i_fw {_ X K} b s _.
#[global] Arguments i_irq {_ X K} b s _.
#[global] Arguments i_skip {_ X K} b s _.
#[global] Arguments i_sessions {_ X K} b s _.
#[global] Arguments inv_live {_ X K} s _.
#[global] Arguments inv_power {_ X K} s _.
#[global] Arguments inv_valid {_ X K} b s _.
#[global] Arguments cmd_inv {_ X K} s s' _ _.
#[global] Arguments recovered_inv {_ X K} s s' _ _ _ _.
#[global] Arguments lock_inv {_ X K} b b' s _.

(** ** Calls *)

(** What happens to the core while its lock is free.  A call that waits lets
    other calls run meanwhile: one per round of its wait.  The interrupt
    handlers are not among the calls: the packets they find are handled one by
    one ([CallSystemInit], [CallSystemError]).  The last two are not calls of
    the driver: the firmware takes packets from the queues and puts packets into
    them, and the sessions change their own states. *)
Inductive core_call `{VidcPlatform} : Type :=
| CallNothing
| CallSequence (c1 c2 : core_call)
| CallInit
| CallInitWait (meanwhile : nat -> core_call)
| CallDeinit (force : bool)
| CallTimeout (id : Z)
| CallAddSession (i : msm_vidc_inst) (Hi : inst_ok i /\ inst_locked i = false)
| CallRemoveSession (i : msm_vidc_inst)
| CallPmSuspend
| CallPmResume
| CallPmWork
| CallScaleClocks (freq : Z)
| CallScaleBuses (ddr llcc : Z)
| CallSystemInit (pkt : hfi_packet)
| CallSystemError (pkt : option Z)
| CallFirmware (f : msm_vidc_core -> msm_vidc_core)
    (Hf : forall c, queues_live c -> queues_live (f c) /\ queue_view (f c) = queue_view c)
| CallSession (id : Z) (f : msm_vidc_inst -> msm_vidc_inst) (Hf : inst_keeps f).

(** Running a call, with [stop] for the stop of the core. *)
Fixpoint run_calls `{VidcKernel} `{VidcConfig} `{VidcFirmware} `{VidcPlatform}
    (stop : bool -> op) (c : core_call) : op :=
  match c with
  | CallNothing => ret 0
  | CallSequence c1 c2 => run_calls stop c1 ;! run_calls stop c2
  | CallInit => msm_vidc_core_init
  | CallInitWait meanwhile => msm_vidc_core_init_wait (fun n => run_calls stop (meanwhile n))
  | CallDeinit force => stop force
  | CallTimeout id => msm_vidc_inst_timeout id
  | CallAddSession i _ => msm_vidc_add_session i
  | CallRemoveSession i => msm_vidc_remove_session i
  | CallPmSuspend => msm_vidc_pm_suspend
  | CallPmResume => msm_vidc_pm_resume
  | CallPmWork => venus_hfi_pm_work_handler
  | CallScaleClocks freq => venus_hfi_scale_clocks freq
  | CallScaleBuses ddr llcc => venus_hfi_scale_buses ddr llcc
  | CallSystemInit pkt => handle_system_init pkt
  | CallSystemError pkt => handle_system_error pkt
  | CallFirmware f _ => upd (fun s => set_hfi (f (vc_hfi s)) s)
  | CallSession id f _ => upd_session id f
  end.
Definition run_call `{VidcKernel} `{VidcConfig} `{VidcFirmware} `{VidcPlatform} : core_call -> op :=
  run_calls msm_vidc_core_deinit.

(** A stop of the core that does [t] instead while the answer to a start is
    awaited; and the calls that never stop the core then, on any way they
    take from [s]: whatever a stop would do then, they do the same.
    (msm_vidc_core_deinit would leave the core in INIT_WAIT without its
    firmware: vidc_deinit_while_waiting.) *)
Definition stop_but `{VidcKernel} `{VidcConfig} `{VidcFirmware} `{VidcPlatform} (t : bool -> op) (force : bool) : op :=
  looking (is_core_state MSM_VIDC_CORE_INIT_WAIT) (fun waiting =>
  if waiting then t force else msm_vidc_core_deinit force).
Definition never_stops_waiting `{VidcKernel} `{VidcConfig} `{VidcFirmware} `{VidcPlatform}
    (c : core_call) (s : vidc_core) : Prop :=
  forall t, run_calls (stop_but t) c s = run_call c s.

(** Calls without a stop of the core. *)
Fixpoint no_stop `{VidcPlatform} (c : core_call) : Prop :=
  match c with
  | CallSequence c1 c2 => no_stop c1 /\ no_stop c2
  | CallInitWait meanwhile => forall n, no_stop (meanwhile n)
  | CallDeinit _ => False
  | _ => True
  end.

Section Legal.
Context `{VidcKernel} `{VidcConfig} `{VidcFirmware} `{VidcPlatform}.

Lemma after_ext m m' k k' : (forall s, m s = m' s) -> (forall s, k s = k' s) ->
  forall s, (m ;! k) s = (m' ;! k') s.
Proof. intros Hm Hk s. unfold after, bind_op. rewrite Hm. now destruct (m' s) as [[rc s']| |]; cbn. Qed.
Lemma wait_ext r r' : (forall n s, r n s = r' n s) ->
  forall s, msm_vidc_core_init_wait r s = msm_vidc_core_init_wait r' s.
Proof.
  intros Hr. assert (Hl : forall n s, init_wait_loop r n s = init_wait_loop r' n s).
  { induction n as [|n IH]; intros s; cbn [init_wait_loop]; [done|]. unfold looking.
    destruct (negb _); [done|]. apply after_ext; [done|]. apply after_ext; [apply Hr|]. now apply after_ext. }
  apply after_ext; [done|]. unfold bind_op, looking. intros s. destruct (core_state (vc_hfi s)); try done.
  rewrite (after_ext _ _ _ _ (Hl _) (fun s => eq_refl) s). done.
Qed.
Lemma without_stop c : no_stop c -> forall s, never_stops_waiting c s.
Proof.
  intros Hc s t. revert s. unfold run_call.
  induction c as [|c1 IH1 c2 IH2| |f IH|force| | | | | | | | | | | | ]; try done; cbn [run_calls no_stop] in *.
  - destruct Hc. apply after_ext; auto.
  - apply wait_ext. intros n. apply IH, Hc.
Qed.
Lemma stop_allowed force s : core_state (vc_hfi s) <> MSM_VIDC_CORE_INIT_WAIT ->
  never_stops_waiting (CallDeinit force) s.
Proof.
  intros Hs t. unfold run_call. cbn [run_calls]. unfold stop_but, looking, is_core_state.
  now rewrite bool_decide_eq_false_2.
Qed.
End Legal.

Arguments CallFirmware {_} f Hf.
Section Calls.
Context (X : option Z) (K : list Z).
#[local] Abbreviation core_inv := (core_inv X K).
Context `{VidcKernel} `{VidcConfig} `{VidcFirmware} `{VidcPlatform} (F : Prop).
Context (Hok : F \/ platform_ok) (Hdump : F \/ fw_dump = false) (Hbug : F \/ forall ty, bug_on ty = false).
Context (Hinit : init_answers_ok).

(** [m] keeps the invariant under the lock. *)
Definition keeps (m : op) : Prop := forall s, core_inv true s -> wp F m s (fun _ => core_inv true).

Lemma keeps_cmd m : does F cmd_steps m -> keeps m.
Proof. intros Hm s I. eapply wp_mono; [exact (Hm s (inv_live s I))|]. intros rc s'. exact (cmd_inv s s' I). Qed.
Lemma keeps_ret rc : keeps (ret rc).
Proof. intros s I. exact (wp_ret F _ _ _ I). Qed.
Lemma keeps_bind m k : keeps m -> (forall rc, keeps (k rc)) -> keeps (bind_op m k).
Proof. intros Hm Hk s I. apply wp_bind. eapply wp_mono; [exact (Hm s I)|]. intros rc s'. apply Hk. Qed.
Lemma keeps_after m k : keeps m -> keeps k -> keeps (m ;! k).
Proof. intros Hm Hk. now apply keeps_bind. Qed.
Lemma keeps_then m k : keeps m -> keeps k -> keeps (m ;? k).
Proof. intros Hm Hk. apply keeps_bind; [done|]. intros rc. destruct (rc =? 0); [done|apply keeps_ret]. Qed.
Lemma keeps_looking {A} (f : vidc_core -> A) k : (forall a, keeps (k a)) -> keeps (looking f k).
Proof. intros Hk s I. apply wp_looking, Hk, I. Qed.

(** A call that takes the lock. *)
Definition call_ok (m : op) : Prop := forall s, core_inv false s -> wp F m s (fun _ => core_inv false).
Lemma locked_ok m s : core_inv false s ->
  wp F m (lock_core true s) (fun _ => core_inv true) -> wp F (locked m) s (fun _ => core_inv false).
Proof.
  intros I Hm. unfold locked. apply wp_after. unfold wp at 1. unfold core_lock.
  rewrite (i_lock false s I). change (set_hfi (with_locked true (vc_hfi s)) s) with (lock_core true s).
  apply wp_bind. eapply wp_mono; [exact Hm|]. cbv beta. intros rc s' I'. apply wp_after, wp_upd, wp_ret.
  exact (lock_inv true false s' I').
Qed.
Lemma call_locked m : keeps m -> call_ok (locked m).
Proof. intros Hm s I. apply (locked_ok m s I), Hm, (lock_inv false true s I). Qed.

(** ** What follows a failure *)
Lemma fail_deinit sub s : live s -> core_state (vc_hfi s) = MSM_VIDC_CORE_DEINIT ->
  0 <= sub <= 128 -> Z.testbit sub 0 = false -> wp F (fail_core sub) s (fun _ => cmd_only s).
Proof.
  intros Hs Hd Hsub Hbit. unfold fail_core. apply wp_after, change_state; [exact (proj1 Hs)|]. cbv zeta.
  rewrite Hd. rewrite bool_decide_eq_false_2 by discriminate. cbn.
  assert (Hq : does F quiet_steps (if sub =? 0 then ret 0 else msm_vidc_change_core_sub_state 0 sub)).
  { destruct (sub =? 0) eqn:E0; zb; [apply does_ret|]. apply quiet_change_sub; auto; lia. }
  apply wp_after. eapply wp_mono; [exact (Hq s Hs)|]. cbv beta. intros _ s1 (A & _).
  pose proof (live_kept _ _ Hs A) as L1. unfold msm_vidc_core_deinit_locked.
  apply wp_and_then. unfold strict_check. apply wp_looking. unfold __strict_check.
  rewrite (proj1 (proj1 L1)). apply wp_ret. cbn [Z.eqb]. apply wp_looking. unfold is_core_state.
  assert (E : core_state (vc_hfi s1) = MSM_VIDC_CORE_DEINIT).
  { destruct A as (V & _). injection V as E _ _ _ _ _ _ _ _ _ _ _ _ _. congruence. }
  rewrite bool_decide_eq_true_2 by exact E. apply wp_ret. exact A.
Qed.
Lemma keeps_fail sub : 0 <= sub <= 128 -> Z.testbit sub 0 = false -> keeps (fail_core sub).
Proof.
  intros Hsub Hbit s I. pose proof (inv_live s I) as Hs.
  destruct (decide (core_state (vc_hfi s) = MSM_VIDC_CORE_DEINIT)) as [Hd|Hd].
  - eapply wp_mono; [exact (fail_deinit sub s Hs Hd Hsub Hbit)|]. intros rc s'. exact (cmd_inv s s' I).
  - eapply wp_mono; [exact (fail_core_ok F Hok Hdump sub s Hs Hd Hsub Hbit (inv_power s I))|]. cbv beta.
    intros rc s' (_ & R & _). exact (recovered_inv s s' (i_sessions _ _ I) (i_irq _ _ I) (i_skip _ _ I) R).
Qed.
Lemma keeps_unresponsive : keeps (fail_core CORE_SUBSTATE_VIDEO_UNRESPONSIVE).
Proof. apply keeps_fail; [unfold CORE_SUBSTATE_VIDEO_UNRESPONSIVE; lia|reflexivity]. Qed.

(** ** The calls one by one *)
Lemma call_init : call_ok msm_vidc_core_init.
Proof.
  intros s0 I0. apply (locked_ok _ s0 I0). pose proof (lock_inv false true s0 I0) as I.
  revert I. generalize (lock_core true s0). clear s0 I0. intros s I. pose proof (inv_live s I) as Hs.
  apply wp_looking. destruct (core_in_valid_state (vc_hfi s)) eqn:Hv; [now apply wp_ret|].
  apply wp_looking. unfold is_core_state. rewrite bool_decide_eq_false_2 by exact (i_state _ _ I).
  assert (Hd : core_state (vc_hfi s) = MSM_VIDC_CORE_DEINIT).
  { pose proof (i_state _ _ I). unfold core_in_valid_state in Hv. now destruct (core_state (vc_hfi s)). }
  destruct (i_deinit _ _ I Hd) as (Hp & Hc & Hi).
  apply wp_after, change_state; [exact (proj1 Hs)|]. cbv zeta. rewrite Hd, bool_decide_eq_false_2 by discriminate.
  cbn. set (s1 := to_state MSM_VIDC_CORE_INIT_WAIT s). pose proof (to_state_live MSM_VIDC_CORE_INIT_WAIT s Hs) as L1.
  fold s1 in L1.
  assert (Hq : does F quiet_steps (msm_vidc_change_core_sub_state CORE_SUBSTATE_PM_SUSPEND 0 ;!
    msm_vidc_change_core_sub_state CORE_SUBSTATE_PAGE_FAULT 0)).
  { apply does_after; apply quiet_change_sub; unfold CORE_SUBSTATE_PM_SUSPEND, CORE_SUBSTATE_PAGE_FAULT;
      (lia || reflexivity). }
  assert (Hseq : forall m1 m2 k s Q, wp F ((m1 ;! m2) ;! k) s Q -> wp F (m1 ;! m2 ;! k) s Q).
  { intros m1 m2 k t Q. unfold wp, after, bind_op. now destruct (m1 t) as [[r1 t1]| |]. }
  apply Hseq, wp_after. eapply wp_mono; [exact (Hq s1 L1)|]. cbv beta. intros _ s2 (A2 & P2 & _).
  pose proof (live_kept _ _ L1 A2) as L2. pose proof (cmd_life _ _ A2) as B2.
  destruct (cmd_view_valid _ _ (proj1 A2)) as (V2 & _ & _).
  apply wp_undo. eapply wp_mono; [apply (hfi_core_init_ok F Hok s2 Hinit L2); [exact V2|rewrite P2; exact Hp]|].
  cbv beta. intros rc s3 (A3 & W3 & K3). pose proof (life_trans _ _ _ B2 A3) as B. pose proof (life_live _ _ L1 B) as L3.
  destruct B as (V & Q & Z). injection V as E1 E2 E3 E4 E5 E6 E7.
  assert (Hirq : irq_balance s3 = 0) by (rewrite E7; exact (i_irq _ _ I)).
  assert (Hskip : 0 <= vc_skip_pc s3 <= VIDC_MAX_PC_SKIP_COUNT) by (rewrite E4; exact (i_skip _ _ I)).
  assert (Hses : sessions_ok X K (vc_instances s3) (vc_dangling s3)) by (rewrite E5, E6; exact (i_sessions _ _ I)).
  destruct (rc =? 0) eqn:E; zb.
  - destruct L3 as ([Ll _] & Lq & Lp). split; auto; try (rewrite E1; discriminate).
    rewrite E3, E1. reflexivity.
  - eapply wp_mono; [apply (fail_core_ok F Hok Hdump 0 s3 L3); [rewrite E1; discriminate|lia|reflexivity|exact W3]|].
    cbv beta. intros rc' s4 (_ & R & _). exact (recovered_inv s3 s4 Hses Hirq Hskip R).
Qed.

Lemma call_wait round : (forall n, call_ok (round n)) -> call_ok (msm_vidc_core_init_wait round).
Proof.
  intros Hr. apply call_locked. apply keeps_looking. intros st. destruct st; try apply keeps_ret.
  apply keeps_after.
  - generalize (Z.to_nat (hw_response_timeout / interval)). intros n. induction n as [|n IH]; [apply keeps_ret|].
    cbn [init_wait_loop]. apply keeps_looking. intros w. destruct w; cbn [negb]; [|apply keeps_ret].
    intros s I. apply wp_after, wp_upd, wp_after. change (set_hfi _ s) with (lock_core false s).
    eapply wp_mono; [exact (Hr n _ (lock_inv true false s I))|]. cbv beta. intros _ s1 I1.
    apply wp_after. unfold wp at 1, core_lock. rewrite (i_lock false s1 I1).
    exact (IH _ (lock_inv false true s1 I1)).
  - apply keeps_looking. intros st. destruct st; try apply keeps_ret.
    apply keeps_after; [exact keeps_unresponsive|apply keeps_ret].
Qed.

Lemma recovered_self s : live s -> core_inv true s -> core_state (vc_hfi s) <> MSM_VIDC_CORE_INIT_WAIT ->
  forall force, wp F (msm_vidc_core_deinit_locked force) s (fun _ => core_inv true).
Proof.
  intros Hs I Hw force.
  destruct (decide (core_state (vc_hfi s) = MSM_VIDC_CORE_INIT)) as [Hst|Hst];
    [destruct force eqn:Ef; [|destruct (decide (vc_instances s = [])) as [He|He]]|].
  1, 2: eapply wp_mono; [apply (deinit_locked_ok F Hok Hdump _ s); auto; [exact (inv_power s I)|exact (inv_valid true s I)]|];
    cbv beta; intros rc s' (_ & R & _); exact (recovered_inv s s' (i_sessions _ _ I) (i_irq _ _ I) (i_skip _ _ I) R).
  all: unfold msm_vidc_core_deinit_locked; apply wp_and_then; unfold strict_check; apply wp_looking;
    unfold __strict_check; rewrite (proj1 (proj1 Hs)); apply wp_ret; cbn [Z.eqb]; apply wp_looking; unfold is_core_state.
  - rewrite bool_decide_eq_false_2 by congruence. apply wp_looking.
    rewrite (bool_decide_eq_false_2 _ He). now apply wp_ret.
  - pose proof (i_state _ _ I). rewrite bool_decide_eq_true_2 by (destruct (core_state (vc_hfi s)); congruence).
    now apply wp_ret.
Qed.
Lemma call_deinit force : call_ok (stop_but (fun _ => ret 0) force).
Proof.
  intros s I. apply wp_looking. unfold is_core_state.
  destruct (bool_decide _) eqn:Hw; [now apply wp_ret|]. apply bool_decide_eq_false in Hw.
  apply (locked_ok _ s I). pose proof (lock_inv false true s I) as I'.
  exact (recovered_self _ (inv_live _ I') I' Hw force).
Qed.

(** A stop of a core that still waits for the answer to its start. *)
Lemma waiting_stopped s : core_inv false s -> core_state (vc_hfi s) = MSM_VIDC_CORE_INIT_WAIT ->
  wp F (msm_vidc_core_deinit true) s (fun rc s' => rc = 0 /\
    core_state (vc_hfi s') = MSM_VIDC_CORE_INIT_WAIT /\ vc_fw_cookie s' = 0 /\ powered s' = false).
Proof.
  intros I Hst. unfold msm_vidc_core_deinit, locked. apply wp_after. unfold wp at 1, core_lock. rewrite (i_lock false s I).
  change (set_hfi (with_locked true (vc_hfi s)) s) with (lock_core true s). pose proof (lock_inv false true s I) as I'.
  change (core_state (vc_hfi (lock_core true s)) = MSM_VIDC_CORE_INIT_WAIT) in Hst. revert I' Hst.
  generalize (lock_core true s). clear s I. intros s I Hst. pose proof (inv_live s I) as Hs.
  apply wp_bind. unfold msm_vidc_core_deinit_locked. apply wp_and_then. unfold strict_check. apply wp_looking.
  unfold __strict_check. rewrite (proj1 (proj1 Hs)). apply wp_ret. cbn [Z.eqb]. apply wp_looking. unfold is_core_state.
  rewrite bool_decide_eq_false_2 by congruence. apply wp_looking. cbn [negb andb]. apply wp_after.
  eapply wp_mono; [apply (hfi_core_deinit_ok F Hok Hdump true s Hs); [congruence|exact (inv_power s I)|exact (inv_valid true s I)]|].
  cbv beta. intros _ s1 (_ & A & Ec & Ep & _). pose proof (life_live _ _ Hs A) as L1.
  pose proof (proj1 A) as V. injection V as Es El Eh Ek Ei Ed Eb.
  apply wp_after, wp_upd, wp_after. apply change_state; [exact (proj1 L1)|]. cbv zeta. cbn [vc_hfi set_dangling set_instances].
  rewrite Es, Hst. rewrite bool_decide_eq_false_2 by discriminate. cbn.
  split; [done|]. split; [congruence|]. now split.
Qed.

(** Changes of the parts of the core the invariant does not mention, or of
    its sessions. *)
Lemma keeps_upd f : (forall s, core_inv true s -> core_inv true (f s)) -> keeps (upd f).
Proof. intros Hf s I. now apply wp_upd, Hf. Qed.
Lemma sessions_inv b s l d : core_inv b s -> sessions_ok X K l d ->
  (core_state (vc_hfi s) = MSM_VIDC_CORE_DEINIT -> l = []) -> core_inv b (set_dangling d (set_instances l s)).
Proof.
  intros [] Ho Hl. split; auto. intros Hd. destruct (i_deinit0 Hd) as (Hp & Hc & _). split; [exact Hp|]. auto.
Qed.
Lemma skip_inv n s : core_inv true s -> 0 <= n <= VIDC_MAX_PC_SKIP_COUNT -> core_inv true (set_skip_pc n s).
Proof. intros [] Hn. now split. Qed.
Lemma work_inv b w s : core_inv b s -> core_inv b (set_pm_work w s).
Proof. intros []. now split. Qed.

Lemma call_timeout id : call_ok (msm_vidc_inst_timeout id).
Proof.
  apply call_locked, keeps_looking. intros i. destruct i; [|apply keeps_ret].
  apply keeps_after; [exact keeps_unresponsive|apply keeps_ret].
Qed.
Lemma call_add i : inst_ok i -> inst_locked i = bool_decide (X = Some (inst_id i)) -> call_ok (msm_vidc_add_session i).
Proof.
  intros Hi Hl. apply call_locked. intros s I. apply wp_looking. destruct (bool_decide (core_state _ = _)) eqn:E;
    [|now apply wp_ret]. apply bool_decide_eq_true in E. apply wp_looking. destruct (_ <? _); [|now apply wp_ret].
  apply wp_upd. apply (sessions_inv true s _ (vc_dangling s) I); [|congruence].
  exact (sessions_added X K _ _ i Hi Hl (i_sessions _ _ I)).
Qed.
Lemma call_remove i : call_ok (msm_vidc_remove_session i).
Proof.
  apply call_locked, keeps_upd. intros s I.
  apply (sessions_inv true s _ _ I (sessions_removed X K _ _ _ (i_sessions _ _ I))).
  intros Hd. now rewrite (proj2 (proj2 (i_deinit _ _ I Hd))).
Qed.

Lemma keeps_sub clear set : clear <> set -> 0 <= clear <= 128 -> 0 <= set <= 128 ->
  Z.testbit clear 0 = false -> Z.testbit set 0 = false -> keeps (msm_vidc_change_core_sub_state clear set).
Proof. intros. apply keeps_cmd, quiet_cmd, quiet_change_sub; auto. Qed.
Lemma keeps_suspended : keeps (msm_vidc_change_core_sub_state 0 CORE_SUBSTATE_PM_SUSPEND).
Proof. apply keeps_sub; unfold CORE_SUBSTATE_PM_SUSPEND; (lia || reflexivity). Qed.
Lemma call_pm_suspend : call_ok msm_vidc_pm_suspend.
Proof.
  apply call_locked, keeps_looking. intros a. pose proof keeps_suspended as Hk.
  destruct a; try apply keeps_ret; [|apply keeps_after; [exact Hk|apply keeps_ret]].
  apply keeps_bind; [exact (keeps_cmd _ (cmd_hfi_suspend F Hok))|]. intros rc.
  destruct (rc =? - ENOTSUPP); [apply keeps_ret|]. destruct (rc =? 0); cbn [negb]; [|apply keeps_ret].
  apply keeps_after; [exact Hk|apply keeps_ret].
Qed.
Lemma call_pm_resume : call_ok msm_vidc_pm_resume.
Proof.
  apply call_locked, keeps_after; [|apply keeps_ret].
  apply keeps_sub; unfold CORE_SUBSTATE_PM_SUSPEND; (lia || reflexivity).
Qed.

(** The work that collapses the power: it gives up after ten refusals. *)
Lemma keeps_work w : keeps (if sw_pc then upd (set_pm_work w) else ret 0).
Proof. destruct sw_pc; [|apply keeps_ret]. apply keeps_upd. intros s. apply work_inv. Qed.
Lemma pc_result_ok rc s : core_inv true s -> vc_skip_pc s < VIDC_MAX_PC_SKIP_COUNT ->
  wp F (pc_result rc) s (fun _ => core_inv true).
Proof.
  intros I Hk. pose proof (i_skip _ _ I) as Hs. unfold pc_result.
  assert (Hz : forall s, core_inv true s -> core_inv true (set_skip_pc 0 s)).
  { intros s0 I0. apply (skip_inv 0 s0 I0). unfold VIDC_MAX_PC_SKIP_COUNT. lia. }
  destruct (rc =? 0); [exact (keeps_after _ _ (keeps_upd _ Hz) (keeps_work false) s I)|].
  destruct (rc =? - EBUSY); [exact (keeps_after _ _ (keeps_upd _ Hz) (keeps_work true) s I)|].
  destruct (rc =? - EAGAIN); [|now apply wp_ret].
  apply wp_after, wp_upd, keeps_work, (skip_inv _ s I). lia.
Qed.
Lemma call_pm_work : call_ok venus_hfi_pm_work_handler.
Proof.
  intros s I. apply wp_after, wp_upd. pose proof (work_inv false false s I) as I1. revert I1.
  generalize (set_pm_work false s). clear s I. apply call_locked. intros s I. apply wp_looking.
  destruct (vc_skip_pc s >=? VIDC_MAX_PC_SKIP_COUNT) eqn:Ek.
  - apply wp_after, wp_upd, keeps_unresponsive, (skip_inv 0 s I). unfold VIDC_MAX_PC_SKIP_COUNT. lia.
  - apply wp_looking. destruct (is_core_state _ s); [now apply wp_ret|]. apply wp_bind.
    eapply wp_mono; [exact (cmd_power_collapse F Hok false s (inv_live s I))|]. cbv beta. intros rc s1 A.
    apply pc_result_ok; [exact (cmd_inv s s1 I A)|]. destruct A as (V & _). injection V as _ _ _ _ _ _ _ E3 _ _ _ _ _ _.
    rewrite E3. rewrite Z.geb_leb in Ek. lia.
Qed.

Lemma call_scale_clocks freq : call_ok (venus_hfi_scale_clocks freq).
Proof.
  apply call_locked, keeps_then; [exact (keeps_cmd _ (cmd_resume F Hok))|].
  exact (keeps_cmd _ (hw_does_cmd F _ (does_set_clocks_ext F freq))).
Qed.
Lemma call_scale_buses ddr llcc : call_ok (venus_hfi_scale_buses ddr llcc).
Proof.
  apply call_locked, keeps_then; [exact (keeps_cmd _ (cmd_resume F Hok))|].
  exact (keeps_cmd _ (hw_does_cmd F _ (does_set_bw F ddr llcc))).
Qed.

(** ** Messages of the firmware *)
Lemma call_system_init pkt : call_ok (handle_system_init pkt).
Proof.
  unfold handle_system_init. destruct (_ =? 0); [intros s I; now apply wp_ret|]. apply call_locked, keeps_looking.
  intros id. destruct (hp_packet_id pkt =? id); cbn [negb]; [|apply keeps_ret].
  apply keeps_after; [|apply keeps_ret]. intros s I. pose proof (inv_live s I) as Hs.
  apply change_state; [exact (proj1 Hs)|]. cbv zeta. destruct (bool_decide _) eqn:E; [exact I|].
  apply bool_decide_eq_false in E. pose proof (i_state _ _ I).
  destruct (core_state (vc_hfi s)) eqn:Es; try exact I; try congruence. cbn.
  destruct (to_state_live MSM_VIDC_CORE_INIT s Hs) as ([L _] & Q & P). destruct I. split; auto; try discriminate.
  intros _. apply i_fw0. congruence.
Qed.
Lemma call_system_error pkt : call_ok (handle_system_error pkt).
Proof.
  intros s I. unfold handle_system_error. apply wp_after.
  assert (Hn : call_ok (noc_of pkt)).
  { unfold noc_of. destruct pkt as [ty|]; [|intros s1 I1; now apply wp_ret].
    destruct (ty =? HFI_SYS_ERROR_NOC); [|intros s1 I1; now apply wp_ret].
    unfold venus_hfi_noc_error_info. destruct non_fatal_faults; cbn [negb]; [|intros s1 I1; now apply wp_ret].
    apply call_locked, keeps_looking. intros d. destruct d; [apply keeps_ret|].
    exact (keeps_cmd _ (cmd_resume F Hok)). }
  eapply wp_mono; [exact (Hn s I)|]. cbv beta. intros _ s1 I1. destruct (bug_of pkt) eqn:Eb.
  - unfold bug_of in Eb. destruct Hbug as [HF|Hb]; [exact HF|]. destruct pkt; [|done]. rewrite Hb, andb_false_r in Eb. done.
  - apply wp_after. assert (Hl : call_ok (locked (fail_core 0))) by (apply call_locked, keeps_fail; [lia|reflexivity]).
    eapply wp_mono; [exact (Hl s1 I1)|]. cbv beta. intros _ s2 I2. now apply wp_ret.
Qed.

(** What a system error leaves of a core that is not deinitialised. *)
Lemma noc_ok pkt s : core_inv false s -> core_state (vc_hfi s) <> MSM_VIDC_CORE_DEINIT ->
  wp F (noc_of pkt) s (fun _ s' => core_inv false s' /\ recovery_view s' = recovery_view s /\
    core_state (vc_hfi s') = core_state (vc_hfi s)) \/
  (pkt = Some HFI_SYS_ERROR_NOC /\ wp F (noc_of pkt) s (fun _ s' => core_inv false s' /\
    vc_instances s' = vc_instances s /\ vc_dangling s' = vc_dangling s /\ vc_skip_pc s' = vc_skip_pc s /\
    core_state (vc_hfi s') = core_state (vc_hfi s))).
Proof.
  intros I Hst. unfold noc_of. destruct pkt as [ty|]; [|left; now apply wp_ret].
  destruct (ty =? HFI_SYS_ERROR_NOC) eqn:E; [|left; now apply wp_ret]. zb. right. split; [now rewrite E|].
  unfold venus_hfi_noc_error_info. destruct non_fatal_faults; cbn [negb]; [|now apply wp_ret].
  unfold locked. apply wp_after. unfold wp at 1, core_lock. rewrite (i_lock false s I).
  change (set_hfi (with_locked true (vc_hfi s)) s) with (lock_core true s).
  pose proof (lock_inv false true s I) as I'. apply wp_bind, wp_looking. unfold is_core_state.
  rewrite bool_decide_eq_false_2 by exact Hst.
  eapply wp_mono; [exact (cmd_resume F Hok _ (inv_live _ I'))|]. cbv beta. intros rc s1 A.
  apply wp_after, wp_upd, wp_ret. pose proof (cmd_inv _ _ I' A) as I1.
  destruct A as (V & _). injection V as E1 _ _ _ _ _ _ E4 _ _ _ E2 E3 _.
  split; [exact (lock_inv true false s1 I1)|]. now split.
Qed.
Lemma system_error_ok pkt s : core_inv false s -> core_state (vc_hfi s) <> MSM_VIDC_CORE_DEINIT ->
  wp F (handle_system_error pkt) s (fun rc s' => rc = 0 /\ exists s1, recovered s s1 /\
    s' = lock_core false s1 /\ (pkt <> Some HFI_SYS_ERROR_NOC -> vc_set_to_fw s' = vc_set_to_fw s)).
Proof.
  intros I Hst. unfold handle_system_error.
  assert (Hrest : forall s0, core_inv false s0 -> core_state (vc_hfi s0) <> MSM_VIDC_CORE_DEINIT ->
    wp F (if bug_of pkt then fun _ => Fault else locked (fail_core 0) ;! ret 0) s0 (fun rc s' => rc = 0 /\
      exists s1, recovered s0 s1 /\ s' = lock_core false s1 /\ vc_set_to_fw s' = vc_set_to_fw s0)).
  { intros s0 I0 Hst0. destruct (bug_of pkt) eqn:Eb.
    { unfold bug_of in Eb. destruct Hbug as [HF|Hb]; [exact HF|]. destruct pkt; [|done]. rewrite Hb, andb_false_r in Eb. done. }
    apply wp_after. unfold locked. apply wp_after. unfold wp at 1, core_lock. rewrite (i_lock false s0 I0).
    change (set_hfi (with_locked true (vc_hfi s0)) s0) with (lock_core true s0).
    pose proof (lock_inv false true s0 I0) as I'. apply wp_bind.
    eapply wp_mono; [apply (fail_core_ok F Hok Hdump 0 _ (inv_live _ I')); [exact Hst0|lia|reflexivity|exact (inv_power _ I')]|].
    cbv beta. intros rc s1 (_ & R & T). apply wp_after, wp_upd, wp_ret, wp_ret. split; [done|].
    exists s1. split; [|split; [reflexivity|exact T]]. exact (recovered_from s0 (lock_core true s0) s1 eq_refl R). }
  apply wp_after. destruct (noc_ok pkt s I Hst) as [Hn|[-> Hn]].
  - eapply wp_mono; [exact Hn|]. cbv beta. intros _ s0 (I0 & Ev & Es). eapply wp_mono; [apply (Hrest s0 I0); congruence|].
    cbv beta. intros rc s' (-> & s1 & R & -> & T). split; [done|]. exists s1. split; [exact (recovered_from _ _ _ Ev R)|].
    split; [done|]. intros _. injection Ev as _ _ _ _ Ev. congruence.
  - eapply wp_mono; [exact Hn|]. cbv beta. intros _ s0 (I0 & E1 & E2 & E3 & Es). eapply wp_mono; [apply (Hrest s0 I0); congruence|].
    cbv beta. intros rc s' (-> & s1 & [] & -> & T). split; [done|]. exists s1. split; [|split; [done|contradiction]].
    pose proof (i_irq _ _ I0). pose proof (i_irq _ _ I).
    split; auto; try congruence.
Qed.

(** ** All of them *)
Lemma call_firmware f (Hf : forall c, queues_live c -> queues_live (f c) /\ queue_view (f c) = queue_view c) :
  call_ok (upd (fun s => set_hfi (f (vc_hfi s)) s)).
Proof.
  intros s []. destruct (Hf _ i_queues0) as [Hq Hv]. injection Hv as E1 E2 _ _ _ _. apply wp_upd.
  split; try exact Hq; cbn [vc_hfi set_hfi vc_state_handle vc_packet vc_instances vc_fw_cookie vc_skip_pc];
    rewrite ?E1, ?E2; auto.
Qed.
Lemma call_session id f : inst_keeps f -> call_ok (upd_session id f).
Proof.
  intros Hf s I. apply wp_upd.
  apply (sessions_inv false s _ _ I (sessions_changed X K _ _ id f Hf (i_sessions _ _ I))). intros Hd.
  now rewrite (proj2 (proj2 (i_deinit _ _ I Hd))).
Qed.

(** Any call, were a stop while the answer to a start is awaited ignored. *)
Lemma every_call c : X = None -> call_ok (run_calls (stop_but (fun _ => ret 0)) c).
Proof.
  intros HX. induction c as [|c1 IH1 c2 IH2| |f IH|force|id|i [Hi Hl]|i| | | |freq|ddr llcc|pkt|pkt|f Hf|id f Hf].
  - intros s I. now apply wp_ret.
  - intros s I. apply wp_after. eapply wp_mono; [exact (IH1 s I)|]. cbv beta. intros _. exact IH2.
  - exact call_init.
  - exact (call_wait _ IH).
  - exact (call_deinit force).
  - exact (call_timeout id).
  - apply call_add; [exact Hi|]. now rewrite Hl, HX.
  - exact (call_remove i).
  - exact call_pm_suspend.
  - exact call_pm_resume.
  - exact call_pm_work.
  - exact (call_scale_clocks freq).
  - exact (call_scale_buses ddr llcc).
  - exact (call_system_init pkt).
  - exact (call_system_error pkt).
  - exact (call_firmware f Hf).
  - exact (call_session id f Hf).
Qed.
End Calls.

(** ** The states a core reaches *)

(** A core as it is allocated: zeros and the tables of its resources. *)
Record core_allocated `{VidcPlatform} (s : vidc_core) : Prop := {
  al_queues : core_fresh (vc_hfi s);
  al_sub_state : vc_sub_state s = 0;
  al_skip : vc_skip_pc s = 0;
  al_cookie : vc_fw_cookie s = 0;
  al_irq : vc_irq_depth s = 0 }.

Inductive core_reachable `{VidcKernel} `{VidcConfig} `{VidcFirmware} `{VidcPlatform} : vidc_core -> Prop :=
| reach_probe s0 s : core_allocated s0 -> probe_core s0 = Done (0, s) -> core_reachable s
| reach_call c s rc s' :
    core_reachable s -> never_stops_waiting c s -> run_call c s = Done (rc, s') -> core_reachable s'.

Section Reachable.
#[local] Abbreviation core_inv := (core_inv None []).
Context `{VidcKernel} `{VidcConfig} `{VidcFirmware} `{VidcPlatform}.

Lemma wp_done F m s rc s' Q : wp F m s Q -> m s = Done (rc, s') -> Q rc s'.
Proof. unfold wp. intros Hm E. now rewrite E in Hm. Qed.

Lemma zero_packet : sized (replicate (Z.to_nat packet_size) 0).
Proof. unfold sized, zlength. now rewrite length_replicate. Qed.
(** The state behind the initialisation and the one behind the probe. *)
Definition initialized (s0 : vidc_core) (packet : list Z) (c : msm_vidc_core) (n : nat) : vidc_core :=
  set_answers n (set_packet packet (set_dangling [] (set_instances []
    (set_state_handle (Some msm_vidc_core_deinit_state) (set_hfi c s0))))).
Lemma initialized_inv s0 packet c n : core_allocated s0 -> sized packet -> core_fresh c ->
  core_state c = MSM_VIDC_CORE_DEINIT -> core_locked c = false ->
  wp True __init_irq (initialized s0 packet c n) (fun rc s => rc = 0 -> core_inv false s).
Proof.
  intros [] Hz Hc Hd Hl. apply wp_and_then, wp_ask. intros b. apply wp_ret.
  destruct (b =? 0) eqn:Eb; zb; [|congruence]. apply wp_upd. intros _. clear b Eb.
  assert (Hpow : powered s0 = false) by (rewrite powered_bit, al_sub_state0; reflexivity).
  set (s1 := set_irq_depth _ _).
  assert (E1 : vc_hfi s1 = c) by reflexivity.
  assert (E2 : powered s1 = powered s0) by reflexivity.
  assert (E3 : vc_irq_depth s1 = vc_irq_depth s0 + 1) by reflexivity.
  assert (E4 : vc_skip_pc s1 = vc_skip_pc s0) by reflexivity.
  assert (E5 : vc_fw_cookie s1 = vc_fw_cookie s0) by reflexivity.
  assert (E6 : vc_packet s1 = packet) by reflexivity.
  assert (E7 : vc_state_handle s1 = Some msm_vidc_core_deinit_state /\ vc_instances s1 = [] /\ vc_dangling s1 = []) by now split.
  clearbody s1. destruct E7 as (E7 & E8 & E9). split; rewrite ?E1, ?E6, ?E4; auto.
  - now rewrite E7, Hd.
  - left. exact Hc.
  - congruence.
  - intros _. split; [congruence|]. split; congruence.
  - unfold irq_balance. rewrite E2, Hpow, E3. lia.
  - rewrite al_skip0. unfold VIDC_MAX_PC_SKIP_COUNT. lia.
  - rewrite E8, E9. apply sessions_none.
Qed.
Lemma initialize_ok s0 : wp True msm_vidc_initialize_core s0 (fun rc s => rc = 0 -> exists packet n, sized packet /\
  s = initialized s0 packet (with_locked false (with_state MSM_VIDC_CORE_DEINIT (vc_hfi s0))) n).
Proof.
  unfold msm_vidc_initialize_core. rewrite update_state. pose proof zero_packet as Hz. revert Hz.
  generalize (replicate (Z.to_nat packet_size) 0). intros zeros Hz.
  apply wp_after, wp_upd.
  apply wp_ask. intros a. destruct (a =? 0); [now apply wp_ret|].
  apply wp_ask. intros a'. destruct (a' =? 0); [now apply wp_ret|].
  apply wp_ask. intros a''. destruct (a'' =? 0); [now apply wp_ret|].
  apply wp_after, wp_upd, wp_ask. intros _. apply wp_after, wp_upd, wp_after, wp_upd, wp_ret. intros _.
  eexists zeros, _. split; [exact Hz|reflexivity].
Qed.
Lemma probe_inv s0 s : core_allocated s0 -> probe_core s0 = Done (0, s) -> core_inv false s.
Proof.
  intros Ha E.
  assert (Hp : wp True probe_core s0 (fun rc s => rc = 0 -> core_inv false s)).
  { apply wp_and_then. eapply wp_mono; [exact (initialize_ok s0)|]. cbv beta. intros rc s1 Hs.
    destruct (rc =? 0) eqn:Er; zb; [|congruence]. destruct (Hs Er) as (packet & n & Hz & ->). clear Hs.
    apply (initialized_inv s0 packet _ n Ha Hz); [|reflexivity..].
    destruct (al_queues s0 Ha). split; auto. }
  exact (wp_done True _ _ _ _ _ Hp E eq_refl).
Qed.

Lemma reachable_inv (Hok : platform_ok) (Hdump : fw_dump = false) (Hbug : forall ty, bug_on ty = false)
  (Hinit : init_answers_ok) s : core_reachable s -> core_inv false s.
Proof.
  induction 1 as [s0 s Ha E|c s rc s' _ IH Hn E]; [exact (probe_inv s0 s Ha E)|].
  rewrite <- (Hn (fun _ => ret 0)) in E.
  pose proof (every_call None [] False (or_intror Hok) (or_intror Hdump) (or_intror Hbug) Hinit c eq_refl s IH) as Hc.
  exact (wp_done False _ _ _ _ _ Hc E).
Qed.
End Reachable.
