(* ===== verification/VidcFlowInv.v ===== *)
(** Every sequence of a session keeps what holds of the core and of its
    sessions: the rules for operations on one session, the commands for it,
    and the sequences made of them. *)
From S2P Require Import Prelude VidcQueue VidcMem VidcHfi VidcPacket VidcPacketSpec VidcBuffer.
From S2P Require Import VidcSession VidcCore VidcPower VidcPowerSpec VidcVenus VidcCmds.
From S2P Require Import VidcScale VidcFlow.
From S2P Require Import VidcResponse VidcReply VidcBufSpec VidcSessionInv VidcVenusSpec VidcVenusInv.
From S2P Require Import VidcCoreInv.

(** ** Looking a session up *)
Lemma find_inst_in id l i : find_inst id l = Some i -> i ∈ l /\ inst_id i = id.
Proof. intros E. apply find_some in E as [Hi E]. zb. split; [now apply list_elem_of_In|exact E]. Qed.
Lemma find_inst_none id l : find_inst id l = None -> Forall (fun i => inst_id i <> id) l.
Proof.
  intros E. apply Forall_forall. intros i Hi Eid. apply list_elem_of_In in Hi.
  pose proof (find_none _ _ E i Hi) as Hn. cbv beta in Hn. zb. contradiction.
Qed.
Lemma session_in id s i : session id s = Some i -> i ∈ vc_instances s ++ vc_dangling s /\ inst_id i = id.
Proof.
  unfold session. destruct (find_inst id (vc_instances s)) eqn:E.
  - intros [= ->]. apply find_inst_in in E as [E1 E2]. split; [apply elem_of_app; auto|done].
  - intros E2. apply find_inst_in in E2 as [E1 E2]. split; [apply elem_of_app; auto|done].
Qed.
Lemma session_known id s :
  Exists (fun i => inst_id i = id) (vc_instances s ++ vc_dangling s) -> exists i, session id s = Some i.
Proof.
  intros He. unfold session. destruct (find_inst id (vc_instances s)) eqn:E1; [eauto|].
  destruct (find_inst id (vc_dangling s)) eqn:E2; [eauto|]. exfalso.
  apply find_inst_none in E1, E2. rewrite Forall_forall in E1. rewrite Forall_forall in E2.
  rewrite Exists_exists in He. destruct He as (i & [Hi|Hi]%elem_of_app & <-); [now apply (E1 i Hi)|now apply (E2 i Hi)].
Qed.

(** The session behind a pointer after it was changed. *)
Lemma find_on_inst id f l : (forall i, inst_id (f i) = inst_id i) ->
  find_inst id (on_inst id f l) = option_map f (find_inst id l).
Proof.
  intros Hf. unfold find_inst, on_inst. induction l as [|i l IH]; [done|]. cbn.
  destruct (inst_id i =? id) eqn:E; [now rewrite Hf, E|now rewrite E].
Qed.
(** The core with the session behind a pointer changed. *)
Definition session_upd (id : Z) (f : msm_vidc_inst -> msm_vidc_inst) (s : vidc_core) : vidc_core :=
  set_dangling (on_inst id f (vc_dangling s)) (set_instances (on_inst id f (vc_instances s)) s).
Lemma session_changed id f s : (forall i, inst_id (f i) = inst_id i) ->
  session id (session_upd id f s) = option_map f (session id s).
Proof.
  intros Hf. unfold session, session_upd. cbn [vc_instances vc_dangling set_instances set_dangling].
  rewrite !find_on_inst by done. now destruct (find_inst id (vc_instances s)).
Qed.

(** ** Operations on one session *)
Section Rules.
Context `{VidcKernel} `{VidcConfig} `{VidcFirmware} `{VidcPlatform} (F : Prop) (X : option Z) (K : list Z).
#[local] Abbreviation ok := (call_ok X K F).

Lemma ok_ret rc : ok (ret rc).
Proof. intros s I. now apply wp_ret. Qed.
Lemma ok_bind m k : ok m -> (forall rc, ok (k rc)) -> ok (bind_op m k).
Proof. intros Hm Hk s I. apply wp_bind. eapply wp_mono; [exact (Hm s I)|]. intros rc s'. apply Hk. Qed.
Lemma ok_after m k : ok m -> ok k -> ok (m ;! k).
Proof. intros Hm Hk. now apply ok_bind. Qed.
Lemma ok_then m k : ok m -> ok k -> ok (m ;? k).
Proof. intros Hm Hk. apply ok_bind; [done|]. intros rc. destruct (rc =? 0); [done|apply ok_ret]. Qed.
Lemma ok_undo c m : ok m -> ok c -> ok (undo c m).
Proof.
  intros Hm Hc. apply ok_bind; [done|]. intros rc. destruct (rc =? 0); [apply ok_ret|].
  apply ok_after; [done|apply ok_ret].
Qed.
Lemma ok_looking {A} (f : vidc_core -> A) k : (forall a, ok (k a)) -> ok (looking f k).
Proof. intros Hk s I. apply wp_looking, Hk, I. Qed.
Lemma inv_answers b s n : core_inv X K b s -> core_inv X K b (set_answers n s).
Proof. intros []. now split. Qed.
Lemma ok_ask q k : (forall a, ok (k a)) -> ok (ask q k).
Proof. intros Hk s I. apply wp_ask. intros a. apply Hk, inv_answers, I. Qed.

(** A session that is known. *)
Lemma inv_session b id s : core_inv X K b s -> In id K ->
  exists i, session id s = Some i /\ inst_ok i /\ inst_id i = id.
Proof.
  intros I Hid. destruct (i_sessions b s I). rewrite Forall_forall in so_ok. rewrite Forall_forall in so_known.
  destruct (session_known id s (so_known id ltac:(now apply list_elem_of_In))) as [i E].
  destruct (session_in id s i E) as [Hi Ei]. exists i. auto.
Qed.
Lemma inv_locked b id s i : core_inv X K b s -> session id s = Some i -> inst_locked i = bool_decide (X = Some id).
Proof.
  intros I E. destruct (session_in id s i E) as [Hi <-]. destruct (i_sessions b s I).
  rewrite Forall_forall in so_lock. exact (so_lock i Hi).
Qed.
Lemma ok_reading id k : In id K -> (forall i, inst_ok i -> ok (k i)) -> ok (reading id k).
Proof.
  intros Hid Hk s I. apply wp_looking. destruct (inv_session false id s I Hid) as (i & -> & Hi & _).
  exact (Hk i Hi s I).
Qed.
Lemma ok_upd_session id f : inst_keeps f -> ok (upd_session id f).
Proof. exact (call_session X K F id f). Qed.
Lemma ok_change id f : In id K -> inst_does f -> ok (change_session id f).
Proof.
  intros Hid Hf s I. apply wp_looking. destruct (inv_session false id s I Hid) as (i & -> & Hi & _).
  revert s I. apply ok_after; [now apply ok_upd_session|apply ok_ret].
Qed.

(** Under the lock of the core. *)
Lemma inv_changed b id f s : inst_keeps f -> core_inv X K b s -> core_inv X K b (session_upd id f s).
Proof.
  intros Hf I. apply (sessions_inv X K b s _ _ I (sessions_changed X K _ _ id f Hf (i_sessions _ _ I))).
  intros Hd. now rewrite (proj2 (proj2 (i_deinit _ _ I Hd))).
Qed.
End Rules.

Create HintDb flow.
#[export] Hint Resolve ok_ret ok_ask ok_looking ok_upd_session : flow.
#[export] Hint Extern 1 (call_ok _ _ _ (and_then _ _)) => apply ok_then : flow.
#[export] Hint Extern 1 (call_ok _ _ _ (after _ _)) => apply ok_after : flow.
#[export] Hint Extern 1 (call_ok _ _ _ (undo _ _)) => apply ok_undo : flow.
#[export] Hint Extern 1 (call_ok _ _ _ (bind_op _ _)) => apply ok_bind; [|intros ?] : flow.
#[export] Hint Extern 1 (call_ok _ _ _ (looking _ _)) => apply ok_looking; intros ? : flow.
#[export] Hint Extern 1 (call_ok _ _ _ (reading _ _)) => apply ok_reading; [assumption|intros ? ?] : flow.
#[export] Hint Extern 2 (call_ok _ _ _ (match ?x with _ => _ end)) => destruct x : flow.
Ltac flow := cbv zeta; auto 60 with flow.

(** ** Commands *)
Section Cmds.
Context `{VidcKernel} `{VidcConfig} `{VidcFirmware} `{VidcPlatform} (F : Prop) (X : option Z) (K : list Z).
Context (Hok : F \/ platform_ok).
#[local] Abbreviation ok := (call_ok X K F).

(** Under the lock of the core, the session has a buffer for its packets. *)
Definition has_packet (id : Z) (s : vidc_core) : Prop := exists b, packet_at (inst_packet_of id) s = Some b.
Definition packet_inv (id : Z) (s : vidc_core) : Prop := core_inv X K true s /\ has_packet id s.

Lemma packet_known id s b i : packet_at (inst_packet_of id) s = Some b -> session id s = Some i -> inst_packet i = Some b.
Proof. cbn. intros E E2. now rewrite E2 in E. Qed.
Lemma packet_sized id s b : core_inv X K true s -> packet_at (inst_packet_of id) s = Some b -> sized b.
Proof.
  intros I E. cbn in E. destruct (session id s) as [i|] eqn:Es; [|done]. destruct (session_in id s i Es) as [Hi _].
  destruct (i_sessions true s I). rewrite Forall_forall in so_ok. pose proof (io_packet i (so_ok i Hi)) as Hb. now rewrite E in Hb.
Qed.

(** Filling the buffer of a session. *)
Lemma build_session id f s : packet_inv id s -> builds sized f ->
  wp F (build (inst_packet_of id) f) s (fun _ s' =>
    core_inv X K true s' /\ message_at (inst_packet_of id) s' /\
    exists c b, s' = session_upd id (set_inst_packet (Some b)) (set_ids c s)).
Proof.
  intros (I & b & E) Hf. destruct (Hf (vc_ids s) b (packet_sized id s b I E)) as (rc & c' & b' & Ef & Hb').
  unfold build, wp. rewrite E, Ef. cbn [mbind exec_bind fst snd].
  unfold after, bind_op, upd, ret, set_packet_at, upd_session, upd. cbn [mbind exec_bind fst snd].
  set (s1 := set_ids c' s). change (set_dangling _ _) with (session_upd id (set_inst_packet (Some b')) s1).
  assert (I1 : core_inv X K true s1) by (destruct I; split; auto).
  split; [exact (inv_changed X K true id _ s1 (keeps_packet (Some b') (message_buffer_sized _ Hb')) I1)|].
  split; [|now exists c', b']. exists b'. split; [|exact Hb']. cbn. rewrite session_changed by done.
  change (session id s1) with (session id s). cbn in E. now destruct (session id s).
Qed.
Lemma write_session write id s : writes_live write -> core_inv X K true s -> message_at (inst_packet_of id) s ->
  wp F (cmdq_write_with __resume write (inst_packet_of id)) s (fun _ => core_inv X K true).
Proof.
  intros Hw I Hm. eapply wp_mono; [exact (cmd_write_with F Hok write _ s Hw (inv_live s I) Hm)|].
  cbv beta. intros rc s' A. exact (cmd_inv s s' I A).
Qed.
Lemma send_ok id f s : builds sized f -> packet_inv id s -> wp F (send id f) s (fun _ => core_inv X K true).
Proof.
  intros Hf Hs. apply wp_and_then. eapply wp_mono; [exact (build_session id f s Hs Hf)|]. cbv beta.
  intros rc s1 (I1 & M1 & _). destruct (rc =? 0); [|exact I1]. exact (write_session _ id s1 write_live I1 M1).
Qed.

(** The frame of the commands. *)
Lemma ok_session_cmd id body : In id K ->
  (forall i s, inst_ok i -> packet_inv id s -> wp F (body i) s (fun _ => core_inv X K true)) ->
  ok (session_cmd id body).
Proof.
  intros Hid Hb s I. apply wp_looking. destruct (inv_session X K false id s I Hid) as (i & E & Hi & _). rewrite E.
  destruct (inst_packet i) as [b|] eqn:Eb; [|now apply wp_ret]. apply (locked_ok X K F _ s I).
  pose proof (lock_inv false true s I) as I'. apply wp_looking. destruct (__valdiate_session _ _); [|now apply wp_ret].
  cbn [negb]. apply wp_looking. change (session id (lock_core true s)) with (session id s). rewrite E.
  apply (Hb i); [exact Hi|]. split; [exact I'|]. exists b. cbn. change (session id (lock_core true s)) with (session id s).
  now rewrite E.
Qed.

(** *** Messages for sessions *)
Definition payload_ok (payload : option (list Z)) (n : Z) : Prop :=
  0 <= n < 2 ^ 31 /\ (n = 0 \/ exists l, payload = Some l /\ zlength l = n).
Lemma command_builds ty fl po sid pi payload n : payload_ok payload n ->
  builds sized (hfi_packet_session_command packet_size ty fl po sid pi payload n).
Proof. intros [Hn Hp]. apply begin_then. now apply add_packet_builds. Qed.
Lemma packet_builds i ty fl pi po payload n : payload_ok payload n ->
  builds sized (session_packet i ty fl pi po payload n).
Proof. intros [Hn Hp]. apply begin_then. now apply add_packet_builds. Qed.
Lemma payload_none : payload_ok None 0.
Proof. split; [lia|now left]. Qed.
Lemma payload_u32 v : payload_ok (Some (le32 v)) 4.
Proof. split; [lia|]. right. eexists. split; reflexivity. Qed.
Lemma payload_u64 v w : payload_ok (Some (le32 v ++ le32 w)) 8.
Proof. split; [lia|]. right. eexists. split; reflexivity. Qed.
#[local] Hint Resolve payload_none payload_u32 payload_u64 command_builds packet_builds send_ok : core.

Lemma ok_port_cmd id ty fl port valid pi payload n : In id K -> payload_ok payload n ->
  ok (port_cmd id ty fl port valid pi payload n).
Proof.
  intros Hid Hp. apply ok_session_cmd; [done|]. intros i s Hi [I P]. destruct valid; cbn [negb]; [|now apply wp_ret].
  apply send_ok; [now apply command_builds|now split].
Qed.
Lemma ok_start id port : In id K -> ok (venus_hfi_start id port).
Proof. intros Hid. now apply ok_port_cmd. Qed.
Lemma ok_stop id port : In id K -> ok (venus_hfi_stop id port).
Proof. intros Hid. now apply ok_port_cmd. Qed.
Lemma ok_pause id port : In id K -> ok (venus_hfi_session_pause id port).
Proof. intros Hid. now apply ok_port_cmd. Qed.
Lemma ok_hfi_resume id port payload : In id K -> ok (venus_hfi_session_resume id port payload).
Proof. intros Hid. now apply ok_port_cmd. Qed.
Lemma ok_hfi_drain id port : In id K -> ok (venus_hfi_session_drain id port).
Proof. intros Hid. now apply ok_port_cmd. Qed.
Lemma ok_hfi_close id : In id K -> ok (venus_hfi_session_close id).
Proof. intros Hid. apply ok_session_cmd; auto. Qed.
Lemma ok_set_codec id : In id K -> ok (venus_hfi_session_set_codec id).
Proof. intros Hid. apply ok_session_cmd; auto. Qed.
Lemma ok_set_secure_mode id : In id K -> ok (venus_hfi_session_set_secure_mode id).
Proof. intros Hid. apply ok_session_cmd; auto. Qed.
Lemma ok_session_command id cmd port pi payload n : In id K -> payload_ok payload n ->
  ok (venus_hfi_session_command id cmd port pi payload n).
Proof. intros Hid Hp. apply ok_session_cmd; auto. Qed.
Lemma ok_trigger_stability id type client val : In id K -> ok (venus_hfi_trigger_stability id type client val).
Proof. intros Hid. apply ok_session_cmd; auto. Qed.
Lemma ok_reserve_hardware id duration : In id K -> ok (venus_hfi_reserve_hardware id duration).
Proof. intros Hid. apply ok_session_cmd; auto. Qed.
Lemma ok_hfi_open id : In id K -> ok (venus_hfi_session_open id).
Proof.
  intros Hid. apply ok_session_cmd; [done|]. intros i s Hi [I P]. apply wp_after.
  eapply wp_mono; [exact (cmd_debug F Hok fw_log_level s (inv_live s I))|]. cbv beta. intros _ s1 A.
  apply send_ok; [auto|]. split; [exact (cmd_inv s s1 I A)|]. destruct P as [b E]. exists b. rewrite <- E. cbn.
  destruct A as (V & _). injection V as _ _ _ _ _ _ _ _ _ _ _ E1 E2 _. unfold session. now rewrite E1, E2.
Qed.

(** A property is sent, or kept back while a request is served. *)
Lemma pending_ok id data : ok (add_pending id data).
Proof. apply ok_upd_session. intros i. apply keeps_pending. Qed.
Lemma pending_locked id data s : core_inv X K true s ->
  wp F (add_pending id data) s (fun _ => core_inv X K true).
Proof. intros I. apply wp_upd. exact (inv_changed X K true id _ s (fun i => keeps_pending _ i) I). Qed.
Lemma load_message b o n : message_buffer b -> 0 <= o -> 0 <= n -> o + n <= 4096 ->
  exists v, load o n b = Done v /\ zlength v = n.
Proof.
  intros Hb Ho Hn Hl. pose proof (message_buffer_sized b Hb) as Hs. unfold sized in Hs. unfold load. rewrite Hs.
  tests; try lia. eexists. split; [reflexivity|]. unfold zlength in *. rewrite length_take, length_drop. lia.
Qed.
Lemma store_inside o src b : 0 <= o -> o + zlength src <= zlength b -> exists b', store o src b = Done b'.
Proof. intros Ho Hl. unfold store. tests; try lia. eauto. Qed.
Lemma pool_packet_size : zlength pool_packet = 1024.
Proof. unfold zlength, pool_packet. now rewrite length_replicate. Qed.
Lemma cache_ok id s : core_inv X K true s -> message_at (inst_packet_of id) s ->
  wp F (venus_hfi_cache_packet id) s (fun _ => core_inv X K true).
Proof.
  intros I (b & E & Hb). apply wp_looking. rewrite E. destruct Hb as (sid & hid & ps & rest & Eb & Hl & Hm).
  assert (Hb : message_buffer b) by (exists sid, hid, ps, rest; auto).
  assert (Es : load32 0 b = Done (message_length ps)).
  { subst b. apply message_size. pose proof (message_length_pos ps). lia. }
  unfold wp at 1. cbv beta. rewrite Es. cbn [mbind exec_bind]. pose proof (message_length_pos ps) as Hpos.
  destruct (message_length ps <? sizeof_hfi_header); [exact I|].
  match goal with |- match ?m ?s with _ => _ end => change (wp F m s (fun _ => core_inv X K true)) end.
  apply wp_ask. intros a. pose proof (inv_answers X K true s (S (vc_answers s)) I) as I1. revert I1.
  generalize (set_answers (S (vc_answers s)) s). intros s1 I1. destruct (a =? 0); [exact I1|].
  destruct (message_length ps >? MSM_MEM_POOL_PACKET_SIZE) eqn:Eg.
  - apply wp_after. eapply wp_mono; [exact (pending_locked id pool_packet s1 I1)|]. cbv beta. intros _ s2 I2. now apply wp_ret.
  - unfold wp. rewrite Z.gtb_ltb in Eg. unfold MSM_MEM_POOL_PACKET_SIZE in *.
    destruct (load_message b 0 (message_length ps) Hb) as (data & -> & Ed); [lia..|]. cbn [mbind exec_bind].
    destruct (store_inside 0 data pool_packet) as [packet ->]; [lia|rewrite Ed, pool_packet_size; lia|]. cbn [mbind exec_bind].
    exact (pending_locked id packet s1 I1).
Qed.
Lemma ok_property id ty fl po pi payload n : In id K -> payload_ok payload n ->
  ok (venus_hfi_session_property id ty fl po pi payload n).
Proof.
  intros Hid Hp. apply ok_session_cmd; [done|]. intros i s Hi Hs. apply wp_and_then.
  eapply wp_mono; [exact (build_session id _ s Hs (packet_builds i ty fl pi po payload n Hp))|]. cbv beta.
  intros rc s1 (I1 & M1 & _). destruct (rc =? 0); [|exact I1]. destruct (inst_request i).
  - exact (cache_ok id s1 I1 M1).
  - exact (write_session _ id s1 write_live I1 M1).
Qed.
Lemma ok_default_header id v : In id K -> ok (msm_vidc_session_set_default_header id v).
Proof. intros Hid. apply ok_reading; [done|]. intros i _. now apply ok_property. Qed.
Lemma ok_session_open id : In id K -> ok (msm_vidc_session_open id).
Proof.
  intros Hid. apply ok_ask. intros a.
  assert (Hn : ok (upd_session id (set_inst_packet None))) by (apply ok_upd_session, keeps_packet; exact Logic.I).
  destruct (a =? 0); [apply ok_after; [exact Hn|apply ok_ret]|].
  apply ok_after; [apply ok_upd_session, keeps_packet, zero_packet|].
  apply ok_undo; [exact (ok_hfi_open id Hid)|exact Hn].
Qed.
End Cmds.

(** ** Sequences *)

(** What the functions that are not modelled have to respect: they come back,
    and what holds of the core and its sessions still does. *)
Record driver_ok `{VidcKernel} `{VidcConfig} `{VidcFirmware} `{VidcPlatform} `{VidcDriver} (F : Prop)
    (X : option Z) (K : list Z) (id : Z) : Prop := {
  dr_internal : call_ok X K F (alloc_and_queue_input_internal_buffers id);
  dr_stage : call_ok X K F (set_stage id);
  dr_pipe : call_ok X K F (set_pipe id);
  dr_metadata : call_ok X K F (subscribe_input_metadata id);
  dr_dpb : call_ok X K F (alloc_and_queue_additional_dpb_buffers id);
  dr_deferred : call_ok X K F (queue_deferred_output_buffers id);
  dr_before : forall port, call_ok X K F (before_streamon id port);
  dr_after : forall port, call_ok X K F (after_streamon id port);
  dr_other : forall a, call_ok X K F (other_action id a);
  dr_timer : call_ok X K F (flush_input_timer id);
  dr_flush : forall ty, call_ok X K F (flush_buffers id ty);
  dr_read_only : forall ty, call_ok X K F (flush_read_only_buffers id ty) }.

Section Flows.
Context `{VidcKernel} `{VidcConfig} `{VidcFirmware} `{VidcPlatform} `{VidcNeeds} `{VidcDriver}.
Context (F : Prop) (K : list Z) (id : Z) (Hid : In id K).
Context (Hok : F \/ platform_ok) (Hdump : F \/ fw_dump = false).

(** The clock and the buses. *)
Section Scale.
Context (X : option Z).
Lemma ok_set_clocks : call_ok X K F msm_vidc_set_clocks.
Proof.
  unfold msm_vidc_set_clocks. destruct (bool_decide _); [apply ok_ret|]. apply ok_bind.
  - apply call_locked, keeps_looking. intros rate. apply keeps_after; [|apply keeps_ret].
    apply keeps_upd. intros s []. now split.
  - intros rate. exact (call_scale_clocks X K F Hok rate).
Qed.
Lemma ok_set_buses : call_ok X K F msm_vidc_set_buses.
Proof.
  intros s I. apply wp_after. unfold wp at 1, core_lock. rewrite (i_lock false s I). apply wp_looking, wp_after, wp_upd.
  exact (call_scale_buses X K F Hok _ _ _ (lock_inv true false _ (lock_inv false true s I))).
Qed.
Lemma ok_scale_power : call_ok X K F (msm_vidc_scale_power id).
Proof.
  apply ok_reading; [exact Hid|]. intros i _. apply ok_looking. intros w. destruct w; cbn [negb]; [|apply ok_ret].
  apply ok_after; [exact ok_set_clocks|]. apply ok_after; [exact ok_set_buses|apply ok_ret].
Qed.
End Scale.

Section Held.
Context (X : option Z) (Hdr : driver_ok F X K id).
#[local] Abbreviation ok := (call_ok X K F).

Lemma ok_sub clear set : flag_args clear set = true -> orderly clear set ->
  ok (change_session id (msm_vidc_change_sub_state clear set)).
Proof. intros Ha Ho. apply (ok_change F X K id _ Hid). now apply does_sub_state. Qed.
Lemma ok_no_sub : ok (change_session id (msm_vidc_change_sub_state 0 0)).
Proof. apply (ok_change F X K id _ Hid), does_no_change. Qed.
Ltac ok_sub := apply ok_sub; [reflexivity|orderly].

Lemma ok_process_drain : ok (msm_vidc_process_drain id).
Proof.
  apply ok_then; [exact (ok_hfi_drain F X K Hok id _ Hid)|]. apply ok_then; [ok_sub|].
  apply ok_after; [exact (ok_scale_power X)|apply ok_ret].
Qed.
Lemma ok_resume_port port pause cmd clear may k :
  (forall clear', clear' = clear \/ clear' = Z.lor clear pause -> ok (k clear')) ->
  ok (resume_port id port pause cmd clear may k).
Proof.
  intros Hk. apply ok_reading; [exact Hid|]. intros i _. destruct (_ && _); [|apply Hk; auto].
  apply ok_then; [exact (ok_hfi_resume F X K Hok id _ _ Hid)|apply Hk; auto].
Qed.
Lemma ok_process_resume : ok (msm_vidc_process_resume id).
Proof.
  apply ok_after; [exact (ok_scale_power X)|]. apply ok_reading; [exact Hid|]. intros i _. cbv zeta.
  destruct (is_drc_pending i); [destruct (is_drain_pending i); [ok_sub|]|destruct (is_drain_pending i); [|exact ok_no_sub]].
  all: apply ok_resume_port; intros c1 [->| ->]; apply ok_resume_port; intros c2 [->| ->]; ok_sub.
Qed.
Lemma ok_input_buffers : ok (input_buffers_anew id).
Proof. destruct Hdr. unfold input_buffers_anew. flow. Qed.
Lemma ok_start_cmd : ok (msm_vidc_start_cmd id).
Proof.
  pose proof (ok_scale_power X). pose proof ok_process_resume. pose proof ok_input_buffers. destruct Hdr.
  unfold msm_vidc_start_cmd, msm_vdec_start_cmd, msm_venc_start_cmd. flow.
Qed.
Lemma ok_stop_cmd : ok (msm_vidc_stop_cmd id).
Proof. pose proof ok_process_drain. unfold msm_vidc_stop_cmd. flow. Qed.

(** *** Starting a port *)
Lemma ok_clear_pause pause : flag_args pause 0 = true -> orderly pause 0 -> ok (clear_pause id pause).
Proof.
  intros Ha Ho. apply ok_reading; [exact Hid|]. intros i _. destruct (is_sub_state i pause); [|apply ok_ret].
  now apply ok_sub.
Qed.
Lemma ok_streamon_input : ok (msm_vidc_process_streamon_input id).
Proof.
  pose proof (ok_scale_power X) as Hs. pose proof (ok_start F X K Hok id INPUT_PORT Hid) as Hst.
  pose proof (ok_pause F X K Hok id INPUT_PORT Hid) as Hp.
  assert (Hc : ok (clear_pause id MSM_VIDC_INPUT_PAUSE)) by (apply ok_clear_pause; [reflexivity|orderly]).
  assert (Hn : ok (change_session id (msm_vidc_state_change_streamon INPUT_PORT))).
  { apply (ok_change F X K id _ Hid), does_streamon. }
  assert (Hi : ok (change_session id (msm_vidc_change_sub_state 0 MSM_VIDC_INPUT_PAUSE))) by ok_sub.
  pose proof ok_no_sub as H0s. unfold msm_vidc_process_streamon_input. flow.
Qed.
Lemma ok_streamon_output : ok (msm_vidc_process_streamon_output id).
Proof.
  apply ok_after; [exact (ok_scale_power X)|]. apply ok_reading; [exact Hid|]. intros i _. cbv zeta.
  apply ok_then. { pose proof ok_input_buffers. destruct Hdr. flow. }
  assert (Hfin : forall clear, ok (change_session id (msm_vidc_change_sub_state clear 0)) ->
    ok (venus_hfi_start id OUTPUT_PORT ;? clear_pause id MSM_VIDC_OUTPUT_PAUSE ;?
        change_session id (msm_vidc_state_change_streamon OUTPUT_PORT) ;?
        change_session id (msm_vidc_change_sub_state clear 0))).
  { intros clear Hc. pose proof (ok_start F X K Hok id OUTPUT_PORT Hid).
    assert (ok (clear_pause id MSM_VIDC_OUTPUT_PAUSE)) by (apply ok_clear_pause; [reflexivity|orderly]).
    assert (ok (change_session id (msm_vidc_state_change_streamon OUTPUT_PORT))).
    { apply (ok_change F X K id _ Hid), does_streamon. }
    flow. }
  apply ok_resume_port. intros c1 Hc1. apply ok_reading; [exact Hid|]. intros j _. apply Hfin.
  destruct (is_drc_pending i), (is_sub_state j MSM_VIDC_FIRST_IPSC); destruct Hc1 as [->| ->];
    (exact ok_no_sub || ok_sub).
Qed.
End Held.

(** *** The lock of the session *)
Lemma sessions_relocked X X' l d v : v = bool_decide (X' = Some id) ->
  (forall j, j <> id -> bool_decide (X = Some j) = bool_decide (X' = Some j)) ->
  sessions_ok X K l d ->
  sessions_ok X' K (on_inst id (set_inst_locked v) l) (on_inst id (set_inst_locked v) d).
Proof.
  intros Hv Hj [so_ok so_lock so_known]. unfold on_inst. set (g := fun i => if inst_id i =? id then set_inst_locked v i else i).
  assert (Hg : forall i, inst_id (g i) = inst_id i) by (intros i; unfold g; now destruct (_ =? _)).
  split; rewrite <- map_app; change (map g (l ++ d)) with (g <$> l ++ d); rewrite ?Forall_fmap.
  - eapply Forall_impl; [exact so_ok|]. intros i []. unfold compose, g. destruct (_ =? _); now split.
  - eapply Forall_impl; [exact so_lock|]. cbv beta. intros i Hi. unfold compose. rewrite Hg. unfold g.
    destruct (Z.eqb_spec (inst_id i) id) as [E|E]; [cbn; rewrite E; exact Hv|]. rewrite Hi. now apply Hj.
  - eapply Forall_impl; [exact so_known|]. cbv beta. intros j. rewrite Exists_fmap. intros He.
    eapply Exists_impl; [exact He|]. unfold compose. intros i. now rewrite Hg.
Qed.
Lemma inv_relocked X X' b s v : v = bool_decide (X' = Some id) ->
  (forall j, j <> id -> bool_decide (X = Some j) = bool_decide (X' = Some j)) ->
  core_inv X K b s -> core_inv X' K b (session_upd id (set_inst_locked v) s).
Proof.
  intros Hv Hj I. pose proof (i_deinit b s I) as Hde. pose proof (i_sessions b s I) as Hso.
  destruct I. split; auto; cbn [vc_instances vc_dangling session_upd set_instances set_dangling].
  - intros Hd. destruct (Hde Hd) as (Hp & Hc & Hi). split; [exact Hp|]. split; [exact Hc|]. now rewrite Hi.
  - exact (sessions_relocked X X' _ _ v Hv Hj Hso).
Qed.
Lemma other_locked j : j <> id -> bool_decide (None = Some j) = bool_decide (Some id = Some j).
Proof. intros Hj. rewrite !bool_decide_eq_false_2; congruence. Qed.
Lemma lock_ok s Q : core_inv None K false s ->
  (forall s', core_inv (Some id) K false s' -> Q 0 s') -> wp F (inst_lock id) s Q.
Proof.
  intros I HQ. apply wp_looking. destruct (inv_session None K false id s I Hid) as (i & E & _). rewrite E.
  rewrite (inv_locked None K false id s i I E), bool_decide_eq_false_2 by discriminate. apply wp_upd, HQ.
  apply (inv_relocked None (Some id) false s true); [|exact other_locked|exact I].
  now rewrite bool_decide_eq_true_2.
Qed.
Lemma unlock_ok s Q : core_inv (Some id) K false s ->
  (forall s', core_inv None K false s' -> Q 0 s') -> wp F (inst_unlock id) s Q.
Proof.
  intros I HQ. apply wp_upd, HQ. apply (inv_relocked (Some id) None false s false); [|intros j Hj|exact I].
  - now rewrite bool_decide_eq_false_2.
  - symmetry. now apply other_locked.
Qed.
Lemma ok_holding m : call_ok (Some id) K F m -> call_ok None K F (inst_holding id m).
Proof.
  intros Hm s I. apply wp_after, (lock_ok s _ I). intros s1 I1. apply wp_bind.
  eapply wp_mono; [exact (Hm s1 I1)|]. cbv beta. intros rc s2 I2. apply wp_after, (unlock_ok s2 _ I2).
  intros s3 I3. now apply wp_ret.
Qed.

(** *** Waiting, closing, stopping *)
Section Waiting.
Context (Hdr : driver_ok F (Some id) K id).
#[local] Abbreviation ok := (call_ok (Some id) K F).

Lemma ok_wait cmd m : call_ok None K F m -> ok (wait_signal id cmd m).
Proof.
  intros Hm s I. apply wp_after, (unlock_ok s _ I). intros s1 I1. apply wp_after.
  eapply wp_mono; [exact (Hm s1 I1)|]. cbv beta. intros _ s2 I2. apply wp_bind.
  assert (Hr : call_ok None K F (reading id (fun i =>
     if 0 <? signal_count cmd i then upd_session id (add_signal (-1) cmd)
     else msm_vidc_inst_timeout id ;! ret (- ETIMEDOUT)))).
  { apply ok_reading; [exact Hid|]. intros i _. destruct (_ <? _); [apply ok_upd_session, keeps_signal|].
    apply ok_after; [exact (call_timeout None K F Hok Hdump id)|apply ok_ret]. }
  eapply wp_mono; [exact (Hr s2 I2)|]. cbv beta. intros rc s3 I3. apply wp_after, (lock_ok s3 _ I3).
  intros s4 I4. now apply wp_ret.
Qed.
Lemma ok_no_packet : ok (upd_session id (set_inst_packet None)).
Proof. apply ok_upd_session, keeps_packet. exact Logic.I. Qed.
Lemma ok_session_close m : call_ok None K F m -> ok (msm_vidc_session_close id m).
Proof.
  intros Hm. apply ok_bind; [exact (ok_hfi_close F _ K Hok id Hid)|]. intros rc.
  apply ok_after; [exact ok_no_packet|]. destruct (rc =? 0); [exact (ok_wait _ m Hm)|apply ok_ret].
Qed.
Lemma ok_error X : call_ok X K F (change_session id (msm_vidc_change_state MSM_VIDC_ERROR)).
Proof. apply (ok_change F X K id _ Hid), does_state. Qed.
Lemma ok_kill m : call_ok None K F m -> ok (msm_vidc_kill_session id m).
Proof.
  intros Hm. pose proof (ok_session_close m Hm). pose proof (ok_error (Some id)). unfold msm_vidc_kill_session. flow.
Qed.
Lemma ok_streamoff port m : (forall n, call_ok None K F (m n)) -> ok (msm_vidc_session_streamoff id port m).
Proof.
  intros Hm.
  assert (Hp : forall port cmd ty, ok (streamoff_port id port cmd ty m)).
  { intros p cmd ty. pose proof (ok_stop F (Some id) K Hok id p Hid). pose proof (ok_wait cmd (m 0%nat) (Hm 0%nat)).
    pose proof (ok_kill (m 1%nat) (Hm 1%nat)).
    assert (ok (change_session id (msm_vidc_state_change_streamoff p))).
    { apply (ok_change F _ K id _ Hid), does_streamoff. }
    destruct Hdr. unfold streamoff_port, flush_port. flow. }
  destruct port; try apply ok_ret; apply Hp.
Qed.

(** *** The client's calls *)
Lemma ok_for_port ty f : (forall port, ok (f port)) -> ok (for_port id ty f).
Proof.
  intros Hf. unfold for_port. destruct (is_meta_plane ty); [apply ok_ret|]. destruct (plane_port ty); [|apply ok_ret].
  flow.
Qed.
Lemma ok_run_action m a : (forall n, call_ok None K F (m n)) -> ok (run_action id m a).
Proof.
  intros Hm. pose proof (ok_start_cmd (Some id) Hdr). pose proof (ok_stop_cmd (Some id)).
  pose proof (ok_streamon_input (Some id)). pose proof (ok_streamon_output (Some id) Hdr).
  pose proof (ok_streamoff) as Hs. pose proof (dr_other _ _ _ _ Hdr). pose proof (dr_before _ _ _ _ Hdr).
  pose proof (dr_after _ _ _ _ Hdr). destruct a; cbn [run_action]; try apply ok_ret; auto.
  - apply ok_for_port. intros port. flow.
  - apply ok_for_port. intros port. now apply Hs.
Qed.
Lemma ok_event m ev : (forall n, call_ok None K F (m n)) -> ok (handle_event id m ev).
Proof. intros Hm. apply ok_reading; [exact Hid|]. intros i _. now apply ok_run_action. Qed.
Lemma ok_fail_event m : ok m -> ok (fail_event id m).
Proof.
  intros Hm. apply ok_bind; [exact Hm|]. intros rc. destruct (rc =? 0); [apply ok_ret|].
  apply ok_after; [exact (ok_error (Some id))|apply ok_ret].
Qed.
End Waiting.
End Flows.
