(* ===== verification/VidcDriverInv.v ===== *)
(** What holds of the video core and of its sessions under everything the
    driver does: calls of the clients, messages of the firmware, and the calls
    on the core of VidcCoreInv.v, of which those that wait let others run. *)
From S2P Require Import Prelude VidcQueue VidcMem VidcHfi VidcHfiInv VidcPacket VidcPacketSpec.
From S2P Require Import VidcBuffer VidcPacketThms.
From S2P Require Import VidcSession VidcCore VidcPower VidcPowerSpec VidcVenus VidcCmds.
From S2P Require Import VidcScale VidcFlow VidcResponse VidcReply VidcBufSpec VidcSessionInv.
From S2P Require Import VidcVenusSpec VidcVenusInv VidcLifeSpec VidcCoreSpec VidcCoreInv VidcFlowInv.

(** ** Messages *)

(** A packet inside its message; the payload of one for a buffer is a
    structure, or there is none. *)
Definition inside (b : list Z) (e : Z * hfi_packet) : Prop :=
  0 <= fst e /\ sizeof_hfi_packet <= hp_size (snd e) < 2 ^ 32 /\ fst e + hp_size (snd e) <= zlength b /\
  (hp_type (snd e) = HFI_CMD_BUFFER ->
   hp_payload_info (snd e) = HFI_PAYLOAD_NONE \/ hp_payload_info (snd e) = HFI_PAYLOAD_STRUCTURE).
(** A message that can be checked, and when it passes has its packets inside. *)
Definition message_ok (b : list Z) : Prop :=
  sized b /\ bytes b /\ exists v, validate_hdr_packet b packet_size = Done v /\
    (v = 0 -> exists l, message_packets b packet_size = Done l /\ Forall (inside b) l).

Record replies_ok `{VidcKernel} `{VidcConfig} `{VidcFirmware} `{VidcPlatform} `{VidcReplies} (F : Prop)
    (X : option Z) (K : list Z) (id : Z) : Prop := {
  rp_input : call_ok X K F (input_port_settings_change id);
  rp_output : call_ok X K F (output_port_settings_change id);
  rp_property : forall b p pkt, call_ok X K F (session_property id b p pkt);
  rp_buffer : forall h buffer, call_ok X K F (session_buffer id h buffer);
  rp_dequeue : call_ok X K F (handle_dequeue_buffers id);
  rp_init : call_ok X K F (init_input_subcr_params id) }.

Section Replies.
Context `{VidcKernel} `{VidcConfig} `{VidcFirmware} `{VidcPlatform} `{VidcReplies}.
Context (F : Prop) (X : option Z) (K : list Z) (id : Z) (Hid : In id K) (Hrp : replies_ok F X K id).
#[local] Abbreviation ok := (call_ok X K F).

Lemma ok_inst f : inst_does f -> ok (change_session id f).
Proof. exact (ok_change F X K id f Hid). Qed.
Lemma ok_session_error : ok (session_error id).
Proof. apply ok_inst, does_state. Qed.
Lemma ok_input_change : ok (handle_input_port_settings_change id).
Proof.
  pose proof (ok_inst _ does_input_psc). destruct Hrp. apply ok_reading; [exact Hid|]. intros i _.
  destruct (msm_vidc_allow_input_psc i); flow.
Qed.
Lemma ok_port_change pkt : ok (handle_port_settings_change id pkt).
Proof.
  pose proof ok_session_error. pose proof ok_input_change. destruct Hrp. unfold handle_port_settings_change. flow.
Qed.
Lemma ok_buffer_packet b e : bytes b -> inside b e -> hp_type (snd e) = HFI_CMD_BUFFER ->
  ok (session_buffer_packet id b (fst e) (snd e)).
Proof.
  intros Hb (Hp & Hs & Hl & Hi) Ht. apply ok_reading; [exact Hid|]. intros i _ s I.
  assert (Ha : exists a, handle_session_buffer (inst_domain i) b (fst e) (snd e) = Done a).
  { destruct (Hi Ht) as [En|Es].
    - unfold handle_session_buffer. rewrite En. eauto.
    - destruct (structure_read (inst_domain i) b (fst e) (snd e) Hb Hp Hl Ht Es) as (a & E & _). eauto. }
  destruct Ha as [a E]. unfold wp. rewrite E. cbn [mbind exec_bind].
  assert (Hrun : ok (run_buffer_action id a)).
  { pose proof ok_session_error. destruct Hrp. destruct a; cbn [run_buffer_action]; flow. }
  exact (Hrun s I).
Qed.
Lemma ok_session_command_of b e : bytes b -> inside b e -> ok (handle_session_command id b (fst e) (snd e)).
Proof.
  intros Hb He. pose proof (ok_inst _ does_session_close). pose proof (ok_inst _ (does_session_stop (snd e))).
  pose proof (ok_inst _ does_drain_done). pose proof (ok_port_change (snd e)).
  unfold handle_session_command. destruct (List.find _ _) as [[ty handle]|] eqn:Ef; [|apply ok_ret].
  apply find_some in Ef as [Hin Ety]. cbn in Ety. zb.
  repeat (destruct Hin as [[= <- <-]|Hin];
          [first [apply ok_ret|assumption|apply ok_buffer_packet; auto]|]). destruct Hin.
Qed.

Lemma ok_session_range b range handle l : (forall e, In e l -> ok (handle id b (fst e) (snd e))) ->
  forall rc dq k, (forall rc dq, ok (k rc dq)) -> ok (session_range id b range handle l rc dq k).
Proof.
  intros Hl. pose proof ok_session_error as He. assert (Hse : ok (change_session id handle_session_error)) by exact He.
  induction l as [|[p pkt] l IH]; intros rc dq k Hk; cbn [session_range]; [apply Hk|].
  assert (IH' := IH (fun e Hin => Hl e (or_intror Hin))). specialize (Hl (p, pkt) (or_introl eq_refl)). cbn [fst snd] in Hl.
  apply ok_after; [destruct (negb _); [exact Hse|apply ok_ret]|]. destruct (is_in_range _ _); [|now apply IH'].
  apply ok_bind; [exact Hl|]. intros rc'. apply ok_after; [destruct (rc' =? 0); [apply ok_ret|exact He]|].
  now apply IH'.
Qed.
Lemma ok_session_message b l : bytes b -> Forall (inside b) l -> message_packets b packet_size = Done l ->
  ok (__handle_session_response id b).
Proof.
  intros Hb Hl El. assert (Hc : ok (clear_frame_info id)) by (apply ok_upd_session, keeps_frame_info).
  apply ok_after; [exact Hc|]. intros s I. unfold wp. rewrite El. cbn [mbind exec_bind].
  assert (Hin : forall e, In e l -> inside b e).
  { intros e He. rewrite Forall_forall in Hl. apply Hl. now apply list_elem_of_In. }
  match goal with |- match ?m ?t with _ => _ end => change (wp F m t (fun _ => core_inv X K false)) end.
  revert s I. cbn [handle_session_ranges session_ranges].
  apply ok_session_range; [intros e _; exact ok_session_error|]. intros r1 d1.
  apply ok_session_range; [intros e _; apply ok_inst, does_info|]. intros r2 d2.
  apply ok_session_range; [intros e _; apply (rp_property _ _ _ _ Hrp)|]. intros r3 d3.
  apply ok_session_range; [intros e He; apply (ok_session_command_of b e Hb), Hin, He|]. intros r4 d4.
  destruct Hrp. flow.
Qed.
End Replies.

(** ** Messages for the core *)
Section System.
Context `{VidcKernel} `{VidcConfig} `{VidcFirmware} `{VidcPlatform}.
Context (F : Prop) (X : option Z) (K : list Z) (Hok : F \/ platform_ok) (Hdump : F \/ fw_dump = false).
Context (Hbug : F \/ forall ty, bug_on ty = false).
#[local] Abbreviation ok := (call_ok X K F).

Lemma ok_image_version b e : inside b e -> ok (handle_image_version_property b (fst e) (snd e)).
Proof.
  intros (Hp & Hs & Hl & _). unfold handle_image_version_property. destruct (_ <? _) eqn:E; [apply ok_ret|].
  intros s I. assert (Hr : u32 (hp_size (snd e) - sizeof_hfi_packet) = hp_size (snd e) - sizeof_hfi_packet).
  { apply Z.mod_small. unfold sizeof_hfi_packet in *. lia. }
  rewrite Hr in E. unfold wp, load, VENUS_VERSION_LENGTH, sizeof_hfi_packet in *. tests; try lia.
  cbn [mbind exec_bind]. destruct I. now split.
Qed.
Lemma ok_system_property b e : inside b e -> ok (handle_system_property b (fst e) (snd e)).
Proof.
  intros He. pose proof (ok_image_version b e He). unfold handle_system_property. destruct (_ =? _); [done|apply ok_ret].
Qed.
Lemma ok_range b first range handle l : (forall e, In e l -> ok (handle b (fst e) (snd e))) ->
  forall rc next, (forall rc, ok (next rc)) -> ok (handle_range b first range handle l rc next).
Proof.
  intros Hl. induction l as [|[p pkt] l IH]; intros rc next Hn; cbn [handle_range]; [apply Hn|].
  assert (IH' := IH (fun e Hin => Hl e (or_intror Hin))). specialize (Hl (p, pkt) (or_introl eq_refl)). cbn [fst snd] in Hl.
  destruct (negb _); [exact (call_system_error X K F Hok Hdump Hbug _)|].
  destruct (is_in_range _ _); [|now apply IH'].
  apply ok_bind; [exact Hl|]. intros rc'. destruct (negb _); [apply ok_ret|]. destruct first; [apply ok_ret|now apply IH'].
Qed.
Lemma ok_system_response b l : message_packets b packet_size = Done l -> Forall (inside b) l ->
  ok (handle_system_response b).
Proof.
  intros El Hl s I. unfold wp, handle_system_response. rewrite El. cbn [mbind exec_bind].
  assert (Hin : forall e, In e l -> inside b e).
  { intros e He. rewrite Forall_forall in Hl. apply Hl. now apply list_elem_of_In. }
  match goal with |- match ?m ?t with _ => _ end => change (wp F m t (fun _ => core_inv X K false)) end.
  revert s I. cbn [handle_ranges system_ranges].
  apply ok_range; [intros e _; exact (call_system_error X K F Hok Hdump Hbug _)|]. intros r1.
  apply ok_range; [intros e He; apply ok_system_property; auto|]. intros r2.
  apply ok_range; [intros e _; exact (call_system_init X K F _)|]. intros r3. apply ok_ret.
Qed.
End System.

(** ** Calls of the clients and messages *)
Section Calls.
Context `{VidcKernel} `{VidcConfig} `{VidcFirmware} `{VidcPlatform} `{VidcNeeds} `{VidcDriver} `{VidcReplies}.
Context (F : Prop) (Hok : F \/ platform_ok) (Hdump : F \/ fw_dump = false).
Context (Hbug : F \/ forall ty, bug_on ty = false).

(** Between the calls no session is locked; some are known to exist. *)
Definition free_ok (m : op) : Prop := forall K, call_ok None K F m.

(** A session found on the list of the core is known from then on. *)
Lemma inv_know X K b s id : core_inv X K b s -> Exists (fun i => inst_id i = id) (vc_instances s ++ vc_dangling s) ->
  core_inv X (id :: K) b s.
Proof. intros [] He. split; auto. now apply sessions_know. Qed.
Lemma inv_forget X K id b s : core_inv X (id :: K) b s -> core_inv X K b s.
Proof. intros []. split; auto. eapply sessions_forget. eassumption. Qed.
Lemma get_ref_ok found k K : call_ok None K F (k None) ->
  (forall i s, found i = true -> core_inv None (inst_id i :: K) false s ->
     wp F (k (Some (inst_id i))) s (fun _ => core_inv None K false)) ->
  call_ok None K F (get_ref found k).
Proof.
  intros Hn Hk s I. apply wp_after. unfold wp at 1, core_lock. rewrite (i_lock false s I).
  change (set_hfi (with_locked true (vc_hfi s)) s) with (lock_core true s).
  pose proof (lock_inv false true s I) as I1. apply wp_looking.
  destruct (List.find found (vc_instances (lock_core true s))) as [i|] eqn:E.
  - apply wp_ask. intros a. apply wp_after, wp_upd.
    pose proof (lock_inv true false _ (inv_answers None K true _ (S (vc_answers (lock_core true s))) I1)) as I2.
    destruct (a =? 0); [exact (Hn _ I2)|]. apply find_some in E as [Hi Ef].
    apply Hk; [exact Ef|]. apply inv_know; [exact I2|]. rewrite Exists_app. left. rewrite Exists_exists.
    exists i. split; [now apply list_elem_of_In|done].
  - apply wp_after, wp_upd. exact (Hn _ (lock_inv true false _ I1)).
Qed.
Lemma held_ok id K m s : call_ok (Some id) (id :: K) F m -> core_inv None (id :: K) false s ->
  wp F (inst_holding id m) s (fun _ => core_inv None K false).
Proof.
  intros Hm I. eapply wp_mono; [exact (ok_holding F (id :: K) id (or_introl eq_refl) m Hm s I)|]. cbv beta.
  intros rc s'. apply inv_forget.
Qed.
Lemma client_ok id m : (forall K, In id K -> call_ok (Some id) K F m) -> free_ok (client_call id m).
Proof.
  intros Hm K. apply get_ref_ok; [apply ok_ret|]. intros i s Ef I. cbv beta in Ef. zb. subst id.
  apply held_ok; [apply Hm; now left|exact I].
Qed.
Lemma checked_ok id m : (forall K, In id K -> call_ok (Some id) K F m) -> free_ok (checked_call id m).
Proof.
  intros Hm. apply client_ok. intros K Hid. apply ok_reading; [done|]. intros i _.
  destruct (is_session_error i); [apply ok_ret|now apply Hm].
Qed.

Context (Hdr : forall K id, In id K -> driver_ok F (Some id) K id).
Context (Hrp : forall K id, In id K -> replies_ok F (Some id) K id).

Lemma ok_cmd id start : free_ok (msm_v4l2_cmd id start).
Proof.
  apply checked_ok. intros K Hid. apply ok_event; auto. intros n. apply ok_ret.
Qed.
Lemma ok_v4l2_streamon id ty : free_ok (msm_v4l2_streamon id ty).
Proof.
  apply checked_ok. intros K Hid. apply ok_fail_event; [done|]. apply ok_event; auto. intros n. apply ok_ret.
Qed.
Lemma ok_v4l2_streamoff id ty m : (forall n, free_ok (m n)) -> free_ok (msm_v4l2_streamoff id ty m).
Proof.
  intros Hm. apply client_ok. intros K Hid. apply ok_after; [|apply ok_ret]. apply ok_fail_event; [done|].
  apply ok_event; auto. intros n. apply Hm.
Qed.
Lemma ok_close K id m : In id K -> call_ok None K F m -> call_ok None K F (msm_vidc_close id m).
Proof.
  intros Hid Hm. apply ok_holding; [done|]. apply ok_after; [now apply ok_session_close|].
  apply ok_after; [apply (ok_change F (Some id) K id _ Hid), does_state|].
  apply ok_after; [|apply ok_ret]. apply ok_upd_session. intros i []. split; now split.
Qed.

(** *** Messages *)
Lemma load32_sized b : sized b -> bytes b -> exists v, load32 4 b = Done v.
Proof.
  intros Hb _. unfold load32, load. unfold sized in Hb. rewrite Hb. tests; try lia. eexists. reflexivity.
Qed.
Lemma ok_session_response b l : bytes b -> sized b -> message_packets b packet_size = Done l -> Forall (inside b) l ->
  free_ok (handle_session_response b).
Proof.
  intros Hb Hs El Hl K s I. unfold wp, handle_session_response. destruct (load32_sized b Hs Hb) as [sid ->].
  cbn [mbind exec_bind].
  match goal with |- match ?m ?t with _ => _ end => change (wp F m t (fun _ => core_inv None K false)) end.
  revert s I. apply get_ref_ok; [apply ok_ret|]. intros i s _ I. apply held_ok; [|exact I]. clear s I.
  assert (Hin : In (inst_id i) (inst_id i :: K)) by now left.
  intros s I. unfold wp. rewrite El. cbn [mbind exec_bind].
  match goal with |- match ?m ?t with _ => _ end => change (wp F m t (fun _ => core_inv (Some (inst_id i)) (inst_id i :: K) false)) end.
  revert s I. apply ok_after; [|apply (ok_session_message F _ _ _ Hin (Hrp _ _ Hin) b l); auto].
  destruct (existsb _ l); [exact (rp_init _ _ _ _ (Hrp _ _ Hin))|apply ok_ret].
Qed.
Lemma ok_message b : message_ok b -> free_ok (handle_response b).
Proof.
  intros (Hs & Hb & v & Ev & Hv) K s I. unfold wp, handle_response. rewrite Ev. cbn [mbind exec_bind].
  destruct (v =? 0) eqn:E0; cbn [negb]; [|exact (call_system_error None K F Hok Hdump Hbug None s I)]. zb.
  destruct (Hv E0) as (l & El & Hl). destruct (load32_sized b Hs Hb) as [sid ->]. cbn [mbind exec_bind].
  destruct (sid =? 0); [exact (ok_system_response F None K Hok Hdump Hbug b l El Hl s I)|].
  exact (ok_session_response b l Hb Hs El Hl K s I).
Qed.
End Calls.

(** ** Everything the driver does *)

(** The calls of VidcCoreInv.v, those of the clients, and the messages of the
    firmware; a call that waits is given what the others do meanwhile.  A
    client opens and closes only a session it has.  [RunStart] waits for the
    answer to a start of the core, and a stop of the core meanwhile is left
    out (it would break the invariant, vidc_deinit_while_waiting). *)
Inductive driver_call `{VidcPlatform} : Type :=
| RunCore (c : core_call)
| RunSequence (c1 c2 : driver_call)
| RunStart (meanwhile : nat -> driver_call)
| RunOpen (id : Z)
| RunCmd (id : Z) (start : bool)
| RunStreamon (id : Z) (type : v4l2_type)
| RunStreamoff (id : Z) (type : v4l2_type) (meanwhile : nat -> driver_call)
| RunClose (id : Z) (meanwhile : driver_call)
| RunMessage (b : list Z) (Hb : message_ok b).
Arguments RunMessage {_} b Hb.

(** A client's session, while it has one. *)
Definition existing (id : Z) (m : op) : op :=
  looking (session id) (fun i => match i with Some _ => m | None => ret 0 end).

Section Run.
Context `{VidcKernel} `{VidcConfig} `{VidcFirmware} `{VidcPlatform} `{VidcNeeds} `{VidcDriver} `{VidcReplies}.

Fixpoint run_driver (c : driver_call) : op :=
  match c with
  | RunCore c => run_calls (stop_but (fun _ => ret 0)) c
  | RunSequence c1 c2 => run_driver c1 ;! run_driver c2
  | RunStart meanwhile => msm_vidc_core_init_wait (fun n => run_driver (meanwhile n))
  | RunOpen id => existing id (msm_vidc_session_open id)
  | RunCmd id start => msm_v4l2_cmd id start
  | RunStreamon id ty => msm_v4l2_streamon id ty
  | RunStreamoff id ty meanwhile => msm_v4l2_streamoff id ty (fun n => run_driver (meanwhile n))
  | RunClose id meanwhile => existing id (msm_vidc_close id (run_driver meanwhile))
  | RunMessage b _ => handle_response b
  end.

Inductive driver_reachable : vidc_core -> Prop :=
| run_probe s0 s : core_allocated s0 -> probe_core s0 = Done (0, s) -> driver_reachable s
| run_step c s rc s' : driver_reachable s -> run_driver c s = Done (rc, s') -> driver_reachable s'.

Lemma ok_existing F K id m : (forall K, In id K -> call_ok None K F m) -> call_ok None K F (existing id m).
Proof.
  intros Hm s I. apply wp_looking. destruct (session id s) as [i|] eqn:E; [|now apply wp_ret].
  destruct (session_in id s i E) as [Hi Ei].
  eapply wp_mono; [apply (Hm (id :: K) (or_introl eq_refl))|cbv beta; intros rc s'; apply inv_forget].
  apply inv_know; [exact I|]. rewrite Exists_exists. eauto.
Qed.

Section Every.
Context (F : Prop) (Hok : F \/ platform_ok) (Hdump : F \/ fw_dump = false).
Context (Hbug : F \/ forall ty, bug_on ty = false) (Hinit : init_answers_ok).
Context (Hdr : forall K id, In id K -> driver_ok F (Some id) K id).
Context (Hrp : forall K id, In id K -> replies_ok F (Some id) K id).

Lemma every_driver_call c : free_ok F (run_driver c).
Proof.
  induction c as [c|c1 IH1 c2 IH2|m IH|id|id start|id ty|id ty m IH|id m IH|b Hb]; cbn [run_driver].
  - intros K. exact (every_call None K F Hok Hdump Hbug Hinit c eq_refl).
  - intros K. apply ok_after; [apply IH1|apply IH2].
  - intros K. apply call_wait; auto. intros n. apply IH.
  - intros K. apply ok_existing. intros K' Hid. now apply ok_session_open.
  - now apply ok_cmd.
  - now apply ok_v4l2_streamon.
  - now apply ok_v4l2_streamoff.
  - intros K. apply ok_existing. intros K' Hid. now apply ok_close.
  - now apply ok_message.
Qed.
End Every.

Lemma driver_reachable_inv (Hok : platform_ok) (Hdump : fw_dump = false) (Hbug : forall ty, bug_on ty = false)
  (Hinit : init_answers_ok) (Hdr : forall K id, In id K -> driver_ok False (Some id) K id)
  (Hrp : forall K id, In id K -> replies_ok False (Some id) K id) s :
  driver_reachable s -> core_inv None [] false s.
Proof.
  induction 1 as [s0 s Ha E|c s rc s' _ IH E]; [exact (probe_inv s0 s Ha E)|].
  pose proof (every_driver_call False (or_intror Hok) (or_intror Hdump) (or_intror Hbug) Hinit Hdr Hrp c [] s IH) as Hc.
  exact (wp_done False _ _ _ _ _ Hc E).
Qed.
End Run.
