(* ===== verification/VidcCoreThms.v ===== *)
(** The properties of the video core: its states, its failures, its resume
    and its power. *)
From S2P Require Import Prelude VidcQueue VidcMem VidcHfi VidcHfiInv VidcHfiThms VidcPacket.
From S2P Require Import VidcBuffer.
From S2P Require Import VidcSession VidcCore VidcPower VidcPowerSpec VidcVenus.
From S2P Require Import VidcResponse VidcBufSpec VidcSessionInv VidcVenusSpec VidcVenusInv VidcLifeSpec.
From S2P Require Import VidcCoreSpec VidcCoreInv.

(** ** The resume does not depend on its fuel *)
Section Fuel.
Context `{VidcKernel} `{VidcConfig} `{VidcFirmware} `{VidcPlatform}.

Lemma agree_bind m k1 k2 s :
  wp True m s (fun rc s' => k1 rc s' = k2 rc s') -> bind_op m k1 s = bind_op m k2 s.
Proof. unfold wp, bind_op. destruct (m s) as [[rc s']| |]; auto. Qed.
Lemma agree_then m k1 k2 s :
  wp True m s (fun rc s' => rc = 0 -> k1 s' = k2 s') -> (m ;? k1) s = (m ;? k2) s.
Proof.
  intros Hm. apply agree_bind. eapply wp_mono; [exact Hm|]. cbv beta. intros rc s' Hk.
  destruct (rc =? 0) eqn:E; zb; auto.
Qed.
Lemma agree_after m k1 k2 s : wp True m s (fun _ s' => k1 s' = k2 s') -> (m ;! k1) s = (m ;! k2) s.
Proof. apply agree_bind. Qed.
Lemma same_then m1 m2 k s : m1 s = m2 s -> (m1 ;? k) s = (m2 ;? k) s.
Proof. unfold and_then, bind_op. now intros ->. Qed.
Lemma same_after m1 m2 k s : m1 s = m2 s -> (m1 ;! k) s = (m2 ;! k) s.
Proof. unfold after, bind_op. now intros ->. Qed.
Lemma same_undo c m1 m2 s : m1 s = m2 s -> undo c m1 s = undo c m2 s.
Proof. unfold undo, bind_op. now intros ->. Qed.

Context (r1 r2 : op) (Hr1 : forall s, powered s = true -> r1 s = Done (0, s))
  (Hr2 : forall s, powered s = true -> r2 s = Done (0, s)).

Lemma write_same p s : powered s = true -> cmdq_write r1 p s = cmdq_write r2 p s.
Proof. intros Hp. unfold cmdq_write, cmdq_write_with. apply same_then. now rewrite Hr1, Hr2. Qed.
Lemma command_same f s : builds sized f -> live s -> powered s = true ->
  (build core_packet f ;? cmdq_write r1 core_packet) s = (build core_packet f ;? cmdq_write r2 core_packet) s.
Proof.
  intros Hf Hs Hp. apply agree_then. eapply wp_mono; [exact (build_core True f s Hs Hf)|]. cbv beta.
  intros rc s1 [(_ & Ep & _) _] _. apply write_same. congruence.
Qed.
Lemma debug_same v s : live s -> powered s = true -> sys_set_debug r1 v s = sys_set_debug r2 v s.
Proof. apply command_same, debug_builds. Qed.
Lemma control_same b s : live s -> powered s = true -> sys_set_power_control r1 b s = sys_set_power_control r2 b s.
Proof.
  intros Hs Hp. unfold sys_set_power_control, looking. destruct (negb _); [done|]. destruct (negb _); [done|].
  assert (Hassoc : forall m1 m2 m3 s, (m1 ;? m2 ;? m3) s = ((m1 ;? m2) ;? m3) s).
  { intros m1 m2 m3 t. unfold and_then, bind_op. destruct (m1 t) as [[rc t1]| |]; [|done..]. cbn.
    destruct (rc =? 0) eqn:E; [done|]. cbn. now rewrite E. }
  rewrite !Hassoc. apply same_then. now apply command_same; [apply collapse_builds|..].
Qed.
Lemma subcaches_same s : live s -> powered s = true -> set_subcaches_with r1 s = set_subcaches_with r2 s.
Proof.
  intros Hs Hp. unfold set_subcaches_with. destruct syscache_off; [done|]. unfold looking. destruct (vc_set_to_fw s); [done|].
  apply same_then, same_undo. now apply command_same; [apply subcache_builds|..].
Qed.

Lemma boot_same s : live s -> powered s = true -> in_valid_state s = true ->
  (fw_resume ;? undo fw_suspend (gdsc_hw_ctrl ;! __boot_firmware_iris2 ;? sys_set_debug r1 fw_log_level ;! llcc_enable true)) s =
  (fw_resume ;? undo fw_suspend (gdsc_hw_ctrl ;! __boot_firmware_iris2 ;? sys_set_debug r2 fw_log_level ;! llcc_enable true)) s.
Proof.
  intros Hs Hp Hv. assert (Hon : forall m, does True quiet_steps m -> forall k1 k2 s, st_live on_steps s ->
    (forall s, st_live on_steps s -> k1 s = k2 s) -> (m ;? k1) s = (m ;? k2) s /\ (m ;! k1) s = (m ;! k2) s).
  { intros m Hm k1 k2 t Ht Hk.
    assert (Hw : wp True m t (fun _ s' => k1 s' = k2 s')).
    { eapply wp_mono; [exact (quiet_on True m Hm t Ht)|]. intros rc s'. cbv beta. intros A. apply Hk, (st_keeps on_steps _ _ Ht A). }
    split; [|exact (agree_after m k1 k2 t Hw)]. apply agree_then. eapply wp_mono; [exact Hw|]. auto. }
  apply (Hon _ (quiet_fw_resume True)); [done|]. clear s Hs Hp Hv. intros s Hs. apply same_undo.
  assert (Hok : True \/ platform_ok) by now left.
  apply (Hon _ (hw_does_quiet True _ (does_hand_offs True Hok))); [done|]. clear s Hs. intros s Hs.
  apply (Hon _ (hw_does_quiet True _ (does_boot True))); [done|]. clear s Hs. intros s (Hs & Hp & _).
  apply same_after. now apply debug_same.
Qed.
Lemma settings_same s : st_live on_steps s ->
  (set_subcaches_with r1 ;! undo gdsc_sw_ctrl (sys_set_power_control r1 true) ;! ret 0) s =
  (set_subcaches_with r2 ;! undo gdsc_sw_ctrl (sys_set_power_control r2 true) ;! ret 0) s.
Proof.
  intros Hs. assert (Hok : True \/ platform_ok) by now left.
  transitivity ((set_subcaches_with r1 ;! undo gdsc_sw_ctrl (sys_set_power_control r2 true) ;! ret 0) s).
  - apply agree_after. eapply wp_mono; [exact (on_set_subcaches True r1 Hr1 s Hs)|]. cbv beta. intros rc s1 A.
    destruct (st_keeps on_steps _ _ Hs A) as (L1 & P1 & _). apply same_after, same_undo. now apply control_same.
  - apply same_after. destruct Hs as (Ls & Ps & _). now apply subcaches_same.
Qed.

Lemma resume_same s : live s -> resume_step r1 s = resume_step r2 s.
Proof.
  intros Hs. unfold resume_step, looking at 1 3. destruct (powered s); [done|].
  unfold looking. destruct (core_in_valid_state (vc_hfi s)) eqn:Hv; cbn [negb]; [|done].
  change (in_valid_state s = true) in Hv. assert (Hok : True \/ platform_ok) by now left.
  assert (Hquiet : forall m k1 k2, does True quiet_steps m ->
    (forall s, live s -> in_valid_state s = true -> k1 s = k2 s) ->
    forall s, live s -> in_valid_state s = true -> (m ;? k1) s = (m ;? k2) s).
  { intros m k1 k2 Hm Hk t Lt Vt. apply agree_then. eapply wp_mono; [exact (Hm t Lt)|]. cbv beta. intros rc s1 A _.
    destruct (cmd_view_valid _ _ (proj1 (proj1 A))) as (Ev & _).
    apply Hk; [exact (st_keeps quiet_steps _ _ Lt A)|congruence]. }
  revert s Hs Hv. apply Hquiet; [apply quiet_strict_check|].
  apply Hquiet; [apply quiet_change_sub; unfold CORE_SUBSTATE_GDSC_HANDOFF; (lia || reflexivity)|].
  apply Hquiet; [apply quiet_change_sub; unfold CORE_SUBSTATE_FW_PWR_CTRL; (lia || reflexivity)|].
  intros s Hs Hv. apply agree_then. eapply wp_mono; [exact (venus_power_on True Hok s (proj1 Hs))|]. cbv beta.
  intros rc s1 (A & Ek & Ep) ->. pose proof (live_kept _ _ Hs A) as L1.
  destruct (cmd_view_valid _ _ (proj1 A)) as (Ev & _). rewrite Hv in Ev.
  assert (O1 : st_live on_steps s1) by (split; [exact L1|now split]).
  transitivity ((undo __venus_power_off (fw_resume ;? undo fw_suspend (gdsc_hw_ctrl ;! __boot_firmware_iris2 ;?
    sys_set_debug r1 fw_log_level ;! llcc_enable true)) ;?
    set_subcaches_with r2 ;! undo gdsc_sw_ctrl (sys_set_power_control r2 true) ;! ret 0) s1).
  - apply agree_then, wp_undo. eapply wp_mono; [exact (on_boot True Hok r1 Hr1 s1 O1)|]. cbv beta. intros rc s2 A2.
    destruct (rc =? 0) eqn:E; [intros _; exact (settings_same s2 (st_keeps on_steps _ _ O1 A2))|].
    zb. eapply wp_mono; [exact (venus_power_off True Hok s2 (proj1 (proj1 (st_keeps on_steps _ _ O1 A2))))|].
    cbv beta. intros; contradiction.
  - apply same_then, same_undo. now apply boot_same.
Qed.
End Fuel.

(** ** Messages for the core *)
Section Messages.
Context `{VidcKernel} `{VidcConfig} `{VidcFirmware} `{VidcPlatform} `{VidcSessions}.

(** A packet that reports a system error, by its flags or by its type. *)
Definition reports_error (pkt : hfi_packet) : bool :=
  negb (Z.land (hp_flags pkt) HFI_FW_FLAGS_SYSTEM_ERROR =? 0)
  || is_in_range (HFI_SYSTEM_ERROR_BEGIN, HFI_SYSTEM_ERROR_END) (hp_type pkt).
Definition is_property (e : Z * hfi_packet) : bool := is_in_range (HFI_PROP_BEGIN, HFI_PROP_END) (hp_type (snd e)).
Definition is_command (e : Z * hfi_packet) : bool := is_in_range (HFI_CMD_BEGIN, HFI_CMD_END) (hp_type (snd e)).
(** One after the other, up to the first that fails. *)
Fixpoint run_all (ms : list op) : op :=
  match ms with
  | [] => ret 0
  | m :: ms => m ;? run_all ms
  end.

Lemma bind_ret m s : bind_op m ret s = m s.
Proof. unfold bind_op. now destruct (m s) as [[rc s']| |]. Qed.
Lemma run_all_app ms ms' s : run_all (ms ++ ms') s = (run_all ms ;? run_all ms') s.
Proof.
  revert s. induction ms as [|m ms IH]; intros s; [reflexivity|]. cbn [run_all app].
  unfold and_then in *. unfold bind_op in *. destruct (m s) as [[rc s']| |]; [|done..]. cbn.
  destruct (rc =? 0) eqn:E; [apply IH|]. cbn. now rewrite E.
Qed.

(** The first range looks for errors only. *)
Lemma errors_first b l next s :
  handle_range b true (HFI_SYSTEM_ERROR_BEGIN, HFI_SYSTEM_ERROR_END)
    (fun _ _ pkt => handle_system_error (Some (hp_type pkt))) l 0 next s =
  match List.find (fun e => reports_error (snd e)) l with
  | Some (_, pkt) => handle_system_error (Some (hp_type pkt)) s
  | None => next 0 s
  end.
Proof.
  induction l as [|[p pkt] l IH]; [reflexivity|]. cbn [handle_range List.find snd]. unfold reports_error at 1.
  destruct (negb _); [reflexivity|]. cbn [orb]. destruct (is_in_range _ _); [|exact IH].
  rewrite <- (bind_ret (handle_system_error _) s). unfold bind_op.
  destruct (handle_system_error _ s) as [[rc s']| |]; [|done..]. cbn. now destruct (negb _).
Qed.
Lemma range_run b range handle l next s :
  List.find (fun e => reports_error (snd e)) l = None ->
  handle_range b false range handle l 0 next s =
  (run_all (map (fun e => handle b (fst e) (snd e)) (List.filter (fun e => is_in_range range (hp_type (snd e))) l)) ;? next 0) s.
Proof.
  revert s. induction l as [|[p pkt] l IH]; intros s Hl; [reflexivity|]. cbn [handle_range List.filter snd].
  cbn [List.find snd] in Hl. destruct (reports_error pkt) eqn:Er; [done|]. unfold reports_error in Er.
  apply orb_false_iff in Er as [-> _]. destruct (is_in_range range (hp_type pkt)); [|now apply IH].
  cbn [map run_all fst snd]. unfold and_then at 1 2, bind_op. destruct (handle b p pkt s) as [[rc s']| |]; [|done..].
  cbn. destruct (rc =? 0) eqn:E; cbn [negb]; zb; [|cbn; apply Z.eqb_neq in E; now rewrite E].
  subst rc. now apply IH.
Qed.
End Messages.

(** ** Running an operation step by step *)
Lemma then_done m k s s' : m s = Done (0, s') -> (m ;? k) s = k s'.
Proof. unfold and_then, bind_op. now intros ->. Qed.
Lemma then_failed m k s rc s' : m s = Done (rc, s') -> rc <> 0 -> (m ;? k) s = Done (rc, s').
Proof. unfold and_then, bind_op. intros -> Hrc. cbn. apply Z.eqb_neq in Hrc. now rewrite Hrc. Qed.
Lemma undo_failed c m s s' rc rc' s'' : m s = Done (rc, s') -> rc <> 0 -> c s' = Done (rc', s'') ->
  undo c m s = Done (rc, s'').
Proof.
  unfold undo, after, bind_op. intros -> Hrc E. apply Z.eqb_neq in Hrc. cbn. rewrite Hrc. now rewrite E.
Qed.

Lemma agree_seq m k1 k2 s : (forall s', k1 s' = k2 s') -> (m ;? k1) s = (m ;? k2) s.
Proof.
  intros Hk. unfold and_then, bind_op. destruct (m s) as [[rc s']| |]; [|done..]. cbn. destruct (rc =? 0); auto.
Qed.
Lemma then_ret m s : (m ;? ret 0) s = m s.
Proof.
  unfold and_then, bind_op. destruct (m s) as [[rc s']| |]; [|done..]. cbn. destruct (rc =? 0) eqn:E; zb; [|done].
  now subst rc.
Qed.

(** ** Properties *)
Section Properties.
Context `{VidcKernel} `{VidcConfig} `{VidcFirmware} `{VidcPlatform}.


(** C5: a system error of the firmware in a running core ends it: the
    handler returns with the core in DEINIT, unlocked, without firmware and
    power, its sessions in their error states and taken from it.  What it
    does not undo is the note that the firmware has the system caches: after
    any error but that of the bus the note is as before, and while it stands
    the next start does not tell its firmware about them. *)
Theorem vidc_system_error_recovers pkt s :
  platform_ok -> fw_dump = false -> (forall ty, bug_on ty = false) ->
  core_inv None [] false s -> core_state (vc_hfi s) <> MSM_VIDC_CORE_DEINIT ->
  exists s', handle_system_error pkt s = Done (0, s') /\
    core_state (vc_hfi s') = MSM_VIDC_CORE_DEINIT /\ core_locked (vc_hfi s') = false /\
    vc_fw_cookie s' = 0 /\ powered s' = false /\ irq_balance s' = 0 /\ vc_instances s' = [] /\
    vc_dangling s' = vc_dangling s ++ map (fun i => snd (msm_vidc_change_state MSM_VIDC_ERROR i)) (vc_instances s) /\
    (pkt <> Some HFI_SYS_ERROR_NOC -> vc_set_to_fw s' = vc_set_to_fw s) /\
    (vc_set_to_fw s' = true -> syscache_off = false -> __set_subcaches s' = Done (0, s')).
Proof.
  intros Hok Hdump Hbug I Hst.
  assert (Hw : wp False (handle_system_error pkt) s (fun rc s' => rc = 0 /\ exists s1, recovered s s1 /\
    s' = lock_core false s1 /\ (pkt <> Some HFI_SYS_ERROR_NOC -> vc_set_to_fw s' = vc_set_to_fw s))).
  { exact (system_error_ok None [] False (or_intror Hok) (or_intror Hdump) (or_intror Hbug) pkt s I Hst). }
  unfold wp in Hw. destruct (handle_system_error pkt s) as [[rc s']| |]; [|destruct Hw..].
  destruct Hw as (-> & s1 & [] & -> & Hset). exists (lock_core false s1). split; [reflexivity|].
  split; [assumption|]. split; [reflexivity|]. do 2 (split; [assumption|]).
  split; [exact (eq_trans re_irq (i_irq _ _ I))|]. do 2 (split; [assumption|]). split; [exact Hset|].
  intros E Hoff. unfold __set_subcaches, set_subcaches_with, looking. now rewrite Hoff, E.
Qed.

(** C6: bringing the core back from a power collapse: a command sent on
    the way resumes the core again, but never more than once, so that two
    levels are enough; it returns 0 only with the power on, leaves the state,
    the interrupt line's balance and a message waiting in the buffer of the
    core alone, and refuses without any effect outside INIT and INIT_WAIT. *)
Theorem vidc_resume_correct n s :
  platform_ok -> live s ->
  resume_fuel (S (S n)) s = __resume s /\
  exists rc s', __resume s = Done (rc, s') /\ (rc = 0 -> powered s' = true) /\
    core_state (vc_hfi s') = core_state (vc_hfi s) /\ irq_balance s' = irq_balance s /\
    (message_buffer (vc_packet s) -> message_buffer (vc_packet s')) /\
    (powered s = false -> in_valid_state s = false -> rc = - EINVAL /\ s' = s).
Proof.
  intros Hok Hs. split.
  { change (resume_step (resume_fuel (S n)) s = resume_step (resume_fuel 1) s).
    exact (resume_same (resume_fuel (S n)) (resume_fuel 1) (resume_powered n) (resume_powered 0) s Hs). }
  pose proof (resume_ok False (or_intror Hok) 0 s Hs) as Hw. change (resume_fuel 2) with __resume in Hw. unfold wp in Hw.
  destruct (__resume s) as [[rc s']| |] eqn:E; [|destruct Hw..]. destruct Hw as ((V & _) & M & P).
  exists rc, s'. split; [done|]. split; [exact P|]. injection V as E1 _ _ _ _ _ _ _ _ _ _ _ _ E2.
  do 3 (split; [assumption|]). intros Hp Hv. rewrite (resume_refused s Hp Hv) in E. now injection E as <- <-.
Qed.

(** C7: switching the power of the core: on returns 0 exactly when the
    power is on afterwards, off leaves it off whatever fails on the way, and
    both enable and disable the interrupt line along with it; neither touches
    the queues, the state or the packet. *)
Theorem vidc_power_switch_correct s :
  platform_ok -> locked_core s ->
  (exists rc s', __venus_power_on s = Done (rc, s') /\ powered s' = (rc =? 0) /\
     irq_balance s' = irq_balance s /\ vc_packet s' = vc_packet s /\ queue_view (vc_hfi s') = queue_view (vc_hfi s)) /\
  (exists rc s', __venus_power_off s = Done (rc, s') /\ powered s' = false /\
     irq_balance s' = irq_balance s /\ vc_packet s' = vc_packet s /\ queue_view (vc_hfi s') = queue_view (vc_hfi s)).
Proof.
  intros Hok Hs. split.
  - pose proof (venus_power_on False (or_intror Hok) s Hs) as Hw. unfold wp in Hw.
    destruct (__venus_power_on s) as [[rc s']| |]; [|destruct Hw..]. destruct Hw as ((V & _) & Ek & Ep).
    exists rc, s'. unfold cmd_view in V. injection V as V1 V2 V3 V4 V5 V6 V7 V8 V9 V10 V11 V12 V13 V14.
    split; [done|]. split; [done|]. split; [done|]. split; [done|]. unfold queue_view. congruence.
  - pose proof (venus_power_off False (or_intror Hok) s Hs) as Hw. unfold wp in Hw.
    destruct (__venus_power_off s) as [[rc s']| |]; [|destruct Hw..]. destruct Hw as ((V & _) & Ek & Ep).
    exists rc, s'. unfold cmd_view in V. injection V as V1 V2 V3 V4 V5 V6 V7 V8 V9 V10 V11 V12 V13 V14.
    split; [done|]. split; [done|]. split; [done|]. split; [done|]. unfold queue_view. congruence.
Qed.

(** When the hardware part of a power on fails behind a
    controller part that succeeded, the controller is meant to be switched off
    again, but is not: its first register write is refused because the power
    is not yet marked as on, and regulator and clocks stay as they are. *)
Theorem vidc_power_on_leak s s1 s2 rc :
  locked_core s -> powered s = false ->
  __power_on_iris2_controller s = Done (0, s1) -> __power_on_iris2_hardware s1 = Done (rc, s2) -> rc <> 0 ->
  (__power_on_iris2_controller ;?
   undo __power_off_iris2_controller
     (__power_on_iris2_hardware ;?
      undo __power_off_iris2_hardware (msm_vidc_change_core_sub_state 0 CORE_SUBSTATE_POWER_ENABLE))) s =
  Done (rc, s2).
Proof.
  intros Hs Hp E1 E2 Hrc. assert (Hok : True \/ platform_ok) by now left.
  pose proof (wp_done True _ _ _ _ _ (does_on_controller True Hok s Hs) E1) as A1. cbv beta in A1.
  pose proof (wp_done True _ _ _ _ _ (does_on_hardware True Hok s1 (hw_locked _ _ Hs A1)) E2) as A2. cbv beta in A2.
  pose proof (hw_trans _ _ _ A1 A2) as A. destruct (hw_locked _ _ Hs A) as [Hl _].
  pose proof (hw_only_powered _ _ A) as Hp2. rewrite Hp in Hp2.
  rewrite (then_done _ _ _ _ E1). apply (undo_failed _ _ s1 s2 rc (- EINVAL) s2); [now apply then_failed|done|].
  unfold __power_off_iris2_controller. apply then_failed; [|done].
  unfold __write_register, strict_check, looking, and_then, bind_op, __strict_check. rewrite Hl. cbn. now rewrite Hp2.
Qed.

(** C9: a stop of the core while the answer to its start is waited
    for returns 0 and takes firmware and power away, but the core stays in
    INIT_WAIT, as if it were still starting: what holds of the core between
    calls no longer does. *)
Theorem vidc_deinit_while_waiting s :
  platform_ok -> fw_dump = false -> core_inv None [] false s -> core_state (vc_hfi s) = MSM_VIDC_CORE_INIT_WAIT ->
  exists s', msm_vidc_core_deinit true s = Done (0, s') /\
    core_state (vc_hfi s') = MSM_VIDC_CORE_INIT_WAIT /\ vc_fw_cookie s' = 0 /\ powered s' = false /\
    ~ core_inv None [] false s'.
Proof.
  intros Hok Hdump I Hst.
  assert (Hw : wp False (msm_vidc_core_deinit true) s (fun rc s' => rc = 0 /\
    core_state (vc_hfi s') = MSM_VIDC_CORE_INIT_WAIT /\ vc_fw_cookie s' = 0 /\ powered s' = false)).
  { exact (waiting_stopped None [] False (or_intror Hok) (or_intror Hdump) s I Hst). }
  unfold wp in Hw. destruct (msm_vidc_core_deinit true s) as [[rc s']| |]; [|destruct Hw..].
  destruct Hw as (-> & Es & Ec & Ep). exists s'. do 4 (split; [done|]). intros I'.
  apply (i_fw _ _ I'); [rewrite Es; discriminate|exact Ec].
Qed.
End Properties.

Section MessageProperties.
Context `{VidcKernel} `{VidcConfig} `{VidcFirmware} `{VidcPlatform} `{VidcSessions}.

(** C8: of a message for the core the first packet that reports a
    system error is handled, and nothing else of it; without one all
    properties are handled, then all commands, each in their order, up to the
    first that fails. *)
Theorem vidc_system_response_correct b l s :
  message_packets b packet_size = Done l ->
  handle_system_response b s =
  match List.find (fun e => reports_error (snd e)) l with
  | Some (_, pkt) => handle_system_error (Some (hp_type pkt)) s
  | None =>
      run_all (map (fun e => handle_system_property b (fst e) (snd e)) (List.filter is_property l) ++
               map (fun e => handle_system_init (snd e)) (List.filter is_command l)) s
  end.
Proof.
  intros Hl. unfold handle_system_response, system_ranges. rewrite Hl. cbn [mbind exec_bind handle_ranges].
  rewrite errors_first. destruct (List.find _ l) as [[p pkt]|] eqn:Ef; [reflexivity|].
  rewrite (range_run b _ handle_system_property l _ s Ef), run_all_app. apply agree_seq. intros s'.
  cbn [handle_ranges]. rewrite (range_run b _ (fun _ _ pkt => handle_system_init pkt) l _ s' Ef). apply then_ret.
Qed.
End MessageProperties.

(** ** Instances *)

(** A kernel that grants everything, except the regulator [bad]. *)
Definition demo_kernel (bad : string) : VidcKernel :=
  {| answer := fun _ q =>
       match q with
       | QRegulatorEnable n => if String.eqb n bad then - EINVAL else 0
       | QRegulatorIsEnabled _ | QClockIsEnabled _ | QAlloc | QWorkqueue | QMemoryRegion | QRemap | QFirmwareSize => 1
       | QClockLowRate _ => 720000000
       | QRead _ => 1
       | _ => 0
       end |}.
#[local] Instance demo_config : VidcConfig :=
  {| num_vpp_pipe := 2; syscache_off := false; freq_tbl := [240000000]; reg_prst_tbl := [(0xB0088, 0, 0x33)];
     iface_q_table_vaddr := 0x7f0000000000 |}.
#[local] Instance demo_firmware : VidcFirmware :=
  {| sw_pc := true; non_fatal_faults := true; hw_response_timeout := 1000; max_session_count := 16;
     fw_log_level := 0; fw_dump := false; bug_on := fun _ => false;
     hfi_conf := {| ubwc := {| max_channels := 8; mal_length := 32; highest_bank_bit := 16; bank_swzl_level := 0;
                               bank_swz2_level := 1; bank_swz3_level := 1; bank_spreading := 1 |};
                    supports_synx := false; synx_client_id := 0; synx_client_flags := 0 |};
     pas_id := 9; fw_region_size := 0x500000;
     init_answer := fun _ => demo_answers (granted 783360 0x40000000) (granted 1024 0x50000000) |}.
#[local] Existing Instance VidcHfiThms.demo_platform.
#[local] Instance demo_sessions : VidcSessions := {| session_response := fun _ => ret 0 |}.

(** A core of zeros but for its resources; it is told its state, its handler,
    its packet, its firmware, whether the lock is held, how often the
    interrupt line is disabled. *)
Definition demo_core (st : msm_vidc_core_state) (h : option core_state_handle) (pkt : list Z) (cookie : Z)
    (lock : bool) (depth : Z) : vidc_core :=
  {| vc_hfi := with_locked lock (with_state st new_core); vc_state_handle := h; vc_sub_state := 0;
     vc_ids := {| header_id := 0; packet_id := 0; sys_init_id := 0 |}; vc_packet := pkt; vc_skip_pc := 0;
     vc_pm_work := false; vc_fw_cookie := cookie; vc_intr_status := 0;
     vc_power := {| bw_ddr := 0; bw_llcc := 0; clk_freq := 0 |};
     vc_regulators := [{| rg_name := "iris-ctl"; rg_hw_power_collapse := false; rg_enabled := 0; rg_fast := false |};
                       {| rg_name := "vcodec"; rg_hw_power_collapse := true; rg_enabled := 0; rg_fast := false |}];
     vc_clocks := [{| ck_name := "gcc_video_axi0_clk"; ck_has_scaling := false; ck_prev := 0; ck_enabled := 0 |};
                   {| ck_name := "video_cc_mvs0c_clk"; ck_has_scaling := false; ck_prev := 0; ck_enabled := 0 |};
                   {| ck_name := "video_cc_mvs0_clk"; ck_has_scaling := true; ck_prev := 0; ck_enabled := 0 |}];
     vc_resets := [{| rs_name := "video_axi_reset"; rs_exclusive_release := false; rs_asserted := false; rs_acquired := false |}];
     vc_buses := [{| bus_name := "venus-ddr"; min_kbps := 1000; max_kbps := 15000000; voted_kbps := 0 |}];
     vc_subcaches := [{| sc_slice_id := 2; sc_slice_size := 4096; sc_isactive := false |}]; vc_set_to_fw := true;
     vc_irq_depth := depth; vc_tz := {| tz_loaded := false; tz_running := false; fw_images := 0 |};
     vc_instances := []; vc_dangling := []; vc_fw_version := []; vc_writes := []; vc_answers := 0 |}.

Lemma demo_platform_ok bad : @platform_ok (demo_kernel bad) demo_config.
Proof. split; [|discriminate]. intros n name. exists 0%nat. split; [lia|reflexivity]. Qed.
Lemma demo_init_ok : init_answers_ok.
Proof.
  split; [exact demo_bank|]. intros n. split; [apply demo_answers_ok; left|]. repeat split; intros [].
Qed.
Lemma demo_fresh st lock : core_fresh (with_locked lock (with_state st new_core)).
Proof. destruct new_core_fresh. split; auto. Qed.
(** Without power the interrupt line is disabled once. *)
Lemma demo_inv st pkt cookie : st <> MSM_VIDC_CORE_ERROR -> sized pkt ->
  (st = MSM_VIDC_CORE_DEINIT -> cookie = 0) -> (st <> MSM_VIDC_CORE_DEINIT -> cookie <> 0) ->
  core_inv None [] false (demo_core st (Some (handle_of st)) pkt cookie false 1).
Proof.
  intros Hst Hp Hd Hc. split; auto; try reflexivity.
  - left. apply demo_fresh.
  - cbn. unfold VIDC_MAX_PC_SKIP_COUNT. lia.
  - apply sessions_none.
Qed.
#[local] Instance good_kernel : VidcKernel := demo_kernel "".
Lemma good_platform : platform_ok.
Proof. exact (demo_platform_ok ""). Qed.
Lemma no_dump : fw_dump = false.
Proof. reflexivity. Qed.
Lemma no_bug ty : bug_on ty = false.
Proof. reflexivity. Qed.
Lemma demo_live st h pkt cookie depth : sized pkt -> live (demo_core st (Some h) pkt cookie true depth).
Proof.
  intros Hp. split; [split; [reflexivity|eexists; reflexivity]|]. split; [left; apply demo_fresh|exact Hp].
Qed.


(** A watchdog error of a running core. *)
Lemma vidc_system_error_recovers_witness :
  exists s', handle_system_error (Some HFI_SYS_ERROR_WD_TIMEOUT)
    (demo_core MSM_VIDC_CORE_INIT (Some msm_vidc_core_init_state) (replicate 4096 0) 9 false 1) = Done (0, s') /\
    core_state (vc_hfi s') = MSM_VIDC_CORE_DEINIT /\ vc_set_to_fw s' = true.
Proof.
  destruct (vidc_system_error_recovers (Some HFI_SYS_ERROR_WD_TIMEOUT)
    (demo_core MSM_VIDC_CORE_INIT (Some msm_vidc_core_init_state) (replicate 4096 0) 9 false 1)
    good_platform no_dump no_bug
    (demo_inv MSM_VIDC_CORE_INIT _ 9 ltac:(discriminate) zero_packet ltac:(discriminate) ltac:(discriminate)) ltac:(discriminate))
    as (s' & E & Es & _ & _ & _ & _ & _ & _ & Hset & _).
  exists s'. split; [exact E|]. split; [exact Es|]. apply Hset. discriminate.
Defined.

(** A core in INIT without power, and one in DEINIT. *)
Lemma vidc_resume_correct_witness :
  (exists rc s', __resume (demo_core MSM_VIDC_CORE_INIT (Some msm_vidc_core_init_state)
     (replicate 4096 0) 9 true 1) = Done (rc, s') /\ irq_balance s' = 0) /\
  resume_fuel 7 (demo_core MSM_VIDC_CORE_DEINIT (Some msm_vidc_core_deinit_state)
     (replicate 4096 0) 0 true 1) =
  Done (- EINVAL, demo_core MSM_VIDC_CORE_DEINIT (Some msm_vidc_core_deinit_state) (replicate 4096 0) 0 true 1).
Proof.
  split.
  - destruct (vidc_resume_correct 0 _ good_platform
      (demo_live MSM_VIDC_CORE_INIT msm_vidc_core_init_state _ 9 1 zero_packet)) as (_ & rc & s' & E & _ & _ & Eb & _).
    exists rc, s'. split; [exact E|exact Eb].
  - destruct (vidc_resume_correct 5 _ good_platform
      (demo_live MSM_VIDC_CORE_DEINIT msm_vidc_core_deinit_state _ 0 1 zero_packet)) as (Ef & rc & s' & E & _ & _ & _ & _ & Hr).
    destruct (Hr eq_refl eq_refl) as [-> ->]. exact (eq_trans Ef E).
Defined.

Lemma vidc_power_switch_correct_witness :
  exists rc s', __venus_power_on (demo_core MSM_VIDC_CORE_INIT (Some msm_vidc_core_init_state)
    [] 9 true 1) = Done (rc, s') /\ powered s' = (rc =? 0).
Proof.
  destruct (vidc_power_switch_correct (demo_core MSM_VIDC_CORE_INIT
    (Some msm_vidc_core_init_state) [] 9 true 1) good_platform
    (conj eq_refl (ex_intro _ _ eq_refl))) as ((rc & s' & E & Ep & _) & _).
  exists rc, s'. split; [exact E|exact Ep].
Defined.

Lemma vidc_deinit_while_waiting_witness :
  exists s', msm_vidc_core_deinit true
    (demo_core MSM_VIDC_CORE_INIT_WAIT (Some msm_vidc_core_init_wait_state) (replicate 4096 0) 9 false 1) = Done (0, s') /\
    core_state (vc_hfi s') = MSM_VIDC_CORE_INIT_WAIT /\ vc_fw_cookie s' = 0.
Proof.
  destruct (vidc_deinit_while_waiting
    (demo_core MSM_VIDC_CORE_INIT_WAIT (Some msm_vidc_core_init_wait_state) (replicate 4096 0) 9 false 1)
    good_platform no_dump
    (demo_inv MSM_VIDC_CORE_INIT_WAIT _ 9 ltac:(discriminate) zero_packet ltac:(discriminate) ltac:(discriminate)) eq_refl)
    as (s' & E & Es & Ec & _).
  exists s'. split; [exact E|]. split; [exact Es|exact Ec].
Defined.

(** A property behind a fatal error: the error alone is handled. *)
Definition fatal_message : list Z :=
  concat (map le32 ([96; 0; 1; 0; 0; 0; 0; 2] ++ [32; HFI_PROP_IMAGE_VERSION; 0; 0; 0; 1; 0; 0] ++
                    [32; HFI_SYS_ERROR_FATAL; 0; 0; 0; 2; 0; 0])).
Lemma vidc_system_response_correct_witness :
  let s := demo_core MSM_VIDC_CORE_INIT (Some msm_vidc_core_init_state) [] 9 false 1 in
  handle_system_response fatal_message s =
  handle_system_error (Some HFI_SYS_ERROR_FATAL) s.
Proof.
  intros s. destruct (message_packets fatal_message packet_size) as [l| |] eqn:E; [|vm_compute in E; discriminate..].
  pose proof (vidc_system_response_correct fatal_message l s E) as Hr.
  vm_compute in E. injection E as <-. exact Hr.
Defined.

(** Without the regulator "vcodec" the regulator "iris-ctl" stays on. *)
Definition leak_core : vidc_core := demo_core MSM_VIDC_CORE_INIT (Some msm_vidc_core_init_state) [] 9 true 1.
Lemma leak_off : powered leak_core = false.
Proof. reflexivity. Qed.
Lemma leak_locked : locked_core leak_core.
Proof. split; [reflexivity|eexists; reflexivity]. Qed.
#[local] Instance leak_kernel : VidcKernel := demo_kernel "vcodec".
Lemma vidc_power_on_leak_witness :
  exists s', (__power_on_iris2_controller ;?
   undo __power_off_iris2_controller
     (__power_on_iris2_hardware ;?
      undo __power_off_iris2_hardware (msm_vidc_change_core_sub_state 0 CORE_SUBSTATE_POWER_ENABLE))) leak_core =
    Done (- EINVAL, s') /\
    map rg_enabled (vc_regulators s') = [1; 0] /\ map ck_enabled (vc_clocks s') = [1; 1; 0].
Proof.
  assert (E1 : exists s1 s2, __power_on_iris2_controller leak_core = Done (0, s1) /\
    __power_on_iris2_hardware s1 = Done (- EINVAL, s2) /\
    map rg_enabled (vc_regulators s2) = [1; 0] /\ map ck_enabled (vc_clocks s2) = [1; 1; 0]).
  { do 2 eexists. split; [vm_compute; reflexivity|]. split; [vm_compute; reflexivity|]. split; reflexivity. }
  destruct E1 as (s1 & s2 & E1 & E2 & Er). exists s2. split; [|exact Er].
  exact (vidc_power_on_leak leak_core s1 s2 (- EINVAL) leak_locked leak_off E1 E2 ltac:(discriminate)).
Defined.
