(* ===== verification/VidcSessionThms.v ===== *)
(** The properties of the sessions of the video driver: everything the driver
    does, the states and flags of a session, draining, messages for a session,
    the end of one that failed, packets kept back, and the clock. *)
From S2P Require Import Prelude VidcQueue VidcMem VidcHfi VidcHfiInv VidcHfiThms VidcPacket VidcPacketSpec.
From S2P Require Import VidcBuffer VidcPacketThms VidcSession VidcCore VidcPower VidcPowerSpec.
From S2P Require Import VidcVenus VidcCmds VidcScale VidcFlow VidcResponse VidcReply VidcBufSpec.
From S2P Require Import VidcSessionInv VidcVenusSpec VidcVenusInv VidcLifeSpec VidcCoreSpec VidcCoreInv.
From S2P Require Import VidcFlowInv VidcDriverInv VidcCoreThms.
From Stdlib Require Import Sorting.Sorted.

(** ** Changes of a session *)

(** What changes the state of a session: starting and stopping its ports, the
    flags the driver's sequences change, and what the firmware reports. *)
Inductive session_change : Type :=
| ChState (st : msm_vidc_state)
| ChFlags (clear set : Z)
| ChStreamon (port : msm_vidc_port_type)
| ChStreamoff (port : msm_vidc_port_type)
| ChInputPsc
| ChError
| ChInfo (type : Z)
| ChStop (pkt : hfi_packet)
| ChClose
| ChDrain.
Definition apply_change (c : session_change) : msm_vidc_inst -> Z * msm_vidc_inst :=
  match c with
  | ChState st => msm_vidc_change_state st
  | ChFlags clear set => msm_vidc_change_sub_state clear set
  | ChStreamon port => msm_vidc_state_change_streamon port
  | ChStreamoff port => msm_vidc_state_change_streamoff port
  | ChInputPsc => msm_vidc_state_change_input_psc
  | ChError => handle_session_error
  | ChInfo ty => handle_session_info ty
  | ChStop pkt => handle_session_stop pkt
  | ChClose => handle_session_close
  | ChDrain => handle_session_drain
  end.
(** The session before, between and after some changes. *)
Fixpoint changes (cs : list session_change) (i : msm_vidc_inst) : list msm_vidc_inst :=
  i :: match cs with [] => [] | c :: cs => changes cs (snd (apply_change c i)) end.

(** One move of the state, or none. *)
Definition moves (st st' : msm_vidc_state) : Prop := st' = st \/ may_follow st st' = true.
Definition state_moves (f : msm_vidc_inst -> msm_vidc_inst) : Prop :=
  forall i, moves (inst_state i) (inst_state (f i)).

Lemma moves_state st : state_moves (fun i => snd (msm_vidc_change_state st i)).
Proof.
  intros i. rewrite change_state_cases. destruct (may_follow _ st) eqn:E; [now right|now left].
Qed.
Lemma sub_state_same clear set i : inst_state (snd (msm_vidc_change_sub_state clear set i)) = inst_state i.
Proof.
  unfold msm_vidc_change_sub_state. destruct (is_session_error i); [done|]. destruct (_ && _); [done|].
  destruct (_ || _); [done|]. rewrite set_sub_state_cases. destruct (set =? 0); [done|]. now destruct (may_set _ _).
Qed.
Lemma error_twice i : inst_error (inst_error i) = inst_error i.
Proof. unfold inst_error. rewrite (change_state_cases _ i). destruct i as [id lk st]. now destruct st. Qed.
Lemma moves_sub clear set : state_moves (fun i => snd (msm_vidc_change_sub_state clear set i)).
Proof. intros i. left. apply sub_state_same. Qed.
Lemma last_event_same set i :
  inst_state (snd (inst_then (msm_vidc_change_sub_state 0 set i) last_flag_event)) = inst_state i.
Proof.
  unfold inst_then. destruct (fst _ =? 0); [|apply sub_state_same]. unfold last_flag_event.
  now destruct (inst_last_flag_event _); rewrite <- (sub_state_same 0 set i).
Qed.
Lemma moves_error (j : msm_vidc_inst) i : inst_state j = inst_state i -> moves (inst_state i) (inst_state (inst_error j)).
Proof. intros <-. exact (moves_state MSM_VIDC_ERROR j). Qed.
Lemma moves_info ty : state_moves (fun i => snd (handle_session_info ty i)).
Proof.
  intros i. unfold handle_session_info, handle_session_last_flag_info. cbv zeta.
  destruct (ty =? HFI_INFO_DATA_CORRUPT); [now left|]. destruct (ty =? HFI_INFO_BUFFER_OVERFLOW); [now left|].
  destruct (ty =? HFI_INFO_FENCE_SIGNAL_ERROR); [now left|]. destruct (_ || _); [|now left].
  assert (Hr : forall r : Z * msm_vidc_inst, inst_state (snd r) = inst_state i ->
    moves (inst_state i) (inst_state (snd (let '(rc, j) := r in (rc, if rc =? 0 then j else inst_error j))))).
  { intros [rc j] Ej. cbn [snd] in *. destruct (rc =? 0); [now left|]. now apply moves_error. }
  apply Hr. destruct (ty =? HFI_INFO_HFI_FLAG_PSC_LAST).
  - destruct (msm_vidc_allow_psc_last_flag i); [apply last_event_same|done].
  - destruct (ty =? HFI_INFO_HFI_FLAG_DRAIN_LAST); [|done].
    destruct (msm_vidc_allow_drain_last_flag i); [apply last_event_same|done].
Qed.
Lemma moves_stop_done sig : state_moves (fun i => snd (msm_vidc_process_stop_done sig i)).
Proof.
  intros i. unfold msm_vidc_process_stop_done. cbv zeta.
  assert (Hs : forall set j, inst_state (snd (inst_then (msm_vidc_change_sub_state 0 set j)
    (fun i => (0, signal_session_msg_receipt sig i)))) = inst_state j).
  { intros set j. unfold inst_then. destruct (fst _ =? 0); [|apply sub_state_same]. exact (sub_state_same 0 set j). }
  rewrite Hs. destruct (bool_decide _ && is_sub_state i MSM_VIDC_DRC && _).
  - destruct (_ && _ && _ && _); [rewrite error_twice|]; now apply moves_error.
  - destruct (_ && _ && _ && _); [now apply moves_error|now left].
Qed.

Lemma moves_change c : state_moves (fun i => snd (apply_change c i)).
Proof.
  destruct c as [st|clear set|port|port| | |ty|pkt| |]; cbn [apply_change].
  - apply moves_state.
  - apply moves_sub.
  - intros i. destruct port; try apply moves_state; now left.
  - intros i. destruct port; try apply moves_state; now left.
  - intros i. apply moves_sub.
  - exact (moves_state MSM_VIDC_ERROR).
  - apply moves_info.
  - intros i. unfold handle_session_stop. destruct (stop_signal _ _); [apply moves_stop_done|now left].
  - intros i. now left.
  - intros i. unfold handle_session_drain, msm_vidc_process_drain_done. destruct (is_sub_state _ _); [apply moves_sub|now left].
Qed.

Lemma changes_moves cs : forall i, Sorted moves (map inst_state (changes cs i)).
Proof.
  induction cs as [|c cs IH]; intros i; cbn [changes map]; [repeat constructor|].
  specialize (IH (snd (apply_change c i))). pose proof (moves_change c i) as Hm. cbv beta in Hm.
  constructor; [exact IH|]. destruct cs; constructor; exact Hm.
Qed.
Lemma moves_final st st' : st = MSM_VIDC_ERROR \/ st = MSM_VIDC_CLOSE -> moves st st' -> st' = st.
Proof. intros [->| ->] [->|E]; done. Qed.
Lemma changes_final cs : forall i, inst_state i = MSM_VIDC_ERROR \/ inst_state i = MSM_VIDC_CLOSE ->
  Forall (fun j => inst_state j = inst_state i) (changes cs i).
Proof.
  induction cs as [|c cs IH]; intros i Hi; cbn [changes]; [repeat constructor|]. constructor; [done|].
  pose proof (moves_final _ _ Hi (moves_change c i)) as E. cbv beta in E. rewrite <- E. apply IH. now rewrite E.
Qed.

Definition other_port (port : msm_vidc_port_type) : msm_vidc_port_type :=
  match port with INPUT_PORT => OUTPUT_PORT | _ => INPUT_PORT end.
(** The state of a session of which one port streams. *)
Definition port_streaming (port : msm_vidc_port_type) : msm_vidc_state :=
  match port with INPUT_PORT => MSM_VIDC_INPUT_STREAMING | _ => MSM_VIDC_OUTPUT_STREAMING end.
Lemma streamon_off port i : data_port port = true -> inst_state i = MSM_VIDC_OPEN ->
  map inst_state (changes [ChStreamon port; ChStreamon (other_port port);
                           ChStreamoff port; ChStreamoff (other_port port); ChStreamon port; ChStreamon port] i) =
  [MSM_VIDC_OPEN; port_streaming port; MSM_VIDC_STREAMING;
   port_streaming (other_port port); MSM_VIDC_OPEN; port_streaming port; MSM_VIDC_ERROR].
Proof.
  intros Hp Ho. destruct i as [id lk st h sub dom codec sid pkt sm rq pend fence lfe caps sig fi ev].
  cbn [inst_state] in Ho. subst st. destruct port; try discriminate; reflexivity.
Qed.

(** C14: whatever happens to a session in whatever order -
    ports started and stopped, flags changed, messages of the firmware - its
    state moves along the transitions of the code's table, one at a time, and
    ERROR and CLOSE are final.  The ports of an opened session can be started
    in either order and stopped in either order, which leads back to OPEN;
    starting a port that streams is an error. *)
Theorem vidc_session_states cs i :
  Sorted moves (map inst_state (changes cs i)) /\
  (inst_state i = MSM_VIDC_ERROR \/ inst_state i = MSM_VIDC_CLOSE ->
   Forall (fun j => inst_state j = inst_state i) (changes cs i)) /\
  (forall port, data_port port = true -> inst_state i = MSM_VIDC_OPEN ->
   map inst_state (changes [ChStreamon port; ChStreamon (other_port port);
                            ChStreamoff port; ChStreamoff (other_port port); ChStreamon port; ChStreamon port] i) =
   [MSM_VIDC_OPEN; port_streaming port; MSM_VIDC_STREAMING;
    port_streaming (other_port port); MSM_VIDC_OPEN; port_streaming port; MSM_VIDC_ERROR]).
Proof.
  split; [apply changes_moves|]. split; [apply changes_final|]. intros port. apply streamon_off.
Qed.

(** ** Draining and resuming *)

(** What the sequences of a session look at. *)
Definition inst_flags (i : msm_vidc_inst) : msm_vidc_state * Z * Z :=
  (inst_state i, inst_sub_state i, inst_domain i).
Definition flags_at (id : Z) (s : vidc_core) : option (msm_vidc_state * Z * Z) :=
  option_map inst_flags (session id s).

Lemma change_session_done `{VidcPlatform} id f s i : session id s = Some i ->
  change_session id f s = Done (fst (f i), session_upd id (fun i => snd (f i)) s).
Proof. intros E. unfold change_session, looking. now rewrite E. Qed.

Section Flags.
Context `{VidcKernel} `{VidcConfig} `{VidcFirmware} `{VidcPlatform} `{VidcNeeds}.
Context (F : Prop) (X : option Z) (K : list Z) (id : Z) (Hid : In id K) (Hok : F \/ platform_ok).

(** [m] leaves them alone; [b] says whether the lock of the core is held. *)
Definition leaves (b : bool) (m : op) : Prop := forall s, core_inv X K b s ->
  wp F m s (fun _ s' => core_inv X K b s' /\ flags_at id s' = flags_at id s).

Lemma leaves_ret b rc : leaves b (ret rc).
Proof. intros s I. now apply wp_ret. Qed.
Lemma leaves_bind b m k : leaves b m -> (forall rc, leaves b (k rc)) -> leaves b (bind_op m k).
Proof.
  intros Hm Hk s I. apply wp_bind. eapply wp_mono; [exact (Hm s I)|]. cbv beta. intros rc s1 [I1 E1].
  eapply wp_mono; [exact (Hk rc s1 I1)|]. cbv beta. intros rc' s2 [I2 E2]. split; [exact I2|congruence].
Qed.
Lemma leaves_then b m k : leaves b m -> leaves b k -> leaves b (m ;? k).
Proof. intros Hm Hk. apply leaves_bind; [done|]. intros rc. destruct (rc =? 0); [done|apply leaves_ret]. Qed.
Lemma leaves_after b m k : leaves b m -> leaves b k -> leaves b (m ;! k).
Proof. intros Hm Hk. now apply leaves_bind. Qed.
Lemma leaves_looking b {A} (f : vidc_core -> A) k : (forall a, leaves b (k a)) -> leaves b (looking f k).
Proof. intros Hk s I. apply wp_looking, Hk, I. Qed.
Lemma same_sessions s s' : vc_instances s' = vc_instances s -> vc_dangling s' = vc_dangling s ->
  flags_at id s' = flags_at id s.
Proof. intros E1 E2. unfold flags_at, session. now rewrite E1, E2. Qed.
Lemma leaves_cmd m : does F cmd_steps m -> leaves true m.
Proof.
  intros Hm s I. eapply wp_mono; [exact (Hm s (inv_live s I))|]. cbv beta. intros rc s' A.
  split; [exact (cmd_inv s s' I A)|]. destruct A as (V & _). injection V as _ _ _ _ _ _ _ _ _ _ _ E1 E2 _.
  now apply same_sessions.
Qed.
Lemma leaves_locked m : leaves true m -> leaves false (locked m).
Proof.
  intros Hm s I. unfold locked. apply wp_after. unfold wp at 1, core_lock. rewrite (i_lock false s I).
  change (set_hfi (with_locked true (vc_hfi s)) s) with (lock_core true s). apply wp_bind.
  eapply wp_mono; [exact (Hm _ (lock_inv false true s I))|]. cbv beta. intros rc s' [I' E']. apply wp_after, wp_upd, wp_ret.
  split; [exact (lock_inv true false s' I')|]. exact E'.
Qed.

Lemma leaves_session_cmd body :
  (forall i s, packet_inv X K id s ->
     wp F (body i) s (fun _ s' => core_inv X K true s' /\ flags_at id s' = flags_at id s)) ->
  leaves false (session_cmd id body).
Proof.
  intros Hb s I. apply wp_looking. destruct (inv_session X K false id s I Hid) as (i & E & _). rewrite E.
  destruct (inst_packet i) as [b|] eqn:Eb; [|now apply wp_ret].
  unfold locked. apply wp_after. unfold wp at 1, core_lock. rewrite (i_lock false s I).
  change (set_hfi (with_locked true (vc_hfi s)) s) with (lock_core true s).
  pose proof (lock_inv false true s I) as I1. apply wp_bind.
  assert (Hp : packet_inv X K id (lock_core true s)).
  { split; [exact I1|]. exists b. cbn. change (session id (lock_core true s)) with (session id s). now rewrite E. }
  assert (Hw : forall m : op, wp F m (lock_core true s) (fun _ s' => core_inv X K true s' /\ flags_at id s' = flags_at id s) ->
    wp F m (lock_core true s) (fun rc s' => wp F (core_unlock ;! ret rc) s' (fun _ s' =>
      core_inv X K false s' /\ flags_at id s' = flags_at id s))).
  { intros m Hm. eapply wp_mono; [exact Hm|]. intros rc s' [I' E']. apply wp_after, wp_upd, wp_ret.
    split; [exact (lock_inv true false s' I')|exact E']. }
  apply Hw, wp_looking. destruct (__valdiate_session _ _); [|now apply wp_ret]. cbn [negb]. apply wp_looking.
  change (session id (lock_core true s)) with (session id s). rewrite E. exact (Hb i _ Hp).
Qed.
Lemma leaves_send f s : builds sized f -> packet_inv X K id s ->
  wp F (send id f) s (fun _ s' => core_inv X K true s' /\ flags_at id s' = flags_at id s).
Proof.
  intros Hf Hp. apply wp_and_then. eapply wp_mono; [exact (build_session F X K id f s Hp Hf)|].
  cbv beta. intros rc s1 (J1 & M1 & c & b1 & E1).
  assert (Ef : flags_at id s1 = flags_at id s).
  { rewrite E1. unfold flags_at. rewrite session_changed by done. change (session id (set_ids _ _)) with (session id s).
    now destruct (session id s). }
  destruct (rc =? 0); [|now split].
  eapply wp_mono; [exact (cmd_write_with F Hok venus_hfi_queue_cmd_write _ s1 write_live (inv_live s1 J1) M1)|].
  cbv beta. intros rc' s2 A. split; [exact (cmd_inv s1 s2 J1 A)|]. rewrite <- Ef.
  destruct A as (V & _). injection V as _ _ _ _ _ _ _ _ _ _ _ E2 E3 _. now apply same_sessions.
Qed.
Lemma leaves_resume_cmd port payload : leaves false (venus_hfi_session_resume id port payload).
Proof.
  apply leaves_session_cmd. intros i s Hp. destruct (data_port port); cbn [negb].
  - apply leaves_send; [|exact Hp]. apply command_builds, payload_u32.
  - apply wp_ret. split; [exact (proj1 Hp)|done].
Qed.
Lemma leaves_scale_power : leaves false (msm_vidc_scale_power id).
Proof.
  intros s I. apply wp_looking. destruct (inv_session X K false id s I Hid) as (i & E & _). rewrite E.
  revert s I E. enough (Hl : leaves false (looking (fun s => sp_waiting (needs s i)) (fun w =>
    if negb w then ret 0 else msm_vidc_set_clocks ;! msm_vidc_set_buses ;! ret 0))) by (intros s I _; exact (Hl s I)).
  apply leaves_looking. intros w. destruct w; cbn [negb]; [|apply leaves_ret].
  assert (Hc : forall freq, leaves false (venus_hfi_scale_clocks freq)).
  { intros freq. apply leaves_locked, leaves_then; [exact (leaves_cmd _ (cmd_resume F Hok))|].
    exact (leaves_cmd _ (hw_does_cmd F _ (does_set_clocks_ext F freq))). }
  assert (Hb : forall ddr llcc, leaves false (venus_hfi_scale_buses ddr llcc)).
  { intros ddr llcc. apply leaves_locked, leaves_then; [exact (leaves_cmd _ (cmd_resume F Hok))|].
    exact (leaves_cmd _ (hw_does_cmd F _ (does_set_bw F ddr llcc))). }
  apply leaves_after; [|apply leaves_after; [|apply leaves_ret]].
  - unfold msm_vidc_set_clocks. destruct (bool_decide _); [apply leaves_ret|]. apply leaves_bind; [|exact Hc].
    apply leaves_locked, leaves_looking. intros rate s I. apply wp_after, wp_upd, wp_ret. destruct I. split; [now split|done].
  - intros s I. apply wp_after. unfold wp at 1, core_lock. rewrite (i_lock false s I). apply wp_looking, wp_after, wp_upd.
    exact (Hb _ _ _ (lock_inv true false _ (lock_inv false true s I))).
Qed.
End Flags.

Definition has_flag (z flag : Z) : bool := negb (Z.land z flag =? 0).
(** The flags of a session behind a resume: what was pending has ended, and
    with it the pauses - that of an encoder's output stays; of a settings
    change and a drain that are both pending only the change ends. *)
Definition resumed (encode : bool) (z : Z) : Z :=
  let drc := has_flag z MSM_VIDC_DRC && has_flag z MSM_VIDC_DRC_LAST_BUFFER in
  let drain := has_flag z MSM_VIDC_DRAIN && has_flag z MSM_VIDC_DRAIN_LAST_BUFFER in
  let pauses := if encode then MSM_VIDC_INPUT_PAUSE else Z.lor MSM_VIDC_INPUT_PAUSE MSM_VIDC_OUTPUT_PAUSE in
  if drc then Z.ldiff z (if drain then DRC_DONE else Z.lor DRC_DONE pauses)
  else if drain then Z.ldiff z (Z.lor DRAIN_DONE pauses)
  else z.
(** What is cleared, with only the pauses there are. *)
Definition cleared (encode : bool) (z clear : Z) : Z :=
  let clear := if has_flag z MSM_VIDC_INPUT_PAUSE then Z.lor clear MSM_VIDC_INPUT_PAUSE else clear in
  if has_flag z MSM_VIDC_OUTPUT_PAUSE && negb encode then Z.lor clear MSM_VIDC_OUTPUT_PAUSE else clear.
Lemma cleared_pauses encode z clear : clear = DRC_DONE \/ clear = DRAIN_DONE -> flags_ok z = true ->
  flag_args (cleared encode z clear) 0 = true /\
  Z.ldiff z (cleared encode z clear) =
  Z.ldiff z (Z.lor clear (if encode then MSM_VIDC_INPUT_PAUSE else Z.lor MSM_VIDC_INPUT_PAUSE MSM_VIDC_OUTPUT_PAUSE)).
Proof.
  intros Hc Hz.
  assert (Ht : forall z, 0 <= z < 128 -> flag_args (cleared encode z clear) 0 &&
    (Z.ldiff z (cleared encode z clear) =?
     Z.ldiff z (Z.lor clear (if encode then MSM_VIDC_INPUT_PAUSE else Z.lor MSM_VIDC_INPUT_PAUSE MSM_VIDC_OUTPUT_PAUSE))) = true).
  { apply flags_all. destruct Hc as [->| ->], encode; vm_compute; reflexivity. }
  specialize (Ht z (flags_range z Hz)). apply andb_true_iff in Ht as [Ha E]. zb. now split.
Qed.

Section Resume.
Context `{VidcKernel} `{VidcConfig} `{VidcFirmware} `{VidcPlatform} `{VidcNeeds}.
Context (X : option Z) (K : list Z) (id : Z) (Hid : In id K) (Hok : platform_ok).
Context (st : msm_vidc_state) (z domain : Z) (Hst : st <> MSM_VIDC_ERROR).
#[local] Abbreviation inv := (core_inv X K false).

(** The session as the resume finds it, and how it leaves it. *)
Definition session_is (z : Z) (s : vidc_core) : Prop := inv s /\ flags_at id s = Some (st, z, domain).
Definition resumed_post (z' : Z) (rc : Z) (s : vidc_core) : Prop := session_is (if rc =? 0 then z' else z) s.

Lemma reading_flags s k Q : session_is z s ->
  (forall i, inst_state i = st -> inst_sub_state i = z -> inst_domain i = domain -> wp False (k i) s Q) ->
  wp False (reading id k) s Q.
Proof.
  intros [_ E] Hk. unfold flags_at in E. apply wp_looking. destruct (session id s) as [i|] eqn:Es; [|done].
  injection E as E1 E2 E3. now apply Hk.
Qed.
Lemma change_flags f z' s : inst_does f -> (forall j, inst_id (snd (f j)) = inst_id j) ->
  (forall i, inst_flags i = (st, z, domain) -> fst (f i) = 0 /\ inst_flags (snd (f i)) = (st, z', domain)) ->
  session_is z s -> wp False (change_session id f) s (resumed_post z').
Proof.
  intros Hf Hfid Hfl [I E]. pose proof (ok_change False X K id f Hid Hf s I) as Hc. unfold wp in *.
  unfold flags_at in E. destruct (session id s) as [i|] eqn:Es; [|done]. injection E as E.
  assert (Ei : inst_flags i = (st, z, domain)) by (unfold inst_flags; congruence). destruct (Hfl i Ei) as [E0 E'].
  rewrite (change_session_done id f s i Es), E0 in *. split; [exact Hc|]. unfold flags_at.
  rewrite session_changed by done. rewrite Es. cbn [option_map]. now rewrite E'.
Qed.
Lemma clear_flags clear s : flag_args clear 0 = true -> orderly clear 0 -> session_is z s ->
  wp False (change_session id (msm_vidc_change_sub_state clear 0)) s (resumed_post (Z.ldiff z clear)).
Proof.
  intros Ha Ho. apply change_flags; [now apply does_sub_state| |].
  - intros j. rewrite change_sub_cases by done. destruct (is_session_error j); [done|]. now destruct (_ || _).
  - intros i [= E1 E2 E3]. rewrite change_sub_cases by done. unfold is_session_error, is_state.
    rewrite E1, bool_decide_eq_false_2 by done. split; [done|]. unfold inst_flags, flagged. cbn.
    now rewrite E1, E2, E3, Z.lor_0_r.
Qed.
Lemma leaves_is m s (Q : Z -> vidc_core -> Prop) : leaves False X K id false m -> session_is z s ->
  (forall rc s, session_is z s -> Q rc s) -> wp False m s Q.
Proof.
  intros Hm [I E] HQ. eapply wp_mono; [exact (Hm s I)|]. cbv beta. intros rc s' [I' E']. apply HQ. split; [exact I'|congruence].
Qed.
Lemma resume_port_flags port pause cmd clear may b k s Q : session_is z s ->
  (forall i, inst_domain i = domain -> may i = b) ->
  (forall rc s, rc <> 0 -> session_is z s -> Q rc s) ->
  (forall s, session_is z s -> wp False (k (if has_flag z pause && b then Z.lor clear pause else clear)) s Q) ->
  wp False (resume_port id port pause cmd clear may k) s Q.
Proof.
  intros Hs Hb Hr Hk. apply (reading_flags s _ Q Hs). intros i _ Ez Ed. unfold is_sub_state. rewrite Ez, (Hb i Ed).
  fold (has_flag z pause). destruct (has_flag z pause && b); [|now apply Hk].
  apply wp_and_then. apply (leaves_is _ s _ (leaves_resume_cmd False X K id Hid (or_intror Hok) port cmd) Hs).
  intros rc s1 Hs1. destruct (rc =? 0) eqn:E; [now apply Hk|]. zb. now apply Hr.
Qed.
Lemma ports_flags cmd clear s : clear = DRC_DONE \/ clear = DRAIN_DONE -> flags_ok z = true -> session_is z s ->
  wp False (resume_ports id cmd clear (fun c => change_session id (msm_vidc_change_sub_state c 0))) s
    (resumed_post (Z.ldiff z (Z.lor clear (if is_encode_session domain then MSM_VIDC_INPUT_PAUSE
                                           else Z.lor MSM_VIDC_INPUT_PAUSE MSM_VIDC_OUTPUT_PAUSE)))).
Proof.
  intros Hc Hz Hs.
  assert (Hr : forall z' rc s, rc <> 0 -> session_is z s -> resumed_post z' rc s).
  { intros z' rc t Hrc Ht. unfold resumed_post. apply Z.eqb_neq in Hrc. now rewrite Hrc. }
  apply (resume_port_flags _ _ _ _ _ true _ _ _ Hs (fun _ _ => eq_refl) (Hr _)). intros s1 Hs1.
  apply (resume_port_flags _ _ _ _ _ (negb (is_encode_session domain)) _ _ _ Hs1); [now intros i ->|exact (Hr _)|].
  intros s2 Hs2. rewrite andb_true_r.
  destruct (cleared_pauses (is_encode_session domain) z clear Hc Hz) as [Ha <-].
  apply clear_flags; [exact Ha| |exact Hs2].
  destruct Hc as [->| ->]; destruct (is_encode_session domain); unfold cleared;
    destruct (has_flag z MSM_VIDC_INPUT_PAUSE), (has_flag z MSM_VIDC_OUTPUT_PAUSE); cbn [negb andb]; orderly.
Qed.
Lemma resume_flags s : flags_ok z = true -> session_is z s ->
  wp False (msm_vidc_process_resume id) s (resumed_post (resumed (is_encode_session domain) z)).
Proof.
  intros Hz Hs. apply wp_after.
  apply (leaves_is _ s _ (leaves_scale_power False X K id Hid (or_intror Hok)) Hs). intros _ s1 Hs1.
  apply (reading_flags s1 _ _ Hs1). intros i _ Ez Ed. unfold is_drc_pending, is_drain_pending, is_sub_state.
  rewrite Ez. fold (has_flag z MSM_VIDC_DRC) (has_flag z MSM_VIDC_DRC_LAST_BUFFER) (has_flag z MSM_VIDC_DRAIN)
    (has_flag z MSM_VIDC_DRAIN_LAST_BUFFER). unfold resumed. cbv zeta.
  destruct (has_flag z MSM_VIDC_DRC && has_flag z MSM_VIDC_DRC_LAST_BUFFER),
    (has_flag z MSM_VIDC_DRAIN && has_flag z MSM_VIDC_DRAIN_LAST_BUFFER).
  - apply clear_flags; [reflexivity|orderly|exact Hs1].
  - apply ports_flags; auto.
  - apply ports_flags; auto.
  - apply change_flags; [exact does_no_change|intros j; now rewrite no_change| |exact Hs1].
    intros j Ej. now rewrite no_change.
Qed.
End Resume.

Section ResumeProperty.
Context `{VidcKernel} `{VidcConfig} `{VidcFirmware} `{VidcPlatform} `{VidcNeeds}.

(** C10: resuming a session that is not in its error state always
    returns and leaves its state alone.  With result 0 the settings change or
    the drain whose last buffer was reported has ended, and the ports it
    paused go on - but the output of an encoder stays paused, and of a change
    and a drain that are both pending only the change ends, with the ports
    still paused.  With another result, from a command that was not sent,
    the flags are as before. *)
Theorem vidc_resume_flags X K id s i :
  platform_ok -> core_inv X K false s -> In id K -> session id s = Some i -> inst_state i <> MSM_VIDC_ERROR ->
  exists rc s' i', msm_vidc_process_resume id s = Done (rc, s') /\ core_inv X K false s' /\
    session id s' = Some i' /\ inst_state i' = inst_state i /\ inst_domain i' = inst_domain i /\
    inst_sub_state i' = if rc =? 0 then resumed (is_encode_session (inst_domain i)) (inst_sub_state i)
                        else inst_sub_state i.
Proof.
  intros Hok I Hid Es Hst. destruct (inv_session X K false id s I Hid) as (j & Ej & Ok & _).
  assert (j = i) as -> by congruence.
  assert (Hs : session_is X K id (inst_state i) (inst_domain i) (inst_sub_state i) s).
  { split; [exact I|]. unfold flags_at. now rewrite Es. }
  pose proof (resume_flags X K id Hid Hok (inst_state i) (inst_sub_state i) (inst_domain i) Hst s (io_flags i Ok) Hs) as Hw.
  unfold wp in Hw. destruct (msm_vidc_process_resume id s) as [[rc s']| |]; [|destruct Hw..].
  destruct Hw as [I' E']. unfold flags_at in E'. destruct (session id s') as [i'|] eqn:Es'; [|done].
  injection E' as E1 E2 E3. exists rc, s', i'. now repeat (split; [assumption || reflexivity|]).
Qed.
End ResumeProperty.

(** C15: how a session drains.  A streaming session that nothing else
    goes on with takes the stop command; until the last buffer was reported
    both commands are refused as busy; the drain that is done pauses the
    input, the last buffer pauses the output as well, tells the client once,
    if it asked for it, and makes the start command allowed again.  A last
    buffer that is reported before the drain is done puts the session into its
    error state. *)
Theorem vidc_drain_protocol i :
  inst_state i = MSM_VIDC_STREAMING -> inst_event_handle i = msm_vidc_streaming_state ->
  inst_locked i = true -> inst_sub_state i = 0 ->
  let i1 := snd (msm_vidc_change_sub_state 0 MSM_VIDC_DRAIN i) in
  let i2 := snd (handle_session_drain i1) in
  let i3 := snd (handle_session_info HFI_INFO_HFI_FLAG_DRAIN_LAST i2) in
  event_handle i MSM_VIDC_CMD_STOP = VidcSession.msm_vidc_stop_cmd /\
  event_handle i MSM_VIDC_CMD_START = EvReturn (- EBUSY) /\
  Forall (fun j => inst_state j = MSM_VIDC_STREAMING /\ inst_events j = inst_events i /\
                   event_handle j MSM_VIDC_CMD_STOP = EvReturn (- EBUSY) /\
                   event_handle j MSM_VIDC_CMD_START = EvReturn (- EBUSY)) [i1; i2] /\
  inst_sub_state i2 = Z.lor MSM_VIDC_DRAIN MSM_VIDC_INPUT_PAUSE /\
  inst_sub_state i3 = Z.lor DRAIN_DONE (Z.lor MSM_VIDC_INPUT_PAUSE MSM_VIDC_OUTPUT_PAUSE) /\
  inst_events i3 = inst_events i ++ (if inst_last_flag_event i then [V4L2_EVENT_EOS] else []) /\
  event_handle i3 MSM_VIDC_CMD_STOP = EvReturn (- EBUSY) /\
  event_handle i3 MSM_VIDC_CMD_START = VidcSession.msm_vidc_start_cmd /\
  (forall encode, resumed encode (inst_sub_state i3) = if encode then MSM_VIDC_OUTPUT_PAUSE else 0) /\
  inst_state (snd (handle_session_info HFI_INFO_HFI_FLAG_DRAIN_LAST i1)) = MSM_VIDC_ERROR.
Proof.
  destruct i as [id lk st h sub dom codec sid pkt sm rq pend fence lfe caps sig fi ev].
  cbn [inst_state inst_event_handle inst_locked inst_sub_state]. intros -> -> -> ->. cbv zeta.
  repeat split; try (intros []); try reflexivity; destruct lfe; try reflexivity.
  - repeat constructor.
  - repeat constructor.
  - exact (eq_sym (app_nil_r ev)).
Qed.

(** ** Messages for a session *)
Section Messages.
Context `{VidcKernel} `{VidcConfig} `{VidcFirmware} `{VidcPlatform} `{VidcReplies}.

Lemma keeps_id_state st j : inst_id (snd (msm_vidc_change_state st j)) = inst_id j.
Proof. rewrite change_state_cases. now destruct (may_follow _ _). Qed.
Lemma open_session_error id s i : session id s = Some i -> inst_state i = MSM_VIDC_OPEN ->
  exists s', session_error id s = Done (0, s') /\
    exists i', session id s' = Some i' /\ inst_state i' = MSM_VIDC_ERROR.
Proof.
  intros Es Eo. unfold session_error. rewrite (change_session_done _ _ _ _ Es), change_state_cases, Eo.
  eexists. split; [reflexivity|]. rewrite session_changed by (intros j; apply keeps_id_state). rewrite Es.
  eexists. split; [reflexivity|]. now rewrite change_state_cases, Eo.
Qed.
(** What the state makes of a change of the input port. *)
Lemma input_psc_cases i :
  msm_vidc_state_change_input_psc i =
  match inst_state i with
  | MSM_VIDC_INPUT_STREAMING => (0, flagged 0 (Z.lor MSM_VIDC_INPUT_PAUSE MSM_VIDC_FIRST_IPSC) i)
  | MSM_VIDC_STREAMING | MSM_VIDC_CLOSE => (0, flagged 0 (Z.lor MSM_VIDC_DRC MSM_VIDC_INPUT_PAUSE) i)
  | MSM_VIDC_OPEN | MSM_VIDC_OUTPUT_STREAMING => (- EINVAL, i)
  | MSM_VIDC_ERROR => (0, i)
  end.
Proof.
  unfold msm_vidc_state_change_input_psc. destruct i as [ii lk st]. destruct st; cbn [inst_state];
    rewrite change_sub_cases by reflexivity; reflexivity.
Qed.
Lemma input_psc_id i : inst_id (snd (msm_vidc_state_change_input_psc i)) = inst_id i.
Proof. rewrite input_psc_cases. now destruct (inst_state i). Qed.
Lemma open_input_change id s i : session id s = Some i -> inst_state i = MSM_VIDC_OPEN ->
  exists s', handle_input_port_settings_change id s = Done (- EINVAL, s') /\ session id s' = Some i.
Proof.
  intros Es Eo. unfold handle_input_port_settings_change, reading, looking. rewrite Es.
  unfold msm_vidc_allow_input_psc. destruct (is_sub_state i MSM_VIDC_DRC); [eexists; now split|].
  unfold and_then, bind_op. rewrite (change_session_done _ _ _ _ Es), input_psc_cases, Eo. eexists. split; [reflexivity|].
  change (session id (session_upd id (fun i => snd (msm_vidc_state_change_input_psc i)) s) = Some i); rewrite session_changed by exact input_psc_id. rewrite Es. cbn [option_map]. now rewrite input_psc_cases, Eo.
Qed.

(** C16: a change of the settings of the input port, by the state of the
    session.  While only the input streams it is the first one and pauses the
    input; while both stream a settings change begins as well; and although
    the code provides for the first one in OPEN too, the flags it sets are not
    allowed there: the change is refused, and the message that reported it
    puts the session into its error state. *)
Theorem vidc_input_psc_by_state id b p pkt s i :
  hp_type pkt = HFI_CMD_SETTINGS_CHANGE -> hp_port pkt = HFI_PORT_BITSTREAM -> session id s = Some i ->
  msm_vidc_state_change_input_psc i =
    match inst_state i with
    | MSM_VIDC_INPUT_STREAMING => (0, flagged 0 (Z.lor MSM_VIDC_INPUT_PAUSE MSM_VIDC_FIRST_IPSC) i)
    | MSM_VIDC_STREAMING | MSM_VIDC_CLOSE => (0, flagged 0 (Z.lor MSM_VIDC_DRC MSM_VIDC_INPUT_PAUSE) i)
    | MSM_VIDC_OPEN | MSM_VIDC_OUTPUT_STREAMING => (- EINVAL, i)
    | MSM_VIDC_ERROR => (0, i)
    end /\
  (inst_state i = MSM_VIDC_OPEN ->
   exists s', handle_session_command id b p pkt s = Done (- EINVAL, s') /\
     exists i', session id s' = Some i' /\ inst_state i' = MSM_VIDC_ERROR).
Proof.
  intros Ht Hp Es. split; [apply input_psc_cases|]. intros Eo.
  destruct (open_input_change id s i Es Eo) as (s1 & E1 & Es1). destruct (open_session_error id s1 i Es1 Eo) as (s' & E' & Hi).
  exists s'. split; [|exact Hi]. unfold handle_session_command. rewrite Ht.
  change (handle_port_settings_change id pkt s = Done (- EINVAL, s')). unfold handle_port_settings_change. rewrite Hp.
  unfold bind_op. change (HFI_PORT_BITSTREAM =? HFI_PORT_RAW) with false. rewrite Z.eqb_refl, E1.
  cbn [mbind exec_bind].
  change ((session_error id ;! ret (- EINVAL)) s1 = Done (- EINVAL, s')). unfold after, bind_op. now rewrite E'.
Qed.
End Messages.

Section Order.
Context `{VidcKernel} `{VidcConfig} `{VidcFirmware} `{VidcPlatform} `{VidcReplies}.

(** What a message makes the code do, one after the other: the handler of a
    packet, after which a failure puts the session into its error state, and
    the error of the session that a flagged packet reports, whose result is
    not looked at.  The others go on in both cases. *)
Inductive message_step : Type :=
  | Handle (handle : op)
  | ReportError.
Fixpoint run_message_steps (id : Z) (steps : list message_step) (rc : Z) : op :=
  match steps with
  | [] => ret rc
  | Handle m :: steps =>
      bind_op m (fun rc => (if rc =? 0 then ret 0 else session_error id) ;! run_message_steps id steps rc)
  | ReportError :: steps => change_session id handle_session_error ;! run_message_steps id steps rc
  end.
Definition in_range_of (range : Z * Z) (e : Z * hfi_packet) : bool := is_in_range range (hp_type (snd e)).
Definition is_buffer (e : Z * hfi_packet) : bool := hp_type (snd e) =? HFI_CMD_BUFFER.
Definition reports_session_error (e : Z * hfi_packet) : bool :=
  negb (Z.land (hp_flags (snd e)) HFI_FW_FLAGS_SESSION_ERROR =? 0).
(** The steps of a packet in the pass for one range, and of a message. *)
Definition packet_steps (id : Z) (b : list Z) (r : (Z * Z) * (Z -> list Z -> Z -> hfi_packet -> op))
    (e : Z * hfi_packet) : list message_step :=
  (if reports_session_error e then [ReportError] else []) ++
  (if in_range_of (fst r) e then [Handle (snd r id b (fst e) (snd e))] else []).
Definition range_steps (id : Z) (b : list Z) (l : list (Z * hfi_packet))
    (r : (Z * Z) * (Z -> list Z -> Z -> hfi_packet -> op)) : list message_step :=
  flat_map (packet_steps id b r) l.

Lemma bind_done m k s rc s' : m s = Done (rc, s') -> bind_op m k s = k rc s'.
Proof. unfold bind_op. now intros ->. Qed.
Lemma bind_bind m f g s : bind_op (bind_op m f) g s = bind_op m (fun rc => bind_op (f rc) g) s.
Proof. unfold bind_op. now destruct (m s) as [[rc s']| |]. Qed.
Lemma bind_same m f g s : (forall rc s', f rc s' = g rc s') -> bind_op m f s = bind_op m g s.
Proof. intros E. unfold bind_op. destruct (m s) as [[rc s']| |]; [apply E|done..]. Qed.
Lemma steps_app id ms ms' rc k s :
  bind_op (run_message_steps id (ms ++ ms') rc) k s =
  bind_op (run_message_steps id ms rc) (fun rc => bind_op (run_message_steps id ms' rc) k) s.
Proof.
  revert rc s. induction ms as [|[m|] ms IH]; intros rc s; [reflexivity| |]; cbn [app run_message_steps]; unfold after.
  - rewrite !bind_bind. apply bind_same. intros rc' s'. rewrite !bind_bind. apply bind_same. intros _ s2. apply IH.
  - rewrite !bind_bind. apply bind_same. intros _ s2. apply IH.
Qed.

Lemma range_order id b range handle l rc dq k s :
  session_range id b range handle l rc dq k s =
  bind_op (run_message_steps id (range_steps id b l (range, handle)) rc)
    (fun rc => k rc (dq || existsb (fun e => in_range_of range e && is_buffer e) l)) s.
Proof.
  revert rc dq s. induction l as [|[p pkt] l IH]; intros rc dq s.
  - cbn. now rewrite orb_false_r.
  - cbn [session_range existsb range_steps flat_map]. unfold packet_steps at 1. rewrite <- app_assoc, steps_app.
    unfold reports_session_error. cbn [fst snd].
    change (in_range_of range (p, pkt)) with (is_in_range range (hp_type pkt)).
    change (is_buffer (p, pkt)) with (hp_type pkt =? HFI_CMD_BUFFER).
    set (reported := if negb (Z.land _ _ =? 0) then [ReportError] else []).
    transitivity (bind_op (run_message_steps id reported rc) (fun rc =>
      if is_in_range range (hp_type pkt)
      then bind_op (handle id b p pkt) (fun rc =>
             (if rc =? 0 then ret 0 else session_error id) ;!
             session_range id b range handle l rc (dq || (hp_type pkt =? HFI_CMD_BUFFER)) k)
      else session_range id b range handle l rc dq k) s).
    { subst reported. unfold after. destruct (Z.land _ _ =? 0); [reflexivity|]. cbn [negb run_message_steps]. unfold after.
      rewrite bind_bind. apply bind_same. now intros _ s'. }
    apply bind_same. intros rc' s'. destruct (is_in_range range (hp_type pkt)); cbn [andb orb app]; [|apply IH].
    cbn [run_message_steps]. rewrite bind_bind. apply bind_same. intros rc2 s2. unfold after. rewrite bind_bind.
    apply bind_same. intros _ s3. rewrite (IH rc2 _ s3). apply bind_same. intros rc3 s4. now rewrite orb_assoc.
Qed.
Lemma ranges_order id b l be : forall rc dq k s,
  handle_session_ranges id b l be rc dq k s =
  bind_op (run_message_steps id (flat_map (range_steps id b l) be) rc)
    (fun rc => k rc (dq || existsb (fun r => existsb (fun e => in_range_of (fst r) e && is_buffer e) l) be)) s.
Proof.
  induction be as [|[range handle] be IH]; intros rc dq k s.
  - cbn. now rewrite orb_false_r.
  - cbn [handle_session_ranges flat_map existsb fst]. rewrite range_order, steps_app.
    apply bind_same. intros rc' s'. rewrite IH. apply bind_same. intros rc2 s2. now rewrite orb_assoc.
Qed.
Lemma buffers_are_commands l :
  existsb (fun r => existsb (fun e => in_range_of (fst r) e && is_buffer e) l) session_ranges = existsb is_buffer l.
Proof.
  cbn [session_ranges existsb fst]. induction l as [|[p pkt] l IH]; [reflexivity|]. cbn [existsb].
  rewrite <- IH. unfold in_range_of at 1 3 5 7, is_buffer at 1 3 5 7 9. cbn [snd].
  destruct (Z.eqb_spec (hp_type pkt) HFI_CMD_BUFFER) as [->|_]; [|now rewrite !andb_false_r].
  rewrite !andb_true_r. cbn. now rewrite !orb_true_r.
Qed.

(** C12: the packets of a message for a session are not handled in the
    order in which they stand in it, but in four passes over the message:
    errors, informations, properties, commands, each kind in its order.  A
    packet that carries the flag of a session error reports that error in
    every one of the four passes, before its own handler and whatever its
    kind, which changes no result.  A handler that fails puts the session into
    its error state, and the rest is handled all the same; the buffers are
    taken off at the end, and the result is the one of the last handler, or of
    taking the buffers off.  This for every message whose packets can be read:
    a message passes validate_hdr_packet before. *)
Theorem vidc_session_message_order id b l s :
  message_packets b packet_size = Done l ->
  __handle_session_response id b s =
  (clear_frame_info id ;!
   bind_op (run_message_steps id (flat_map (range_steps id b l) session_ranges) 0) (fun rc =>
   bind_op (if existsb is_buffer l then handle_dequeue_buffers id else ret 0) (fun rc' =>
   if negb (rc' =? 0) then ret rc'
   else clear_frame_info id ;! ret (if existsb is_buffer l then 0 else rc)))) s.
Proof.
  intros El. unfold __handle_session_response, after at 1 3. apply bind_same. intros _ s'. rewrite El.
  cbn [mbind exec_bind]. rewrite ranges_order. cbn [orb]. now rewrite buffers_are_commands.
Qed.
End Order.

(** ** The end of a session, and everything *)
Section Ends.
Context `{VidcKernel} `{VidcConfig} `{VidcFirmware} `{VidcPlatform}.

Lemma error_after i : inst_state (snd (msm_vidc_change_state MSM_VIDC_ERROR i)) =
  if bool_decide (inst_state i = MSM_VIDC_CLOSE) then MSM_VIDC_CLOSE else MSM_VIDC_ERROR.
Proof. rewrite change_state_cases. destruct i as [id lk st]. now destruct st. Qed.

(** Ending a session by force always succeeds, whether the close can
    be sent, whether the firmware answers in time, and whatever the others do
    meanwhile: it returns 0 with the session in its error state - or in
    CLOSE, if it was closed meanwhile - and still there, for the client to
    close. *)
Theorem vidc_kill_session_ends K id m s i :
  platform_ok -> fw_dump = false -> core_inv (Some id) K false s -> In id K ->
  session id s = Some i -> inst_session_id i <> 0 -> call_ok None K False m ->
  exists s' i', msm_vidc_kill_session id m s = Done (0, s') /\ core_inv (Some id) K false s' /\
    session id s' = Some i' /\ (inst_state i' = MSM_VIDC_ERROR \/ inst_state i' = MSM_VIDC_CLOSE).
Proof.
  intros Hok Hdump I Hid Es Hs Hm.
  assert (Hw : wp False (msm_vidc_kill_session id m) s (fun rc s' => rc = 0 /\ core_inv (Some id) K false s' /\
    exists i', session id s' = Some i' /\ (inst_state i' = MSM_VIDC_ERROR \/ inst_state i' = MSM_VIDC_CLOSE))).
  { apply wp_looking. rewrite Es. apply Z.eqb_neq in Hs. rewrite Hs. apply wp_after.
    eapply wp_mono; [exact (ok_session_close False K id Hid (or_intror Hok) (or_intror Hdump) m Hm s I)|]. cbv beta.
    intros _ s1 I1. destruct (inv_session (Some id) K false id s1 I1 Hid) as (j & Ej & _).
    pose proof (ok_error False K id Hid (Some id) s1 I1) as He. unfold wp in He.
    unfold wp, after, bind_op. rewrite (change_session_done _ _ _ _ Ej) in *. cbn [mbind exec_bind ret snd fst].
    split; [done|]. split; [exact He|]. rewrite session_changed by (intros x; apply keeps_id_state).
    rewrite Ej. eexists. split; [reflexivity|]. rewrite error_after. destruct (bool_decide _); auto. }
  unfold wp in Hw. destruct (msm_vidc_kill_session id m s) as [[rc s']| |]; [|destruct Hw..].
  destruct Hw as (-> & I' & i' & E' & Hi). exists s', i'. now repeat (split; [assumption || reflexivity|]).
Qed.
End Ends.

Section Driver.
Context `{VidcKernel} `{VidcConfig} `{VidcFirmware} `{VidcPlatform} `{VidcNeeds} `{VidcDriver} `{VidcReplies}.

(** Everything the driver does together: calls on the core, clients that
    open, start, stop, drain and close sessions, messages of the firmware for
    the core and for its sessions, failures and recoveries, also while a
    client waits for an answer or the core for its start.  The theorem is
    conditional: the parts that are not modelled (formats, controls, lists of
    buffers) are assumed to come back and to respect the invariant
    ([driver_ok], [replies_ok]), the messages pass validate_hdr_packet and
    contain their packets, and a stop of the core while its start waits, which
    breaks the invariant, is left out.  Then the invariant holds whenever no
    call is running - of the core, and of every session: its handler is the
    one of its state, its flags are in order, its packet has its size, it is
    not locked - and every call comes back. *)
Theorem vidc_driver_invariant s :
  platform_ok -> fw_dump = false -> (forall ty, bug_on ty = false) -> init_answers_ok ->
  (forall K id, In id K -> driver_ok False (Some id) K id) ->
  (forall K id, In id K -> replies_ok False (Some id) K id) ->
  driver_reachable s ->
  core_inv None [] false s /\
  Forall (fun i => inst_ok i /\ inst_locked i = false) (vc_instances s ++ vc_dangling s) /\
  forall c, exists rc s', run_driver c s = Done (rc, s') /\ driver_reachable s'.
Proof.
  intros Hok Hdump Hbug Hinit Hdr Hrp R.
  pose proof (driver_reachable_inv Hok Hdump Hbug Hinit Hdr Hrp s R) as I. split; [exact I|]. split.
  - destruct (i_sessions _ _ I) as [Ho Hl _]. rewrite Forall_forall in Ho. rewrite Forall_forall in Hl.
    apply Forall_forall. intros i Hi. split; [exact (Ho i Hi)|]. rewrite (Hl i Hi). now apply bool_decide_eq_false_2.
  - intros c.
    pose proof (every_driver_call False (or_intror Hok) (or_intror Hdump) (or_intror Hbug) Hinit Hdr Hrp c [] s I) as Hc.
    unfold wp in Hc. destruct (run_driver c s) as [[rc s']| |] eqn:E; [|destruct Hc..].
    exists rc, s'. split; [reflexivity|]. exact (run_step c s rc s' R E).
Qed.
End Driver.

(** ** Instances *)
#[local] Existing Instance VidcCoreThms.demo_config.
#[local] Existing Instance VidcCoreThms.demo_firmware.
#[local] Existing Instance VidcHfiThms.demo_platform.
#[local] Existing Instance VidcCoreThms.good_kernel.
#[local] Instance demo_needs : VidcNeeds :=
  {| needs := fun _ _ => {| sp_waiting := true; sp_active := true; sp_min_freq := 200000000; sp_dcvs_flags := 0;
                            sp_turbo := false; sp_ddr_bw := 500000; sp_sys_cache_bw := 0 |};
     clock_voting := 0; ddr_bw_vote := 0; llc_bw_vote := 0 |}.
#[local] Instance demo_driver : VidcDriver :=
  {| alloc_and_queue_input_internal_buffers := fun _ => ret 0; set_stage := fun _ => ret 0;
     set_pipe := fun _ => ret 0; subscribe_input_metadata := fun _ => ret 0;
     alloc_and_queue_additional_dpb_buffers := fun _ => ret 0; queue_deferred_output_buffers := fun _ => ret 0;
     interlace_unsupported := fun _ _ => false; before_streamon := fun _ _ => ret 0;
     after_streamon := fun _ _ => ret 0; other_action := fun _ _ => ret 0;
     num_queued_buffers := fun _ _ _ => 0; flush_input_timer := fun _ => ret 0;
     flush_buffers := fun _ _ => ret 0; flush_read_only_buffers := fun _ _ => ret 0 |}.
#[local] Instance demo_replies : VidcReplies :=
  {| input_port_settings_change := fun _ => ret 0; output_port_settings_change := fun _ => ret 0;
     session_property := fun _ _ _ _ => ret 0; session_buffer := fun _ _ _ => ret 0;
     handle_dequeue_buffers := fun _ => ret 0; init_input_subcr_params := fun _ => ret 0 |}.

(** A decoder's session in a state, with flags, locked or not, and a running
    core with it. *)
Definition demo_inst (st : msm_vidc_state) (sub : Z) (lock : bool) (pkt : option (list Z)) : msm_vidc_inst :=
  {| inst_id := 7; inst_locked := lock; inst_state := st; inst_event_handle := inst_handle_of st;
     inst_sub_state := sub; inst_domain := MSM_VIDC_DECODER; inst_codec := 1; inst_session_id := 0x7000;
     inst_packet := pkt; inst_secure_mode := 0; inst_request := false; inst_pending := [];
     inst_outbuf_fence := false; inst_last_flag_event := true; inst_caps := []; inst_signals := [0; 0; 0];
     inst_frame_info := no_frame_info; inst_events := [] |}.
Definition session_core (pkt : list Z) (i : msm_vidc_inst) : vidc_core :=
  set_instances [i] (VidcCoreThms.demo_core MSM_VIDC_CORE_INIT (Some msm_vidc_core_init_state) pkt 9 false 1).
Lemma session_core_inv X i : inst_ok i -> inst_locked i = bool_decide (X = Some (inst_id i)) ->
  core_inv X [inst_id i] false (session_core (replicate 4096 0) i).
Proof.
  intros Hi Hl. destruct (VidcCoreThms.demo_inv MSM_VIDC_CORE_INIT (replicate 4096 0) 9) as [];
    [discriminate|exact zero_packet|discriminate|discriminate|].
  assert (Ho : sessions_ok X [inst_id i] [i] []) .
  { split; cbn; apply Forall_singleton; [done..|]. now left. }
  split; try assumption. intros E. discriminate E.
Qed.
Lemma demo_inst_ok st sub lock : flags_ok sub = true -> inst_ok (demo_inst st sub lock (Some (replicate 4096 0))).
Proof. intros Hf. split; [reflexivity|exact Hf|exact zero_packet|reflexivity]. Qed.

(** The drained session of a decoder goes on without any flag. *)
Lemma vidc_resume_flags_witness :
  let s := session_core (replicate 4096 0) (demo_inst MSM_VIDC_STREAMING 0x35 false (Some (replicate 4096 0))) in
  exists rc s' i', msm_vidc_process_resume 7 s = Done (rc, s') /\ session 7 s' = Some i' /\
    inst_sub_state i' = if rc =? 0 then 0 else 0x35.
Proof.
  intros s.
  destruct (vidc_resume_flags None [7] 7 s (demo_inst MSM_VIDC_STREAMING 0x35 false (Some (replicate 4096 0)))
    VidcCoreThms.good_platform
    (session_core_inv None _ (demo_inst_ok MSM_VIDC_STREAMING 0x35 false eq_refl) eq_refl)
    (or_introl eq_refl) eq_refl ltac:(discriminate)) as (rc & s' & i' & E & _ & E' & _ & _ & Ef).
  exists rc, s', i'. split; [exact E|]. split; [exact E'|exact Ef].
Defined.

Lemma vidc_drain_protocol_witness :
  let i1 := snd (msm_vidc_change_sub_state 0 MSM_VIDC_DRAIN (demo_inst MSM_VIDC_STREAMING 0 true None)) in
  inst_events (snd (handle_session_info HFI_INFO_HFI_FLAG_DRAIN_LAST (snd (handle_session_drain i1)))) =
  [V4L2_EVENT_EOS].
Proof.
  exact (proj1 (proj2 (proj2 (proj2 (proj2 (proj2
    (vidc_drain_protocol (demo_inst MSM_VIDC_STREAMING 0 true None) eq_refl eq_refl eq_refl eq_refl))))))).
Defined.

Definition port_change : hfi_packet :=
  {| hp_size := 32; hp_type := HFI_CMD_SETTINGS_CHANGE; hp_flags := 0; hp_payload_info := 0;
     hp_port := HFI_PORT_BITSTREAM; hp_packet_id := 0 |}.
Lemma vidc_input_psc_by_state_witness :
  exists s', handle_session_command 7 [] 0 port_change (session_core [] (demo_inst MSM_VIDC_OPEN 0 true None)) =
    Done (- EINVAL, s') /\ exists i', session 7 s' = Some i' /\ inst_state i' = MSM_VIDC_ERROR.
Proof.
  destruct (vidc_input_psc_by_state 7 [] 0 port_change
    (session_core [] (demo_inst MSM_VIDC_OPEN 0 true None)) (demo_inst MSM_VIDC_OPEN 0 true None) eq_refl eq_refl eq_refl)
    as [_ Hs]. exact (Hs eq_refl).
Defined.

(** The drain that is done and its last buffer in one message, in this order:
    the last buffer is handled first, and is an error.  With a flagged packet
    in front, the error of the session is reported four times. *)
Definition drain_message : list Z :=
  concat (map le32 ([128; 0x7000; 1; 0; 0; 0; 0; 3] ++ [32; 0; HFI_FW_FLAGS_SESSION_ERROR; 0; 0; 0; 0; 0] ++
                    [32; HFI_CMD_DRAIN; 0; 0; 0; 1; 0; 0] ++ [32; HFI_INFO_HFI_FLAG_DRAIN_LAST; 0; 0; 0; 2; 0; 0])).
Definition is_report (step : message_step) : bool := match step with ReportError => true | Handle _ => false end.
Lemma vidc_session_message_order_witness :
  let s := session_core [] (demo_inst MSM_VIDC_STREAMING MSM_VIDC_DRAIN true None) in
  exists s' l, __handle_session_response 7 drain_message s = Done (0, s') /\
    map inst_state (vc_instances s') = [MSM_VIDC_ERROR] /\
    message_packets drain_message packet_size = Done l /\
    map is_report (flat_map (range_steps 7 drain_message l) session_ranges) = [true; true; false; true; true; false].
Proof.
  intros s. assert (Hl : exists l, message_packets drain_message packet_size = Done l) by (eexists; vm_compute; reflexivity).
  destruct Hl as [l E]. pose proof (vidc_session_message_order 7 drain_message l s E) as Hr.
  pose proof E as El. vm_compute in E. injection E as <-.
  eexists _, _. split; [rewrite Hr; vm_compute; reflexivity|]. split; [vm_compute; reflexivity|].
  split; [exact El|vm_compute; reflexivity].
Defined.

Lemma vidc_kill_session_ends_witness :
  exists s' i', msm_vidc_kill_session 7 (ret 0)
    (session_core (replicate 4096 0) (demo_inst MSM_VIDC_STREAMING 0 true (Some (replicate 4096 0)))) = Done (0, s') /\
    session 7 s' = Some i' /\ (inst_state i' = MSM_VIDC_ERROR \/ inst_state i' = MSM_VIDC_CLOSE).
Proof.
  destruct (vidc_kill_session_ends [7] 7 (ret 0) _ (demo_inst MSM_VIDC_STREAMING 0 true (Some (replicate 4096 0)))
    VidcCoreThms.good_platform VidcCoreThms.no_dump
    (session_core_inv (Some 7) _ (demo_inst_ok MSM_VIDC_STREAMING 0 true eq_refl) eq_refl)
    (or_introl eq_refl) eq_refl ltac:(discriminate) (ok_ret False None [7] 0))
    as (s' & i' & E & _ & Es & Hi).
  exists s', i'. split; [exact E|]. split; [exact Es|exact Hi].
Defined.

Lemma vidc_session_states_witness :
  map inst_state (changes [ChStreamon INPUT_PORT; ChStreamon OUTPUT_PORT; ChStreamoff INPUT_PORT; ChStreamoff OUTPUT_PORT;
                           ChStreamon INPUT_PORT; ChStreamon INPUT_PORT] (demo_inst MSM_VIDC_OPEN 0 true None)) =
  [MSM_VIDC_OPEN; MSM_VIDC_INPUT_STREAMING; MSM_VIDC_STREAMING; MSM_VIDC_OUTPUT_STREAMING; MSM_VIDC_OPEN;
   MSM_VIDC_INPUT_STREAMING; MSM_VIDC_ERROR].
Proof.
  destruct (vidc_session_states [] (demo_inst MSM_VIDC_OPEN 0 true None)) as (_ & _ & Hp).
  exact (Hp INPUT_PORT eq_refl eq_refl).
Defined.

(** Behind the probe, a start of the core and of a port of a session. *)
Lemma demo_driver_ok K id : In id K -> driver_ok False (Some id) K id.
Proof. intros _. split; intros; apply ok_ret. Qed.
Lemma demo_replies_ok K id : In id K -> replies_ok False (Some id) K id.
Proof. intros _. split; intros; apply ok_ret. Qed.
Lemma vidc_driver_invariant_witness :
  exists s, core_inv None [] false s /\ exists rc s',
    run_driver (RunSequence (RunCore CallInit) (RunStreamoff 7 INPUT_MPLANE (fun _ => RunClose 7 (RunCmd 7 true)))) s =
    Done (rc, s') /\ driver_reachable s'.
Proof.
  set (s0 := VidcCoreThms.demo_core MSM_VIDC_CORE_DEINIT None [] 0 false 0).
  assert (Hp : exists s, probe_core s0 = Done (0, s)) by (eexists; reflexivity).
  destruct Hp as [s Hp].
  assert (R : driver_reachable s).
  { apply (run_probe s0 s); [|exact Hp]. split; try reflexivity. exact (VidcCoreThms.demo_fresh MSM_VIDC_CORE_DEINIT false). }
  destruct (vidc_driver_invariant s VidcCoreThms.good_platform VidcCoreThms.no_dump VidcCoreThms.no_bug
    VidcCoreThms.demo_init_ok demo_driver_ok demo_replies_ok R) as (I & _ & Hc).
  exists s. split; [exact I|exact (Hc _)].
Defined.
