(* ===== verification/VidcCmdThms.v ===== *)
(** The properties of what is sent for sessions: messages that were kept back
    while a request was served go into the message of the next buffer; which
    rate of the table the clock is voted for. *)
From S2P Require Import Prelude VidcQueue VidcMem VidcHfi VidcPacket VidcPacketSpec VidcBuffer.
From S2P Require Import VidcSession VidcCore VidcPower VidcVenus VidcCmds VidcScale.
From S2P Require Import VidcCoreInv VidcFlowInv VidcCoreThms VidcSessionThms.
From Stdlib Require Import Sorting.Sorted.

(** A packet of another message behind the packets of a message. *)
Section CopyPacket.
Variables (sid hid : Z) (ps : list packet) (p : packet) (pre post rest : list Z).
Let src := pre ++ packet_bytes p ++ post.
Hypotheses (Hp : packet_fits p) (Hl : message_length ps + packet_length p < 2 ^ 31).

Lemma packet_size_read : load32 (zlength pre) src = Done (packet_length p).
Proof.
  unfold src, packet_bytes. rewrite <- !app_assoc, <- (Z.add_0_r (zlength pre)). change 0 with (4 * 0).
  rewrite (load32_words pre (packet_head p) _ 0 (packet_length p) eq_refl), u32_small; [done|apply Hp].
Qed.
Lemma packet_read : load (zlength pre) (packet_length p) src = Done (packet_bytes p).
Proof. apply load_app. symmetry. apply zlength_packet_bytes. Qed.
(** The header counts the packet that is there already. *)
Lemma packet_counted tail :
  (n ← load32 28 (message_bytes sid hid ps ++ packet_bytes p ++ tail);
   b ← store32 28 (n + 1) (message_bytes sid hid ps ++ packet_bytes p ++ tail);
   store32 0 (message_length ps + packet_length p) b) =
  Done (message_bytes sid hid (ps ++ [p]) ++ tail).
Proof.
  pose proof (packets_in_body ps) as Hn. pose proof (zlength_nonneg ps) as Hps. pose proof (packet_length_pos p).
  assert (Hm : message_length ps = 32 + zlength (body_bytes ps)) by reflexivity.
  change (load32 28) with (load32 (4 * 7)). rewrite (message_word sid hid ps 7 (zlength ps)) by reflexivity.
  cbn [mbind exec_bind]. rewrite (u32_small (zlength ps)) by lia. unfold message_bytes at 1. rewrite <- app_assoc.
  pose proof (store32_words [] (header_head sid hid ps) (body_bytes ps ++ packet_bytes p ++ tail) 7
    (zlength ps + 1) ltac:(unfold zlength; cbn; lia)) as Hst.
  change (zlength [] + 4 * 7) with 28 in Hst. cbn [app] in Hst. rewrite Hst. clear Hst. cbn [mbind exec_bind].
  pose proof (store32_words [] (zinsert 7 (zlength ps + 1) (header_head sid hid ps)) (body_bytes ps ++ packet_bytes p ++ tail) 0
    (message_length ps + packet_length p) ltac:(rewrite zlength_insert; unfold zlength; cbn; lia)) as Hst.
  change (zlength [] + 4 * 0) with 0 in Hst. cbn [app] in Hst. rewrite Hst. clear Hst.
  unfold message_bytes, header_head. rewrite message_length_snoc, body_snoc, zlength_app, <- !app_assoc. reflexivity.
Qed.

Lemma copy_packet num : packet_length p <= zlength rest -> zlength pre <= message_length ps ->
  copy_packets (S num) src (zlength pre) (message_bytes sid hid ps ++ rest) =
  copy_packets num src (zlength pre + packet_length p)
    (message_bytes sid hid (ps ++ [p]) ++ drop (Z.to_nat (packet_length p)) rest).
Proof.
  intros Hr Ho. pose proof (packet_length_pos p). pose proof (message_length_pos ps). pose proof (zlength_nonneg pre).
  cbn [copy_packets]. rewrite message_size by lia. cbn [mbind exec_bind]. rewrite packet_size_read. cbn [mbind exec_bind].
  rewrite packet_read. cbn [mbind exec_bind].
  assert (Hst : store (message_length ps) (packet_bytes p) (message_bytes sid hid ps ++ rest) =
    Done (message_bytes sid hid ps ++ packet_bytes p ++ drop (Z.to_nat (packet_length p)) rest)).
  { rewrite <- (zlength_message sid hid). rewrite <- (take_drop (Z.to_nat (packet_length p)) rest) at 1. apply store_app.
    rewrite zlength_packet_bytes, zlength_take by lia. reflexivity. }
  rewrite Hst. cbn [mbind exec_bind]. pose proof (packet_counted (drop (Z.to_nat (packet_length p)) rest)) as Hc.
  destruct (load32 28 _) as [n| |]; cbn [mbind exec_bind] in Hc; [|done..]. cbn [mbind exec_bind].
  destruct (store32 28 _ _) as [b| |]; cbn [mbind exec_bind] in Hc; [|done..]. cbn [mbind exec_bind].
  rewrite Hc. cbn [mbind exec_bind]. rewrite u32_small by lia. now rewrite (proj2 (Z.ltb_ge _ _)) by lia.
Qed.
(** Without room the write goes behind the buffer. *)
Lemma copy_outside num : zlength rest < packet_length p ->
  copy_packets (S num) src (zlength pre) (message_bytes sid hid ps ++ rest) = Fault.
Proof.
  intros Hr. pose proof (message_length_pos ps). pose proof (packet_length_pos p).
  cbn [copy_packets]. rewrite message_size by lia. cbn [mbind exec_bind]. rewrite packet_size_read. cbn [mbind exec_bind].
  rewrite packet_read. cbn [mbind exec_bind]. unfold store. rewrite zlength_app, zlength_message, zlength_packet_bytes.
  rewrite (proj2 (Z.leb_gt (_ + _) _)) by lia. now rewrite andb_false_r.
Qed.
End CopyPacket.

(** The packets of a whole message. *)
Lemma copy_message sid hid qs : forall ps pre post rest,
  Forall packet_fits qs -> message_length ps + zlength (body_bytes qs) < 2 ^ 31 -> zlength pre <= message_length ps ->
  (zlength (body_bytes qs) <= zlength rest ->
   copy_packets (length qs) (pre ++ body_bytes qs ++ post) (zlength pre) (message_bytes sid hid ps ++ rest) =
   Done (0, message_bytes sid hid (ps ++ qs) ++ drop (Z.to_nat (zlength (body_bytes qs))) rest)) /\
  (zlength rest < zlength (body_bytes qs) ->
   copy_packets (length qs) (pre ++ body_bytes qs ++ post) (zlength pre) (message_bytes sid hid ps ++ rest) = Fault).
Proof.
  induction qs as [|q qs IH]; intros ps pre post rest Hf Hl Ho.
  { change (zlength (body_bytes [])) with 0. split; [intros _; cbn; now rewrite app_nil_r, drop_0|].
    pose proof (zlength_nonneg rest). lia. }
  inversion Hf as [|? ? Hq Hqs]; subst. rewrite body_cons, zlength_app, zlength_packet_bytes in *.
  pose proof (packet_length_pos q) as Hpos. pose proof (zlength_nonneg (body_bytes qs)).
  cbn [length]. rewrite <- (app_assoc (packet_bytes q)).
  destruct (Z.lt_ge_cases (zlength rest) (packet_length q)) as [Hr|Hr].
  { split; [lia|]. intros _. apply copy_outside; [exact Hq|lia|exact Hr]. }
  rewrite (copy_packet sid hid ps q pre (body_bytes qs ++ post) rest Hq) by lia.
  assert (Hd : zlength (drop (Z.to_nat (packet_length q)) rest) = zlength rest - packet_length q).
  { unfold zlength in *. rewrite length_drop. lia. }
  destruct (IH (ps ++ [q]) (pre ++ packet_bytes q) post (drop (Z.to_nat (packet_length q)) rest) Hqs) as [I1 I2].
  { rewrite message_length_snoc. lia. }
  { rewrite message_length_snoc, zlength_app, zlength_packet_bytes. lia. }
  rewrite zlength_app, zlength_packet_bytes, <- !app_assoc, Hd in I1, I2. cbn [app] in I1. split; intros Hz.
  - rewrite I1 by lia. rewrite drop_drop, Z2Nat.inj_add, <- (app_assoc ps) by lia. reflexivity.
  - apply I2. lia.
Qed.

(** ** Properties *)

(** A message that is kept back: who it is for, its number and its packets,
    and what is behind it in its buffer. *)
Record kept_message := {
  km_sid : Z;
  km_hid : Z;
  km_packets : list packet;
  km_rest : list Z }.
Definition kept_bytes (m : kept_message) : list Z :=
  message_bytes (km_sid m) (km_hid m) (km_packets m) ++ km_rest m.
Definition kept_packets (ms : list kept_message) : list packet := concat (map km_packets ms).

Lemma kept_read m : zlength (km_packets m) < 2 ^ 32 -> load32 28 (kept_bytes m) = Done (zlength (km_packets m)).
Proof.
  intros Hn. pose proof (zlength_nonneg (km_packets m)). change 28 with (4 * 7). unfold kept_bytes.
  rewrite (message_word _ _ _ 7 (zlength (km_packets m))) by reflexivity. rewrite u32_small by lia. reflexivity.
Qed.
Lemma kept_cons m ms :
  zlength (body_bytes (kept_packets (m :: ms))) = zlength (body_bytes (km_packets m)) + zlength (body_bytes (kept_packets ms)).
Proof. unfold kept_packets, body_bytes. cbn [map concat]. now rewrite fmap_app, concat_app, zlength_app. Qed.

Lemma add_pending_ok sid hid ms : forall ps rest,
  Forall (fun m => Forall packet_fits (km_packets m)) ms ->
  message_length ps + zlength (body_bytes (kept_packets ms)) < 2 ^ 31 ->
  (zlength (body_bytes (kept_packets ms)) <= zlength rest ->
   add_pending_messages (map kept_bytes ms) (message_bytes sid hid ps ++ rest) =
   Done (0, [], message_bytes sid hid (ps ++ kept_packets ms) ++ drop (Z.to_nat (zlength (body_bytes (kept_packets ms)))) rest)) /\
  (zlength rest < zlength (body_bytes (kept_packets ms)) ->
   add_pending_messages (map kept_bytes ms) (message_bytes sid hid ps ++ rest) = Fault).
Proof.
  induction ms as [|m ms IH]; intros ps rest Hf Hl.
  { change (zlength (body_bytes (kept_packets []))) with 0. split; [intros _; cbn; now rewrite app_nil_r, drop_0|].
    pose proof (zlength_nonneg rest). lia. }
  inversion Hf as [|? ? Hm Hms]; subst. rewrite kept_cons in *. pose proof (message_length_pos ps).
  pose proof (zlength_nonneg (body_bytes (kept_packets ms))). pose proof (zlength_nonneg (km_packets m)).
  pose proof (packets_in_body (km_packets m)). pose proof (zlength_nonneg (body_bytes (km_packets m))).
  cbn [map add_pending_messages]. rewrite kept_read by lia. cbn [mbind exec_bind]. rewrite (proj2 (Z.ltb_lt _ _)) by lia.
  assert (En : Z.to_nat (zlength (km_packets m)) = length (km_packets m)) by (unfold zlength; apply Nat2Z.id).
  rewrite En.
  destruct (copy_message sid hid (km_packets m) ps (words (header_head (km_sid m) (km_hid m) (km_packets m)))
    (km_rest m) rest Hm) as [C1 C2]; [lia|rewrite zlength_words; unfold zlength at 1; cbn [length header_head]; lia|].
  rewrite zlength_words in C1, C2. change (4 * zlength (header_head _ _ _)) with sizeof_hfi_header in C1, C2.
  assert (Ek : kept_bytes m = words (header_head (km_sid m) (km_hid m) (km_packets m)) ++ body_bytes (km_packets m) ++ km_rest m).
  { unfold kept_bytes, message_bytes. now rewrite <- app_assoc. }
  rewrite <- Ek in C1, C2.
  destruct (Z.lt_ge_cases (zlength rest) (zlength (body_bytes (km_packets m)))) as [Hr|Hr].
  { split; [lia|]. intros _. now rewrite C2. }
  rewrite C1 by lia. cbn [mbind exec_bind negb Z.eqb].
  set (rest1 := drop _ rest).
  assert (Hd : zlength rest1 = zlength rest - zlength (body_bytes (km_packets m))).
  { unfold rest1, zlength in *. rewrite length_drop. lia. }
  destruct (IH (ps ++ km_packets m) rest1 Hms) as [I1 I2]; [rewrite message_length_app; lia|].
  rewrite Hd, <- (app_assoc ps) in *. split; intros Hz; [|apply I2; lia].
  rewrite I1 by lia. unfold rest1. now rewrite drop_drop, Z2Nat.inj_add by lia.
Qed.

Section Properties.
Context `{VidcKernel} `{VidcConfig} `{VidcFirmware} `{VidcPlatform}.

(** C11: the packets of all messages that were kept back go behind the
    packets of the message that is sent with the next buffer, in their order,
    counted in its header, and nothing stays kept back - when they fit into
    its buffer.  When they do not, nothing stops them: the driver writes
    behind its buffer. *)
Theorem vidc_pending_packets_merged id s i sid hid ps rest ms :
  session id s = Some i -> inst_packet i = Some (message_bytes sid hid ps ++ rest) ->
  inst_pending i = map kept_bytes ms -> Forall (fun m => Forall packet_fits (km_packets m)) ms ->
  message_length (ps ++ kept_packets ms) < 2 ^ 31 ->
  let added := zlength (body_bytes (kept_packets ms)) in
  (message_length (ps ++ kept_packets ms) <= message_length ps + zlength rest ->
   venus_hfi_add_pending_packets id s =
   Done (0, session_upd id (fun i => set_inst_pending [] (set_inst_packet
     (Some (message_bytes sid hid (ps ++ kept_packets ms) ++ drop (Z.to_nat added) rest)) i)) s)) /\
  (message_length ps + zlength rest < message_length (ps ++ kept_packets ms) ->
   venus_hfi_add_pending_packets id s = Fault).
Proof.
  intros Es Ep Ek Hf Hl. cbv zeta. rewrite message_length_app in *. pose proof (message_length_pos ps).
  pose proof (zlength_nonneg (body_bytes (kept_packets ms))).
  destruct (add_pending_ok sid hid ms ps rest Hf Hl) as [A1 A2].
  unfold venus_hfi_add_pending_packets, reading, looking. rewrite Es, Ep, Ek, message_size by lia.
  cbn [mbind exec_bind]. unfold sizeof_hfi_header. rewrite (proj2 (Z.ltb_ge _ _)) by lia. split; intros Hz.
  - rewrite A1 by lia. cbn [mbind exec_bind]. reflexivity.
  - rewrite A2 by lia. reflexivity.
Qed.
End Properties.

(** ** Instances *)
#[local] Existing Instance VidcHfiThms.demo_platform.

(** A property that is kept back, and a command in a buffer with room for
    [room] bytes more. *)
Definition demo_packet (ty : Z) (payload : list Z) : packet :=
  {| p_type := ty; p_flags := 0; p_payload_info := 0; p_port := 0; p_id := 1; p_payload := payload |}.
Definition demo_kept : list kept_message :=
  [{| km_sid := 0x7000; km_hid := 1; km_packets := [demo_packet HFI_PROP_CODEC (le32 1)]; km_rest := replicate 8 0 |}].
Definition keeping_inst (room : nat) : msm_vidc_inst :=
  set_inst_pending (map kept_bytes demo_kept)
    (demo_inst MSM_VIDC_STREAMING 0 true
       (Some (message_bytes 0x7000 2 [demo_packet HFI_CMD_START []] ++ replicate room 0))).
Lemma vidc_pending_packets_merged_witness :
  (exists s', venus_hfi_add_pending_packets 7 (session_core [] (keeping_inst 40)) = Done (0, s') /\
    option_map inst_packet (session 7 s') =
    Some (Some (message_bytes 0x7000 2 [demo_packet HFI_CMD_START []; demo_packet HFI_PROP_CODEC (le32 1)] ++
                replicate 4 0))) /\
  venus_hfi_add_pending_packets 7 (session_core [] (keeping_inst 35)) = Fault.
Proof.
  assert (Hf : Forall (fun m => Forall packet_fits (km_packets m)) demo_kept).
  { apply Forall_singleton, Forall_singleton. repeat split; vm_compute; (reflexivity || discriminate). }
  split.
  - destruct (vidc_pending_packets_merged 7 (session_core [] (keeping_inst 40)) (keeping_inst 40) 0x7000 2
      [demo_packet HFI_CMD_START []] (replicate 40 0) demo_kept eq_refl eq_refl eq_refl Hf eq_refl) as [Hm _].
    eexists. split; [apply Hm; vm_compute; discriminate|reflexivity].
  - destruct (vidc_pending_packets_merged 7 (session_core [] (keeping_inst 35)) (keeping_inst 35) 0x7000 2
      [demo_packet HFI_CMD_START []] (replicate 35 0) demo_kept eq_refl eq_refl eq_refl Hf eq_refl) as [_ Hm].
    apply Hm. reflexivity.
Defined.

(** ** The clock *)

(** The sessions that count. *)
Definition counts (p : session_power) : bool := sp_waiting p && sp_active p.
Definition wants (flag : Z) (p : session_power) : bool := negb (Z.land (sp_dcvs_flags p) flag =? 0).
Definition total_freq (l : list session_power) : Z := foldr Z.add 0 (map sp_min_freq l).

Lemma needed_all l : forall freq inc dec, 0 <= freq < 2 ^ 64 ->
  needed_rate 0 l freq inc dec =
  ((freq + total_freq (List.filter counts l)) mod 2 ^ 64,
   inc || existsb (wants MSM_VIDC_DCVS_INCR) (List.filter counts l),
   dec && forallb (wants MSM_VIDC_DCVS_DECR) (List.filter counts l)).
Proof.
  induction l as [|p l IH]; intros freq inc dec Hf; cbn [needed_rate List.filter].
  - unfold total_freq. cbn. now rewrite Z.add_0_r, Z.mod_small, orb_false_r, andb_true_r by lia.
  - fold (counts p). destruct (counts p); cbn [negb Z.eqb]; [|now apply IH].
    rewrite IH by (apply Z.mod_pos_bound; lia). unfold total_freq. cbn [map foldr existsb forallb].
    rewrite Zplus_mod_idemp_l, <- !orb_assoc, <- !andb_assoc, <- Z.add_assoc.
    reflexivity.
Qed.
Lemma needed_voting v l : v <> 0 -> forall freq inc dec,
  needed_rate v l freq inc dec = if existsb counts l then (v, inc, false) else (freq, inc, dec).
Proof.
  intros Hv freq inc dec. induction l as [|p l IH]; [reflexivity|]. cbn [needed_rate existsb]. fold (counts p).
  destruct (counts p); cbn [negb orb]; [|exact IH]. apply Z.eqb_neq in Hv. now rewrite Hv.
Qed.

(** *** The table *)
Lemma find_rate_spec tbl freq i r0 : (i <= length tbl)%nat -> (0 < i)%nat ->
  exists j, fst (find_rate tbl freq i r0) = j /\ tbl !! j = Some (snd (find_rate tbl freq i r0)) /\ (j < i)%nat /\
    (forall k x, (j < k < i)%nat -> tbl !! k = Some x -> x < freq) /\
    (snd (find_rate tbl freq i r0) < freq -> j = 0%nat).
Proof.
  revert r0. induction i as [|i IH]; intros r0 Hl Hp; [lia|]. cbn [find_rate]. cbv zeta.
  destruct (lookup_lt_is_Some_2 tbl i ltac:(lia)) as [r Er].
  assert (Ed : default 0 (tbl !! i) = r) by now rewrite Er. rewrite Ed.
  destruct (r >=? freq) eqn:E; rewrite Z.geb_leb in E; zb.
  - exists i. cbn. repeat split; [exact Er|lia|intros k x Hk; lia|lia].
  - destruct i as [|i'].
    + exists 0%nat. cbn. repeat split; [exact Er|lia|intros k x Hk; lia].
    + destruct (IH r) as (j & Ej & Er' & Hj & Hk & H0); [lia..|]. exists j. split; [exact Ej|]. split; [exact Er'|].
      split; [lia|]. split; [|exact H0]. intros k x Hlt Ex. destruct (decide (k = S i')) as [->|Hne]; [congruence|].
      apply (Hk k x); [lia|exact Ex].
Qed.

(** Rates in falling order. *)
Definition falling : list Z -> Prop := StronglySorted (fun a b => b < a).
Lemma falling_lt tbl j k x y : falling tbl -> tbl !! j = Some x -> tbl !! k = Some y -> (j < k)%nat -> y < x.
Proof.
  intros Hs. revert j k. induction Hs as [|a l Hs IH Hf]; intros j k Ex Ey Hlt; [done|].
  destruct k as [|k]; [lia|]. cbn in Ey. destruct j as [|j]; cbn in Ex.
  - injection Ex as <-. rewrite List.Forall_forall in Hf. apply Hf. apply list_elem_of_In. eapply list_elem_of_lookup_2, Ey.
  - apply (IH j k); auto. lia.
Qed.

Lemma new_rate_spec tbl freq inc dec : falling tbl -> tbl <> [] ->
  exists j r, tbl !! j = Some r /\
    (forall x, x ∈ tbl -> freq <= x -> freq <= r <= x) /\
    ((forall x, x ∈ tbl -> x < freq) -> j = 0%nat) /\
    new_rate tbl (freq, inc, dec) =
      if inc then default r (tbl !! Nat.pred j) else if dec then default r (tbl !! S j) else r.
Proof.
  intros Hs Hne. destruct (find_rate_spec tbl freq (length tbl) 0) as (j & Ej & Er & Hj & Hk & H0);
    [lia|destruct tbl; [done|cbn; lia]|].
  unfold new_rate. destruct (find_rate tbl freq (length tbl) 0) as [i r]. cbn [fst snd] in *. subst i.
  exists j, r. split; [exact Er|]. split; [|split].
  - intros x Hx Hf. apply list_elem_of_lookup_1 in Hx as [k Ek].
    pose proof (lookup_lt_Some _ _ _ Ek). destruct (Nat.lt_trichotomy j k) as [Hlt|[->|Hgt]].
    + pose proof (Hk k x ltac:(lia) Ek). lia.
    + assert (x = r) by congruence. subst. lia.
    + destruct (Z.lt_ge_cases r freq) as [Hr|Hr]; [specialize (H0 Hr); lia|].
      pose proof (falling_lt tbl k j x r Hs Ek Er Hgt). lia.
  - intros Hall. apply H0, Hall. eapply list_elem_of_lookup_2, Er.
  - destruct inc; [destruct j; [cbn [Nat.pred]; now rewrite Er|]|].
    + cbn [Nat.pred]. destruct (lookup_lt_is_Some_2 tbl j ltac:(lia)) as [x ->]. reflexivity.
    + destruct dec; [|reflexivity]. unfold zlength. destruct (_ <? _) eqn:E; zb.
      * destruct (lookup_lt_is_Some_2 tbl (S j) ltac:(lia)) as [x ->]. reflexivity.
      * now rewrite (lookup_ge_None_2 tbl (S j)) by lia.
Qed.


(** What is needed of the clock: its rate, and the requests of DCVS - to
    raise it, of any session, and to lower it, of all of them. *)
Definition needed_of (voting : Z) (l : list session_power) : Z * bool * bool :=
  let active := List.filter counts l in
  if existsb counts l && negb (voting =? 0) then (voting, false, false)
  else (total_freq active mod 2 ^ 64, existsb (wants MSM_VIDC_DCVS_INCR) active,
        forallb (wants MSM_VIDC_DCVS_DECR) active).
Lemma needed_of_ok voting l : needed_rate voting l 0 false true = needed_of voting l.
Proof.
  unfold needed_of. destruct (Z.eqb_spec voting 0) as [->|Hv].
  - rewrite needed_all by lia. cbn [negb]. now rewrite andb_false_r.
  - rewrite needed_voting by exact Hv. cbn [negb]. rewrite andb_true_r. destruct (existsb counts l) eqn:E; [done|].
    assert (El : List.filter counts l = []).
    { clear Hv. induction l as [|p l IH]; [done|]. cbn in *. apply orb_false_iff in E as [-> E]. now apply IH. }
    now rewrite El.
Qed.

Section Property.
Context `{VidcKernel} `{VidcConfig} `{VidcFirmware} `{VidcPlatform} `{VidcNeeds}.

(** C13: the rate msm_vidc_set_clocks votes for.  The sessions that have
    input and got some lately count, with the sum of their rates, or with the
    rate of the module parameter.  Of a table in falling order the least rate
    that is enough is taken, the highest one if none is; a session that runs
    out of buffers raises the vote by one step where there is one, and if all
    of them have too many it is lowered by one step, below what they need. *)
Theorem vidc_clock_vote s freq inc dec :
  core_locked (vc_hfi s) = false -> falling freq_tbl -> freq_tbl <> [] ->
  needed_of clock_voting (all_needs (lock_core true s)) = (freq, inc, dec) ->
  exists j r rate s1,
    freq_tbl !! j = Some r /\
    (forall x, x ∈ freq_tbl -> freq <= x -> freq <= r <= x) /\
    ((forall x, x ∈ freq_tbl -> x < freq) -> j = 0%nat) /\
    rate = (if inc then default r (freq_tbl !! Nat.pred j) else if dec then default r (freq_tbl !! S j) else r) /\
    msm_vidc_set_clocks s = venus_hfi_scale_clocks rate s1 /\
    clk_freq (vc_power s1) = u32 rate /\ vc_instances s1 = vc_instances s /\ core_locked (vc_hfi s1) = false.
Proof.
  intros Hl Hs Hne En. rewrite <- needed_of_ok in En.
  destruct (new_rate_spec freq_tbl freq inc dec Hs Hne) as (j & r & Ej & Hr & Hj & Er).
  exists j, r, (new_rate freq_tbl (freq, inc, dec)),
    (lock_core false (set_clk_freq (u32 (new_rate freq_tbl (freq, inc, dec))) (lock_core true s))).
  do 3 (split; [assumption|]). split; [exact Er|]. split; [|now split].
  unfold msm_vidc_set_clocks. rewrite bool_decide_eq_false_2 by exact Hne.
  unfold bind_op at 1, locked, after at 1, bind_op at 1, core_lock. rewrite Hl. cbn [mbind exec_bind fst snd].
  unfold looking. change (set_hfi (with_locked true (vc_hfi s)) s) with (lock_core true s). unfold bind_op at 1. cbv beta. rewrite En. reflexivity.
Qed.
End Property.

(** *** An instance *)
Definition demo_tbl : list Z := [480000000; 338000000; 240000000].
#[local] Existing Instance VidcCoreThms.good_kernel.
#[local] Existing Instance VidcCoreThms.demo_firmware.
#[local] Existing Instance VidcSessionThms.demo_needs.
#[local] Instance scale_config : VidcConfig :=
  {| num_vpp_pipe := 2; syscache_off := false; freq_tbl := demo_tbl; reg_prst_tbl := [];
     iface_q_table_vaddr := 0x7f0000000000 |}.

(** One session that needs 200 MHz. *)
Lemma vidc_clock_vote_witness :
  exists s1, msm_vidc_set_clocks (session_core [] (demo_inst MSM_VIDC_STREAMING 0 false None)) =
    venus_hfi_scale_clocks 240000000 s1 /\ clk_freq (vc_power s1) = 240000000.
Proof.
  assert (Hf : falling freq_tbl).
  { unfold freq_tbl. cbn. unfold demo_tbl, falling. repeat constructor. }
  destruct (vidc_clock_vote (session_core [] (demo_inst MSM_VIDC_STREAMING 0 false None)) 200000000 false false
    eq_refl Hf ltac:(discriminate) ltac:(vm_compute; reflexivity)) as (j & r & rate & s1 & Ej & Hr & _ & E & Es & Ec & _).
  assert (Er : r = 240000000).
  { clear E Es Ec. change (demo_tbl !! j = Some r) in Ej.
    assert (Hin : 240000000 ∈ demo_tbl) by (apply list_elem_of_In; right; right; now left).
    assert (Hle : 200000000 <= 240000000) by (clear; lia).
    pose proof (Hr 240000000 Hin Hle) as [_ Hx]. clear - Ej Hx. unfold demo_tbl in Ej.
    destruct j as [|[|[|]]]; [injection Ej as E; lia..|now injection Ej as E|done]. }
  rewrite Er in E. rewrite E in Es, Ec. exists s1. split; [exact Es|exact Ec].
Defined.
